(* ===== verification/_CoqProject ===== *)
-Q . S2P
Prelude.v
TransitionGraph.v
Lifecycle.v
Mode.v
Residency.v
Actor.v
GoFloat.v
GoFloatBounds.v
Sha256.v
StateVector.v
KVState.v
Composition.v
GoHeap.v
TokenQueue.v
BinaryTensor.v
AccessPlane.v
Resilience.v
GoStrings.v
Adaptive.v
Airgap.v
Conformance.v
ConformanceVectors.v
GoTime.v
AIPack.v
AIPackGovernance.v
LoraGovernance.v
DecisionProfile.v
InferencePool.v
LoraPin.v
InferencePrimitives.v
RequestPipeline.v
K8s.v
ApiV1.v
ApiV1alpha2.v
Conversion.v
ConversionRoundTrip.v
GoRegexp.v
GoBase64.v
GoJson.v
Redaction.v
Admission.v
FlightRecorder.v
Receipts.v
AuditEvents.v
K8sPods.v
RuntimeContract.v
VllmAdapter.v
SglangAdapter.v
TensorfoldAdapter.v
RuntimeRegistry.v
Webhook.v
SurfaceInventory.v
WebhookAdmission.v
AIPackWebhook.v
Topology.v
GoFilepath.v
ParallelDownload.v
OCIReference.v
StagingTransaction.v
GoRFC3339.v
StagingRecovery.v
StagingWitness.v
Auth.v
Onboarding.v
LocalModelCache.v
SessionControllers.v
StorageSources.v
K8sObjects.v
DeploymentSync.v
DeploymentBuilder.v
DeploymentProperties.v
WellKnown.v
ServiceStatus.v
GovernanceEvidence.v
ServiceReconcile.v
GatewayRoutes.v
LoraController.v
NetworkIsolation.v
Abi.v
