(* ===== verification/Prelude.v ===== *)
(** * CKodex KServe LLM operator: verification library

    The repository is a Kubernetes operator, written in Go, that serves large
    language models.  Users declare services, adapters, sessions, caches and
    onboardings as custom resources; webhooks admit them, controllers move
    the cluster towards them, an initializer stages model artifacts on
    nodes, and a request path authenticates, admits, queues and routes
    inference requests.  A kernel of state machines governs what may serve.
    The library translates the Go definitions into executable Rocq
    definitions and proves theorems about them.

    ** Conventions

    A definition keeps the name of the Go function or type it translates.
    Integers are [Z] with the wrap-around of their width ([i64_wrap],
    [i32_wrap], [u64_wrap]) wherever arithmetic can leave the range.  Go
    strings are byte strings; string types that callers or persisted objects
    can fill with anything are strings, types that only the package assigns
    are inductive.  [float64] is IEEE binary64 ([GoFloat]).  Maps are [gmap];
    where the code ranges over a map and the order can be observed, the
    traversal is an argument and theorems hold for every order.  Pointers
    that are shared are locations in a store ([Actor], [TokenQueue],
    [InferencePool]).  A method that holds its mutex throughout is one atomic
    step; where a method has several critical sections the steps are
    separate ([Adaptive], [RequestPipeline], [Auth]).  A panic is [None], an
    error the sentinel or constructor of its cause; texts of errors, events,
    log lines, spans and metrics are left out unless they are the output.

    What the code reads from outside is an argument: clock readings and UUIDs,
    the answers of the API server, of HTTP, JWKS, model and metrics servers,
    cosign, the Ed25519, JWT, bcrypt and SPIFFE libraries, JSON decoders, the
    Unicode tables, [sort.Slice] on ties, and the Kubernetes object types
    (classes [K8s], [Pods], [ConditionSet], [KeyBackend] with their laws).
    Theorems about them assume the documented laws only, and each comes with
    a concrete instance in its witness.

    ** Files

    Shared: [Prelude] (integers, comparisons, time, strings, hint database
    and tactics), [TransitionGraph] (the interface of governed transition
    machines), [GoStrings], [GoTime], [GoRFC3339], [GoFloat], [GoFloatBounds],
    [GoHeap], [GoRegexp], [GoBase64], [GoJson], [GoFilepath], [Sha256] (the
    parts of the Go library the sources call), [K8s], [K8sPods] and
    [K8sObjects] (Kubernetes types).

    Kernel ([internal/kernel], [internal/residency], [internal/conformance]):
    - [Lifecycle] and [Mode], the lifecycle and degraded-mode machines: serving
      is reached only through governance, the contract of a mode is in force.
    - [Residency], one decision per reconciliation of where a model resides:
      routes are open only when the runtime is ready, nothing is stopped with
      requests in flight, and six rounds reach the target when owners act.
    - [StateVector], [Actor], [KVState], [Composition], [Conformance] and
      [ConformanceVectors]: governed transitions dominated by hard violations,
      slots, sessions and fences, the KV-cache fabric as a refinement of a
      map by identity, composite pipelines, the conformance suite.

    Request path ([internal/auth], [internal/accessplane],
    [internal/inference], [internal/scheduler], [internal/gateway],
    [internal/protocol]):
    - [Auth]: a request reaches the model iff token, scopes, model and budget
      allow it; the accounting of budgets; issued API keys.
    - [AccessPlane], [Resilience], [Adaptive], [TokenQueue], [InferencePool],
      [InferencePrimitives], [LoraPin] and [RequestPipeline]: policy decision,
      circuit breaker, timeouts, the heap of waiting requests, pool and
      router, pinned adapters, and the composition of these in [Execute].
      The breaker refines a machine of three modes; requests and eviction
      sweeps interleave step by step and the counters stay exact.
    - [BinaryTensor]: encode and decode tensors, inverse to each other.

    API and admission ([api], [internal/webhook], [internal/validation],
    [internal/runtime]):
    - [ApiV1], [ApiV1alpha2], [Conversion], [ConversionRoundTrip]: the two
      versions and exactly which objects survive a round trip.
    - [RuntimeContract], [VllmAdapter], [SglangAdapter], [TensorfoldAdapter],
      [RuntimeRegistry]: the interface of engines and its three instances.
    - [Webhook], [WebhookAdmission], [SurfaceInventory], [AIPackWebhook],
      [Topology]: what is admitted, that defaulting keeps it admitted and that
      both versions are judged alike.
    - [Abi]: the engine ABI of [internal/abi] and its validators.

    Governance and evidence ([internal/aipack], [internal/governance],
    [internal/provenance], [internal/evidence], [internal/observability],
    [internal/security], [internal/validation/admission]):
    - [AIPack], [AIPackGovernance], [LoraGovernance], [DecisionProfile],
      [Airgap], [Admission], [FlightRecorder], [Receipts], [AuditEvents],
      [Redaction]: validators, attestations, the four-stage admission with its
      receipts, and evidence that cannot be altered unnoticed.  Integrity is
      proved by exhibiting a SHA-256 collision from any successful forgery.

    Storage and controllers ([internal/storage], [cmd/storage-initializer],
    [internal/controller], [internal/gateway], [internal/security]):
    - [ParallelDownload], [StagingTransaction], [StagingRecovery],
      [StagingWitness]: chunked downloads and the staging transaction as a
      list of changes, every prefix of which is a crash the next run repairs.
    - [OCIReference], [StorageSources]: image references in air-gapped mode,
      and the pulls from Hugging Face, buckets, GitLab and GitHub, which write
      below the destination only.
    - [Onboarding], [LocalModelCache], [SessionControllers]: reconciliations
      as functions of the object and of what the API server answers, and
      their histories.
    - [DeploymentBuilder], [DeploymentSync], [DeploymentProperties],
      [WellKnown]: the pods of a service, hardened whatever the template says,
      the update of an existing Deployment, and the presets of known models.
    - [ServiceStatus], [GovernanceEvidence], [ServiceReconcile]: one
      reconciliation of a service as a computation that performs actions on
      the cluster in order; the final status comes after every protection.
    - [GatewayRoutes], [NetworkIsolation], [LoraController]: the routes, the
      network policies with the meaning of a policy, and the adapters.

    ** Bounds

    Recursions that are not structural carry fuel.  Scans of a string have
    its length, decimal digits 20 (64-bit) or 310 (binary64), heap sifts the
    size of the heap, chunks one more than the quotient of the sizes; lemmas
    show each enough.  The loops that a mistake could make endless return
    [None] when the fuel ends and are proved to return: [prefetch_terminates]
    of [LoraPin], [build_chunks] of [ParallelDownload], the dequeue and drain
    loops of [TokenQueue].  The recursion over a GitHub directory in
    [StorageSources] carries fuel without such a proof, as the server may name
    directories for ever; requests to load an adapter are retried three times
    ([LoraController]); an eviction sweep over [n] endpoints ends within
    [3 * n + 1] steps ([RequestPipeline]).  [reconciliation_converges] of [Residency] takes
    six rounds, [onboarding_completes] of [Onboarding] one reconciliation per
    stage and two more.

    ** Not modelled

    Generated deep copies and list types; Kubernetes objects rendered from
    fixed templates without logic of their own (scaled objects, Vector, OPA,
    Tetragon, Dapr and KServe multi-node resources); clients that only issue
    requests (Artifactory, model-server HTTP, OTLP, Vault, SPIRE registration);
    the chaos and autoscaling controllers; registration with the controller
    manager; command-line entry points, release checks under hack/ and
    dagger/; the console and the charts.  The manifest lists each part. *)

From stdpp Require Export base gmap strings list sorting relations.
From Stdlib Require Export ZArith Lia.
From Stdlib Require Import Ascii.

(** ** Scope and notations

    [go_scope] holds the comparisons of the Go source as booleans over
    stdpp decisions, so that [case_bool_decide] turns each test of the
    source into a proposition [lia] and [simplify_eq] understand. *)

Declare Scope go_scope.
Delimit Scope go_scope with go.

Notation "x ==? y" := (bool_decide (x = y)) (at level 70, no associativity) : go_scope.
Notation "x !=? y" := (negb (bool_decide (x = y))) (at level 70, no associativity) : go_scope.
Notation "x <? y" := (bool_decide (x < y)%Z) (at level 70, no associativity) : go_scope.
Notation "x <=? y" := (bool_decide (x <= y)%Z) (at level 70, no associativity) : go_scope.
Notation "x >? y" := (bool_decide (y < x)%Z) (at level 70, no associativity) : go_scope.
Notation "x >=? y" := (bool_decide (y <= x)%Z) (at level 70, no associativity) : go_scope.

Global Open Scope Z_scope.
Global Open Scope string_scope.
Global Open Scope list_scope.
Global Open Scope go_scope.

(** ** Machine integers

    [int], [int64] and [time.Duration] are signed 64-bit, [int32] signed
    32-bit and [uint64] unsigned 64-bit.  A value is the [Z] it denotes;
    arithmetic that may leave the range is followed by the wrap of its type. *)

Definition u64_wrap (z : Z) : Z := z mod 2 ^ 64.
Definition swrap (w z : Z) : Z := (z + 2 ^ (w - 1)) mod 2 ^ w - 2 ^ (w - 1).
Definition i64_wrap (z : Z) : Z := swrap 64 z.
Definition i32_wrap (z : Z) : Z := swrap 32 z.

Definition u64_range (z : Z) : Prop := 0 <= z < 2 ^ 64.
Definition i64_range (z : Z) : Prop := - 2 ^ 63 <= z < 2 ^ 63.
Definition i32_range (z : Z) : Prop := - 2 ^ 31 <= z < 2 ^ 31.

Lemma u64_wrap_small z : u64_range z -> u64_wrap z = z.
Proof. intros H. by apply Z.mod_small. Qed.

Lemma u64_wrap_range z : u64_range (u64_wrap z).
Proof. apply Z.mod_pos_bound. lia. Qed.

Lemma swrap_small w z : 0 < w -> - 2 ^ (w - 1) <= z < 2 ^ (w - 1) -> swrap w z = z.
Proof.
  intros Hw H. unfold swrap.
  assert (2 ^ w = 2 * 2 ^ (w - 1)) as E.
  { rewrite <- Z.pow_succ_r by lia. f_equal. lia. }
  rewrite Z.mod_small; lia.
Qed.

Lemma swrap_range w z : 0 < w -> - 2 ^ (w - 1) <= swrap w z < 2 ^ (w - 1).
Proof.
  intros Hw. unfold swrap.
  assert (2 ^ w = 2 * 2 ^ (w - 1)) as E.
  { rewrite <- Z.pow_succ_r by lia. f_equal. lia. }
  assert (0 < 2 ^ w) by (apply Z.pow_pos_nonneg; lia).
  pose proof (Z.mod_pos_bound (z + 2 ^ (w - 1)) (2 ^ w)). lia.
Qed.

Lemma i64_wrap_small z : i64_range z -> i64_wrap z = z.
Proof. intros H. apply swrap_small; [lia|exact H]. Qed.

Lemma i64_wrap_range z : i64_range (i64_wrap z).
Proof. apply (swrap_range 64). lia. Qed.

Lemma i32_wrap_small z : i32_range z -> i32_wrap z = z.
Proof. intros H. apply swrap_small; [lia|exact H]. Qed.

Lemma swrap_add_l w a b : 0 < w -> swrap w (swrap w a + b) = swrap w (a + b).
Proof.
  intros Hw. unfold swrap. f_equal.
  replace ((a + 2 ^ (w - 1)) mod 2 ^ w - 2 ^ (w - 1) + b + 2 ^ (w - 1))
    with ((a + 2 ^ (w - 1)) mod 2 ^ w + b) by lia.
  rewrite Zplus_mod_idemp_l. f_equal. lia.
Qed.

Lemma i64_wrap_add_l a b : i64_wrap (i64_wrap a + b) = i64_wrap (a + b).
Proof. apply swrap_add_l. lia. Qed.

(** Wrap-around commutes with addition: a counter bumped [n] times is the
    wrapped sum, whatever the order in which the wraps happen. *)
Lemma u64_wrap_add_l a b : u64_wrap (u64_wrap a + b) = u64_wrap (a + b).
Proof. unfold u64_wrap. by rewrite Z.add_mod_idemp_l. Qed.

(** ** time.Time and time.Duration

    An instant is the number of nanoseconds since the zero [time.Time]
    (January 1, year 1, UTC), so [IsZero] is a test against 0.  Monotonic
    clock readings are not modelled.  [Sub] saturates at the bounds of
    [time.Duration], as documented. *)

Definition Time := Z.
Definition Duration := Z.

Definition zeroTime : Time := 0.
Definition IsZero (t : Time) : bool := t ==? zeroTime.
Definition Before (t u : Time) : bool := t <? u.
Definition After (t u : Time) : bool := t >? u.
Definition TimeAdd (t : Time) (d : Duration) : Time := t + d.
Definition TimeSub (t u : Time) : Duration :=
  Z.max (- 2 ^ 63) (Z.min (2 ^ 63 - 1) (t - u)).

Definition Millisecond : Duration := 1000000.
Definition Second : Duration := 1000 * Millisecond.
Definition Minute : Duration := 60 * Second.
Definition Hour : Duration := 60 * Minute.

(** Nanoseconds from the zero time to the Unix epoch. *)
Definition unix_epoch : Time := 62135596800 * Second.
Definition UnixMilli (t : Time) : Z := (t - unix_epoch) / Millisecond.
Definition Milliseconds (d : Duration) : Z := Z.quot d Millisecond.

(** [time.Duration] comparisons against a threshold in range agree with the
    unsaturated difference. *)
Lemma TimeSub_ge t u d : - 2 ^ 63 < d < 2 ^ 63 -> (d <= TimeSub t u <-> d <= t - u).
Proof. unfold TimeSub, i64_range. lia. Qed.

Lemma TimeSub_range t u : i64_range (TimeSub t u).
Proof. unfold TimeSub, i64_range. lia. Qed.

(** ** Strings

    A Go string is a sequence of bytes, a [string] of [ascii]. *)

Definition byte_of (z : Z) : ascii := ascii_of_N (Z.to_N z).
Definition code (c : ascii) : Z := Z.of_N (N_of_ascii c).

(** Bytes-wise order of Go strings. *)
Definition str_le (s t : string) : Prop := String.compare s t <> Gt.
Definition str_lt (s t : string) : Prop := String.compare s t = Lt.

#[global] Instance str_le_dec s t : Decision (str_le s t).
Proof. unfold str_le. apply _. Defined.
#[global] Instance str_lt_dec s t : Decision (str_lt s t).
Proof. unfold str_lt. apply _. Defined.

Lemma ascii_compare_N a b : Ascii.compare a b = N.compare (N_of_ascii a) (N_of_ascii b).
Proof. reflexivity. Qed.

Lemma str_compare_refl s : String.compare s s = Eq.
Proof. induction s as [|a s IH]; simpl; [done|]. by rewrite ascii_compare_N, N.compare_refl. Qed.

Lemma str_lt_trans s t u : str_lt s t -> str_lt t u -> str_lt s u.
Proof.
  unfold str_lt. revert t u.
  induction s as [|a s IH]; intros [|b t] [|c u]; simpl; try done.
  rewrite !ascii_compare_N.
  destruct (N.compare_spec (N_of_ascii a) (N_of_ascii b)) as [E1|L1|G1]; [| |done];
  destruct (N.compare_spec (N_of_ascii b) (N_of_ascii c)) as [E2|L2|G2]; try done; intros H1 H2.
  - rewrite E1, E2, N.compare_refl. by eapply IH.
  - by rewrite E1, (proj2 (N.compare_lt_iff _ _) L2).
  - by rewrite <- E2, (proj2 (N.compare_lt_iff _ _) L1).
  - by rewrite (proj2 (N.compare_lt_iff _ _) (N.lt_trans _ _ _ L1 L2)).
Qed.

Lemma str_le_lt_eq s t : str_le s t <-> str_lt s t \/ s = t.
Proof.
  unfold str_le, str_lt. split.
  - destruct (String.compare s t) eqn:E; [right; by apply String.compare_eq_iff|by left|done].
  - intros [->| ->]; [done|]. by rewrite str_compare_refl.
Qed.

#[global] Instance str_le_trans : Transitive str_le.
Proof.
  intros s t u. rewrite !str_le_lt_eq.
  intros [?| ->] [?| ->]; eauto using str_lt_trans.
Qed.

#[global] Instance str_le_total : Total str_le.
Proof.
  intros s t. unfold str_le. rewrite (String.compare_antisym t s).
  destruct (String.compare s t); simpl; [by left|by left|by right].
Qed.

#[global] Instance str_le_antisymm : AntiSymm (=) str_le.
Proof.
  intros s t. unfold str_le. rewrite (String.compare_antisym t s).
  destruct (String.compare s t) eqn:E; simpl; try done.
  intros _ _. by apply String.compare_eq_iff.
Qed.

(** The [strings] functions the sources call. *)
Definition HasPrefix (s p : string) : bool := String.prefix p s.

(** [strings.Index] as an option: the least offset at which [p] occurs. *)
Fixpoint Index (s p : string) : option nat :=
  if HasPrefix s p then Some 0%nat
  else match s with
       | EmptyString => None
       | String _ s' => S <$> Index s' p
       end.

Definition Contains (s p : string) : bool :=
  match Index s p with Some _ => true | None => false end.

Fixpoint str_drop (n : nat) (s : string) : string :=
  match n, s with
  | O, _ => s
  | S _, EmptyString => EmptyString
  | S n, String _ s => str_drop n s
  end.

Fixpoint Join (sep : string) (l : list string) : string :=
  match l with
  | [] => ""
  | [s] => s
  | s :: l => s +:+ sep +:+ Join sep l
  end.

(** White space at the head of a string, as [unicode.IsSpace] classifies the
    first UTF-8 sequence: the ASCII spaces, U+0085, U+00A0, U+1680,
    U+2000..U+200A, U+2028, U+2029, U+202F, U+205F and U+3000.  The result
    is what follows the space. *)
Definition skip_space (s : string) : option string :=
  match s with
  | String a s1 =>
      let x := code a in
      if ((9 <=? x) && (x <=? 13)) || (x ==? 32) then Some s1
      else match s1 with
      | String b s2 =>
          let y := code b in
          if (x ==? 194) && ((y ==? 133) || (y ==? 160)) then Some s2
          else match s2 with
          | String c s3 =>
              let z := code c in
              if ((x ==? 225) && (y ==? 154) && (z ==? 128))
                 || ((x ==? 226) && (y ==? 128)
                     && (((128 <=? z) && (z <=? 138)) || (z ==? 168) || (z ==? 169) || (z ==? 175)))
                 || ((x ==? 226) && (y ==? 129) && (z ==? 159))
                 || ((x ==? 227) && (y ==? 128) && (z ==? 128))
              then Some s3 else None
          | EmptyString => None
          end
      | EmptyString => None
      end
  | EmptyString => None
  end.

Fixpoint blank_fuel (n : nat) (s : string) : bool :=
  match s with
  | EmptyString => true
  | _ => match n, skip_space s with
         | S n, Some s' => blank_fuel n s'
         | _, _ => false
         end
  end.

(** [strings.TrimSpace(s) == ""]: the string is a sequence of spaces.  Each
    space takes at least one byte, so the length is enough fuel. *)
Definition TrimSpace_empty (s : string) : bool := blank_fuel (String.length s) s.

Lemma TrimSpace_empty_nil : TrimSpace_empty "" = true.
Proof. reflexivity. Qed.

Lemma not_blank_nonempty s : TrimSpace_empty s = false -> s <> "".
Proof. intros H ->. discriminate H. Qed.

(** Decimal rendering of an integer, [strconv.Itoa] and the [%d] verb. *)
Fixpoint digits_fuel (n : nat) (z : Z) (acc : string) : string :=
  match n with
  | O => acc
  | S n =>
      let acc := String (byte_of (48 + z mod 10)) acc in
      if z <? 10 then acc else digits_fuel n (z / 10) acc
  end.

(** Enough digits for any value of a 64-bit type. *)
Definition itoa_pos (z : Z) : string := digits_fuel 20 z "".
Definition Itoa (z : Z) : string :=
  if z <? 0 then "-" +:+ itoa_pos (- z) else itoa_pos z.

(** A predicate on every byte. *)
Fixpoint str_forall (p : ascii -> bool) (s : string) : bool :=
  match s with
  | EmptyString => true
  | String c s => p c && str_forall p s
  end.

Lemma string_app_assoc (u v w : string) : u +:+ (v +:+ w) = (u +:+ v) +:+ w.
Proof. induction u as [|c u IH]; [done|]. exact (f_equal (String c) IH). Qed.

Lemma str_forall_app p u v : str_forall p (u +:+ v) = str_forall p u && str_forall p v.
Proof. induction u as [|c u IH]; [done|]. change (String c u +:+ v) with (String c (u +:+ v)). simpl. by rewrite IH, andb_assoc. Qed.

Lemma code_byte_of z : 0 <= z < 256 -> code (byte_of z) = z.
Proof. intros H. unfold code, byte_of. rewrite N_ascii_embedding by lia. lia. Qed.

(** The value of a string of decimal digits read after the number [v]. *)
Fixpoint digits_value (v : Z) (s : string) : Z :=
  match s with
  | EmptyString => v
  | String c s => digits_value (10 * v + (code c - 48)) s
  end.

Lemma digits_fuel_value n z acc :
  0 <= z < 10 ^ Z.of_nat n -> digits_value 0 (digits_fuel n z acc) = digits_value z acc.
Proof.
  revert z acc. induction n as [|n IH]; intros z acc Hz.
  - simpl in *. by replace z with 0 by lia.
  - rewrite Nat2Z.inj_succ, Z.pow_succ_r in Hz by lia. cbn [digits_fuel].
    pose proof (Z.mod_pos_bound z 10). pose proof (Z.div_mod z 10).
    destruct (bool_decide_reflect (z < 10)).
    + cbn [digits_value]. rewrite code_byte_of by lia. f_equal. rewrite Z.mod_small; lia.
    + rewrite IH by (split; [apply Z.div_pos|apply Z.div_lt_upper_bound]; lia).
      cbn [digits_value]. rewrite code_byte_of by lia. f_equal. lia.
Qed.

(** [Itoa] is injective on the values of an unsigned 64-bit type. *)
Lemma Itoa_inj_u64 a b : u64_range a -> u64_range b -> Itoa a = Itoa b -> a = b.
Proof.
  unfold u64_range. intros Ha Hb. unfold Itoa, itoa_pos. rewrite !bool_decide_false by lia. intros H.
  assert (forall z, 0 <= z < 2 ^ 64 -> digits_value 0 (digits_fuel 20 z "") = z) as E.
  { intros z Hz. rewrite digits_fuel_value; [done|]. simpl. lia. }
  by rewrite <- (E a Ha), <- (E b Hb), H.
Qed.

Lemma Itoa_inj a b : 0 <= a < 2 ^ 63 -> 0 <= b < 2 ^ 63 -> Itoa a = Itoa b -> a = b.
Proof. intros. apply Itoa_inj_u64; [unfold u64_range; lia..|done]. Qed.

Definition is_digit (c : ascii) : bool := let x := code c in (48 <=? x) && (x <=? 57).

Lemma digits_fuel_digits n z acc :
  str_forall is_digit acc = true -> str_forall is_digit (digits_fuel n z acc) = true.
Proof.
  revert z acc. induction n as [|n IH]; intros z acc H; [done|]. cbn [digits_fuel].
  assert (str_forall is_digit (String (byte_of (48 + z mod 10)) acc) = true).
  { cbn [str_forall]. rewrite H, andb_true_r. unfold is_digit.
    pose proof (Z.mod_pos_bound z 10). rewrite code_byte_of by lia.
    by rewrite !bool_decide_true by lia. }
  case_bool_decide; [done|]. by apply IH.
Qed.

Lemma str_forall_impl (p q : ascii -> bool) s :
  (forall c, p c = true -> q c = true) -> str_forall p s = true -> str_forall q s = true.
Proof.
  intros Hpq. induction s as [|c s IH]; simpl; [done|].
  rewrite !andb_true_iff. naive_solver.
Qed.

Lemma Itoa_digits z : 0 <= z -> str_forall is_digit (Itoa z) = true.
Proof.
  intros H. unfold Itoa, itoa_pos. rewrite bool_decide_false by lia. by apply digits_fuel_digits.
Qed.

(** A separator that does not occur in the parts splits a string uniquely. *)
Lemma sep_inj (sep : ascii) a b r r' :
  str_forall (fun c => negb (bool_decide (c = sep))) a = true ->
  str_forall (fun c => negb (bool_decide (c = sep))) b = true ->
  a +:+ String sep r = b +:+ String sep r' -> a = b /\ r = r'.
Proof.
  revert b. induction a as [|x a IH]; intros [|y b]; cbn [str_forall]; intros Ha Hb H.
  - by injection H.
  - injection H as Hc _. subst. by rewrite bool_decide_true in Hb by done.
  - injection H as Hc _. subst. by rewrite bool_decide_true in Ha by done.
  - apply andb_true_iff in Ha as [_ Ha], Hb as [_ Hb]. injection H as -> H.
    destruct (IH b Ha Hb H) as [-> ->]. done.
Qed.

(** [encoding/hex]: [DecodeString] succeeds exactly on an even number of
    hexadecimal digits, of either case. *)
Definition is_hex (c : ascii) : bool :=
  let x := code c in
  ((48 <=? x) && (x <=? 57)) || ((97 <=? x) && (x <=? 102)) || ((65 <=? x) && (x <=? 70)).

Fixpoint all_hex (s : string) : bool :=
  match s with
  | EmptyString => true
  | String c s => is_hex c && all_hex s
  end.

Definition hex_decodes (s : string) : bool :=
  all_hex s && Nat.even (String.length s).

(** ** Sorting

    [sort.Strings] and [sort.Slice] return a sorted permutation; over a total
    order that permutation is unique, so the algorithm does not matter. *)
Definition sort_strings (l : list string) : list string := merge_sort str_le l.

Lemma sort_strings_perm l : sort_strings l ≡ₚ l.
Proof. apply merge_sort_Permutation. Qed.

Lemma sort_strings_sorted l : StronglySorted str_le (sort_strings l).
Proof. apply StronglySorted_merge_sort; apply _. Qed.

(** The sorted order of a list of strings depends only on its contents. *)
Lemma sort_strings_proper l1 l2 : l1 ≡ₚ l2 -> sort_strings l1 = sort_strings l2.
Proof.
  intros H. apply (StronglySorted_unique str_le); auto using sort_strings_sorted.
  by rewrite !sort_strings_perm.
Qed.

#[global] Instance sort_strings_Proper : Proper ((≡ₚ) ==> (=)) sort_strings.
Proof. exact sort_strings_proper. Qed.

(** ** Membership loops

    The sources test membership with a loop over the slice. *)

Lemma existsb_false_iff {A} (f : A -> bool) l : existsb f l = false <-> forall x, x ∈ l -> f x = false.
Proof.
  split.
  - intros H x Hx. destruct (f x) eqn:E; [|done]. assert (existsb f l = true); [|congruence].
    apply existsb_exists. exists x. split; [by apply list_elem_of_In|done].
  - intros H. destruct (existsb f l) eqn:E; [|done]. apply existsb_exists in E as (x & Hx & E).
    apply list_elem_of_In in Hx. rewrite H in E; done.
Qed.

Lemma existsb_eq_in {A} `{EqDecision A} (x : A) l : existsb (fun a => x ==? a) l = true <-> x ∈ l.
Proof.
  rewrite existsb_exists, list_elem_of_In. split.
  - intros (y & Hin & H). apply bool_decide_eq_true in H. by subst.
  - intros H. exists x. by rewrite bool_decide_true.
Qed.

Lemma existsb_in {A} `{EqDecision A} (x : A) l : existsb (fun a => a ==? x) l = true <-> x ∈ l.
Proof.
  rewrite <- existsb_eq_in, !existsb_exists.
  split; intros (y & Hin & H); exists y; split; try done; apply bool_decide_eq_true; apply bool_decide_eq_true in H; done.
Qed.

Lemma existsb_not_in {A} `{EqDecision A} (x : A) l : existsb (fun a => a ==? x) l = false <-> x ∉ l.
Proof. rewrite <- existsb_in. by destruct (existsb _ _). Qed.

(** ** Sums over lists *)

Definition zsum {A} (f : A -> Z) (l : list A) : Z := foldr (fun a s => f a + s) 0 l.

Lemma zsum_app {A} (f : A -> Z) l1 l2 : zsum f (l1 ++ l2) = zsum f l1 + zsum f l2.
Proof. induction l1 as [|a l IH]; simpl; [done|]. rewrite IH. lia. Qed.

#[global] Instance zsum_Proper {A} (f : A -> Z) : Proper ((≡ₚ) ==> (=)) (zsum f).
Proof. intros l1 l2 H. induction H; simpl; lia. Qed.

Lemma zsum_ext {A} (f g : A -> Z) l : (forall a, a ∈ l -> f a = g a) -> zsum f l = zsum g l.
Proof.
  induction l as [|a l IH]; intros H; simpl; [done|].
  rewrite H by set_solver. rewrite IH; [done|]. set_solver.
Qed.

Lemma zsum_nonneg {A} (f : A -> Z) l : (forall a, a ∈ l -> 0 <= f a) -> 0 <= zsum f l.
Proof.
  induction l as [|a l IH]; intros H; simpl; [done|].
  assert (0 <= f a) by (apply H; set_solver).
  assert (0 <= zsum f l) by (apply IH; set_solver). lia.
Qed.

(** ** Tactics

    [go_scrut x] splits on the value a conditional of the source tests:
    comparisons become propositions, the connectives are split from the left,
    anything else is destructed with an equation. *)
Ltac go_scrut x :=
  lazymatch x with
  | match ?y with _ => _ end => go_scrut y
  | bool_decide ?P => destruct (bool_decide_reflect P)
  | negb ?c => go_scrut c
  | andb ?c _ => go_scrut c
  | orb ?c _ => go_scrut c
  | _ => let E := fresh "E" in destruct x eqn:E
  end; cbn beta iota delta [negb andb orb fst snd] in *.

(** Equations between constructors of the result types. *)
Ltac go_inj :=
  repeat match goal with
  | H : (?a, _) = (_, _) |- _ =>
      lazymatch a with match _ with _ => _ end => fail | _ => injection H; clear H; intros end
  | H : Some _ = Some _ |- _ => injection H; clear H; intros
  | H : Some _ = None |- _ => discriminate H
  | H : None = Some _ |- _ => discriminate H
  | H : true = false |- _ => discriminate H
  | H : false = true |- _ => discriminate H
  | H : ?x = ?x |- _ => clear H
  end; subst.

(** [go_head] follows the control flow of an execution equation
    [f args = result] in the context; [go_goal] splits the tests of the goal. *)
Ltac go_head :=
  match goal with
  | H : ?t = _ |- _ =>
      lazymatch t with
      | match ?x with _ => _ end => go_scrut x
      | (match ?x with _ => _ end, _) => go_scrut x
      end
  end; go_inj.

Ltac go_goal :=
  match goal with
  | |- ?t = _ => lazymatch t with match ?x with _ => _ end => go_scrut x end
  | |- context [match ?x with _ => _ end] => go_scrut x
  end; go_inj.

Ltac go_heads := go_inj; repeat go_head.
Ltac go_cases := go_inj; repeat first [go_head | go_goal].

(** A closed decidable proposition, by evaluation of its decision. *)
Ltac by_computation := apply (bool_decide_unpack _); vm_compute; exact Logic.I.

(** [go_auto] closes the leaves of a case analysis. *)
Create HintDb go discriminated.
#[export] Hint Resolve u64_wrap_range i64_wrap_range TimeSub_range : go.

Ltac go_auto := try solve [done | congruence | lia | eauto with go | naive_solver].
