(* ===== verification/TransitionGraph.v ===== *)
(** * Governed transition machines

    [internal/kernel/lifecycle] and [internal/kernel/mode] have the same
    shape: an edge table (a map from a state to the set of its legal
    successors), a vector value with an epoch and a transition counter, and
    a [Transition] that checks an intent against the table.  This file holds
    the edge-table operations both packages define ([CanTransition],
    [LegalTransitions]) and the interface [TransitionMachine] each of them
    implements.  The theorems about sequences of transitions are proved once,
    against the interface. *)

From S2P Require Import Prelude.

(** ** Edge tables: Go's [map[S]map[S]struct{}] over string-typed states *)

Section edges.
Context (table : gmap string (gset string)).

Definition can_transition (from to : string) : bool :=
  match table !! from with
  | None => false
  | Some targets => bool_decide (to ∈ targets)
  end.

#[global] Arguments can_transition : simpl never.

(** [nil] for an unknown source, otherwise the sorted keys of its set. *)
Definition legal_transitions (from : string) : list string :=
  match table !! from with
  | None => []
  | Some targets => sort_strings (elements targets)
  end.

#[global] Arguments legal_transitions : simpl never.

Definition edge (from to : string) : Prop := can_transition from to = true.

Lemma edge_table from to :
  edge from to <-> exists targets, table !! from = Some targets /\ to ∈ targets.
Proof.
  unfold edge, can_transition. destruct (table !! from) as [ts|].
  - rewrite bool_decide_eq_true. naive_solver.
  - naive_solver.
Qed.

(** The list of legal destinations is exactly the set of edges, sorted and
    without repetition. *)
Lemma legal_transitions_spec from :
  (forall to, to ∈ legal_transitions from <-> edge from to)
  /\ StronglySorted str_le (legal_transitions from)
  /\ NoDup (legal_transitions from).
Proof.
  unfold legal_transitions. split_and!.
  - intros to. rewrite edge_table. destruct (table !! from) as [ts|].
    + rewrite sort_strings_perm, elem_of_elements. naive_solver.
    + rewrite elem_of_nil. naive_solver.
  - destruct (table !! from); [apply sort_strings_sorted|constructor].
  - destruct (table !! from); [|constructor].
    rewrite sort_strings_perm. apply NoDup_elements.
Qed.

(** A decidable property of all edges is checked on the table. *)
Definition edges_satisfy (P : string -> string -> Prop) : Prop :=
  map_Forall (fun from targets => set_Forall (P from) targets) table.

#[global] Instance edges_satisfy_dec P `{forall a b, Decision (P a b)} :
  Decision (edges_satisfy P).
Proof. unfold edges_satisfy. apply _. Defined.

Lemma edges_satisfy_edge P from to : edges_satisfy P -> edge from to -> P from to.
Proof.
  intros HP He. apply edge_table in He as (ts & Hts & Hto). by apply (HP _ _ Hts).
Qed.

(** Every edge leads from and to a state of [states]. *)
Definition closed_over (states : gset string) : Prop :=
  edges_satisfy (fun from to => from ∈ states /\ to ∈ states).
End edges.

(** ** The interface

    [tm_step] is the [Transition] method; the clock reading it takes when the
    intent carries no timestamp is an argument.  On an error Go returns the
    receiver unchanged. *)
Class TransitionMachine (V I E : Type) := {
  tm_current : V -> string;
  tm_epoch : V -> Z;
  tm_count : V -> Z;
  tm_target : I -> string;
  tm_edge : string -> string -> Prop;
  tm_step : Time -> V -> I -> V * option E;
  tm_step_ok : forall now v i v',
    tm_step now v i = (v', None) ->
    tm_edge (tm_current v) (tm_target i)
    /\ tm_current v' = tm_target i
    /\ tm_epoch v' = u64_wrap (tm_epoch v + 1)
    /\ tm_count v' = u64_wrap (tm_count v + 1);
  tm_step_err : forall now v i v' e, tm_step now v i = (v', Some e) -> v' = v
}.

Section runs.
Context {V I E : Type} `{TM : TransitionMachine V I E}.

(** A caller that submits intents one after the other and keeps the vector
    each call returns; the second component collects the states entered. *)
Fixpoint run (v : V) (intents : list (Time * I)) : V * list string :=
  match intents with
  | [] => (v, [])
  | (now, i) :: rest =>
      match tm_step now v i with
      | (v', None) => let '(w, visited) := run v' rest in (w, tm_current v' :: visited)
      | (v', Some _) => run v' rest
      end
  end.

(** [path s l] : the states [l] are entered in turn from [s] along edges. *)
Inductive path : string -> list string -> Prop :=
| path_nil s : path s []
| path_cons s t l : tm_edge s t -> path t l -> path s (t :: l).

Lemma run_path v intents :
  path (tm_current v) (snd (run v intents))
  /\ tm_current (fst (run v intents)) = default (tm_current v) (last (snd (run v intents))).
Proof.
  revert v. induction intents as [|[now i] rest IH]; intros v; simpl.
  - split; [constructor|done].
  - destruct (tm_step now v i) as [v' [e|]] eqn:Hs.
    + apply tm_step_err in Hs as ->. apply IH.
    + destruct (tm_step_ok _ _ _ _ Hs) as (He & Hc & _ & _).
      destruct (IH v') as [Hp Hl].
      destruct (run v' rest) as [w visited]; simpl in *. split.
      * constructor; [by rewrite Hc|done].
      * rewrite Hl, last_cons. by destruct (last visited).
Qed.

Lemma run_counters v intents :
  let n := Z.of_nat (length (snd (run v intents))) in
  u64_range (tm_epoch v) -> u64_range (tm_count v) ->
  tm_epoch (fst (run v intents)) = u64_wrap (tm_epoch v + n)
  /\ tm_count (fst (run v intents)) = u64_wrap (tm_count v + n).
Proof.
  revert v. induction intents as [|[now i] rest IH]; intros v; simpl.
  - rewrite !Z.add_0_r. intros. by rewrite !u64_wrap_small.
  - destruct (tm_step now v i) as [v' [e|]] eqn:Hs; intros He Hc.
    + apply tm_step_err in Hs as ->. by apply IH.
    + destruct (tm_step_ok _ _ _ _ Hs) as (_ & _ & Ee & Ec).
      specialize (IH v'). rewrite Ee, Ec in IH.
      destruct (run v' rest) as [w visited]; simpl in *.
      destruct (IH ltac:(apply u64_wrap_range) ltac:(apply u64_wrap_range)) as [-> ->].
      rewrite !u64_wrap_add_l. split; f_equal; lia.
Qed.

(** A set of states left only through a gate state: a path that starts in
    [safe] and ends outside [safe] passes through [gate]. *)
Lemma path_gate (safe : string -> Prop) gate s l :
  (forall a b, safe a -> tm_edge a b -> safe b \/ b = gate) ->
  path s l -> safe s -> gate ∉ l -> Forall safe l.
Proof.
  intros Hgate Hp. induction Hp as [s|s t l He Hp IH]; intros Hs Hg; [constructor|].
  destruct (Hgate _ _ Hs He) as [Ht| ->]; [|set_solver].
  constructor; [done|]. apply IH; set_solver.
Qed.

(** The same for runs: a run that leaves [safe] has entered [gate]. *)
Lemma run_gate (safe : string -> Prop) gate v intents :
  (forall a b, safe a -> tm_edge a b -> safe b \/ b = gate) ->
  safe (tm_current v) -> ~ safe (tm_current (fst (run v intents))) ->
  gate ∈ snd (run v intents).
Proof.
  intros Hgate Hs He. destruct (decide (gate ∈ snd (run v intents))) as [|Hn]; [done|].
  destruct He. destruct (run_path v intents) as [Hp ->].
  pose proof (path_gate safe gate _ _ Hgate Hp Hs Hn) as HF.
  destruct (last (snd (run v intents))) as [s|] eqn:Es; [|done]. simpl.
  eapply Forall_forall; [exact HF|]. by apply last_Some_elem_of.
Qed.

(** An invariant of single steps is an invariant of runs. *)
Lemma run_invariant (P : V -> Prop) v intents :
  (forall now v i v', P v -> tm_step now v i = (v', None) -> P v') ->
  P v -> P (fst (run v intents)).
Proof.
  intros Hstep. revert v. induction intents as [|[now i] rest IH]; intros v Hv; simpl; [done|].
  destruct (tm_step now v i) as [v' [e|]] eqn:Hs.
  - apply tm_step_err in Hs as ->. by apply IH.
  - specialize (IH v' (Hstep _ _ _ _ Hv Hs)). by destruct (run v' rest).
Qed.
End runs.

#[export] Hint Constructors path : go.
