(* ===== verification/Lifecycle.v ===== *)
(** * Lifecycle state machine ([internal/kernel/lifecycle/lifecycle.go])

    The lifecycle of a governed AI workload: nine states, the edge table
    [legalTransitions], the [StateVector] value with its conformance and
    readiness axes, and [Transition].  States and axes are Go string types,
    open to any string; the constants below are the source's.  Errors are the
    sentinel the returned error wraps ([errors.Is]); messages are not kept.
    The instance at the end makes the package a [TransitionMachine]. *)

From S2P Require Import Prelude TransitionGraph.

(** ** Data *)

Definition State := string.
Definition StateQuarantined : State := "QUARANTINED".
Definition StateObserved : State := "OBSERVED".
Definition StateBenchmarked : State := "BENCHMARKED".
Definition StateGoverned : State := "GOVERNED".
Definition StatePromoted : State := "PROMOTED".
Definition StateWarming : State := "WARMING".
Definition StateActive : State := "ACTIVE".
Definition StateDraining : State := "DRAINING".
Definition StateRetired : State := "RETIRED".

Definition ConformanceAxis := string.
Definition ConformanceUnverified : ConformanceAxis := "UNVERIFIED".
Definition ConformancePending : ConformanceAxis := "PENDING".
Definition ConformanceConformant : ConformanceAxis := "CONFORMANT".
Definition ConformanceDegraded : ConformanceAxis := "DEGRADED".
Definition ConformanceBreached : ConformanceAxis := "BREACHED".

Definition ReadinessAxis := string.
Definition ReadinessCold : ReadinessAxis := "COLD".
Definition ReadinessWarming : ReadinessAxis := "WARMING".
Definition ReadinessReady : ReadinessAxis := "READY".
Definition ReadinessDraining : ReadinessAxis := "DRAINING".
Definition ReadinessHalted : ReadinessAxis := "HALTED".

Inductive Err := ErrInvalidState | ErrIllegalTransition | ErrInvalidIntent.

Definition validStates : gset string :=
  {[ StateQuarantined; StateObserved; StateBenchmarked; StateGoverned; StatePromoted;
     StateWarming; StateActive; StateDraining; StateRetired ]}.

Definition legalTransitions : gmap string (gset string) :=
  {[ StateQuarantined := {[ StateObserved; StateRetired ]};
     StateObserved := {[ StateBenchmarked; StateQuarantined; StateRetired ]};
     StateBenchmarked := {[ StateGoverned; StateObserved; StateQuarantined; StateRetired ]};
     StateGoverned := {[ StatePromoted; StateObserved; StateQuarantined; StateRetired ]};
     StatePromoted :=
       {[ StateWarming; StateActive; StateDraining; StateQuarantined; StateRetired ]};
     StateWarming := {[ StateActive; StateDraining; StateQuarantined; StateRetired ]};
     StateActive := {[ StateDraining; StateWarming; StateQuarantined ]};
     StateDraining := {[ StateRetired; StateActive; StateQuarantined ]};
     StateRetired := {[ StateQuarantined ]} ]}.

Record StateVector := mkStateVector {
  CurrentState : State;
  PreviousState : State;
  Epoch : Z;             (* uint64 *)
  TransitionCount : Z;   (* uint64 *)
  Conformance : ConformanceAxis;
  Readiness : ReadinessAxis;
  LastTransition : Time;
  EvidenceDigest : string;
  Reason : string
}.

Record TransitionIntent := mkIntent {
  TargetState : State;
  intent_Reason : string;
  intent_EvidenceDigest : string;
  intent_Conformance : ConformanceAxis;
  intent_Readiness : ReadinessAxis;
  intent_Timestamp : Time
}.

Definition zeroStateVector : StateVector := mkStateVector "" "" 0 0 "" "" zeroTime "" "".

(** ** Operations *)

Definition ValidateState (s : State) : option Err :=
  if bool_decide (s ∈ validStates) then None else Some ErrInvalidState.

Definition CanTransition (from to : State) : bool := can_transition legalTransitions from to.

Definition LegalTransitions (from : State) : list State := legal_transitions legalTransitions from.

#[global] Arguments CanTransition : simpl never.
#[global] Arguments ValidateState : simpl never.

Definition defaultConformanceForState (s : State) : ConformanceAxis :=
  if s ==? StateQuarantined then ConformanceBreached
  else if (s ==? StateObserved) || (s ==? StateBenchmarked) then ConformancePending
  else if (s ==? StateGoverned) || (s ==? StatePromoted) || (s ==? StateWarming)
          || (s ==? StateActive) then ConformanceConformant
  else if (s ==? StateDraining) || (s ==? StateRetired) then ConformanceConformant
  else ConformanceUnverified.

Definition defaultReadinessForState (s : State) : ReadinessAxis :=
  if s ==? StateQuarantined then ReadinessHalted
  else if (s ==? StateObserved) || (s ==? StateBenchmarked) || (s ==? StateGoverned)
          || (s ==? StatePromoted) then ReadinessCold
  else if s ==? StateWarming then ReadinessWarming
  else if s ==? StateActive then ReadinessReady
  else if s ==? StateDraining then ReadinessDraining
  else if s ==? StateRetired then ReadinessHalted
  else ReadinessCold.

(** [now] is the reading of [time.Now]. *)
Definition NewStateVector (now : Time) (initial : State) (epoch : Z)
    (conformance : ConformanceAxis) (readiness : ReadinessAxis) : StateVector * option Err :=
  match ValidateState initial with
  | Some e => (zeroStateVector, Some e)
  | None =>
      let conformance :=
        if conformance ==? "" then defaultConformanceForState initial else conformance in
      let readiness :=
        if readiness ==? "" then defaultReadinessForState initial else readiness in
      (mkStateVector initial "" epoch 0 conformance readiness now "" "initialization", None)
  end.

Definition resolveTransitionDimensions (now : Time) (v : StateVector) (intent : TransitionIntent)
    : ConformanceAxis * ReadinessAxis * string * Time :=
  let ts := if IsZero (intent_Timestamp intent) then now else intent_Timestamp intent in
  let conf := if intent_Conformance intent ==? ""
              then defaultConformanceForState (TargetState intent)
              else intent_Conformance intent in
  let ready := if intent_Readiness intent ==? ""
               then defaultReadinessForState (TargetState intent)
               else intent_Readiness intent in
  let ev := if intent_EvidenceDigest intent ==? "" then EvidenceDigest v
            else intent_EvidenceDigest intent in
  (conf, ready, ev, ts).

Definition Transition (now : Time) (v : StateVector) (intent : TransitionIntent)
    : StateVector * option Err :=
  match ValidateState (TargetState intent) with
  | Some e => (v, Some e)
  | None =>
      if intent_Reason intent ==? "" then (v, Some ErrInvalidIntent)
      else if negb (CanTransition (CurrentState v) (TargetState intent))
      then (v, Some ErrIllegalTransition)
      else
        let '(conf, ready, ev, ts) := resolveTransitionDimensions now v intent in
        (mkStateVector (TargetState intent) (CurrentState v)
           (u64_wrap (Epoch v + 1)) (u64_wrap (TransitionCount v + 1))
           conf ready ts ev (intent_Reason intent), None)
  end.

Definition CanTransitionTo (v : StateVector) (target : State) : bool :=
  CanTransition (CurrentState v) target.

Definition LegalTargets (v : StateVector) : list State := LegalTransitions (CurrentState v).

Definition IsTerminal (v : StateVector) : bool := CurrentState v ==? StateRetired.

(** ** The package as a transition machine *)

Lemma Transition_ok now v intent v' :
  Transition now v intent = (v', None) ->
  intent_Reason intent <> "" /\
  edge legalTransitions (CurrentState v) (TargetState intent) /\
  CurrentState v' = TargetState intent /\
  PreviousState v' = CurrentState v /\
  Epoch v' = u64_wrap (Epoch v + 1) /\
  TransitionCount v' = u64_wrap (TransitionCount v + 1) /\
  Reason v' = intent_Reason intent.
Proof.
  unfold Transition, ValidateState, edge. intros H. go_heads. by split_and!.
Qed.

Lemma Transition_err now v intent v' e : Transition now v intent = (v', Some e) -> v' = v.
Proof. unfold Transition. intros H. by go_heads. Qed.

#[export] Instance lifecycle_machine : TransitionMachine StateVector TransitionIntent Err.
Proof.
  refine {| tm_current := CurrentState; tm_epoch := Epoch; tm_count := TransitionCount;
            tm_target := TargetState; tm_edge := edge legalTransitions; tm_step := Transition |}.
  - intros now v i v' H. apply Transition_ok in H. naive_solver.
  - exact Transition_err.
Defined.

(** ** Invariant of the vectors the package produces *)

Record wf (v : StateVector) : Prop := {
  wf_current : CurrentState v ∈ validStates;
  wf_previous : PreviousState v = "" \/ edge legalTransitions (PreviousState v) (CurrentState v);
  wf_epoch : u64_range (Epoch v);
  wf_count : u64_range (TransitionCount v);
  wf_conformance : Conformance v <> "";
  wf_readiness : Readiness v <> "";
  wf_reason : Reason v <> ""
}.

Lemma default_conformance_nonempty s : defaultConformanceForState s <> "".
Proof. unfold defaultConformanceForState. go_cases; done. Qed.

Lemma default_readiness_nonempty s : defaultReadinessForState s <> "".
Proof. unfold defaultReadinessForState. go_cases; done. Qed.

#[export] Hint Resolve default_conformance_nonempty default_readiness_nonempty : go.

Lemma NewStateVector_wf now s epoch c r v :
  u64_range epoch -> NewStateVector now s epoch c r = (v, None) -> wf v.
Proof.
  unfold NewStateVector, ValidateState. intros Hr H. go_heads.
  constructor; simpl; try case_bool_decide; auto with go; done.
Qed.

Lemma resolved_axes_nonempty now v intent c r ev ts :
  resolveTransitionDimensions now v intent = (c, r, ev, ts) -> c <> "" /\ r <> "".
Proof.
  unfold resolveTransitionDimensions. intros H. go_inj.
  split; case_bool_decide; auto with go.
Qed.

Lemma Transition_wf now v intent v' : wf v -> Transition now v intent = (v', None) -> wf v'.
Proof.
  intros Hv H. unfold Transition, ValidateState in H. go_heads.
  match goal with E : resolveTransitionDimensions _ _ _ = _ |- _ =>
    destruct (resolved_axes_nonempty _ _ _ _ _ _ _ E) end.
  constructor; simpl; auto with go.
Qed.

Lemma run_wf v intents : wf v -> wf (fst (run v intents)).
Proof. apply run_invariant. intros ????. apply Transition_wf. Qed.

(** The states in which a workload has not passed governance. *)
Definition pre_governance (s : State) : Prop :=
  s ∈ [StateQuarantined; StateObserved; StateBenchmarked; StateRetired].

#[export] Instance pre_governance_dec s : Decision (pre_governance s).
Proof. unfold pre_governance. apply _. Defined.

Lemma pre_governance_gate a b :
  pre_governance a -> edge legalTransitions a b -> pre_governance b \/ b = StateGoverned.
Proof.
  intros Ha He. revert Ha.
  apply (edges_satisfy_edge legalTransitions
    (fun a b => pre_governance a -> pre_governance b \/ b = StateGoverned) a b); [|done].
  by_computation.
Qed.

(** From a governed workload the only way on is promotion. *)
Lemma pre_promotion_gate a b :
  pre_governance a \/ a = StateGoverned -> edge legalTransitions a b ->
  (pre_governance b \/ b = StateGoverned) \/ b = StatePromoted.
Proof.
  intros Ha He. revert Ha.
  apply (edges_satisfy_edge legalTransitions
    (fun a b => pre_governance a \/ a = StateGoverned ->
                (pre_governance b \/ b = StateGoverned) \/ b = StatePromoted) a b); [|done].
  by_computation.
Qed.

Lemma quarantine_edges s :
  s ∈ validStates -> s <> StateQuarantined -> CanTransition s StateQuarantined = true.
Proof.
  revert s. change (set_Forall (fun s => s <> StateQuarantined ->
    CanTransition s StateQuarantined = true) validStates). by_computation.
Qed.

(** ** Properties *)

(** C1. Serving requires governance: start from a vector that has not passed
    governance (quarantined, observed, benchmarked or retired) and submit any
    sequence of intents, legal or not.  If the workload ends in any other
    state than those four and [GOVERNED] (so, in particular, [ACTIVE]), then
    it has entered [GOVERNED] and, unless it is still there, [PROMOTED]. *)
Theorem serving_requires_governance v intents
    (Hstart : pre_governance (CurrentState v))
    (Hend : ~ pre_governance (CurrentState (fst (run v intents)))) :
  StateGoverned ∈ snd (run v intents) /\
  (CurrentState (fst (run v intents)) <> StateGoverned -> StatePromoted ∈ snd (run v intents)).
Proof.
  split.
  - apply (run_gate pre_governance); [exact pre_governance_gate|done|done].
  - intros Hg. apply (run_gate (fun s => pre_governance s \/ s = StateGoverned));
      [exact pre_promotion_gate|by left|naive_solver].
Qed.

(** A walk from quarantine to serving. *)
Definition serving_walk : list (Time * TransitionIntent) :=
  map (fun s => (1, mkIntent s "step" "" "" "" 5))
      [StateObserved; StateBenchmarked; StateGoverned; StatePromoted; StateActive].

Definition fresh_vector (s : State) : StateVector := fst (NewStateVector 1 s 0 "" "").

Lemma serving_requires_governance_witness :
  CurrentState (fst (run (fresh_vector StateQuarantined) serving_walk)) = StateActive /\
  StateGoverned ∈ snd (run (fresh_vector StateQuarantined) serving_walk).
Proof.
  split; [vm_compute; reflexivity|].
  apply serving_requires_governance; by_computation.
Defined.

(** Every vector obtained from [NewStateVector] by any sequence of
    intents is well formed (recognised state, previous state empty or joined
    to the current one by a legal edge, axes and reason set), its transition
    count is the number of accepted intents and its epoch has advanced by the
    same number, modulo 2^64. *)
Theorem lifecycle_vectors_well_formed now s epoch c r v intents
    (Hepoch : u64_range epoch)
    (Hnew : NewStateVector now s epoch c r = (v, None)) :
  let n := Z.of_nat (length (snd (run v intents))) in
  wf (fst (run v intents))
  /\ TransitionCount (fst (run v intents)) = u64_wrap n
  /\ Epoch (fst (run v intents)) = u64_wrap (epoch + n).
Proof.
  intros n. pose proof (NewStateVector_wf _ _ _ _ _ _ Hepoch Hnew) as Hv.
  destruct (run_counters v intents) as [He Hc]; [apply Hv|apply Hv|].
  simpl in He, Hc. unfold NewStateVector in Hnew. go_heads. simpl in *.
  split_and!; auto using run_wf.
Qed.

Lemma lifecycle_vectors_well_formed_witness :
  wf (fst (run (fresh_vector StateQuarantined) serving_walk))
  /\ TransitionCount (fst (run (fresh_vector StateQuarantined) serving_walk)) = u64_wrap 5
  /\ Epoch (fst (run (fresh_vector StateQuarantined) serving_walk)) = u64_wrap (0 + 5).
Proof.
  apply (lifecycle_vectors_well_formed 1 StateQuarantined 0 "" ""); [done|].
  vm_compute. reflexivity.
Defined.

(** Quarantine is always one step away: from every recognised state but
    [QUARANTINED] itself, an intent to quarantine with a reason is accepted,
    and without explicit axes the workload is then [BREACHED] and [HALTED]. *)
Theorem quarantine_always_available now v intent
    (Hstate : CurrentState v ∈ validStates)
    (Hother : CurrentState v <> StateQuarantined)
    (Htarget : TargetState intent = StateQuarantined)
    (Hreason : intent_Reason intent <> "") :
  exists v', Transition now v intent = (v', None)
    /\ CurrentState v' = StateQuarantined
    /\ PreviousState v' = CurrentState v
    /\ (intent_Conformance intent = "" -> Conformance v' = ConformanceBreached)
    /\ (intent_Readiness intent = "" -> Readiness v' = ReadinessHalted).
Proof.
  assert (CanTransition (CurrentState v) StateQuarantined = true) as Hcan.
  { by apply quarantine_edges. }
  unfold Transition, ValidateState. rewrite Htarget, Hcan.
  rewrite bool_decide_true by by_computation.
  rewrite bool_decide_false by done. cbn [negb].
  eexists. split; [reflexivity|]. simpl. rewrite Htarget.
  split_and!; try done; intros ->; reflexivity.
Qed.

Lemma quarantine_always_available_witness :
  exists v', Transition 7 (fresh_vector StateActive)
               (mkIntent StateQuarantined "incident" "" "" "" 9) = (v', None)
    /\ CurrentState v' = StateQuarantined /\ PreviousState v' = StateActive
    /\ ("" = "" -> Conformance v' = ConformanceBreached)
    /\ ("" = "" -> Readiness v' = ReadinessHalted).
Proof.
  apply (quarantine_always_available 7 (fresh_vector StateActive)
           (mkIntent StateQuarantined "incident" "" "" "" 9)); by_computation.
Defined.

(** The state [IsTerminal] reports is not absorbing: the edge table lets a
    retired workload go back to quarantine. *)
Lemma retired_not_absorbing :
  IsTerminal (fresh_vector StateRetired) = true
  /\ LegalTargets (fresh_vector StateRetired) = [StateQuarantined].
Proof. split; vm_compute; reflexivity. Qed.
