(* ===== verification/Mode.v ===== *)
(** * Operational modes and contracts ([internal/kernel/mode/mode.go])

    The degraded-mode machine: six modes, the contract each mandates, the
    [ModeVector] value and [Transition].  Modes, severities and postures are
    Go string types; the contract table is the source's.  The [Dimensions]
    maps are finite maps; [Transition] builds a fresh one, so no aliasing is
    involved. *)

From S2P Require Import Prelude TransitionGraph.

(** ** Data *)

Definition Mode := string.
Definition ModeNormal : Mode := "NORMAL".
Definition ModeDegraded : Mode := "DEGRADED".
Definition ModeSafeHold : Mode := "SAFE_HOLD".
Definition ModeQuarantined : Mode := "QUARANTINED".
Definition ModeRecovering : Mode := "RECOVERING".
Definition ModeFailed : Mode := "FAILED".

Definition SeverityLevel := string.
Definition SeverityNone : SeverityLevel := "NONE".
Definition SeverityLow : SeverityLevel := "LOW".
Definition SeverityMedium : SeverityLevel := "MEDIUM".
Definition SeverityHigh : SeverityLevel := "HIGH".
Definition SeverityCritical : SeverityLevel := "CRITICAL".

Definition TrafficPosture := string.
Definition TrafficAdmitAll : TrafficPosture := "ADMIT_ALL".
Definition TrafficConstrained : TrafficPosture := "CONSTRAINED".
Definition TrafficPaused : TrafficPosture := "PAUSED".
Definition TrafficBlocked : TrafficPosture := "BLOCKED".
Definition TrafficProbingOnly : TrafficPosture := "PROBING_ONLY".
Definition TrafficTerminated : TrafficPosture := "TERMINATED".

Definition MutationPosture := string.
Definition MutationAllowed : MutationPosture := "ALLOWED".
Definition MutationRestricted : MutationPosture := "RESTRICTED".
Definition MutationFrozen : MutationPosture := "FROZEN".
Definition MutationRemediationOnly : MutationPosture := "REMEDIATION_ONLY".
Definition MutationDisallowed : MutationPosture := "DISALLOWED".

Definition IsolationLevel := string.
Definition IsolationStandard : IsolationLevel := "STANDARD".
Definition IsolationEnhanced : IsolationLevel := "ENHANCED".
Definition IsolationFrozen : IsolationLevel := "FROZEN".
Definition IsolationComplete : IsolationLevel := "COMPLETE".
Definition IsolationSandboxed : IsolationLevel := "SANDBOXED".
Definition IsolationTerminal : IsolationLevel := "TERMINAL".

Definition SLAPosture := string.
Definition SLAStrict : SLAPosture := "STRICT".
Definition SLARelaxed : SLAPosture := "RELAXED".
Definition SLASuspended : SLAPosture := "SUSPENDED".
Definition SLAVoided : SLAPosture := "VOIDED".
Definition SLAWarming : SLAPosture := "WARMING".
Definition SLABreached : SLAPosture := "BREACHED".

Definition HealingPosture := string.
Definition HealingPassive : HealingPosture := "PASSIVE".
Definition HealingActive : HealingPosture := "ACTIVE".
Definition HealingManualIntervention : HealingPosture := "MANUAL_INTERVENTION".
Definition HealingForensicLocked : HealingPosture := "FORENSIC_LOCKED".
Definition HealingInFlight : HealingPosture := "IN_FLIGHT".
Definition HealingSupervisorIntervention : HealingPosture := "SUPERVISOR_INTERVENTION".

Inductive Err := ErrInvalidMode | ErrIllegalTransition | ErrInvalidIntent.

Definition validModes : gset string :=
  {[ ModeNormal; ModeDegraded; ModeSafeHold; ModeQuarantined; ModeRecovering; ModeFailed ]}.

Definition legalTransitions : gmap string (gset string) :=
  {[ ModeNormal := {[ ModeDegraded; ModeSafeHold; ModeQuarantined; ModeFailed ]};
     ModeDegraded :=
       {[ ModeNormal; ModeSafeHold; ModeQuarantined; ModeRecovering; ModeFailed ]};
     ModeSafeHold := {[ ModeNormal; ModeRecovering; ModeQuarantined; ModeFailed ]};
     ModeQuarantined := {[ ModeRecovering; ModeFailed ]};
     ModeRecovering :=
       {[ ModeNormal; ModeDegraded; ModeSafeHold; ModeQuarantined; ModeFailed ]};
     ModeFailed := {[ ModeRecovering ]} ]}.

Record Contract := mkContract {
  contract_Mode : Mode;
  Traffic : TrafficPosture;
  Mutation : MutationPosture;
  Isolation : IsolationLevel;
  SLA : SLAPosture;
  SelfHealing : HealingPosture
}.

#[export] Instance Contract_eq_dec : EqDecision Contract.
Proof. solve_decision. Defined.

Definition zeroContract : Contract := mkContract "" "" "" "" "" "".

Definition modeContracts : gmap string Contract :=
  {[ ModeNormal := mkContract ModeNormal TrafficAdmitAll MutationAllowed
                     IsolationStandard SLAStrict HealingPassive;
     ModeDegraded := mkContract ModeDegraded TrafficConstrained MutationRestricted
                       IsolationEnhanced SLARelaxed HealingActive;
     ModeSafeHold := mkContract ModeSafeHold TrafficPaused MutationFrozen
                       IsolationFrozen SLASuspended HealingManualIntervention;
     ModeQuarantined := mkContract ModeQuarantined TrafficBlocked MutationFrozen
                          IsolationComplete SLAVoided HealingForensicLocked;
     ModeRecovering := mkContract ModeRecovering TrafficProbingOnly MutationRemediationOnly
                         IsolationSandboxed SLAWarming HealingInFlight;
     ModeFailed := mkContract ModeFailed TrafficTerminated MutationDisallowed
                     IsolationTerminal SLABreached HealingSupervisorIntervention ]}.

(** Indexing a Go map yields the zero value for an absent key. *)
Definition contractOf (m : Mode) : Contract := default zeroContract (modeContracts !! m).

Record ModeVector := mkModeVector {
  CurrentMode : Mode;
  PreviousMode : Mode;
  Severity : SeverityLevel;
  Epoch : Z;             (* uint64 *)
  TransitionCount : Z;   (* uint64 *)
  LastTransition : Time;
  ContractV : Contract;
  Dimensions : gmap string string;
  Reason : string;
  EvidenceDigest : string
}.

Record TransitionIntent := mkIntent {
  TargetMode : Mode;
  intent_Severity : SeverityLevel;
  intent_Reason : string;
  intent_EvidenceDigest : string;
  intent_Dimensions : gmap string string;
  intent_Timestamp : Time
}.

Definition zeroModeVector : ModeVector :=
  mkModeVector "" "" "" 0 0 zeroTime zeroContract ∅ "" "".

(** ** Operations *)

Definition ValidateMode (m : Mode) : option Err :=
  if bool_decide (m ∈ validModes) then None else Some ErrInvalidMode.

Definition GetContract (m : Mode) : Contract * option Err :=
  match ValidateMode m with
  | Some e => (zeroContract, Some e)
  | None => (contractOf m, None)
  end.

Definition CanTransition (from to : Mode) : bool := can_transition legalTransitions from to.

Definition LegalTransitions (from : Mode) : list Mode := legal_transitions legalTransitions from.

#[global] Arguments CanTransition : simpl never.
#[global] Arguments ValidateMode : simpl never.
#[global] Arguments contractOf : simpl never.

Definition defaultSeverityForMode (m : Mode) : SeverityLevel :=
  if m ==? ModeNormal then SeverityNone
  else if m ==? ModeDegraded then SeverityMedium
  else if m ==? ModeSafeHold then SeverityHigh
  else if m ==? ModeQuarantined then SeverityCritical
  else if m ==? ModeRecovering then SeverityLow
  else if m ==? ModeFailed then SeverityCritical
  else SeverityNone.

Definition NewModeVector (now : Time) (initial : Mode) (severity : SeverityLevel) (epoch : Z)
    : ModeVector * option Err :=
  match ValidateMode initial with
  | Some e => (zeroModeVector, Some e)
  | None =>
      match GetContract initial with
      | (_, Some e) => (zeroModeVector, Some e)
      | (contract, None) =>
          let severity :=
            if severity ==? "" then defaultSeverityForMode initial else severity in
          (mkModeVector initial "" severity epoch 0 now contract ∅ "initialization" "", None)
      end
  end.

(** The copy loops over [v.Dimensions] and then [intent.Dimensions]: a key of
    the intent overwrites the vector's. *)
Definition resolveTransitionDimensions (now : Time) (v : ModeVector) (intent : TransitionIntent)
    : SeverityLevel * gmap string string * string * Time :=
  let ts := if IsZero (intent_Timestamp intent) then now else intent_Timestamp intent in
  let sev := if intent_Severity intent ==? ""
             then defaultSeverityForMode (TargetMode intent) else intent_Severity intent in
  let dims := intent_Dimensions intent ∪ (Dimensions v ∪ ∅) in
  let ev := if intent_EvidenceDigest intent ==? "" then EvidenceDigest v
            else intent_EvidenceDigest intent in
  (sev, dims, ev, ts).

Definition Transition (now : Time) (v : ModeVector) (intent : TransitionIntent)
    : ModeVector * option Err :=
  match ValidateMode (TargetMode intent) with
  | Some e => (v, Some e)
  | None =>
      if intent_Reason intent ==? "" then (v, Some ErrInvalidIntent)
      else if negb (CanTransition (CurrentMode v) (TargetMode intent))
      then (v, Some ErrIllegalTransition)
      else
        let contract := contractOf (TargetMode intent) in
        let '(sev, dims, ev, ts) := resolveTransitionDimensions now v intent in
        (mkModeVector (TargetMode intent) (CurrentMode v) sev
           (u64_wrap (Epoch v + 1)) (u64_wrap (TransitionCount v + 1))
           ts contract dims (intent_Reason intent) ev, None)
  end.

Definition CanTransitionTo (v : ModeVector) (target : Mode) : bool :=
  CanTransition (CurrentMode v) target.

Definition LegalTargets (v : ModeVector) : list Mode := LegalTransitions (CurrentMode v).

(** ** The package as a transition machine *)

Lemma mode_Transition_ok now v intent v' :
  Transition now v intent = (v', None) ->
  TargetMode intent ∈ validModes /\
  edge legalTransitions (CurrentMode v) (TargetMode intent) /\
  CurrentMode v' = TargetMode intent /\
  Epoch v' = u64_wrap (Epoch v + 1) /\
  TransitionCount v' = u64_wrap (TransitionCount v + 1) /\
  ContractV v' = contractOf (TargetMode intent) /\
  Dimensions v' = intent_Dimensions intent ∪ Dimensions v.
Proof.
  unfold Transition, ValidateMode, edge, resolveTransitionDimensions. intros H. go_heads.
  simpl. rewrite (right_id_L ∅ (∪)). by split_and!.
Qed.

Lemma mode_Transition_err now v intent v' e : Transition now v intent = (v', Some e) -> v' = v.
Proof. unfold Transition. intros H. by go_heads. Qed.

#[export] Instance mode_machine : TransitionMachine ModeVector TransitionIntent Err.
Proof.
  refine {| tm_current := CurrentMode; tm_epoch := Epoch; tm_count := TransitionCount;
            tm_target := TargetMode; tm_edge := edge legalTransitions; tm_step := Transition |}.
  - intros now v i v' H. apply mode_Transition_ok in H. naive_solver.
  - exact mode_Transition_err.
Defined.

(** ** Invariant: the vector carries the contract of its mode *)

Definition contract_coherent (v : ModeVector) : Prop :=
  CurrentMode v ∈ validModes /\ modeContracts !! CurrentMode v = Some (ContractV v).

Lemma contract_of_valid m : m ∈ validModes -> modeContracts !! m = Some (contractOf m).
Proof.
  revert m. change (set_Forall (fun m => modeContracts !! m = Some (contractOf m)) validModes).
  by_computation.
Qed.

Lemma NewModeVector_coherent now m sev epoch v :
  NewModeVector now m sev epoch = (v, None) -> contract_coherent v.
Proof.
  unfold NewModeVector, GetContract, ValidateMode. intros H. go_heads.
  split; [done|]. by apply contract_of_valid.
Qed.

Lemma mode_run_coherent v intents : contract_coherent v -> contract_coherent (fst (run v intents)).
Proof.
  apply run_invariant. intros now w i w' _ H.
  apply mode_Transition_ok in H as (Hv & _ & Hc & _ & _ & Hk & _).
  unfold contract_coherent. rewrite Hc, Hk. auto using contract_of_valid.
Qed.

(** What the contract table says of traffic. *)
Lemma admit_all_only_normal m c :
  modeContracts !! m = Some c -> (Traffic c = TrafficAdmitAll <-> m = ModeNormal).
Proof.
  revert m c. change (map_Forall (fun m c => Traffic c = TrafficAdmitAll <-> m = ModeNormal)
    modeContracts). by_computation.
Qed.

Lemma mutable_modes m c :
  modeContracts !! m = Some c ->
  (Mutation c ∈ [MutationAllowed; MutationRestricted] <-> m ∈ [ModeNormal; ModeDegraded]).
Proof.
  revert m c. change (map_Forall (fun m c =>
    Mutation c ∈ [MutationAllowed; MutationRestricted] <-> m ∈ [ModeNormal; ModeDegraded])
    modeContracts). by_computation.
Qed.

Definition locked_down (m : Mode) : Prop := m ∈ [ModeQuarantined; ModeFailed].

#[export] Instance locked_down_dec m : Decision (locked_down m).
Proof. unfold locked_down. apply _. Defined.

Lemma lockdown_gate a b :
  locked_down a -> edge legalTransitions a b -> locked_down b \/ b = ModeRecovering.
Proof.
  intros Ha He. revert Ha.
  apply (edges_satisfy_edge legalTransitions
    (fun a b => locked_down a -> locked_down b \/ b = ModeRecovering) a b); [|done].
  by_computation.
Qed.

(** ** Properties *)

(** Contract coherence: whatever intents are submitted to a vector that
    [NewModeVector] produced, the vector carries the contract its mode
    mandates; it admits all traffic exactly in [NORMAL], and its
    configuration is mutable ([ALLOWED] or [RESTRICTED]) exactly in [NORMAL]
    and [DEGRADED]. *)
Theorem mode_contract_coherence now m sev epoch v intents
    (Hnew : NewModeVector now m sev epoch = (v, None)) :
  let w := fst (run v intents) in
  contract_coherent w
  /\ (Traffic (ContractV w) = TrafficAdmitAll <-> CurrentMode w = ModeNormal)
  /\ (Mutation (ContractV w) ∈ [MutationAllowed; MutationRestricted]
      <-> CurrentMode w ∈ [ModeNormal; ModeDegraded]).
Proof.
  intros w. assert (contract_coherent w) as Hc.
  { apply mode_run_coherent. by eapply NewModeVector_coherent. }
  split_and!; [done|apply admit_all_only_normal, Hc|apply mutable_modes, Hc].
Qed.

Definition fresh_mode (m : Mode) : ModeVector := fst (NewModeVector 1 m "" 0).

Definition recovery_walk : list (Time * TransitionIntent) :=
  map (fun m => (1, mkIntent m "" "step" "" ∅ 5)) [ModeNormal; ModeRecovering; ModeNormal].

Lemma mode_contract_coherence_witness :
  let w := fst (run (fresh_mode ModeQuarantined) recovery_walk) in
  contract_coherent w
  /\ (Traffic (ContractV w) = TrafficAdmitAll <-> CurrentMode w = ModeNormal)
  /\ (Mutation (ContractV w) ∈ [MutationAllowed; MutationRestricted]
      <-> CurrentMode w ∈ [ModeNormal; ModeDegraded]).
Proof.
  apply (mode_contract_coherence 1 ModeQuarantined "" 0). vm_compute. reflexivity.
Defined.

(** No service without recovery: a workload that is quarantined or failed
    can reach any other mode (normal service, degraded service or safe hold)
    only by a sequence of intents that takes it through [RECOVERING]. *)
Theorem lockdown_requires_recovery (v : ModeVector) intents
    (Hstart : locked_down (CurrentMode v))
    (Hend : ~ locked_down (CurrentMode (fst (run v intents)))) :
  ModeRecovering ∈ snd (run v intents).
Proof. apply (run_gate locked_down); [exact lockdown_gate|done|done]. Qed.

Lemma lockdown_requires_recovery_witness :
  CurrentMode (fst (run (fresh_mode ModeQuarantined) recovery_walk)) = ModeNormal
  /\ ModeRecovering ∈ snd (run (fresh_mode ModeQuarantined) recovery_walk).
Proof.
  split; [vm_compute; reflexivity|].
  apply lockdown_requires_recovery; by_computation.
Defined.
