(* ===== verification/Residency.v ===== *)
(** * Model-residency control plane ([internal/residency])

    The state machine that moves a model between cold storage, the artifact
    cache and a serving runtime: [state.go] (data), [project.go] (status and
    request policy derived from an observation) and [machine.go] ([Advance],
    one decision per reconciliation).  [Advance] is pure: it returns the next
    transaction cursor and the actions it asks the owners of the cache, the
    runtime, the sessions and the route to perform.

    [State] is a Go string type and reaches [Advance] from persisted data, so
    it is an open string here; [Action] values are only produced by this
    package and form an inductive type.  An error is the sentinel it wraps. *)

From S2P Require Import Prelude.

(** ** Data ([state.go]) *)

Definition State := string.
Definition StateCold : State := "cold".
Definition StateCached : State := "cached".
Definition StateLoading : State := "loading".
Definition StateWarming : State := "warming".
Definition StateReady : State := "ready".
Definition StateDraining : State := "draining".
Definition StateEvicting : State := "evicting".

Inductive Action :=
| ActionCacheArtifact | ActionLoadRuntime | ActionWarmRuntime | ActionAttachRoute
| ActionDetachRoute | ActionWaitForDrain | ActionStopRuntime | ActionEvictArtifact.

#[export] Instance Action_eq_dec : EqDecision Action.
Proof. solve_decision. Defined.

Inductive Err := ErrInvalidPlan | ErrInvariantViolated | ErrTransitionFailed | ErrTransitionTimeout.

#[export] Instance Err_eq_dec : EqDecision Err.
Proof. solve_decision. Defined.

Record Plan := mkPlan {
  Target : State;
  RequirePrefill : bool;
  Timeout : Duration
}.

Record Snapshot := mkSnapshot {
  snap_State : State;
  RollbackTarget : State;
  StartedAt : Time;
  Deadline : Time
}.

Record Observation := mkObservation {
  ArtifactCached : bool;
  RuntimeLoaded : bool;
  RuntimeReady : bool;
  PrefillReady : bool;
  RouteAttached : bool;
  AcceptingRequests : bool;
  ActiveRequests : Z;    (* int64 *)
  Failure : string
}.

Record Policy := mkPolicy {
  AllowRoute : bool;
  AcceptNewRequests : bool;
  RetainRuntime : bool;
  RetainArtifact : bool
}.

Record Status := mkStatus {
  status_State : State;
  Ready : bool;
  Progressing : bool;
  status_Reason : string
}.

Record Decision := mkDecision {
  decision_Snapshot : Snapshot;
  Actions : list Action;
  decision_Policy : Policy;
  decision_Status : Status
}.

(** ** Projection ([project.go]) *)

Definition isTransitional (state : State) : bool :=
  (state ==? StateLoading) || (state ==? StateWarming)
  || (state ==? StateDraining) || (state ==? StateEvicting).

Definition stateReason (state : State) : string :=
  if state ==? StateCold then "ArtifactAbsent"
  else if state ==? StateCached then "ArtifactCached"
  else if state ==? StateLoading then "RuntimeLoading"
  else if state ==? StateWarming then "RuntimeWarming"
  else if state ==? StateDraining then "RequestsDraining"
  else if state ==? StateEvicting then "ResidencyEvicting"
  else "StateUnknown".

Definition policyFor (state : State) (observed : Observation) (requirePrefill : bool) : Policy :=
  let ready := (state ==? StateReady) && RuntimeReady observed
               && (negb requirePrefill || PrefillReady observed) in
  {| AllowRoute := ready;
     AcceptNewRequests := ready;
     RetainRuntime := (state ==? StateLoading) || (state ==? StateWarming)
                      || (state ==? StateReady) || (state ==? StateDraining);
     RetainArtifact := (state !=? StateCold) && (state !=? StateEvicting) |}.

Definition statusFor (state : State) (observed : Observation) (requirePrefill : bool) : Status :=
  if state !=? StateReady
  then mkStatus state false (isTransitional state) (stateReason state)
  else if negb (RuntimeReady observed)
  then mkStatus state false (isTransitional state) "RuntimeUnavailable"
  else if requirePrefill && negb (PrefillReady observed)
  then mkStatus state false (isTransitional state) "PrefillUnavailable"
  else mkStatus state true (isTransitional state) "ResidentReady".

Definition validateObservation (state : State) (observed : Observation) (requirePrefill : bool)
    : option Err :=
  if ActiveRequests observed <? 0 then Some ErrInvariantViolated
  else if AcceptingRequests observed && negb (RouteAttached observed) then Some ErrInvariantViolated
  else if RouteAttached observed && negb (RuntimeReady observed) then Some ErrInvariantViolated
  else if RouteAttached observed && requirePrefill && negb (PrefillReady observed)
  then Some ErrInvariantViolated
  else if AcceptingRequests observed && (state !=? StateReady) then Some ErrInvariantViolated
  else if (ActiveRequests observed >? 0) && (state !=? StateReady) && (state !=? StateDraining)
  then Some ErrInvariantViolated
  else None.

Definition deny_requests (p : Policy) : Policy :=
  mkPolicy false false (RetainRuntime p) (RetainArtifact p).

Definition Project (state : State) (observed : Observation) (requirePrefill : bool)
    : Status * Policy * option Err :=
  let policy := policyFor state observed requirePrefill in
  match validateObservation state observed requirePrefill with
  | Some e =>
      (mkStatus state false false "InvariantViolation", deny_requests policy, Some e)
  | None => (statusFor state observed requirePrefill, policy, None)
  end.

(** ** The machine ([machine.go]) *)

Definition defaultTransitionTimeout : Duration := 5 * Minute.

Definition isKnownState (state : State) : bool :=
  (state ==? StateCold) || (state ==? StateCached) || (state ==? StateLoading)
  || (state ==? StateWarming) || (state ==? StateReady) || (state ==? StateDraining)
  || (state ==? StateEvicting).

Definition begin (now : Time) (current : Snapshot) (state : State) (timeout : Duration) : Snapshot :=
  let timeout := if timeout <=? 0 then defaultTransitionTimeout else timeout in
  let rollbackTarget := snap_State current in
  let rollbackTarget :=
    if isTransitional rollbackTarget then RollbackTarget current else rollbackTarget in
  mkSnapshot state rollbackTarget now (TimeAdd now timeout).

Definition move (current : Snapshot) (state : State) : Snapshot :=
  mkSnapshot state (RollbackTarget current) (StartedAt current) (Deadline current).

Definition settle (current : Snapshot) (state : State) : Snapshot :=
  mkSnapshot state state zeroTime zeroTime.

Definition decision (snapshot : Snapshot) (actions : list Action) (observed : Observation)
    (requirePrefill : bool) : Decision :=
  mkDecision snapshot actions (policyFor (snap_State snapshot) observed requirePrefill)
    (statusFor (snap_State snapshot) observed requirePrefill).

Definition invariantDecision (snapshot : Snapshot) (actions : list Action) (observed : Observation)
    (requirePrefill : bool) : Decision :=
  let d := decision snapshot actions observed requirePrefill in
  mkDecision (decision_Snapshot d) (Actions d) (deny_requests (decision_Policy d))
    (mkStatus (status_State (decision_Status d)) false (Progressing (decision_Status d))
       "InvariantViolation").

Definition failClosedActions (observed : Observation) : list Action :=
  if RouteAttached observed || AcceptingRequests observed then [ActionDetachRoute] else [].

Definition validatePlan (current : Snapshot) (plan : Plan) : option Err :=
  if negb (isKnownState (snap_State current)) then Some ErrInvalidPlan
  else if (Target plan !=? StateReady) && (Target plan !=? StateCached)
          && (Target plan !=? StateCold) then Some ErrInvalidPlan
  else None.

Definition rollback (current : Snapshot) (observed : Observation) (plan : Plan) (cause : Err)
    : Decision * option Err :=
  let actions := failClosedActions observed in
  if ActiveRequests observed >? 0 then
    (decision (move current StateDraining) (actions ++ [ActionWaitForDrain]) observed
       (RequirePrefill plan), Some cause)
  else if RuntimeLoaded observed then
    (decision (move current StateEvicting) (actions ++ [ActionStopRuntime]) observed
       (RequirePrefill plan), Some cause)
  else
    let target := RollbackTarget current in
    if (target ==? StateCached) && ArtifactCached observed then
      (decision (settle current StateCached) actions observed (RequirePrefill plan), Some cause)
    else if ArtifactCached observed then
      (decision (move current StateEvicting) (actions ++ [ActionEvictArtifact]) observed
         (RequirePrefill plan), Some cause)
    else (decision (settle current StateCold) actions observed (RequirePrefill plan), Some cause).

Definition serving_ready (plan : Plan) (observed : Observation) : bool :=
  RuntimeReady observed && (negb (RequirePrefill plan) || PrefillReady observed).

Definition recoverReady (current : Snapshot) (plan : Plan) (observed : Observation) : Decision :=
  if serving_ready plan observed then
    let actions := if negb (RouteAttached observed) then [ActionAttachRoute] else [] in
    decision (settle current StateReady) actions observed (RequirePrefill plan)
  else decision (move current StateWarming) [ActionWarmRuntime] observed (RequirePrefill plan).

Definition resumeReady (now : Time) (current : Snapshot) (plan : Plan) (observed : Observation)
    : Decision :=
  if serving_ready plan observed then
    decision (settle current StateReady) [ActionAttachRoute] observed (RequirePrefill plan)
  else decision (begin now current StateWarming (Timeout plan)) [ActionWarmRuntime] observed
         (RequirePrefill plan).

Definition advanceDrain (current : Snapshot) (plan : Plan) (observed : Observation) : Decision :=
  if RouteAttached observed
  then decision current [ActionDetachRoute] observed (RequirePrefill plan)
  else if ActiveRequests observed >? 0
  then decision current [ActionWaitForDrain] observed (RequirePrefill plan)
  else decision (move current StateEvicting) [ActionStopRuntime] observed (RequirePrefill plan).

Definition advanceEviction (current : Snapshot) (plan : Plan) (observed : Observation) : Decision :=
  if RuntimeLoaded observed
  then decision current [ActionStopRuntime] observed (RequirePrefill plan)
  else if (Target plan ==? StateCached) && ArtifactCached observed
  then decision (settle current StateCached) [] observed (RequirePrefill plan)
  else if ArtifactCached observed
  then decision current [ActionEvictArtifact] observed (RequirePrefill plan)
  else decision (settle current StateCold) [] observed (RequirePrefill plan).

Definition advanceToReady (now : Time) (current : Snapshot) (plan : Plan) (observed : Observation)
    : Decision * option Err :=
  let s := snap_State current in
  let rp := RequirePrefill plan in
  if s ==? StateCold then
    if ArtifactCached observed then (decision (settle current StateCached) [] observed rp, None)
    else (decision current [ActionCacheArtifact] observed rp, None)
  else if s ==? StateCached then
    if negb (ArtifactCached observed)
    then (decision (settle current StateCold) [ActionCacheArtifact] observed rp, None)
    else (decision (begin now current StateLoading (Timeout plan)) [ActionLoadRuntime] observed rp,
          None)
  else if s ==? StateLoading then
    if RuntimeLoaded observed
    then (decision (move current StateWarming) [ActionWarmRuntime] observed rp, None)
    else (decision current [ActionLoadRuntime] observed rp, None)
  else if s ==? StateWarming then
    if serving_ready plan observed
    then (decision (settle current StateReady) [ActionAttachRoute] observed rp, None)
    else (decision current [ActionWarmRuntime] observed rp, None)
  else if s ==? StateReady then (recoverReady current plan observed, None)
  else if (s ==? StateDraining) || (s ==? StateEvicting)
  then (resumeReady now current plan observed, None)
  else (decision current [] observed rp, Some ErrInvalidPlan).

Definition advanceToLowerState (now : Time) (current : Snapshot) (plan : Plan)
    (observed : Observation) : Decision * option Err :=
  let s := snap_State current in
  let rp := RequirePrefill plan in
  if s ==? Target plan then (decision (settle current s) [] observed rp, None)
  else if s ==? StateReady then
    (decision (begin now current StateDraining (Timeout plan)) [ActionDetachRoute] observed rp, None)
  else if (s ==? StateLoading) || (s ==? StateWarming) then
    (decision (begin now current StateEvicting (Timeout plan))
       (failClosedActions observed ++ [ActionStopRuntime]) observed rp, None)
  else if s ==? StateDraining then (advanceDrain current plan observed, None)
  else if s ==? StateEvicting then (advanceEviction current plan observed, None)
  else if s ==? StateCached then
    (decision (begin now current StateEvicting (Timeout plan)) [ActionEvictArtifact] observed rp,
     None)
  else if s ==? StateCold then (decision current [ActionCacheArtifact] observed rp, None)
  else (decision current [] observed rp, Some ErrInvalidPlan).

Definition Advance (now : Time) (current : Snapshot) (plan : Plan) (observed : Observation)
    : Decision * option Err :=
  match validatePlan current plan with
  | Some e => (decision current [] observed (RequirePrefill plan), Some e)
  | None =>
      if Failure observed !=? "" then rollback current observed plan ErrTransitionFailed
      else if isTransitional (snap_State current) && negb (IsZero (Deadline current))
              && negb (Before now (Deadline current))
      then rollback current observed plan ErrTransitionTimeout
      else match Project (snap_State current) observed (RequirePrefill plan) with
           | (_, _, Some e) =>
               (invariantDecision current (failClosedActions observed) observed
                  (RequirePrefill plan), Some e)
           | (_, _, None) =>
               if Target plan ==? StateReady then advanceToReady now current plan observed
               else if (Target plan ==? StateCached) || (Target plan ==? StateCold)
               then advanceToLowerState now current plan observed
               else (decision current [] observed (RequirePrefill plan), Some ErrInvalidPlan)
           end
  end.

(** ** Case analysis of a decision

    [advance_cases H] follows every path of [Advance] in an execution
    equation [H]. *)
Ltac advance_cases H :=
  unfold Advance, validatePlan, rollback, Project, advanceToReady, advanceToLowerState,
    recoverReady, resumeReady, advanceDrain, advanceEviction in H;
  go_cases.

Lemma policy_route state observed rp :
  AllowRoute (policyFor state observed rp) = true ->
  state = StateReady /\ RuntimeReady observed = true /\ (rp = true -> PrefillReady observed = true).
Proof.
  unfold policyFor; simpl. rewrite !andb_true_iff, orb_true_iff, negb_true_iff, bool_decide_eq_true.
  destruct rp; naive_solver.
Qed.

Lemma policy_serving plan observed :
  serving_ready plan observed = true ->
  AllowRoute (policyFor StateReady observed (RequirePrefill plan)) = true.
Proof. exact id. Qed.

Lemma attach_not_fail_closed observed : ActionAttachRoute ∉ failClosedActions observed.
Proof. unfold failClosedActions. destruct (_ || _); set_solver. Qed.

Lemma stop_not_fail_closed observed : ActionStopRuntime ∉ failClosedActions observed.
Proof. unfold failClosedActions. destruct (_ || _); set_solver. Qed.

Lemma fail_closed_detaches observed :
  RouteAttached observed = true \/ AcceptingRequests observed = true ->
  ActionDetachRoute ∈ failClosedActions observed.
Proof. unfold failClosedActions. intros [-> | ->]; rewrite ?orb_true_r; simpl; set_solver. Qed.

#[export] Hint Resolve attach_not_fail_closed stop_not_fail_closed fail_closed_detaches : go.

(** ** Snapshots the machine produces *)

Definition stable (s : State) : Prop := s ∈ [StateCold; StateCached; StateReady].

#[export] Instance stable_dec s : base.Decision (stable s).
Proof. unfold stable. apply _. Defined.

(** A stable snapshot is settled; a transition in flight remembers the stable
    state it started from. *)
Record snapshot_wf (s : Snapshot) : Prop := {
  wf_known : isKnownState (snap_State s) = true;
  wf_rollback : stable (RollbackTarget s);
  wf_settled : stable (snap_State s) -> s = settle s (snap_State s)
}.

Lemma settle_wf s st : stable st -> snapshot_wf (settle s st).
Proof.
  intros Hst. constructor; simpl; [|done|done].
  revert Hst. unfold stable. rewrite !elem_of_cons, elem_of_nil.
  intros [->|[->|[->|[]]]]; reflexivity.
Qed.

Definition transitional (s : State) : Prop :=
  s ∈ [StateLoading; StateWarming; StateDraining; StateEvicting].

Lemma transitional_spec s : isTransitional s = true <-> transitional s.
Proof.
  unfold isTransitional, transitional.
  rewrite !orb_true_iff, !bool_decide_eq_true, !elem_of_cons, elem_of_nil. naive_solver.
Qed.

Lemma known_spec s : isKnownState s = true <-> stable s \/ transitional s.
Proof.
  unfold isKnownState, transitional, stable.
  rewrite !orb_true_iff, !bool_decide_eq_true, !elem_of_cons, !elem_of_nil. naive_solver.
Qed.

Lemma transitional_not_stable s : transitional s -> ~ stable s.
Proof.
  unfold transitional, stable. rewrite !elem_of_cons, !elem_of_nil.
  intros H1 H2. destruct_or?; subst; done.
Qed.

Lemma move_wf s st : snapshot_wf s -> transitional st -> snapshot_wf (move s st).
Proof.
  intros [_ Hr _] Ht. constructor; simpl; [apply known_spec; by right|done|].
  intros Hs. by destruct (transitional_not_stable st).
Qed.

Lemma begin_wf now s st t : snapshot_wf s -> transitional st -> snapshot_wf (begin now s st t).
Proof.
  intros [Hk Hr _] Ht. constructor; simpl; [apply known_spec; by right| |].
  - destruct (isTransitional (snap_State s)) eqn:E; [done|].
    apply known_spec in Hk as [|Hn]; [done|]. apply transitional_spec in Hn. congruence.
  - intros Hs. by destruct (transitional_not_stable st).
Qed.

Ltac in_list := unfold stable, transitional; by_computation.

#[export] Hint Resolve settle_wf move_wf begin_wf : go.
#[export] Hint Extern 1 (stable _) => (done || in_list) : go.
#[export] Hint Extern 1 (transitional _) => in_list : go.

Lemma Advance_wf now s plan obs d e :
  snapshot_wf s -> Advance now s plan obs = (d, e) -> snapshot_wf (decision_Snapshot d).
Proof.
  intros Hs H. advance_cases H; simpl; auto with go.
  all: apply settle_wf; match goal with H1 : snap_State _ = Target _, H2 : Target _ = _ |- _ =>
    rewrite H1, H2 end; in_list.
Qed.

(** Every decision is built by [decision] or, on an invariant violation, by
    [invariantDecision]. *)
Lemma Advance_shape now s plan obs d e :
  Advance now s plan obs = (d, e) ->
  exists snap acts, d = decision snap acts obs (RequirePrefill plan)
                    \/ d = invariantDecision snap acts obs (RequirePrefill plan).
Proof. intros H. advance_cases H; eauto. Qed.

Lemma decision_route snap acts obs rp d :
  d = decision snap acts obs rp \/ d = invariantDecision snap acts obs rp ->
  AcceptNewRequests (decision_Policy d) = AllowRoute (decision_Policy d)
  /\ (AllowRoute (decision_Policy d) = true ->
        snap_State (decision_Snapshot d) = StateReady /\ RuntimeReady obs = true
        /\ (rp = true -> PrefillReady obs = true)).
Proof. intros [-> | ->]; (split; [done|]); simpl; [apply policy_route|done]. Qed.

(** [AttachRoute] is only ever requested together with a settled [ready]. *)
Lemma Advance_attach now s plan obs d e :
  Advance now s plan obs = (d, e) -> ActionAttachRoute ∈ Actions d ->
  AllowRoute (decision_Policy d) = true /\ e = None.
Proof.
  intros H Hin.
  assert (forall l, ActionAttachRoute ∈ failClosedActions obs ++ l -> ActionAttachRoute ∈ l) as Hfc.
  { intros l. rewrite elem_of_app. intros [Hc|]; [|done]. by apply attach_not_fail_closed in Hc. }
  advance_cases H; simpl in *; auto using policy_serving.
  all: try apply Hfc in Hin; try by apply attach_not_fail_closed in Hin.
  all: rewrite ?elem_of_cons, ?elem_of_nil in Hin; naive_solver.
Qed.

(** Failures, timeouts and invariant violations fail closed. *)
Lemma Advance_fail_closed now s plan obs d e :
  Advance now s plan obs = (d, e) ->
  e ∈ [Some ErrInvariantViolated; Some ErrTransitionFailed; Some ErrTransitionTimeout] ->
  AllowRoute (decision_Policy d) = false
  /\ (RouteAttached obs = true \/ AcceptingRequests obs = true -> ActionDetachRoute ∈ Actions d).
Proof.
  rewrite !elem_of_cons, elem_of_nil. intros H [-> |[-> |[-> |[]]]];
  advance_cases H; try discriminate; simpl;
    (split; [reflexivity|intros; rewrite ?elem_of_app; auto with go]).
Qed.

(** ** Properties *)

(** C3. Route safety of every decision, error or not: requests are accepted
    exactly when the route is allowed; the route is allowed only in [ready]
    with a ready runtime and, for prefill/decode plans, ready prefill
    workers; the route is attached only when it is allowed; and a decision
    that reports a failure, a timeout or an invariant violation allows no
    route and asks to detach one that is attached or accepting. *)
Theorem advance_route_safety now s plan obs d e
    (Hrun : Advance now s plan obs = (d, e)) :
  let p := decision_Policy d in
  AcceptNewRequests p = AllowRoute p
  /\ (AllowRoute p = true ->
        snap_State (decision_Snapshot d) = StateReady /\ RuntimeReady obs = true
        /\ (RequirePrefill plan = true -> PrefillReady obs = true))
  /\ (ActionAttachRoute ∈ Actions d -> AllowRoute p = true /\ e = None)
  /\ (e ∈ [Some ErrInvariantViolated; Some ErrTransitionFailed; Some ErrTransitionTimeout] ->
        AllowRoute p = false
        /\ (RouteAttached obs = true \/ AcceptingRequests obs = true ->
              ActionDetachRoute ∈ Actions d)).
Proof.
  destruct (Advance_shape _ _ _ _ _ _ Hrun) as (snap & acts & Hd).
  destruct (decision_route _ _ _ _ _ Hd) as [Ha Hp].
  split_and!; eauto using Advance_attach, Advance_fail_closed.
Qed.

Definition served : Observation := mkObservation true true true true true true 3 "".
Definition serve_plan : Plan := mkPlan StateReady true Minute.

Lemma advance_route_safety_witness :
  let d := fst (Advance 10 (mkSnapshot StateWarming StateCached 1 Minute) serve_plan
                  (mkObservation true true true true false false 0 "")) in
  AllowRoute (decision_Policy d) = true /\ ActionAttachRoute ∈ Actions d
  /\ snap_State (decision_Snapshot d) = StateReady.
Proof.
  intros d. split_and!; [vm_compute; reflexivity|by_computation|].
  apply (advance_route_safety 10 (mkSnapshot StateWarming StateCached 1 Minute) serve_plan
           (mkObservation true true true true false false 0 "") d None);
    vm_compute; reflexivity.
Defined.

(** A decision that stops the runtime or evicts the artifact is only taken
    without requests in flight. *)
Definition disruptive (a : Action) : Prop := a ∈ [ActionStopRuntime; ActionEvictArtifact].

Lemma validateObservation_requests s obs rp :
  validateObservation s obs rp = None ->
  0 <= ActiveRequests obs
  /\ (s <> StateReady -> s <> StateDraining -> ActiveRequests obs = 0).
Proof.
  unfold validateObservation. intros H. go_heads; split; try lia; intros; done.
Qed.

(** C4. No orphaned requests: whatever the plan, the snapshot and the
    observation, a decision that asks to stop the runtime or to evict the
    artifact is made only when the observation reports no active request. *)
Theorem advance_no_orphan_requests now s plan obs d e a
    (Hrun : Advance now s plan obs = (d, e))
    (Hact : a ∈ Actions d) (Hdis : disruptive a) :
  ActiveRequests obs <= 0.
Proof.
  destruct (decide (ActiveRequests obs <= 0)) as [|Hpos]; [done|exfalso].
  unfold disruptive in Hdis. rewrite !elem_of_cons, elem_of_nil in Hdis.
  assert (validateObservation (snap_State s) obs (RequirePrefill plan) = None ->
          snap_State s = StateReady \/ snap_State s = StateDraining) as Hst.
  { intros Hv. destruct (validateObservation_requests _ _ _ Hv) as [_ Hz].
    destruct (decide (snap_State s = StateReady)) as [|H1]; [by left|].
    destruct (decide (snap_State s = StateDraining)) as [|H2]; [by right|].
    specialize (Hz H1 H2). lia. }
  assert (~ (a ∈ failClosedActions obs)) as Hfc.
  { intros Hin. destruct Hdis as [-> |[-> |[]]]; unfold failClosedActions in Hin;
      destruct (_ || _); revert Hin; clear; by_computation. }
  advance_cases Hrun; simpl in Hact; try lia;
    rewrite ?elem_of_app, ?elem_of_cons, ?elem_of_nil in Hact;
    destruct_or? Hact; destruct_or? Hdis; subst; try done.
  all: destruct (Hst eq_refl) as [Hs|Hs]; rewrite Hs in *; try done.
  all: destruct (RouteAttached obs); revert Hact; clear; by_computation.
Qed.

Lemma advance_no_orphan_requests_witness :
  let o := mkObservation true true true false false false 0 "" in
  let r := Advance 10 (mkSnapshot StateDraining StateReady 1 Minute)
             (mkPlan StateCold false Minute) o in
  ActionStopRuntime ∈ Actions (fst r) /\ ActiveRequests o <= 0.
Proof.
  intros o r. split; [by_computation|].
  apply (advance_no_orphan_requests 10 (mkSnapshot StateDraining StateReady 1 Minute)
           (mkPlan StateCold false Minute) o (fst r) (snd r) ActionStopRuntime);
    [reflexivity|by_computation|by_computation].
Defined.

(** A model that is cold never reaches [cached]: with target [cached],
    no failure reported and an observation that satisfies the invariants,
    [Advance] stays in [cold] and asks to cache the artifact again, even when
    the observation says it is already cached. *)
Theorem cold_to_cached_never_settles now s plan obs
    (Hcold : snap_State s = StateCold)
    (Htarget : Target plan = StateCached)
    (Hfail : Failure obs = "")
    (Hvalid : validateObservation StateCold obs (RequirePrefill plan) = None) :
  Advance now s plan obs
  = (decision s [ActionCacheArtifact] obs (RequirePrefill plan), None).
Proof.
  unfold Advance, validatePlan, Project, advanceToLowerState.
  rewrite Hcold, Htarget, Hfail. simpl. by rewrite Hvalid.
Qed.

Lemma cold_to_cached_never_settles_witness :
  Advance 10 (settle (mkSnapshot "" "" 0 0) StateCold) (mkPlan StateCached false 0)
    (mkObservation true false false false false false 0 "")
  = (decision (settle (mkSnapshot "" "" 0 0) StateCold) [ActionCacheArtifact]
       (mkObservation true false false false false false 0 "") false, None).
Proof. apply cold_to_cached_never_settles; reflexivity. Defined.

(** ** Convergence

    What the owners of the cache, the runtime, the sessions and the route
    promise: each performs the actions addressed to it and nothing else
    changes.  No failure is reported. *)
Class Owners := {
  execute : list Action -> Observation -> Observation;
  execute_artifact acts o : ArtifactCached (execute acts o) =
    if bool_decide (ActionEvictArtifact ∈ acts) then false
    else bool_decide (ActionCacheArtifact ∈ acts) || ArtifactCached o;
  execute_loaded acts o : RuntimeLoaded (execute acts o) =
    if bool_decide (ActionStopRuntime ∈ acts) then false
    else bool_decide (ActionLoadRuntime ∈ acts) || RuntimeLoaded o;
  execute_ready acts o : RuntimeReady (execute acts o) =
    if bool_decide (ActionStopRuntime ∈ acts) then false
    else (bool_decide (ActionWarmRuntime ∈ acts) && RuntimeLoaded o) || RuntimeReady o;
  execute_prefill acts o : PrefillReady (execute acts o) =
    if bool_decide (ActionStopRuntime ∈ acts) then false
    else (bool_decide (ActionWarmRuntime ∈ acts) && RuntimeLoaded o) || PrefillReady o;
  execute_route acts o : RouteAttached (execute acts o) =
    if bool_decide (ActionDetachRoute ∈ acts) then false
    else bool_decide (ActionAttachRoute ∈ acts) || RouteAttached o;
  execute_accepting acts o : AcceptingRequests (execute acts o) =
    if bool_decide (ActionDetachRoute ∈ acts) then false
    else bool_decide (ActionAttachRoute ∈ acts) || AcceptingRequests o;
  execute_requests acts o : ActiveRequests (execute acts o) =
    if bool_decide (ActionWaitForDrain ∈ acts) then 0 else ActiveRequests o;
  execute_failure acts o : Failure (execute acts o) = Failure o
}.

(** Reconciliation: one [Advance] per clock reading, each followed by the
    owners; errors are reported and the returned cursor is kept. *)
Fixpoint reconcile `{Owners} (nows : list Time) (plan : Plan) (s : Snapshot) (o : Observation)
    : Snapshot * Observation :=
  match nows with
  | [] => (s, o)
  | now :: rest =>
      let d := fst (Advance now s plan o) in
      reconcile rest plan (decision_Snapshot d) (execute (Actions d) o)
  end.

(** *** Abstract specification

    A reconciliation step that neither failed nor timed out, as a table over
    the seven phases.  [Busy] abstracts the number of active requests. *)
Inductive phase := Cold | Cached | Loading | Warming | PReady | Draining | Evicting.

#[export] Instance phase_eq_dec : EqDecision phase.
Proof. solve_decision. Defined.

Definition name (p : phase) : State :=
  match p with
  | Cold => StateCold | Cached => StateCached | Loading => StateLoading | Warming => StateWarming
  | PReady => StateReady | Draining => StateDraining | Evicting => StateEvicting
  end.

Record view := mkView {
  vArtifact : bool; vLoaded : bool; vReady : bool; vPrefill : bool;
  vRoute : bool; vAccepting : bool; vBusy : bool
}.

#[export] Instance view_eq_dec : EqDecision view.
Proof. solve_decision. Defined.

Definition view_of (o : Observation) : view :=
  mkView (ArtifactCached o) (RuntimeLoaded o) (RuntimeReady o) (PrefillReady o)
    (RouteAttached o) (AcceptingRequests o) (0 <? ActiveRequests o).

Definition may_accept (p : phase) : bool := match p with PReady => true | _ => false end.
Definition may_be_busy (p : phase) : bool :=
  match p with PReady | Draining => true | _ => false end.

(** The observation invariants of [validateObservation]. *)
Definition consistent (p : phase) (rp : bool) (v : view) : bool :=
  implb (vAccepting v) (vRoute v && may_accept p)
  && implb (vRoute v) (vReady v && implb rp (vPrefill v))
  && implb (vBusy v) (may_be_busy p).

Definition detach (v : view) : list Action :=
  if vRoute v || vAccepting v then [ActionDetachRoute] else [].

Definition to_ready (rp : bool) (p : phase) (v : view) : phase * list Action :=
  let serving := vReady v && implb rp (vPrefill v) in
  match p with
  | Cold => if vArtifact v then (Cached, []) else (Cold, [ActionCacheArtifact])
  | Cached => if vArtifact v then (Loading, [ActionLoadRuntime]) else (Cold, [ActionCacheArtifact])
  | Loading => if vLoaded v then (Warming, [ActionWarmRuntime]) else (Loading, [ActionLoadRuntime])
  | PReady => if serving then (PReady, if vRoute v then [] else [ActionAttachRoute])
              else (Warming, [ActionWarmRuntime])
  | Warming | Draining | Evicting =>
      if serving then (PReady, [ActionAttachRoute]) else (Warming, [ActionWarmRuntime])
  end.

Definition to_lower (keep_artifact : bool) (p : phase) (v : view) : phase * list Action :=
  match p with
  | PReady => (Draining, [ActionDetachRoute])
  | Loading | Warming => (Evicting, detach v ++ [ActionStopRuntime])
  | Draining => if vRoute v then (Draining, [ActionDetachRoute])
                else if vBusy v then (Draining, [ActionWaitForDrain])
                else (Evicting, [ActionStopRuntime])
  | Evicting => if vLoaded v then (Evicting, [ActionStopRuntime])
                else if vArtifact v
                then if keep_artifact then (Cached, []) else (Evicting, [ActionEvictArtifact])
                else (Cold, [])
  | Cached => if keep_artifact then (Cached, []) else (Evicting, [ActionEvictArtifact])
  | Cold => if keep_artifact then (Cold, [ActionCacheArtifact]) else (Cold, [])
  end.

Inductive goal := GReady | GCached | GCold.

Definition goal_phase (g : goal) : phase :=
  match g with GReady => PReady | GCached => Cached | GCold => Cold end.

Definition spec_step (g : goal) (rp : bool) (p : phase) (v : view) : phase * list Action :=
  if consistent p rp v then
    match g with
    | GReady => to_ready rp p v
    | GCached => to_lower true p v
    | GCold => to_lower false p v
    end
  else (p, detach v).

Definition not_expired (now : Time) (s : Snapshot) : Prop :=
  Deadline s = zeroTime \/ now < Deadline s.

Lemma expired_false now s :
  not_expired now s ->
  isTransitional (snap_State s) && negb (IsZero (Deadline s)) && negb (Before now (Deadline s))
  = false.
Proof.
  unfold IsZero, Before. intros [-> | H]; [by rewrite andb_false_r|].
  rewrite (bool_decide_true (now < Deadline s)) by done. apply andb_false_r.
Qed.

Lemma consistent_spec p o rp :
  0 <= ActiveRequests o ->
  validateObservation (name p) o rp
  = if consistent p rp (view_of o) then None else Some ErrInvariantViolated.
Proof.
  intros Hn. unfold validateObservation, consistent, view_of. simpl.
  rewrite bool_decide_false by lia. generalize (bool_decide (0 < ActiveRequests o)).
  intros busy. destruct o as [a b c d e f n fl]; simpl. clear.
  destruct p, rp, c, d, e, f, busy; reflexivity.
Qed.

(** *** Refinement: [Advance] implements the table. *)
Lemma Advance_refines g now s plan p o :
  snap_State s = name p -> Target plan = name (goal_phase g) ->
  not_expired now s -> Failure o = "" -> 0 <= ActiveRequests o ->
  let d := fst (Advance now s plan o) in
  let '(p', acts) := spec_step g (RequirePrefill plan) p (view_of o) in
  snap_State (decision_Snapshot d) = name p' /\ Actions d = acts.
Proof.
  intros Hs Ht Hexp Hf Hn. unfold Advance. rewrite expired_false by done.
  unfold Project. rewrite Hs, consistent_spec by done. unfold spec_step.
  rewrite Hf. destruct (consistent p (RequirePrefill plan) (view_of o)) eqn:Hc.
  - unfold validatePlan, advanceToReady, advanceToLowerState, recoverReady, resumeReady,
      advanceDrain, advanceEviction, serving_ready, failClosedActions, detach.
    rewrite Hs, Ht. clear Hc.
    destruct plan as [t rp to]; destruct o as [a b c d e f n fl].
    destruct p, g; simpl; repeat go_goal; try done; rewrite ?Hs; done.
  - unfold validatePlan. rewrite Hs, Ht. destruct p, g; done.
Qed.

(** The documented effect of the actions, as a function. *)
Definition perform (acts : list Action) (o : Observation) : Observation :=
  mkObservation
    (if bool_decide (ActionEvictArtifact ∈ acts) then false
     else bool_decide (ActionCacheArtifact ∈ acts) || ArtifactCached o)
    (if bool_decide (ActionStopRuntime ∈ acts) then false
     else bool_decide (ActionLoadRuntime ∈ acts) || RuntimeLoaded o)
    (if bool_decide (ActionStopRuntime ∈ acts) then false
     else (bool_decide (ActionWarmRuntime ∈ acts) && RuntimeLoaded o) || RuntimeReady o)
    (if bool_decide (ActionStopRuntime ∈ acts) then false
     else (bool_decide (ActionWarmRuntime ∈ acts) && RuntimeLoaded o) || PrefillReady o)
    (if bool_decide (ActionDetachRoute ∈ acts) then false
     else bool_decide (ActionAttachRoute ∈ acts) || RouteAttached o)
    (if bool_decide (ActionDetachRoute ∈ acts) then false
     else bool_decide (ActionAttachRoute ∈ acts) || AcceptingRequests o)
    (if bool_decide (ActionWaitForDrain ∈ acts) then 0 else ActiveRequests o)
    (Failure o).

#[export] Instance perform_owners : Owners.
Proof. refine {| execute := perform |}; reflexivity. Defined.

Lemma execute_perform `{Owners} acts o : execute acts o = perform acts o.
Proof.
  unfold perform.
  rewrite <- execute_artifact, <- execute_loaded, <- execute_ready, <- execute_prefill,
    <- execute_route, <- execute_accepting, <- execute_requests, <- (execute_failure acts).
  by destruct (execute acts o).
Qed.


Definition vperform (acts : list Action) (v : view) : view :=
  mkView
    (if bool_decide (ActionEvictArtifact ∈ acts) then false
     else bool_decide (ActionCacheArtifact ∈ acts) || vArtifact v)
    (if bool_decide (ActionStopRuntime ∈ acts) then false
     else bool_decide (ActionLoadRuntime ∈ acts) || vLoaded v)
    (if bool_decide (ActionStopRuntime ∈ acts) then false
     else (bool_decide (ActionWarmRuntime ∈ acts) && vLoaded v) || vReady v)
    (if bool_decide (ActionStopRuntime ∈ acts) then false
     else (bool_decide (ActionWarmRuntime ∈ acts) && vLoaded v) || vPrefill v)
    (if bool_decide (ActionDetachRoute ∈ acts) then false
     else bool_decide (ActionAttachRoute ∈ acts) || vRoute v)
    (if bool_decide (ActionDetachRoute ∈ acts) then false
     else bool_decide (ActionAttachRoute ∈ acts) || vAccepting v)
    (if bool_decide (ActionWaitForDrain ∈ acts) then false else vBusy v).

Lemma view_of_perform acts o : view_of (perform acts o) = vperform acts (view_of o).
Proof.
  unfold view_of, perform, vperform. simpl. f_equal.
  by destruct (bool_decide (ActionWaitForDrain ∈ acts)).
Qed.

Fixpoint spec_loop (n : nat) (g : goal) (rp : bool) (p : phase) (v : view) : phase * view :=
  match n with
  | O => (p, v)
  | S n => let '(p', acts) := spec_step g rp p v in spec_loop n g rp p' (vperform acts v)
  end.

(** Arrived for good: in the goal phase and, for [ready], able to serve. *)
Definition arrived (g : goal) (rp : bool) (p : phase) (v : view) : bool :=
  match g, p with
  | GReady, PReady => vReady v && implb rp (vPrefill v)
  | GCached, Cached => true
  | GCold, Cold => true
  | _, _ => false
  end.

(** Where reconciliation can start: requests in flight only on a [ready] or
    [draining] model, which for target [ready] is able to serve; for target [cached] a cached
    artifact and a model that is not cold; and for target [ready], past
    loading, a loaded runtime or one that is ready, because only [loading]
    asks for the runtime to be loaded. *)
Definition can_start (g : goal) (rp : bool) (p : phase) (v : view) : bool :=
  implb (vBusy v) (may_be_busy p && match g with GReady => vReady v && implb rp (vPrefill v) | _ => true end)
  && match g, p with
     | GCached, Cached => true
     | GCached, Cold => false
     | GCached, _ => vArtifact v
     | GReady, (Warming | PReady | Draining | Evicting) => vLoaded v || (vReady v && implb rp (vPrefill v))
     | _, _ => true
     end.

Lemma arrived_stays g rp p v :
  arrived g rp p v = true ->
  let '(p', acts) := spec_step g rp p v in arrived g rp p' (vperform acts v) = true.
Proof.
  destruct v as [a b [] [] [] [] n], g, p, rp; vm_compute; try done; by destruct a, b, n.
Qed.

(** Six steps suffice: checked on every phase, goal and view. *)
Definition views : list view :=
  let B := [false; true] in
  a ← B; b ← B; c ← B; d ← B; e ← B; f ← B; n ← B; [mkView a b c d e f n].

Lemma views_complete v : v ∈ views.
Proof. destruct v as [[] [] [] [] [] [] []]; by_computation. Qed.

Definition six_steps (g : goal) (rp : bool) (p : phase) (v : view) : bool :=
  implb (can_start g rp p v) (let '(p', v') := spec_loop 6 g rp p v in arrived g rp p' v').

Lemma spec_loop_arrives g rp p v : six_steps g rp p v = true.
Proof.
  assert (forallb (six_steps g rp p) views = true) as H.
  { destruct g, rp, p; vm_compute; reflexivity. }
  rewrite forallb_forall in H. apply H, list_elem_of_In, views_complete.
Qed.

(** *** The concrete loop follows the abstract one *)

(** The effective timeout of a plan. *)
Definition effective_timeout (plan : Plan) : Duration :=
  if Timeout plan <=? 0 then defaultTransitionTimeout else Timeout plan.

(** No deadline falls before [t0 + timeout]. *)
Definition deadline_after (t : Time) (s : Snapshot) : Prop :=
  Deadline s = zeroTime \/ t <= Deadline s.

Lemma Advance_deadline now s plan o d e :
  Advance now s plan o = (d, e) ->
  Deadline (decision_Snapshot d) ∈ [Deadline s; zeroTime; TimeAdd now (effective_timeout plan)].
Proof.
  intros H. rewrite !elem_of_cons. advance_cases H; simpl; auto.
Qed.

Lemma Advance_deadline_after t0 now s plan o :
  t0 <= now -> deadline_after (t0 + effective_timeout plan) s ->
  deadline_after (t0 + effective_timeout plan) (decision_Snapshot (fst (Advance now s plan o))).
Proof.
  intros Hnow Hs. destruct (Advance now s plan o) as [d e] eqn:H.
  apply Advance_deadline in H. unfold deadline_after, TimeAdd in *. simpl.
  rewrite !elem_of_cons, elem_of_nil in H. destruct H as [-> |[-> |[-> |[]]]]; [done|by left|lia].
Qed.

Lemma reconcile_refines `{Owners} g plan t0 nows s p o :
  Target plan = name (goal_phase g) ->
  Forall (fun now => t0 <= now < t0 + effective_timeout plan) nows ->
  snap_State s = name p -> deadline_after (t0 + effective_timeout plan) s ->
  Failure o = "" -> 0 <= ActiveRequests o ->
  let '(p', v') := spec_loop (length nows) g (RequirePrefill plan) p (view_of o) in
  snap_State (fst (reconcile nows plan s o)) = name p'
  /\ view_of (snd (reconcile nows plan s o)) = v'.
Proof.
  intros Ht Hnows. revert s p o.
  induction Hnows as [|now nows Hnow Hnows IH]; intros s p o Hs Hd Hf Ha; simpl; [done|].
  pose proof (Advance_refines g now s plan p o Hs Ht) as HR.
  destruct (spec_step g (RequirePrefill plan) p (view_of o)) as [p' acts].
  destruct HR as [Hp' Hacts]; [unfold deadline_after, not_expired in *; lia|done|done|].
  rewrite execute_perform, Hacts, <- view_of_perform. apply IH; [done| |done|].
  - apply Advance_deadline_after; [lia|done].
  - simpl. case_bool_decide; lia.
Qed.

Lemma spec_loop_add n m g rp p v :
  spec_loop (n + m) g rp p v = let '(p', v') := spec_loop n g rp p v in spec_loop m g rp p' v'.
Proof.
  revert p v. induction n as [|n IH]; intros p v; simpl; [done|].
  destruct (spec_step g rp p v) as [p' acts]. apply IH.
Qed.

Lemma spec_loop_stays n g rp p v :
  arrived g rp p v = true ->
  let '(p', v') := spec_loop n g rp p v in arrived g rp p' v' = true.
Proof.
  revert p v. induction n as [|n IH]; intros p v Hp; simpl; [done|].
  pose proof (arrived_stays g rp p v Hp) as Hs.
  destruct (spec_step g rp p v) as [p' acts]. by apply IH.
Qed.

Lemma spec_loop_six n g rp p v :
  can_start g rp p v = true -> (6 <= n)%nat ->
  let '(p', v') := spec_loop n g rp p v in arrived g rp p' v' = true.
Proof.
  intros Hc Hn. replace n with (6 + (n - 6))%nat by lia. rewrite spec_loop_add.
  pose proof (spec_loop_arrives g rp p v) as H6. unfold six_steps in H6. rewrite Hc in H6.
  cbv beta iota delta [implb] in H6. destruct (spec_loop 6 g rp p v) as [p' v'].
  by apply spec_loop_stays.
Qed.

Lemma arrived_phase g rp p v : arrived g rp p v = true -> p = goal_phase g.
Proof. by destruct g, p. Qed.

(** C2. Reconciliation converges.  The owners carry out the requested actions,
    a runtime warms up only when it is loaded, no failure is reported, and the
    clock readings lie within one timeout of the start.  Then six or more
    rounds of [Advance] leave the model in the target state, and able to serve
    if that is [ready], from every start that [can_start] admits: requests are
    in flight only on a [ready] or [draining] model (able to serve, for target
    [ready]); for target [cached] the model is not cold and its artifact is
    cached; for target [ready] a model past loading has a runtime that is
    loaded or ready.  [cold_to_cached_never_settles] and
    [lost_runtime_never_recovers] show the last two restrictions necessary.
    The bound is the length of the longest way: from a cold model with a stray
    route (detach it, cache, settle, load, warm, attach). *)
Theorem reconciliation_converges `{Owners} g plan t0 nows s p o
    (Htarget : Target plan = name (goal_phase g))
    (Hstate : snap_State s = name p)
    (Hfailure : Failure o = "")
    (Hrequests : 0 <= ActiveRequests o)
    (Hstart : can_start g (RequirePrefill plan) p (view_of o) = true)
    (Hdeadline : deadline_after (t0 + effective_timeout plan) s)
    (Hclock : Forall (fun now => t0 <= now < t0 + effective_timeout plan) nows)
    (Hrounds : (6 <= length nows)%nat) :
  let '(s', o') := reconcile nows plan s o in
  snap_State s' = Target plan
  /\ (Target plan = StateReady -> serving_ready plan o' = true).
Proof.
  pose proof (reconcile_refines g plan t0 nows s p o Htarget Hclock Hstate Hdeadline
                Hfailure Hrequests) as HR.
  pose proof (spec_loop_six (length nows) g (RequirePrefill plan) p (view_of o) Hstart Hrounds) as HS.
  destruct (spec_loop (length nows) g (RequirePrefill plan) p (view_of o)) as [p' v'].
  destruct (reconcile nows plan s o) as [s' o']. destruct HR as [Hs' <-].
  simpl in *. rewrite Hs', Htarget.
  pose proof (arrived_phase _ _ _ _ HS) as ->. split; [done|].
  destruct g; [|done|done]. intros _. unfold serving_ready. revert HS. simpl.
  by destruct (RequirePrefill plan).
Qed.

(** A [ready] model whose runtime is gone is warmed up for ever: no action ever
    asks for the runtime to be loaded, and as [recoverReady] sets no deadline
    the transition does not time out. *)
Lemma lost_runtime_stays `{Owners} plan nows s o :
  Target plan = StateReady -> snap_State s = StateWarming -> Deadline s = zeroTime -> Failure o = "" ->
  view_of o = mkView (ArtifactCached o) false false false false false false -> ActiveRequests o = 0 ->
  snap_State (fst (reconcile nows plan s o)) = StateWarming.
Proof.
  intros Ht. revert s o. induction nows as [|now nows IH]; intros s o Hs Hd Hf Hv Ha; [done|]. cbn [reconcile].
  injection Hv as Hl Hr Hp Hro Hacc _.
  assert (Advance now s plan o = (decision s [ActionWarmRuntime] o (RequirePrefill plan), None)) as ->.
  { unfold Advance, validatePlan, Project, advanceToReady, validateObservation, serving_ready. rewrite Hs, Ht, Hf, Hd, Hl, Hr, Hro, Hacc, Ha. reflexivity. }
  cbn. rewrite execute_perform. apply IH; [done|done|done| |done]. rewrite view_of_perform. unfold view_of, vperform. cbn. by rewrite Hl, Hr, Hp, Hro, Hacc, Ha.
Qed.

Lemma lost_runtime_never_recovers `{Owners} plan now nows s o :
  Target plan = StateReady -> snap_State s = StateReady -> Failure o = "" ->
  view_of o = mkView (ArtifactCached o) false false false false false false -> ActiveRequests o = 0 ->
  Deadline s = zeroTime -> snap_State (fst (reconcile (now :: nows) plan s o)) = StateWarming.
Proof.
  intros Ht Hs Hf Hv Ha Hd. cbn [reconcile]. injection Hv as Hl Hr Hp Hro Hacc _.
  assert (Advance now s plan o = (decision (move s StateWarming) [ActionWarmRuntime] o (RequirePrefill plan), None)) as ->.
  { unfold Advance, validatePlan, Project, advanceToReady, recoverReady, validateObservation, serving_ready. rewrite Hs, Ht, Hf, Hd, Hl, Hr, Hro, Hacc, Ha. reflexivity. }
  cbn. rewrite execute_perform. apply lost_runtime_stays; [done|done|done|done| |done].
  rewrite view_of_perform. unfold view_of, vperform. cbn. by rewrite Hl, Hr, Hp, Hro, Hacc, Ha.
Qed.

Definition evict_plan : Plan := mkPlan StateCold true Minute.
Definition serving_snapshot : Snapshot := settle (mkSnapshot "" "" 0 0) StateReady.

Lemma reconciliation_converges_witness :
  let '(s', o') := reconcile (replicate 6 100) evict_plan serving_snapshot served in
  snap_State s' = Target evict_plan
  /\ (Target evict_plan = StateReady -> serving_ready evict_plan o' = true).
Proof.
  apply (reconciliation_converges GCold evict_plan 100 (replicate 6 100) serving_snapshot
           PReady served).
  - reflexivity.
  - reflexivity.
  - reflexivity.
  - vm_compute. discriminate.
  - reflexivity.
  - by left.
  - by_computation.
  - simpl. lia.
Defined.
