(* ===== verification/Actor.v ===== *)
(** * Actors, inference sessions and co-actor groups
    ([internal/kernel/actor/coactor.go])

    Every method runs under the receiver's mutex, so a method is one atomic
    step.  Fields that only this package assigns (lifecycle, concurrency,
    phases, affinity) are inductive types with the source's constants; values
    callers supply (residency, cache state, reentrancy, pattern, role,
    mechanism) are Go string types, open to any string.

    A group holds pointers to actors, and its operations receive pointers to
    sessions and fences that callers share.  [World] is the store of these
    objects; a method that dereferences a pointer absent from the store (nil)
    panics, which is [None] in the result.  Go leaves the order of a map
    iteration open: [findMemberByRole] takes the order of its [range] loop as
    an argument. *)

From S2P Require Import Prelude.

(** ** Data *)

Inductive Err :=
| ErrInvalidTransition | ErrCapacityExceeded | ErrReentrancyProhibited | ErrActorNotActive
| ErrActorNotResident | ErrSessionExpired | ErrSessionTerminal | ErrMaxTurnsReached
| ErrStaleFence | ErrFenceExpired | ErrDigestMismatch | ErrMemberNotFound | ErrInvalidPattern.

Inductive ActorLifecycle := ActorInactive | ActorActivating | ActorActive | ActorDeactivating.
Inductive ConcurrencyState := ConcurrencyIdle | ConcurrencyProcessing | ConcurrencyAtCapacity.
Inductive IdleStatus := IdleStatusActive | IdleStatusTimedOut.
Inductive SessionPhase :=
| SessionPhaseActive | SessionPhaseIdle | SessionPhaseDraining | SessionPhaseEvicted
| SessionPhaseCompleted.
Inductive SessionAffinityState := AffinityUnbound | AffinityBound | AffinityRebinding.
Inductive SessionExpiryStatus := SessionLive | SessionExpired.
Inductive CoactorGroupPhase :=
| GroupPhaseForming | GroupPhaseReady | GroupPhaseDegraded | GroupPhaseDissolved.
Inductive TransferPhase :=
| TransferUninitialized | TransferPrefilling | TransferFenced | TransferTransmitting
| TransferVerifying | TransferCompleted | TransferFailed | TransferAborted.

#[export] Instance Err_eq_dec : EqDecision Err.
Proof. solve_decision. Defined.
#[export] Instance ActorLifecycle_eq_dec : EqDecision ActorLifecycle.
Proof. solve_decision. Defined.
#[export] Instance ConcurrencyState_eq_dec : EqDecision ConcurrencyState.
Proof. solve_decision. Defined.
#[export] Instance SessionPhase_eq_dec : EqDecision SessionPhase.
Proof. solve_decision. Defined.
#[export] Instance CoactorGroupPhase_eq_dec : EqDecision CoactorGroupPhase.
Proof. solve_decision. Defined.
#[export] Instance TransferPhase_eq_dec : EqDecision TransferPhase.
Proof. solve_decision. Defined.

Definition ActorResidency := string.
Definition ResidencyCold : ActorResidency := "Cold".
Definition ResidencyLoading : ActorResidency := "Loading".
Definition ResidencyResident : ActorResidency := "Resident".
Definition ResidencyEvicting : ActorResidency := "Evicting".

Definition ReentrancyMode := string.
Definition ReentrancyForbidden : ReentrancyMode := "Forbidden".
Definition ReentrancyAllowed : ReentrancyMode := "Allowed".

Definition ActorType := string.

Definition SessionCacheState := string.
Definition CacheEmpty : SessionCacheState := "Empty".
Definition CacheWarming : SessionCacheState := "Warming".
Definition CacheResident : SessionCacheState := "Resident".
Definition CacheFenced : SessionCacheState := "Fenced".
Definition CacheTransferred : SessionCacheState := "Transferred".
Definition CacheEvicted : SessionCacheState := "Evicted".

Definition CoactorPattern := string.
Definition PatternPrefillDecode : CoactorPattern := "prefill-decode".

Definition TransferMechanism := string.

Definition MemberRole := string.
Definition RolePrefill : MemberRole := "prefill".
Definition RoleDecode : MemberRole := "decode".

(** ** Actor *)

Record ActorStateVector := mkActorVector {
  Lifecycle : ActorLifecycle;
  Residency : ActorResidency;
  Concurrency : ConcurrencyState
}.

Record Actor := mkActor {
  actor_id : string;
  actorType : ActorType;
  vector : ActorStateVector;
  maxConcurrency : Z;     (* int32 *)
  activeSlots : Z;        (* int32 *)
  reentrancy : ReentrancyMode;
  idleTimeout : Duration;
  lastActivity : Time
}.

Definition with_vector (a : Actor) (v : ActorStateVector) (t : Time) : Actor :=
  mkActor (actor_id a) (actorType a) v (maxConcurrency a) (activeSlots a) (reentrancy a)
    (idleTimeout a) t.

Definition with_slots (a : Actor) (n : Z) (c : ConcurrencyState) (t : Time) : Actor :=
  mkActor (actor_id a) (actorType a)
    (mkActorVector (Lifecycle (vector a)) (Residency (vector a)) c)
    (maxConcurrency a) n (reentrancy a) (idleTimeout a) t.

Definition NewActor (id : string) (aType : ActorType) (maxConcurrency : Z)
    (reentrancy : ReentrancyMode) (idleTimeout : Duration) (now : Time) : Actor :=
  let maxConcurrency := if maxConcurrency <=? 0 then 1 else maxConcurrency in
  mkActor id aType (mkActorVector ActorInactive ResidencyCold ConcurrencyIdle)
    maxConcurrency 0 reentrancy idleTimeout now.

Definition Activate (a : Actor) (now : Time) : Actor * option Err :=
  if Lifecycle (vector a) ==? ActorActive then (a, None)
  else (with_vector a
          (mkActorVector ActorActive (Residency (vector a)) (Concurrency (vector a))) now, None).

Definition Deactivate (a : Actor) (now : Time) : Actor * option Err :=
  if activeSlots a >? 0 then (a, Some ErrInvalidTransition)
  else (with_vector a
          (mkActorVector ActorInactive (Residency (vector a)) ConcurrencyIdle) now, None).

Definition SetResidency (a : Actor) (residency : ActorResidency) : Actor * option Err :=
  (with_vector a (mkActorVector (Lifecycle (vector a)) residency (Concurrency (vector a)))
     (lastActivity a), None).

Definition AcquireSlot (a : Actor) (now : Time) : Actor * option Err :=
  if Lifecycle (vector a) !=? ActorActive then (a, Some ErrActorNotActive)
  else if Residency (vector a) !=? ResidencyResident then (a, Some ErrActorNotResident)
  else if (activeSlots a >? 0) && (reentrancy a ==? ReentrancyForbidden)
  then (a, Some ErrReentrancyProhibited)
  else if activeSlots a >=? maxConcurrency a then (a, Some ErrCapacityExceeded)
  else
    let n := i32_wrap (activeSlots a + 1) in
    (with_slots a n
       (if n >=? maxConcurrency a then ConcurrencyAtCapacity else ConcurrencyProcessing) now, None).

Definition ReleaseSlot (a : Actor) (now : Time) : Actor * option Err :=
  if activeSlots a <=? 0 then (a, Some ErrInvalidTransition)
  else
    let n := i32_wrap (activeSlots a - 1) in
    (with_slots a n (if n ==? 0 then ConcurrencyIdle else ConcurrencyProcessing) now, None).

Definition CheckIdle (a : Actor) (now : Time) : Actor * IdleStatus :=
  if activeSlots a >? 0 then (a, IdleStatusActive)
  else if (idleTimeout a >? 0) && (TimeSub now (lastActivity a) >=? idleTimeout a)
  then (with_vector a (mkActorVector ActorInactive (Residency (vector a)) ConcurrencyIdle)
          (lastActivity a), IdleStatusTimedOut)
  else (a, IdleStatusActive).

(** ** Inference session *)

Record SessionStateVector := mkSessionVector {
  Phase : SessionPhase;
  Cache : SessionCacheState;
  Affinity : SessionAffinityState
}.

Record InferenceSession := mkSession {
  session_id : string;
  modelRef : string;
  actorRef : string;
  groupRef : string;
  boundEndpoint : string;
  session_vector : SessionStateVector;
  ttl : Duration;
  maxTurns : Z;           (* int32 *)
  turnCount : Z;          (* int32 *)
  tokenCount : Z;         (* int64 *)
  kvCacheSize : Z;        (* int64 *)
  session_lastActivity : Time
}.

Definition NewInferenceSession (id modelRef actorRef groupRef : string) (ttl : Duration)
    (maxTurns : Z) (now : Time) : InferenceSession :=
  mkSession id modelRef actorRef groupRef ""
    (mkSessionVector SessionPhaseActive CacheEmpty AffinityUnbound) ttl maxTurns 0 0 0 now.

Definition terminal (p : SessionPhase) : bool :=
  (p ==? SessionPhaseEvicted) || (p ==? SessionPhaseCompleted).

Definition with_binding (s : InferenceSession) (endpoint : string) (v : SessionStateVector)
    : InferenceSession :=
  mkSession (session_id s) (modelRef s) (actorRef s) (groupRef s) endpoint v (ttl s) (maxTurns s)
    (turnCount s) (tokenCount s) (kvCacheSize s) (session_lastActivity s).

Definition BindEndpoint (s : InferenceSession) (endpoint : string) : InferenceSession * option Err :=
  if terminal (Phase (session_vector s)) then (s, Some ErrSessionTerminal)
  else (with_binding s endpoint
          (mkSessionVector (Phase (session_vector s)) (Cache (session_vector s)) AffinityBound), None).

Definition RecordTurn (s : InferenceSession) (tokens cacheBytes : Z) (now : Time)
    : InferenceSession * option Err :=
  if terminal (Phase (session_vector s)) then (s, Some ErrSessionTerminal)
  else
    let turns := i32_wrap (turnCount s + 1) in
    let s1 :=
      mkSession (session_id s) (modelRef s) (actorRef s) (groupRef s) (boundEndpoint s)
        (mkSessionVector (Phase (session_vector s)) CacheResident (Affinity (session_vector s)))
        (ttl s) (maxTurns s) turns (i64_wrap (tokenCount s + tokens)) cacheBytes now in
    if (maxTurns s >? 0) && (turns >=? maxTurns s) then
      (with_binding s1 ""
         (mkSessionVector SessionPhaseCompleted CacheEvicted AffinityUnbound),
       Some ErrMaxTurnsReached)
    else (s1, None).

Definition CheckExpiry (s : InferenceSession) (now : Time)
    : InferenceSession * SessionExpiryStatus :=
  if terminal (Phase (session_vector s)) then (s, SessionExpired)
  else if (ttl s >? 0) && (TimeSub now (session_lastActivity s) >=? ttl s) then
    (with_binding s "" (mkSessionVector SessionPhaseEvicted CacheEvicted AffinityUnbound),
     SessionExpired)
  else (s, SessionLive).

Definition SetCacheState (s : InferenceSession) (state : SessionCacheState) : InferenceSession :=
  with_binding s (boundEndpoint s)
    (mkSessionVector (Phase (session_vector s)) state (Affinity (session_vector s))).

(** ** Co-actor group *)

Definition loc := nat.

Record GroupStateVector := mkGroupVector {
  GPhase : CoactorGroupPhase;
  Pattern : CoactorPattern;
  Transfer : TransferPhase
}.

Record TransferFence := mkFence {
  Epoch : Z;              (* uint64 *)
  SessionID : string;
  PrefillActorID : string;
  DecodeActorID : string;
  PrefixTokens : Z;       (* int64 *)
  Digest : string;
  Mechanism : TransferMechanism;
  CreatedAt : Time;
  ExpiresAt : Time
}.

Record CoactorMember := mkMember {
  Name : string;
  Role : MemberRole;
  MActor : loc;
  DependsOn : list string
}.

Record CoActorGroup := mkGroup {
  group_id : string;
  pattern : CoactorPattern;
  members : gmap string CoactorMember;
  group_vector : GroupStateVector;
  currentEpoch : Z;       (* uint64 *)
  activeFence : option loc
}.

Record World := mkWorld {
  actors : gmap loc Actor;
  sessions : gmap loc InferenceSession;
  fences : gmap loc TransferFence
}.

Definition set_actor (w : World) (l : loc) (a : Actor) : World :=
  mkWorld (<[l := a]> (actors w)) (sessions w) (fences w).
Definition set_session (w : World) (l : loc) (s : InferenceSession) : World :=
  mkWorld (actors w) (<[l := s]> (sessions w)) (fences w).
Definition set_fence (w : World) (l : loc) (f : TransferFence) : World :=
  mkWorld (actors w) (sessions w) (<[l := f]> (fences w)).

Definition with_phase (g : CoActorGroup) (p : CoactorGroupPhase) : CoActorGroup :=
  mkGroup (group_id g) (pattern g) (members g)
    (mkGroupVector p (Pattern (group_vector g)) (Transfer (group_vector g)))
    (currentEpoch g) (activeFence g).

Definition with_transfer (g : CoActorGroup) (t : TransferPhase) : CoActorGroup :=
  mkGroup (group_id g) (pattern g) (members g)
    (mkGroupVector (GPhase (group_vector g)) (Pattern (group_vector g)) t)
    (currentEpoch g) (activeFence g).

Definition NewCoActorGroup (id : string) (pattern : CoactorPattern) : CoActorGroup :=
  mkGroup id pattern ∅ (mkGroupVector GroupPhaseForming pattern TransferUninitialized) 0 None.

Definition AddMember (g : CoActorGroup) (name : string) (role : MemberRole) (actor : loc)
    (dependsOn : list string) : CoActorGroup :=
  mkGroup (group_id g) (pattern g) (<[name := mkMember name role actor dependsOn]> (members g))
    (group_vector g) (currentEpoch g) (activeFence g).

Definition actor_ready (a : Actor) : bool :=
  (Lifecycle (vector a) ==? ActorActive) && (Residency (vector a) ==? ResidencyResident).

(** The counting loop over the members; [None] when a member's actor is nil. *)
Fixpoint readyCount (w : World) (ms : list CoactorMember) : option Z :=
  match ms with
  | [] => Some 0
  | m :: ms =>
      a ← actors w !! MActor m;
      n ← readyCount w ms;
      Some (if actor_ready a then n + 1 else n)
  end.

Definition member_list (g : CoActorGroup) : list CoactorMember := (map_to_list (members g)).*2.

Definition RefreshPhase (w : World) (g : CoActorGroup) : option (CoActorGroup * CoactorGroupPhase) :=
  if Z.of_nat (size (members g)) ==? 0
  then Some (with_phase g GroupPhaseDissolved, GroupPhaseDissolved)
  else
    n ← readyCount w (member_list g);
    let p := if n ==? Z.of_nat (size (members g)) then GroupPhaseReady
             else if n >? 0 then GroupPhaseDegraded
             else GroupPhaseForming in
    Some (with_phase g p, p).

(** [ord] lists the member names in the order the [range] loop visits them. *)
Fixpoint findMemberByRole (ord : list string) (ms : gmap string CoactorMember) (role : MemberRole)
    : option CoactorMember :=
  match ord with
  | [] => None
  | name :: ord =>
      match ms !! name with
      | Some m => if Role m ==? role then Some m else findMemberByRole ord ms role
      | None => findMemberByRole ord ms role
      end
  end.

(** Results of the group operations: the store, the group, and the error. *)
Notation outcome A := (option (World * CoActorGroup * (A + Err))%type).

Definition InitiatePrefill (ord : list string) (now : Time) (w : World) (g : CoActorGroup)
    (session : loc) : outcome unit :=
  if pattern g !=? PatternPrefillDecode then Some (w, g, inr ErrInvalidPattern)
  else if GPhase (group_vector g) !=? GroupPhaseReady then Some (w, g, inr ErrInvalidTransition)
  else match findMemberByRole ord (members g) RolePrefill with
       | None => Some (w, g, inr ErrMemberNotFound)
       | Some m =>
           a ← actors w !! MActor m;
           match AcquireSlot a now with
           | (a', Some e) => Some (set_actor w (MActor m) a', g, inr e)
           | (a', None) =>
               let w := set_actor w (MActor m) a' in
               s ← sessions w !! session;
               Some (set_session w session (SetCacheState s CacheWarming),
                     with_transfer g TransferPrefilling, inl tt)
           end
       end.

Definition CreateTransferFence (ord1 ord2 : list string) (w : World) (g : CoActorGroup)
    (session : loc) (tokens : Z) (digest : string) (ttl : Duration) (now : Time) : outcome loc :=
  if pattern g !=? PatternPrefillDecode then Some (w, g, inr ErrInvalidPattern)
  else match findMemberByRole ord1 (members g) RolePrefill with
       | None => Some (w, g, inr ErrMemberNotFound)
       | Some prefill =>
           match findMemberByRole ord2 (members g) RoleDecode with
           | None => Some (w, g, inr ErrMemberNotFound)
           | Some decode =>
               let epoch := u64_wrap (currentEpoch g + 1) in
               s ← sessions w !! session;
               pa ← actors w !! MActor prefill;
               da ← actors w !! MActor decode;
               let fence := mkFence epoch (session_id s) (actor_id pa) (actor_id da) tokens digest
                              "" now (TimeAdd now ttl) in
               let l := fresh (dom (fences w)) in
               let g' := mkGroup (group_id g) (pattern g) (members g)
                           (mkGroupVector (GPhase (group_vector g)) (Pattern (group_vector g))
                              TransferFenced) epoch (Some l) in
               Some (set_session (set_fence w l fence) session (SetCacheState s CacheFenced),
                     g', inl l)
           end
       end.

(** The guard [fence == nil || fence.Epoch != g.currentEpoch]: [inl] with the
    fence when it passes. *)
Definition current_fence (w : World) (g : CoActorGroup) (fence : option loc)
    : option ((loc * TransferFence) + Err) :=
  match fence with
  | None => Some (inr ErrStaleFence)
  | Some l =>
      f ← fences w !! l;
      Some (if Epoch f !=? currentEpoch g then inr ErrStaleFence else inl (l, f))
  end.

Definition BeginTransfer (w : World) (g : CoActorGroup) (fence : option loc)
    (method : TransferMechanism) : outcome unit :=
  c ← current_fence w g fence;
  match c with
  | inr e => Some (w, g, inr e)
  | inl (l, f) =>
      if Transfer (group_vector g) !=? TransferFenced then Some (w, g, inr ErrInvalidTransition)
      else
        Some (set_fence w l (mkFence (Epoch f) (SessionID f) (PrefillActorID f) (DecodeActorID f)
                (PrefixTokens f) (Digest f) method (CreatedAt f) (ExpiresAt f)),
              with_transfer g TransferTransmitting, inl tt)
  end.

Definition VerifyAndCompleteHandoff (ord1 ord2 : list string) (w : World) (g : CoActorGroup)
    (fence : option loc) (receivedDigest decodeEndpoint : string) (now : Time) (session : loc)
    : outcome unit :=
  c ← current_fence w g fence;
  match c with
  | inr e => Some (w, g, inr e)
  | inl (_, f) =>
      if After now (ExpiresAt f)
      then Some (w, with_transfer g TransferFailed, inr ErrFenceExpired)
      else if Digest f !=? receivedDigest then
        s ← sessions w !! session;
        Some (set_session w session (SetCacheState s CacheEmpty),
              with_transfer g TransferFailed, inr ErrDigestMismatch)
      else match findMemberByRole ord1 (members g) RoleDecode with
           | None => Some (w, g, inr ErrMemberNotFound)
           | Some dm =>
               da ← actors w !! MActor dm;
               match AcquireSlot da now with
               | (da', Some e) =>
                   Some (set_actor w (MActor dm) da', with_transfer g TransferFailed, inr e)
               | (da', None) =>
                   let w := set_actor w (MActor dm) da' in
                   w ← match findMemberByRole ord2 (members g) RolePrefill with
                       | None => Some w
                       | Some pm =>
                           pa ← actors w !! MActor pm;
                           Some (set_actor w (MActor pm) (fst (ReleaseSlot pa now)))
                       end;
                   let g := with_transfer g TransferCompleted in
                   s ← sessions w !! session;
                   let s := SetCacheState s CacheTransferred in
                   match BindEndpoint s decodeEndpoint with
                   | (s', Some e) => Some (set_session w session s', g, inr e)
                   | (s', None) => Some (set_session w session s', g, inl tt)
                   end
               end
           end
  end.

Definition AbortTransfer (w : World) (g : CoActorGroup) (fence : option loc) (reason : string)
    : outcome unit :=
  c ← current_fence w g fence;
  match c with
  | inr e => Some (w, g, inr e)
  | inl _ => Some (w, with_phase (with_transfer g TransferAborted) GroupPhaseDegraded, inl tt)
  end.

(** ** Reachable actors *)

(** One method call on an actor, whatever its arguments and its result. *)
Inductive actor_step (a : Actor) : Actor -> Prop :=
| step_activate now : actor_step a (fst (Activate a now))
| step_deactivate now : actor_step a (fst (Deactivate a now))
| step_residency r : actor_step a (fst (SetResidency a r))
| step_acquire now : actor_step a (fst (AcquireSlot a now))
| step_release now : actor_step a (fst (ReleaseSlot a now))
| step_idle now : actor_step a (fst (CheckIdle a now)).

(** What the concurrency axis says of the slots. *)
Definition concurrency_of (a : Actor) : ConcurrencyState :=
  if activeSlots a ==? 0 then ConcurrencyIdle
  else if activeSlots a >=? maxConcurrency a then ConcurrencyAtCapacity
  else ConcurrencyProcessing.

Record actor_inv (a : Actor) : Prop := {
  inv_max : 1 <= maxConcurrency a < 2 ^ 31;
  inv_slots : 0 <= activeSlots a <= maxConcurrency a;
  inv_reentrancy : reentrancy a = ReentrancyForbidden -> activeSlots a <= 1;
  inv_active : 0 < activeSlots a -> Lifecycle (vector a) = ActorActive;
  inv_concurrency : Concurrency (vector a) = concurrency_of a
}.

Lemma NewActor_inv id t m r i now : i32_range m -> actor_inv (NewActor id t m r i now).
Proof. unfold i32_range. intros Hm. constructor; simpl; try case_bool_decide; try lia; done. Qed.

Lemma AcquireSlot_ok a now a' :
  actor_inv a -> AcquireSlot a now = (a', None) ->
  Lifecycle (vector a) = ActorActive /\ Residency (vector a) = ResidencyResident
  /\ activeSlots a < maxConcurrency a
  /\ (reentrancy a = ReentrancyForbidden -> activeSlots a = 0)
  /\ a' = with_slots a (activeSlots a + 1)
            (if activeSlots a + 1 >=? maxConcurrency a
             then ConcurrencyAtCapacity else ConcurrencyProcessing) now.
Proof.
  unfold AcquireSlot. intros [Hm Hs _ _ _] H.
  assert (activeSlots a < maxConcurrency a -> i32_wrap (activeSlots a + 1) = activeSlots a + 1) as W.
  { intros. apply i32_wrap_small. unfold i32_range. lia. }
  go_heads; rewrite W by lia; split_and!; try done; try lia; intros; by destruct n1.
Qed.

Lemma AcquireSlot_err a now a' e : AcquireSlot a now = (a', Some e) -> a' = a.
Proof. unfold AcquireSlot. intros H. by go_heads. Qed.

Lemma ReleaseSlot_eq a now :
  actor_inv a ->
  ReleaseSlot a now =
    if activeSlots a <=? 0 then (a, Some ErrInvalidTransition)
    else (with_slots a (activeSlots a - 1)
            (if activeSlots a - 1 ==? 0 then ConcurrencyIdle else ConcurrencyProcessing) now, None).
Proof.
  intros [Hm Hs _ _ _]. unfold ReleaseSlot. case_bool_decide; [done|].
  rewrite i32_wrap_small; [done|]. unfold i32_range. lia.
Qed.

(** The idle vector of an actor without slots. *)
Lemma idle_inv a l t :
  actor_inv a -> ~ 0 < activeSlots a ->
  actor_inv (with_vector a (mkActorVector l (Residency (vector a)) ConcurrencyIdle) t).
Proof.
  intros [Hm Hs Hre _ _] Hz. constructor; simpl; [done|done|done|lia|].
  unfold concurrency_of; simpl. rewrite bool_decide_true; [done|lia].
Qed.

Lemma actor_step_inv a b : actor_inv a -> actor_step a b -> actor_inv b.
Proof.
  intros Ha Hstep. destruct Hstep.
  - unfold Activate. case_bool_decide; [done|]. by destruct Ha; constructor.
  - unfold Deactivate. case_bool_decide; [done|]. by apply idle_inv.
  - by destruct Ha; constructor.
  - destruct (AcquireSlot a now) as [a' [e|]] eqn:H; [by apply AcquireSlot_err in H as ->|].
    apply AcquireSlot_ok in H as (Hl & _ & Hlt & Hr & ->); [|done].
    destruct Ha as [Hm Hs _ _ _]; constructor; simpl; [done|lia| |done|].
    + intros Hf. specialize (Hr Hf). lia.
    + unfold concurrency_of; simpl. by rewrite (bool_decide_false (activeSlots a + 1 = 0)) by lia.
  - rewrite ReleaseSlot_eq by done. case_bool_decide; [done|].
    destruct Ha as [Hm Hs Hre Hac _]; constructor; simpl; [done|lia| | |].
    + intros Hf. specialize (Hre Hf). lia.
    + intros. apply Hac. lia.
    + unfold concurrency_of; simpl. case_bool_decide; [done|].
      by rewrite bool_decide_false by lia.
  - unfold CheckIdle. go_cases; try done. by apply idle_inv.
Qed.

(** C6. Slot discipline: in every actor reachable from [NewActor] by any
    sequence of method calls the active slots stay between 0 and the (at
    least 1) concurrency limit, a non-reentrant actor never holds two, an
    actor that holds a slot is active, and the concurrency axis is exactly
    the one the slots determine. *)
Theorem actor_slot_discipline id t m r i now a
    (Hmax : i32_range m)
    (Hreach : rtc actor_step (NewActor id t m r i now) a) :
  actor_inv a.
Proof.
  remember (NewActor id t m r i now) as a0 eqn:E.
  assert (actor_inv a0) as Ha by (subst; by apply NewActor_inv). clear E.
  induction Hreach; eauto using actor_step_inv.
Qed.

Definition ready_actor (id : string) (m : Z) (r : ReentrancyMode) : Actor :=
  fst (SetResidency (fst (Activate (NewActor id "model" m r 0 1) 2)) ResidencyResident).

Lemma actor_slot_discipline_witness : actor_inv (ready_actor "a" 2 ReentrancyAllowed).
Proof.
  apply (actor_slot_discipline "a" "model" 2 ReentrancyAllowed 0 1); [done|].
  eapply rtc_l; [apply step_activate|]. eapply rtc_l; [apply step_residency|]. apply rtc_refl.
Defined.

(** ** Reachable sessions *)

Inductive session_step (s : InferenceSession) : InferenceSession -> Prop :=
| step_bind e : session_step s (fst (BindEndpoint s e))
| step_turn tokens bytes now : session_step s (fst (RecordTurn s tokens bytes now))
| step_expiry now : session_step s (fst (CheckExpiry s now))
| step_cache c : session_step s (SetCacheState s c).

Definition is_terminal (s : InferenceSession) : Prop := terminal (Phase (session_vector s)) = true.

Record session_inv (s : InferenceSession) : Prop := {
  sinv_unbound : is_terminal s -> boundEndpoint s = "" /\ Affinity (session_vector s) = AffinityUnbound;
  sinv_max : maxTurns s < 2 ^ 31;
  sinv_turns : 0 < maxTurns s -> 0 <= turnCount s <= maxTurns s;
  sinv_completed : 0 < maxTurns s -> turnCount s = maxTurns s ->
                   Phase (session_vector s) = SessionPhaseCompleted
}.

Lemma session_step_inv s s' : session_inv s -> session_step s s' -> session_inv s'.
Proof.
  intros [Hu Hm Ht Hc] Hstep. destruct Hstep.
  - unfold BindEndpoint. destruct (terminal (Phase (session_vector s))) eqn:E; [by constructor|].
    constructor; simpl; try done. unfold is_terminal; simpl. congruence.
  - unfold RecordTurn. destruct (terminal (Phase (session_vector s))) eqn:E; [by constructor|].
    assert (0 < maxTurns s -> 0 <= turnCount s < maxTurns s) as Hlt.
    { intros Hp. specialize (Ht Hp).
      destruct (decide (turnCount s = maxTurns s)) as [Heq|]; [|lia].
      exfalso. rewrite (Hc Hp Heq) in E. done. }
    destruct (bool_decide_reflect (0 < maxTurns s)) as [Hp|Hp]; simpl.
    + specialize (Hlt Hp). rewrite i32_wrap_small by (unfold i32_range; lia).
      destruct (bool_decide_reflect (maxTurns s <= turnCount s + 1)).
      * constructor; simpl; [done|done|lia|done].
      * constructor; simpl; [unfold is_terminal; simpl; congruence|done|lia|lia].
    + constructor; simpl; [unfold is_terminal; simpl; congruence|done|done|done].
  - unfold CheckExpiry. destruct (terminal (Phase (session_vector s))) eqn:E; [by constructor|].
    case_bool_decide; simpl; [|by constructor]. case_bool_decide; simpl; [|by constructor].
    constructor; simpl; try done. intros Hp Heq. rewrite (Hc Hp Heq) in E. done.
  - by constructor.
Qed.

(** A terminal session is frozen: no method revives it, binds it or counts
    another turn; only its cache label can still be set. *)
Lemma session_step_terminal s s' :
  is_terminal s -> session_step s s' ->
  s' = with_binding s (boundEndpoint s)
         (mkSessionVector (Phase (session_vector s)) (Cache (session_vector s'))
            (Affinity (session_vector s))).
Proof.
  intros Ht Hstep.
  assert (forall v, s = v -> s = with_binding s (boundEndpoint s)
            (mkSessionVector (Phase (session_vector s)) (Cache (session_vector v))
               (Affinity (session_vector s)))) as Hid.
  { intros v <-. by destruct s as [? ? ? ? ? [] ? ? ? ? ? ?]. }
  unfold is_terminal in Ht. destruct Hstep.
  - unfold BindEndpoint. rewrite Ht. by apply Hid.
  - unfold RecordTurn. rewrite Ht. by apply Hid.
  - unfold CheckExpiry. rewrite Ht. by apply Hid.
  - done.
Qed.

(** Session lifecycle: in every session reachable from
    [NewInferenceSession], a terminal session is unbound, and with a turn
    limit the turn count never exceeds the limit and reaching it completes
    the session; once terminal, a session keeps its phase, its empty binding
    and its counters through every further call. *)
Theorem session_lifecycle id m ar gr ttl0 turns now s s'
    (Hturns : turns < 2 ^ 31)
    (Hreach : rtc session_step (NewInferenceSession id m ar gr ttl0 turns now) s)
    (Hlater : rtc session_step s s') :
  session_inv s
  /\ (is_terminal s ->
        Phase (session_vector s') = Phase (session_vector s)
        /\ boundEndpoint s' = "" /\ turnCount s' = turnCount s /\ tokenCount s' = tokenCount s).
Proof.
  assert (session_inv s) as Hs.
  { remember (NewInferenceSession id m ar gr ttl0 turns now) as s0 eqn:E.
    assert (session_inv s0) as H0 by (subst; constructor; simpl; try done; lia). clear E Hlater.
    induction Hreach; eauto using session_step_inv. }
  split; [done|]. intros Ht.
  assert (boundEndpoint s = "") as He by apply Hs, Ht. clear Hreach Hs.
  revert Ht He. induction Hlater as [s|s s1 s' Hstep _ IH]; intros Ht He; [done|].
  pose proof (session_step_terminal _ _ Ht Hstep) as E.
  rewrite E in IH. by apply IH.
Qed.

Definition three_turns : InferenceSession :=
  fst (RecordTurn (fst (RecordTurn (NewInferenceSession "s" "m" "" "" 0 2 1) 5 64 2)) 7 64 3).

Lemma session_lifecycle_witness :
  session_inv three_turns
  /\ (is_terminal three_turns ->
        Phase (session_vector three_turns) = Phase (session_vector three_turns)
        /\ boundEndpoint three_turns = "" /\ turnCount three_turns = turnCount three_turns
        /\ tokenCount three_turns = tokenCount three_turns).
Proof.
  apply (session_lifecycle "s" "m" "" "" 0 2 1); [done| |apply rtc_refl].
  eapply rtc_l; [apply step_turn|]. eapply rtc_l; [apply step_turn|]. apply rtc_refl.
Defined.

(** ** Transfer fences *)

(** The group with the shared objects, and the fences it has created, the last
    one first. *)
#[local] Notation config := (World * CoActorGroup * list loc)%type.

(** What others may do between two calls: anything, including fences of other
    groups and fences a caller fills in, but nobody overwrites the epoch of a
    fence this group has created. *)
Definition env_keeps (w w' : World) (created : list loc) : Prop :=
  forall l f, l ∈ created -> fences w !! l = Some f -> exists f', fences w' !! l = Some f' /\ Epoch f' = Epoch f.

Definition created_by {E} (r : loc + E) (created : list loc) : list loc :=
  match r with inl l => l :: created | inr _ => created end.

(** One call on the group, on any fence, or a step of the environment.  A fence
    is created below the last value of the [uint64] epoch. *)
Inductive group_step : config -> config -> Prop :=
| gs_env w w' g cs : env_keeps w w' cs -> group_step (w, g, cs) (w', g, cs)
| gs_add w g cs n r l d : group_step (w, g, cs) (w, AddMember g n r l d, cs)
| gs_refresh w g g' cs p : RefreshPhase w g = Some (g', p) -> group_step (w, g, cs) (w, g', cs)
| gs_prefill w g w' g' cs ord now s r :
    InitiatePrefill ord now w g s = Some (w', g', r) -> group_step (w, g, cs) (w', g', cs)
| gs_fence w g w' g' cs o1 o2 s n d t now r :
    currentEpoch g < 2 ^ 64 - 1 ->
    CreateTransferFence o1 o2 w g s n d t now = Some (w', g', r) -> group_step (w, g, cs) (w', g', created_by r cs)
| gs_begin w g w' g' cs f m r : BeginTransfer w g f m = Some (w', g', r) -> group_step (w, g, cs) (w', g', cs)
| gs_verify w g w' g' cs o1 o2 f d e now s r :
    VerifyAndCompleteHandoff o1 o2 w g f d e now s = Some (w', g', r) -> group_step (w, g, cs) (w', g', cs)
| gs_abort w g w' g' cs f m r : AbortTransfer w g f m = Some (w', g', r) -> group_step (w, g, cs) (w', g', cs).

Definition fence_inv (c : config) : Prop :=
  let '(w, g, cs) := c in
  u64_range (currentEpoch g) /\ activeFence g = head cs
  /\ forall l, l ∈ cs -> exists f, fences w !! l = Some f
       /\ Epoch f <= currentEpoch g /\ (Epoch f = currentEpoch g <-> head cs = Some l).

(** Steps that keep the epochs of the created fences, the group epoch and the
    active fence keep the invariant. *)
Lemma fence_inv_frame w g w' g' cs :
  fence_inv (w, g, cs) ->
  currentEpoch g' = currentEpoch g -> activeFence g' = activeFence g -> env_keeps w w' cs ->
  fence_inv (w', g', cs).
Proof.
  intros (Hr & Ha & Hf) He Hact Hk. unfold fence_inv. rewrite He, Hact. split_and!; [done|done|].
  intros l Hl. destruct (Hf l Hl) as (f & Hlf & Hle). destruct (Hk l f Hl Hlf) as (f' & Hlf' & He'). exists f'. by rewrite He'.
Qed.

Ltac bind_heads :=
  repeat match goal with
  | H : (_ ≫= _) = Some _ |- _ => apply bind_Some in H as (? & ? & H)
  | H : context [match findMemberByRole ?o ?m ?r with _ => _ end] |- _ =>
      let E := fresh "E" in destruct (findMemberByRole o m r) eqn:E
  | _ => progress go_heads
  end.

Lemma current_fence_inl w g fence l f :
  current_fence w g fence = Some (inl (l, f)) ->
  fence = Some l /\ fences w !! l = Some f /\ Epoch f = currentEpoch g.
Proof.
  unfold current_fence. destruct fence as [l'|]; [|done]. intros H.
  apply bind_Some in H as (f' & Hf & H). case_bool_decide; simplify_eq/=. done.
Qed.

Lemma current_fence_inr w g fence e : current_fence w g fence = Some (inr e) -> e = ErrStaleFence.
Proof.
  unfold current_fence. destruct fence as [l|]; [|by intros [= <-]]. intros H.
  apply bind_Some in H as (f & _ & H). by case_bool_decide; simplify_eq/=.
Qed.

Lemma CreateTransferFence_inv o1 o2 w g cs s n d t now w' g' r :
  currentEpoch g < 2 ^ 64 - 1 -> fence_inv (w, g, cs) ->
  CreateTransferFence o1 o2 w g s n d t now = Some (w', g', r) -> fence_inv (w', g', created_by r cs).
Proof.
  intros Hlt (Hr & Ha & Hf) H. unfold CreateTransferFence in H. bind_heads; try done.
  unfold u64_range in *. rewrite u64_wrap_small in * by (unfold u64_range; lia).
  split_and!; simpl; [unfold u64_range; lia..|done|]. intros l. rewrite elem_of_cons. intros [->|Hl].
  - rewrite lookup_insert_eq. eexists. split; [done|]. simpl. split; [lia|done].
  - destruct (Hf l Hl) as (f & Hlf & Hle & _). rewrite lookup_insert_ne.
    + exists f. split; [done|]. split; [lia|]. split; [lia|]. intros [= <-].
      exfalso. apply (is_fresh (dom (fences w))), elem_of_dom. by exists f.
    + intros <-. apply (is_fresh (dom (fences w))), elem_of_dom. by exists f.
Qed.

Definition same_fences (w : World) (g : CoActorGroup) (w' : World) (g' : CoActorGroup) : Prop :=
  fences w' = fences w /\ currentEpoch g' = currentEpoch g /\ activeFence g' = activeFence g.

Lemma fence_inv_same w g w' g' cs : same_fences w g w' g' -> fence_inv (w, g, cs) -> fence_inv (w', g', cs).
Proof.
  intros (Hf & He & Ha) Hi. apply (fence_inv_frame w g); [done..|]. unfold env_keeps. rewrite Hf. eauto.
Qed.

Lemma RefreshPhase_same w g g' p : RefreshPhase w g = Some (g', p) -> same_fences w g w g'.
Proof. unfold RefreshPhase, same_fences. intros H. bind_heads; done. Qed.

Lemma InitiatePrefill_same ord now w g s w' g' r :
  InitiatePrefill ord now w g s = Some (w', g', r) -> same_fences w g w' g'.
Proof. unfold InitiatePrefill, same_fences. intros H. bind_heads; done. Qed.

Lemma VerifyAndCompleteHandoff_same o1 o2 w g f d e now s w' g' r :
  VerifyAndCompleteHandoff o1 o2 w g f d e now s = Some (w', g', r) -> same_fences w g w' g'.
Proof. unfold VerifyAndCompleteHandoff, same_fences. intros H. bind_heads; done. Qed.

Lemma AbortTransfer_same w g f m w' g' r :
  AbortTransfer w g f m = Some (w', g', r) -> same_fences w g w' g'.
Proof. unfold AbortTransfer, same_fences. intros H. bind_heads; done. Qed.

#[export] Hint Resolve RefreshPhase_same InitiatePrefill_same VerifyAndCompleteHandoff_same
  AbortTransfer_same CreateTransferFence_inv : go.

Lemma BeginTransfer_inv w g f m w' g' r cs :
  fence_inv (w, g, cs) -> BeginTransfer w g f m = Some (w', g', r) -> fence_inv (w', g', cs).
Proof.
  intros Hi H. unfold BeginTransfer in H. apply bind_Some in H as (c & Hc & H).
  destruct c as [[l0 f0]|e]; [|by simplify_eq].
  apply current_fence_inl in Hc as (-> & Hl0 & _).
  case_bool_decide; simpl in H; [|by simplify_eq].
  injection H as <- <- <-.
  apply (fence_inv_frame w g); [done..|]. intros l f1 _ Hl. simpl.
  destruct (decide (l0 = l)) as [->|Hne]; [rewrite lookup_insert_eq|rewrite lookup_insert_ne by done; by eauto].
  eexists. split; [done|]. simpl. congruence.
Qed.

Lemma group_step_fence_inv c c' : fence_inv c -> group_step c c' -> fence_inv c'.
Proof.
  intros Hi Hstep. destruct Hstep;
    eauto using BeginTransfer_inv, fence_inv_same, fence_inv_frame with go.
Qed.

(** The fence is refused as stale by every operation, and nothing changes. *)
Definition refused (w : World) (g : CoActorGroup) (fence : option loc) : Prop :=
  (forall m, BeginTransfer w g fence m = Some (w, g, inr ErrStaleFence))
  /\ (forall o1 o2 d e now s,
        VerifyAndCompleteHandoff o1 o2 w g fence d e now s = Some (w, g, inr ErrStaleFence))
  /\ (forall m, AbortTransfer w g fence m = Some (w, g, inr ErrStaleFence)).

Lemma other_epoch_refused w g l f : fences w !! l = Some f -> Epoch f <> currentEpoch g -> refused w g (Some l).
Proof.
  intros Hl Hne. assert (current_fence w g (Some l) = Some (inr ErrStaleFence)) as Hc.
  { simpl. rewrite Hl. simpl. by rewrite bool_decide_false by done. }
  unfold refused, BeginTransfer, VerifyAndCompleteHandoff, AbortTransfer. by rewrite Hc.
Qed.

(** C5. Of the fences a group has created only the last is usable.  Let any
    calls on the group and any outside events happen, provided nobody
    overwrites the epoch of a fence the group created.  Then no fence, a fence
    whose epoch is not that of the group, and in particular every fence the
    group created except the last, are refused as stale by [BeginTransfer],
    [VerifyAndCompleteHandoff] and [AbortTransfer], and nothing changes; the
    fence created last is current and can be aborted.  The epoch is all that is
    compared: [foreign_fence_accepted] shows a fence of another group with the
    same epoch being accepted. *)
Theorem stale_fences_rejected id p w0 w g created
    (Hreach : rtc group_step (w0, NewCoActorGroup id p, []) (w, g, created)) :
  refused w g None
  /\ (forall l f, fences w !! l = Some f -> Epoch f <> currentEpoch g -> refused w g (Some l))
  /\ (forall l, l ∈ created -> head created <> Some l -> refused w g (Some l))
  /\ (forall l, head created = Some l -> (exists f, fences w !! l = Some f /\ Epoch f = currentEpoch g)
        /\ forall m, exists g', AbortTransfer w g (Some l) m = Some (w, g', inl tt)).
Proof.
  assert (fence_inv (w, g, created)) as (_ & _ & Hi).
  { assert (fence_inv (w0, NewCoActorGroup id p, [])) as H0 by (split_and!; [done..|]; by intros ? ?%not_elem_of_nil).
    revert H0. generalize (w0, NewCoActorGroup id p, @nil loc), (w, g, created), Hreach. clear.
    intros c0 c Hreach. induction Hreach; eauto using group_step_fence_inv. }
  split_and!; [done|apply other_epoch_refused| |].
  - intros l Hl Hh. destruct (Hi l Hl) as (f & Hf & _ & Hiff). eapply other_epoch_refused; [done|]. by intros ?%Hiff.
  - intros l Hh. destruct (Hi l) as (f & Hf & _ & Hiff); [destruct created; simplify_eq/=; left|]. apply Hiff in Hh as He.
    split; [by exists f|]. intros m. eexists. unfold AbortTransfer, current_fence. rewrite Hf. simpl. by rewrite bool_decide_true by done.
Qed.

(** A prefill/decode group with two resident actors and one session. *)
Definition pd_world : World :=
  mkWorld {[ 1%nat := ready_actor "p" 1 ReentrancyForbidden;
             2%nat := ready_actor "d" 1 ReentrancyForbidden ]}
          {[ 7%nat := NewInferenceSession "s" "m" "" "" 0 0 1 ]} ∅.

Definition pd_group : CoActorGroup :=
  AddMember (AddMember (NewCoActorGroup "g" PatternPrefillDecode) "p" RolePrefill 1%nat [])
    "d" RoleDecode 2%nat [].

Definition pd_order : list string := ["d"; "p"].

Definition fence_call (c : World * CoActorGroup) : World * CoActorGroup :=
  match CreateTransferFence pd_order pd_order c.1 c.2 7%nat 10 "digest" 100 5 with
  | Some (w, g, _) => (w, g)
  | None => c
  end.

Definition two_fences : World * CoActorGroup := fence_call (fence_call (pd_world, pd_group)).

Lemma stale_fences_rejected_witness :
  AbortTransfer two_fences.1 two_fences.2 (Some 0%nat) "old"
  = Some (two_fences.1, two_fences.2, inr ErrStaleFence).
Proof.
  destruct (stale_fences_rejected "g" PatternPrefillDecode pd_world two_fences.1 two_fences.2 [1%nat; 0%nat])
    as (_ & _ & H & _); [|apply H; [right; left|done]].
  apply (rtc_l _ _ _ _ (gs_add _ _ _ "p" RolePrefill 1%nat [])),
    (rtc_l _ _ _ _ (gs_add _ _ _ "d" RoleDecode 2%nat [])).
  apply (rtc_l _ _ (fence_call (pd_world, pd_group), [0%nat])).
  { apply (gs_fence _ _ _ _ _ pd_order pd_order 7%nat 10 "digest" 100 5 (inl 0%nat)); vm_compute; reflexivity. }
  apply (rtc_l _ _ (two_fences, [1%nat; 0%nat])); [|destruct two_fences; apply rtc_refl].
  apply (gs_fence _ _ _ _ _ pd_order pd_order 7%nat 10 "digest" 100 5 (inl 1%nat)); vm_compute; reflexivity.
Defined.

(** A fence that another group created, or that a caller filled in, passes when
    its epoch is right, and the handoff is then checked against its digest and
    its expiry. *)
Example foreign_fence_accepted :
  let c := fence_call (pd_world, pd_group) in
  let w := set_fence c.1 9%nat (mkFence 1 "other" "x" "y" 0 "forged" "" 0 1000) in
  exists w' g', VerifyAndCompleteHandoff pd_order pd_order w c.2 (Some 9%nat) "forged" "e" 6 7%nat = Some (w', g', inl tt).
Proof. cbn zeta. eexists _, _. vm_compute. reflexivity. Qed.

(** ** Handoff *)

(** One slot moved from the prefill actor to the decode actor, and no other
    actor touched. *)
Definition slot_moved (w w' : World) (prefill decode : loc) : Prop :=
  (forall a, actors w !! decode = Some a ->
     exists a', actors w' !! decode = Some a' /\ activeSlots a' = activeSlots a + 1)
  /\ (forall a, actors w !! prefill = Some a ->
     exists a', actors w' !! prefill = Some a' /\ activeSlots a' = Z.max 0 (activeSlots a - 1))
  /\ (forall l, l <> prefill -> l <> decode -> actors w' !! l = actors w !! l).

Lemma slots_move w pm dm da da' pa now :
  (forall l a, actors w !! l = Some a -> actor_inv a) -> pm <> dm ->
  actors w !! dm = Some da -> AcquireSlot da now = (da', None) ->
  actors (set_actor w dm da') !! pm = Some pa ->
  slot_moved w (set_actor (set_actor w dm da') pm (fst (ReleaseSlot pa now))) pm dm.
Proof.
  intros Hinv Hne Hd Hacq Hp. simpl in Hp. rewrite lookup_insert_ne in Hp by done.
  apply AcquireSlot_ok in Hacq as (_ & _ & _ & _ & ->); [|eauto].
  rewrite ReleaseSlot_eq by eauto. pose proof (inv_slots _ (Hinv _ _ Hp)).
  split_and!; simpl.
  - intros a Ha. rewrite lookup_insert_ne, lookup_insert_eq by done. eexists. split; [done|].
    simpl. congruence.
  - intros a Ha. rewrite lookup_insert_eq. eexists. split; [done|]. simplify_eq.
    case_bool_decide; simpl; lia.
  - intros l H1 H2. by rewrite !lookup_insert_ne by done.
Qed.

Definition session_unless_terminal (w : World) (session : loc) (endpoint : string)
    (failed : bool) : Prop :=
  exists s, sessions w !! session = Some s /\ Cache (session_vector s) = CacheTransferred
    /\ terminal (Phase (session_vector s)) = failed
    /\ (failed = false -> boundEndpoint s = endpoint /\ Affinity (session_vector s) = AffinityBound).

(** Handoff: a call that succeeds was made with the current fence, not
    after its deadline and with its digest; it moved one slot from the
    prefill actor to the decode actor and bound the session to the decode
    endpoint.  A call that fails leaves every actor as it was, except when
    the session is terminal: then the slot has moved although the call
    reports the error. *)
Theorem handoff_outcome o1 o2 w g fence d e now s w' g' r pm dm
    (Hcall : VerifyAndCompleteHandoff o1 o2 w g fence d e now s = Some (w', g', r))
    (Hd : findMemberByRole o1 (members g) RoleDecode = Some dm)
    (Hp : findMemberByRole o2 (members g) RolePrefill = Some pm)
    (Hne : MActor pm <> MActor dm)
    (Hinv : forall l a, actors w !! l = Some a -> actor_inv a) :
  match r with
  | inl _ =>
      (exists l f, fence = Some l /\ fences w !! l = Some f /\ Epoch f = currentEpoch g
                   /\ now <= ExpiresAt f /\ Digest f = d)
      /\ slot_moved w w' (MActor pm) (MActor dm)
      /\ session_unless_terminal w' s e false
      /\ Transfer (group_vector g') = TransferCompleted
  | inr ErrSessionTerminal =>
      slot_moved w w' (MActor pm) (MActor dm) /\ session_unless_terminal w' s e true
      /\ Transfer (group_vector g') = TransferCompleted
  | inr _ => actors w' = actors w
  end.
Proof.
  unfold VerifyAndCompleteHandoff in Hcall. rewrite Hd, Hp in Hcall.
  apply bind_Some in Hcall as ([[l f]|err] & Hc & H).
  2: { apply current_fence_inr in Hc as ->. by injection H as <- <- <-. }
  apply current_fence_inl in Hc as (-> & Hl & He).
  destruct (After now (ExpiresAt f)) eqn:Hexp; [by simplify_eq|].
  apply bool_decide_eq_false_1 in Hexp.
  destruct (bool_decide_reflect (Digest f = d)) as [Hdig|Hdig]; simpl in H; [|by bind_heads].
  apply bind_Some in H as (da & Hda & H).
  destruct (AcquireSlot da now) as [da' [err|]] eqn:Hacq.
  { simplify_eq. unfold AcquireSlot in Hacq.
    assert (actors (set_actor w (MActor dm) da) = actors w) as E by (by apply insert_id).
    go_heads; done. }
  apply bind_Some in H as (w1 & Hw1 & H). apply bind_Some in Hw1 as (pa & Hpa & [= <-]).
  apply bind_Some in H as (ss & Hss & H).
  pose proof (slots_move w (MActor pm) (MActor dm) da da' pa now Hinv Hne Hda Hacq Hpa) as Hmove.
  unfold BindEndpoint in H. destruct (terminal _) eqn:Ht; injection H as <- <- <-.
  - split; [exact Hmove|]. split; [|done]. eexists. split; [apply lookup_insert_eq|done].
  - split; [exists l, f; split_and!; try done; lia|]. split; [exact Hmove|].
    split; [|done]. eexists. split; [apply lookup_insert_eq|]. done.
Qed.

(** A run of the whole protocol on the group above: refresh, prefill, fence,
    handoff; [run] drops to the initial configuration on a refused call. *)
Definition run (c : World * CoActorGroup) : World * CoActorGroup :=
  match RefreshPhase c.1 c.2 with
  | Some (g, _) =>
      match InitiatePrefill pd_order 3 c.1 g 7%nat with
      | Some (w, g, inl _) => fence_call (w, g)
      | _ => c
      end
  | None => c
  end.

Definition fenced_run : World * CoActorGroup := run (pd_world, pd_group).
Definition handoff_run : outcome unit :=
  VerifyAndCompleteHandoff pd_order pd_order fenced_run.1 fenced_run.2 (Some 0%nat) "digest" "http://d"
    6 7%nat.
Definition handoff_world : World := from_option (fst ∘ fst) pd_world handoff_run.
Definition handoff_group : CoActorGroup := from_option (snd ∘ fst) pd_group handoff_run.

Lemma fenced_run_actors l a : actors fenced_run.1 !! l = Some a -> actor_inv a.
Proof.
  set (p := fst (AcquireSlot (ready_actor "p" 1 ReentrancyForbidden) 3)).
  set (d := ready_actor "d" 1 ReentrancyForbidden).
  assert (actors fenced_run.1 = <[1%nat := p]> (<[2%nat := d]> ∅)) as -> by (vm_compute; reflexivity).
  rewrite !lookup_insert_Some, lookup_empty.
  intros [[_ <-]|[_ [[_ <-]|[_ [=]]]]]; constructor; vm_compute; intuition congruence.
Qed.

Lemma handoff_outcome_witness :
  slot_moved fenced_run.1 handoff_world 1%nat 2%nat
  /\ session_unless_terminal handoff_world 7%nat "http://d" false.
Proof.
  pose proof (handoff_outcome pd_order pd_order fenced_run.1 fenced_run.2 (Some 0%nat) "digest"
    "http://d" 6 7%nat handoff_world handoff_group (inl tt)
    (mkMember "p" RolePrefill 1%nat []) (mkMember "d" RoleDecode 2%nat [])) as H.
  destruct H as (_ & Hmove & Hsession & _);
    [vm_compute; reflexivity|vm_compute; reflexivity|vm_compute; reflexivity|vm_compute; discriminate
    |exact fenced_run_actors|].
  split; [exact Hmove|exact Hsession].
Defined.

(** The handoff does not look at the transfer phase: from a group in any
    phase (not begun, completed, failed or aborted) the call has the same
    effect on the actors and the session and the same result. *)
Theorem handoff_ignores_transfer_phase o1 o2 w g fence d e now s t :
  (fun x => (fst (fst x), snd x)) <$>
    VerifyAndCompleteHandoff o1 o2 w (with_transfer g t) fence d e now s
  = (fun x => (fst (fst x), snd x)) <$> VerifyAndCompleteHandoff o1 o2 w g fence d e now s.
Proof.
  unfold VerifyAndCompleteHandoff.
  replace (current_fence w (with_transfer g t) fence) with (current_fence w g fence) by done.
  destruct (current_fence w g fence) as [[[l f]|err]|]; simpl; [|done..].
  destruct (After now (ExpiresAt f)); [done|].
  destruct (bool_decide (Digest f = d)); simpl; [|by destruct (sessions w !! s)].
  destruct (findMemberByRole o1 (members g) RoleDecode) as [dm|]; [|done].
  destruct (actors w !! MActor dm) as [da|]; simpl; [|done].
  destruct (AcquireSlot da now) as [da' [err|]]; [done|].
  destruct (match findMemberByRole o2 (members g) RolePrefill with
            | None => _ | Some _ => _ end) as [w1|]; simpl; [|done].
  destruct (sessions w1 !! s) as [ss|]; simpl; [|done].
  by destruct (BindEndpoint _ e) as [s' [err|]].
Qed.
