(* ===== verification/GoFloat.v ===== *)
(** * Go's [float64]

    IEEE 754 binary64 numbers are the [spec_float]s of the Standard Library
    at precision 53 and maximal exponent 1024: every operation rounds to
    nearest even, as Go's does on the platforms that do not fuse a
    multiplication with an addition.  A decimal literal is the correctly
    rounded quotient of two integers, and the [%.2f] verb prints the exact
    value rounded half to even. *)

From Stdlib Require Export SpecFloat.
From S2P Require Import Prelude.

Notation float64 := spec_float.

Definition f_prec : Z := 53.
Definition f_emax : Z := 1024.

Definition f_add : float64 -> float64 -> float64 := SFadd f_prec f_emax.
Definition f_sub : float64 -> float64 -> float64 := SFsub f_prec f_emax.
Definition f_mul : float64 -> float64 -> float64 := SFmul f_prec f_emax.
Definition f_div : float64 -> float64 -> float64 := SFdiv f_prec f_emax.

(** Comparisons: all false when an operand is NaN. *)
Definition f_lt (x y : float64) : bool := SFltb x y.
Definition f_le (x y : float64) : bool := SFleb x y.
Definition f_gt (x y : float64) : bool := SFltb y x.
Definition f_ge (x y : float64) : bool := SFleb y x.
Definition f_eq (x y : float64) : bool := SFeqb x y.

(** Conversion of an integer, and the literal [n/d]. *)
Definition f_of_Z (z : Z) : float64 := binary_normalize f_prec f_emax z 0 false.
Definition f_lit (n d : Z) : float64 := f_div (f_of_Z n) (f_of_Z d).

Definition f_zero : float64 := S754_zero false.
Definition f_one : float64 := f_of_Z 1.

#[export] Instance float64_eq_dec : EqDecision float64.
Proof. solve_decision. Defined.

Definition is_nan (x : float64) : bool := match x with S754_nan => true | _ => false end.

(** ** Printing *)

(** [n / d] rounded half to even. *)
Definition div_half_even (n d : Z) : Z :=
  let q := n / d in
  let r := n mod d in
  if 2 * r <? d then q
  else if 2 * r >? d then q + 1
  else if Z.even q then q else q + 1.

Definition two_digits (z : Z) : string :=
  String (byte_of (48 + z / 10)) (String (byte_of (48 + z mod 10)) "").

(** Enough digits for the integer part of any [float64]. *)
Definition float_digits (z : Z) : string := digits_fuel 310 z "".

Definition hundredths (m e : Z) : Z :=
  if e >=? 0 then m * 2 ^ e * 100 else div_half_even (m * 100) (2 ^ (- e)).

(** [fmt.Sprintf("%.2f", x)]. *)
Definition FormatF2 (x : float64) : string :=
  let body s h := (if (s : bool) then "-" else "") +:+ float_digits (h / 100) +:+ "."
                    +:+ two_digits (h mod 100) in
  match x with
  | S754_nan => "NaN"
  | S754_infinity s => if s then "-Inf" else "+Inf"
  | S754_zero s => body s 0
  | S754_finite s m e => body s (hundredths (Zpos m) e)
  end.

Example FormatF2_examples :
  FormatF2 (f_lit 1 5) = "0.20" /\ FormatF2 (f_lit 123456 1000) = "123.46"
  /\ FormatF2 (f_lit (-1) 8) = "-0.12" /\ FormatF2 S754_nan = "NaN".
Proof. vm_compute. done. Qed.

(** The sum of the literals 0.1 and 0.2 is not the literal 0.3. *)
Example float_rounding :
  f_add (f_lit 1 10) (f_lit 2 10) = S754_finite false 5404319552844596 (-54)
  /\ f_eq (f_add (f_lit 1 10) (f_lit 2 10)) (f_lit 3 10) = false.
Proof. vm_compute. done. Qed.

(** ** Order *)

Lemma f_lt_nan_l x : f_lt S754_nan x = false.
Proof. done. Qed.

Lemma f_lt_nan_r x : f_lt x S754_nan = false.
Proof. by destruct x as [| [] | | [] ]. Qed.

Lemma f_lt_irrefl x : f_lt x x = false.
Proof.
  destruct x as [|[]| |[] m e]; try done; unfold f_lt, SFltb; simpl;
    by rewrite Z.compare_refl, Pos.compare_cont_refl.
Qed.

(** A mantissa/exponent pair compares lexicographically on canonical
    representations; on them [SFcompare] is antisymmetric. *)
Lemma SFcompare_antisym x y :
  SFcompare y x = match SFcompare x y with Some c => Some (CompOpp c) | None => None end.
Proof.
  destruct x as [[]|[]| |[] m e], y as [[]|[]| |[] m' e']; try done; simpl;
    rewrite (Z.compare_antisym e e'); destruct (Z.compare e e'); simpl; try done;
    rewrite (Pos.compare_cont_antisym m m'); simpl; by destruct (Pos.compare_cont Eq m m').
Qed.

Lemma f_lt_asym x y : f_lt x y = true -> f_lt y x = false.
Proof.
  unfold f_lt, SFltb. rewrite (SFcompare_antisym x y). by destruct (SFcompare x y) as [[]|].
Qed.

(** Comparable (non-NaN) floats are totally ordered. *)
Lemma f_ge_not_lt x y : is_nan x = false -> is_nan y = false -> f_ge x y = negb (f_lt x y).
Proof.
  intros Hx Hy. unfold f_ge, f_lt, SFleb, SFltb. rewrite (SFcompare_antisym x y).
  assert (SFcompare x y <> None) as Hc.
  { destruct x as [|[]| |[]], y as [|[]| |[]]; simpl in *; try done; by destruct (Z.compare _ _). }
  by destruct (SFcompare x y) as [[]|].
Qed.

(** The order of the floats is that of a rank in lexicographic order: the
    class (negative infinity, negative, zero, positive, infinity), then the
    exponent, then the mantissa. *)
Definition f_rank (x : float64) : Z * Z * Z :=
  match x with
  | S754_zero _ | S754_nan => (0, 0, 0)
  | S754_infinity s => (if s then -2 else 2, 0, 0)
  | S754_finite s m e => if s then (-1, - e, Zneg m) else (1, e, Zpos m)
  end.

Definition lex_lt (x y : Z * Z * Z) : Prop :=
  let '(a, b, c) := x in
  let '(a', b', c') := y in
  a < a' \/ (a = a' /\ (b < b' \/ (b = b' /\ c < c'))).

#[export] Instance lex_lt_dec x y : Decision (lex_lt x y).
Proof. destruct x as [[a b] c], y as [[a' b'] c']; simpl; apply _. Defined.

Lemma lex_lt_asym x y : lex_lt x y -> ~ lex_lt y x.
Proof. destruct x as [[a b] c], y as [[a' b'] c']; simpl. lia. Qed.

Lemma lex_nlt_trans x y z : ~ lex_lt x y -> ~ lex_lt y z -> ~ lex_lt x z.
Proof. destruct x as [[a b] c], y as [[a' b'] c'], z as [[a2 b2] c2]; simpl. lia. Qed.

Lemma f_lt_rank x y :
  is_nan x = false -> is_nan y = false -> f_lt x y = bool_decide (lex_lt (f_rank x) (f_rank y)).
Proof.
  intros Hx Hy. unfold f_lt, SFltb.
  destruct x as [[]|[]| |[] m e], y as [[]|[]| |[] m' e']; try discriminate; simpl; try reflexivity;
    try (symmetry; first [apply bool_decide_eq_true | apply bool_decide_eq_false]; simpl; lia).
  - destruct (Z.compare_spec e e') as [->|H|H].
    + change (Pos.compare_cont Eq m m') with (Pos.compare m m').
      destruct (Pos.compare_spec m m') as [->|H|H]; simpl; symmetry;
        first [apply bool_decide_eq_true | apply bool_decide_eq_false]; lia.
    + symmetry. apply bool_decide_eq_false. lia.
    + symmetry. apply bool_decide_eq_true. lia.
  - destruct (Z.compare_spec e e') as [->|H|H].
    + change (Pos.compare_cont Eq m m') with (Pos.compare m m').
      destruct (Pos.compare_spec m m') as [->|H|H]; simpl; symmetry;
        first [apply bool_decide_eq_true | apply bool_decide_eq_false]; lia.
    + symmetry. apply bool_decide_eq_true. lia.
    + symmetry. apply bool_decide_eq_false. lia.
Qed.

(** ** [math.Min], [math.Max] and [Duration.Seconds] *)

Definition is_inf (x : float64) (neg : bool) : bool :=
  match x with S754_infinity s => Bool.eqb s neg | _ => false end.
Definition signbit (x : float64) : bool :=
  match x with S754_zero s | S754_infinity s | S754_finite s _ _ => s | S754_nan => false end.

Definition math_Min (x y : float64) : float64 :=
  if is_inf x true || is_inf y true then S754_infinity true
  else if is_nan x || is_nan y then S754_nan
  else if f_eq x f_zero && f_eq x y then (if signbit x then x else y)
  else if f_lt x y then x else y.

Definition math_Max (x y : float64) : float64 :=
  if is_inf x false || is_inf y false then S754_infinity false
  else if is_nan x || is_nan y then S754_nan
  else if f_eq x f_zero && f_eq x y then (if signbit x then y else x)
  else if f_gt x y then x else y.

(** [float64(d / Second) + float64(d % Second)/1e9], truncating division. *)
Definition Seconds (d : Duration) : float64 :=
  f_add (f_of_Z (Z.quot d Second)) (f_div (f_of_Z (Z.rem d Second)) (f_of_Z 1000000000)).
