(* ===== verification/GoFloatBounds.v ===== *)
(** * Error bounds for Go's [float64]

    The value of [int(float64(n)*c)] for a positive integer [n] below 2^53
    and a positive literal [c]: the conversion is exact, the product is
    rounded within one unit of its last place, and multiplication by a power
    of two is exact.  The proofs follow the definition of rounding in the
    Standard Library's [SpecFloat]. *)

From S2P Require Import Prelude GoFloat.

(** [int(x)] and [time.Duration(x)]: truncation, on values in range. *)
Definition f_trunc (x : float64) : Z :=
  match x with
  | S754_finite s m e =>
      let v := if e >=? 0 then Zpos m * 2 ^ e else Zpos m / 2 ^ (- e) in
      if s then - v else v
  | _ => 0
  end.

(** ** Digits *)

Lemma digits2_pos_bounds p : 2 ^ (Zpos (digits2_pos p) - 1) <= Zpos p < 2 ^ Zpos (digits2_pos p).
Proof.
  induction p as [p IH|p IH|]; cbn [digits2_pos]; [| |lia].
  all: rewrite Pos2Z.inj_succ; replace (Z.succ (Zpos (digits2_pos p)) - 1) with (Z.succ (Zpos (digits2_pos p) - 1)) by lia.
  all: rewrite !Z.pow_succ_r by lia; lia.
Qed.

Lemma digits2_unique p d : 0 < d -> 2 ^ (d - 1) <= Zpos p < 2 ^ d -> Zpos (digits2_pos p) = d.
Proof.
  intros Hd [H1 H2]. destruct (digits2_pos_bounds p) as [H3 H4].
  assert (d - 1 < Zpos (digits2_pos p)) by (apply (Z.pow_lt_mono_r_iff 2); lia).
  assert (Zpos (digits2_pos p) - 1 < d) by (apply (Z.pow_lt_mono_r_iff 2); lia). lia.
Qed.

(** ** Shifting right *)

Lemma iter_pos_nat {A} (f : A -> A) p x : iter_pos f p x = Nat.iter (Pos.to_nat p) f x.
Proof.
  revert x. induction p as [p IH|p IH|]; intros x; cbn [iter_pos]; [| |done].
  - rewrite !IH, Pos2Nat.inj_xI, <- Nat.iter_add, <- Nat.iter_succ_r. f_equal. lia.
  - rewrite !IH, Pos2Nat.inj_xO, <- Nat.iter_add. f_equal. lia.
Qed.

Lemma shr_1_spec x : 0 <= shr_m x ->
  shr_m (shr_1 x) = shr_m x / 2
  /\ (shr_r x = false -> shr_s x = false -> shr_m x mod 2 = 0 ->
      shr_r (shr_1 x) = false /\ shr_s (shr_1 x) = false).
Proof.
  destruct x as [m r s]. simpl. intros Hm. destruct m as [|p|p]; [..|lia].
  - split; [done|]. by intros -> ->.
  - destruct p as [p|p|]; simpl.
    + rewrite Pos2Z.inj_xI. split; [Z.div_mod_to_equations; lia|]. intros _ _ H. exfalso. Z.div_mod_to_equations; lia.
    + rewrite Pos2Z.inj_xO. split; [Z.div_mod_to_equations; lia|]. by intros -> ->.
    + split; [done|]. intros _ _ H. done.
Qed.

Lemma shr_iter_spec n x : 0 <= shr_m x ->
  shr_m (Nat.iter n shr_1 x) = shr_m x / 2 ^ Z.of_nat n
  /\ (shr_r x = false -> shr_s x = false -> shr_m x mod 2 ^ Z.of_nat n = 0 ->
      shr_r (Nat.iter n shr_1 x) = false /\ shr_s (Nat.iter n shr_1 x) = false).
Proof.
  intros Hx. induction n as [|n [IH1 IH2]].
  - simpl. by rewrite Z.div_1_r.
  - change (Nat.iter (S n) shr_1 x) with (shr_1 (Nat.iter n shr_1 x)).
    assert (0 <= shr_m (Nat.iter n shr_1 x)) as Hn by (rewrite IH1; apply Z.div_pos; lia).
    destruct (shr_1_spec _ Hn) as [H1 H2].
    assert (2 ^ Z.of_nat (S n) = 2 ^ Z.of_nat n * 2) as E by (rewrite Nat2Z.inj_succ, Z.pow_succ_r by lia; lia).
    assert (0 < 2 ^ Z.of_nat n) by lia. split.
    + by rewrite H1, IH1, E, Z.div_div by lia.
    + intros Hr Hs Hmod. rewrite E in Hmod. apply Z.mod_divide in Hmod as [q Hq]; [|lia].
      destruct IH2 as [IHr IHs]; [done..| |].
      { rewrite Hq, Z.mul_assoc, Z.mul_shuffle0. by rewrite Z.mod_mul by lia. }
      apply H2; [done..|]. rewrite IH1, Hq. replace (q * (2 ^ Z.of_nat n * 2)) with (q * 2 * 2 ^ Z.of_nat n) by lia.
      rewrite Z.div_mul by lia. by rewrite Z.mod_mul by lia.
Qed.

(** ** Rounding a positive mantissa *)

Lemma fexp_normal z : -1074 <= z - 53 -> fexp f_prec f_emax z = z - 53.
Proof. unfold fexp, SpecFloat.emin, f_prec, f_emax. lia. Qed.

(** No rounding is needed up to 53 digits. *)
Lemma shr_fexp_small M ex l : 
  Zpos (digits2_pos M) <= 53 -> -1074 <= Zpos (digits2_pos M) + ex - 53 ->
  shr_fexp f_prec f_emax (Zpos M) ex l = (shr_record_of_loc (Zpos M) l, ex).
Proof.
  intros Hd Hn. unfold shr_fexp. cbn [Zdigits2]. rewrite fexp_normal by done. unfold shr.
  destruct (_ - ex) eqn:E; try done. lia.
Qed.

Lemma round_small M ex :
  Zpos (digits2_pos M) <= 53 -> -1074 <= Zpos (digits2_pos M) + ex - 53 -> ex <= 971 ->
  binary_round_aux f_prec f_emax false (Zpos M) ex loc_Exact = S754_finite false M ex.
Proof.
  intros Hd Hn Hx. unfold binary_round_aux. rewrite shr_fexp_small by done.
  cbn [shr_record_of_loc shr_m loc_of_shr_record round_nearest_even]. rewrite shr_fexp_small by done.
  cbn [shr_record_of_loc shr_m]. unfold f_prec, f_emax. by rewrite (proj2 (Z.leb_le ex (1024 - 53))) by lia.
Qed.

(** More digits are cut off, rounding up by at most one unit. *)
Lemma round_large M ex k :
  0 < k -> Zpos (digits2_pos M) = 53 + k -> -1074 <= k + ex -> k + ex <= 970 ->
  exists m j, binary_round_aux f_prec f_emax false (Zpos M) ex loc_Exact = S754_finite false m (ex + j)
    /\ 0 <= j /\ Zpos M - 2 ^ k < Zpos m * 2 ^ j <= Zpos M + 2 ^ k
    /\ (Zpos M mod 2 ^ k = 0 -> Zpos m * 2 ^ j = Zpos M)
    /\ 2 ^ 52 <= Zpos m < 2 ^ 53.
Proof.
  intros Hk Hd Hn Hx. unfold binary_round_aux. unfold shr_fexp at 1. cbn [Zdigits2].
  rewrite Hd, fexp_normal by lia. replace (53 + k + ex - 53 - ex) with k by lia.
  destruct k as [|kp|]; [lia| |lia]. cbn [shr shr_record_of_loc].
  destruct (shr_iter_spec (Pos.to_nat kp) (Build_shr_record (Zpos M) false false)) as [Hm Hexact]; [simpl; lia|].
  rewrite positive_nat_Z in Hm, Hexact. cbn [shr_m shr_r shr_s] in Hm, Hexact.
  rewrite iter_pos_nat. destruct (Nat.iter _ shr_1 _) as [q r s]. cbn [shr_m shr_r shr_s] in Hm, Hexact.
  destruct (digits2_pos_bounds M) as [HM1 HM2]. rewrite Hd in HM1, HM2.
  set (P := 2 ^ Zpos kp) in *. assert (0 < P) by (unfold P; lia).
  assert (2 ^ (53 + Zpos kp - 1) = 2 ^ 52 * P) as E1 by (unfold P; rewrite <- Z.pow_add_r by lia; f_equal; lia).
  assert (2 ^ (53 + Zpos kp) = 2 ^ 53 * P) as E2 by (unfold P; rewrite <- Z.pow_add_r by lia; f_equal; lia).
  rewrite E1 in HM1. rewrite E2 in HM2.
  assert (2 ^ 52 <= q < 2 ^ 53) as Hq by (rewrite Hm; split; [apply Z.div_le_lower_bound|apply Z.div_lt_upper_bound]; lia).
  assert (q * P <= Zpos M < (q + 1) * P) as HqM.
  { rewrite Hm. pose proof (Z.mul_div_le (Zpos M) P). pose proof (Z.mul_succ_div_gt (Zpos M) P). lia. }
  cbn [shr_m]. set (mr := round_nearest_even q (loc_of_shr_record (Build_shr_record q r s))).
  assert (q <= mr <= q + 1 /\ (r = false -> s = false -> mr = q)) as [Hmr Hmx].
  { unfold mr. destruct r, s; simpl; try (destruct (Z.even q)); split; done || lia. }
  assert (Zpos M mod P = 0 -> mr * P = Zpos M) as Hexact'.
  { intros HP. destruct Hexact as [Hr Hs]; [done..|]. rewrite (Hmx Hr Hs), Hm.
    pose proof (Z.div_mod (Zpos M) P). lia. }
  clearbody mr. destruct mr as [|m|m]; [lia| |lia].
  destruct (decide (Zpos m = 2 ^ 53)) as [E|Hne].
  - assert (m = 9007199254740992%positive) as -> by lia. assert (q = 9007199254740991) as Eq by lia. rewrite Eq in HqM.
    exists 4503599627370496%positive, (Zpos kp + 1).
    assert (shr_fexp f_prec f_emax 9007199254740992 (ex + Zpos kp) loc_Exact
            = (Build_shr_record 4503599627370496 false false, ex + Zpos kp + 1)) as ->.
    { unfold shr_fexp. change (Zdigits2 9007199254740992) with 54.
      rewrite fexp_normal by lia. by replace (54 + (ex + Zpos kp) - 53 - (ex + Zpos kp)) with 1 by lia. }
    cbn [shr_m]. rewrite (proj2 (Z.leb_le _ _)) by (unfold f_emax, f_prec; lia).
    rewrite Z.pow_add_r by lia. fold P. split; [f_equal; lia|]. split; [lia|]. split; [|split; [intros HP; specialize (Hexact' HP)|]]; lia.
  - assert (Zpos (digits2_pos m) = 53) by (apply digits2_unique; lia). exists m, (Zpos kp).
    rewrite shr_fexp_small by lia. cbn [shr_record_of_loc shr_m].
    rewrite (proj2 (Z.leb_le _ _)) by (unfold f_emax, f_prec; lia). fold P. split_and!; [done|lia|nia|nia|done|lia|lia].
Qed.

(** ** Conversion and product *)

Lemma iter_xO p n : Zpos (Pos.iter xO p n) = Zpos p * 2 ^ Zpos n.
Proof.
  induction n as [|n IH] using Pos.peano_ind; [cbn; lia|].
  rewrite Pos.iter_succ, Pos2Z.inj_xO, IH, Pos2Z.inj_succ, Z.pow_succ_r by lia. lia.
Qed.

(** [float64(n)] is exact below 2^53. *)
Lemma f_of_Z_exact n :
  0 < n < 2 ^ 53 ->
  let d := Z.log2 n + 1 in
  exists m, f_of_Z n = S754_finite false m (d - 53) /\ 0 < d <= 53 /\ Zpos m = n * 2 ^ (53 - d)
    /\ 2 ^ 52 <= Zpos m < 2 ^ 53.
Proof.
  intros Hn d0. destruct n as [|p|]; [lia| |lia]. destruct (digits2_pos_bounds p) as [H1 H2].
  assert (d0 = Zpos (digits2_pos p)) as ->.
  { subst d0. symmetry. apply digits2_unique; [pose proof (Z.log2_nonneg (Zpos p)); lia|].
    rewrite Z.add_simpl_r. pose proof (Z.log2_spec (Zpos p)) as H. unfold Z.succ in H. lia. }
  set (d := Zpos (digits2_pos p)) in *. assert (d <= 53).
  { assert (d - 1 < 53); [|lia]. apply (Z.pow_lt_mono_r_iff 2); lia. }
  assert (0 < d) by (unfold d; lia).
  assert (2 ^ 52 <= Zpos p * 2 ^ (53 - d) < 2 ^ 53) as Hm.
  { replace (2 ^ 52) with (2 ^ (d - 1) * 2 ^ (53 - d)) by (rewrite <- Z.pow_add_r by lia; f_equal; lia).
    replace (2 ^ 53) with (2 ^ d * 2 ^ (53 - d)) by (rewrite <- Z.pow_add_r by lia; f_equal; lia).
    assert (0 < 2 ^ (53 - d)) by lia. nia. }
  assert (exists m, shl_align p 0 (fexp f_prec f_emax (d + 0)) = (m, d - 53) /\ Zpos m = Zpos p * 2 ^ (53 - d))
    as (m & Ea & Em).
  { rewrite fexp_normal by lia. unfold shl_align. replace (d + 0 - 53 - 0) with (d - 53) by lia.
    destruct (d - 53) as [|q|q] eqn:E; [|lia|].
    - exists p. split; [done|]. replace (53 - d) with 0 by lia. lia.
    - exists (Pos.iter xO p q). split; [f_equal; lia|]. rewrite iter_xO. do 2 f_equal. lia. }
  exists m. split; [|split; [lia|rewrite Em; split; done]].
  unfold f_of_Z, binary_normalize, binary_round. fold d. rewrite Ea.
  assert (Zpos (digits2_pos m) = 53) by (apply digits2_unique; [lia|]; rewrite Em; exact Hm).
  apply round_small; lia.
Qed.

(** [int(float64(n)*c)] for [c] = [C] * 2^[ec]: the quotient of a value [V]
    within 2^53 of the exact scaled product. *)
Lemma f_trunc_mul n C ec :
  0 < n < 2 ^ 53 -> 2 ^ 52 <= Zpos C < 2 ^ 53 -> -900 <= ec <= -52 ->
  let sh := 52 - Z.log2 n in
  let m1 := n * 2 ^ sh in
  exists V, 0 <= sh /\ 2 ^ 52 <= m1 < 2 ^ 53
    /\ (exists m e, f_mul (f_of_Z n) (S754_finite false C ec) = S754_finite false m e /\ 2 ^ 52 <= Zpos m < 2 ^ 53)
    /\ f_trunc (f_mul (f_of_Z n) (S754_finite false C ec)) = V / 2 ^ (sh - ec)
    /\ m1 * Zpos C - 2 ^ 53 < V <= m1 * Zpos C + 2 ^ 53
    /\ (Zpos C = 2 ^ 52 -> V = m1 * Zpos C).
Proof.
  intros Hn HC Hec sh m1. destruct (f_of_Z_exact n Hn) as (m & -> & Hd & Em & Hm).
  set (d := Z.log2 n + 1) in *. assert (sh = 53 - d) as Esh by (unfold sh, d; lia).
  assert (m1 = Zpos m) as Em1 by (unfold m1; rewrite Esh; congruence).
  clearbody m1 sh. subst sh m1.
  unfold f_mul. cbn [SFmul xorb]. set (M := (m * C)%positive). set (ex := d - 53 + ec).
  assert (Zpos M = Zpos m * Zpos C) as EM by (unfold M; lia).
  assert (exists k, 52 <= k <= 53 /\ Zpos (digits2_pos M) = 53 + k) as (k & Hk & HdM).
  { destruct (decide (Zpos M < 2 ^ 105)) as [H|H].
    - exists 52. split; [lia|]. apply digits2_unique; [lia|]. split; [|done]. simpl Z.sub. rewrite EM. nia.
    - exists 53. split; [lia|]. apply digits2_unique; [lia|]. simpl Z.sub. split; [simpl Z.pow in *; lia|].
      rewrite EM. simpl Z.pow in *. nia. }
  destruct (round_large M ex k) as (mr & j & -> & Hj & Hb & Hex & Hmr); [lia..|].
  assert (2 ^ k <= 2 ^ 53) by (apply Z.pow_le_mono_r; lia).
  exists (Zpos mr * 2 ^ j). split_and!; [lia|lia|lia|eauto| |lia|lia|].
  - unfold f_trunc. replace (53 - d - ec) with (- ex) by (unfold ex; lia).
    destruct (bool_decide_reflect (0 <= ex + j)) as [He|He].
    + assert (2 ^ j = 2 ^ (ex + j) * 2 ^ (- ex)) as ->.
      { rewrite <- Z.pow_add_r by (unfold ex in *; lia). f_equal. lia. }
      rewrite Z.mul_assoc, Z.div_mul; [done|]. apply Z.pow_nonzero; unfold ex; lia.
    + replace (- ex) with (j + - (ex + j)) by lia. rewrite Z.pow_add_r, (Z.mul_comm (2 ^ j)) by lia.
      by rewrite Z.div_mul_cancel_r by (apply Z.pow_nonzero; lia).
  - intros HP. rewrite <- EM. apply Hex. rewrite EM, HP. replace k with 52; [by rewrite Z.mod_mul|].
    destruct (digits2_pos_bounds M) as [H1 _]. rewrite HdM, EM, HP in H1.
    destruct (decide (k = 52)) as [->|]; [done|]. assert (k = 53) as -> by lia. simpl Z.pow in *. lia.
Qed.

(** Scaling by a fraction that is not within two units of 1 stays below. *)
Lemma f_trunc_mul_below n C ec :
  0 < n < 2 ^ 53 -> 2 ^ 52 <= Zpos C < 2 ^ 53 -> -900 <= ec <= -52 -> Zpos C + 3 <= 2 ^ (- ec) ->
  0 <= f_trunc (f_mul (f_of_Z n) (S754_finite false C ec)) < n.
Proof.
  intros Hn HC Hec Hc. destruct (f_trunc_mul n C ec Hn HC Hec) as (V & Hsh & Hm & _ & -> & HV & _).
  set (sh := 52 - Z.log2 n) in *.
  assert (0 < 2 ^ (sh - ec)) by (apply Z.pow_pos_nonneg; lia). split.
  - apply Z.div_pos; [nia|lia].
  - apply Z.div_lt_upper_bound; [lia|]. unfold Z.sub. rewrite Z.pow_add_r, Z.mul_comm, Z.mul_assoc by lia.
    set (m1 := n * 2 ^ sh) in *. nia.
Qed.

(** A quarter is exact. *)
Lemma f_trunc_quarter n : 0 <= n < 2 ^ 53 -> f_trunc (f_mul (f_of_Z n) (f_lit 1 4)) = n / 4.
Proof.
  intros Hn. destruct (decide (n = 0)) as [->|Hz]; [reflexivity|].
  replace (f_lit 1 4) with (S754_finite false 4503599627370496 (-54)) by reflexivity.
  destruct (f_trunc_mul n 4503599627370496 (-54)) as (V & Hsh & _ & _ & -> & _ & HV); [lia..|].
  set (sh := 52 - Z.log2 n) in *. rewrite (HV eq_refl). replace (sh - -54) with (sh + 52 + 2) by lia.
  rewrite !Z.pow_add_r by lia. replace (n * 2 ^ sh * 4503599627370496) with (n * (2 ^ sh * 2 ^ 52)) by (simpl (2 ^ 52); lia).
  rewrite (Z.mul_comm (2 ^ sh * 2 ^ 52) (2 ^ 2)), Z.div_mul_cancel_r; [done|lia|].
  apply Z.neq_mul_0. split; apply Z.pow_nonzero; lia.
Qed.

(** Conversion back is exact. *)
Lemma f_trunc_of_Z n : 0 <= n < 2 ^ 53 -> f_trunc (f_of_Z n) = n.
Proof.
  intros Hn. destruct (decide (n = 0)) as [->|Hz]; [reflexivity|].
  destruct (f_of_Z_exact n) as (m & -> & Hd & Em & _); [lia|]. set (d := Z.log2 n + 1) in *. unfold f_trunc.
  case_bool_decide.
  - assert (d = 53) as E by lia. rewrite E in *. rewrite Em. simpl. lia.
  - replace (- (d - 53)) with (53 - d) by lia. rewrite Em. apply Z.div_mul, Z.pow_nonzero; lia.
Qed.

(** A larger factor gives a larger result. *)
Lemma f_trunc_mul_mono n C C' ec :
  0 < n < 2 ^ 53 -> 2 ^ 52 <= Zpos C -> Zpos C + 4 <= Zpos C' < 2 ^ 53 -> -900 <= ec <= -52 ->
  f_trunc (f_mul (f_of_Z n) (S754_finite false C ec)) <= f_trunc (f_mul (f_of_Z n) (S754_finite false C' ec)).
Proof.
  intros Hn H1 H2 Hec. destruct (f_trunc_mul n C ec) as (V & Hsh & Hm & _ & -> & HV & _); [lia..|].
  destruct (f_trunc_mul n C' ec) as (V' & _ & _ & _ & -> & HV' & _); [lia..|].
  set (sh := 52 - Z.log2 n) in *. set (m1 := n * 2 ^ sh) in *.
  apply Z.div_le_mono; [apply Z.pow_pos_nonneg; lia|]. nia.
Qed.

(** Scaling by more than a half. *)
Lemma f_trunc_mul_half n C :
  0 < n < 2 ^ 53 -> 2 ^ 52 + 4 <= Zpos C < 2 ^ 53 ->
  n / 2 <= f_trunc (f_mul (f_of_Z n) (S754_finite false C (-53))).
Proof.
  intros Hn HC. destruct (f_trunc_mul n C (-53)) as (V & Hsh & Hm & _ & -> & HV & _); [lia..|].
  set (sh := 52 - Z.log2 n) in *. apply Z.div_le_lower_bound; [apply Z.pow_pos_nonneg; lia|].
  replace (sh - -53) with (sh + 52 + 1) by lia. rewrite !Z.pow_add_r by lia.
  set (P := 2 ^ sh) in *. assert (2 * (n / 2) <= n) by (Z.div_mod_to_equations; lia).
  assert (0 < P) by (apply Z.pow_pos_nonneg; lia). nia.
Qed.

(** Hundredths: for a binary64 number just below [c]/100 the product is cut to
    the integer one expects, unless [c * n] is a multiple of 100. *)
Lemma f_trunc_hundredths n c C :
  0 < n <= 2 ^ 20 -> 2 ^ 52 <= Zpos C < 2 ^ 53 -> 0 <= c * 2 ^ 53 - 100 * Zpos C <= 50 -> c * n mod 100 <> 0 ->
  f_trunc (f_mul (f_of_Z n) (S754_finite false C (-53))) = c * n / 100.
Proof.
  intros Hn HC Hc Hr. destruct (f_trunc_mul n C (-53)) as (V & Hsh & Hm & _ & -> & HV & _); [lia..|].
  set (sh := 52 - Z.log2 n) in *. assert (Z.log2 n <= 20) by (apply (Z.log2_le_mono n (2 ^ 20)); lia).
  replace (sh - -53) with (sh + 53) by lia. set (D := 2 ^ (sh + 53)). assert (2 ^ 85 <= D) by (apply Z.pow_le_mono_r; lia).
  assert (n * 2 ^ sh * 2 ^ 53 = n * D) as E by (unfold D; rewrite Z.pow_add_r by lia; lia).
  set (m1 := n * 2 ^ sh) in *. pose proof (Z.div_mod (c * n) 100 ltac:(lia)) as Hq. pose proof (Z.mod_pos_bound (c * n) 100 ltac:(lia)) as Hb.
  set (q := c * n / 100) in *. set (x := c * n mod 100) in *. clearbody q x.
  assert (100 * (m1 * Zpos C) = 100 * (q * D) + x * D - m1 * (c * 2 ^ 53 - 100 * Zpos C)) as Ex by nia.
  set (gap := c * 2 ^ 53 - 100 * Zpos C) in *. clearbody gap m1 D.
  assert (0 <= m1 * gap <= 2 ^ 53 * 50) by nia.
  symmetry. apply (Z.div_unique_pos V D q (V - D * q)); [|lia]. nia.
Qed.

(** The order of normalised numbers is that of the integers they are cut to. *)
Lemma f_lt_false_trunc m e m' e' :
  2 ^ 52 <= Zpos m -> Zpos m' < 2 ^ 53 -> f_lt (S754_finite false m e) (S754_finite false m' e') = false ->
  f_trunc (S754_finite false m' e') <= f_trunc (S754_finite false m e).
Proof.
  intros Hm Hm' H. assert (e' < e \/ e = e' /\ Zpos m' <= Zpos m) as Hle.
  { unfold f_lt, SFltb, SFcompare in H. destruct (Z.compare_spec e e') as [->|He|He]; [|done|by left].
    right. split; [done|]. change (Pos.compare_cont Eq m m') with (Pos.compare m m') in H. destruct (Pos.compare_spec m m') as [->|Hp|Hp]; [lia|done|lia]. }
  unfold f_trunc. destruct Hle as [He|[-> Hp]].
  - assert (2 <= 2 ^ (e - e')) as H2 by (change 2 with (2 ^ 1) at 1; apply Z.pow_le_mono_r; lia).
    assert (Zpos m' <= Zpos m * 2 ^ (e - e')) as Hmm by nia. repeat case_bool_decide; try lia.
    + assert (2 ^ e = 2 ^ e' * 2 ^ (e - e')) as -> by (rewrite <- Z.pow_add_r by lia; f_equal; lia).
      assert (0 < 2 ^ e') by (apply Z.pow_pos_nonneg; lia). nia.
    + assert (0 < 2 ^ (- e')) by (apply Z.pow_pos_nonneg; lia). apply Z.div_le_upper_bound; [done|].
      assert (2 ^ (- e') * 2 ^ e = 2 ^ (e - e')) as Ee by (rewrite <- Z.pow_add_r by lia; f_equal; lia). nia.
    + assert (2 ^ (- e') = 2 ^ (e - e') * 2 ^ (- e)) as -> by (rewrite <- Z.pow_add_r by lia; f_equal; lia).
      assert (0 < 2 ^ (- e)) by (apply Z.pow_pos_nonneg; lia). rewrite <- Z.div_div by lia. apply Z.div_le_mono; [done|].
      apply Z.div_le_upper_bound; lia.
  - case_bool_decide; [assert (0 < 2 ^ e') by (apply Z.pow_pos_nonneg; lia); nia|]. apply Z.div_le_mono; [apply Z.pow_pos_nonneg; lia|lia].
Qed.
