(* ===== verification/Sha256.v ===== *)
(** * SHA-256 and hexadecimal digests

    The functions of [crypto/sha256] and [encoding/hex] the sources call:
    [Sum256] over the bytes of a string and [EncodeToString].  The hash is
    the executable FIPS 180-4 function, so digests evaluate to the ones the
    program computes; its theorems are about the shape of a digest (64
    lower-case hexadecimal digits), and integrity theorems elsewhere exhibit
    a collision instead of assuming there is none. *)

From Stdlib Require Import Ascii.
From S2P Require Import Prelude.

(** ** Constants *)

Definition w32 (z : Z) : Z := z mod 2 ^ 32.

(** Integer cube root by bisection on [lo, hi). *)
Fixpoint cbrt_between (fuel : nat) (n lo hi : Z) : Z :=
  match fuel with
  | O => lo
  | S fuel =>
      if hi - lo <=? 1 then lo
      else let mid := (lo + hi) / 2 in
           if mid * mid * mid <=? n then cbrt_between fuel n mid hi
           else cbrt_between fuel n lo mid
  end.

Definition divides_any (ps : list Z) (n : Z) : bool := existsb (fun p => n mod p ==? 0) ps.

(** The first [k] primes from [n], given the smaller ones. *)
Fixpoint primes_from (fuel k : nat) (n : Z) (ps : list Z) : list Z :=
  match fuel, k with
  | S fuel, S k' =>
      if divides_any ps n then primes_from fuel k (n + 1) ps
      else n :: primes_from fuel k' (n + 1) (n :: ps)
  | _, _ => []
  end.

Definition primes64 : list Z := Eval vm_compute in primes_from 400 64 2 [].

(** The first 32 bits of the fractional parts of the cube roots of the first
    64 primes, and of the square roots of the first eight. *)
Definition round_constants : list Z :=
  Eval vm_compute in map (fun p => w32 (cbrt_between 64 (p * 2 ^ 96) 0 (2 ^ 40))) primes64.
Definition initial_words : list Z :=
  Eval vm_compute in map (fun p => w32 (Z.sqrt (p * 2 ^ 64))) (take 8 primes64).

(** ** Words *)

Definition rotr (n x : Z) : Z := Z.lor (Z.shiftr x n) (w32 (Z.shiftl x (32 - n))).
Definition not32 (x : Z) : Z := Z.lxor x (2 ^ 32 - 1).

Definition Ch (x y z : Z) : Z := Z.lxor (Z.land x y) (Z.land (not32 x) z).
Definition Maj (x y z : Z) : Z := Z.lxor (Z.lxor (Z.land x y) (Z.land x z)) (Z.land y z).
Definition bsig0 (x : Z) : Z := Z.lxor (Z.lxor (rotr 2 x) (rotr 13 x)) (rotr 22 x).
Definition bsig1 (x : Z) : Z := Z.lxor (Z.lxor (rotr 6 x) (rotr 11 x)) (rotr 25 x).
Definition ssig0 (x : Z) : Z := Z.lxor (Z.lxor (rotr 7 x) (rotr 18 x)) (Z.shiftr x 3).
Definition ssig1 (x : Z) : Z := Z.lxor (Z.lxor (rotr 17 x) (rotr 19 x)) (Z.shiftr x 10).

(** ** Message *)

Fixpoint str_bytes (s : string) : list Z :=
  match s with
  | EmptyString => []
  | String c s => code c :: str_bytes s
  end.

(** [n] big-endian bytes of [z]. *)
Fixpoint be_bytes (n : nat) (z : Z) : list Z :=
  match n with
  | O => []
  | S n => Z.shiftr z (8 * Z.of_nat n) mod 256 :: be_bytes n z
  end.

Definition pad (m : list Z) : list Z :=
  let len := Z.of_nat (length m) in
  let zeros := (55 - len) mod 64 in
  m ++ [128] ++ replicate (Z.to_nat zeros) 0 ++ be_bytes 8 (8 * len).

Fixpoint be_words (n : nat) (l : list Z) : list Z :=
  match n, l with
  | S n, a :: b :: c :: d :: l => (a * 2 ^ 24 + b * 2 ^ 16 + c * 2 ^ 8 + d) :: be_words n l
  | _, _ => []
  end.

(** The 64 words of the schedule; [acc] holds the words so far, last first. *)
Fixpoint schedule (n : nat) (acc : list Z) : list Z :=
  match n with
  | O => rev acc
  | S n =>
      let at_ i := nth i acc 0 in
      schedule n (w32 (ssig1 (at_ 1%nat) + at_ 6%nat + ssig0 (at_ 14%nat) + at_ 15%nat) :: acc)
  end.

(** ** Compression *)

Record digest := mkDigest {
  hA : Z; hB : Z; hC : Z; hD : Z; hE : Z; hF : Z; hG : Z; hH : Z
}.

Definition round (s : digest) (kw : Z * Z) : digest :=
  let t1 := hH s + bsig1 (hE s) + Ch (hE s) (hF s) (hG s) + fst kw + snd kw in
  let t2 := bsig0 (hA s) + Maj (hA s) (hB s) (hC s) in
  mkDigest (w32 (t1 + t2)) (hA s) (hB s) (hC s) (w32 (hD s + t1)) (hE s) (hF s) (hG s).

Definition compress (h : digest) (block : list Z) : digest :=
  let ws := schedule 48 (rev (be_words 16 block)) in
  let r := foldl round h (zip round_constants ws) in
  mkDigest (w32 (hA h + hA r)) (w32 (hB h + hB r)) (w32 (hC h + hC r)) (w32 (hD h + hD r))
           (w32 (hE h + hE r)) (w32 (hF h + hF r)) (w32 (hG h + hG r)) (w32 (hH h + hH r)).

Definition initial_digest : digest :=
  match initial_words with
  | [a; b; c; d; e; f; g; h] => mkDigest a b c d e f g h
  | _ => mkDigest 0 0 0 0 0 0 0 0
  end.

(** A padded message has a whole number of 64-byte blocks; its length bounds
    their number. *)
Fixpoint blocks (fuel : nat) (h : digest) (l : list Z) : digest :=
  match fuel, l with
  | S fuel, _ :: _ => blocks fuel (compress h (take 64 l)) (drop 64 l)
  | _, _ => h
  end.

Definition digest_bytes (h : digest) : list Z :=
  be_bytes 4 (hA h) ++ be_bytes 4 (hB h) ++ be_bytes 4 (hC h) ++ be_bytes 4 (hD h) ++
  be_bytes 4 (hE h) ++ be_bytes 4 (hF h) ++ be_bytes 4 (hG h) ++ be_bytes 4 (hH h).

(** [sha256.Sum256([]byte(s))]. *)
Definition Sum256 (s : string) : list Z :=
  let p := pad (str_bytes s) in
  digest_bytes (blocks (length p) initial_digest p).

(** ** Hexadecimal *)

Definition hex_digit (z : Z) : ascii := byte_of (if z <? 10 then 48 + z else 87 + z).

(** [hex.EncodeToString]. *)
Fixpoint hex_encode (l : list Z) : string :=
  match l with
  | [] => ""
  | b :: l => String (hex_digit (b / 16)) (String (hex_digit (b mod 16)) (hex_encode l))
  end.

Definition sha256_hex (s : string) : string := hex_encode (Sum256 s).
Arguments sha256_hex : simpl never.

Example sha256_empty :
  sha256_hex "" = "e3b0c44298fc1c149afbf4c8996fb92427ae41e4649b934ca495991b7852b855".
Proof. vm_compute. reflexivity. Qed.

Example sha256_abc :
  sha256_hex "abc" = "ba7816bf8f01cfea414140de5dae2223b00361a396177a9cb410ff61f20015ad".
Proof. vm_compute. reflexivity. Qed.

(** A message of two blocks. *)
Example sha256_two_blocks :
  sha256_hex "abcdbcdecdefdefgefghfghighijhijkijkljklmklmnlmnomnopnopq"
  = "248d6a61d20638b8e5c026930c3e6039a33ce45964ff2167f6ecedd419db06c1".
Proof. vm_compute. reflexivity. Qed.

(** ** Shape of a digest *)

Lemma be_bytes_range n z b : b ∈ be_bytes n z -> 0 <= b < 256.
Proof.
  induction n as [|n IH]; simpl; [by intros ?%elem_of_nil|].
  rewrite elem_of_cons. intros [->|H]; [|auto]. apply Z.mod_pos_bound. lia.
Qed.

Lemma be_bytes_length n z : length (be_bytes n z) = n.
Proof. induction n; simpl; congruence. Qed.

Lemma digest_bytes_range h b : b ∈ digest_bytes h -> 0 <= b < 256.
Proof. unfold digest_bytes. rewrite !elem_of_app. intros H. destruct_or! H; eauto using be_bytes_range. Qed.

Lemma Sum256_range s b : b ∈ Sum256 s -> 0 <= b < 256.
Proof. apply digest_bytes_range. Qed.

Lemma Sum256_length s : length (Sum256 s) = 32%nat.
Proof.
  unfold Sum256, digest_bytes. cbv zeta. generalize (blocks (length (pad (str_bytes s))) initial_digest (pad (str_bytes s))).
  intros h. by rewrite !length_app, !be_bytes_length.
Qed.

Lemma hex_encode_length l : String.length (hex_encode l) = (2 * length l)%nat.
Proof. induction l as [|b l IH]; cbn [hex_encode String.length length]; [done|]. rewrite IH. lia. Qed.

Lemma sha256_hex_length s : String.length (sha256_hex s) = 64%nat.
Proof. unfold sha256_hex. by rewrite hex_encode_length, Sum256_length. Qed.

(** The lower-case hexadecimal digits. *)
Definition lower_hex (c : ascii) : bool :=
  let x := code c in ((48 <=? x) && (x <=? 57)) || ((97 <=? x) && (x <=? 102)).

Lemma hex_digit_lower z : 0 <= z < 16 -> lower_hex (hex_digit z) = true.
Proof.
  intros Hz. rewrite <- (Z2Nat.id z) by lia. assert (Z.to_nat z < 16)%nat as H by lia.
  revert H. generalize (Z.to_nat z). intros n H. do 16 (destruct n as [|n]; [done|]). lia.
Qed.

Lemma hex_encode_lower l :
  (forall b, b ∈ l -> 0 <= b < 256) -> str_forall lower_hex (hex_encode l) = true.
Proof.
  induction l as [|b l IH]; intros H; cbn [hex_encode str_forall]; [done|].
  assert (0 <= b < 256) by (apply H; set_solver).
  assert (0 <= b / 16 < 16) by (split; [apply Z.div_pos|apply Z.div_lt_upper_bound]; lia).
  assert (0 <= b mod 16 < 16) by (apply Z.mod_pos_bound; lia).
  rewrite !hex_digit_lower by done. apply IH. set_solver.
Qed.

Lemma sha256_hex_lower s : str_forall lower_hex (sha256_hex s) = true.
Proof. apply hex_encode_lower, Sum256_range. Qed.

(** A collision of the hash: two different messages with one digest. *)
Definition collision (m1 m2 : string) : Prop := m1 <> m2 /\ sha256_hex m1 = sha256_hex m2.
