(* ===== verification/StateVector.v ===== *)
(** * State vectors and the governed transition
    ([internal/kernel/statevector/vector.go])

    Presence, valence, coherence, evidence and the anti-relation type are Go
    string types that callers fill in, so they are open strings with the
    source's constants; the decision is assigned only here and is an
    inductive type.  [Transition] reads the clock twice per outcome, for the
    observation and for the evidence record: the readings are arguments.
    Scores are binary64 floats ([GoFloat]) and lineage digests are the real
    SHA-256 digests ([Sha256]). *)

From Stdlib Require Import Ascii.
From S2P Require Import Prelude GoFloat Sha256.

(** ** Data *)

Definition Presence := string.
Definition PresenceEmpty : Presence := "EMPTY".
Definition PresencePresent : Presence := "PRESENT".
Definition PresenceUnknown : Presence := "UNKNOWN".
Definition PresenceRedacted : Presence := "REDACTED".

Definition Presence_IsValid (p : Presence) : bool :=
  (p ==? PresenceEmpty) || (p ==? PresencePresent) || (p ==? PresenceUnknown)
  || (p ==? PresenceRedacted).

Definition Valence := string.
Definition ValencePositive : Valence := "POSITIVE".
Definition ValenceNegative : Valence := "NEGATIVE".
Definition ValenceNeutral : Valence := "NEUTRAL".
Definition ValenceMixed : Valence := "MIXED".

Definition Valence_IsValid (v : Valence) : bool :=
  (v ==? ValencePositive) || (v ==? ValenceNegative) || (v ==? ValenceNeutral)
  || (v ==? ValenceMixed).

Definition Coherence := string.
Definition CoherenceCoherent : Coherence := "COHERENT".
Definition CoherencePartial : Coherence := "PARTIAL".
Definition CoherenceDecoherent : Coherence := "DECOHERENT".

Definition Coherence_IsValid (c : Coherence) : bool :=
  (c ==? CoherenceCoherent) || (c ==? CoherencePartial) || (c ==? CoherenceDecoherent).

Definition Evidence := string.
Definition EvidenceUnverified : Evidence := "UNVERIFIED".
Definition EvidenceVerified : Evidence := "VERIFIED".
Definition EvidenceInferred : Evidence := "INFERRED".
Definition EvidenceContradicted : Evidence := "CONTRADICTED".

Definition Evidence_IsValid (e : Evidence) : bool :=
  (e ==? EvidenceUnverified) || (e ==? EvidenceVerified) || (e ==? EvidenceInferred)
  || (e ==? EvidenceContradicted).

Definition AntiRelationType := string.
Definition AntiRelationAttacks : AntiRelationType := "ATTACKS".
Definition AntiRelationInvalidates : AntiRelationType := "INVALIDATES".
Definition AntiRelationContradicts : AntiRelationType := "CONTRADICTS".

Definition AntiRelationType_IsValid (a : AntiRelationType) : bool :=
  (a ==? AntiRelationAttacks) || (a ==? AntiRelationInvalidates) || (a ==? AntiRelationContradicts).

Record AntiRelation := mkAntiRelation {
  Type_ : AntiRelationType;
  Source : string;
  Target : string;
  RelReason : string;
  Hard : bool
}.

Inductive Decision := DecisionAccept | DecisionReject | DecisionQuarantine.

Record Lineage := mkLineage {
  ParentID : string;
  ChainDigest : string;
  Depth : Z               (* uint64 *)
}.

Record StateVector := mkStateVector {
  Entity : string;
  Tau : Z;                (* uint64 *)
  SPresence : Presence;
  SValence : Valence;
  SCoherence : Coherence;
  SEvidence : Evidence;
  SLineage : Lineage
}.

Inductive Err :=
| ErrInvalidEntity | ErrInvalidPresence | ErrInvalidValence | ErrInvalidCoherence
| ErrInvalidEvidence | ErrEntityMismatch | ErrEmptyPolicyEnvelope.

Record ConformanceSignal := mkSignal {
  SignalName : string;
  Score : float64;
  Weight : float64
}.

Record ConformanceVector := mkConformance {
  Signals : list ConformanceSignal;
  CAntiRelations : list AntiRelation;
  Metadata : gmap string string
}.

Record PolicyEnvelope := mkPolicy {
  EntityID : string;
  ScoreThreshold : float64;
  HardInvariants : list AntiRelationType
}.

Record TransitionInput := mkInput {
  Action : string;
  InDigest : string;
  TargetState : option StateVector;
  XAntiRelations : list AntiRelation
}.

Record Observation := mkObservation {
  Timestamp : Time;
  Code : string;
  Message : string;
  Details : gmap string string
}.

Record EvidenceRecord := mkEvidence {
  Status : Evidence;
  ProofDigest : string;
  VerifiedAt : Z          (* int64, Unix seconds *)
}.

Record Residual := mkResidual {
  RScore : float64;
  Dominated : bool;
  HardViolations : list AntiRelation;
  Warnings : list string;
  RReason : string
}.

Record TransitionResult := mkResult {
  RDecision : Decision;
  RObservation : Observation;
  NextState : StateVector;
  REvidence : EvidenceRecord;
  RResidual : Residual
}.

#[export] Instance AntiRelation_eq_dec : EqDecision AntiRelation.
Proof. solve_decision. Defined.
#[export] Instance Decision_eq_dec : EqDecision Decision.
Proof. solve_decision. Defined.

(** Unix time of an instant: seconds between year 1 and 1970 subtracted. *)
Definition Unix (t : Time) : Z := t / Second - 62135596800.

(** ** Operations *)

Definition Advance (l : Lineage) (stepDigest : string) : Lineage :=
  mkLineage (ChainDigest l) (sha256_hex (ChainDigest l +:+ ":" +:+ stepDigest))
    (u64_wrap (Depth l + 1)).

Definition StateVector_String (s : StateVector) : string :=
  "S(" +:+ Entity s +:+ "," +:+ Itoa (Tau s) +:+ ") = <" +:+ SPresence s +:+ ", " +:+ SValence s
  +:+ ", " +:+ SCoherence s +:+ ", " +:+ SEvidence s +:+ ", L(" +:+ ChainDigest (SLineage s)
  +:+ ":" +:+ Itoa (Depth (SLineage s)) +:+ "), " +:+ Itoa (Tau s) +:+ ">".

Definition Validate (s : StateVector) : option Err :=
  if Entity s ==? "" then Some ErrInvalidEntity
  else if negb (Presence_IsValid (SPresence s)) then Some ErrInvalidPresence
  else if negb (Valence_IsValid (SValence s)) then Some ErrInvalidValence
  else if negb (Coherence_IsValid (SCoherence s)) then Some ErrInvalidCoherence
  else if negb (Evidence_IsValid (SEvidence s)) then Some ErrInvalidEvidence
  else None.

(** [rel.Hard || hardSet[rel.Type]]. *)
Definition is_hard (pe : PolicyEnvelope) (rel : AntiRelation) : bool :=
  Hard rel || bool_decide (Type_ rel ∈ HardInvariants pe).

Fixpoint classifyAntiRelations (pe : PolicyEnvelope) (allRelations : list AntiRelation)
    : list AntiRelation * list AntiRelation :=
  match allRelations with
  | [] => ([], [])
  | rel :: rest =>
      let '(h, s) := classifyAntiRelations pe rest in
      if is_hard pe rel then (rel :: h, s) else (h, rel :: s)
  end.

(** The body of the loop over the signals, on [(totalWeight, weightedSum)]. *)
Definition score_step (acc : float64 * float64) (sig : ConformanceSignal) : float64 * float64 :=
  let w := if f_le (Weight sig) f_zero then f_one else Weight sig in
  let s := if f_lt (Score sig) f_zero then f_zero
           else if f_gt (Score sig) f_one then f_one else Score sig in
  (f_add acc.1 w, f_add acc.2 (f_mul s w)).

Definition computeBaseScore (signals : list ConformanceSignal) : float64 :=
  match signals with
  | [] => f_one
  | _ =>
      let '(totalWeight, weightedSum) := foldl score_step (f_zero, f_zero) signals in
      if f_eq totalWeight f_zero then f_zero else f_div weightedSum totalWeight
  end.

Definition applyAntiInvariantDominance (s0 : StateVector) (nextLineage : Lineage)
    (violations : list AntiRelation) : StateVector :=
  mkStateVector (Entity s0) (u64_wrap (Tau s0 + 1))
    (foldl (fun p v => if Type_ v ==? AntiRelationInvalidates then PresenceRedacted else p)
       (SPresence s0) violations)
    ValenceNegative CoherenceDecoherent EvidenceContradicted nextLineage.

(** [primary] is [hardViolations[0]], so the list is [primary :: others]. *)
Definition buildDominatedOutcome (t1 t2 : Time) (s0 : StateVector) (x : TransitionInput)
    (nextLineage : Lineage) (primary : AntiRelation) (others : list AntiRelation)
    : TransitionResult :=
  let hardViolations := primary :: others in
  let s1 := applyAntiInvariantDominance s0 nextLineage hardViolations in
  let reason := "Hard anti-invariant " +:+ Type_ primary +:+ " dominated composite score: "
                +:+ RelReason primary in
  mkResult DecisionReject
    (mkObservation t1 "ANTI_INVARIANT_DOMINATED" reason {[ "primary_violation" := Type_ primary ]})
    s1
    (mkEvidence EvidenceContradicted (ChainDigest nextLineage) (Unix t2))
    (mkResidual f_zero true hardViolations [] reason).

Definition buildConformingOutcome (t1 t2 : Time) (s0 : StateVector) (x : TransitionInput)
    (nextLineage : Lineage) (score : float64) (soft : list AntiRelation) : TransitionResult :=
  let s1 :=
    mkStateVector (Entity s0) (u64_wrap (Tau s0 + 1))
      (match TargetState x with
       | Some t => if SPresence t !=? "" then SPresence t else PresencePresent
       | None => PresencePresent
       end)
      (match TargetState x with
       | Some t => if SValence t !=? "" then SValence t else ValencePositive
       | None => ValencePositive
       end)
      CoherenceCoherent EvidenceVerified nextLineage in
  mkResult DecisionAccept
    (mkObservation t1 "TRANSITION_ACCEPTED" "Conformance evaluation succeeded" ∅)
    s1
    (mkEvidence (SEvidence s1) (ChainDigest nextLineage) (Unix t2))
    (mkResidual score false []
       (map (fun sv => "Soft anti-relation " +:+ Type_ sv +:+ ": " +:+ RelReason sv) soft)
       "Conformance threshold satisfied").

Definition buildNonConformingOutcome (t1 t2 : Time) (s0 : StateVector) (x : TransitionInput)
    (nextLineage : Lineage) (score : float64) (reason : string) : TransitionResult :=
  let s1 :=
    mkStateVector (Entity s0) (u64_wrap (Tau s0 + 1)) (SPresence s0) ValenceNeutral
      CoherencePartial EvidenceUnverified nextLineage in
  mkResult DecisionReject
    (mkObservation t1 "THRESHOLD_UNMET" reason ∅)
    s1
    (mkEvidence EvidenceUnverified (ChainDigest nextLineage) (Unix t2))
    (mkResidual score false [] [] reason).

(** The score after the penalty of 0.20 per soft violation. *)
Definition final_score (signals : list ConformanceSignal) (softViolations : list AntiRelation)
    : float64 :=
  let baseScore := computeBaseScore signals in
  let penalty := f_mul (f_of_Z (Z.of_nat (length softViolations))) (f_lit 20 100) in
  let finalScore := f_sub baseScore penalty in
  if f_lt finalScore f_zero then f_zero else finalScore.

Definition effective_threshold (pe : PolicyEnvelope) : float64 :=
  if f_le (ScoreThreshold pe) f_zero then f_lit 50 100 else ScoreThreshold pe.

Definition step_digest (x : TransitionInput) : string :=
  if InDigest x ==? "" then Action x else InDigest x.

Definition Transition (t1 t2 : Time) (pe : PolicyEnvelope) (s0 : StateVector) (x : TransitionInput)
    (c : ConformanceVector) : TransitionResult + Err :=
  if EntityID pe ==? "" then inr ErrEmptyPolicyEnvelope
  else match Validate s0 with
  | Some err => inr err
  | None =>
      if EntityID pe !=? Entity s0 then inr ErrEntityMismatch
      else
        let allRelations := XAntiRelations x ++ CAntiRelations c in
        let nextLineage := Advance (SLineage s0) (step_digest x) in
        let '(hardViolations, softViolations) := classifyAntiRelations pe allRelations in
        match hardViolations with
        | primary :: others =>
            inl (buildDominatedOutcome t1 t2 s0 x nextLineage primary others)
        | [] =>
            let finalScore := final_score (Signals c) softViolations in
            let threshold := effective_threshold pe in
            if f_lt finalScore threshold then
              inl (buildNonConformingOutcome t1 t2 s0 x nextLineage finalScore
                     ("Conformance score " +:+ FormatF2 finalScore +:+ " is below threshold "
                      +:+ FormatF2 threshold))
            else inl (buildConformingOutcome t1 t2 s0 x nextLineage finalScore softViolations)
        end
  end.

(** ** Classification *)

Lemma classify_filter pe l :
  classifyAntiRelations pe l
  = (filter (fun r => is_hard pe r = true) l, filter (fun r => is_hard pe r = false) l).
Proof.
  induction l as [|r l IH]; simpl; [done|]. rewrite IH. rewrite !filter_cons.
  by destruct (is_hard pe r).
Qed.

(** The inputs [Transition] evaluates: a policy for the entity of a valid
    state. *)
Definition input_ok (pe : PolicyEnvelope) (s0 : StateVector) : Prop :=
  EntityID pe <> "" /\ Validate s0 = None /\ EntityID pe = Entity s0.

#[export] Instance input_ok_dec pe s0 : base.Decision (input_ok pe s0).
Proof. unfold input_ok. destruct (Validate s0); apply _. Defined.

Definition hard_violations (pe : PolicyEnvelope) (x : TransitionInput) (c : ConformanceVector) :=
  filter (fun r => is_hard pe r = true) (XAntiRelations x ++ CAntiRelations c).
Definition soft_violations (pe : PolicyEnvelope) (x : TransitionInput) (c : ConformanceVector) :=
  filter (fun r => is_hard pe r = false) (XAntiRelations x ++ CAntiRelations c).

(** The shape of [Transition] on admitted inputs. *)
Lemma sv_Transition_ok t1 t2 pe s0 x c :
  input_ok pe s0 ->
  Transition t1 t2 pe s0 x c =
    let nl := Advance (SLineage s0) (step_digest x) in
    match hard_violations pe x c with
    | primary :: others => inl (buildDominatedOutcome t1 t2 s0 x nl primary others)
    | [] =>
        let fs := final_score (Signals c) (soft_violations pe x c) in
        if f_lt fs (effective_threshold pe) then
          inl (buildNonConformingOutcome t1 t2 s0 x nl fs
                 ("Conformance score " +:+ FormatF2 fs +:+ " is below threshold "
                  +:+ FormatF2 (effective_threshold pe)))
        else inl (buildConformingOutcome t1 t2 s0 x nl fs (soft_violations pe x c))
    end.
Proof.
  intros (Hne & Hv & He). unfold Transition. rewrite bool_decide_false by done. rewrite Hv.
  rewrite (bool_decide_true (EntityID pe = Entity s0)) by done. simpl.
  by rewrite classify_filter.
Qed.

Lemma Transition_inl t1 t2 pe s0 x c r :
  Transition t1 t2 pe s0 x c = inl r -> input_ok pe s0.
Proof.
  unfold Transition, input_ok. case_bool_decide; [done|].
  destruct (Validate s0); [done|]. case_bool_decide; done.
Qed.

Lemma redacted_fold l p :
  foldl (fun p v => if Type_ v ==? AntiRelationInvalidates then PresenceRedacted else p) p l
  = if existsb (fun v => Type_ v ==? AntiRelationInvalidates) l then PresenceRedacted else p.
Proof.
  revert p. induction l as [|v l IH]; intros p; simpl; [done|]. rewrite IH.
  case_bool_decide; simpl; [|done]. by destruct (existsb _ l).
Qed.

(** C7. Hard anti-invariants dominate: when an admitted input carries a hard
    violation (flagged hard, or of a type the policy makes hard), the
    transition is rejected with score zero and lists exactly the hard
    violations; the next state is negative, decoherent and contradicted, and
    redacted if a hard violation invalidates.  No conformance signal and no
    score threshold changes any of it. *)
Theorem hard_anti_invariant_dominates t1 t2 pe s0 x c rel
    (Hok : input_ok pe s0)
    (Hin : rel ∈ XAntiRelations x ++ CAntiRelations c) (Hhard : is_hard pe rel = true) :
  exists r, Transition t1 t2 pe s0 x c = inl r
    /\ RDecision r = DecisionReject
    /\ RScore (RResidual r) = f_zero /\ Dominated (RResidual r) = true
    /\ HardViolations (RResidual r) = hard_violations pe x c
    /\ NextState r =
         mkStateVector (Entity s0) (u64_wrap (Tau s0 + 1))
           (if existsb (fun v => Type_ v ==? AntiRelationInvalidates) (hard_violations pe x c)
            then PresenceRedacted else SPresence s0)
           ValenceNegative CoherenceDecoherent EvidenceContradicted
           (Advance (SLineage s0) (step_digest x))
    /\ forall signals md threshold,
         Transition t1 t2 (mkPolicy (EntityID pe) threshold (HardInvariants pe)) s0 x
           (mkConformance signals (CAntiRelations c) md) = inl r.
Proof.
  assert (rel ∈ hard_violations pe x c) as Hh by (by apply list_elem_of_filter).
  rewrite sv_Transition_ok by done.
  assert (forall signals md threshold,
    hard_violations (mkPolicy (EntityID pe) threshold (HardInvariants pe)) x
      (mkConformance signals (CAntiRelations c) md) = hard_violations pe x c) as E by done.
  destruct (hard_violations pe x c) as [|primary others] eqn:Ev; [by apply elem_of_nil in Hh|].
  simpl. eexists. split; [reflexivity|]. split_and!; try done.
  - simpl. unfold applyAntiInvariantDominance. by rewrite redacted_fold.
  - intros. rewrite sv_Transition_ok by done. by rewrite E.
Qed.

Definition v_state : StateVector :=
  mkStateVector "e" 4 PresencePresent ValenceNeutral CoherencePartial EvidenceInferred
    (mkLineage "" "root" 4).
Definition v_policy : PolicyEnvelope := mkPolicy "e" (f_lit 8 10) [AntiRelationAttacks].
Definition v_attack : AntiRelation := mkAntiRelation AntiRelationAttacks "a" "b" "why" false.
Definition v_input : TransitionInput := mkInput "act" "" None [v_attack].
Definition v_perfect : ConformanceVector := mkConformance [mkSignal "s" f_one f_one] [] ∅.

Lemma hard_anti_invariant_dominates_witness :
  exists r, Transition 1 2 v_policy v_state v_input v_perfect = inl r
    /\ RDecision r = DecisionReject.
Proof.
  destruct (hard_anti_invariant_dominates 1 2 v_policy v_state v_input v_perfect v_attack)
    as (r & Hr & Hd & _); [by_computation|by_computation|reflexivity|].
  exists r. split; [exact Hr|exact Hd].
Defined.

(** ** NaN scores *)

Lemma f_add_nan_r x : f_add x S754_nan = S754_nan.
Proof. by destruct x as [|[]| |[]]. Qed.

Lemma f_add_nan_l x : f_add S754_nan x = S754_nan.
Proof. done. Qed.

Lemma score_nan_sticky signals tw :
  snd (foldl score_step (tw, S754_nan) signals) = S754_nan.
Proof. revert tw. induction signals as [|s l IH]; intros tw; simpl; [done|]. apply IH. Qed.

Lemma score_nan signals acc sig :
  sig ∈ signals -> Score sig = S754_nan -> snd (foldl score_step acc signals) = S754_nan.
Proof.
  revert acc. induction signals as [|s l IH]; intros acc Hin Hs; [by apply elem_of_nil in Hin|].
  simpl. apply elem_of_cons in Hin as [<-|Hin]; [|eauto].
  unfold score_step at 2. rewrite Hs. simpl.
  change (f_mul S754_nan _) with S754_nan. rewrite f_add_nan_r. apply score_nan_sticky.
Qed.

(** NaN fails open: when one signal's score is NaN, no hard violation is
    present and the signals' weights do not sum to zero, the transition is
    accepted whatever the other signals, the soft violations and the
    threshold are. *)
Theorem nan_score_accepted t1 t2 pe s0 x c sig
    (Hok : input_ok pe s0) (Hsoft : hard_violations pe x c = [])
    (Hsig : sig ∈ Signals c) (Hnan : Score sig = S754_nan)
    (Hweight : f_eq (fst (foldl score_step (f_zero, f_zero) (Signals c))) f_zero = false) :
  exists r, Transition t1 t2 pe s0 x c = inl r /\ RDecision r = DecisionAccept
    /\ RScore (RResidual r) = S754_nan.
Proof.
  rewrite sv_Transition_ok by done. rewrite Hsoft. cbv zeta.
  assert (final_score (Signals c) (soft_violations pe x c) = S754_nan) as ->.
  { unfold final_score, computeBaseScore.
    pose proof (score_nan (Signals c) (f_zero, f_zero) sig Hsig Hnan) as Hs.
    destruct (Signals c) as [|s l]; [by apply elem_of_nil in Hsig|].
    destruct (foldl score_step (f_zero, f_zero) (s :: l)) as [tw ws]. simpl in Hs, Hweight.
    by rewrite Hweight, Hs. }
  rewrite f_lt_nan_l. eexists. split; [reflexivity|]. done.
Qed.

Lemma nan_score_accepted_witness :
  exists r, Transition 1 2 v_policy v_state (mkInput "act" "" None [])
              (mkConformance [mkSignal "low" f_zero f_one; mkSignal "bad" S754_nan f_one] [] ∅)
            = inl r /\ RDecision r = DecisionAccept /\ RScore (RResidual r) = S754_nan.
Proof.
  apply (nan_score_accepted 1 2 v_policy v_state (mkInput "act" "" None [])
    (mkConformance [mkSignal "low" f_zero f_one; mkSignal "bad" S754_nan f_one] [] ∅)
    (mkSignal "bad" S754_nan f_one));
    [by_computation|reflexivity|apply elem_of_cons; right; apply list_elem_of_singleton; reflexivity
    |reflexivity|vm_compute; reflexivity].
Defined.

(** ** Validity of the next state *)

(** What an accepted transition copies from the requested target state. *)
Definition target_ok (x : TransitionInput) : bool :=
  match TargetState x with
  | None => true
  | Some t => ((SPresence t ==? "") || Presence_IsValid (SPresence t))
              && ((SValence t ==? "") || Valence_IsValid (SValence t))
  end.

Lemma Validate_None s :
  Validate s = None <->
  Entity s <> "" /\ Presence_IsValid (SPresence s) = true /\ Valence_IsValid (SValence s) = true
  /\ Coherence_IsValid (SCoherence s) = true /\ Evidence_IsValid (SEvidence s) = true.
Proof.
  unfold Validate. case_bool_decide; [naive_solver|].
  destruct (Presence_IsValid _), (Valence_IsValid _), (Coherence_IsValid _), (Evidence_IsValid _);
    naive_solver.
Qed.

(** Validity: a transition keeps the entity, and its next state is a
    valid state vector exactly when the transition is rejected or the
    requested target's presence and valence are empty or recognised: target
    values are copied unchecked. *)
Theorem transition_next_state_valid t1 t2 pe s0 x c r
    (Hrun : Transition t1 t2 pe s0 x c = inl r) :
  Entity (NextState r) = Entity s0 /\ Tau (NextState r) = u64_wrap (Tau s0 + 1)
  /\ (Validate (NextState r) = None <-> RDecision r <> DecisionAccept \/ target_ok x = true).
Proof.
  pose proof (Transition_inl _ _ _ _ _ _ _ Hrun) as Hok.
  rewrite sv_Transition_ok in Hrun by done. cbv zeta in Hrun.
  destruct Hok as (_ & Hv & _). apply Validate_None in Hv as (Hne & Hp & _).
  rewrite Validate_None.
  destruct (hard_violations pe x c) as [|p o].
  - destruct (f_lt _ _); simplify_eq/=; split_and!; try done.
    + rewrite Hp. split; [by left|done].
    + unfold target_ok. destruct (TargetState x) as [t|]; [|naive_solver].
      destruct (bool_decide_reflect (SPresence t = "")), (bool_decide_reflect (SValence t = ""));
        simpl; [naive_solver| | |]; destruct (Presence_IsValid (SPresence t)),
          (Valence_IsValid (SValence t)); naive_solver.
  - simplify_eq/=. split_and!; try done. rewrite redacted_fold. simpl.
    split; [by left|]. intros _. split_and!; try done. destruct (existsb _ o); [done|]. by case_bool_decide.
Qed.

Definition v_bad_target : TransitionInput :=
  mkInput "act" "" (Some (mkStateVector "" 0 "GONE" "" "" "" (mkLineage "" "" 0))) [].

(** The accepted next state is invalid here: the next transition is refused. *)
Lemma transition_next_state_valid_witness :
  exists r, Transition 1 2 v_policy v_state v_bad_target v_perfect = inl r
    /\ RDecision r = DecisionAccept /\ Validate (NextState r) <> None.
Proof.
  eexists. split; [reflexivity|]. split; [vm_compute; reflexivity|].
  intros H. apply (transition_next_state_valid 1 2 v_policy v_state v_bad_target v_perfect) in H;
    [|reflexivity]. destruct H as [H|H]; [apply H; vm_compute; reflexivity|discriminate H].
Defined.

(** ** Lineage *)

(** The digest of a chain of steps, and the messages hashed on the way. *)
Definition chain (c : string) (ds : list string) : string :=
  foldl (fun c d => sha256_hex (c +:+ ":" +:+ d)) c ds.

Fixpoint chain_messages (c : string) (ds : list string) : list string :=
  match ds with
  | [] => []
  | d :: ds => (c +:+ ":" +:+ d) :: chain_messages (sha256_hex (c +:+ ":" +:+ d)) ds
  end.

Record Step := mkStep {
  st_t1 : Time;
  st_t2 : Time;
  st_policy : PolicyEnvelope;
  st_input : TransitionInput;
  st_conformance : ConformanceVector
}.

(** Successive transitions, each from the state the last one produced. *)
Fixpoint transitions (s : StateVector) (steps : list Step) : option StateVector :=
  match steps with
  | [] => Some s
  | st :: steps =>
      match Transition (st_t1 st) (st_t2 st) (st_policy st) s (st_input st) (st_conformance st) with
      | inl r => transitions (NextState r) steps
      | inr _ => None
      end
  end.

Definition step_digests (steps : list Step) : list string :=
  map (fun st => step_digest (st_input st)) steps.

Lemma Transition_lineage t1 t2 pe s0 x c r :
  Transition t1 t2 pe s0 x c = inl r ->
  SLineage (NextState r) = Advance (SLineage s0) (step_digest x)
  /\ ProofDigest (REvidence r) = ChainDigest (SLineage (NextState r)).
Proof.
  intros Hrun. rewrite sv_Transition_ok in Hrun by eauto using Transition_inl. cbv zeta in Hrun.
  destruct (hard_violations pe x c); [destruct (f_lt _ _)|]; by simplify_eq/=.
Qed.

Lemma transitions_chain s steps s' :
  transitions s steps = Some s' ->
  ChainDigest (SLineage s') = chain (ChainDigest (SLineage s)) (step_digests steps).
Proof.
  revert s. induction steps as [|st steps IH]; intros s; simpl; [by intros [= <-]|].
  destruct (Transition _ _ _ _ _ _) as [r|] eqn:E; [|done]. intros H.
  apply IH in H as ->. by destruct (Transition_lineage _ _ _ _ _ _ _ E) as [-> _].
Qed.

Lemma app_inv_length a b c d :
  String.length a = String.length b -> a +:+ c = b +:+ d -> a = b /\ c = d.
Proof.
  revert b. induction a as [|x a IH]; intros [|y b]; simpl; intros Hn H; try done; injection Hn as Hn.
  cbn in H. injection H as -> H. apply IH in H as [-> ->]; done.
Qed.

(** Equal digests of chains of the same length whose roots have the same
    length: the steps agree, or two hashed messages collide. *)
Lemma chain_collision ds1 : forall ds2 c1 c2,
  length ds1 = length ds2 -> String.length c1 = String.length c2 ->
  chain c1 ds1 = chain c2 ds2 ->
  c1 = c2 /\ ds1 = ds2
  \/ exists m1 m2, m1 ∈ chain_messages c1 ds1 /\ m2 ∈ chain_messages c2 ds2 /\ collision m1 m2.
Proof.
  induction ds1 as [|d1 ds1 IH]; intros [|d2 ds2] c1 c2 Hn Hlen H; try done; [by left|].
  injection Hn as Hn.
  simpl in H. apply IH in H as [[Heq ->]|(m1 & m2 & H1 & H2 & Hc)]; [|right|done|].
  - destruct (decide (c1 +:+ ":" +:+ d1 = c2 +:+ ":" +:+ d2)) as [E|Hne].
    + left. apply app_inv_length in E as [-> E]; [|done].
      by apply app_inv_length in E as [_ ->].
    + right. exists (c1 +:+ ":" +:+ d1), (c2 +:+ ":" +:+ d2).
      simpl. rewrite !elem_of_cons. split_and!; [by left|by left|by split].
  - exists m1, m2. simpl. rewrite !elem_of_cons. split_and!; [by right|by right|done].
  - by rewrite !sha256_hex_length.
Qed.

(** What the lineage binds: two runs of equally many transitions from one state
    that end with the same chain digest went through the same step digests,
    unless two of the messages hashed in the runs are a collision of SHA-256.
    A step digest is the digest or the action of the input, not the policy, the
    conformance vector or the decision. *)
Lemma lineage_binds_digests s steps1 steps2 s1 s2
    (Hrun1 : transitions s steps1 = Some s1) (Hrun2 : transitions s steps2 = Some s2)
    (Hlen : length steps1 = length steps2)
    (Hdigest : ChainDigest (SLineage s1) = ChainDigest (SLineage s2)) :
  step_digests steps1 = step_digests steps2
  \/ exists m1 m2,
       m1 ∈ chain_messages (ChainDigest (SLineage s)) (step_digests steps1)
       /\ m2 ∈ chain_messages (ChainDigest (SLineage s)) (step_digests steps2)
       /\ collision m1 m2.
Proof.
  apply transitions_chain in Hrun1, Hrun2. rewrite Hrun1, Hrun2 in Hdigest.
  apply chain_collision in Hdigest; [|unfold step_digests; by rewrite !length_map|done].
  destruct Hdigest as [[_ H]|H]; [by left|by right].
Qed.

