(* ===== verification/KVState.v ===== *)
(** * The KV-cache fabric and transfer contracts
    ([internal/kernel/kvstate/cache_fabric.go], [transfer.go])

    The fabric is a map from identity digests to entries; each method holds
    the mutex, so a method is one atomic step.  Tiers, lifecycle states and
    postures come from callers and are open Go strings; the reuse disposition
    is assigned only here and is an inductive type.  Digests are the real
    SHA-256 digests.  [EvictExpired] ranges over the map: the order of the
    loop is an argument. *)

From Stdlib Require Import Ascii.
From S2P Require Import Prelude Sha256.

(** ** Data *)

Inductive Err :=
| ErrInvalidIdentity | ErrTenantIsolationBreach | ErrAdapterMismatch | ErrTokenizerMismatch
| ErrPartitionMismatch | ErrStateConflict | ErrEntryNotFound | ErrInvalidTierTransition
| ErrTransferFailed | ErrTransferTimeout | ErrIntegrityViolation.

Definition ResidencyTier := string.
Definition TierGPU : ResidencyTier := "tier-gpu".
Definition TierHostCPU : ResidencyTier := "tier-host-cpu".
Definition TierLocalDisk : ResidencyTier := "tier-local-disk".
Definition TierRemote : ResidencyTier := "tier-remote".
Definition TierEvicted : ResidencyTier := "tier-evicted".
Definition TierCold : ResidencyTier := "tier-cold".

Definition LifecycleState := string.
Definition LifecycleUnallocated : LifecycleState := "unallocated".
Definition LifecycleAllocating : LifecycleState := "allocating".
Definition LifecycleActive : LifecycleState := "active".
Definition LifecycleDraining : LifecycleState := "draining".
Definition LifecycleEvicted : LifecycleState := "evicted".
Definition LifecycleQuarantined : LifecycleState := "quarantined".

Definition AffinityPosture := string.
Definition IsolationPosture := string.

Definition IntegrityPosture := string.
Definition IntegrityUnverified : IntegrityPosture := "unverified".
Definition IntegrityVerified : IntegrityPosture := "verified".
Definition IntegrityCorrupted : IntegrityPosture := "corrupted".

Inductive ReuseDisposition :=
| ReuseHit | ReuseMiss | ReusePartialHit | ReuseDeniedTenantMismatch | ReuseDeniedAdapterMismatch
| ReuseDeniedTokenizerMismatch | ReuseDeniedPartitionMismatch | ReuseDeniedExpired
| ReuseDeniedQuarantined | ReuseDeniedCorrupted | ReuseDeniedNotActive.

Definition TransferPhase := string.
Definition TransferPhaseIdle : TransferPhase := "idle".
Definition TransferPhaseInitiated : TransferPhase := "initiated".
Definition TransferPhaseInFlight : TransferPhase := "in-flight".
Definition TransferPhaseCompleted : TransferPhase := "completed".
Definition TransferPhaseFailed : TransferPhase := "failed".
Definition TransferPhaseCancelled : TransferPhase := "cancelled".

Definition TransferRole := string.

Record StateVector := mkVector {
  Residency : ResidencyTier;
  Lifecycle : LifecycleState;
  Transfer : TransferPhase;
  Affinity : AffinityPosture;
  Isolation : IsolationPosture;
  Integrity : IntegrityPosture
}.

Record CacheIdentity := mkIdentity {
  TenantID : string;
  PartitionID : string;
  ModelID : string;
  AdapterID : string;
  TokenizerID : string;
  PrefixHash : string;
  ChunkIndex : Z          (* int *)
}.

Record CacheEntry := mkEntry {
  Identity : CacheIdentity;
  Vector : StateVector;
  NodeAffinity : string;
  Tokens : Z;             (* int *)
  SizeBytes : Z;          (* int64 *)
  CreatedAt : Time;
  LastAccessed : Time;
  ExpiresAt : Time;
  AccessCount : Z         (* int64 *)
}.

Record PrefixMatchResult := mkMatch {
  MatchedChunks : Z;
  TotalRequestedChunks : Z;
  MatchedTokens : Z;
  BestTier : ResidencyTier;
  Entries : list CacheEntry;
  Disposition : ReuseDisposition
}.

Notation CacheFabric := (gmap string CacheEntry).

#[export] Instance ReuseDisposition_eq_dec : EqDecision ReuseDisposition.
Proof. solve_decision. Defined.
#[export] Instance CacheIdentity_eq_dec : EqDecision CacheIdentity.
Proof. solve_decision. Defined.
#[export] Instance StateVector_eq_dec : EqDecision StateVector.
Proof. solve_decision. Defined.
#[export] Instance CacheEntry_eq_dec : EqDecision CacheEntry.
Proof. solve_decision. Defined.
#[export] Instance Err_eq_dec : EqDecision Err.
Proof. solve_decision. Defined.
#[export] Instance CacheIdentity_countable : Countable CacheIdentity.
Proof.
  apply (inj_countable'
    (fun i => (TenantID i, PartitionID i, ModelID i, AdapterID i, TokenizerID i, PrefixHash i,
               ChunkIndex i))
    (fun '(t, p, m, a, k, h, c) => mkIdentity t p m a k h c)).
  by intros [].
Defined.

(** The zero values of the structs. *)
Definition zero_identity : CacheIdentity := mkIdentity "" "" "" "" "" "" 0.
Definition zero_entry : CacheEntry :=
  mkEntry zero_identity (mkVector "" "" "" "" "" "") "" 0 0 0 0 0 0.

(** ** Identities *)

Definition EvaluateReuse (v : StateVector) (now expiresAt : Time) : ReuseDisposition :=
  if Lifecycle v ==? LifecycleQuarantined then ReuseDeniedQuarantined
  else if Integrity v ==? IntegrityCorrupted then ReuseDeniedCorrupted
  else if negb (IsZero expiresAt) && negb (Before now expiresAt) then ReuseDeniedExpired
  else if (Lifecycle v ==? LifecycleEvicted) || (Residency v ==? TierEvicted)
          || (Residency v ==? TierCold) then ReuseMiss
  else if Lifecycle v !=? LifecycleActive then ReuseDeniedNotActive
  else if (Residency v ==? TierGPU) || (Residency v ==? TierHostCPU)
          || (Residency v ==? TierLocalDisk) || (Residency v ==? TierRemote) then ReuseHit
  else ReuseMiss.

Definition Validate (id : CacheIdentity) : option Err :=
  if TrimSpace_empty (TenantID id) || TrimSpace_empty (PartitionID id)
  then Some ErrInvalidIdentity
  else if TrimSpace_empty (ModelID id) || TrimSpace_empty (TokenizerID id)
  then Some ErrInvalidIdentity
  else if TrimSpace_empty (PrefixHash id) || (ChunkIndex id <? 0)
  then Some ErrInvalidIdentity
  else None.

Definition URN (id : CacheIdentity) : string :=
  "urn:ckodex:kv:" +:+ TenantID id +:+ ":" +:+ PartitionID id +:+ ":" +:+ ModelID id +:+ ":"
  +:+ AdapterID id +:+ ":" +:+ TokenizerID id +:+ ":" +:+ Itoa (ChunkIndex id) +:+ ":"
  +:+ PrefixHash id.

(** The zero byte, and the bytes [Digest] hashes: each part followed by it. *)
Definition nul : ascii := "000"%char.

Fixpoint nul_terminated (parts : list string) : string :=
  match parts with
  | [] => ""
  | p :: parts => p +:+ String nul (nul_terminated parts)
  end.

Definition digest_parts (id : CacheIdentity) : list string :=
  [TenantID id; PartitionID id; ModelID id; AdapterID id; TokenizerID id; Itoa (ChunkIndex id);
   PrefixHash id].

Definition Digest (id : CacheIdentity) : string :=
  "sha256:" +:+ sha256_hex (nul_terminated (digest_parts id)).
Arguments Digest : simpl never.

Definition CheckCompatibility (id query : CacheIdentity) : ReuseDisposition :=
  if TenantID id !=? TenantID query then ReuseDeniedTenantMismatch
  else if PartitionID id !=? PartitionID query then ReuseDeniedPartitionMismatch
  else if (ModelID id !=? ModelID query) || (AdapterID id !=? AdapterID query)
  then ReuseDeniedAdapterMismatch
  else if TokenizerID id !=? TokenizerID query then ReuseDeniedTokenizerMismatch
  else if (ChunkIndex id !=? ChunkIndex query) || (PrefixHash id !=? PrefixHash query)
  then ReuseMiss
  else ReuseHit.

(** ** The fabric *)

Definition NewCacheFabric : CacheFabric := ∅.

Definition Insert (f : CacheFabric) (entry : CacheEntry) : CacheFabric * option Err :=
  match Validate (Identity entry) with
  | Some err => (f, Some err)
  | None => (<[Digest (Identity entry) := entry]> f, None)
  end.

Definition with_vector (e : CacheEntry) (v : StateVector) : CacheEntry :=
  mkEntry (Identity e) v (NodeAffinity e) (Tokens e) (SizeBytes e) (CreatedAt e) (LastAccessed e)
    (ExpiresAt e) (AccessCount e).

Definition with_residency (v : StateVector) (t : ResidencyTier) : StateVector :=
  mkVector t (Lifecycle v) (Transfer v) (Affinity v) (Isolation v) (Integrity v).

Definition evicted_vector (v : StateVector) : StateVector :=
  mkVector TierEvicted LifecycleEvicted (Transfer v) (Affinity v) (Isolation v) (Integrity v).

(** [entry.AccessCount++; entry.LastAccessed = now]. *)
Definition accessed (e : CacheEntry) (now : Time) : CacheEntry :=
  mkEntry (Identity e) (Vector e) (NodeAffinity e) (Tokens e) (SizeBytes e) (CreatedAt e) now
    (ExpiresAt e) (i64_wrap (AccessCount e + 1)).

Definition Lookup (f : CacheFabric) (query : CacheIdentity) (now : Time)
    : CacheFabric * (CacheEntry * ReuseDisposition * option Err) :=
  match Validate query with
  | Some err => (f, (zero_entry, ReuseMiss, Some err))
  | None =>
      match f !! Digest query with
      | None => (f, (zero_entry, ReuseMiss, None))
      | Some entry =>
          let disp := CheckCompatibility (Identity entry) query in
          if disp !=? ReuseHit then (f, (zero_entry, disp, None))
          else
            let disp := EvaluateReuse (Vector entry) now (ExpiresAt entry) in
            if disp ==? ReuseHit then
              let entry := accessed entry now in
              (<[Digest query := entry]> f, (entry, disp, None))
            else (f, (entry, disp, None))
      end
  end.

Definition tier_rank (t : ResidencyTier) : Z :=
  if t ==? TierGPU then 4 else if t ==? TierHostCPU then 3 else if t ==? TierLocalDisk then 2
  else if t ==? TierRemote then 1 else 0.

Definition selectBestTier (current next : ResidencyTier) : ResidencyTier :=
  if tier_rank next >? tier_rank current then next else current.

Definition chunk_identity (base : CacheIdentity) (i : Z) (ph : string) : CacheIdentity :=
  mkIdentity (TenantID base) (PartitionID base) (ModelID base) (AdapterID base) (TokenizerID base)
    ph i.

(** The loop of [PrefixLookup] from chunk [i]; it stops at the first chunk
    that is not a hit. *)
Fixpoint prefix_loop (f : CacheFabric) (base : CacheIdentity) (i : Z) (hashes : list string)
    (now : Time) (res : PrefixMatchResult) : CacheFabric * PrefixMatchResult :=
  match hashes with
  | [] => (f, res)
  | ph :: hashes =>
      let '(f', (entry, disp, err)) := Lookup f (chunk_identity base i ph) now in
      if (err !=? None) || (disp !=? ReuseHit) then (f', res)
      else
        prefix_loop f' base (i + 1) hashes now
          (mkMatch (i64_wrap (MatchedChunks res + 1)) (TotalRequestedChunks res)
             (i64_wrap (MatchedTokens res + Tokens entry))
             (selectBestTier (BestTier res) (Residency (Vector entry)))
             (Entries res ++ [entry]) (Disposition res))
  end.

Definition PrefixLookup (f : CacheFabric) (base : CacheIdentity) (hashes : list string) (now : Time)
    : CacheFabric * PrefixMatchResult :=
  let '(f', res) :=
    prefix_loop f base 0 hashes now (mkMatch 0 (Z.of_nat (length hashes)) 0 "" [] ReuseMiss) in
  let disp :=
    if (MatchedChunks res ==? TotalRequestedChunks res) && (TotalRequestedChunks res >? 0)
    then ReuseHit
    else if MatchedChunks res >? 0 then ReusePartialHit
    else Disposition res in
  (f', mkMatch (MatchedChunks res) (TotalRequestedChunks res) (MatchedTokens res) (BestTier res)
         (Entries res) disp).

Definition Promote (f : CacheFabric) (id : CacheIdentity) (target : ResidencyTier)
    : CacheFabric * option Err :=
  match f !! Digest id with
  | None => (f, Some ErrEntryNotFound)
  | Some entry =>
      if Lifecycle (Vector entry) !=? LifecycleActive then (f, Some ErrInvalidTierTransition)
      else (<[Digest id := with_vector entry (with_residency (Vector entry) target)]> f, None)
  end.

Definition Demote (f : CacheFabric) (id : CacheIdentity) (target : ResidencyTier)
    : CacheFabric * option Err :=
  match f !! Digest id with
  | None => (f, Some ErrEntryNotFound)
  | Some entry =>
      (<[Digest id := with_vector entry (with_residency (Vector entry) target)]> f, None)
  end.

Definition Evict (f : CacheFabric) (id : CacheIdentity) : CacheFabric * option Err :=
  match f !! Digest id with
  | None => (f, Some ErrEntryNotFound)
  | Some entry => (<[Digest id := with_vector entry (evicted_vector (Vector entry))]> f, None)
  end.

(** The condition of the eviction loop. *)
Definition expired (now : Time) (e : CacheEntry) : bool :=
  negb (IsZero (ExpiresAt e)) && negb (Before now (ExpiresAt e))
  && (Lifecycle (Vector e) !=? LifecycleEvicted).

(** One pass of the loop over the digests [ord], collecting the identities. *)
Fixpoint evict_loop (f : CacheFabric) (ord : list string) (now : Time) (evicted : list CacheIdentity)
    : CacheFabric * list CacheIdentity :=
  match ord with
  | [] => (f, evicted)
  | digest :: ord =>
      match f !! digest with
      | Some entry =>
          if expired now entry then
            evict_loop (<[digest := with_vector entry (evicted_vector (Vector entry))]> f) ord now
              (evicted ++ [Identity entry])
          else evict_loop f ord now evicted
      | None => evict_loop f ord now evicted
      end
  end.

(** The order of the identities by URN. *)
Definition urn_le (a b : CacheIdentity) : Prop := str_le (URN a) (URN b).
#[export] Instance urn_le_dec a b : Decision (urn_le a b).
Proof. unfold urn_le. apply _. Defined.

Definition EvictExpired (f : CacheFabric) (ord : list string) (now : Time)
    : CacheFabric * list CacheIdentity :=
  let '(f', evicted) := evict_loop f ord now [] in
  (f', merge_sort urn_le evicted).

(** ** Transfer contracts *)

Record TransferContract := mkContract {
  TransferID : string;
  CIdentity : CacheIdentity;
  SourceNode : string;
  TargetNode : string;
  Connector : string;
  Role : TransferRole;
  Phase : TransferPhase;
  CTokens : Z;            (* int *)
  Bytes : Z;              (* int64 *)
  PayloadChecksum : string;
  CCreatedAt : Time;
  Deadline : Time;
  CompletedAt : Time;
  FailureReason : string
}.

(** The fields the phase machine writes. *)
Definition with_phase (t : TransferContract) (phase : TransferPhase) (checksum : string)
    (created completed : Time) (reason : string) : TransferContract :=
  mkContract (TransferID t) (CIdentity t) (SourceNode t) (TargetNode t) (Connector t) (Role t)
    phase (CTokens t) (Bytes t) checksum created (Deadline t) completed reason.

Definition NewTransferContract (id : string) (identity : CacheIdentity) (src dst conn : string)
    (role : TransferRole) (tokens bytesCount : Z) (deadline : Time) : TransferContract + Err :=
  match Validate identity with
  | Some err => inr err
  | None =>
      if (id ==? "") || (src ==? "") || (dst ==? "") || (conn ==? "") then inr ErrTransferFailed
      else if src ==? dst then inr ErrTransferFailed
      else inl (mkContract id identity src dst conn role TransferPhaseIdle tokens bytesCount "" 0
                  deadline 0 "")
  end.

Definition Initiate (t : TransferContract) (now : Time) : TransferContract * option Err :=
  if Phase t !=? TransferPhaseIdle then (t, Some ErrStateConflict)
  else (with_phase t TransferPhaseInitiated (PayloadChecksum t) now (CompletedAt t)
          (FailureReason t), None).

Definition past_deadline (t : TransferContract) (now : Time) : bool :=
  negb (IsZero (Deadline t)) && negb (Before now (Deadline t)).

Definition MarkInFlight (t : TransferContract) (now : Time) : TransferContract * option Err :=
  if past_deadline t now then
    (with_phase t TransferPhaseFailed (PayloadChecksum t) (CCreatedAt t) (CompletedAt t)
       "deadline exceeded prior to in-flight", Some ErrTransferTimeout)
  else if Phase t !=? TransferPhaseInitiated then (t, Some ErrStateConflict)
  else (with_phase t TransferPhaseInFlight (PayloadChecksum t) (CCreatedAt t) (CompletedAt t)
          (FailureReason t), None).

Definition Complete (t : TransferContract) (now : Time) (checksum : string)
    : TransferContract * option Err :=
  if past_deadline t now then
    (with_phase t TransferPhaseFailed (PayloadChecksum t) (CCreatedAt t) (CompletedAt t)
       "deadline exceeded before completion", Some ErrTransferTimeout)
  else if Phase t !=? TransferPhaseInFlight then (t, Some ErrStateConflict)
  else if TrimSpace_empty checksum then
    (with_phase t TransferPhaseFailed (PayloadChecksum t) (CCreatedAt t) (CompletedAt t)
       "missing payload checksum", Some ErrIntegrityViolation)
  else (with_phase t TransferPhaseCompleted checksum (CCreatedAt t) now (FailureReason t), None).

Definition Fail (t : TransferContract) (now : Time) (reason : string) : TransferContract :=
  with_phase t TransferPhaseFailed (PayloadChecksum t) (CCreatedAt t) now reason.

Definition VerifyGovernance (t : TransferContract) (consumerAdapter : string) : option Err :=
  if (AdapterID (CIdentity t) !=? "") && (AdapterID (CIdentity t) !=? consumerAdapter)
  then Some ErrAdapterMismatch else None.

(** ** Isolation of lookups *)

Lemma compat_hit a b : CheckCompatibility a b = ReuseHit <-> a = b.
Proof.
  split.
  - unfold CheckCompatibility. destruct a, b; simpl. intros H. by go_heads.
  - intros ->. unfold CheckCompatibility. by rewrite !(bool_decide_true (_ = _)).
Qed.

(** The four tiers a reusable entry can be resident in. *)
Definition warm (t : ResidencyTier) : Prop :=
  t = TierGPU \/ t = TierHostCPU \/ t = TierLocalDisk \/ t = TierRemote.

Lemma EvaluateReuse_hit v now exp :
  EvaluateReuse v now exp = ReuseHit ->
  Lifecycle v = LifecycleActive /\ Integrity v <> IntegrityCorrupted
  /\ (exp = 0 \/ now < exp) /\ warm (Residency v).
Proof.
  unfold EvaluateReuse, warm, IsZero, Before. intros H.
  repeat match type of H with
  | context [bool_decide ?P] => destruct (bool_decide_reflect P); simpl in H; try discriminate H
  end; split_and!; try done; try (by left); try (by right); naive_solver.
Qed.

(** C10. Cache isolation: whatever the fabric holds, and even if digests
    collide, the entry a lookup returns is the zero entry or the entry of
    exactly the queried identity (tenant, partition, model, adapter,
    tokenizer, chunk and prefix).  A hit is moreover an active, uncorrupted,
    unexpired entry in a warm tier, and the lookup only counts the access. *)
Theorem lookup_isolation f q now f' e d err
    (Hrun : Lookup f q now = (f', (e, d, err))) :
  (e = zero_entry \/ Identity e = q)
  /\ (d = ReuseHit ->
        Identity e = q /\ Lifecycle (Vector e) = LifecycleActive
        /\ Integrity (Vector e) <> IntegrityCorrupted
        /\ (ExpiresAt e = 0 \/ now < ExpiresAt e) /\ warm (Residency (Vector e))
        /\ exists e0, f !! Digest q = Some e0 /\ e = accessed e0 now /\ f' = <[Digest q := e]> f)
  /\ (d <> ReuseHit -> f' = f).
Proof.
  unfold Lookup in Hrun. destruct (Validate q); [simplify_eq; split; [by left|by split]|].
  destruct (f !! Digest q) as [e0|] eqn:Hf; [|simplify_eq; split; [by left|by split]].
  destruct (bool_decide_reflect (CheckCompatibility (Identity e0) q = ReuseHit)) as [Hc|Hc];
    simpl in Hrun; [|simplify_eq; split; [by left|by split]].
  apply compat_hit in Hc.
  destruct (bool_decide_reflect (EvaluateReuse (Vector e0) now (ExpiresAt e0) = ReuseHit)) as [Hh|Hh];
    injection Hrun as <- <- <- <-.
  - split; [by right|]. split; [|done]. intros _.
    destruct (EvaluateReuse_hit _ _ _ Hh) as (? & ? & ? & ?). split_and!; try done. by exists e0.
  - split; [by right|]. by split.
Qed.

Definition k_id : CacheIdentity := mkIdentity "tenant" "part" "model" "lora" "tok" "h0" 0.
Definition k_vec : StateVector :=
  mkVector TierGPU LifecycleActive TransferPhaseIdle "none" "tenant-strict" IntegrityVerified.
Definition k_entry (id : CacheIdentity) : CacheEntry := mkEntry id k_vec "node" 16 64 1 1 100 0.
Definition k_fabric : CacheFabric := fst (Insert NewCacheFabric (k_entry k_id)).

Lemma lookup_isolation_witness :
  Identity (fst (fst (snd (Lookup k_fabric k_id 5)))) = k_id.
Proof.
  destruct (Lookup k_fabric k_id 5) as [f' [[e d] err]] eqn:E.
  destruct (lookup_isolation k_fabric k_id 5 f' e d err E) as (_ & H & _).
  apply H. assert (snd (fst (snd (Lookup k_fabric k_id 5))) = ReuseHit) as Hd
    by (vm_compute; reflexivity). rewrite E in Hd. exact Hd.
Defined.

(** ** Digests *)

Definition nul_free (s : string) : bool := str_forall (fun c => negb (bool_decide (c = nul))) s.

Lemma nul_terminated_inj l1 l2 :
  length l1 = length l2 -> Forall (fun s => nul_free s = true) l1 ->
  Forall (fun s => nul_free s = true) l2 ->
  nul_terminated l1 = nul_terminated l2 -> l1 = l2.
Proof.
  revert l2. induction l1 as [|a l1 IH]; intros [|b l2]; simpl; intros Hl H1 H2 H; try done.
  apply Forall_cons in H1 as [Ha H1], H2 as [Hb H2]. apply sep_inj in H as [-> H]; [|done..].
  f_equal. apply IH; auto.
Qed.

Definition nul_free_id (id : CacheIdentity) : bool :=
  nul_free (TenantID id) && nul_free (PartitionID id) && nul_free (ModelID id)
  && nul_free (AdapterID id) && nul_free (TokenizerID id) && nul_free (PrefixHash id)
  && (0 <=? ChunkIndex id) && (ChunkIndex id <? 2 ^ 63).

Lemma digest_parts_nul_free id :
  nul_free_id id = true -> Forall (fun s => nul_free s = true) (digest_parts id).
Proof.
  unfold nul_free_id, digest_parts. rewrite !andb_true_iff, !bool_decide_eq_true.
  intros (((((((? & ?) & ?) & ?) & ?) & ?) & ?) & ?). repeat constructor; try done.
  unfold nul_free. eapply str_forall_impl; [|by apply Itoa_digits].
  intros c. unfold is_digit. rewrite andb_true_iff, !bool_decide_eq_true. intros [Hc _].
  rewrite bool_decide_false; [done|]. intros ->. by vm_compute in Hc.
Qed.

Lemma digest_parts_inj a b :
  nul_free_id a = true -> nul_free_id b = true -> digest_parts a = digest_parts b -> a = b.
Proof.
  unfold nul_free_id, digest_parts. rewrite !andb_true_iff, !bool_decide_eq_true.
  destruct a, b; simpl. intros Ha Hb [=]. subst. f_equal. apply Itoa_inj; [tauto..|done].
Qed.

(** Identity digests: two identities without zero bytes that have the
    same digest are equal, or the messages hashed for them are a collision
    of SHA-256. *)
Theorem digest_identifies a b
    (Ha : nul_free_id a = true) (Hb : nul_free_id b = true) (Heq : Digest a = Digest b) :
  a = b \/ collision (nul_terminated (digest_parts a)) (nul_terminated (digest_parts b)).
Proof.
  destruct (decide (a = b)) as [|Hne]; [by left|right]. split.
  - intros H. apply Hne, digest_parts_inj; [done..|].
    apply nul_terminated_inj; auto using digest_parts_nul_free.
  - unfold Digest in Heq. by apply (inj (String.append "sha256:")) in Heq.
Qed.

Lemma digest_identifies_witness :
  k_id = k_id
  \/ collision (nul_terminated (digest_parts k_id)) (nul_terminated (digest_parts k_id)).
Proof. apply (digest_identifies k_id k_id); vm_compute; reflexivity. Defined.

(** With a zero byte in a component the digest is ambiguous: identities of
    two tenants share a slot of the fabric. *)
Definition split_tenant_a : CacheIdentity :=
  mkIdentity ("t" +:+ String nul "p") "m" "x" "" "tok" "h" 0.
Definition split_tenant_b : CacheIdentity :=
  mkIdentity "t" ("p" +:+ String nul "m") "x" "" "tok" "h" 0.

Example ambiguous_digest :
  split_tenant_a <> split_tenant_b /\ Digest split_tenant_a = Digest split_tenant_b
  /\ Validate split_tenant_a = None /\ Validate split_tenant_b = None.
Proof. split; [discriminate|]. vm_compute. done. Qed.

(** URNs are ambiguous when a component contains a colon. *)
Definition urn_a : CacheIdentity := mkIdentity "t" "p" "llama:8b" "" "tok" "h" 0.
Definition urn_b : CacheIdentity := mkIdentity "t" "p:llama" "8b" "" "tok" "h" 0.

Example ambiguous_urn : urn_a <> urn_b /\ URN urn_a = URN urn_b.
Proof. split; [discriminate|]. vm_compute. done. Qed.

(** ** Eviction of expired entries *)

(** What one pass does to an entry. *)
Definition evict_if (now : Time) (e : CacheEntry) : CacheEntry :=
  if expired now e then with_vector e (evicted_vector (Vector e)) else e.

Definition keys (f : CacheFabric) : list string := (map_to_list f).*1.

Lemma evict_loop_lookup ord : forall f now acc d,
  NoDup ord ->
  fst (evict_loop f ord now acc) !! d
  = if bool_decide (d ∈ ord) then evict_if now <$> f !! d else f !! d.
Proof.
  induction ord as [|d0 ord IH]; intros f now acc d Hnd; cbn [evict_loop].
  { by rewrite bool_decide_false by (by intros ?%elem_of_nil). }
  apply NoDup_cons in Hnd as [Hd0 Hnd].
  destruct (decide (d = d0)) as [->|Hne].
  - rewrite (bool_decide_true (d0 ∈ d0 :: ord)) by set_solver.
    destruct (f !! d0) as [e|] eqn:Hf; simpl.
    + unfold evict_if. destruct (expired now e) eqn:He.
      * rewrite IH, (bool_decide_false (d0 ∈ ord)) by done. by rewrite lookup_insert_eq.
      * rewrite IH, (bool_decide_false (d0 ∈ ord)) by done. done.
    + by rewrite IH, (bool_decide_false (d0 ∈ ord)).
  - assert (bool_decide (d ∈ d0 :: ord) = bool_decide (d ∈ ord)) as ->.
    { apply bool_decide_ext. rewrite elem_of_cons. naive_solver. }
    destruct (f !! d0) as [e|] eqn:Hf; [destruct (expired now e)|]; rewrite IH by done; [|done..].
    by rewrite lookup_insert_ne.
Qed.

(** The identities one pass collects from the entries it visits. *)
Definition expired_id (f : CacheFabric) (now : Time) (d : string) : option CacheIdentity :=
  e ← f !! d; if expired now e then Some (Identity e) else None.

Lemma evict_loop_ids ord : forall f now acc,
  NoDup ord ->
  snd (evict_loop f ord now acc) = acc ++ omap (expired_id f now) ord.
Proof.
  induction ord as [|d ord IH]; intros f now acc Hnd; simpl; [by rewrite app_nil_r|].
  apply NoDup_cons in Hnd as [Hd Hnd]. unfold expired_id at 1.
  destruct (f !! d) as [e|] eqn:Hf; simpl; [|by apply IH].
  destruct (expired now e) eqn:He; [|by apply IH]. rewrite IH, <- app_assoc by done. f_equal.
  simpl. f_equal. apply list_omap_ext, Forall2_same_length_lookup_2; [done|].
  intros i a b Ha Hb. simplify_eq. unfold expired_id.
  rewrite lookup_insert_ne; [done|]. intros ->. apply Hd. by eapply list_elem_of_lookup_2.
Qed.

#[export] Instance urn_le_total : Total urn_le.
Proof. intros a b. apply str_le_total. Qed.
#[export] Instance urn_le_trans : Transitive urn_le.
Proof. intros a b c. apply str_le_trans. Qed.

Lemma keys_order f ord : ord ≡ₚ keys f -> NoDup ord /\ forall d, d ∈ ord <-> is_Some (f !! d).
Proof.
  intros H. split; [rewrite H; apply NoDup_fst_map_to_list|]. intros d. rewrite H. unfold keys.
  rewrite list_elem_of_fmap. split.
  - intros ([k e] & -> & Hin). apply elem_of_map_to_list in Hin. by exists e.
  - intros [e He]. exists (d, e). split; [done|]. by apply elem_of_map_to_list.
Qed.

Lemma EvictExpired_state f ord now :
  ord ≡ₚ keys f -> fst (EvictExpired f ord now) = evict_if now <$> f.
Proof.
  intros H. apply keys_order in H as [Hnd Hord]. unfold EvictExpired.
  pose proof (fun d => evict_loop_lookup ord f now [] d Hnd) as E.
  destruct (evict_loop f ord now []) as [f' l]. simpl in *. apply map_eq. intros d.
  rewrite E, lookup_fmap. case_bool_decide as Hin; [done|].
  rewrite Hord in Hin. by destruct (f !! d) as [e|]; [destruct Hin|].
Qed.

Lemma omap_none {A B} (g : A -> option B) l : (forall a, g a = None) -> omap g l = [].
Proof. intros H. induction l as [|a l IH]; simpl; [done|]. by rewrite H. Qed.

Lemma expired_id_evicted f now d : expired_id (evict_if now <$> f) now d = None.
Proof.
  unfold expired_id. rewrite lookup_fmap. destruct (f !! d) as [e|]; simpl; [|done].
  unfold evict_if. destruct (expired now e) eqn:E; [|by rewrite E].
  unfold expired; simpl. by rewrite andb_false_r.
Qed.

(** Eviction: whatever order the map is traversed in, [EvictExpired]
    marks exactly the expired entries that are not evicted yet, leaves the
    others alone, and returns the identities of the marked entries sorted by
    URN; afterwards an expired entry is no hit, now or later. *)
Theorem evict_expired_complete f ord now f' ids
    (Hord : ord ≡ₚ keys f) (Hrun : EvictExpired f ord now = (f', ids)) :
  f' = evict_if now <$> f
  /\ ids ≡ₚ omap (expired_id f now) (keys f)
  /\ StronglySorted urn_le ids
  /\ (forall d e t, f' !! d = Some e -> ExpiresAt e <> 0 -> ExpiresAt e <= now -> now <= t ->
        EvaluateReuse (Vector e) t (ExpiresAt e) <> ReuseHit)
  /\ snd (EvictExpired f' (keys f') now) = [].
Proof.
  pose proof (keys_order _ _ Hord) as [Hnd _].
  pose proof (EvictExpired_state f ord now Hord) as Hf'. rewrite Hrun in Hf'. simpl in Hf'.
  split_and!; [done| | | |].
  - unfold EvictExpired in Hrun. pose proof (evict_loop_ids ord f now [] Hnd) as E.
    destruct (evict_loop f ord now []) as [f0 l]. simpl in E. injection Hrun as <- <-.
    rewrite merge_sort_Permutation, E. by rewrite Hord.
  - unfold EvictExpired in Hrun. destruct (evict_loop f ord now []) as [f0 l].
    injection Hrun as _ <-. apply (StronglySorted_merge_sort urn_le).
  - intros d e t _ Hz Hexp Ht H. apply EvaluateReuse_hit in H. lia.
  - pose proof (keys_order f' (keys f') ltac:(done)) as [Hnd' Hk]. unfold EvictExpired.
    pose proof (evict_loop_ids (keys f') f' now [] Hnd') as E.
    destruct (evict_loop f' (keys f') now []) as [f0 l]. simpl in *. rewrite E.
    by rewrite Hf', omap_none by apply expired_id_evicted.
Qed.

Definition k_stale : CacheFabric := fst (Insert k_fabric (k_entry (chunk_identity k_id 1 "h1"))).

Lemma evict_expired_complete_witness :
  snd (EvictExpired k_stale (keys k_stale) 200) ≡ₚ [k_id; chunk_identity k_id 1 "h1"].
Proof.
  destruct (EvictExpired k_stale (keys k_stale) 200) as [f' ids] eqn:E.
  destruct (evict_expired_complete k_stale (keys k_stale) 200 f' ids) as (_ & H & _);
    [reflexivity|exact E|]. cbn [snd]. etransitivity; [exact H|].
  apply (bool_decide_unpack _). vm_compute. exact Logic.I.
Defined.

(** ** Refinement of an identity-indexed cache

    What callers rely on is a map from identities, not from digests.  The
    specification is that map, with one rule per way a call can end; it shares
    no operation with the fabric.  The order in which [EvictExpired] lists
    identities with equal URNs is left open. *)

Inductive Op :=
| OpInsert (e : CacheEntry)
| OpLookup (q : CacheIdentity) (now : Time)
| OpPrefixLookup (base : CacheIdentity) (hashes : list string) (now : Time)
| OpPromote (id : CacheIdentity) (t : ResidencyTier)
| OpDemote (id : CacheIdentity) (t : ResidencyTier)
| OpEvict (id : CacheIdentity)
| OpEvictExpired (order : CacheFabric -> list string) (now : Time).

Inductive Out :=
| OutErr (e : option Err)
| OutLookup (r : CacheEntry * ReuseDisposition * option Err)
| OutPrefix (r : PrefixMatchResult)
| OutEvicted (ids : list CacheIdentity).

Definition exec (f : CacheFabric) (o : Op) : CacheFabric * Out :=
  match o with
  | OpInsert e => let '(f', r) := Insert f e in (f', OutErr r)
  | OpLookup q now => let '(f', r) := Lookup f q now in (f', OutLookup r)
  | OpPrefixLookup base hashes now => let '(f', r) := PrefixLookup f base hashes now in (f', OutPrefix r)
  | OpPromote id t => let '(f', r) := Promote f id t in (f', OutErr r)
  | OpDemote id t => let '(f', r) := Demote f id t in (f', OutErr r)
  | OpEvict id => let '(f', r) := Evict f id in (f', OutErr r)
  | OpEvictExpired order now => let '(f', r) := EvictExpired f (order f) now in (f', OutEvicted r)
  end.

Fixpoint outputs (f : CacheFabric) (ops : list Op) : list Out :=
  match ops with
  | [] => []
  | o :: ops => let '(f', r) := exec f o in r :: outputs f' ops
  end.

(** *** The specification *)

Notation spec_cache := (gmap CacheIdentity CacheEntry).

Definition well_formed (id : CacheIdentity) : Prop :=
  Forall (fun s => TrimSpace_empty s = false) [TenantID id; PartitionID id; ModelID id; TokenizerID id; PrefixHash id]
  /\ 0 <= ChunkIndex id.

Definition past (e : CacheEntry) (now : Time) : Prop := ExpiresAt e <> 0 /\ ExpiresAt e <= now.

(** What an entry is good for: its quarantine, corruption and expiry come
    first, then where it is. *)
Inductive judged (e : CacheEntry) (now : Time) : ReuseDisposition -> Prop :=
| judged_quarantined : Lifecycle (Vector e) = LifecycleQuarantined -> judged e now ReuseDeniedQuarantined
| judged_corrupted :
    Lifecycle (Vector e) <> LifecycleQuarantined -> Integrity (Vector e) = IntegrityCorrupted -> judged e now ReuseDeniedCorrupted
| judged_expired :
    Lifecycle (Vector e) <> LifecycleQuarantined -> Integrity (Vector e) <> IntegrityCorrupted -> past e now ->
    judged e now ReuseDeniedExpired
| judged_gone :
    Lifecycle (Vector e) <> LifecycleQuarantined -> Integrity (Vector e) <> IntegrityCorrupted -> ~ past e now ->
    Lifecycle (Vector e) = LifecycleEvicted \/ Residency (Vector e) ∈ [TierEvicted; TierCold] -> judged e now ReuseMiss
| judged_nowhere :
    Lifecycle (Vector e) = LifecycleActive -> Integrity (Vector e) <> IntegrityCorrupted -> ~ past e now ->
    ~ warm (Residency (Vector e)) -> judged e now ReuseMiss
| judged_inactive :
    Lifecycle (Vector e) ∉ [LifecycleQuarantined; LifecycleEvicted; LifecycleActive] -> Integrity (Vector e) <> IntegrityCorrupted ->
    ~ past e now -> Residency (Vector e) <> TierEvicted -> Residency (Vector e) <> TierCold -> judged e now ReuseDeniedNotActive
| judged_hit :
    Lifecycle (Vector e) = LifecycleActive -> Integrity (Vector e) <> IntegrityCorrupted -> ~ past e now ->
    warm (Residency (Vector e)) -> judged e now ReuseHit.

(** The entry after a hit, and in another tier and lifecycle state. *)
Definition touched (e : CacheEntry) (now : Time) : CacheEntry :=
  mkEntry (Identity e) (Vector e) (NodeAffinity e) (Tokens e) (SizeBytes e) (CreatedAt e) now (ExpiresAt e)
    (i64_wrap (AccessCount e + 1)).
Definition moved (e : CacheEntry) (t : ResidencyTier) (l : LifecycleState) : CacheEntry :=
  mkEntry (Identity e)
    (mkVector t l (Transfer (Vector e)) (Affinity (Vector e)) (Isolation (Vector e)) (Integrity (Vector e)))
    (NodeAffinity e) (Tokens e) (SizeBytes e) (CreatedAt e) (LastAccessed e) (ExpiresAt e) (AccessCount e).

Definition nth_chunk (base : CacheIdentity) (i : Z) (h : string) : CacheIdentity :=
  mkIdentity (TenantID base) (PartitionID base) (ModelID base) (AdapterID base) (TokenizerID base) h i.

Definition spec_hit (m : spec_cache) (id : CacheIdentity) (now : Time) (e : CacheEntry) : Prop :=
  well_formed id /\ m !! id = Some e /\ judged e now ReuseHit.

(** The hits for the chunks from number [i] on, up to the first that is none. *)
Inductive prefix_hits (base : CacheIdentity) (now : Time) : spec_cache -> Z -> list string -> spec_cache -> list CacheEntry -> Prop :=
| prefix_end m i : prefix_hits base now m i [] m []
| prefix_stop m i h hs : (forall e, ~ spec_hit m (nth_chunk base i h) now e) -> prefix_hits base now m i (h :: hs) m []
| prefix_hit m i h hs e m' es :
    spec_hit m (nth_chunk base i h) now e ->
    prefix_hits base now (<[nth_chunk base i h := touched e now]> m) (i + 1) hs m' es ->
    prefix_hits base now m i (h :: hs) m' (touched e now :: es).

(** The fastest tier that occurs among the entries. *)
Definition fastest (es : list CacheEntry) : ResidencyTier :=
  default "" (List.find (fun t => bool_decide (t ∈ (fun e => Residency (Vector e)) <$> es)) [TierGPU; TierHostCPU; TierLocalDisk; TierRemote]).

Definition to_evict (m : spec_cache) (now : Time) (id : CacheIdentity) : Prop :=
  exists e, m !! id = Some e /\ past e now /\ Lifecycle (Vector e) <> LifecycleEvicted.

Inductive serves (m : spec_cache) : Op -> spec_cache -> Out -> Prop :=
| serves_insert e : well_formed (Identity e) -> serves m (OpInsert e) (<[Identity e := e]> m) (OutErr None)
| serves_bad_insert e : ~ well_formed (Identity e) -> serves m (OpInsert e) m (OutErr (Some ErrInvalidIdentity))
| serves_hit q now e : spec_hit m q now e -> serves m (OpLookup q now) (<[q := touched e now]> m) (OutLookup (touched e now, ReuseHit, None))
| serves_denied q now e d :
    well_formed q -> m !! q = Some e -> judged e now d -> d <> ReuseHit -> serves m (OpLookup q now) m (OutLookup (e, d, None))
| serves_absent q now : well_formed q -> m !! q = None -> serves m (OpLookup q now) m (OutLookup (zero_entry, ReuseMiss, None))
| serves_bad_lookup q now : ~ well_formed q -> serves m (OpLookup q now) m (OutLookup (zero_entry, ReuseMiss, Some ErrInvalidIdentity))
| serves_prefix base hashes now m' es :
    prefix_hits base now m 0 hashes m' es ->
    serves m (OpPrefixLookup base hashes now) m'
      (OutPrefix (mkMatch (Z.of_nat (length es)) (Z.of_nat (length hashes)) (i64_wrap (zsum Tokens es)) (fastest es) es
         (if bool_decide (es = []) then ReuseMiss else if bool_decide (length es = length hashes) then ReuseHit else ReusePartialHit)))
| serves_promote id t e :
    m !! id = Some e -> Lifecycle (Vector e) = LifecycleActive -> serves m (OpPromote id t) (<[id := moved e t LifecycleActive]> m) (OutErr None)
| serves_inactive id t e :
    m !! id = Some e -> Lifecycle (Vector e) <> LifecycleActive -> serves m (OpPromote id t) m (OutErr (Some ErrInvalidTierTransition))
| serves_demote id t e : m !! id = Some e -> serves m (OpDemote id t) (<[id := moved e t (Lifecycle (Vector e))]> m) (OutErr None)
| serves_evict id e : m !! id = Some e -> serves m (OpEvict id) (<[id := moved e TierEvicted LifecycleEvicted]> m) (OutErr None)
| serves_not_found o id : (o = OpEvict id \/ exists t, o = OpPromote id t \/ o = OpDemote id t) -> m !! id = None ->
    serves m o m (OutErr (Some ErrEntryNotFound))
| serves_expired order now m' ids :
    (forall id e, m !! id = Some e -> to_evict m now id -> m' !! id = Some (moved e TierEvicted LifecycleEvicted)) ->
    (forall id, ~ to_evict m now id -> m' !! id = m !! id) ->
    NoDup ids -> (forall id, id ∈ ids <-> to_evict m now id) -> StronglySorted (fun a b => str_le (URN a) (URN b)) ids ->
    serves m (OpEvictExpired order now) m' (OutEvicted ids).

Inductive spec_run : spec_cache -> list Op -> list Out -> Prop :=
| run_nil m : spec_run m [] []
| run_cons m o m' r ops rs : serves m o m' r -> spec_run m' ops rs -> spec_run m (o :: ops) (r :: rs).

(** *** What the operations of the fabric mean in these terms *)

Lemma Validate_cases id :
  (Validate id = None /\ well_formed id) \/ (Validate id = Some ErrInvalidIdentity /\ ~ well_formed id).
Proof.
  unfold Validate, well_formed. rewrite !Forall_cons, Forall_nil.
  destruct (TrimSpace_empty (TenantID id)), (TrimSpace_empty (PartitionID id)), (TrimSpace_empty (ModelID id)),
    (TrimSpace_empty (TokenizerID id)), (TrimSpace_empty (PrefixHash id)); simpl; try (right; split; [done|naive_solver]).
  case_bool_decide; [right; split; [done|naive_solver lia]|left; split; [done|]; split; [by split_and!|lia]].
Qed.

Lemma past_iff e now : negb (IsZero (ExpiresAt e)) && negb (Before now (ExpiresAt e)) = true <-> past e now.
Proof. unfold past, IsZero, Before, zeroTime. rewrite andb_true_iff, !negb_true_iff, !bool_decide_eq_false. lia. Qed.

Lemma reuse_judged e now : judged e now (EvaluateReuse (Vector e) now (ExpiresAt e)).
Proof.
  unfold EvaluateReuse. case_bool_decide as Hq; [by apply judged_quarantined|].
  case_bool_decide as Hc; [by apply judged_corrupted|].
  destruct (negb (IsZero _) && _) eqn:Hp; [apply past_iff in Hp; by apply judged_expired|].
  assert (~ past e now) as Hn by (rewrite <- past_iff; congruence). clear Hp.
  destruct (bool_decide (Lifecycle _ = LifecycleEvicted) || _ || _) eqn:Hg.
  { rewrite !orb_true_iff, !bool_decide_eq_true in Hg. apply judged_gone; [done..|]. rewrite !elem_of_cons. tauto. }
  rewrite !orb_false_iff, !bool_decide_eq_false in Hg. destruct Hg as [[He Ht] Ht'].
  case_bool_decide as Ha; simpl.
  - destruct (bool_decide (Residency _ = TierGPU) || _ || _ || _) eqn:Hw.
    + rewrite !orb_true_iff, !bool_decide_eq_true in Hw. apply judged_hit; unfold warm; tauto.
    + rewrite !orb_false_iff, !bool_decide_eq_false in Hw. apply judged_nowhere; unfold warm; tauto.
  - apply judged_inactive; [rewrite !elem_of_cons, elem_of_nil; tauto|done..].
Qed.

Lemma judged_hit_reuse e now : judged e now ReuseHit <-> EvaluateReuse (Vector e) now (ExpiresAt e) = ReuseHit.
Proof.
  split; [|intros E; rewrite <- E; apply reuse_judged]. inversion 1 as [| | | | | |Ha Hc Hn Hw]. unfold EvaluateReuse.
  rewrite (bool_decide_false (Integrity _ = _)) by done. rewrite <- past_iff, not_true_iff_false in Hn. rewrite Hn, Ha.
  destruct Hw as [->|[->|[->| ->]]]; reflexivity.
Qed.

Lemma expired_iff now e : expired now e = true <-> past e now /\ Lifecycle (Vector e) <> LifecycleEvicted.
Proof. unfold expired. by rewrite andb_true_iff, past_iff, negb_true_iff, bool_decide_eq_false. Qed.

(** *** Simulation *)

Section Refinement.

(** The identities in use, on which the digest does not collide. *)
Context (ids : list CacheIdentity).
Hypothesis digest_inj : forall a b, a ∈ ids -> b ∈ ids -> Digest a = Digest b -> a = b.

Definition op_within (o : Op) : Prop :=
  match o with
  | OpInsert e => Identity e ∈ ids
  | OpLookup q _ => q ∈ ids
  | OpPrefixLookup base hashes _ =>
      Z.of_nat (length hashes) < 2 ^ 63 /\ forall i h, hashes !! i = Some h -> nth_chunk base (Z.of_nat i) h ∈ ids
  | OpPromote id _ | OpDemote id _ | OpEvict id => id ∈ ids
  | OpEvictExpired order _ => forall f, order f ≡ₚ keys f
  end.

Record simulates (f : CacheFabric) (m : spec_cache) : Prop := {
  sim_lookup id : id ∈ ids -> f !! Digest id = m !! id;
  sim_back d e : f !! d = Some e -> Identity e ∈ ids /\ d = Digest (Identity e);
  sim_identity id e : m !! id = Some e -> id ∈ ids /\ Identity e = id
}.

Lemma simulates_insert f m id e :
  simulates f m -> id ∈ ids -> Identity e = id -> simulates (<[Digest id := e]> f) (<[id := e]> m).
Proof.
  intros [Hl Hb Hi] Hid He. split.
  - intros id' Hid'. destruct (decide (id' = id)) as [->|Hne]; [by rewrite !lookup_insert_eq|].
    rewrite !lookup_insert_ne; [by apply Hl|done|]. intros E. apply Hne. by apply digest_inj.
  - intros d e'. rewrite lookup_insert_Some. naive_solver.
  - intros id' e'. rewrite lookup_insert_Some. naive_solver.
Qed.

Lemma simulates_evict f m now : simulates f m -> simulates (evict_if now <$> f) (evict_if now <$> m).
Proof.
  intros [Hl Hb Hi]. assert (forall e, Identity (evict_if now e) = Identity e) as E by (intros e; unfold evict_if; by destruct (expired now e)).
  split.
  - intros id Hid. by rewrite !lookup_fmap, Hl.
  - intros d e'. rewrite lookup_fmap, fmap_Some. intros (e & He & ->). rewrite E. eauto.
  - intros id e'. rewrite lookup_fmap, fmap_Some. intros (e & He & ->). rewrite E. eauto.
Qed.

Lemma lookup_simulates f m q now : simulates f m -> q ∈ ids ->
  exists m', serves m (OpLookup q now) m' (OutLookup (Lookup f q now).2) /\ simulates (Lookup f q now).1 m'.
Proof.
  intros Hsim Hq. unfold Lookup. destruct (Validate_cases q) as [[-> Hw]|[-> Hw]]; [|exists m; split; [by constructor|done]].
  rewrite (sim_lookup _ _ Hsim) by done. destruct (m !! q) as [e|] eqn:Hm; simpl; [|exists m; split; [by constructor|done]].
  destruct (sim_identity _ _ Hsim _ _ Hm) as [_ Hid].
  rewrite (bool_decide_true (CheckCompatibility _ _ = _)) by (by apply compat_hit). simpl. case_bool_decide as He; simpl.
  - rewrite He. exists (<[q := touched e now]> m). split; [|by apply simulates_insert]. apply (serves_hit m q now e). by rewrite <- judged_hit_reuse in He.
  - exists m. split; [|done]. apply serves_denied; [done..|apply reuse_judged|done].
Qed.

(** A lookup is a hit exactly when the specification has one. *)
Lemma lookup_hit_iff f m q now : simulates f m -> q ∈ ids ->
  match (Lookup f q now).2 with
  | (e', ReuseHit, None) => exists e, spec_hit m q now e /\ e' = touched e now /\ (Lookup f q now).1 = <[Digest q := touched e now]> f
  | _ => (Lookup f q now).1 = f /\ forall e, ~ spec_hit m q now e
  end.
Proof.
  intros Hsim Hq. unfold Lookup, spec_hit. destruct (Validate_cases q) as [[-> Hw]|[-> Hw]]; [|simpl; split; [done|tauto]].
  rewrite (sim_lookup _ _ Hsim) by done. destruct (m !! q) as [e|] eqn:Hm; simpl; [|split; [done|naive_solver]].
  destruct (sim_identity _ _ Hsim _ _ Hm) as [_ Hid].
  rewrite (bool_decide_true (CheckCompatibility _ _ = _)) by (by apply compat_hit). simpl. case_bool_decide as He; simpl.
  - rewrite He. exists e. rewrite judged_hit_reuse. done.
  - destruct (EvaluateReuse (Vector e) now (ExpiresAt e)) eqn:E; try done; (split; [done|]); intros e' (_ & [= <-] & H%judged_hit_reuse); congruence.
Qed.

Lemma prefix_loop_simulates base now hs : forall f m i n tk res,
  simulates f m -> (forall k h, hs !! k = Some h -> nth_chunk base (i + Z.of_nat k) h ∈ ids) ->
  MatchedChunks res = Z.of_nat n -> Z.of_nat (n + length hs) < 2 ^ 63 -> MatchedTokens res = i64_wrap tk ->
  exists m' es f', prefix_hits base now m i hs m' es /\ simulates f' m'
    /\ prefix_loop f base i hs now res
       = (f', mkMatch (Z.of_nat (n + length es)) (TotalRequestedChunks res) (i64_wrap (tk + zsum Tokens es))
               (foldl selectBestTier (BestTier res) ((fun e => Residency (Vector e)) <$> es)) (Entries res ++ es) (Disposition res)).
Proof.
  induction hs as [|h hs IH]; intros f m i n tk res Hsim Hids Hn Hlen Htk.
  { exists m, [], f. split; [constructor|]. split; [done|]. simpl. rewrite app_nil_r, Nat.add_0_r, Z.add_0_r, <- Hn, <- Htk. by destruct res. }
  assert (nth_chunk base i h ∈ ids) as Hq by (rewrite <- (Z.add_0_r i); by apply (Hids 0%nat)).
  pose proof (lookup_hit_iff f m (nth_chunk base i h) now Hsim Hq) as Hhit. cbn [prefix_loop]. change (chunk_identity base i h) with (nth_chunk base i h).
  assert (forall f1 e1 d1 err1, Lookup f (nth_chunk base i h) now = (f1, (e1, d1, err1)) -> (d1 <> ReuseHit \/ err1 <> None) ->
    exists m' es f', prefix_hits base now m i (h :: hs) m' es /\ simulates f' m'
      /\ (f1, res) = (f', mkMatch (Z.of_nat (n + length es)) (TotalRequestedChunks res) (i64_wrap (tk + zsum Tokens es))
               (foldl selectBestTier (BestTier res) ((fun e => Residency (Vector e)) <$> es)) (Entries res ++ es) (Disposition res))) as Hstop.
  { intros f1 e1 d1 err1 E Hd. rewrite E in Hhit. simpl in Hhit.
    assert (f1 = f /\ forall e, ~ spec_hit m (nth_chunk base i h) now e) as [-> Hno] by (destruct d1, err1; try exact Hhit; by destruct Hd).
    exists m, [], f. split; [by constructor|]. split; [done|]. simpl. rewrite app_nil_r, Nat.add_0_r, Z.add_0_r, <- Hn, <- Htk. by destruct res. }
  destruct (Lookup f (nth_chunk base i h) now) as [f1 [[e1 d1] err1]] eqn:E.
  destruct (decide (d1 = ReuseHit)) as [->|Hd]; [destruct err1 as [err1|]|].
  - simpl. eapply Hstop; [done|by right].
  - simpl in Hhit |- *. destruct Hhit as (e & He & -> & ->).
    destruct (IH (<[Digest (nth_chunk base i h) := touched e now]> f) (<[nth_chunk base i h := touched e now]> m) (i + 1) (S n) (tk + Tokens e)
      (mkMatch (i64_wrap (MatchedChunks res + 1)) (TotalRequestedChunks res) (i64_wrap (MatchedTokens res + Tokens e))
         (selectBestTier (BestTier res) (Residency (Vector e))) (Entries res ++ [touched e now]) (Disposition res)))
      as (m' & es & f' & Hp & Hs' & Heq); simpl in *.
    + destruct He as (_ & Hm & _). apply simulates_insert; [done..|]. by apply (sim_identity _ _ Hsim) in Hm as [_ ?].
    + intros k h' Hk. replace (i + 1 + Z.of_nat k) with (i + Z.of_nat (S k)) by lia. by apply (Hids (S k)).
    + rewrite Hn, i64_wrap_small; unfold i64_range; lia.
    + lia.
    + by rewrite Htk, i64_wrap_add_l.
    + exists m', (touched e now :: es), f'. split; [by econstructor|]. split; [done|]. etransitivity; [exact Heq|]. f_equal. simpl. f_equal; [f_equal; lia|f_equal; lia|by rewrite <- app_assoc].
  - rewrite (bool_decide_false (d1 = ReuseHit)) by done. rewrite orb_true_r. eapply Hstop; [done|by left].
Qed.

Lemma NoDup_omap_inj {A B} (g : A -> option B) l : (forall x y b, g x = Some b -> g y = Some b -> x = y) -> NoDup l -> NoDup (omap g l).
Proof.
  intros Hg. induction 1 as [|a l Ha _ IH]; simpl; [constructor|]. destruct (g a) as [b|] eqn:E; [|done]. constructor; [|done].
  intros (x & Hx & Ex)%list_elem_of_omap. apply Ha. by rewrite (Hg a x b).
Qed.

Lemma expired_simulates f m order now : simulates f m -> order ≡ₚ keys f ->
  exists m', serves m (OpEvictExpired (fun _ => order) now) m' (OutEvicted (EvictExpired f order now).2) /\ simulates (EvictExpired f order now).1 m'.
Proof.
  intros Hsim Hord. destruct (EvictExpired f order now) as [f' evicted] eqn:E.
  destruct (evict_expired_complete f order now f' evicted Hord E) as (-> & Hperm & Hsort & _).
  assert (forall id, id ∈ evicted <-> to_evict m now id) as Hin.
  { intros id. rewrite Hperm, list_elem_of_omap. split.
    - intros (d & _ & Hd). unfold expired_id in Hd. destruct (f !! d) as [e|] eqn:He; [|done]. simpl in Hd. destruct (expired now e) eqn:Hx; [|done].
      injection Hd as <-. destruct (sim_back _ _ Hsim _ _ He) as [Hi ->]. exists e. rewrite <- (sim_lookup _ _ Hsim), He by done.
      by apply expired_iff in Hx.
    - intros (e & He & Hx%expired_iff). destruct (sim_identity _ _ Hsim _ _ He) as [Hi Hid]. exists (Digest id).
      rewrite <- (sim_lookup _ _ Hsim) in He by done. unfold expired_id. rewrite He. simpl. rewrite Hx, Hid.
      split; [|done]. apply (keys_order f (keys f)); [done|by exists e]. }
  exists (evict_if now <$> m). split; [|by apply simulates_evict]. apply serves_expired; simpl.
  - intros id e He (e' & He' & Hx%expired_iff). rewrite He in He'. injection He' as <-. rewrite lookup_fmap, He. simpl. unfold evict_if. by rewrite Hx.
  - intros id Hno. rewrite lookup_fmap. destruct (m !! id) as [e|] eqn:He; [|done]. simpl. unfold evict_if. destruct (expired now e) eqn:Hx; [|done].
    exfalso. apply Hno. exists e. split; [done|]. by apply expired_iff.
  - rewrite Hperm. apply NoDup_omap_inj; [|apply NoDup_fst_map_to_list]. intros d1 d2 id H1 H2.
    unfold expired_id in H1, H2. destruct (f !! d1) as [e1|] eqn:E1, (f !! d2) as [e2|] eqn:E2; try done. simpl in *.
    destruct (expired now e1), (expired now e2); try done. simplify_eq.
    apply (sim_back _ _ Hsim) in E1 as [_ ->], E2 as [_ ->]. congruence.
  - done.
  - exact Hsort.
Qed.

Lemma fastest_best es : Forall (fun e => warm (Residency (Vector e))) es ->
  foldl selectBestTier "" ((fun e => Residency (Vector e)) <$> es) = fastest es.
Proof.
  intros Hw. unfold fastest. set (ts := (fun e => Residency (Vector e)) <$> es). assert (Forall warm ts) as Hts by (by apply Forall_fmap). clearbody ts. clear Hw es.
  assert (forall c, c = "" \/ warm c -> foldl selectBestTier c ts
    = default "" (List.find (fun t => bool_decide (t ∈ c :: ts)) [TierGPU; TierHostCPU; TierLocalDisk; TierRemote])) as H.
  { induction Hts as [|t ts Ht Hts IH]; intros c Hc; simpl.
    - rewrite !(bool_decide_ext (_ ∈ [c]) (c = _)) by (rewrite list_elem_of_singleton; done). destruct Hc as [->|[->|[->|[->| ->]]]]; reflexivity.
    - rewrite IH.
      + assert (forall x l, bool_decide (x ∈ c :: t :: l) = (bool_decide (x = c) || (bool_decide (x = t) || bool_decide (x ∈ l)))) as E2.
        { intros x l. rewrite <- !bool_decide_or. apply bool_decide_ext. set_solver. }
        assert (forall (x y : string) l, bool_decide (x ∈ y :: l) = (bool_decide (x = y) || bool_decide (x ∈ l))) as E1.
        { intros x y l. rewrite <- bool_decide_or. apply bool_decide_ext. set_solver. }
        simpl. rewrite !E2, !E1. destruct (bool_decide (TierGPU ∈ ts)), (bool_decide (TierHostCPU ∈ ts)), (bool_decide (TierLocalDisk ∈ ts)), (bool_decide (TierRemote ∈ ts));
        destruct Hc as [->|[->|[->|[->| ->]]]], Ht as [->|[->|[->| ->]]]; reflexivity.
      + unfold selectBestTier. destruct (bool_decide _); [by right|done]. }
  rewrite H by (by left). f_equal. assert (forall x, x <> "" -> bool_decide (x ∈ "" :: ts) = bool_decide (x ∈ ts)) as E.
  { intros x Hx. apply bool_decide_ext. rewrite elem_of_cons. tauto. }
  simpl. by rewrite !E.
Qed.

Lemma prefix_hits_warm base now m i hs m' es : prefix_hits base now m i hs m' es -> Forall (fun e => warm (Residency (Vector e))) es.
Proof. induction 1 as [|?|? ? ? ? ? ? ? (_ & _ & Hj) _ IH]; constructor; [by inversion Hj|done]. Qed.

Lemma prefix_hits_length base now m i hs m' es : prefix_hits base now m i hs m' es -> (length es <= length hs)%nat.
Proof. induction 1; simpl; lia. Qed.

Lemma prefix_simulates f m base hs now : simulates f m -> op_within (OpPrefixLookup base hs now) ->
  exists m', serves m (OpPrefixLookup base hs now) m' (OutPrefix (PrefixLookup f base hs now).2) /\ simulates (PrefixLookup f base hs now).1 m'.
Proof.
  intros Hsim [Hlen Hids]. unfold PrefixLookup.
  destruct (prefix_loop_simulates base now hs f m 0 0 0 (mkMatch 0 (Z.of_nat (length hs)) 0 "" [] ReuseMiss)) as (m' & es & f' & Hp & Hs & ->);
    [done|intros k h Hk; by apply Hids|done|simpl; lia|done|].
  simpl. exists m'. split; [|done]. rewrite fastest_best by (by eapply prefix_hits_warm). pose proof (prefix_hits_length _ _ _ _ _ _ _ Hp).
  match goal with |- serves _ _ _ (OutPrefix (mkMatch _ _ _ _ _ ?d)) => replace d with
    (if bool_decide (es = []) then ReuseMiss else if bool_decide (length es = length hs) then ReuseHit else ReusePartialHit) end.
  - by apply serves_prefix.
  - destruct es as [|e es]; simpl in *; repeat (case_bool_decide; simpl); done || lia.
Qed.

Lemma exec_simulates f m o : simulates f m -> op_within o ->
  exists m', serves m o m' (exec f o).2 /\ simulates (exec f o).1 m'.
Proof.
  intros Hsim Hin. pose proof (sim_identity _ _ Hsim) as Hi.
  destruct o as [e|q now|base hs now|id t|id t|id|order now]; cbn [op_within] in Hin; cbn [exec].
  - unfold Insert. destruct (Validate_cases (Identity e)) as [[-> Hw]|[-> Hw]]; eexists; (split; [by constructor|]); [by apply simulates_insert|done].
  - destruct (lookup_simulates f m q now Hsim Hin) as (m' & H1 & H2). destruct (Lookup f q now). by exists m'.
  - destruct (prefix_simulates f m base hs now Hsim Hin) as (m' & H1 & H2). destruct (PrefixLookup f base hs now). by exists m'.
  - unfold Promote. rewrite (sim_lookup _ _ Hsim) by done. destruct (m !! id) as [e|] eqn:Hm; [|exists m; split; [eapply serves_not_found; eauto|done]].
    case_bool_decide as Ha; simpl.
    + exists (<[id := moved e t LifecycleActive]> m). split; [by apply serves_promote|]. unfold with_vector, with_residency. rewrite Ha.
      apply simulates_insert; [done..|]. by apply Hi in Hm as [_ ?].
    + exists m. split; [by eapply serves_inactive|done].
  - unfold Demote. rewrite (sim_lookup _ _ Hsim) by done. destruct (m !! id) as [e|] eqn:Hm; [|exists m; split; [eapply serves_not_found; eauto|done]].
    simpl. eexists. split; [by apply serves_demote|]. apply simulates_insert; [done..|]. by apply Hi in Hm as [_ ?].
  - unfold Evict. rewrite (sim_lookup _ _ Hsim) by done. destruct (m !! id) as [e|] eqn:Hm; [|exists m; split; [eapply serves_not_found; eauto|done]].
    simpl. eexists. split; [by apply serves_evict|]. apply simulates_insert; [done..|]. by apply Hi in Hm as [_ ?].
  - destruct (expired_simulates f m (order f) now Hsim (Hin f)) as (m' & H1 & H2). destruct (EvictExpired f (order f) now). exists m'. split; [|done].
    inversion H1; subst; (by apply serves_expired) || naive_solver.
Qed.

Lemma outputs_simulate ops f m : simulates f m -> Forall op_within ops -> spec_run m ops (outputs f ops).
Proof.
  revert f m. induction ops as [|o ops IH]; intros f m Hsim Hops; simpl; [constructor|].
  apply Forall_cons in Hops as [Ho Hops]. destruct (exec_simulates f m o Hsim Ho) as (m' & Hs & Hnext).
  destruct (exec f o) as [f' r]. econstructor; [exact Hs|]. by apply IH.
Qed.

End Refinement.

(** C11. The fabric refines a cache that is indexed by the identities
    themselves.  Whatever the calls are (inserts, lookups, prefix lookups,
    promotions, demotions and evictions), on a new fabric they return what the
    specification [serves] allows, state by state; or else two of the
    identities in use give a collision of SHA-256.  The identities have no zero
    byte and a chunk number from 0 on (see [ambiguous_digest] for the others),
    and fewer than 2^63 chunks are asked for at once. *)
Theorem fabric_refines_identity_cache ids ops
    (Hids : Forall (fun id => nul_free_id id = true) ids)
    (Hops : Forall (op_within ids) ops) :
  spec_run ∅ ops (outputs NewCacheFabric ops)
  \/ exists a b, a ∈ ids /\ b ∈ ids /\ collision (nul_terminated (digest_parts a)) (nul_terminated (digest_parts b)).
Proof.
  destruct (decide (Forall (fun a => Forall (fun b => Digest a = Digest b -> a = b) ids) ids)) as [Hinj|Hno].
  - left. rewrite Forall_forall in Hinj. setoid_rewrite Forall_forall in Hinj.
    apply (outputs_simulate ids (fun a b Ha Hb => Hinj a Ha b Hb)); [|done]. split; [done|..]; intros ? ? [=].
  - right. apply not_Forall_Exists, Exists_exists in Hno as (a & Ha & Hno); [|apply _].
    apply not_Forall_Exists, Exists_exists in Hno as (b & Hb & Hno); [|apply _].
    exists a, b. split; [done|]. split; [done|]. rewrite Forall_forall in Hids.
    destruct (decide (Digest a = Digest b)) as [E|E]; [|by destruct Hno].
    destruct (digest_identifies a b (Hids _ Ha) (Hids _ Hb) E) as [->|H]; [by destruct Hno|done].
Qed.

Definition k_ids : list CacheIdentity := [k_id; chunk_identity k_id 1 "h1"].
Definition k_ops : list Op :=
  [OpInsert (k_entry k_id); OpLookup k_id 5; OpInsert (k_entry (chunk_identity k_id 1 "h1")); OpPrefixLookup k_id ["h0"; "h1"] 6;
   OpPromote k_id TierHostCPU; OpEvictExpired keys 200; OpLookup k_id 300].

Lemma fabric_refines_identity_cache_witness : spec_run ∅ k_ops (outputs NewCacheFabric k_ops).
Proof.
  destruct (fabric_refines_identity_cache k_ids k_ops) as [H|(a & b & Ha & Hb & Hne & Heq)]; [| |exact H|exfalso].
  - apply (bool_decide_unpack _). vm_compute. exact Logic.I.
  - repeat (apply List.Forall_cons; [cbn [op_within]; first
      [ intros f; reflexivity | by apply elem_of_cons; left | by apply elem_of_cons; right; apply list_elem_of_singleton
      | split; [simpl; lia|]; intros [|[|i]] h [= <-]; [by apply elem_of_cons; left|by apply elem_of_cons; right; apply list_elem_of_singleton] ]|]).
    constructor.
  - assert (sha256_hex (nul_terminated (digest_parts k_id)) <> sha256_hex (nul_terminated (digest_parts (chunk_identity k_id 1 "h1")))) as Hd
      by (intros H; vm_compute in H; discriminate H).
    unfold k_ids in Ha, Hb. apply elem_of_cons in Ha as [Ha|Ha], Hb as [Hb|Hb];
      try rewrite list_elem_of_singleton in Ha; try rewrite list_elem_of_singleton in Hb; rewrite Ha, Hb in Hne, Heq;
      [exact (Hne eq_refl)|exact (Hd Heq)|exact (Hd (eq_sym Heq))|exact (Hne eq_refl)].
Defined.

(** ** Prefix lookups *)

Definition is_hit (f : CacheFabric) (id : CacheIdentity) (now : Time) : Prop :=
  snd (fst (snd (Lookup f id now))) = ReuseHit.

Lemma Lookup_no_error f q now f' e err : Lookup f q now = (f', (e, ReuseHit, err)) -> err = None.
Proof. unfold Lookup. intros H. by go_heads. Qed.

Lemma Lookup_miss_state f q now f' e d err :
  Lookup f q now = (f', (e, d, err)) -> d <> ReuseHit -> f' = f.
Proof. unfold Lookup. intros H Hd. go_heads; done. Qed.

Lemma Lookup_hit_identity f q now f' e err :
  Lookup f q now = (f', (e, ReuseHit, err)) ->
  Identity e = q /\ EvaluateReuse (Vector e) now (ExpiresAt e) = ReuseHit.
Proof.
  unfold Lookup. intros H. go_heads; try done; simpl.
  split; [by apply compat_hit|done].
Qed.

Lemma selectBestTier_rank c n :
  tier_rank (selectBestTier c n) = Z.max (tier_rank c) (tier_rank n).
Proof. unfold selectBestTier. case_bool_decide; lia. Qed.

(** The result so far: [n] chunks matched, with their entries in order. *)
Record prefix_inv (base : CacheIdentity) (all : list string) (now : Time) (n : nat)
    (res : PrefixMatchResult) : Prop := {
  pi_chunks : MatchedChunks res = Z.of_nat n;
  pi_total : TotalRequestedChunks res = Z.of_nat (length all);
  pi_length : length (Entries res) = n;
  pi_entries i e : Entries res !! i = Some e ->
    exists h, all !! i = Some h /\ Identity e = chunk_identity base (Z.of_nat i) h
      /\ EvaluateReuse (Vector e) now (ExpiresAt e) = ReuseHit;
  pi_tokens : MatchedTokens res = i64_wrap (zsum Tokens (Entries res));
  pi_tier e : e ∈ Entries res -> tier_rank (Residency (Vector e)) <= tier_rank (BestTier res);
  pi_disp : Disposition res = ReuseMiss
}.

Lemma prefix_inv_step base all now n res e h :
  Z.of_nat (length all) < 2 ^ 63 -> prefix_inv base all now n res -> all !! n = Some h ->
  Identity e = chunk_identity base (Z.of_nat n) h ->
  EvaluateReuse (Vector e) now (ExpiresAt e) = ReuseHit ->
  prefix_inv base all now (S n)
    (mkMatch (i64_wrap (MatchedChunks res + 1)) (TotalRequestedChunks res)
       (i64_wrap (MatchedTokens res + Tokens e))
       (selectBestTier (BestTier res) (Residency (Vector e)))
       (Entries res ++ [e]) (Disposition res)).
Proof.
  intros Hlen [Hc Ht Hl He Htk Htr Hd] Hh Hid Hev. apply lookup_lt_Some in Hh as Hlt.
  constructor; simpl; try done.
  - rewrite Hc, i64_wrap_small; unfold i64_range; lia.
  - rewrite length_app, Hl. simpl. lia.
  - intros i e'. rewrite lookup_app_Some, Hl. intros [H|[Hi H]]; [by apply He|].
    apply list_lookup_singleton_Some in H as [Hz <-]. assert (i = n) as -> by lia. by exists h.
  - rewrite Htk, i64_wrap_add_l, zsum_app. simpl. f_equal. lia.
  - intros e'. rewrite elem_of_app, list_elem_of_singleton, selectBestTier_rank.
    intros [H| ->]; [specialize (Htr _ H)|]; lia.
Qed.

(** From [n] matched chunks the loop matches [k] more and stops at the end or
    at a chunk that is not a hit in the final fabric. *)
Lemma prefix_loop_inv all now base rest : forall n f res f' res',
  Z.of_nat (length all) < 2 ^ 63 -> rest = drop n all -> prefix_inv base all now n res ->
  prefix_loop f base (Z.of_nat n) rest now res = (f', res') ->
  exists k, prefix_inv base all now k res'
    /\ forall h, all !! k = Some h -> ~ is_hit f' (chunk_identity base (Z.of_nat k) h) now.
Proof.
  induction rest as [|h rest IH]; intros n f res f' res' Hlen Hrest Hinv H.
  - simpl in H. simplify_eq. exists n. split; [done|]. intros h Hh.
    apply (f_equal length) in Hrest. rewrite length_drop in Hrest. simpl in Hrest.
    apply lookup_lt_Some in Hh. lia.
  - assert (all !! n = Some h) as Hh.
    { rewrite <- (Nat.add_0_r n), <- lookup_drop, <- Hrest. done. }
    cbn [prefix_loop] in H.
    destruct (Lookup f (chunk_identity base (Z.of_nat n) h) now) as [f1 [[e d] err]] eqn:E.
    destruct (decide (d = ReuseHit)) as [->|Hne].
    + rewrite (Lookup_no_error _ _ _ _ _ _ E) in H. simpl in H.
      apply Lookup_hit_identity in E as [Hid Hev].
      replace (Z.of_nat n + 1) with (Z.of_nat (S n)) in H by lia.
      eapply IH; [done| |by eapply prefix_inv_step|exact H].
      rewrite (drop_S _ _ _ Hh) in Hrest. by injection Hrest.
    + rewrite (bool_decide_false (d = ReuseHit)) in H by done. simpl in H.
      rewrite orb_true_r in H. simplify_eq. exists n. split; [done|].
      intros h' Hh'. simplify_eq. unfold is_hit.
      rewrite (Lookup_miss_state _ _ _ _ _ _ _ E Hne), E. done.
Qed.

(** Prefix lookup: the matched chunks are the longest prefix of hits:
    entry [i] is a hit for chunk [i] of exactly the requested identity, the
    first unmatched chunk is no hit; the tokens are the sum over the
    entries, no entry is in a better tier than the reported one, and the
    disposition is hit, partial hit or miss as all, some or no chunks (of a
    non-empty request) matched. *)
Theorem prefix_lookup_longest_prefix f base hashes now f' res
    (Hlen : Z.of_nat (length hashes) < 2 ^ 63)
    (Hrun : PrefixLookup f base hashes now = (f', res)) :
  exists k, length (Entries res) = k /\ MatchedChunks res = Z.of_nat k
    /\ (forall i e, Entries res !! i = Some e ->
          exists h, hashes !! i = Some h /\ Identity e = chunk_identity base (Z.of_nat i) h
            /\ EvaluateReuse (Vector e) now (ExpiresAt e) = ReuseHit)
    /\ (forall h, hashes !! k = Some h -> ~ is_hit f' (chunk_identity base (Z.of_nat k) h) now)
    /\ MatchedTokens res = i64_wrap (zsum Tokens (Entries res))
    /\ (forall e, e ∈ Entries res -> tier_rank (Residency (Vector e)) <= tier_rank (BestTier res))
    /\ Disposition res = (if (0 <? Z.of_nat k) && (Z.of_nat k ==? Z.of_nat (length hashes))
                          then ReuseHit else if 0 <? Z.of_nat k then ReusePartialHit else ReuseMiss).
Proof.
  unfold PrefixLookup in Hrun.
  destruct (prefix_loop f base 0 hashes now _) as [f1 r1] eqn:E.
  apply (prefix_loop_inv hashes now base hashes 0) in E as (k & [Hc Ht Hl He Htk Htr Hd] & Hstop);
    [|done|by rewrite drop_0|].
  2: { constructor; simpl; try done. intros e H. by apply elem_of_nil in H. }
  injection Hrun as <- <-. exists k. simpl. split_and!; try done.
  rewrite Hc, Ht, Hd. repeat case_bool_decide; simpl; try done; lia.
Qed.

Lemma prefix_lookup_longest_prefix_witness :
  MatchedChunks (snd (PrefixLookup k_stale k_id ["h0"; "h1"; "h2"] 5))
  = Z.of_nat (length (Entries (snd (PrefixLookup k_stale k_id ["h0"; "h1"; "h2"] 5)))).
Proof.
  destruct (PrefixLookup k_stale k_id ["h0"; "h1"; "h2"] 5) as [f' res] eqn:E.
  destruct (prefix_lookup_longest_prefix k_stale k_id ["h0"; "h1"; "h2"] 5 f' res)
    as (k & Hl & Hc & _); [reflexivity|exact E|].
  simpl. rewrite Hc, Hl. reflexivity.
Defined.

(** ** The transfer phase machine *)

Inductive contract_step (t : TransferContract) : TransferContract -> Prop :=
| cs_initiate now : contract_step t (fst (Initiate t now))
| cs_in_flight now : contract_step t (fst (MarkInFlight t now))
| cs_complete now checksum : contract_step t (fst (Complete t now checksum))
| cs_fail now reason : contract_step t (Fail t now reason).

(** The order of the phases; cancelled is never entered. *)
Definition phase_rank (p : TransferPhase) : option Z :=
  if p ==? TransferPhaseIdle then Some 0
  else if p ==? TransferPhaseInitiated then Some 1
  else if p ==? TransferPhaseInFlight then Some 2
  else if p ==? TransferPhaseCompleted then Some 3
  else if p ==? TransferPhaseFailed then Some 4
  else None.

(** A step advances by one phase, stays, or fails; a failed contract stays
    failed. *)
Definition phase_advance (p q : TransferPhase) : Prop :=
  q = p \/ q = TransferPhaseFailed
  \/ (exists n, phase_rank p = Some n /\ phase_rank q = Some (n + 1) /\ n < 3).

Lemma contract_step_advance t t' : contract_step t t' -> phase_advance (Phase t) (Phase t').
Proof.
  intros [now|now|now c|now r]; unfold phase_advance, Initiate, MarkInFlight, Complete.
  - case_bool_decide as H; simpl; [|by left]. rewrite H. right; right. by exists 0.
  - destruct (past_deadline t now); simpl; [by right; left|].
    case_bool_decide as H; simpl; [|by left]. rewrite H. right; right. by exists 1.
  - destruct (past_deadline t now); simpl; [by right; left|].
    case_bool_decide as H; simpl; [|by left]. destruct (TrimSpace_empty c); [by right; left|].
    rewrite H. right; right. by exists 2.
  - by right; left.
Qed.

Record contract_inv (t : TransferContract) : Prop := {
  ci_identity : Validate (CIdentity t) = None;
  ci_nodes : SourceNode t <> TargetNode t;
  ci_completed : Phase t = TransferPhaseCompleted ->
    TrimSpace_empty (PayloadChecksum t) = false
    /\ (Deadline t = 0 \/ CompletedAt t < Deadline t)
}.

Lemma contract_step_inv t t' : contract_inv t -> contract_step t t' -> contract_inv t'.
Proof.
  intros [Hi Hn Hc] [now|now|now c|now r]; unfold Initiate, MarkInFlight, Complete.
  - case_bool_decide; by constructor.
  - destruct (past_deadline t now); [by constructor|]. case_bool_decide; by constructor.
  - destruct (past_deadline t now) eqn:Hp; [by constructor|].
    case_bool_decide; simpl; [|by constructor].
    destruct (TrimSpace_empty c) eqn:Hb; constructor; simpl; try done.
    intros _. split; [done|]. unfold past_deadline, IsZero, zeroTime, Before in Hp.
    destruct (bool_decide_reflect (Deadline t = 0)); [by left|].
    destruct (bool_decide_reflect (now < Deadline t)); [by right|]. simpl in Hp. discriminate Hp.
  - by constructor.
Qed.

Lemma failed_absorbing t t' :
  rtc contract_step t t' -> Phase t = TransferPhaseFailed -> Phase t' = TransferPhaseFailed.
Proof.
  induction 1 as [|t t1 t' Hstep _ IH]; [done|]. intros Hf. apply IH.
  destruct (contract_step_advance _ _ Hstep) as [->|[->|(n & Hn & _ & Hlt)]]; [done..|].
  rewrite Hf in Hn. vm_compute in Hn. simplify_eq. lia.
Qed.

(** C12. Transfers: along any sequence of calls on a new contract the phase
    advances one phase at a time through idle, initiated, in flight and
    completed, or fails; failure is final; a completed contract has a
    checksum that is not blank and was completed before its deadline. *)
Theorem transfer_contract_machine id idn src dst conn role tokens bytes deadline t0 t t'
    (Hnew : NewTransferContract id idn src dst conn role tokens bytes deadline = inl t0)
    (Hreach : rtc contract_step t0 t) (Hlater : rtc contract_step t t') :
  contract_inv t
  /\ (forall t1, contract_step t t1 -> phase_advance (Phase t) (Phase t1))
  /\ (Phase t = TransferPhaseFailed -> Phase t' = TransferPhaseFailed).
Proof.
  assert (contract_inv t0) as H0.
  { unfold NewTransferContract in Hnew. destruct (Validate idn) eqn:Hv; [done|].
    destruct (_ || _); [done|]. case_bool_decide; simplify_eq. by constructor. }
  split_and!; [|apply contract_step_advance|by apply failed_absorbing].
  clear Hnew Hlater. induction Hreach; eauto using contract_step_inv.
Qed.

Definition k_contract : TransferContract :=
  mkContract "x" k_id "p" "d" "nixl" "kv_both" TransferPhaseIdle 16 64 "" 0 50 0 "".
Definition k_completed : TransferContract :=
  fst (Complete (fst (MarkInFlight (fst (Initiate k_contract 1)) 2)) 3 "sum").

Lemma transfer_contract_machine_witness : contract_inv k_completed.
Proof.
  eapply (transfer_contract_machine "x" k_id "p" "d" "nixl" "kv_both" 16 64 50 k_contract k_completed);
    [reflexivity| |apply rtc_refl].
  eapply rtc_l; [apply (cs_initiate _ 1)|]. eapply rtc_l; [apply (cs_in_flight _ 2)|].
  eapply rtc_l; [apply (cs_complete _ 3 "sum")|]. apply rtc_refl.
Defined.

(** A repeated completion after the deadline turns a completed contract into
    a failed one that still carries its checksum. *)
Example completed_then_failed :
  Phase k_completed = TransferPhaseCompleted
  /\ Phase (fst (Complete k_completed 60 "sum")) = TransferPhaseFailed
  /\ PayloadChecksum (fst (Complete k_completed 60 "sum")) = "sum".
Proof. vm_compute. done. Qed.
