(* ===== verification/Composition.v ===== *)
(** * Governed composition pipelines
    ([internal/kernel/composition/types.go], [pipeline.go])

    Component kinds, stages and the dimensions of a component's state vector
    come from manifests and are open Go strings; the execution status is
    assigned only here.  [Set*] stores the address of a copy of its argument,
    so a slot is an optional component.  A compatibility violation is the
    value the source formats into its message.  The loops that look a score
    up in a map range over it: their order is an argument. *)

From Stdlib Require Import Ascii.
From S2P Require Import Prelude Sha256.

(** ** Data *)

Inductive Err :=
| ErrNilComponent | ErrInvalidKind | ErrMissingIdentity | ErrMissingDigest
| ErrMissingRequiredComponent | ErrCompatibilityViolation | ErrForbiddenVectorTuple
| ErrAdmissionDenied
| ErrExecutionHalted (cause : option Err).

Definition ComponentKind := string.
Definition KindModel : ComponentKind := "Model".
Definition KindTokenizer : ComponentKind := "Tokenizer".
Definition KindQuantization : ComponentKind := "Quantization".
Definition KindAdapter : ComponentKind := "Adapter".
Definition KindProjection : ComponentKind := "Projection".
Definition KindFilter : ComponentKind := "Filter".
Definition KindGuard : ComponentKind := "Guard".
Definition KindPlugin : ComponentKind := "Plugin".
Definition KindRuntime : ComponentKind := "Runtime".

Definition ExecutionStage := string.
Definition StageUnspecified : ExecutionStage := "Unspecified".
Definition StagePreExecution : ExecutionStage := "PreExecution".
Definition StageTokenize : ExecutionStage := "Tokenize".
Definition StageInference : ExecutionStage := "Inference".
Definition StagePostExecution : ExecutionStage := "PostExecution".

Definition LifecycleState := string.
Definition LifecycleUnspecified : LifecycleState := "Unspecified".
Definition LifecycleProposed : LifecycleState := "Proposed".
Definition LifecycleActive : LifecycleState := "Active".
Definition LifecycleQuarantined : LifecycleState := "Quarantined".
Definition LifecycleDeprecated : LifecycleState := "Deprecated".
Definition LifecycleRetired : LifecycleState := "Retired".

Definition TrustState := string.
Definition TrustUnspecified : TrustState := "Unspecified".
Definition TrustDenied : TrustState := "Denied".
Definition TrustUnknown : TrustState := "Unknown".
Definition TrustAsserted : TrustState := "Asserted".
Definition TrustVerified : TrustState := "Verified".
Definition TrustTrusted : TrustState := "Trusted".

Definition RiskBand := string.
Definition RiskUnspecified : RiskBand := "Unspecified".
Definition RiskLow : RiskBand := "Low".
Definition RiskNormal : RiskBand := "Normal".
Definition RiskHigh : RiskBand := "High".
Definition RiskCritical : RiskBand := "Critical".

Definition AdmissionDecision := string.
Definition AdmissionUnspecified : AdmissionDecision := "Unspecified".
Definition AdmissionAdmitted : AdmissionDecision := "Admitted".
Definition AdmissionAudit : AdmissionDecision := "Audit".
Definition AdmissionPending : AdmissionDecision := "Pending".
Definition AdmissionDenied : AdmissionDecision := "Denied".

Definition CompatibilityState := string.
Definition CompatibilityUnspecified : CompatibilityState := "Unspecified".
Definition CompatibilityCompatible : CompatibilityState := "Compatible".
Definition CompatibilityDegraded : CompatibilityState := "Degraded".
Definition CompatibilityIncompatible : CompatibilityState := "Incompatible".

Definition IntegrityState := string.
Definition IntegrityUnspecified : IntegrityState := "Unspecified".
Definition IntegrityVerified : IntegrityState := "Verified".
Definition IntegrityUnsigned : IntegrityState := "Unsigned".
Definition IntegrityTampered : IntegrityState := "Tampered".
Definition IntegrityMissing : IntegrityState := "Missing".

Inductive ExecutionStatus := StatusUnspecified | StatusSuccess | StatusHalted | StatusFailed.

Record StateVector := mkVector {
  VLifecycle : LifecycleState;
  VTrust : TrustState;
  VRisk : RiskBand;
  VAdmission : AdmissionDecision;
  VCompatibility : CompatibilityState;
  VIntegrity : IntegrityState
}.

Record Identity := mkIdentity {
  ID : string;
  Name : string;
  Kind : ComponentKind
}.

Record CompatibilitySpec := mkSpec {
  Architecture : string;
  BaseModelDigest : string;
  SupportedRuntimes : list string;
  SupportedFormats : list string;
  InputDimension : Z;     (* int *)
  OutputDimension : Z;    (* int *)
  TargetModules : list string;
  Stage : ExecutionStage
}.

Record Provenance := mkProvenance {
  SourceURI : string;
  Publisher : string;
  SignerIdentity : string;
  SupplyChainLevel : string
}.

Record AdmissionRecord := mkAdmission {
  ADecision : AdmissionDecision;
  PolicyRef : string;
  ReceiptDigest : string;
  EvaluatedAtUnix : Z     (* int64 *)
}.

Record LifecycleRecord := mkLifecycle {
  LState : LifecycleState;
  LPhase : string;
  UpdatedAtUnix : Z       (* int64 *)
}.

Record EvidenceRecord := mkEvidence {
  AttestationURI : string;
  SignatureDigest : string;
  SBOMDigest : string;
  EIntegrity : IntegrityState
}.

Record Component := mkComponent {
  CIdentity : Identity;
  CVersion : string;
  CDigest : string;
  Compatibility : CompatibilitySpec;
  CProvenance : Provenance;
  CAdmission : AdmissionRecord;
  CLifecycle : LifecycleRecord;
  CEvidence : EvidenceRecord;
  CStateVector : StateVector
}.

(** The violations, with the values their messages print. *)
Inductive Violation :=
| TokenizerArchitecture (tokenizer model : string)
| QuantizationBase (base model : string)
| AdapterBase (i : nat) (base model : string)
| AdapterArchitecture (i : nat) (adapter model : string)
| ProjectionBase (i : nat)
| ProjectionDimension (i : nat) (input output : Z)
| FilterStage (i : nat) (stage : ExecutionStage)
| GuardStage (i : nat) (stage : ExecutionStage).

Record ValidationReport := mkReport {
  CompatibilityStatus : CompatibilityState;
  RStateVector : StateVector;
  Violations : list Violation;
  RCompositeDigest : string
}.

Record Payload := mkPayload {
  Data : string;
  Metadata : gmap string string;
  Tokens : list Z;
  Attributes : gmap string string
}.

Record CompositionReceipt := mkReceipt {
  PipelineID : string;
  ReceiptComposite : string;
  Status : ExecutionStatus;
  ReceiptVector : StateVector;
  StageTraces : list string;
  ExecutedAtUnix : Z      (* int64 *)
}.

Record Pipeline := mkPipeline {
  PID : string;
  PName : string;
  PVersion : string;
  Model : option Component;
  Tokenizer : option Component;
  Quantization : option Component;
  Runtime : option Component;
  Adapters : list Component;
  Projections : list Component;
  Filters : list Component;
  Guards : list Component;
  Plugins : list Component;
  CompositeDigest : string;
  PStateVector : StateVector
}.

#[export] Instance StateVector_eq_dec : EqDecision StateVector.
Proof. solve_decision. Defined.

(** ** Building a pipeline *)

Definition NewPipeline (id name version : string) : Pipeline :=
  mkPipeline id name version None None None None [] [] [] [] [] ""
    (mkVector LifecycleProposed TrustUnknown RiskNormal AdmissionPending CompatibilityUnspecified
       IntegrityUnspecified).

(** The slots of a pipeline, for the operations that write one of them. *)
Definition with_slots (p : Pipeline) (m t q r : option Component) : Pipeline :=
  mkPipeline (PID p) (PName p) (PVersion p) m t q r (Adapters p) (Projections p) (Filters p)
    (Guards p) (Plugins p) (CompositeDigest p) (PStateVector p).

Definition with_lists (p : Pipeline) (a pr f g pl : list Component) : Pipeline :=
  mkPipeline (PID p) (PName p) (PVersion p) (Model p) (Tokenizer p) (Quantization p) (Runtime p)
    a pr f g pl (CompositeDigest p) (PStateVector p).

Definition with_result (p : Pipeline) (digest : string) (v : StateVector) : Pipeline :=
  mkPipeline (PID p) (PName p) (PVersion p) (Model p) (Tokenizer p) (Quantization p) (Runtime p)
    (Adapters p) (Projections p) (Filters p) (Guards p) (Plugins p) digest v.

Definition SetModel (p : Pipeline) (c : Component) : Pipeline * option Err :=
  if Kind (CIdentity c) !=? KindModel then (p, Some ErrInvalidKind)
  else (with_slots p (Some c) (Tokenizer p) (Quantization p) (Runtime p), None).

Definition SetTokenizer (p : Pipeline) (c : Component) : Pipeline * option Err :=
  if Kind (CIdentity c) !=? KindTokenizer then (p, Some ErrInvalidKind)
  else (with_slots p (Model p) (Some c) (Quantization p) (Runtime p), None).

Definition SetQuantization (p : Pipeline) (c : Component) : Pipeline * option Err :=
  if Kind (CIdentity c) !=? KindQuantization then (p, Some ErrInvalidKind)
  else (with_slots p (Model p) (Tokenizer p) (Some c) (Runtime p), None).

Definition SetRuntime (p : Pipeline) (c : Component) : Pipeline * option Err :=
  if Kind (CIdentity c) !=? KindRuntime then (p, Some ErrInvalidKind)
  else (with_slots p (Model p) (Tokenizer p) (Quantization p) (Some c), None).

Definition AddAdapter (p : Pipeline) (c : Component) : Pipeline * option Err :=
  if Kind (CIdentity c) !=? KindAdapter then (p, Some ErrInvalidKind)
  else (with_lists p (Adapters p ++ [c]) (Projections p) (Filters p) (Guards p) (Plugins p), None).

Definition AddProjection (p : Pipeline) (c : Component) : Pipeline * option Err :=
  if Kind (CIdentity c) !=? KindProjection then (p, Some ErrInvalidKind)
  else (with_lists p (Adapters p) (Projections p ++ [c]) (Filters p) (Guards p) (Plugins p), None).

Definition AddFilter (p : Pipeline) (c : Component) : Pipeline * option Err :=
  if Kind (CIdentity c) !=? KindFilter then (p, Some ErrInvalidKind)
  else (with_lists p (Adapters p) (Projections p) (Filters p ++ [c]) (Guards p) (Plugins p), None).

Definition AddGuard (p : Pipeline) (c : Component) : Pipeline * option Err :=
  if Kind (CIdentity c) !=? KindGuard then (p, Some ErrInvalidKind)
  else (with_lists p (Adapters p) (Projections p) (Filters p) (Guards p ++ [c]) (Plugins p), None).

Definition AddPlugin (p : Pipeline) (c : Component) : Pipeline * option Err :=
  if Kind (CIdentity c) !=? KindPlugin then (p, Some ErrInvalidKind)
  else (with_lists p (Adapters p) (Projections p) (Filters p) (Guards p) (Plugins p ++ [c]), None).

Definition AllComponents (p : Pipeline) : list Component :=
  option_list (Runtime p) ++ option_list (Model p) ++ option_list (Tokenizer p)
  ++ option_list (Quantization p) ++ Adapters p ++ Projections p ++ Filters p ++ Guards p
  ++ Plugins p.

(** ** Validation *)

Definition validateRequired (p : Pipeline) : option Err :=
  match Model p, Tokenizer p, Runtime p with
  | Some _, Some _, Some _ => None
  | _, _, _ => Some ErrMissingRequiredComponent
  end.

Definition isValidDigest (digest : string) : bool :=
  if HasPrefix digest "sha256:" && Nat.eqb (String.length digest) 71
  then hex_decodes (str_drop 7 digest)
  else match Index digest "@sha256:" with
       | Some idx =>
           if Nat.eqb (String.length (str_drop (idx + 8) digest)) 64
           then hex_decodes (str_drop (idx + 8) digest) else false
       | None => false
       end.

Definition validateComponentIdentityAndDigest (c : Component) : option Err :=
  if (ID (CIdentity c) ==? "") || (Name (CIdentity c) ==? "") || (CVersion c ==? "")
  then Some ErrMissingIdentity
  else if negb (isValidDigest (CDigest c)) then Some ErrMissingDigest
  else if (SourceURI (CProvenance c) ==? "") || (Publisher (CProvenance c) ==? "")
  then Some ErrMissingIdentity
  else None.

(** [if cond { violations = append(violations, v) }]. *)
Definition report_if (cond : bool) (v : Violation) : list Violation := if cond then [v] else [].

Definition checkQuantAndAdapterCompat (p : Pipeline) (model : Component) : list Violation :=
  match Quantization p with
  | Some q =>
      let base := BaseModelDigest (Compatibility q) in
      report_if ((base !=? "") && (base !=? CDigest model)) (QuantizationBase base (CDigest model))
  | None => []
  end
  ++ concat (imap (fun i a =>
       let base := BaseModelDigest (Compatibility a) in
       let arch := Architecture (Compatibility a) in
       let march := Architecture (Compatibility model) in
       report_if ((base !=? "") && (base !=? CDigest model)) (AdapterBase i base (CDigest model))
       ++ report_if ((arch !=? "") && (march !=? "") && (arch !=? march))
            (AdapterArchitecture i arch march)) (Adapters p)).

Definition pre_or_post (s : ExecutionStage) : bool :=
  (s ==? StagePreExecution) || (s ==? StagePostExecution).

Definition checkProjectionsAndStages (p : Pipeline) (model : Component) : list Violation :=
  concat (imap (fun i proj =>
    let base := BaseModelDigest (Compatibility proj) in
    let input := InputDimension (Compatibility proj) in
    let output := OutputDimension (Compatibility model) in
    report_if ((base !=? "") && (base !=? CDigest model)) (ProjectionBase i)
    ++ report_if ((input >? 0) && (output >? 0) && (input !=? output))
         (ProjectionDimension i input output)) (Projections p))
  ++ concat (imap (fun i f =>
       report_if (negb (pre_or_post (Stage (Compatibility f)))) (FilterStage i (Stage (Compatibility f))))
       (Filters p))
  ++ concat (imap (fun i g =>
       report_if (negb (pre_or_post (Stage (Compatibility g)))) (GuardStage i (Stage (Compatibility g))))
       (Guards p)).

(** The violations; [None] is the nil dereference of a missing slot. *)
Definition validateInterComponentCompatibility (p : Pipeline) : option (list Violation) :=
  tokenizer ← Tokenizer p;
  model ← Model p;
  let tarch := Architecture (Compatibility tokenizer) in
  let march := Architecture (Compatibility model) in
  Some (report_if ((tarch !=? "") && (march !=? "") && (tarch !=? march))
          (TokenizerArchitecture tarch march)
        ++ checkQuantAndAdapterCompat p model ++ checkProjectionsAndStages p model).

Definition checkForbiddenTuples (v : StateVector) : option Err :=
  if (VTrust v ==? TrustDenied) || (VAdmission v ==? AdmissionDenied)
  then Some ErrForbiddenVectorTuple
  else if (VLifecycle v ==? LifecycleActive)
          && ((VTrust v ==? TrustDenied) || (VTrust v ==? TrustUnknown))
  then Some ErrForbiddenVectorTuple
  else if ((VLifecycle v ==? LifecycleQuarantined) || (VLifecycle v ==? LifecycleRetired))
          && ((VAdmission v ==? AdmissionAdmitted) || (VTrust v ==? TrustTrusted)
              || (VTrust v ==? TrustVerified))
  then Some ErrForbiddenVectorTuple
  else if ((VRisk v ==? RiskHigh) || (VRisk v ==? RiskCritical))
          && (VIntegrity v !=? IntegrityVerified)
  then Some ErrForbiddenVectorTuple
  else if (VCompatibility v ==? CompatibilityIncompatible) && (VAdmission v ==? AdmissionAdmitted)
  then Some ErrForbiddenVectorTuple
  else None.

(** ** Aggregation *)

(** The score tables, as association lists in source order. *)
Definition trust_scores : list (TrustState * Z) :=
  [(TrustDenied, -1); (TrustUnknown, 0); (TrustAsserted, 1); (TrustVerified, 2); (TrustTrusted, 3)].
Definition risk_order : list (RiskBand * Z) :=
  [(RiskLow, 1); (RiskNormal, 2); (RiskHigh, 3); (RiskCritical, 4)].

(** [m[k]] of a Go map: zero when the key is absent. *)
Fixpoint score_of (table : list (string * Z)) (k : string) : Z :=
  match table with
  | [] => 0
  | (k', s) :: table => if k' ==? k then s else score_of table k
  end.

(** [for k, s := range m { if s == score { return k } }; return dflt]. *)
Fixpoint key_with_score (ord : list (string * Z)) (score : Z) (dflt : string) : string :=
  match ord with
  | [] => dflt
  | (k, s) :: ord => if s ==? score then k else key_with_score ord score dflt
  end.

Definition aggregateTrust (ord : list (TrustState * Z)) (comps : list Component) : TrustState :=
  let minScore :=
    foldl (fun m c => let s := score_of trust_scores (VTrust (CStateVector c)) in
                      if s <? m then s else m)
      (score_of trust_scores TrustTrusted) comps in
  key_with_score ord minScore TrustUnknown.

Definition aggregateRisk (ord : list (RiskBand * Z)) (comps : list Component) : RiskBand :=
  let maxRisk :=
    foldl (fun m c => let r := score_of risk_order (VRisk (CStateVector c)) in
                      if r >? m then r else m) 1 comps in
  key_with_score ord maxRisk RiskNormal.

(** The body of the loop of [aggregateStateVector]. *)
Definition aggregate_step (eff : StateVector) (c : Component) : StateVector :=
  let v := CStateVector c in
  mkVector
    (if VLifecycle v ==? LifecycleQuarantined then LifecycleQuarantined
     else if (VLifecycle v ==? LifecycleProposed) && (VLifecycle eff !=? LifecycleQuarantined)
     then LifecycleProposed else VLifecycle eff)
    (VTrust eff) (VRisk eff)
    (if VAdmission v ==? AdmissionDenied then AdmissionDenied
     else if (VAdmission v ==? AdmissionPending) && (VAdmission eff !=? AdmissionDenied)
     then AdmissionPending else VAdmission eff)
    (VCompatibility eff)
    (if VIntegrity v ==? IntegrityTampered then IntegrityTampered
     else if (VIntegrity v !=? IntegrityVerified) && (VIntegrity eff !=? IntegrityTampered)
     then VIntegrity v else VIntegrity eff).

Definition aggregateStateVector (tord rord : list (string * Z)) (p : Pipeline) (compatible : bool)
    : StateVector :=
  let comps := AllComponents p in
  foldl aggregate_step
    (mkVector LifecycleActive (aggregateTrust tord comps) (aggregateRisk rord comps)
       AdmissionAdmitted
       (if compatible then CompatibilityCompatible else CompatibilityIncompatible)
       IntegrityVerified) comps.

(** ** Digest, validation and execution *)

Definition digest_entry (c : Component) : string :=
  Kind (CIdentity c) +:+ ":" +:+ ID (CIdentity c) +:+ ":" +:+ CVersion c +:+ ":" +:+ CDigest c.

Definition composite_digest (p : Pipeline) : string :=
  "sha256:" +:+ sha256_hex
    (PID p +:+ "|" +:+ PName p +:+ "|" +:+ PVersion p +:+ "|"
     +:+ Join ";" (sort_strings (map digest_entry (AllComponents p)))).
Arguments composite_digest : simpl never.

Definition ComputeCompositeDigest (p : Pipeline) : Pipeline * string :=
  (with_result p (composite_digest p) (PStateVector p), composite_digest p).

(** The loop over the components. *)
Fixpoint validate_components (cs : list Component) : option Err :=
  match cs with
  | [] => None
  | c :: cs =>
      match validateComponentIdentityAndDigest c with
      | Some e => Some e
      | None => match checkForbiddenTuples (CStateVector c) with
                | Some e => Some e
                | None => validate_components cs
                end
      end
  end.

Definition Validate (tord rord : list (string * Z)) (p : Pipeline)
    : option (Pipeline * (option ValidationReport * option Err)) :=
  match validateRequired p with
  | Some e => Some (p, (None, Some e))
  | None =>
      match validate_components (AllComponents p) with
      | Some e => Some (p, (None, Some e))
      | None =>
          violations ← validateInterComponentCompatibility p;
          let compatible := bool_decide (length violations = 0%nat) in
          let vec := aggregateStateVector tord rord p compatible in
          let p := with_result p (CompositeDigest p) vec in
          match checkForbiddenTuples vec with
          | Some e => Some (p, (Some (mkReport (VCompatibility vec) vec violations ""), Some e))
          | None =>
              let '(p, digest) := ComputeCompositeDigest p in
              let report := mkReport (VCompatibility vec) vec violations digest in
              if compatible then Some (p, (Some report, None))
              else Some (p, (Some report, Some ErrCompatibilityViolation))
          end
      end
  end.

(** The first pre-execution guard, if the data is malicious. *)
Fixpoint blocking_guard (gs : list Component) (data : string) : option Component :=
  match gs with
  | [] => None
  | g :: gs =>
      if (Stage (Compatibility g) ==? StagePreExecution) && Contains data "MALICIOUS"
      then Some g else blocking_guard gs data
  end.

Definition Execute (tord rord : list (string * Z)) (now : Z) (p : Pipeline) (input : option Payload)
    : option (Pipeline * (option Payload * option CompositionReceipt * option Err)) :=
  match input with
  | None => Some (p, (None, None, Some (ErrExecutionHalted None)))
  | Some input =>
      '(p, (report, err)) ← Validate tord rord p;
      match err with
      | Some e => Some (p, (None, None, Some (ErrExecutionHalted (Some e))))
      | None =>
          report ← report;
          let admission := VAdmission (RStateVector report) in
          if (admission !=? AdmissionAdmitted) && (admission !=? AdmissionAudit)
          then Some (p, (None, None, Some (ErrExecutionHalted None)))
          else
            let traces := ["preflight:validation_passed"] in
            match blocking_guard (Guards p) (Data input) with
            | Some g =>
                let receipt :=
                  mkReceipt (PID p) (CompositeDigest p) StatusHalted (PStateVector p)
                    (traces ++ ["guard:" +:+ ID (CIdentity g) +:+ ":blocked"]) now in
                Some (p, (None, Some receipt, Some (ErrExecutionHalted None)))
            | None =>
                runtime ← Runtime p;
                let traces :=
                  traces ++ ["stage:pre_execution"; "stage:tokenize";
                             "stage:inference:" +:+ Name (CIdentity runtime); "stage:post_execution"] in
                let out :=
                  mkPayload ("processed:" +:+ Data input)
                    {[ "compositeDigest" := CompositeDigest p; "engine" := Name (CIdentity runtime) ]}
                    []
                    {[ "trust" := VTrust (PStateVector p); "risk" := VRisk (PStateVector p) ]} in
                let receipt :=
                  mkReceipt (PID p) (CompositeDigest p) StatusSuccess (PStateVector p) traces now in
                Some (p, (Some out, Some receipt, None))
            end
      end
  end.

(** ** Aggregated scores *)

(** A lookup by score in a table with distinct scores does not depend on the
    order of the traversal. *)
Lemma key_with_score_in ord score dflt k :
  NoDup ord.*2 -> (k, score) ∈ ord -> key_with_score ord score dflt = k.
Proof.
  induction ord as [|[k' s] ord IH]; simpl; intros Hnd Hin; [by apply elem_of_nil in Hin|].
  apply NoDup_cons in Hnd as [Hs Hnd]. apply elem_of_cons in Hin as [[= -> ->]|Hin].
  - by rewrite bool_decide_true.
  - rewrite bool_decide_false; [auto|]. intros ->. apply Hs, list_elem_of_fmap. by exists (k, score).
Qed.

Lemma key_with_score_perm ord table score dflt k :
  ord ≡ₚ table -> NoDup table.*2 -> (k, score) ∈ table -> key_with_score ord score dflt = k.
Proof. intros Hp Hnd Hin. apply key_with_score_in; by rewrite Hp. Qed.

(** The loops keep the least and the greatest score. *)
Lemma fold_min {A} (f : A -> Z) l m0 :
  let m := foldl (fun m c => if f c <? m then f c else m) m0 l in
  m <= m0 /\ (forall c, c ∈ l -> m <= f c) /\ (m = m0 \/ exists c, c ∈ l /\ m = f c).
Proof.
  revert m0. induction l as [|a l IH]; intros m0; simpl.
  - split_and!; [lia| |by left]. intros c H. by apply elem_of_nil in H.
  - specialize (IH (if f a <? m0 then f a else m0)) as (H1 & H2 & H3).
    split_and!.
    + case_bool_decide; lia.
    + intros c. rewrite elem_of_cons. intros [->|Hc]; [case_bool_decide; lia|auto].
    + destruct H3 as [->|(c & Hc & ->)]; [|right; exists c; set_solver].
      case_bool_decide; [right; exists a; set_solver|by left].
Qed.

Lemma fold_max {A} (f : A -> Z) l m0 :
  let m := foldl (fun m c => if f c >? m then f c else m) m0 l in
  m0 <= m /\ (forall c, c ∈ l -> f c <= m) /\ (m = m0 \/ exists c, c ∈ l /\ m = f c).
Proof.
  revert m0. induction l as [|a l IH]; intros m0; simpl.
  - split_and!; [lia| |by left]. intros c H. by apply elem_of_nil in H.
  - specialize (IH (if f a >? m0 then f a else m0)) as (H1 & H2 & H3).
    split_and!.
    + case_bool_decide; lia.
    + intros c. rewrite elem_of_cons. intros [->|Hc]; [case_bool_decide; lia|auto].
    + destruct H3 as [->|(c & Hc & ->)]; [|right; exists c; set_solver].
      case_bool_decide; [right; exists a; set_solver|by left].
Qed.

(** The score of any string is one of the table or zero. *)
Lemma score_of_cases table k :
  (exists k', (k', score_of table k) ∈ table) \/ score_of table k = 0.
Proof.
  induction table as [|[k' s] table IH]; simpl; [by right|].
  case_bool_decide; [left; exists k'; set_solver|].
  destruct IH as [[k1 Hin]|Hz]; [left; exists k1; set_solver|by right].
Qed.

Definition trust_score (c : Component) : Z := score_of trust_scores (VTrust (CStateVector c)).
Definition risk_score (c : Component) : Z := score_of risk_order (VRisk (CStateVector c)).

(** The entries of the tables are keyed by their scores. *)
Lemma trust_entry k z : (k, z) ∈ trust_scores -> score_of trust_scores k = z.
Proof.
  unfold trust_scores. rewrite !elem_of_cons, elem_of_nil. intros H. by destruct_or! H; simplify_eq.
Qed.

Lemma risk_entry k z : (k, z) ∈ risk_order -> score_of risk_order k = z.
Proof.
  unfold risk_order. rewrite !elem_of_cons, elem_of_nil. intros H. by destruct_or! H; simplify_eq.
Qed.

Definition min_trust (comps : list Component) : Z :=
  foldl (fun m c => if trust_score c <? m then trust_score c else m) 3 comps.
Definition max_risk (comps : list Component) : Z :=
  foldl (fun m c => if risk_score c >? m then risk_score c else m) 1 comps.

(** The aggregate is the entry of the extremal score. *)
Lemma aggregateTrust_entry ord comps :
  ord ≡ₚ trust_scores -> (aggregateTrust ord comps, min_trust comps) ∈ trust_scores.
Proof.
  intros Hp.
  assert (exists k, (k, min_trust comps) ∈ trust_scores) as [k Hk].
  { destruct (fold_min trust_score comps 3) as (_ & _ & [H|(c & _ & H)]); fold (min_trust comps) in H;
      rewrite H; [exists TrustTrusted; unfold trust_scores; set_solver|].
    destruct (score_of_cases trust_scores (VTrust (CStateVector c))) as [?|Hz]; [done|].
    unfold trust_score. rewrite Hz. exists TrustUnknown. unfold trust_scores; set_solver. }
  replace (aggregateTrust ord comps) with k; [done|]. symmetry.
  apply (key_with_score_perm ord trust_scores); [done|by_computation|exact Hk].
Qed.

Lemma aggregateRisk_entry ord comps :
  ord ≡ₚ risk_order -> (aggregateRisk ord comps, max_risk comps) ∈ risk_order.
Proof.
  intros Hp.
  assert (exists k, (k, max_risk comps) ∈ risk_order) as [k Hk].
  { destruct (fold_max risk_score comps 1) as (Hge & _ & [H|(c & _ & H)]);
      fold (max_risk comps) in H, Hge; [rewrite H; exists RiskLow; unfold risk_order; set_solver|].
    destruct (score_of_cases risk_order (VRisk (CStateVector c))) as [Hk|Hz];
      unfold risk_score in H; [rewrite H; done|lia]. }
  replace (aggregateRisk ord comps) with k; [done|]. symmetry.
  apply (key_with_score_perm ord risk_order); [done|by_computation|exact Hk].
Qed.

(** Aggregation: whatever order the score maps are traversed in, the
    composite is exactly as trusted as its least trusted component and as
    risky as its riskiest one (at least low); unrecognised trust counts as
    unknown. *)
Theorem aggregation_is_extremal tord rord comps
    (Htrust : tord ≡ₚ trust_scores) (Hrisk : rord ≡ₚ risk_order) (Hne : comps <> []) :
  (forall c, c ∈ comps -> score_of trust_scores (aggregateTrust tord comps) <= trust_score c)
  /\ (exists c, c ∈ comps /\ score_of trust_scores (aggregateTrust tord comps) = trust_score c)
  /\ (forall c, c ∈ comps -> risk_score c <= score_of risk_order (aggregateRisk rord comps))
  /\ (aggregateRisk rord comps <> RiskLow ->
        exists c, c ∈ comps /\ score_of risk_order (aggregateRisk rord comps) = risk_score c).
Proof.
  pose proof (aggregateTrust_entry tord comps Htrust) as Et.
  pose proof (aggregateRisk_entry rord comps Hrisk) as Er.
  rewrite (trust_entry _ _ Et), (risk_entry _ _ Er).
  destruct (fold_min trust_score comps 3) as (Hmin & Hle & Hat); fold (min_trust comps) in *.
  destruct (fold_max risk_score comps 1) as (_ & Hge & Hatr); fold (max_risk comps) in *.
  split_and!; [done| |done|].
  - destruct Hat as [H3|H]; [|done]. destruct comps as [|c comps]; [done|].
    exists c. split; [set_solver|]. specialize (Hle c ltac:(set_solver)). rewrite H3 in *.
    destruct (score_of_cases trust_scores (VTrust (CStateVector c))) as [[k Hk]|Hz];
      unfold trust_score in *; [|lia].
    revert Hle Hk. generalize (score_of trust_scores (VTrust (CStateVector c))). intros z Hz.
    unfold trust_scores. rewrite !elem_of_cons, elem_of_nil.
    intros Hin. destruct_or! Hin; simplify_eq; lia.
  - intros Hlow. destruct Hatr as [H1|H]; [|done]. exfalso. apply Hlow. rewrite H1 in Er.
    revert Er. unfold risk_order. rewrite !elem_of_cons, elem_of_nil.
    intros Hin. by destruct_or! Hin; simplify_eq.
Qed.

(** A component of the given kind and state vector with a pinned digest. *)
Definition c_digest : string :=
  "sha256:e3b0c44298fc1c149afbf4c8996fb92427ae41e4649b934ca495991b7852b855".
Definition c_good : StateVector :=
  mkVector LifecycleActive TrustVerified RiskNormal AdmissionAdmitted CompatibilityCompatible
    IntegrityVerified.
Definition c_comp (kind : ComponentKind) (v : StateVector) : Component :=
  mkComponent (mkIdentity "id" "name" kind) "v1" c_digest
    (mkSpec "" "" [] [] 0 0 [] StagePreExecution) (mkProvenance "uri" "pub" "" "")
    (mkAdmission AdmissionAdmitted "" "" 0) (mkLifecycle LifecycleActive "" 0)
    (mkEvidence "" "" "" IntegrityVerified) v.

(** Model (with vector [v]), tokenizer, runtime and one guard. *)
Definition c_pipeline (v : StateVector) : Pipeline :=
  fst (AddGuard (fst (SetRuntime (fst (SetTokenizer (fst (SetModel (NewPipeline "p" "n" "1")
    (c_comp KindModel v))) (c_comp KindTokenizer c_good))) (c_comp KindRuntime c_good)))
    (c_comp KindGuard c_good)).

Lemma aggregation_is_extremal_witness :
  score_of trust_scores (aggregateTrust trust_scores [c_comp KindModel c_good]) <= 2.
Proof.
  destruct (aggregation_is_extremal trust_scores risk_order [c_comp KindModel c_good]) as [H _];
    [reflexivity|reflexivity|discriminate|].
  apply (H (c_comp KindModel c_good)). apply list_elem_of_singleton. reflexivity.
Defined.

(** ** The aggregated vector *)

Lemma aggregate_trust_risk comps eff :
  VTrust (foldl aggregate_step eff comps) = VTrust eff
  /\ VRisk (foldl aggregate_step eff comps) = VRisk eff
  /\ VCompatibility (foldl aggregate_step eff comps) = VCompatibility eff.
Proof.
  revert eff. induction comps as [|c comps IH]; intros eff; simpl; [done|].
  destruct (IH (aggregate_step eff c)) as (-> & -> & ->). done.
Qed.

(** An admitted composite was admitted throughout. *)
Lemma aggregate_admitted comps eff :
  VAdmission (foldl aggregate_step eff comps) = AdmissionAdmitted ->
  VAdmission eff = AdmissionAdmitted
  /\ forall c, c ∈ comps -> VAdmission (CStateVector c) <> AdmissionDenied
                            /\ VAdmission (CStateVector c) <> AdmissionPending.
Proof.
  revert eff. induction comps as [|c comps IH]; intros eff; cbn [foldl].
  { intros H. split; [done|]. intros c Hc. by apply elem_of_nil in Hc. }
  intros [He Hc]%IH. clear IH. unfold aggregate_step in He. simpl in He.
  destruct (bool_decide_reflect (VAdmission (CStateVector c) = AdmissionDenied)); [done|].
  destruct (bool_decide_reflect (VAdmission (CStateVector c) = AdmissionPending)) as [Hp|Hp].
  { exfalso. simpl in He. destruct (bool_decide_reflect (VAdmission eff = AdmissionDenied)) as [Hd|];
      simpl in He; [rewrite Hd in He|]; discriminate He. }
  simpl in He. split; [done|]. intros c'. rewrite elem_of_cons. intros [->|H]; auto.
Qed.

Lemma aggregate_admission_values comps eff :
  VAdmission eff ∈ [AdmissionAdmitted; AdmissionPending; AdmissionDenied] ->
  VAdmission (foldl aggregate_step eff comps)
    ∈ [AdmissionAdmitted; AdmissionPending; AdmissionDenied].
Proof.
  revert eff. induction comps as [|c comps IH]; intros eff H; simpl; [done|]. apply IH. simpl.
  case_bool_decide; [set_solver|]. destruct (_ && _); [set_solver|done].
Qed.

(** A composite that is not quarantined has no quarantined component; an
    active one has no proposed component either. *)
Lemma aggregate_not_quarantined comps eff :
  VLifecycle (foldl aggregate_step eff comps) <> LifecycleQuarantined ->
  VLifecycle eff <> LifecycleQuarantined
  /\ forall c, c ∈ comps -> VLifecycle (CStateVector c) <> LifecycleQuarantined.
Proof.
  revert eff. induction comps as [|c comps IH]; intros eff; cbn [foldl].
  { intros H. split; [done|]. intros c Hc. by apply elem_of_nil in Hc. }
  intros [He Hc]%IH. clear IH. unfold aggregate_step in He. simpl in He.
  destruct (bool_decide_reflect (VLifecycle (CStateVector c) = LifecycleQuarantined)) as [|Hq]; [done|].
  split; [|intros c'; rewrite elem_of_cons; intros [->|H]; auto].
  intros Heq. apply He. rewrite (bool_decide_true (VLifecycle eff = LifecycleQuarantined)) by done.
  simpl. by rewrite andb_false_r.
Qed.

Lemma aggregate_stays_active comps eff :
  (forall c, c ∈ comps -> VLifecycle (CStateVector c) <> LifecycleQuarantined
                          /\ VLifecycle (CStateVector c) <> LifecycleProposed) ->
  VLifecycle (foldl aggregate_step eff comps) = VLifecycle eff.
Proof.
  revert eff. induction comps as [|c comps IH]; intros eff H; cbn [foldl]; [done|].
  destruct (H c ltac:(set_solver)) as [Hq Hp]. rewrite IH by set_solver. simpl.
  by rewrite (bool_decide_false _ Hq), (bool_decide_false _ Hp).
Qed.

Lemma aggregate_verified comps eff :
  VIntegrity (foldl aggregate_step eff comps) = IntegrityVerified ->
  VIntegrity eff = IntegrityVerified
  /\ forall c, c ∈ comps -> VIntegrity (CStateVector c) = IntegrityVerified.
Proof.
  revert eff. induction comps as [|c comps IH]; intros eff; cbn [foldl].
  { intros H. split; [done|]. intros c Hc. by apply elem_of_nil in Hc. }
  intros [He Hc]%IH. clear IH. unfold aggregate_step in He. simpl in He.
  destruct (bool_decide_reflect (VIntegrity (CStateVector c) = IntegrityTampered)); [done|].
  destruct (bool_decide_reflect (VIntegrity (CStateVector c) = IntegrityVerified)) as [Hv|Hv].
  { simpl in He. split; [done|]. intros c'. rewrite elem_of_cons. intros [->|H]; auto. }
  exfalso. simpl in He. destruct (bool_decide_reflect (VIntegrity eff = IntegrityTampered)) as [Ht|];
    simpl in He; [rewrite Ht in He; discriminate He|done].
Qed.

Lemma checkForbiddenTuples_None v :
  checkForbiddenTuples v = None ->
  VTrust v <> TrustDenied /\ VAdmission v <> AdmissionDenied
  /\ (VLifecycle v = LifecycleActive -> VTrust v <> TrustUnknown)
  /\ (VAdmission v = AdmissionAdmitted ->
        VLifecycle v <> LifecycleQuarantined /\ VLifecycle v <> LifecycleRetired
        /\ VCompatibility v <> CompatibilityIncompatible)
  /\ (VRisk v = RiskHigh \/ VRisk v = RiskCritical -> VIntegrity v = IntegrityVerified).
Proof.
  unfold checkForbiddenTuples. intros H.
  repeat match type of H with
  | context [bool_decide ?P] =>
      let n := fresh "n" in destruct (bool_decide_reflect P) as [n|n]; simpl in H; try discriminate H
  end; split_and!; try done; try (intros; split_and!); try congruence; naive_solver congruence.
Qed.

(** ** Execution *)

Lemma validate_components_None cs :
  validate_components cs = None ->
  forall c, c ∈ cs -> validateComponentIdentityAndDigest c = None
                      /\ checkForbiddenTuples (CStateVector c) = None.
Proof.
  induction cs as [|c cs IH]; simpl; intros H c' Hc'; [by apply elem_of_nil in Hc'|].
  destruct (validateComponentIdentityAndDigest c) eqn:E1; [done|].
  destruct (checkForbiddenTuples (CStateVector c)) eqn:E2; [done|].
  apply elem_of_cons in Hc' as [->|Hc']; auto.
Qed.

Lemma blocking_guard_None gs data :
  blocking_guard gs data = None -> Contains data "MALICIOUS" = true ->
  forall g, g ∈ gs -> Stage (Compatibility g) <> StagePreExecution.
Proof.
  intros H Hm. induction gs as [|g gs IH]; intros g' Hg'; [by apply elem_of_nil in Hg'|].
  cbn [blocking_guard] in H. rewrite Hm in H.
  destruct (bool_decide_reflect (Stage (Compatibility g) = StagePreExecution)); [done|].
  apply elem_of_cons in Hg' as [->|Hg']; auto.
Qed.

(** What a successful validation establishes, and the pipeline it leaves. *)
Record validated (tord rord : list (string * Z)) (p p' : Pipeline) (report : ValidationReport)
    : Prop := {
  val_required : is_Some (Model p) /\ is_Some (Tokenizer p) /\ is_Some (Runtime p);
  val_components : validate_components (AllComponents p) = None;
  val_compatible : validateInterComponentCompatibility p = Some [];
  val_vector : RStateVector report = aggregateStateVector tord rord p true;
  val_tuples : checkForbiddenTuples (RStateVector report) = None;
  val_pipeline : p' = with_result p (composite_digest p) (RStateVector report);
  val_digest : RCompositeDigest report = composite_digest p
}.

Lemma Validate_ok tord rord p p' report :
  Validate tord rord p = Some (p', (Some report, None)) -> validated tord rord p p' report.
Proof.
  unfold Validate, validateRequired. intros H.
  destruct (Model p) as [m|] eqn:Hm; [|done]. destruct (Tokenizer p) as [t|] eqn:Ht; [|done].
  destruct (Runtime p) as [r|] eqn:Hr; [|done].
  destruct (validate_components (AllComponents p)) eqn:Hv; [done|].
  destruct (validateInterComponentCompatibility p) as [viol|] eqn:Hc; [|done]. simpl in H.
  destruct (checkForbiddenTuples (aggregateStateVector tord rord p _)) eqn:Hf; [done|].
  destruct viol as [|v viol]; [|done].
  change (composite_digest (with_result _ _ _)) with (composite_digest p) in H.
  simplify_eq/=. constructor; try done; rewrite ?Hm, ?Ht, ?Hr; eauto.
Qed.

(** A validated, admitted pipeline: what holds of each component. *)
Lemma validated_components tord rord p p' report :
  tord ≡ₚ trust_scores -> rord ≡ₚ risk_order -> validated tord rord p p' report ->
  VAdmission (RStateVector report) = AdmissionAdmitted ->
  (forall c, c ∈ AllComponents p ->
     VAdmission (CStateVector c) <> AdmissionDenied /\ VAdmission (CStateVector c) <> AdmissionPending
     /\ VLifecycle (CStateVector c) <> LifecycleQuarantined)
  /\ ((forall c, c ∈ AllComponents p -> VLifecycle (CStateVector c) <> LifecycleProposed) ->
        forall c, c ∈ AllComponents p -> 1 <= trust_score c)
  /\ (forall c, c ∈ AllComponents p -> 3 <= risk_score c ->
        forall c', c' ∈ AllComponents p -> VIntegrity (CStateVector c') = IntegrityVerified).
Proof.
  intros Ht Hr [_ _ _ Hvec Htup _ _] Hadm. rewrite Hvec in *. unfold aggregateStateVector in *.
  destruct (aggregate_trust_risk (AllComponents p) (mkVector LifecycleActive
    (aggregateTrust tord (AllComponents p)) (aggregateRisk rord (AllComponents p)) AdmissionAdmitted
    CompatibilityCompatible IntegrityVerified)) as (Etr & Eri & _). simpl in Etr, Eri.
  apply checkForbiddenTuples_None in Htup as (Hden & _ & Hact & Hq & Hrisk).
  rewrite Etr in Hden, Hact. rewrite Eri in Hrisk.
  destruct (aggregate_admitted _ _ Hadm) as [_ Hc].
  destruct (Hq Hadm) as (Hq' & _). apply aggregate_not_quarantined in Hq' as [_ Hnq].
  split_and!.
  - intros c Hin. destruct (Hc c Hin). split_and!; auto.
  - intros Hnp c Hin. rewrite aggregate_stays_active in Hact by auto. specialize (Hact eq_refl).
    destruct (fold_min trust_score (AllComponents p) 3) as (_ & Hle & _). specialize (Hle c Hin).
    fold (min_trust (AllComponents p)) in Hle. etransitivity; [|exact Hle].
    pose proof (aggregateTrust_entry tord (AllComponents p) Ht) as E. revert E.
    unfold trust_scores. rewrite !elem_of_cons, elem_of_nil.
    intros H. destruct_or! H; injection H as H1 H2; rewrite ?H1, ?H2 in *; done || lia.
  - intros c Hin H3 c' Hin'. eapply aggregate_verified; [|exact Hin']. apply Hrisk.
    destruct (fold_max risk_score (AllComponents p) 1) as (_ & Hge & _). specialize (Hge c Hin).
    fold (max_risk (AllComponents p)) in Hge.
    pose proof (aggregateRisk_entry rord (AllComponents p) Hr) as E. revert E.
    unfold risk_order. rewrite !elem_of_cons, elem_of_nil.
    intros H. destruct_or! H; injection H as H1 H2; rewrite ?H1, ?H2 in *; auto; lia.
Qed.

(** Only admitted composites pass the gate of [Execute]: the aggregate is
    never in audit. *)
Lemma aggregate_gate tord rord p :
  VAdmission (aggregateStateVector tord rord p true) = AdmissionAdmitted
  \/ VAdmission (aggregateStateVector tord rord p true) = AdmissionAudit ->
  VAdmission (aggregateStateVector tord rord p true) = AdmissionAdmitted.
Proof.
  intros [H|H]; [done|]. exfalso.
  assert (AdmissionAudit ∈ [AdmissionAdmitted; AdmissionPending; AdmissionDenied]) as Hin.
  { rewrite <- H. apply aggregate_admission_values. simpl. set_solver. }
  rewrite !elem_of_cons, elem_of_nil in Hin. by destruct_or! Hin.
Qed.

(** A component names itself, its content and where it comes from. *)
Definition described (c : Component) : Prop :=
  ID (CIdentity c) <> "" /\ Name (CIdentity c) <> "" /\ CVersion c <> "" /\ isValidDigest (CDigest c) = true
  /\ SourceURI (CProvenance c) <> "" /\ Publisher (CProvenance c) <> "".

(** The states a component may not be in, whatever the others are. *)
Definition state_lawful (v : StateVector) : Prop :=
  VTrust v <> TrustDenied /\ VAdmission v <> AdmissionDenied
  /\ (VLifecycle v = LifecycleActive -> VTrust v <> TrustUnknown)
  /\ (VAdmission v = AdmissionAdmitted ->
        VLifecycle v <> LifecycleQuarantined /\ VLifecycle v <> LifecycleRetired
        /\ VCompatibility v <> CompatibilityIncompatible)
  /\ (VRisk v = RiskHigh \/ VRisk v = RiskCritical -> VIntegrity v = IntegrityVerified).

(** The parts fit the model: what both state agrees. *)
Definition agree (a b : string) : Prop := a = "" \/ b = "" \/ a = b.
Definition based_on (c model : Component) : Prop :=
  BaseModelDigest (Compatibility c) = "" \/ BaseModelDigest (Compatibility c) = CDigest model.
Record fitting (p : Pipeline) (tokenizer model : Component) : Prop := {
  fit_tokenizer : agree (Architecture (Compatibility tokenizer)) (Architecture (Compatibility model));
  fit_quantization q : Quantization p = Some q -> based_on q model;
  fit_adapters a : a ∈ Adapters p -> based_on a model /\ agree (Architecture (Compatibility a)) (Architecture (Compatibility model));
  fit_projections x : x ∈ Projections p -> based_on x model
    /\ (0 < InputDimension (Compatibility x) -> 0 < OutputDimension (Compatibility model) ->
        InputDimension (Compatibility x) = OutputDimension (Compatibility model));
  fit_stages x : x ∈ Filters p ++ Guards p -> Stage (Compatibility x) ∈ [StagePreExecution; StagePostExecution] }.

Lemma trust_asserted c : 1 <= trust_score c -> VTrust (CStateVector c) ∈ [TrustAsserted; TrustVerified; TrustTrusted].
Proof. unfold trust_score. cbn [trust_scores score_of]. rewrite !elem_of_cons. repeat case_bool_decide; subst; auto; lia. Qed.

Lemma risk_high c : VRisk (CStateVector c) ∈ [RiskHigh; RiskCritical] -> 3 <= risk_score c.
Proof. unfold risk_score. rewrite !elem_of_cons, elem_of_nil. intros [->|[->|[]]]; vm_compute; discriminate. Qed.

Lemma described_iff c : validateComponentIdentityAndDigest c = None -> described c.
Proof.
  unfold validateComponentIdentityAndDigest, described. intros H.
  repeat match type of H with
  | context [bool_decide ?P] => destruct (bool_decide_reflect P); simpl in H; try discriminate H
  | context [isValidDigest ?d] => destruct (isValidDigest d) eqn:?; simpl in H; try discriminate H
  end; done.
Qed.

Lemma concat_imap_nil {A B} (f : nat -> A -> list B) l a : concat (imap f l) = [] -> a ∈ l -> exists i, f i a = [].
Proof.
  revert f. induction l as [|x l IH]; intros f H Ha; [by apply not_elem_of_nil in Ha|]. simpl in H. apply app_eq_nil in H as [H1 H2].
  apply elem_of_cons in Ha as [->|Ha]; [by exists 0%nat|]. destruct (IH _ H2 Ha) as [i Hi]. by exists (S i).
Qed.

Lemma report_if_nil c v : report_if c v = [] -> c = false.
Proof. by destruct c. Qed.

Lemma agree_report a b v : report_if ((a !=? "") && (b !=? "") && (a !=? b)) v = [] -> agree a b.
Proof. intros H%report_if_nil. unfold agree. repeat case_bool_decide; simpl in H; auto; done. Qed.

Lemma based_report c model v :
  report_if ((BaseModelDigest (Compatibility c) !=? "") && (BaseModelDigest (Compatibility c) !=? CDigest model)) v = [] -> based_on c model.
Proof. intros H%report_if_nil. unfold based_on. repeat case_bool_decide; simpl in H; auto; done. Qed.

Lemma stage_report c v : report_if (negb (pre_or_post (Stage (Compatibility c)))) v = [] -> Stage (Compatibility c) ∈ [StagePreExecution; StagePostExecution].
Proof.
  intros H%report_if_nil. unfold pre_or_post in H. rewrite !elem_of_cons.
  repeat case_bool_decide; simpl in H; auto; done.
Qed.

Lemma compatible_fitting p tokenizer model :
  validateInterComponentCompatibility p = Some [] -> Tokenizer p = Some tokenizer -> Model p = Some model -> fitting p tokenizer model.
Proof.
  unfold validateInterComponentCompatibility, checkQuantAndAdapterCompat, checkProjectionsAndStages. intros H Htk Hm. rewrite Htk, Hm in H. simpl in H. injection H as H.
  apply app_eq_nil in H as [Ht H]. apply app_eq_nil in H as [Hqa H]. apply app_eq_nil in Hqa as [Hq Ha]. apply app_eq_nil in H as [Hp H].
  apply app_eq_nil in H as [Hf Hg]. split.
  - by eapply agree_report.
  - intros q E. rewrite E in Hq. by eapply based_report.
  - intros a Hin. destruct (concat_imap_nil _ _ _ Ha Hin) as [i [H1 H2]%app_eq_nil]. split; [by eapply based_report|by eapply agree_report].
  - intros x Hin. destruct (concat_imap_nil _ _ _ Hp Hin) as [i [H1 H2]%app_eq_nil]. split; [by eapply based_report|]. apply report_if_nil in H2.
    intros. repeat case_bool_decide; simpl in H2; done || lia.
  - intros x [Hin|Hin]%elem_of_app; [destruct (concat_imap_nil _ _ _ Hf Hin) as [i Hi]|destruct (concat_imap_nil _ _ _ Hg Hin) as [i Hi]]; by eapply stage_report.
Qed.


Definition c_input : Payload := mkPayload "hello" ∅ [] ∅.


(** ** The canonical digest *)

(** C14. The composite digest is canonical: it depends only on the pipeline's
    name triple and on which components it has, not on the order in which
    they were attached nor on earlier results, and validation records it. *)
Theorem composite_digest_canonical p q
    (Hid : PID p = PID q /\ PName p = PName q /\ PVersion p = PVersion q)
    (Hcomps : AllComponents p ≡ₚ AllComponents q) :
  snd (ComputeCompositeDigest p) = snd (ComputeCompositeDigest q)
  /\ CompositeDigest (fst (ComputeCompositeDigest p)) = snd (ComputeCompositeDigest q)
  /\ PStateVector (fst (ComputeCompositeDigest p)) = PStateVector p.
Proof.
  destruct Hid as (Hi & Hn & Hv).
  assert (composite_digest p = composite_digest q) as E.
  { unfold composite_digest. rewrite Hi, Hn, Hv.
    by rewrite (sort_strings_proper _ (map digest_entry (AllComponents q)))
      by (apply Permutation_map, Hcomps). }
  split_and!; [exact E|exact E|reflexivity].
Qed.

Definition c_filter (id : string) : Component :=
  mkComponent (mkIdentity id "name" KindFilter) "v1" c_digest
    (mkSpec "" "" [] [] 0 0 [] StagePreExecution) (mkProvenance "uri" "pub" "" "")
    (mkAdmission AdmissionAdmitted "" "" 0) (mkLifecycle LifecycleActive "" 0)
    (mkEvidence "" "" "" IntegrityVerified) c_good.

Definition c_two (a b : string) : Pipeline :=
  fst (AddFilter (fst (AddFilter (NewPipeline "p" "n" "1") (c_filter a))) (c_filter b)).

Lemma composite_digest_canonical_witness :
  snd (ComputeCompositeDigest (c_two "a" "b")) = snd (ComputeCompositeDigest (c_two "b" "a")).
Proof.
  apply (composite_digest_canonical (c_two "a" "b") (c_two "b" "a")).
  - split_and!; reflexivity.
  - apply Permutation_swap.
Defined.

(** ** What the gate lets through *)

(** Outcome of a run: the status on the receipt and the error. *)
Definition outcome (p : Pipeline) : option (option ExecutionStatus * option Err) :=
  match Execute trust_scores risk_order 9 p (Some c_input) with
  | Some (_, (_, receipt, err)) => Some (Status <$> receipt, err)
  | None => None
  end.

Definition c_vector (l : LifecycleState) (t : TrustState) (r : RiskBand) (a : AdmissionDecision)
    (i : IntegrityState) : StateVector := mkVector l t r a CompatibilityCompatible i.

(** Gaps of the gate: a pipeline whose model is tampered with but of low
    risk runs; one whose model is retired, asserted and under audit runs, and
    its receipt reports it as active and admitted; and one with an unknown
    model that is refused runs as soon as the model is merely proposed. *)
Theorem gate_lets_through :
  outcome (c_pipeline (c_vector LifecycleActive TrustVerified RiskLow AdmissionAdmitted
                         IntegrityTampered)) = Some (Some StatusSuccess, None)
  /\ outcome (c_pipeline (c_vector LifecycleRetired TrustAsserted RiskLow AdmissionAudit
                            IntegrityVerified)) = Some (Some StatusSuccess, None)
  /\ (VLifecycle (aggregateStateVector trust_scores risk_order
        (c_pipeline (c_vector LifecycleRetired TrustAsserted RiskLow AdmissionAudit
                       IntegrityVerified)) true) = LifecycleActive)
  /\ outcome (c_pipeline (c_vector LifecycleActive TrustUnknown RiskLow AdmissionAdmitted
                            IntegrityVerified))
     = Some (None, Some (ErrExecutionHalted (Some ErrForbiddenVectorTuple)))
  /\ outcome (c_pipeline (c_vector LifecycleProposed TrustUnknown RiskLow AdmissionAdmitted
                            IntegrityVerified)) = Some (Some StatusSuccess, None).
Proof. vm_compute. split_and!; reflexivity. Qed.
