(* ===== verification/GoHeap.v ===== *)
(** * Go's [container/heap]

    The package works on any type with the methods of [heap.Interface]; here
    that is a typeclass, and the algorithms are written against it.  A method
    that panics (an index out of range) is [None].  [HeapLaws] states what an
    implementation promises: the methods act on a list of elements as the
    interface documents.  The theorems (nothing panics, the elements are
    permuted, and the heap order is restored when all elements are
    comparable) are proved once against the laws. *)

From S2P Require Import Prelude.

(** ** The interface and the algorithms *)

Class HeapInterface (S X : Type) := {
  Len : S -> nat;
  Less : S -> nat -> nat -> option bool;
  Swap : S -> nat -> nat -> option S;
  PushI : S -> X -> option S;
  PopI : S -> option (S * X)
}.

Section Algorithms.
Context {S X : Type} `{!HeapInterface S X}.

(** [up] moves the element at [j] towards the root; [j + 1] steps are enough,
    each at least halves [j]. *)
Fixpoint up (fuel : nat) (h : S) (j : nat) : option S :=
  match fuel with
  | O => Some h
  | Datatypes.S fuel =>
      let i := ((j - 1) / 2)%nat in
      if bool_decide (i = j) then Some h
      else
        b ← Less h j i;
        if negb b then Some h
        else h' ← Swap h i j; up fuel h' i
  end.

(** [down] moves the element at [i] towards the leaves of the first [n]
    elements and returns where it ends; [n] steps are enough. *)
Fixpoint down (fuel : nat) (h : S) (i n : nat) : option (S * nat) :=
  match fuel with
  | O => Some (h, i)
  | Datatypes.S fuel =>
      let j1 := (2 * i + 1)%nat in
      if bool_decide (n <= j1)%nat then Some (h, i)
      else
        let j2 := (j1 + 1)%nat in
        j ← (if bool_decide (j2 < n)%nat
             then b ← Less h j2 j1; Some (if (b : bool) then j2 else j1)
             else Some j1);
        b ← Less h j i;
        if negb b then Some (h, i)
        else h' ← Swap h i j; down fuel h' j n
  end.

Definition Push (h : S) (x : X) : option S :=
  h ← PushI h x;
  up (Len h) h (Len h - 1).

Definition Pop (h : S) : option (S * X) :=
  let n := (Len h - 1)%nat in
  if bool_decide (Len h = 0%nat) then None
  else
    h ← Swap h 0 n;
    '(h, _) ← down (Len h) h 0 n;
    PopI h.

(** [heap.Remove(h, i)] for a Go [int] index. *)
Definition Remove (h : S) (i : Z) : option (S * X) :=
  if bool_decide (i < 0) || bool_decide (Len h = 0%nat) then None
  else
    let i := Z.to_nat i in
    let n := (Len h - 1)%nat in
    h ← (if bool_decide (n = i) then Some h
         else
           h ← Swap h i n;
           '(h, k) ← down (Len h) h i n;
           if bool_decide (i < k)%nat then Some h else up (Datatypes.S i) h i);
    PopI h.

End Algorithms.

(** ** Swapping elements of a list *)

Section Swap.
Context {E : Type} `{!Inhabited E}.

Definition lswap (l : list E) (i j : nat) : list E := <[i := l !!! j]> (<[j := l !!! i]> l).

Lemma lswap_length l i j : length (lswap l i j) = length l.
Proof. unfold lswap. by rewrite !length_insert. Qed.

Lemma lswap_at l i j k :
  (i < length l)%nat -> (j < length l)%nat ->
  lswap l i j !!! k = if decide (k = i) then l !!! j else if decide (k = j) then l !!! i else l !!! k.
Proof.
  intros Hi Hj. unfold lswap. destruct (decide (k = i)) as [->|Hki].
  - rewrite list_lookup_total_insert_eq; [done|]. by rewrite length_insert.
  - rewrite list_lookup_total_insert_ne by done. destruct (decide (k = j)) as [->|Hkj].
    + by rewrite list_lookup_total_insert_eq.
    + by rewrite list_lookup_total_insert_ne.
Qed.

Lemma lswap_perm l i j : (i < length l)%nat -> (j < length l)%nat -> lswap l i j ≡ₚ l.
Proof.
  intros Hi Hj. apply Permutation_inj. split; [apply lswap_length|].
  exists (fun k => if decide (k = i) then j else if decide (k = j) then i else k). split.
  - intros a b. repeat case_decide; congruence.
  - intros k. destruct (decide (k < length l)%nat) as [Hk|Hk].
    + rewrite !list_lookup_lookup_total_lt; rewrite ?lswap_length; [|repeat case_decide; lia|done].
      f_equal. rewrite lswap_at by done. by repeat case_decide.
    + rewrite !lookup_ge_None_2; rewrite ?lswap_length; [done| |lia]. repeat case_decide; lia.
Qed.
End Swap.

(** ** Heap order *)

Definition kid (i c : nat) : Prop := c = (2 * i + 1)%nat \/ c = (2 * i + 2)%nat.

Lemma parent_kid j : (0 < j)%nat -> kid ((j - 1) / 2) j.
Proof.
  intros Hj. unfold kid. pose proof (Nat.div_mod_eq (j - 1) 2).
  pose proof (Nat.mod_upper_bound (j - 1) 2). lia.
Qed.

Section Order.
Context {E : Type} `{!Inhabited E} (lt : E -> E -> bool).

(** [above x y]: [x] may be the parent of [y]. *)
Definition above (x y : E) : Prop := lt y x = false.

Context (above_trans : forall x y z, above x y -> above y z -> above x z).
Context (lt_asym : forall x y, lt x y = true -> above x y).

Definition heap_order (l : list E) (n : nat) : Prop :=
  forall i c, kid i c -> (c < n)%nat -> above (l !!! i) (l !!! c).

(** Heap order but for the edge into [j] (for [up]) or the edges around [j]
    (for [down]), whose kids are still below its parent. *)
Record up_inv (l : list E) (n j : nat) : Prop := {
  ui_order i c : kid i c -> (c < n)%nat -> c <> j -> above (l !!! i) (l !!! c);
  ui_kids p c : kid p j -> kid j c -> (c < n)%nat -> above (l !!! p) (l !!! c)
}.

Record down_inv (l : list E) (n j : nat) : Prop := {
  di_order i c : kid i c -> (c < n)%nat -> c <> j -> i <> j -> above (l !!! i) (l !!! c);
  di_kids p c : kid p j -> kid j c -> (c < n)%nat -> above (l !!! p) (l !!! c)
}.

Lemma kid_inj i i' c : kid i c -> kid i' c -> i = i'.
Proof. unfold kid. lia. Qed.

Lemma above_refl x : above x x.
Proof. unfold above. destruct (lt x x) eqn:E1; [|done]. rewrite <- E1. by apply lt_asym in E1. Qed.

(** The root is above everything. *)
Lemma heap_root l n i : heap_order l n -> (i < n)%nat -> above (l !!! 0%nat) (l !!! i).
Proof.
  intros Hh. induction i as [i IH] using lt_wf_ind. intros Hi.
  destruct (decide (i = 0%nat)) as [->|Hne]; [apply above_refl|].
  pose proof (parent_kid i ltac:(lia)) as Hk.
  eapply above_trans; [apply (IH ((i - 1) / 2)%nat)|by apply Hh]; unfold kid in Hk; lia.
Qed.

Lemma up_inv_stop l n j i :
  kid i j -> up_inv l n j -> above (l !!! i) (l !!! j) -> heap_order l n.
Proof.
  intros Hk [Ho _] Ha i' c Hk' Hc. destruct (decide (c = j)) as [->|Hne]; [|auto].
  by rewrite (kid_inj i' i j).
Qed.

Lemma up_inv_root l n : up_inv l n 0 -> heap_order l n.
Proof. intros [Ho _] i c Hk Hc. apply Ho; [done|done|]. unfold kid in Hk. lia. Qed.

Lemma up_inv_step l n i j :
  (n <= length l)%nat -> kid i j -> (j < n)%nat -> up_inv l n j -> lt (l !!! j) (l !!! i) = true ->
  up_inv (lswap l i j) n i.
Proof.
  intros Hn Hk Hj [Ho Hg] Hlt.
  assert (i < length l)%nat as Hi by (unfold kid in Hk; lia).
  assert (j < length l)%nat as Hj' by lia.
  assert (above (l !!! j) (l !!! i)) as Hji by auto.
  split.
  - intros a c Hac Hc Hci. rewrite !lswap_at by done.
    destruct (decide (c = j)) as [->|Hcj].
    { rewrite (kid_inj a i j) by done. rewrite !decide_True by done.
      rewrite decide_False by (unfold kid in *; lia). done. }
    rewrite (decide_False (P := c = i)) by done. rewrite ?(decide_False (P := c = j)) by done.
    destruct (decide (a = i)) as [->|Hai].
    { eapply above_trans; [exact Hji|]. by apply Ho. }
    destruct (decide (a = j)) as [->|Haj]; [by apply (Hg i c)|]. by apply Ho.
  - intros p c Hpi Hic Hc. rewrite !lswap_at by done.
    rewrite (decide_False (P := p = i)) by (unfold kid in *; lia).
    rewrite (decide_False (P := p = j)) by (unfold kid in *; lia).
    rewrite (decide_False (P := c = i)) by (unfold kid in *; lia).
    assert (above (l !!! p) (l !!! i)) as Hp by (apply Ho; unfold kid in *; [done|lia|lia]).
    destruct (decide (c = j)) as [->|Hcj]; [done|].
    eapply above_trans; [exact Hp|]. by apply Ho.
Qed.

(** [j] is the kid of [i] that [down] compares with. *)
Definition best_kid (l : list E) (n i j : nat) : Prop :=
  kid i j /\ (j < n)%nat /\ forall c, kid i c -> (c < n)%nat -> above (l !!! j) (l !!! c).

Lemma down_inv_stop l n i j :
  best_kid l n i j -> above (l !!! i) (l !!! j) -> down_inv l n i -> up_inv l n i.
Proof.
  intros (Hk & Hj & Hb) Ha [Ho Hg]. split; [|done].
  intros a c Hac Hc Hci. destruct (decide (a = i)) as [->|Hai]; [|auto].
  eapply above_trans; [exact Ha|]. auto.
Qed.

Lemma down_inv_leaf l n i : (n <= 2 * i + 1)%nat -> down_inv l n i -> up_inv l n i.
Proof.
  intros Hn [Ho Hg]. split; [|done]. intros a c Hac Hc Hci. apply Ho; try done.
  unfold kid in Hac. lia.
Qed.

Lemma down_inv_step l n i j :
  (n <= length l)%nat -> best_kid l n i j -> lt (l !!! j) (l !!! i) = true -> down_inv l n i ->
  down_inv (lswap l i j) n j /\ above (lswap l i j !!! i) (lswap l i j !!! j).
Proof.
  intros Hn (Hk & Hj & Hb) Hlt [Ho Hg].
  assert (i < length l)%nat as Hi by (unfold kid in Hk; lia).
  assert (j < length l)%nat as Hj' by lia.
  assert (i <> j) as Hij by (unfold kid in Hk; lia).
  assert (above (l !!! j) (l !!! i)) as Hji by auto.
  split; [split|].
  - intros a c Hac Hc Hcj Haj. rewrite !lswap_at by done.
    rewrite (decide_False (P := c = j)), (decide_False (P := a = j)) by done.
    destruct (decide (a = i)) as [->|Hai].
    { rewrite decide_False by (unfold kid in *; lia). by apply Hb. }
    destruct (decide (c = i)) as [->|Hci]; [by apply (Hg a j)|]. by apply Ho.
  - intros p c Hpj Hjc Hc. rewrite (kid_inj p i j) by done. rewrite !lswap_at by done.
    rewrite decide_True by done. rewrite !decide_False by (unfold kid in *; lia).
    apply Ho; [done|done| |]; unfold kid in *; lia.
  - rewrite !lswap_at by done. rewrite decide_True by done.
    rewrite decide_False by done. by rewrite decide_True.
Qed.

End Order.

(** ** What an implementation promises

    The state is a valid view of a list of elements; [hl_same] is the frame:
    what no method changes.  [Less] is the order [lt] on comparable elements
    ([hl_good]). *)
Class HeapLaws (S X E : Type) `{!HeapInterface S X} `{!Inhabited E} (lt : E -> E -> bool) := {
  hl_valid : S -> Prop;
  hl_elems : S -> list E;
  hl_key : E -> X;
  hl_same : S -> S -> Prop;
  hl_preorder : PreOrder hl_same;
  hl_len h : hl_valid h -> Len h = length (hl_elems h);
  hl_good : E -> Prop;
  hl_less_some h i j : hl_valid h -> (i < length (hl_elems h))%nat ->
    (j < length (hl_elems h))%nat -> is_Some (Less h i j);
  hl_less h i j : hl_valid h -> (i < length (hl_elems h))%nat -> (j < length (hl_elems h))%nat ->
    Forall hl_good (hl_elems h) -> Less h i j = Some (lt (hl_elems h !!! i) (hl_elems h !!! j));
  hl_swap h i j : hl_valid h -> (i < length (hl_elems h))%nat -> (j < length (hl_elems h))%nat ->
    exists h', Swap h i j = Some h' /\ hl_valid h' /\ hl_elems h' = lswap (hl_elems h) i j
      /\ hl_same h h';
  hl_pop h l e : hl_valid h -> hl_elems h = l ++ [e] ->
    exists h', PopI h = Some (h', hl_key e) /\ hl_valid h' /\ hl_elems h' = l /\ hl_same h h'
}.

Section Theorems.
Context {S X E : Type} `{!HeapInterface S X} `{!Inhabited E} {lt : E -> E -> bool}.
Context `{!HeapLaws S X E lt}.
Context (above_trans : forall x y z, above lt x y -> above lt y z -> above lt x z).
Context (lt_asym : forall x y, lt x y = true -> above lt x y).

#[local] Existing Instance hl_preorder.

(** [h'] holds the elements of [h] in another order, from position [n] on in
    the same one. *)
Record reordered (h h' : S) (n : nat) : Prop := {
  ro_valid : hl_valid h';
  ro_perm : hl_elems h' ≡ₚ hl_elems h;
  ro_drop : drop n (hl_elems h') = drop n (hl_elems h);
  ro_same : hl_same h h'
}.

Lemma reordered_refl h n : hl_valid h -> reordered h h n.
Proof. by split. Qed.

Lemma reordered_trans h1 h2 h3 n : reordered h1 h2 n -> reordered h2 h3 n -> reordered h1 h3 n.
Proof.
  intros [V1 P1 D1 S1] [V2 P2 D2 S2].
  split; [done|by rewrite P2|by rewrite D2|by transitivity h2].
Qed.

Lemma drop_lswap (l : list E) i j n :
  (i < n)%nat -> (j < n)%nat -> drop n (lswap l i j) = drop n l.
Proof. intros Hi Hj. unfold lswap. by rewrite !drop_insert_lt. Qed.

Lemma swap_reorders h i j n :
  hl_valid h -> (i < n)%nat -> (j < n)%nat -> (n <= length (hl_elems h))%nat ->
  exists h', Swap h i j = Some h' /\ reordered h h' n /\ hl_elems h' = lswap (hl_elems h) i j.
Proof.
  intros Hv Hi Hj Hn. destruct (hl_swap h i j Hv) as (h' & Hs & Hv' & He & Hsame); [lia..|].
  exists h'. split_and!; [done| |done]. split; [done| | |done]; rewrite He.
  - apply lswap_perm; lia.
  - by apply drop_lswap.
Qed.

Lemma reordered_length h h' n : reordered h h' n -> length (hl_elems h') = length (hl_elems h).
Proof. intros [_ Hp _ _]. by rewrite Hp. Qed.

(** The elements are comparable. *)
Definition comparable (h : S) : Prop := Forall hl_good (hl_elems h).

Lemma reordered_comparable h h' n : reordered h h' n -> comparable h -> comparable h'.
Proof. intros [_ Hp _ _]. unfold comparable. by rewrite Hp. Qed.

(** [up] permutes, and restores the heap order. *)
Lemma up_spec fuel : forall h j n,
  hl_valid h -> (n <= length (hl_elems h))%nat -> (j < n)%nat -> (j < fuel)%nat ->
  exists h', up fuel h j = Some h' /\ reordered h h' n
    /\ (comparable h -> up_inv lt (hl_elems h) n j -> heap_order lt (hl_elems h') n).
Proof.
  induction fuel as [|fuel IH]; intros h j n Hv Hn Hj Hf; [lia|]. cbn [up].
  destruct (decide (j = 0%nat)) as [->|Hj0].
  { exists h. split_and!; [done|by apply reordered_refl|intros _; by apply up_inv_root]. }
  pose proof (parent_kid j ltac:(lia)) as Hk. set (i := ((j - 1) / 2)%nat) in *.
  assert (i < j)%nat as Hij by (unfold kid in Hk; lia).
  rewrite bool_decide_false by lia.
  destruct (hl_less_some h j i Hv) as [b Hb]; [lia..|]. rewrite Hb. cbn [mbind option_bind].
  assert (comparable h -> b = lt (hl_elems h !!! j) (hl_elems h !!! i)) as Hlt.
  { intros Hc. rewrite hl_less in Hb by (done || lia). by injection Hb. }
  destruct b; cbn [negb].
  - destruct (swap_reorders h i j n) as (h1 & -> & Hr & He); [done|lia..|]. cbn [mbind option_bind].
    destruct (IH h1 i n) as (h' & Hup & Hr' & Ho);
      [apply Hr|by rewrite (reordered_length _ _ _ Hr)|lia|lia|].
    exists h'. split_and!; [done|by eapply reordered_trans|]. intros Hc Hinv.
    apply Ho; [by eapply reordered_comparable|]. rewrite He. eapply up_inv_step; eauto.
    symmetry. auto.
  - exists h. split_and!; [done|by apply reordered_refl|]. intros Hc Hinv.
    eapply up_inv_stop; [done..|]. symmetry. auto.
Qed.

(** The kid [down] chooses. *)
Lemma choose_kid h i n :
  hl_valid h -> (n <= length (hl_elems h))%nat -> (2 * i + 1 < n)%nat ->
  exists j, (if bool_decide (2 * i + 1 + 1 < n)%nat
             then b ← Less h (2 * i + 1 + 1) (2 * i + 1);
                  Some (if (b : bool) then (2 * i + 1 + 1)%nat else (2 * i + 1)%nat)
             else Some (2 * i + 1)%nat) = Some j
    /\ kid i j /\ (j < n)%nat /\ (comparable h -> best_kid lt (hl_elems h) n i j).
Proof.
  intros Hv Hn Hi.
  assert (forall c, kid i c -> (c = 2 * i + 1 + 1 \/ c = 2 * i + 1)%nat) as Hkids
    by (unfold kid; lia).
  case_bool_decide as H2.
  - destruct (hl_less_some h (2 * i + 1 + 1) (2 * i + 1) Hv) as [b Hb]; [lia..|].
    rewrite Hb. cbn [mbind option_bind].
    exists (if b then (2 * i + 1 + 1)%nat else (2 * i + 1)%nat). split; [done|].
    split; [unfold kid; destruct b; lia|]. split; [destruct b; lia|]. intros Hc.
    rewrite hl_less in Hb by (done || lia). injection Hb as Hb.
    split; [unfold kid; destruct b; lia|]. split; [destruct b; lia|].
    intros c [->| ->]%Hkids _; destruct b;
      first [apply (above_refl lt lt_asym) | by apply lt_asym | by unfold above].
  - exists (2 * i + 1)%nat. split; [done|]. unfold best_kid, kid. split_and!; [lia|lia|].
    intros _. split_and!; [lia|lia|]. intros c [->| ->] Hc; [apply (above_refl lt lt_asym)|lia].
Qed.

(** [down] permutes; it either leaves the list alone, with only the edge into
    [i] in doubt, or moves the element and restores the heap order. *)
Lemma down_spec fuel : forall h i n,
  hl_valid h -> (n <= length (hl_elems h))%nat -> (n < fuel + i)%nat \/ (n <= i)%nat ->
  (0 < fuel)%nat ->
  exists h' k, down fuel h i n = Some (h', k) /\ reordered h h' n
    /\ ((k = i /\ hl_elems h' = hl_elems h) \/ (i < k)%nat)
    /\ (comparable h -> down_inv lt (hl_elems h) n i ->
        if bool_decide (i < k)%nat then heap_order lt (hl_elems h') n
        else up_inv lt (hl_elems h') n i).
Proof.
  induction fuel as [|fuel IH]; intros h i n Hv Hn Hf Hpos; [lia|]. cbn [down].
  case_bool_decide as Hleaf.
  { exists h, i. split_and!; [done|by apply reordered_refl|by left|]. intros _ Hinv.
    rewrite bool_decide_false by lia. by apply down_inv_leaf. }
  destruct (choose_kid h i n Hv Hn ltac:(lia)) as (j & -> & Hk & Hj & Hbest).
  cbn [mbind option_bind].
  destruct (hl_less_some h j i Hv) as [b Hb]; [unfold kid in Hk; lia..|].
  rewrite Hb. cbn [mbind option_bind].
  assert (comparable h -> b = lt (hl_elems h !!! j) (hl_elems h !!! i)) as Hlt.
  { intros Hc. rewrite hl_less in Hb by (done || unfold kid in Hk; lia). by injection Hb. }
  destruct b; cbn [negb].
  - assert (i < j)%nat as Hij by (unfold kid in Hk; lia).
    destruct (swap_reorders h i j n) as (h1 & -> & Hr & He); [done|lia..|]. cbn [mbind option_bind].
    destruct (IH h1 j n) as (h' & k & Hd & Hr' & Hkj & Hres);
      [apply Hr|by rewrite (reordered_length _ _ _ Hr)|lia|lia|].
    exists h', k. split_and!; [done|by eapply reordered_trans|right; lia|]. intros Hc Hinv.
    rewrite bool_decide_true by lia.
    destruct (down_inv_step lt lt_asym (hl_elems h) n i j) as [Hinv' Ha]; [done|auto|symmetry; auto|done|].
    rewrite <- He in Hinv', Ha. specialize (Hres (reordered_comparable _ _ _ Hr Hc) Hinv').
    destruct (bool_decide_reflect (j < k)%nat); [done|].
    destruct Hkj as [[-> He']|?]; [|lia]. eapply up_inv_stop; [exact Hk|exact Hres|]. by rewrite He'.
  - exists h, i. split_and!; [done|by apply reordered_refl|by left|]. intros Hc Hinv.
    rewrite bool_decide_false by lia. eapply down_inv_stop; eauto. symmetry. auto.
Qed.

Lemma heap_order_take l n : heap_order lt l n -> (n <= length l)%nat -> heap_order lt (take n l) n.
Proof.
  intros H Hn i c Hk Hc.
  assert (i < n)%nat by (unfold kid in Hk; lia).
  rewrite !list_lookup_total_alt, !lookup_take_lt, <- !list_lookup_total_alt by done. by apply H.
Qed.

(** Splitting off the last element. *)
Lemma split_last (l : list E) n :
  length l = Datatypes.S n -> l = take n l ++ [l !!! n].
Proof.
  intros H. rewrite <- (take_drop n l) at 1. f_equal.
  rewrite (drop_S l (l !!! n) n) by (apply list_lookup_lookup_total_lt; lia).
  f_equal. apply drop_ge. lia.
Qed.

Lemma drop_last (l l' : list E) n :
  length l = Datatypes.S n -> length l' = Datatypes.S n -> drop n l = drop n l' -> l !!! n = l' !!! n.
Proof.
  intros H H' Hd. rewrite (drop_S l (l !!! n) n), (drop_S l' (l' !!! n) n) in Hd
    by (apply list_lookup_lookup_total_lt; lia). by injection Hd.
Qed.

(** The final [h.Pop()]: the last element [e] leaves the list. *)
Lemma pop_last h h1 n e :
  length (hl_elems h) = Datatypes.S n -> hl_elems h !!! n = e -> reordered h h1 n ->
  exists h', PopI h1 = Some (h', hl_key e) /\ hl_valid h' /\ e :: hl_elems h' ≡ₚ hl_elems h
    /\ hl_same h h'
    /\ (heap_order lt (hl_elems h1) n -> heap_order lt (hl_elems h') (length (hl_elems h'))).
Proof.
  intros Hl He Hr. pose proof (reordered_length _ _ _ Hr) as Hl1. rewrite Hl in Hl1.
  destruct Hr as [Hv Hp Hd Hs].
  assert (hl_elems h1 !!! n = e) as He1 by (rewrite <- He; by apply drop_last).
  pose proof (split_last _ _ Hl1) as Hsp. rewrite He1 in Hsp.
  destruct (hl_pop h1 _ e Hv Hsp) as (h' & Hpop & Hv' & Hel & Hs').
  exists h'. split_and!; [done|done| |by transitivity h1|].
  - rewrite <- Hp, Hel. rewrite Hsp at 2. apply Permutation_cons_append.
  - intros Ho. rewrite Hel. rewrite length_take, Hl1. replace (n `min` Datatypes.S n)%nat with n by lia.
    apply heap_order_take; [done|lia].
Qed.

(** What removing [e] leaves, and the heap it is if it was one. *)
Definition removed (h h' : S) (e : E) : Prop :=
  hl_valid h' /\ e :: hl_elems h' ≡ₚ hl_elems h /\ hl_same h h'
  /\ (comparable h -> heap_order lt (hl_elems h) (length (hl_elems h)) ->
      heap_order lt (hl_elems h') (length (hl_elems h'))).

(** [Pop] removes an element; from a heap, one that no other precedes. *)
Lemma Pop_spec h :
  hl_valid h -> hl_elems h <> [] ->
  exists h' e, Pop h = Some (h', hl_key e) /\ removed h h' e
    /\ (comparable h -> heap_order lt (hl_elems h) (length (hl_elems h)) ->
        forall x, x ∈ hl_elems h -> above lt e x).
Proof.
  intros Hv Hne. unfold Pop. rewrite hl_len by done.
  destruct (length (hl_elems h)) as [|n] eqn:Hl; [by apply length_zero_iff_nil in Hl|].
  rewrite bool_decide_false by done. replace (Datatypes.S n - 1)%nat with n by lia.
  destruct (hl_swap h 0 n Hv) as (h1 & -> & Hv1 & He1 & Hs1); [lia..|]. cbn [mbind option_bind].
  assert (length (hl_elems h1) = Datatypes.S n) as Hl1 by (by rewrite He1, lswap_length).
  rewrite hl_len by done.
  destruct (down_spec (length (hl_elems h1)) h1 0 n) as (h2 & k & -> & Hr & _ & Hres); [done|lia|lia|lia|].
  cbn [mbind option_bind].
  destruct (pop_last h1 h2 n (hl_elems h !!! 0%nat)) as (h' & Hpop & Hv' & Hp & Hs' & Ho'); try done.
  { rewrite He1, lswap_at by lia. destruct (decide (n = 0%nat)) as [->|]; [done|by rewrite decide_True]. }
  assert (hl_elems h1 ≡ₚ hl_elems h) as Hp1 by (rewrite He1; apply lswap_perm; lia).
  exists h', (hl_elems h !!! 0%nat). split; [done|]. split; [split_and!|].
  - done.
  - by rewrite Hp, Hp1.
  - by transitivity h1.
  - intros Hc Ho. apply Ho'. unfold comparable in *. rewrite <- Hp1 in Hc.
    assert (down_inv lt (hl_elems h1) n 0) as Hinv.
    { split; [|unfold kid; lia]. intros i c Hk Hc' _ Hi. rewrite He1, !lswap_at by lia.
      rewrite !decide_False by (unfold kid in Hk; lia). apply Ho; [done|lia]. }
    specialize (Hres Hc Hinv). destruct (bool_decide _); [done|by apply up_inv_root].
  - intros Hc Ho x Hx. apply list_elem_of_lookup in Hx as [i Hi].
    rewrite <- (list_lookup_total_correct _ _ _ Hi).
    eapply (heap_root lt above_trans lt_asym _ (Datatypes.S n)); [done|].
    apply lookup_lt_Some in Hi. lia.
Qed.

(** [Push] after the implementation appended the element. *)
Lemma Push_spec h x h1 e :
  PushI h x = Some h1 -> hl_valid h1 -> hl_elems h1 = hl_elems h ++ [e] ->
  exists h', Push h x = Some h' /\ hl_valid h' /\ hl_elems h' ≡ₚ e :: hl_elems h /\ hl_same h1 h'
    /\ (comparable h1 -> heap_order lt (hl_elems h) (length (hl_elems h)) ->
        heap_order lt (hl_elems h') (length (hl_elems h'))).
Proof.
  intros Hpush Hv1 He1. unfold Push. rewrite Hpush. cbn [mbind option_bind].
  rewrite hl_len by done. set (n := length (hl_elems h)) in *.
  assert (length (hl_elems h1) = Datatypes.S n) as Hl1 by (rewrite He1, length_app; simpl; lia).
  destruct (up_spec (length (hl_elems h1)) h1 (length (hl_elems h1) - 1) (length (hl_elems h1)))
    as (h' & Hup & Hr & Ho'); [done|lia..|].
  exists h'. pose proof (reordered_length _ _ _ Hr) as Hlen.
  destruct Hr as [Hv' Hp _ Hs]. split_and!; [done|done| |done|].
  - rewrite Hp, He1. symmetry. apply Permutation_cons_append.
  - intros Hc Ho. rewrite Hlen. apply Ho'; [done|].
    split; [|unfold kid; lia]. intros i c Hk Hc' Hne. rewrite He1.
    rewrite !lookup_total_app_l by (unfold kid in Hk; lia). apply Ho; [done|lia].
Qed.

(** [Remove] takes out the element at a valid index. *)
Lemma Remove_spec h i :
  hl_valid h -> (i < length (hl_elems h))%nat ->
  exists h', Remove h (Z.of_nat i) = Some (h', hl_key (hl_elems h !!! i))
    /\ removed h h' (hl_elems h !!! i).
Proof.
  intros Hv Hi. unfold Remove. rewrite hl_len by done.
  destruct (length (hl_elems h)) as [|n] eqn:Hl; [lia|].
  rewrite !bool_decide_false by lia. rewrite Nat2Z.id. cbn [orb].
  replace (Datatypes.S n - 1)%nat with n by lia.
  destruct (decide (n = i)) as [<-|Hni].
  { rewrite bool_decide_true by done. cbn [mbind option_bind].
    destruct (pop_last h h n (hl_elems h !!! n)) as (h' & Hpop & Hv' & Hp & Hs & Ho');
      [done|done|by apply reordered_refl|].
    exists h'. split; [done|]. split_and!; try done. intros _ Ho. apply Ho'.
    intros a c Hk Hc. apply Ho; [done|lia]. }
  rewrite bool_decide_false by done.
  destruct (hl_swap h i n Hv) as (h1 & -> & Hv1 & He1 & Hs1); [lia..|]. cbn [mbind option_bind].
  assert (length (hl_elems h1) = Datatypes.S n) as Hl1 by (by rewrite He1, lswap_length).
  assert (hl_elems h1 ≡ₚ hl_elems h) as Hp1 by (rewrite He1; apply lswap_perm; lia).
  rewrite hl_len by done.
  destruct (down_spec (length (hl_elems h1)) h1 i n) as (h2 & k & -> & Hr & Hki & Hres); [done|lia|lia|lia|].
  cbn [mbind option_bind].
  assert (exists h3, (if bool_decide (i < k)%nat then Some h2 else up (Datatypes.S i) h2 i) = Some h3
    /\ reordered h1 h3 n
    /\ (comparable h1 -> down_inv lt (hl_elems h1) n i -> heap_order lt (hl_elems h3) n))
    as (h3 & -> & Hr3 & Ho3).
  { destruct (bool_decide (i < k)%nat); [by exists h2|].
    destruct (up_spec (Datatypes.S i) h2 i n) as (h3 & Hup & Hr3 & Ho3);
      [apply Hr|rewrite (reordered_length _ _ _ Hr); lia|lia|lia|].
    exists h3. split_and!; [done|by eapply reordered_trans|]. intros Hc Hinv.
    apply Ho3; [by eapply reordered_comparable|auto]. }
  cbn [mbind option_bind].
  destruct (pop_last h1 h3 n (hl_elems h !!! i)) as (h' & Hpop & Hv' & Hp & Hs' & Ho'); try done.
  { rewrite He1, lswap_at by lia. by rewrite decide_False, decide_True by done. }
  exists h'. split; [done|]. split_and!; [done|by rewrite Hp, Hp1|by transitivity h1|].
  intros Hc Ho. apply Ho', Ho3; [unfold comparable in *; by rewrite Hp1|]. split.
  - intros a c Hk Hc' Hci Hai. rewrite He1, !lswap_at by lia.
    rewrite !decide_False by (unfold kid in Hk; lia). apply Ho; [done|lia].
  - intros p c Hkp Hk Hc'. rewrite He1, !lswap_at by lia.
    rewrite !decide_False by (unfold kid in *; lia).
    eapply above_trans; apply Ho; try done; unfold kid in *; lia.
Qed.
End Theorems.
