(* ===== verification/TokenQueue.v ===== *)
(** * The token-aware admission queue
    ([internal/scheduler/token_queue.go], [token_queue_types.go])

    The queue holds pointers to requests the callers share: the heap is a
    list of locations in a store of requests, so the aliasing of the heap,
    the lookup table and the callers is in the model.  Every method holds the
    mutex, so it is one step; a method that dereferences a nil request or
    indexes the heap out of range panics, which is [None].  [Enqueue] and
    [Dequeue] read the clock once: the reading is an argument.  Scores are
    binary64 floats and integers wrap at their width. *)

From S2P Require Import Prelude GoFloat GoHeap.

(** ** Data *)

Definition loc := nat.

Inductive QueueDisposition := DispositionAdmit | DispositionBackpressure | DispositionReject.

Record QueuedRequest := mkRequest {
  ID : string;
  TenantID : string;
  Priority : Z;           (* int *)
  PromptTokens : Z;       (* int64 *)
  MaxOutputTokens : Z;    (* int64 *)
  PredictedTokens : Z;    (* int64 *)
  CacheHitTokens : Z;     (* int64 *)
  CacheLocality : float64;
  Arrival : Time;
  Deadline : Time;
  EstimatedLatency : Duration;
  calculatedScore : float64;
  heapIndex : Z           (* int *)
}.

Record TenantConfig := mkTenantConfig {
  TCTenantID : string;
  TokenBudget : Z;        (* int64 *)
  MaxQueuedRequests : Z;  (* int *)
  MaxQueuedTokens : Z;    (* int64 *)
  Weight : float64
}.

Record TenantState := mkTenantState {
  TSTenantID : string;
  QueuedRequests : Z;     (* int *)
  QueuedTokens : Z;       (* int64 *)
  ActiveTokens : Z;       (* int64 *)
  ServedTokens : Z        (* int64 *)
}.

Record TokenQueueConfig := mkConfig {
  MaxQueueDepth : Z;      (* int *)
  MaxQueueTokens : Z;     (* int64 *)
  SaturationThreshold : float64;
  HighPriorityFloor : Z;  (* int *)
  DefaultEstimatedLatency : Duration;
  PriorityWeight : float64;
  UrgencyWeight : float64;
  LocalityWeight : float64;
  FairnessWeight : float64;
  CostWeight : float64;
  Tenants : gmap string TenantConfig;
  DefaultTenant : TenantConfig
}.

Record EnqueueResult := mkEnqueueResult {
  Disposition : QueueDisposition;
  Reason : string;
  IsAdmitted : bool;
  PriorityScore : float64;
  QueueDepth : Z;
  QueueTokens : Z;
  RetryAfter : Duration
}.

Record TokenQueue := mkQueue {
  cfg : TokenQueueConfig;
  heap : list loc;
  lookup : gmap string loc;
  tenants : gmap string TenantState;
  totalTokens : Z;        (* int64 *)
  admittedCount : Z;
  backpressuredCount : Z;
  rejectedCount : Z;
  expiredEvictedCount : Z
}.

Notation store := (gmap loc QueuedRequest).

#[export] Instance QueueDisposition_eq_dec : EqDecision QueueDisposition.
Proof. solve_decision. Defined.

Definition with_index (r : QueuedRequest) (i : Z) : QueuedRequest :=
  mkRequest (ID r) (TenantID r) (Priority r) (PromptTokens r) (MaxOutputTokens r) (PredictedTokens r)
    (CacheHitTokens r) (CacheLocality r) (Arrival r) (Deadline r) (EstimatedLatency r)
    (calculatedScore r) i.

Definition with_score (r : QueuedRequest) (s : float64) : QueuedRequest :=
  mkRequest (ID r) (TenantID r) (Priority r) (PromptTokens r) (MaxOutputTokens r) (PredictedTokens r)
    (CacheHitTokens r) (CacheLocality r) (Arrival r) (Deadline r) (EstimatedLatency r) s (heapIndex r).

Definition with_arrival (r : QueuedRequest) (t : Time) : QueuedRequest :=
  mkRequest (ID r) (TenantID r) (Priority r) (PromptTokens r) (MaxOutputTokens r) (PredictedTokens r)
    (CacheHitTokens r) (CacheLocality r) t (Deadline r) (EstimatedLatency r) (calculatedScore r)
    (heapIndex r).

Definition with_heap (q : TokenQueue) (h : list loc) : TokenQueue :=
  mkQueue (cfg q) h (lookup q) (tenants q) (totalTokens q) (admittedCount q) (backpressuredCount q)
    (rejectedCount q) (expiredEvictedCount q).
Definition with_lookup (q : TokenQueue) (t : gmap string loc) : TokenQueue :=
  mkQueue (cfg q) (heap q) t (tenants q) (totalTokens q) (admittedCount q) (backpressuredCount q)
    (rejectedCount q) (expiredEvictedCount q).
Definition with_tenants (q : TokenQueue) (t : gmap string TenantState) : TokenQueue :=
  mkQueue (cfg q) (heap q) (lookup q) t (totalTokens q) (admittedCount q) (backpressuredCount q)
    (rejectedCount q) (expiredEvictedCount q).
Definition with_total (q : TokenQueue) (n : Z) : TokenQueue :=
  mkQueue (cfg q) (heap q) (lookup q) (tenants q) n (admittedCount q) (backpressuredCount q)
    (rejectedCount q) (expiredEvictedCount q).
Definition with_counts (q : TokenQueue) (a b r e : Z) : TokenQueue :=
  mkQueue (cfg q) (heap q) (lookup q) (tenants q) (totalTokens q) a b r e.

(** ** Requests *)

Definition EffectiveCost (r : QueuedRequest) : Z :=
  if PredictedTokens r >? 0 then PredictedTokens r
  else
    let uncachedPrompt := i64_wrap (PromptTokens r - CacheHitTokens r) in
    let uncachedPrompt := if uncachedPrompt <? 0 then 0 else uncachedPrompt in
    let total := i64_wrap (uncachedPrompt + MaxOutputTokens r) in
    if total <=? 0 then 1 else total.

Definition LocalityScore (r : QueuedRequest) : float64 :=
  if f_gt (CacheLocality r) f_zero then math_Min (CacheLocality r) f_one
  else if PromptTokens r <=? 0 then f_zero
  else math_Min (f_div (f_of_Z (CacheHitTokens r)) (f_of_Z (PromptTokens r))) f_one.

(** ** The heap of requests, ordered by score *)

Definition requestHeap : Type := store * list loc.

Definition score_at (st : store) (l : loc) : float64 :=
  match st !! l with Some r => calculatedScore r | None => f_zero end.

Definition heap_Less (h : requestHeap) (i j : nat) : option bool :=
  a ← h.2 !! i;
  b ← h.2 !! j;
  ra ← h.1 !! a;
  rb ← h.1 !! b;
  Some (f_gt (calculatedScore ra) (calculatedScore rb)).

(** [item.heapIndex = i]. *)
Definition set_index (st : store) (l : loc) (i : Z) : option store :=
  r ← st !! l;
  Some (<[l := with_index r i]> st).

Definition heap_Swap (h : requestHeap) (i j : nat) : option requestHeap :=
  a ← h.2 !! i;
  b ← h.2 !! j;
  let hp := <[i := b]> (<[j := a]> h.2) in
  st ← set_index h.1 b (Z.of_nat i);
  st ← set_index st a (Z.of_nat j);
  Some (st, hp).

Definition heap_Push (h : requestHeap) (x : loc) : option requestHeap :=
  st ← set_index h.1 x (Z.of_nat (length h.2));
  Some (st, h.2 ++ [x]).

Definition heap_Pop (h : requestHeap) : option (requestHeap * loc) :=
  let n := length h.2 in
  item ← h.2 !! (n - 1)%nat;
  st ← set_index h.1 item (-1);
  Some ((st, take (n - 1) h.2), item).

#[export] Instance requestHeap_interface : HeapInterface requestHeap loc := {
  Len h := length h.2;
  Less := heap_Less;
  Swap := heap_Swap;
  PushI := heap_Push;
  PopI := heap_Pop
}.

(** ** Configuration *)

Definition DefaultTokenQueueConfig : TokenQueueConfig :=
  mkConfig 1000 1000000 (f_lit 80 100) 80 (500 * Millisecond) f_one (f_of_Z 10) (f_of_Z 20)
    (f_of_Z 15) (f_of_Z 5) ∅ (mkTenantConfig "" 100000 200 200000 f_one).

Definition NewTokenQueue (c : TokenQueueConfig) : TokenQueue :=
  let c := mkConfig
    (if MaxQueueDepth c <=? 0 then 1000 else MaxQueueDepth c)
    (if MaxQueueTokens c <=? 0 then 1000000 else MaxQueueTokens c)
    (if f_le (SaturationThreshold c) f_zero || f_gt (SaturationThreshold c) f_one
     then f_lit 80 100 else SaturationThreshold c)
    (HighPriorityFloor c)
    (if DefaultEstimatedLatency c <=? 0 then 500 * Millisecond else DefaultEstimatedLatency c)
    (PriorityWeight c) (UrgencyWeight c) (LocalityWeight c) (FairnessWeight c) (CostWeight c)
    (Tenants c) (DefaultTenant c) in
  mkQueue c [] ∅ ∅ 0 0 0 0 0.

Definition getTenantConfig (q : TokenQueue) (tenantID : string) : TenantConfig :=
  match Tenants (cfg q) !! tenantID with
  | Some c => c
  | None =>
      let c := DefaultTenant (cfg q) in
      mkTenantConfig tenantID (TokenBudget c) (MaxQueuedRequests c) (MaxQueuedTokens c) (Weight c)
  end.

Definition new_state (tenantID : string) : TenantState := mkTenantState tenantID 0 0 0 0.

(** The tenant's state, the fresh one when it has none yet. *)
Definition tenant_state (q : TokenQueue) (tenantID : string) : TenantState :=
  default (new_state tenantID) (tenants q !! tenantID).

Definition getOrCreateTenantState (q : TokenQueue) (tenantID : string) : TokenQueue * TenantState :=
  match tenants q !! tenantID with
  | Some s => (q, s)
  | None => (with_tenants q (<[tenantID := new_state tenantID]> (tenants q)), new_state tenantID)
  end.

(** ** Priorities *)

Definition calculateUrgency (q : TokenQueue) (req : QueuedRequest) (now : Time) : float64 :=
  if IsZero (Deadline req) then f_zero
  else
    let latency := if EstimatedLatency req <=? 0 then DefaultEstimatedLatency (cfg q)
                   else EstimatedLatency req in
    let slack := i64_wrap (TimeSub (Deadline req) now - latency) in
    if slack <=? 0 then f_mul (UrgencyWeight (cfg q)) (f_of_Z 10)
    else f_div (UrgencyWeight (cfg q)) (f_add f_one (Seconds slack)).

Definition calculateFairnessPenalty (q : TokenQueue) (tenantID : string) : float64 :=
  match tenants q !! tenantID with
  | None => f_zero
  | Some state =>
      let c := getTenantConfig q tenantID in
      if TokenBudget c <=? 0 then f_zero
      else
        let active := f_of_Z (i64_wrap (QueuedTokens state + ActiveTokens state)) in
        let budget := f_mul (f_of_Z (TokenBudget c)) (math_Max (Weight c) (f_lit 1 10)) in
        if f_le active budget then f_zero
        else
          let ratio := f_div (f_sub active budget) budget in
          f_mul (f_mul ratio (FairnessWeight (cfg q))) (f_of_Z 10)
  end.

Definition calculatePriority (q : TokenQueue) (req : QueuedRequest) (now : Time) : float64 :=
  let baseScore := f_mul (f_of_Z (Priority req)) (PriorityWeight (cfg q)) in
  let urgencyScore := calculateUrgency q req now in
  let localityScore := f_mul (LocalityScore req) (LocalityWeight (cfg q)) in
  let cost := f_of_Z (EffectiveCost req) in
  let costScore := f_div (CostWeight (cfg q)) (f_add f_one (f_div cost (f_of_Z 1000))) in
  let fairnessPenalty := calculateFairnessPenalty q (TenantID req) in
  f_sub (f_add (f_add (f_add baseScore urgencyScore) localityScore) costScore) fairnessPenalty.

(** ** Admission *)

Definition evaluateAdmission (q : TokenQueue) (req : QueuedRequest) (tCfg : TenantConfig)
    (tState : TenantState) (cost : Z) (now : Time) : QueueDisposition * string * Duration :=
  if negb (IsZero (Deadline req)) && After now (Deadline req)
  then (DispositionReject, "request-deadline-expired", 0)
  else if Z.of_nat (length (heap q)) + 1 >? MaxQueueDepth (cfg q)
  then (DispositionReject, "queue-depth-capacity-exhausted", 0)
  else if i64_wrap (totalTokens q + cost) >? MaxQueueTokens (cfg q)
  then (DispositionReject, "queue-token-capacity-exhausted", 0)
  else if (MaxQueuedRequests tCfg >? 0)
          && (i64_wrap (QueuedRequests tState + 1) >? MaxQueuedRequests tCfg)
  then (DispositionReject, "tenant-queue-depth-exhausted", 0)
  else if (MaxQueuedTokens tCfg >? 0)
          && (i64_wrap (QueuedTokens tState + cost) >? MaxQueuedTokens tCfg)
  then (DispositionReject, "tenant-token-capacity-exhausted", 0)
  else
    let saturationRatio := f_div (f_of_Z (totalTokens q)) (f_of_Z (MaxQueueTokens (cfg q))) in
    let depthRatio := f_div (f_of_Z (Z.of_nat (length (heap q)))) (f_of_Z (MaxQueueDepth (cfg q))) in
    let isSaturated := f_ge saturationRatio (SaturationThreshold (cfg q))
                       || f_ge depthRatio (SaturationThreshold (cfg q)) in
    if isSaturated && (Priority req >=? HighPriorityFloor (cfg q))
    then (DispositionAdmit, "admitted-high-priority", 0)
    else if isSaturated && (TokenBudget tCfg >? 0)
            && (i64_wrap (QueuedTokens tState + ActiveTokens tState) >=? TokenBudget tCfg)
    then (DispositionBackpressure, "queue-saturated-tenant-over-budget",
          (100 + (Z.rem cost 500 + 100)) * Millisecond)
    else if isSaturated && f_ge saturationRatio (f_lit 95 100)
    then (DispositionBackpressure, "queue-saturated-backpressure", 250 * Millisecond)
    else (DispositionAdmit, "admitted", 0).

(** [tenantState.QueuedRequests += n; tenantState.QueuedTokens += cost]. *)
Definition add_queued (q : TokenQueue) (tenantID : string) (n cost : Z) : TokenQueue :=
  let '(q, s) := getOrCreateTenantState q tenantID in
  with_tenants q (<[tenantID := mkTenantState (TSTenantID s) (i64_wrap (QueuedRequests s + n))
    (i64_wrap (QueuedTokens s + cost)) (ActiveTokens s) (ServedTokens s)]> (tenants q)).

(** [heap.Push(&q.heap, req); q.lookup[req.ID] = req; q.totalTokens += cost]
    and the tenant's counters. *)
Definition push_request (st : store) (q : TokenQueue) (l : loc) : option (store * TokenQueue) :=
  req ← st !! l;
  let cost := EffectiveCost req in
  '(st, hp) ← GoHeap.Push (S := requestHeap) (st, heap q) l;
  let q := with_total (with_lookup (with_heap q hp) (<[ID req := l]> (lookup q)))
             (i64_wrap (totalTokens q + cost)) in
  Some (st, add_queued q (TenantID req) 1 cost).

Definition Enqueue (now : Time) (st : store) (q : TokenQueue) (l : loc)
    : option (store * TokenQueue * EnqueueResult) :=
  req ← st !! l;
  let cost := EffectiveCost req in
  let tenantCfg := getTenantConfig q (TenantID req) in
  let '(q, tenantState) := getOrCreateTenantState q (TenantID req) in
  let '(disposition, reason, retryAfter) := evaluateAdmission q req tenantCfg tenantState cost now in
  if disposition !=? DispositionAdmit then
    let q :=
      if disposition ==? DispositionBackpressure
      then with_counts q (admittedCount q) (i64_wrap (backpressuredCount q + 1)) (rejectedCount q)
             (expiredEvictedCount q)
      else with_counts q (admittedCount q) (backpressuredCount q) (i64_wrap (rejectedCount q + 1))
             (expiredEvictedCount q) in
    Some (st, q, mkEnqueueResult disposition reason false f_zero (Z.of_nat (length (heap q)))
                   (totalTokens q) retryAfter)
  else
    let score := calculatePriority q req now in
    let req := with_score req score in
    let req := if IsZero (Arrival req) then with_arrival req now else req in
    '(st, q) ← push_request (<[l := req]> st) q l;
    let q := with_counts q (i64_wrap (admittedCount q + 1)) (backpressuredCount q) (rejectedCount q)
               (expiredEvictedCount q) in
    Some (st, q, mkEnqueueResult DispositionAdmit "admitted" true score (Z.of_nat (length (heap q)))
                   (totalTokens q) 0).

(** ** Removal *)

(** The accounting of a request that leaves the queue. *)
Definition account_removal (q : TokenQueue) (req : QueuedRequest) : TokenQueue :=
  let cost := EffectiveCost req in
  let q := with_total (with_lookup q (delete (ID req) (lookup q)))
             (i64_wrap (totalTokens q - cost)) in
  add_queued q (TenantID req) (-1) (- cost).

(** One turn of the loops of [Dequeue] and [EvictExpired]: pop and account. *)
Definition pop_request (st : store) (q : TokenQueue) : option (store * TokenQueue * loc) :=
  '(st, hp, l) ← GoHeap.Pop (S := requestHeap) (st, heap q);
  req ← st !! l;
  Some (st, account_removal (with_heap q hp) req, l).

Definition is_expired (now : Time) (req : QueuedRequest) : bool :=
  negb (IsZero (Deadline req)) && After now (Deadline req).

Definition count_evicted (q : TokenQueue) : TokenQueue :=
  with_counts q (admittedCount q) (backpressuredCount q) (rejectedCount q)
    (i64_wrap (expiredEvictedCount q + 1)).

(** [tenantState.ActiveTokens += cost]. *)
Definition add_active (q : TokenQueue) (tenantID : string) (cost : Z) : TokenQueue :=
  let '(q, s) := getOrCreateTenantState q tenantID in
  with_tenants q (<[tenantID := mkTenantState (TSTenantID s) (QueuedRequests s) (QueuedTokens s)
    (i64_wrap (ActiveTokens s + cost)) (ServedTokens s)]> (tenants q)).

(** The loop of [Dequeue]; each turn pops a request, so the length of the
    heap is enough fuel. *)
Fixpoint dequeue_loop (fuel : nat) (now : Time) (st : store) (q : TokenQueue)
    : option (store * TokenQueue * option loc) :=
  match fuel with
  | O => Some (st, q, None)
  | S fuel =>
      if bool_decide (length (heap q) = 0%nat) then Some (st, q, None)
      else
        '(st, q, l) ← pop_request st q;
        req ← st !! l;
        if is_expired now req then dequeue_loop fuel now st (count_evicted q)
        else Some (st, add_active q (TenantID req) (EffectiveCost req), Some l)
  end.

Definition Dequeue (now : Time) (st : store) (q : TokenQueue)
    : option (store * TokenQueue * option loc) :=
  dequeue_loop (S (length (heap q))) now st q.

Definition Peek (q : TokenQueue) : option loc := heap q !! 0%nat.

Definition Remove (st : store) (q : TokenQueue) (id : string) : option (store * TokenQueue * bool) :=
  match lookup q !! id with
  | None => Some (st, q, false)
  | Some l =>
      req ← st !! l;
      '(st, hp, _) ← GoHeap.Remove (S := requestHeap) (st, heap q) (heapIndex req);
      let q := with_lookup (with_heap q hp) (delete id (lookup q)) in
      req ← st !! l;
      let cost := EffectiveCost req in
      let q := with_total q (i64_wrap (totalTokens q - cost)) in
      Some (st, add_queued q (TenantID req) (-1) (- cost), true)
  end.

Definition Finish (q : TokenQueue) (tenantID : string) (allocatedCost actualTokens : Z) : TokenQueue :=
  let '(q, s) := getOrCreateTenantState q tenantID in
  let active := i64_wrap (ActiveTokens s - allocatedCost) in
  with_tenants q (<[tenantID := mkTenantState (TSTenantID s) (QueuedRequests s) (QueuedTokens s)
    (if active <? 0 then 0 else active) (i64_wrap (ServedTokens s + actualTokens))]> (tenants q)).

(** The first loop of [EvictExpired]: empty the heap, keeping the requests
    that are still valid, in the order they were popped. *)
Fixpoint drain_loop (fuel : nat) (now : Time) (st : store) (q : TokenQueue) (evicted : Z)
    (valid : list loc) : option (store * TokenQueue * Z * list loc) :=
  match fuel with
  | O => Some (st, q, evicted, valid)
  | S fuel =>
      if bool_decide (length (heap q) = 0%nat) then Some (st, q, evicted, valid)
      else
        '(st, q, l) ← pop_request st q;
        req ← st !! l;
        if is_expired now req
        then drain_loop fuel now st (count_evicted q) (i64_wrap (evicted + 1)) valid
        else drain_loop fuel now st q evicted (valid ++ [l])
  end.

(** The second loop: score and push the valid requests again. *)
Fixpoint refill_loop (now : Time) (st : store) (q : TokenQueue) (valid : list loc)
    : option (store * TokenQueue) :=
  match valid with
  | [] => Some (st, q)
  | l :: valid =>
      req ← st !! l;
      let req := with_score req (calculatePriority q req now) in
      '(st, q) ← push_request (<[l := req]> st) q l;
      refill_loop now st q valid
  end.

Definition EvictExpired (now : Time) (st : store) (q : TokenQueue) : option (store * TokenQueue * Z) :=
  '(st, q, evicted, valid) ← drain_loop (S (length (heap q))) now st q 0 [];
  '(st, q) ← refill_loop now st q valid;
  Some (st, q, evicted).

(** ** Observation *)

Record QueueMetrics := mkMetrics {
  TotalRequestsQueued : Z;
  TotalTokensQueued : Z;
  MMaxQueueDepth : Z;
  MMaxQueueTokens : Z;
  SaturationRatio : float64;
  MAdmittedCount : Z;
  MBackpressuredCount : Z;
  MRejectedCount : Z;
  MExpiredEvictedCount : Z;
  MTenants : gmap string TenantState
}.

Definition Snapshot (q : TokenQueue) : QueueMetrics :=
  let maxTokens := if MaxQueueTokens (cfg q) <=? 0 then 1 else MaxQueueTokens (cfg q) in
  mkMetrics (Z.of_nat (length (heap q))) (totalTokens q) (MaxQueueDepth (cfg q))
    (MaxQueueTokens (cfg q)) (f_div (f_of_Z (totalTokens q)) (f_of_Z maxTokens))
    (admittedCount q) (backpressuredCount q) (rejectedCount q) (expiredEvictedCount q) (tenants q).

Definition QLen (q : TokenQueue) : Z := Z.of_nat (length (heap q)).
Definition TotalTokens (q : TokenQueue) : Z := totalTokens q.

(** ** The request heap implements the heap interface *)

(** A request without its position: what the heap operations do not change. *)
Definition strip (r : QueuedRequest) : QueuedRequest := with_index r 0.

Definition same_requests (st st' : store) : Prop := strip <$> st = strip <$> st'.

#[export] Instance same_requests_preorder : PreOrder same_requests.
Proof. split; [by intros st|]. intros a b c. unfold same_requests. congruence. Qed.

Lemma same_requests_lookup st st' l r :
  same_requests st st' -> st !! l = Some r ->
  exists r', st' !! l = Some r' /\ strip r' = strip r.
Proof.
  intros H Hl. apply (f_equal (.!! l)) in H. rewrite !lookup_fmap, Hl in H. simpl in H.
  destruct (st' !! l) as [r'|]; simpl in H; [|done]. exists r'. split; [done|congruence].
Qed.

Lemma same_requests_sym st st' : same_requests st st' -> same_requests st' st.
Proof. unfold same_requests. congruence. Qed.

Lemma strip_fields r r' :
  strip r' = strip r ->
  ID r' = ID r /\ TenantID r' = TenantID r /\ EffectiveCost r' = EffectiveCost r
  /\ Deadline r' = Deadline r /\ calculatedScore r' = calculatedScore r
  /\ Arrival r' = Arrival r.
Proof. destruct r, r'. unfold strip, with_index. simpl. intros [=]. subst. done. Qed.

Lemma score_at_same st st' l : same_requests st st' -> score_at st' l = score_at st l.
Proof.
  intros H. unfold score_at. destruct (st !! l) as [r|] eqn:Hl.
  - destruct (same_requests_lookup _ _ _ _ H Hl) as (r' & -> & Hs). by apply strip_fields in Hs as (_ & _ & _ & _ & -> & _).
  - apply (f_equal (.!! l)) in H. rewrite !lookup_fmap, Hl in H. simpl in H.
    by destruct (st' !! l).
Qed.

Lemma set_index_spec st l r i :
  st !! l = Some r ->
  set_index st l i = Some (<[l := with_index r i]> st)
  /\ same_requests st (<[l := with_index r i]> st).
Proof.
  intros Hl. unfold set_index. rewrite Hl. split; [done|].
  unfold same_requests. rewrite fmap_insert. symmetry. apply insert_id.
  rewrite lookup_fmap, Hl. by destruct r.
Qed.

Definition element : Type := loc * float64.

#[export] Instance element_inhabited : Inhabited element := populate (0%nat, f_zero).

(** [e] precedes [e'] when its score ranks higher. *)
Definition precedes (e e' : element) : bool := bool_decide (lex_lt (f_rank e'.2) (f_rank e.2)).

Lemma precedes_trans x y z :
  above precedes x y -> above precedes y z -> above precedes x z.
Proof. unfold above, precedes. rewrite !bool_decide_eq_false. apply lex_nlt_trans. Qed.

Lemma precedes_asym x y : precedes x y = true -> above precedes x y.
Proof. unfold above, precedes. rewrite bool_decide_eq_true, bool_decide_eq_false. apply lex_lt_asym. Qed.

(** Every element of the heap is a distinct request that knows its position. *)
Definition heap_valid (h : requestHeap) : Prop :=
  NoDup h.2 /\ forall i l, h.2 !! i = Some l -> exists r, h.1 !! l = Some r /\ heapIndex r = Z.of_nat i.

Definition heap_elems (h : requestHeap) : list element := map (fun l => (l, score_at h.1 l)) h.2.

Lemma heap_elems_lookup h i l :
  h.2 !! i = Some l -> heap_elems h !!! i = (l, score_at h.1 l).
Proof.
  intros H. apply list_lookup_total_correct. unfold heap_elems. by rewrite list_lookup_fmap, H.
Qed.

Lemma heap_elems_same st st' hp :
  same_requests st st' -> heap_elems (st', hp) = heap_elems (st, hp).
Proof. intros H. apply map_ext. intros l. simpl. by rewrite (score_at_same st st'). Qed.

Lemma heap_Less_spec h i j :
  heap_valid h -> (i < length h.2)%nat -> (j < length h.2)%nat ->
  heap_Less h i j = Some (f_gt (heap_elems h !!! i).2 (heap_elems h !!! j).2).
Proof.
  intros [Hnd Hv] [a Ha]%lookup_lt_is_Some_2 [b Hb]%lookup_lt_is_Some_2.
  rewrite (heap_elems_lookup h i a), (heap_elems_lookup h j b) by done. simpl.
  destruct (Hv i a Ha) as (ra & Hra & _), (Hv j b Hb) as (rb & Hrb & _).
  unfold heap_Less, score_at. rewrite Ha, Hb. cbn [mbind option_bind]. by rewrite Hra, Hrb.
Qed.

Lemma lswap_map (f : loc -> element) hp i j a b :
  hp !! i = Some a -> hp !! j = Some b -> lswap (map f hp) i j = map f (<[i := b]> (<[j := a]> hp)).
Proof.
  intros Ha Hb. unfold lswap. rewrite (list_lookup_total_correct (map f hp) i (f a)), (list_lookup_total_correct (map f hp) j (f b));
    [by rewrite <- !(list_fmap_insert f)| |]; by rewrite list_lookup_fmap, ?Ha, ?Hb.
Qed.

Lemma heap_Swap_spec h i j :
  heap_valid h -> (i < length h.2)%nat -> (j < length h.2)%nat ->
  exists h', heap_Swap h i j = Some h' /\ heap_valid h' /\ heap_elems h' = lswap (heap_elems h) i j
    /\ same_requests h.1 h'.1.
Proof.
  intros [Hnd Hv] Hi Hj. apply lookup_lt_is_Some_2 in Hi as [a Ha], Hj as [b Hb].
  destruct (Hv i a Ha) as (ra & Hra & _), (Hv j b Hb) as (rb & Hrb & _).
  unfold heap_Swap. rewrite Ha, Hb. cbn [mbind option_bind].
  destruct (set_index_spec h.1 b rb (Z.of_nat i) Hrb) as [-> S1]. cbn [mbind option_bind].
  destruct (same_requests_lookup _ _ a ra S1 Hra) as (ra' & Hra' & _).
  destruct (set_index_spec _ a ra' (Z.of_nat j) Hra') as [-> S2]. cbn [mbind option_bind].
  eexists. split; [reflexivity|].
  assert (same_requests h.1 (<[a := with_index ra' (Z.of_nat j)]> (<[b := with_index rb (Z.of_nat i)]> h.1)))
    as Hs by (etransitivity; [exact S1|exact S2]).
  assert (<[i := b]> (<[j := a]> h.2) ≡ₚ h.2) as Hperm.
  { rewrite <- (list_lookup_total_correct _ _ _ Ha) at 1. rewrite <- (list_lookup_total_correct _ _ _ Hb).
    apply lswap_perm; eauto using lookup_lt_Some. }
  split_and!; [split; simpl| |done].
  - by rewrite Hperm.
  - intros k l Hk. destruct (decide (k = i)) as [->|Hki].
    { rewrite list_lookup_insert_eq in Hk by (rewrite length_insert; eauto using lookup_lt_Some).
      injection Hk as <-. destruct (decide (a = b)) as [->|Hab].
      - rewrite lookup_insert_eq. eexists. split; [done|].
        assert (i = j) as -> by (by eapply NoDup_lookup). done.
      - rewrite lookup_insert_ne, lookup_insert_eq by done. by eexists. }
    rewrite list_lookup_insert_ne in Hk by done. destruct (decide (k = j)) as [->|Hkj].
    { rewrite list_lookup_insert_eq in Hk by eauto using lookup_lt_Some. injection Hk as <-.
      rewrite lookup_insert_eq. by eexists. }
    rewrite list_lookup_insert_ne in Hk by done.
    rewrite !lookup_insert_ne by (intros ->; by eauto using NoDup_lookup). by apply Hv.
  - rewrite (heap_elems_same h.1) by done. unfold heap_elems. simpl. symmetry.
    by apply (lswap_map _ h.2).
Qed.

Lemma heap_Pop_spec h l e :
  heap_valid h -> heap_elems h = l ++ [e] ->
  exists h', heap_Pop h = Some (h', e.1) /\ heap_valid h' /\ heap_elems h' = l
    /\ same_requests h.1 h'.1.
Proof.
  intros [Hnd Hv] He.
  assert (exists hp x, h.2 = hp ++ [x]) as (hp & x & Hhp).
  { destruct h.2 as [|y hp] eqn:E using rev_ind; [|by exists hp, y].
    unfold heap_elems in He. rewrite E in He. by destruct l. }
  unfold heap_elems in He. rewrite Hhp, map_app in He. apply app_inj_2 in He as [<- He]; [|done].
  injection He as <-.
  assert (h.2 !! length hp = Some x) as Hx by (rewrite Hhp; apply list_lookup_middle; done).
  destruct (Hv _ _ Hx) as (r & Hr & _).
  unfold heap_Pop. rewrite Hhp, length_app. simpl. replace (length hp + 1 - 1)%nat with (length hp) by lia.
  rewrite <- Hhp, Hx. cbn [mbind option_bind].
  destruct (set_index_spec h.1 x r (-1) Hr) as [-> Hs]. cbn [mbind option_bind].
  rewrite Hhp, take_app_length. eexists. split; [reflexivity|].
  rewrite Hhp in Hnd. apply NoDup_app in Hnd as (Hnd & Hnx & _).
  split_and!; [split; [done|]| |done].
  - intros k y Hk. simpl in *. rewrite lookup_insert_ne.
    + apply Hv. rewrite Hhp. by apply lookup_app_l_Some.
    + intros ->. apply (Hnx y); [by eapply list_elem_of_lookup_2|set_solver].
  - by rewrite (heap_elems_same h.1).
Qed.

#[export] Program Instance requestHeap_laws : HeapLaws requestHeap loc element precedes := {
  hl_valid := heap_valid;
  hl_elems := heap_elems;
  hl_key e := e.1;
  hl_same h h' := same_requests h.1 h'.1;
  hl_good e := is_nan e.2 = false
}.
Next Obligation. split; [by intros h|]. intros a b c H1 H2. by etransitivity. Qed.
Next Obligation. intros h _. unfold heap_elems. by rewrite length_map. Qed.
Next Obligation.
  intros h i j Hv Hi Hj. unfold heap_elems in Hi, Hj. rewrite length_map in Hi, Hj.
  simpl. by rewrite heap_Less_spec.
Qed.
Next Obligation.
  intros h i j Hv Hi Hj Hg. pose proof Hi as Hi'. pose proof Hj as Hj'.
  unfold heap_elems in Hi, Hj. rewrite length_map in Hi, Hj. simpl. rewrite heap_Less_spec by done.
  f_equal. unfold precedes, f_gt. change SFltb with f_lt.
  rewrite Forall_forall in Hg.
  apply f_lt_rank; apply Hg, list_elem_of_lookup_total_2; done.
Qed.
Next Obligation.
  intros h i j Hv Hi Hj. unfold heap_elems in Hi, Hj. rewrite length_map in Hi, Hj.
  by apply heap_Swap_spec.
Qed.
Next Obligation. intros h l e. apply heap_Pop_spec. Qed.

(** ** Accounting *)

Definition cost_at (st : store) (l : loc) : Z :=
  match st !! l with Some r => EffectiveCost r | None => 0 end.

(** A request's share of the counters of tenant [t]. *)
Definition of_tenant (st : store) (t : string) (l : loc) : bool :=
  match st !! l with Some r => TenantID r ==? t | None => false end.
Definition requests_of (st : store) (t : string) (l : loc) : Z := if of_tenant st t l then 1 else 0.
Definition tokens_of (st : store) (t : string) (l : loc) : Z :=
  if of_tenant st t l then cost_at st l else 0.

(** The counters are the sums over the queued requests [hp], modulo 2^64. *)
Record accounts (st : store) (hp : list loc) (q : TokenQueue) : Prop := {
  ac_total : totalTokens q = i64_wrap (zsum (cost_at st) hp);
  ac_requests t : QueuedRequests (tenant_state q t) = i64_wrap (zsum (requests_of st t) hp);
  ac_tokens t : QueuedTokens (tenant_state q t) = i64_wrap (zsum (tokens_of st t) hp)
}.

Lemma accounts_perm st hp hp' q : hp ≡ₚ hp' -> accounts st hp q -> accounts st hp' q.
Proof. intros Hp [H1 H2 H3]. split; intros; rewrite <- Hp; auto. Qed.

Lemma same_requests_at st st' l :
  same_requests st st' ->
  cost_at st' l = cost_at st l /\ (forall t, of_tenant st' t l = of_tenant st t l).
Proof.
  intros H. unfold cost_at, of_tenant. destruct (st !! l) as [r|] eqn:Hl.
  - destruct (same_requests_lookup _ _ _ _ H Hl) as (r' & -> & Hs).
    apply strip_fields in Hs as (_ & -> & -> & _). done.
  - apply (f_equal (.!! l)) in H. rewrite !lookup_fmap, Hl in H. simpl in H.
    by destruct (st' !! l).
Qed.

Lemma accounts_same st st' hp q : same_requests st st' -> accounts st hp q -> accounts st' hp q.
Proof.
  intros Hs [H1 H2 H3].
  assert (forall l, cost_at st' l = cost_at st l) as E1 by (intros; by apply same_requests_at).
  assert (forall t l, of_tenant st' t l = of_tenant st t l) as E2 by (intros; by apply same_requests_at).
  split; intros; rewrite ?H1, ?H2, ?H3; f_equal; apply zsum_ext; intros l _;
    unfold requests_of, tokens_of; by rewrite ?E1, ?E2.
Qed.

Lemma getOrCreate_state q t :
  snd (getOrCreateTenantState q t) = tenant_state q t
  /\ (forall t', tenant_state (fst (getOrCreateTenantState q t)) t' = tenant_state q t').
Proof.
  unfold getOrCreateTenantState, tenant_state. destruct (tenants q !! t) as [s|] eqn:Ht; simpl; [done|].
  split; [done|]. intros t'. destruct (decide (t' = t)) as [->|Hne].
  - by rewrite lookup_insert_eq, Ht.
  - by rewrite lookup_insert_ne.
Qed.

(** The fields of the queue that the tenant bookkeeping leaves alone. *)
Definition same_queue (q q' : TokenQueue) : Prop :=
  cfg q' = cfg q /\ heap q' = heap q /\ lookup q' = lookup q /\ totalTokens q' = totalTokens q.

Lemma getOrCreate_same q t : same_queue q (fst (getOrCreateTenantState q t)).
Proof. unfold getOrCreateTenantState. by destruct (tenants q !! t). Qed.

Lemma add_queued_same q t n c : same_queue q (add_queued q t n c).
Proof.
  unfold add_queued. pose proof (getOrCreate_same q t) as H.
  destruct (getOrCreateTenantState q t) as [q' s]. exact H.
Qed.

Lemma add_queued_state q t n c t' :
  QueuedRequests (tenant_state (add_queued q t n c) t')
    = (if t ==? t' then i64_wrap (QueuedRequests (tenant_state q t) + n)
       else QueuedRequests (tenant_state q t'))
  /\ QueuedTokens (tenant_state (add_queued q t n c) t')
    = (if t ==? t' then i64_wrap (QueuedTokens (tenant_state q t) + c)
       else QueuedTokens (tenant_state q t')).
Proof.
  unfold add_queued. destruct (getOrCreate_state q t) as [Es Et].
  destruct (getOrCreateTenantState q t) as [q' s]. simpl in Es, Et. subst s.
  case_bool_decide as H; [subst t'|]; unfold tenant_state in *; simpl.
  - by rewrite lookup_insert_eq.
  - rewrite lookup_insert_ne by done. specialize (Et t'). simpl in Et. by rewrite Et.
Qed.

Lemma tenant_state_frame q q' t : tenants q' = tenants q -> tenant_state q' t = tenant_state q t.
Proof. unfold tenant_state. by intros ->. Qed.

(** Queueing a request adds its share, removing it takes the share away. *)
Lemma accounts_add st hp q q' l r :
  st !! l = Some r -> accounts st hp q -> tenants q' = tenants q ->
  totalTokens q' = i64_wrap (totalTokens q + EffectiveCost r) ->
  accounts st (l :: hp) (add_queued q' (TenantID r) 1 (EffectiveCost r)).
Proof.
  intros Hl [H1 H2 H3] Ht Htot.
  destruct (add_queued_same q' (TenantID r) 1 (EffectiveCost r)) as (_ & _ & _ & Etot).
  split; [|intros t; destruct (add_queued_state q' (TenantID r) 1 (EffectiveCost r) t) as [E1 E2]..];
    simpl; rewrite ?Etot, ?E1, ?E2, ?(tenant_state_frame q q') by done;
    unfold requests_of, tokens_of, cost_at, of_tenant; rewrite ?Hl.
  - rewrite Htot, H1, i64_wrap_add_l. f_equal. unfold cost_at. lia.
  - destruct (bool_decide_reflect (TenantID r = t)) as [Heq|]; [subst t|]; rewrite H2; [|done].
    rewrite i64_wrap_add_l. f_equal. unfold requests_of, of_tenant. lia.
  - destruct (bool_decide_reflect (TenantID r = t)) as [Heq|]; [subst t|]; rewrite H3; [|done].
    rewrite i64_wrap_add_l. f_equal. unfold tokens_of, cost_at, of_tenant. lia.
Qed.

Lemma accounts_remove st hp q q' l r :
  st !! l = Some r -> accounts st (l :: hp) q -> tenants q' = tenants q ->
  totalTokens q' = i64_wrap (totalTokens q - EffectiveCost r) ->
  accounts st hp (add_queued q' (TenantID r) (-1) (- EffectiveCost r)).
Proof.
  intros Hl [H1 H2 H3] Ht Htot.
  destruct (add_queued_same q' (TenantID r) (-1) (- EffectiveCost r)) as (_ & _ & _ & Etot).
  split; [|intros t; destruct (add_queued_state q' (TenantID r) (-1) (- EffectiveCost r) t) as [E1 E2]..];
    rewrite ?Etot, ?E1, ?E2, ?(tenant_state_frame q q') by done.
  - rewrite Htot, H1. unfold Z.sub. rewrite i64_wrap_add_l. f_equal. simpl. unfold cost_at at 1.
    rewrite Hl. lia.
  - specialize (H2 t). simpl in H2. unfold requests_of at 1, of_tenant at 1 in H2. rewrite Hl in H2.
    destruct (bool_decide_reflect (TenantID r = t)) as [Heq|]; [subst t|]; rewrite H2; [|done].
    rewrite i64_wrap_add_l. f_equal. lia.
  - specialize (H3 t). simpl in H3. unfold tokens_of at 1, of_tenant at 1, cost_at at 1 in H3.
    rewrite Hl in H3. destruct (bool_decide_reflect (TenantID r = t)) as [Heq|]; [subst t|]; rewrite H3; [|done].
    rewrite i64_wrap_add_l. f_equal. lia.
Qed.

(** ** The invariant of the queue *)

Record queue_inv (st : store) (q : TokenQueue) : Prop := {
  qi_heap : heap_valid (st, heap q);
  qi_accounts : accounts st (heap q) q;
  qi_lookup id l : lookup q !! id = Some l <-> l ∈ heap q /\ exists r, st !! l = Some r /\ ID r = id
}.

(** No queued score is NaN, and the heap is ordered by score. *)
Definition scores_ok (st : store) (q : TokenQueue) : Prop :=
  forall l, l ∈ heap q -> is_nan (score_at st l) = false.

Definition queue_ordered (st : store) (q : TokenQueue) : Prop :=
  heap_order precedes (heap_elems (st, heap q)) (length (heap_elems (st, heap q))).

Lemma heap_elems_fst h : (heap_elems h).*1 = h.2.
Proof. unfold heap_elems. rewrite <- list_fmap_compose. apply list_fmap_id. Qed.

Lemma heap_elems_perm h h' e :
  e :: heap_elems h' ≡ₚ heap_elems h -> e.1 :: h'.2 ≡ₚ h.2 /\ e.2 = score_at h.1 e.1.
Proof.
  intros H. split.
  - rewrite <- (heap_elems_fst h), <- H. simpl. by rewrite heap_elems_fst.
  - assert (e ∈ heap_elems h) as Hin by (rewrite <- H; set_solver).
    unfold heap_elems in Hin. apply list_elem_of_fmap in Hin as (l & -> & _). done.
Qed.

Lemma comparable_ok st q : scores_ok st q -> comparable (S := requestHeap) (st, heap q).
Proof.
  intros H. unfold comparable. apply Forall_forall. intros e He. simpl in *.
  unfold heap_elems in He. apply list_elem_of_fmap in He as (l & -> & Hl). by apply H.
Qed.

Lemma qi_in_store st q l : queue_inv st q -> l ∈ heap q -> exists r, st !! l = Some r.
Proof.
  intros [[_ Hv] _ _] Hl. apply list_elem_of_lookup in Hl as [i Hi].
  destruct (Hv i l Hi) as (r & Hr & _). by exists r.
Qed.

(** The lookup table of the queue after the heap lost [l]. *)
Lemma lookup_remove st st' (q : TokenQueue) l r hp' :
  queue_inv st q -> same_requests st st' -> l :: hp' ≡ₚ heap q -> st !! l = Some r ->
  forall id l', delete (ID r) (lookup q) !! id = Some l' <->
    l' ∈ hp' /\ exists r', st' !! l' = Some r' /\ ID r' = id.
Proof.
  intros Hinv Hs Hp Hl id l'. destruct Hinv as [[Hnd _] _ Hlk].
  rewrite <- Hp in Hnd. apply NoDup_cons in Hnd as [Hnl Hnd].
  rewrite lookup_delete_Some, Hlk, <- Hp, elem_of_cons. split.
  - intros (Hne & [->|Hin] & r' & Hr' & Hid); [congruence|]. split; [done|].
    destruct (same_requests_lookup _ _ _ _ Hs Hr') as (r2 & Hr2 & E).
    exists r2. split; [done|]. apply strip_fields in E as (-> & _). done.
  - intros (Hin & r' & Hr' & Hid).
    destruct (same_requests_lookup _ _ _ _ (same_requests_sym _ _ Hs) Hr') as (r0 & Hr0 & E).
    apply strip_fields in E as (E & _). rewrite <- E in Hid. split; [|eauto].
    intros Heq. assert (lookup q !! id = Some l') as H1 by (apply Hlk; rewrite <- Hp; set_solver).
    assert (lookup q !! id = Some l) as H2.
    { apply Hlk. rewrite <- Hp. split; [set_solver|]. exists r. by rewrite Heq. }
    congruence.
Qed.

Lemma account_removal_fields q req :
  heap (account_removal q req) = heap q /\ lookup (account_removal q req) = delete (ID req) (lookup q)
  /\ cfg (account_removal q req) = cfg q.
Proof.
  unfold account_removal. match goal with |- context [add_queued ?q0 ?t ?n ?c] =>
    destruct (add_queued_same q0 t n c) as (-> & -> & -> & _) end. done.
Qed.

(** A request leaves the heap and is accounted for. *)
Lemma removal_inv st st' q l r hp' :
  queue_inv st q -> heap_valid (st', hp') -> same_requests st st' -> l :: hp' ≡ₚ heap q ->
  st' !! l = Some r -> queue_inv st' (account_removal (with_heap q hp') r).
Proof.
  intros Hinv Hv Hs Hp Hl.
  destruct (account_removal_fields (with_heap q hp') r) as (Eh & El & _).
  split.
  - by rewrite Eh.
  - rewrite Eh. simpl. unfold account_removal. apply (accounts_remove st' hp' q _ l r); try done.
    apply (accounts_perm _ (heap q)); [by rewrite Hp|]. apply (accounts_same st); [done|]. apply Hinv.
  - rewrite Eh, El. simpl. intros id l'.
    destruct (same_requests_lookup _ _ _ _ (same_requests_sym _ _ Hs) Hl) as (r0 & Hr0 & E).
    apply strip_fields in E as (E & _). rewrite <- E. by apply (lookup_remove st st' q l r0 hp').
Qed.

Lemma same_scores st st' q :
  same_requests st st' -> (forall l, score_at st' l = score_at st l)
  /\ (queue_ordered st q <-> queue_ordered st' q).
Proof.
  intros Hs. split; [intros l; by apply score_at_same|].
  unfold queue_ordered. by rewrite (heap_elems_same st st').
Qed.

(** [pop_request] never panics on a queue that is not empty; it takes out a
    request of the greatest score. *)
Lemma pop_request_spec st q :
  queue_inv st q -> heap q <> [] ->
  exists st' q' l, pop_request st q = Some (st', q', l) /\ queue_inv st' q'
    /\ l :: heap q' ≡ₚ heap q /\ same_requests st st' /\ cfg q' = cfg q
    /\ (scores_ok st q -> queue_ordered st q ->
        queue_ordered st' q'
        /\ forall x, x ∈ heap q -> f_lt (score_at st l) (score_at st x) = false).
Proof.
  intros Hinv Hne.
  destruct (Pop_spec precedes_trans precedes_asym (S := requestHeap) (st, heap q))
    as ([st' hp'] & e & Hpop & (Hv' & Hp & Hs & Ho) & Habove); [apply Hinv|by destruct (heap q)|].
  simpl in Hpop, Hv', Hp, Hs. apply heap_elems_perm in Hp as [Hp He]. simpl in Hp, He.
  assert (e.1 ∈ heap q) as Hin by (rewrite <- Hp; set_solver).
  destruct (qi_in_store st q e.1 Hinv Hin) as (r0 & Hr0).
  destruct (same_requests_lookup _ _ _ _ Hs Hr0) as (r & Hr & _).
  unfold pop_request. rewrite Hpop. cbn [mbind option_bind]. rewrite Hr. cbn [mbind option_bind].
  destruct (account_removal_fields (with_heap q hp') r) as (Eh & _ & Ec).
  eexists _, _, _. split; [reflexivity|]. rewrite Eh, Ec. split_and!; [|done|done|done|].
  - by apply (removal_inv st st' q e.1 r hp').
  - intros Hok Hord. split.
    + unfold queue_ordered. rewrite Eh. simpl. apply Ho; [by apply comparable_ok|exact Hord].
    + intros x Hx. specialize (Habove (comparable_ok _ _ Hok) Hord (x, score_at st x)).
      rewrite f_lt_rank by (apply Hok; done).
      unfold above, precedes in Habove. simpl in Habove. rewrite <- He. apply Habove.
      unfold heap_elems. apply list_elem_of_fmap. by exists x.
Qed.

Lemma queue_inv_frame st q l r :
  queue_inv st q -> l ∉ heap q -> queue_inv (<[l := r]> st) q.
Proof.
  intros [[Hnd Hv] [H1 H2 H3] Hlk] Hl.
  assert (forall l', l' ∈ heap q -> <[l := r]> st !! l' = st !! l') as E
    by (intros l' Hl'; apply lookup_insert_ne; set_solver).
  split.
  - split; [done|]. simpl in *. intros i l' Hi. rewrite E by (by eapply list_elem_of_lookup_2).
    by apply Hv.
  - split; intros; rewrite ?H1, ?H2, ?H3; f_equal; apply zsum_ext; intros l' Hl';
      unfold requests_of, tokens_of, cost_at, of_tenant; by rewrite E.
  - intros id l'. rewrite Hlk. split; intros [Hl' (r' & Hr' & Hid)]; (split; [done|]);
      exists r'; (split; [|done]); [by rewrite E|by rewrite E in Hr'].
Qed.

Lemma queue_ordered_frame st q l r :
  l ∉ heap q -> queue_ordered st q -> queue_ordered (<[l := r]> st) q.
Proof.
  intros Hl. unfold queue_ordered.
  replace (heap_elems (<[l:=r]> st, heap q)) with (heap_elems (st, heap q)); [done|].
  unfold heap_elems; simpl. apply list_fmap_ext. intros i l' Hi. unfold score_at.
  rewrite lookup_insert_ne; [done|]. intros ->. apply Hl. by eapply list_elem_of_lookup_2.
Qed.

(** [push_request] queues a request that is not queued yet. *)
Lemma push_request_spec st q l r :
  queue_inv st q -> st !! l = Some r -> l ∉ heap q -> lookup q !! ID r = None ->
  exists st' q', push_request st q l = Some (st', q') /\ queue_inv st' q'
    /\ heap q' ≡ₚ l :: heap q /\ same_requests st st' /\ cfg q' = cfg q
    /\ totalTokens q' = i64_wrap (totalTokens q + EffectiveCost r)
    /\ lookup q' = <[ID r := l]> (lookup q)
    /\ (scores_ok st q -> is_nan (calculatedScore r) = false -> queue_ordered st q ->
        queue_ordered st' q').
Proof.
  intros Hinv Hl Hnew Hid. pose proof Hinv as [[Hnd Hv] Hac Hlk]. simpl in Hnd, Hv.
  destruct (set_index_spec st l r (Z.of_nat (length (heap q))) Hl) as [Eset S1].
  set (st1 := <[l := with_index r (Z.of_nat (length (heap q)))]> st) in *.
  assert (heap_Push (st, heap q) l = Some (st1, heap q ++ [l])) as Hpush
    by (unfold heap_Push; simpl; by rewrite Eset).
  assert (heap_valid (st1, heap q ++ [l])) as Hv1.
  { split; simpl.
    - apply NoDup_app. split_and!; [done| |by apply NoDup_singleton].
      intros x Hx H1. apply list_elem_of_singleton in H1 as ->. done.
    - intros i x Hi. apply lookup_snoc_Some in Hi as [[Hlt Hi]|[-> <-]].
      + unfold st1. rewrite lookup_insert_ne; [by apply Hv|]. intros <-. apply Hnew.
        by eapply list_elem_of_lookup_2.
      + unfold st1. rewrite lookup_insert_eq. by eexists. }
  destruct (Push_spec precedes_trans precedes_asym (S := requestHeap) (st, heap q) l
    (st1, heap q ++ [l]) (l, calculatedScore r)) as ([st' hp'] & Hp & Hv' & Hperm & Hs & Ho);
    [exact Hpush|exact Hv1| |].
  { simpl. rewrite (heap_elems_same st st1) by done. unfold heap_elems. simpl. rewrite map_app. simpl.
    unfold score_at. by rewrite Hl. }
  simpl in Hv', Hperm, Hs.
  assert (hp' ≡ₚ l :: heap q) as Hhp.
  { change hp' with ((st', hp').2). rewrite <- (heap_elems_fst (st', hp')), Hperm. simpl.
    by rewrite heap_elems_fst. }
  assert (same_requests st st') as Hs' by (by transitivity st1).
  unfold push_request. rewrite Hl. cbn [mbind option_bind]. rewrite Hp. cbn [mbind option_bind].
  eexists _, _. split; [reflexivity|].
  match goal with |- context [add_queued ?q0 ?t ?n ?c] =>
    destruct (add_queued_same q0 t n c) as (Ec & Eh & El & Et); set (q1 := q0) in * end.
  rewrite Ec, Eh, El, Et. split_and!; try done.
  - split; rewrite ?Eh, ?El; simpl.
    + done.
    + apply (accounts_perm _ (l :: heap q)); [by rewrite Hhp|]. apply (accounts_same st); [done|].
      by apply (accounts_add st (heap q) q).
    + intros id x. rewrite Hhp, elem_of_cons, lookup_insert_Some. split.
      * intros [[<- <-]|[Hne Hx]].
        -- split; [by left|]. destruct (same_requests_lookup _ _ _ _ Hs' Hl) as (r' & Hr' & E).
           exists r'. split; [done|]. by apply strip_fields in E as (-> & _).
        -- apply Hlk in Hx as [Hx (r0 & Hr0 & Hid0)]. split; [by right|].
           destruct (same_requests_lookup _ _ _ _ Hs' Hr0) as (r' & Hr' & E).
           exists r'. split; [done|]. by apply strip_fields in E as (-> & _).
      * intros [Hx (r' & Hr' & Hid')].
        destruct (same_requests_lookup _ _ _ _ (same_requests_sym _ _ Hs') Hr') as (r0 & Hr0 & E).
        apply strip_fields in E as (E & _). rewrite <- E in Hid'.
        destruct Hx as [->|Hx]; [left; split; [congruence|done]|right].
        assert (lookup q !! id = Some x) as Hx' by (apply Hlk; eauto).
        split; [|done]. intros <-. congruence.
  - intros Hok Hnan Hord. unfold queue_ordered. rewrite Eh. simpl. apply Ho; [|exact Hord].
    unfold comparable. simpl. rewrite (heap_elems_same st st1) by done. apply Forall_forall.
    intros e He. unfold heap_elems in He. simpl in He. apply list_elem_of_fmap in He as (x & -> & Hx).
    simpl. apply elem_of_app in Hx as [Hx|Hx]; [by apply Hok|].
    apply list_elem_of_singleton in Hx as ->. unfold score_at. by rewrite Hl.
Qed.

(** ** Enqueue *)

Lemma queue_inv_tenants st q q' :
  queue_inv st q -> heap q' = heap q -> lookup q' = lookup q -> totalTokens q' = totalTokens q ->
  (forall t, QueuedRequests (tenant_state q' t) = QueuedRequests (tenant_state q t)
             /\ QueuedTokens (tenant_state q' t) = QueuedTokens (tenant_state q t)) ->
  queue_inv st q'.
Proof.
  intros [Hh [H1 H2 H3] Hl] Eh El Et Hs. split; [by rewrite Eh| |by rewrite Eh, El].
  split; intros; rewrite ?Eh, ?Et; [done|destruct (Hs t) as [-> _]|destruct (Hs t) as [_ ->]]; auto.
Qed.

Lemma getOrCreate_inv st q t : queue_inv st q -> queue_inv st (fst (getOrCreateTenantState q t)).
Proof.
  intros Hi. destruct (getOrCreate_same q t) as (_ & Eh & El & Et).
  apply (queue_inv_tenants st q); try done. intros t'.
  destruct (getOrCreate_state q t) as [_ E]. by rewrite E.
Qed.

(** The stored request is the submitted one with its score and arrival set. *)
Definition scored (now : Time) (q : TokenQueue) (req : QueuedRequest) : QueuedRequest :=
  let req := with_score req (calculatePriority (fst (getOrCreateTenantState q (TenantID req))) req now) in
  if IsZero (Arrival req) then with_arrival req now else req.

Lemma scored_fields now q req :
  ID (scored now q req) = ID req /\ TenantID (scored now q req) = TenantID req
  /\ EffectiveCost (scored now q req) = EffectiveCost req
  /\ Deadline (scored now q req) = Deadline req.
Proof. unfold scored. by destruct (IsZero _). Qed.

Lemma Enqueue_spec now st q l r :
  queue_inv st q -> st !! l = Some r -> l ∉ heap q -> lookup q !! ID r = None ->
  exists st' q' res, Enqueue now st q l = Some (st', q', res) /\ queue_inv st' q' /\ cfg q' = cfg q
    /\ (IsAdmitted res = false -> st' = st /\ heap q' = heap q /\ totalTokens q' = totalTokens q)
    /\ (IsAdmitted res = true ->
        heap q' ≡ₚ l :: heap q /\ same_requests (<[l := scored now q r]> st) st'
        /\ totalTokens q' = i64_wrap (totalTokens q + EffectiveCost r)
        /\ fst (fst (evaluateAdmission q r (getTenantConfig q (TenantID r))
                 (tenant_state q (TenantID r)) (EffectiveCost r) now)) = DispositionAdmit
        /\ (scores_ok st q -> is_nan (calculatedScore (scored now q r)) = false ->
            queue_ordered st q -> queue_ordered st' q')).
Proof.
  intros Hinv Hl Hnew Hid. unfold Enqueue. rewrite Hl. cbn [mbind option_bind].
  destruct (getOrCreate_state q (TenantID r)) as [Es _].
  destruct (getOrCreate_same q (TenantID r)) as (Ec & Eh & El & Et).
  pose proof (getOrCreate_inv st q (TenantID r) Hinv) as Hinv1.
  unfold scored. destruct (getOrCreateTenantState q (TenantID r)) as [q1 s] eqn:Eq.
  simpl in Es, Ec, Eh, El, Et, Hinv1. cbn [fst]. subst s.
  assert (evaluateAdmission q1 r (getTenantConfig q (TenantID r)) (tenant_state q (TenantID r))
    (EffectiveCost r) now = evaluateAdmission q r (getTenantConfig q (TenantID r))
    (tenant_state q (TenantID r)) (EffectiveCost r) now) as ->
    by (unfold evaluateAdmission; by rewrite Ec, Eh, Et).
  set (r' := if IsZero (Arrival (with_score r (calculatePriority q1 r now)))
             then with_arrival (with_score r (calculatePriority q1 r now)) now
             else with_score r (calculatePriority q1 r now)).
  assert (ID r' = ID r /\ TenantID r' = TenantID r /\ EffectiveCost r' = EffectiveCost r) as (Ei & Eten & Eco)
    by (unfold r'; by destruct (IsZero _)).
  destruct (evaluateAdmission q r (getTenantConfig q (TenantID r)) (tenant_state q (TenantID r))
    (EffectiveCost r) now) as [[d reason] retry]. cbn [fst snd] in *.
  destruct (bool_decide_reflect (d = DispositionAdmit)) as [->|Hd]; cbn [negb].
  - destruct (push_request_spec (<[l := r']> st) q1 l r') as (st2 & q2 & -> & Hinv2 & Hp & Hs & Hc & Ht & _ & Ho).
    + apply queue_inv_frame; [done|by rewrite Eh].
    + by rewrite lookup_insert_eq.
    + by rewrite Eh.
    + by rewrite El, Ei.
    + cbn [mbind option_bind]. eexists _, _, _. split; [reflexivity|]. split_and!.
      * by apply (queue_inv_tenants st2 q2).
      * simpl. by rewrite Hc, Ec.
      * done.
      * intros _. simpl. rewrite Hp, Eh, Ht, Et, Eco. split_and!; try done.
        intros Hok Hnan Hord. apply Ho; [|done|].
        -- intros x Hx. rewrite Eh in Hx. unfold score_at. rewrite lookup_insert_ne by set_solver. by apply Hok.
        -- apply queue_ordered_frame; [by rewrite Eh|]. unfold queue_ordered. by rewrite Eh.
  - eexists _, _, _. split; [reflexivity|].
    destruct (bool_decide (d = DispositionBackpressure)); simpl;
      (split_and!; [by apply (queue_inv_tenants st q1)|done|done|done]).
Qed.

(** ** Removal, dequeueing and eviction *)

Lemma Remove_queue st q id :
  queue_inv st q ->
  exists st' q', Remove st q id = Some (st', q', bool_decide (is_Some (lookup q !! id)))
    /\ queue_inv st' q' /\ same_requests st st' /\ cfg q' = cfg q
    /\ (lookup q !! id = None -> st' = st /\ q' = q)
    /\ (forall l, lookup q !! id = Some l -> l :: heap q' ≡ₚ heap q)
    /\ (scores_ok st q -> queue_ordered st q -> queue_ordered st' q').
Proof.
  intros Hinv. unfold Remove. destruct (lookup q !! id) as [l|] eqn:Hlk.
  2: { exists st, q. rewrite bool_decide_false by (by intros [? ?]). split_and!; try done. }
  rewrite bool_decide_true by (by eexists).
  pose proof (proj1 (qi_lookup st q Hinv id l) Hlk) as [Hin (r & Hr & Hid)].
  apply list_elem_of_lookup in Hin as [i Hi].
  destruct (proj2 (qi_heap st q Hinv) i l Hi) as (r' & Hr' & Hidx). simpl in Hr'.
  assert (r' = r) as -> by congruence. rewrite Hr. cbn [mbind option_bind]. rewrite Hidx.
  destruct (Remove_spec precedes_trans precedes_asym (S := requestHeap) (st, heap q) i)
    as ([st' hp'] & -> & (Hv' & Hp & Hs & Ho)); [apply Hinv| |].
  { simpl. unfold heap_elems. rewrite length_map. by eapply lookup_lt_Some. }
  simpl in Hv', Hp, Hs. cbn [mbind option_bind].
  apply heap_elems_perm in Hp as [Hp _]. rewrite (heap_elems_lookup _ _ l) in Hp by done. simpl in Hp.
  destruct (same_requests_lookup _ _ _ _ Hs Hr) as (r2 & Hr2 & E). rewrite Hr2. cbn [mbind option_bind].
  apply strip_fields in E as (Eid & _).
  replace (delete id (lookup q)) with (delete (ID r2) (lookup q)) by congruence.
  change (add_queued _ (TenantID r2) (-1) (- EffectiveCost r2))
    with (account_removal (with_heap q hp') r2).
  destruct (account_removal_fields (with_heap q hp') r2) as (Eh & _ & Ec).
  eexists _, _. split; [reflexivity|]. rewrite Eh, Ec. split_and!; try done.
  - by apply (removal_inv st st' q l r2 hp').
  - intros l' [= <-]. done.
  - intros Hok Hord. unfold queue_ordered. rewrite Eh. simpl.
    apply Ho; [by apply comparable_ok|exact Hord].
Qed.

Definition expired_at (now : Time) (st : store) (l : loc) : bool :=
  match st !! l with Some r => is_expired now r | None => false end.

Lemma expired_at_same now st st' l : same_requests st st' -> expired_at now st' l = expired_at now st l.
Proof.
  intros H. unfold expired_at. destruct (st !! l) as [r|] eqn:Hl.
  - destruct (same_requests_lookup _ _ _ _ H Hl) as (r' & -> & Hs).
    apply strip_fields in Hs as (_ & _ & _ & E & _). unfold is_expired. by rewrite E.
  - apply (f_equal (.!! l)) in H. rewrite !lookup_fmap, Hl in H. simpl in H.
    by destruct (st' !! l).
Qed.

Lemma scores_ok_perm st st' q q' l :
  same_requests st st' -> l :: heap q' ≡ₚ heap q -> scores_ok st q -> scores_ok st' q'.
Proof.
  intros Hs Hp Hok x Hx. rewrite (score_at_same st st') by done. apply Hok. rewrite <- Hp. set_solver.
Qed.

Lemma add_active_inv st q t c :
  queue_inv st q -> queue_inv st (add_active q t c) /\ heap (add_active q t c) = heap q
  /\ cfg (add_active q t c) = cfg q.
Proof.
  intros Hi. unfold add_active. destruct (getOrCreate_state q t) as [Es Et].
  destruct (getOrCreate_same q t) as (Ec & Eh & El & Etot).
  destruct (getOrCreateTenantState q t) as [q1 s]. simpl in *. subst s. split_and!; [|done|done].
  apply (queue_inv_tenants st q); try done. intros t'. rewrite <- (Et t').
  unfold tenant_state in *. simpl. destruct (decide (t' = t)) as [->|Hne].
  - rewrite lookup_insert_eq. simpl. by rewrite (Et t).
  - by rewrite lookup_insert_ne.
Qed.

(** What a run of [Dequeue]'s loop did: the requests it dropped are expired,
    and the one it returns is not. *)
Definition dequeued (now : Time) (st : store) (q : TokenQueue) (st' : store) (q' : TokenQueue)
    (o : option loc) (dropped : list loc) : Prop :=
  Forall (fun l => expired_at now st l = true) dropped
  /\ option_list o ++ dropped ++ heap q' ≡ₚ heap q
  /\ (o = None -> heap q' = [])
  /\ (forall l, o = Some l -> expired_at now st l = false)
  /\ (scores_ok st q -> queue_ordered st q ->
      queue_ordered st' q'
      /\ forall l x, o = Some l -> x ∈ heap q' -> f_lt (score_at st l) (score_at st x) = false).

Lemma dequeue_loop_spec fuel : forall now st q,
  queue_inv st q -> (length (heap q) < fuel)%nat ->
  exists st' q' o dropped, dequeue_loop fuel now st q = Some (st', q', o) /\ queue_inv st' q'
    /\ same_requests st st' /\ cfg q' = cfg q /\ dequeued now st q st' q' o dropped.
Proof.
  induction fuel as [|fuel IH]; intros now st q Hinv Hf; [lia|]. cbn [dequeue_loop].
  case_bool_decide as Hz.
  { apply length_zero_iff_nil in Hz. exists st, q, None, []. split_and!; try done. }
  destruct (pop_request_spec st q Hinv) as (st1 & q1 & l & -> & Hinv1 & Hp & Hs & Hc & Ho);
    [by intros E; rewrite E in Hz|]. cbn [mbind option_bind].
  assert (l ∈ heap q) as Hin by (rewrite <- Hp; set_solver).
  destruct (qi_in_store st q l Hinv Hin) as (r0 & Hr0).
  destruct (same_requests_lookup _ _ _ _ Hs Hr0) as (r & Hr & _). rewrite Hr. cbn [mbind option_bind].
  assert (is_expired now r = expired_at now st l) as He
    by (rewrite <- (expired_at_same now st st1) by done; unfold expired_at; by rewrite Hr).
  rewrite He. destruct (expired_at now st l) eqn:Hexp.
  - assert (queue_inv st1 (count_evicted q1)) as Hinv2 by (by apply (queue_inv_tenants st1 q1)).
    destruct (IH now st1 (count_evicted q1) Hinv2) as (st' & q' & o & dr & -> & Hinv' & Hs' & Hc' & Hd).
    { simpl. apply Permutation_length in Hp. simpl in Hp. lia. }
    destruct Hd as (Hdr & Hperm & Hnone & Hnexp & Hord). simpl in *.
    exists st', q', o, (l :: dr). split_and!; [done|done|by transitivity st1|congruence|].
    unfold dequeued. split_and!.
    + constructor; [done|]. eapply Forall_impl; [exact Hdr|]. intros x Hx.
      by rewrite <- (expired_at_same now st st1).
    + rewrite <- Hp, <- Hperm. simpl. by rewrite <- Permutation_middle.
    + done.
    + intros x Hx. rewrite <- (expired_at_same now st st1) by done. auto.
    + intros Hok Hq. destruct (Ho Hok Hq) as [Hq1 _].
      destruct (Hord (scores_ok_perm st st1 q (count_evicted q1) l Hs Hp Hok) Hq1) as [Hq' Htop].
      split; [done|]. intros y x Hy Hx. rewrite <- !(score_at_same st st1) by done. auto.
  - destruct (add_active_inv st1 q1 (TenantID r) (EffectiveCost r) Hinv1) as (Hi & Eh & Ec).
    exists st1, (add_active q1 (TenantID r) (EffectiveCost r)), (Some l), [].
    split_and!; [done|done|done|congruence|]. unfold dequeued. rewrite Eh. simpl. split_and!; try done.
    + by intros x [= <-].
    + intros Hok Hq. destruct (Ho Hok Hq) as [Hq1 Htop]. split.
      * unfold queue_ordered in *. by rewrite Eh.
      * intros y x [= <-] Hx. apply Htop. rewrite <- Hp. set_solver.
Qed.

(** The requests the first loop of [EvictExpired] sees, split by expiry. *)
Definition live (now : Time) (st : store) (hp : list loc) : list loc :=
  filter (fun l => expired_at now st l = false) hp.

#[export] Instance live_Proper now st : Proper ((≡ₚ) ==> (≡ₚ)) (live now st).
Proof. intros a b H. unfold live. by rewrite H. Qed.

Lemma live_same now st st' hp : same_requests st st' -> live now st' hp = live now st hp.
Proof.
  intros H. unfold live. induction hp as [|l hp IH]; [done|]. rewrite !filter_cons, IH.
  by rewrite (expired_at_same now st st').
Qed.

Lemma live_length now st hp : (length (live now st hp) <= length hp)%nat.
Proof. apply length_filter. Qed.

Lemma drain_loop_spec fuel : forall now st q n valid,
  queue_inv st q -> (length (heap q) < fuel)%nat -> i64_range n ->
  exists st' q' n' valid', drain_loop fuel now st q n valid = Some (st', q', n', valid')
    /\ queue_inv st' q' /\ heap q' = [] /\ same_requests st st' /\ cfg q' = cfg q
    /\ valid' ≡ₚ valid ++ live now st (heap q)
    /\ n' = i64_wrap (n + Z.of_nat (length (heap q) - length (live now st (heap q)))).
Proof.
  induction fuel as [|fuel IH]; intros now st q n valid Hinv Hf Hn; [lia|]. cbn [drain_loop].
  case_bool_decide as Hz.
  { apply length_zero_iff_nil in Hz. exists st, q, n, valid. rewrite Hz. simpl.
    rewrite app_nil_r, Z.add_0_r, i64_wrap_small by done. split_and!; done. }
  destruct (pop_request_spec st q Hinv) as (st1 & q1 & l & -> & Hinv1 & Hp & Hs & Hc & _);
    [by intros E; rewrite E in Hz|]. cbn [mbind option_bind].
  assert (l ∈ heap q) as Hin by (rewrite <- Hp; set_solver).
  destruct (qi_in_store st q l Hinv Hin) as (r0 & Hr0).
  destruct (same_requests_lookup _ _ _ _ Hs Hr0) as (r & Hr & _). rewrite Hr. cbn [mbind option_bind].
  assert (is_expired now r = expired_at now st l) as He
    by (rewrite <- (expired_at_same now st st1) by done; unfold expired_at; by rewrite Hr).
  rewrite He. pose proof (Permutation_length Hp) as Hlen. simpl in Hlen.
  assert (length (live now st (heap q)) = length (live now st (l :: heap q1))) as Hll by (by rewrite Hp).
  assert (live now st (heap q) ≡ₚ live now st (l :: heap q1)) as Hlp by (by rewrite Hp).
  pose proof (live_length now st (heap q1)) as Hle.
  unfold live at 2 in Hll. unfold live at 2 in Hlp. rewrite filter_cons in Hll, Hlp.
  fold (live now st (heap q1)) in Hll, Hlp.
  destruct (expired_at now st l) eqn:Hexp.
  - rewrite decide_False in Hll, Hlp by done.
    assert (queue_inv st1 (count_evicted q1)) as Hinv2 by (by apply (queue_inv_tenants st1 q1)).
    destruct (IH now st1 (count_evicted q1) (i64_wrap (n + 1)) valid Hinv2)
      as (st' & q' & n' & v' & -> & Hinv' & Hemp & Hs' & Hc' & Hv' & ->); [simpl; lia|apply i64_wrap_range|].
    eexists _, _, _, _. split; [reflexivity|]. simpl in *. rewrite (live_same now st st1) in * by done.
    split_and!; [done|done|by transitivity st1|congruence|by rewrite Hlp|].
    rewrite i64_wrap_add_l. f_equal. lia.
  - rewrite decide_True in Hll, Hlp by done.
    destruct (IH now st1 q1 n (valid ++ [l]) Hinv1)
      as (st' & q' & n' & v' & -> & Hinv' & Hemp & Hs' & Hc' & Hv' & ->); [lia|done|].
    eexists _, _, _, _. split; [reflexivity|]. rewrite (live_same now st st1) in * by done.
    split_and!; [done|done|by transitivity st1|congruence| |].
    + rewrite Hv', Hlp, <- app_assoc. done.
    + f_equal. simpl in Hll. lia.
Qed.

(** Requests that can be queued again: not queued, in the store, with IDs the
    table does not know and that are distinct among themselves. *)
Record refillable (st : store) (q : TokenQueue) (valid : list loc) : Prop := {
  rf_nodup : NoDup valid;
  rf_new l : l ∈ valid -> l ∉ heap q;
  rf_store l : l ∈ valid -> exists r, st !! l = Some r /\ lookup q !! ID r = None;
  rf_ids l1 l2 r1 r2 : l1 ∈ valid -> l2 ∈ valid -> st !! l1 = Some r1 -> st !! l2 = Some r2 ->
    ID r1 = ID r2 -> l1 = l2
}.

Lemma refillable_next st q l valid r r' st' q' :
  refillable st q (l :: valid) -> st !! l = Some r -> ID r' = ID r ->
  same_requests (<[l := r']> st) st' -> heap q' ≡ₚ l :: heap q ->
  lookup q' = <[ID r' := l]> (lookup q) -> refillable st' q' valid.
Proof.
  intros [Hnd Hnew Hst Hids] Hr Hid Hs Hp Hlk. apply NoDup_cons in Hnd as [Hl Hnd].
  assert (forall x rx, x ∈ valid -> st' !! x = Some rx ->
    exists r0, st !! x = Some r0 /\ ID r0 = ID rx) as Hback.
  { intros x rx Hx Hrx.
    destruct (same_requests_lookup _ _ _ _ (same_requests_sym _ _ Hs) Hrx) as (r0 & Hr0 & E).
    rewrite lookup_insert_ne in Hr0 by set_solver. apply strip_fields in E as (E & _). eauto. }
  split; [done| | |].
  - intros x Hx. rewrite Hp. set_solver.
  - intros x Hx. destruct (Hst x) as (rx & Hrx & Hnone); [set_solver|].
    destruct (same_requests_lookup _ _ x rx Hs) as (ry & Hry & E); [by rewrite lookup_insert_ne by set_solver|].
    apply strip_fields in E as (E & _). exists ry. split; [done|]. rewrite E, Hlk, lookup_insert_ne; [done|].
    rewrite Hid. intros Heq. assert (l = x) as ->; [|done]. by apply (Hids l x r rx); [set_solver..| | |].
  - intros l1 l2 r1 r2 H1 H2 E1 E2 Heq.
    destruct (Hback l1 r1 H1 E1) as (a & Ha & Ia), (Hback l2 r2 H2 E2) as (b & Hb & Ib).
    apply (Hids l1 l2 a b); [set_solver..|congruence].
Qed.

(** What the accounting sees of the requests. *)
Definition same_shape (st st' : store) : Prop :=
  forall l, cost_at st' l = cost_at st l /\ forall t, of_tenant st' t l = of_tenant st t l.

#[export] Instance same_shape_preorder : PreOrder same_shape.
Proof.
  split; [by intros st l|]. intros a b c H1 H2 l. destruct (H1 l) as [E1 F1], (H2 l) as [E2 F2].
  split; [congruence|]. intros t. by rewrite F2.
Qed.

Lemma same_requests_shape st st' : same_requests st st' -> same_shape st st'.
Proof. intros H l. by apply same_requests_at. Qed.

Lemma rescored_shape st l r r' :
  st !! l = Some r -> EffectiveCost r' = EffectiveCost r -> TenantID r' = TenantID r ->
  same_shape st (<[l := r']> st).
Proof.
  intros Hl E1 E2 x. unfold cost_at, of_tenant. destruct (decide (x = l)) as [->|Hne].
  - rewrite lookup_insert_eq, Hl, E1. split; [done|]. intros t. by rewrite E2.
  - by rewrite lookup_insert_ne.
Qed.

Lemma refill_loop_spec now valid : forall st q,
  queue_inv st q -> refillable st q valid ->
  exists st' q', refill_loop now st q valid = Some (st', q') /\ queue_inv st' q'
    /\ heap q' ≡ₚ valid ++ heap q /\ cfg q' = cfg q /\ same_shape st st'
    /\ (forall l, l ∈ heap q -> score_at st' l = score_at st l)
    /\ (scores_ok st' q' -> queue_ordered st q -> queue_ordered st' q').
Proof.
  induction valid as [|l valid IH]; intros st q Hinv Href; cbn [refill_loop].
  { exists st, q. split_and!; done. }
  destruct (rf_store _ _ _ Href l) as (r & Hr & Hnone); [set_solver|].
  pose proof (rf_new _ _ _ Href l ltac:(set_solver)) as Hl.
  rewrite Hr. cbn [mbind option_bind]. set (r' := with_score r _).
  destruct (push_request_spec (<[l := r']> st) q l r') as (st1 & q1 & -> & Hinv1 & Hp & Hs & Hc & _ & Hlk & Ho);
    [by apply queue_inv_frame|by rewrite lookup_insert_eq|done|done|].
  cbn [mbind option_bind].
  destruct (IH st1 q1 Hinv1) as (st' & q' & -> & Hinv' & Hp' & Hc' & Hsh & Hsc & Hord);
    [by apply (refillable_next st q l valid r r')|].
  assert (forall x, x ∈ heap q -> score_at st1 x = score_at st x) as Hsc1.
  { intros x Hx. rewrite (score_at_same _ _ x Hs). unfold score_at. by rewrite lookup_insert_ne by set_solver. }
  exists st', q'. split_and!; [done|done| |congruence| | |].
  - rewrite Hp', Hp. simpl. by rewrite <- Permutation_middle.
  - transitivity (<[l := r']> st); [by apply (rescored_shape st l r)|].
    transitivity st1; [by apply same_requests_shape|done].
  - intros x Hx. rewrite Hsc, Hsc1; [done|done|]. rewrite Hp. set_solver.
  - intros Hok Hq. apply Hord; [done|]. apply Ho.
    + intros x Hx. unfold score_at. rewrite lookup_insert_ne by set_solver. fold (score_at st x).
      rewrite <- Hsc1, <- Hsc by (rewrite ?Hp; set_solver). apply Hok. rewrite Hp', Hp. set_solver.
    + assert (score_at st1 l = calculatedScore r') as E
        by (rewrite (score_at_same _ _ l Hs); unfold score_at; by rewrite lookup_insert_eq).
      rewrite <- E, <- Hsc by (rewrite Hp; set_solver). apply Hok. rewrite Hp', Hp. set_solver.
    + by apply queue_ordered_frame.
Qed.

Lemma EvictExpired_spec now st q :
  queue_inv st q ->
  exists st' q', EvictExpired now st q
      = Some (st', q', i64_wrap (Z.of_nat (length (heap q) - length (live now st (heap q)))))
    /\ queue_inv st' q' /\ heap q' ≡ₚ live now st (heap q) /\ cfg q' = cfg q /\ same_shape st st'
    /\ (scores_ok st' q' -> queue_ordered st' q').
Proof.
  intros Hinv. unfold EvictExpired.
  destruct (drain_loop_spec (S (length (heap q))) now st q 0 [] Hinv)
    as (st1 & q1 & n & valid & -> & Hinv1 & Hemp & Hs & Hc & Hv & ->); [lia|done|].
  cbn [mbind option_bind]. simpl in Hv.
  assert (forall l, l ∈ valid -> l ∈ heap q) as Hsub.
  { intros l. rewrite Hv. unfold live. rewrite list_elem_of_filter. by intros [_ ?]. }
  assert (lookup q1 = ∅) as Hlk.
  { apply map_eq. intros id. rewrite lookup_empty. destruct (lookup q1 !! id) as [l|] eqn:E; [|done].
    apply Hinv1 in E as [E _]. rewrite Hemp in E. by apply elem_of_nil in E. }
  destruct (refill_loop_spec now valid st1 q1 Hinv1) as (st' & q' & -> & Hinv' & Hp & Hc' & Hsh & _ & Ho).
  { split.
    - rewrite Hv. apply NoDup_filter, Hinv.
    - intros l _. rewrite Hemp. apply not_elem_of_nil.
    - intros l Hl. destruct (qi_in_store st q l Hinv (Hsub l Hl)) as (r0 & Hr0).
      destruct (same_requests_lookup _ _ _ _ Hs Hr0) as (r & Hr & _). exists r. by rewrite Hlk, lookup_empty.
    - intros l1 l2 r1 r2 H1 H2 E1 E2 Hid.
      destruct (same_requests_lookup _ _ _ _ (same_requests_sym _ _ Hs) E1) as (a & Ha & Ia).
      destruct (same_requests_lookup _ _ _ _ (same_requests_sym _ _ Hs) E2) as (b & Hb & Ib).
      apply strip_fields in Ia as (Ia & _), Ib as (Ib & _).
      assert (lookup q !! ID a = Some l1) as L1 by (apply Hinv; eauto).
      assert (lookup q !! ID a = Some l2) as L2
        by (apply Hinv; split; [auto|]; exists b; split; [done|congruence]).
      congruence. }
  cbn [mbind option_bind]. rewrite Hemp, app_nil_r in Hp. eexists _, _. split; [reflexivity|].
  split_and!; [done|by rewrite Hp, Hv|congruence|transitivity st1; [by apply same_requests_shape|done]|].
  intros Hok. apply Ho; [done|]. unfold queue_ordered. rewrite Hemp. intros i c Hk Hc''. simpl in Hc''. lia.
Qed.

Lemma Finish_inv st q t a n :
  queue_inv st q -> queue_inv st (Finish q t a n) /\ heap (Finish q t a n) = heap q
  /\ cfg (Finish q t a n) = cfg q.
Proof.
  intros Hi. unfold Finish. destruct (getOrCreate_state q t) as [Es Et].
  destruct (getOrCreate_same q t) as (Ec & Eh & El & Etot).
  destruct (getOrCreateTenantState q t) as [q1 s]. simpl in *. subst s. split_and!; [|done|done].
  apply (queue_inv_tenants st q); try done. intros t'. rewrite <- (Et t').
  unfold tenant_state in *. simpl. destruct (decide (t' = t)) as [->|Hne].
  - rewrite lookup_insert_eq. simpl. by rewrite (Et t).
  - by rewrite lookup_insert_ne.
Qed.

(** ** Reachable queues

    One call, or anything the callers do to requests that are not queued.
    [P] restricts the cost of the requests submitted; a request is submitted
    under an ID that is not queued. *)
Inductive queue_step (P : Z -> Prop) : store * TokenQueue -> store * TokenQueue -> Prop :=
| qs_env st st' q : (forall l, l ∈ heap q -> st' !! l = st !! l) -> queue_step P (st, q) (st', q)
| qs_enqueue now st q l r st' q' res :
    st !! l = Some r -> l ∉ heap q -> lookup q !! ID r = None -> P (EffectiveCost r) ->
    Enqueue now st q l = Some (st', q', res) -> queue_step P (st, q) (st', q')
| qs_dequeue now st q st' q' o :
    Dequeue now st q = Some (st', q', o) -> queue_step P (st, q) (st', q')
| qs_remove st q id st' q' b : Remove st q id = Some (st', q', b) -> queue_step P (st, q) (st', q')
| qs_evict now st q st' q' n : EvictExpired now st q = Some (st', q', n) -> queue_step P (st, q) (st', q')
| qs_finish st q t a n : queue_step P (st, q) (st, Finish q t a n).

Lemma env_inv st st' q :
  (forall l, l ∈ heap q -> st' !! l = st !! l) -> queue_inv st q -> queue_inv st' q.
Proof.
  intros E [[Hnd Hv] [H1 H2 H3] Hlk]. simpl in Hv. split.
  - split; [done|]. simpl. intros i l Hi. rewrite E by (by eapply list_elem_of_lookup_2). by apply Hv.
  - split; intros; rewrite ?H1, ?H2, ?H3; f_equal; apply zsum_ext; intros l Hl;
      unfold requests_of, tokens_of, cost_at, of_tenant; by rewrite E.
  - intros id l. rewrite Hlk. split; intros [Hl (r & Hr & Hid)]; (split; [done|]);
      exists r; (split; [|done]); [by rewrite E|by rewrite E in Hr].
Qed.

Lemma queue_step_inv P c c' : queue_inv c.1 c.2 -> queue_step P c c' -> queue_inv c'.1 c'.2.
Proof.
  intros Hi Hstep. destruct Hstep as [st st' q E|now st q l r st' q' res Hl Hn Hid _ H|now st q st' q' o H
    |st q id st' q' b H|now st q st' q' n H|st q t a n]; simpl in *.
  - by apply (env_inv st).
  - destruct (Enqueue_spec now st q l r Hi Hl Hn Hid) as (? & ? & ? & E & H' & _). by simplify_eq.
  - destruct (dequeue_loop_spec (S (length (heap q))) now st q Hi) as (? & ? & ? & ? & E & H' & _); [lia|].
    unfold Dequeue in H. by simplify_eq.
  - destruct (Remove_queue st q id Hi) as (? & ? & E & H' & _). by simplify_eq.
  - destruct (EvictExpired_spec now st q Hi) as (? & ? & E & H' & _). by simplify_eq.
  - by apply Finish_inv.
Qed.

Lemma NewTokenQueue_inv st c : queue_inv st (NewTokenQueue c).
Proof.
  split; simpl; [|by split|].
  - split; [constructor|done].
  - intros id l. rewrite lookup_empty. split; [done|]. intros [H _]. by apply elem_of_nil in H.
Qed.

Lemma reachable_inv P st0 c st q :
  rtc (queue_step P) (st0, NewTokenQueue c) (st, q) -> queue_inv st q.
Proof.
  intros H. remember (st0, NewTokenQueue c) as c0. remember (st, q) as c1.
  assert (queue_inv c0.1 c0.2) as H0 by (subst; apply NewTokenQueue_inv).
  change (queue_inv (st, q).1 (st, q).2). rewrite <- Heqc1. clear Heqc0 Heqc1.
  induction H; eauto using queue_step_inv.
Qed.

(** C15. Accounting.  Start with a new queue and let any calls happen, and any
    interference with requests outside the queue, where requests are submitted
    while they are not queued and under IDs that are not queued.  Then each
    queued request knows its heap position, the lookup table lists exactly the
    queued requests, and the token total and every tenant's request and token
    counters are the sums over the queued requests; and no call panics.
    [Enqueue] does not check the ID: [duplicate_id_lost] shows what a request
    under a queued ID does to the lookup table. *)
Theorem queue_accounting st0 c st q
    (Hreach : rtc (queue_step (fun _ => True)) (st0, NewTokenQueue c) (st, q)) :
  queue_inv st q
  /\ (forall now l r, st !! l = Some r -> l ∉ heap q -> lookup q !! ID r = None ->
        is_Some (Enqueue now st q l))
  /\ (forall now, is_Some (Dequeue now st q))
  /\ (forall id, is_Some (Remove st q id))
  /\ (forall now, is_Some (EvictExpired now st q)).
Proof.
  apply reachable_inv in Hreach as Hi. split_and!; [done|..].
  - intros now l r Hl Hn Hid. destruct (Enqueue_spec now st q l r Hi Hl Hn Hid) as (? & ? & ? & -> & _).
    by eexists.
  - intros now. unfold Dequeue.
    destruct (dequeue_loop_spec (S (length (heap q))) now st q Hi) as (? & ? & ? & ? & -> & _); [lia|].
    by eexists.
  - intros id. destruct (Remove_queue st q id Hi) as (? & ? & -> & _). by eexists.
  - intros now. destruct (EvictExpired_spec now st q Hi) as (? & ? & -> & _). by eexists.
Qed.

(** Two requests of one tenant. *)
Definition t_request (id : string) (prio tokens : Z) : QueuedRequest :=
  mkRequest id "t" prio tokens 0 0 0 f_zero 0 0 0 f_zero 0.
Definition t_store : store := {[ 1%nat := t_request "a" 10 100; 2%nat := t_request "b" 50 30 ]}.

Definition t_call (c : store * TokenQueue) (l : loc) : store * TokenQueue :=
  match Enqueue 5 c.1 c.2 l with Some (st, q, _) => (st, q) | None => c end.
Definition t_start : store * TokenQueue := (t_store, NewTokenQueue DefaultTokenQueueConfig).
Definition t_one : store * TokenQueue := t_call t_start 1%nat.
Definition t_two : store * TokenQueue := t_call t_one 2%nat.

(** One submission of the run above, as a step. *)
Lemma t_step P c l r :
  c.1 !! l = Some r -> bool_decide (l ∈ heap c.2) = false -> lookup c.2 !! ID r = None ->
  P (EffectiveCost r) -> is_Some (Enqueue 5 c.1 c.2 l) -> queue_step P c (t_call c l).
Proof.
  intros Hl Hn Hid HP [[[st' q'] res] H]. unfold t_call. rewrite H. destruct c as [st q].
  eapply qs_enqueue; eauto. by apply bool_decide_eq_false in Hn.
Qed.

Lemma t_reach (P : Z -> Prop) : P 100 -> P 30 -> rtc (queue_step P) t_start (t_two.1, t_two.2).
Proof.
  intros H1 H2. apply (rtc_l _ _ t_one); [|apply (rtc_l _ _ t_two); [|destruct t_two; apply rtc_refl]].
  - apply (t_step P t_start 1%nat (t_request "a" 10 100));
      [vm_compute; reflexivity..|exact H1|by eexists; vm_compute].
  - apply (t_step P t_one 2%nat (t_request "b" 50 30));
      [vm_compute; reflexivity..|exact H2|by eexists; vm_compute].
Qed.

(** Two requests under one ID are both queued, the table lists the second only,
    and once one of them is dequeued the other cannot be removed. *)
Definition t_duplicate : store * TokenQueue :=
  t_call (t_call ({[ 1%nat := t_request "a" 10 100; 2%nat := t_request "a" 50 30 ]}, NewTokenQueue DefaultTokenQueueConfig) 1%nat) 2%nat.

Example duplicate_id_lost :
  length (heap t_duplicate.2) = 2%nat /\ map_to_list (lookup t_duplicate.2) = [("a", 2%nat)]
  /\ (match Dequeue 6 t_duplicate.1 t_duplicate.2 with
      | Some (st, q, _) => length (heap q) = 1%nat /\ lookup q = ∅ /\ exists st' q', Remove st q "a" = Some (st', q', false)
      | None => False
      end).
Proof. split; [by vm_compute|]. split; [by vm_compute|]. vm_compute. split; [done|]. split; [done|]. eexists _, _. reflexivity. Qed.

Lemma queue_accounting_witness : queue_inv t_two.1 t_two.2.
Proof.
  apply (queue_accounting t_store DefaultTokenQueueConfig). apply (t_reach (fun _ => True)); exact Logic.I.
Defined.

(** ** Priority *)

(** A step after which no queued score is NaN. *)
Definition scored_step (c c' : store * TokenQueue) : Prop :=
  queue_step (fun _ => True) c c' /\ scores_ok c'.1 c'.2.

Lemma queue_ordered_heap st st' q q' :
  heap q' = heap q -> (forall l, l ∈ heap q -> score_at st' l = score_at st l) ->
  queue_ordered st q -> queue_ordered st' q'.
Proof.
  intros Eh Es. unfold queue_ordered. rewrite Eh.
  replace (heap_elems (st', heap q)) with (heap_elems (st, heap q)); [done|].
  unfold heap_elems; simpl. apply list_fmap_ext. intros i l Hi.
  rewrite Es; [done|]. by eapply list_elem_of_lookup_2.
Qed.

Lemma scored_step_ordered c c' :
  queue_inv c.1 c.2 -> scores_ok c.1 c.2 -> queue_ordered c.1 c.2 -> scored_step c c' ->
  queue_ordered c'.1 c'.2.
Proof.
  intros Hi Hok Ho [Hstep Hok']. destruct Hstep as [st st' q E|now st q l r st' q' res Hl Hn Hid _ H
    |now st q st' q' o H|st q id st' q' b H|now st q st' q' n H|st q t a n]; simpl in *.
  - apply (queue_ordered_heap st st' q); [done| |done]. intros l Hl. unfold score_at. by rewrite E.
  - destruct (Enqueue_spec now st q l r Hi Hl Hn Hid) as (st1 & q1 & res1 & E & _ & _ & Hrej & Hadm).
    rewrite E in H. injection H as <- <- <-. destruct (IsAdmitted res1).
    + destruct (Hadm eq_refl) as (Hp & Hs & _ & _ & Hord). apply Hord; [done| |done].
      assert (is_nan (score_at st1 l) = false) as Hnan by (apply Hok'; rewrite Hp; set_solver).
      rewrite (score_at_same _ _ l Hs) in Hnan. unfold score_at in Hnan. by rewrite lookup_insert_eq in Hnan.
    + destruct (Hrej eq_refl) as (-> & Eh & _). by apply (queue_ordered_heap st st q).
  - destruct (dequeue_loop_spec (S (length (heap q))) now st q Hi)
      as (? & ? & ? & ? & E & _ & _ & _ & Hd); [lia|]. unfold Dequeue in H. simplify_eq. by apply Hd.
  - destruct (Remove_queue st q id Hi) as (? & ? & E & _ & _ & _ & _ & _ & Hord). simplify_eq. by apply Hord.
  - destruct (EvictExpired_spec now st q Hi) as (? & ? & E & _ & _ & _ & _ & Hord). simplify_eq. by apply Hord.
  - destruct (Finish_inv st q t a n Hi) as (_ & Eh & _). by apply (queue_ordered_heap st st q).
Qed.

Lemma reachable_ordered st0 c st q :
  rtc scored_step (st0, NewTokenQueue c) (st, q) ->
  queue_inv st q /\ scores_ok st q /\ queue_ordered st q.
Proof.
  intros H. remember (st0, NewTokenQueue c) as c0. remember (st, q) as c1.
  assert (queue_inv c0.1 c0.2 /\ scores_ok c0.1 c0.2 /\ queue_ordered c0.1 c0.2) as H0.
  { subst. split_and!; [apply NewTokenQueue_inv| |].
    - intros l Hl. by apply elem_of_nil in Hl.
    - intros i x Hk Hx. simpl in Hx. lia. }
  change (queue_inv (st, q).1 (st, q).2 /\ scores_ok (st, q).1 (st, q).2 /\ queue_ordered (st, q).1 (st, q).2).
  rewrite <- Heqc1. clear Heqc0 Heqc1.
  induction H as [|a b d Hs _ IH]; [done|]. destruct H0 as (Hi & Hok & Ho). apply IH.
  split_and!; [by eapply queue_step_inv; [|apply Hs]|apply Hs|by eapply scored_step_ordered].
Qed.

(** C16. Priority: in every reachable queue without NaN scores, the request
    [Dequeue] returns is queued and not expired, and no other queued request
    that is not expired has a greater score; the requests it drops are
    expired, everything else stays queued, and it returns nothing only if
    every queued request is expired. *)
Theorem dequeue_highest_priority st0 c st q now st' q' o
    (Hreach : rtc scored_step (st0, NewTokenQueue c) (st, q))
    (Hrun : Dequeue now st q = Some (st', q', o)) :
  (forall l, o = Some l -> l ∈ heap q /\ expired_at now st l = false
     /\ forall x, x ∈ heap q -> expired_at now st x = false ->
           f_lt (score_at st l) (score_at st x) = false)
  /\ (o = None -> forall x, x ∈ heap q -> expired_at now st x = true)
  /\ exists dropped, Forall (fun l => expired_at now st l = true) dropped
       /\ option_list o ++ dropped ++ heap q' ≡ₚ heap q.
Proof.
  apply reachable_ordered in Hreach as (Hi & Hok & Ho).
  destruct (dequeue_loop_spec (S (length (heap q))) now st q Hi)
    as (st1 & q1 & o1 & dr & E & _ & _ & _ & Hdr & Hp & Hnone & Hnexp & Hord); [lia|].
  unfold Dequeue in Hrun. rewrite E in Hrun. injection Hrun as <- <- <-.
  destruct (Hord Hok Ho) as [_ Htop].
  assert (forall x, x ∈ dr -> expired_at now st x = true) as Hdr' by (by apply Forall_forall).
  split_and!.
  - intros l ->. simpl in Hp. split; [rewrite <- Hp; set_solver|]. split; [by apply Hnexp|].
    intros x Hx Hexp. rewrite <- Hp, elem_of_cons, elem_of_app in Hx.
    destruct Hx as [->|[Hx|Hx]]; [apply f_lt_irrefl|by rewrite Hdr' in Hexp|by apply Htop].
  - intros ->. rewrite Hnone in Hp by done. simpl in Hp. rewrite app_nil_r in Hp.
    intros x Hx. apply Hdr'. by rewrite Hp.
  - by exists dr.
Qed.

Lemma t_scores (c : store * TokenQueue) :
  forallb (fun l => negb (is_nan (score_at c.1 l))) (heap c.2) = true -> scores_ok c.1 c.2.
Proof.
  intros H l Hl. rewrite forallb_forall in H. specialize (H l).
  destruct (is_nan (score_at c.1 l)); [|done]. exfalso. apply list_elem_of_In in Hl. by apply H in Hl.
Qed.

Lemma t_scored_reach : rtc scored_step t_start (t_two.1, t_two.2).
Proof.
  apply (rtc_l _ _ t_one); [|apply (rtc_l _ _ t_two); [|destruct t_two; apply rtc_refl]].
  - split; [|apply t_scores; vm_compute; reflexivity].
    apply (t_step _ t_start 1%nat (t_request "a" 10 100));
      [vm_compute; reflexivity..|exact Logic.I|by eexists; vm_compute].
  - split; [|apply t_scores; vm_compute; reflexivity].
    apply (t_step _ t_one 2%nat (t_request "b" 50 30));
      [vm_compute; reflexivity..|exact Logic.I|by eexists; vm_compute].
Qed.

(** The request with the higher priority comes first. *)
Lemma dequeue_highest_priority_witness :
  exists st' q', Dequeue 9 t_two.1 t_two.2 = Some (st', q', Some 2%nat)
    /\ f_lt (score_at t_two.1 2%nat) (score_at t_two.1 1%nat) = false.
Proof.
  destruct (Dequeue 9 t_two.1 t_two.2) as [[[st' q'] o]|] eqn:E; [|vm_compute in E; discriminate E].
  assert (o = Some 2%nat) as ->.
  { assert (snd <$> Dequeue 9 t_two.1 t_two.2 = Some (Some 2%nat)) as H by (vm_compute; reflexivity).
    rewrite E in H. injection H as ->. reflexivity. }
  exists st', q'. split; [reflexivity|].
  destruct (dequeue_highest_priority t_store DefaultTokenQueueConfig t_two.1 t_two.2 9 st' q'
    (Some 2%nat) t_scored_reach E) as [H _].
  destruct (H 2%nat eq_refl) as (_ & _ & H'). apply H'; [by_computation|vm_compute; reflexivity].
Defined.

(** ** Capacity *)

Lemma EffectiveCost_pos r : 1 <= EffectiveCost r.
Proof.
  unfold EffectiveCost. case_bool_decide; [lia|]. case_bool_decide; case_bool_decide; lia.
Qed.

Lemma cost_at_nonneg st l : 0 <= cost_at st l.
Proof. unfold cost_at. destruct (st !! l) as [r|]; [|lia]. pose proof (EffectiveCost_pos r). lia. Qed.

Lemma tokens_of_bounds st t l : 0 <= tokens_of st t l <= cost_at st l.
Proof. unfold tokens_of. pose proof (cost_at_nonneg st l). destruct (of_tenant st t l); lia. Qed.

Lemma requests_of_bounds st t l : 0 <= requests_of st t l <= 1.
Proof. unfold requests_of. destruct (of_tenant st t l); lia. Qed.

Lemma zsum_le {A} (f g : A -> Z) l : (forall a, f a <= g a) -> zsum f l <= zsum g l.
Proof. intros H. induction l as [|a l IH]; simpl; [lia|]. specialize (H a). lia. Qed.

Lemma zsum_one {A} (l : list A) : zsum (fun _ => 1) l = Z.of_nat (length l).
Proof. induction l as [|a l IH]; simpl; lia. Qed.

(** The limits of the configuration, on the queued requests themselves. *)
Record capacity (st : store) (hp : list loc) (q : TokenQueue) : Prop := {
  cp_depth : Z.of_nat (length hp) <= MaxQueueDepth (cfg q);
  cp_tokens : zsum (cost_at st) hp <= MaxQueueTokens (cfg q);
  cp_tenant_requests t : 0 < MaxQueuedRequests (getTenantConfig q t) ->
    zsum (requests_of st t) hp <= MaxQueuedRequests (getTenantConfig q t);
  cp_tenant_tokens t : 0 < MaxQueuedTokens (getTenantConfig q t) ->
    zsum (tokens_of st t) hp <= MaxQueuedTokens (getTenantConfig q t)
}.

Lemma capacity_perm st hp hp' q : hp ≡ₚ hp' -> capacity st hp q -> capacity st hp' q.
Proof. intros Hp [H1 H2 H3 H4]. split; intros; rewrite <- ?Hp; auto. Qed.

Lemma capacity_frame st st' hp q q' :
  cfg q' = cfg q -> same_shape st st' -> capacity st hp q -> capacity st' hp q'.
Proof.
  intros Ec Hs [H1 H2 H3 H4].
  assert (forall t, getTenantConfig q' t = getTenantConfig q t) as Eg
    by (intros; unfold getTenantConfig; by rewrite Ec).
  assert (forall (f g : loc -> Z), (forall l, f l = g l) -> zsum f hp = zsum g hp) as Ez
    by (intros f g E; apply zsum_ext; auto).
  split; intros; rewrite ?Ec, ?Eg in *.
  - done.
  - rewrite (Ez _ (cost_at st)); [done|]. intros l. apply Hs.
  - rewrite (Ez _ (requests_of st t)); [auto|]. intros l. unfold requests_of. by rewrite (proj2 (Hs l)).
  - rewrite (Ez _ (tokens_of st t)); [auto|]. intros l. unfold tokens_of.
    by rewrite (proj2 (Hs l)), (proj1 (Hs l)).
Qed.

(** Dropping requests keeps the limits. *)
Lemma capacity_shrink st dropped hp q : capacity st (dropped ++ hp) q -> capacity st hp q.
Proof.
  intros [H1 H2 H3 H4].
  assert (forall f : loc -> Z, (forall l, 0 <= f l) -> zsum f hp <= zsum f (dropped ++ hp)) as E.
  { intros f Hf. rewrite zsum_app. pose proof (zsum_nonneg f dropped ltac:(auto)). lia. }
  split; intros.
  - rewrite length_app in H1. lia.
  - etransitivity; [apply E, cost_at_nonneg|done].
  - etransitivity; [apply E; intros l; apply requests_of_bounds|auto].
  - etransitivity; [apply E; intros l; apply tokens_of_bounds|auto].
Qed.

(** An admitted request fits, when its cost cannot overflow the sums. *)
Lemma admission_capacity now st q l r :
  queue_inv st q -> capacity st (heap q) q -> st !! l = Some r ->
  MaxQueueDepth (cfg q) < 2 ^ 63 -> EffectiveCost r + MaxQueueTokens (cfg q) < 2 ^ 63 ->
  fst (fst (evaluateAdmission q r (getTenantConfig q (TenantID r)) (tenant_state q (TenantID r))
    (EffectiveCost r) now)) = DispositionAdmit ->
  capacity st (l :: heap q) q.
Proof.
  intros [_ [T R K] _] [H1 H2 H3 H4] Hl Hd Hc Hadm. pose proof (EffectiveCost_pos r) as Hpos.
  assert (0 <= zsum (cost_at st) (heap q)) as S0 by (apply zsum_nonneg; auto using cost_at_nonneg).
  assert (forall t, 0 <= zsum (requests_of st t) (heap q) <= Z.of_nat (length (heap q))) as S1.
  { intros t. split; [apply zsum_nonneg; intros; apply requests_of_bounds|].
    rewrite <- zsum_one. apply zsum_le. intros; apply requests_of_bounds. }
  assert (forall t, 0 <= zsum (tokens_of st t) (heap q) <= zsum (cost_at st) (heap q)) as S2.
  { intros t. split; [apply zsum_nonneg; intros; apply tokens_of_bounds|].
    apply zsum_le. intros; apply tokens_of_bounds. }
  unfold evaluateAdmission in Hadm. rewrite T, R, K in Hadm.
  rewrite !i64_wrap_add_l in Hadm.
  rewrite (i64_wrap_small (zsum (cost_at st) (heap q) + _)) in Hadm by (unfold i64_range; lia).
  specialize (S1 (TenantID r)) as S1r. specialize (S2 (TenantID r)) as S2r.
  destruct (negb _ && After _ _); [done|].
  destruct (bool_decide_reflect (MaxQueueDepth (cfg q) < Z.of_nat (length (heap q)) + 1)); [done|].
  destruct (bool_decide_reflect (MaxQueueTokens (cfg q) < zsum (cost_at st) (heap q) + EffectiveCost r));
    [done|].
  rewrite (i64_wrap_small (zsum (requests_of st _) (heap q) + 1)) in Hadm by (unfold i64_range; lia).
  rewrite (i64_wrap_small (zsum (tokens_of st _) (heap q) + EffectiveCost r)) in Hadm
    by (unfold i64_range; lia).
  assert (forall t, t <> TenantID r -> of_tenant st t l = false) as Hother
    by (intros t Ht; unfold of_tenant; rewrite Hl; by apply bool_decide_eq_false).
  assert (of_tenant st (TenantID r) l = true) as Hown by (unfold of_tenant; rewrite Hl; by apply bool_decide_eq_true).
  assert (cost_at st l = EffectiveCost r) as Hcost by (unfold cost_at; by rewrite Hl).
  split; intros; cbn [length zsum foldr]; fold (zsum (cost_at st) (heap q)).
  - lia.
  - rewrite Hcost. lia.
  - fold (zsum (requests_of st t) (heap q)). unfold requests_of at 1.
    destruct (decide (t = TenantID r)) as [->|Ht]; [|rewrite Hother by done; specialize (H3 t); lia].
    rewrite Hown. rewrite (bool_decide_true (0 < MaxQueuedRequests _)) in Hadm by done.
    simpl in Hadm. case_bool_decide; [done|]. lia.
  - fold (zsum (tokens_of st t) (heap q)). unfold tokens_of at 1.
    destruct (decide (t = TenantID r)) as [->|Ht]; [|rewrite Hother by done; specialize (H4 t); lia].
    rewrite Hown, Hcost.
    destruct (bool_decide (0 < MaxQueuedRequests _) && _); [done|].
    rewrite (bool_decide_true (0 < MaxQueuedTokens _)) in Hadm by done.
    simpl in Hadm. case_bool_decide; [done|]. lia.
Qed.

Lemma live_split now st hp : exists dropped, dropped ++ live now st hp ≡ₚ hp.
Proof.
  exists (filter (fun l => expired_at now st l = true) hp). unfold live.
  induction hp as [|l hp IH]; [done|]. rewrite !filter_cons.
  destruct (expired_at now st l); simpl; rewrite <- IH at 3; [done|]. by rewrite <- Permutation_middle.
Qed.

Lemma env_shape st st' q :
  (forall l, l ∈ heap q -> st' !! l = st !! l) -> capacity st (heap q) q -> capacity st' (heap q) q.
Proof.
  intros E [H1 H2 H3 H4].
  assert (forall (f g : loc -> Z), (forall l, l ∈ heap q -> f l = g l) ->
    zsum f (heap q) = zsum g (heap q)) as Ez by (intros f g H; by apply zsum_ext).
  split; intros; [done|rewrite (Ez _ (cost_at st))|rewrite (Ez _ (requests_of st t))
    |rewrite (Ez _ (tokens_of st t))]; auto; intros l Hl;
    unfold requests_of, tokens_of, of_tenant, cost_at; by rewrite E.
Qed.

Lemma queue_step_capacity P c c' :
  queue_inv c.1 c.2 -> capacity c.1 (heap c.2) c.2 -> MaxQueueDepth (cfg c.2) < 2 ^ 63 ->
  (forall z, P z -> z + MaxQueueTokens (cfg c.2) < 2 ^ 63) -> queue_step P c c' ->
  capacity c'.1 (heap c'.2) c'.2 /\ cfg c'.2 = cfg c.2.
Proof.
  intros Hi Hcap Hd HP Hstep. destruct Hstep as [st st' q E|now st q l r st' q' res Hl Hn Hid HPr H
    |now st q st' q' o H|st q id st' q' b H|now st q st' q' n H|st q t a n]; simpl in *.
  - split; [by apply (env_shape st)|done].
  - destruct (Enqueue_spec now st q l r Hi Hl Hn Hid) as (st1 & q1 & res1 & E & _ & Ec & Hrej & Hadm).
    rewrite E in H. injection H as <- <- <-. split; [|done]. destruct (IsAdmitted res1).
    + destruct (Hadm eq_refl) as (Hp & Hs & _ & Had & _).
      apply (capacity_perm _ (l :: heap q)); [by rewrite Hp|]. apply (capacity_frame st _ _ q); [done| |].
      * transitivity (<[l := scored now q r]> st); [|by apply same_requests_shape].
        destruct (scored_fields now q r) as (_ & E2 & E1 & _). by apply (rescored_shape st l r).
      * by apply (admission_capacity now st q l r); auto.
    + destruct (Hrej eq_refl) as (-> & Eh & _). rewrite Eh. by apply (capacity_frame st _ _ q).
  - destruct (dequeue_loop_spec (S (length (heap q))) now st q Hi)
      as (st1 & q1 & o1 & dr & E & _ & Hs & Ec & _ & Hp & _); [lia|]. unfold Dequeue in H.
    rewrite E in H. injection H as <- <- <-. split; [|done]. apply (capacity_frame st _ _ q);
      [done|by apply same_requests_shape|]. apply (capacity_shrink st (option_list o1 ++ dr)).
    apply (capacity_perm _ (heap q)); [|done]. by rewrite <- Hp, app_assoc.
  - destruct (Remove_queue st q id Hi) as (st1 & q1 & E & _ & Hs & Ec & Hno & Hyes & _).
    rewrite E in H. injection H as <- <- <-. split; [|done].
    destruct (lookup q !! id) as [l|]; [|by destruct (Hno eq_refl) as [-> ->]].
    apply (capacity_frame st _ _ q); [done|by apply same_requests_shape|].
    apply (capacity_shrink st [l]). apply (capacity_perm _ (heap q)); [|done]. symmetry. by apply Hyes.
  - destruct (EvictExpired_spec now st q Hi) as (st1 & q1 & E & _ & Hp & Ec & Hsh & _).
    rewrite E in H. injection H as <- <- <-. split; [|done].
    apply (capacity_frame st _ _ q); [done|done|]. apply (capacity_perm _ (live now st (heap q))); [by rewrite Hp|].
    destruct (live_split now st (heap q)) as [dr Hdr]. apply (capacity_shrink st dr).
    by apply (capacity_perm _ (heap q)).
  - destruct (Finish_inv st q t a n Hi) as (_ & Eh & Ec). rewrite Eh, Ec. split; [|done].
    by apply (capacity_frame st _ _ q).
Qed.

(** Capacity: while no submitted cost can overflow the token total, every
    reachable queue holds at most the configured number of requests and
    tokens, in total and per tenant where the tenant has a limit, and its
    token total is exactly the sum of the queued costs. *)
Theorem queue_capacity st0 c st q
    (Hdepth : MaxQueueDepth c < 2 ^ 63) (Htokens : MaxQueueTokens c < 2 ^ 63)
    (Hreach : rtc (queue_step (fun cost => cost + MaxQueueTokens (cfg (NewTokenQueue c)) < 2 ^ 63))
                (st0, NewTokenQueue c) (st, q)) :
  capacity st (heap q) q /\ cfg q = cfg (NewTokenQueue c)
  /\ totalTokens q = zsum (cost_at st) (heap q)
  /\ 0 <= totalTokens q <= MaxQueueTokens (cfg q).
Proof.
  apply reachable_inv in Hreach as Hi.
  assert (MaxQueueDepth (cfg (NewTokenQueue c)) < 2 ^ 63) as Hd by (simpl; case_bool_decide; lia).
  assert (0 < MaxQueueDepth (cfg (NewTokenQueue c)) /\ 0 < MaxQueueTokens (cfg (NewTokenQueue c)))
    as [Hd0 Ht0] by (simpl; split; case_bool_decide; lia).
  assert (capacity st (heap q) q /\ cfg q = cfg (NewTokenQueue c)) as [Hcap Ec].
  { remember (st0, NewTokenQueue c) as c0. remember (st, q) as c1.
    change (capacity (st, q).1 (heap (st, q).2) (st, q).2 /\ cfg (st, q).2 = cfg (NewTokenQueue c)).
    assert (queue_inv c0.1 c0.2) as Hi0 by (subst; apply NewTokenQueue_inv).
    assert (capacity c0.1 (heap c0.2) c0.2) as Hcap by (subst; split; intros; simpl in *; lia).
    assert (cfg c0.2 = cfg (NewTokenQueue c)) as Ec by (by subst).
    rewrite <- Heqc1. clear Heqc0 Heqc1 Hi.
    induction Hreach as [|a b d Hs _ IH]; [done|].
    destruct (queue_step_capacity (fun cost => cost + MaxQueueTokens (cfg (NewTokenQueue c)) < 2 ^ 63) a b)
      as [Hcap' Ec']; [done|done|by rewrite Ec|by rewrite Ec|done|].
    apply IH; [by eapply queue_step_inv|done|congruence]. }
  assert (0 <= zsum (cost_at st) (heap q)) as S0 by (apply zsum_nonneg; auto using cost_at_nonneg).
  assert (totalTokens q = i64_wrap (zsum (cost_at st) (heap q))) as Ht by apply Hi.
  pose proof (cp_tokens _ _ _ Hcap) as Hmax.
  assert (MaxQueueTokens (cfg q) < 2 ^ 63) as Hm by (rewrite Ec; simpl; case_bool_decide; lia).
  rewrite i64_wrap_small in Ht by (unfold i64_range; lia). rewrite Ht. done.
Qed.

Lemma queue_capacity_witness : 0 <= totalTokens t_two.2 <= MaxQueueTokens (cfg t_two.2).
Proof.
  apply (queue_capacity t_store DefaultTokenQueueConfig t_two.1 t_two.2); [reflexivity|reflexivity|].
  apply (t_reach (fun cost => cost + MaxQueueTokens (cfg (NewTokenQueue DefaultTokenQueueConfig)) < 2 ^ 63));
    vm_compute; reflexivity.
Defined.

(** The capacity check overflows: with 100 tokens queued under the default
    configuration, a request predicted to cost 2^63 - 1 tokens is admitted,
    and the token total of the queue becomes negative. *)
Theorem capacity_check_overflows :
  let big := mkRequest "big" "t" 10 0 0 (2 ^ 63 - 1) 0 f_zero 0 0 0 f_zero 0 in
  let st := <[3%nat := big]> t_one.1 in
  exists st' q' res, Enqueue 7 st t_one.2 3%nat = Some (st', q', res)
    /\ IsAdmitted res = true /\ totalTokens q' = - 2 ^ 63 + 99 /\ MaxQueueTokens (cfg q') = 1000000.
Proof.
  intros big st. destruct (Enqueue 7 st t_one.2 3%nat) as [[[st' q'] res]|] eqn:E.
  2: { vm_compute in E. discriminate E. }
  exists st', q', res.
  assert ((fun x => (IsAdmitted x.2, totalTokens x.1.2, MaxQueueTokens (cfg x.1.2))) <$> Enqueue 7 st t_one.2 3%nat
    = Some (true, - 2 ^ 63 + 99, 1000000)) as H by (vm_compute; reflexivity).
  rewrite E in H. cbn [fmap option_fmap option_map fst snd] in H. clear E.
  injection H as H1 H2 H3. split; [reflexivity|]. split; [exact H1|]. split; [exact H2|exact H3].
Qed.
