(* ===== verification/BinaryTensor.v ===== *)
(** * The binary tensor wire format
    ([internal/protocol/v2/binary_tensor.go], the datatypes of [types.go])

    A byte is an integer between 0 and 255.  The dynamically typed [data any]
    of the encoder is a tagged union of the slices the encoder accepts;
    integers are kept with the range of their width, and floats as their bit
    patterns, on which [math.Float32bits] and the like are the identity.  A
    run-time panic ([make] with a length out of range, a slice expression out
    of bounds) is [None]. *)

From S2P Require Import Prelude.

(** ** Data *)

Definition DatatypeBOOL : string := "BOOL".
Definition DatatypeUINT8 : string := "UINT8".
Definition DatatypeUINT16 : string := "UINT16".
Definition DatatypeUINT32 : string := "UINT32".
Definition DatatypeUINT64 : string := "UINT64".
Definition DatatypeINT8 : string := "INT8".
Definition DatatypeINT16 : string := "INT16".
Definition DatatypeINT32 : string := "INT32".
Definition DatatypeINT64 : string := "INT64".
Definition DatatypeFP16 : string := "FP16".
Definition DatatypeFP32 : string := "FP32".
Definition DatatypeFP64 : string := "FP64".
Definition DatatypeBF16 : string := "BF16".
Definition DatatypeBYTES : string := "BYTES".

Definition DatatypeSize (dt : string) : Z :=
  if (dt ==? DatatypeBOOL) || (dt ==? DatatypeUINT8) || (dt ==? DatatypeINT8) then 1
  else if (dt ==? DatatypeUINT16) || (dt ==? DatatypeINT16) || (dt ==? DatatypeFP16)
          || (dt ==? DatatypeBF16) then 2
  else if (dt ==? DatatypeUINT32) || (dt ==? DatatypeINT32) || (dt ==? DatatypeFP32) then 4
  else if (dt ==? DatatypeUINT64) || (dt ==? DatatypeINT64) || (dt ==? DatatypeFP64) then 8
  else 0.

(** The dynamic types of [data any]; [TOther] is any other one. *)
Inductive Tensor :=
| TBool (vals : list bool)
| TUint8 (vals : list Z)
| TUint16 (vals : list Z)
| TUint32 (vals : list Z)
| TUint64 (vals : list Z)
| TInt8 (vals : list Z)
| TInt16 (vals : list Z)
| TInt32 (vals : list Z)
| TInt64 (vals : list Z)
| TFloat32 (bits : list Z)
| TFloat64 (bits : list Z)
| TBytes (vals : list (list Z))
| TOther.

Inductive Err := ErrUnsupported | ErrWrongType | ErrTooShort | ErrUnexpectedEnd.

(** ** Little-endian bytes *)

(** [PutUint16] and its relatives: the [n] low bytes, lowest first. *)
Fixpoint le_bytes (n : nat) (v : Z) : list Z :=
  match n with
  | O => []
  | S n => v mod 256 :: le_bytes n (v / 256)
  end.

Fixpoint le_value (l : list Z) : Z :=
  match l with
  | [] => 0
  | b :: l => b + 256 * le_value l
  end.

(** [Uint16(raw[off:])] and its relatives. *)
Definition read_le (n : nat) (raw : list Z) (off : nat) : Z := le_value (take n (drop off raw)).

Definition put_all (n : nat) (vals : list Z) : list Z := concat (map (le_bytes n) vals).

(** Conversions between signed and unsigned integers of [w] bits. *)
Definition unsigned (w v : Z) : Z := v mod 2 ^ w.
Definition signed (w v : Z) : Z := swrap w v.

(** ** Encoding *)

Definition encodeBool (data : Tensor) : list Z + Err :=
  match data with TBool vals => inl (map (fun v : bool => if v then 1 else 0) vals) | _ => inr ErrWrongType end.

Definition encodeUint8 (data : Tensor) : list Z + Err :=
  match data with TUint8 vals => inl vals | _ => inr ErrWrongType end.

Definition encodeUint16 (data : Tensor) : list Z + Err :=
  match data with TUint16 vals => inl (put_all 2 vals) | _ => inr ErrWrongType end.

Definition encodeUint32 (data : Tensor) : list Z + Err :=
  match data with TUint32 vals => inl (put_all 4 vals) | _ => inr ErrWrongType end.

Definition encodeUint64 (data : Tensor) : list Z + Err :=
  match data with TUint64 vals => inl (put_all 8 vals) | _ => inr ErrWrongType end.

Definition encodeInt8 (data : Tensor) : list Z + Err :=
  match data with TInt8 vals => inl (map (unsigned 8) vals) | _ => inr ErrWrongType end.

Definition encodeInt16 (data : Tensor) : list Z + Err :=
  match data with TInt16 vals => inl (put_all 2 (map (unsigned 16) vals)) | _ => inr ErrWrongType end.

Definition encodeInt32 (data : Tensor) : list Z + Err :=
  match data with TInt32 vals => inl (put_all 4 (map (unsigned 32) vals)) | _ => inr ErrWrongType end.

Definition encodeInt64 (data : Tensor) : list Z + Err :=
  match data with TInt64 vals => inl (put_all 8 (map (unsigned 64) vals)) | _ => inr ErrWrongType end.

Definition encodeFP16 (data : Tensor) : list Z + Err :=
  match data with TUint16 vals => inl (put_all 2 vals) | _ => inr ErrWrongType end.

Definition encodeFP32 (data : Tensor) : list Z + Err :=
  match data with TFloat32 bits => inl (put_all 4 bits) | _ => inr ErrWrongType end.

Definition encodeFP64 (data : Tensor) : list Z + Err :=
  match data with TFloat64 bits => inl (put_all 8 bits) | _ => inr ErrWrongType end.

(** Each element after its length as a [uint32]. *)
Definition encode_element (v : list Z) : list Z :=
  le_bytes 4 (unsigned 32 (Z.of_nat (length v))) ++ v.

Definition encodeBytes (data : Tensor) : list Z + Err :=
  match data with TBytes vals => inl (concat (map encode_element vals)) | _ => inr ErrWrongType end.

Definition EncodeTensor (datatype : string) (data : Tensor) : list Z + Err :=
  if datatype ==? DatatypeBOOL then encodeBool data
  else if datatype ==? DatatypeUINT8 then encodeUint8 data
  else if datatype ==? DatatypeUINT16 then encodeUint16 data
  else if datatype ==? DatatypeUINT32 then encodeUint32 data
  else if datatype ==? DatatypeUINT64 then encodeUint64 data
  else if datatype ==? DatatypeINT8 then encodeInt8 data
  else if datatype ==? DatatypeINT16 then encodeInt16 data
  else if datatype ==? DatatypeINT32 then encodeInt32 data
  else if datatype ==? DatatypeINT64 then encodeInt64 data
  else if datatype ==? DatatypeFP16 then encodeFP16 data
  else if datatype ==? DatatypeFP32 then encodeFP32 data
  else if datatype ==? DatatypeFP64 then encodeFP64 data
  else if datatype ==? DatatypeBYTES then encodeBytes data
  else inr ErrUnsupported.

Definition TensorBinarySize (datatype : string) (data : Tensor) : Z + Err :=
  match EncodeTensor datatype data with
  | inl encoded => inl (Z.of_nat (length encoded))
  | inr err => inr err
  end.

(** ** Decoding *)

(** The largest allocation of the run time on 64-bit platforms: [make]
    panics beyond it and for a negative length. *)
Definition maxAlloc : Z := 2 ^ 48.
Definition make_ok (n size : Z) : bool := (0 <=? n) && (n * size <=? maxAlloc).

(** The common shape of the fixed-width decoders: the length check on the
    wrapped product, the allocation, the loop. *)
Definition decode_fixed (size : nat) (raw : list Z) (n : Z) : option (list Z + Err) :=
  let expected := i64_wrap (n * Z.of_nat size) in
  if Z.of_nat (length raw) <? expected then Some (inr ErrTooShort)
  else if negb (make_ok n (Z.of_nat size)) then None
  else if bool_decide (Z.of_nat (length raw) < n * Z.of_nat size) then None
  else Some (inl (map (fun i => read_le size raw (i * size)) (seq 0 (Z.to_nat n)))).

(** Tagging the decoded values. *)
Definition wrap {A} (tag : A -> Tensor) (r : option (A + Err)) : option (Tensor + Err) :=
  match r with
  | Some (inl vals) => Some (inl (tag vals))
  | Some (inr err) => Some (inr err)
  | None => None
  end.

Definition decodeBool (raw : list Z) (n : Z) : option (Tensor + Err) :=
  wrap (fun vals => TBool (map (fun b => b !=? 0) vals)) (decode_fixed 1 raw n).

(** [raw[:n]]. *)
Definition decodeUint8 (raw : list Z) (n : Z) : option (Tensor + Err) :=
  if Z.of_nat (length raw) <? n then Some (inr ErrTooShort)
  else if n <? 0 then None
  else Some (inl (TUint8 (take (Z.to_nat n) raw))).

Definition decodeUint16 (raw : list Z) (n : Z) : option (Tensor + Err) := wrap TUint16 (decode_fixed 2 raw n).
Definition decodeUint32 (raw : list Z) (n : Z) : option (Tensor + Err) := wrap TUint32 (decode_fixed 4 raw n).
Definition decodeUint64 (raw : list Z) (n : Z) : option (Tensor + Err) := wrap TUint64 (decode_fixed 8 raw n).
Definition decodeInt8 (raw : list Z) (n : Z) : option (Tensor + Err) :=
  wrap (fun vals => TInt8 (map (signed 8) vals)) (decode_fixed 1 raw n).
Definition decodeInt16 (raw : list Z) (n : Z) : option (Tensor + Err) :=
  wrap (fun vals => TInt16 (map (signed 16) vals)) (decode_fixed 2 raw n).
Definition decodeInt32 (raw : list Z) (n : Z) : option (Tensor + Err) :=
  wrap (fun vals => TInt32 (map (signed 32) vals)) (decode_fixed 4 raw n).
Definition decodeInt64 (raw : list Z) (n : Z) : option (Tensor + Err) :=
  wrap (fun vals => TInt64 (map (signed 64) vals)) (decode_fixed 8 raw n).
Definition decodeFP16 (raw : list Z) (n : Z) : option (Tensor + Err) := wrap TUint16 (decode_fixed 2 raw n).
Definition decodeFP32 (raw : list Z) (n : Z) : option (Tensor + Err) := wrap TFloat32 (decode_fixed 4 raw n).
Definition decodeFP64 (raw : list Z) (n : Z) : option (Tensor + Err) := wrap TFloat64 (decode_fixed 8 raw n).

(** The loop of [decodeBytes] over the remaining elements; [rest] is
    [raw[offset:]]. *)
Fixpoint bytes_loop (n : nat) (rest : list Z) : list (list Z) + Err :=
  match n with
  | O => inl []
  | S n =>
      if bool_decide (length rest < 4)%nat then inr ErrUnexpectedEnd
      else
        let len := Z.to_nat (read_le 4 rest 0) in
        let rest := drop 4 rest in
        if bool_decide (length rest < len)%nat then inr ErrUnexpectedEnd
        else match bytes_loop n (drop len rest) with
             | inl vals => inl (take len rest :: vals)
             | inr err => inr err
             end
  end.

(** A slice header takes 24 bytes. *)
Definition decodeBytes (raw : list Z) (n : Z) : option (Tensor + Err) :=
  if negb (make_ok n 24) then None
  else wrap TBytes (Some (bytes_loop (Z.to_nat n) raw)).

Definition numElements (shape : list Z) : Z := foldl (fun n dim => i64_wrap (n * dim)) 1 shape.

Definition DecodeTensor (datatype : string) (raw : list Z) (shape : list Z) : option (Tensor + Err) :=
  let n := numElements shape in
  if datatype ==? DatatypeBOOL then decodeBool raw n
  else if datatype ==? DatatypeUINT8 then decodeUint8 raw n
  else if datatype ==? DatatypeUINT16 then decodeUint16 raw n
  else if datatype ==? DatatypeUINT32 then decodeUint32 raw n
  else if datatype ==? DatatypeUINT64 then decodeUint64 raw n
  else if datatype ==? DatatypeINT8 then decodeInt8 raw n
  else if datatype ==? DatatypeINT16 then decodeInt16 raw n
  else if datatype ==? DatatypeINT32 then decodeInt32 raw n
  else if datatype ==? DatatypeINT64 then decodeInt64 raw n
  else if datatype ==? DatatypeFP16 then decodeFP16 raw n
  else if datatype ==? DatatypeFP32 then decodeFP32 raw n
  else if datatype ==? DatatypeFP64 then decodeFP64 raw n
  else if datatype ==? DatatypeBYTES then decodeBytes raw n
  else Some (inr ErrUnsupported).

(** ** Round trips of the pieces *)

Lemma le_bytes_length n v : length (le_bytes n v) = n.
Proof. revert v. induction n; intros v; simpl; congruence. Qed.

Lemma le_value_bytes n v : 0 <= v < 256 ^ Z.of_nat n -> le_value (le_bytes n v) = v.
Proof.
  revert v. induction n as [|n IH]; intros v Hv; [simpl in *; lia|].
  rewrite Nat2Z.inj_succ, Z.pow_succ_r in Hv by lia. cbn [le_bytes le_value].
  rewrite IH by (split; [apply Z.div_pos|apply Z.div_lt_upper_bound]; lia).
  pose proof (Z.div_mod v 256). lia.
Qed.

Lemma put_all_length size vals : length (put_all size vals) = (length vals * size)%nat.
Proof.
  unfold put_all. induction vals as [|v vals IH]; simpl; [done|].
  rewrite length_app, le_bytes_length, IH. lia.
Qed.

(** Reading the [i]-th block. *)
Lemma read_all size vals extra :
  (forall v, v ∈ vals -> 0 <= v < 256 ^ Z.of_nat size) ->
  map (fun i => read_le size (put_all size vals ++ extra) (i * size)) (seq 0 (length vals)) = vals.
Proof.
  induction vals as [|v vals IH]; intros Hv; [done|].
  cbn [length seq map]. f_equal.
  - unfold read_le, put_all. cbn [map concat]. rewrite Nat.mul_0_l, drop_0.
    rewrite <- app_assoc, take_app_le by (rewrite le_bytes_length; lia).
    rewrite take_ge by (rewrite le_bytes_length; lia). apply le_value_bytes, Hv. set_solver.
  - rewrite <- seq_shift, map_map. rewrite <- IH at 2 by (intros; apply Hv; set_solver).
    apply map_ext. intros i. unfold read_le. f_equal. f_equal. unfold put_all. cbn [map concat].
    rewrite <- app_assoc, drop_app_ge by (rewrite le_bytes_length; lia).
    rewrite le_bytes_length. f_equal. lia.
Qed.

Lemma decode_fixed_spec size raw n :
  0 <= n -> n * Z.of_nat size <= maxAlloc ->
  decode_fixed size raw n =
    if Z.of_nat (length raw) <? n * Z.of_nat size then Some (inr ErrTooShort)
    else Some (inl (map (fun i => read_le size raw (i * size)) (seq 0 (Z.to_nat n)))).
Proof.
  intros Hn Hm. unfold decode_fixed, make_ok. unfold maxAlloc in *.
  rewrite i64_wrap_small by (unfold i64_range; lia).
  case_bool_decide; [done|]. by rewrite !bool_decide_true by (done || lia).
Qed.

Lemma decode_put_all size vals extra :
  (forall v, v ∈ vals -> 0 <= v < 256 ^ Z.of_nat size) ->
  Z.of_nat (length vals) * Z.of_nat size <= maxAlloc ->
  decode_fixed size (put_all size vals ++ extra) (Z.of_nat (length vals)) = Some (inl vals).
Proof.
  intros Hv Hm. rewrite decode_fixed_spec by (done || lia).
  rewrite bool_decide_false by (rewrite length_app, put_all_length; lia).
  by rewrite Nat2Z.id, read_all.
Qed.

Lemma put_all_one vals :
  (forall v, v ∈ vals -> 0 <= v < 256) -> put_all 1 vals = vals.
Proof.
  unfold put_all. induction vals as [|v vals IH]; intros Hv; [done|].
  change (le_bytes 1 v ++ concat (map (le_bytes 1) vals) = v :: vals).
  rewrite IH by (intros; apply Hv; set_solver). simpl. by rewrite Z.mod_small by (apply Hv; set_solver).
Qed.

(** Two's complement of [w] bits. *)
Lemma signed_unsigned w v : 0 < w -> - 2 ^ (w - 1) <= v < 2 ^ (w - 1) -> signed w (unsigned w v) = v.
Proof.
  intros Hw Hv. unfold signed, unsigned.
  assert (swrap w (v mod 2 ^ w) = swrap w v) as ->; [|by apply swrap_small].
  unfold swrap. f_equal. by rewrite Zplus_mod_idemp_l.
Qed.

Lemma map_signed_unsigned w vals :
  0 < w -> (forall v, v ∈ vals -> - 2 ^ (w - 1) <= v < 2 ^ (w - 1)) ->
  map (signed w) (map (unsigned w) vals) = vals.
Proof.
  intros Hw Hv. rewrite map_map. rewrite <- (map_id vals) at 2. apply map_ext_in. intros v Hin.
  apply signed_unsigned; [done|]. apply Hv. by apply list_elem_of_In.
Qed.

Lemma unsigned_range w vals v : 0 <= w -> v ∈ map (unsigned w) vals -> 0 <= v < 2 ^ w.
Proof.
  intros Hw Hv. apply list_elem_of_fmap in Hv as (x & -> & _). unfold unsigned.
  apply Z.mod_pos_bound. apply Z.pow_pos_nonneg; lia.
Qed.

Lemma bytes_loop_encode vals extra :
  (forall v, v ∈ vals -> Z.of_nat (length v) < 2 ^ 32) ->
  bytes_loop (length vals) (concat (map encode_element vals) ++ extra) = inl vals.
Proof.
  induction vals as [|v vals IH]; intros Hv; [done|].
  assert (Z.of_nat (length v) < 2 ^ 32) as Hlen by (apply Hv; set_solver).
  set (rest := concat (map encode_element vals) ++ extra) in *.
  assert (concat (map encode_element (v :: vals)) ++ extra
          = le_bytes 4 (Z.of_nat (length v)) ++ v ++ rest) as ->.
  { unfold rest. cbn [map concat]. unfold encode_element at 1, unsigned.
    rewrite Z.mod_small by lia. by rewrite <- !app_assoc. }
  cbn [length bytes_loop]. rewrite bool_decide_false by (rewrite length_app, le_bytes_length; lia).
  assert (read_le 4 (le_bytes 4 (Z.of_nat (length v)) ++ v ++ rest) 0 = Z.of_nat (length v)) as ->.
  { unfold read_le. rewrite drop_0, take_app_le by (by rewrite le_bytes_length).
    rewrite take_ge by (by rewrite le_bytes_length). apply le_value_bytes. simpl. lia. }
  rewrite drop_app_ge by (by rewrite le_bytes_length). rewrite le_bytes_length, Nat.sub_diag, drop_0, Nat2Z.id.
  rewrite bool_decide_false by (rewrite length_app; lia).
  rewrite drop_app_length, take_app_length, IH; [done|]. intros; apply Hv; set_solver.
Qed.

(** ** Well-typed tensors *)

Definition all_in (lo hi : Z) (vals : list Z) : Prop := forall v, v ∈ vals -> lo <= v < hi.

(** The Go slices a datatype stands for. *)
Inductive has_datatype : string -> Tensor -> Prop :=
| ht_bool vals : has_datatype DatatypeBOOL (TBool vals)
| ht_uint8 vals : all_in 0 (2 ^ 8) vals -> has_datatype DatatypeUINT8 (TUint8 vals)
| ht_uint16 vals : all_in 0 (2 ^ 16) vals -> has_datatype DatatypeUINT16 (TUint16 vals)
| ht_uint32 vals : all_in 0 (2 ^ 32) vals -> has_datatype DatatypeUINT32 (TUint32 vals)
| ht_uint64 vals : all_in 0 (2 ^ 64) vals -> has_datatype DatatypeUINT64 (TUint64 vals)
| ht_int8 vals : all_in (- 2 ^ 7) (2 ^ 7) vals -> has_datatype DatatypeINT8 (TInt8 vals)
| ht_int16 vals : all_in (- 2 ^ 15) (2 ^ 15) vals -> has_datatype DatatypeINT16 (TInt16 vals)
| ht_int32 vals : all_in (- 2 ^ 31) (2 ^ 31) vals -> has_datatype DatatypeINT32 (TInt32 vals)
| ht_int64 vals : all_in (- 2 ^ 63) (2 ^ 63) vals -> has_datatype DatatypeINT64 (TInt64 vals)
| ht_fp16 vals : all_in 0 (2 ^ 16) vals -> has_datatype DatatypeFP16 (TUint16 vals)
| ht_fp32 bits : all_in 0 (2 ^ 32) bits -> has_datatype DatatypeFP32 (TFloat32 bits)
| ht_fp64 bits : all_in 0 (2 ^ 64) bits -> has_datatype DatatypeFP64 (TFloat64 bits)
| ht_bytes vals :
    (forall v, v ∈ vals -> Z.of_nat (length v) < 2 ^ 32) -> has_datatype DatatypeBYTES (TBytes vals).

Definition count (t : Tensor) : nat :=
  match t with
  | TBool vals => length vals
  | TUint8 vals | TUint16 vals | TUint32 vals | TUint64 vals | TInt8 vals | TInt16 vals
  | TInt32 vals | TInt64 vals | TFloat32 vals | TFloat64 vals => length vals
  | TBytes vals => length vals
  | TOther => 0
  end.

Lemma decode_signed_spec w size vals extra :
  0 < w -> w = 8 * Z.of_nat size -> all_in (- 2 ^ (w - 1)) (2 ^ (w - 1)) vals ->
  Z.of_nat (length vals) * Z.of_nat size <= maxAlloc ->
  decode_fixed size (put_all size (map (unsigned w) vals) ++ extra) (Z.of_nat (length vals))
  = Some (inl (map (unsigned w) vals)).
Proof.
  intros Hw Hs Hv Hm.
  replace (Z.of_nat (length vals)) with (Z.of_nat (length (map (unsigned w) vals))) by (by rewrite length_map).
  apply decode_put_all; [|by rewrite length_map].
  intros v Hin. apply unsigned_range in Hin; [|lia].
  replace (256 ^ Z.of_nat size) with (2 ^ w); [done|].
  change 256 with (2 ^ 8). rewrite <- Z.pow_mul_r by lia. f_equal. done.
Qed.

(** The encodings of one byte per element. *)
Lemma decodeBool_encoded vals extra :
  Z.of_nat (length vals) <= maxAlloc ->
  decodeBool (map (fun v : bool => if v then 1 else 0) vals ++ extra) (Z.of_nat (length vals))
  = Some (inl (TBool vals)).
Proof.
  intros Hm. unfold decodeBool. set (l := map _ vals).
  assert (all_in 0 256 l) as Hl by (intros v H; apply list_elem_of_fmap in H as ([] & -> & _); lia).
  rewrite <- (put_all_one l) by done. replace (length vals) with (length l) by apply length_map.
  rewrite decode_put_all by (done || (unfold l; rewrite length_map; lia)). simpl. unfold l.
  rewrite map_map. do 3 f_equal. rewrite <- (map_id vals) at 2. apply map_ext. by intros [].
Qed.

Lemma decodeUint8_encoded vals extra :
  decodeUint8 (vals ++ extra) (Z.of_nat (length vals)) = Some (inl (TUint8 vals)).
Proof.
  unfold decodeUint8. rewrite length_app. rewrite !bool_decide_false by lia.
  by rewrite Nat2Z.id, take_app_length.
Qed.

Lemma decodeInt8_encoded vals extra :
  all_in (- 2 ^ 7) (2 ^ 7) vals -> Z.of_nat (length vals) <= maxAlloc ->
  decodeInt8 (map (unsigned 8) vals ++ extra) (Z.of_nat (length vals)) = Some (inl (TInt8 vals)).
Proof.
  intros Hv Hm. unfold decodeInt8. rewrite <- (put_all_one (map (unsigned 8) vals))
    by (intros v H; by apply (unsigned_range 8) in H).
  rewrite decode_signed_spec by (done || lia). simpl. by rewrite map_signed_unsigned.
Qed.

Lemma decodeBytes_encoded vals extra :
  (forall v, v ∈ vals -> Z.of_nat (length v) < 2 ^ 32) -> 24 * Z.of_nat (length vals) <= maxAlloc ->
  decodeBytes (concat (map encode_element vals) ++ extra) (Z.of_nat (length vals))
  = Some (inl (TBytes vals)).
Proof.
  intros Hv Hm. unfold decodeBytes, make_ok. rewrite !bool_decide_true by lia. simpl.
  by rewrite Nat2Z.id, bytes_loop_encode.
Qed.

(** Evaluate the comparisons of closed datatype names. *)
Ltac dispatch :=
  repeat match goal with
  | |- context [@bool_decide (?a = ?b) ?D] =>
      let v := eval vm_compute in (@bool_decide (a = b) D) in
      change (@bool_decide (a = b) D) with v
  end; cbv beta iota delta [orb].

(** The wider encodings, by the lemmas on blocks. *)
Ltac blocks :=
  unfold decodeUint16, decodeUint32, decodeUint64, decodeInt16, decodeInt32, decodeInt64, decodeFP16,
    decodeFP32, decodeFP64;
  first [by rewrite decode_put_all by (done || lia)
        | rewrite decode_signed_spec by (done || lia); simpl; by rewrite map_signed_unsigned].

(** The size of an encoding. *)
Ltac sizes := intros _; f_equal; rewrite ?put_all_length, ?length_map; unfold DatatypeSize; dispatch; lia.

(** C17. Tensors round trip: encoding a tensor of a supported datatype and
    decoding the bytes with a shape of as many elements gives the tensor
    back, whatever follows the bytes on the wire; a fixed-width tensor takes
    its element size times its number of elements. *)
Theorem tensor_roundtrip dt t shape extra
    (Htype : has_datatype dt t) (Hshape : numElements shape = Z.of_nat (count t))
    (Halloc : 24 * Z.of_nat (count t) <= maxAlloc) :
  exists raw, EncodeTensor dt t = inl raw
    /\ DecodeTensor dt (raw ++ extra) shape = Some (inl t)
    /\ (dt <> DatatypeBYTES -> TensorBinarySize dt t = inl (Z.of_nat (count t) * DatatypeSize dt)).
Proof.
  unfold DecodeTensor, TensorBinarySize, EncodeTensor. rewrite Hshape. clear Hshape.
  destruct Htype as [vals|vals Hv|vals Hv|vals Hv|vals Hv|vals Hv|vals Hv|vals Hv|vals Hv|vals Hv|vals Hv
    |vals Hv|vals Hv]; dispatch; eexists; (split; [reflexivity|]); cbn [count] in *.
  1: split; [apply decodeBool_encoded; lia|simpl; sizes].
  1: split; [apply decodeUint8_encoded|simpl; sizes].
  11: split; [by apply decodeBytes_encoded|done].
  4: split; [apply decodeInt8_encoded; [done|lia]|simpl; sizes].
  all: split; [blocks|simpl; sizes].
Qed.

Lemma tensor_roundtrip_witness :
  exists raw, EncodeTensor DatatypeINT16 (TInt16 [1; -2; 300]) = inl raw
    /\ DecodeTensor DatatypeINT16 (raw ++ [7; 7]) [3; 1] = Some (inl (TInt16 [1; -2; 300]))
    /\ (DatatypeINT16 <> DatatypeBYTES ->
        TensorBinarySize DatatypeINT16 (TInt16 [1; -2; 300]) = inl (3 * DatatypeSize DatatypeINT16)).
Proof.
  apply (tensor_roundtrip DatatypeINT16 (TInt16 [1; -2; 300]) [3; 1] [7; 7]).
  - constructor. intros v. rewrite !elem_of_cons, elem_of_nil. lia.
  - reflexivity.
  - vm_compute. discriminate.
Defined.

(** ** Decoding arbitrary bytes *)

Definition supported (dt : string) : bool :=
  existsb (fun d => dt ==? d)
    [DatatypeBOOL; DatatypeUINT8; DatatypeUINT16; DatatypeUINT32; DatatypeUINT64; DatatypeINT8;
     DatatypeINT16; DatatypeINT32; DatatypeINT64; DatatypeFP16; DatatypeFP32; DatatypeFP64; DatatypeBYTES].

(** A decoder that is total on [n] elements of [size] bytes: an error exactly
    when the bytes are too few, [n] elements otherwise. *)
Definition decodes (size n : Z) (raw : list Z) (r : option (Tensor + Err)) : Prop :=
  if Z.of_nat (length raw) <? n * size then r = Some (inr ErrTooShort)
  else exists t, r = Some (inl t) /\ Z.of_nat (count t) = n.

Lemma decode_fixed_decodes (tag : list Z -> Tensor) size raw n :
  (forall vals, count (tag vals) = length vals) -> 0 <= n -> n * Z.of_nat size <= maxAlloc ->
  decodes (Z.of_nat size) n raw (wrap tag (decode_fixed size raw n)).
Proof.
  intros Hc Hn Hm. unfold decodes. rewrite decode_fixed_spec by done. case_bool_decide; [done|].
  simpl. eexists. split; [reflexivity|]. rewrite Hc, length_map, length_seq. lia.
Qed.

Lemma decodeUint8_decodes raw n : 0 <= n -> decodes 1 n raw (decodeUint8 raw n).
Proof.
  intros Hn. unfold decodes, decodeUint8. rewrite Z.mul_1_r. case_bool_decide; [done|].
  rewrite bool_decide_false by lia. eexists. split; [reflexivity|]. simpl. rewrite length_take. lia.
Qed.

Lemma bytes_loop_count n raw vals : bytes_loop n raw = inl vals -> length vals = n.
Proof.
  revert raw vals. induction n as [|n IH]; intros raw vals; simpl; [by intros [= <-]|].
  case_bool_decide; [done|]. case_bool_decide; [done|].
  destruct (bytes_loop n _) as [vs|] eqn:E; [|done]. intros [= <-]. simpl. f_equal. eauto.
Qed.

(** A decoder of elements of [size] bytes. *)
Ltac fixed_case Hfix size :=
  apply (Hfix (Z.of_nat size)); [|reflexivity];
  apply (decode_fixed_decodes _ size); [intros; simpl; rewrite ?length_map; reflexivity|lia..].

(** Decoding is total on sane shapes: with a shape of non-negative size
    below the allocation limit, decoding a supported datatype never panics;
    a fixed-width datatype fails exactly when the bytes are too few, and a
    successful decoding has the number of elements of the shape. *)
Theorem decode_total dt raw shape
    (Hdt : supported dt = true) (Hn : 0 <= numElements shape) (Hm : 24 * numElements shape <= maxAlloc) :
  exists r, DecodeTensor dt raw shape = Some r
    /\ (forall t, r = inl t -> Z.of_nat (count t) = numElements shape)
    /\ (dt <> DatatypeBYTES ->
        (r = inr ErrTooShort <-> Z.of_nat (length raw) < numElements shape * DatatypeSize dt)).
Proof.
  unfold DecodeTensor. generalize dependent (numElements shape). intros n Hn Hm.
  assert (forall size d, decodes size n raw d -> DatatypeSize dt = size ->
    exists r, d = Some r /\ (forall t, r = inl t -> Z.of_nat (count t) = n)
    /\ (dt <> DatatypeBYTES ->
        (r = inr ErrTooShort <-> Z.of_nat (length raw) < n * DatatypeSize dt))) as Hfix.
  { intros size d H ->. unfold decodes in H. case_bool_decide.
    - exists (inr ErrTooShort). split_and!; done.
    - destruct H as (t & -> & Ht). exists (inl t). split_and!; [done|by intros ? [= <-]|done]. }
  unfold supported in Hdt. apply existsb_exists in Hdt as (d & Hin & Heq).
  apply bool_decide_eq_true in Heq as ->. apply list_elem_of_In in Hin.
  rewrite !elem_of_cons, elem_of_nil in Hin. destruct_or! Hin; subst d; dispatch.
  2: apply (Hfix 1); [by apply decodeUint8_decodes|reflexivity].
  12: { unfold decodeBytes, make_ok. rewrite !bool_decide_true by lia. simpl.
        destruct (bytes_loop (Z.to_nat n) raw) as [vals|e] eqn:E; simpl; eexists; (split; [reflexivity|]).
        - split; [|done]. intros t [= <-]. apply bytes_loop_count in E. simpl. lia.
        - split; done. }
  all: first [fixed_case Hfix 1%nat | fixed_case Hfix 2%nat | fixed_case Hfix 4%nat | fixed_case Hfix 8%nat].
Qed.

Lemma decode_total_witness :
  exists r, DecodeTensor DatatypeUINT32 [1; 2; 3] [2] = Some r
    /\ (DatatypeUINT32 <> DatatypeBYTES ->
        (r = inr ErrTooShort <-> Z.of_nat (length [1; 2; 3]) < 2 * DatatypeSize DatatypeUINT32)).
Proof.
  destruct (decode_total DatatypeUINT32 [1; 2; 3] [2]) as (r & Hr & _ & H);
    [reflexivity|vm_compute; discriminate|vm_compute; discriminate|].
  exists r. split; [exact Hr|exact H].
Defined.

(** Shapes are trusted: a shape whose wrapped number of elements is
    negative makes the decoder panic for every supported datatype, whatever
    the bytes. *)
Theorem negative_shape_panics dt raw shape
    (Hdt : supported dt = true) (Hn : - 2 ^ 59 <= numElements shape < 0) :
  DecodeTensor dt raw shape = None.
Proof.
  unfold DecodeTensor. generalize dependent (numElements shape). intros n Hn.
  assert (forall (tag : list Z -> Tensor) size, (size <= 8)%nat -> wrap tag (decode_fixed size raw n) = None) as Hfix.
  { intros tag size Hs. unfold decode_fixed, make_ok. rewrite i64_wrap_small by (unfold i64_range; nia).
    rewrite bool_decide_false by nia. by rewrite bool_decide_false by lia. }
  unfold supported in Hdt. apply existsb_exists in Hdt as (d & Hin & Heq).
  apply bool_decide_eq_true in Heq as ->. apply list_elem_of_In in Hin.
  rewrite !elem_of_cons, elem_of_nil in Hin. destruct_or! Hin; subst d; dispatch;
    first [apply Hfix; lia | idtac].
  - unfold decodeUint8. rewrite bool_decide_false by lia. by rewrite bool_decide_true by lia.
  - unfold decodeBytes, make_ok. by rewrite bool_decide_false by lia.
Qed.

Lemma negative_shape_panics_witness : DecodeTensor DatatypeBYTES [] [-1] = None.
Proof. apply (negative_shape_panics DatatypeBYTES [] [-1]); [reflexivity|vm_compute; split; discriminate || reflexivity]. Defined.

(** A shape whose size overflows passes the length check on no bytes at all. *)
Example overflowing_shape_panics : DecodeTensor DatatypeUINT64 [] [2 ^ 61] = None.
Proof. reflexivity. Qed.
