(* ===== verification/AccessPlane.v ===== *)
(** * The access plane ([internal/accessplane/policy.go])

    The catalog of tenant policies is validated when the evaluator is built;
    [Evaluate] maps an intent and an observation of the runtime load to a
    decision.  Loops over Go maps run in an arbitrary order: the traversals
    are arguments of the definitions that range over a map, and the theorems
    hold for each.  The two readings [EvaluateContext] takes of the context's
    error are arguments too.  Integers are [int]. *)

From S2P Require Import Prelude.

(** ** Data *)

Inductive Disposition := DispositionAdmit | DispositionBackpressure | DispositionReject.

#[export] Instance Disposition_eq_dec : EqDecision Disposition.
Proof. solve_decision. Defined.

Record Intent := mkIntent { IntentTenantID : string; Route : string }.

Record TargetPolicy := mkTarget { Model : string; TargetMaxInFlight : Z }.

Record RoutePolicy := mkRoute { Targets : list TargetPolicy }.

Record TenantPolicy := mkTenant {
  TenantID : string;
  MaxInFlight : Z;
  MaxQueueDepth : Z;
  Routes : gmap string RoutePolicy
}.

Record TenantObservation := mkTenantObs { TenantInFlight : Z; QueueDepth : Z }.

Record ModelObservation := mkModelObs { Ready : bool; ModelInFlight : Z }.

Record RuntimeObservation := mkObservation {
  Tenant : TenantObservation;
  Models : gmap string ModelObservation
}.

Record Decision := mkDecision {
  DDisposition : Disposition;
  DModel : string;
  DReason : string;
  QueueCapacityRemaining : Z
}.

(** The errors of the constructor, by the message they format. *)
Inductive Err :=
| ErrTenantIDRequired
| ErrMaxInFlight (tenant : string)
| ErrMaxQueueDepth (tenant : string)
| ErrNoRoutes (tenant : string)
| ErrRouteName (tenant : string)
| ErrNoTargets (tenant route : string)
| ErrInvalidTarget (tenant route : string)
| ErrRepeatedTarget (tenant route model : string)
| ErrDuplicateTenant (tenant : string).

(** The evaluator's field. *)
Notation Evaluator := (gmap string TenantPolicy).

(** ** Validation *)

(** The loop over the targets; [seen] holds the models met so far. *)
Fixpoint validate_targets (tenantID name : string) (seen : gset string) (targets : list TargetPolicy) : option Err :=
  match targets with
  | [] => None
  | target :: targets =>
      if (Model target ==? "") || (TargetMaxInFlight target <=? 0) then Some (ErrInvalidTarget tenantID name)
      else if bool_decide (Model target ∈ seen) then Some (ErrRepeatedTarget tenantID name (Model target))
      else validate_targets tenantID name ({[Model target]} ∪ seen) targets
  end.

Definition validateRoutePolicy (tenantID name : string) (route : RoutePolicy) : option Err :=
  if name ==? "" then Some (ErrRouteName tenantID)
  else if bool_decide (Targets route = []) then Some (ErrNoTargets tenantID name)
  else validate_targets tenantID name ∅ (Targets route).

#[export] Instance TargetPolicy_eq_dec : EqDecision TargetPolicy.
Proof. solve_decision. Defined.
#[export] Instance RoutePolicy_eq_dec : EqDecision RoutePolicy.
Proof. solve_decision. Defined.

(** The loop over the routes in the order they are met. *)
Fixpoint validate_routes (tenantID : string) (routes : list (string * RoutePolicy)) : option Err :=
  match routes with
  | [] => None
  | (name, route) :: routes =>
      match validateRoutePolicy tenantID name route with
      | Some err => Some err
      | None => validate_routes tenantID routes
      end
  end.

Definition reject (reason : string) : Decision := mkDecision DispositionReject "" reason 0.

Definition capacityDecision (policy : TenantPolicy) (observed : RuntimeObservation) (reason : string) : Decision :=
  let remaining := i64_wrap (MaxQueueDepth policy - QueueDepth (Tenant observed)) in
  if remaining >? 0 then mkDecision DispositionBackpressure "" reason remaining
  else reject "queue-capacity-exhausted".

(** [load, exists := observed.Models[target.Model]; exists && load.Ready && ...] *)
Definition eligible (observed : RuntimeObservation) (target : TargetPolicy) : bool :=
  match Models observed !! Model target with
  | Some load => Ready load && (ModelInFlight load <? TargetMaxInFlight target)
  | None => false
  end.

(** The loop of [Evaluate] over the targets. *)
Fixpoint first_eligible (observed : RuntimeObservation) (targets : list TargetPolicy) : option TargetPolicy :=
  match targets with
  | [] => None
  | target :: targets => if eligible observed target then Some target else first_eligible observed targets
  end.

Definition cloneTenantPolicy (policy : TenantPolicy) : TenantPolicy :=
  mkTenant (TenantID policy) (MaxInFlight policy) (MaxQueueDepth policy)
    ((fun route => mkRoute ([] ++ Targets route)) <$> Routes policy).

Section traversals.
(** The orders in which [range] meets the entries of the two kinds of map. *)
Variable range_routes : gmap string RoutePolicy -> list (string * RoutePolicy).
Variable range_models : gmap string ModelObservation -> list (string * ModelObservation).

Definition validateTenantPolicy (policy : TenantPolicy) : option Err :=
  if TenantID policy ==? "" then Some ErrTenantIDRequired
  else if MaxInFlight policy <=? 0 then Some (ErrMaxInFlight (TenantID policy))
  else if MaxQueueDepth policy <? 0 then Some (ErrMaxQueueDepth (TenantID policy))
  else if bool_decide (size (Routes policy) = 0%nat) then Some (ErrNoRoutes (TenantID policy))
  else validate_routes (TenantID policy) (range_routes (Routes policy)).

(** The loop of [NewEvaluator]. *)
Fixpoint load_policies (tenants : Evaluator) (policies : list TenantPolicy) : Evaluator + Err :=
  match policies with
  | [] => inl tenants
  | policy :: policies =>
      match validateTenantPolicy policy with
      | Some err => inr err
      | None =>
          if bool_decide (is_Some (tenants !! TenantID policy)) then inr (ErrDuplicateTenant (TenantID policy))
          else load_policies (<[TenantID policy := cloneTenantPolicy policy]> tenants) policies
      end
  end.

Definition NewEvaluator (policies : list TenantPolicy) : Evaluator + Err := load_policies ∅ policies.

Definition validObservation (observed : RuntimeObservation) : bool :=
  if (TenantInFlight (Tenant observed) <? 0) || (QueueDepth (Tenant observed) <? 0) then false
  else forallb (fun '(_, model) => negb (ModelInFlight model <? 0)) (range_models (Models observed)).

Definition Evaluate (e : Evaluator) (intent : Intent) (observed : RuntimeObservation) : Decision :=
  match e !! IntentTenantID intent with
  | None => reject "tenant-not-admitted"
  | Some policy =>
      if negb (validObservation observed) then reject "invalid-runtime-observation"
      else match Routes policy !! Route intent with
      | None => reject "route-not-admitted"
      | Some route =>
          if TenantInFlight (Tenant observed) >=? MaxInFlight policy
          then capacityDecision policy observed "tenant-concurrency-limit"
          else match first_eligible observed (Targets route) with
          | Some target => mkDecision DispositionAdmit (Model target) "target-eligible" 0
          | None => capacityDecision policy observed "no-eligible-target"
          end
      end
  end.

(** [ctx.Err()] is read before and after the evaluation. *)
Definition EvaluateContext {E} (before after : option E) (e : Evaluator) (intent : Intent)
    (observed : RuntimeObservation) : Decision + E :=
  match before with
  | Some err => inr err
  | None =>
      let decision := Evaluate e intent observed in
      match after with
      | Some err => inr err
      | None => inl decision
      end
  end.

(** ** What the validation means *)

Definition route_ok (name : string) (route : RoutePolicy) : Prop :=
  name <> "" /\ Targets route <> [] /\ NoDup (Model <$> Targets route)
  /\ forall t, t ∈ Targets route -> Model t <> "" /\ 0 < TargetMaxInFlight t.

Definition policy_ok (policy : TenantPolicy) : Prop :=
  TenantID policy <> "" /\ 0 < MaxInFlight policy /\ 0 <= MaxQueueDepth policy /\ Routes policy <> ∅
  /\ forall name route, Routes policy !! name = Some route -> route_ok name route.

Definition observation_ok (observed : RuntimeObservation) : Prop :=
  0 <= TenantInFlight (Tenant observed) /\ 0 <= QueueDepth (Tenant observed)
  /\ forall m load, Models observed !! m = Some load -> 0 <= ModelInFlight load.

Lemma validate_targets_iff tenant name seen targets :
  validate_targets tenant name seen targets = None
  <-> NoDup (Model <$> targets) /\ (forall t, t ∈ targets -> Model t ∉ seen)
      /\ forall t, t ∈ targets -> Model t <> "" /\ 0 < TargetMaxInFlight t.
Proof.
  revert seen. induction targets as [|t targets IH]; intros seen; simpl.
  { split; [intros _; split_and!; [constructor|set_solver..]|done]. }
  rewrite NoDup_cons. setoid_rewrite elem_of_cons.
  destruct (bool_decide_reflect (Model t = "")) as [Em|Em]; simpl.
  { split; [done|]. intros (_ & _ & H). destruct (H t) as [? _]; [by left|done]. }
  destruct (bool_decide_reflect (TargetMaxInFlight t <= 0)) as [El|El].
  { split; [done|]. intros (_ & _ & H). destruct (H t) as [_ ?]; [by left|lia]. }
  destruct (bool_decide_reflect (Model t ∈ seen)) as [Es|Es].
  { split; [done|]. intros (_ & H & _). destruct (H t); [by left|done]. }
  rewrite IH. split.
  - intros (Hnd & Hseen & Hok). split_and!; [|done|..].
    + intros (t' & E & Ht')%list_elem_of_fmap. apply (Hseen t' Ht'). rewrite E. set_solver.
    + intros t' [->|Ht']; [done|]. specialize (Hseen t' Ht'). set_solver.
    + intros t' [->|Ht']; [split; [done|lia]|auto].
  - intros ([Hni Hnd] & Hseen & Hok). split_and!; [done| |auto].
    intros t' Ht' [E%elem_of_singleton|Hin]%elem_of_union; [|by apply (Hseen t'); [right|]].
    apply Hni, list_elem_of_fmap. eauto.
Qed.

Lemma validateRoutePolicy_iff tenant name route :
  validateRoutePolicy tenant name route = None <-> route_ok name route.
Proof.
  unfold validateRoutePolicy, route_ok. case_bool_decide; [naive_solver|].
  case_bool_decide; [naive_solver|]. rewrite validate_targets_iff. set_solver.
Qed.

Lemma validate_routes_iff tenant routes :
  validate_routes tenant routes = None <-> forall name route, (name, route) ∈ routes -> route_ok name route.
Proof.
  induction routes as [|[n r] routes IH]; simpl; [set_solver|]. setoid_rewrite elem_of_cons.
  pose proof (validateRoutePolicy_iff tenant n r) as Hr.
  destruct (validateRoutePolicy tenant n r); [|rewrite IH; naive_solver].
  split; [done|]. intros H. apply Hr. apply H. by left.
Qed.

Context (Hroutes : forall m, range_routes m ≡ₚ map_to_list m).

Lemma validateTenantPolicy_iff policy : validateTenantPolicy policy = None <-> policy_ok policy.
Proof.
  unfold validateTenantPolicy, policy_ok.
  case_bool_decide as H1; [by split; [|intros (? & _)]|].
  case_bool_decide as H2; [split; [done|intros (_ & ? & _); lia]|].
  case_bool_decide as H3; [split; [done|intros (_ & _ & ? & _); lia]|].
  case_bool_decide as H4; rewrite map_size_empty_iff in H4; [by split; [|intros (_ & _ & _ & ? & _)]|].
  rewrite validate_routes_iff. setoid_rewrite Hroutes. setoid_rewrite elem_of_map_to_list.
  split; [intros H; split_and!; [done|lia|lia|done|done]|by intros (_ & _ & _ & _ & ?)].
Qed.

Lemma cloneTenantPolicy_eq policy : cloneTenantPolicy policy = policy.
Proof.
  destruct policy. unfold cloneTenantPolicy. simpl. f_equal.
  rewrite <- (map_fmap_id Routes0) at 2. apply map_fmap_ext. by intros ? [ts] _.
Qed.

(** The policies by their tenants. *)
Definition catalog (policies : list TenantPolicy) : gmap string TenantPolicy :=
  list_to_map ((fun p => (TenantID p, p)) <$> policies).

Lemma catalog_lookup policies tenant p :
  NoDup (TenantID <$> policies) -> catalog policies !! tenant = Some p <-> p ∈ policies /\ TenantID p = tenant.
Proof.
  intros Hnd. unfold catalog. rewrite <- elem_of_list_to_map by (by rewrite <- list_fmap_compose).
  rewrite list_elem_of_fmap. split; [by intros (q & [= -> ->] & Hq)|intros [Hp <-]; by exists p].
Qed.

Lemma load_policies_iff tenants policies e :
  load_policies tenants policies = inl e
  <-> (forall p, p ∈ policies -> policy_ok p) /\ NoDup (TenantID <$> policies)
      /\ (forall p, p ∈ policies -> tenants !! TenantID p = None) /\ e = catalog policies ∪ tenants.
Proof.
  revert tenants. induction policies as [|p policies IH]; intros tenants; simpl.
  { unfold catalog. simpl. rewrite (left_id_L ∅ (∪)).
    split; [intros [= <-]; split_and!; [set_solver|constructor|set_solver|done]|by intros (_ & _ & _ & ->)]. }
  rewrite NoDup_cons. setoid_rewrite elem_of_cons. pose proof (validateTenantPolicy_iff p) as Hp.
  destruct (validateTenantPolicy p).
  { split; [done|]. intros (H & _). exfalso. assert (Some e0 = None); [apply Hp, H; by left|done]. }
  case_bool_decide as Hs.
  { split; [done|]. intros (_ & _ & H & _). rewrite (H p) in Hs by (by left). by destruct Hs. }
  apply eq_None_not_Some in Hs. rewrite IH, cloneTenantPolicy_eq. unfold catalog at 2. simpl. fold (catalog policies).
  assert (TenantID p ∉ (TenantID <$> policies) -> catalog policies !! TenantID p = None) as Hc.
  { intros H. apply not_elem_of_list_to_map_1. by rewrite <- list_fmap_compose. }
  split.
  - intros (Hok & Hnd & Hn & ->).
    assert (TenantID p ∉ (TenantID <$> policies)) as Hni.
    { intros (q & E & Hq)%list_elem_of_fmap. specialize (Hn q Hq). by rewrite <- E, lookup_insert_eq in Hn. }
    split_and!; [|done|done|..].
    + intros q [->|Hq]; [by apply Hp|auto].
    + intros q [->|Hq]; [done|]. specialize (Hn q Hq). by apply lookup_insert_None in Hn as [? _].
    + rewrite <- insert_union_l. symmetry. by apply insert_union_r, Hc.
  - intros (Hok & [Hni Hnd] & Hn & ->). split_and!; [auto|done|..].
    + intros q Hq. apply lookup_insert_None. split; [auto|]. intros E. apply Hni, list_elem_of_fmap. eauto.
    + rewrite <- insert_union_l. by apply insert_union_r, Hc.
Qed.

(** The catalog is validated: [NewEvaluator] succeeds exactly when every
    policy is well formed (a named tenant with positive concurrency, a
    non-negative queue and named routes of distinct, positively bounded
    targets) and no tenant occurs twice, whatever order the maps are
    traversed in; it then holds exactly the given policies, by tenant. *)
Theorem catalog_validated policies :
  ((exists e, NewEvaluator policies = inl e)
   <-> (forall p, p ∈ policies -> policy_ok p) /\ NoDup (TenantID <$> policies))
  /\ forall e, NewEvaluator policies = inl e ->
       forall tenant p, e !! tenant = Some p <-> p ∈ policies /\ TenantID p = tenant.
Proof using Hroutes.
  unfold NewEvaluator. setoid_rewrite load_policies_iff. split.
  - split; [by intros (e & ? & ? & _)|]. intros [? ?]. exists (catalog policies ∪ ∅). set_solver.
  - intros e (_ & Hnd & _ & ->) tenant p. rewrite (right_id_L ∅ (∪)). by apply catalog_lookup.
Qed.

(** ** Decisions *)

Context (Hmodels : forall m, range_models m ≡ₚ map_to_list m).

Lemma validObservation_iff observed : validObservation observed = true <-> observation_ok observed.
Proof.
  unfold validObservation, observation_ok.
  case_bool_decide as H1; simpl; [split; [done|lia]|].
  case_bool_decide as H2; simpl; [split; [done|lia]|].
  rewrite forallb_forall. setoid_rewrite <- list_elem_of_In. setoid_rewrite Hmodels. split.
  - intros H. split_and!; [lia..|]. intros m load Hm.
    specialize (H (m, load)). rewrite elem_of_map_to_list in H. specialize (H Hm). simpl in H.
    rewrite negb_true_iff, bool_decide_eq_false in H. lia.
  - intros (_ & _ & H) [m load] Hm%elem_of_map_to_list. simpl.
    rewrite bool_decide_false; [done|]. specialize (H m load Hm). lia.
Qed.

(** [t] is the first target of the route, in preference order, that is
    observed ready with room. *)
Definition preferred (observed : RuntimeObservation) (route : RoutePolicy) (t : TargetPolicy) : Prop :=
  exists pre post, Targets route = pre ++ t :: post
    /\ (exists load, Models observed !! Model t = Some load /\ Ready load = true
          /\ ModelInFlight load < TargetMaxInFlight t)
    /\ forall t' load, t' ∈ pre -> Models observed !! Model t' = Some load ->
         Ready load = true -> TargetMaxInFlight t' <= ModelInFlight load.

Lemma eligible_true observed t :
  eligible observed t = true
  <-> exists load, Models observed !! Model t = Some load /\ Ready load = true
        /\ ModelInFlight load < TargetMaxInFlight t.
Proof.
  unfold eligible. destruct (Models observed !! Model t) as [load|]; [|naive_solver].
  rewrite andb_true_iff, bool_decide_eq_true. naive_solver.
Qed.

Lemma first_eligible_iff observed route t :
  first_eligible observed (Targets route) = Some t <-> preferred observed route t.
Proof.
  unfold preferred. destruct route as [targets]. cbn [Targets]. split.
  - induction targets as [|t' targets IH]; simpl; [done|].
    destruct (eligible observed t') eqn:E.
    + intros [= <-]. exists [], targets. split_and!; [done|by apply eligible_true|set_solver].
    + intros H. destruct (IH H) as (pre & post & -> & He & Hpre). exists (t' :: pre), post.
      split_and!; [done|done|]. intros u load [->|Hu]%elem_of_cons Hl Hr; [|eauto].
      unfold eligible in E. rewrite Hl, Hr in E. simpl in E. apply bool_decide_eq_false in E. lia.
  - intros (pre & post & -> & He & Hpre). induction pre as [|u pre IH]; simpl.
    + apply eligible_true in He. by rewrite He.
    + destruct (eligible observed u) eqn:E; [exfalso|apply IH; intros u' load Hu'; apply Hpre; by right].
      apply eligible_true in E as (load & Hl & Hr & Hlt).
      specialize (Hpre u load ltac:(by left) Hl Hr). lia.
Qed.

(** An intent a policy lets through to capacity checks. *)
Definition admissible (policies : list TenantPolicy) (intent : Intent) (observed : RuntimeObservation)
    (policy : TenantPolicy) (route : RoutePolicy) : Prop :=
  policy ∈ policies /\ TenantID policy = IntentTenantID intent
  /\ Routes policy !! Route intent = Some route /\ observation_ok observed.

(** There is room for the request itself, on target [t]. *)
Definition admitted (observed : RuntimeObservation) (policy : TenantPolicy) (route : RoutePolicy)
    (t : TargetPolicy) : Prop :=
  TenantInFlight (Tenant observed) < MaxInFlight policy /\ preferred observed route t.

Lemma admissible_unique policies intent observed p p' r r' :
  NoDup (TenantID <$> policies) ->
  admissible policies intent observed p r -> admissible policies intent observed p' r' -> p = p' /\ r = r'.
Proof.
  intros Hnd (Hp & Et & Er & _) (Hp' & Et' & Er' & _).
  assert (p = p') as <-; [|by simplify_eq].
  apply list_elem_of_lookup in Hp as [i Hi], Hp' as [j Hj].
  assert (i = j) as ->; [|by simplify_eq].
  eapply (NoDup_lookup _ _ _ (TenantID p) Hnd); rewrite list_lookup_fmap; [by rewrite Hi|rewrite Hj; simpl; congruence].
Qed.

(** [Evaluate] rejects an intent that is not admissible and checks the
    capacity for one that is. *)
Lemma Evaluate_cases policies e intent observed :
  NewEvaluator policies = inl e ->
  ((forall policy route, ~ admissible policies intent observed policy route)
   /\ exists reason, Evaluate e intent observed = reject reason)
  \/ exists policy route, admissible policies intent observed policy route
      /\ Evaluate e intent observed =
           if TenantInFlight (Tenant observed) >=? MaxInFlight policy
           then capacityDecision policy observed "tenant-concurrency-limit"
           else match first_eligible observed (Targets route) with
                | Some target => mkDecision DispositionAdmit (Model target) "target-eligible" 0
                | None => capacityDecision policy observed "no-eligible-target"
                end.
Proof.
  intros He. unfold NewEvaluator in He. apply load_policies_iff in He as (_ & Hnd & _ & ->).
  rewrite (right_id_L ∅ (∪)).
  pose proof (fun p => catalog_lookup policies (IntentTenantID intent) p Hnd) as Hc.
  pose proof (validObservation_iff observed) as Ho. unfold Evaluate, admissible.
  destruct (catalog policies !! IntentTenantID intent) as [policy|].
  2: { left. split; [|eauto]. intros p r (Hp & Et & _). discriminate (proj2 (Hc p) (conj Hp Et)). }
  assert (forall p, p ∈ policies /\ TenantID p = IntentTenantID intent -> p = policy) as Huniq.
  { intros p Hp. apply Hc in Hp. congruence. }
  destruct (proj1 (Hc policy) eq_refl) as [Hp Et].
  destruct (validObservation observed); simpl.
  2: { left. split; [|eauto]. intros p r (_ & _ & _ & H). by apply Ho in H. }
  destruct (Routes policy !! Route intent) as [route|] eqn:Hr.
  - right. exists policy, route. split; [|done]. by rewrite <- Ho.
  - left. split; [|eauto]. intros p r (Hp' & Et' & Er & _). rewrite (Huniq p) in Er by done. congruence.
Qed.

(** What a policy with queue depth [n] free promises when it cannot admit. *)
Lemma capacityDecision_spec policy observed reason :
  policy_ok policy -> observation_ok observed -> i64_range (MaxQueueDepth policy) -> i64_range (QueueDepth (Tenant observed)) ->
  let free := MaxQueueDepth policy - QueueDepth (Tenant observed) in
  capacityDecision policy observed reason =
    if bool_decide (0 < free) then mkDecision DispositionBackpressure "" reason free
    else reject "queue-capacity-exhausted".
Proof.
  intros (_ & _ & Hq & _) (_ & Hd & _) Hr1 Hr2. unfold capacityDecision, i64_range in *.
  by rewrite i64_wrap_small by (unfold i64_range; lia).
Qed.

(** C18. Decisions: over a validated catalog an intent is admitted exactly
    when its tenant and route are known, the observation is valid, the tenant
    is below its concurrency limit and some target of the route is ready and
    below its own limit, and then on the first such target in preference
    order; otherwise back-pressure is signalled exactly when the tenant's
    queue has room, with the room left; everything else is rejected.  Under a
    context the decision is returned exactly when the context is live before
    and after the evaluation. *)
Theorem evaluate_decides policies e intent observed
    (He : NewEvaluator policies = inl e)
    (Hint : forall p, p ∈ policies -> i64_range (MaxQueueDepth p))
    (Hobs : i64_range (QueueDepth (Tenant observed))) :
  let d := Evaluate e intent observed in
  (forall E (before after : option E) d', EvaluateContext before after e intent observed = inl d'
     <-> before = None /\ after = None /\ d' = d)
  /\ (forall m, DDisposition d = DispositionAdmit /\ DModel d = m <->
     exists p r t, admissible policies intent observed p r /\ admitted observed p r t /\ Model t = m)
  /\ (forall n, DDisposition d = DispositionBackpressure /\ QueueCapacityRemaining d = n <->
     exists p r, admissible policies intent observed p r /\ (forall t, ~ admitted observed p r t)
       /\ n = MaxQueueDepth p - QueueDepth (Tenant observed) /\ 0 < n)
  /\ (DDisposition d <> DispositionAdmit -> DModel d = "").
Proof using Hroutes Hmodels.
  intros d.
  split; [intros E [] [] d'; unfold EvaluateContext; fold d; naive_solver|].
  pose proof He as He'. unfold NewEvaluator in He'.
  apply load_policies_iff in He' as (Hok & Hnd & _ & _).
  destruct (Evaluate_cases policies e intent observed He) as [[Hn [reason Hd]]|(p & r & Ha & Hd)];
    fold d in Hd; rewrite Hd.
  { split_and!; [intros m|intros n|done]; (split; [by intros [? _]|]); intros (p & r & H);
      exfalso; apply (Hn p r); [destruct H as (? & ? & _)|destruct H as [? _]]; done. }
  assert (p ∈ policies /\ observation_ok observed) as [Hp Ho] by (unfold admissible in Ha; naive_solver).
  assert (forall p' r', admissible policies intent observed p' r' -> p' = p /\ r' = r) as Hu.
  { intros p' r' Ha'. by apply (admissible_unique policies intent observed). }
  clear Hd. destruct (bool_decide_reflect (MaxInFlight p <= TenantInFlight (Tenant observed))) as [Hfull|Hroom];
    [|destruct (first_eligible observed (Targets r)) as [t|] eqn:Ef].
  2: { pose proof Ef as Ef'. apply first_eligible_iff in Ef'. split_and!; [intros m|intros n|done]; simpl.
       - split; [intros [_ <-]; exists p, r, t; split_and!; [done|split; [lia|done]|done]|].
         intros (p' & r' & t' & Ha' & [_ Ht'] & <-). apply Hu in Ha' as [-> ->]. split; [done|].
         apply first_eligible_iff in Ht'. congruence.
       - split; [by intros [? _]|]. intros (p' & r' & Ha' & Hno & _). apply Hu in Ha' as [-> ->].
         destruct (Hno t). split; [lia|done]. }
  all: assert (forall t, ~ admitted observed p r t) as Hno
    by (intros t [? Ht]; first [lia | apply first_eligible_iff in Ht; congruence]).
  all: rewrite capacityDecision_spec by auto; case_bool_decide; (split_and!; [intros m|intros n|done]); simpl.
  all: split; [try by intros [? _]|].
  all: try (intros (p' & r' & t' & Ha' & Ht' & _); apply Hu in Ha' as [-> ->]; by destruct (Hno t')).
  all: try (intros [_ <-]; exists p, r; done).
  all: intros (p' & r' & Ha' & _ & -> & ?); apply Hu in Ha' as [-> ->]; first [done | lia].
Qed.
End traversals.

(** ** Witnesses *)

Definition w_policy (tenant : string) : TenantPolicy :=
  mkTenant tenant 4 2 {["chat" := mkRoute [mkTarget "llama" 1; mkTarget "mistral" 3]]}.

Definition w_evaluator : gmap string TenantPolicy := {["acme" := w_policy "acme"; "beta" := w_policy "beta"]}.

(** The first target is full and the second has room. *)
Definition w_observed (inflight queued : Z) : RuntimeObservation :=
  mkObservation (mkTenantObs inflight queued) {["llama" := mkModelObs true 1; "mistral" := mkModelObs true 0]}.

Lemma catalog_validated_witness :
  (exists e, NewEvaluator map_to_list [w_policy "acme"; w_policy "beta"] = inl e)
  /\ forall e, NewEvaluator map_to_list [w_policy "acme"; w_policy "beta"] = inl e ->
       e !! "beta" = Some (w_policy "beta").
Proof.
  split; [eexists; vm_compute; reflexivity|]. intros e He.
  apply (proj2 (catalog_validated map_to_list (fun _ => reflexivity _) [w_policy "acme"; w_policy "beta"]) e He).
  split; [right; left|reflexivity].
Defined.

Lemma evaluate_decides_witness :
  NewEvaluator map_to_list [w_policy "acme"; w_policy "beta"] = inl w_evaluator
  /\ Evaluate map_to_list w_evaluator (mkIntent "acme" "chat") (w_observed 3 0)
     = mkDecision DispositionAdmit "mistral" "target-eligible" 0
  /\ exists p r t, admissible [w_policy "acme"; w_policy "beta"] (mkIntent "acme" "chat") (w_observed 3 0) p r
       /\ admitted (w_observed 3 0) p r t /\ Model t = "mistral".
Proof.
  split; [vm_compute; reflexivity|]. split; [vm_compute; reflexivity|].
  apply (evaluate_decides map_to_list map_to_list (fun _ => reflexivity _) (fun _ => reflexivity _)
    [w_policy "acme"; w_policy "beta"] w_evaluator (mkIntent "acme" "chat") (w_observed 3 0)).
  - vm_compute. reflexivity.
  - intros p Hp. rewrite !elem_of_cons, elem_of_nil in Hp. destruct Hp as [->|[->|[]]]; unfold i64_range; simpl; lia.
  - unfold i64_range. simpl. lia.
  - split; vm_compute; reflexivity.
Defined.

(** A tenant at its limit is asked to wait while its queue has room. *)
Example evaluate_backpressure :
  Evaluate map_to_list w_evaluator (mkIntent "acme" "chat") (w_observed 4 1)
  = mkDecision DispositionBackpressure "" "tenant-concurrency-limit" 1
  /\ Evaluate map_to_list w_evaluator (mkIntent "acme" "chat") (w_observed 4 2) = reject "queue-capacity-exhausted"
  /\ NewEvaluator map_to_list [w_policy "acme"; w_policy "acme"] = inr (ErrDuplicateTenant "acme").
Proof. vm_compute. done. Qed.
