(* ===== verification/Resilience.v ===== *)
(** * Gateway resilience ([internal/gateway/resilience.go])

    The circuit breaker, the bulkhead, the retry delay and the fallback
    router.  Every method of the breaker holds its mutex, so it is one step;
    the clock readings of [Allow] and [RecordFailure] are arguments.  The
    counters are [int32] and wrap.  The bulkhead's semaphore is a buffered
    channel, of which only the number of elements matters. *)

From S2P Require Import Prelude GoFloat GoFloatBounds.

(** ** Configuration *)

Record CircuitBreakerConfig := mkBreakerConfig {
  FailureThreshold : Z;   (* int32 *)
  SuccessThreshold : Z;   (* int32 *)
  Timeout : Duration
}.

Record RetryConfig := mkRetryConfig {
  MaxRetries : Z;         (* int32 *)
  BaseBackoff : Duration;
  MaxBackoff : Duration
}.

Record BulkheadConfig := mkBulkheadConfig { MaxConcurrent : Z (* int32 *) }.

Record HedgingConfig := mkHedgingConfig { HedgingEnabled : bool; HedgeDelay : Duration }.

Record TimeoutCascadeConfig := mkCascade { Client : Duration; Gateway : Duration; Inference : Duration }.

(** Pointers that may be nil are options. *)
Record ResiliencePolicy := mkPolicy {
  PCircuitBreaker : option CircuitBreakerConfig;
  Retry : option RetryConfig;
  PBulkhead : option BulkheadConfig;
  Hedging : option HedgingConfig;
  TimeoutCascade : option TimeoutCascadeConfig;
  PFallbackModel : string
}.

Definition DefaultResiliencePolicy : ResiliencePolicy :=
  mkPolicy (Some (mkBreakerConfig 5 3 (30 * Second)))
    (Some (mkRetryConfig 3 (100 * Millisecond) (10 * Second)))
    (Some (mkBulkheadConfig 100)) (Some (mkHedgingConfig false 0))
    (Some (mkCascade (30 * Second) (25 * Second) (20 * Second))) "".

(** ** Circuit breaker *)

Inductive CircuitState := StateClosed | StateOpen | StateHalfOpen.

#[export] Instance CircuitState_eq_dec : EqDecision CircuitState.
Proof. solve_decision. Defined.

Record CircuitBreaker := mkBreaker {
  config : CircuitBreakerConfig;
  state : CircuitState;
  failures : Z;           (* int32 *)
  successes : Z;          (* int32 *)
  lastFailureTime : Time;
  halfOpenProbe : bool
}.

Definition NewCircuitBreaker (config : CircuitBreakerConfig) : CircuitBreaker :=
  mkBreaker config StateClosed 0 0 zeroTime false.

Definition Allow (now : Time) (cb : CircuitBreaker) : CircuitBreaker * bool :=
  match state cb with
  | StateClosed => (cb, true)
  | StateOpen =>
      if TimeSub now (lastFailureTime cb) >? Timeout (config cb)
      then (mkBreaker (config cb) StateHalfOpen (failures cb) 0 (lastFailureTime cb) true, true)
      else (cb, false)
  | StateHalfOpen =>
      if halfOpenProbe cb then (cb, false)
      else (mkBreaker (config cb) StateHalfOpen (failures cb) (successes cb) (lastFailureTime cb) true, true)
  end.

Definition RecordSuccess (cb : CircuitBreaker) : CircuitBreaker :=
  let successes := i32_wrap (successes cb + 1) in
  if (state cb ==? StateHalfOpen) && (successes >=? SuccessThreshold (config cb))
  then mkBreaker (config cb) StateClosed 0 0 (lastFailureTime cb) false
  else mkBreaker (config cb) (state cb) (failures cb) successes (lastFailureTime cb)
         (if state cb ==? StateHalfOpen then false else halfOpenProbe cb).

Definition RecordFailure (now : Time) (cb : CircuitBreaker) : CircuitBreaker :=
  let failures := i32_wrap (failures cb + 1) in
  mkBreaker (config cb)
    (if failures >=? FailureThreshold (config cb) then StateOpen else state cb)
    failures (successes cb) now false.

Definition State (cb : CircuitBreaker) : CircuitState := state cb.

(** ** Bulkhead

    [None] is a call that does not return: a panic of [make] with a negative
    size, a receive from the empty channel. *)

Record Bulkhead := mkBulkhead { sem_cap : Z; sem_len : Z }.

Definition NewBulkhead (maxConcurrent : Z) : option Bulkhead :=
  if maxConcurrent <? 0 then None else Some (mkBulkhead maxConcurrent 0).

(** When the send and [ctx.Done()] are both ready, [select] picks either:
    [pick_done] is its choice. *)
Definition Acquire (done pick_done : bool) (b : Bulkhead) : Bulkhead * bool :=
  if (sem_len b <? sem_cap b) && negb (done && pick_done)
  then (mkBulkhead (sem_cap b) (sem_len b + 1), true)
  else (b, false).

Definition Release (b : Bulkhead) : option Bulkhead :=
  if sem_len b ==? 0 then None else Some (mkBulkhead (sem_cap b) (sem_len b - 1)).

Definition ActiveCount (b : Bulkhead) : Z := sem_len b.

(** ** Retry delay *)

(** [1 << uint(attempt)] at type [int64]. *)
Definition shift_one (attempt : Z) : Z :=
  let k := u64_wrap attempt in
  if k <? 64 then i64_wrap (2 ^ k) else 0.

Definition ComputeRetryDelay (attempt : Z) (config : RetryConfig) : Duration :=
  let delay := i64_wrap (BaseBackoff config * shift_one attempt) in
  let delay := if delay >? MaxBackoff config then MaxBackoff config else delay in
  let jitter := f_trunc (f_mul (f_of_Z delay) (f_lit 1 4)) in
  i64_wrap (delay + jitter).

(** ** Fallback and drain *)

Record FallbackRouter := mkRouter { PrimaryModel : string; FallbackModel : string }.

Definition ShouldFallback (f : FallbackRouter) (primaryHealthy : bool) : bool :=
  negb primaryHealthy && (FallbackModel f !=? "").

Definition TargetModel (f : FallbackRouter) (primaryHealthy : bool) : string :=
  if ShouldFallback f primaryHealthy then FallbackModel f else PrimaryModel f.

Record HealthDrainConfig := mkDrain { DrainEnabled : bool; DrainRatePercent : Z; Interval : Duration }.

Definition DefaultHealthDrainConfig : HealthDrainConfig := mkDrain true 10 (30 * Second).

(** ** Histories of the breaker *)

Inductive Event := EvAllow (now : Time) | EvSuccess | EvFailure (now : Time).

Definition step (cb : CircuitBreaker) (ev : Event) : CircuitBreaker :=
  match ev with
  | EvAllow now => fst (Allow now cb)
  | EvSuccess => RecordSuccess cb
  | EvFailure now => RecordFailure now cb
  end.

Definition run : CircuitBreaker -> list Event -> CircuitBreaker := foldl step.

(** The answers of [Allow] along a history. *)
Fixpoint answers (cb : CircuitBreaker) (h : list Event) : list bool :=
  match h with
  | [] => []
  | ev :: h =>
      match ev with
      | EvAllow now => snd (Allow now cb) :: answers (step cb ev) h
      | _ => answers (step cb ev) h
      end
  end.

(** *** The machine the breaker implements

    Closed with the failures since it closed, open since its last failure, or
    half-open with the successes so far and whether a probe is outstanding.
    A success while closed or open changes nothing. *)
Inductive Mode := Closed (failed : Z) | Open (since : Time) | HalfOpen (succeeded : Z) (probing : bool).

Definition mode_state (m : Mode) : CircuitState :=
  match m with Closed _ => StateClosed | Open _ => StateOpen | HalfOpen _ _ => StateHalfOpen end.

(** The next mode and, for a request, whether it is let through. *)
Definition mode_step (cfg : CircuitBreakerConfig) (m : Mode) (ev : Event) : Mode * option bool :=
  match m, ev with
  | Closed n, EvAllow _ => (Closed n, Some true)
  | Closed n, EvSuccess => (Closed n, None)
  | Closed n, EvFailure t => (if n + 1 <? FailureThreshold cfg then Closed (n + 1) else Open t, None)
  | Open t, EvAllow now => if Timeout cfg <? TimeSub now t then (HalfOpen 0 true, Some true) else (Open t, Some false)
  | Open t, EvSuccess => (Open t, None)
  | Open _, EvFailure t => (Open t, None)
  | HalfOpen n probing, EvAllow _ => (HalfOpen n true, Some (negb probing))
  | HalfOpen n _, EvSuccess => (if n + 1 <? SuccessThreshold cfg then HalfOpen (n + 1) false else Closed 0, None)
  | HalfOpen _ _, EvFailure t => (Open t, None)
  end.

Fixpoint mode_run (cfg : CircuitBreakerConfig) (m : Mode) (h : list Event) : Mode * list bool :=
  match h with
  | [] => (m, [])
  | ev :: h =>
      let '(m', a) := mode_step cfg m ev in
      let '(m'', l) := mode_run cfg m' h in
      (m'', match a with Some b => b :: l | None => l end)
  end.

(** The breaker in a mode, after at most [n] calls. *)
Definition in_mode (cfg : CircuitBreakerConfig) (n : Z) (m : Mode) (cb : CircuitBreaker) : Prop :=
  config cb = cfg /\ state cb = mode_state m /\ 0 <= failures cb <= n /\
  match m with
  | Closed k => failures cb = k
  | Open t => lastFailureTime cb = t /\ FailureThreshold cfg <= failures cb
  | HalfOpen k probing => successes cb = k /\ 0 <= k <= n /\ halfOpenProbe cb = probing /\ FailureThreshold cfg <= failures cb
  end.

Lemma in_mode_step cfg n m cb ev : n < 2 ^ 31 - 1 -> in_mode cfg n m cb ->
  in_mode cfg (n + 1) (mode_step cfg m ev).1 (step cb ev)
  /\ (mode_step cfg m ev).2 = match ev with EvAllow now => Some (snd (Allow now cb)) | _ => None end.
Proof.
  intros Hn (Hc & Hs & Hf & Hm). destruct cb as [c st f s last probe]. cbn in Hc, Hs, Hf, Hm. subst c st.
  assert (i32_wrap (f + 1) = f + 1) as Ef by (apply i32_wrap_small; unfold i32_range; lia).
  unfold in_mode, step, Allow, RecordSuccess, RecordFailure.
  destruct m as [k|t|k probing], ev as [now| |now]; cbn [mode_state mode_step state config failures successes lastFailureTime halfOpenProbe];
    destruct_and?; subst; rewrite ?Ef.
  8: rewrite (i32_wrap_small (k + 1)) by (unfold i32_range; lia).
  all: cbn; repeat case_bool_decide; try destruct probe; try destruct probing; cbn; (split; [split_and!|]); done || lia.
Qed.

Lemma in_mode_run cfg h : forall n m cb, n + Z.of_nat (length h) < 2 ^ 31 -> in_mode cfg n m cb ->
  answers cb h = (mode_run cfg m h).2 /\ state (run cb h) = mode_state (mode_run cfg m h).1.
Proof.
  induction h as [|ev h IH]; intros n m cb Hn Hin; cbn [length] in Hn; [split; [done|]; apply Hin|].
  destruct (in_mode_step cfg n m cb ev) as [Hin' Ha]; [lia|done|]. cbn [mode_run run foldl answers].
  destruct (mode_step cfg m ev) as [m' a]. cbn in Hin', Ha. destruct (IH (n + 1) m' (step cb ev)) as [H1 H2]; [lia|done|].
  destruct (mode_run cfg m' h) as [m'' l]. cbn in *. unfold run in H2. split; [|done]. rewrite Ha, <- H1. by destruct ev.
Qed.

(** C19. The circuit breaker implements the machine above: over every history of
    fewer than 2^31 requests, successes and failures it lets through exactly
    the requests the machine lets through, and is closed, open or half-open as
    the machine is.  So it opens on the [FailureThreshold]-th failure since it
    closed, refuses until the timeout has passed since the last failure, then
    lets one request through at a time until a result is reported, closes on
    the [SuccessThreshold]-th success and reopens on a failure.  The result
    that frees the probe may be that of an older request ([two_probes]). *)
Theorem breaker_discipline cfg h (Hlen : Z.of_nat (length h) < 2 ^ 31) :
  answers (NewCircuitBreaker cfg) h = (mode_run cfg (Closed 0) h).2
  /\ state (run (NewCircuitBreaker cfg) h) = mode_state (mode_run cfg (Closed 0) h).1.
Proof. apply (in_mode_run cfg h 0); [lia|]. done. Qed.

(** ** Witnesses *)

Definition w_config : CircuitBreakerConfig := mkBreakerConfig 2 2 10.

(** Two failures trip the breaker. *)
Definition w_history : list Event := [EvAllow 1; EvFailure 5; EvAllow 6; EvFailure 7].

Lemma breaker_discipline_witness :
  answers (NewCircuitBreaker w_config) (w_history ++ [EvAllow 16; EvAllow 18; EvAllow 19; EvSuccess; EvAllow 20; EvSuccess])
  = [true; true; false; true; false; true]
  /\ state (run (NewCircuitBreaker w_config) w_history) = StateOpen.
Proof.
  split; [apply (breaker_discipline w_config (w_history ++ [EvAllow 16; EvAllow 18; EvAllow 19; EvSuccess; EvAllow 20; EvSuccess]))
         |apply (breaker_discipline w_config w_history)]; simpl; lia.
Defined.

(** ** Limits of the breaker *)

(** A probe that never reports its result keeps the breaker half-open and
    refusing for good. *)
Lemma lost_probe_blocks cb times :
  state cb = StateHalfOpen -> halfOpenProbe cb = true -> run cb (map EvAllow times) = cb
  /\ answers cb (map EvAllow times) = replicate (length times) false.
Proof.
  intros Hs Hp. induction times as [|t times IH]; [done|].
  cbn [map run foldl answers step length replicate]. 
  assert (Allow t cb = (cb, false)) as -> by (unfold Allow; by rewrite Hs, Hp). cbn [fst snd].
  destruct IH as [IH1 IH2]. split; [exact IH1|f_equal; exact IH2].
Qed.

(** A success of a request admitted before the breaker tripped frees the
    probe: two probes are in flight at once. *)
Example two_probes :
  answers (NewCircuitBreaker w_config)
    [EvAllow 1; EvAllow 2; EvAllow 3; EvFailure 4; EvFailure 5; EvAllow 16; EvSuccess; EvAllow 17]
  = [true; true; true; true; true].
Proof. reflexivity. Qed.

(** Successes while closed do not forget failures: the threshold counts all
    failures since the breaker closed, not consecutive ones. *)
Example failures_accumulate :
  state (run (NewCircuitBreaker w_config) [EvFailure 1; EvSuccess; EvSuccess; EvSuccess; EvFailure 900]) = StateOpen.
Proof. reflexivity. Qed.

(** ** Bulkhead *)

Definition bulkhead_ok (b : Bulkhead) : Prop := 0 <= sem_len b <= sem_cap b.

(** The number of admitted requests stays within the limit; a slot is
    refused to a live request only when all are taken. *)
Lemma bulkhead_bounded b d pick :
  bulkhead_ok b ->
  bulkhead_ok (fst (Acquire d pick b))
  /\ (snd (Acquire d pick b) = true -> Release (fst (Acquire d pick b)) = Some b)
  /\ (d = false -> snd (Acquire d pick b) = false <-> ActiveCount b = sem_cap b).
Proof.
  destruct b as [c n]. unfold bulkhead_ok, Acquire, Release, ActiveCount. simpl. intros H.
  case_bool_decide; simpl; [destruct (d && pick) eqn:E|]; simpl; split_and!; try done; try lia.
  - intros ->. done.
  - intros _. rewrite bool_decide_false by lia. do 2 f_equal. lia.
Qed.

(** ** Retry delay *)

Definition default_retry : RetryConfig := mkRetryConfig 3 (100 * Millisecond) (10 * Second).

(** As long as the product does not overflow and the cap is below 2^53
    nanoseconds (104 days), the delay is the doubled base capped at the
    maximum, plus a quarter, which is not capped. *)
Lemma retry_delay_spec attempt cfg :
  0 <= attempt < 63 -> 0 <= BaseBackoff cfg -> BaseBackoff cfg * 2 ^ attempt < 2 ^ 63 ->
  0 <= MaxBackoff cfg < 2 ^ 53 ->
  let delay := Z.min (BaseBackoff cfg * 2 ^ attempt) (MaxBackoff cfg) in
  ComputeRetryDelay attempt cfg = delay + delay / 4.
Proof.
  intros Ha Hb Ho Hm delay. unfold ComputeRetryDelay, shift_one.
  assert (0 <= 2 ^ attempt < 2 ^ 63) by (split; [lia|apply Z.pow_lt_mono_r; lia]).
  rewrite u64_wrap_small by (unfold u64_range; lia). rewrite (bool_decide_true (attempt < 64)) by lia.
  rewrite (i64_wrap_small (2 ^ attempt)) by (unfold i64_range; lia).
  rewrite (i64_wrap_small (BaseBackoff cfg * 2 ^ attempt)) by (unfold i64_range; nia).
  assert ((if BaseBackoff cfg * 2 ^ attempt >? MaxBackoff cfg then MaxBackoff cfg
           else BaseBackoff cfg * 2 ^ attempt) = delay) as -> by (unfold delay; case_bool_decide; lia).
  assert (0 <= delay < 2 ^ 53) by (unfold delay; lia).
  rewrite f_trunc_quarter by done. apply i64_wrap_small. unfold i64_range.
  assert (0 <= delay / 4 <= delay) by (Z.div_mod_to_equations; lia). lia.
Qed.

(** The default policy ends at 12.5s, a quarter over its maximum. *)
Example default_retry_delays :
  (fun attempt => ComputeRetryDelay attempt default_retry) <$> [0; 1; 2; 3; 6; 7; 36]
  = (fun ms => ms * Millisecond) <$> [125; 250; 500; 1000; 8000; 12500; 12500].
Proof. by_computation. Qed.

(** From attempt 37 on the product wraps: the delay is negative or zero. *)
Example retry_delay_wraps :
  Retry DefaultResiliencePolicy = Some default_retry
  /\ ComputeRetryDelay 37 default_retry < 0 /\ ComputeRetryDelay 56 default_retry = 0.
Proof. vm_compute. done. Qed.
