(* ===== verification/GoStrings.v ===== *)
(** * More of Go's [strings] package

    [Split], [Fields], [TrimSpace], [HasSuffix], [TrimPrefix] and [ToLower],
    with the lemmas the components use.
    Strings are byte sequences. *)

From S2P Require Import Prelude.
From Stdlib Require Import Ascii.

Fixpoint str_take (n : nat) (s : string) : string :=
  match n, s with
  | S n, String c s => String c (str_take n s)
  | _, _ => EmptyString
  end.

(** [strings.Split(s, sep)] for a non-empty separator; every piece but the
    last consumes at least the separator, so the length is enough fuel. *)
Fixpoint split_fuel (n : nat) (s sep : string) : list string :=
  match n with
  | O => [s]
  | S n =>
      match Index s sep with
      | None => [s]
      | Some i => str_take i s :: split_fuel n (str_drop (i + String.length sep) s) sep
      end
  end.

Definition Split (s sep : string) : list string := split_fuel (String.length s) s sep.

(** [strings.Fields]: the maximal runs of bytes between white space; [cur] is
    the field being read.  Every step consumes at least a byte. *)
Definition end_field (cur : string) : list string := if cur ==? "" then [] else [cur].

Fixpoint fields_fuel (n : nat) (s cur : string) : list string :=
  match n, s with
  | O, _ => []
  | S n, EmptyString => end_field cur
  | S n, String c s' =>
      match skip_space s with
      | Some rest => end_field cur ++ fields_fuel n rest ""
      | None => fields_fuel n s' (cur +:+ String c "")
      end
  end.

Definition Fields (s : string) : list string := fields_fuel (S (String.length s)) s "".

(** [strings.TrimSpace]: drop the spaces in front, then everything from the
    first position after which only spaces follow. *)
Fixpoint trim_left_fuel (n : nat) (s : string) : string :=
  match n, skip_space s with
  | S n, Some rest => trim_left_fuel n rest
  | _, _ => s
  end.

Fixpoint trim_right (s : string) : string :=
  if TrimSpace_empty s then ""
  else match s with
       | EmptyString => ""
       | String c s => String c (trim_right s)
       end.

Definition TrimSpace (s : string) : string := trim_right (trim_left_fuel (String.length s) s).

(** [strings.HasSuffix]. *)
Definition HasSuffix (s suffix : string) : bool :=
  let n := String.length s in
  let m := String.length suffix in
  Nat.leb m n && (str_drop (n - m) s ==? suffix).

Definition TrimPrefix (s p : string) : string :=
  if HasPrefix s p then str_drop (String.length p) s else s.

(** [strings.ToLower]: the ASCII letters, and the two characters outside
    ASCII whose lower case is an ASCII letter (U+212A, the Kelvin sign, and
    U+0130, the dotted capital I).  Other characters stay as they are: their
    lower case is outside ASCII too, so a comparison of the result with an
    ASCII string comes out the same. *)
Definition lower_ascii (c : ascii) : ascii :=
  let x := code c in if (65 <=? x) && (x <=? 90) then byte_of (x + 32) else c.

Fixpoint ToLower (s : string) : string :=
  match s with
  | String a ((String b s2) as s1) =>
      if (code a ==? 196) && (code b ==? 176) then String (byte_of 105) (ToLower s2)
      else match s2 with
           | String c s3 =>
               if (code a ==? 226) && (code b ==? 132) && (code c ==? 170)
               then String (byte_of 107) (ToLower s3)
               else String (lower_ascii a) (ToLower s1)
           | EmptyString => String (lower_ascii a) (ToLower s1)
           end
  | String a s1 => String (lower_ascii a) (ToLower s1)
  | EmptyString => EmptyString
  end.

Example strings_examples :
  Split "a@sha256:b@sha256:c" "@sha256:" = ["a"; "b"; "c"] /\ Split "abc" "," = ["abc"]
  /\ Fields "  ab c  d " = ["ab"; "c"; "d"] /\ Fields " " = []
  /\ TrimSpace "  ab c  d " = "ab c  d" /\ TrimSpace "  " = ""
  /\ Split "a," "," = ["a"; ""] /\ Split "" "," = [""]
  /\ ToLower "LocalSeeded-09" = "localseeded-09" /\ TrimPrefix "sha256:ab" "sha256:" = "ab".
Proof. vm_compute. done. Qed.

(** Joining with a separator undoes splitting at it. *)
Lemma prefix_app p s : String.prefix p s = true -> exists r, s = p +:+ r.
Proof.
  revert s. induction p as [|c p IH]; intros s; [exists s; reflexivity|]. destruct s as [|d s]; [discriminate|].
  cbn [String.prefix].
  destruct (ascii_dec c d) as [->|]; [|discriminate]. intros H. destruct (IH s H) as [r ->]. exists r. reflexivity.
Qed.

Lemma HasPrefix_app p r : HasPrefix (p +:+ r) p = true.
Proof.
  unfold HasPrefix. induction p as [|c p IH]; [by destruct r|].
  change (String.prefix (String c p) (String c (p +:+ r)) = true). cbn [String.prefix].
  destruct (ascii_dec c c); [exact IH|done].
Qed.

Lemma prefix_trans p q s : HasPrefix q p = true -> HasPrefix s q = true -> HasPrefix s p = true.
Proof. intros [r ->]%prefix_app [r' ->]%prefix_app. rewrite <- string_app_assoc. apply HasPrefix_app. Qed.

Lemma str_length_app a b : String.length (a +:+ b) = (String.length a + String.length b)%nat.
Proof. induction a as [|c a IH]; [done|]. change (S (String.length (a +:+ b)) = S (String.length a + String.length b)). by rewrite IH. Qed.

Lemma str_drop_app p r : str_drop (String.length p) (p +:+ r) = r.
Proof. induction p as [|c p IH]; [by destruct r|]. exact IH. Qed.

Lemma Index_split s sep i :
  Index s sep = Some i -> s = str_take i s +:+ sep +:+ str_drop (i + String.length sep) s.
Proof.
  revert i. induction s as [|c s IH]; intros i; cbn [Index].
  - destruct (HasPrefix "" sep) eqn:E; [|done]. intros [= <-]. destruct sep; [done|done].
  - destruct (HasPrefix (String c s) sep) eqn:E.
    + intros [= <-]. apply prefix_app in E as [r Hr]. rewrite Hr. cbn [Nat.add]. by rewrite str_drop_app.
    + destruct (Index s sep) as [j|] eqn:Ej; [|done]. intros [= <-].
      cbn [str_take Nat.add str_drop]. change (String c s = String c (str_take j s +:+ sep +:+ str_drop (j + String.length sep) s)).
      f_equal. by apply IH.
Qed.

Lemma Join_cons sep s l : l <> [] -> Join sep (s :: l) = s +:+ sep +:+ Join sep l.
Proof. by destruct l. Qed.

Lemma split_fuel_nonnil n s sep : split_fuel n s sep <> [].
Proof. destruct n; simpl; [done|]. by destruct (Index s sep). Qed.

Lemma Join_Split s sep : Join sep (Split s sep) = s.
Proof.
  unfold Split. generalize (String.length s) as n. intros n. revert s.
  induction n as [|n IH]; intros s; [done|]. cbn [split_fuel].
  destruct (Index s sep) as [i|] eqn:E; [|done].
  rewrite Join_cons by apply split_fuel_nonnil. rewrite IH. symmetry. by apply Index_split.
Qed.

(** Splitting at a character undoes joining with it. *)
Definition free_of (c : ascii) (s : string) : bool := str_forall (fun x => negb (bool_decide (x = c))) s.

Lemma Index_first c a r : free_of c a = true -> Index (a +:+ String c r) (String c "") = Some (String.length a).
Proof.
  unfold free_of. induction a as [|x a IH]; cbn [str_forall]; intros H.
  - change ("" +:+ String c r) with (String c r). cbn [Index]. unfold HasPrefix. simpl.
    destruct (ascii_dec c c); [by destruct r|done].
  - apply andb_true_iff in H as [Hx H]. apply negb_true_iff, bool_decide_eq_false in Hx.
    change (String x a +:+ String c r) with (String x (a +:+ String c r)). cbn [Index].
    unfold HasPrefix. simpl. destruct (ascii_dec c x); [congruence|]. by rewrite IH.
Qed.

Lemma Index_absent c s : free_of c s = true -> Index s (String c "") = None.
Proof.
  unfold free_of. induction s as [|x s IH]; cbn [str_forall]; intros H; [done|].
  apply andb_true_iff in H as [Hx H]. apply negb_true_iff, bool_decide_eq_false in Hx.
  cbn [Index]. unfold HasPrefix. simpl. destruct (ascii_dec c x); [congruence|]. by rewrite IH.
Qed.

Lemma str_take_app a r : str_take (String.length a) (a +:+ r) = a.
Proof. induction a as [|x a IH]; [by destruct r|]. exact (f_equal (String x) IH). Qed.

Lemma split_join_fuel c l n :
  l <> [] -> Forall (fun s => free_of c s = true) l -> (length l <= S n)%nat ->
  split_fuel n (Join (String c "") l) (String c "") = l.
Proof.
  revert n. induction l as [|s l IH]; intros n Hl Hf Hn; [done|]. apply Forall_cons in Hf as [Hs Hf].
  destruct l as [|s' l].
  - cbn [Join]. destruct n; [done|]. cbn [split_fuel]. by rewrite Index_absent.
  - destruct n as [|n]; [simpl in Hn; lia|]. rewrite Join_cons by done.
    change (String c "" +:+ Join (String c "") (s' :: l)) with (String c (Join (String c "") (s' :: l))).
    cbn [split_fuel]. rewrite Index_first by done. rewrite str_take_app. f_equal.
    replace (str_drop (String.length s + String.length (String c "")) (s +:+ String c (Join (String c "") (s' :: l))))
      with (Join (String c "") (s' :: l)).
    + apply IH; [done|done|simpl in *; lia].
    + symmetry. generalize (Join (String c "") (s' :: l)). intros r. clear. simpl String.length.
      induction s as [|x s IH]; [by destruct r|]. exact IH.
Qed.

Lemma Join_length c l : (length l <= S (String.length (Join (String c "") l)))%nat.
Proof.
  induction l as [|s l IH]; [simpl; lia|]. destruct l as [|s' l]; [simpl; lia|].
  rewrite Join_cons by done. rewrite !str_length_app. simpl in *. lia.
Qed.

Lemma Split_Join c l :
  l <> [] -> Forall (fun s => free_of c s = true) l -> Split (Join (String c "") l) (String c "") = l.
Proof. intros. apply split_join_fuel; [done|done|apply Join_length]. Qed.
