(* ===== verification/Adaptive.v ===== *)
(** * Adaptive timeouts, priority queue and degradation
    ([internal/inference/adaptive.go])

    The timeout controller keeps a ring of latencies in milliseconds and
    recomputes percentiles every hundred samples; its in-place insertion sort
    is modelled with the array updates of the source.  The priority queue is
    modelled down to the critical sections of [Enqueue]; sending on a
    request's result channel is the notification the operation returns.  The
    degradation controller maps load to the limits of a rule.  Calls of one
    object run one after another unless stated otherwise; [None] is a panic
    of the source; clock readings are arguments. *)

From S2P Require Import Prelude GoFloat GoFloatBounds.

(** ** Adaptive timeout *)

Record AdaptiveTimeout := mkTimeout {
  samples : list Z;       (* []int64, milliseconds *)
  writeIdx : Z;           (* int *)
  sampleSize : Z;         (* int *)
  minTimeout : Duration;
  maxTimeout : Duration;
  p50 : Z;                (* int64 *)
  p95 : Z;
  p99 : Z
}.

Definition NewAdaptiveTimeout (sampleSize : Z) (min max : Duration) : option AdaptiveTimeout :=
  if sampleSize <? 0 then None
  else Some (mkTimeout (replicate (Z.to_nat sampleSize) 0) 0 sampleSize min max 0 0 0).

(** The inner loop: [hole] is [j+1]; elements greater than [key] move up one
    place until the hole has its position. *)
Fixpoint shift_up (sorted : list Z) (hole : nat) (key : Z) : list Z :=
  match hole with
  | O => <[0%nat := key]> sorted
  | S j =>
      match sorted !! j with
      | Some x => if x >? key then shift_up (<[hole := x]> sorted) j key else <[hole := key]> sorted
      | None => sorted
      end
  end.

(** The outer loop over [i], from [i] for [todo] rounds. *)
Fixpoint insertion_loop (sorted : list Z) (i todo : nat) : list Z :=
  match todo with
  | O => sorted
  | S todo =>
      match sorted !! i with
      | Some key => insertion_loop (shift_up sorted i key) (S i) todo
      | None => sorted
      end
  end.

Definition insertion_sort (l : list Z) : list Z := insertion_loop l 1 (length l - 1).

(** The indices of the percentiles among [n] sorted samples. *)
Definition index50 (n : Z) : Z := Z.quot n 2.
Definition index95 (n : Z) : Z := f_trunc (f_mul (f_of_Z n) (f_lit 95 100)).
Definition index99 (n : Z) : Z :=
  f_trunc (math_Min (f_mul (f_of_Z n) (f_lit 99 100)) (f_of_Z (n - 1))).

(** An array read; a negative index panics too. *)
Definition at_index (l : list Z) (i : Z) : option Z := if i <? 0 then None else l !! Z.to_nat i.

Definition positive_samples (l : list Z) : list Z := List.filter (fun s => s >? 0) l.

Definition recomputePercentiles (a : AdaptiveTimeout) : option AdaptiveTimeout :=
  let collected := positive_samples (samples a) in
  match collected with
  | [] => Some a
  | _ =>
      let sorted := insertion_sort collected in
      let n := Z.of_nat (length sorted) in
      v50 ← at_index sorted (index50 n);
      v95 ← at_index sorted (index95 n);
      v99 ← at_index sorted (index99 n);
      Some (mkTimeout (samples a) (writeIdx a) (sampleSize a) (minTimeout a) (maxTimeout a) v50 v95 v99)
  end.

(** [Record]. *)
Definition RecordLatency (a : AdaptiveTimeout) (latency : Duration) : option AdaptiveTimeout :=
  let ms := Milliseconds latency in
  if (writeIdx a <? 0) || (writeIdx a >=? Z.of_nat (length (samples a))) then None
  else
    let a := mkTimeout (<[Z.to_nat (writeIdx a) := ms]> (samples a))
               (Z.rem (writeIdx a + 1) (sampleSize a)) (sampleSize a) (minTimeout a) (maxTimeout a)
               (p50 a) (p95 a) (p99 a) in
    if Z.rem (writeIdx a) 100 ==? 0 then recomputePercentiles a else Some a.

Definition Timeout (a : AdaptiveTimeout) : Duration :=
  if p99 a ==? 0 then maxTimeout a
  else
    let timeout := i64_wrap (f_trunc (f_mul (f_of_Z (p99 a)) (f_lit 12 10)) * Millisecond) in
    if timeout <? minTimeout a then minTimeout a
    else if timeout >? maxTimeout a then maxTimeout a
    else timeout.

Definition P50 (a : AdaptiveTimeout) : Duration := i64_wrap (p50 a * Millisecond).
Definition P95 (a : AdaptiveTimeout) : Duration := i64_wrap (p95 a * Millisecond).
Definition P99 (a : AdaptiveTimeout) : Duration := i64_wrap (p99 a * Millisecond).

(** ** Priority queue *)

Inductive QueueErr := ErrLoadShed | ErrDeadlineExceeded.

Record PriorityRequest := mkRequest {
  Priority : Z;
  EnqueueTime : Time;
  ModelName : string;
  SessionID : string;
  MaxTokens : Z;          (* int32 *)
  Deadline : Time;
  Result : nat            (* the channel *)
}.

Definition PriorityCritical : Z := 0.
Definition PriorityInteractive : Z := 1.
Definition PriorityBatch : Z := 2.
Definition PriorityBackground : Z := 3.

Record PriorityQueue := mkQueue {
  queues : list (list PriorityRequest);   (* [4][]PriorityRequest *)
  depth : Z;
  maxDepth : Z
}.

(** A request told of its failure on its result channel. *)
Definition Notice : Type := PriorityRequest * QueueErr.

Definition NewPriorityQueue (maxDepth : Z) : PriorityQueue := mkQueue [[]; []; []; []] 0 maxDepth.

(** The queue of a level, which the source indexes only within the array. *)
Definition level (q : PriorityQueue) (p : nat) : list PriorityRequest := default [] (queues q !! p).

Definition set_level (q : PriorityQueue) (p : nat) (l : list PriorityRequest) : PriorityQueue :=
  mkQueue (<[p := l]> (queues q)) (depth q) (maxDepth q).

Definition add_depth (q : PriorityQueue) (d : Z) : PriorityQueue :=
  mkQueue (queues q) (i64_wrap (depth q + d)) (maxDepth q).

(** The first part of [Enqueue]: the test of the depth and the shedding of
    the oldest background request.  The result is whether to go on. *)
Definition enqueue_check (q : PriorityQueue) : PriorityQueue * bool * list Notice :=
  if depth q >=? maxDepth q then
    match level q 3 with
    | dropped :: rest => (add_depth (set_level q 3 rest) (-1), true, [(dropped, ErrLoadShed)])
    | [] => (q, false, [])
    end
  else (q, true, []).

(** The second part; indexing the array with an unknown priority panics. *)
Definition enqueue_append (q : PriorityQueue) (req : PriorityRequest) : option PriorityQueue :=
  if (Priority req <? 0) || (Priority req >? 3) then None
  else
    let p := Z.to_nat (Priority req) in
    Some (add_depth (set_level q p (level q p ++ [req])) 1).

Definition Enqueue (q : PriorityQueue) (req : PriorityRequest)
    : option (PriorityQueue * bool * list Notice) :=
  match enqueue_check q with
  | (q, false, notices) => Some (q, false, notices)
  | (q, true, notices) => q ← enqueue_append q req; Some (q, true, notices)
  end.

Definition expired (now : Time) (req : PriorityRequest) : bool :=
  negb (IsZero (Deadline req)) && After now (Deadline req).

(** The loop of [Dequeue] over the levels [ps]; the clock is read at each
    popped request, [now p] being the reading at level [p]. *)
Fixpoint dequeue_loop (now : nat -> Time) (q : PriorityQueue) (ps : list nat)
    : PriorityQueue * option PriorityRequest * list Notice :=
  match ps with
  | [] => (q, None, [])
  | p :: ps =>
      match level q p with
      | [] => dequeue_loop now q ps
      | req :: rest =>
          let q := add_depth (set_level q p rest) (-1) in
          if expired (now p) req then
            let '(q, res, notices) := dequeue_loop now q ps in
            (q, res, (req, ErrDeadlineExceeded) :: notices)
          else (q, Some req, [])
      end
  end.

Definition Dequeue (now : nat -> Time) (q : PriorityQueue)
    : PriorityQueue * option PriorityRequest * list Notice :=
  dequeue_loop now q [0; 1; 2; 3]%nat.

Definition Depth (q : PriorityQueue) : Z := depth q.

(** ** Graceful degradation *)

Definition DegradationNone : Z := 0.
Definition DegradationLight : Z := 1.
Definition DegradationModerate : Z := 2.
Definition DegradationSevere : Z := 3.

Record DegradationRule := mkRule {
  QueueDepthThreshold : Z;      (* int64 *)
  P99LatencyThreshold : Duration;
  RuleLevel : Z;
  MaxTokensOverride : Z;        (* int32 *)
  RejectBatch : bool;
  MaxConcurrent : Z             (* int32 *)
}.

Record DegradationController := mkController { dlevel : Z; rules : list DegradationRule }.

Definition NewDegradationController : DegradationController :=
  mkController DegradationNone
    [mkRule 100 (5 * Second) DegradationLight 2048 false 200;
     mkRule 500 (15 * Second) DegradationModerate 1024 true 100;
     mkRule 1000 (30 * Second) DegradationSevere 512 true 50].

Definition Evaluate (d : DegradationController) (queueDepth : Z) (p99 : Duration) : DegradationController :=
  mkController
    (foldl (fun newLevel rule =>
              if (queueDepth >=? QueueDepthThreshold rule) || (p99 >=? P99LatencyThreshold rule)
              then RuleLevel rule else newLevel) DegradationNone (rules d))
    (rules d).

Definition Level (d : DegradationController) : Z := dlevel d.

Definition ActiveRule (d : DegradationController) : option DegradationRule :=
  List.find (fun rule => RuleLevel rule ==? dlevel d) (rules d).

Definition ClampTokens (d : DegradationController) (requested : Z) : Z :=
  match ActiveRule d with
  | None => requested
  | Some rule => if requested >? MaxTokensOverride rule then MaxTokensOverride rule else requested
  end.

Definition ShouldRejectBatch (d : DegradationController) : bool :=
  match ActiveRule d with
  | None => false
  | Some rule => RejectBatch rule
  end.

(** ** The insertion sort *)

(** What the inner loop does to a sorted prefix: [key] goes in after the
    elements that are not greater. *)
Fixpoint insert_rev (key : Z) (rl : list Z) : list Z :=
  match rl with
  | [] => [key]
  | x :: rl => if x >? key then x :: insert_rev key rl else key :: x :: rl
  end.

Lemma shift_up_spec l hole key rest :
  shift_up (l ++ hole :: rest) (length l) key = reverse (insert_rev key (reverse l)) ++ rest.
Proof.
  revert hole rest. induction l as [|x l IH] using rev_ind; intros hole rest; [done|].
  rewrite length_app, Nat.add_1_r, reverse_snoc. cbn [shift_up insert_rev].
  rewrite <- app_assoc. cbn [app]. rewrite list_lookup_middle by done.
  case_bool_decide.
  - replace (<[S (length l) := x]> (l ++ x :: hole :: rest)) with (l ++ x :: x :: rest).
    + rewrite IH, reverse_cons, <- app_assoc. done.
    + by rewrite insert_app_r_alt, Nat.sub_succ_l, Nat.sub_diag by lia.
  - rewrite !reverse_cons, reverse_involutive, <- !app_assoc. cbn [app].
    by rewrite insert_app_r_alt, Nat.sub_succ_l, Nat.sub_diag by lia.
Qed.

Lemma insert_rev_perm key rl : insert_rev key rl ≡ₚ key :: rl.
Proof.
  induction rl as [|x rl IH]; simpl; [done|]. case_bool_decide; [|done]. rewrite IH. by constructor.
Qed.

Lemma insert_rev_sorted key rl : StronglySorted Z.ge rl -> StronglySorted Z.ge (insert_rev key rl).
Proof.
  induction 1 as [|x rl Hs IH Hx]; simpl; [repeat constructor|]. case_bool_decide.
  - constructor; [done|]. rewrite insert_rev_perm. constructor; [lia|done].
  - constructor; [by constructor|]. constructor; [lia|]. eapply Forall_impl; [exact Hx|]. simpl. lia.
Qed.

Lemma sorted_reverse l : StronglySorted Z.ge l -> StronglySorted Z.le (reverse l).
Proof.
  induction 1 as [|x l Hs IH Hx]; [constructor|]. rewrite reverse_cons.
  apply StronglySorted_app_2; [intros a b Ha Hb|done|repeat constructor].
  apply list_elem_of_singleton in Hb as ->. rewrite reverse_Permutation in Ha.
  rewrite Forall_forall in Hx. specialize (Hx a Ha). lia.
Qed.

Lemma insertion_loop_spec l rest todo :
  StronglySorted Z.ge l -> length rest = todo ->
  exists rl, insertion_loop (reverse l ++ rest) (length l) todo = reverse rl
    /\ StronglySorted Z.ge rl /\ reverse rl ≡ₚ reverse l ++ rest.
Proof.
  revert l rest. induction todo as [|todo IH]; intros l rest Hs Hlen.
  - destruct rest; [|done]. exists l. by rewrite app_nil_r.
  - destruct rest as [|key rest]; [done|]. cbn [insertion_loop].
    rewrite list_lookup_middle by (by rewrite length_reverse).
    rewrite <- (length_reverse l), shift_up_spec, reverse_involutive, length_reverse.
    destruct (IH (insert_rev key l) rest) as (rl & Hrl & Hsrl & Hp); [by apply insert_rev_sorted|by injection Hlen|].
    rewrite (Permutation_length (insert_rev_perm key l)) in Hrl. cbn [length] in Hrl. exists rl. split_and!; [done|done|].
    rewrite Hp, !reverse_Permutation, insert_rev_perm. apply Permutation_middle.
Qed.

#[local] Instance Zle_total : Total Z.le.
Proof. intros a b. lia. Qed.
#[local] Instance Zle_antisymm : AntiSymm (=) Z.le.
Proof. intros a b. lia. Qed.

(** The in-place insertion sort over the array of samples computes what
    the library's merge sort computes: the sorted permutation. *)
Theorem insertion_sort_sorts l : insertion_sort l = merge_sort Z.le l.
Proof.
  destruct l as [|x l]; [done|]. unfold insertion_sort. cbn [length]. rewrite Nat.sub_succ, Nat.sub_0_r.
  destruct (insertion_loop_spec [x] l (length l)) as (rl & H & Hs & Hp); [repeat constructor|done|].
  cbn in H. rewrite H. apply (StronglySorted_unique Z.le).
  - by apply sorted_reverse.
  - apply StronglySorted_merge_sort; apply _.
  - rewrite merge_sort_Permutation. exact Hp.
Qed.

(** ** Percentiles *)

Lemma merge_sort_le_sorted l : StronglySorted Z.le (merge_sort Z.le l).
Proof. apply StronglySorted_merge_sort; apply _. Qed.

Lemma sorted_lookup l i j x y :
  StronglySorted Z.le l -> (i <= j)%nat -> l !! i = Some x -> l !! j = Some y -> x <= y.
Proof.
  intros Hs. revert i j. induction Hs as [|a l Hs IH Ha]; intros i j Hij Hi Hj; [done|].
  destruct i as [|i], j as [|j]; simplify_eq/=; [lia| |lia|].
  - rewrite Forall_forall in Ha. apply Ha. by eapply list_elem_of_lookup_2.
  - apply (IH i j); [lia|done|done].
Qed.

(** The three indices are in range and in order, whatever the rounding of
    the products. *)
Lemma f_lit_95 : f_lit 95 100 = S754_finite false 8556839292003942 (-53).
Proof. reflexivity. Qed.
Lemma f_lit_99 : f_lit 99 100 = S754_finite false 8917127262193582 (-53).
Proof. reflexivity. Qed.

(** [math.Min] returns one of its arguments unless one is NaN or -Inf. *)
Lemma math_Min_cases x y :
  is_nan x = false -> is_nan y = false -> is_inf x true = false -> is_inf y true = false ->
  math_Min x y = x \/ math_Min x y = y.
Proof.
  intros H1 H2 H3 H4. unfold math_Min. rewrite H1, H2, H3, H4. simpl.
  destruct (f_eq x f_zero && f_eq x y); [destruct (signbit x); auto|]. destruct (f_lt x y); auto.
Qed.

Lemma f_of_Z_finite n : 0 <= n < 2 ^ 53 -> is_nan (f_of_Z n) = false /\ is_inf (f_of_Z n) true = false.
Proof.
  intros Hn. destruct (decide (n = 0)) as [->|Hz]; [done|].
  by destruct (f_of_Z_exact n) as (m & -> & _); [lia|].
Qed.

Lemma percentile_indices n :
  0 < n < 2 ^ 53 -> 0 <= index50 n <= index95 n /\ index95 n <= index99 n < n.
Proof.
  intros Hn. unfold index50, index95, index99. rewrite f_lit_95, f_lit_99, Z.quot_div_nonneg by lia.
  pose proof (f_trunc_mul_half n 8556839292003942 Hn ltac:(lia)).
  pose proof (f_trunc_mul_mono n 8556839292003942 8917127262193582 (-53) Hn ltac:(lia) ltac:(lia) ltac:(lia)).
  pose proof (f_trunc_mul_below n 8917127262193582 (-53) Hn ltac:(lia) ltac:(lia) ltac:(lia)).
  pose proof (f_trunc_mul_below n 8556839292003942 (-53) Hn ltac:(lia) ltac:(lia) ltac:(lia)).
  pose proof (f_trunc_of_Z (n - 1) ltac:(lia)). destruct (f_of_Z_finite (n - 1)) as [Hn1 Hn2]; [lia|].
  destruct (f_trunc_mul n 8917127262193582 (-53)) as (_ & _ & _ & (m & e & E & _) & _); [lia..|].
  split; [split; [apply Z.div_pos; lia|lia]|].
  destruct (math_Min_cases (f_mul (f_of_Z n) (S754_finite false 8917127262193582 (-53))) (f_of_Z (n - 1)))
    as [->| ->]; [by rewrite E|done|by rewrite E|done|lia|lia].
Qed.

Lemma positive_samples_pos l x : x ∈ positive_samples l -> 0 < x.
Proof.
  unfold positive_samples. rewrite list_elem_of_In, List.filter_In, bool_decide_eq_true. by intros [_ ?].
Qed.

Lemma positive_samples_length l : (length (positive_samples l) <= length l)%nat.
Proof. apply List.filter_length_le. Qed.

(** In a window of at most 10000 samples, the size the code uses, the binary64
    products give the ranks one expects: by the error of the product, and by
    computation where 95 or 99 hundredths of the size are an integer. *)
Lemma in_range (P : Z -> Prop) `{!forall n, Decision (P n)} a b n : forallb (fun n => bool_decide (P n)) (seqZ a b) = true -> a <= n < a + b -> P n.
Proof.
  rewrite forallb_forall. intros Hall Hn. apply (bool_decide_unpack _), Is_true_true_2, Hall. apply list_elem_of_In, elem_of_seqZ. exact Hn.
Qed.

Lemma index95_multiple k : 1 <= k < 501 -> index95 (20 * k) = 19 * k.
Proof. apply (in_range (fun k => index95 (20 * k) = 19 * k) 1 500). vm_compute. reflexivity. Qed.
Lemma product99_multiple k : 1 <= k < 101 -> f_trunc (f_mul (f_of_Z (100 * k)) (f_lit 99 100)) = 99 * k.
Proof. apply (in_range (fun k => f_trunc (f_mul (f_of_Z (100 * k)) (f_lit 99 100)) = 99 * k) 1 100). vm_compute. reflexivity. Qed.
Lemma index99_low n : 1 <= n < 101 -> index99 n = n - 1.
Proof. apply (in_range (fun n => index99 n = n - 1) 1 100). vm_compute. reflexivity. Qed.

Lemma percentile_ranks n : 0 < n <= 10000 -> index95 n = 95 * n / 100 /\ index99 n = 99 * n / 100.
Proof.
  intros Hn. split.
  - destruct (decide (95 * n mod 100 = 0)) as [E|E]; [|unfold index95; rewrite f_lit_95; apply f_trunc_hundredths; lia].
    assert (exists k, n = 20 * k) as [k ->] by (exists (n / 20); Z.div_mod_to_equations; lia).
    rewrite index95_multiple by lia. replace (95 * (20 * k)) with (19 * k * 100) by lia. by rewrite Z.div_mul.
  - destruct (decide (n <= 100)) as [Hs|Hs]; [rewrite index99_low by lia; Z.div_mod_to_equations; lia|].
    assert (f_trunc (f_mul (f_of_Z n) (f_lit 99 100)) = 99 * n / 100) as Ht.
    { destruct (decide (99 * n mod 100 = 0)) as [E|E]; [|rewrite f_lit_99; apply f_trunc_hundredths; lia].
      assert (exists k, n = 100 * k) as [k ->] by (exists (n / 100); Z.div_mod_to_equations; lia).
      rewrite product99_multiple by lia. replace (99 * (100 * k)) with (99 * k * 100) by lia. by rewrite Z.div_mul. }
    unfold index99. rewrite f_lit_99 in *. destruct (f_trunc_mul n 8917127262193582 (-53)) as (_ & _ & _ & (m & e & E & Hm) & _); [lia..|].
    rewrite E in *. destruct (f_of_Z_exact (n - 1)) as (m' & E' & _ & _ & Hm'); [lia|]. unfold math_Min. rewrite E'. cbn [is_inf is_nan orb].
    change (f_eq (S754_finite false m e) f_zero) with false. cbn [andb].
    destruct (f_lt _ _) eqn:Hlt; [done|]. exfalso. apply f_lt_false_trunc in Hlt; [|lia..]. rewrite Ht, <- E', f_trunc_of_Z in Hlt by lia.
    clear - Hlt Hs. Z.div_mod_to_equations; lia.
Qed.

(** The percentiles are samples of the window: the median, and the samples at
    95 and 99 hundredths of the sorted window. *)
Definition ranked (window : list Z) (a' : AdaptiveTimeout) : Prop :=
  let sorted := merge_sort Z.le window in
  let n := Z.of_nat (length window) in
  exists i95 i99, n / 2 <= i95 /\ i95 <= i99 < n
    /\ (n <= 10000 -> i95 = 95 * n / 100 /\ i99 = 99 * n / 100)
    /\ sorted !! Z.to_nat (n / 2) = Some (p50 a') /\ sorted !! Z.to_nat i95 = Some (p95 a') /\ sorted !! Z.to_nat i99 = Some (p99 a').

Lemma ranked_ordered window a :
  (forall x, x ∈ window -> 0 < x) -> ranked window a -> 0 < p50 a /\ p50 a <= p95 a /\ p95 a <= p99 a.
Proof.
  intros Hpos (i95 & i99 & H1 & H2 & _ & H50 & H95 & H99). assert (0 <= Z.of_nat (length window) / 2) by (apply Z.div_pos; lia).
  pose proof (merge_sort_le_sorted window) as Hs. split_and!.
  - apply Hpos. rewrite <- (merge_sort_Permutation Z.le window). by eapply list_elem_of_lookup_2.
  - eapply sorted_lookup; [exact Hs| |exact H50|exact H95]. lia.
  - eapply sorted_lookup; [exact Hs| |exact H95|exact H99]. lia.
Qed.

Lemma at_index_sorted window i :
  0 <= i < Z.of_nat (length window) ->
  exists v, at_index (merge_sort Z.le window) i = Some v /\ merge_sort Z.le window !! Z.to_nat i = Some v.
Proof.
  intros Hi. unfold at_index. rewrite bool_decide_false by lia.
  destruct (lookup_lt_is_Some_2 (merge_sort Z.le window) (Z.to_nat i)) as [v Hv]; [|eauto].
  rewrite (Permutation_length (merge_sort_Permutation Z.le window)). lia.
Qed.

(** Recomputing never reads out of range. *)
Lemma recompute_spec a :
  Z.of_nat (length (samples a)) < 2 ^ 53 ->
  exists a', recomputePercentiles a = Some a'
    /\ samples a' = samples a /\ writeIdx a' = writeIdx a /\ sampleSize a' = sampleSize a
    /\ minTimeout a' = minTimeout a /\ maxTimeout a' = maxTimeout a
    /\ (positive_samples (samples a) = [] -> a' = a)
    /\ (positive_samples (samples a) <> [] -> ranked (positive_samples (samples a)) a').
Proof.
  intros Hlen. unfold recomputePercentiles. pose proof (positive_samples_length (samples a)) as Hl.
  destruct (positive_samples (samples a)) as [|x w] eqn:E; [by eexists|]. rewrite <- E in *.
  rewrite insertion_sort_sorts. set (w' := positive_samples (samples a)) in *.
  rewrite (Permutation_length (merge_sort_Permutation Z.le w')).
  assert (0 < Z.of_nat (length w')) by (rewrite E; simpl; lia).
  destruct (percentile_indices (Z.of_nat (length w'))) as [? ?]; [lia|].
  destruct (at_index_sorted w' (index50 (Z.of_nat (length w')))) as (v50 & -> & H50); [lia|].
  destruct (at_index_sorted w' (index95 (Z.of_nat (length w')))) as (v95 & -> & H95); [lia|].
  destruct (at_index_sorted w' (index99 (Z.of_nat (length w')))) as (v99 & -> & H99); [lia|].
  cbn [mbind option_bind]. eexists. split; [reflexivity|].
  split_and!; try done; [intros Hnil; by rewrite E in Hnil|]. intros _.
  exists (index95 (Z.of_nat (length w'))), (index99 (Z.of_nat (length w'))). unfold index50 in *. rewrite Z.quot_div_nonneg in * by lia.
  split_and!; try done; try lia. intros Hsmall. apply percentile_ranks. lia.
Qed.

(** ** The controller over a history of latencies *)

Definition record_all (a : AdaptiveTimeout) (latencies : list Duration) : option AdaptiveTimeout :=
  foldl (fun a latency => a ← a; RecordLatency a latency) (Some a) latencies.

Record timeout_inv (size : Z) (min max : Duration) (a : AdaptiveTimeout) : Prop := {
  ti_size : sampleSize a = size;
  ti_samples : Z.of_nat (length (samples a)) = size;
  ti_idx : 0 <= writeIdx a < size;
  ti_min : minTimeout a = min;
  ti_max : maxTimeout a = max;
  ti_order : (p50 a = 0 /\ p95 a = 0 /\ p99 a = 0) \/ (0 < p50 a /\ p50 a <= p95 a /\ p95 a <= p99 a)
}.

Definition percentiles (a : AdaptiveTimeout) : Duration * Duration * Duration := (p50 a, p95 a, p99 a).

(** A recording either leaves the percentiles alone or, every hundredth slot,
    computes them from the window. *)
Lemma RecordLatency_inv size min max a latency :
  0 < size < 2 ^ 53 -> timeout_inv size min max a ->
  exists a', RecordLatency a latency = Some a' /\ timeout_inv size min max a'
    /\ writeIdx a' = Z.rem (writeIdx a + 1) size
    /\ (writeIdx a' `rem` 100 = 0 -> (positive_samples (samples a') = [] /\ percentiles a' = percentiles a) \/ ranked (positive_samples (samples a')) a')
    /\ (writeIdx a' `rem` 100 <> 0 -> percentiles a' = percentiles a).
Proof.
  intros Hsize [Hs Hl Hi Hmin Hmax Ho]. unfold RecordLatency.
  rewrite (bool_decide_false (writeIdx a < 0)), (bool_decide_false (_ <= writeIdx a)) by lia. cbn [orb].
  set (a1 := mkTimeout _ _ _ _ _ _ _ _).
  assert (timeout_inv size min max a1) as [Hs1 Hl1 Hi1 Hmin1 Hmax1 Ho1].
  { constructor; try done; simpl; [by rewrite length_insert|]. rewrite Hs. apply Z.rem_bound_pos; lia. }
  assert (writeIdx a1 = Z.rem (writeIdx a + 1) size) as Hidx by (simpl; by rewrite Hs).
  change (Z.rem (writeIdx a + 1) (sampleSize a)) with (writeIdx a1).
  case_bool_decide as Hr; [|by exists a1].
  destruct (recompute_spec a1) as (a2 & -> & E1 & E2 & E3 & E4 & E5 & Hnil & Hrank); [lia|].
  exists a2. split; [done|]. rewrite E1, E2. split; [|split; [done|split; [|done]]].
  - constructor; try congruence. destruct (decide (positive_samples (samples a1) = [])) as [En|En]; [by rewrite (Hnil En)|].
    right. apply (ranked_ordered _ _ (positive_samples_pos (samples a1))). auto.
  - intros _. destruct (decide (positive_samples (samples a1) = [])) as [En|En]; [left; by rewrite (Hnil En)|right; auto].
Qed.

(** The recordings up to the last computation, and those since. *)
Lemma record_split size min max a0 latencies :
  0 < size < 2 ^ 53 -> timeout_inv size min max a0 -> writeIdx a0 = 0 ->
  exists a earlier later ae, record_all a0 latencies = Some a /\ timeout_inv size min max a
    /\ latencies = earlier ++ later /\ record_all a0 earlier = Some ae
    /\ writeIdx ae `rem` 100 = 0 /\ writeIdx a = writeIdx ae + Z.of_nat (length later) /\ (length later < 100)%nat /\ 0 <= writeIdx ae
    /\ percentiles a = percentiles ae
    /\ (earlier = [] \/ positive_samples (samples ae) = [] \/ ranked (positive_samples (samples ae)) ae).
Proof.
  intros Hsize H0 Hz. induction latencies as [|l ls IH] using rev_ind.
  { exists a0, [], [], a0. rewrite Hz. split_and!; simpl; try done; try lia. by left. }
  destruct IH as (a & earlier & later & ae & Ha & Hinv & -> & He & Hr & Hw & Hlen & Hpos & Hp & Hd).
  destruct (RecordLatency_inv size min max a l Hsize Hinv) as (a' & Ha' & Hinv' & Hw' & Hnew & Hold).
  assert (record_all a0 ((earlier ++ later) ++ [l]) = Some a') as Hrec.
  { unfold record_all in *. rewrite foldl_app, Ha. exact Ha'. }
  destruct (decide (writeIdx a' `rem` 100 = 0)) as [H100|H100].
  - exists a', ((earlier ++ later) ++ [l]), [], a'. rewrite app_nil_r. destruct Hinv'. split_and!; simpl; try done; try lia.
    right. destruct (Hnew H100) as [[? _]|?]; auto.
  - exists a', earlier, (later ++ [l]), ae. rewrite length_app, app_assoc. simpl. destruct Hinv as [_ _ Hi _ _ _].
    assert (writeIdx a' = writeIdx a + 1) as Hn.
    { rewrite Hw'. destruct (decide (writeIdx a + 1 = size)) as [E|E]; [|apply Z.rem_small; lia].
      exfalso. apply H100. rewrite Hw', E, Z.rem_same by lia. done. }
    assert (length later + 1 <> 100)%nat as Hne.
    { intros E. apply H100. rewrite Hn, Hw. replace (writeIdx ae + Z.of_nat (length later) + 1) with (writeIdx ae + 1 * 100) by lia.
      rewrite Z.rem_add; [done|lia|]. apply Z.mul_nonneg_nonneg; lia. }
    split_and!; try done; try lia. rewrite (Hold H100). done.
Qed.

(** 1.2 times the percentile, rounded down, up to the error of the product. *)
Lemma headroom p : 0 < p < 2 ^ 40 ->
  6 * p - 5 <= 5 * f_trunc (f_mul (f_of_Z p) (f_lit 12 10)) <= 6 * p.
Proof.
  intros Hp. replace (f_lit 12 10) with (S754_finite false 5404319552844595 (-52)) by reflexivity.
  destruct (f_trunc_mul p 5404319552844595 (-52)) as (V & Hsh & Hm & _ & -> & HV & _); [lia..|].
  assert (Z.log2 p < 40) by (apply Z.log2_lt_pow2; lia). set (sh := 52 - Z.log2 p) in *.
  replace (sh - -52) with (sh + 52) by lia. set (D := 2 ^ (sh + 52)).
  assert (2 ^ 64 <= D) by (apply Z.pow_le_mono_r; lia).
  assert (p * 2 ^ sh * 2 ^ 52 = p * D) as E by (unfold D; rewrite Z.pow_add_r by lia; lia).
  assert (D * (V / D) <= V < D * (V / D) + D) by (Z.div_mod_to_equations; lia).
  set (q := V / D) in *. set (m1 := p * 2 ^ sh) in *.
  assert (5 * (m1 * 5404319552844595) = 6 * (p * D) - m1) by lia. nia.
Qed.



(** A latency below a millisecond counts as zero and is left out of the
    percentiles, and so is the oldest window entry it overwrites. *)
Example submillisecond_ignored :
  (fun a => (samples a, p99 a)) <$>
    (a ← NewAdaptiveTimeout 2 0 (60 * Second); record_all a [5 * Second; 6 * Second; 999999; 999999])
  = Some ([0; 0], 6000).
Proof. reflexivity. Qed.

(** ** The priority queue over a history of calls *)

Inductive QueueOp := OpEnqueue (req : PriorityRequest) | OpDequeue (now : nat -> Time).

(** The queue with the requests accepted, handed out and notified so far. *)
Record QueueTrace := mkTrace {
  tr_queue : PriorityQueue;
  tr_accepted : list PriorityRequest;
  tr_served : list PriorityRequest;
  tr_notices : list Notice
}.

Definition queue_step (t : QueueTrace) (op : QueueOp) : option QueueTrace :=
  match op with
  | OpEnqueue req =>
      '(q, ok, notices) ← Enqueue (tr_queue t) req;
      Some (mkTrace q (if (ok : bool) then tr_accepted t ++ [req] else tr_accepted t) (tr_served t)
              (tr_notices t ++ notices))
  | OpDequeue now =>
      let '(q, res, notices) := Dequeue now (tr_queue t) in
      Some (mkTrace q (tr_accepted t) (tr_served t ++ option_list res) (tr_notices t ++ notices))
  end.

Definition queue_run (t : QueueTrace) (ops : list QueueOp) : option QueueTrace :=
  foldl (fun t op => t ← t; queue_step t op) (Some t) ops.

Definition queued (q : PriorityQueue) : list PriorityRequest := concat (queues q).

Definition op_ok (op : QueueOp) : Prop :=
  match op with OpEnqueue req => 0 <= Priority req <= 3 | OpDequeue _ => True end.

Lemma concat_insert {A} (ls : list (list A)) p old new :
  ls !! p = Some old -> concat (<[p := new]> ls) ++ old ≡ₚ concat ls ++ new.
Proof.
  revert p. induction ls as [|l ls IH]; intros [|p] H; simplify_eq/=.
  - rewrite (Permutation_app_comm (new ++ concat ls)), <- app_assoc. f_equiv. apply Permutation_app_comm.
  - rewrite <- !app_assoc. f_equiv. by apply IH.
Qed.

(** The shape of a queue: four levels, each of its own priority, and the
    depth their total. *)
Record queue_inv (max : Z) (q : PriorityQueue) : Prop := {
  qi_max : maxDepth q = max;
  qi_levels : length (queues q) = 4%nat;
  qi_depth : depth q = Z.of_nat (length (queued q));
  qi_bound : depth q <= Z.max max 0;
  qi_priority : forall p req, req ∈ level q p -> Priority req = Z.of_nat p
}.

Lemma level_lookup q p : length (queues q) = 4%nat -> (p < 4)%nat -> queues q !! p = Some (level q p).
Proof.
  intros Hl Hp. unfold level. destruct (lookup_lt_is_Some_2 (queues q) p) as [l ->]; [lia|done].
Qed.

Lemma level_set q p p' l :
  length (queues q) = 4%nat -> (p < 4)%nat -> level (set_level q p l) p' = if decide (p = p') then l else level q p'.
Proof.
  intros Hl Hp. unfold level, set_level. simpl. case_decide as E.
  - subst. rewrite list_lookup_insert_eq by lia. done.
  - by rewrite list_lookup_insert_ne by done.
Qed.

Lemma queued_set q p l :
  length (queues q) = 4%nat -> (p < 4)%nat -> queued (set_level q p l) ++ level q p ≡ₚ queued q ++ l.
Proof. intros Hl Hp. apply concat_insert, level_lookup; done. Qed.

(** Removing the head of a level. *)
Lemma pop_inv max q p req rest :
  i64_range max -> (p < 4)%nat -> queue_inv max q -> level q p = req :: rest ->
  queue_inv max (add_depth (set_level q p rest) (-1))
  /\ queued q ≡ₚ req :: queued (add_depth (set_level q p rest) (-1)).
Proof.
  intros Hmax Hp [Hm Hl Hd Hb Hpr] Hq. pose proof (queued_set q p rest Hl Hp) as Hperm.
  rewrite Hq in Hperm.
  assert (queued q ≡ₚ req :: queued (set_level q p rest)) as Hq'.
  { apply (Permutation_app_inv_r rest). rewrite <- Hperm. cbn [app]. by rewrite <- Permutation_middle. }
  pose proof (Permutation_length Hq') as Hlen. simpl in Hlen.
  assert (i64_wrap (depth q + -1) = depth q - 1) as Ew by (apply i64_wrap_small; unfold i64_range in *; lia).
  split; [|exact Hq']. constructor; simpl; [done|by rewrite length_insert| | |].
  - rewrite Ew. unfold queued in *. simpl in *. lia.
  - lia.
  - intros p' r. change (level (add_depth _ _) p') with (level (set_level q p rest) p').
    rewrite level_set by done. case_decide; [|apply Hpr]. subst. intros Hr. apply Hpr. rewrite Hq. by right.
Qed.

Lemma dequeue_loop_inv max now q ps :
  i64_range max -> (forall p, p ∈ ps -> (p < 4)%nat) -> queue_inv max q ->
  let '(q', res, notices) := dequeue_loop now q ps in
  queue_inv max q' /\ queued q ≡ₚ queued q' ++ option_list res ++ (fst <$> notices).
Proof.
  intros Hmax. revert q. induction ps as [|p ps IH]; intros q Hps Hinv; simpl; [by rewrite app_nil_r|].
  destruct (level q p) as [|req rest] eqn:E; [apply IH; set_solver|].
  destruct (pop_inv max q p req rest Hmax ltac:(set_solver) Hinv E) as [Hinv' Hperm].
  destruct (expired (now p) req).
  - specialize (IH (add_depth (set_level q p rest) (-1)) ltac:(set_solver) Hinv').
    destruct (dequeue_loop _ _ _) as [[q' res] notices]. destruct IH as [IH1 IH2]. split; [done|].
    rewrite Hperm, IH2. cbn [fmap list_fmap fst]. by rewrite !Permutation_middle.
  - split; [done|]. rewrite Hperm. simpl. by rewrite <- Permutation_cons_append.
Qed.

Lemma enqueue_append_inv max q req :
  i64_range max -> 0 <= Priority req <= 3 -> queue_inv max q -> depth q < max ->
  exists q', enqueue_append q req = Some q' /\ queue_inv max q' /\ queued q' ≡ₚ queued q ++ [req].
Proof.
  intros Hmax Hreq [Hm Hl Hd Hb Hpr] Hroom. unfold enqueue_append.
  rewrite (bool_decide_false (Priority req < 0)), (bool_decide_false (3 < Priority req)) by lia. cbn [orb].
  set (p := Z.to_nat (Priority req)). assert (p < 4)%nat as Hp by (unfold p; lia).
  set (l := level q p ++ [req]).
  assert (queued (set_level q p l) ≡ₚ queued q ++ [req]) as Hperm.
  { apply (Permutation_app_inv_r (level q p)). rewrite (queued_set q p l Hl Hp). unfold l.
    rewrite <- !app_assoc. f_equiv. apply Permutation_app_comm. }
  pose proof (Permutation_length Hperm) as Hlen. rewrite length_app in Hlen. simpl in Hlen.
  assert (i64_wrap (depth q + 1) = depth q + 1) as Ew by (apply i64_wrap_small; unfold i64_range in *; lia).
  eexists. split; [reflexivity|]. split; [|exact Hperm].
  constructor; simpl; [done|by rewrite length_insert| |lia|].
  - rewrite Ew. unfold queued in *. simpl in *. lia.
  - intros p' r. change (level (add_depth _ _) p') with (level (set_level q p l) p').
    rewrite level_set by done. case_decide as E; [|apply Hpr]. subst p'. unfold l.
    rewrite elem_of_app, list_elem_of_singleton. intros [Hr| ->]; [by apply Hpr|]. unfold p. lia.
Qed.

Lemma Enqueue_inv max q req :
  i64_range max -> 0 <= Priority req <= 3 -> queue_inv max q ->
  exists q' ok notices, Enqueue q req = Some (q', ok, notices) /\ queue_inv max q'
    /\ queued q ++ (if (ok : bool) then [req] else []) ≡ₚ queued q' ++ (fst <$> notices).
Proof.
  intros Hmax Hreq Hinv. pose proof Hinv as [Hm Hl Hd Hb Hpr]. unfold Enqueue, enqueue_check. rewrite Hm.
  case_bool_decide as Hfull.
  - destruct (level q 3) as [|dropped rest] eqn:E; [exists q, false, []; by rewrite !app_nil_r|].
    destruct (pop_inv max q 3 dropped rest Hmax ltac:(lia) Hinv E) as [Hinv' Hperm].
    set (q1 := add_depth (set_level q 3 rest) (-1)) in *.
    pose proof (Permutation_length Hperm) as Hlen. simpl in Hlen.
    pose proof (qi_depth _ _ Hinv') as Hd'.
    destruct (enqueue_append_inv max q1 req Hmax Hreq Hinv') as (q' & -> & Hq' & Hp'); [lia|].
    exists q', true, [(dropped, ErrLoadShed)]. split; [done|]. split; [done|].
    rewrite Hperm, Hp'. simpl. rewrite <- app_assoc. by rewrite Permutation_cons_append, <- app_assoc.
  - destruct (enqueue_append_inv max q req Hmax Hreq Hinv) as (q' & -> & Hq' & Hp'); [lia|].
    exists q', true, []. split; [done|]. split; [done|]. by rewrite Hp', app_nil_r.
Qed.

(** Bookkeeping of the three lists across a call. *)
Lemma trace_perm_enqueue {A} (x x' e n served n1 acc : list A) :
  acc ≡ₚ x ++ served ++ n1 -> x ++ e ≡ₚ x' ++ n -> acc ++ e ≡ₚ x' ++ served ++ n1 ++ n.
Proof.
  intros -> H. rewrite <- !app_assoc. rewrite (Permutation_app_comm n1 e), (app_assoc served e).
  rewrite (Permutation_app_comm served e), <- app_assoc, (app_assoc x e), H, <- !app_assoc. f_equiv.
  rewrite (Permutation_app_comm n), <- app_assoc. done.
Qed.

Lemma trace_perm_dequeue {A} (x x' r n served n1 acc : list A) :
  acc ≡ₚ x ++ served ++ n1 -> x ≡ₚ x' ++ r ++ n -> acc ≡ₚ x' ++ (served ++ r) ++ n1 ++ n.
Proof.
  intros -> ->. rewrite <- !app_assoc. f_equiv. rewrite (app_assoc served r), (Permutation_app_comm served r).
  rewrite <- !app_assoc. f_equiv. rewrite (Permutation_app_comm n), <- app_assoc. done.
Qed.

(** The priority queue neither loses nor duplicates: over any sequence of
    calls with known priorities none panics, and every accepted request is
    exactly once either still queued, handed out, or told on its channel why
    it was dropped; the depth is the number of queued requests and never
    exceeds the maximum, and every level holds its own priority. *)
Theorem priority_queue_conserves max ops (Hmax : i64_range max) (Hops : Forall op_ok ops) :
  exists t, queue_run (mkTrace (NewPriorityQueue max) [] [] []) ops = Some t
    /\ tr_accepted t ≡ₚ queued (tr_queue t) ++ tr_served t ++ (fst <$> tr_notices t)
    /\ Depth (tr_queue t) = Z.of_nat (length (queued (tr_queue t)))
    /\ Depth (tr_queue t) <= Z.max max 0
    /\ forall p req, req ∈ level (tr_queue t) p -> Priority req = Z.of_nat p.
Proof.
  cut (exists t, queue_run (mkTrace (NewPriorityQueue max) [] [] []) ops = Some t /\ queue_inv max (tr_queue t)
    /\ tr_accepted t ≡ₚ queued (tr_queue t) ++ tr_served t ++ (fst <$> tr_notices t)).
  { intros (t & Ht & [_ _ Hd Hb Hp] & Hacc). exists t. done. }
  induction ops as [|op ops IH] using rev_ind.
  { eexists. split; [reflexivity|]. split; [|done]. constructor; simpl; try done; [unfold DegradationNone; lia|].
    intros [|[|[|[|p]]]] req Hr; by apply elem_of_nil in Hr. }
  apply Forall_app in Hops as [Hops Hop]. apply Forall_cons in Hop as [Hop _].
  destruct (IH Hops) as ([q acc served notices] & Ht & Hinv & Hacc). simpl in *. unfold queue_run in *.
  rewrite foldl_app, Ht. cbn [foldl mbind option_bind]. destruct op as [req|now]; simpl in *.
  - destruct (Enqueue_inv max q req Hmax Hop Hinv) as (q' & ok & nts & -> & Hinv' & Hperm).
    cbn [mbind option_bind]. eexists. split; [reflexivity|]. split; [done|]. simpl. rewrite fmap_app.
    assert ((if ok then acc ++ [req] else acc) ≡ₚ acc ++ (if ok then [req] else [])) as -> by (destruct ok; by rewrite ?app_nil_r).
    by apply (trace_perm_enqueue (queued q)).
  - pose proof (dequeue_loop_inv max now q [0; 1; 2; 3]%nat Hmax ltac:(set_solver by lia) Hinv) as H.
    unfold Dequeue. destruct (dequeue_loop now q _) as [[q' res] nts]. destruct H as [Hinv' Hperm].
    eexists. split; [reflexivity|]. split; [done|]. simpl. rewrite fmap_app.
    by apply (trace_perm_dequeue (queued q)).
Qed.

Definition w_req (id : nat) (p deadline : Z) : PriorityRequest := mkRequest p 0 "llama" "" 64 deadline id.

Lemma priority_queue_conserves_witness :
  exists t, queue_run (mkTrace (NewPriorityQueue 2) [] [] [])
    [OpEnqueue (w_req 1 3 0); OpEnqueue (w_req 2 1 0); OpEnqueue (w_req 3 0 0); OpDequeue (fun _ => 9)] = Some t
    /\ tr_accepted t ≡ₚ queued (tr_queue t) ++ tr_served t ++ (fst <$> tr_notices t).
Proof.
  destruct (priority_queue_conserves 2
    [OpEnqueue (w_req 1 3 0); OpEnqueue (w_req 2 1 0); OpEnqueue (w_req 3 0 0); OpDequeue (fun _ => 9)])
    as (t & Ht & Hacc & _); [unfold i64_range; lia|repeat constructor; simpl; lia|].
  exists t. split; [exact Ht|exact Hacc].
Defined.

(** [Dequeue] hands out the head of the first level whose head is live. *)
Lemma dequeue_loop_first now q ps q' req notices :
  (forall p, p ∈ ps -> (p < 4)%nat) -> NoDup ps -> length (queues q) = 4%nat ->
  dequeue_loop now q ps = (q', Some req, notices) ->
  exists before p after rest, ps = before ++ p :: after /\ level q p = req :: rest /\ expired (now p) req = false
    /\ forall p', p' ∈ before -> level q p' = [] \/ exists h r, level q p' = h :: r /\ expired (now p') h = true.
Proof.
  revert q notices. induction ps as [|p ps IH]; intros q notices Hps Hnd Hl; simpl; [done|].
  apply NoDup_cons in Hnd as [Hni Hnd].
  destruct (level q p) as [|h rest] eqn:E.
  - intros H. destruct (IH q notices ltac:(set_solver) Hnd Hl H) as (before & p1 & after & r1 & -> & H1 & H2 & H3).
    exists (p :: before), p1, after, r1. split_and!; [done|done|done|].
    intros p' [->|Hp']%elem_of_cons; [by left|auto].
  - destruct (expired (now p) h) eqn:Ee; [|intros [= <- <- <-]; exists [], p, ps, rest; set_solver].
    set (q1 := add_depth (set_level q p rest) (-1)).
    destruct (dequeue_loop now q1 ps) as [[q2 res] n2] eqn:E2. intros [= <- -> <-].
    assert (length (queues q1) = 4%nat) as Hl1 by (unfold q1; simpl; by rewrite length_insert).
    assert (forall p', p' ≠ p -> level q1 p' = level q p') as Hsame.
    { intros p' Hne. change (level (set_level q p rest) p' = level q p'). rewrite level_set by (set_solver || done).
      by rewrite decide_False by done. }
    destruct (IH q1 n2 ltac:(set_solver) Hnd Hl1 E2) as (before & p1 & after & r1 & -> & H1 & H2 & H3).
    rewrite Hsame in H1 by set_solver.
    exists (p :: before), p1, after, r1. split_and!; [done|done|done|].
    intros p' [->|Hp']%elem_of_cons; [right; eauto|]. rewrite <- Hsame by set_solver. auto.
Qed.

(** After an expired request the loop goes on with the next level: a live
    request behind it is passed over for a less urgent one, and an otherwise
    empty queue reports that it has nothing. *)
Example expired_head_hides_live_request :
  let q := mkQueue [[]; [w_req 1 1 5; w_req 2 1 0]; [w_req 3 2 0]; []] 3 10 in
  (snd ∘ fst) (Dequeue (fun _ => 9) q) = Some (w_req 3 2 0)
  /\ (snd ∘ fst) (Dequeue (fun _ => 9) (mkQueue [[]; [w_req 1 1 5; w_req 2 1 0]; []; []] 2 10)) = None.
Proof. done. Qed.

(** The depth is tested in another critical section than the one that
    appends: two concurrent calls both pass the test of a queue with one free
    place. *)
Example enqueue_race_exceeds_depth :
  let q := NewPriorityQueue 1 in
  let '(q1, ok1, _) := enqueue_check q in
  let '(q2, ok2, _) := enqueue_check q1 in
  (ok1, ok2, depth <$> (q ← enqueue_append q2 (w_req 1 1 0); enqueue_append q (w_req 2 1 0)))
  = (true, true, Some 2).
Proof. done. Qed.

(** ** Degradation *)

(** Under the default rules the level is the number of thresholds reached. *)
Lemma Evaluate_default d queueDepth p99 :
  rules d = rules NewDegradationController ->
  let l := dlevel (Evaluate d queueDepth p99) in
  (l = 0 \/ l = 1 \/ l = 2 \/ l = 3)
  /\ (1 <= l <-> 100 <= queueDepth \/ 5 * Second <= p99)
  /\ (2 <= l <-> 500 <= queueDepth \/ 15 * Second <= p99)
  /\ (3 <= l <-> 1000 <= queueDepth \/ 30 * Second <= p99).
Proof.
  intros H. unfold Evaluate. cbn [dlevel]. rewrite H. cbn. unfold DegradationNone, DegradationLight,
    DegradationModerate, DegradationSevere, Second, Millisecond.
  repeat case_bool_decide; simpl; lia.
Qed.

(** Degradation is monotone: under the default rules more load never
    lowers the level, raises the cap on tokens or readmits batch traffic, and
    tokens are never raised above the request. *)
Theorem degradation_monotone d d' q q' p p' requested
    (Hd : rules d = rules NewDegradationController) (Hd' : rules d' = rules NewDegradationController)
    (Hq : q <= q') (Hp : p <= p') :
  let lo := Evaluate d q p in
  let hi := Evaluate d' q' p' in
  Level lo <= Level hi
  /\ ClampTokens hi requested <= ClampTokens lo requested <= requested
  /\ (ShouldRejectBatch lo = true -> ShouldRejectBatch hi = true)
  /\ (ShouldRejectBatch hi = true <-> 500 <= q' \/ 15 * Second <= p').
Proof.
  intros lo hi. unfold Level, ClampTokens, ShouldRejectBatch, ActiveRule.
  assert (rules lo = rules NewDegradationController) as -> by done.
  assert (rules hi = rules NewDegradationController) as -> by done.
  pose proof (Evaluate_default d q p Hd) as (Hl & H1 & H2 & H3).
  pose proof (Evaluate_default d' q' p' Hd') as (Hl' & H1' & H2' & H3').
  fold lo in Hl, H1, H2, H3. fold hi in Hl', H1', H2', H3'.
  assert (dlevel lo <= dlevel hi) as Hle by (destruct_or! Hl; destruct_or! Hl'; lia).
  rewrite <- H2'. clear H1 H2 H3 H1' H2' H3'. generalize dependent (dlevel hi). generalize dependent (dlevel lo).
  intros l Hl l' Hl' Hle. split; [done|].
  destruct_or! Hl; destruct_or! Hl'; subst l l'; try lia; simpl; repeat case_bool_decide; (split; [split; lia|]); (split; [done|]);
    split; intros ?; done || lia.
Qed.

Lemma degradation_monotone_witness :
  Level (Evaluate NewDegradationController 120 Second) <= Level (Evaluate NewDegradationController 700 Second)
  /\ ShouldRejectBatch (Evaluate NewDegradationController 700 Second) = true.
Proof.
  split; [|reflexivity].
  apply (degradation_monotone NewDegradationController NewDegradationController 120 700 Second Second 4096);
    [reflexivity|reflexivity|lia|reflexivity].
Defined.
