(* ===== verification/Airgap.v ===== *)
(** * Sovereignty profiles and air-gap capsules
    ([internal/security/airgap/profile.go])

    The requirements of the five profiles, the validation of a workload and
    the offline validation of a transfer capsule.  The string types of the
    source are strings, so that unknown profiles and empty statuses are
    values; violations are the source's texts.  [ExportCapsule] and
    [ImportCapsule] are calls of [encoding/json] and are not modelled. *)

From S2P Require Import Prelude GoStrings Sha256.

(** ** Data *)

Definition SovereigntyProfileLevel := string.
Definition ProfileConnected : SovereigntyProfileLevel := "Connected".
Definition ProfileEnterprise : SovereigntyProfileLevel := "Enterprise".
Definition ProfileRestricted : SovereigntyProfileLevel := "Restricted".
Definition ProfileDisconnected : SovereigntyProfileLevel := "Disconnected".
Definition ProfileAirGap : SovereigntyProfileLevel := "AirGap".

Definition StateCompliant : string := "Compliant".
Definition StateNonCompliant : string := "NonCompliant".
Definition PostureConnected : string := "Connected".
Definition PostureEnterpriseProxy : string := "EnterpriseProxy".
Definition PostureRestricted : string := "RestrictedEgress".
Definition PostureDisconnected : string := "Disconnected".
Definition PostureAirGapZeroEgress : string := "AirGapZeroPhoneHome".
Definition DigestPinned : string := "Pinned".
Definition DigestUnpinned : string := "Unpinned".
Definition DigestMalformed : string := "Malformed".
Definition SigVerified : string := "Verified".
Definition SigMissing : string := "Missing".
Definition SigUntrusted : string := "Untrusted".
Definition AttestationVerified : string := "Verified".
Definition AttestationMissing : string := "Missing".
Definition AttestationInvalid : string := "Invalid".
Definition BOMComplete : string := "Complete".
Definition BOMPartial : string := "Partial".
Definition BOMMissing : string := "Missing".
Definition IdentityEnforced : string := "Enforced".
Definition IdentityMissing : string := "Missing".
Definition SecretStoreLocalSeeded : string := "LocalSeeded".
Definition SecretStoreEnterprise : string := "EnterpriseManaged".
Definition SecretStoreRemoteKMS : string := "RemoteKMS".
Definition SecretStoreInsecure : string := "Insecure".

(** The sentinel errors the functions return; the texts wrapped around them
    are left out, the artifact they name is kept. *)
Inductive Err :=
| ErrNilCapsule
| ErrCapsuleExpired
| ErrInvalidMetadata
| ErrUnpinnedDigest (artifact : string)
| ErrDigestMismatch (artifact : string)
| ErrIncompatibleProfile
| ErrPhoneHomeNotForbidden
| ErrUnknownProfile (level : string).

Record ProfileRequirements := mkRequirements {
  Level : SovereigntyProfileLevel;
  RequireDigestPinning : bool;
  RequireSignatures : bool;
  RequireAttestation : bool;
  RequireBOM : bool;
  RequireSPIFFE : bool;
  RequireLocalSecrets : bool;
  RequireAirGapCapsule : bool;
  ZeroPhoneHome : bool
}.

Record SovereigntyProfile := mkProfile { Requirements : ProfileRequirements }.

Record SovereigntyVector := mkVector {
  Profile : SovereigntyProfileLevel;
  Network : string;
  DigestPinning : string;
  SignatureIntegrity : string;
  AttestationIntegrity : string;
  BOMIntegrity : string;
  IdentityIntegrity : string;
  SecretStoreIntegrity : string;
  VState : string;
  Violations : list string
}.

Record WorkloadTarget := mkTarget {
  TName : string;
  ImageURI : string;
  ModelURI : string;
  SPIFFEIdentity : string;
  SecretStoreType : string;
  EgressTarget : string;
  HasSBOM : bool;
  HasAIBOM : bool;
  HasAttestation : bool;
  HasSignature : bool
}.

Record CapsuleMetadata := mkMetadata {
  MID : string;
  SourceEnvironment : string;
  Classification : string;
  CreatedAt : Time;
  ExpiresAt : Time;
  TargetProfile : SovereigntyProfileLevel;
  Annotations : gmap string string
}.

Record CapsuleArtifact := mkArtifact {
  AName : string;
  MediaType : string;
  ADigest : string;
  Payload : string;
  Size : Z
}.

Record SignatureRecord := mkSignature {
  ArtifactDigest : string;
  SignerIdentity : string;
  KeyFingerprint : string;
  SignatureValue : string;
  STimestamp : Time
}.

Record AttestationRecord := mkAttestation {
  PredicateType : string;
  SubjectDigest : string;
  PayloadDigest : string;
  StatementJSON : string
}.

Record AIBOMRecord := mkAIBOM {
  ModelName : string;
  ModelVersion : string;
  Architecture : string;
  Parameters : string;
  WeightsDigest : string;
  AIFormat : string;
  AIMetadata : gmap string string
}.

Record SBOMRecord := mkSBOM { SFormat : string; SDigest : string; Components : list string }.

Record CapsuleEvidence := mkEvidence {
  Signatures : list SignatureRecord;
  Attestations : list AttestationRecord;
  AIBOM : option AIBOMRecord;
  SBOM : option SBOMRecord
}.

Record ValidationRule := mkRule { RName : string; RuleType : string; Requirement : string }.

Record CapsulePolicies := mkPolicies {
  ValidationRules : list ValidationRule;
  TrustedKeyFingerprints : list string;
  AllowedRegistries : list string;
  ZeroPhoneHomeRequired : bool;
  MaxPermittedRisk : string
}.

Record TransferCapsule := mkCapsule {
  APIVersion : string;
  Kind : string;
  Metadata : CapsuleMetadata;
  Artifacts : list CapsuleArtifact;
  Evidence : CapsuleEvidence;
  Policies : CapsulePolicies
}.

(** ** Profiles *)

Definition no_requirements : ProfileRequirements :=
  mkRequirements "" false false false false false false false false.

Definition getProfileRequirements (level : SovereigntyProfileLevel) : ProfileRequirements * option Err :=
  if level ==? ProfileConnected then
    (mkRequirements ProfileConnected false false false false false false false false, None)
  else if level ==? ProfileEnterprise then
    (mkRequirements ProfileEnterprise false true false false true false false false, None)
  else if level ==? ProfileRestricted then
    (mkRequirements ProfileRestricted true true true true true false false false, None)
  else if level ==? ProfileDisconnected then
    (mkRequirements ProfileDisconnected true true true true true true false true, None)
  else if level ==? ProfileAirGap then
    (mkRequirements ProfileAirGap true true true true true true true true, None)
  else (no_requirements, Some (ErrUnknownProfile level)).

Definition NewSovereigntyProfile (level : SovereigntyProfileLevel) : SovereigntyProfile + Err :=
  match getProfileRequirements level with
  | (_, Some err) => inr err
  | (reqs, None) => inl (mkProfile reqs)
  end.

(** ** Workloads *)

Definition evalNetworkPosture (level : SovereigntyProfileLevel) (egress : string) : string :=
  if level ==? ProfileAirGap then PostureAirGapZeroEgress
  else if level ==? ProfileDisconnected then PostureDisconnected
  else if level ==? ProfileRestricted then PostureRestricted
  else if level ==? ProfileEnterprise then PostureEnterpriseProxy
  else PostureConnected.

Fixpoint evalDigestPinning (uris : list string) : string :=
  match uris with
  | [] => DigestPinned
  | u :: uris =>
      if u ==? "" then evalDigestPinning uris
      else if negb (Contains u "@sha256:") then DigestUnpinned
      else match Split u "@sha256:" with
           | [_; hash] => if Nat.eqb (String.length hash) 64 then evalDigestPinning uris else DigestMalformed
           | _ => DigestMalformed
           end
  end.

Definition evalSigStatus (hasSig : bool) : string := if hasSig then SigVerified else SigMissing.

Definition evalAttestStatus (hasAttest : bool) : string :=
  if hasAttest then AttestationVerified else AttestationMissing.

Definition evalBOMStatus (hasSBOM hasAIBOM : bool) : string :=
  if hasSBOM && hasAIBOM then BOMComplete
  else if hasSBOM || hasAIBOM then BOMPartial
  else BOMMissing.

Definition evalIdentityStatus (id : string) : string :=
  if HasPrefix id "spiffe://" then IdentityEnforced else IdentityMissing.

Definition evalSecretStoreStatus (store : string) : string :=
  let s := ToLower store in
  if (s ==? "local") || (s ==? "localseeded") || (s ==? "sealedsecret") then SecretStoreLocalSeeded
  else if (s ==? "vault") || (s ==? "enterprise") then SecretStoreEnterprise
  else if (s ==? "remote") || (s ==? "kms") then SecretStoreRemoteKMS
  else SecretStoreInsecure.

(** [if cond { vec.Violations = append(vec.Violations, text) }]. *)
Definition violation_if (cond : bool) (text : string) : list string := if cond then [text] else [].

Definition enforceWorkloadRequirements (vec : SovereigntyVector) (req : ProfileRequirements)
    (target : WorkloadTarget) : SovereigntyVector :=
  let violations :=
    Violations vec
    ++ violation_if (RequireDigestPinning req && (DigestPinning vec !=? DigestPinned))
         "digest pinning required for OCI images and models"
    ++ violation_if (RequireSignatures req && (SignatureIntegrity vec !=? SigVerified))
         "cryptographic signature required"
    ++ violation_if (RequireAttestation req && (AttestationIntegrity vec !=? AttestationVerified))
         "SLSA provenance attestation required"
    ++ violation_if (RequireBOM req && (BOMIntegrity vec !=? BOMComplete))
         "complete SBOM and AI-BOM required"
    ++ violation_if (RequireSPIFFE req && (IdentityIntegrity vec !=? IdentityEnforced))
         "SPIFFE workload identity required"
    ++ violation_if (ZeroPhoneHome req && (EgressTarget target !=? ""))
         "external network egress prohibited in zero-phone-home profile" in
  mkVector (Profile vec) (Network vec) (DigestPinning vec) (SignatureIntegrity vec)
    (AttestationIntegrity vec) (BOMIntegrity vec) (IdentityIntegrity vec) (SecretStoreIntegrity vec)
    (match violations with [] => VState vec | _ => StateNonCompliant end) violations.

Definition ValidateWorkload (level : SovereigntyProfileLevel) (target : WorkloadTarget) : SovereigntyVector :=
  let req := fst (getProfileRequirements level) in
  let vec :=
    mkVector level (evalNetworkPosture level (EgressTarget target))
      (evalDigestPinning [ImageURI target; ModelURI target])
      (evalSigStatus (HasSignature target)) (evalAttestStatus (HasAttestation target))
      (evalBOMStatus (HasSBOM target) (HasAIBOM target)) (evalIdentityStatus (SPIFFEIdentity target))
      (evalSecretStoreStatus (SecretStoreType target)) StateCompliant [] in
  enforceWorkloadRequirements vec req target.

(** ** Capsules *)

Definition validateCapsuleMetadata (m : CapsuleMetadata) (expectedProfile : SovereigntyProfileLevel)
    (now : Time) : option Err :=
  if (MID m ==? "") || IsZero (CreatedAt m) || IsZero (ExpiresAt m) then Some ErrInvalidMetadata
  else if negb (IsZero now) && After now (ExpiresAt m) then Some ErrCapsuleExpired
  else if (expectedProfile ==? ProfileAirGap) && (TargetProfile m !=? ProfileAirGap)
  then Some ErrIncompatibleProfile
  else None.

(** The loop over the artifacts. *)
Fixpoint artifacts_loop (artifacts : list CapsuleArtifact) : string * option Err :=
  match artifacts with
  | [] => (DigestPinned, None)
  | art :: artifacts =>
      if negb (HasPrefix (ADigest art) "sha256:") || negb (Nat.eqb (String.length (ADigest art)) 71)
      then (DigestUnpinned, Some (ErrUnpinnedDigest (AName art)))
      else if (Payload art !=? "") && (sha256_hex (Payload art) !=? str_drop 7 (ADigest art))
      then (DigestMalformed, Some (ErrDigestMismatch (AName art)))
      else artifacts_loop artifacts
  end.

Definition validateCapsuleArtifacts (artifacts : list CapsuleArtifact) : list string * string * option Err :=
  match artifacts with
  | [] => ([], DigestMalformed, Some ErrInvalidMetadata)
  | _ => let '(status, err) := artifacts_loop artifacts in ([], status, err)
  end.

Definition artifactDigestMap (arts : list CapsuleArtifact) : gset string := list_to_set (ADigest <$> arts).

Definition containsFingerprint (keys : list string) (target : string) : bool :=
  existsb (fun k => k ==? target) keys.

(** The loop over the signatures; the violations are returned. *)
Fixpoint signatures_loop (sigs : list SignatureRecord) (digests : gset string) (trustedKeys : list string)
    : string * list string :=
  match sigs with
  | [] => (SigVerified, [])
  | sig :: sigs =>
      if negb (bool_decide (ArtifactDigest sig ∈ digests))
      then (SigUntrusted, ["signature references unknown artifact digest: " +:+ ArtifactDigest sig])
      else if negb (containsFingerprint trustedKeys (KeyFingerprint sig))
      then (SigUntrusted, ["signature key fingerprint " +:+ KeyFingerprint sig +:+ " untrusted"])
      else signatures_loop sigs digests trustedKeys
  end.

Definition checkSignatures (sigs : list SignatureRecord) (digests : gset string) (trustedKeys : list string)
    (required : bool) : string * list string :=
  match sigs with
  | [] => (SigMissing, violation_if required "missing required cryptographic signatures")
  | _ => signatures_loop sigs digests trustedKeys
  end.

Fixpoint attestations_loop (attests : list AttestationRecord) (digests : gset string) : string * list string :=
  match attests with
  | [] => (AttestationVerified, [])
  | att :: attests =>
      if negb (bool_decide (SubjectDigest att ∈ digests))
      then (AttestationInvalid, ["attestation subject " +:+ SubjectDigest att +:+ " not found in artifacts"])
      else attestations_loop attests digests
  end.

Definition checkAttestations (attests : list AttestationRecord) (digests : gset string) (required : bool)
    : string * list string :=
  match attests with
  | [] => (AttestationMissing, violation_if required "missing required in-toto provenance attestation")
  | _ => attestations_loop attests digests
  end.

Definition checkBOMs (aiBOM : option AIBOMRecord) (sBOM : option SBOMRecord) (digests : gset string)
    (required : bool) : string * list string :=
  match aiBOM, sBOM with
  | Some ai, Some _ =>
      if negb (bool_decide (WeightsDigest ai ∈ digests))
      then (BOMPartial, ["AI-BOM weights digest " +:+ WeightsDigest ai +:+ " not found in artifacts"])
      else (BOMComplete, [])
  | None, None =>
      (BOMMissing, violation_if required "both AI-BOM and SBOM are required for offline sovereignty")
  | _, _ => (BOMPartial, violation_if required "both AI-BOM and SBOM are required for offline sovereignty")
  end.

Definition validateCapsuleEvidence (ev : CapsuleEvidence) (arts : list CapsuleArtifact)
    (trustedKeys : list string) (req : ProfileRequirements) : list string * string * string * string :=
  let digests := artifactDigestMap arts in
  let '(sigStatus, v1) := checkSignatures (Signatures ev) digests trustedKeys (RequireSignatures req) in
  let '(attStatus, v2) := checkAttestations (Attestations ev) digests (RequireAttestation req) in
  let '(bomStatus, v3) := checkBOMs (AIBOM ev) (SBOM ev) digests (RequireBOM req) in
  (v1 ++ v2 ++ v3, sigStatus, attStatus, bomStatus).

Definition validateCapsulePolicies (pol : CapsulePolicies) (req : ProfileRequirements)
    : list string * string * option Err :=
  if ZeroPhoneHome req then
    if negb (ZeroPhoneHomeRequired pol) then ([], PostureAirGapZeroEgress, Some ErrPhoneHomeNotForbidden)
    else ([], PostureAirGapZeroEgress, None)
  else ([], PostureConnected, None).

(** [SovereigntyVector{State: StateNonCompliant}] with the given fields. *)
Definition failed_vector (network digestPinning : string) : SovereigntyVector :=
  mkVector "" network digestPinning "" "" "" "" "" StateNonCompliant [].

Definition ValidateCapsule (capsule : option TransferCapsule) (expectedProfile : SovereigntyProfileLevel)
    (now : Time) : SovereigntyVector * option Err :=
  match capsule with
  | None => (failed_vector "" "", Some ErrNilCapsule)
  | Some capsule =>
      match getProfileRequirements expectedProfile with
      | (_, Some err) => (failed_vector "" "", Some err)
      | (req, None) =>
          match validateCapsuleMetadata (Metadata capsule) expectedProfile now with
          | Some err => (failed_vector "" "", Some err)
          | None =>
              match validateCapsuleArtifacts (Artifacts capsule) with
              | (_, digStatus, Some err) => (failed_vector "" digStatus, Some err)
              | (artViolations, digStatus, None) =>
                  let '(evViolations, sigStatus, attStatus, bomStatus) :=
                    validateCapsuleEvidence (Evidence capsule) (Artifacts capsule)
                      (TrustedKeyFingerprints (Policies capsule)) req in
                  match validateCapsulePolicies (Policies capsule) req with
                  | (_, netPosture, Some err) => (failed_vector netPosture "", Some err)
                  | (polViolations, netPosture, None) =>
                      let violations := artViolations ++ evViolations ++ polViolations in
                      (mkVector expectedProfile netPosture digStatus sigStatus attStatus bomStatus
                         IdentityEnforced SecretStoreLocalSeeded
                         (match violations with [] => StateCompliant | _ => StateNonCompliant end)
                         violations, None)
                  end
              end
          end
      end
  end.

(** ** What a compliant capsule is *)

Definition levels : list SovereigntyProfileLevel :=
  [ProfileConnected; ProfileEnterprise; ProfileRestricted; ProfileDisconnected; ProfileAirGap].

Definition req_of (level : SovereigntyProfileLevel) : ProfileRequirements := fst (getProfileRequirements level).

Record metadata_ok (m : CapsuleMetadata) (level : SovereigntyProfileLevel) (now : Time) : Prop := {
  mo_id : MID m <> "";
  mo_created : CreatedAt m <> zeroTime;
  mo_expires : ExpiresAt m <> zeroTime;
  mo_live : now = zeroTime \/ now <= ExpiresAt m;
  mo_target : level = ProfileAirGap -> TargetProfile m = ProfileAirGap
}.

(** A pinned digest, which is that of the payload when there is one. *)
Record artifact_ok (art : CapsuleArtifact) : Prop := {
  ao_pinned : exists hash, ADigest art = "sha256:" +:+ hash /\ String.length hash = 64%nat;
  ao_payload : Payload art <> "" -> ADigest art = "sha256:" +:+ sha256_hex (Payload art)
}.

Record evidence_ok (c : TransferCapsule) (req : ProfileRequirements) : Prop := {
  eo_signed : RequireSignatures req = true -> Signatures (Evidence c) <> [];
  eo_signatures : forall s, s ∈ Signatures (Evidence c) ->
    (exists a, a ∈ Artifacts c /\ ADigest a = ArtifactDigest s)
    /\ KeyFingerprint s ∈ TrustedKeyFingerprints (Policies c);
  eo_attested : RequireAttestation req = true -> Attestations (Evidence c) <> [];
  eo_attestations : forall t, t ∈ Attestations (Evidence c) ->
    exists a, a ∈ Artifacts c /\ ADigest a = SubjectDigest t;
  eo_bom : RequireBOM req = true -> is_Some (AIBOM (Evidence c)) /\ is_Some (SBOM (Evidence c));
  eo_weights : forall ai, AIBOM (Evidence c) = Some ai -> is_Some (SBOM (Evidence c)) ->
    exists a, a ∈ Artifacts c /\ ADigest a = WeightsDigest ai
}.

Record capsule_ok (c : TransferCapsule) (level : SovereigntyProfileLevel) (now : Time) : Prop := {
  co_known : level ∈ levels;
  co_metadata : metadata_ok (Metadata c) level now;
  co_nonempty : Artifacts c <> [];
  co_artifacts : forall a, a ∈ Artifacts c -> artifact_ok a;
  co_evidence : evidence_ok c (req_of level);
  co_offline : ZeroPhoneHome (req_of level) = true -> ZeroPhoneHomeRequired (Policies c) = true
}.

Lemma requirements_known level :
  (level ∈ levels /\ getProfileRequirements level = (req_of level, None))
  \/ (level ∉ levels /\ exists r err, getProfileRequirements level = (r, Some err)).
Proof.
  unfold req_of, getProfileRequirements, levels.
  repeat (case_bool_decide; [left; split; [set_solver|done]|]).
  right. split; [set_solver|eauto].
Qed.

Lemma metadata_iff m level now : validateCapsuleMetadata m level now = None <-> metadata_ok m level now.
Proof.
  unfold validateCapsuleMetadata, IsZero, After. split.
  - intros H. go_cases; constructor; try done; try (intros; congruence);
      try (destruct (decide (now = zeroTime)); [by left|right]); try lia; naive_solver.
  - intros [H1 H2 H3 H4 H5]. rewrite !(bool_decide_false _ H1), (bool_decide_false _ H2), (bool_decide_false _ H3).
    cbn [orb]. case_bool_decide; [|case_bool_decide; [exfalso; destruct H4; [done|lia]|]]; cbn [negb andb].
    all: case_bool_decide as El; cbn [andb]; [|done].
    all: rewrite bool_decide_true by auto; done.
Qed.

Lemma pinned_iff d :
  HasPrefix d "sha256:" = true /\ String.length d = 71%nat
  <-> exists hash, d = "sha256:" +:+ hash /\ String.length hash = 64%nat.
Proof.
  split.
  - intros [Hp Hl]. apply prefix_app in Hp as [hash ->]. exists hash. split; [done|].
    rewrite str_length_app in Hl. simpl in Hl. lia.
  - intros (hash & -> & Hl). split; [apply HasPrefix_app|]. rewrite str_length_app. simpl. lia.
Qed.

Lemma artifacts_loop_iff arts :
  snd (artifacts_loop arts) = None <-> forall a, a ∈ arts -> artifact_ok a.
Proof.
  induction arts as [|art arts IH]; cbn [artifacts_loop]; [set_solver|]. setoid_rewrite elem_of_cons.
  assert (artifact_ok art ->
          (HasPrefix (ADigest art) "sha256:" = true /\ String.length (ADigest art) = 71%nat)
          /\ (Payload art <> "" -> sha256_hex (Payload art) = str_drop 7 (ADigest art))) as Hfwd.
  { intros [Hpin Hpay]. split; [by apply pinned_iff|]. intros Hp. rewrite (Hpay Hp). symmetry. apply (str_drop_app "sha256:"). }
  destruct (HasPrefix (ADigest art) "sha256:") eqn:Ep; cbn [negb orb].
  2: { split; [done|]. intros H. destruct (Hfwd (H art (or_introl eq_refl))) as [[? _] _]. done. }
  destruct (Nat.eqb_spec (String.length (ADigest art)) 71) as [El|El]; cbn [negb].
  2: { split; [done|]. intros H. destruct (Hfwd (H art (or_introl eq_refl))) as [[_ ?] _]. done. }
  destruct (proj1 (pinned_iff (ADigest art)) (conj Ep El)) as (hash & Eh & Hh).
  destruct (bool_decide_reflect (Payload art = "")) as [Epay|Epay]; cbn [negb andb];
    [|destruct (bool_decide_reflect (sha256_hex (Payload art) = str_drop 7 (ADigest art))) as [Es|Es]; cbn [negb]].
  3: { split; [done|]. intros H. destruct (Hfwd (H art (or_introl eq_refl))) as [_ ?]. naive_solver. }
  all: rewrite IH; (split; [|by auto]); intros H a [->|Ha]; [|by auto].
  all: constructor; [by exists hash|intros Hne].
  1: done.
  rewrite Es, Eh. reflexivity.
Qed.

Lemma digest_map_elem arts d : d ∈ artifactDigestMap arts <-> exists a, a ∈ arts /\ ADigest a = d.
Proof. unfold artifactDigestMap. rewrite elem_of_list_to_set, list_elem_of_fmap. naive_solver. Qed.

Lemma signatures_loop_iff sigs digests keys :
  snd (signatures_loop sigs digests keys) = []
  <-> forall s, s ∈ sigs -> ArtifactDigest s ∈ digests /\ KeyFingerprint s ∈ keys.
Proof.
  induction sigs as [|s sigs IH]; cbn [signatures_loop]; [set_solver|]. setoid_rewrite elem_of_cons.
  assert (containsFingerprint keys (KeyFingerprint s) = true <-> KeyFingerprint s ∈ keys) as Hk.
  { unfold containsFingerprint. rewrite existsb_exists. setoid_rewrite bool_decide_eq_true.
    setoid_rewrite <- list_elem_of_In. naive_solver. }
  case_bool_decide; cbn [negb]; [|split; [done|naive_solver]].
  destruct (containsFingerprint keys (KeyFingerprint s)); cbn [negb].
  - rewrite IH. naive_solver.
  - split; [done|]. intros H'. destruct (H' s) as [_ ?%Hk]; [by left|done].
Qed.

Lemma attestations_loop_iff attests digests :
  snd (attestations_loop attests digests) = [] <-> forall t, t ∈ attests -> SubjectDigest t ∈ digests.
Proof.
  induction attests as [|t attests IH]; cbn [attestations_loop]; [set_solver|]. setoid_rewrite elem_of_cons.
  case_bool_decide; cbn [negb]; [rewrite IH|split; [done|]]; naive_solver.
Qed.

Lemma evidence_iff c req :
  fst (fst (fst (validateCapsuleEvidence (Evidence c) (Artifacts c) (TrustedKeyFingerprints (Policies c)) req))) = []
  <-> evidence_ok c req.
Proof.
  unfold validateCapsuleEvidence. destruct (Evidence c) as [sigs attests ai sb] eqn:Ee. cbn [Signatures Attestations AIBOM SBOM].
  set (digests := artifactDigestMap (Artifacts c)). set (keys := TrustedKeyFingerprints (Policies c)).
  assert (snd (checkSignatures sigs digests keys (RequireSignatures req)) = []
    <-> (RequireSignatures req = true -> sigs <> [])
        /\ forall s, s ∈ sigs -> ArtifactDigest s ∈ digests /\ KeyFingerprint s ∈ keys) as Hs.
  { destruct sigs as [|s sigs]; [destruct (RequireSignatures req); simpl; set_solver|].
    unfold checkSignatures. rewrite signatures_loop_iff. naive_solver. }
  assert (snd (checkAttestations attests digests (RequireAttestation req)) = []
    <-> (RequireAttestation req = true -> attests <> []) /\ forall t, t ∈ attests -> SubjectDigest t ∈ digests) as Ha.
  { destruct attests as [|t attests]; [destruct (RequireAttestation req); simpl; set_solver|].
    unfold checkAttestations. rewrite attestations_loop_iff. naive_solver. }
  assert (snd (checkBOMs ai sb digests (RequireBOM req)) = []
    <-> (RequireBOM req = true -> is_Some ai /\ is_Some sb)
        /\ forall a, ai = Some a -> is_Some sb -> WeightsDigest a ∈ digests) as Hb.
  { unfold checkBOMs, is_Some. destruct ai as [a|], sb as [b|]; [case_bool_decide|..]; simpl;
      try (destruct (RequireBOM req); simpl); naive_solver. }
  destruct (checkSignatures _ _ _ _) as [st1 v1], (checkAttestations _ _ _) as [st2 v2],
    (checkBOMs _ _ _ _) as [st3 v3]. cbn [fst snd] in *.
  rewrite !app_nil, Hs, Ha, Hb. subst digests keys. setoid_rewrite digest_map_elem. split.
  - intros ([? ?] & [? ?] & [? ?]). constructor; rewrite Ee; assumption.
  - intros [H1 H2 H3 H4 H5 H6]. rewrite Ee in *. done.
Qed.

(** Capsules: offline validation reports a capsule compliant, without an
    error, exactly when the profile is known, the metadata is complete, live
    and addressed to an air gap where one is required, every artifact is
    pinned and its payload hashes to its digest, the signatures, attestations
    and bills of materials the profile requires are present and refer to
    artifacts of the capsule and to keys the capsule trusts, and a
    zero-phone-home profile finds the capsule's own requirement. *)
Theorem capsule_compliant_iff c level now :
  (exists vec, ValidateCapsule (Some c) level now = (vec, None) /\ VState vec = StateCompliant)
  <-> capsule_ok c level now.
Proof.
  unfold ValidateCapsule.
  destruct (requirements_known level) as [[Hk ->]|[Hk (r & err & ->)]].
  2: { split; [by intros (vec & ? & _)|by intros [? _ _ _ _ _]]. }
  pose proof (metadata_iff (Metadata c) level now) as Hm.
  destruct (validateCapsuleMetadata (Metadata c) level now).
  { split; [by intros (vec & ? & _)|intros [_ ?%Hm _ _ _ _]; done]. }
  unfold validateCapsuleArtifacts. destruct (Artifacts c) as [|art arts] eqn:Ea.
  { split; [by intros (vec & ? & _)|intros [_ _ ? _ _ _]; done]. }
  rewrite <- Ea. pose proof (artifacts_loop_iff (Artifacts c)) as Harts.
  destruct (artifacts_loop (Artifacts c)) as [status [err|]]; cbn [snd] in Harts.
  { split; [by intros (vec & ? & _)|intros [_ _ _ ?%Harts _ _]; done]. }
  pose proof (evidence_iff c (req_of level)) as He.
  destruct (validateCapsuleEvidence _ _ _ _) as [[[ev st1] st2] st3]. cbn [fst] in He.
  assert (Artifacts c <> []) by (by rewrite Ea).
  pose proof (proj1 Hm eq_refl) as Hm'. pose proof (proj1 Harts eq_refl) as Harts'.
  unfold validateCapsulePolicies. destruct (ZeroPhoneHome (req_of level)) eqn:Ez;
    [destruct (ZeroPhoneHomeRequired (Policies c)) eqn:Ezr|]; cbn [negb].
  2: { split; [by intros (vec & ? & _)|intros [_ _ _ _ _ Hz]; specialize (Hz Ez); congruence]. }
  all: rewrite app_nil_r; split; [|intros [_ _ _ _ ->%He _]; by eexists].
  all: intros (vec & [= <-] & Hst); cbn [VState] in Hst.
  all: assert (ev = []) as Hev%He by (by destruct ev).
  all: constructor; try done; intros; congruence.
Qed.

(** ** Workloads across profiles *)

Lemma no_violations (vs : list string) :
  (match vs with [] => StateCompliant | _ => StateNonCompliant end) = StateCompliant <-> vs = [].
Proof. destruct vs; [done|]. split; discriminate. Qed.

Lemma violation_if_nil cond text : violation_if cond text = [] <-> cond = false.
Proof. by destruct cond. Qed.

(** What each requirement asks of a workload. *)
Lemma workload_compliant_iff level target :
  VState (ValidateWorkload level target) = StateCompliant
  <-> (RequireDigestPinning (req_of level) = true -> evalDigestPinning [ImageURI target; ModelURI target] = DigestPinned)
      /\ (RequireSignatures (req_of level) = true -> HasSignature target = true)
      /\ (RequireAttestation (req_of level) = true -> HasAttestation target = true)
      /\ (RequireBOM (req_of level) = true -> HasSBOM target = true /\ HasAIBOM target = true)
      /\ (RequireSPIFFE (req_of level) = true -> HasPrefix (SPIFFEIdentity target) "spiffe://" = true)
      /\ (ZeroPhoneHome (req_of level) = true -> EgressTarget target = "").
Proof.
  unfold ValidateWorkload, enforceWorkloadRequirements. cbn [VState Violations app]. rewrite no_violations.
  rewrite !app_nil, !violation_if_nil. fold (req_of level). cbn [DigestPinning SignatureIntegrity AttestationIntegrity BOMIntegrity IdentityIntegrity].
  assert (forall (b : bool) (s t : string), b && (s !=? t) = false <-> (b = true -> s = t)) as Hg.
  { intros [] s t; simpl; [|naive_solver]. rewrite negb_false_iff, bool_decide_eq_true. naive_solver. }
  rewrite !Hg. unfold evalSigStatus, evalAttestStatus, evalBOMStatus, evalIdentityStatus.
  destruct (HasSignature target), (HasAttestation target), (HasSBOM target), (HasAIBOM target),
    (HasPrefix (SPIFFEIdentity target) "spiffe://"); simpl; naive_solver.
Qed.

(** Each profile requires what the profiles before it require. *)
Definition requires_less (r r' : ProfileRequirements) : bool :=
  implb (RequireDigestPinning r) (RequireDigestPinning r') && implb (RequireSignatures r) (RequireSignatures r')
  && implb (RequireAttestation r) (RequireAttestation r') && implb (RequireBOM r) (RequireBOM r')
  && implb (RequireSPIFFE r) (RequireSPIFFE r') && implb (ZeroPhoneHome r) (ZeroPhoneHome r').

Lemma levels_ordered i j l l' :
  levels !! i = Some l -> levels !! j = Some l' -> (i <= j)%nat -> requires_less (req_of l) (req_of l') = true.
Proof.
  intros Hi Hj Hij.
  assert (i < 5 /\ j < 5)%nat as [Hi5 Hj5] by (split; eapply lookup_lt_Some in Hi, Hj; done).
  destruct i as [|[|[|[|[|i]]]]]; [..|lia]; destruct j as [|[|[|[|[|j]]]]]; try lia; simplify_eq/=; reflexivity.
Qed.

(** The profiles form a ladder: a workload compliant under one profile is
    compliant under every less strict one. *)
Theorem sovereignty_ladder i j l l' target
    (Hi : levels !! i = Some l) (Hj : levels !! j = Some l') (Hij : (i <= j)%nat)
    (Hc : VState (ValidateWorkload l' target) = StateCompliant) :
  VState (ValidateWorkload l target) = StateCompliant.
Proof.
  pose proof (levels_ordered i j l l' Hi Hj Hij) as Hr. unfold requires_less in Hr.
  rewrite !andb_true_iff, !implb_true_iff in Hr. rewrite workload_compliant_iff in *. naive_solver.
Qed.

(** ** Witnesses *)

Definition w_hash : string := "0123456789abcdef0123456789abcdef0123456789abcdef0123456789abcdef".

Definition w_target (secrets : string) : WorkloadTarget :=
  mkTarget "w" ("reg/img@sha256:" +:+ w_hash) "" "spiffe://td/w" secrets "" true true true true.

Lemma sovereignty_ladder_witness :
  VState (ValidateWorkload ProfileAirGap (w_target "sealedSecret")) = StateCompliant
  /\ VState (ValidateWorkload ProfileRestricted (w_target "sealedSecret")) = StateCompliant.
Proof.
  split; [vm_compute; reflexivity|].
  apply (sovereignty_ladder 2 4 ProfileRestricted ProfileAirGap (w_target "sealedSecret"));
    [reflexivity|reflexivity|lia|vm_compute; reflexivity].
Defined.

(** A capsule signed with a key that only the capsule itself declares
    trusted, with an empty signature. *)
Definition w_capsule : TransferCapsule :=
  mkCapsule "v1" "TransferCapsule" (mkMetadata "c1" "src" "secret" 5 90 ProfileAirGap ∅)
    [mkArtifact "m" "t" ("sha256:" +:+ w_hash) "" 0]
    (mkEvidence [mkSignature ("sha256:" +:+ w_hash) "anyone" "made-up-key" "" 0]
       [mkAttestation "" ("sha256:" +:+ w_hash) "" ""]
       (Some (mkAIBOM "m" "" "" "" ("sha256:" +:+ w_hash) "" ∅)) (Some (mkSBOM "" "" [])))
    (mkPolicies [] ["made-up-key"] [] true "").

Example capsule_trusts_itself :
  let '(vec, err) := ValidateCapsule (Some w_capsule) ProfileAirGap 50 in
  err = None /\ VState vec = StateCompliant /\ SignatureIntegrity vec = SigVerified.
Proof. vm_compute. done. Qed.

(** An unknown profile has no requirements: [ValidateWorkload] drops the
    error of [getProfileRequirements] and reports compliance. *)
Lemma unknown_profile_compliant level target :
  level ∉ levels -> VState (ValidateWorkload level target) = StateCompliant.
Proof.
  intros Hl. apply workload_compliant_iff.
  assert (req_of level = no_requirements) as ->.
  { unfold req_of, getProfileRequirements, levels in *. repeat (rewrite bool_decide_false by set_solver). done. }
  done.
Qed.

(** The air-gap profile accepts a remote secret store. *)
Example local_secrets_not_enforced :
  RequireLocalSecrets (req_of ProfileAirGap) = true
  /\ SecretStoreIntegrity (ValidateWorkload ProfileAirGap (w_target "KMS")) = SecretStoreRemoteKMS
  /\ VState (ValidateWorkload ProfileAirGap (w_target "KMS")) = StateCompliant.
Proof. vm_compute. done. Qed.
