(* ===== verification/Conformance.v ===== *)
(** * The conformance suite ([internal/conformance])

    [types.go] and [conformance_suite.go]: vectors, their registration, the
    run and the aggregation of the verdicts.  A vector's [Execute] function
    gets the clock readings it takes and returns the pair of a result pointer
    and an error.  [Run] gets, for every vector in turn, what the context and
    the clock answer ([Iteration]); [None] is a panic.  Registration
    errors are constructors instead of formatted messages, and counters are
    unbounded (they count the elements of a slice). *)

From S2P Require Import Prelude Sha256.

(** ** Data *)

Definition ConformanceClass := string.
Definition ClassPositive : ConformanceClass := "positive".
Definition ClassNegative : ConformanceClass := "negative".
Definition ClassAnti : ConformanceClass := "anti".
Definition ClassTemporal : ConformanceClass := "temporal".
Definition ClassDegradation : ConformanceClass := "degradation".
Definition ClassRecovery : ConformanceClass := "recovery".
Definition ClassRace : ConformanceClass := "race".
Definition ClassMetamorphic : ConformanceClass := "metamorphic".
Definition ClassSaturation : ConformanceClass := "saturation".
Definition ClassValidButWrong : ConformanceClass := "valid_but_wrong".
Definition ClassSilence : ConformanceClass := "silence".
Definition ClassCounterfactualReplay : ConformanceClass := "counterfactual_replay".

Definition AllConformanceClasses : list ConformanceClass :=
  [ClassPositive; ClassNegative; ClassAnti; ClassTemporal; ClassDegradation; ClassRecovery; ClassRace;
   ClassMetamorphic; ClassSaturation; ClassValidButWrong; ClassSilence; ClassCounterfactualReplay].

Definition InvariantSeverity := string.
Definition SeverityHardAnti : InvariantSeverity := "hard_anti_invariant".
Definition SeverityStandard : InvariantSeverity := "standard_invariant".
Definition SeverityDegradable : InvariantSeverity := "degradable_expectation".

Definition CategoricalVerdict := string.
Definition VerdictSatisfied : CategoricalVerdict := "satisfied".
Definition VerdictDegraded : CategoricalVerdict := "degraded".
Definition VerdictRejected : CategoricalVerdict := "rejected".
Definition VerdictQuarantined : CategoricalVerdict := "quarantined".
Definition VerdictHaltViolation : CategoricalVerdict := "halt_violation".

Definition verdictLatticeRank (v : CategoricalVerdict) : Z :=
  if v ==? VerdictHaltViolation then 5
  else if v ==? VerdictQuarantined then 4
  else if v ==? VerdictRejected then 3
  else if v ==? VerdictDegraded then 2
  else if v ==? VerdictSatisfied then 1
  else 0.

Record StatePlaneVector := mkPlanes {
  Lifecycle : string;
  Trust : string;
  Integrity : string;
  Binding : string
}.

Definition no_planes : StatePlaneVector := mkPlanes "" "" "" "".

Record VectorResult := mkResult {
  VectorID : string;
  RName : string;
  RClass : ConformanceClass;
  RSeverity : InvariantSeverity;
  Verdict : CategoricalVerdict;
  ObservedState : StatePlaneVector;
  EvidenceDigest : string;
  Message : string;
  ExecutionDuration : Duration
}.

(** What [Execute] returns: the result pointer and the error's message. *)
Definition Outcome : Type := option VectorResult * option string.

Record ConformanceVector := mkVector {
  ID : string;
  Name : string;
  Class : ConformanceClass;
  Severity : InvariantSeverity;
  Target : string;
  Description : string;
  Execute : option ((nat -> Time) -> Outcome)
}.

Record SuiteSummary := mkSummary {
  TotalVectors : Z;
  PassedCount : Z;
  DegradedCount : Z;
  RejectedCount : Z;
  QuarantinedCount : Z;
  HardViolationCount : Z;
  SummaryVerdict : CategoricalVerdict;
  DominanceInvoked : bool;
  CompositeTrust : string;
  ClassCoverage : gmap ConformanceClass Z;
  Results : list VectorResult
}.

Definition IsViable (s : SuiteSummary) : bool :=
  (SummaryVerdict s !=? VerdictHaltViolation) && (HardViolationCount s ==? 0).

Inductive Err :=
| ErrEmptyID
| ErrEmptyClass (id : string)
| ErrNilExecute (id : string)
| ErrAlreadyRegistered (id : string).

Definition Validate (v : ConformanceVector) : option Err :=
  if ID v ==? "" then Some ErrEmptyID
  else if Class v ==? "" then Some (ErrEmptyClass (ID v))
  else match Execute v with
       | None => Some (ErrNilExecute (ID v))
       | Some _ => None
       end.

(** ** The registry *)

Record ConformanceSuite := mkSuite { vectors : list ConformanceVector }.

Definition NewConformanceSuite : ConformanceSuite := mkSuite [].

Definition Register (cs : ConformanceSuite) (v : ConformanceVector) : ConformanceSuite * option Err :=
  match Validate v with
  | Some err => (cs, Some err)
  | None =>
      if existsb (fun existing => ID existing ==? ID v) (vectors cs)
      then (cs, Some (ErrAlreadyRegistered (ID v)))
      else (mkSuite (vectors cs ++ [v]), None)
  end.

Fixpoint RegisterMany (cs : ConformanceSuite) (vs : list ConformanceVector) : ConformanceSuite * option Err :=
  match vs with
  | [] => (cs, None)
  | v :: vs =>
      match Register cs v with
      | (cs, Some err) => (cs, Some err)
      | (cs, None) => RegisterMany cs vs
      end
  end.

Definition Vectors (cs : ConformanceSuite) : list ConformanceVector := vectors cs.

Definition VectorsByClass (cs : ConformanceSuite) (class : ConformanceClass) : list ConformanceVector :=
  List.filter (fun v => Class v ==? class) (vectors cs).

Definition VectorsByTarget (cs : ConformanceSuite) (target : string) : list ConformanceVector :=
  List.filter (fun v => Target v ==? target) (vectors cs).

(** ** Aggregation *)

Definition tallyResultVerdict (s : SuiteSummary) (verdict : CategoricalVerdict) : SuiteSummary :=
  let '(mkSummary n p d r q h v dom trust cov res) := s in
  if verdict ==? VerdictSatisfied then mkSummary n (p + 1) d r q h v dom trust cov res
  else if verdict ==? VerdictDegraded then mkSummary n p (d + 1) r q h v dom trust cov res
  else if verdict ==? VerdictRejected then mkSummary n p d (r + 1) q h v dom trust cov res
  else if verdict ==? VerdictQuarantined then mkSummary n p d r (q + 1) h v dom trust cov res
  else if verdict ==? VerdictHaltViolation then mkSummary n p d r q (h + 1) v dom trust cov res
  else s.

Definition with_verdict (s : SuiteSummary) (verdict : CategoricalVerdict) (dominance : bool) (trust : string)
  : SuiteSummary :=
  mkSummary (TotalVectors s) (PassedCount s) (DegradedCount s) (RejectedCount s) (QuarantinedCount s)
    (HardViolationCount s) verdict dominance trust (ClassCoverage s) (Results s).

Definition applyDominanceResolution (s : SuiteSummary) (latticeVerdict : CategoricalVerdict)
  (hasHardAntiViolation : bool) : SuiteSummary :=
  if hasHardAntiViolation then with_verdict s VerdictHaltViolation true "denied"
  else with_verdict s latticeVerdict false
    (if latticeVerdict ==? VerdictSatisfied then "verified"
     else if latticeVerdict ==? VerdictDegraded then "asserted"
     else if latticeVerdict ==? VerdictRejected then "untrusted"
     else if latticeVerdict ==? VerdictQuarantined then "quarantined"
     else if latticeVerdict ==? VerdictHaltViolation then "denied"
     else CompositeTrust s).

Definition cover (s : SuiteSummary) (class : ConformanceClass) : SuiteSummary :=
  mkSummary (TotalVectors s) (PassedCount s) (DegradedCount s) (RejectedCount s) (QuarantinedCount s)
    (HardViolationCount s) (SummaryVerdict s) (DominanceInvoked s) (CompositeTrust s)
    (<[class := default 0 (ClassCoverage s !! class) + 1]> (ClassCoverage s)) (Results s).

(** The variables of the loop of [EvaluateCategoricalState]. *)
Record Aggregate := mkAggregate {
  summary : SuiteSummary;
  highestRank : Z;
  aggregatedVerdict : CategoricalVerdict;
  hasHardAntiViolation : bool
}.

Definition aggregate_step (a : Aggregate) (r : VectorResult) : Aggregate :=
  let s := tallyResultVerdict (cover (summary a) (RClass r)) (Verdict r) in
  let rank := verdictLatticeRank (Verdict r) in
  let higher := rank >? highestRank a in
  mkAggregate s
    (if higher then rank else highestRank a)
    (if higher then Verdict r else aggregatedVerdict a)
    (if (RSeverity r ==? SeverityHardAnti) && (Verdict r !=? VerdictSatisfied) then true
     else hasHardAntiViolation a).

Definition aggregate_start (results : list VectorResult) : Aggregate :=
  mkAggregate (mkSummary (Z.of_nat (length results)) 0 0 0 0 0 "" false "" ∅ results)
    (verdictLatticeRank VerdictSatisfied) VerdictSatisfied false.

Definition EvaluateCategoricalState (results : list VectorResult) : SuiteSummary :=
  let a := fold_left aggregate_step results (aggregate_start results) in
  applyDominanceResolution (summary a) (aggregatedVerdict a) (hasHardAntiViolation a).

(** ** The run *)

(** What one iteration of [Run] observes: the context's error, the clock
    readings of [Execute], and the readings before and after it. *)
Record Iteration := mkIteration {
  ctxErr : option string;
  execClock : nat -> Time;
  start : Time;
  finish : Time
}.

Definition with_duration (r : VectorResult) (d : Duration) : VectorResult :=
  mkResult (VectorID r) (RName r) (RClass r) (RSeverity r) (Verdict r) (ObservedState r) (EvidenceDigest r)
    (Message r) d.

(** The result of one vector once [Execute] returned; [None] is the nil
    dereference of [*res]. *)
Definition vector_result (v : ConformanceVector) (outcome : Outcome) (elapsed : Duration) : option VectorResult :=
  match outcome with
  | (_, Some err) =>
      Some (mkResult (ID v) (Name v) (Class v) (Severity v) VerdictHaltViolation no_planes ""
              ("Execution error: " +:+ err) elapsed)
  | (Some res, None) => Some (with_duration res elapsed)
  | (None, None) => None
  end.

Fixpoint run_loop (it : nat -> Iteration) (i : nat) (vs : list ConformanceVector) (results : list VectorResult)
  : option (list VectorResult + string) :=
  match vs with
  | [] => Some (inl results)
  | v :: vs =>
      match ctxErr (it i) with
      | Some err => Some (inr ("conformance run aborted: " +:+ err))
      | None =>
          exec ← Execute v;
          res ← vector_result v (exec (execClock (it i))) (TimeSub (finish (it i)) (start (it i)));
          run_loop it (S i) vs (results ++ [res])
      end
  end.

Definition Run (it : nat -> Iteration) (cs : ConformanceSuite) : option (SuiteSummary + string) :=
  r ← run_loop it 0 (Vectors cs) [];
  match r with
  | inl results => Some (inl (EvaluateCategoricalState results))
  | inr err => Some (inr err)
  end.

Definition hashString (s : string) : string := sha256_hex s.

(** ** Properties of the aggregation *)

Definition breach (r : VectorResult) : Prop := RSeverity r = SeverityHardAnti /\ Verdict r <> VerdictSatisfied.

#[export] Instance breach_dec r : Decision (breach r).
Proof. unfold breach. apply _. Defined.

(** How many results a test selects. *)
Definition count (p : VectorResult -> bool) (l : list VectorResult) : Z := zsum (fun r => if p r then 1 else 0) l.

Definition verdict_is (v : CategoricalVerdict) (r : VectorResult) : bool := Verdict r ==? v.

Lemma rank_range v : 0 <= verdictLatticeRank v <= 5.
Proof. unfold verdictLatticeRank. repeat case_bool_decide; lia. Qed.

(** The recognised verdicts have different ranks. *)
Lemma rank_inj v w : 1 <= verdictLatticeRank v -> verdictLatticeRank v = verdictLatticeRank w -> v = w.
Proof. unfold verdictLatticeRank. repeat case_bool_decide; intros; congruence || lia. Qed.

(** A verdict is tallied under its own name and under no other. *)
Lemma tally_counts s v :
  PassedCount (tallyResultVerdict s v) = PassedCount s + (if v ==? VerdictSatisfied then 1 else 0)
  /\ DegradedCount (tallyResultVerdict s v) = DegradedCount s + (if v ==? VerdictDegraded then 1 else 0)
  /\ RejectedCount (tallyResultVerdict s v) = RejectedCount s + (if v ==? VerdictRejected then 1 else 0)
  /\ QuarantinedCount (tallyResultVerdict s v) = QuarantinedCount s + (if v ==? VerdictQuarantined then 1 else 0)
  /\ HardViolationCount (tallyResultVerdict s v) = HardViolationCount s + (if v ==? VerdictHaltViolation then 1 else 0)
  /\ TotalVectors (tallyResultVerdict s v) = TotalVectors s
  /\ ClassCoverage (tallyResultVerdict s v) = ClassCoverage s
  /\ Results (tallyResultVerdict s v) = Results s.
Proof.
  destruct s; unfold tallyResultVerdict.
  destruct (bool_decide_reflect (v = VerdictSatisfied)) as [->|]; [simpl; repeat split; lia|].
  destruct (bool_decide_reflect (v = VerdictDegraded)) as [->|]; [simpl; repeat split; lia|].
  destruct (bool_decide_reflect (v = VerdictRejected)) as [->|]; [simpl; repeat split; lia|].
  destruct (bool_decide_reflect (v = VerdictQuarantined)) as [->|]; [simpl; repeat split; lia|].
  destruct (bool_decide_reflect (v = VerdictHaltViolation)) as [->|]; simpl; repeat split; lia.
Qed.

Record tallied (l : list VectorResult) (s s' : SuiteSummary) : Prop := {
  t_passed : PassedCount s' = PassedCount s + count (verdict_is VerdictSatisfied) l;
  t_degraded : DegradedCount s' = DegradedCount s + count (verdict_is VerdictDegraded) l;
  t_rejected : RejectedCount s' = RejectedCount s + count (verdict_is VerdictRejected) l;
  t_quarantined : QuarantinedCount s' = QuarantinedCount s + count (verdict_is VerdictQuarantined) l;
  t_hard : HardViolationCount s' = HardViolationCount s + count (verdict_is VerdictHaltViolation) l;
  t_total : TotalVectors s' = TotalVectors s;
  t_results : Results s' = Results s;
  t_coverage c : default 0 (ClassCoverage s' !! c) = default 0 (ClassCoverage s !! c) + count (fun r => RClass r ==? c) l
}.

Lemma step_tallied a r : tallied [r] (summary a) (summary (aggregate_step a r)).
Proof.
  destruct (tally_counts (cover (summary a) (RClass r)) (Verdict r)) as (H1&H2&H3&H4&H5&H6&H7&H8).
  split; unfold aggregate_step, count, verdict_is; cbn -[tallyResultVerdict cover];
    rewrite ?H1, ?H2, ?H3, ?H4, ?H5, ?H6, ?H7, ?H8; cbn; try lia; try done.
  intros c. destruct (bool_decide_reflect (RClass r = c)) as [<-|E].
  - rewrite lookup_insert_eq. simpl. lia.
  - rewrite lookup_insert_ne by done. lia.
Qed.

Lemma tallied_cons r l s s' s'' : tallied [r] s s' -> tallied l s' s'' -> tallied (r :: l) s s''.
Proof.
  intros [] []. split; unfold count in *; simpl in *; try lia; try congruence.
  intros c. rewrite t_coverage1, t_coverage0. lia.
Qed.

Lemma tallied_nil s : tallied [] s s.
Proof. split; unfold count; simpl; intros; lia || done. Qed.

(** What the loop has computed after the results [l]. *)
Record aggregated (l : list VectorResult) (a a' : Aggregate) : Prop := {
  ag_tally : tallied l (summary a) (summary a');
  ag_rank : highestRank a' = verdictLatticeRank (aggregatedVerdict a');
  ag_grows : highestRank a <= highestRank a';
  ag_bound : Forall (fun r => verdictLatticeRank (Verdict r) <= highestRank a') l;
  ag_attained : aggregatedVerdict a' = aggregatedVerdict a \/ Exists (fun r => Verdict r = aggregatedVerdict a') l;
  ag_hard : hasHardAntiViolation a' = true <-> hasHardAntiViolation a = true \/ Exists breach l
}.

Lemma fold_aggregated l a :
  highestRank a = verdictLatticeRank (aggregatedVerdict a) -> aggregated l a (fold_left aggregate_step l a).
Proof.
  revert a. induction l as [|r l IH]; intros a Ha; simpl.
  - split; auto using tallied_nil; [lia|]. rewrite Exists_nil. tauto.
  - specialize (IH (aggregate_step a r)). destruct IH as [Ht Hr Hg Hb Hat Hh].
    { simpl. by repeat case_match. }
    assert (verdictLatticeRank (Verdict r) <= highestRank (aggregate_step a r)
            /\ highestRank a <= highestRank (aggregate_step a r)) as [].
    { simpl. case_bool_decide; lia. }
    split; [|done|lia| | |].
    + eapply tallied_cons; [apply step_tallied|done].
    + constructor; [lia|done].
    + rewrite Exists_cons. destruct Hat as [Hat|]; [|by auto]. rewrite Hat. simpl. case_bool_decide; auto.
    + rewrite Hh, Exists_cons. simpl. unfold breach.
      repeat case_bool_decide; simpl; intuition congruence.
Qed.

Lemma count_zero p l : count p l = 0 <-> Forall (fun r => p r = false) l.
Proof.
  unfold count. induction l as [|r l IH]; simpl; [done|].
  assert (0 <= zsum (fun r => if p r then 1 else 0) l) by (apply zsum_nonneg; intros; case_match; lia).
  rewrite Forall_cons, <- IH. destruct (p r); intuition (lia || congruence).
Qed.

(** The verdict of a summary. *)
Lemma evaluate_verdict results :
  let s := EvaluateCategoricalState results in
  (Exists breach results /\ SummaryVerdict s = VerdictHaltViolation /\ DominanceInvoked s = true)
  \/ (~ Exists breach results /\ DominanceInvoked s = false
      /\ 1 <= verdictLatticeRank (SummaryVerdict s)
      /\ Forall (fun r => verdictLatticeRank (Verdict r) <= verdictLatticeRank (SummaryVerdict s)) results
      /\ (SummaryVerdict s = VerdictSatisfied \/ Exists (fun r => Verdict r = SummaryVerdict s) results)).
Proof.
  destruct (fold_aggregated results (aggregate_start results)) as [Ht Hr Hg Hb Hat Hh]; [done|].
  unfold EvaluateCategoricalState, applyDominanceResolution.
  destruct (hasHardAntiViolation _); simpl in *.
  - left. split; [|done]. by destruct Hh as [[|] _].
  - right. rewrite Hr in *. split; [|done]. intros H. by discriminate (proj2 Hh (or_intror H)).
Qed.

Lemma evaluate_tallied results :
  tallied results (summary (aggregate_start results)) (EvaluateCategoricalState results).
Proof.
  destruct (fold_aggregated results (aggregate_start results)) as [[] _ _ _ _ _]; [done|].
  unfold EvaluateCategoricalState, applyDominanceResolution.
  by destruct (hasHardAntiViolation _); split.
Qed.

(** The five counts and the unrecognised verdicts make up the total. *)
Lemma counts_partition l :
  count (verdict_is VerdictSatisfied) l + count (verdict_is VerdictDegraded) l
  + count (verdict_is VerdictRejected) l + count (verdict_is VerdictQuarantined) l
  + count (verdict_is VerdictHaltViolation) l
  + count (fun r => verdictLatticeRank (Verdict r) ==? 0) l = Z.of_nat (length l).
Proof.
  unfold count. induction l as [|r l IH]; [done|]. cbn [zsum foldr length]. fold (zsum (A := VectorResult)).
  rewrite Nat2Z.inj_succ, <- IH. unfold zsum, verdict_is, verdictLatticeRank.
  destruct (bool_decide_reflect (Verdict r = VerdictHaltViolation)) as [->|]; [simpl; lia|].
  destruct (bool_decide_reflect (Verdict r = VerdictQuarantined)) as [->|]; [simpl; lia|].
  destruct (bool_decide_reflect (Verdict r = VerdictRejected)) as [->|]; [simpl; lia|].
  destruct (bool_decide_reflect (Verdict r = VerdictDegraded)) as [->|]; [simpl; lia|].
  destruct (bool_decide_reflect (Verdict r = VerdictSatisfied)) ; simpl; lia.
Qed.

(** Viability, result by result. *)
Lemma suite_viable_iff results :
  IsViable (EvaluateCategoricalState results) = true
  <-> Forall (fun r => ~ breach r /\ Verdict r <> VerdictHaltViolation) results.
Proof.
  destruct (evaluate_tallied results) as [_ _ _ _ Hh _ _ _]. cbn in Hh.
  pose proof (evaluate_verdict results) as Hv. cbv zeta in Hv. set (s := EvaluateCategoricalState results) in *.
  unfold IsViable. rewrite andb_true_iff, negb_true_iff, bool_decide_eq_false, bool_decide_eq_true.
  assert (HardViolationCount s = 0 <-> Forall (fun r => Verdict r <> VerdictHaltViolation) results) as ->.
  { rewrite Hh. change (0 + ?x) with x. rewrite count_zero. unfold verdict_is.
    by setoid_rewrite bool_decide_eq_false. }
  rewrite Forall_and, (Forall_Exists_neg breach).
  destruct Hv as [(Hb & -> & _)|(Hb & _ & _ & _ & Hat)]; [by split; intros [? _]|].
  split; [tauto|]. intros [_ Hn]. split; [|done]. intros E. rewrite E, Exists_exists in Hat.
  rewrite Forall_forall in Hn. destruct Hat as [|(r & Hin & Hr')]; [done|]. by apply (Hn r).
Qed.

(** C22. The suite never averages a failure away.  It is viable exactly when no
    hard anti-invariant is unsatisfied and no vector halted; a breached hard
    anti-invariant forces the halting verdict, and otherwise the verdict is
    the join of the vectors' verdicts in the lattice.  Every recognised
    verdict is counted once, so the five counters fall short of the total by
    exactly the unrecognised verdicts, and the coverage of a class counts its
    results. *)
Theorem suite_never_averages results :
  let s := EvaluateCategoricalState results in
  (IsViable s = true <-> Forall (fun r => ~ breach r /\ Verdict r <> VerdictHaltViolation) results)
  /\ (Exists breach results -> SummaryVerdict s = VerdictHaltViolation /\ CompositeTrust s = "denied")
  /\ (~ Exists breach results ->
      forall v, 1 <= verdictLatticeRank v ->
      (verdictLatticeRank (SummaryVerdict s) <= verdictLatticeRank v
       <-> Forall (fun r => verdictLatticeRank (Verdict r) <= verdictLatticeRank v) results))
  /\ PassedCount s + DegradedCount s + RejectedCount s + QuarantinedCount s + HardViolationCount s
     + count (fun r => verdictLatticeRank (Verdict r) ==? 0) results = TotalVectors s
  /\ (forall c, default 0 (ClassCoverage s !! c) = count (fun r => RClass r ==? c) results).
Proof.
  intros s. destruct (evaluate_tallied results) as [Hp Hd Hr Hq Hh Ht _ Hc]. fold s in Hp, Hd, Hr, Hq, Hh, Ht, Hc.
  cbn in Hp, Hd, Hr, Hq, Hh, Ht. pose proof (evaluate_verdict results) as Hv. cbv zeta in Hv. fold s in Hv.
  split; [|split; [|split; [|split]]].
  - apply suite_viable_iff.
  - intros Hb. destruct Hv as [(_ & Hs & Hdom)|(Hn & _)]; [|done]. split; [done|].
    revert Hdom. subst s. unfold EvaluateCategoricalState, applyDominanceResolution. by destruct (hasHardAntiViolation _).
  - intros Hb v Hv1. destruct Hv as [(? & _)|(_ & _ & H1 & Hall & Hat)]; [done|]. split.
    + intros Hle. eapply Forall_impl; [exact Hall|]. simpl. lia.
    + intros Hall'. destruct Hat as [->|Hex]; [done|]. rewrite Exists_exists in Hex.
      destruct Hex as (r & Hin & <-). rewrite Forall_forall in Hall'. by apply Hall'.
  - pose proof (counts_partition results). lia.
  - intros c. rewrite Hc. simpl. rewrite lookup_empty. simpl. lia.
Qed.

(** Unrecognised verdicts are counted nowhere and do not lower the verdict. *)
Example unknown_verdict_satisfies :
  let s := EvaluateCategoricalState
             [mkResult "v" "n" ClassPositive SeverityStandard "compromised" no_planes "" "" 0] in
  SummaryVerdict s = VerdictSatisfied /\ CompositeTrust s = "verified" /\ IsViable s = true
  /\ TotalVectors s = 1 /\ PassedCount s = 0.
Proof. vm_compute. done. Qed.

(** ** Properties of the registry and the run *)

Record suite_ok (cs : ConformanceSuite) : Prop := {
  so_ids : NoDup (ID <$> vectors cs);
  so_valid : Forall (fun v => Validate v = None) (vectors cs)
}.

Lemma new_suite_ok : suite_ok NewConformanceSuite.
Proof. split; constructor. Qed.

Lemma Register_ok cs v : suite_ok cs -> suite_ok (fst (Register cs v)).
Proof.
  intros [Hid Hv]. unfold Register. destruct (Validate v) eqn:E; [by split|].
  destruct (existsb _ _) eqn:Ex; [by split|]. split; simpl.
  - rewrite fmap_app. apply NoDup_app. split; [done|]. split; [|apply NoDup_singleton].
    intros id Hin. simpl. rewrite list_elem_of_singleton. intros ->.
    apply list_elem_of_fmap in Hin as (w & Hw & Hin).
    enough (existsb (fun existing => ID existing ==? ID v) (vectors cs) = true) by congruence.
    apply existsb_exists. exists w. split; [by apply list_elem_of_In|]. by apply bool_decide_eq_true.
  - rewrite Forall_app. by repeat constructor.
Qed.

Lemma RegisterMany_ok cs vs : suite_ok cs -> suite_ok (fst (RegisterMany cs vs)).
Proof.
  revert cs. induction vs as [|v vs IH]; intros cs H; [done|]. simpl.
  pose proof (Register_ok cs v H) as H'. destruct (Register cs v) as [cs' [err|]]; [done|]. by apply IH.
Qed.

(** Registering vectors that are valid and new appends them. *)
Lemma RegisterMany_appends cs vs :
  Forall (fun v => Validate v = None) vs -> NoDup (ID <$> (vectors cs ++ vs)) ->
  RegisterMany cs vs = (mkSuite (vectors cs ++ vs), None).
Proof.
  revert cs. induction vs as [|v vs IH]; intros [l] Hv Hd; simpl in *; [by rewrite app_nil_r|].
  inversion_clear Hv as [|? ? Hv1 Hv2]. unfold Register. rewrite Hv1. simpl.
  destruct (existsb _ _) eqn:Ex.
  - apply existsb_exists in Ex as (w & Hin & Hw). apply bool_decide_eq_true in Hw.
    rewrite fmap_app, NoDup_app in Hd. destruct Hd as (_ & Hd & _). exfalso.
    apply (Hd (ID w)); [|rewrite Hw; simpl; left]. apply list_elem_of_fmap. exists w.
    split; [done|]. by apply list_elem_of_In.
  - rewrite IH; simpl; [by rewrite <- app_assoc|done|]. by rewrite <- app_assoc.
Qed.

(** What vector [i] of the run returns. *)
Definition outcome_at (it : nat -> Iteration) (i : nat) (v : ConformanceVector) : option Outcome :=
  exec ← Execute v; Some (exec (execClock (it i))).

(** Every vector answers with a result or an error. *)
Definition answers (it : nat -> Iteration) (cs : ConformanceSuite) : Prop :=
  forall i v, vectors cs !! i = Some v -> outcome_at it i v <> Some (None, None).

Definition result_at (it : nat -> Iteration) (i : nat) (v : ConformanceVector) : option VectorResult :=
  o ← outcome_at it i v; vector_result v o (TimeSub (finish (it i)) (start (it i))).

Lemma result_at_some it i v :
  Validate v = None -> outcome_at it i v <> Some (None, None) -> exists r, result_at it i v = Some r.
Proof.
  unfold result_at, outcome_at, Validate, vector_result. intros Hv Ho. repeat case_bool_decide; try done.
  destruct (Execute v) as [exec|]; [|done]. simpl in *.
  destruct (exec _) as [[r|] [e|]]; simpl; eauto. done.
Qed.

Lemma run_loop_complete it i vs acc :
  (forall k, (k < length vs)%nat -> ctxErr (it (i + k)%nat) = None) ->
  (forall k v, vs !! k = Some v -> exists r, result_at it (i + k) v = Some r) ->
  exists rs, run_loop it i vs acc = Some (inl (acc ++ rs))
    /\ length rs = length vs /\ (forall k v, vs !! k = Some v -> result_at it (i + k) v = rs !! k).
Proof.
  revert i acc. induction vs as [|v vs IH]; intros i acc Hctx Hres; simpl.
  - exists []. rewrite app_nil_r. split; [done|]. split; [done|]. intros [|k] v E; discriminate E.
  - pose proof (Hctx 0%nat ltac:(simpl; lia)) as H0. rewrite Nat.add_0_r in H0. rewrite H0.
    destruct (Hres 0%nat v eq_refl) as [r Hr]. rewrite Nat.add_0_r in Hr.
    pose proof Hr as Hr'. unfold result_at, outcome_at in Hr.
    destruct (Execute v) as [exec|]; [|done]. simpl in *. rewrite Hr. simpl.
    destruct (IH (S i) (acc ++ [r])) as (rs & Hrun & Hlen & Hat).
    + intros k Hk. rewrite Nat.add_succ_comm. apply Hctx. simpl. lia.
    + intros k w Hw. rewrite Nat.add_succ_comm. by apply Hres.
    + exists (r :: rs). rewrite Hrun, <- app_assoc. split; [done|]. split; [simpl; lia|].
      intros [|k] w Hw; simpl in *.
      * rewrite Nat.add_0_r. injection Hw as <-. exact Hr'.
      * rewrite <- Nat.add_succ_comm. by apply Hat.
Qed.

(** A suite filled by registration holds valid vectors of distinct
    identifiers.  When every vector answers with a result or an error and the
    context stays live, a run returns a summary (it neither panics nor
    aborts) of one result per vector in the order of registration, and a
    vector that returned an error makes the suite not viable. *)
Theorem run_complete vs it
  (Hans : answers it (fst (RegisterMany NewConformanceSuite vs)))
  (Hctx : forall i, ctxErr (it i) = None) :
  let cs := fst (RegisterMany NewConformanceSuite vs) in
  NoDup (ID <$> Vectors cs) /\ Forall (fun v => Validate v = None) (Vectors cs)
  /\ exists s, Run it cs = Some (inl s)
     /\ length (Results s) = length (Vectors cs) /\ TotalVectors s = Z.of_nat (length (Vectors cs))
     /\ (forall i v, Vectors cs !! i = Some v -> result_at it i v = Results s !! i)
     /\ (forall i v o err, Vectors cs !! i = Some v -> outcome_at it i v = Some (o, Some err) -> IsViable s = false).
Proof.
  intros cs. destruct (RegisterMany_ok _ vs new_suite_ok) as [Hid Hv]. fold cs in Hid, Hv, Hans.
  split; [done|]. split; [done|].
  destruct (run_loop_complete it 0 (Vectors cs) []) as (rs & Hrun & Hlen & Hat); [by intros; apply Hctx| |].
  { intros k v Hk. apply result_at_some; [|by apply Hans]. rewrite Forall_forall in Hv.
    apply Hv. by eapply list_elem_of_lookup_2. }
  exists (EvaluateCategoricalState rs). unfold Run. rewrite Hrun.
  destruct (evaluate_tallied rs) as [_ _ _ _ _ Ht Hres _]. cbn in Ht, Hres. rewrite Ht, Hres.
  split; [done|]. split; [done|]. split; [by rewrite Hlen|]. split; [exact Hat|].
  intros i v o err Hi Ho. pose proof (Hat i v Hi) as Hr. unfold result_at in Hr.
  rewrite Nat.add_0_l, Ho in Hr. simpl in Hr. destruct (IsViable _) eqn:E; [|done].
  apply suite_viable_iff in E. rewrite Forall_lookup in E.
  by destruct o; destruct (E i _ (eq_sym Hr)) as [_ []].
Qed.

(** A vector that answers and one whose execution fails. *)
Definition w_vector (id : string) (o : Outcome) : ConformanceVector :=
  mkVector id "" ClassPositive SeverityStandard "" "" (Some (fun _ => o)).

Definition w_iteration : nat -> Iteration := fun i => mkIteration None (fun _ => 0) (Z.of_nat i) (Z.of_nat i + 5).

Definition w_vectors : list ConformanceVector :=
  [w_vector "a" (Some (mkResult "a" "" ClassPositive SeverityStandard VerdictSatisfied no_planes "" "" 0), None);
   w_vector "b" (None, Some "boom"); w_vector "a" (None, None)].

Lemma run_complete_witness :
  let cs := fst (RegisterMany NewConformanceSuite w_vectors) in
  answers w_iteration cs /\ (forall i, ctxErr (w_iteration i) = None)
  /\ (ID <$> Vectors cs) = ["a"; "b"] /\ NoDup (ID <$> Vectors cs).
Proof.
  intros cs. assert (answers w_iteration cs) as Hans.
  { intros [|[|i]] v E; vm_compute in E; try discriminate E; injection E as <-; intros H; discriminate H. }
  split; [exact Hans|]. split; [done|]. split; [reflexivity|].
  exact (proj1 (run_complete w_vectors w_iteration Hans (fun _ => eq_refl))).
Defined.

(** A vector that returns neither a result nor an error makes the run panic. *)
Example nil_result_panics :
  Run w_iteration (fst (RegisterMany NewConformanceSuite [w_vector "a" (None, None)])) = None.
Proof. reflexivity. Qed.
