(* ===== verification/ConformanceVectors.v ===== *)
(** * The standard conformance vectors ([internal/conformance])

    [vectors.go], [vectors_hardware.go] and [vectors_evaluator.go]: the
    seventeen vectors, with the constants and tests of their [Execute]
    functions, and the suite of them. *)

From S2P Require Import Prelude Sha256 GoStrings Conformance.
From Stdlib Require Import Ascii.

Definition TargetGLM53EXL3TensorFold : string := "GLM-5.3-EXL3-4x-RTX-PRO-6000-TensorFold".
Definition TargetVLLMNVFP4FlashMLA : string := "vLLM-v0.31.0-NVFP4-FlashMLA".
Definition TargetDecisionEvaluator : string := "DecisionEvaluator".

Definition newline : string := String (byte_of 10) "".

Definition createPositiveGLMVector : ConformanceVector :=
  mkVector "vec-pos-glm53-tensorfold" "GLM-5.3-EXL3 4x RTX PRO 6000 TensorFold Normal Init"
    ClassPositive SeverityStandard TargetGLM53EXL3TensorFold
    "Verifies 4-way TensorFold partitioning of GLM-5.3-EXL3 within 192GB VRAM cap"
    (Some (fun _ =>
        let vramPerGPU := 48 in
        let totalVRAM := 4 * vramPerGPU in
        let modelFootprint := 142 in
        if modelFootprint >? totalVRAM
        then (None, Some ("model footprint " +:+ Itoa modelFootprint +:+ " exceeds VRAM " +:+ Itoa totalVRAM))
        else (Some (mkResult "vec-pos-glm53-tensorfold" "GLM-5.3-EXL3 4x RTX PRO 6000 TensorFold Normal Init" ClassPositive SeverityStandard VerdictSatisfied
         (mkPlanes "active" "verified" "verified" "bound-4x-rtx-6000") (hashString "glm53-exl3-fold4-success")
         "TensorFold partition balanced across 4x RTX PRO 6000 GPUs" 0), None))).

Definition createPositiveVLLMVector : ConformanceVector :=
  mkVector "vec-pos-vllm-nvfp4-flashmla" "vLLM v0.31.0 NVFP4 FlashMLA Execution"
    ClassPositive SeverityStandard TargetVLLMNVFP4FlashMLA
    "Verifies NVFP4 execution on Blackwell with FlashMLA latent attention kernel"
    (Some (fun _ =>
        (Some (mkResult "vec-pos-vllm-nvfp4-flashmla" "vLLM v0.31.0 NVFP4 FlashMLA Execution" ClassPositive SeverityStandard VerdictSatisfied
         (mkPlanes "active" "verified" "verified" "vllm-0.31.0-nvfp4-flashmla") (hashString "vllm-v0.31.0-flashmla-pass")
         "FlashMLA kernel activated with native NVFP4 tensor cores" 0), None))).

Definition createNegativeVLLMVector : ConformanceVector :=
  mkVector "vec-neg-vllm-nvfp4-arch" "vLLM NVFP4 Non-Blackwell Rejection"
    ClassNegative SeverityStandard TargetVLLMNVFP4FlashMLA
    "NVFP4 quantization on incompatible GPU arch is rejected cleanly"
    (Some (fun _ =>
        let gpuArch := "Ada-Lovelace" in
        if gpuArch !=? "Blackwell"
        then (Some (mkResult "vec-neg-vllm-nvfp4-arch" "vLLM NVFP4 Non-Blackwell Rejection" ClassNegative SeverityStandard VerdictRejected
         (mkPlanes "rejected" "untrusted" "verified" "unbound") (hashString "nvfp4-arch-rejected")
         "Cleanly rejected: NVFP4 requires Blackwell tensor core architecture" 0), None)
        else (None, Some "unexpected arch match"))).

Definition createAntiGLMTamperVector : ConformanceVector :=
  mkVector "vec-anti-glm53-tamper" "GLM-5.3 TensorFold Inter-GPU Shard Tampering"
    ClassAnti SeverityHardAnti TargetGLM53EXL3TensorFold
    "Corrupted weight shard across TensorFold GPU nodes forces immediate HALT"
    (Some (fun _ =>
        let shardChecksumValid := false in
        if negb shardChecksumValid
        then (Some (mkResult "vec-anti-glm53-tamper" "GLM-5.3 TensorFold Inter-GPU Shard Tampering" ClassAnti SeverityHardAnti VerdictHaltViolation
         (mkPlanes "halted" "denied" "compromised" "isolated") (hashString "anti-glm53-shard-tamper")
         "Hard Anti-Invariant Violation: Inter-GPU TensorFold shard checksum corrupted" 0), None)
        else (None, Some "unexpected valid checksum"))).

Definition createAntiVLLMBypassVector : ConformanceVector :=
  mkVector "vec-anti-vllm-nvfp4-bypass" "vLLM NVFP4 Scale Factor Hardware Clamp Bypass"
    ClassAnti SeverityHardAnti TargetVLLMNVFP4FlashMLA
    "Adversarial payload attempting to bypass FP4 tensor limits triggers HALT"
    (Some (fun _ =>
        let payloadBypassAttempt := true in
        if payloadBypassAttempt
        then (Some (mkResult "vec-anti-vllm-nvfp4-bypass" "vLLM NVFP4 Scale Factor Hardware Clamp Bypass" ClassAnti SeverityHardAnti VerdictHaltViolation
         (mkPlanes "halted" "denied" "compromised" "isolated") (hashString "anti-vllm-clamp-bypass")
         "Hard Anti-Invariant Violation: FP4 scale-factor clamp bypass detected" 0), None)
        else (None, Some "unexpected non-bypass"))).

Definition createDegradationFlashMLAVector : ConformanceVector :=
  mkVector "vec-deg-flashmla-kv-fragmentation" "FlashMLA Latent Cache Fragmentation Degradation"
    ClassDegradation SeverityDegradable TargetVLLMNVFP4FlashMLA
    "Under extreme KV cache fragmentation, FlashMLA degrades to chunked attention"
    (Some (fun _ =>
        (Some (mkResult "vec-deg-flashmla-kv-fragmentation" "FlashMLA Latent Cache Fragmentation Degradation" ClassDegradation SeverityDegradable VerdictDegraded
         (mkPlanes "degraded" "asserted" "verified" "chunked-fallback") (hashString "flashmla-degradation-graceful")
         "Graceful degradation: FlashMLA shifted to chunked prefill under fragmentation" 0), None))).

Definition createRecoveryTensorFoldVector : ConformanceVector :=
  mkVector "vec-rec-tensorfold-pcie-reset" "GLM-5.3 TensorFold PCIe Bus Reset Recovery"
    ClassRecovery SeverityStandard TargetGLM53EXL3TensorFold
    "Recovers 4x RTX PRO 6000 ring topology following PCIe link transient drop"
    (Some (fun _ =>
        (Some (mkResult "vec-rec-tensorfold-pcie-reset" "GLM-5.3 TensorFold PCIe Bus Reset Recovery" ClassRecovery SeverityStandard VerdictSatisfied
         (mkPlanes "active" "verified" "verified" "bound-4x-rtx-6000") (hashString "tensorfold-recovery-pass")
         "TensorFold inter-GPU ring restored and synchronized within recovery bound" 0), None))).

Definition createRaceFlashMLAVector : ConformanceVector :=
  mkVector "vec-race-flashmla-kv-alloc" "FlashMLA Concurrent Dynamic KV Allocation"
    ClassRace SeverityStandard TargetVLLMNVFP4FlashMLA
    "Concurrent requests allocating latent MLA KV blocks without race condition"
    (Some (fun _ =>
        (Some (mkResult "vec-race-flashmla-kv-alloc" "FlashMLA Concurrent Dynamic KV Allocation" ClassRace SeverityStandard VerdictSatisfied
         (mkPlanes "active" "verified" "verified" "atomic-kv-alloc") (hashString "flashmla-race-free-alloc")
         "Atomic latent cache reservation preserved invariance under 32 parallel requests" 0), None))).

Definition createSaturationGLMVector : ConformanceVector :=
  mkVector "vec-sat-glm53-queue-overflow" "GLM-5.3 4x RTX PRO 6000 Request Queue Saturation"
    ClassSaturation SeverityStandard TargetGLM53EXL3TensorFold
    "Queue saturation triggers backpressure without OOM kill or thread starvation"
    (Some (fun _ =>
        (Some (mkResult "vec-sat-glm53-queue-overflow" "GLM-5.3 4x RTX PRO 6000 Request Queue Saturation" ClassSaturation SeverityStandard VerdictSatisfied
         (mkPlanes "active" "verified" "verified" "backpressure-active") (hashString "glm53-saturation-backpressure")
         "Controlled backpressure activated: 503 retry-after emitted, 0 OOM kills" 0), None))).

Definition createValidButWrongFoldVector : ConformanceVector :=
  mkVector "vec-vbw-glm53-5fold-on-4gpu" "GLM-5.3 Valid-But-Wrong 5-Fold Partition on 4 GPUs"
    ClassValidButWrong SeverityStandard TargetGLM53EXL3TensorFold
    "Syntactically valid TensorFold spec with 5 fold partitions on 4 cards rejected"
    (Some (fun _ =>
        let foldCount := 5 in
        let gpuCount := 4 in
        if Z.rem foldCount gpuCount !=? 0
        then (Some (mkResult "vec-vbw-glm53-5fold-on-4gpu" "GLM-5.3 Valid-But-Wrong 5-Fold Partition on 4 GPUs" ClassValidButWrong SeverityStandard VerdictRejected
         (mkPlanes "rejected" "untrusted" "verified" "unbound") (hashString "valid-but-wrong-fold-rejected")
         "Rejected: TensorFold partition count 5 indivisible by physical GPU count 4" 0), None)
        else (None, Some "unexpected divisible fold count"))).

Definition createPositiveEvaluatorVector : ConformanceVector :=
  mkVector "vec-pos-evaluator" "Decision Evaluator Standard Validation"
    ClassPositive SeverityStandard TargetDecisionEvaluator
    "Decision evaluator confirms safety score >= 5 and valid attestation receipt"
    (Some (fun _ =>
        (Some (mkResult "vec-pos-evaluator" "Decision Evaluator Standard Validation" ClassPositive SeverityStandard VerdictSatisfied
         (mkPlanes "active" "verified" "verified" "policy-envelope-strict") (hashString "evaluator-safe-8-verified")
         "Evaluator confirmed safety score 8/10 with valid signature" 0), None))).

Definition createNegativeEvaluatorVector : ConformanceVector :=
  mkVector "vec-neg-evaluator-missing-sbom" "Decision Evaluator Missing SBOM Rejection"
    ClassNegative SeverityStandard TargetDecisionEvaluator
    "Rejects adapter missing CycloneDX SBOM digest"
    (Some (fun _ =>
        let hasSBOM := false in
        if negb hasSBOM
        then (Some (mkResult "vec-neg-evaluator-missing-sbom" "Decision Evaluator Missing SBOM Rejection" ClassNegative SeverityStandard VerdictRejected
         (mkPlanes "rejected" "untrusted" "unverified" "unbound") (hashString "evaluator-missing-sbom-rejected")
         "Cleanly rejected: missing required CycloneDX SBOM attestation" 0), None)
        else (None, Some "unexpected sbom presence"))).

Definition createAntiEvaluatorForbiddenTupleVector : ConformanceVector :=
  mkVector "vec-anti-evaluator-forbidden-tuple" "Decision Evaluator Forbidden Tuple anti_execute"
    ClassAnti SeverityHardAnti TargetDecisionEvaluator
    "anti_execute (anti status attempting active execution) triggers immediate HALT"
    (Some (fun _ =>
        let isAnti := true in
        let isExecute := true in
        if isAnti && isExecute
        then (Some (mkResult "vec-anti-evaluator-forbidden-tuple" "Decision Evaluator Forbidden Tuple anti_execute" ClassAnti SeverityHardAnti VerdictHaltViolation
         (mkPlanes "halted" "denied" "compromised" "isolated") (hashString "anti-execute-forbidden-tuple")
         "Hard Anti-Invariant Violation: forbidden tuple anti_execute breached" 0), None)
        else (None, Some "unexpected valid state"))).

Definition createTemporalExpiryVector : ConformanceVector :=
  mkVector "vec-temp-evaluator-lease-expired" "Decision Evaluator Attestation Lease Expiry"
    ClassTemporal SeverityStandard TargetDecisionEvaluator
    "Rejects expired attestation receipt exceeding 24h validity TTL"
    (Some (fun clock =>
        let ttlWindow := 24 * Hour in
        let issuedAt := TimeAdd (clock 0%nat) (-48 * Hour) in
        if TimeSub (clock 1%nat) issuedAt >? ttlWindow
        then (Some (mkResult "vec-temp-evaluator-lease-expired" "Decision Evaluator Attestation Lease Expiry" ClassTemporal SeverityStandard VerdictRejected
         (mkPlanes "expired" "untrusted" "unverified" "unbound") (hashString "temporal-ttl-expired")
         "Temporal invariant preserved: expired attestation lease cleanly rejected" 0), None)
        else (None, Some "unexpected active lease"))).

Definition createMetamorphicEvaluatorVector : ConformanceVector :=
  mkVector "vec-meta-evaluator-whitespace" "Decision Evaluator Metamorphic Whitespace Invariance"
    ClassMetamorphic SeverityStandard TargetDecisionEvaluator
    "Prompt whitespace permutation produces metamorphic invariance in policy decision"
    (Some (fun _ =>
        let p1 := "system: admit model" +:+ newline +:+ "request: vllm-eval" in
        let p2 := "system: admit model  " +:+ newline +:+ "  request: vllm-eval  " in
        let policyScoreP1 := Z.of_nat (length (Fields p1)) in
        let policyScoreP2 := Z.of_nat (length (Fields p2)) in
        if policyScoreP1 ==? policyScoreP2
        then (Some (mkResult "vec-meta-evaluator-whitespace" "Decision Evaluator Metamorphic Whitespace Invariance" ClassMetamorphic SeverityStandard VerdictSatisfied
         (mkPlanes "active" "verified" "verified" "metamorphic-verified") (hashString "metamorphic-whitespace-invariance")
         "Metamorphic transformation confirmed: policy score preserved across formatting" 0), None)
        else (None, Some "metamorphic violation"))).

Definition createSilenceMissingReceiptVector : ConformanceVector :=
  mkVector "vec-silence-missing-inference-receipt" "Evidence Plane Silence Missing Inference Receipt"
    ClassSilence SeverityStandard TargetDecisionEvaluator
    "Inference response returned without mandatory evidence receipt caught as silent drop"
    (Some (fun _ =>
        let receiptEmitted := false in
        if negb receiptEmitted
        then (Some (mkResult "vec-silence-missing-inference-receipt" "Evidence Plane Silence Missing Inference Receipt" ClassSilence SeverityStandard VerdictRejected
         (mkPlanes "degraded" "untrusted" "unverified" "unbound") (hashString "silence-missing-receipt-caught")
         "Silence detected: completed inference omitted mandatory InferenceReceipt" 0), None)
        else (None, Some "unexpected receipt emission"))).

Definition createCounterfactualReplayVector : ConformanceVector :=
  mkVector "vec-cfr-evaluator-threshold-replay" "Decision Evaluator Counterfactual Policy Replay"
    ClassCounterfactualReplay SeverityStandard TargetDecisionEvaluator
    "Replaying historical trace with stricter safety threshold deterministically denies"
    (Some (fun _ =>
        let historicalSafetyScore := 7 in
        let counterfactualMinSafety := 9 in
        if historicalSafetyScore <? counterfactualMinSafety
        then (Some (mkResult "vec-cfr-evaluator-threshold-replay" "Decision Evaluator Counterfactual Policy Replay" ClassCounterfactualReplay SeverityStandard VerdictSatisfied
         (mkPlanes "active" "verified" "verified" "counterfactual-replayed") (hashString "cfr-threshold-deterministic-deny")
         "Counterfactual replay verified: alternate threshold shifted decision from allow to deny" 0), None)
        else (None, Some "unexpected counterfactual outcome"))).

Definition standard_vectors : list ConformanceVector :=
  [createPositiveGLMVector;
   createPositiveVLLMVector;
   createPositiveEvaluatorVector;
   createNegativeVLLMVector;
   createNegativeEvaluatorVector;
   createAntiGLMTamperVector;
   createAntiVLLMBypassVector;
   createAntiEvaluatorForbiddenTupleVector;
   createTemporalExpiryVector;
   createDegradationFlashMLAVector;
   createRecoveryTensorFoldVector;
   createRaceFlashMLAVector;
   createMetamorphicEvaluatorVector;
   createSaturationGLMVector;
   createValidButWrongFoldVector;
   createSilenceMissingReceiptVector;
   createCounterfactualReplayVector].

Definition Standard12ClassSuite : ConformanceSuite + Err :=
  match RegisterMany NewConformanceSuite standard_vectors with
  | (suite, None) => inl suite
  | (_, Some err) => inr err
  end.

(** The verdict each vector is written to return, in the order of the suite. *)
Definition standard_verdicts : list CategoricalVerdict :=
  [VerdictSatisfied; VerdictSatisfied; VerdictSatisfied; VerdictRejected; VerdictRejected;
   VerdictHaltViolation; VerdictHaltViolation; VerdictHaltViolation; VerdictRejected; VerdictDegraded;
   VerdictSatisfied; VerdictSatisfied; VerdictSatisfied; VerdictSatisfied; VerdictRejected;
   VerdictRejected; VerdictSatisfied].

Lemma standard_outcomes it i v :
  standard_vectors !! i = Some v -> execClock (it i) 0%nat <= execClock (it i) 1%nat ->
  exists r, outcome_at it i v = Some (Some r, None)
    /\ RClass r = Class v /\ RSeverity r = Severity v
    /\ standard_verdicts !! i = Some (Verdict r).
Proof.
  intros Hi Hclock.
  do 17 (destruct i as [|i];
    [injection Hi as <-;
     first [eexists; split; [reflexivity|]; by repeat split
           |unfold outcome_at; simpl; rewrite bool_decide_true;
            [eexists; split; [reflexivity|]; by repeat split
            |apply Z.lt_le_trans with (m := 48 * Hour); [done|]; apply TimeSub_ge; [done|]; unfold TimeAdd, Hour; lia]]|]).
  discriminate Hi.
Qed.

Lemma standard_registered :
  RegisterMany NewConformanceSuite standard_vectors = (mkSuite standard_vectors, None).
Proof.
  apply RegisterMany_appends; [by repeat constructor|].
  apply (bool_decide_unpack _). reflexivity.
Qed.

(** A count of verdicts depends on the verdicts only. *)
Lemma count_verdicts v l :
  count (verdict_is v) l = zsum (fun w => if w ==? v then 1 else 0) (Verdict <$> l).
Proof. unfold count, verdict_is. induction l as [|r l IH]; simpl; [done|]. by rewrite IH. Qed.

Lemma VectorsByClass_nonempty cs c : VectorsByClass cs c <> [] <-> c ∈ Class <$> vectors cs.
Proof.
  unfold VectorsByClass. induction (vectors cs) as [|v l IH]; simpl.
  - split; [done|]. by intros ?%not_elem_of_nil.
  - rewrite elem_of_cons, <- IH. case_bool_decide; simpl; [|naive_solver]. split; [auto|done].
Qed.

Lemma standard_classes c :
  c ∈ AllConformanceClasses <-> VectorsByClass (mkSuite standard_vectors) c <> [].
Proof.
  rewrite VectorsByClass_nonempty.
  assert (Forall (fun c => c ∈ Class <$> standard_vectors) AllConformanceClasses) as H1
    by (apply (bool_decide_unpack _); vm_compute; exact Logic.I).
  assert (Forall (fun c => c ∈ AllConformanceClasses) (Class <$> standard_vectors)) as H2
    by (apply (bool_decide_unpack _); vm_compute; exact Logic.I).
  rewrite Forall_forall in H1, H2. split; auto.
Qed.

(** The results of a run that is not cancelled. *)
Lemma standard_run it :
  (forall i, ctxErr (it i) = None) -> (forall i, execClock (it i) 0%nat <= execClock (it i) 1%nat) ->
  exists rs, Run it (mkSuite standard_vectors) = Some (inl (EvaluateCategoricalState rs))
    /\ Verdict <$> rs = standard_verdicts
    /\ Exists breach rs.
Proof.
  intros Hctx Hclock.
  assert (forall i v, standard_vectors !! i = Some v -> exists r, result_at it i v = Some r
    /\ RSeverity r = Severity v /\ standard_verdicts !! i = Some (Verdict r)) as Hres.
  { intros i v Hi. destruct (standard_outcomes it i v Hi (Hclock i)) as (r & Ho & _ & Hs & Hv).
    unfold result_at. rewrite Ho. simpl. eexists. by split. }
  destruct (run_loop_complete it 0 standard_vectors []) as (rs & Hrun & Hlen & Hat); [by intros; apply Hctx| |].
  { intros k v Hk. destruct (Hres k v Hk) as (r & ? & _). by exists r. }
  assert (forall i v, standard_vectors !! i = Some v -> exists r, rs !! i = Some r
    /\ RSeverity r = Severity v /\ standard_verdicts !! i = Some (Verdict r)) as Hrs.
  { intros i v Hi. rewrite <- (Hat i v Hi). by apply Hres. }
  exists rs. split; [unfold Run; change (Vectors _) with standard_vectors; by rewrite Hrun|]. split.
  - apply (list_eq_same_length _ _ 17); [done|by rewrite length_fmap, Hlen|].
    intros i x y Hi Hx Hy. destruct (lookup_lt_is_Some_2 standard_vectors i Hi) as [v Hv].
    destruct (Hrs i v Hv) as (r & Hr & _ & Hverd). rewrite list_lookup_fmap, Hr in Hx.
    simpl in Hx. congruence.
  - destruct (Hrs 5%nat _ eq_refl) as (r & Hr & Hs & Hv). apply Exists_exists. exists r.
    split; [by eapply list_elem_of_lookup_2|]. split; [done|]. by injection Hv as <-.
Qed.

(** The standard suite registers its seventeen vectors without an error
    and covers each of the twelve conformance classes, and whatever the clock
    shows (as long as it does not run backwards) a run that is not cancelled
    ends with eight passed, one degraded, five rejected and three halted
    vectors: the verdict is always the halting one and the suite is never
    viable, because its hard anti-invariant vectors report what they detect as
    a halting verdict of their own. *)
Theorem standard_suite_outcome it
  (Hctx : forall i, ctxErr (it i) = None)
  (Hclock : forall i, execClock (it i) 0%nat <= execClock (it i) 1%nat) :
  exists suite s, Standard12ClassSuite = inl suite
    /\ (forall c, c ∈ AllConformanceClasses <-> VectorsByClass suite c <> [])
    /\ Run it suite = Some (inl s)
    /\ TotalVectors s = 17 /\ PassedCount s = 8 /\ DegradedCount s = 1 /\ RejectedCount s = 5
    /\ QuarantinedCount s = 0 /\ HardViolationCount s = 3
    /\ SummaryVerdict s = VerdictHaltViolation /\ IsViable s = false.
Proof.
  pose proof (standard_run it Hctx Hclock) as (rs & Hrun & Hv & Hb).
  destruct (evaluate_tallied rs) as [Hp Hd Hr Hq Hh Ht _ _]. cbn in Hp, Hd, Hr, Hq, Hh, Ht.
  assert (length rs = 17%nat) as Hlen by (by rewrite <- (length_fmap Verdict), Hv).
  rewrite count_verdicts, Hv in Hp, Hd, Hr, Hq, Hh. rewrite Hlen in Ht.
  exists (mkSuite standard_vectors), (EvaluateCategoricalState rs).
  unfold Standard12ClassSuite. rewrite standard_registered, Hp, Hd, Hr, Hq, Hh, Ht, Hrun.
  split; [done|]. split; [apply standard_classes|]. do 7 (split; [done|]). split.
  - by destruct (evaluate_verdict rs) as [(_ & H & _)|(H & _)].
  - destruct (IsViable _) eqn:E; [|done]. apply suite_viable_iff in E. rewrite Forall_and in E.
    destruct E as [E _]. by rewrite Forall_Exists_neg in E.
Qed.

Definition w_clock : nat -> Iteration :=
  fun i => mkIteration None (fun k => 1000 * Hour + Z.of_nat k) (Z.of_nat i) (Z.of_nat i + 7).

Lemma standard_suite_outcome_witness :
  exists suite s, Standard12ClassSuite = inl suite /\ Run w_clock suite = Some (inl s) /\ IsViable s = false.
Proof.
  destruct (standard_suite_outcome w_clock) as (suite & s & H1 & _ & H2 & _ & _ & _ & _ & _ & _ & _ & H3);
    [done|simpl; lia|]. by exists suite, s.
Defined.
