(* ===== verification/GoTime.v ===== *)
(** * Calendar dates of Go's [time] package

    [time.Parse("2006-01-02", s)]: four digits, two digits and two digits
    separated by dashes, with the month and the day in range; the result is
    midnight UTC of that day.  Instants are as in [Prelude]: nanoseconds
    since January 1 of year 1. *)

From S2P Require Import Prelude.
From Stdlib Require Import Ascii.

Definition Day : Duration := 24 * Hour.

Definition is_leap (y : Z) : bool := (y mod 4 ==? 0) && ((y mod 100 !=? 0) || (y mod 400 ==? 0)).

Definition days_in (y m : Z) : Z :=
  if m ==? 2 then (if is_leap y then 29 else 28)
  else if (m ==? 4) || (m ==? 6) || (m ==? 9) || (m ==? 11) then 30
  else 31.

(** Days from January 1 of year 1 to January 1 of year [y]. *)
Definition days_before_year (y : Z) : Z :=
  let n := y - 1 in 365 * n + n / 4 - n / 100 + n / 400.

Definition days_before_month (y m : Z) : Z :=
  zsum (fun k => days_in y (Z.of_nat k)) (seq 1 (Z.to_nat (m - 1))).

Definition date (y m d : Z) : Time := Day * (days_before_year y + days_before_month y m + (d - 1)).

Definition digit (c : ascii) : option Z := if is_digit c then Some (code c - 48) else None.

Definition ParseDate (s : string) : option Time :=
  match s with
  | String y1 (String y2 (String y3 (String y4 (String d1 (String m1 (String m2
      (String d2 (String a1 (String a2 EmptyString))))))))) =>
      if (code d1 ==? 45) && (code d2 ==? 45) then
        y1 ← digit y1; y2 ← digit y2; y3 ← digit y3; y4 ← digit y4;
        m1 ← digit m1; m2 ← digit m2; a1 ← digit a1; a2 ← digit a2;
        let y := 1000 * y1 + 100 * y2 + 10 * y3 + y4 in
        let m := 10 * m1 + m2 in
        let d := 10 * a1 + a2 in
        if (1 <=? m) && (m <=? 12) && (1 <=? d) && (d <=? days_in y m) then Some (date y m d) else None
      else None
  | _ => None
  end.

(** The Unix epoch is 62135596800 seconds after the zero time. *)
Example parse_dates :
  ParseDate "1970-01-01" = Some (62135596800 * Second) /\ ParseDate "0001-01-01" = Some 0
  /\ ParseDate "2024-02-29" = Some ((62135596800 + 1709164800) * Second)
  /\ ParseDate "2023-02-29" = None /\ ParseDate "2023-13-01" = None /\ ParseDate "2023-1-01" = None.
Proof. vm_compute. done. Qed.

(** The calendar is consistent: a year is as long as its months, and each
    month starts where the one before it ends. *)
Lemma days_in_year y : 0 <= y ->
  days_before_year (y + 1) - days_before_year y = (if is_leap y then 366 else 365)
  /\ days_before_month y 13 = (if is_leap y then 366 else 365).
Proof.
  intros Hy. split.
  - unfold days_before_year, is_leap. replace (y + 1 - 1) with y by lia.
    repeat case_bool_decide; simpl; Z.div_mod_to_equations; lia.
  - unfold days_before_month, days_in. simpl. destruct (is_leap y); reflexivity.
Qed.

(** [t.UTC().Format(time.RFC3339Nano)]: the civil date of the day, found in
    the 400-year cycle that starts on March 1, then the time of day and the
    fraction without its trailing zeros. *)
Definition civil (t : Time) : Z * Z * Z :=
  let z := t / Day + 306 in
  let era := z / 146097 in
  let doe := z mod 146097 in
  let yoe := (doe - doe / 1460 + doe / 36524 - doe / 146096) / 365 in
  let doy := doe - (365 * yoe + yoe / 4 - yoe / 100) in
  let mp := (5 * doy + 2) / 153 in
  let d := doy - (153 * mp + 2) / 5 + 1 in
  let m := if mp <? 10 then mp + 3 else mp - 9 in
  (yoe + 400 * era + (if m <=? 2 then 1 else 0), m, d).

Fixpoint zero_pad (n : nat) (s : string) : string :=
  match n with
  | O => s
  | S n => if Z.of_nat (String.length s) <? Z.of_nat (S n) then String (byte_of 48) (zero_pad n s) else s
  end.

Fixpoint trim_zeros (s : string) : string :=
  match s with
  | EmptyString => EmptyString
  | String c s => let r := trim_zeros s in if (r ==? "") && (code c ==? 48) then "" else String c r
  end.

Definition RFC3339Nano (t : Time) : string :=
  let '(y, m, d) := civil t in
  let s := t mod Day in
  let frac := trim_zeros (zero_pad 9 (Itoa (s mod Second))) in
  zero_pad 4 (Itoa y) +:+ "-" +:+ zero_pad 2 (Itoa m) +:+ "-" +:+ zero_pad 2 (Itoa d) +:+ "T"
  +:+ zero_pad 2 (Itoa (s / Hour)) +:+ ":" +:+ zero_pad 2 (Itoa (s / Minute mod 60)) +:+ ":"
  +:+ zero_pad 2 (Itoa (s / Second mod 60)) +:+ (if frac ==? "" then "" else "." +:+ frac) +:+ "Z".

Definition UnixNano (t : Time) : Z := i64_wrap (t - unix_epoch).

Example rfc3339nano_examples :
  RFC3339Nano unix_epoch = "1970-01-01T00:00:00Z" /\ RFC3339Nano 0 = "0001-01-01T00:00:00Z"
  /\ RFC3339Nano (date 2024 2 29 + 13 * Hour + 5 * Minute + 9 * Second + 120000000) = "2024-02-29T13:05:09.12Z"
  /\ RFC3339Nano (date 2026 12 31 + 1) = "2026-12-31T00:00:00.000000001Z".
Proof. vm_compute. done. Qed.

(** ** [time.Parse(time.RFC3339Nano, s)] with a result in UTC

    Only the suffix [Z] gives UTC.  The hour may have one digit, the fraction
    starts with a period or a comma. *)

(** Digits and the rest: [n] digits exactly. *)
Fixpoint take_digits (n : nat) (v : Z) (s : string) : option (Z * string) :=
  match n, s with
  | O, _ => Some (v, s)
  | S n, String c s => d ← digit c; take_digits n (10 * v + d) s
  | S _, EmptyString => None
  end.

Definition take_char (z : Z) (s : string) : option string :=
  match s with String c s => if code c ==? z then Some s else None | EmptyString => None end.

Fixpoint skip_digits (s : string) : string :=
  match s with String c s' => if is_digit c then skip_digits s' else s | EmptyString => s end.

Definition take_hour (s : string) : option (Z * string) :=
  match take_digits 2 0 s with Some r => Some r | None => take_digits 1 0 s end.

(** A fraction needs a digit after its separator. *)
Definition skip_fraction (s : string) : string :=
  match s with
  | String sep (String d rest) =>
      if ((code sep ==? 46) || (code sep ==? 44)) && is_digit d then skip_digits rest else s
  | _ => s
  end.

Definition rfc3339_utc (s : string) : bool :=
  match
    '(y, s) ← take_digits 4 0 s; s ← take_char 45 s; '(m, s) ← take_digits 2 0 s; s ← take_char 45 s;
    '(d, s) ← take_digits 2 0 s; s ← take_char 84 s; '(h, s) ← take_hour s; s ← take_char 58 s;
    '(mi, s) ← take_digits 2 0 s; s ← take_char 58 s; '(se, s) ← take_digits 2 0 s;
    Some ((1 <=? m) && (m <=? 12) && (1 <=? d) && (d <=? days_in y m) && (h <? 24) && (mi <? 60) && (se <? 60)
          && (skip_fraction s ==? "Z"))
  with Some b => b | None => false end.

Example rfc3339_utc_examples :
  rfc3339_utc "2024-02-29T13:05:09.12Z" = true /\ rfc3339_utc "2023-02-29T13:05:09Z" = false
  /\ rfc3339_utc "2024-02-29T13:05:09+00:00" = false /\ rfc3339_utc "2024-02-29T3:05:09,5Z" = true
  /\ rfc3339_utc "2024-02-29T24:05:09Z" = false /\ rfc3339_utc "2024-02-29 13:05:09Z" = false
  /\ rfc3339_utc "2024-02-29T13:05:09.Z" = false.
Proof. vm_compute. done. Qed.
