(* ===== verification/AIPack.v ===== *)
(** * AIPack artifacts ([internal/aipack], [api/v1alpha2/aipack_*_types.go])

    The kind, family, media-type, predicate and slot tables, and the
    validators over them: references, compositions, predicates, policy
    bundles, risk valence, and the operational gateway checks.  An error is an
    [AIPackError] under the prefix that [fmt.Errorf] wrapped around it.
    Parts of a package's spec that no validator reads are left out of the
    records.  The conversion of a float to [int] is an argument, because the
    language leaves it open for values out of range. *)

From S2P Require Import Prelude GoFloat GoTime GoStrings.
From Stdlib Require Import Ascii.

(** ** Constants and tables *)

Definition ArtifactKind := string.
Definition KindBaseModel : ArtifactKind := "BaseModel".
Definition KindLoRA : ArtifactKind := "LoRA".
Definition KindFineTune : ArtifactKind := "FineTune".
Definition KindSkill : ArtifactKind := "Skill".
Definition KindTool : ArtifactKind := "Tool".
Definition KindMCPServer : ArtifactKind := "MCPServer".
Definition KindPromptTemplate : ArtifactKind := "PromptTemplate".
Definition KindGuardrail : ArtifactKind := "Guardrail".
Definition KindRetrievalIndex : ArtifactKind := "RetrievalIndex".
Definition KindDataset : ArtifactKind := "Dataset".
Definition KindHarness : ArtifactKind := "Harness".
Definition KindEval : ArtifactKind := "Eval".
Definition KindWorkflow : ArtifactKind := "Workflow".
Definition KindPolicyBundle : ArtifactKind := "PolicyBundle".
Definition KindAgent : ArtifactKind := "Agent".

Definition ArtifactFamily := string.
Definition FamilyModel : ArtifactFamily := "model".
Definition FamilyCapability : ArtifactFamily := "capability".
Definition FamilyControl : ArtifactFamily := "control".
Definition FamilyKnowledge : ArtifactFamily := "knowledge".
Definition FamilyAssurance : ArtifactFamily := "assurance".
Definition FamilyComposite : ArtifactFamily := "composite".

Definition RVBand := string.
Definition RVBandGreen : RVBand := "GREEN".
Definition RVBandYellow : RVBand := "YELLOW".
Definition RVBandOrange : RVBand := "ORANGE".
Definition RVBandRed : RVBand := "RED".

Definition PredSLSAProvenance : string := "slsa.dev/provenance/v1".
Definition PredCycloneDXBOM : string := "cyclonedx.org/bom".
Definition PredAIBOM : string := "urn:aibom:spec:v1.5".
Definition PredTrainingResidency : string := "urn:model:training-residency:v1".
Definition PredLoRABaseRef : string := "urn:lora:base-ref:v1".
Definition PredLoRAHyperparams : string := "urn:lora:hyperparameters:v1".
Definition PredFineTuneHyperparams : string := "urn:finetune:hyperparameters:v1".
Definition PredFineTuneBaseCompat : string := "urn:finetune:base-compat:v1".
Definition PredSkillSafetyReview : string := "urn:skill:safety-review:v1".
Definition PredSkillCapabilityDeclaration : string := "urn:skill:capability-declaration:v1".
Definition PredSkillStaticAnalysis : string := "urn:skill:static-analysis:v1".
Definition PredToolSchemaValidation : string := "urn:tool:schema-validation:v1".
Definition PredToolStaticAnalysis : string := "urn:tool:static-analysis:v1".
Definition PredMCPSandboxPolicy : string := "urn:mcp:sandbox-policy:v1".
Definition PredMCPToolList : string := "urn:mcp:tool-list:v1".
Definition PredPromptContentHash : string := "urn:prompt:content-hash:v1".
Definition PredPromptJailbreakResistance : string := "urn:prompt:jailbreak-resistance:v1".
Definition PredGuardrailCoverageTest : string := "urn:guardrail:coverage-test:v1".
Definition PredGuardrailFPR : string := "urn:guardrail:fpr:v1".
Definition PredRetrievalPIIScan : string := "urn:retrieval:pii-scan:v1".
Definition PredRetrievalEmbedRef : string := "urn:retrieval:embedding-ref:v1".
Definition PredDatasetProvenance : string := "urn:dataset:provenance:v1".
Definition PredDatasetConsent : string := "urn:dataset:consent:v1".
Definition PredDatasetLicensing : string := "urn:dataset:licensing:v1".
Definition PredHarnessMethodology : string := "urn:eval-suite:methodology:v1".
Definition PredHarnessReproducibility : string := "urn:eval-suite:reproducibility:v1".
Definition PredAgentComposition : string := "urn:agent:composition:v1".
Definition PredAgentBehavioralEval : string := "urn:agent:behavioral-eval:v1".
Definition PredAgentPolicyCompliance : string := "urn:agent:policy-compliance:v1".

Definition KindFamilyMap : gmap ArtifactKind ArtifactFamily := list_to_map
  [(KindBaseModel, FamilyModel);
   (KindLoRA, FamilyModel);
   (KindFineTune, FamilyModel);
   (KindSkill, FamilyCapability);
   (KindTool, FamilyCapability);
   (KindMCPServer, FamilyCapability);
   (KindWorkflow, FamilyCapability);
   (KindPromptTemplate, FamilyControl);
   (KindGuardrail, FamilyControl);
   (KindPolicyBundle, FamilyControl);
   (KindRetrievalIndex, FamilyKnowledge);
   (KindDataset, FamilyKnowledge);
   (KindHarness, FamilyAssurance);
   (KindEval, FamilyAssurance);
   (KindAgent, FamilyComposite)].

Definition requiredPredicates : gmap ArtifactKind (list string) := list_to_map
  [(KindBaseModel, [PredSLSAProvenance; PredCycloneDXBOM; PredAIBOM; PredTrainingResidency]);
   (KindLoRA, [PredSLSAProvenance; PredCycloneDXBOM; PredLoRABaseRef; PredLoRAHyperparams]);
   (KindFineTune, [PredSLSAProvenance; PredCycloneDXBOM; PredFineTuneHyperparams; PredFineTuneBaseCompat]);
   (KindSkill, [PredSLSAProvenance; PredCycloneDXBOM; PredSkillSafetyReview; PredSkillCapabilityDeclaration; PredSkillStaticAnalysis]);
   (KindTool, [PredSLSAProvenance; PredCycloneDXBOM; PredToolSchemaValidation; PredToolStaticAnalysis]);
   (KindMCPServer, [PredSLSAProvenance; PredCycloneDXBOM; PredMCPSandboxPolicy; PredMCPToolList]);
   (KindPromptTemplate, [PredSLSAProvenance; PredCycloneDXBOM; PredPromptContentHash; PredPromptJailbreakResistance]);
   (KindGuardrail, [PredSLSAProvenance; PredCycloneDXBOM; PredGuardrailCoverageTest; PredGuardrailFPR]);
   (KindRetrievalIndex, [PredSLSAProvenance; PredCycloneDXBOM; PredRetrievalPIIScan; PredRetrievalEmbedRef]);
   (KindDataset, [PredSLSAProvenance; PredCycloneDXBOM; PredDatasetProvenance; PredDatasetConsent; PredDatasetLicensing]);
   (KindHarness, [PredSLSAProvenance; PredCycloneDXBOM; PredHarnessMethodology; PredHarnessReproducibility]);
   (KindEval, [PredSLSAProvenance; PredCycloneDXBOM]);
   (KindWorkflow, [PredSLSAProvenance; PredCycloneDXBOM]);
   (KindPolicyBundle, [PredSLSAProvenance; PredCycloneDXBOM]);
   (KindAgent, [PredSLSAProvenance; PredCycloneDXBOM; PredAgentComposition; PredAgentBehavioralEval; PredAgentPolicyCompliance])].

Definition AgentSlotConstraints : gmap string (list ArtifactKind) := list_to_map
  [("baseModel", [KindBaseModel; KindLoRA; KindFineTune]);
   ("adapters", [KindLoRA]);
   ("skills", [KindSkill]);
   ("tools", [KindTool; KindMCPServer]);
   ("mcpServers", [KindMCPServer]);
   ("systemPrompt", [KindPromptTemplate]);
   ("guardrailsInput", [KindGuardrail]);
   ("guardrailsOutput", [KindGuardrail]);
   ("retrieval", [KindRetrievalIndex]);
   ("workflow", [KindWorkflow]);
   ("policy", [KindPolicyBundle])].

Definition MediaTypeBaseModel : string := "application/vnd.ai.basemodel.v1+json".
Definition MediaTypeLoRA : string := "application/vnd.ai.lora.v1+json".
Definition MediaTypeFineTune : string := "application/vnd.ai.finetune.v1+json".
Definition MediaTypeSkill : string := "application/vnd.ai.skill.v1+json".
Definition MediaTypeTool : string := "application/vnd.ai.tool.v1+json".
Definition MediaTypeMCPServer : string := "application/vnd.ai.mcp-server.v1+json".
Definition MediaTypePromptTemplate : string := "application/vnd.ai.prompt-template.v1+json".
Definition MediaTypeGuardrail : string := "application/vnd.ai.guardrail.v1+json".
Definition MediaTypeRetrievalIndex : string := "application/vnd.ai.retrieval.v1+json".
Definition MediaTypeDataset : string := "application/vnd.ai.dataset.v1+json".
Definition MediaTypeHarness : string := "application/vnd.ai.harness.v1+json".
Definition MediaTypeEval : string := "application/vnd.ai.eval.v1+json".
Definition MediaTypeWorkflow : string := "application/vnd.ai.workflow.v1+json".
Definition MediaTypePolicyBundle : string := "application/vnd.ai.policy-bundle.v1+json".
Definition MediaTypeAgent : string := "application/vnd.ai.agent.v1+json".

Definition kindToMediaType : gmap ArtifactKind string := list_to_map
  [(KindBaseModel, MediaTypeBaseModel);
   (KindLoRA, MediaTypeLoRA);
   (KindFineTune, MediaTypeFineTune);
   (KindSkill, MediaTypeSkill);
   (KindTool, MediaTypeTool);
   (KindMCPServer, MediaTypeMCPServer);
   (KindPromptTemplate, MediaTypePromptTemplate);
   (KindGuardrail, MediaTypeGuardrail);
   (KindRetrievalIndex, MediaTypeRetrievalIndex);
   (KindDataset, MediaTypeDataset);
   (KindHarness, MediaTypeHarness);
   (KindEval, MediaTypeEval);
   (KindWorkflow, MediaTypeWorkflow);
   (KindPolicyBundle, MediaTypePolicyBundle);
   (KindAgent, MediaTypeAgent)].

Definition ErrorCode := string.
Definition ErrKindUnknown : ErrorCode := "AIPACK-KIND-000".
Definition ErrFamilyMismatch : ErrorCode := "AIPACK-KIND-001".
Definition ErrTagOnlyRef : ErrorCode := "AIPACK-COMP-001".
Definition ErrSlotTypeMismatch : ErrorCode := "AIPACK-COMP-004".
Definition ErrMissingPredicate : ErrorCode := "AIPACK-ATTEST-001".
Definition ErrLoRABaseRefMissing : ErrorCode := "AIPACK-COMPAT-001".
Definition ErrRetrievalEmbedMismatch : ErrorCode := "AIPACK-COMPAT-002".
Definition ErrMediaTypeMismatch : ErrorCode := "AIPACK-RUNTIME-001".
Definition ErrLineageEnvelopeMissing : ErrorCode := "AIPACK-LIN-001".
Definition ErrBlastRadiusExceeded : ErrorCode := "AIPACK-BLAST-001".
Definition ErrRVWeightsSumInvalid : ErrorCode := "AIPACK-RV-001".
Definition ErrRVRedBandBlocked : ErrorCode := "AIPACK-RV-002".
Definition ErrRVBandUnknown : ErrorCode := "AIPACK-RV-003".
Definition ErrDeprecationBlocked : ErrorCode := "AIPACK-DEP-001".
Definition ErrSunsetExpired : ErrorCode := "AIPACK-DEP-002".
Definition ErrOutlierUnacknowledged : ErrorCode := "AIPACK-OUTLIER-001".
Definition ErrAirGapBundleExpired : ErrorCode := "AIPACK-AIRGAP-001".
Definition ErrAirGapTrustRootMissing : ErrorCode := "AIPACK-AIRGAP-002".
Definition ErrAirGapTSAMissing : ErrorCode := "AIPACK-AIRGAP-003".
Definition ErrManifoldDistanceExceeded : ErrorCode := "AIPACK-PATTERN-002".
Definition ErrProfileFamilyDenied : ErrorCode := "AIPACK-PROFILE-001".
Definition ErrProfilePredicateDenied : ErrorCode := "AIPACK-PROFILE-002".
Definition ErrQuarantineTriggerFired : ErrorCode := "AIPACK-TRIGGER-001".
Definition ErrQuarantineEscalationFail : ErrorCode := "AIPACK-TRIGGER-002".
Definition ErrVADClassUnknown : ErrorCode := "AIPACK-VAD-002".
Definition ErrNotImplemented : ErrorCode := "AIPACK-IMPLEMENTATION-001".

(** ** Errors *)

Record AIPackError := mkAIPackError { Code : ErrorCode; EMessage : string; Detail : string }.

Definition ErrorText (e : AIPackError) : string :=
  if Detail e !=? "" then "[" +:+ Code e +:+ "] " +:+ EMessage e +:+ ": " +:+ Detail e
  else "[" +:+ Code e +:+ "] " +:+ EMessage e.

(** An error value: an [AIPackError] behind the prefixes of [%w] wrapping. *)
Record error := mkError { context : string; cause : AIPackError }.

Definition newErr (code : ErrorCode) (msg detail : string) : error :=
  mkError "" (mkAIPackError code msg detail).

Definition wrap (prefix : string) (e : error) : error := mkError (prefix +:+ context e) (cause e).

(** [errors.As] finds the [AIPackError] through the wrapping. *)
Definition IsCode (err : option error) (code : ErrorCode) : bool :=
  match err with Some e => Code (cause e) ==? code | None => false end.

(** ** Kinds and media types *)

Definition FamilyForKind (kind : ArtifactKind) : option ArtifactFamily := KindFamilyMap !! kind.

Definition ValidateKind (kind : ArtifactKind) : option error :=
  match KindFamilyMap !! kind with
  | None => Some (newErr ErrKindUnknown "unknown artifact kind" kind)
  | Some _ => None
  end.

Definition ValidateFamily (kind : ArtifactKind) (declared : ArtifactFamily) : option error :=
  match KindFamilyMap !! kind with
  | None => Some (newErr ErrKindUnknown "unknown artifact kind" kind)
  | Some canonical =>
      if declared !=? canonical then
        Some (newErr ErrFamilyMismatch "declared family does not match §3.5 canonical mapping"
                (kind +:+ " → " +:+ declared +:+ " (want " +:+ canonical +:+ ")"))
      else None
  end.

Definition IsAtomicKind (kind : ArtifactKind) : bool := kind !=? KindAgent.
Definition IsCompositeKind (kind : ArtifactKind) : bool := kind ==? KindAgent.

Definition MediaTypeForKind (kind : ArtifactKind) : option string := kindToMediaType !! kind.

Definition ValidateMediaType (kind : ArtifactKind) (declared : string) : option error :=
  match kindToMediaType !! kind with
  | None => Some (newErr ErrKindUnknown "unknown artifact kind" kind)
  | Some canonical =>
      if (declared !=? "") && (declared !=? canonical) then
        Some (newErr ErrMediaTypeMismatch "declared mediaType does not match §4.1 canonical media type"
                (kind +:+ ": got " +:+ declared +:+ ", want " +:+ canonical))
      else None
  end.

(** ** Predicates *)

Definition RequiredPredicates (kind : ArtifactKind) : list string := default [] (requiredPredicates !! kind).

Definition MissingPredicates (kind : ArtifactKind) (present : list string) : list string :=
  let presentSet : gset string := list_to_set present in
  List.filter (fun r => negb (bool_decide (r ∈ presentSet))) (RequiredPredicates kind).

Definition joinStrings (ss : list string) (sep : string) : string :=
  match ss with
  | [] => ""
  | s :: ss => fold_left (fun out s => out +:+ sep +:+ s) ss s
  end.

Definition ValidatePredicates (kind : ArtifactKind) (present : list string) : option error :=
  match MissingPredicates kind present with
  | [] => None
  | missing => Some (newErr ErrMissingPredicate "required attestation predicate(s) absent" (joinStrings missing ", "))
  end.

(** ** Policy bundles *)

Record PolicyBundleSpec := mkPolicy {
  Engine : string;
  ProfileID : string;
  ForbiddenFamilies : list ArtifactFamily;
  AllowedFamilies : list ArtifactFamily;
  ForbiddenArtifactTypes : list ArtifactKind;
  AllowedArtifactTypes : option (list ArtifactKind);   (* a nil and an empty slice differ *)
  PolicyPredicates : list string;
  MaxRiskBand : RVBand
}.

Record EvaluationResult := mkEvaluation { Allowed : bool; DenyCode : ErrorCode; Reason : string }.

Definition allow : EvaluationResult := mkEvaluation true "" "".

Definition familyInList (f : ArtifactFamily) (l : list ArtifactFamily) : bool := existsb (fun x => x ==? f) l.
Definition kindInList (k : ArtifactKind) (l : list ArtifactKind) : bool := existsb (fun x => x ==? k) l.
Definition stringInList (s : string) (l : list string) : bool := existsb (fun x => x ==? s) l.

Definition rvBandOrder : gmap RVBand Z :=
  list_to_map [(RVBandGreen, 0); (RVBandYellow, 1); (RVBandOrange, 2); (RVBandRed, 3)].

Definition validRVBand (band : RVBand) : bool := bool_decide (is_Some (rvBandOrder !! band)).

Definition riskBandExceeds (actual limit : RVBand) : bool :=
  match rvBandOrder !! actual, rvBandOrder !! limit with
  | Some ao, Some lo => ao >? lo
  | _, _ => true
  end.

Definition evaluateFamilyPolicy (policy : PolicyBundleSpec) (family : ArtifactFamily) : option EvaluationResult :=
  if existsb (fun ff => ff ==? family) (ForbiddenFamilies policy) then
    Some (mkEvaluation false ErrProfileFamilyDenied ("family " +:+ family +:+ " is forbidden by policy"))
  else if bool_decide (AllowedFamilies policy <> []) && negb (familyInList family (AllowedFamilies policy)) then
    Some (mkEvaluation false ErrProfileFamilyDenied ("family " +:+ family +:+ " is not in policy allowedFamilies"))
  else None.

Definition evaluateArtifactKindPolicy (policy : PolicyBundleSpec) (kind : ArtifactKind) : option EvaluationResult :=
  if existsb (fun ft => ft ==? kind) (ForbiddenArtifactTypes policy) then
    Some (mkEvaluation false ErrProfileFamilyDenied ("kind " +:+ kind +:+ " is forbidden by policy"))
  else match AllowedArtifactTypes policy with
       | None => None
       | Some allowed =>
           if negb (kindInList kind allowed) then
             Some (mkEvaluation false ErrProfileFamilyDenied
                     ("kind " +:+ kind +:+ " is not in policy allowedArtifactTypes"))
           else None
       end.

Definition evaluatePredicatePolicy (policy : PolicyBundleSpec) (presentPredicates : list string)
  : option EvaluationResult :=
  req ← List.find (fun req => negb (stringInList req presentPredicates)) (PolicyPredicates policy);
  Some (mkEvaluation false ErrProfilePredicateDenied ("required predicate absent: " +:+ req)).

Definition evaluateRiskPolicy (policy : PolicyBundleSpec) (riskBand : RVBand) : option EvaluationResult :=
  if (MaxRiskBand policy !=? "")
     && (negb (validRVBand riskBand) || negb (validRVBand (MaxRiskBand policy))
         || riskBandExceeds riskBand (MaxRiskBand policy)) then
    Some (mkEvaluation false ErrRVRedBandBlocked
            ("artifact risk band " +:+ riskBand +:+ " exceeds policy maxRiskBand " +:+ MaxRiskBand policy))
  else None.

(** The first denial, if any. *)
Definition or_else {A} (x y : option A) : option A := match x with Some a => Some a | None => y end.

Definition EvaluatePolicy (policy : option PolicyBundleSpec) (kind : ArtifactKind) (family : ArtifactFamily)
  (presentPredicates : list string) (riskBand : RVBand) : EvaluationResult :=
  match policy with
  | None => allow
  | Some policy =>
      default allow
        (or_else (evaluateFamilyPolicy policy family)
        (or_else (evaluateArtifactKindPolicy policy kind)
        (or_else (evaluatePredicatePolicy policy presentPredicates)
                 (evaluateRiskPolicy policy riskBand))))
  end.

Definition EvaluatePolicyBundle (policy : option PolicyBundleSpec) (kind : ArtifactKind) : option error :=
  match policy with
  | None => None
  | Some _ =>
      match FamilyForKind kind with
      | None => Some (newErr ErrKindUnknown "unknown artifact kind" kind)
      | Some family =>
          let result := EvaluatePolicy policy kind family [] "" in
          if Allowed result then None else Some (newErr (DenyCode result) (Reason result) kind)
      end
  end.

(** ** Risk valence *)

Definition RiskSignalCount : nat := 13.

Definition DefaultWeights : list Z := [10; 10; 8; 8; 8; 8; 8; 8; 8; 8; 6; 5; 5].

Definition rvBandThresholds : list (Z * RVBand) :=
  [(24, RVBandGreen); (49, RVBandYellow); (74, RVBandOrange); (100, RVBandRed)].

Definition bandForScore (score : Z) : RVBand :=
  match List.find (fun t => score <=? fst t) rvBandThresholds with
  | Some (_, band) => band
  | None => RVBandRed
  end.

Definition BandForScore (score : Z) : RVBand := bandForScore score.

(** The weighted sum in the order of the signals. *)
Definition weighted_sum (signals : list float64) (weights : list Z) : float64 :=
  fold_left (fun raw sw => f_add raw (f_mul (fst sw) (f_of_Z (snd sw)))) (zip signals weights) f_zero.

Definition ComputeRiskValence (int_of : float64 -> Z) (signals : list float64) (weights : list Z)
  : Z * RVBand * option error :=
  let sum := fold_left (fun s w => i64_wrap (s + w)) weights 0 in
  if sum !=? 100 then
    (0, "", Some (newErr ErrRVWeightsSumInvalid "risk valence weights must sum to 100 (AIPACK-RV-001)" ""))
  else
    let score := int_of (weighted_sum signals weights) in
    let score := if score >? 100 then 100 else score in
    (score, bandForScore score, None).

(** ** References and compositions *)

Definition lower_hex_digit (c : ascii) : bool :=
  let x := code c in ((48 <=? x) && (x <=? 57)) || ((97 <=? x) && (x <=? 102)).

Definition not_newline (c : ascii) : bool := code c !=? 10.

(** The regular expression [^.+@sha256:[0-9a-f]{64}$]: the last 72 bytes are
    fixed by the pattern, and the non-empty rest has no newline. *)
Definition digestRefPattern_MatchString (ref : string) : bool :=
  let n := (String.length ref - 72)%nat in
  let suffix := str_drop n ref in
  Nat.ltb 72 (String.length ref) && str_forall not_newline (str_take n ref)
  && HasPrefix suffix "@sha256:" && str_forall lower_hex_digit (str_drop 8 suffix).

Definition ValidateRef (ref : string) : option error :=
  if negb (digestRefPattern_MatchString ref) then
    Some (newErr ErrTagOnlyRef
            "OCI reference must include sha256 digest (tag-only refs rejected per AIPACK-COMP-001)" ref)
  else None.

Record AIPackRef := mkRef { Ref : string; RefKind : ArtifactKind }.

Record AIPackComposition := mkComposition {
  BaseModel : option AIPackRef;
  Adapters : list AIPackRef;
  Skills : list AIPackRef;
  Tools : list AIPackRef;
  MCPServers : list AIPackRef;
  SystemPrompt : option AIPackRef;
  GuardrailsInput : list AIPackRef;
  GuardrailsOutput : list AIPackRef;
  Retrieval : option AIPackRef;
  Workflow : option AIPackRef;
  Policy : option AIPackRef;
  CompositeDigest : string
}.

Definition validateSlotKind (slot : string) (kind : ArtifactKind) : option error :=
  if kind ==? "" then None
  else match AgentSlotConstraints !! slot with
       | None => None
       | Some allowed =>
           if existsb (fun a => kind ==? a) allowed then None
           else Some (newErr ErrSlotTypeMismatch "artifact kind not permitted in slot"
                        ("slot=" +:+ slot +:+ " kind=" +:+ kind +:+ " allowed=[" +:+ Join " " allowed +:+ "]"))
       end.

Definition check_ref (slot : string) (r : AIPackRef) : option error :=
  or_else (ValidateRef (Ref r)) (validateSlotKind slot (RefKind r)).

Fixpoint check_list (slot : string) (i : Z) (rs : list AIPackRef) : option error :=
  match rs with
  | [] => None
  | r :: rs =>
      match check_ref slot r with
      | Some e => Some (wrap (slot +:+ "[" +:+ Itoa i +:+ "]: ") e)
      | None => check_list slot (i + 1) rs
      end
  end.

Definition singleSlots (comp : AIPackComposition) : list (string * option AIPackRef) :=
  [("systemPrompt", SystemPrompt comp); ("retrieval", Retrieval comp);
   ("workflow", Workflow comp); ("policy", Policy comp)].

Fixpoint check_singles (slots : list (string * option AIPackRef)) : option error :=
  match slots with
  | [] => None
  | (_, None) :: slots => check_singles slots
  | (name, Some r) :: slots =>
      match check_ref name r with
      | Some e => Some (wrap (name +:+ ": ") e)
      | None => check_singles slots
      end
  end.

Definition ValidateComposition (comp : option AIPackComposition) : option error :=
  match comp with
  | None => None
  | Some comp =>
      or_else (match BaseModel comp with Some r => check_ref "baseModel" r | None => None end)
      (or_else (check_list "adapters" 0 (Adapters comp))
      (or_else (check_list "skills" 0 (Skills comp))
      (or_else (check_list "tools" 0 (Tools comp))
      (or_else (check_list "mcpServers" 0 (MCPServers comp))
               (check_singles (singleSlots comp))))))
  end.

Record LoRASpec := mkLoRA { LoRABaseRef : string }.
Record FineTuneSpec := mkFineTune { FineTuneBaseRef : string }.
Record RetrievalIndexSpec := mkRetrieval { EmbeddingModel : string }.
Record EvalSpec := mkEval { HarnessRef : string }.

Definition CheckLoRACompatibility (lora : option LoRASpec) : option error :=
  match lora with
  | None => None
  | Some lora =>
      if LoRABaseRef lora ==? "" then
        Some (newErr ErrLoRABaseRefMissing
                "LoRA artifact must declare baseRef pointing to the target BaseModel (AIPACK-COMPAT-001)" "")
      else ValidateRef (LoRABaseRef lora)
  end.

Definition CheckRetrievalCompatibility (idx : option RetrievalIndexSpec) : option error :=
  match idx with
  | None => None
  | Some idx =>
      if EmbeddingModel idx ==? "" then
        Some (newErr ErrRetrievalEmbedMismatch "RetrievalIndex must declare embeddingModel ref (AIPACK-COMPAT-002)" "")
      else ValidateRef (EmbeddingModel idx)
  end.

(** ** Operational checks *)

Definition ValidateBlastRadius (actual max : Z) : option error :=
  if actual >? max then
    Some (newErr ErrBlastRadiusExceeded "blast radius exceeds declared maximum (AIPACK-BLAST-001)" "")
  else None.

Definition CheckRVBandBlock (band : RVBand) (hasDerogation : bool) : option error :=
  if negb ((band ==? RVBandGreen) || (band ==? RVBandYellow) || (band ==? RVBandOrange) || (band ==? RVBandRed)) then
    Some (newErr ErrRVBandUnknown "risk band is not recognized (AIPACK-RV-003)" band)
  else if (band ==? RVBandRed) && negb hasDerogation then
    Some (newErr ErrRVRedBandBlocked
            "RED risk band blocks composition without signed profile-derogation attestation (AIPACK-RV-002)" "")
  else None.

Definition DeprecationPhaseDeprecated : string := "Deprecated".
Definition DeprecationPhaseEndOfLife : string := "EndOfLife".

Record AIPackDeprecationNotice := mkNotice {
  Phase : string;
  NoticeReason : string;
  SunsetDate : string;
  DerogationRef : string
}.

(** [now] is the clock reading of the sunset test. *)
Definition ValidateDeprecationState (now : Time) (notice : option AIPackDeprecationNotice) : option error :=
  match notice with
  | None => None
  | Some notice =>
      if Phase notice ==? DeprecationPhaseDeprecated then
        Some (newErr ErrDeprecationBlocked
                "artifact is in Deprecated phase and cannot be composed (AIPACK-DEP-001)" (Phase notice))
      else if Phase notice ==? DeprecationPhaseEndOfLife then
        let sunset := if SunsetDate notice !=? "" then
                        t ← ParseDate (SunsetDate notice);
                        if After now t then Some tt else None
                      else None in
        match sunset with
        | Some _ => Some (newErr ErrSunsetExpired "artifact sunset date has passed (AIPACK-DEP-002)" (SunsetDate notice))
        | None =>
            if DerogationRef notice ==? "" then
              Some (newErr ErrDeprecationBlocked
                      "artifact is in EndOfLife phase without sunset derogation (AIPACK-DEP-001)" (Phase notice))
            else None
        end
      else None
  end.

Record AIPackQuarantineTrigger := mkTrigger { Fired : bool; TriggerReason : string; EscalationFail : bool }.

Definition ValidateQuarantineTrigger (trigger : option AIPackQuarantineTrigger) : option error :=
  match trigger with
  | None => None
  | Some trigger =>
      if EscalationFail trigger then
        Some (newErr ErrQuarantineEscalationFail "quarantine escalation protocol failed (AIPACK-TRIGGER-002)"
                (TriggerReason trigger))
      else if Fired trigger then
        Some (newErr ErrQuarantineTriggerFired "quarantine trigger has fired (AIPACK-TRIGGER-001)" (TriggerReason trigger))
      else None
  end.

Record AIPackOutlierSignal := mkOutlier { Category : string; Acknowledged : bool; AcknowledgedBy : string }.

Definition ValidateOutlierSignal (signal : option AIPackOutlierSignal) : option error :=
  match signal with
  | None => None
  | Some signal =>
      if negb (Acknowledged signal) then
        Some (newErr ErrOutlierUnacknowledged
                "outlier signal must be acknowledged before promotion (AIPACK-OUTLIER-001)" (Category signal))
      else None
  end.

Definition vad_classes : list string :=
  ["prompt-injection"; "jailbreak"; "data-poisoning"; "model-inversion"; "membership-inference"; "adversarial-input"].

Definition ValidateVADClass (class : string) : option error :=
  if negb (stringInList class vad_classes) then Some (newErr ErrVADClassUnknown "unknown VAD class (AIPACK-VAD-002)" class)
  else None.

Definition patterns : list string :=
  ["baseline-agent"; "rag-agent"; "tool-agent"; "guarded-agent"; "workflow-agent"; "compliance-agent";
   "full-stack-agent"; "rag-retriever"].

Definition ValidateCompositionPattern (name : string) : option error :=
  if negb (stringInList name patterns) then
    Some (newErr ErrManifoldDistanceExceeded
            "composition pattern not in canonical archetype set (AIPACK-PATTERN-002)" name)
  else None.

(** ** Properties of the tables *)

Definition kinds : list ArtifactKind :=
  [KindBaseModel; KindLoRA; KindFineTune; KindSkill; KindTool; KindMCPServer; KindPromptTemplate; KindGuardrail;
   KindRetrievalIndex; KindDataset; KindHarness; KindEval; KindWorkflow; KindPolicyBundle; KindAgent].

(** A table over the kinds is defined on exactly the fifteen kinds. *)
Lemma table_domain {A} (m : gmap ArtifactKind A) (k : ArtifactKind) :
  (map_to_list m).*1 ≡ₚ kinds -> is_Some (m !! k) <-> k ∈ kinds.
Proof.
  intros H. rewrite <- H, list_elem_of_fmap. split.
  - intros [x Hx]. exists (k, x). by rewrite elem_of_map_to_list.
  - intros ([k' x] & -> & Hin). rewrite elem_of_map_to_list in Hin. by exists x.
Qed.

Ltac table_perm := apply (bool_decide_unpack _); vm_compute; exact Logic.I.

Lemma kind_known_iff k : ValidateKind k = None <-> k ∈ kinds.
Proof.
  rewrite <- (table_domain KindFamilyMap k) by table_perm.
  unfold ValidateKind. destruct (KindFamilyMap !! k); [by split; [eexists|]|]. split; [done|by intros [? ?]].
Qed.

(** Every kind requires the two universal predicates, and no other kind
    requires anything. *)
Lemma required_universal k : k ∈ kinds -> PredSLSAProvenance ∈ RequiredPredicates k /\ PredCycloneDXBOM ∈ RequiredPredicates k.
Proof.
  revert k. apply Forall_forall.
  apply (bool_decide_unpack (Forall (fun k => PredSLSAProvenance ∈ RequiredPredicates k
    /\ PredCycloneDXBOM ∈ RequiredPredicates k) kinds)). vm_compute. exact Logic.I.
Qed.

Lemma required_known k : RequiredPredicates k <> [] <-> k ∈ kinds.
Proof.
  split.
  - intros H. rewrite <- (table_domain requiredPredicates k) by table_perm.
    unfold RequiredPredicates in H. by destruct (requiredPredicates !! k); [eexists|].
  - intros H E. destruct (required_universal k H) as [Hin _]. rewrite E in Hin. by apply not_elem_of_nil in Hin.
Qed.

Lemma missing_nil k present : MissingPredicates k present = [] <-> (forall p, p ∈ RequiredPredicates k -> p ∈ present).
Proof.
  unfold MissingPredicates. induction (RequiredPredicates k) as [|r l IH]; simpl.
  - split; [|done]. intros _ p Hp. by apply not_elem_of_nil in Hp.
  - case_bool_decide as E; simpl; rewrite elem_of_list_to_set in E.
    + rewrite IH. setoid_rewrite elem_of_cons. naive_solver.
    + split; [done|]. intros H. by destruct E; apply H; left.
Qed.

(** ** Properties of references and compositions *)

Lemma str_take_drop n s : str_take n s +:+ str_drop n s = s.
Proof.
  revert s. induction n as [|n IH]; intros [|c s]; simpl; try done.
  change (String c (str_take n s +:+ str_drop n s) = String c s). by rewrite IH.
Qed.

Lemma str_drop_length n s : String.length (str_drop n s) = (String.length s - n)%nat.
Proof. revert s. induction n as [|n IH]; intros [|c s]; simpl; auto. Qed.

(** A reference is accepted exactly when it is a non-empty single-line name
    followed by a SHA-256 digest in lower-case hexadecimal. *)
Lemma ValidateRef_iff ref :
  ValidateRef ref = None <->
  exists name hash, ref = name +:+ "@sha256:" +:+ hash /\ name <> "" /\ str_forall not_newline name = true
    /\ String.length hash = 64%nat /\ str_forall lower_hex_digit hash = true.
Proof.
  unfold ValidateRef, digestRefPattern_MatchString.
  set (n := (String.length ref - 72)%nat). split.
  - destruct (_ && _) eqn:E; [|done]. intros _. rewrite !andb_true_iff in E. destruct E as [[[Hl Hn] Hp] Hh].
    apply Nat.ltb_lt in Hl. apply prefix_app in Hp as [r Hr].
    rewrite Hr in Hh. change (str_drop 8) with (str_drop (String.length "@sha256:")) in Hh. rewrite str_drop_app in Hh. exists (str_take n ref), r.
    pose proof (str_drop_length n ref) as Hlen. rewrite Hr, str_length_app in Hlen. cbn in Hlen.
    split; [by rewrite <- Hr, str_take_drop|]. split; [|split; [done|split; [lia|done]]].
    intros E. pose proof (str_take_drop n ref) as Ht. rewrite E, Hr in Ht. rewrite <- Ht in Hl.
    change ("" +:+ ?x) with x in Hl. rewrite str_length_app in Hl. cbn in Hl. lia.
  - intros (name & hash & -> & Hne & Hnl & Hlen & Hhex).
    assert (n = String.length name) as ->.
    { subst n. rewrite !str_length_app, Hlen. cbn. lia. }
    rewrite str_take_app, str_drop_app, Hnl, HasPrefix_app.
    change (str_drop 8) with (str_drop (String.length "@sha256:")). rewrite str_drop_app, Hhex.
    assert (Nat.ltb 72 (String.length (name +:+ "@sha256:" +:+ hash)) = true) as ->; [|done].
    apply Nat.ltb_lt. rewrite !str_length_app, Hlen. cbn. destruct name; [done|cbn; lia].
Qed.

(** What a slot may hold: a pinned reference of no declared kind or of a kind
    the slot admits. *)
Definition slot_ok (slot : string) (r : AIPackRef) : Prop :=
  ValidateRef (Ref r) = None
  /\ (RefKind r = "" \/ RefKind r ∈ default [RefKind r] (AgentSlotConstraints !! slot)).

Lemma or_else_none {A} (x y : option A) : or_else x y = None <-> x = None /\ y = None.
Proof. destruct x; simpl; naive_solver. Qed.

Lemma check_ref_iff slot r : check_ref slot r = None <-> slot_ok slot r.
Proof.
  unfold check_ref, slot_ok, validateSlotKind. rewrite or_else_none.
  destruct (bool_decide_reflect (RefKind r = "")) as [E|E]; [naive_solver|].
  destruct (AgentSlotConstraints !! slot) as [allowed|] eqn:Ea; simpl.
  - pose proof (existsb_eq_in (RefKind r) allowed) as He. destruct (existsb _ _); naive_solver.
  - rewrite list_elem_of_singleton. naive_solver.
Qed.

Lemma check_list_iff slot i rs : check_list slot i rs = None <-> Forall (slot_ok slot) rs.
Proof.
  revert i. induction rs as [|r rs IH]; intros i; simpl; [done|].
  rewrite Forall_cons, <- check_ref_iff. destruct (check_ref slot r); [naive_solver|]. rewrite IH. naive_solver.
Qed.

Definition opt_ok (slot : string) (r : option AIPackRef) : Prop :=
  match r with Some r => slot_ok slot r | None => True end.

Lemma check_singles_iff slots : check_singles slots = None <-> Forall (fun s => opt_ok (fst s) (snd s)) slots.
Proof.
  induction slots as [|[name [r|]] slots IH]; simpl; [done| |]; rewrite Forall_cons; simpl; [|naive_solver].
  rewrite <- check_ref_iff. destruct (check_ref name r); naive_solver.
Qed.

(** A composition is accepted exactly when the reference of every slot but
    the two guardrail slots is pinned to a SHA-256 digest and is of a kind the
    slot admits (or of no declared kind); the guardrail slots are not looked
    at. *)
Theorem composition_valid_iff comp :
  ValidateComposition (Some comp) = None <->
  opt_ok "baseModel" (BaseModel comp) /\ Forall (slot_ok "adapters") (Adapters comp)
  /\ Forall (slot_ok "skills") (Skills comp) /\ Forall (slot_ok "tools") (Tools comp)
  /\ Forall (slot_ok "mcpServers") (MCPServers comp) /\ opt_ok "systemPrompt" (SystemPrompt comp)
  /\ opt_ok "retrieval" (Retrieval comp) /\ opt_ok "workflow" (Workflow comp) /\ opt_ok "policy" (Policy comp).
Proof.
  unfold ValidateComposition. rewrite !or_else_none, !check_list_iff, check_singles_iff.
  unfold singleSlots. rewrite !Forall_cons, Forall_nil. simpl.
  assert (match BaseModel comp with Some r => check_ref "baseModel" r | None => None end = None
          <-> opt_ok "baseModel" (BaseModel comp)) as ->.
  { destruct (BaseModel comp); simpl; [apply check_ref_iff|done]. }
  tauto.
Qed.

(** A guardrail named by tag alone and of the wrong kind is accepted. *)
Example guardrails_unchecked :
  let bad := mkRef "registry/guard:latest" KindDataset in
  ValidateComposition (Some (mkComposition None [] [] [] [] None [bad] [bad] None None None "")) = None
  /\ (forall slot, is_Some (check_ref slot bad)).
Proof. split; [reflexivity|]. intros slot. by eexists. Qed.

(** ** Properties of the policy evaluation *)

(** When the six steps of a policy let an artifact through. *)
Record policy_permits (p : PolicyBundleSpec) (kind : ArtifactKind) (family : ArtifactFamily)
  (present : list string) (band : RVBand) : Prop := {
  pp_not_forbidden : family ∉ ForbiddenFamilies p;
  pp_family : AllowedFamilies p = [] \/ family ∈ AllowedFamilies p;
  pp_kind_not_forbidden : kind ∉ ForbiddenArtifactTypes p;
  pp_kind allowed : AllowedArtifactTypes p = Some allowed -> kind ∈ allowed;
  pp_predicates : Forall (fun r => r ∈ present) (PolicyPredicates p);
  pp_band : MaxRiskBand p = "" \/ exists a l, rvBandOrder !! band = Some a /\ rvBandOrder !! MaxRiskBand p = Some l /\ a <= l
}.

Lemma family_policy_iff p f :
  evaluateFamilyPolicy p f = None <-> f ∉ ForbiddenFamilies p /\ (AllowedFamilies p = [] \/ f ∈ AllowedFamilies p).
Proof.
  unfold evaluateFamilyPolicy, familyInList. rewrite <- existsb_not_in, <- (existsb_in f (AllowedFamilies p)).
  destruct (existsb _ (ForbiddenFamilies p)); [naive_solver|].
  case_bool_decide; simpl; [|destruct (decide (AllowedFamilies p = [])); naive_solver].
  destruct (existsb _ (AllowedFamilies p)); naive_solver.
Qed.

Lemma kind_policy_iff p k :
  evaluateArtifactKindPolicy p k = None <->
  k ∉ ForbiddenArtifactTypes p /\ (forall allowed, AllowedArtifactTypes p = Some allowed -> k ∈ allowed).
Proof.
  unfold evaluateArtifactKindPolicy, kindInList. rewrite <- existsb_not_in.
  destruct (existsb _ (ForbiddenArtifactTypes p)); [naive_solver|].
  destruct (AllowedArtifactTypes p) as [allowed|]; [|naive_solver].
  pose proof (existsb_in k allowed). destruct (existsb _ allowed); naive_solver.
Qed.

Lemma predicate_policy_iff p present :
  evaluatePredicatePolicy p present = None <-> Forall (fun r => r ∈ present) (PolicyPredicates p).
Proof.
  unfold evaluatePredicatePolicy, stringInList. induction (PolicyPredicates p) as [|r l IH]; simpl; [done|].
  rewrite Forall_cons, <- IH, <- (existsb_in r present). destruct (existsb _ present); simpl; naive_solver.
Qed.

Lemma risk_policy_iff p band :
  evaluateRiskPolicy p band = None <->
  MaxRiskBand p = "" \/ exists a l, rvBandOrder !! band = Some a /\ rvBandOrder !! MaxRiskBand p = Some l /\ a <= l.
Proof.
  unfold evaluateRiskPolicy, validRVBand, riskBandExceeds.
  destruct (bool_decide_reflect (MaxRiskBand p = "")) as [E|E]; simpl; [naive_solver|].
  destruct (rvBandOrder !! band) as [a|], (rvBandOrder !! MaxRiskBand p) as [l|]; simpl;
    try (split; [done|]; intros [?|(? & ? & ? & ? & _)]; congruence).
  case_bool_decide as Hlt; simpl.
  - split; [done|]. intros [?|(? & ? & [= <-] & [= <-] & ?)]; [done|lia].
  - split; [|done]. intros _. right. exists a, l. repeat split. lia.
Qed.

(** Allowed means that no step denied. *)
Lemma policy_allowed p kind family present band :
  Allowed (EvaluatePolicy (Some p) kind family present band) = true <->
  evaluateFamilyPolicy p family = None /\ evaluateArtifactKindPolicy p kind = None
  /\ evaluatePredicatePolicy p present = None /\ evaluateRiskPolicy p band = None.
Proof.
  rewrite <- !or_else_none. simpl. destruct (or_else _ _) as [e|] eqn:E; [|done]. split; [|done].
  simpl. intros Ha. exfalso. revert E.
  unfold or_else, evaluateFamilyPolicy, evaluateArtifactKindPolicy, evaluatePredicatePolicy, evaluateRiskPolicy,
    mbind, option_bind.
  repeat case_match; intros; simplify_eq; done.
Qed.

(** A policy bundle allows an artifact exactly when each of its six steps
    permits it (forbidden and allowed families, forbidden and allowed kinds
    with the empty list denying every kind, the required predicates, and the
    risk band limit, under which an unknown band is denied); without a policy
    everything is allowed. *)
Theorem policy_allows_iff policy kind family present band :
  Allowed (EvaluatePolicy policy kind family present band) = true <->
  (forall p, policy = Some p -> policy_permits p kind family present band).
Proof.
  destruct policy as [p|]; [|naive_solver].
  assert ((forall p', Some p = Some p' -> policy_permits p' kind family present band)
          <-> policy_permits p kind family present band) as -> by naive_solver.
  rewrite policy_allowed, family_policy_iff, kind_policy_iff, predicate_policy_iff, risk_policy_iff.
  split; [intros ([??]&[??]&?&?); by split|intros []; repeat split; auto].
Qed.

(** The required predicates or the risk limit of a bundle deny every artifact
    through [EvaluatePolicyBundle], which passes no predicates and no band. *)
Lemma bundle_evaluation_denies p kind :
  PolicyPredicates p <> [] \/ MaxRiskBand p <> "" -> EvaluatePolicyBundle (Some p) kind <> None.
Proof.
  intros H. unfold EvaluatePolicyBundle. destruct (FamilyForKind kind) as [f|]; [|done].
  destruct (Allowed _) eqn:E; [|done]. exfalso.
  apply policy_allowed in E as (_ & _ & Hp & Hr).
  apply predicate_policy_iff in Hp. apply risk_policy_iff in Hr.
  destruct H as [H|H].
  - destruct (PolicyPredicates p) as [|r l]; [done|]. inversion_clear Hp as [|? ? Hin]. by apply not_elem_of_nil in Hin.
  - destruct Hr as [|(a & l & Ha & _)]; [done|]. discriminate Ha.
Qed.

(** ** Properties of the risk valence *)

Lemma bandForScore_cases s :
  bandForScore s = if s <=? 24 then RVBandGreen else if s <=? 49 then RVBandYellow
                   else if s <=? 74 then RVBandOrange else RVBandRed.
Proof. unfold bandForScore. simpl. by repeat case_bool_decide. Qed.

(** A computed score is at most 100, its band is one of the four and grows
    with the score, and the band is blocked without a derogation exactly from
    75 on. *)
Lemma risk_valence_bands int_of signals weights score band :
  ComputeRiskValence int_of signals weights = (score, band, None) ->
  score <= 100 /\ band = BandForScore score
  /\ (CheckRVBandBlock band false <> None <-> 75 <= score) /\ CheckRVBandBlock band true = None
  /\ (forall limit, riskBandExceeds band (BandForScore limit) = true -> limit < score).
Proof.
  unfold ComputeRiskValence, BandForScore. case_bool_decide; simpl; [|done]. intros E. simplify_eq.
  set (s := if (_ >? _) then _ else _). split; [subst s; case_bool_decide; lia|]. split; [done|].
  rewrite !bandForScore_cases. split; [|split].
  - repeat case_bool_decide; unfold CheckRVBandBlock; simpl; split; try done; lia.
  - by repeat case_bool_decide.
  - intros limit. rewrite bandForScore_cases. repeat case_bool_decide; intros He; try lia; discriminate He.
Qed.

(** Signals below 0 are not refused: they give a negative score in the lowest
    band. *)
Example negative_signals_green :
  forall int_of, int_of (f_of_Z (-100)) = -100 ->
  ComputeRiskValence int_of (replicate 13 (f_of_Z (-1))) DefaultWeights = (-100, RVBandGreen, None).
Proof.
  intros int_of H. unfold ComputeRiskValence.
  assert (weighted_sum (replicate 13 (f_of_Z (-1))) DefaultWeights = f_of_Z (-100)) as -> by (vm_compute; reflexivity).
  rewrite H. reflexivity.
Qed.

(** An end-of-life notice blocks unless a derogation extends it to a sunset
    date that has not passed. *)
Lemma deprecation_blocks_iff now notice :
  Phase notice = DeprecationPhaseEndOfLife ->
  ValidateDeprecationState now (Some notice) = None <->
  DerogationRef notice <> "" /\ (forall t, ParseDate (SunsetDate notice) = Some t -> now <= t).
Proof.
  intros Hp. unfold ValidateDeprecationState. rewrite Hp. simpl.
  destruct (bool_decide_reflect (SunsetDate notice = "")) as [->|Hs]; simpl.
  - case_bool_decide; [naive_solver|]. split; [|done]. intros _. split; [done|]. intros t E. discriminate E.
  - destruct (ParseDate (SunsetDate notice)) as [t|]; simpl.
    + unfold After. case_bool_decide as Ha; simpl; [|case_bool_decide; naive_solver lia].
      split; [done|]. intros [_ H]. specialize (H t eq_refl). lia.
    + case_bool_decide; naive_solver.
Qed.
