(* ===== verification/AIPackGovernance.v ===== *)
(** * Governance of AIPack artifacts

    The admission webhook ([internal/webhook/aipack_webhook.go]), the
    conformance engine ([internal/governance/aipack_conformance.go]) and the
    verification of attestations
    ([internal/governance/aipack_evidence.go]), over the validators of
    [AIPack].  The cosign binary, the process environment and the JSON
    decoding of its output lines are arguments of the definitions that use
    them; the texts of messages are left out, their error codes kept. *)

From S2P Require Import Prelude GoFloat GoStrings Sha256 GoTime AIPack.
From Stdlib Require Import Ascii.

(** ** Data *)

Record PredicateEntry := mkEntry { PredicateURI : string; EDigest : string; RekorLogID : string }.

Record AIPackAttestation := mkAttestation {
  Predicates : list PredicateEntry;
  CosignKeyRef : string;
  RekorURL : string
}.

Record AIPackSpec := mkSpec {
  Kind : ArtifactKind;
  Family : option ArtifactFamily;
  SourceRef : string;
  Composition : option AIPackComposition;
  Attestation : option AIPackAttestation;
  LoRA : option LoRASpec;
  FineTune : option FineTuneSpec;
  RetrievalIndex : option RetrievalIndexSpec;
  Eval : option EvalSpec
}.

(** ** The admission webhook *)

Inductive WebhookErr :=
| FromAIPack (e : error)
| FamilyMismatch (declared expected : ArtifactFamily) (kind : ArtifactKind)
| SourceRefRequired
| CompositionOnAtomic
| CompositionRequired
| LoRABaseRefRequired
| FineTuneBaseRefRequired
| EmbeddingModelRequired
| HarnessRefRequired.

Definition validateKind (pack : AIPackSpec) : list WebhookErr :=
  match ValidateKind (Kind pack) with
  | Some err => [FromAIPack err]
  | None =>
      match Family pack, FamilyForKind (Kind pack) with
      | Some declared, Some expected =>
          if declared !=? expected then [FamilyMismatch declared expected (Kind pack)] else []
      | _, _ => []
      end
  end.

Definition validateSource (pack : AIPackSpec) : list WebhookErr :=
  if SourceRef pack ==? "" then
    if Kind pack !=? KindAgent then [SourceRefRequired] else []
  else match ValidateRef (SourceRef pack) with Some err => [FromAIPack err] | None => [] end.

Definition validateComposition (pack : AIPackSpec) : list WebhookErr :=
  if Kind pack !=? KindAgent then
    match Composition pack with Some _ => [CompositionOnAtomic] | None => [] end
  else match Composition pack with
       | None => [CompositionRequired]
       | Some comp => match ValidateComposition (Some comp) with Some err => [FromAIPack err] | None => [] end
       end.

(** A required reference inside an optional part of the spec is absent. *)
Definition lacks {A} (part : option A) (ref : A -> string) : bool :=
  match part with None => true | Some a => ref a ==? "" end.

Definition validateKindSpecificFields (pack : AIPackSpec) : list WebhookErr :=
  if Kind pack ==? KindLoRA then if lacks (LoRA pack) LoRABaseRef then [LoRABaseRefRequired] else []
  else if Kind pack ==? KindFineTune then if lacks (FineTune pack) FineTuneBaseRef then [FineTuneBaseRefRequired] else []
  else if Kind pack ==? KindRetrievalIndex then
    if lacks (RetrievalIndex pack) EmbeddingModel then [EmbeddingModelRequired] else []
  else if Kind pack ==? KindEval then if lacks (Eval pack) HarnessRef then [HarnessRefRequired] else []
  else [].

(** The violations; the object is admitted when there are none. *)
Definition validate (pack : AIPackSpec) : list WebhookErr :=
  validateKind pack ++ validateSource pack ++ validateComposition pack ++ validateKindSpecificFields pack.

Definition ValidateCreate (pack : AIPackSpec) : list WebhookErr := validate pack.
Definition ValidateUpdate (old pack : AIPackSpec) : list WebhookErr := validate pack.
Definition ValidateDelete (pack : AIPackSpec) : list WebhookErr := [].

(** ** The conformance engine *)

Record AIPackConformanceResult := mkResult { Valid : bool; RCode : string }.

Definition valid : AIPackConformanceResult := mkResult true "".
Definition invalid (code : string) : AIPackConformanceResult := mkResult false code.

(** The validator interface. *)
Class AIPackValidator (V : Type) := ValidateAIPack : V -> AIPackSpec -> AIPackConformanceResult.

Inductive AIPackKindValidator := mkKindValidator.
Inductive AIPackCompositionValidator := mkCompositionValidator.
Inductive AIPackAttestationValidator := mkAttestationValidator.

#[export] Instance KindValidator_ValidateAIPack : AIPackValidator AIPackKindValidator := fun _ pack =>
  match ValidateKind (Kind pack) with
  | Some err => invalid (Code (cause err))
  | None =>
      match Family pack with
      | None => valid
      | Some declared =>
          match FamilyForKind (Kind pack) with
          | None => invalid "AIPACK-KIND-000"
          | Some expected => if declared !=? expected then invalid "AIPACK-KIND-001" else valid
          end
      end
  end.

#[export] Instance CompositionValidator_ValidateAIPack : AIPackValidator AIPackCompositionValidator := fun _ pack =>
  let checked_source :=
    if SourceRef pack !=? "" then
      match ValidateRef (SourceRef pack) with Some _ => Some (invalid "AIPACK-COMP-001") | None => None end
    else None in
  match checked_source with
  | Some res => res
  | None =>
      if (Kind pack !=? KindAgent) then valid
      else match Composition pack with
           | None => valid
           | Some comp =>
               match ValidateComposition (Some comp) with
               | Some err => invalid (Code (cause err))
               | None => valid
               end
           end
  end.

Definition predicateURIs (a : option AIPackAttestation) : list string :=
  match a with None => [] | Some a => PredicateURI <$> Predicates a end.

#[export] Instance AttestationValidator_ValidateAIPack : AIPackValidator AIPackAttestationValidator := fun _ pack =>
  match Attestation pack with
  | None => if bool_decide (RequiredPredicates (Kind pack) <> []) then invalid "AIPACK-ATTEST-001" else valid
  | Some a =>
      if bool_decide (MissingPredicates (Kind pack) (predicateURIs (Some a)) <> []) then invalid "AIPACK-ATTEST-002"
      else valid
  end.

(** A validator of some type, as held by the engine. *)
Definition SomeValidator := AIPackSpec -> AIPackConformanceResult.
Definition some_validator {V} `{AIPackValidator V} (v : V) : SomeValidator := ValidateAIPack v.

Record AIPackConformanceEngine := mkEngine { Validators : list SomeValidator }.

Definition NewDefaultAIPackEngine : AIPackConformanceEngine :=
  mkEngine [some_validator mkKindValidator; some_validator mkCompositionValidator; some_validator mkAttestationValidator].

(** The verdict and the code of the first validator that refuses. *)
Fixpoint check_validators (vs : list SomeValidator) (pack : AIPackSpec) : bool * string :=
  match vs with
  | [] => (true, "")
  | v :: vs => let res := v pack in if Valid res then check_validators vs pack else (false, RCode res)
  end.

Definition Check (e : AIPackConformanceEngine) (pack : AIPackSpec) : bool * string :=
  check_validators (Validators e) pack.

(** ** Verification of attestations *)

Definition HasRequiredAIPackAttestations (kind : ArtifactKind) (attestation : option AIPackAttestation) : bool :=
  if bool_decide (RequiredPredicates kind = []) then false
  else match attestation with
       | None => false
       | Some _ => bool_decide (MissingPredicates kind (predicateURIs attestation) = [])
       end.

Record AIPackVerificationResult := mkVerification {
  Verified : bool;
  VerifiedAt : Time;
  FailedPredicates : list string
}.

(** The entries without a URI are numbered among themselves. *)
Definition emptyPredicateEntries (a : AIPackAttestation) : list string :=
  fold_left (fun empty e =>
    if PredicateURI e ==? "" then empty ++ ["entry[" +:+ Itoa (Z.of_nat (length empty)) +:+ "]"] else empty)
    (Predicates a) [].

Definition find_step (uri : string) (acc : option (option PredicateEntry)) (e : PredicateEntry)
  : option (option PredicateEntry) :=
  match acc with
  | None => None
  | Some found =>
      if PredicateURI e !=? uri then Some found
      else match found with Some _ => None | None => Some (Some e) end
  end.

(** The only entry of the URI; [None] when it is absent or repeated. *)
Definition requiredPredicateEntry (a : AIPackAttestation) (uri : string) : option PredicateEntry :=
  match fold_left (find_step uri) (Predicates a) (Some None) with
  | Some (Some e) => Some e
  | _ => None
  end.

Definition digest_shaped (d : string) : bool := HasPrefix d "sha256:" && (Z.of_nat (String.length d) ==? 7 + 64).

Definition entry_invalid (a : AIPackAttestation) (uri : string) : bool :=
  match requiredPredicateEntry a uri with
  | None => true
  | Some e => (RekorLogID e !=? "") || ((EDigest e !=? "") && negb (digest_shaped (EDigest e)))
  end.

Definition trimArtifactRef (ref : string) : string + string :=
  if HasPrefix ref "oci://" then inl (TrimPrefix ref "oci://")
  else if HasPrefix ref "ocis://" then inl (TrimPrefix ref "ocis://")
  else match Index ref "://" with
       | Some i => inr (str_take i ref)
       | None => inl ref
       end.

Record cosignVerifyConfig := mkConfig { keyPath : string; identity : string; issuer : string; rekorURL : string }.

Definition cosignAuthArgs (c : cosignVerifyConfig) : list string :=
  (if keyPath c !=? "" then ["--key"; keyPath c]
   else (if identity c !=? "" then ["--certificate-identity"; identity c] else [])
        ++ (if issuer c !=? "" then ["--certificate-oidc-issuer"; issuer c] else []))
  ++ (if rekorURL c !=? "" then ["--rekor-url"; rekorURL c] else []).

Section Verifier.

(** [Getenv] is the process environment, [cosign] the output of the cosign
    binary on an argument list ([None] when it fails or times out),
    [decode] the fields [predicateType] and [predicate] that [encoding/json]
    finds on a line, and [now] the clock. *)
Context (Getenv : string -> string) (cosign : list string -> option string)
        (decode : string -> option (string * string)) (now : Time).

Definition resolveCosignConfig (a : AIPackAttestation) : option cosignVerifyConfig :=
  let rekor := TrimSpace (Getenv "CKODEX_COSIGN_REKOR_URL") in
  let trustedKeyRef := TrimSpace (Getenv "CKODEX_COSIGN_TRUSTED_KEY_REF") in
  let trustedKeyPath := TrimSpace (Getenv "CKODEX_COSIGN_TRUSTED_KEY_PATH") in
  let requested := TrimSpace (CosignKeyRef a) in
  keyPath ← (if requested !=? "" then
               if (trustedKeyRef ==? "") || (requested !=? trustedKeyRef) then None
               else if trustedKeyPath ==? "" then None
               else Some trustedKeyPath
             else Some trustedKeyPath);
  let identity := if keyPath ==? "" then TrimSpace (Getenv "CKODEX_COSIGN_CERT_IDENTITY") else "" in
  let issuer := if keyPath ==? "" then TrimSpace (Getenv "CKODEX_COSIGN_CERT_OIDC_ISSUER") else "" in
  if (keyPath ==? "") && ((identity ==? "") || (issuer ==? "")) then None
  else Some (mkConfig keyPath identity issuer rekor).

Definition cosignBinaryPath : string :=
  let path := Getenv "CKODEX_COSIGN_BINARY_PATH" in if path !=? "" then path else "/cosign".

Definition runCosignCommand (args : list string) : option string :=
  match args with
  | [] => None
  | _ => if negb (HasPrefix cosignBinaryPath "/") then None else cosign args
  end.

Definition verifyArtifactSignature (ref : string) (cfg : cosignVerifyConfig) : bool :=
  bool_decide (is_Some (runCosignCommand (["verify"] ++ cosignAuthArgs cfg ++ [ref]))).

(** [bufio.Scanner]: the lines without their end; a line of the size of the
    buffer stops the scan with an error. *)
Definition maxTokenSize : Z := 16 * 1024 * 1024.

Definition drop_cr (line : string) : string :=
  match str_drop (String.length line - 1) line with
  | String c EmptyString => if code c ==? 13 then str_take (String.length line - 1) line else line
  | _ => line
  end.

Definition scan_lines (output : string) : list string :=
  let pieces := Split output (String (byte_of 10) "") in
  match last pieces with
  | Some "" => removelast pieces
  | _ => pieces
  end.

(** A line that carries a statement of the predicate. *)
Definition statement_payload (entry : PredicateEntry) (line : string) : option string :=
  let line := TrimSpace (drop_cr line) in
  match line with
  | String c _ =>
      if code c !=? 123 then None
      else match decode line with
           | Some (predicateType, predicate) =>
               if (predicateType !=? PredicateURI entry) || (predicate ==? "") || (predicate ==? "null") then None
               else Some predicate
           | None => None
           end
  | EmptyString => None
  end.

Fixpoint payload_loop (entry : PredicateEntry) (lines : list string) : bool :=
  match lines with
  | [] => false
  | line :: lines =>
      if Z.of_nat (String.length line) >=? maxTokenSize then false
      else match statement_payload entry line with
           | None => payload_loop entry lines
           | Some predicate =>
               if EDigest entry ==? "" then true
               else if negb (digest_shaped (EDigest entry)) then false
               else if EDigest entry ==? "sha256:" +:+ sha256_hex predicate then true
               else payload_loop entry lines
           end
  end.

Definition verifyPredicatePayload (output : string) (entry : PredicateEntry) : bool :=
  payload_loop entry (scan_lines output).

Definition attestation_args (cfg : cosignVerifyConfig) (ref uri : string) : list string :=
  ["verify-attestation"] ++ cosignAuthArgs cfg ++ ["--type"; uri; "--output"; "text"] ++ [ref].

Definition verifyArtifactAttestation (ref : string) (cfg : cosignVerifyConfig) (entry : PredicateEntry) : bool :=
  match runCosignCommand (attestation_args cfg ref (PredicateURI entry)) with
  | None => false
  | Some output => verifyPredicatePayload output entry
  end.

Definition refused (failed : list string) : AIPackVerificationResult + string := inl (mkVerification false now failed).

Definition VerifyAIPackAttestation (kind : ArtifactKind) (ref : string) (attestation : option AIPackAttestation)
  : AIPackVerificationResult + string :=
  if ref ==? "" then refused ["artifact-reference"]
  else if bool_decide (RequiredPredicates kind = []) then refused ["artifact-kind"]
  else match attestation with
  | None => refused (RequiredPredicates kind)
  | Some a =>
      let empty := emptyPredicateEntries a in
      if bool_decide (empty <> []) then refused empty else
      let missing := MissingPredicates kind (predicateURIs (Some a)) in
      if bool_decide (missing <> []) then refused missing else
      let invalidEntries := List.filter (entry_invalid a) (RequiredPredicates kind) in
      if bool_decide (invalidEntries <> []) then refused invalidEntries else
      match trimArtifactRef ref with
      | inr scheme => inr scheme
      | inl trimmedRef =>
          match resolveCosignConfig a with
          | None => refused ["cosign-signature"]
          | Some cfg =>
              let failed :=
                (if verifyArtifactSignature trimmedRef cfg then [] else ["cosign-signature"])
                ++ List.filter (fun uri =>
                     match requiredPredicateEntry a uri with
                     | Some entry => negb (verifyArtifactAttestation trimmedRef cfg entry)
                     | None => true
                     end) (RequiredPredicates kind) in
              if bool_decide (failed <> []) then refused failed
              else inl (mkVerification true now [])
          end
      end
  end.

End Verifier.

(** ** The webhook and the engine agree *)

Lemma webhook_kind pack : validateKind pack = [] -> Valid (ValidateAIPack mkKindValidator pack) = true /\ Kind pack ∈ kinds.
Proof.
  unfold validateKind, ValidateAIPack, KindValidator_ValidateAIPack. rewrite <- kind_known_iff.
  destruct (ValidateKind (Kind pack)) as [e|] eqn:E; [done|]. destruct (Family pack) as [f|]; [|done].
  unfold ValidateKind, FamilyForKind in *. destruct (KindFamilyMap !! Kind pack); [|done].
  by case_bool_decide.
Qed.

Lemma webhook_composition pack :
  validateSource pack = [] -> validateComposition pack = [] ->
  Valid (ValidateAIPack mkCompositionValidator pack) = true.
Proof.
  unfold validateSource, validateComposition, ValidateAIPack, CompositionValidator_ValidateAIPack. intros Hs Hc.
  assert ((if SourceRef pack !=? "" then match ValidateRef (SourceRef pack) with
      Some _ => Some (invalid "AIPACK-COMP-001") | None => None end else None) = None) as ->.
  { destruct (bool_decide_reflect (SourceRef pack = "")); [done|]. simpl in *. by destruct (ValidateRef _). }
  destruct (bool_decide_reflect (Kind pack = KindAgent)); cbn [negb] in *; [|done].
  destruct (Composition pack) as [comp|]; [|done]. by destruct (ValidateComposition (Some comp)).
Qed.

(** The predicates the kind requires are all declared. *)
Definition attested (pack : AIPackSpec) : Prop :=
  exists a, Attestation pack = Some a /\ forall p, p ∈ RequiredPredicates (Kind pack) -> p ∈ PredicateURI <$> Predicates a.

Lemma attestation_validator_iff pack : Kind pack ∈ kinds ->
  let res := ValidateAIPack mkAttestationValidator pack in
  (Valid res = true <-> attested pack)
  /\ (Valid res = false -> RCode res = "AIPACK-ATTEST-001" \/ RCode res = "AIPACK-ATTEST-002").
Proof.
  intros Hk res. subst res. unfold ValidateAIPack, AttestationValidator_ValidateAIPack, attested.
  apply required_known in Hk. destruct (Attestation pack) as [a|].
  - pose proof (missing_nil (Kind pack) (predicateURIs (Some a))) as Hm. simpl in Hm.
    case_bool_decide as E; simpl; [|split; [|done]].
    + split; [|auto]. split; [done|]. intros (a' & [= <-] & H). by destruct E; apply Hm.
    + split; [|done]. intros _. exists a. split; [done|]. apply Hm. by destruct (MissingPredicates _ _); [|destruct E].
  - rewrite bool_decide_true by done. simpl. split; [|auto]. split; [done|]. by intros (? & ? & _).
Qed.

(** C24. The admission webhook and the conformance engine agree: a package the
    webhook admits passes the kind and composition validators of the engine,
    so the engine accepts it exactly when its attestation block declares every
    predicate its kind requires, and refuses it only with an attestation
    code. *)
Theorem admitted_package_conformance pack (H : ValidateCreate pack = []) :
  (Check NewDefaultAIPackEngine pack = (true, "") <-> attested pack)
  /\ (fst (Check NewDefaultAIPackEngine pack) = false ->
      snd (Check NewDefaultAIPackEngine pack) = "AIPACK-ATTEST-001"
      \/ snd (Check NewDefaultAIPackEngine pack) = "AIPACK-ATTEST-002").
Proof.
  unfold ValidateCreate, validate in H. apply app_eq_nil in H as [Hk H]. apply app_eq_nil in H as [Hs H].
  apply app_eq_nil in H as [Hc _]. apply webhook_kind in Hk as [Hk Hkind].
  pose proof (webhook_composition pack Hs Hc) as Hcomp.
  destruct (attestation_validator_iff pack Hkind) as [Ha Hcode].
  unfold Check, NewDefaultAIPackEngine, some_validator. cbn [check_validators Validators]. rewrite Hk, Hcomp, <- Ha.
  destruct (Valid (ValidateAIPack mkAttestationValidator pack)); cbn [fst snd]; [done|]. split; [done|auto].
Qed.

Definition w_digest : string := "@sha256:0123456789abcdef0123456789abcdef0123456789abcdef0123456789abcdef".

Definition w_entry (uri : string) : PredicateEntry := mkEntry uri "" "".

Definition w_pack : AIPackSpec :=
  mkSpec KindEval (Some FamilyAssurance) ("registry/eval" +:+ w_digest) None
    (Some (mkAttestation [w_entry PredSLSAProvenance; w_entry PredCycloneDXBOM] "" ""))
    None None None (Some (mkEval "registry/harness")).

Lemma admitted_package_conformance_witness :
  ValidateCreate w_pack = [] /\ Check NewDefaultAIPackEngine w_pack = (true, "").
Proof.
  assert (ValidateCreate w_pack = []) as H by (vm_compute; reflexivity).
  split; [exact H|]. apply (admitted_package_conformance w_pack H). eexists. split; [reflexivity|].
  apply Forall_forall. apply (bool_decide_unpack (Forall _ _)). vm_compute. exact Logic.I.
Defined.

(** ** What a verified attestation guarantees *)

Lemma requiredPredicateEntry_iff a uri e :
  requiredPredicateEntry a uri = Some e <-> filter (fun e => PredicateURI e = uri) (Predicates a) = [e].
Proof.
  unfold requiredPredicateEntry.
  assert (forall l acc, fold_left (find_step uri) l acc =
    match acc, filter (fun e => PredicateURI e = uri) l with
    | Some None, [] => Some None
    | Some None, [e] => Some (Some e)
    | Some (Some e), [] => Some (Some e)
    | _, _ => None
    end) as ->.
  { induction l as [|x l IH]; intros acc; [by destruct acc as [[|]|]|].
    simpl. rewrite IH, filter_cons. unfold find_step. destruct acc as [[f|]|]; simpl.
    - destruct (bool_decide_reflect (PredicateURI x = uri)); simpl.
      + rewrite decide_True by done. by destruct (filter _ l).
      + by rewrite decide_False by done.
    - destruct (bool_decide_reflect (PredicateURI x = uri)); simpl.
      + rewrite decide_True by done. by destruct (filter _ l).
      + by rewrite decide_False by done.
    - done. }
  destruct (filter _ _) as [|x [|y l]]; naive_solver.
Qed.

Lemma filter_nil_false {A} (f : A -> bool) l : List.filter f l = [] <-> Forall (fun x => f x = false) l.
Proof.
  induction l as [|x l IH]; simpl; [done|]. rewrite Forall_cons, <- IH. destruct (f x); naive_solver.
Qed.

Section Guarantee.
Context (Getenv : string -> string) (cosign : list string -> option string)
        (decode : string -> option (string * string)) (now : Time).

(** The output has a statement of the type [uri] on a line the scanner reaches,
    with a payload of the digest that is declared, if one is. *)
Definition states (uri digest output : string) : Prop :=
  exists before line after payload,
    scan_lines output = before ++ line :: after
    /\ Forall (fun l => Z.of_nat (String.length l) < maxTokenSize) (before ++ [line])
    /\ HasPrefix (TrimSpace (drop_cr line)) "{" = true /\ decode (TrimSpace (drop_cr line)) = Some (uri, payload)
    /\ payload <> "" /\ payload <> "null"
    /\ (digest = "" \/ digest = "sha256:" +:+ sha256_hex payload).

Lemma statement_payload_sound entry line payload : statement_payload decode entry line = Some payload ->
  HasPrefix (TrimSpace (drop_cr line)) "{" = true /\ decode (TrimSpace (drop_cr line)) = Some (PredicateURI entry, payload)
  /\ payload <> "" /\ payload <> "null".
Proof.
  unfold statement_payload. cbv zeta. destruct (TrimSpace (drop_cr line)) as [|c rest]; [done|].
  destruct (bool_decide_reflect (code c = 123)) as [Hc|]; cbn [negb]; [|done].
  destruct (decode (String c rest)) as [[ty pl]|] eqn:E; [|done].
  destruct (bool_decide_reflect (ty = PredicateURI entry)) as [->|]; cbn [negb orb]; [|done].
  repeat case_bool_decide; cbn [orb]; try done. intros [= ->]. split_and!; try done.
  assert (c = "{"%char) as -> by (rewrite <- (ascii_N_embedding c); unfold code in Hc; by replace (N_of_ascii c) with 123%N by lia).
  unfold HasPrefix. cbn. by destruct rest.
Qed.

Lemma run_cosign args output : runCosignCommand Getenv cosign args = Some output -> cosign args = Some output.
Proof. unfold runCosignCommand. destruct args; [done|]. by destruct (negb _). Qed.

Lemma payload_loop_sound entry lines :
  payload_loop decode entry lines = true ->
  exists before line after payload, lines = before ++ line :: after
    /\ Forall (fun l => Z.of_nat (String.length l) < maxTokenSize) (before ++ [line])
    /\ statement_payload decode entry line = Some payload
    /\ (EDigest entry = "" \/ EDigest entry = "sha256:" +:+ sha256_hex payload).
Proof.
  induction lines as [|line lines IH]; simpl; [done|].
  destruct (bool_decide_reflect (maxTokenSize <= Z.of_nat (String.length line))) as [|Hlen]; [done|].
  assert (Z.of_nat (String.length line) < maxTokenSize) as Hl by lia.
  assert (payload_loop decode entry lines = true -> exists before line0 after payload,
    line :: lines = before ++ line0 :: after
    /\ Forall (fun l => Z.of_nat (String.length l) < maxTokenSize) (before ++ [line0])
    /\ statement_payload decode entry line0 = Some payload
    /\ (EDigest entry = "" \/ EDigest entry = "sha256:" +:+ sha256_hex payload)) as Hnext.
  { intros H. destruct (IH H) as (b & l & a & p & -> & Hb & Hp). exists (line :: b), l, a, p.
    split; [done|]. split; [by constructor|done]. }
  destruct (statement_payload decode entry line) as [payload|] eqn:Ep; [|exact Hnext].
  assert ((EDigest entry = "" \/ EDigest entry = "sha256:" +:+ sha256_hex payload) -> exists before line0 after payload,
    line :: lines = before ++ line0 :: after
    /\ Forall (fun l => Z.of_nat (String.length l) < maxTokenSize) (before ++ [line0])
    /\ statement_payload decode entry line0 = Some payload
    /\ (EDigest entry = "" \/ EDigest entry = "sha256:" +:+ sha256_hex payload)) as Hhere.
  { intros Hd. exists [], line, lines, payload. split; [done|]. split; [by repeat constructor|done]. }
  case_bool_decide; [auto|]. destruct (negb _); [done|]. case_bool_decide; [auto|exact Hnext].
Qed.

(** The arguments with which cosign is told whom to trust come from the
    operator's environment alone: a key, or an identity with its issuer; a
    package that names a key must name the operator's. *)
Definition operator_trust (a : AIPackAttestation) (auth : list string) : Prop :=
  let var name := TrimSpace (Getenv name) in
  let key := var "CKODEX_COSIGN_TRUSTED_KEY_PATH" in
  let who := var "CKODEX_COSIGN_CERT_IDENTITY" in
  let issuer := var "CKODEX_COSIGN_CERT_OIDC_ISSUER" in
  let log := var "CKODEX_COSIGN_REKOR_URL" in
  (TrimSpace (CosignKeyRef a) <> "" -> TrimSpace (CosignKeyRef a) = var "CKODEX_COSIGN_TRUSTED_KEY_REF" /\ key <> "")
  /\ exists trust, auth = trust ++ (if log ==? "" then [] else ["--rekor-url"; log])
     /\ ((key <> "" /\ trust = ["--key"; key])
         \/ (key = "" /\ who <> "" /\ issuer <> "" /\ trust = ["--certificate-identity"; who; "--certificate-oidc-issuer"; issuer])).

Lemma resolve_operator_trust a cfg : resolveCosignConfig Getenv a = Some cfg -> operator_trust a (cosignAuthArgs cfg).
Proof.
  unfold resolveCosignConfig, operator_trust, cosignAuthArgs, mbind, option_bind. cbv zeta.
  set (key := TrimSpace (Getenv "CKODEX_COSIGN_TRUSTED_KEY_PATH")). set (log := TrimSpace (Getenv "CKODEX_COSIGN_REKOR_URL")).
  set (who := TrimSpace (Getenv "CKODEX_COSIGN_CERT_IDENTITY")). set (iss := TrimSpace (Getenv "CKODEX_COSIGN_CERT_OIDC_ISSUER")).
  set (kref := TrimSpace (Getenv "CKODEX_COSIGN_TRUSTED_KEY_REF")). set (req := TrimSpace (CosignKeyRef a)). clearbody key log who iss kref req.
  intros H.
  assert ((req <> "" -> req = kref /\ key <> "") /\ (key <> "" \/ (who <> "" /\ iss <> ""))
    /\ cfg = mkConfig key (if key ==? "" then who else "") (if key ==? "" then iss else "") log) as (Hreq & Hwho & ->).
  { repeat case_bool_decide; simpl in H; try discriminate H; repeat case_bool_decide; simpl in H; simplify_eq; split_and!; try done; auto. }
  split; [done|]. cbn. destruct (bool_decide_reflect (key = "")) as [->|Hk]; cbn [negb].
  - destruct Hwho as [|[Hw Hi]]; [done|]. rewrite (bool_decide_false (who = "")), (bool_decide_false (iss = "")) by done.
    exists ["--certificate-identity"; who; "--certificate-oidc-issuer"; iss]. split; [|by auto]. cbn. by destruct (bool_decide (log = "")).
  - exists ["--key"; key]. split; [by destruct (bool_decide (log = ""))|auto].
Qed.

(** What a reference names: itself, without the scheme of a registry. *)
Definition names (ref target : string) : Prop :=
  ref = "oci://" +:+ target \/ ref = "ocis://" +:+ target \/ (ref = target /\ Index ref "://" = None).

Lemma TrimPrefix_app p r : TrimPrefix (p +:+ r) p = r.
Proof. unfold TrimPrefix. rewrite HasPrefix_app. apply str_drop_app. Qed.

Lemma trimArtifactRef_names ref target : trimArtifactRef ref = inl target -> names ref target.
Proof.
  unfold trimArtifactRef, names. destruct (HasPrefix ref "oci://") eqn:E1; [|destruct (HasPrefix ref "ocis://") eqn:E2].
  - intros [= <-]. left. apply prefix_app in E1 as [r ->]. by rewrite TrimPrefix_app.
  - intros [= <-]. right. left. apply prefix_app in E2 as [r ->]. by rewrite TrimPrefix_app.
  - destruct (Index ref "://") eqn:E3; [done|]. intros [= ->]. auto.
Qed.

(** C23. A verified attestation is backed by cosign under the operator's trust
    material.  When [VerifyAIPackAttestation] reports a package verified, its
    kind is known and cosign, called with arguments that name the key or
    identity configured in the operator's environment (a package cannot
    introduce its own), verified the signature of the artifact; and for every
    predicate the kind requires the package declares exactly one entry, and
    cosign, called for that artifact and that predicate with the same
    arguments, put out a statement of that type whose payload has the declared
    digest, if one is declared. *)
Theorem verified_attestation_backed kind ref attestation r
  (Hv : VerifyAIPackAttestation Getenv cosign decode now kind ref attestation = inl r)
  (Hr : Verified r = true) :
  exists a auth target,
    attestation = Some a /\ kind ∈ kinds /\ names ref target /\ operator_trust a auth
    /\ is_Some (cosign (["verify"] ++ auth ++ [target]))
    /\ forall uri, uri ∈ RequiredPredicates kind ->
       exists entry output,
         filter (fun e => PredicateURI e = uri) (Predicates a) = [entry] /\ RekorLogID entry = ""
         /\ cosign (["verify-attestation"] ++ auth ++ ["--type"; uri; "--output"; "text"; target]) = Some output
         /\ states uri (EDigest entry) output.
Proof.
  unfold VerifyAIPackAttestation, refused in Hv. cbv zeta in Hv.
  repeat (go_head; try solve [injection Hv as <-; discriminate Hr | discriminate Hv]).
  match goal with H : resolveCosignConfig _ _ = Some _ |- _ => rename H into Hcfg end.
  match goal with H : ~ RequiredPredicates _ = [] |- _ => rename H into Hk end.
  match goal with H : ~ List.filter (entry_invalid _) _ <> [] |- _ => apply dec_stable in H; rename H into Hi end.
  match goal with H : ~ _ ++ _ <> [] |- _ => apply dec_stable, app_eq_nil in H as [Hs Hf] end.
  rewrite filter_nil_false, Forall_forall in Hi, Hf.
  rename c into cfg, s into target. exists a, (cosignAuthArgs cfg), target. split; [done|]. split; [by apply required_known|].
  split; [by apply trimArtifactRef_names|]. split; [by apply resolve_operator_trust|]. split.
  { unfold verifyArtifactSignature in Hs. case_bool_decide as Hc; [|done]. destruct Hc as [out Hc]. exists out. by apply run_cosign in Hc. }
  intros uri Hu. specialize (Hi uri Hu). specialize (Hf uri Hu). unfold entry_invalid in Hi.
  destruct (requiredPredicateEntry a uri) as [entry|] eqn:He; [|done].
  apply negb_false_iff in Hf. unfold verifyArtifactAttestation in Hf. apply requiredPredicateEntry_iff in He.
  assert (PredicateURI entry = uri) as Huri.
  { assert (entry ∈ filter (fun e => PredicateURI e = uri) (Predicates a)) as Hin by (rewrite He; left).
    by apply list_elem_of_filter in Hin as [? _]. }
  rewrite Huri in Hf. destruct (runCosignCommand _ _ _) as [output|] eqn:Ho; [|done]. apply run_cosign in Ho.
  exists entry, output. split; [done|]. split; [by destruct (bool_decide_reflect (RekorLogID entry = ""))|].
  split; [exact Ho|]. apply payload_loop_sound in Hf as (before & line & after & payload & H1 & H2 & H3%statement_payload_sound & H4).
  rewrite Huri in H3. destruct H3 as (? & ? & ? & ?). by exists before, line, after, payload.
Qed.

End Guarantee.

(** A concrete run: one key configured by the operator, and a cosign whose
    output carries both statements. *)
Definition w_env (name : string) : string :=
  if name ==? "CKODEX_COSIGN_TRUSTED_KEY_PATH" then "/keys/cosign.pub" else "".

(** Lines are decoded as a statement of the SLSA predicate or the bill of
    materials, whichever they mention. *)
Definition w_output (args : list string) : option string :=
  Some ("{" +:+ Join " " args +:+ String (byte_of 10) "").

Definition w_decode (line : string) : option (string * string) :=
  if Contains line PredSLSAProvenance then Some (PredSLSAProvenance, "{}")
  else if Contains line PredCycloneDXBOM then Some (PredCycloneDXBOM, "{}") else None.

Lemma verified_attestation_backed_witness :
  exists a auth target, Attestation w_pack = Some a /\ names ("registry/eval" +:+ w_digest) target /\ operator_trust w_env a auth
    /\ exists output, w_output (["verify-attestation"] ++ auth ++ ["--type"; PredSLSAProvenance; "--output"; "text"; target]) = Some output.
Proof.
  destruct (verified_attestation_backed w_env w_output w_decode 7 KindEval ("registry/eval" +:+ w_digest)
              (Attestation w_pack) (mkVerification true 7 [])) as (a & auth & target & Ha & _ & Hn & Hc & _ & Hu).
  - vm_compute. reflexivity.
  - reflexivity.
  - exists a, auth, target. split; [exact Ha|]. split; [exact Hn|]. split; [exact Hc|].
    destruct (Hu PredSLSAProvenance) as (e & o & _ & _ & Ho & _); [apply (bool_decide_unpack _); vm_compute; exact Logic.I|]. exists o. exact Ho.
Defined.
