(* ===== verification/LoraGovernance.v ===== *)
(** * Governance of LoRA adapters ([internal/governance])

    [conformance.go], [policy.go] and [evidence.go]: the conformance engine
    over an adapter, the state transition that follows it, the supply-chain
    evidence tests, and the aggregation of the state planes of a service and
    its adapters.  Whether the runes of an adapter's name are printable and
    not spaces is an argument (the Unicode tables); messages are left out and
    the reasons kept. *)

From S2P Require Import Prelude.

(** ** Data *)

Record StatePlanes := mkPlanes {
  Lifecycle : string;
  Trust : string;
  Binding : string;
  PComposition : string;
  Risk : string
}.

Record EvidenceBundle := mkBundle {
  AttestationURI : string;
  SignatureDigest : string;
  SBOMDigest : string;
  LastVerifiedAt : option Time
}.

Record BehaviorMetadata := mkBehavior { Safety : Z }.
Record PolicyEnvelope := mkEnvelope { MinTrustLevel : string }.

(** The parts of an [LLMLoraAdapter] that governance reads and writes. *)
Record LLMLoraAdapter := mkAdapter {
  AdapterName : string;
  Behavior : option BehaviorMetadata;
  Envelope : option PolicyEnvelope;
  Planes : StatePlanes;
  Bundle : EvidenceBundle
}.

Definition set_planes (a : LLMLoraAdapter) (p : StatePlanes) : LLMLoraAdapter :=
  mkAdapter (AdapterName a) (Behavior a) (Envelope a) p (Bundle a).

Definition stamp (a : LLMLoraAdapter) (now : Time) : LLMLoraAdapter :=
  let b := Bundle a in
  mkAdapter (AdapterName a) (Behavior a) (Envelope a) (Planes a)
    (mkBundle (AttestationURI b) (SignatureDigest b) (SBOMDigest b) (Some now)).

(** ** Evidence *)

Definition InternalReceiptScheme : string := "ckodex://".

Definition HasAssertedSupplyChainEvidence (a : LLMLoraAdapter) : bool :=
  (SignatureDigest (Bundle a) !=? "") && (AttestationURI (Bundle a) !=? "") && (SBOMDigest (Bundle a) !=? "").

Definition HasVerifiedSupplyChainEvidence (a : LLMLoraAdapter) : bool :=
  HasAssertedSupplyChainEvidence a && bool_decide (LastVerifiedAt (Bundle a) <> None)
  && negb (HasPrefix (AttestationURI (Bundle a)) InternalReceiptScheme).

(** ** The conformance engine *)

Record ConformanceResult := mkResult { Valid : bool; Reason : string }.

Definition valid : ConformanceResult := mkResult true "".
Definition invalid (reason : string) : ConformanceResult := mkResult false reason.

(** The hierarchy of trust levels; a name that is not in the table scores 0. *)
Definition trustScores : gmap string Z :=
  list_to_map [("unknown", 0); ("asserted", 1); ("verified", 2); ("trusted", 3); ("denied", -1)].

Definition trust_score (t : string) : Z := default 0 (trustScores !! t).

Section Engine.

(** No rune of the name is a space or unprintable. *)
Context (name_printable : string -> bool).

Definition EVIDValidator_Validate (a : LLMLoraAdapter) : ConformanceResult :=
  if negb (HasAssertedSupplyChainEvidence a) then invalid "IncompleteEvidence" else valid.

Definition SBOMValidator_Validate (a : LLMLoraAdapter) : ConformanceResult :=
  if negb (HasAssertedSupplyChainEvidence a) then invalid "MissingSBOM" else valid.

Definition COMPValidator_Validate (a : LLMLoraAdapter) : ConformanceResult :=
  if negb (name_printable (AdapterName a)) then invalid "InvalidAdapterName" else valid.

Definition SAFEValidator_Validate (a : LLMLoraAdapter) : ConformanceResult :=
  match Behavior a with
  | Some b => if Safety b <? 5 then invalid "SafetyViolation" else valid
  | None => valid
  end.

Definition PolicyValidator_Validate (a : LLMLoraAdapter) : ConformanceResult :=
  match Envelope a with
  | None => valid
  | Some e =>
      let minTrust := MinTrustLevel e in
      if minTrust ==? "" then valid
      else
        let actualTrust := if Trust (Planes a) ==? "" then "unknown" else Trust (Planes a) in
        if trust_score actualTrust <? trust_score minTrust then invalid "PolicyBlocked" else valid
  end.

Record ConformanceEngine := mkEngine { Validators : list (LLMLoraAdapter -> ConformanceResult) }.

Definition NewDefaultEngine : ConformanceEngine :=
  mkEngine [EVIDValidator_Validate; SBOMValidator_Validate; COMPValidator_Validate; SAFEValidator_Validate;
            PolicyValidator_Validate].

(** The first validator that refuses gives the reason. *)
Fixpoint check_validators (vs : list (LLMLoraAdapter -> ConformanceResult)) (a : LLMLoraAdapter) : bool * string :=
  match vs with
  | [] => (true, "")
  | v :: vs => let res := v a in if negb (Valid res) then (false, Reason res) else check_validators vs a
  end.

Definition Check (e : ConformanceEngine) (a : LLMLoraAdapter) : bool * string := check_validators (Validators e) a.

End Engine.

Definition TransitionStates (a : LLMLoraAdapter) (isValid : bool) (now : Time) : LLMLoraAdapter :=
  let p := Planes a in
  let p' :=
    if negb isValid then mkPlanes "quarantined" "denied" (Binding p) (PComposition p) "quarantined"
    else if (Trust p ==? "verified") || (Trust p ==? "trusted") then
      mkPlanes "active" (Trust p) (Binding p) (PComposition p) "normal"
    else mkPlanes "active" "asserted" (Binding p) (PComposition p) "normal" in
  stamp (set_planes a p') now.

(** ** Aggregation over a service and its adapters *)

Record Condition := mkCondition { Type_ : string; Status : string }.

Definition ConditionFalse : string := "False".

Definition scoreToTrust : gmap Z string :=
  list_to_map [(-1, "denied"); (0, "unknown"); (1, "asserted"); (2, "verified"); (3, "trusted")].

(** The first network-policy condition decides. *)
Fixpoint foundation_score (conds : list Condition) : Z :=
  match conds with
  | [] => trust_score "asserted"
  | c :: conds =>
      if Type_ c ==? "Compliance-AC-4" then
        if Status c ==? ConditionFalse then trust_score "denied" else trust_score "asserted"
      else foundation_score conds
  end.

(** The variables of the loop over the adapters. *)
Record Effective := mkEffective { eLifecycle : string; eRisk : string; currentTrustScore : Z }.

Definition aggregate_step (e : Effective) (a : LLMLoraAdapter) : Effective :=
  let adapterTrust := if Trust (Planes a) ==? "" then "unknown" else Trust (Planes a) in
  mkEffective
    (if Lifecycle (Planes a) !=? "active" then "quarantined" else eLifecycle e)
    (if (Risk (Planes a) ==? "quarantined") || (Risk (Planes a) ==? "evaluating") then "high" else eRisk e)
    (if trust_score adapterTrust <? currentTrustScore e then trust_score adapterTrust else currentTrustScore e).

Definition AggregateStatePlanes (conds : list Condition) (adapters : list LLMLoraAdapter) : StatePlanes :=
  let e := fold_left aggregate_step adapters (mkEffective "active" "normal" (foundation_score conds)) in
  mkPlanes (eLifecycle e)
    (if eLifecycle e ==? "quarantined" then "denied" else default "" (scoreToTrust !! currentTrustScore e))
    "" "" (eRisk e).

(** ** Properties *)

Lemma trust_score_cases t :
  trust_score t = if t ==? "unknown" then 0 else if t ==? "asserted" then 1 else if t ==? "verified" then 2
                  else if t ==? "trusted" then 3 else if t ==? "denied" then -1 else 0.
Proof.
  unfold trust_score, trustScores. cbn [list_to_map foldr fst snd].
  repeat match goal with |- context [bool_decide (t = ?s)] =>
    destruct (bool_decide_reflect (t = s)) as [->|]; [reflexivity|rewrite lookup_insert_ne by done] end.
  by rewrite lookup_empty.
Qed.

Lemma trust_score_range t : -1 <= trust_score t <= 3.
Proof. rewrite trust_score_cases. repeat case_bool_decide; lia. Qed.

Lemma only_denied_negative t : trust_score t <= -1 -> t = "denied".
Proof. rewrite trust_score_cases. repeat case_bool_decide; lia || done. Qed.

(** The adapter's trust as the engine and the aggregation read it. *)
Definition effective_trust (a : LLMLoraAdapter) : Z := trust_score (Trust (Planes a)).

Lemma effective_trust_eq a :
  trust_score (if Trust (Planes a) ==? "" then "unknown" else Trust (Planes a)) = effective_trust a.
Proof. unfold effective_trust. case_bool_decide as E; [by rewrite E|done]. Qed.

Definition meets_policy (a : LLMLoraAdapter) : Prop :=
  forall e, Envelope a = Some e -> MinTrustLevel e = "" \/ trust_score (MinTrustLevel e) <= effective_trust a.

Lemma policy_validator_iff a : Valid (PolicyValidator_Validate a) = true <-> meets_policy a.
Proof.
  unfold PolicyValidator_Validate, meets_policy. destruct (Envelope a) as [e|]; [|naive_solver].
  rewrite effective_trust_eq. destruct (bool_decide_reflect (MinTrustLevel e = "")); [naive_solver|].
  case_bool_decide; simpl.
  - split; [done|]. intros Hx. destruct (Hx e eq_refl); [done|lia].
  - split; [|done]. intros _ ? [= <-]. right. lia.
Qed.

Lemma check_true_iff printable a :
  fst (Check (NewDefaultEngine printable) a) = true <->
  HasAssertedSupplyChainEvidence a = true /\ printable (AdapterName a) = true
  /\ (forall b, Behavior a = Some b -> 5 <= Safety b) /\ meets_policy a.
Proof.
  unfold Check, NewDefaultEngine. cbn [check_validators Validators].
  rewrite <- policy_validator_iff. unfold EVIDValidator_Validate, SBOMValidator_Validate, COMPValidator_Validate.
  destruct (HasAssertedSupplyChainEvidence a); simpl; [|naive_solver].
  destruct (printable (AdapterName a)); simpl; [|naive_solver].
  assert (Valid (SAFEValidator_Validate a) = true <-> (forall b, Behavior a = Some b -> 5 <= Safety b)) as Hs.
  { unfold SAFEValidator_Validate. destruct (Behavior a) as [b|]; [|naive_solver].
    case_bool_decide; simpl; [|naive_solver lia]. split; [done|]. intros Hx. specialize (Hx b eq_refl). lia. }
  rewrite <- Hs. destruct (Valid (SAFEValidator_Validate a)); simpl; [|naive_solver].
  destruct (Valid (PolicyValidator_Validate a)); simpl; naive_solver.
Qed.

(** An adapter passes the engine exactly when its evidence bundle is
    complete, its name can be routed, a declared safety score is at least 5
    and its trust reaches the level of its envelope.  A failed check
    quarantines it with its trust denied, after which any envelope with a
    minimum level other than [denied] keeps failing it, whatever evidence,
    name or safety score it gets, until its trust is raised from outside. *)
Theorem adapter_governance printable a now :
  (fst (Check (NewDefaultEngine printable) a) = true <->
     HasAssertedSupplyChainEvidence a = true /\ printable (AdapterName a) = true
     /\ (forall b, Behavior a = Some b -> 5 <= Safety b)
     /\ (forall e, Envelope a = Some e -> MinTrustLevel e = "" \/ trust_score (MinTrustLevel e) <= effective_trust a))
  /\ (forall b, let q := TransitionStates a false now in
      Planes b = Planes q -> Envelope b = Envelope a ->
      Lifecycle (Planes b) = "quarantined" /\ Trust (Planes b) = "denied"
      /\ ((exists e, Envelope a = Some e /\ MinTrustLevel e <> "" /\ MinTrustLevel e <> "denied") ->
          fst (Check (NewDefaultEngine printable) b) = false)).
Proof.
  split; [apply check_true_iff|]. intros b q Hp He. rewrite Hp. split; [done|]. split; [done|].
  intros (e & Hae & Hne & Hnd). destruct (fst (Check _ b)) eqn:E; [|done]. exfalso.
  apply check_true_iff in E as (_ & _ & _ & Hm). rewrite <- He in Hae. destruct (Hm e Hae) as [|Hle]; [done|].
  unfold effective_trust in Hle. rewrite Hp in Hle. simpl in Hle.
  assert (trust_score "denied" = -1) as Hd by reflexivity. rewrite Hd in Hle.
  apply only_denied_negative in Hle. done.
Qed.

(** ** Properties of the aggregation *)

Definition active (a : LLMLoraAdapter) : Prop := Lifecycle (Planes a) = "active".
Definition risky (a : LLMLoraAdapter) : Prop := Risk (Planes a) = "quarantined" \/ Risk (Planes a) = "evaluating".

Record aggregated (e : Effective) (l : list LLMLoraAdapter) (e' : Effective) : Prop := {
  ag_lifecycle : (eLifecycle e' = "active" /\ eLifecycle e = "active" /\ Forall active l)
                 \/ (eLifecycle e' = "quarantined" /\ (eLifecycle e = "quarantined" \/ ~ Forall active l));
  ag_risk : (eRisk e' = "normal" /\ eRisk e = "normal" /\ ~ Exists risky l)
            \/ (eRisk e' = "high" /\ (eRisk e = "high" \/ Exists risky l));
  ag_trust c : c <= currentTrustScore e' <-> c <= currentTrustScore e /\ Forall (fun a => c <= effective_trust a) l
}.

Lemma fold_planes l e :
  eLifecycle e = "active" \/ eLifecycle e = "quarantined" -> eRisk e = "normal" \/ eRisk e = "high" ->
  aggregated e l (fold_left aggregate_step l e).
Proof.
  revert e. induction l as [|a l IH]; intros e Hl Hr; simpl.
  - split; [..|intros c]; rewrite ?Forall_nil, ?Exists_nil; intuition.
  - destruct (IH (aggregate_step e a)) as [H1 H2 H3];
      [simpl; case_bool_decide; simpl; tauto|simpl; repeat case_bool_decide; simpl; tauto|].
    generalize dependent (fold_left aggregate_step l (aggregate_step e a)). intros e' H1 H2 H3.
    unfold aggregate_step in H1, H2, H3. cbn [eLifecycle eRisk currentTrustScore] in H1, H2, H3.
    rewrite effective_trust_eq in H3. split; [| |intros c].
    + rewrite Forall_cons. destruct (bool_decide_reflect (Lifecycle (Planes a) = "active")) as [E|E];
        change (Lifecycle (Planes a) = "active") with (active a) in E; cbn [negb] in H1; [tauto|].
      destruct H1 as [(_ & ? & _)|[? _]]; [done|]. right. split; [done|]. right. tauto.
    + rewrite Exists_cons. assert (risky a \/ ~ risky a) as [E|E] by (unfold risky; destruct
        (decide (Risk (Planes a) = "quarantined")), (decide (Risk (Planes a) = "evaluating")); tauto).
      * assert ((Risk (Planes a) ==? "quarantined") || (Risk (Planes a) ==? "evaluating") = true) as Eb
          by (destruct E as [E|E]; rewrite E; reflexivity).
        rewrite Eb in H2. destruct H2 as [(_ & ? & _)|[? _]]; [done|tauto].
      * rewrite !bool_decide_false in H2 by (unfold risky in E; tauto). cbn [orb] in H2. tauto.
    + rewrite H3, Forall_cons. case_bool_decide; intuition lia.
Qed.

Lemma foundation_score_cases conds : foundation_score conds = 1 \/ foundation_score conds = -1.
Proof. induction conds as [|c conds IH]; simpl; [by left|]. repeat case_bool_decide; auto. Qed.

Lemma score_of_level s : -1 <= s <= 3 -> trust_score (default "" (scoreToTrust !! s)) = s.
Proof.
  intros H. assert (s = -1 \/ s = 0 \/ s = 1 \/ s = 2 \/ s = 3) as [->|[->|[->|[->| ->]]]] by lia; reflexivity.
Qed.

(** A composite is as strong as its weakest part, in whatever order the
    adapters are listed: it is active exactly when every adapter is, its risk
    is normal exactly when no adapter is quarantined or under evaluation, and
    the trust of an active composite is the least of the adapters' trust and
    of [asserted] (or [denied], when the network policy of the service is
    broken), so it is never reported above [asserted].  A composite that is
    not active is denied. *)
Theorem composite_weakest_link conds adapters adapters' (Hperm : adapters ≡ₚ adapters') :
  let s := AggregateStatePlanes conds adapters in
  s = AggregateStatePlanes conds adapters'
  /\ (Lifecycle s = "active" <-> Forall active adapters)
  /\ (Risk s = "normal" <-> ~ Exists risky adapters)
  /\ (~ Forall active adapters -> Trust s = "denied")
  /\ (Forall active adapters -> forall c, c <= trust_score (Trust s) <->
        c <= foundation_score conds /\ Forall (fun a => c <= effective_trust a) adapters)
  /\ trust_score (Trust s) <= trust_score "asserted".
Proof.
  assert (forall l, aggregated (mkEffective "active" "normal" (foundation_score conds)) l
    (fold_left aggregate_step l (mkEffective "active" "normal" (foundation_score conds)))) as Hag.
  { intros l. apply fold_planes; by left. }
  pose proof (foundation_score_cases conds) as Hf.
  assert (forall l, -1 <= currentTrustScore (fold_left aggregate_step l (mkEffective "active" "normal" (foundation_score conds))) <= 1) as Hr.
  { intros l. destruct (Hag l) as [_ _ H]. split.
    - apply H. simpl. split; [lia|]. apply Forall_forall. intros a _. apply trust_score_range.
    - destruct (proj1 (H _) (Z.le_refl _)) as [H1 _]. simpl in H1. lia. }
  split.
  { unfold AggregateStatePlanes. pose proof (Hr adapters) as R. pose proof (Hr adapters') as R'.
    destruct (Hag adapters) as [L1 R1 T1], (Hag adapters') as [L2 R2 T2]. cbn [eLifecycle eRisk currentTrustScore] in *.
    set (x := fold_left _ adapters _) in *. set (y := fold_left _ adapters' _) in *.
    assert (currentTrustScore x = currentTrustScore y) as Ht.
    { apply Z.le_antisymm; [apply T2; rewrite <- Hperm; apply T1|apply T1; rewrite Hperm; apply T2]; lia. }
    assert (eLifecycle x = eLifecycle y) as ->.
    { rewrite <- Hperm in L2. destruct L1 as [(->&_&?)|[-> [|?]]], L2 as [(->&_&?)|[-> [|?]]]; done. }
    assert (eRisk x = eRisk y) as ->.
    { rewrite <- Hperm in R2. destruct R1 as [(->&_&?)|[-> [|?]]], R2 as [(->&_&?)|[-> [|?]]]; done. }
    by rewrite Ht. }
  unfold AggregateStatePlanes. pose proof (Hr adapters) as R. destruct (Hag adapters) as [L1 R1 T1].
  cbn [Lifecycle Risk Trust eLifecycle eRisk currentTrustScore] in *.
  set (x := fold_left _ adapters _) in *.
  destruct L1 as [(->&_&Hact)|[-> [|Hact]]]; [|done|].
  - split; [done|]. split; [destruct R1 as [(->&_&?)|[-> [|?]]]; done|]. split; [done|].
    rewrite (bool_decide_false ("active" = "quarantined")) by done. rewrite score_of_level by lia.
    split; [by intros _|]. change (trust_score "asserted") with 1. lia.
  - split; [done|]. split; [destruct R1 as [(->&_&?)|[-> [|?]]]; done|]. split; [done|]. split; [done|].
    rewrite (bool_decide_true ("quarantined" = "quarantined")) by done.
    change (trust_score "denied") with (-1). change (trust_score "asserted") with 1. lia.
Qed.

Definition w_adapter (lifecycle trust risk : string) : LLMLoraAdapter :=
  mkAdapter "sql" None None (mkPlanes lifecycle trust "" "" risk) (mkBundle "https://rekor/1" "sha256:aa" "sha256:bb" None).

Lemma composite_weakest_link_witness :
  let adapters := [w_adapter "active" "verified" "normal"; w_adapter "active" "unknown" "evaluating"] in
  adapters ≡ₚ reverse adapters
  /\ AggregateStatePlanes [] adapters = AggregateStatePlanes [] (reverse adapters)
  /\ AggregateStatePlanes [] adapters = mkPlanes "active" "unknown" "" "" "high".
Proof.
  intros adapters. assert (adapters ≡ₚ reverse adapters) as H by (symmetry; apply reverse_Permutation).
  split; [exact H|]. split; [apply (composite_weakest_link [] _ _ H)|reflexivity].
Defined.

(** A composite of verified adapters alone is reported as asserted. *)
Example verified_reported_asserted :
  Trust (AggregateStatePlanes [] [w_adapter "active" "verified" "normal"]) = "asserted".
Proof. reflexivity. Qed.

(** Any state transition, even into quarantine, stamps the verification time,
    so asserted evidence with an external URI then counts as verified. *)
Lemma transition_counts_as_verification a isValid now :
  HasVerifiedSupplyChainEvidence (TransitionStates a isValid now) =
  HasAssertedSupplyChainEvidence a && negb (HasPrefix (AttestationURI (Bundle a)) InternalReceiptScheme).
Proof.
  unfold HasVerifiedSupplyChainEvidence, HasAssertedSupplyChainEvidence, TransitionStates, stamp, set_planes.
  cbn [Bundle LastVerifiedAt AttestationURI SignatureDigest SBOMDigest].
  rewrite (bool_decide_true (Some now <> None)) by done. by rewrite andb_true_r.
Qed.

(** A minimum trust level that is not spelled like one of the five is met by an
    adapter of unknown trust. *)
Example misspelled_level_met :
  Valid (PolicyValidator_Validate
    (mkAdapter "sql" None (Some (mkEnvelope "Verified")) (mkPlanes "active" "" "" "" "") (mkBundle "" "" "" None))) = true.
Proof. reflexivity. Qed.
