(* ===== verification/DecisionProfile.v ===== *)
(** * Substrate evaluation of serving profiles ([internal/governance/decision_profile.go])

    Six dimensions of an evaluator's execution substrate are observed and
    combined into a report.  The loop that collects the failures ranges over
    a Go map: its order is an argument.  The name tables and the trust scores
    are those of the source; scores are [float64]. *)

From S2P Require Import Prelude GoFloat LoraGovernance.

(** ** Data ([api/v1alpha2/modelservingprofile_types.go]) *)

Definition WorkloadClass := string.
Definition WorkloadClassGenerative : WorkloadClass := "generative".
Definition WorkloadClassEmbedding : WorkloadClass := "embedding".
Definition WorkloadClassReranking : WorkloadClass := "reranking".
Definition WorkloadClassEvaluation : WorkloadClass := "evaluation".
Definition WorkloadClassDecision : WorkloadClass := "decision".

Definition DecisionCapability := string.
Definition DecisionCapabilityPredicate : DecisionCapability := "predicate".
Definition DecisionCapabilityChoice : DecisionCapability := "choice".
Definition DecisionCapabilityScore : DecisionCapability := "score".

Definition SubstrateVectorState := string.
Definition VectorStatePending : SubstrateVectorState := "PENDING".
Definition VectorStateSatisfied : SubstrateVectorState := "SATISFIED".
Definition VectorStateDegraded : SubstrateVectorState := "DEGRADED".
Definition VectorStateFailed : SubstrateVectorState := "FAILED".

Definition SubstrateDimensionReady : string := "READY".
Definition SubstrateDimensionAdmitted : string := "ADMITTED".
Definition SubstrateDimensionCalibrated : string := "CALIBRATED".
Definition SubstrateDimensionCompatible : string := "COMPATIBLE".
Definition SubstrateDimensionResident : string := "RESIDENT".
Definition SubstrateDimensionAvailable : string := "AVAILABLE".

Record EvaluatorSubstrateVector := mkVector {
  Ready : SubstrateVectorState;
  Admitted_ : SubstrateVectorState;
  Calibrated : SubstrateVectorState;
  Compatible : SubstrateVectorState;
  Resident : SubstrateVectorState;
  Available : SubstrateVectorState
}.

Record ProfileSLA := mkSLA { MaxLatencyMillis : option Z }.
Record ProfileApplicability := mkApplicability { SupportedRuntimes : list string }.
Record ProfileEvidence := mkEvidence {
  RequiredAttestations : list string;
  EvMinTrustLevel : string;
  RequireSBOM : bool;
  RequireSignature : bool
}.
Record RuntimeLinkSpec := mkRuntime { Engine : string }.

Record ModelServingProfile := mkProfile {
  PName : string;
  PWorkloadClass : WorkloadClass;
  DecisionCapabilities : list DecisionCapability;
  Runtime : option RuntimeLinkSpec;
  SLA : option ProfileSLA;
  Applicability : option ProfileApplicability;
  Evidence : option ProfileEvidence
}.

Record DimensionObservation := mkObservation {
  Dimension : string;
  State : SubstrateVectorState;
  OReason : string
}.

Record EvaluatorTarget := mkTarget {
  Name : string;
  TWorkloadClass : WorkloadClass;
  Capabilities : list DecisionCapability;
  RuntimeEngine : string;
  Endpoint : string;
  EndpointHealthy : bool;
  EndpointInitializing : bool;
  TrustLevel : string;
  Attestations : list string;
  HasSignature : bool;
  HasSBOM : bool;
  ArtifactsResident : bool;
  ArtifactsLoading : bool;
  CalibrationScore : option float64;
  HasCalibration : bool;
  ObservedLatencyMs : Z;
  ReadyReplicas : Z;
  DesiredReplicas : Z
}.

Record SubstrateEvaluationReport := mkReport {
  WorkloadName : string;
  ProfileName : string;
  Vector : EvaluatorSubstrateVector;
  Observations : gmap string DimensionObservation;
  IsOperable : bool;
  FailureReasons : list string;
  EvaluatedAt : Time
}.

Inductive Err :=
| ErrNilProfile
| ErrNilArgument
| ErrInvalidWorkloadClass (c : WorkloadClass)
| ErrDecisionNeedsCapability
| ErrInvalidCapability (c : DecisionCapability)
| ErrOperatorNotSemanticAuthority.

(** ** Checks *)

Definition containsString (l : list string) (val : string) : bool := existsb (fun item => item ==? val) l.
Definition containsCapability (l : list DecisionCapability) (cap : DecisionCapability) : bool :=
  existsb (fun item => item ==? cap) l.

Definition workload_classes : list WorkloadClass :=
  [WorkloadClassGenerative; WorkloadClassEmbedding; WorkloadClassReranking; WorkloadClassEvaluation;
   WorkloadClassDecision].

Definition capabilities : list DecisionCapability :=
  [DecisionCapabilityPredicate; DecisionCapabilityChoice; DecisionCapabilityScore].

Definition ValidateModelServingProfile (profile : option ModelServingProfile) : option Err :=
  match profile with
  | None => Some ErrNilProfile
  | Some spec =>
      if negb (containsString workload_classes (PWorkloadClass spec)) then
        Some (ErrInvalidWorkloadClass (PWorkloadClass spec))
      else if (PWorkloadClass spec ==? WorkloadClassDecision) && bool_decide (DecisionCapabilities spec = []) then
        Some ErrDecisionNeedsCapability
      else
        ErrInvalidCapability <$> List.find (fun cap => negb (containsCapability capabilities cap)) (DecisionCapabilities spec)
  end.

Definition ExecuteDomainDecision (target : option EvaluatorTarget) : Err := ErrOperatorNotSemanticAuthority.

Definition isTrustSufficient (actual required : string) : bool := trust_score actual >=? trust_score required.

Definition checkReady (t : EvaluatorTarget) : DimensionObservation :=
  let dim := SubstrateDimensionReady in
  if EndpointInitializing t then mkObservation dim VectorStatePending "Initializing"
  else if (Endpoint t ==? "") || negb (EndpointHealthy t) then mkObservation dim VectorStateFailed "EndpointUnhealthy"
  else mkObservation dim VectorStateSatisfied "EndpointReady".

Definition checkAdmitted (t : EvaluatorTarget) (p : ModelServingProfile) : DimensionObservation :=
  let dim := SubstrateDimensionAdmitted in
  match Evidence p with
  | None => mkObservation dim VectorStateSatisfied "NoEvidenceConstraints"
  | Some ev =>
      if TrustLevel t ==? "denied" then mkObservation dim VectorStateFailed "TrustDenied"
      else if (EvMinTrustLevel ev !=? "") && negb (isTrustSufficient (TrustLevel t) (EvMinTrustLevel ev)) then
        mkObservation dim VectorStateFailed "InsufficientTrust"
      else if existsb (fun req => negb (containsString (Attestations t) req)) (RequiredAttestations ev) then
        mkObservation dim VectorStateFailed "MissingAttestation"
      else if RequireSBOM ev && negb (HasSBOM t) then mkObservation dim VectorStateFailed "MissingSBOM"
      else if RequireSignature ev && negb (HasSignature t) then mkObservation dim VectorStateFailed "MissingSignature"
      else mkObservation dim VectorStateSatisfied "Admitted"
  end.

Definition checkCalibrated (t : EvaluatorTarget) (p : ModelServingProfile) : DimensionObservation :=
  let dim := SubstrateDimensionCalibrated in
  let isDecisionClass := (PWorkloadClass p ==? WorkloadClassDecision) || (PWorkloadClass p ==? WorkloadClassEvaluation) in
  if negb isDecisionClass then mkObservation dim VectorStateSatisfied "CalibrationNotRequired"
  else if negb (HasCalibration t) then mkObservation dim VectorStateFailed "UncalibratedEvaluator"
  else if match CalibrationScore t with Some s => f_lt s f_zero | None => false end then
    mkObservation dim VectorStateDegraded "CalibrationDegraded"
  else mkObservation dim VectorStateSatisfied "Calibrated".

Definition checkCompatible (t : EvaluatorTarget) (p : ModelServingProfile) : DimensionObservation :=
  let dim := SubstrateDimensionCompatible in
  if TWorkloadClass t !=? PWorkloadClass p then mkObservation dim VectorStateFailed "WorkloadClassMismatch"
  else if existsb (fun req => negb (containsCapability (Capabilities t) req)) (DecisionCapabilities p) then
    mkObservation dim VectorStateFailed "MissingDecisionCapability"
  else if match Runtime p with
          | Some r => (Engine r !=? "") && (RuntimeEngine t !=? "") && (RuntimeEngine t !=? Engine r)
          | None => false
          end then mkObservation dim VectorStateFailed "IncompatibleRuntimeEngine"
  else if match Applicability p with
          | Some a => bool_decide (SupportedRuntimes a <> []) && negb (containsString (SupportedRuntimes a) (RuntimeEngine t))
          | None => false
          end then mkObservation dim VectorStateFailed "UnsupportedRuntime"
  else mkObservation dim VectorStateSatisfied "Compatible".

Definition checkResident (t : EvaluatorTarget) : DimensionObservation :=
  let dim := SubstrateDimensionResident in
  if ArtifactsLoading t then mkObservation dim VectorStatePending "WarmingCache"
  else if negb (ArtifactsResident t) then mkObservation dim VectorStateFailed "ArtifactsNotResident"
  else mkObservation dim VectorStateSatisfied "Resident".

Definition checkAvailable (t : EvaluatorTarget) (p : ModelServingProfile) : DimensionObservation :=
  let dim := SubstrateDimensionAvailable in
  if ReadyReplicas t <=? 0 then mkObservation dim VectorStateFailed "ZeroReadyReplicas"
  else if (DesiredReplicas t >? 0) && (ReadyReplicas t <? DesiredReplicas t) then
    mkObservation dim VectorStateDegraded "ReplicasDegraded"
  else if match SLA p with
          | Some s => match MaxLatencyMillis s with Some m => ObservedLatencyMs t >? m | None => false end
          | None => false
          end then mkObservation dim VectorStateDegraded "LatencySLAViolated"
  else mkObservation dim VectorStateSatisfied "Available".

(** [order] lists the keys of the map in the order the loop meets them. *)
Definition collectFailures (order : list string) (obs : gmap string DimensionObservation) : list string :=
  omap (fun dim =>
    o ← obs !! dim;
    if (State o ==? VectorStateFailed) || (State o ==? VectorStatePending) then Some (dim +:+ ":" +:+ OReason o)
    else None) order.

Definition state_of (obs : gmap string DimensionObservation) (dim : string) : SubstrateVectorState :=
  match obs !! dim with Some o => State o | None => "" end.

Definition observe (p : ModelServingProfile) (t : EvaluatorTarget) : gmap string DimensionObservation :=
  <[SubstrateDimensionAvailable := checkAvailable t p]>
  (<[SubstrateDimensionResident := checkResident t]>
  (<[SubstrateDimensionCompatible := checkCompatible t p]>
  (<[SubstrateDimensionCalibrated := checkCalibrated t p]>
  (<[SubstrateDimensionAdmitted := checkAdmitted t p]>
  (<[SubstrateDimensionReady := checkReady t]> ∅))))).

Definition EvaluateSubstrateState (order : list string) (now : Time) (profile : option ModelServingProfile)
  (target : option EvaluatorTarget) : SubstrateEvaluationReport + Err :=
  match profile, target with
  | Some p, Some t =>
      match ValidateModelServingProfile (Some p) with
      | Some err => inr err
      | None =>
          let obs := observe p t in
          let vector := mkVector (state_of obs SubstrateDimensionReady) (state_of obs SubstrateDimensionAdmitted)
            (state_of obs SubstrateDimensionCalibrated) (state_of obs SubstrateDimensionCompatible)
            (state_of obs SubstrateDimensionResident) (state_of obs SubstrateDimensionAvailable) in
          let failures := collectFailures order obs in
          let isOperable := bool_decide (failures = []) && (Ready vector ==? VectorStateSatisfied) in
          inl (mkReport (Name t) (PName p) vector obs isOperable failures now)
      end
  | _, _ => inr ErrNilArgument
  end.

(** The part of the status that a report sets: the vector and the status and
    reason of its only condition. *)
Record ProfileStatus := mkStatus { SubstrateVector : EvaluatorSubstrateVector; Conditions : list (string * string * string * Time) }.

Definition ApplySubstrateStatus (status : ProfileStatus) (report : option SubstrateEvaluationReport) : ProfileStatus :=
  match report with
  | None => status
  | Some r =>
      mkStatus (Vector r)
        [("Ready", if IsOperable r then "True" else "False",
          if IsOperable r then "SubstrateOperable" else "SubstrateFailed", EvaluatedAt r)]
  end.

(** ** Properties *)

Definition dimensions : list string :=
  [SubstrateDimensionReady; SubstrateDimensionAdmitted; SubstrateDimensionCalibrated; SubstrateDimensionCompatible;
   SubstrateDimensionResident; SubstrateDimensionAvailable].

(** An observation that makes the report list a failure. *)
Definition blocking (o : DimensionObservation) : bool :=
  (State o ==? VectorStateFailed) || (State o ==? VectorStatePending).

(** What the six dimensions ask of a target. *)
Record substrate_ok (p : ModelServingProfile) (t : EvaluatorTarget) : Prop := {
  so_ready : EndpointInitializing t = false /\ Endpoint t <> "" /\ EndpointHealthy t = true;
  so_admitted ev : Evidence p = Some ev ->
    TrustLevel t <> "denied"
    /\ (EvMinTrustLevel ev = "" \/ trust_score (EvMinTrustLevel ev) <= trust_score (TrustLevel t))
    /\ (forall a, a ∈ RequiredAttestations ev -> a ∈ Attestations t)
    /\ (RequireSBOM ev = true -> HasSBOM t = true) /\ (RequireSignature ev = true -> HasSignature t = true);
  so_calibrated : PWorkloadClass p = WorkloadClassDecision \/ PWorkloadClass p = WorkloadClassEvaluation ->
    HasCalibration t = true;
  so_compatible : TWorkloadClass t = PWorkloadClass p
    /\ (forall c, c ∈ DecisionCapabilities p -> c ∈ Capabilities t)
    /\ (forall r, Runtime p = Some r -> Engine r = "" \/ RuntimeEngine t = "" \/ RuntimeEngine t = Engine r)
    /\ (forall a, Applicability p = Some a -> SupportedRuntimes a = [] \/ RuntimeEngine t ∈ SupportedRuntimes a);
  so_resident : ArtifactsLoading t = false /\ ArtifactsResident t = true;
  so_available : 0 < ReadyReplicas t
}.

Lemma all_present (required present : list string) :
  existsb (fun req => negb (existsb (fun item => item ==? req) present)) required = false
  <-> (forall r, r ∈ required -> r ∈ present).
Proof.
  induction required as [|r l IH]; simpl.
  - split; [|done]. intros _ r Hr. by apply not_elem_of_nil in Hr.
  - rewrite orb_false_iff, negb_false_iff, existsb_in, IH. setoid_rewrite elem_of_cons. naive_solver.
Qed.

Lemma ready_iff t : blocking (checkReady t) = false <->
  EndpointInitializing t = false /\ Endpoint t <> "" /\ EndpointHealthy t = true.
Proof.
  unfold checkReady. destruct (EndpointInitializing t); simpl; [by split; [|intros [? _]]|].
  case_bool_decide; simpl; [by split; [|intros (_ & ? & _)]|].
  destruct (EndpointHealthy t); simpl; [done|]. by split; [|intros (_ & _ & ?)].
Qed.

Lemma admitted_iff t p : blocking (checkAdmitted t p) = false <->
  forall ev, Evidence p = Some ev ->
    TrustLevel t <> "denied"
    /\ (EvMinTrustLevel ev = "" \/ trust_score (EvMinTrustLevel ev) <= trust_score (TrustLevel t))
    /\ (forall a, a ∈ RequiredAttestations ev -> a ∈ Attestations t)
    /\ (RequireSBOM ev = true -> HasSBOM t = true) /\ (RequireSignature ev = true -> HasSignature t = true).
Proof.
  unfold checkAdmitted. destruct (Evidence p) as [ev|]; [|by split].
  assert (forall P : Prop, (forall ev', Some ev = Some ev' -> P) <-> P) as Hs.
  { intros P. split; [intros HP; by apply (HP ev)|done]. }
  transitivity (TrustLevel t <> "denied"
    /\ (EvMinTrustLevel ev = "" \/ trust_score (EvMinTrustLevel ev) <= trust_score (TrustLevel t))
    /\ (forall a, a ∈ RequiredAttestations ev -> a ∈ Attestations t)
    /\ (RequireSBOM ev = true -> HasSBOM t = true) /\ (RequireSignature ev = true -> HasSignature t = true));
    [|split; [by intros ? ? [= <-]|by intros HP; apply HP]].
  rewrite <- all_present. unfold containsString, isTrustSufficient.
  destruct (bool_decide_reflect (TrustLevel t = "denied")) as [|Hd]; [by split; [|intros [? _]]|].
  assert ((EvMinTrustLevel ev !=? "") && negb (trust_score (TrustLevel t) >=? trust_score (EvMinTrustLevel ev)) = false
    <-> (EvMinTrustLevel ev = "" \/ trust_score (EvMinTrustLevel ev) <= trust_score (TrustLevel t))) as <-.
  { repeat case_bool_decide; simpl; naive_solver. }
  destruct ((EvMinTrustLevel ev !=? "") && _); [by split; [|intros (_ & ? & _)]|].
  destruct (existsb _ (RequiredAttestations ev)); [by split; [|intros (_ & _ & ? & _)]|].
  destruct (RequireSBOM ev), (HasSBOM t), (RequireSignature ev), (HasSignature t); simpl;
    split; try done; intros (_ & _ & _ & H1 & H2); first [by discriminate H1|by discriminate H2|by specialize (H1 eq_refl)|by specialize (H2 eq_refl)].
Qed.

Lemma calibrated_iff t p : blocking (checkCalibrated t p) = false <->
  (PWorkloadClass p = WorkloadClassDecision \/ PWorkloadClass p = WorkloadClassEvaluation -> HasCalibration t = true).
Proof.
  unfold checkCalibrated. destruct (HasCalibration t).
  - split; [done|]. intros _. destruct (match CalibrationScore t with Some _ => _ | None => _ end);
      repeat case_bool_decide; done.
  - repeat case_bool_decide; simpl; naive_solver.
Qed.

Lemma compatible_iff t p : blocking (checkCompatible t p) = false <->
  TWorkloadClass t = PWorkloadClass p
  /\ (forall c, c ∈ DecisionCapabilities p -> c ∈ Capabilities t)
  /\ (forall r, Runtime p = Some r -> Engine r = "" \/ RuntimeEngine t = "" \/ RuntimeEngine t = Engine r)
  /\ (forall a, Applicability p = Some a -> SupportedRuntimes a = [] \/ RuntimeEngine t ∈ SupportedRuntimes a).
Proof.
  unfold checkCompatible, containsCapability, containsString, DecisionCapability. rewrite <- all_present.
  destruct (bool_decide_reflect (TWorkloadClass t = PWorkloadClass p)); cbn [negb]; [|by split; [|intros [? _]]].
  destruct (existsb (A := string) _ (DecisionCapabilities p)); [by split; [|intros (_ & ? & _)]|].
  assert (match Runtime p with
          | Some r => (Engine r !=? "") && (RuntimeEngine t !=? "") && (RuntimeEngine t !=? Engine r)
          | None => false end = false
    <-> forall r, Runtime p = Some r -> Engine r = "" \/ RuntimeEngine t = "" \/ RuntimeEngine t = Engine r) as <-.
  { destruct (Runtime p); [|by split]. repeat case_bool_decide; simpl; naive_solver. }
  destruct (match Runtime p with Some _ => _ | None => _ end); [by split; [|intros (_ & _ & ? & _)]|].
  assert (match Applicability p with
          | Some a => bool_decide (SupportedRuntimes a <> [])
                      && negb (existsb (fun item => item ==? RuntimeEngine t) (SupportedRuntimes a))
          | None => false end = false
    <-> forall a, Applicability p = Some a -> SupportedRuntimes a = [] \/ RuntimeEngine t ∈ SupportedRuntimes a) as <-.
  { destruct (Applicability p) as [a|]; [|by split]. pose proof (existsb_in (RuntimeEngine t) (SupportedRuntimes a)) as Hin.
    destruct (decide (SupportedRuntimes a = [])) as [En|En].
    - rewrite En. split; [|done]. intros _ ? [= <-]. by left.
    - rewrite bool_decide_true by done. destruct (existsb _ _); simpl.
      + split; [|done]. intros _ ? [= <-]. right. by apply Hin.
      + split; [done|]. intros Hx. destruct (Hx a eq_refl) as [|Hx']; [done|]. by apply Hin in Hx'. }
  destruct (match Applicability p with Some _ => _ | None => _ end); [by split; [|intros (_ & _ & _ & ?)]|done].
Qed.

Lemma resident_iff t : blocking (checkResident t) = false <-> ArtifactsLoading t = false /\ ArtifactsResident t = true.
Proof. unfold checkResident. by destruct (ArtifactsLoading t), (ArtifactsResident t); split; try done; intros [? ?]. Qed.

Lemma available_iff t p : blocking (checkAvailable t p) = false <-> 0 < ReadyReplicas t.
Proof.
  unfold checkAvailable. case_bool_decide; simpl; [by split; [|lia]|]. split; [lia|]. intros _.
  destruct ((DesiredReplicas t >? 0) && _); [done|].
  by destruct (match SLA p with Some _ => _ | None => _ end).
Qed.

Lemma substrate_ok_iff p t :
  substrate_ok p t <->
  Forall (fun o => blocking o = false)
    [checkReady t; checkAdmitted t p; checkCalibrated t p; checkCompatible t p; checkResident t; checkAvailable t p].
Proof.
  rewrite !Forall_cons, Forall_nil, ready_iff, admitted_iff, calibrated_iff, compatible_iff, resident_iff, available_iff.
  split; [intros []; tauto|]. intros (?&?&?&?&?&?&_). by split.
Qed.

Lemma omap_nil {A B} (f : A -> option B) l : omap f l = [] <-> Forall (fun x => f x = None) l.
Proof.
  induction l as [|x l IH]; simpl; [done|]. rewrite Forall_cons, <- IH. destruct (f x); naive_solver.
Qed.

(** The loop finds no failure exactly when no dimension is blocking. *)
Lemma failures_nil order p t : order ≡ₚ dimensions ->
  collectFailures order (observe p t) = [] <-> substrate_ok p t.
Proof.
  intros Ho. unfold collectFailures. rewrite omap_nil, Ho, substrate_ok_iff. unfold dimensions.
  rewrite !Forall_cons, !Forall_nil.
  assert (forall dim o, observe p t !! dim = Some o ->
    (o ← observe p t !! dim; if (State o ==? VectorStateFailed) || (State o ==? VectorStatePending)
       then Some (dim +:+ ":" +:+ OReason o) else None) = None <-> blocking o = false) as Hd.
  { intros dim o E. rewrite E. cbn [mbind option_bind]. fold (blocking o). by destruct (blocking o). }
  by rewrite (Hd SubstrateDimensionReady (checkReady t) eq_refl),
    (Hd SubstrateDimensionAdmitted (checkAdmitted t p) eq_refl),
    (Hd SubstrateDimensionCalibrated (checkCalibrated t p) eq_refl),
    (Hd SubstrateDimensionCompatible (checkCompatible t p) eq_refl),
    (Hd SubstrateDimensionResident (checkResident t) eq_refl),
    (Hd SubstrateDimensionAvailable (checkAvailable t p) eq_refl).
Qed.

(** The substrate of a target is operable for a valid profile exactly when
    all six dimensions are met: a healthy initialised endpoint, the evidence
    constraints if there are any, calibration for the decision and evaluation
    classes, compatibility of class, capabilities and runtime, resident
    artifacts and a ready replica.  Degraded dimensions do not count against
    it, the order in which the map is traversed matters only for the order of
    the reasons, and the status reports a true condition exactly then. *)
Theorem substrate_operable_iff order order' now p t r status
  (Ho : order ≡ₚ dimensions) (Ho' : order' ≡ₚ dimensions)
  (Hr : EvaluateSubstrateState order now (Some p) (Some t) = inl r) :
  (IsOperable r = true <-> substrate_ok p t)
  /\ (FailureReasons r = [] <-> substrate_ok p t)
  /\ (exists r', EvaluateSubstrateState order' now (Some p) (Some t) = inl r'
       /\ FailureReasons r' ≡ₚ FailureReasons r /\ IsOperable r' = IsOperable r /\ Vector r' = Vector r)
  /\ (substrate_ok p t <-> (Conditions (ApplySubstrateStatus status (Some r))).*1.*1.*2 = ["True"]).
Proof.
  unfold EvaluateSubstrateState in *. destruct (ValidateModelServingProfile (Some p)); [done|].
  injection Hr as <-. cbn [IsOperable FailureReasons Vector Ready].
  assert (forall o, o ≡ₚ dimensions ->
    bool_decide (collectFailures o (observe p t) = []) && (state_of (observe p t) SubstrateDimensionReady ==? VectorStateSatisfied)
      = bool_decide (collectFailures order (observe p t) = [])) as Hop.
  { intros o Hp. pose proof (failures_nil o p t Hp) as F1. pose proof (failures_nil order p t Ho) as F2.
    rewrite <- F2 in F1. rewrite (bool_decide_ext _ _ F1). destruct (bool_decide_reflect (collectFailures order (observe p t) = []));
      [|done]. simpl. apply bool_decide_eq_true. change (State (checkReady t) = VectorStateSatisfied).
    apply F2 in e. destruct e as [(H1 & H2 & H3) _ _ _ _ _]. unfold checkReady. rewrite H1, H3, bool_decide_false by done. done. }
  pose proof (failures_nil order p t Ho) as Hnil. rewrite (Hop order Ho).
  split; [by rewrite bool_decide_eq_true|]. split; [exact Hnil|]. split.
  - eexists. split; [reflexivity|]. cbn [IsOperable FailureReasons Vector].
    split; [|split; [by rewrite (Hop order' Ho')|done]]. unfold collectFailures. by rewrite Ho, Ho'.
  - rewrite <- Hnil. destruct (bool_decide_reflect (collectFailures order (observe p t) = [])); by split.
Qed.

Definition w_profile : ModelServingProfile :=
  mkProfile "judge" WorkloadClassDecision [DecisionCapabilityScore] (Some (mkRuntime "vllm")) None None
    (Some (mkEvidence ["slsa"] "verified" true false)).

Definition w_target : EvaluatorTarget :=
  mkTarget "judge-0" WorkloadClassDecision [DecisionCapabilityScore; DecisionCapabilityChoice] "vllm" "http://judge"
    true false "trusted" ["slsa"] false true true false None true 12 1 3.

Lemma substrate_operable_iff_witness :
  dimensions ≡ₚ dimensions /\ reverse dimensions ≡ₚ dimensions
  /\ exists r, EvaluateSubstrateState dimensions 5 (Some w_profile) (Some w_target) = inl r
     /\ IsOperable r = true /\ State (checkAvailable w_target w_profile) = VectorStateDegraded.
Proof.
  assert (reverse dimensions ≡ₚ dimensions) as H by apply reverse_Permutation.
  split; [reflexivity|]. split; [exact H|].
  destruct (EvaluateSubstrateState dimensions 5 (Some w_profile) (Some w_target)) as [r|e] eqn:E;
    [|vm_compute in E; discriminate E].
  exists r. split; [reflexivity|]. split; [|reflexivity].
  apply (substrate_operable_iff dimensions (reverse dimensions) 5 w_profile w_target r
           (mkStatus (Vector r) []) (reflexivity _) H E).
  apply substrate_ok_iff. repeat constructor.
Defined.

(** Without evidence constraints even a target whose trust is denied is
    admitted. *)
Example denied_admitted_without_constraints :
  let p := mkProfile "p" WorkloadClassEmbedding [] None None None None in
  let t := mkTarget "t" WorkloadClassEmbedding [] "" "http://t" true false "denied" [] false false true false None
             false 0 1 1 in
  exists r, EvaluateSubstrateState dimensions 0 (Some p) (Some t) = inl r /\ IsOperable r = true.
Proof. eexists. split; reflexivity. Qed.
