(* ===== verification/InferencePool.v ===== *)
(** * Endpoint pool, routing and session state of the inference layer

    [internal/inference]: [connection_pool.go], [router.go], the chunked
    pipeliner of [bleeding_edge.go], and the in-memory cache and the
    anticipatory prefetcher of [cache.go].  The pool hands out pointers to
    its connections, which outlive their entry in the map: connections are a
    list indexed by location, and the map holds locations.  Every operation
    takes the clock reading it makes as an argument; counters are [int64].
    The HTTP clients and the transport are left out. *)

From S2P Require Import Prelude GoFloat Sha256.

(** ** The connection pool *)

Record EndpointConn := mkConn {
  Address : string;
  ActiveRequests : Z;
  AvgLatencyMs : Z;
  TotalRequests : Z;
  ErrorCount : Z;
  LastUsed : Z
}.

Definition fresh_conn (address : string) : EndpointConn := mkConn address 0 0 0 0 0.

Record ConnectionPool := mkPool { conns : list EndpointConn; endpoints : gmap string nat }.

Definition NewConnectionPool : ConnectionPool := mkPool [] ∅.

(** The connection at a location. *)
Definition load (p : ConnectionPool) (l : nat) : EndpointConn := default (fresh_conn "") (conns p !! l).

Definition modify (p : ConnectionPool) (l : nat) (f : EndpointConn -> EndpointConn) : ConnectionPool :=
  mkPool (alter f l (conns p)) (endpoints p).

Definition Get (p : ConnectionPool) (address : string) : ConnectionPool * nat :=
  match endpoints p !! address with
  | Some l => (p, l)
  | None =>
      let l := length (conns p) in
      (mkPool (conns p ++ [fresh_conn address]) (<[address := l]> (endpoints p)), l)
  end.

Definition maxScore : Z := 2 ^ 62 - 1.

Definition score (c : EndpointConn) : Z :=
  i64_wrap (i64_wrap (AvgLatencyMs c + i64_wrap (ActiveRequests c * 10)) + i64_wrap (ErrorCount c * 100)).

(** The loop over the candidates; [inr] is the early return. *)
Fixpoint fastest_loop (p : ConnectionPool) (candidates : list string) (bestAddr : string) (bestScore : Z)
  : string + string :=
  match candidates with
  | [] => inl bestAddr
  | addr :: candidates =>
      match endpoints p !! addr with
      | None => inr addr
      | Some l =>
          let s := score (load p l) in
          if s <? bestScore then fastest_loop p candidates addr s else fastest_loop p candidates bestAddr bestScore
      end
  end.

Definition FastestEndpoint (p : ConnectionPool) (candidates : list string) : string :=
  match fastest_loop p candidates "" maxScore with
  | inr addr => addr
  | inl bestAddr =>
      if bestAddr ==? "" then match candidates with c :: _ => c | [] => bestAddr end else bestAddr
  end.

Definition ewma (current ms : Z) : Z := Z.quot (i64_wrap (i64_wrap (current * 7) + i64_wrap (ms * 3))) 10.

(** What [RecordLatency] and [RecordError] do with the connection they get. *)
Definition recordLatencyAt (now : Time) (p : ConnectionPool) (l : nat) (latency : Duration) : ConnectionPool :=
  let ms := Milliseconds latency in
  modify p l (fun c =>
    mkConn (Address c) (ActiveRequests c)
      (if AvgLatencyMs c ==? 0 then ms else ewma (AvgLatencyMs c) ms)
      (i64_wrap (TotalRequests c + 1)) 0 (UnixMilli now)).

Definition RecordLatency (now : Time) (p : ConnectionPool) (address : string) (latency : Duration) : ConnectionPool :=
  let '(p, l) := Get p address in recordLatencyAt now p l latency.

Definition recordErrorAt (p : ConnectionPool) (l : nat) : ConnectionPool :=
  modify p l (fun c =>
    mkConn (Address c) (ActiveRequests c) (AvgLatencyMs c) (TotalRequests c) (i64_wrap (ErrorCount c + 1)) (LastUsed c)).

Definition RecordError (p : ConnectionPool) (address : string) : ConnectionPool :=
  let '(p, l) := Get p address in recordErrorAt p l.

Definition AddActive (p : ConnectionPool) (l : nat) (d : Z) : ConnectionPool :=
  modify p l (fun c =>
    mkConn (Address c) (i64_wrap (ActiveRequests c + d)) (AvgLatencyMs c) (TotalRequests c) (ErrorCount c) (LastUsed c)).

Definition idle (now : Time) (maxIdle : Duration) (c : EndpointConn) : bool :=
  (LastUsed c <? UnixMilli (TimeAdd now (- maxIdle))) && (ActiveRequests c ==? 0).

(** The evicted endpoints leave the map; their connections stay with whoever
    holds them.  The result is the number of evictions. *)
Definition EvictIdle (now : Time) (p : ConnectionPool) (maxIdle : Duration) : ConnectionPool * Z :=
  let kept := filter (fun '(_, l) => idle now maxIdle (load p l) = false) (endpoints p) in
  (mkPool (conns p) kept, Z.of_nat (size (endpoints p)) - Z.of_nat (size kept)).

(** ** The router *)

Record RouteResult := mkRoute { Endpoint : string; CacheHit : bool; EstimatedLatencyMs : Z; RoutingLatency : Duration }.

(** The scored selection; [elapsed] is the difference of the two clock
    readings. *)
Definition scored_route (elapsed : Duration) (p : ConnectionPool) (candidates : list string)
  : ConnectionPool * RouteResult :=
  let e := FastestEndpoint p candidates in
  if e !=? "" then
    let '(p, l) := Get p e in (p, mkRoute e false (AvgLatencyMs (load p l)) elapsed)
  else (p, mkRoute e false 0 elapsed).

Definition Route (elapsed : Duration) (p : ConnectionPool) (sessionEndpoint : string) (candidates : list string)
  : ConnectionPool * RouteResult :=
  if sessionEndpoint !=? "" then
    let '(p, l) := Get p sessionEndpoint in
    if ErrorCount (load p l) <? 3
    then (p, mkRoute sessionEndpoint true (AvgLatencyMs (load p l)) elapsed)
    else scored_route elapsed p candidates
  else scored_route elapsed p candidates.

(** ** The chunked pipeliner *)

Record PipeSession := mkSession {
  SessionID : string;
  SEndpoint : string;
  Chunks : Z;
  SequenceID : string;
  LastActive : Time
}.

Definition Sessions := gmap string PipeSession.

(** The state change of [PushChunk] under its lock; afterwards the connection
    of the session's endpoint is held for the duration of the call. *)
Definition PushChunk (now : Time) (p : ConnectionPool) (sessions : Sessions) (sessionID : string)
  : ConnectionPool * Sessions * nat :=
  let sess := default (mkSession sessionID (FastestEndpoint p []) 0 ("pipe-" +:+ sessionID) zeroTime)
                (sessions !! sessionID) in
  let sess := mkSession (SessionID sess) (SEndpoint sess) (i64_wrap (Chunks sess + 1)) (SequenceID sess) now in
  let '(p, l) := Get p (SEndpoint sess) in
  (p, <[sessionID := sess]> sessions, l).

Definition GetPipelinedEndpoint (now : Time) (sessions : Sessions) (sessionID : string)
  : Sessions * option (string * string) :=
  match sessions !! sessionID with
  | Some sess =>
      (<[sessionID := mkSession (SessionID sess) (SEndpoint sess) (Chunks sess) (SequenceID sess) now]> sessions,
       Some (SEndpoint sess, SequenceID sess))
  | None => (sessions, None)
  end.

Definition evictStaleSessions (now : Time) (sessions : Sessions) : Sessions :=
  filter (fun '(_, s) => Before (LastActive s) (TimeAdd now (- (5 * Minute))) = false) sessions.

(** ** The prefetcher *)

Record PrefetchIntent := mkPrefetch { UserID : string; ISessionID : string; PartialPrompt : string; Confidence : float64 }.

Definition WarmPaths := gmap string string.

Definition HandleIntent (elapsed : Duration) (p : ConnectionPool) (warm : WarmPaths) (intent : PrefetchIntent)
  (candidates : list string) : ConnectionPool * WarmPaths :=
  if f_lt (Confidence intent) (f_lit 7 10) then (p, warm)
  else
    let '(p, result) := Route elapsed p (ISessionID intent) candidates in
    if Endpoint result ==? "" then (p, warm)
    else
      let '(p, _) := Get p (Endpoint result) in
      (p, <[ISessionID intent := Endpoint result]> warm).

Definition GetWarmedEndpoint (warm : WarmPaths) (sessionID : string) : WarmPaths * option string :=
  (delete sessionID warm, warm !! sessionID).

(** ** The in-memory cache *)

Record memCacheEntry := mkEntry { response : string; hitCount : Z; lastAccess : Time; expiresAt : Time }.

Definition MemCache := gmap string memCacheEntry.

(** [expiry] and [access] are the two clock readings. *)
Definition CacheGet (expiry access : Time) (c : MemCache) (key : string) : MemCache * option string :=
  match c !! key with
  | None => (c, None)
  | Some e =>
      if negb (IsZero (expiresAt e)) && After expiry (expiresAt e) then (delete key c, None)
      else (<[key := mkEntry (response e) (i64_wrap (hitCount e + 1)) access (expiresAt e)]> c, Some (response e))
  end.

Definition CacheSet (access expiry : Time) (c : MemCache) (key resp : string) (ttl : Duration) : MemCache :=
  <[key := mkEntry resp 1 access (if ttl >? 0 then TimeAdd expiry ttl else zeroTime)]> c.

Definition hashPrompt (prompt : string) : string := sha256_hex prompt.

Definition GetExact (expiry access : Time) (c : MemCache) (prompt : string) : MemCache * option string :=
  CacheGet expiry access c (hashPrompt prompt).

Definition StoreExact (access expiry : Time) (ttl : Duration) (c : MemCache) (prompt resp : string) : MemCache :=
  CacheSet access expiry c (hashPrompt prompt) resp ttl.

(** ** The pool's invariant

    Every entry of the map points to the connection of its own address, and
    every connection's counters are [int64] values. *)

Definition pool_wf (p : ConnectionPool) : Prop :=
  (forall a l, endpoints p !! a = Some l -> exists c, conns p !! l = Some c /\ Address c = a)
  /\ forall l c, conns p !! l = Some c -> i64_range (ActiveRequests c) /\ i64_range (ErrorCount c).

(** The connection an operation on [address] works on, in the pool after. *)
Lemma Get_spec p address p' l :
  pool_wf p -> Get p address = (p', l) ->
  pool_wf p' /\ endpoints p' !! address = Some l /\ (exists c, conns p' !! l = Some c /\ Address c = address)
  /\ conns p `prefix_of` conns p'
  /\ (forall a, a <> address -> endpoints p' !! a = endpoints p !! a)
  /\ (endpoints p !! address = None -> conns p' !! l = Some (fresh_conn address))
  /\ (forall l0, endpoints p !! address = Some l0 -> p' = p /\ l = l0).
Proof.
  intros [Hp Hr] Hg. unfold Get in Hg. destruct (endpoints p !! address) as [l0|] eqn:E.
  { injection Hg as <- <-. split_and!; [split; done|done|eauto|done|done|done|naive_solver]. }
  injection Hg as <- <-. cbn [conns endpoints]. split_and!.
  - split; cbn [conns endpoints].
    + intros a l. rewrite lookup_insert_Some. intros [[<- <-]|[_ Ha]].
      * exists (fresh_conn address). by rewrite lookup_app_r, Nat.sub_diag by lia.
      * destruct (Hp a l Ha) as (c & Hc & <-). exists c. split; [|done]. by apply lookup_app_l_Some.
    + intros l c [Hc|[_ Hc]]%lookup_app_Some; [by eapply Hr|].
      apply list_lookup_singleton_Some in Hc as [_ <-]. unfold i64_range; simpl; lia.
  - by rewrite lookup_insert_eq.
  - exists (fresh_conn address). by rewrite lookup_app_r, Nat.sub_diag by lia.
  - by apply prefix_app_r.
  - intros a Ha. by rewrite lookup_insert_ne.
  - intros _. by rewrite lookup_app_r, Nat.sub_diag by lia.
  - done.
Qed.

Lemma load_lookup p l c : conns p !! l = Some c -> load p l = c.
Proof. unfold load. by intros ->. Qed.

Lemma modify_wf p l f :
  pool_wf p ->
  (forall c, conns p !! l = Some c -> Address (f c) = Address c /\ i64_range (ActiveRequests (f c)) /\ i64_range (ErrorCount (f c))) ->
  pool_wf (modify p l f).
Proof.
  intros [Hp Hr] Hf. split; simpl.
  - intros a k Hk. destruct (Hp a k Hk) as (c & Hc & Ha). destruct (decide (k = l)) as [->|Hne].
    + exists (f c). rewrite list_lookup_alter_eq, Hc. split; [done|]. rewrite <- Ha. by apply Hf.
    + exists c. by rewrite list_lookup_alter_ne by done.
  - intros k c. destruct (decide (k = l)) as [->|Hne].
    + rewrite list_lookup_alter_eq. destruct (conns p !! l) as [c0|] eqn:E; [|done]. intros [= <-]. by apply Hf.
    + rewrite list_lookup_alter_ne by done. apply Hr.
Qed.

Lemma AddActive_wf p l d : pool_wf p -> pool_wf (AddActive p l d).
Proof.
  intros Hp. apply modify_wf; [done|]. intros c Hc. simpl. split_and!; auto with go. by eapply (proj2 Hp).
Qed.

Lemma recordLatencyAt_wf now p l d : pool_wf p -> pool_wf (recordLatencyAt now p l d).
Proof.
  intros Hp. apply modify_wf; [done|]. intros c Hc. simpl.
  split_and!; [done|by eapply (proj2 Hp)|unfold i64_range; lia].
Qed.

Lemma recordErrorAt_wf p l : pool_wf p -> pool_wf (recordErrorAt p l).
Proof.
  intros Hp. apply modify_wf; [done|]. intros c Hc. simpl. split_and!; [done|by eapply (proj2 Hp)|auto with go].
Qed.

Lemma RecordLatency_wf now p a d : pool_wf p -> pool_wf (RecordLatency now p a d).
Proof.
  intros Hp. unfold RecordLatency. destruct (Get p a) as [p' l] eqn:E. apply recordLatencyAt_wf. by apply (Get_spec p a p' l Hp E).
Qed.

Lemma RecordError_wf p a : pool_wf p -> pool_wf (RecordError p a).
Proof.
  intros Hp. unfold RecordError. destruct (Get p a) as [p' l] eqn:E. apply recordErrorAt_wf. by apply (Get_spec p a p' l Hp E).
Qed.

Lemma EvictIdle_wf now p d : pool_wf p -> pool_wf (EvictIdle now p d).1.
Proof.
  intros [Hp Hr]. split; [|exact Hr]. simpl. intros a l [Ha _]%map_lookup_filter_Some. by apply Hp.
Qed.

Lemma Get_wf p a : pool_wf p -> pool_wf (Get p a).1.
Proof. intros Hp. destruct (Get p a) eqn:E. by apply (Get_spec _ _ _ _ Hp E). Qed.

Lemma scored_route_wf elapsed p cs : pool_wf p -> pool_wf (scored_route elapsed p cs).1.
Proof.
  intros Hp. unfold scored_route. case_bool_decide; [done|]. simpl.
  pose proof (Get_wf p (FastestEndpoint p cs) Hp). by destruct (Get p _).
Qed.

Lemma Route_wf elapsed p s cs : pool_wf p -> pool_wf (Route elapsed p s cs).1.
Proof.
  intros Hp. unfold Route. case_bool_decide; simpl; [by apply scored_route_wf|].
  pose proof (Get_wf p s Hp) as Hg. destruct (Get p s) as [p' l]. simpl in Hg.
  case_bool_decide; [done|]. by apply scored_route_wf.
Qed.

(** ** Endpoint selection *)

Definition known (p : ConnectionPool) (a : string) : Prop := is_Some (endpoints p !! a).
#[export] Instance known_dec p a : Decision (known p a).
Proof. unfold known. apply _. Defined.

(** The score of a known candidate. *)
Definition score_of (p : ConnectionPool) (a : string) : Z :=
  match endpoints p !! a with Some l => score (load p l) | None => 0 end.

(** Over known candidates the loop keeps the first of the least score below
    the bound it starts with. *)
Lemma fastest_loop_known p cs b s r :
  (forall a, a ∈ cs -> known p a) -> fastest_loop p cs b s = r ->
  exists e, r = inl e /\
    ((e = b /\ forall a, a ∈ cs -> s <= score_of p a)
     \/ exists pre post, cs = pre ++ e :: post /\ score_of p e < s
        /\ (forall a, a ∈ pre -> score_of p e < score_of p a) /\ forall a, a ∈ post -> score_of p e <= score_of p a).
Proof.
  revert b s. induction cs as [|c cs IH]; intros b s Hk Hl; simpl in Hl.
  { exists b. split; [done|]. left. set_solver. }
  destruct (Hk c) as [l Hc]; [set_solver|]. assert (score_of p c = score (load p l)) as Es by (unfold score_of; by rewrite Hc).
  rewrite Hc, <- Es in Hl. destruct (bool_decide_reflect (score_of p c < s)) as [Hlt|Hge].
  - destruct (IH c (score_of p c)) as (e & -> & [[-> Ha]|(pre & post & -> & He & Hpre & Hpost)]); [set_solver|done|..].
    + exists c. split; [done|]. right. exists [], cs. split_and!; set_solver.
    + exists e. split; [done|]. right. exists (c :: pre), post. split_and!; [done|lia| |done].
      intros a [->|Ha]%elem_of_cons; [done|by apply Hpre].
  - destruct (IH b s) as (e & -> & [[-> Ha]|(pre & post & -> & He & Hpre & Hpost)]); [set_solver|done|..].
    + exists b. split; [done|]. left. split; [done|]. intros a [->|?]%elem_of_cons; [lia|by apply Ha].
    + exists e. split; [done|]. right. exists (c :: pre), post. split_and!; [done|lia| |done].
      intros a [->|Ha]%elem_of_cons; [lia|by apply Hpre].
Qed.

(** The first unknown candidate ends the loop. *)
Lemma fastest_loop_unknown p pre c post b s :
  (forall a, a ∈ pre -> known p a) -> endpoints p !! c = None -> fastest_loop p (pre ++ c :: post) b s = inr c.
Proof.
  revert b s. induction pre as [|a pre IH]; intros b s Hk Hc; simpl; [by rewrite Hc|].
  destruct (Hk a) as [l ->]; [set_solver|]. case_bool_decide; (apply IH; [set_solver|done]).
Qed.

Lemma first_unknown p cs :
  Exists (fun a => ~ known p a) cs ->
  exists pre c post, cs = pre ++ c :: post /\ (forall a, a ∈ pre -> known p a) /\ ~ known p c.
Proof.
  induction cs as [|a cs IH]; intros H; [by apply Exists_nil in H|].
  destruct (endpoints p !! a) as [l|] eqn:E.
  - apply Exists_cons in H as [H|H]; [destruct H; unfold known; eauto|].
    destruct (IH H) as (pre & c & post & -> & Hk & Hc). exists (a :: pre), c, post.
    split_and!; [done| |done]. intros x [->|Hx]%elem_of_cons; [by exists l|by apply Hk].
  - exists [], a, cs. split_and!; [done|set_solver|]. unfold known. rewrite E. by intros [? ?].
Qed.

(** The endpoint selection is that of a reference: the first candidate the
    pool does not know, otherwise the first one of least score. *)
Theorem fastest_endpoint_optimal p cs :
  let e := FastestEndpoint p cs in
  (cs = [] -> e = "") /\ (cs <> [] -> e ∈ cs)
  /\ (forall pre c post, cs = pre ++ c :: post -> (forall a, a ∈ pre -> known p a) -> ~ known p c -> e = c)
  /\ ((forall a, a ∈ cs -> known p a /\ a <> "") -> (exists a, a ∈ cs /\ score_of p a < maxScore) ->
      exists pre post, cs = pre ++ e :: post
        /\ (forall a, a ∈ pre -> score_of p e < score_of p a) /\ forall a, a ∈ post -> score_of p e <= score_of p a).
Proof.
  intros e. subst e. unfold FastestEndpoint.
  assert (forall pre c post, cs = pre ++ c :: post -> (forall a, a ∈ pre -> known p a) -> ~ known p c ->
    match fastest_loop p cs "" maxScore with inr addr => addr | inl b => if b ==? "" then match cs with c :: _ => c | [] => b end else b end = c) as Hu.
  { intros pre c post -> Hk Hc%eq_None_not_Some. by rewrite fastest_loop_unknown. }
  split_and!; [by intros ->| |exact Hu|].
  - intros Hne. destruct (decide (Forall (fun a => known p a) cs)) as [Hall|Hex].
    + rewrite Forall_forall in Hall. destruct (fastest_loop_known p cs "" maxScore _ Hall eq_refl) as (e & -> & He).
      case_bool_decide; [destruct cs; [done|set_solver]|]. destruct He as [[-> _]|(pre & post & -> & _)]; [done|set_solver].
    + apply not_Forall_Exists, first_unknown in Hex; [|apply _]. destruct Hex as (pre & c & post & -> & Hk & Hc). rewrite (Hu pre c post) by done. set_solver.
  - intros Hk (a & Ha & Hs).
    destruct (fastest_loop_known p cs "" maxScore _ (fun a Ha => proj1 (Hk a Ha)) eq_refl) as (e & -> & He).
    destruct He as [[-> He]|(pre & post & -> & _ & Hpre & Hpost)]; [specialize (He a Ha); lia|].
    rewrite bool_decide_false by (apply Hk; set_solver). by exists pre, post.
Qed.

(** The moving average stays between the old value and the sample. *)
Lemma ewma_between current ms :
  0 <= current < 2 ^ 59 -> 0 <= ms < 2 ^ 59 -> Z.min current ms <= ewma current ms <= Z.max current ms.
Proof.
  intros Hc Hm. unfold ewma. rewrite !i64_wrap_small by (unfold i64_range; rewrite ?i64_wrap_small by (unfold i64_range; lia); lia).
  rewrite Z.quot_div_nonneg by lia. split; [apply Z.div_le_lower_bound|apply Z.div_le_upper_bound]; lia.
Qed.

(** ** Sessions and warm paths *)

(** A session that starts with a chunk is bound to no endpoint, and keeps
    being reported as pipelined there. *)
Lemma pipelined_to_nowhere now p sessions id p' sessions' l :
  sessions !! id = None -> PushChunk now p sessions id = (p', sessions', l) ->
  forall now', (GetPipelinedEndpoint now' sessions' id).2 = Some ("", "pipe-" +:+ id).
Proof.
  intros Hn H now'. unfold PushChunk in H. rewrite Hn in H. cbn [default SEndpoint] in H.
  change (FastestEndpoint p []) with "" in H.
  destruct (Get p "") as [p0 l0]. injection H as <- <- <-.
  unfold GetPipelinedEndpoint. unfold Sessions in *. by rewrite lookup_insert_eq.
Qed.

(** A confident intent stores the session identifier itself as the endpoint,
    unless the pool has recorded three errors under that identifier. *)
Lemma intent_warms_session_id elapsed p warm intent cs :
  pool_wf p -> f_lt (Confidence intent) (f_lit 7 10) = false -> ISessionID intent <> "" ->
  (forall l, endpoints p !! ISessionID intent = Some l -> ErrorCount (load p l) < 3) ->
  (HandleIntent elapsed p warm intent cs).2 !! ISessionID intent = Some (ISessionID intent).
Proof.
  intros Hp Hc Hs He. unfold HandleIntent. rewrite Hc. unfold Route. rewrite bool_decide_false by done. cbn [negb].
  destruct (Get p (ISessionID intent)) as [p' l] eqn:E.
  assert (ErrorCount (load p' l) < 3) as H3.
  { destruct (Get_spec _ _ _ _ Hp E) as (_ & _ & _ & _ & _ & Hf & Hk).
    destruct (endpoints p !! ISessionID intent) as [l0|].
    - destruct (Hk l0) as [-> ->]; [done|]. by apply He.
    - rewrite (load_lookup _ _ _ (Hf eq_refl)). done. }
  rewrite bool_decide_true by done. cbn [Endpoint]. rewrite bool_decide_false by done.
  destruct (Get p' (ISessionID intent)) as [p'' l']. cbn [snd]. unfold WarmPaths. by rewrite lookup_insert_eq.
Qed.

(** ** The cache *)

(** What is stored under a prompt is what a lookup of it returns until it
    expires; an expired entry is removed by the lookup that finds it, and a
    lookup or a store of another prompt changes nothing here unless the two
    digests collide. *)
Theorem cache_round_trip t0 t1 ttl c prompt resp :
  let c1 := StoreExact t0 t1 ttl c prompt resp in
  (forall t2 t3, 0 < ttl -> TimeAdd t1 ttl <> zeroTime ->
     (GetExact t2 t3 c1 prompt).2 = (if t2 <=? TimeAdd t1 ttl then Some resp else None)
     /\ ((GetExact t2 t3 c1 prompt).2 = None -> (GetExact t2 t3 c1 prompt).1 !! hashPrompt prompt = None))
  /\ (forall t2 t3, ttl <= 0 -> (GetExact t2 t3 c1 prompt).2 = Some resp)
  /\ (forall prompt', hashPrompt prompt' <> hashPrompt prompt ->
        forall t2 t3 resp', (StoreExact t2 t3 ttl c1 prompt' resp') !! hashPrompt prompt = c1 !! hashPrompt prompt
          /\ (GetExact t2 t3 c1 prompt').1 !! hashPrompt prompt = c1 !! hashPrompt prompt
          /\ (GetExact t2 t3 c1 prompt').2 = (GetExact t2 t3 c prompt').2).
Proof.
  intros c1. subst c1. unfold MemCache in *. unfold StoreExact, CacheSet, GetExact, CacheGet. unfold MemCache. rewrite !lookup_insert_eq. cbn [expiresAt response].
  split_and!.
  - intros t2 t3 Ht Hz. rewrite (bool_decide_true (0 < ttl)) by done. unfold IsZero, After.
    rewrite (bool_decide_false (_ = zeroTime)) by done. cbn [negb andb].
    destruct (bool_decide_reflect (TimeAdd t1 ttl < t2)), (bool_decide_reflect (t2 <= TimeAdd t1 ttl)); try lia; (split; [done|]); [|done].
    intros _. simpl. by rewrite lookup_delete_eq.
  - intros t2 t3 Ht. rewrite bool_decide_false by lia. done.
  - intros prompt' Hne t2 t3 resp'. rewrite (lookup_insert_ne _ (hashPrompt prompt) (hashPrompt prompt')) by done.
    rewrite (lookup_insert_ne _ (hashPrompt prompt') (hashPrompt prompt)), lookup_insert_eq by done.
    destruct (c !! hashPrompt prompt') as [e|]; [|cbn [fst snd]; by rewrite lookup_insert_eq].
    destruct (negb _ && _); cbn [fst snd]; [rewrite lookup_delete_ne by done|rewrite lookup_insert_ne by done]; by rewrite ?lookup_insert_eq.
Qed.
