(* ===== verification/LoraPin.v ===== *)
(** * Pinned host memory for LoRA adapters

    [LoRAPinManager] of [internal/inference/bleeding_edge.go]: the pins, the
    byte accounting and the least-recently-used eviction.  A traversal of a Go
    map visits its entries in an unspecified order, a new one each time: the
    eviction takes the traversal of its round as an argument.  Sizes are
    [int64], pin counts [int32].  The simulated asynchronous allocation does
    nothing in the source. *)

From S2P Require Import Prelude.

Record LoRAPin := mkPin { AdapterID : string; SizeBytes : Z; PinCount : Z; LastUsed : Time }.

Record LoRAPinManager := mkManager { pinned : gmap string LoRAPin; maxCapacity : Z; used : Z }.

Inductive PinError := ErrInsufficient | ErrNotPinned.

#[export] Instance PinError_eq_dec : EqDecision PinError.
Proof. solve_decision. Defined.

Definition NewLoRAPinManager (capacityMB : Z) : LoRAPinManager :=
  mkManager ∅ (i64_wrap (i64_wrap (capacityMB * 1024) * 1024)) 0.

(** The loop over the pins: the first of the least [LastUsed] that is not in
    use. *)
Definition oldest_step (oldest : option (string * LoRAPin)) (entry : string * LoRAPin) : option (string * LoRAPin) :=
  if PinCount entry.2 >? 0 then oldest
  else match oldest with
       | None => Some entry
       | Some o => if Before (LastUsed entry.2) (LastUsed o.2) then Some entry else oldest
       end.

Definition evictOldest (range : list (string * LoRAPin)) (l : LoRAPinManager) : option LoRAPinManager :=
  match fold_left oldest_step range None with
  | None => None
  | Some (id, pin) => Some (mkManager (delete id (pinned l)) (maxCapacity l) (i64_wrap (used l - SizeBytes pin)))
  end.

Section prefetch.
(** [range n] is the traversal of the [n]-th eviction. *)
Context (range : nat -> gmap string LoRAPin -> list (string * LoRAPin)).

(** The eviction loop; [None] when the fuel runs out. *)
Fixpoint evict_until (fuel n : nat) (l : LoRAPinManager) (sizeBytes : Z) : option (LoRAPinManager * option PinError) :=
  match fuel with
  | O => None
  | S fuel =>
      if i64_wrap (used l + sizeBytes) >? maxCapacity l then
        match evictOldest (range n (pinned l)) l with
        | None => Some (l, Some ErrInsufficient)
        | Some l => evict_until fuel (S n) l sizeBytes
        end
      else Some (l, None)
  end.

(** Each eviction removes a pin: one round more than there are pins. *)
Definition Prefetch (now : Time) (l : LoRAPinManager) (adapterID : string) (sizeBytes : Z)
  : option (LoRAPinManager * option PinError) :=
  match pinned l !! adapterID with
  | Some _ => Some (l, None)
  | None =>
      match evict_until (S (size (pinned l))) 0 l sizeBytes with
      | Some (l, None) =>
          Some (mkManager (<[adapterID := mkPin adapterID sizeBytes 0 now]> (pinned l)) (maxCapacity l)
                  (i64_wrap (used l + sizeBytes)), None)
      | r => r
      end
  end.
End prefetch.

Definition LockAdapter (now : Time) (l : LoRAPinManager) (adapterID : string) : LoRAPinManager * option PinError :=
  match pinned l !! adapterID with
  | None => (l, Some ErrNotPinned)
  | Some pin =>
      (mkManager (<[adapterID := mkPin (AdapterID pin) (SizeBytes pin) (i32_wrap (PinCount pin + 1)) now]> (pinned l))
         (maxCapacity l) (used l), None)
  end.

Definition UnlockAdapter (l : LoRAPinManager) (adapterID : string) : LoRAPinManager :=
  match pinned l !! adapterID with
  | Some pin =>
      if PinCount pin >? 0 then
        mkManager (<[adapterID := mkPin (AdapterID pin) (SizeBytes pin) (i32_wrap (PinCount pin - 1)) (LastUsed pin)]> (pinned l))
          (maxCapacity l) (used l)
      else l
  | None => l
  end.

(** ** Byte accounting *)

(** The bytes of a map of pins, and of those in use. *)
Definition bytes (m : gmap string LoRAPin) : Z := zsum (fun kv => SizeBytes kv.2) (map_to_list m).

Lemma bytes_insert m id pin : m !! id = None -> bytes (<[id := pin]> m) = SizeBytes pin + bytes m.
Proof. intros H. unfold bytes. by rewrite map_to_list_insert. Qed.

Lemma bytes_delete m id pin : m !! id = Some pin -> bytes m = SizeBytes pin + bytes (delete id m).
Proof.
  intros H. rewrite <- (insert_delete_id m id pin H) at 1. apply bytes_insert. apply lookup_delete_eq.
Qed.

Lemma bytes_empty : bytes ∅ = 0.
Proof. unfold bytes. by rewrite map_to_list_empty. Qed.

Lemma bytes_nonneg m : (forall id pin, m !! id = Some pin -> 0 <= SizeBytes pin) -> 0 <= bytes m.
Proof. intros H. apply zsum_nonneg. intros [id pin] Hin%elem_of_map_to_list. by eapply H. Qed.

(** The manager's invariant. *)
Record pins_ok (l : LoRAPinManager) : Prop := {
  pins_used : used l = bytes (pinned l);
  pins_fit : bytes (pinned l) <= maxCapacity l;
  pins_sizes : forall id pin, pinned l !! id = Some pin -> AdapterID pin = id /\ 0 <= SizeBytes pin;
  pins_counts : forall id pin, pinned l !! id = Some pin -> 0 <= PinCount pin < 2 ^ 31
}.

(** The pins an operation may not touch. *)
Definition in_use (pin : LoRAPin) : Prop := 0 < PinCount pin.

Definition locked (m : gmap string LoRAPin) : gmap string LoRAPin := filter (fun kv => 0 < PinCount kv.2) m.

Lemma bytes_mono m1 m2 :
  m1 ⊆ m2 -> (forall id pin, m2 !! id = Some pin -> 0 <= SizeBytes pin) -> bytes m1 <= bytes m2.
Proof.
  intros Hs Hn. apply map_to_list_submseteq in Hs. apply submseteq_Permutation in Hs as [k Hk].
  unfold bytes. rewrite Hk, zsum_app.
  assert (0 <= zsum (fun kv : string * LoRAPin => SizeBytes kv.2) k); [|lia].
  apply zsum_nonneg. intros [id pin] Hin. apply (Hn id). apply elem_of_map_to_list. rewrite Hk. set_solver.
Qed.

(** ** The eviction *)

(** What the scan has found after the entries [seen]. *)
Definition scanned (seen : list (string * LoRAPin)) (o : option (string * LoRAPin)) : Prop :=
  match o with
  | None => forall kv, kv ∈ seen -> in_use kv.2
  | Some kv => kv ∈ seen /\ ~ in_use kv.2 /\ forall kv', kv' ∈ seen -> ~ in_use kv'.2 -> LastUsed kv.2 <= LastUsed kv'.2
  end.

Lemma oldest_step_scanned seen o kv : scanned seen o -> scanned (seen ++ [kv]) (oldest_step o kv).
Proof.
  intros H. unfold oldest_step, Before. destruct (bool_decide_reflect (0 < PinCount kv.2)) as [Hu|Hu].
  - destruct o as [o|]; simpl in *; [|intros kv' [?| ->%list_elem_of_singleton]%elem_of_app; [by apply H|done]].
    destruct H as (Hin & Ho & Hm). split_and!; [set_solver|done|].
    intros kv' [?| ->%list_elem_of_singleton]%elem_of_app; [by apply Hm|done].
  - destruct o as [o|]; simpl in *.
    + destruct H as (Hin & Ho & Hm). case_bool_decide; simpl; (split_and!; [set_solver|done|]);
        intros kv' [Hkv'| ->%list_elem_of_singleton]%elem_of_app Hu'; try specialize (Hm kv' Hkv' Hu'); lia.
    + split_and!; [set_solver|done|]. intros kv' [Hkv'| ->%list_elem_of_singleton]%elem_of_app Hu'; [|lia].
      destruct Hu'. by apply H.
Qed.

Lemma scan_all range : scanned range (fold_left oldest_step range None).
Proof.
  induction range as [|kv range IH] using rev_ind; simpl; [by intros kv Hkv%elem_of_nil|].
  rewrite fold_left_app. simpl. by apply oldest_step_scanned.
Qed.

(** The eviction removes a least recently used pin that is not in use, and
    fails only when every pin is. *)
Lemma evictOldest_spec range l :
  range ≡ₚ map_to_list (pinned l) ->
  match evictOldest range l with
  | None => forall id pin, pinned l !! id = Some pin -> in_use pin
  | Some l' => exists id pin, pinned l !! id = Some pin /\ ~ in_use pin
      /\ l' = mkManager (delete id (pinned l)) (maxCapacity l) (i64_wrap (used l - SizeBytes pin))
      /\ forall id' pin', pinned l !! id' = Some pin' -> ~ in_use pin' -> LastUsed pin <= LastUsed pin'
  end.
Proof.
  intros Hr. unfold evictOldest. pose proof (scan_all range) as Hs.
  assert (forall id pin, (id, pin) ∈ range <-> pinned l !! id = Some pin) as Hin.
  { intros id pin. rewrite Hr. apply elem_of_map_to_list. }
  destruct (fold_left oldest_step range None) as [[id pin]|]; simpl in Hs.
  - destruct Hs as (H1 & H2 & H3). exists id, pin. split_and!; [by apply Hin|done|done|].
    intros id' pin' Hp Hu. apply (H3 (id', pin')); [by apply Hin|done].
  - intros id pin Hp. by apply (Hs (id, pin)), Hin.
Qed.

Lemma evict_ok l id pin :
  pins_ok l -> maxCapacity l < 2 ^ 63 -> pinned l !! id = Some pin ->
  pins_ok (mkManager (delete id (pinned l)) (maxCapacity l) (i64_wrap (used l - SizeBytes pin))).
Proof.
  intros [Hu Hf Hs Hc] Hm Hid. pose proof (bytes_delete _ _ _ Hid) as Hb. destruct (Hs _ _ Hid) as [_ Hz].
  assert (0 <= bytes (delete id (pinned l))).
  { apply bytes_nonneg. intros id' pin' [_ H]%lookup_delete_Some. apply (Hs _ _ H). }
  constructor; simpl.
  - rewrite i64_wrap_small; [lia|]. unfold i64_range. lia.
  - lia.
  - intros id' pin' [_ Hp]%lookup_delete_Some. by apply Hs.
  - intros id' pin' [_ Hp]%lookup_delete_Some. by apply (Hc id').
Qed.

(** The pins that an eviction from [m] to [m'] removed: none in use, and none
    used later than an unused one that is left. *)
Definition lru_removed (m m' : gmap string LoRAPin) : Prop :=
  forall id pin, m !! id = Some pin -> m' !! id = None -> ~ in_use pin
    /\ forall id' pin', m' !! id' = Some pin' -> ~ in_use pin' -> LastUsed pin <= LastUsed pin'.

Lemma evict_until_spec range fuel n l sizeBytes :
  (forall n m, range n m ≡ₚ map_to_list m) -> (size (pinned l) < fuel)%nat ->
  pins_ok l -> 0 <= sizeBytes -> maxCapacity l + sizeBytes < 2 ^ 63 ->
  exists l' r, evict_until range fuel n l sizeBytes = Some (l', r)
    /\ pins_ok l' /\ maxCapacity l' = maxCapacity l /\ pinned l' ⊆ pinned l /\ lru_removed (pinned l) (pinned l')
    /\ match r with
       | None => bytes (pinned l') + sizeBytes <= maxCapacity l
       | Some e => e = ErrInsufficient /\ maxCapacity l < bytes (pinned l') + sizeBytes
                   /\ forall id pin, pinned l' !! id = Some pin -> in_use pin
       end.
Proof.
  intros Hr. revert n l. induction fuel as [|fuel IH]; intros n l Hfuel Hok Hz Hm; [lia|]. cbn [evict_until].
  assert (0 <= bytes (pinned l)) by (apply bytes_nonneg; intros; by eapply (pins_sizes l Hok)).
  pose proof (pins_used l Hok) as Hu. pose proof (pins_fit l Hok).
  rewrite i64_wrap_small by (unfold i64_range; lia).
  assert (lru_removed (pinned l) (pinned l)) by (intros id pin H1 H2; congruence).
  destruct (bool_decide_reflect (maxCapacity l < used l + sizeBytes)) as [Hfull|Hroom].
  2: { exists l, None. split_and!; try done. lia. }
  pose proof (evictOldest_spec (range n (pinned l)) l (Hr _ _)) as He.
  destruct (evictOldest _ l) as [l1|].
  2: { exists l, (Some ErrInsufficient). split_and!; try done. lia. }
  destruct He as (id & pin & Hid & Hnu & -> & Hmin).
  edestruct (IH (S n) (mkManager (delete id (pinned l)) (maxCapacity l) (i64_wrap (used l - SizeBytes pin))))
    as (l' & r & E & Hok' & Hcap & Hsub & Hlru & Hres); simpl; [|by apply evict_ok; auto; lia|done|done|].
  { rewrite map_size_delete_Some by eauto. assert (size (pinned l) <> 0%nat); [|lia].
    intros Hsz%map_size_empty_inv. by rewrite Hsz, lookup_empty in Hid. }
  simpl in *. exists l', r. split_and!; try done.
  - etrans; [exact Hsub|]. apply delete_subseteq.
  - intros id0 pin0 Ha Hb. destruct (decide (id0 = id)) as [->|Hne].
    + rewrite Hid in Ha. injection Ha as <-. split; [done|]. intros id' pin' H' Hu'. apply (Hmin id'); [|done].
      eapply lookup_weaken; [|exact (delete_subseteq (pinned l) id)]. by eapply lookup_weaken.
    + apply (Hlru id0); [by rewrite lookup_delete_ne|done].
Qed.

(** The pins left by a refused prefetch are those in use. *)
Lemma lru_all_in_use m m' :
  m' ⊆ m -> lru_removed m m' -> (forall id pin, m' !! id = Some pin -> in_use pin) -> m' = locked m.
Proof.
  intros Hs Hl Hu. apply map_eq. intros id. apply option_eq. intros pin. unfold locked.
  rewrite map_lookup_filter_Some. simpl. split.
  - intros H. split; [by eapply lookup_weaken|by eapply Hu].
  - intros [H Hp]. destruct (m' !! id) as [pin'|] eqn:E.
    + eapply lookup_weaken in E; [|exact Hs]. congruence.
    + destruct (Hl id pin H E) as [Hn _]. destruct Hn. exact Hp.
Qed.

Lemma lru_locked_kept m m' : m' ⊆ m -> lru_removed m m' -> locked m ⊆ m'.
Proof.
  intros Hs Hl. apply map_subseteq_spec. intros id pin [H Hp]%map_lookup_filter_Some.
  destruct (m' !! id) as [pin'|] eqn:E; [eapply lookup_weaken in E; [|exact Hs]; congruence|].
  destruct (Hl id pin H E) as [Hn _]. destruct Hn. exact Hp.
Qed.

Lemma pin_ok now l id sizeBytes :
  pins_ok l -> pinned l !! id = None -> 0 <= sizeBytes -> bytes (pinned l) + sizeBytes <= maxCapacity l ->
  maxCapacity l < 2 ^ 63 ->
  pins_ok (mkManager (<[id := mkPin id sizeBytes 0 now]> (pinned l)) (maxCapacity l) (i64_wrap (used l + sizeBytes))).
Proof.
  intros [Hu Hf Hs Hc] Hid Hz Hroom Hm.
  assert (0 <= bytes (pinned l)) by (apply bytes_nonneg; intros; by eapply Hs).
  constructor; simpl; rewrite ?bytes_insert by done; simpl.
  - rewrite i64_wrap_small; [lia|]. unfold i64_range. lia.
  - lia.
  - intros id' pin' [[<- <-]|[_ Hp]]%lookup_insert_Some; [done|by apply Hs].
  - intros id' pin' [[<- <-]|[_ Hp]]%lookup_insert_Some; [simpl; lia|by apply (Hc id')].
Qed.

(** What prefetching [id] makes of the manager. *)
Record prefetched (now : Time) (id : string) (sizeBytes : Z) (l l' : LoRAPinManager) (r : option PinError) : Prop := {
  (** the accounting is kept, and no pin in use is touched *)
  pre_ok : pins_ok l' /\ maxCapacity l' = maxCapacity l;
  pre_locked : locked (pinned l) ⊆ pinned l';
  (** it succeeds exactly when [id] is pinned already or fits beside the pins in use *)
  pre_iff : r = None <-> is_Some (pinned l !! id) \/ bytes (locked (pinned l)) + sizeBytes <= maxCapacity l;
  pre_pinned : r = None -> pinned l' !! id = Some (default (mkPin id sizeBytes 0 now) (pinned l !! id));
  (** nothing else is added, and what is removed was used the longest ago *)
  pre_from : forall id' pin, pinned l' !! id' = Some pin ->
    pinned l !! id' = Some pin \/ id' = id /\ pin = mkPin id sizeBytes 0 now;
  pre_lru : pinned l !! id = None -> lru_removed (pinned l) (delete id (pinned l'));
  pre_same : is_Some (pinned l !! id) -> l' = l;
  (** a refusal has removed every pin not in use *)
  pre_refused : r <> None -> r = Some ErrInsufficient /\ pinned l' = locked (pinned l)
}.

Lemma Prefetch_spec range now l id sizeBytes :
  (forall n m, range n m ≡ₚ map_to_list m) ->
  pins_ok l -> 0 <= sizeBytes -> maxCapacity l + sizeBytes < 2 ^ 63 ->
  exists l' r, Prefetch range now l id sizeBytes = Some (l', r) /\ prefetched now id sizeBytes l l' r.
Proof.
  intros Hrange Hok Hsize Hmax. unfold Prefetch. destruct (pinned l !! id) as [pin|] eqn:E.
  { exists l, None. split; [done|]. constructor; rewrite ?E; try done; [apply map_filter_subseteq|naive_solver|naive_solver]. }
  destruct (evict_until_spec range (S (size (pinned l))) 0 l sizeBytes Hrange) as (l1 & r & -> & Hok1 & Hcap & Hsub & Hlru & Hres);
    [lia|done..|].
  assert (pinned l1 !! id = None) as E1 by (by eapply lookup_weaken_None).
  pose proof (lru_locked_kept _ _ Hsub Hlru) as Hlock.
  assert (bytes (locked (pinned l)) <= bytes (pinned l1)) by (apply bytes_mono; [done|]; intros; by eapply (pins_sizes l1 Hok1)).
  destruct r as [e|].
  - destruct Hres as (-> & Hfull & Hall). pose proof (lru_all_in_use _ _ Hsub Hlru Hall) as Heq.
    exists l1, (Some ErrInsufficient). split; [done|]. constructor; rewrite ?E; try done.
    + split; [done|]. intros [[? ?]|?]; [done|]. rewrite Heq in *. lia.
    + intros id' pin Hp. left. by eapply lookup_weaken.
    + intros _. by rewrite delete_id.
  - eexists _, None. split; [reflexivity|]. constructor; rewrite ?E; cbn [pinned maxCapacity]; try done.
    + split; [|done]. apply pin_ok; [done|done|done|lia|lia].
    + etrans; [exact Hlock|]. by apply insert_subseteq.
    + split; [|done]. intros _. right. lia.
    + intros _. by rewrite lookup_insert_eq.
    + intros id' pin [[<- <-]|[_ Hp]]%lookup_insert_Some; [by right|left]. by eapply lookup_weaken.
    + intros _. by rewrite delete_insert_id.
Qed.

(** C27. Prefetching ends whatever the order of the traversals, with the outcome
    [prefetched] describes. *)
Theorem prefetch_terminates range now l id sizeBytes
  (Hrange : forall n m, range n m ≡ₚ map_to_list m)
  (Hok : pins_ok l) (Hsize : 0 <= sizeBytes) (Hmax : maxCapacity l + sizeBytes < 2 ^ 63) :
  exists l' r, Prefetch range now l id sizeBytes = Some (l', r) /\ prefetched now id sizeBytes l l' r.
Proof. by apply Prefetch_spec. Qed.

(** ** Sequences of operations *)

Inductive PinOp :=
  | OpPrefetch (range : nat -> gmap string LoRAPin -> list (string * LoRAPin)) (now : Time) (id : string) (sizeBytes : Z)
  | OpLock (now : Time) (id : string)
  | OpUnlock (id : string).

Definition pin_step (l : LoRAPinManager) (op : PinOp) : option LoRAPinManager :=
  match op with
  | OpPrefetch range now id sizeBytes => fst <$> Prefetch range now l id sizeBytes
  | OpLock now id => Some (LockAdapter now l id).1
  | OpUnlock id => Some (UnlockAdapter l id)
  end.

Fixpoint pin_run (l : LoRAPinManager) (ops : list PinOp) : option LoRAPinManager :=
  match ops with
  | [] => Some l
  | op :: ops => l ← pin_step l op; pin_run l ops
  end.

Definition pin_op_ok (capacity : Z) (op : PinOp) : Prop :=
  match op with
  | OpPrefetch range _ _ sizeBytes =>
      (forall n m, range n m ≡ₚ map_to_list m) /\ 0 <= sizeBytes /\ capacity + sizeBytes < 2 ^ 63
  | _ => True
  end.

Definition counts_below (k : Z) (l : LoRAPinManager) : Prop :=
  forall id pin, pinned l !! id = Some pin -> PinCount pin < k.

(** Replacing a pin by one of the same size keeps the accounting. *)
Lemma repin_ok l id pin pin' :
  pins_ok l -> pinned l !! id = Some pin -> AdapterID pin' = AdapterID pin -> SizeBytes pin' = SizeBytes pin ->
  0 <= PinCount pin' < 2 ^ 31 ->
  pins_ok (mkManager (<[id := pin']> (pinned l)) (maxCapacity l) (used l)).
Proof.
  intros [Hu Hf Hs Hc] Hid Ha Hz Hp.
  assert (bytes (<[id := pin']> (pinned l)) = bytes (pinned l)) as Hb.
  { rewrite <- insert_delete_eq, bytes_insert by apply lookup_delete_eq. rewrite (bytes_delete _ _ _ Hid). lia. }
  constructor; simpl; rewrite ?Hb; auto; intros id' p [[<- <-]|[_ Hp']]%lookup_insert_Some.
  - rewrite Ha, Hz. by apply Hs.
  - by apply Hs.
  - done.
  - by apply (Hc id').
Qed.

Lemma pin_step_ok l op k :
  pins_ok l -> pin_op_ok (maxCapacity l) op -> counts_below k l -> 0 < k < 2 ^ 31 ->
  exists l', pin_step l op = Some l' /\ pins_ok l' /\ maxCapacity l' = maxCapacity l /\ counts_below (k + 1) l'
    /\ forall id pin, pinned l !! id = Some pin -> in_use pin -> op <> OpUnlock id ->
         exists pin', pinned l' !! id = Some pin' /\ PinCount pin <= PinCount pin'.
Proof.
  intros Hok Hop Hk Hk'.
  assert (counts_below (k + 1) l) as Hk1 by (intros id pin H; specialize (Hk id pin H); lia).
  destruct op as [range now id0 sizeBytes|now id0|id0]; cbn [pin_step].
  - destruct Hop as (Hr & Hz & Hm).
    destruct (Prefetch_spec range now l id0 sizeBytes Hr Hok Hz Hm) as (l' & r & -> & [[Hok' Hcap] Hlock _ _ Hfrom _ _ _]).
    exists l'. split_and!; [done|done|done| |].
    + intros id pin [Hp|[-> ->]]%Hfrom; [specialize (Hk id pin Hp); lia|simpl; lia].
    + intros id pin Hid Hu _. exists pin. split; [|done]. eapply lookup_weaken; [|exact Hlock].
      by apply map_lookup_filter_Some.
  - unfold LockAdapter. destruct (pinned l !! id0) as [pin|] eqn:E; simpl; [|exists l; naive_solver].
    pose proof (Hk _ _ E). destruct (pins_counts l Hok _ _ E).
    assert (i32_wrap (PinCount pin + 1) = PinCount pin + 1) as Hw by (apply i32_wrap_small; unfold i32_range; lia).
    eexists. split_and!; [done|by eapply repin_ok; eauto; simpl; lia|done| |]; simpl.
    + intros id pin' Hi. cbn [pinned] in Hi. apply lookup_insert_Some in Hi as [[<- <-]|[_ Hi]]; [simpl; lia|by apply (Hk1 id)].
    + intros id pin' Hid Hu _. destruct (decide (id = id0)) as [->|Hne].
      * rewrite lookup_insert_eq. eexists. split; [done|]. simpl. rewrite E in Hid. injection Hid as <-. lia.
      * rewrite lookup_insert_ne by done. by exists pin'.
  - unfold UnlockAdapter. destruct (pinned l !! id0) as [pin|] eqn:E; [|exists l; naive_solver].
    case_bool_decide; [|exists l; naive_solver]. destruct (pins_counts l Hok _ _ E).
    assert (i32_wrap (PinCount pin - 1) = PinCount pin - 1) as Hw by (apply i32_wrap_small; unfold i32_range; lia).
    eexists. split_and!; [done|by eapply repin_ok; eauto; simpl; lia|done| |]; simpl.
    + intros id pin' Hi. cbn [pinned] in Hi. apply lookup_insert_Some in Hi as [[<- <-]|[_ Hi]]; [specialize (Hk1 _ _ E); simpl; lia|by apply (Hk1 id)].
    + intros id pin' Hid Hu Hne. rewrite lookup_insert_ne by congruence. by exists pin'.
Qed.

Lemma pin_run_ok l ops k :
  pins_ok l -> Forall (pin_op_ok (maxCapacity l)) ops -> counts_below k l -> 0 < k -> k + Z.of_nat (length ops) <= 2 ^ 31 ->
  exists l', pin_run l ops = Some l' /\ pins_ok l' /\ maxCapacity l' = maxCapacity l
    /\ counts_below (k + Z.of_nat (length ops)) l'
    /\ forall id pin, pinned l !! id = Some pin -> in_use pin -> Forall (fun op => op <> OpUnlock id) ops ->
         exists pin', pinned l' !! id = Some pin' /\ PinCount pin <= PinCount pin'.
Proof.
  revert l k. induction ops as [|op ops IH]; intros l k Hok Hops Hk Hk0 Hlen; simpl in *.
  { exists l. split_and!; try done; [by rewrite Z.add_0_r|]. intros id pin Hid _ _. by exists pin. }
  apply Forall_cons in Hops as [Hop Hops].
  destruct (pin_step_ok l op k) as (l1 & -> & Hok1 & Hcap1 & Hk1 & Hkeep1); [done|done|done|lia|]. simpl.
  destruct (IH l1 (k + 1)) as (l' & -> & Hok' & Hcap' & Hk' & Hkeep); [done|by rewrite Hcap1|done|lia|lia|].
  exists l'. split_and!; [done|done|congruence|intros id pin Hp; specialize (Hk' id pin Hp); lia|]. intros id pin Hid Hu [Hne Hrest]%Forall_cons.
  destruct (Hkeep1 id pin Hid Hu Hne) as (pin1 & H1 & Hc1).
  destruct (Hkeep id pin1 H1) as (pin' & H' & Hc'); [unfold in_use in *; lia|done|]. exists pin'. split; [done|lia].
Qed.

(** From an empty manager every sequence of operations keeps the recorded
    bytes equal to the sizes of the pins and within the capacity; and an
    adapter that is locked at some point stays pinned until it is unlocked. *)
Theorem pins_within_capacity capacityMB ops1 ops2
  (Hcap : 0 <= capacityMB < 2 ^ 43)
  (Hops : Forall (pin_op_ok (capacityMB * 2 ^ 20)) (ops1 ++ ops2))
  (Hlen : Z.of_nat (length (ops1 ++ ops2)) < 2 ^ 30) :
  exists l1 l2, pin_run (NewLoRAPinManager capacityMB) ops1 = Some l1 /\ pin_run l1 ops2 = Some l2
    /\ used l2 = bytes (pinned l2) /\ 0 <= used l2 <= capacityMB * 2 ^ 20
    /\ forall id pin, pinned l1 !! id = Some pin -> in_use pin -> Forall (fun op => op <> OpUnlock id) ops2 ->
         exists pin', pinned l2 !! id = Some pin' /\ in_use pin'.
Proof.
  assert (maxCapacity (NewLoRAPinManager capacityMB) = capacityMB * 2 ^ 20) as Hm.
  { unfold NewLoRAPinManager. simpl. rewrite !i64_wrap_small; unfold i64_range; rewrite ?i64_wrap_small; unfold i64_range; lia. }
  assert (pins_ok (NewLoRAPinManager capacityMB)) as H0.
  { constructor; try done. rewrite Hm. simpl. rewrite bytes_empty. lia. }
  rewrite length_app in Hlen. apply Forall_app in Hops as [Ho1 Ho2].
  destruct (pin_run_ok (NewLoRAPinManager capacityMB) ops1 1) as (l1 & E1 & Hok1 & Hc1 & Hk1 & _); [done|by rewrite Hm|done|lia|lia|].
  destruct (pin_run_ok l1 ops2 (1 + Z.of_nat (length ops1))) as (l2 & E2 & Hok2 & Hc2 & _ & Hkeep); [done|by rewrite Hc1, Hm|done|lia|lia|].
  exists l1, l2. pose proof (pins_used l2 Hok2) as Hu. pose proof (pins_fit l2 Hok2).
  assert (0 <= bytes (pinned l2)) by (apply bytes_nonneg; intros; by eapply (pins_sizes l2 Hok2)).
  split_and!; [done|done|done|lia|lia|]. intros id pin Hid Hin Hno.
  destruct (Hkeep id pin Hid Hin Hno) as (pin' & Hp & Hle). exists pin'. split; [done|]. unfold in_use in *. lia.
Qed.

(** ** Witnesses *)

Definition w_range (n : nat) (m : gmap string LoRAPin) : list (string * LoRAPin) := map_to_list m.

Definition w_pins : LoRAPinManager :=
  mkManager {["a" := mkPin "a" 40 1 5; "b" := mkPin "b" 30 0 9; "c" := mkPin "c" 20 0 7]} 100 90.

Lemma w_pins_ok : pins_ok w_pins.
Proof.
  assert (map_Forall (fun id pin => AdapterID pin = id /\ 0 <= SizeBytes pin /\ 0 <= PinCount pin < 2 ^ 31) (pinned w_pins)) as H
    by by_computation.
  constructor; [reflexivity|by vm_compute|..]; intros id pin Hp; apply H in Hp; naive_solver.
Qed.

(** A prefetch of 50 bytes evicts the two adapters that are not in use; one
    of 15 only the one used earlier. *)
Lemma prefetch_terminates_witness :
  (exists l r, Prefetch w_range 11 w_pins "d" 50 = Some (l, r) /\ prefetched 11 "d" 50 w_pins l r)
  /\ (exists l, Prefetch w_range 11 w_pins "d" 50 = Some (l, None) /\ dom (pinned l) = {["a"; "d"]})
  /\ (exists l, Prefetch w_range 11 w_pins "d" 15 = Some (l, None) /\ dom (pinned l) = {["a"; "b"; "d"]})
  /\ exists l, Prefetch w_range 11 w_pins "d" 61 = Some (l, Some ErrInsufficient) /\ dom (pinned l) = {["a"]}.
Proof.
  split_and!.
  - apply (prefetch_terminates w_range 11 w_pins "d" 50); [done|apply w_pins_ok|lia|by vm_compute].
  - eexists. split; vm_compute; reflexivity.
  - eexists. split; vm_compute; reflexivity.
  - eexists. split; vm_compute; reflexivity.
Defined.

Lemma pins_within_capacity_witness :
  let ops1 := [OpPrefetch w_range 1 "a" 900000; OpLock 2 "a"; OpPrefetch w_range 3 "b" 100000] in
  let ops2 := [OpPrefetch w_range 4 "c" 140000; OpUnlock "b"] in
  exists l1 l2, pin_run (NewLoRAPinManager 1) ops1 = Some l1 /\ pin_run l1 ops2 = Some l2
    /\ used l2 = bytes (pinned l2) /\ 0 <= used l2 <= 1 * 2 ^ 20
    /\ forall id pin, pinned l1 !! id = Some pin -> in_use pin -> Forall (fun op => op <> OpUnlock id) ops2 ->
         exists pin', pinned l2 !! id = Some pin' /\ in_use pin'.
Proof.
  intros ops1 ops2. apply (pins_within_capacity 1 ops1 ops2).
  - lia.
  - unfold ops1, ops2. simpl. repeat constructor; try done; lia.
  - by vm_compute.
Defined.

(** A size near the bound of [int64] overflows the sum: the adapter is
    recorded although the capacity is 16 GiB, and the recorded use is
    negative. *)
Example prefetch_overflow :
  exists l, Prefetch w_range 2 (mkManager {["a" := mkPin "a" 1 0 1]} (16384 * 2 ^ 20) 1) "huge" (2 ^ 63 - 1) = Some (l, None)
    /\ used l = - 2 ^ 63 /\ is_Some (pinned l !! "huge").
Proof. eexists. split_and!; [vm_compute; reflexivity|reflexivity|by eexists]. Qed.
