(* ===== verification/InferencePrimitives.v ===== *)
(** * Standalone primitives of the inference layer

    [internal/inference]: the preloader, the request coalescer, the prefix
    cache warmer, the speculative decoder ([advanced.go]), latency budgets,
    request metrics, the stream writer, and the pod annotations of
    [extreme.go] and [bleeding_edge.go].  Each operation takes the clock
    readings it makes as arguments.  Closing a closed channel panics: such an
    operation returns [None]. *)

From S2P Require Import Prelude GoFloat Sha256 Adaptive.

(** ** The preloader *)

Module Preloader.

Inductive PreloadPhase :=
  PreloadPending | PreloadDownloading | PreloadLoading | PreloadWarming | PreloadReady | PreloadFailed.

#[export] Instance PreloadPhase_eq_dec : EqDecision PreloadPhase.
Proof. solve_decision. Defined.

(** [closed] is the state of [ReadyCh]; errors are their texts. *)
Record PreloadState := mkState {
  ModelName : string;
  Phase : PreloadPhase;
  StartTime : Time;
  ReadyTime : Time;
  Error : option string;
  closed : bool
}.

Notation Models := (gmap string PreloadState).

Definition Start (now : Time) (p : Models) (modelName : string) : Models * PreloadState :=
  match p !! modelName with
  | Some state => (p, state)
  | None =>
      let state := mkState modelName PreloadPending now zeroTime None false in
      (<[modelName := state]> p, state)
  end.

(** [close(ch)]. *)
Definition close (s : PreloadState) : option PreloadState :=
  if closed s then None
  else Some (mkState (ModelName s) (Phase s) (StartTime s) (ReadyTime s) (Error s) true).

Definition MarkReady (now : Time) (p : Models) (modelName : string) : option Models :=
  match p !! modelName with
  | Some s =>
      s ← close (mkState (ModelName s) PreloadReady (StartTime s) now (Error s) (closed s));
      Some (<[modelName := s]> p)
  | None => Some p
  end.

Definition MarkFailed (p : Models) (modelName : string) (err : option string) : option Models :=
  match p !! modelName with
  | Some s =>
      s ← close (mkState (ModelName s) PreloadFailed (StartTime s) (ReadyTime s) err (closed s));
      Some (<[modelName := s]> p)
  | None => Some p
  end.

Inductive WaitError := ErrNotQueued | ErrPreloadFailed (err : string) | ErrTimedOut.

(** The outcome of the wait: [None] while neither case of the [select] is
    ready; when both are, [pick] chooses. *)
Definition WaitReady (done pick : bool) (p : Models) (modelName : string) : option (option WaitError) :=
  match p !! modelName with
  | None => Some (Some ErrNotQueued)
  | Some s =>
      let ready := Some (match Error s with Some e => Some (ErrPreloadFailed e) | None => None end) in
      match closed s, done with
      | false, false => None
      | true, false => ready
      | false, true => Some (Some ErrTimedOut)
      | true, true => if pick then ready else Some (Some ErrTimedOut)
      end
  end.

Definition LoadDuration (p : Models) (modelName : string) : Duration :=
  match p !! modelName with
  | Some s => if Phase s ==? PreloadReady then TimeSub (ReadyTime s) (StartTime s) else 0
  | None => 0
  end.

(** The channel is closed exactly in the two final phases, and the error of a
    ready model is nil. *)
Definition state_ok (s : PreloadState) : Prop :=
  (closed s = true <-> Phase s = PreloadReady \/ Phase s = PreloadFailed) /\ (Phase s = PreloadReady -> Error s = None)
  /\ (closed s = false -> Error s = None).

Definition models_ok (p : Models) : Prop := map_Forall (fun _ s => state_ok s) p.

Lemma Start_ok now p m : models_ok p -> models_ok (Start now p m).1.
Proof.
  intros H. unfold Start. destruct (p !! m) eqn:E; [done|]. simpl.
  apply map_Forall_insert_2; [|done]. split_and!; simpl; naive_solver.
Qed.

(** Marking a model that has reached a final phase panics; otherwise it sets
    the phase and wakes the waiters. *)
Lemma MarkReady_ok now p m :
  models_ok p ->
  match MarkReady now p m with
  | None => exists s, p !! m = Some s /\ (Phase s = PreloadReady \/ Phase s = PreloadFailed)
  | Some p' => models_ok p' /\ (is_Some (p !! m) -> forall pick, WaitReady false pick p' m = Some None)
  end.
Proof.
  intros H. unfold MarkReady, close. destruct (p !! m) as [s|] eqn:E; [|split; [done|by intros [? ?]]].
  destruct (H m s E) as (Hc & Hr & He). simpl. destruct (closed s) eqn:Ec; simpl; [exists s; naive_solver|].
  split.
  - apply map_Forall_insert_2; [|done]. split_and!; simpl; naive_solver.
  - intros _ pick. unfold WaitReady. rewrite lookup_insert_eq. simpl. by rewrite He.
Qed.

Lemma MarkFailed_ok p m err :
  models_ok p -> err <> None ->
  match MarkFailed p m err with
  | None => exists s, p !! m = Some s /\ (Phase s = PreloadReady \/ Phase s = PreloadFailed)
  | Some p' => models_ok p'
      /\ (is_Some (p !! m) -> forall pick, exists e, err = Some e /\ WaitReady false pick p' m = Some (Some (ErrPreloadFailed e)))
  end.
Proof.
  intros H Herr. unfold MarkFailed, close. destruct (p !! m) as [s|] eqn:E; [|split; [done|by intros [? ?]]].
  destruct (H m s E) as (Hc & Hr & He). simpl. destruct (closed s) eqn:Ec; simpl; [exists s; naive_solver|].
  destruct err as [e|]; [|done]. split.
  - apply map_Forall_insert_2; [|done]. split_and!; simpl; naive_solver.
  - intros _ pick. exists e. unfold WaitReady. by rewrite lookup_insert_eq.
Qed.

(** The two operations as one call. *)
Inductive PreloadOp := OpStart (now : Time) (m : string) | OpReady (now : Time) (m : string) | OpFailed (m err : string).

Definition preload_step (p : Models) (op : PreloadOp) : option Models :=
  match op with
  | OpStart now m => Some (Start now p m).1
  | OpReady now m => MarkReady now p m
  | OpFailed m err => MarkFailed p m (Some err)
  end.

Fixpoint preload_run (p : Models) (ops : list PreloadOp) : option Models :=
  match ops with
  | [] => Some p
  | op :: ops => p ← preload_step p op; preload_run p ops
  end.

(** Up to a panic the states stay consistent: a closed channel means a final
    phase, and the other way round. *)
Lemma preload_run_ok p ops p' : models_ok p -> preload_run p ops = Some p' -> models_ok p'.
Proof.
  revert p. induction ops as [|op ops IH]; intros p Hp H; simpl in H; [by injection H as <-|].
  destruct (preload_step p op) as [p1|] eqn:E; [|done]. apply (IH p1); [|done].
  destruct op as [now m|now m|m err]; simpl in E.
  - injection E as <-. by apply Start_ok.
  - pose proof (MarkReady_ok now p m Hp) as Hm. rewrite E in Hm. by destruct Hm.
  - pose proof (MarkFailed_ok p m (Some err) Hp) as Hm. rewrite E in Hm. by destruct Hm.
Qed.

(** A model whose load fails after it was marked ready panics the caller. *)
Example second_mark_panics :
  preload_run ∅ [OpStart 1 "llama"; OpReady 2 "llama"; OpFailed "llama" "evicted"] = None.
Proof. reflexivity. Qed.
End Preloader.

(** ** The coalescer *)

Module Coalescer.

(** Channels are numbered in the order they are made. *)
Record coalescedRequest := mkCoalesced { key : string; waiters : list nat; createdAt : Time }.

Record Coalescer := mkCoalescer {
  pending : gmap string coalescedRequest;
  window : Duration;
  maxBatch : Z;
  made : nat
}.

Definition NewCoalescer (window : Duration) (maxBatch : Z) : Coalescer := mkCoalescer ∅ window maxBatch 0.

Definition Submit (now : Time) (c : Coalescer) (k : string) : Coalescer * nat :=
  let ch := made c in
  let fresh := <[k := mkCoalesced k [ch] now]> (pending c) in
  let pending' :=
    match pending c !! k with
    | Some req =>
        if Z.of_nat (length (waiters req)) <? maxBatch c
        then <[k := mkCoalesced (key req) (waiters req ++ [ch]) (createdAt req)]> (pending c)
        else fresh
    | None => fresh
    end in
  (mkCoalescer pending' (window c) (maxBatch c) (S ch), ch).

Definition due (now : Time) (c : Coalescer) (req : coalescedRequest) : bool :=
  Before (createdAt req) (TimeAdd now (- window c)) || (Z.of_nat (length (waiters req)) >=? maxBatch c).

Definition Flush (now : Time) (c : Coalescer) : Coalescer * gmap string (list nat) :=
  (mkCoalescer (filter (fun kv => due now c kv.2 = false) (pending c)) (window c) (maxBatch c) (made c),
   waiters <$> filter (fun kv => due now c kv.2 = true) (pending c)).

(** The channels waiting under any key. *)
Definition waiting (m : gmap string coalescedRequest) : list nat := concat ((fun kv => waiters kv.2) <$> map_to_list m).

Lemma waiting_insert m k req : m !! k = None -> waiting (<[k := req]> m) ≡ₚ waiters req ++ waiting m.
Proof. intros H. unfold waiting. by rewrite map_to_list_insert. Qed.

Lemma waiting_delete m k req : m !! k = Some req -> waiting m ≡ₚ waiters req ++ waiting (delete k m).
Proof.
  intros H. rewrite <- (insert_delete_id m k req H) at 1. apply waiting_insert, lookup_delete_eq.
Qed.

(** The waiters a submission under [k] leaves behind. *)
Definition dropped (c : Coalescer) (k : string) : list nat :=
  match pending c !! k with
  | Some req => if Z.of_nat (length (waiters req)) <? maxBatch c then [] else waiters req
  | None => []
  end.

Lemma Submit_waiting now c k c' ch :
  Submit now c k = (c', ch) -> ch = made c /\ made c' = S ch /\ dropped c k ++ waiting (pending c') ≡ₚ ch :: waiting (pending c).
Proof.
  unfold Submit, dropped. intros [= <- <-]. split_and!; [done|done|]. simpl.
  destruct (pending c !! k) as [req|] eqn:E; [|by rewrite waiting_insert].
  rewrite (waiting_delete (pending c) k req E).
  assert (forall r, waiting (<[k := r]> (pending c)) ≡ₚ waiters r ++ waiting (delete k (pending c))) as Hi.
  { intros r. rewrite <- insert_delete_eq. apply waiting_insert, lookup_delete_eq. }
  case_bool_decide; rewrite Hi; simpl; [|by rewrite Permutation_middle].
  rewrite <- app_assoc. symmetry. apply Permutation_middle.
Qed.

Lemma Flush_waiting now c :
  let '(c', ready) := Flush now c in
  waiting (pending c) ≡ₚ waiting (pending c') ++ concat (snd <$> map_to_list ready).
Proof.
  simpl. rewrite map_to_list_fmap.
  assert (forall m : gmap string coalescedRequest,
    concat (snd <$> (prod_map id waiters <$> map_to_list m)) = waiting m) as Hs.
  { intros m. unfold waiting. by rewrite <- list_fmap_compose. }
  rewrite Hs. induction (pending c) as [|k req m Hk IH] using map_ind.
  { by rewrite !map_filter_empty. }
  rewrite waiting_insert, IH by done. destruct (due now c req) eqn:E.
  - rewrite map_filter_insert_False by (simpl; by rewrite E).
    rewrite map_filter_insert_True by done. rewrite delete_id by done.
    rewrite (waiting_insert (filter _ m) k req) by (apply map_lookup_filter_None; by left).
    rewrite !app_assoc. f_equiv. apply Permutation_app_comm.
  - rewrite map_filter_insert_True by done.
    rewrite (map_filter_insert_False (fun kv => due now c kv.2 = true)) by (simpl; by rewrite E). rewrite delete_id by done.
    rewrite (waiting_insert (filter _ m) k req) by (apply map_lookup_filter_None; by left).
    by rewrite app_assoc.
Qed.

Inductive CoalesceOp := OpSubmit (now : Time) (k : string) | OpFlush (now : Time).

(** The coalescer with the channels it has handed to a flush, and those it
    has let go. *)
Record Trace := mkCTrace { state : Coalescer; flushed : list nat; lost : list nat }.

Definition coalesce_step (t : Trace) (op : CoalesceOp) : Trace :=
  match op with
  | OpSubmit now k => mkCTrace (Submit now (state t) k).1 (flushed t) (lost t ++ dropped (state t) k)
  | OpFlush now =>
      let '(c, ready) := Flush now (state t) in
      mkCTrace c (flushed t ++ concat (snd <$> map_to_list ready)) (lost t)
  end.

Definition coalesce_run (t : Trace) (ops : list CoalesceOp) : Trace := fold_left coalesce_step ops t.

Definition accounted (t : Trace) : Prop :=
  seq 0 (made (state t)) ≡ₚ waiting (pending (state t)) ++ flushed t ++ lost t.

Lemma coalesce_step_accounted t op : accounted t -> accounted (coalesce_step t op).
Proof.
  unfold accounted. intros H. destruct op as [now k|now]; cbn [coalesce_step].
  - destruct (Submit now (state t) k) as [c' ch] eqn:E. cbn [fst state flushed lost].
    destruct (Submit_waiting _ _ _ _ _ E) as (-> & -> & Hp). rewrite seq_S, H. simpl.
    rewrite (Permutation_app_comm _ [made (state t)]). simpl.
    rewrite app_comm_cons, <- Hp. rewrite <- app_assoc, (Permutation_app_comm (dropped _ _)).
    by rewrite <- !app_assoc.
  - pose proof (Flush_waiting now (state t)) as Hf. destruct (Flush now (state t)) as [c' ready] eqn:E.
    cbn [state flushed lost]. assert (made c' = made (state t)) as -> by (by injection E as <- <-).
    rewrite H, Hf. rewrite <- !app_assoc. f_equiv. apply Permutation_app_swap_app.
Qed.

(** Every channel handed out is waiting, was flushed, or was let go by a
    submission that met a full batch; each is in one place only. *)
Theorem coalescer_accounts window maxBatch ops :
  let t := coalesce_run (mkCTrace (NewCoalescer window maxBatch) [] []) ops in
  seq 0 (made (state t)) ≡ₚ waiting (pending (state t)) ++ flushed t ++ lost t
  /\ NoDup (waiting (pending (state t)) ++ flushed t ++ lost t)
  /\ forall now k, lost (coalesce_step t (OpSubmit now k)) <> lost t ->
       exists req, pending (state t) !! k = Some req /\ maxBatch <= Z.of_nat (length (waiters req)).
Proof.
  assert (forall t0, accounted t0 -> accounted (coalesce_run t0 ops)
    /\ Coalescer.maxBatch (state (coalesce_run t0 ops)) = Coalescer.maxBatch (state t0)) as Hrun.
  { unfold coalesce_run. induction ops as [|op ops IH]; intros t0 H0; simpl; [done|].
    destruct (IH (coalesce_step t0 op)) as [Ha Hm]; [by apply coalesce_step_accounted|]. split; [done|].
    rewrite Hm. by destruct op. }
  intros t. destruct (Hrun (mkCTrace (NewCoalescer window maxBatch) [] [])) as [Ha Hm].
  { unfold accounted. simpl. unfold waiting. by rewrite map_to_list_empty. }
  fold t in Ha, Hm. simpl in Hm. split_and!; [exact Ha| |].
  - unfold accounted in Ha. rewrite <- Ha. apply NoDup_seq.
  - intros now k. simpl. unfold dropped. destruct (pending (state t) !! k) as [req|]; [|by rewrite app_nil_r].
    rewrite Hm. case_bool_decide; [by rewrite app_nil_r|]. intros _. exists req. split; [done|lia].
Qed.

(** With batches of two, the third request under a key replaces the full
    batch: the channels of the first two are never flushed. *)
Example full_batch_lost :
  let t := coalesce_run (mkCTrace (NewCoalescer 100 2) [] []) [OpSubmit 1 "k"; OpSubmit 2 "k"; OpSubmit 3 "k"; OpFlush 500] in
  flushed t = [2%nat] /\ lost t = [0%nat; 1%nat] /\ pending (state t) = ∅.
Proof. vm_compute. split_and!; reflexivity. Qed.
End Coalescer.

(** ** The prefix cache warmer *)

Module PrefixCache.

Record PrefixEntry := mkPrefix {
  Hash : Z;
  Text : string;
  Endpoints : list string;
  HitCount : Z;
  LastUsed : Z;
  TokenCount : Z
}.

Notation Prefixes := (gmap string PrefixEntry).

(** FNV-1a on 64 bits. *)
Definition fnv_offset : Z := 14695981039346656037.
Definition fnv_prime : Z := 1099511628211.

Definition hashPrefix (prefix : string) : Z :=
  fold_left (fun h b => u64_wrap (Z.lxor h b * fnv_prime)) (str_bytes prefix) fnv_offset.

(** [fmt.Sprintf("%016x", hash)]: the eight bytes, big-endian. *)
Definition prefix_key (prefix : string) : string := hex_encode (be_bytes 8 (hashPrefix prefix)).

Definition Register (w : Prefixes) (prefix : string) (tokenCount : Z) : Prefixes * PrefixEntry :=
  let key := prefix_key prefix in
  match w !! key with
  | Some entry => (w, entry)
  | None =>
      let entry := mkPrefix (hashPrefix prefix) prefix [] 0 0 tokenCount in
      (<[key := entry]> w, entry)
  end.

Definition LookupEndpoint (now : Time) (w : Prefixes) (prefix : string) : Prefixes * list string :=
  let key := prefix_key prefix in
  match w !! key with
  | None => (w, [])
  | Some e =>
      (<[key := mkPrefix (Hash e) (Text e) (Endpoints e) (i64_wrap (HitCount e + 1)) (UnixMilli now) (TokenCount e)]> w,
       Endpoints e)
  end.

Definition MarkCached (w : Prefixes) (prefix endpoint : string) : Prefixes :=
  let key := prefix_key prefix in
  match w !! key with
  | None => w
  | Some e =>
      if existsb (fun ep => ep ==? endpoint) (Endpoints e) then w
      else <[key := mkPrefix (Hash e) (Text e) (Endpoints e ++ [endpoint]) (HitCount e) (LastUsed e) (TokenCount e)]> w
  end.

Definition stale (now : Time) (maxAge : Duration) (e : PrefixEntry) : bool :=
  (LastUsed e <? UnixMilli (TimeAdd now (- maxAge))) && (HitCount e <? 10).

Definition EvictStale (now : Time) (w : Prefixes) (maxAge : Duration) : Prefixes * Z :=
  let kept := filter (fun kv => stale now maxAge kv.2 = false) w in
  (kept, Z.of_nat (size w) - Z.of_nat (size kept)).

(** Test vectors of FNV-1a. *)
Example fnv_empty : hashPrefix "" = 0xcbf29ce484222325%Z.
Proof. reflexivity. Qed.
Example fnv_a : prefix_key "a" = "af63dc4c8601ec8c".
Proof. reflexivity. Qed.
Example fnv_foobar : prefix_key "foobar" = "85944171f73967e8".
Proof. reflexivity. Qed.

(** Every entry is stored under the key of its own text, with no endpoint
    twice. *)
Definition prefixes_ok (w : Prefixes) : Prop :=
  map_Forall (fun k e => k = prefix_key (Text e) /\ Hash e = hashPrefix (Text e) /\ NoDup (Endpoints e)) w.

Lemma Register_prefix_ok w prefix n : prefixes_ok w -> prefixes_ok (Register w prefix n).1.
Proof.
  intros H. unfold Register. destruct (w !! prefix_key prefix) eqn:E; [done|]. cbn [fst].
  apply map_Forall_insert_2; [|done]. split_and!; [done|done|constructor].
Qed.

Lemma LookupEndpoint_ok now w prefix : prefixes_ok w -> prefixes_ok (LookupEndpoint now w prefix).1.
Proof.
  intros H. unfold LookupEndpoint. destruct (w !! prefix_key prefix) eqn:E; [|done]. cbn [fst].
  apply map_Forall_insert_2; [|done]. by apply H in E.
Qed.

(** After marking, a lookup of the same prefix returns the endpoint. *)
Lemma MarkCached_ok w prefix endpoint :
  prefixes_ok w ->
  prefixes_ok (MarkCached w prefix endpoint)
  /\ (is_Some (w !! prefix_key prefix) -> forall now, endpoint ∈ (LookupEndpoint now (MarkCached w prefix endpoint) prefix).2).
Proof.
  intros H. unfold MarkCached. destruct (w !! prefix_key prefix) as [e|] eqn:E; [|split; [done|by intros [? ?]]].
  destruct (H _ _ E) as (Hk & Hh & Hn). destruct (existsb _ _) eqn:Ex.
  - split; [done|]. intros _ now. unfold LookupEndpoint. rewrite E. simpl. by apply existsb_in in Ex.
  - apply existsb_not_in in Ex. split.
    + apply map_Forall_insert_2; [|done]. cbn [Text Hash Endpoints]. split_and!; [done|done|].
      apply NoDup_app. split_and!; [done|set_solver|by apply NoDup_singleton].
    + intros _ now. unfold LookupEndpoint. rewrite lookup_insert_eq. cbn [snd Endpoints]. set_solver.
Qed.

(** A prefix that was registered and not yet looked up goes at the first
    eviction, whatever the age allowed, once the clock is past it. *)
Lemma fresh_prefix_evicted now w prefix n maxAge :
  w !! prefix_key prefix = None -> unix_epoch + Millisecond <= TimeAdd now (- maxAge) ->
  (EvictStale now (Register w prefix n).1 maxAge).1 !! prefix_key prefix = None.
Proof.
  intros H Ht. unfold Register. rewrite H. unfold EvictStale. cbn [fst].
  apply map_lookup_filter_None. right. intros e. rewrite lookup_insert_eq. intros [= <-]. unfold stale. cbn [snd LastUsed HitCount].
  rewrite !bool_decide_true; [done|lia|]. unfold UnixMilli. apply Z.lt_le_trans with 1; [lia|].
  apply Z.div_le_lower_bound; [done|]. lia.
Qed.
End PrefixCache.

(** ** The speculative decoder *)

Module Speculative.

Record SpeculativeDecoder := mkDecoder {
  DraftModel : string;
  TargetModel : string;
  LookaheadTokens : Z;
  AcceptanceRate : Z;
  Enabled : bool
}.

Definition NewSpeculativeDecoder (draftModel targetModel : string) (lookahead : Z) : SpeculativeDecoder :=
  mkDecoder draftModel targetModel lookahead 8500 true.

Definition ShouldSpeculate (s : SpeculativeDecoder) (maxTokens : Z) : bool :=
  if negb (Enabled s) then false
  else if maxTokens <? 32 then false
  else if AcceptanceRate s <? 5000 then false
  else true.

Definition RecordAcceptance (s : SpeculativeDecoder) (accepted proposed : Z) : SpeculativeDecoder :=
  if proposed ==? 0 then s
  else
    let rate := i64_wrap (Z.quot (i64_wrap (accepted * 10000)) proposed) in
    let current := AcceptanceRate s in
    let updated := Z.quot (i64_wrap (i64_wrap (current * 7) + i64_wrap (rate * 3))) 10 in
    mkDecoder (DraftModel s) (TargetModel s) (LookaheadTokens s) updated (Enabled s).

Definition record_all (s : SpeculativeDecoder) (l : list (Z * Z)) : SpeculativeDecoder :=
  fold_left (fun s ap => RecordAcceptance s ap.1 ap.2) l s.

Lemma RecordAcceptance_range s accepted proposed :
  0 <= AcceptanceRate s <= 10000 -> 0 <= accepted <= proposed -> proposed < 2 ^ 49 ->
  0 <= AcceptanceRate (RecordAcceptance s accepted proposed) <= 10000.
Proof.
  intros Hs Ha Hp. unfold RecordAcceptance. case_bool_decide as Hz; [done|]. cbn [AcceptanceRate].
  rewrite (i64_wrap_small (accepted * 10000)) by (unfold i64_range; lia).
  rewrite (Z.quot_div_nonneg (accepted * 10000) proposed) by lia.
  assert (0 <= accepted * 10000 / proposed <= 10000) as Hr.
  { split; [apply Z.div_pos; lia|apply Z.div_le_upper_bound; lia]. }
  rewrite (i64_wrap_small (accepted * 10000 / proposed)) by (unfold i64_range; lia).
  generalize dependent (accepted * 10000 / proposed). intros rate Hr.
  rewrite !i64_wrap_small by (unfold i64_range; rewrite ?i64_wrap_small by (unfold i64_range; lia); lia).
  rewrite Z.quot_div_nonneg by lia. split; [apply Z.div_pos; lia|apply Z.div_le_upper_bound; lia].
Qed.

(** Rates stay percentages; after a long run of full rejection speculation
    stops. *)
Lemma acceptance_rate_range draft target lookahead l :
  Forall (fun ap => 0 <= ap.1 <= ap.2 /\ ap.2 < 2 ^ 49) l ->
  0 <= AcceptanceRate (record_all (NewSpeculativeDecoder draft target lookahead) l) <= 10000.
Proof.
  intros Hl. unfold record_all.
  assert (forall s, 0 <= AcceptanceRate s <= 10000 ->
    0 <= AcceptanceRate (fold_left (fun s ap => RecordAcceptance s ap.1 ap.2) l s) <= 10000) as H.
  { induction Hl as [|ap l [Ha Hp] _ IH]; intros s Hs; simpl; [done|]. by apply IH, RecordAcceptance_range. }
  apply H. simpl. lia.
Qed.

Example rejection_stops :
  ShouldSpeculate (record_all (NewSpeculativeDecoder "d" "t" 4) [(0, 4); (0, 4)]) 64 = false
  /\ ShouldSpeculate (record_all (NewSpeculativeDecoder "d" "t" 4) [(0, 4)]) 64 = true.
Proof. split; reflexivity. Qed.
End Speculative.

(** ** Latency budgets *)

Module Budget.

Record LatencyBudget := mkBudget {
  TotalBudget : Duration;
  RoutingBudget : Duration;
  PrefillBudget : Duration;
  DecodeBudget : Duration;
  Deadline : Time
}.

Definition DefaultLatencyBudget (now : Time) : LatencyBudget :=
  let total := 30 * Second in
  mkBudget total (50 * Millisecond) (10 * Second) (total - 50 * Millisecond - 10 * Second) (TimeAdd now total).

(** A context is its deadline, if it has one: [WithDeadline] keeps the
    earlier of the parent's and the new one. *)
Definition WithDeadline (parent : option Time) (d : Time) : option Time :=
  match parent with
  | Some t => if Before t d then parent else Some d
  | None => Some d
  end.

Definition WithContext (b : LatencyBudget) (ctx : option Time) : option Time := WithDeadline ctx (Deadline b).

Definition Remaining (now : Time) (b : LatencyBudget) : Duration := TimeSub (Deadline b) now.

(** [remaining] is the reading of the default case, [now] the later one. *)
Definition PhaseContext (remaining now : Time) (b : LatencyBudget) (ctx : option Time) (phase : string) : option Time :=
  let budget :=
    if phase ==? "route" then RoutingBudget b
    else if phase ==? "prefill" then PrefillBudget b
    else if phase ==? "decode" then DecodeBudget b
    else Remaining remaining b in
  let deadline := TimeAdd now budget in
  WithDeadline ctx (if After deadline (Deadline b) then Deadline b else deadline).

Definition Exceeded (now : Time) (b : LatencyBudget) : bool := After now (Deadline b).

(** A phase never outlives the budget nor the context it is given. *)
Lemma phase_within_budget r now b ctx phase :
  exists t, PhaseContext r now b ctx phase = Some t /\ t <= Deadline b /\ forall t0, ctx = Some t0 -> t <= t0.
Proof.
  unfold PhaseContext, WithDeadline, Before, After. destruct ctx as [t0|].
  - case_bool_decide as H1; eexists; (split; [done|]); revert H1; case_bool_decide; intros; split; try lia; intros ? [= <-]; lia.
  - eexists. split; [done|]. case_bool_decide; split; try lia; done.
Qed.

(** The default budgets of the phases add up to the total. *)
Lemma default_budget_sums now :
  let b := DefaultLatencyBudget now in RoutingBudget b + PrefillBudget b + DecodeBudget b = TotalBudget b.
Proof. reflexivity. Qed.
End Budget.

(** ** Metrics *)

Module Metrics.

Record ThroughputTracker := mkThroughput { totalTokens : Z; windowStart : Z }.

Definition NewThroughputTracker (now : Time) : ThroughputTracker := mkThroughput 0 (UnixMilli now).

Definition RecordTokens (t : ThroughputTracker) (tokens : Z) : ThroughputTracker :=
  mkThroughput (i64_wrap (totalTokens t + tokens)) (windowStart t).

(** [time.UnixMilli]. *)
Definition time_UnixMilli (ms : Z) : Time := unix_epoch + ms * Millisecond.

Definition TokensPerSecond (now : Time) (t : ThroughputTracker) : float64 :=
  let elapsed := Seconds (TimeSub now (time_UnixMilli (windowStart t))) in
  if f_lt elapsed f_one then f_zero else f_div (f_of_Z (totalTokens t)) elapsed.

Record RateTracker := mkRate { hits : Z; misses : Z }.

Definition NewRateTracker : RateTracker := mkRate 0 0.
Definition RecordHit (r : RateTracker) : RateTracker := mkRate (i64_wrap (hits r + 1)) (misses r).
Definition RecordMiss (r : RateTracker) : RateTracker := mkRate (hits r) (i64_wrap (misses r + 1)).

Definition Percent (r : RateTracker) : float64 :=
  let h := hits r in
  let total := i64_wrap (h + misses r) in
  if total ==? 0 then f_zero else f_mul (f_div (f_of_Z h) (f_of_Z total)) (f_of_Z 100).

Record TTIMetrics := mkMetrics {
  TTFT : AdaptiveTimeout;
  E2E : AdaptiveTimeout;
  TokenThroughput : ThroughputTracker;
  ActiveRequests : Z;
  TotalRequests : Z;
  CacheHitRate : RateTracker
}.

Definition NewTTIMetrics (now : Time) : option TTIMetrics :=
  ttft ← NewAdaptiveTimeout 10000 (100 * Millisecond) (60 * Second);
  e2e ← NewAdaptiveTimeout 10000 (1 * Second) (120 * Second);
  Some (mkMetrics ttft e2e (NewThroughputTracker now) 0 0 NewRateTracker).

Definition RecordRequest (m : TTIMetrics) (ttft e2e : Duration) (tokens : Z) (cacheHit : bool) : option TTIMetrics :=
  a ← RecordLatency (TTFT m) ttft;
  b ← RecordLatency (E2E m) e2e;
  Some (mkMetrics a b (RecordTokens (TokenThroughput m) tokens) (ActiveRequests m) (i64_wrap (TotalRequests m + 1))
          (if cacheHit then RecordHit (CacheHitRate m) else RecordMiss (CacheHitRate m))).

Record MetricsSnapshot := mkSnapshot {
  TTFT_P50 : Duration; TTFT_P95 : Duration; TTFT_P99 : Duration;
  E2E_P50 : Duration; E2E_P95 : Duration; E2E_P99 : Duration;
  STokensPerSecond : float64; SActiveRequests : Z; STotalRequests : Z; CacheHitPercent : float64;
  SAdaptiveTimeout : Duration
}.

Definition Snapshot (now : Time) (m : TTIMetrics) : MetricsSnapshot :=
  mkSnapshot (P50 (TTFT m)) (P95 (TTFT m)) (P99 (TTFT m)) (P50 (E2E m)) (P95 (E2E m)) (P99 (E2E m))
    (TokensPerSecond now (TokenThroughput m)) (ActiveRequests m) (TotalRequests m) (Percent (CacheHitRate m))
    (Timeout (E2E m)).
End Metrics.

(** ** The stream writer *)

Module Stream.
Section writer.
(** The response writer: its state, a write that may fail, the flush, and the
    setting of a header. *)
Context {W E : Type} (write : W -> string -> W * option E) (flush : W -> W)
  (set_header : W -> string -> string -> W) (write_header : W -> Z -> W).

Record StreamWriter := mkStream { w : W; closed : bool }.

Inductive StreamError := ErrNoFlusher | ErrStreamClosed | ErrWrite (e : E).

Definition NewStreamWriter (flusher : bool) (w : W) : W * (StreamWriter + StreamError) :=
  if negb flusher then (w, inr ErrNoFlusher)
  else
    let w := set_header w "Content-Type" "text/event-stream" in
    let w := set_header w "Cache-Control" "no-cache" in
    let w := set_header w "Connection" "keep-alive" in
    let w := set_header w "X-Accel-Buffering" "no" in
    let w := write_header w 200 in
    let w := flush w in
    (w, inl (mkStream w false)).

Definition newline : string := String (byte_of 10) "".

Definition WriteChunk (s : StreamWriter) (data : string) : StreamWriter * option StreamError :=
  if closed s then (s, Some ErrStreamClosed)
  else
    let '(w, err) := write (w s) ("data: " +:+ data +:+ newline +:+ newline) in
    match err with
    | Some e => (mkStream w (closed s), Some (ErrWrite e))
    | None => (mkStream (flush w) (closed s), None)
    end.

Definition WriteDone (s : StreamWriter) : StreamWriter * option StreamError :=
  if closed s then (s, None)
  else
    let '(w, err) := write (w s) ("data: [DONE]" +:+ newline +:+ newline) in
    match err with
    | Some e => (mkStream w true, Some (ErrWrite e))
    | None => (mkStream (flush w) true, None)
    end.

(** After the sentinel the writer is never called again. *)
Lemma done_is_final s chunks :
  let s' := (WriteDone s).1 in
  closed s' = true
  /\ fold_left (fun s c => (WriteChunk s c).1) chunks s' = s'
  /\ (WriteDone s').1 = s' /\ (WriteDone s').2 = None.
Proof.
  intros s'. assert (closed s' = true) as Hc.
  { subst s'. unfold WriteDone. destruct (closed s) eqn:Ec; [done|]. by destruct (write _ _) as [? []]. }
  split_and!; [done| |unfold WriteDone; by rewrite Hc..].
  clearbody s'. clear s. induction chunks as [|c chunks IH]; simpl; [done|]. unfold WriteChunk at 2. by rewrite Hc.
Qed.
End writer.
End Stream.

(** ** Pod annotations *)

Module Annotations.

Record ZeroCopyConfig := mkZeroCopy { EnableRDMA : bool; ResourceName : string; SharedMemorySize : string }.

(** A map that may be nil. *)
Notation Annotations := (option (gmap string string)).

Definition ApplyZeroCopy (z : ZeroCopyConfig) (annotations limits : Annotations) : Annotations * Annotations :=
  if negb (EnableRDMA z) then (annotations, limits)
  else
    (insert "k8s.v1.cni.cncf.io/networks" "roce-network" <$> annotations,
     if ResourceName z !=? "" then insert (ResourceName z) "1" <$> limits else limits).

Record EBPFConfig := mkEBPF { EnableXDP : bool; TargetDevice : string; InferencePorts : list Z }.

Definition ApplyBypass (e : EBPFConfig) (annotations : Annotations) : Annotations :=
  match annotations with
  | None => annotations
  | Some m =>
      if negb (EnableXDP e) then annotations
      else Some (<["ebpf.ckodex.org/xdp-acceleration" := "enabled"]> (<["k8s.v1.cni.cncf.io/networks" := "xdp-bypass-net"]> m))
  end.

(** Both write the one annotation that names the secondary networks: the
    later call replaces the network of the earlier one. *)
Lemma networks_overwritten z e m limits :
  EnableRDMA z = true -> EnableXDP e = true ->
  let key := "k8s.v1.cni.cncf.io/networks" in
  (ApplyBypass e (ApplyZeroCopy z (Some m) limits).1) ≫= lookup key = Some "xdp-bypass-net"
  /\ (ApplyZeroCopy z (ApplyBypass e (Some m)) limits).1 ≫= lookup key = Some "roce-network".
Proof.
  intros Hz He key. unfold ApplyBypass, ApplyZeroCopy. rewrite Hz, He. cbn [negb fst fmap option_fmap option_map].
  split; simpl; [rewrite lookup_insert_ne by done|]; by rewrite lookup_insert_eq.
Qed.
End Annotations.
