(* ===== verification/RequestPipeline.v ===== *)
(** * The request pipeline

    [internal/inference/request_pipeline*.go]: one request from the policy
    decision to the release of the connection, over the access plane
    ([AccessPlane]), the pool, router, sessions, warm paths and cache
    ([InferencePool]), the preloader and the budget ([InferencePrimitives]).
    The clock readings, the errors of the context, the end of the wait for the
    model and the answer of the model server are fields of [Env].  The calls
    to the model server are part of the result.  Spans, logs and metrics are
    left out.

    The second half is about requests that run at the same time over one pool:
    each request, each chunk of a session and the sweep that evicts idle
    endpoints is a small program whose steps are the accesses to the pool under
    its lock and the atomic accesses to a connection, in any interleaving. *)

From S2P Require Import Prelude GoFloat Sha256 AccessPlane InferencePool InferencePrimitives.

(** ** Requests and responses *)

Record InferenceRequest := mkInference {
  RTenantID : string;
  RRoute : string;
  AccessObservation : RuntimeObservation;
  RModel : string;
  RSessionID : string;
  SessionEndpoint : string;
  Candidates : list string;
  Prompt : string;
  MaxTokens : Z;
  Stream : bool
}.

Record PhaseTimings := mkTimings {
  RoutingMs : float64; QueueMs : float64; PrefillMs : float64; DecodeMs : float64; TransferMs : float64
}.

Record InferenceResponse := mkResponse {
  PolicyDecision : option Decision;
  ResponseModel : string;
  ResponseEndpoint : string;
  ResponseCacheHit : bool;
  Phases : PhaseTimings;
  TotalLatency : Duration
}.

(** The request of the v2 protocol. *)
Record InferInput := mkInput { InputName : string; Shape : list Z; Datatype : string; InputData : list string }.
Record InferRequest := mkInfer { ID : string; Inputs : list InferInput }.

Definition buildInferRequest (req : InferenceRequest) : InferRequest :=
  mkInfer (RSessionID req) [mkInput "prompt" [1] "BYTES" [Prompt req]].

(** A call: base URL, model and request. *)
Definition Call : Type := string * string * InferRequest.

Inductive PipelineError {E : Type} :=
  | ErrEvaluatePolicy (err : E)
  | AccessPolicyError (decision : Decision)
  | ErrNoHealthyEndpoint (model : string)
  | ErrBudgetExceeded
  | ErrInferenceFailed (err : E).
Arguments PipelineError E : clear implicits.

Record RequestPipeline := mkPipeline {
  pool : ConnectionPool;
  preloader : gmap string Preloader.PreloadState;
  cache : MemCache;
  warmPaths : WarmPaths;
  sessions : Sessions;
  policy : option Evaluator
}.

Definition newRequestPipeline (policy : option Evaluator) : RequestPipeline :=
  mkPipeline NewConnectionPool ∅ ∅ ∅ ∅ policy.

Definition NewRequestPipeline : RequestPipeline := newRequestPipeline None.

(** A nil policy is an error. *)
Definition NewRequestPipelineWithPolicy (policy : option Evaluator) : option RequestPipeline :=
  match policy with
  | None => None
  | Some e => Some (newRequestPipeline (Some e))
  end.

Definition set_pool (p : RequestPipeline) (pl : ConnectionPool) : RequestPipeline :=
  mkPipeline pl (preloader p) (cache p) (warmPaths p) (sessions p) (policy p).

Section execute.
Context {E : Type} (range_models : gmap string ModelObservation -> list (string * ModelObservation)).

Record Env := mkEnv {
  start : Time;                 (** the reading [Execute] begins with *)
  budget_time : Time;           (** that of [DefaultLatencyBudget] *)
  ctx_before : option E;        (** the context's error around the policy *)
  ctx_after : option E;
  cache_expiry : Time;          (** the two of the cache *)
  cache_access : Time;
  session_time : Time;          (** that of [GetPipelinedEndpoint] *)
  route_time : Time;            (** the end of the routing *)
  route_elapsed : Duration;     (** the router's own measure *)
  wait_done : bool;             (** the budget's context ends during the wait *)
  wait_pick : bool;
  check_time : Time;            (** that of [Exceeded] *)
  infer : Call -> option E;     (** the answer of the model server *)
  total_time : Time;
  release_time : Time;          (** the two of the release *)
  record_time : Time
}.

(** The policy step: the effective model and the decision. *)
Definition evaluate_policy (env : Env) (p : RequestPipeline) (req : InferenceRequest)
  : (string * option Decision) + PipelineError E :=
  match policy p with
  | None => inl (RModel req, None)
  | Some e =>
      match EvaluateContext range_models (ctx_before env) (ctx_after env) e
              (mkIntent (RTenantID req) (RRoute req)) (AccessObservation req) with
      | inr err => inr (ErrEvaluatePolicy err)
      | inl decision =>
          if DDisposition decision !=? DispositionAdmit then inr (AccessPolicyError decision)
          else inl (DModel decision, Some decision)
      end
  end.

Definition warmedRouteResult (env : Env) (p : RequestPipeline) (endpoint : string) : RequestPipeline * RouteResult :=
  let '(pl, l) := Get (pool p) endpoint in
  (set_pool p pl, InferencePool.mkRoute endpoint true (AvgLatencyMs (load pl l)) (TimeSub (route_time env) (start env))).

Definition resolveRoute (env : Env) (p : RequestPipeline) (req : InferenceRequest) : RequestPipeline * RouteResult :=
  let '(ss, pipelined) := GetPipelinedEndpoint (session_time env) (sessions p) (RSessionID req) in
  let p := mkPipeline (pool p) (preloader p) (cache p) (warmPaths p) ss (policy p) in
  match pipelined with
  | Some (endpoint, _) => warmedRouteResult env p endpoint
  | None =>
      let '(warm, ok) := GetWarmedEndpoint (warmPaths p) (RSessionID req) in
      let p := mkPipeline (pool p) (preloader p) (cache p) warm (sessions p) (policy p) in
      match ok with
      | Some endpoint => warmedRouteResult env p endpoint
      | None =>
          let '(pl, r) := InferencePool.Route (route_elapsed env) (pool p) (SessionEndpoint req) (Candidates req) in
          (set_pool p pl, r)
      end
  end.

(** The two parts of [releaseRequest]: the counter of the connection the request
    holds, then the latency of its endpoint. *)
Definition releaseActive (pl : ConnectionPool) (endpoint : string) (conn : nat) : ConnectionPool :=
  AddActive pl conn (-1).

Definition releaseRequest (env : Env) (pl : ConnectionPool) (endpoint : string) (conn : nat) : ConnectionPool :=
  RecordLatency (record_time env) (releaseActive pl endpoint conn) endpoint (TimeSub (release_time env) (start env)).

(** [runInference]: one call; the payload of the answer is dropped. *)
Definition runInference (env : Env) (model endpoint : string) (req : InferenceRequest) : option E * Call :=
  let call := ("http://" +:+ endpoint, model, buildInferRequest req) in
  (infer env call, call).

Definition routing_ms (d : Duration) : float64 := f_div (f_of_Z (Z.quot d 1000)) (f_of_Z 1000).

(** The phases once the route is known; [None] while the wait for the model
    goes on. *)
Definition execute_on (env : Env) (p : RequestPipeline) (req : InferenceRequest) (model : string)
  (decision : option Decision) (route : RouteResult)
  : option (RequestPipeline * (InferenceResponse + PipelineError E) * list Call) :=
  let endpoint := Endpoint route in
  match Preloader.WaitReady (wait_done env) (wait_pick env) (preloader p) model with
  | None => None
  | Some _ =>
      let '(pl, conn) := Get (pool p) endpoint in
      let pl := AddActive pl conn 1 in
      let released := set_pool p (releaseRequest env pl endpoint conn) in
      if Budget.Exceeded (check_time env) (Budget.DefaultLatencyBudget (budget_time env))
      then Some (released, inr ErrBudgetExceeded, [])
      else
        let '(err, call) := runInference env model endpoint req in
        match err with
        | Some e => Some (released, inr (ErrInferenceFailed e), [call])
        | None =>
            Some (released,
              inl (mkResponse decision model endpoint (CacheHit route)
                     (mkTimings (routing_ms (RoutingLatency route)) f_zero f_zero f_zero f_zero)
                     (TimeSub (total_time env) (start env))), [call])
        end
  end.

Definition Execute (env : Env) (p : RequestPipeline) (req : InferenceRequest)
  : option (RequestPipeline * (InferenceResponse + PipelineError E) * list Call) :=
  match evaluate_policy env p req with
  | inr err => Some (p, inr err, [])
  | inl (model, decision) =>
      let '(c, hit) := GetExact (cache_expiry env) (cache_access env) (cache p) (Prompt req) in
      let p := mkPipeline (pool p) (preloader p) c (warmPaths p) (sessions p) (policy p) in
      match hit with
      | Some _ =>
          Some (p, inl (mkResponse decision model "semantic-cache" true
                          (mkTimings f_zero f_zero f_zero f_zero f_zero) (TimeSub (total_time env) (start env))), [])
      | None =>
          let '(p, route) := resolveRoute env p req in
          if Endpoint route ==? "" then Some (p, inr (ErrNoHealthyEndpoint model), [])
          else execute_on env p req model decision route
      end
  end.
End execute.
Arguments Env E : clear implicits.

(** ** The policy gate *)

Section gate.
Context {E : Type} (range_models : gmap string ModelObservation -> list (string * ModelObservation)).
Implicit Types (env : Env E) (p : RequestPipeline) (req : InferenceRequest).

(** What the phases after the routing may return. *)
Lemma execute_on_outcome env p req model decision route p' res calls :
  execute_on env p req model decision route = Some (p', res, calls) ->
  (calls = [] \/ calls = [("http://" +:+ Endpoint route, model, buildInferRequest req)])
  /\ (forall resp, res = inl resp -> PolicyDecision resp = decision /\ ResponseModel resp = model
        /\ ResponseEndpoint resp = Endpoint route /\ calls <> [])
  /\ (forall err, res = inr err -> err = ErrBudgetExceeded /\ calls = [] \/ exists e, err = ErrInferenceFailed e /\ calls <> []).
Proof.
  unfold execute_on, runInference. intros H. destruct (Preloader.WaitReady _ _ _ _); [|done].
  destruct (Get (pool p) (Endpoint route)) as [pl conn]. destruct (Budget.Exceeded _ _).
  { injection H as <- <- <-. naive_solver. }
  cbn beta iota zeta in H. destruct (infer env _) as [e|]; injection H as <- <- <-; split_and!; eauto; naive_solver.
Qed.

(** C25. Under a policy, a request that is not admitted changes nothing and calls
    no model server: the decision, or the context's error, is returned.  Every
    call that is made is for the model the policy chose, with the prompt and
    session of the request, and a response carries the admitting decision. *)
Theorem execute_gated env p req e p' res calls
  (Hpolicy : policy p = Some e)
  (Hexec : Execute range_models env p req = Some (p', res, calls)) :
  let intent := mkIntent (RTenantID req) (RRoute req) in
  let d := Evaluate range_models e intent (AccessObservation req) in
  let live := ctx_before env = None /\ ctx_after env = None in
  (~ live -> p' = p /\ calls = [] /\ exists err, res = inr (ErrEvaluatePolicy err))
  /\ (live -> DDisposition d <> DispositionAdmit -> p' = p /\ calls = [] /\ res = inr (AccessPolicyError d))
  /\ (forall url m r, (url, m, r) ∈ calls ->
        live /\ DDisposition d = DispositionAdmit /\ m = DModel d /\ r = buildInferRequest req)
  /\ (forall resp, res = inl resp ->
        live /\ DDisposition d = DispositionAdmit /\ PolicyDecision resp = Some d /\ ResponseModel resp = DModel d).
Proof.
  intros intent d live. unfold Execute, evaluate_policy in Hexec. rewrite Hpolicy in Hexec. fold intent in Hexec.
  assert (live \/ ~ live) as [Hl|Hn].
  { subst live. destruct (ctx_before env), (ctx_after env); naive_solver. }
  2: { assert (exists err, EvaluateContext range_models (ctx_before env) (ctx_after env) e intent (AccessObservation req) = inr err) as [err Herr].
       { unfold EvaluateContext. subst live. destruct (ctx_before env), (ctx_after env); naive_solver. }
       rewrite Herr in Hexec. injection Hexec as <- <- <-. split_and!; [eauto|naive_solver|set_solver|done]. }
  assert (EvaluateContext range_models (ctx_before env) (ctx_after env) e intent (AccessObservation req) = inl d) as Hd.
  { unfold EvaluateContext. by destruct Hl as [-> ->]. }
  rewrite Hd in Hexec. destruct (bool_decide_reflect (DDisposition d = DispositionAdmit)) as [Ha|Ha]; cbn [negb] in Hexec.
  2: { injection Hexec as <- <- <-. split_and!; [done|done|set_solver|done]. }
  split; [done|]. split; [done|].
  destruct (GetExact _ _ _ _) as [c [hit|]]; [injection Hexec as <- <- <-; split; [set_solver|by intros resp [= <-]]|].
  destruct (resolveRoute _ _ _) as [p1 route]. destruct (bool_decide _); [injection Hexec as <- <- <-; split; [set_solver|done]|].
  apply execute_on_outcome in Hexec as (Hc & Hr & _). split.
  - intros url m r Hin. destruct Hc as [->| ->]; [set_solver|]. apply list_elem_of_singleton in Hin. naive_solver.
  - intros resp Hres. apply Hr in Hres. naive_solver.
Qed.
End gate.

(** ** Requests that run at the same time

    A flight is what is left of a request once it is routed, or of a chunk of
    a session: the connection is looked up, counted on, held during the call
    and released; a request also records its latency.  A sweep is the loop of
    [EvictIdle], one load or one deletion at a time.  It runs under the lock
    of the pool, so that no lookup happens before it ends, while counters may
    change.  The load and the stores of [recordLatencyAt] are one step. *)

Inductive Kind := Inference | Chunk.

Inductive Flight :=
  | Routed (kind : Kind) (endpoint : string)
  | Holding (kind : Kind) (endpoint : string) (conn : nat)
  | Serving (kind : Kind) (endpoint : string) (conn : nat)
  | Released (endpoint : string)
  | Recording (conn : nat)
  | Finished.

Definition flight_step (now : Time) (elapsed : Duration) (pl : ConnectionPool) (f : Flight) : ConnectionPool * Flight :=
  match f with
  | Routed k e => let '(pl, conn) := Get pl e in (pl, Holding k e conn)
  | Holding k e conn => (AddActive pl conn 1, Serving k e conn)
  | Serving Inference e conn => (releaseActive pl e conn, Released e)
  | Serving Chunk e conn => (AddActive pl conn (-1), Finished)
  | Released e => let '(pl, conn) := Get pl e in (pl, Recording conn)
  | Recording conn => (recordLatencyAt now pl conn elapsed, Finished)
  | Finished => (pl, Finished)
  end.

(** The steps that look the pool's map up. *)
Definition locks (f : Flight) : bool := match f with Routed _ _ | Released _ => true | _ => false end.

Inductive Sweep :=
  | Visit (cutoff : Z) (todo : list string)
  | Old (cutoff : Z) (addr : string) (todo : list string)      (** [LastUsed] was before the cutoff *)
  | Unused (cutoff : Z) (addr : string) (todo : list string).  (** and [ActiveRequests] was zero *)

Definition sweep_step (pl : ConnectionPool) (s : Sweep) : ConnectionPool * option Sweep :=
  match s with
  | Visit _ [] => (pl, None)
  | Visit cutoff (a :: todo) =>
      match endpoints pl !! a with
      | Some l => (pl, Some (if LastUsed (load pl l) <? cutoff then Old cutoff a todo else Visit cutoff todo))
      | None => (pl, Some (Visit cutoff todo))
      end
  | Old cutoff a todo =>
      match endpoints pl !! a with
      | Some l => (pl, Some (if ActiveRequests (load pl l) ==? 0 then Unused cutoff a todo else Visit cutoff todo))
      | None => (pl, Some (Visit cutoff todo))
      end
  | Unused cutoff a todo => (mkPool (conns pl) (delete a (endpoints pl)), Some (Visit cutoff todo))
  end.

Record Traffic := mkTraffic { shared : ConnectionPool; flights : list Flight; sweep : option Sweep }.

Definition no_traffic : Traffic := mkTraffic NewConnectionPool [] None.

Inductive traffic_step : Traffic -> Traffic -> Prop :=
  | step_lookup pl fs a : traffic_step (mkTraffic pl fs None) (mkTraffic (Get pl a).1 fs None)
  | step_error pl fs sw l : traffic_step (mkTraffic pl fs sw) (mkTraffic (recordErrorAt pl l) fs sw)
  | step_start pl fs sw k e : traffic_step (mkTraffic pl fs sw) (mkTraffic pl (fs ++ [Routed k e]) sw)
  | step_flight pl fs sw i f now elapsed pl' f' :
      fs !! i = Some f -> (locks f = true -> sw = None) -> flight_step now elapsed pl f = (pl', f') ->
      traffic_step (mkTraffic pl fs sw) (mkTraffic pl' (<[i := f']> fs) sw)
  | step_sweep_start pl fs now maxIdle order :
      order ≡ₚ (map_to_list (endpoints pl)).*1 ->
      traffic_step (mkTraffic pl fs None)
        (mkTraffic pl fs (Some (Visit (UnixMilli (TimeAdd now (- maxIdle))) order)))
  | step_sweep pl fs s pl' s' :
      sweep_step pl s = (pl', s') -> traffic_step (mkTraffic pl fs (Some s)) (mkTraffic pl' fs s').

(** The requests counted on a connection. *)
Definition on_conn (l : nat) (f : Flight) : Prop := match f with Serving _ _ c => c = l | _ => False end.
#[export] Instance on_conn_dec l f : base.Decision (on_conn l f).
Proof. destruct f; simpl; apply _. Defined.

Definition holders (l : nat) (fs : list Flight) : Z := Z.of_nat (length (filter (on_conn l) fs)).

(** A flight holds a connection of its own endpoint. *)
Definition flight_ok (pl : ConnectionPool) (f : Flight) : Prop :=
  match f with
  | Holding _ e l | Serving _ e l => exists c, conns pl !! l = Some c /\ Address c = e
  | _ => True
  end.

Definition counted (t : Traffic) : Prop :=
  pool_wf (shared t) /\ (forall f, f ∈ flights t -> flight_ok (shared t) f)
  /\ forall l c, conns (shared t) !! l = Some c -> ActiveRequests c = i64_wrap (holders l (flights t)).

(** What a step does to the connections: none goes away or changes its
    address, and counters move by [d], new ones starting from zero. *)
Definition moves (pl pl' : ConnectionPool) (d : nat -> Z) : Prop :=
  (forall l c, conns pl !! l = Some c -> exists c', conns pl' !! l = Some c' /\ Address c' = Address c
     /\ ActiveRequests c' = i64_wrap (ActiveRequests c + d l))
  /\ forall l c', conns pl !! l = None -> conns pl' !! l = Some c' -> ActiveRequests c' = 0.

Lemma moves_none pl pl' : pool_wf pl -> conns pl' = conns pl -> moves pl pl' (fun _ => 0).
Proof.
  intros [_ Hr] He. split; rewrite He.
  - intros l c Hc. exists c. split_and!; [done|done|]. rewrite Z.add_0_r, i64_wrap_small; [done|by eapply Hr].
  - intros l c' Hn. by rewrite Hn.
Qed.

Lemma Get_moves pl a : pool_wf pl -> moves pl (Get pl a).1 (fun _ => 0).
Proof.
  intros Hp. unfold Get. destruct (endpoints pl !! a); simpl; [by apply moves_none|]. split; simpl.
  - intros l c Hc. exists c. rewrite (lookup_app_l_Some _ _ _ _ Hc). split_and!; [done|done|].
    rewrite Z.add_0_r, i64_wrap_small; [done|by eapply (proj2 Hp)].
  - intros l c' Hn. rewrite lookup_app_r by (by apply lookup_ge_None). intros [_ <-]%list_lookup_singleton_Some. done.
Qed.

Lemma modify_moves pl l f d :
  pool_wf pl -> (forall c, Address (f c) = Address c /\ (i64_range (ActiveRequests c) -> ActiveRequests (f c) = i64_wrap (ActiveRequests c + d))) ->
  moves pl (modify pl l f) (fun k => if decide (l = k) then d else 0).
Proof.
  intros [_ Hr] Hf. split; simpl; intros k c; rewrite list_lookup_alter.
  - intros Hc. case_decide as Hk.
    + subst k. exists (f c). rewrite Hc. destruct (Hf c) as [Ha Hd]. split_and!; [done|done|]. apply Hd. by eapply Hr.
    + exists c. split_and!; [done|done|]. rewrite Z.add_0_r, i64_wrap_small; [done|by eapply Hr].
  - case_decide as Hk; [subst k|by intros ->]. by intros ->.
Qed.

Lemma flight_ok_moves pl pl' d f : moves pl pl' d -> flight_ok pl f -> flight_ok pl' f.
Proof.
  intros [Hm _]. destruct f as [k e|k e l|k e l|e|l|]; simpl; try done;
    intros (c & (c' & Hc' & Ha & _)%Hm & <-); by exists c'.
Qed.

Lemma holders_zero l fs : (forall f, f ∈ fs -> ~ on_conn l f) -> holders l fs = 0.
Proof.
  unfold holders. induction fs as [|f fs IH]; intros Hno; [done|]. rewrite filter_cons, decide_False by (apply Hno; by left).
  apply IH. intros g Hg. apply Hno. by right.
Qed.

Lemma holders_absent pl fs l : (forall f, f ∈ fs -> flight_ok pl f) -> conns pl !! l = None -> holders l fs = 0.
Proof.
  intros Hok Hn. apply holders_zero. intros f Hf Hon. apply Hok in Hf. destruct f as [| |k e l'| | |]; simpl in *; try done.
  subst l'. destruct Hf as (c & Hc & _). congruence.
Qed.

(** Steps whose counters follow the flights keep the accounts. *)
Lemma counted_moves pl pl' fs fs' sw sw' d :
  counted (mkTraffic pl fs sw) -> pool_wf pl' -> moves pl pl' d ->
  (forall f, f ∈ fs' -> f ∈ fs \/ flight_ok pl' f) ->
  (forall l, holders l fs' = d l + holders l fs) -> (forall l, conns pl !! l = None -> d l = 0) ->
  counted (mkTraffic pl' fs' sw').
Proof.
  intros (Hwf & Hok & Hc) Hwf' Hm Hf Hh Hd. simpl in *. split_and!; simpl; [done| |].
  - intros f [Hin|Hin]%Hf; [|done]. eapply flight_ok_moves; [done|by apply Hok].
  - intros l c' Hl. rewrite Hh. destruct (conns pl !! l) as [c|] eqn:El.
    + destruct (proj1 Hm l c El) as (c2 & Hc2 & _ & Ha). simplify_eq. rewrite Ha, (Hc l c El), i64_wrap_add_l. f_equal. lia.
    + rewrite (proj2 Hm l c' El Hl), (holders_absent pl) by done. by rewrite Hd.
Qed.

Lemma holders_insert l fs i f f' :
  fs !! i = Some f ->
  holders l (<[i := f']> fs) = holders l fs + (if decide (on_conn l f') then 1 else 0) - (if decide (on_conn l f) then 1 else 0).
Proof.
  intros Hi. unfold holders. rewrite <- (take_drop_middle fs i f Hi) at 2.
  rewrite insert_take_drop by (by eapply lookup_lt_Some).
  rewrite !filter_app, !length_app, !filter_cons. repeat case_decide; simpl; lia.
Qed.

(** The step of one flight: the counter moves exactly when the flight begins
    or ends to serve, on the connection it holds. *)
Lemma flight_step_moves now elapsed pl f pl' f' :
  pool_wf pl -> flight_ok pl f -> flight_step now elapsed pl f = (pl', f') ->
  pool_wf pl' /\ flight_ok pl' f'
  /\ exists d, moves pl pl' d /\ (forall l, conns pl !! l = None -> d l = 0)
     /\ forall l, d l = (if decide (on_conn l f') then 1 else 0) - (if decide (on_conn l f) then 1 else 0).
Proof.
  intros Hwf Hok. destruct f as [k e|k e l|[] e l|e|l|]; simpl.
  - pose proof (Get_moves pl e Hwf) as Hm. destruct (Get pl e) as [p1 conn] eqn:Eg. intros [= <- <-].
    destruct (Get_spec _ _ _ _ Hwf Eg) as (Hw & _ & Hc & _). split_and!; [done|done|]. by exists (fun _ => 0).
  - intros [= <- <-]. destruct Hok as (c & Hc & Ha). assert (moves pl (AddActive pl l 1) (fun k => if decide (l = k) then 1 else 0)) as Hm.
    { by apply modify_moves. }
    split_and!; [by apply AddActive_wf|eapply (flight_ok_moves pl _ _ (Holding k e l)); [exact Hm|by exists c]|].
    eexists. split_and!; [exact Hm| |]; intros l'; cbn; [|by repeat case_decide].
    intros Hn. case_decide; [congruence|done].
  - intros [= <- <-]. destruct Hok as (c & Hc & Ha). split_and!; [by apply AddActive_wf|done|].
    exists (fun k => if decide (l = k) then -1 else 0). split_and!; [by apply modify_moves| |].
    + intros l' Hn. case_decide; [congruence|done].
    + intros l'. repeat case_decide; done.
  - intros [= <- <-]. destruct Hok as (c & Hc & Ha). split_and!; [by apply AddActive_wf|done|].
    exists (fun k => if decide (l = k) then -1 else 0). split_and!; [by apply modify_moves| |].
    + intros l' Hn. case_decide; [congruence|done].
    + intros l'. repeat case_decide; done.
  - pose proof (Get_moves pl e Hwf) as Hm. destruct (Get pl e) as [p1 conn] eqn:Eg. intros [= <- <-].
    destruct (Get_spec _ _ _ _ Hwf Eg) as (Hw & _). split_and!; [done|done|]. by exists (fun _ => 0).
  - intros [= <- <-]. split_and!; [by apply recordLatencyAt_wf|done|].
    exists (fun k => if decide (l = k) then 0 else 0). split_and!; [|intros l'; by case_decide|intros l'; by repeat case_decide].
    apply modify_moves; [done|]. intros c. split; [done|]. simpl. intros Hr. by rewrite Z.add_0_r, i64_wrap_small.
  - intros [= <- <-]. split_and!; [done|done|]. exists (fun _ => 0). split_and!; [by apply moves_none|done|done].
Qed.

Lemma sweep_step_conns pl s pl' s' : sweep_step pl s = (pl', s') -> conns pl' = conns pl /\ endpoints pl' ⊆ endpoints pl.
Proof.
  destruct s as [cut [|a todo]|cut a todo|cut a todo]; simpl; repeat case_match; intros [= <- <-]; split; try done.
  apply delete_subseteq.
Qed.

Lemma counted_start pl fs sw k e : counted (mkTraffic pl fs sw) -> counted (mkTraffic pl (fs ++ [Routed k e]) sw).
Proof.
  intros Hs. pose proof Hs as (Hwf & _ & _). apply (counted_moves pl pl fs _ sw sw (fun _ => 0)); [done|done|by apply moves_none| | |done].
  - intros f [Hf|Hf]%elem_of_app; [by left|]. apply list_elem_of_singleton in Hf as ->. by right.
  - intros l. unfold holders. rewrite filter_app, length_app, filter_cons. simpl. lia.
Qed.

Lemma traffic_step_counted t t' : traffic_step t t' -> counted t -> counted t'.
Proof.
  intros Hstep Hs. pose proof Hs as (Hwf & Hok & _).
  destruct Hstep as [pl fs a|pl fs sw l|pl fs sw k e|pl fs sw i f now elapsed pl' f' Hi Hl Hf|pl fs now d order Ho|pl fs s pl' s' Hw]; simpl in *.
  - eapply counted_moves; [exact Hs|by apply Get_wf|by apply Get_moves|auto|done|done].
  - eapply (counted_moves _ _ _ _ _ _ (fun k => if decide (l = k) then 0 else 0)); [exact Hs|by apply recordErrorAt_wf| |auto|..];
      [|intros k; by case_decide..].
    apply modify_moves; [done|]. intros c. split; [done|]. simpl. intros Hr. by rewrite Z.add_0_r, i64_wrap_small.
  - by apply counted_start.
  - destruct (flight_step_moves _ _ _ _ _ _ Hwf (Hok f (list_elem_of_lookup_2 _ _ _ Hi)) Hf) as (Hw & Hk & d & Hm & Hn & Hd).
    eapply counted_moves; [exact Hs|done|exact Hm| | |done].
    + intros g [j Hj]%list_elem_of_lookup. destruct (decide (i = j)) as [<-|Hne].
      * rewrite list_lookup_insert_eq in Hj by (by eapply lookup_lt_Some). injection Hj as <-. by right.
      * rewrite list_lookup_insert_ne in Hj by done. left. by eapply list_elem_of_lookup_2.
    + intros l. rewrite (holders_insert l fs i f f' Hi), Hd. lia.
  - eapply counted_moves; [exact Hs|done|by apply moves_none|auto|done|done].
  - destruct (sweep_step_conns _ _ _ _ Hw) as [Hc He]. eapply counted_moves; [exact Hs| |by apply moves_none|auto|done|done].
    destruct Hwf as [Hp Hr]. split; rewrite Hc; [|done]. intros a l Ha. apply Hp. by eapply lookup_weaken.
Qed.

Lemma reachable_counted t : rtc traffic_step no_traffic t -> counted t.
Proof.
  intros H. assert (counted no_traffic) as Hi.
  { split_and!; simpl; [|set_solver|done]. split; simpl; [intros a l; by rewrite lookup_empty|done]. }
  revert Hi. induction H as [|t1 t2 t3 H12 _ IH]; [done|]. intros Hs. apply IH. by eapply traffic_step_counted.
Qed.

Lemma reachable_exact t l c :
  rtc traffic_step no_traffic t -> Z.of_nat (length (flights t)) < 2 ^ 63 ->
  conns (shared t) !! l = Some c -> ActiveRequests c = holders l (flights t).
Proof.
  intros Hr Hm Hl. destruct (reachable_counted t Hr) as (_ & _ & Hc). rewrite (Hc l c Hl). apply i64_wrap_small.
  unfold i64_range, holders. pose proof (length_filter (on_conn l) (flights t)). lia.
Qed.

(** *** A request that is counted keeps its endpoint *)

(** The sweep has read the counter of [e] as zero and deletes it next. *)
Definition condemned (t : Traffic) (e : string) : Prop :=
  match sweep t with Some (Unused _ a _) => a = e | _ => False end.

Definition kept (t : Traffic) (e : string) (l : nat) : Prop := endpoints (shared t) !! e = Some l /\ ~ condemned t e.

(** The steps during which flight [i] goes on serving. *)
Definition serving_step (i : nat) (f : Flight) (t t' : Traffic) : Prop := traffic_step t t' /\ flights t' !! i = Some f.

Lemma Get_keeps pl a e l : endpoints pl !! e = Some l -> endpoints (Get pl a).1 !! e = Some l.
Proof.
  intros He. unfold Get. destruct (endpoints pl !! a) eqn:Ea; [done|]. simpl. rewrite lookup_insert_ne; [done|congruence].
Qed.

Lemma flight_step_keeps now d pl f pl' f' e l :
  flight_step now d pl f = (pl', f') -> endpoints pl !! e = Some l -> endpoints pl' !! e = Some l.
Proof.
  destruct f as [k a|k a c|[] a c|a|c|]; simpl; intros H He; try (by injection H as <- <-).
  - pose proof (Get_keeps pl a e l He) as Hg. destruct (Get pl a). by injection H as <- <-.
  - pose proof (Get_keeps pl a e l He) as Hg. destruct (Get pl a). by injection H as <- <-.
Qed.

Lemma sweep_step_keeps pl s pl' s' e l c fs :
  sweep_step pl s = (pl', s') -> kept (mkTraffic pl fs (Some s)) e l ->
  conns pl !! l = Some c -> ActiveRequests c <> 0 -> kept (mkTraffic pl' fs s') e l.
Proof.
  intros Hs [He Hn] Hc Ha. unfold kept, condemned in *. cbn [shared sweep] in *.
  destruct s as [cut [|a todo]|cut a todo|cut a todo]; simpl in Hs.
  - by injection Hs as <- <-.
  - destruct (endpoints pl !! a); [|by injection Hs as <- <-]. injection Hs as <- <-. split; [done|]. by case_bool_decide.
  - destruct (endpoints pl !! a) as [l'|] eqn:El; [|by injection Hs as <- <-]. injection Hs as <- <-. split; [done|].
    case_bool_decide as H0; [|done]. intros <-. simplify_eq. by rewrite (load_lookup _ _ _ Hc) in H0.
  - injection Hs as <- <-. simpl in *. split; [|tauto]. by rewrite lookup_delete_ne.
Qed.

Lemma holders_pos l fs i k e : fs !! i = Some (Serving k e l) -> 0 < holders l fs.
Proof.
  intros Hi. unfold holders. assert (Serving k e l ∈ filter (on_conn l) fs) as Hin.
  { apply list_elem_of_filter. split; [done|]. by eapply list_elem_of_lookup_2. }
  destruct (filter (on_conn l) fs); [by apply not_elem_of_nil in Hin|simpl; lia].
Qed.

Lemma traffic_step_keeps t t' i k e l :
  rtc traffic_step no_traffic t -> Z.of_nat (length (flights t)) < 2 ^ 63 -> traffic_step t t' ->
  flights t !! i = Some (Serving k e l) -> kept t e l -> kept t' e l.
Proof.
  intros Hr Hm Hstep Hi Hk. destruct (reachable_counted t Hr) as (_ & Hok & _).
  destruct (Hok _ (list_elem_of_lookup_2 _ _ _ Hi)) as (c & Hc & _).
  pose proof (reachable_exact t l c Hr Hm Hc) as Ha. pose proof (holders_pos l _ i k e Hi) as Hp.
  clear Hr Hok. pose proof Hk as [He Hn].
  destruct Hstep as [pl fs a|pl fs sw l'|pl fs sw k' e'|pl fs sw j f now elapsed pl' f' Hj Hl Hf|pl fs now d order Ho|pl fs s pl' s' Hw];
    unfold kept, condemned in *; cbn [shared flights sweep] in *.
  - split; [by apply Get_keeps|done].
  - done.
  - done.
  - split; [by eapply flight_step_keeps|done].
  - done.
  - apply (sweep_step_keeps pl s pl' s' e l c fs); try done. lia.
Qed.

Lemma traffic_step_length t t' : traffic_step t t' -> (length (flights t) <= length (flights t'))%nat.
Proof. destruct 1; simpl; rewrite ?length_app, ?length_insert; lia. Qed.

Lemma serving_run_length i f t t' : rtc (serving_step i f) t t' -> (length (flights t) <= length (flights t'))%nat.
Proof. induction 1 as [|t1 t2 t3 [H12%traffic_step_length _] _ IH]; lia. Qed.

Lemma serving_run_keeps t t' i k e l :
  rtc traffic_step no_traffic t -> flights t !! i = Some (Serving k e l) -> kept t e l ->
  rtc (serving_step i (Serving k e l)) t t' -> Z.of_nat (length (flights t')) < 2 ^ 63 -> kept t' e l.
Proof.
  intros Hr Hi Hk Hrun Hm. induction Hrun as [t|t t2 t3 [Hstep Hi2] Hrun IH]; [done|].
  pose proof (traffic_step_length _ _ Hstep) as Hl1. pose proof (serving_run_length _ _ _ _ Hrun) as Hl2.
  apply IH; [by eapply rtc_r|done| |done]. eapply (traffic_step_keeps t t2 i k e l); try done. lia.
Qed.

(** *** One program at a time *)

(** A flight that runs alone. *)
Fixpoint fly (n : nat) (now : Time) (elapsed : Duration) (pl : ConnectionPool) (f : Flight) : ConnectionPool * Flight :=
  match n with
  | O => (pl, f)
  | S n => let '(pl, f) := flight_step now elapsed pl f in fly n now elapsed pl f
  end.

(** A sweep that runs alone; [None] when it has not ended after [n] steps. *)
Fixpoint sweep_run (n : nat) (pl : ConnectionPool) (s : Sweep) : option ConnectionPool :=
  match n with
  | O => None
  | S n => match sweep_step pl s with (pl, None) => Some pl | (pl, Some s) => sweep_run n pl s end
  end.

Lemma sweep_run_mono n m pl s pl' : sweep_run n pl s = Some pl' -> (n <= m)%nat -> sweep_run m pl s = Some pl'.
Proof.
  revert m pl s. induction n as [|n IH]; intros [|m] pl s Hn Hm; simpl in *; try done; [lia|].
  destruct (sweep_step pl s) as [pl1 [s1|]]; [|done]. apply IH; [done|lia].
Qed.

(** The visit of one address, in three steps at most. *)
Lemma sweep_visit n pl now maxIdle a todo :
  let cutoff := UnixMilli (TimeAdd now (- maxIdle)) in
  let pl1 := match endpoints pl !! a with
             | Some l => if idle now maxIdle (load pl l) then mkPool (conns pl) (delete a (endpoints pl)) else pl
             | None => pl
             end in
  forall pl', sweep_run n pl1 (Visit cutoff todo) = Some pl' -> sweep_run (3 + n) pl (Visit cutoff (a :: todo)) = Some pl'.
Proof.
  intros cutoff pl1 pl' Hrun. subst pl1. unfold idle in Hrun. fold cutoff in Hrun. simpl.
  destruct (endpoints pl !! a) as [l|] eqn:El; [|by apply (sweep_run_mono n (2 + n)); [|lia]].
  destruct (bool_decide (LastUsed (load pl l) < cutoff)); cbn [andb] in Hrun; [|by apply (sweep_run_mono n (2 + n)); [|lia]].
  cbn [sweep_step]. rewrite El. destruct (bool_decide (ActiveRequests (load pl l) = 0)); [done|].
  by apply (sweep_run_mono n (1 + n)); [|lia].
Qed.

(** The loop over the addresses that are left. *)
Lemma sweep_loop now maxIdle todo pl :
  NoDup todo ->
  sweep_run (S (3 * length todo)) pl (Visit (UnixMilli (TimeAdd now (- maxIdle))) todo)
    = Some (mkPool (conns pl) (filter (fun '(a, l) => ~ (a ∈ todo /\ idle now maxIdle (load pl l) = true)) (endpoints pl))).
Proof.
  revert pl. induction todo as [|a todo IH]; intros pl Hnd.
  { simpl. destruct pl as [cs es]. f_equal. simpl. f_equal. symmetry. apply map_filter_id. intros i l _ [Hin _]. by apply not_elem_of_nil in Hin. }
  apply NoDup_cons in Hnd as [Hna Hnd].
  replace (S (3 * length (a :: todo)))%nat with (3 + S (3 * length todo))%nat by (simpl; lia).
  apply sweep_visit. rewrite (IH _ Hnd). f_equal.
  destruct (endpoints pl !! a) as [l|] eqn:El; [destruct (idle now maxIdle (load pl l)) eqn:Ei|]; unfold load; simpl; f_equal;
    apply map_eq; intros b; apply option_eq; intros l'; rewrite !map_lookup_filter_Some, ?lookup_delete_Some; fold (load pl l').
  - split; [intros [[Hne Hb] Hno]|intros [Hb Hno]].
    + split; [done|]. intros [[->|Hin]%elem_of_cons Hid]; [done|]. by apply Hno.
    + split; [split; [|done]|]; [intros ->; simplify_eq; apply Hno; split; [by left|done]|].
      intros [Hin Hid]. apply Hno. split; [by right|done].
  - split; intros [Hb Hno]; (split; [done|]); intros [Hin Hid]; apply Hno; (split; [|done]); [|by right].
    apply elem_of_cons in Hin as [->|Hin]; [|done]. simplify_eq. congruence.
  - split; intros [Hb Hno]; (split; [done|]); intros [Hin Hid]; apply Hno; (split; [|done]); [|by right].
    apply elem_of_cons in Hin as [->|Hin]; [congruence|done].
Qed.

(** Alone, the sweep ends and evicts what [EvictIdle] evicts. *)
Lemma sweep_alone now maxIdle pl order :
  order ≡ₚ (map_to_list (endpoints pl)).*1 ->
  sweep_run (S (3 * length order)) pl (Visit (UnixMilli (TimeAdd now (- maxIdle))) order) = Some (EvictIdle now pl maxIdle).1.
Proof.
  intros Ho. rewrite sweep_loop by (rewrite Ho; apply NoDup_fst_map_to_list). f_equal. unfold EvictIdle. cbn [fst]. f_equal.
  apply map_filter_ext. intros a l Ha. assert (a ∈ order) as Hin.
  { rewrite Ho. apply list_elem_of_fmap. exists (a, l). split; [done|]. by apply elem_of_map_to_list. }
  destruct (idle now maxIdle (load pl l)); naive_solver.
Qed.

Section alone.
Context {E : Type} (range_models : gmap string ModelObservation -> list (string * ModelObservation)).
Implicit Types (env : Env E) (p : RequestPipeline) (req : InferenceRequest).

Lemma warmed_wf env p endpoint : pool_wf (pool p) -> pool_wf (pool (warmedRouteResult env p endpoint).1).
Proof.
  intros Hwf. unfold warmedRouteResult. pose proof (Get_wf (pool p) endpoint Hwf). by destruct (Get (pool p) endpoint).
Qed.

Lemma resolveRoute_wf env p req : pool_wf (pool p) -> pool_wf (pool (resolveRoute env p req).1).
Proof.
  intros Hwf. unfold resolveRoute. destruct (GetPipelinedEndpoint _ _ _) as [ss [[ep sq]|]]; [by apply warmed_wf|].
  destruct (GetWarmedEndpoint _ _) as [warm [ep|]]; [by apply warmed_wf|]. simpl.
  pose proof (Route_wf (route_elapsed env) (pool p) (SessionEndpoint req) (Candidates req) Hwf) as Hr.
  by destruct (InferencePool.Route _ _ _ _).
Qed.

(** A routed request that runs alone is a flight, on every path. *)
Lemma execute_on_flight env p req model decision route p' res calls :
  execute_on env p req model decision route = Some (p', res, calls) ->
  fly 5 (record_time env) (TimeSub (release_time env) (start env)) (pool p) (Routed Inference (Endpoint route))
    = (pool p', Finished).
Proof.
  unfold execute_on, runInference, releaseRequest, RecordLatency. destruct (Preloader.WaitReady _ _ _ _); [|done].
  cbn [fly flight_step]. destruct (Get (pool p) (Endpoint route)) as [pl conn]. cbn [fly flight_step].
  destruct (Get (releaseActive _ _ _) _) as [pl2 conn2]. cbn [fly flight_step].
  destruct (Budget.Exceeded _ _); [by intros [= <- _ _]|]. cbn beta iota zeta.
  destruct (infer env _); by intros [= <- _ _].
Qed.
End alone.

(** C26. In every interleaving of requests, chunks, lookups, error reports and
    sweeps over one pool, with fewer than 2^63 of them, the counter of each
    connection is the number of requests and chunks between their increment
    and their decrement on it, and zero once all have ended.  An endpoint with
    a request counted on the connection the pool has for it stays in the pool
    as long as that request is counted, unless a sweep had read the counter as
    zero before.  A request and a sweep that run alone are [execute_on], on
    every path, and [EvictIdle]. *)
Theorem in_flight_exact t
  (Hreach : rtc traffic_step no_traffic t) (Hmany : Z.of_nat (length (flights t)) < 2 ^ 63) :
  (forall l c, conns (shared t) !! l = Some c -> ActiveRequests c = holders l (flights t))
  /\ ((forall f, f ∈ flights t -> f = Finished) -> forall l c, conns (shared t) !! l = Some c -> ActiveRequests c = 0)
  /\ (forall i k e l t', flights t !! i = Some (Serving k e l) -> endpoints (shared t) !! e = Some l ->
        (forall cutoff todo, sweep t <> Some (Unused cutoff e todo)) ->
        rtc (serving_step i (Serving k e l)) t t' -> Z.of_nat (length (flights t')) < 2 ^ 63 ->
        endpoints (shared t') !! e = Some l)
  /\ (forall E (env : Env E) p req model decision route p' res calls,
        execute_on env p req model decision route = Some (p', res, calls) ->
        fly 5 (record_time env) (TimeSub (release_time env) (start env)) (pool p) (Routed Inference (Endpoint route))
          = (pool p', Finished))
  /\ (forall now maxIdle order, order ≡ₚ (map_to_list (endpoints (shared t))).*1 ->
        sweep_run (S (3 * length order)) (shared t) (Visit (UnixMilli (TimeAdd now (- maxIdle))) order)
          = Some (EvictIdle now (shared t) maxIdle).1).
Proof.
  split_and!.
  - intros l c. by apply reachable_exact.
  - intros Hall l c Hl. rewrite (reachable_exact t l c Hreach Hmany Hl). apply holders_zero. intros f Hf. rewrite (Hall f Hf). tauto.
  - intros i k e l t' Hi He Hs Hrun Hm. apply (serving_run_keeps t t' i k e l); try done. split; [done|].
    unfold condemned. destruct (sweep t) as [[| |cut a todo]|]; try tauto. intros Ha. simpl in Ha. subst a. by apply (Hs cut todo).
  - intros E env p req model decision route p' res calls. apply execute_on_flight.
  - intros now maxIdle order. apply sweep_alone.
Qed.

(** ** Error paths *)

Section errors.
Context {E : Type} (range_models : gmap string ModelObservation -> list (string * ModelObservation)).
Implicit Types (env : Env E) (p : RequestPipeline) (req : InferenceRequest).

(** The record of an endpoint after a latency was recorded for it. *)
Lemma RecordLatency_at now pl a d :
  pool_wf pl ->
  exists l c, endpoints (RecordLatency now pl a d) !! a = Some l /\ conns (RecordLatency now pl a d) !! l = Some c
    /\ Address c = a /\ ErrorCount c = 0 /\ LastUsed c = UnixMilli now.
Proof.
  intros Hwf. unfold RecordLatency. destruct (Get pl a) as [pl' l] eqn:Eg.
  destruct (Get_spec _ _ _ _ Hwf Eg) as (_ & He & [c [Hc Ha]] & _).
  exists l. eexists. split_and!; [exact He|simpl; rewrite list_lookup_alter_eq, Hc; reflexivity|done..].
Qed.

(** A failed request leaves its endpoint with no error recorded: the next
    request of the session is routed there as a cache hit. *)
Theorem failure_not_recorded env p req p' err calls :
  pool_wf (pool p) -> Execute range_models env p req = Some (p', inr (ErrInferenceFailed err), calls) ->
  exists endpoint model l c, calls = [("http://" +:+ endpoint, model, buildInferRequest req)]
    /\ endpoints (pool p') !! endpoint = Some l /\ conns (pool p') !! l = Some c /\ ErrorCount c = 0
    /\ forall elapsed candidates, endpoint <> "" ->
         let r := (InferencePool.Route elapsed (pool p') endpoint candidates).2 in
         Endpoint r = endpoint /\ CacheHit r = true.
Proof.
  intros Hwf. unfold Execute. destruct (evaluate_policy _ _ _) as [[model decision]|e] eqn:Ep.
  2: { unfold evaluate_policy in Ep. intros H. simplify_eq. repeat case_match; naive_solver. }
  destruct (GetExact _ _ _ _) as [c [hit|]]; [done|].
  set (p0 := mkPipeline (pool p) (preloader p) c (warmPaths p) (sessions p) (policy p)).
  pose proof (resolveRoute_wf env p0 req Hwf) as Hr. destruct (resolveRoute env p0 req) as [p1 route]. simpl in Hr.
  destruct (bool_decide _); [done|].
  unfold execute_on, runInference. destruct (Preloader.WaitReady _ _ _ _); [|done].
  pose proof (Get_wf (pool p1) (Endpoint route) Hr) as Hg. destruct (Get (pool p1) (Endpoint route)) as [pl conn]. simpl in Hg.
  destruct (Budget.Exceeded _ _); [done|]. cbn beta iota zeta. destruct (infer env _) as [e0|]; [|done]. intros [= <- -> <-].
  exists (Endpoint route), model. unfold releaseRequest, releaseActive. simpl.
  destruct (RecordLatency_at (record_time env) (AddActive (AddActive pl conn 1) conn (-1)) (Endpoint route)
    (TimeSub (release_time env) (start env))) as (l & c' & Hl & Hc & Ha & He & _); [by repeat apply AddActive_wf|].
  exists l, c'. split_and!; [done|done|done|done|]. intros elapsed candidates Hne. unfold InferencePool.Route, Get.
  rewrite bool_decide_false by done. cbn [negb]. rewrite Hl, (load_lookup _ _ _ Hc), He. by rewrite bool_decide_true by lia.
Qed.

(** A session that was started by a chunk has no endpoint: a request of it
    that passes the policy and misses the cache fails, whatever its
    candidates. *)
Theorem pipelined_request_fails now p id pl ss l env req model decision :
  sessions p !! id = None -> PushChunk now (pool p) (sessions p) id = (pl, ss, l) -> RSessionID req = id ->
  let p1 := mkPipeline pl (preloader p) (cache p) (warmPaths p) ss (policy p) in
  evaluate_policy range_models env p1 req = inl (model, decision) ->
  (GetExact (cache_expiry env) (cache_access env) (cache p) (Prompt req)).2 = None ->
  exists p2, Execute range_models env p1 req = Some (p2, inr (ErrNoHealthyEndpoint model), []).
Proof.
  intros Hn Hp <- p1 He Hm. unfold Execute. rewrite He. cbn [cache p1].
  destruct (GetExact _ _ (cache p) _) as [c hit]. simpl in Hm. subst hit.
  unfold resolveRoute. cbn [sessions warmPaths pool preloader policy].
  pose proof (pipelined_to_nowhere _ _ _ _ _ _ _ Hn Hp (session_time env)) as Hs.
  destruct (GetPipelinedEndpoint _ _ _) as [ss' o]. simpl in Hs. subst o.
  unfold warmedRouteResult. destruct (Get _ "") as [pl' l']. simpl. by eexists.
Qed.
End errors.

(** ** Witnesses *)

Definition w_env (answer : option string) : Env string :=
  mkEnv (E := string) 100 101 None None 102 103 104 105 1 true true 106 (fun _ => answer) 107 108 109.

Definition w_request (tenant : string) : InferenceRequest :=
  mkInference tenant "chat" (w_observed 1 0) "gpt" "s1" "" ["10.0.0.1:80"; "10.0.0.2:80"] "hello" 16 false.

Definition w_pipeline : RequestPipeline := newRequestPipeline (Some w_evaluator).

(** The first target is full: the call goes to the second. *)
Lemma execute_gated_witness :
  (exists p' resp, Execute map_to_list (w_env None) w_pipeline (w_request "acme")
     = Some (p', inl resp, [("http://10.0.0.1:80", "mistral", buildInferRequest (w_request "acme"))])
     /\ ResponseModel resp = "mistral")
  /\ exists err, Execute map_to_list (w_env None) w_pipeline (w_request "zeta") = Some (w_pipeline, inr (AccessPolicyError err), []).
Proof.
  split.
  - destruct (Execute map_to_list (w_env None) w_pipeline (w_request "acme")) as [[[p' [resp|err]] calls]|] eqn:Ex;
      [|vm_compute in Ex; discriminate Ex..].
    pose proof (execute_gated map_to_list (w_env None) w_pipeline (w_request "acme") w_evaluator p' (inl resp) calls eq_refl Ex) as (_ & _ & _ & H).
    destruct (H resp eq_refl) as (_ & _ & _ & Hm). exists p', resp. split; [|rewrite Hm; reflexivity].
    vm_compute in Ex. injection Ex as <- <- <-. reflexivity.
  - eexists. vm_compute. reflexivity.
Defined.

(** Two requests on one endpoint. *)
Definition w_traffic : Traffic :=
  let p1 := (Get NewConnectionPool "a").1 in
  mkTraffic (AddActive (AddActive p1 0 1) 0 1) [Serving Inference "a" 0; Serving Inference "a" 0] None.

Lemma w_traffic_reached : rtc traffic_step no_traffic w_traffic.
Proof.
  eapply rtc_l; [apply (step_start _ _ _ Inference "a")|]. eapply rtc_l; [apply (step_start _ _ _ Inference "a")|].
  do 2 (eapply rtc_l; [eapply (step_flight _ _ _ 0 _ 0 0); [reflexivity|done|reflexivity]|]).
  do 2 (eapply rtc_l; [eapply (step_flight _ _ _ 1 _ 0 0); [reflexivity|done|reflexivity]|]). apply rtc_refl.
Defined.

Lemma in_flight_exact_witness :
  (exists c, conns (shared w_traffic) !! 0%nat = Some c /\ ActiveRequests c = 2)
  /\ endpoints (shared w_traffic) !! "a" = Some 0%nat
  /\ forall t', rtc (serving_step 0 (Serving Inference "a" 0)) w_traffic t' -> Z.of_nat (length (flights t')) < 2 ^ 63 ->
       endpoints (shared t') !! "a" = Some 0%nat.
Proof.
  pose proof (in_flight_exact w_traffic w_traffic_reached eq_refl) as (Hc & _ & Hk & _). split_and!.
  - eexists. split; [reflexivity|]. apply (Hc 0%nat). reflexivity.
  - reflexivity.
  - intros t'. apply (Hk 0%nat Inference); [reflexivity|reflexivity|]. intros cut todo. discriminate.
Defined.

(** Between the lookup of a connection and the increment of its counter a
    sweep detaches it: the request then counts on a connection that the
    pool no longer knows, and the endpoint looks unused. *)
Example evicted_before_counted :
  let p1 := (Get NewConnectionPool "a").1 in
  let p2 := mkPool (conns p1) (delete "a" (endpoints p1)) in
  let p3 := AddActive p2 0 1 in
  rtc traffic_step no_traffic (mkTraffic p3 [Serving Inference "a" 0] None)
  /\ endpoints p3 !! "a" = None /\ FastestEndpoint p3 ["b"; "a"] = "b".
Proof.
  intros p1 p2 p3. split_and!; [|reflexivity|reflexivity].
  eapply rtc_l; [apply (step_start _ _ _ Inference "a")|].
  eapply rtc_l; [eapply (step_flight _ _ _ 0 _ 0 0); [reflexivity|done|reflexivity]|].
  eapply rtc_l; [apply (step_sweep_start _ _ (unix_epoch + 10 * Minute) (5 * Minute) ["a"]); reflexivity|].
  do 4 (eapply rtc_l; [apply step_sweep; vm_compute; reflexivity|]).
  eapply rtc_l; [eapply (step_flight _ _ _ 0 _ 0 0); [reflexivity|done|reflexivity]|]. apply rtc_refl.
Qed.

(** The cache is keyed by the prompt alone: a response stored for one tenant
    and model is a hit for another. *)
Example cache_shared_across_models :
  let p := mkPipeline NewConnectionPool ∅ (StoreExact 1 1 Hour ∅ "hello" "answer of llama") ∅ ∅ (Some w_evaluator) in
  exists p' resp, Execute map_to_list (w_env None) p (w_request "acme") = Some (p', inl resp, [])
    /\ ResponseEndpoint resp = "semantic-cache" /\ ResponseModel resp = "mistral".
Proof. eexists _, _. split_and!; [vm_compute; reflexivity|reflexivity|reflexivity]. Qed.
