(* ===== verification/K8s.v ===== *)
(** * What the API types take from the Kubernetes libraries

    The object metadata, pod templates, conditions and references of the
    Kubernetes API packages are types of their own, with a zero value, and the
    deep copies the conversions call.  [K8s] is the interface the API types
    are declared against, [K8sLaws] what the code relies on. *)

From S2P Require Import Prelude.

(** A slice or a map may be nil. *)
Notation slice A := (option (list A)) (only parsing).
Notation StringMap := (option (gmap string string)).

Class K8s := {
  TypeMeta : Type; zero_TypeMeta : TypeMeta;
  ObjectMeta : Type; zero_ObjectMeta : ObjectMeta;
  PodTemplateSpec : Type; zero_PodTemplateSpec : PodTemplateSpec;
  Condition : Type;
  MetaTime : Type;
  EnvVar : Type; EnvVar_DeepCopyInto : EnvVar -> EnvVar;
  LocalObjectReference : Type; LocalObjectReference_DeepCopy : LocalObjectReference -> LocalObjectReference
}.

(** A deep copy holds the same value. *)
Class K8sLaws (K : K8s) : Prop := {
  EnvVar_copy e : EnvVar_DeepCopyInto e = e;
  LocalObjectReference_copy r : LocalObjectReference_DeepCopy r = r
}.

(** ** Slices *)

(** [for _, x := range s] over a nil slice runs no iteration. *)
Definition range_slice {A} (s : slice A) : list A := default [] s.

(** [append(dst, ...)]: nothing appended leaves a nil slice nil. *)
Definition append_slice {A} (dst : slice A) (l : list A) : slice A :=
  match dst, l with
  | None, [] => None
  | _, _ => Some (range_slice dst ++ l)
  end.

(** [append([]string(nil), s...)]: a copy, nil when [s] is empty. *)
Definition copy_slice {A} (s : slice A) : slice A := append_slice None (range_slice s).

(** [make([]B, len(s))] filled by index, kept nil for a nil slice. *)
Definition map_slice {A B} (f : A -> B) (s : slice A) : slice B := (fun l : list A => f <$> l) <$> s.

(** A slice that a copy by [append] preserves: not empty unless nil. *)
Definition canonical {A} (s : slice A) : bool := match s with Some [] => false | _ => true end.

Lemma copy_slice_id {A} (s : slice A) : copy_slice s = s <-> canonical s = true.
Proof. destruct s as [[|a l]|]; done. Qed.

Lemma copy_slice_idemp {A} (s : slice A) : copy_slice (copy_slice s) = copy_slice s.
Proof. by destruct s as [[|a l]|]. Qed.

(** Appending the images of all elements to a nil slice. *)
Lemma append_map_slice {A B} (f : A -> B) (s : slice A) : append_slice None (f <$> range_slice s) = map_slice f (copy_slice s).
Proof. by destruct s as [[|a l]|]. Qed.

Lemma map_slice_compose {A B C} (f : B -> C) (g : A -> B) s : map_slice f (map_slice g s) = map_slice (f ∘ g) s.
Proof. destruct s as [l|]; [|done]. unfold map_slice. simpl. by rewrite (list_fmap_compose g f l). Qed.

Lemma map_slice_id {A} (f : A -> A) s : (forall a, f a = a) -> map_slice f s = s.
Proof.
  intros H. destruct s as [l|]; [|done]. unfold map_slice. simpl. f_equal. rewrite <- (list_fmap_id l) at 2.
  apply list_fmap_ext. intros i a _. apply H.
Qed.
