(* ===== verification/ApiV1.v ===== *)
(** * The API types of version v1, the hub

    [api/v1]: one record per struct, fields in the order of the source and
    prefixed with the name of their struct.  Pointers, slices and maps may be
    nil.  The list types and the generated deep copies are left out. *)

From S2P Require Import Prelude GoFloat K8s.

Section types.
Context {K : K8s}.

Record SecretStoreRef := mkSecretStoreRef {
  SecretStoreRef_Name : string;
  SecretStoreRef_Kind : string
}.

Record ExternalSecretRemoteRef := mkExternalSecretRemoteRef {
  ExternalSecretRemoteRef_Key : string;
  ExternalSecretRemoteRef_Property : string
}.

Record ExternalSecretData := mkExternalSecretData {
  ExternalSecretData_SecretKey : string;
  ExternalSecretData_RemoteRef : ExternalSecretRemoteRef
}.

Record ExternalSecretSpec := mkExternalSecretSpec {
  ExternalSecretSpec_SecretStoreRef : SecretStoreRef;
  ExternalSecretSpec_RefreshInterval : string;
  ExternalSecretSpec_Data : slice ExternalSecretData
}.

Record StorageSpec := mkStorageSpec {
  StorageSpec_SecretRef : option LocalObjectReference;
  StorageSpec_ServiceAccountName : string;
  StorageSpec_StorageContainerRef : string;
  StorageSpec_VaultRef : string;
  StorageSpec_VaultAddr : string;
  StorageSpec_ExternalSecret : option ExternalSecretSpec
}.

Record ModelSpec := mkModelSpec {
  ModelSpec_URI : string;
  ModelSpec_Revision : string;
  ModelSpec_Name : string;
  ModelSpec_Storage : option StorageSpec;
  ModelSpec_HardwareAware : bool
}.

Record PrefillSpec := mkPrefillSpec {
  PrefillSpec_Replicas : option Z;
  PrefillSpec_Template : PodTemplateSpec
}.

Record WorkerSpec := mkWorkerSpec {
  WorkerSpec_Template : PodTemplateSpec
}.

Record ManagedGatewaySpec := mkManagedGatewaySpec {
  ManagedGatewaySpec_GatewayClassName : string
}.

Record GatewayRef := mkGatewayRef {
  GatewayRef_Name : string;
  GatewayRef_Namespace : string
}.

Record GatewaySpec := mkGatewaySpec {
  GatewaySpec_Managed : option ManagedGatewaySpec;
  GatewaySpec_ExistingRef : option GatewayRef
}.

Record ResilienceSpec := mkResilienceSpec {
  ResilienceSpec_Timeout : string;
  ResilienceSpec_MaxRetries : Z;
  ResilienceSpec_RetryOn : string
}.

Record HTTPRouteSpec := mkHTTPRouteSpec {
  HTTPRouteSpec_Hostnames : slice string;
  HTTPRouteSpec_Resilience : option ResilienceSpec
}.

Record RouteSpec := mkRouteSpec {
  RouteSpec_HTTPRoute : option HTTPRouteSpec
}.

Record InferencePoolSpec := mkInferencePoolSpec {
  InferencePoolSpec_Selector : StringMap
}.

Record EndpointPickerConfigSpec := mkEndpointPickerConfigSpec {
  EndpointPickerConfigSpec_Plugins : slice string
}.

Record SchedulerConfigRef := mkSchedulerConfigRef {
  SchedulerConfigRef_Name : string;
  SchedulerConfigRef_Key : string
}.

Record SchedulerConfigSpec := mkSchedulerConfigSpec {
  SchedulerConfigSpec_Inline : option EndpointPickerConfigSpec;
  SchedulerConfigSpec_Ref : option SchedulerConfigRef
}.

Record SchedulerSpec := mkSchedulerSpec {
  SchedulerSpec_Pool : InferencePoolSpec;
  SchedulerSpec_Config : option SchedulerConfigSpec;
  SchedulerSpec_Replicas : option Z
}.

Record RouterSpec := mkRouterSpec {
  RouterSpec_Gateway : GatewaySpec;
  RouterSpec_Route : RouteSpec;
  RouterSpec_Scheduler : option SchedulerSpec
}.

Record ConfigReference := mkConfigReference {
  ConfigReference_Name : string
}.

Definition LMCacheMode := string.

Record LMCacheSpec := mkLMCacheSpec {
  LMCacheSpec_Mode : LMCacheMode;
  LMCacheSpec_ChunkSize : option Z;
  LMCacheSpec_LocalCPU : option bool;
  LMCacheSpec_LocalCPUSizeGiB : option Z;
  LMCacheSpec_EngineRef : option LocalObjectReference
}.

Record KVTransferSpec := mkKVTransferSpec {
  KVTransferSpec_Connector : string;
  KVTransferSpec_Role : string;
  KVTransferSpec_ExtraConfig : StringMap;
  KVTransferSpec_Env : slice EnvVar;
  KVTransferSpec_LMCache : option LMCacheSpec
}.

Record KVCacheSpec := mkKVCacheSpec {
  KVCacheSpec_Dtype : string;
  KVCacheSpec_SwapSpaceGB : option Z;
  KVCacheSpec_Transfer : option KVTransferSpec
}.

Record SpeculativeDecodingSpec := mkSpeculativeDecodingSpec {
  SpeculativeDecodingSpec_Method : string;
  SpeculativeDecodingSpec_NumTokens : option Z;
  SpeculativeDecodingSpec_DraftModel : string
}.

Record QuantizationSpec := mkQuantizationSpec {
  QuantizationSpec_Method : string;
  QuantizationSpec_CheckpointPath : string
}.

Record ToolSurface := mkToolSurface {
  ToolSurface_AllowedAPIs : slice string;
  ToolSurface_AllowedCIDRs : slice string
}.

Record TelemetrySink := mkTelemetrySink {
  TelemetrySink_Type : string;
  TelemetrySink_Endpoint : string
}.

Record ObservabilitySpec := mkObservabilitySpec {
  ObservabilitySpec_Sink : option TelemetrySink
}.

Record ExperimentalSpec := mkExperimentalSpec {
  ExperimentalSpec_Prefill : option PrefillSpec;
  ExperimentalSpec_Worker : option WorkerSpec;
  ExperimentalSpec_KVCache : option KVCacheSpec;
  ExperimentalSpec_SpeculativeDecoding : option SpeculativeDecodingSpec;
  ExperimentalSpec_Quantization : option QuantizationSpec;
  ExperimentalSpec_Engine : string;
  ExperimentalSpec_ToolSurface : option ToolSurface;
  ExperimentalSpec_Observability : option ObservabilitySpec
}.

Record ParallelismSpec := mkParallelismSpec {
  ParallelismSpec_Tensor : option Z;
  ParallelismSpec_Data : option Z;
  ParallelismSpec_DataLocal : option Z;
  ParallelismSpec_GPUDevices : slice string;
  ParallelismSpec_Expert : bool;
  ParallelismSpec_Pipeline : option Z;
  ParallelismSpec_EPLBEnabled : bool
}.

Record WVASpec := mkWVASpec {
  WVASpec_VariantCost : string
}.

Record KEDAFallbackSpec := mkKEDAFallbackSpec {
  KEDAFallbackSpec_FailureThreshold : Z;
  KEDAFallbackSpec_Replicas : Z
}.

Record KEDASpec := mkKEDASpec {
  KEDASpec_PollingInterval : option Z;
  KEDASpec_CooldownPeriod : option Z;
  KEDASpec_InitialCooldownPeriod : option Z;
  KEDASpec_IdleReplicaCount : option Z;
  KEDASpec_Fallback : option KEDAFallbackSpec
}.

Record HPASpec := mkHPASpec {
  HPASpec_TargetCPUUtilizationPercentage : option Z
}.

Record ScalingSpec := mkScalingSpec {
  ScalingSpec_MinReplicas : option Z;
  ScalingSpec_MaxReplicas : option Z;
  ScalingSpec_WVA : option WVASpec;
  ScalingSpec_KEDA : option KEDASpec;
  ScalingSpec_HPA : option HPASpec
}.

Record StatePlanes := mkStatePlanes {
  StatePlanes_Lifecycle : string;
  StatePlanes_Trust : string;
  StatePlanes_Binding : string;
  StatePlanes_Composition : string;
  StatePlanes_Risk : string
}.

Record AdaptiveMetrics := mkAdaptiveMetrics {
  AdaptiveMetrics_P50Latency : string;
  AdaptiveMetrics_P95Latency : string;
  AdaptiveMetrics_P99Latency : string;
  AdaptiveMetrics_QueueDepth : Z;
  AdaptiveMetrics_LoadLevel : string
}.

Record LLMInferenceServiceStatus := mkLLMInferenceServiceStatus {
  LLMInferenceServiceStatus_StatePlanes : StatePlanes;
  LLMInferenceServiceStatus_Conditions : slice Condition;
  LLMInferenceServiceStatus_URL : string;
  LLMInferenceServiceStatus_Replicas : Z;
  LLMInferenceServiceStatus_ModelReady : bool;
  LLMInferenceServiceStatus_ModelRevision : string;
  LLMInferenceServiceStatus_ObservedGeneration : Z;
  LLMInferenceServiceStatus_Optimized : bool;
  LLMInferenceServiceStatus_DetectedHardware : string;
  LLMInferenceServiceStatus_AdaptiveMetrics : option AdaptiveMetrics
}.

Record SLOSpec := mkSLOSpec {
  SLOSpec_TargetP99LatencyMs : Z;
  SLOSpec_TargetAvailability : float64;
  SLOSpec_ErrorBudgetDays : Z
}.

Record CanarySpec := mkCanarySpec {
  CanarySpec_Weight : Z;
  CanarySpec_BaseModel : string
}.

Record LLMInferenceServiceSpec := mkLLMInferenceServiceSpec {
  LLMInferenceServiceSpec_Model : ModelSpec;
  LLMInferenceServiceSpec_Replicas : option Z;
  LLMInferenceServiceSpec_Parallelism : option ParallelismSpec;
  LLMInferenceServiceSpec_Scaling : option ScalingSpec;
  LLMInferenceServiceSpec_Template : PodTemplateSpec;
  LLMInferenceServiceSpec_Router : RouterSpec;
  LLMInferenceServiceSpec_BaseRefs : slice ConfigReference;
  LLMInferenceServiceSpec_AutoOptimize : option bool;
  LLMInferenceServiceSpec_AllowedTenants : slice string;
  LLMInferenceServiceSpec_CostAllocationTags : StringMap;
  LLMInferenceServiceSpec_SLO : option SLOSpec;
  LLMInferenceServiceSpec_Canary : option CanarySpec;
  LLMInferenceServiceSpec_Experimental : option ExperimentalSpec
}.

Record LLMInferenceService := mkLLMInferenceService {
  LLMInferenceService_TypeMeta : TypeMeta;
  LLMInferenceService_ObjectMeta : ObjectMeta;
  LLMInferenceService_Spec : LLMInferenceServiceSpec;
  LLMInferenceService_Status : LLMInferenceServiceStatus
}.

Record AgentIdentity := mkAgentIdentity {
  AgentIdentity_Name : string;
  AgentIdentity_Description : string;
  AgentIdentity_Version : string
}.

Record SkillRef := mkSkillRef {
  SkillRef_RegistryRef : string;
  SkillRef_SkillName : string;
  SkillRef_Version : string
}.

Record ToolDefinition := mkToolDefinition {
  ToolDefinition_Name : string;
  ToolDefinition_Description : string;
  ToolDefinition_InputSchema : string;
  ToolDefinition_Endpoint : string
}.

Record AgentConfiguration := mkAgentConfiguration {
  AgentConfiguration_Identity : AgentIdentity;
  AgentConfiguration_ModelRef : string;
  AgentConfiguration_Skills : slice SkillRef;
  AgentConfiguration_Tools : slice ToolDefinition;
  AgentConfiguration_MaxTokens : Z;
  AgentConfiguration_Template : option PodTemplateSpec
}.

Record AgentStatus := mkAgentStatus {
  AgentStatus_Conditions : slice Condition;
  AgentStatus_Ready : bool
}.

Record Agent := mkAgent {
  Agent_TypeMeta : TypeMeta;
  Agent_ObjectMeta : ObjectMeta;
  Agent_Spec : AgentConfiguration;
  Agent_Status : AgentStatus
}.

Record SkillEntry := mkSkillEntry {
  SkillEntry_Name : string;
  SkillEntry_Version : string;
  SkillEntry_Description : string;
  SkillEntry_Endpoint : string;
  SkillEntry_InputSchema : string;
  SkillEntry_Capabilities : slice string
}.

Record SkillRegistrySpec := mkSkillRegistrySpec {
  SkillRegistrySpec_Entries : slice SkillEntry
}.

Record SkillRegistryStatus := mkSkillRegistryStatus {
  SkillRegistryStatus_Conditions : slice Condition;
  SkillRegistryStatus_EntryCount : Z
}.

Record SkillRegistry := mkSkillRegistry {
  SkillRegistry_TypeMeta : TypeMeta;
  SkillRegistry_ObjectMeta : ObjectMeta;
  SkillRegistry_Spec : SkillRegistrySpec;
  SkillRegistry_Status : SkillRegistryStatus
}.

Record GateCriteria := mkGateCriteria {
  GateCriteria_MinSuccessRate : Z;
  GateCriteria_MaxLatencyP99 : option Z
}.

Record OnboardingStage := mkOnboardingStage {
  OnboardingStage_Name : string;
  OnboardingStage_Type : string;
  OnboardingStage_Gate : option GateCriteria
}.

Record ModelOnboardingSpec := mkModelOnboardingSpec {
  ModelOnboardingSpec_ModelRef : string;
  ModelOnboardingSpec_Stages : slice OnboardingStage;
  ModelOnboardingSpec_RollbackOnFailure : bool
}.

Record ModelOnboardingStatus := mkModelOnboardingStatus {
  ModelOnboardingStatus_Conditions : slice Condition;
  ModelOnboardingStatus_CurrentStage : string;
  ModelOnboardingStatus_Phase : string
}.

Record ModelOnboarding := mkModelOnboarding {
  ModelOnboarding_TypeMeta : TypeMeta;
  ModelOnboarding_ObjectMeta : ObjectMeta;
  ModelOnboarding_Spec : ModelOnboardingSpec;
  ModelOnboarding_Status : ModelOnboardingStatus
}.

Definition SessionPhase := string.

Record InferenceSessionSpec := mkInferenceSessionSpec {
  InferenceSessionSpec_ModelRef : string;
  InferenceSessionSpec_TTL : option Duration;
  InferenceSessionSpec_MaxTurns : Z;
  InferenceSessionSpec_ActorRef : string;
  InferenceSessionSpec_CoactorGroupRef : string;
  InferenceSessionSpec_Metadata : StringMap
}.

Record InferenceSessionStatus := mkInferenceSessionStatus {
  InferenceSessionStatus_Phase : SessionPhase;
  InferenceSessionStatus_BoundEndpoint : string;
  InferenceSessionStatus_TurnCount : Z;
  InferenceSessionStatus_LastActivityTime : option MetaTime;
  InferenceSessionStatus_KVCacheSize : Z;
  InferenceSessionStatus_TokenCount : Z;
  InferenceSessionStatus_Conditions : slice Condition
}.

Record InferenceSession := mkInferenceSession {
  InferenceSession_TypeMeta : TypeMeta;
  InferenceSession_ObjectMeta : ObjectMeta;
  InferenceSession_Spec : InferenceSessionSpec;
  InferenceSession_Status : InferenceSessionStatus
}.

Definition ActorType := string.

Definition ActorState := string.

Record ActorReminder := mkActorReminder {
  ActorReminder_Name : string;
  ActorReminder_DueTime : Duration;
  ActorReminder_Period : option Duration;
  ActorReminder_Data : string
}.

Record InferenceActorSpec := mkInferenceActorSpec {
  InferenceActorSpec_ActorType : ActorType;
  InferenceActorSpec_ModelRef : string;
  InferenceActorSpec_AgentRef : string;
  InferenceActorSpec_IdleTimeout : option Duration;
  InferenceActorSpec_MaxConcurrency : Z;
  InferenceActorSpec_Reentrancy : bool;
  InferenceActorSpec_Reminders : slice ActorReminder;
  InferenceActorSpec_StateStore : string
}.

Record InferenceActorStatus := mkInferenceActorStatus {
  InferenceActorStatus_State : ActorState;
  InferenceActorStatus_ActiveSessions : Z;
  InferenceActorStatus_LastActivationTime : option MetaTime;
  InferenceActorStatus_Conditions : slice Condition
}.

Record InferenceActor := mkInferenceActor {
  InferenceActor_TypeMeta : TypeMeta;
  InferenceActor_ObjectMeta : ObjectMeta;
  InferenceActor_Spec : InferenceActorSpec;
  InferenceActor_Status : InferenceActorStatus
}.

Definition CoactorPattern := string.

Definition CoordinationMethod := string.

Definition CoactorGroupPhase := string.

Record CoactorMember := mkCoactorMember {
  CoactorMember_Name : string;
  CoactorMember_Role : string;
  CoactorMember_ActorRef : string;
  CoactorMember_Weight : string;
  CoactorMember_DependsOn : slice string
}.

Record KVTransferConfig := mkKVTransferConfig {
  KVTransferConfig_Method : string
}.

Record AggregationConfig := mkAggregationConfig {
  AggregationConfig_Strategy : string
}.

Record CoordinationConfig := mkCoordinationConfig {
  CoordinationConfig_Method : CoordinationMethod;
  CoordinationConfig_KVTransfer : option KVTransferConfig;
  CoordinationConfig_Aggregation : option AggregationConfig
}.

Record CoactorGroupSpec := mkCoactorGroupSpec {
  CoactorGroupSpec_Pattern : CoactorPattern;
  CoactorGroupSpec_Members : slice CoactorMember;
  CoactorGroupSpec_Coordination : CoordinationConfig;
  CoactorGroupSpec_SessionAffinity : bool
}.

Record MemberStatus := mkMemberStatus {
  MemberStatus_Name : string;
  MemberStatus_Role : string;
  MemberStatus_State : ActorState;
  MemberStatus_Ready : bool
}.

Record CoactorGroupStatus := mkCoactorGroupStatus {
  CoactorGroupStatus_Phase : CoactorGroupPhase;
  CoactorGroupStatus_ActiveMemberCount : Z;
  CoactorGroupStatus_MemberStatuses : slice MemberStatus;
  CoactorGroupStatus_Conditions : slice Condition
}.

Record CoactorGroup := mkCoactorGroup {
  CoactorGroup_TypeMeta : TypeMeta;
  CoactorGroup_ObjectMeta : ObjectMeta;
  CoactorGroup_Spec : CoactorGroupSpec;
  CoactorGroup_Status : CoactorGroupStatus
}.

Record LLMLoraAdapterSpec := mkLLMLoraAdapterSpec {
  LLMLoraAdapterSpec_TargetService : string;
  LLMLoraAdapterSpec_AdapterName : string;
  LLMLoraAdapterSpec_Model : ModelSpec
}.

Record LLMLoraAdapterStatus := mkLLMLoraAdapterStatus {
  LLMLoraAdapterStatus_Conditions : slice Condition;
  LLMLoraAdapterStatus_ActiveRevision : Z
}.

Record LLMLoraAdapter := mkLLMLoraAdapter {
  LLMLoraAdapter_TypeMeta : TypeMeta;
  LLMLoraAdapter_ObjectMeta : ObjectMeta;
  LLMLoraAdapter_Spec : LLMLoraAdapterSpec;
  LLMLoraAdapter_Status : LLMLoraAdapterStatus
}.

(** The zero values. *)

Definition zero_SecretStoreRef : SecretStoreRef := mkSecretStoreRef "" "".
Definition zero_ExternalSecretRemoteRef : ExternalSecretRemoteRef := mkExternalSecretRemoteRef "" "".
Definition zero_ExternalSecretData : ExternalSecretData := mkExternalSecretData "" zero_ExternalSecretRemoteRef.
Definition zero_ExternalSecretSpec : ExternalSecretSpec := mkExternalSecretSpec zero_SecretStoreRef "" None.
Definition zero_StorageSpec : StorageSpec := mkStorageSpec None "" "" "" "" None.
Definition zero_ModelSpec : ModelSpec := mkModelSpec "" "" "" None false.
Definition zero_PrefillSpec : PrefillSpec := mkPrefillSpec None zero_PodTemplateSpec.
Definition zero_WorkerSpec : WorkerSpec := mkWorkerSpec zero_PodTemplateSpec.
Definition zero_ManagedGatewaySpec : ManagedGatewaySpec := mkManagedGatewaySpec "".
Definition zero_GatewayRef : GatewayRef := mkGatewayRef "" "".
Definition zero_GatewaySpec : GatewaySpec := mkGatewaySpec None None.
Definition zero_ResilienceSpec : ResilienceSpec := mkResilienceSpec "" 0 "".
Definition zero_HTTPRouteSpec : HTTPRouteSpec := mkHTTPRouteSpec None None.
Definition zero_RouteSpec : RouteSpec := mkRouteSpec None.
Definition zero_InferencePoolSpec : InferencePoolSpec := mkInferencePoolSpec None.
Definition zero_EndpointPickerConfigSpec : EndpointPickerConfigSpec := mkEndpointPickerConfigSpec None.
Definition zero_SchedulerConfigRef : SchedulerConfigRef := mkSchedulerConfigRef "" "".
Definition zero_SchedulerConfigSpec : SchedulerConfigSpec := mkSchedulerConfigSpec None None.
Definition zero_SchedulerSpec : SchedulerSpec := mkSchedulerSpec zero_InferencePoolSpec None None.
Definition zero_RouterSpec : RouterSpec := mkRouterSpec zero_GatewaySpec zero_RouteSpec None.
Definition zero_ConfigReference : ConfigReference := mkConfigReference "".
Definition zero_LMCacheSpec : LMCacheSpec := mkLMCacheSpec "" None None None None.
Definition zero_KVTransferSpec : KVTransferSpec := mkKVTransferSpec "" "" None None None.
Definition zero_KVCacheSpec : KVCacheSpec := mkKVCacheSpec "" None None.
Definition zero_SpeculativeDecodingSpec : SpeculativeDecodingSpec := mkSpeculativeDecodingSpec "" None "".
Definition zero_QuantizationSpec : QuantizationSpec := mkQuantizationSpec "" "".
Definition zero_ToolSurface : ToolSurface := mkToolSurface None None.
Definition zero_TelemetrySink : TelemetrySink := mkTelemetrySink "" "".
Definition zero_ObservabilitySpec : ObservabilitySpec := mkObservabilitySpec None.
Definition zero_ExperimentalSpec : ExperimentalSpec := mkExperimentalSpec None None None None None "" None None.
Definition zero_ParallelismSpec : ParallelismSpec := mkParallelismSpec None None None None false None false.
Definition zero_WVASpec : WVASpec := mkWVASpec "".
Definition zero_KEDAFallbackSpec : KEDAFallbackSpec := mkKEDAFallbackSpec 0 0.
Definition zero_KEDASpec : KEDASpec := mkKEDASpec None None None None None.
Definition zero_HPASpec : HPASpec := mkHPASpec None.
Definition zero_ScalingSpec : ScalingSpec := mkScalingSpec None None None None None.
Definition zero_StatePlanes : StatePlanes := mkStatePlanes "" "" "" "" "".
Definition zero_AdaptiveMetrics : AdaptiveMetrics := mkAdaptiveMetrics "" "" "" 0 "".
Definition zero_LLMInferenceServiceStatus : LLMInferenceServiceStatus := mkLLMInferenceServiceStatus zero_StatePlanes None "" 0 false "" 0 false "" None.
Definition zero_SLOSpec : SLOSpec := mkSLOSpec 0 f_zero 0.
Definition zero_CanarySpec : CanarySpec := mkCanarySpec 0 "".
Definition zero_LLMInferenceServiceSpec : LLMInferenceServiceSpec := mkLLMInferenceServiceSpec zero_ModelSpec None None None zero_PodTemplateSpec zero_RouterSpec None None None None None None None.
Definition zero_LLMInferenceService : LLMInferenceService := mkLLMInferenceService zero_TypeMeta zero_ObjectMeta zero_LLMInferenceServiceSpec zero_LLMInferenceServiceStatus.
Definition zero_AgentIdentity : AgentIdentity := mkAgentIdentity "" "" "".
Definition zero_SkillRef : SkillRef := mkSkillRef "" "" "".
Definition zero_ToolDefinition : ToolDefinition := mkToolDefinition "" "" "" "".
Definition zero_AgentConfiguration : AgentConfiguration := mkAgentConfiguration zero_AgentIdentity "" None None 0 None.
Definition zero_AgentStatus : AgentStatus := mkAgentStatus None false.
Definition zero_Agent : Agent := mkAgent zero_TypeMeta zero_ObjectMeta zero_AgentConfiguration zero_AgentStatus.
Definition zero_SkillEntry : SkillEntry := mkSkillEntry "" "" "" "" "" None.
Definition zero_SkillRegistrySpec : SkillRegistrySpec := mkSkillRegistrySpec None.
Definition zero_SkillRegistryStatus : SkillRegistryStatus := mkSkillRegistryStatus None 0.
Definition zero_SkillRegistry : SkillRegistry := mkSkillRegistry zero_TypeMeta zero_ObjectMeta zero_SkillRegistrySpec zero_SkillRegistryStatus.
Definition zero_GateCriteria : GateCriteria := mkGateCriteria 0 None.
Definition zero_OnboardingStage : OnboardingStage := mkOnboardingStage "" "" None.
Definition zero_ModelOnboardingSpec : ModelOnboardingSpec := mkModelOnboardingSpec "" None false.
Definition zero_ModelOnboardingStatus : ModelOnboardingStatus := mkModelOnboardingStatus None "" "".
Definition zero_ModelOnboarding : ModelOnboarding := mkModelOnboarding zero_TypeMeta zero_ObjectMeta zero_ModelOnboardingSpec zero_ModelOnboardingStatus.
Definition zero_InferenceSessionSpec : InferenceSessionSpec := mkInferenceSessionSpec "" None 0 "" "" None.
Definition zero_InferenceSessionStatus : InferenceSessionStatus := mkInferenceSessionStatus "" "" 0 None 0 0 None.
Definition zero_InferenceSession : InferenceSession := mkInferenceSession zero_TypeMeta zero_ObjectMeta zero_InferenceSessionSpec zero_InferenceSessionStatus.
Definition zero_ActorReminder : ActorReminder := mkActorReminder "" 0 None "".
Definition zero_InferenceActorSpec : InferenceActorSpec := mkInferenceActorSpec "" "" "" None 0 false None "".
Definition zero_InferenceActorStatus : InferenceActorStatus := mkInferenceActorStatus "" 0 None None.
Definition zero_InferenceActor : InferenceActor := mkInferenceActor zero_TypeMeta zero_ObjectMeta zero_InferenceActorSpec zero_InferenceActorStatus.
Definition zero_CoactorMember : CoactorMember := mkCoactorMember "" "" "" "" None.
Definition zero_KVTransferConfig : KVTransferConfig := mkKVTransferConfig "".
Definition zero_AggregationConfig : AggregationConfig := mkAggregationConfig "".
Definition zero_CoordinationConfig : CoordinationConfig := mkCoordinationConfig "" None None.
Definition zero_CoactorGroupSpec : CoactorGroupSpec := mkCoactorGroupSpec "" None zero_CoordinationConfig false.
Definition zero_MemberStatus : MemberStatus := mkMemberStatus "" "" "" false.
Definition zero_CoactorGroupStatus : CoactorGroupStatus := mkCoactorGroupStatus "" 0 None None.
Definition zero_CoactorGroup : CoactorGroup := mkCoactorGroup zero_TypeMeta zero_ObjectMeta zero_CoactorGroupSpec zero_CoactorGroupStatus.
Definition zero_LLMLoraAdapterSpec : LLMLoraAdapterSpec := mkLLMLoraAdapterSpec "" "" zero_ModelSpec.
Definition zero_LLMLoraAdapterStatus : LLMLoraAdapterStatus := mkLLMLoraAdapterStatus None 0.
Definition zero_LLMLoraAdapter : LLMLoraAdapter := mkLLMLoraAdapter zero_TypeMeta zero_ObjectMeta zero_LLMLoraAdapterSpec zero_LLMLoraAdapterStatus.
End types.
