(* ===== verification/Conversion.v ===== *)
(** * Conversion between the API versions

    [api/v1alpha2/conversion*.go]: the spoke converts to and from the hub v1.
    Unqualified types and fields are those of v1alpha2.  A conversion writes
    into the object it is given: fields it does not assign keep their value,
    so that object is an argument.  Values are converted, not addresses: which
    slices and maps the two objects share is not modelled. *)

From S2P Require Import Prelude GoFloat K8s ApiV1 ApiV1alpha2.

Section conversion.
Context {K : K8s}.

(** ** Model and storage ([conversion_model.go]) *)

Definition secretStoreRefToV1 (src : SecretStoreRef) : ApiV1.SecretStoreRef :=
  {| ApiV1.SecretStoreRef_Name := SecretStoreRef_Name src;
     ApiV1.SecretStoreRef_Kind := SecretStoreRef_Kind src |}.

Definition secretStoreRefFromV1 (src : ApiV1.SecretStoreRef) : SecretStoreRef :=
  {| SecretStoreRef_Name := ApiV1.SecretStoreRef_Name src;
     SecretStoreRef_Kind := ApiV1.SecretStoreRef_Kind src |}.

Definition remoteRefToV1 (src : ExternalSecretRemoteRef) : ApiV1.ExternalSecretRemoteRef :=
  {| ApiV1.ExternalSecretRemoteRef_Key := ExternalSecretRemoteRef_Key src;
     ApiV1.ExternalSecretRemoteRef_Property := ExternalSecretRemoteRef_Property src |}.

Definition remoteRefFromV1 (src : ApiV1.ExternalSecretRemoteRef) : ExternalSecretRemoteRef :=
  {| ExternalSecretRemoteRef_Key := ApiV1.ExternalSecretRemoteRef_Key src;
     ExternalSecretRemoteRef_Property := ApiV1.ExternalSecretRemoteRef_Property src |}.

Definition externalSecretDataToV1 (src : ExternalSecretData) : ApiV1.ExternalSecretData :=
  {| ApiV1.ExternalSecretData_SecretKey := ExternalSecretData_SecretKey src;
     ApiV1.ExternalSecretData_RemoteRef := remoteRefToV1 (ExternalSecretData_RemoteRef src) |}.

Definition externalSecretDataFromV1 (src : ApiV1.ExternalSecretData) : ExternalSecretData :=
  {| ExternalSecretData_SecretKey := ApiV1.ExternalSecretData_SecretKey src;
     ExternalSecretData_RemoteRef := remoteRefFromV1 (ApiV1.ExternalSecretData_RemoteRef src) |}.

Definition convertExternalSecretToV1 (src : option ExternalSecretSpec) : option ApiV1.ExternalSecretSpec :=
  (fun src =>
    {| ApiV1.ExternalSecretSpec_SecretStoreRef := secretStoreRefToV1 (ExternalSecretSpec_SecretStoreRef src);
       ApiV1.ExternalSecretSpec_RefreshInterval := ExternalSecretSpec_RefreshInterval src;
       ApiV1.ExternalSecretSpec_Data := map_slice externalSecretDataToV1 (ExternalSecretSpec_Data src) |}) <$> src.

Definition convertExternalSecretFromV1 (src : option ApiV1.ExternalSecretSpec) : option ExternalSecretSpec :=
  (fun src =>
    {| ExternalSecretSpec_SecretStoreRef := secretStoreRefFromV1 (ApiV1.ExternalSecretSpec_SecretStoreRef src);
       ExternalSecretSpec_RefreshInterval := ApiV1.ExternalSecretSpec_RefreshInterval src;
       ExternalSecretSpec_Data := map_slice externalSecretDataFromV1 (ApiV1.ExternalSecretSpec_Data src) |}) <$> src.

Definition storageToV1 (src : StorageSpec) : ApiV1.StorageSpec :=
  {| ApiV1.StorageSpec_SecretRef := LocalObjectReference_DeepCopy <$> StorageSpec_SecretRef src;
     ApiV1.StorageSpec_ServiceAccountName := StorageSpec_ServiceAccountName src;
     ApiV1.StorageSpec_StorageContainerRef := StorageSpec_StorageContainerRef src;
     ApiV1.StorageSpec_VaultRef := StorageSpec_VaultRef src;
     ApiV1.StorageSpec_VaultAddr := StorageSpec_VaultAddr src;
     ApiV1.StorageSpec_ExternalSecret := convertExternalSecretToV1 (StorageSpec_ExternalSecret src) |}.

Definition storageFromV1 (src : ApiV1.StorageSpec) : StorageSpec :=
  {| StorageSpec_SecretRef := LocalObjectReference_DeepCopy <$> ApiV1.StorageSpec_SecretRef src;
     StorageSpec_ServiceAccountName := ApiV1.StorageSpec_ServiceAccountName src;
     StorageSpec_StorageContainerRef := ApiV1.StorageSpec_StorageContainerRef src;
     StorageSpec_VaultRef := ApiV1.StorageSpec_VaultRef src;
     StorageSpec_VaultAddr := ApiV1.StorageSpec_VaultAddr src;
     StorageSpec_ExternalSecret := convertExternalSecretFromV1 (ApiV1.StorageSpec_ExternalSecret src) |}.

Definition convertModelSpecToV1 (src : ModelSpec) : ApiV1.ModelSpec :=
  {| ApiV1.ModelSpec_URI := ModelSpec_URI src;
     ApiV1.ModelSpec_Revision := ModelSpec_Revision src;
     ApiV1.ModelSpec_Name := ModelSpec_Name src;
     ApiV1.ModelSpec_Storage := storageToV1 <$> ModelSpec_Storage src;
     ApiV1.ModelSpec_HardwareAware := ModelSpec_HardwareAware src |}.

Definition convertModelSpecFromV1 (src : ApiV1.ModelSpec) : ModelSpec :=
  {| ModelSpec_URI := ApiV1.ModelSpec_URI src;
     ModelSpec_Revision := ApiV1.ModelSpec_Revision src;
     ModelSpec_Name := ApiV1.ModelSpec_Name src;
     ModelSpec_Storage := storageFromV1 <$> ApiV1.ModelSpec_Storage src;
     ModelSpec_HardwareAware := ApiV1.ModelSpec_HardwareAware src |}.

Definition convertParallelismToV1 (src : option ParallelismSpec) : option ApiV1.ParallelismSpec :=
  (fun src =>
    {| ApiV1.ParallelismSpec_Tensor := ParallelismSpec_Tensor src;
       ApiV1.ParallelismSpec_Data := ParallelismSpec_Data src;
       ApiV1.ParallelismSpec_DataLocal := ParallelismSpec_DataLocal src;
       ApiV1.ParallelismSpec_GPUDevices := copy_slice (ParallelismSpec_GPUDevices src);
       ApiV1.ParallelismSpec_Expert := ParallelismSpec_Expert src;
       ApiV1.ParallelismSpec_Pipeline := ParallelismSpec_Pipeline src;
       ApiV1.ParallelismSpec_EPLBEnabled := ParallelismSpec_EPLBEnabled src |}) <$> src.

Definition convertParallelismFromV1 (src : option ApiV1.ParallelismSpec) : option ParallelismSpec :=
  (fun src =>
    {| ParallelismSpec_Tensor := ApiV1.ParallelismSpec_Tensor src;
       ParallelismSpec_Data := ApiV1.ParallelismSpec_Data src;
       ParallelismSpec_DataLocal := ApiV1.ParallelismSpec_DataLocal src;
       ParallelismSpec_GPUDevices := copy_slice (ApiV1.ParallelismSpec_GPUDevices src);
       ParallelismSpec_Expert := ApiV1.ParallelismSpec_Expert src;
       ParallelismSpec_Pipeline := ApiV1.ParallelismSpec_Pipeline src;
       ParallelismSpec_EPLBEnabled := ApiV1.ParallelismSpec_EPLBEnabled src |}) <$> src.

Definition wvaToV1 (src : WVASpec) : ApiV1.WVASpec :=
  {| ApiV1.WVASpec_VariantCost := WVASpec_VariantCost src |}.

Definition wvaFromV1 (src : ApiV1.WVASpec) : WVASpec :=
  {| WVASpec_VariantCost := ApiV1.WVASpec_VariantCost src |}.

Definition kedaFallbackToV1 (src : KEDAFallbackSpec) : ApiV1.KEDAFallbackSpec :=
  {| ApiV1.KEDAFallbackSpec_FailureThreshold := KEDAFallbackSpec_FailureThreshold src;
     ApiV1.KEDAFallbackSpec_Replicas := KEDAFallbackSpec_Replicas src |}.

Definition kedaFallbackFromV1 (src : ApiV1.KEDAFallbackSpec) : KEDAFallbackSpec :=
  {| KEDAFallbackSpec_FailureThreshold := ApiV1.KEDAFallbackSpec_FailureThreshold src;
     KEDAFallbackSpec_Replicas := ApiV1.KEDAFallbackSpec_Replicas src |}.

Definition kedaToV1 (src : KEDASpec) : ApiV1.KEDASpec :=
  {| ApiV1.KEDASpec_PollingInterval := KEDASpec_PollingInterval src;
     ApiV1.KEDASpec_CooldownPeriod := KEDASpec_CooldownPeriod src;
     ApiV1.KEDASpec_InitialCooldownPeriod := KEDASpec_InitialCooldownPeriod src;
     ApiV1.KEDASpec_IdleReplicaCount := KEDASpec_IdleReplicaCount src;
     ApiV1.KEDASpec_Fallback := kedaFallbackToV1 <$> KEDASpec_Fallback src |}.

Definition kedaFromV1 (src : ApiV1.KEDASpec) : KEDASpec :=
  {| KEDASpec_PollingInterval := ApiV1.KEDASpec_PollingInterval src;
     KEDASpec_CooldownPeriod := ApiV1.KEDASpec_CooldownPeriod src;
     KEDASpec_InitialCooldownPeriod := ApiV1.KEDASpec_InitialCooldownPeriod src;
     KEDASpec_IdleReplicaCount := ApiV1.KEDASpec_IdleReplicaCount src;
     KEDASpec_Fallback := kedaFallbackFromV1 <$> ApiV1.KEDASpec_Fallback src |}.

Definition hpaToV1 (src : HPASpec) : ApiV1.HPASpec :=
  {| ApiV1.HPASpec_TargetCPUUtilizationPercentage := HPASpec_TargetCPUUtilizationPercentage src |}.

Definition hpaFromV1 (src : ApiV1.HPASpec) : HPASpec :=
  {| HPASpec_TargetCPUUtilizationPercentage := ApiV1.HPASpec_TargetCPUUtilizationPercentage src |}.

Definition convertScalingToV1 (src : option ScalingSpec) : option ApiV1.ScalingSpec :=
  (fun src =>
    {| ApiV1.ScalingSpec_MinReplicas := ScalingSpec_MinReplicas src;
       ApiV1.ScalingSpec_MaxReplicas := ScalingSpec_MaxReplicas src;
       ApiV1.ScalingSpec_WVA := wvaToV1 <$> ScalingSpec_WVA src;
       ApiV1.ScalingSpec_KEDA := kedaToV1 <$> ScalingSpec_KEDA src;
       ApiV1.ScalingSpec_HPA := hpaToV1 <$> ScalingSpec_HPA src |}) <$> src.

Definition convertScalingFromV1 (src : option ApiV1.ScalingSpec) : option ScalingSpec :=
  (fun src =>
    {| ScalingSpec_MinReplicas := ApiV1.ScalingSpec_MinReplicas src;
       ScalingSpec_MaxReplicas := ApiV1.ScalingSpec_MaxReplicas src;
       ScalingSpec_WVA := wvaFromV1 <$> ApiV1.ScalingSpec_WVA src;
       ScalingSpec_KEDA := kedaFromV1 <$> ApiV1.ScalingSpec_KEDA src;
       ScalingSpec_HPA := hpaFromV1 <$> ApiV1.ScalingSpec_HPA src |}) <$> src.

(** ** Routing ([conversion_router.go]) *)

(** A nil slice stays nil, and a copy of an empty one is nil too. *)
Definition deepCopyStrings (src : slice string) : slice string :=
  match src with None => None | Some _ => copy_slice src end.

Definition convertResilienceToV1 (src : option ResilienceSpec) : option ApiV1.ResilienceSpec :=
  (fun src =>
    {| ApiV1.ResilienceSpec_Timeout := ResilienceSpec_Timeout src;
       ApiV1.ResilienceSpec_MaxRetries := ResilienceSpec_MaxRetries src;
       ApiV1.ResilienceSpec_RetryOn := ResilienceSpec_RetryOn src |}) <$> src.

Definition convertResilienceFromV1 (src : option ApiV1.ResilienceSpec) : option ResilienceSpec :=
  (fun src =>
    {| ResilienceSpec_Timeout := ApiV1.ResilienceSpec_Timeout src;
       ResilienceSpec_MaxRetries := ApiV1.ResilienceSpec_MaxRetries src;
       ResilienceSpec_RetryOn := ApiV1.ResilienceSpec_RetryOn src |}) <$> src.

Definition httpRouteToV1 (src : HTTPRouteSpec) : ApiV1.HTTPRouteSpec :=
  {| ApiV1.HTTPRouteSpec_Hostnames := deepCopyStrings (HTTPRouteSpec_Hostnames src);
     ApiV1.HTTPRouteSpec_Resilience := convertResilienceToV1 (HTTPRouteSpec_Resilience src) |}.

Definition httpRouteFromV1 (src : ApiV1.HTTPRouteSpec) : HTTPRouteSpec :=
  {| HTTPRouteSpec_Hostnames := deepCopyStrings (ApiV1.HTTPRouteSpec_Hostnames src);
     HTTPRouteSpec_Resilience := convertResilienceFromV1 (ApiV1.HTTPRouteSpec_Resilience src) |}.

Definition schedulerConfigRefToV1 (src : SchedulerConfigRef) : ApiV1.SchedulerConfigRef :=
  {| ApiV1.SchedulerConfigRef_Name := SchedulerConfigRef_Name src;
     ApiV1.SchedulerConfigRef_Key := SchedulerConfigRef_Key src |}.

Definition schedulerConfigRefFromV1 (src : ApiV1.SchedulerConfigRef) : SchedulerConfigRef :=
  {| SchedulerConfigRef_Name := ApiV1.SchedulerConfigRef_Name src;
     SchedulerConfigRef_Key := ApiV1.SchedulerConfigRef_Key src |}.

(** Only a configuration by reference is converted, and only the reference. *)
Definition schedulerConfigToV1 (src : SchedulerConfigSpec) : option ApiV1.SchedulerConfigSpec :=
  (fun ref => {| ApiV1.SchedulerConfigSpec_Inline := None;
                 ApiV1.SchedulerConfigSpec_Ref := Some (schedulerConfigRefToV1 ref) |})
    <$> SchedulerConfigSpec_Ref src.

Definition schedulerConfigFromV1 (src : ApiV1.SchedulerConfigSpec) : option SchedulerConfigSpec :=
  (fun ref => {| SchedulerConfigSpec_Inline := None;
                 SchedulerConfigSpec_Ref := Some (schedulerConfigRefFromV1 ref) |})
    <$> ApiV1.SchedulerConfigSpec_Ref src.

Definition inferencePoolToV1 (src : InferencePoolSpec) : ApiV1.InferencePoolSpec :=
  {| ApiV1.InferencePoolSpec_Selector := InferencePoolSpec_Selector src |}.

Definition inferencePoolFromV1 (src : ApiV1.InferencePoolSpec) : InferencePoolSpec :=
  {| InferencePoolSpec_Selector := ApiV1.InferencePoolSpec_Selector src |}.

Definition convertSchedulerToV1 (src : SchedulerSpec) : ApiV1.SchedulerSpec :=
  {| ApiV1.SchedulerSpec_Pool := inferencePoolToV1 (SchedulerSpec_Pool src);
     ApiV1.SchedulerSpec_Config := SchedulerSpec_Config src ≫= schedulerConfigToV1;
     ApiV1.SchedulerSpec_Replicas := SchedulerSpec_Replicas src |}.

Definition convertSchedulerFromV1 (src : ApiV1.SchedulerSpec) : SchedulerSpec :=
  {| SchedulerSpec_Pool := inferencePoolFromV1 (ApiV1.SchedulerSpec_Pool src);
     SchedulerSpec_Config := ApiV1.SchedulerSpec_Config src ≫= schedulerConfigFromV1;
     SchedulerSpec_Replicas := ApiV1.SchedulerSpec_Replicas src |}.

Definition managedGatewayToV1 (src : ManagedGatewaySpec) : ApiV1.ManagedGatewaySpec :=
  {| ApiV1.ManagedGatewaySpec_GatewayClassName := ManagedGatewaySpec_GatewayClassName src |}.

Definition managedGatewayFromV1 (src : ApiV1.ManagedGatewaySpec) : ManagedGatewaySpec :=
  {| ManagedGatewaySpec_GatewayClassName := ApiV1.ManagedGatewaySpec_GatewayClassName src |}.

Definition gatewayRefToV1 (src : GatewayRef) : ApiV1.GatewayRef :=
  {| ApiV1.GatewayRef_Name := GatewayRef_Name src;
     ApiV1.GatewayRef_Namespace := GatewayRef_Namespace src |}.

Definition gatewayRefFromV1 (src : ApiV1.GatewayRef) : GatewayRef :=
  {| GatewayRef_Name := ApiV1.GatewayRef_Name src;
     GatewayRef_Namespace := ApiV1.GatewayRef_Namespace src |}.

Definition gatewayToV1 (src : GatewaySpec) : ApiV1.GatewaySpec :=
  {| ApiV1.GatewaySpec_Managed := managedGatewayToV1 <$> GatewaySpec_Managed src;
     ApiV1.GatewaySpec_ExistingRef := gatewayRefToV1 <$> GatewaySpec_ExistingRef src |}.

Definition gatewayFromV1 (src : ApiV1.GatewaySpec) : GatewaySpec :=
  {| GatewaySpec_Managed := managedGatewayFromV1 <$> ApiV1.GatewaySpec_Managed src;
     GatewaySpec_ExistingRef := gatewayRefFromV1 <$> ApiV1.GatewaySpec_ExistingRef src |}.

Definition routeToV1 (src : RouteSpec) : ApiV1.RouteSpec :=
  {| ApiV1.RouteSpec_HTTPRoute := httpRouteToV1 <$> RouteSpec_HTTPRoute src |}.

Definition routeFromV1 (src : ApiV1.RouteSpec) : RouteSpec :=
  {| RouteSpec_HTTPRoute := httpRouteFromV1 <$> ApiV1.RouteSpec_HTTPRoute src |}.

Definition convertRouterToV1 (src : RouterSpec) : ApiV1.RouterSpec :=
  {| ApiV1.RouterSpec_Gateway := gatewayToV1 (RouterSpec_Gateway src);
     ApiV1.RouterSpec_Route := routeToV1 (RouterSpec_Route src);
     ApiV1.RouterSpec_Scheduler := convertSchedulerToV1 <$> RouterSpec_Scheduler src |}.

Definition convertRouterFromV1 (src : ApiV1.RouterSpec) : RouterSpec :=
  {| RouterSpec_Gateway := gatewayFromV1 (ApiV1.RouterSpec_Gateway src);
     RouterSpec_Route := routeFromV1 (ApiV1.RouterSpec_Route src);
     RouterSpec_Scheduler := convertSchedulerFromV1 <$> ApiV1.RouterSpec_Scheduler src |}.

(** ** Base references, objectives and status ([conversion_status.go]) *)

Definition configReferenceToV1 (src : ConfigReference) : ApiV1.ConfigReference :=
  {| ApiV1.ConfigReference_Name := ConfigReference_Name src |}.

Definition configReferenceFromV1 (src : ApiV1.ConfigReference) : ConfigReference :=
  {| ConfigReference_Name := ApiV1.ConfigReference_Name src |}.

Definition convertBaseRefsToV1 (src : slice ConfigReference) : slice ApiV1.ConfigReference := map_slice configReferenceToV1 src.

Definition convertBaseRefsFromV1 (src : slice ApiV1.ConfigReference) : slice ConfigReference := map_slice configReferenceFromV1 src.

Definition convertSLOToV1 (src : option SLOSpec) : option ApiV1.SLOSpec :=
  (fun src =>
    {| ApiV1.SLOSpec_TargetP99LatencyMs := SLOSpec_TargetP99LatencyMs src;
       ApiV1.SLOSpec_TargetAvailability := SLOSpec_TargetAvailability src;
       ApiV1.SLOSpec_ErrorBudgetDays := SLOSpec_ErrorBudgetDays src |}) <$> src.

Definition convertSLOFromV1 (src : option ApiV1.SLOSpec) : option SLOSpec :=
  (fun src =>
    {| SLOSpec_TargetP99LatencyMs := ApiV1.SLOSpec_TargetP99LatencyMs src;
       SLOSpec_TargetAvailability := ApiV1.SLOSpec_TargetAvailability src;
       SLOSpec_ErrorBudgetDays := ApiV1.SLOSpec_ErrorBudgetDays src |}) <$> src.

Definition convertCanaryToV1 (src : option CanarySpec) : option ApiV1.CanarySpec :=
  (fun src =>
    {| ApiV1.CanarySpec_Weight := CanarySpec_Weight src;
       ApiV1.CanarySpec_BaseModel := CanarySpec_BaseModel src |}) <$> src.

Definition convertCanaryFromV1 (src : option ApiV1.CanarySpec) : option CanarySpec :=
  (fun src =>
    {| CanarySpec_Weight := ApiV1.CanarySpec_Weight src;
       CanarySpec_BaseModel := ApiV1.CanarySpec_BaseModel src |}) <$> src.

Definition convertStatePlanesToV1 (src : StatePlanes) : ApiV1.StatePlanes :=
  {| ApiV1.StatePlanes_Lifecycle := StatePlanes_Lifecycle src;
     ApiV1.StatePlanes_Trust := StatePlanes_Trust src;
     ApiV1.StatePlanes_Binding := StatePlanes_Binding src;
     ApiV1.StatePlanes_Composition := StatePlanes_Composition src;
     ApiV1.StatePlanes_Risk := StatePlanes_Risk src |}.

Definition convertStatePlanesFromV1 (src : ApiV1.StatePlanes) : StatePlanes :=
  {| StatePlanes_Lifecycle := ApiV1.StatePlanes_Lifecycle src;
     StatePlanes_Trust := ApiV1.StatePlanes_Trust src;
     StatePlanes_Binding := ApiV1.StatePlanes_Binding src;
     StatePlanes_Composition := ApiV1.StatePlanes_Composition src;
     StatePlanes_Risk := ApiV1.StatePlanes_Risk src |}.

Definition convertAdaptiveMetricsToV1 (src : option AdaptiveMetrics) : option ApiV1.AdaptiveMetrics :=
  (fun src =>
    {| ApiV1.AdaptiveMetrics_P50Latency := AdaptiveMetrics_P50Latency src;
       ApiV1.AdaptiveMetrics_P95Latency := AdaptiveMetrics_P95Latency src;
       ApiV1.AdaptiveMetrics_P99Latency := AdaptiveMetrics_P99Latency src;
       ApiV1.AdaptiveMetrics_QueueDepth := AdaptiveMetrics_QueueDepth src;
       ApiV1.AdaptiveMetrics_LoadLevel := AdaptiveMetrics_LoadLevel src |}) <$> src.

Definition convertAdaptiveMetricsFromV1 (src : option ApiV1.AdaptiveMetrics) : option AdaptiveMetrics :=
  (fun src =>
    {| AdaptiveMetrics_P50Latency := ApiV1.AdaptiveMetrics_P50Latency src;
       AdaptiveMetrics_P95Latency := ApiV1.AdaptiveMetrics_P95Latency src;
       AdaptiveMetrics_P99Latency := ApiV1.AdaptiveMetrics_P99Latency src;
       AdaptiveMetrics_QueueDepth := ApiV1.AdaptiveMetrics_QueueDepth src;
       AdaptiveMetrics_LoadLevel := ApiV1.AdaptiveMetrics_LoadLevel src |}) <$> src.

(** ** The experimental fields ([conversion_specialized.go]) *)

Definition deepCopyEnv (src : slice EnvVar) : slice EnvVar := map_slice EnvVar_DeepCopyInto src.

Definition deepCopyStringMap (src : StringMap) : StringMap := (fun m => m) <$> src.

Definition prefillToV1 (src : PrefillSpec) : ApiV1.PrefillSpec :=
  {| ApiV1.PrefillSpec_Replicas := PrefillSpec_Replicas src;
     ApiV1.PrefillSpec_Template := PrefillSpec_Template src |}.

Definition prefillFromV1 (src : ApiV1.PrefillSpec) : PrefillSpec :=
  {| PrefillSpec_Replicas := ApiV1.PrefillSpec_Replicas src;
     PrefillSpec_Template := ApiV1.PrefillSpec_Template src |}.

Definition workerToV1 (src : WorkerSpec) : ApiV1.WorkerSpec :=
  {| ApiV1.WorkerSpec_Template := WorkerSpec_Template src |}.

Definition workerFromV1 (src : ApiV1.WorkerSpec) : WorkerSpec :=
  {| WorkerSpec_Template := ApiV1.WorkerSpec_Template src |}.

Definition lmCacheToV1 (src : LMCacheSpec) : ApiV1.LMCacheSpec :=
  {| ApiV1.LMCacheSpec_Mode := LMCacheSpec_Mode src;
     ApiV1.LMCacheSpec_ChunkSize := LMCacheSpec_ChunkSize src;
     ApiV1.LMCacheSpec_LocalCPU := LMCacheSpec_LocalCPU src;
     ApiV1.LMCacheSpec_LocalCPUSizeGiB := LMCacheSpec_LocalCPUSizeGiB src;
     ApiV1.LMCacheSpec_EngineRef := LocalObjectReference_DeepCopy <$> LMCacheSpec_EngineRef src |}.

Definition lmCacheFromV1 (src : ApiV1.LMCacheSpec) : LMCacheSpec :=
  {| LMCacheSpec_Mode := ApiV1.LMCacheSpec_Mode src;
     LMCacheSpec_ChunkSize := ApiV1.LMCacheSpec_ChunkSize src;
     LMCacheSpec_LocalCPU := ApiV1.LMCacheSpec_LocalCPU src;
     LMCacheSpec_LocalCPUSizeGiB := ApiV1.LMCacheSpec_LocalCPUSizeGiB src;
     LMCacheSpec_EngineRef := LocalObjectReference_DeepCopy <$> ApiV1.LMCacheSpec_EngineRef src |}.

Definition kvTransferToV1 (src : KVTransferSpec) : ApiV1.KVTransferSpec :=
  {| ApiV1.KVTransferSpec_Connector := KVTransferSpec_Connector src;
     ApiV1.KVTransferSpec_Role := KVTransferSpec_Role src;
     ApiV1.KVTransferSpec_ExtraConfig := deepCopyStringMap (KVTransferSpec_ExtraConfig src);
     ApiV1.KVTransferSpec_Env := deepCopyEnv (KVTransferSpec_Env src);
     ApiV1.KVTransferSpec_LMCache := lmCacheToV1 <$> KVTransferSpec_LMCache src |}.

Definition kvTransferFromV1 (src : ApiV1.KVTransferSpec) : KVTransferSpec :=
  {| KVTransferSpec_Connector := ApiV1.KVTransferSpec_Connector src;
     KVTransferSpec_Role := ApiV1.KVTransferSpec_Role src;
     KVTransferSpec_ExtraConfig := deepCopyStringMap (ApiV1.KVTransferSpec_ExtraConfig src);
     KVTransferSpec_Env := deepCopyEnv (ApiV1.KVTransferSpec_Env src);
     KVTransferSpec_LMCache := lmCacheFromV1 <$> ApiV1.KVTransferSpec_LMCache src |}.

Definition convertKVCacheToV1 (src : option KVCacheSpec) : option ApiV1.KVCacheSpec :=
  (fun src =>
    {| ApiV1.KVCacheSpec_Dtype := KVCacheSpec_Dtype src;
       ApiV1.KVCacheSpec_SwapSpaceGB := KVCacheSpec_SwapSpaceGB src;
       ApiV1.KVCacheSpec_Transfer := kvTransferToV1 <$> KVCacheSpec_Transfer src |}) <$> src.

Definition convertKVCacheFromV1 (src : option ApiV1.KVCacheSpec) : option KVCacheSpec :=
  (fun src =>
    {| KVCacheSpec_Dtype := ApiV1.KVCacheSpec_Dtype src;
       KVCacheSpec_SwapSpaceGB := ApiV1.KVCacheSpec_SwapSpaceGB src;
       KVCacheSpec_Transfer := kvTransferFromV1 <$> ApiV1.KVCacheSpec_Transfer src |}) <$> src.

Definition convertSpeculativeDecodingToV1 (src : option SpeculativeDecodingSpec) : option ApiV1.SpeculativeDecodingSpec :=
  (fun src =>
    {| ApiV1.SpeculativeDecodingSpec_Method := SpeculativeDecodingSpec_Method src;
       ApiV1.SpeculativeDecodingSpec_NumTokens := SpeculativeDecodingSpec_NumTokens src;
       ApiV1.SpeculativeDecodingSpec_DraftModel := SpeculativeDecodingSpec_DraftModel src |}) <$> src.

Definition convertSpeculativeDecodingFromV1 (src : option ApiV1.SpeculativeDecodingSpec) : option SpeculativeDecodingSpec :=
  (fun src =>
    {| SpeculativeDecodingSpec_Method := ApiV1.SpeculativeDecodingSpec_Method src;
       SpeculativeDecodingSpec_NumTokens := ApiV1.SpeculativeDecodingSpec_NumTokens src;
       SpeculativeDecodingSpec_DraftModel := ApiV1.SpeculativeDecodingSpec_DraftModel src |}) <$> src.

Definition convertQuantizationToV1 (src : option QuantizationSpec) : option ApiV1.QuantizationSpec :=
  (fun src =>
    {| ApiV1.QuantizationSpec_Method := QuantizationSpec_Method src;
       ApiV1.QuantizationSpec_CheckpointPath := QuantizationSpec_CheckpointPath src |}) <$> src.

Definition convertQuantizationFromV1 (src : option ApiV1.QuantizationSpec) : option QuantizationSpec :=
  (fun src =>
    {| QuantizationSpec_Method := ApiV1.QuantizationSpec_Method src;
       QuantizationSpec_CheckpointPath := ApiV1.QuantizationSpec_CheckpointPath src |}) <$> src.

Definition convertToolSurfaceToV1 (src : option ToolSurface) : option ApiV1.ToolSurface :=
  (fun src =>
    {| ApiV1.ToolSurface_AllowedAPIs := copy_slice (ToolSurface_AllowedAPIs src);
       ApiV1.ToolSurface_AllowedCIDRs := copy_slice (ToolSurface_AllowedCIDRs src) |}) <$> src.

Definition convertToolSurfaceFromV1 (src : option ApiV1.ToolSurface) : option ToolSurface :=
  (fun src =>
    {| ToolSurface_AllowedAPIs := copy_slice (ApiV1.ToolSurface_AllowedAPIs src);
       ToolSurface_AllowedCIDRs := copy_slice (ApiV1.ToolSurface_AllowedCIDRs src) |}) <$> src.

Definition telemetrySinkToV1 (src : TelemetrySink) : ApiV1.TelemetrySink :=
  {| ApiV1.TelemetrySink_Type := TelemetrySink_Type src;
     ApiV1.TelemetrySink_Endpoint := TelemetrySink_Endpoint src |}.

Definition telemetrySinkFromV1 (src : ApiV1.TelemetrySink) : TelemetrySink :=
  {| TelemetrySink_Type := ApiV1.TelemetrySink_Type src;
     TelemetrySink_Endpoint := ApiV1.TelemetrySink_Endpoint src |}.

Definition convertObservabilityToV1 (src : option ObservabilitySpec) : option ApiV1.ObservabilitySpec :=
  (fun src =>
    {| ApiV1.ObservabilitySpec_Sink := telemetrySinkToV1 <$> ObservabilitySpec_Sink src |}) <$> src.

Definition convertObservabilityFromV1 (src : option ApiV1.ObservabilitySpec) : option ObservabilitySpec :=
  (fun src =>
    {| ObservabilitySpec_Sink := telemetrySinkFromV1 <$> ApiV1.ObservabilitySpec_Sink src |}) <$> src.

(** [nothing]: none of the eight fields is set. *)
Definition no_experimental (src : LLMInferenceServiceSpec) : bool :=
  match LLMInferenceServiceSpec_Prefill src, LLMInferenceServiceSpec_Worker src, LLMInferenceServiceSpec_KVCache src, LLMInferenceServiceSpec_SpeculativeDecoding src, LLMInferenceServiceSpec_Quantization src,
        LLMInferenceServiceSpec_ToolSurface src, LLMInferenceServiceSpec_Observability src with
  | None, None, None, None, None, None, None => LLMInferenceServiceSpec_Engine src ==? ""
  | _, _, _, _, _, _, _ => false
  end.

(** The field [Experimental] of the destination, given its old value. *)
Definition convertExperimentalToV1 (src : LLMInferenceServiceSpec) (dst : option ApiV1.ExperimentalSpec)
  : option ApiV1.ExperimentalSpec :=
  if no_experimental src then dst
  else Some
    {| ApiV1.ExperimentalSpec_Prefill := prefillToV1 <$> LLMInferenceServiceSpec_Prefill src;
       ApiV1.ExperimentalSpec_Worker := workerToV1 <$> LLMInferenceServiceSpec_Worker src;
       ApiV1.ExperimentalSpec_KVCache := convertKVCacheToV1 (LLMInferenceServiceSpec_KVCache src);
       ApiV1.ExperimentalSpec_SpeculativeDecoding := convertSpeculativeDecodingToV1 (LLMInferenceServiceSpec_SpeculativeDecoding src);
       ApiV1.ExperimentalSpec_Quantization := convertQuantizationToV1 (LLMInferenceServiceSpec_Quantization src);
       ApiV1.ExperimentalSpec_Engine := LLMInferenceServiceSpec_Engine src;
       ApiV1.ExperimentalSpec_ToolSurface := convertToolSurfaceToV1 (LLMInferenceServiceSpec_ToolSurface src);
       ApiV1.ExperimentalSpec_Observability := convertObservabilityToV1 (LLMInferenceServiceSpec_Observability src) |}.

(** The pointer fields set only when the source has them keep the old value
    of the destination otherwise. *)
Definition keep {A} (new old : option A) : option A := match new with Some _ => new | None => old end.

Definition convertExperimentalFromV1 (src : option ApiV1.ExperimentalSpec) (dst : LLMInferenceServiceSpec)
  : LLMInferenceServiceSpec :=
  match src with
  | None => dst
  | Some e =>
      {| LLMInferenceServiceSpec_Model := LLMInferenceServiceSpec_Model dst;
         LLMInferenceServiceSpec_Replicas := LLMInferenceServiceSpec_Replicas dst;
         LLMInferenceServiceSpec_Parallelism := LLMInferenceServiceSpec_Parallelism dst;
         LLMInferenceServiceSpec_Scaling := LLMInferenceServiceSpec_Scaling dst;
         LLMInferenceServiceSpec_Template := LLMInferenceServiceSpec_Template dst;
         LLMInferenceServiceSpec_Prefill := keep (prefillFromV1 <$> ApiV1.ExperimentalSpec_Prefill e) (LLMInferenceServiceSpec_Prefill dst);
         LLMInferenceServiceSpec_Worker := keep (workerFromV1 <$> ApiV1.ExperimentalSpec_Worker e) (LLMInferenceServiceSpec_Worker dst);
         LLMInferenceServiceSpec_Router := LLMInferenceServiceSpec_Router dst;
         LLMInferenceServiceSpec_BaseRefs := LLMInferenceServiceSpec_BaseRefs dst;
         LLMInferenceServiceSpec_AutoOptimize := LLMInferenceServiceSpec_AutoOptimize dst;
         LLMInferenceServiceSpec_AllowedTenants := LLMInferenceServiceSpec_AllowedTenants dst;
         LLMInferenceServiceSpec_CostAllocationTags := LLMInferenceServiceSpec_CostAllocationTags dst;
         LLMInferenceServiceSpec_SLO := LLMInferenceServiceSpec_SLO dst;
         LLMInferenceServiceSpec_Canary := LLMInferenceServiceSpec_Canary dst;
         LLMInferenceServiceSpec_SpeculativeDecoding := convertSpeculativeDecodingFromV1 (ApiV1.ExperimentalSpec_SpeculativeDecoding e);
         LLMInferenceServiceSpec_KVCache := keep (convertKVCacheFromV1 (ApiV1.ExperimentalSpec_KVCache e)) (LLMInferenceServiceSpec_KVCache dst);
         LLMInferenceServiceSpec_Quantization := convertQuantizationFromV1 (ApiV1.ExperimentalSpec_Quantization e);
         LLMInferenceServiceSpec_Engine := ApiV1.ExperimentalSpec_Engine e;
         LLMInferenceServiceSpec_ToolSurface := convertToolSurfaceFromV1 (ApiV1.ExperimentalSpec_ToolSurface e);
         LLMInferenceServiceSpec_Observability := convertObservabilityFromV1 (ApiV1.ExperimentalSpec_Observability e) |}
  end.

(** ** LLMInferenceService ([conversion.go]) *)

Definition serviceSpecToV1 (src : LLMInferenceServiceSpec) (dst : ApiV1.LLMInferenceServiceSpec) : ApiV1.LLMInferenceServiceSpec :=
  {| ApiV1.LLMInferenceServiceSpec_Model := convertModelSpecToV1 (LLMInferenceServiceSpec_Model src);
     ApiV1.LLMInferenceServiceSpec_Replicas := LLMInferenceServiceSpec_Replicas src;
     ApiV1.LLMInferenceServiceSpec_Parallelism := convertParallelismToV1 (LLMInferenceServiceSpec_Parallelism src);
     ApiV1.LLMInferenceServiceSpec_Scaling := convertScalingToV1 (LLMInferenceServiceSpec_Scaling src);
     ApiV1.LLMInferenceServiceSpec_Template := LLMInferenceServiceSpec_Template src;
     ApiV1.LLMInferenceServiceSpec_Router := convertRouterToV1 (LLMInferenceServiceSpec_Router src);
     ApiV1.LLMInferenceServiceSpec_BaseRefs := convertBaseRefsToV1 (LLMInferenceServiceSpec_BaseRefs src);
     ApiV1.LLMInferenceServiceSpec_AutoOptimize := LLMInferenceServiceSpec_AutoOptimize src;
     ApiV1.LLMInferenceServiceSpec_AllowedTenants := LLMInferenceServiceSpec_AllowedTenants src;
     ApiV1.LLMInferenceServiceSpec_CostAllocationTags := LLMInferenceServiceSpec_CostAllocationTags src;
     ApiV1.LLMInferenceServiceSpec_SLO := convertSLOToV1 (LLMInferenceServiceSpec_SLO src);
     ApiV1.LLMInferenceServiceSpec_Canary := convertCanaryToV1 (LLMInferenceServiceSpec_Canary src);
     ApiV1.LLMInferenceServiceSpec_Experimental := convertExperimentalToV1 src (ApiV1.LLMInferenceServiceSpec_Experimental dst) |}.

Definition serviceSpecFromV1 (src : ApiV1.LLMInferenceServiceSpec) (dst : LLMInferenceServiceSpec) : LLMInferenceServiceSpec :=
  convertExperimentalFromV1 (ApiV1.LLMInferenceServiceSpec_Experimental src)
  {| LLMInferenceServiceSpec_Model := convertModelSpecFromV1 (ApiV1.LLMInferenceServiceSpec_Model src);
     LLMInferenceServiceSpec_Replicas := ApiV1.LLMInferenceServiceSpec_Replicas src;
     LLMInferenceServiceSpec_Parallelism := convertParallelismFromV1 (ApiV1.LLMInferenceServiceSpec_Parallelism src);
     LLMInferenceServiceSpec_Scaling := convertScalingFromV1 (ApiV1.LLMInferenceServiceSpec_Scaling src);
     LLMInferenceServiceSpec_Template := ApiV1.LLMInferenceServiceSpec_Template src;
     LLMInferenceServiceSpec_Prefill := LLMInferenceServiceSpec_Prefill dst;
     LLMInferenceServiceSpec_Worker := LLMInferenceServiceSpec_Worker dst;
     LLMInferenceServiceSpec_Router := convertRouterFromV1 (ApiV1.LLMInferenceServiceSpec_Router src);
     LLMInferenceServiceSpec_BaseRefs := convertBaseRefsFromV1 (ApiV1.LLMInferenceServiceSpec_BaseRefs src);
     LLMInferenceServiceSpec_AutoOptimize := ApiV1.LLMInferenceServiceSpec_AutoOptimize src;
     LLMInferenceServiceSpec_AllowedTenants := ApiV1.LLMInferenceServiceSpec_AllowedTenants src;
     LLMInferenceServiceSpec_CostAllocationTags := ApiV1.LLMInferenceServiceSpec_CostAllocationTags src;
     LLMInferenceServiceSpec_SLO := convertSLOFromV1 (ApiV1.LLMInferenceServiceSpec_SLO src);
     LLMInferenceServiceSpec_Canary := convertCanaryFromV1 (ApiV1.LLMInferenceServiceSpec_Canary src);
     LLMInferenceServiceSpec_SpeculativeDecoding := LLMInferenceServiceSpec_SpeculativeDecoding dst;
     LLMInferenceServiceSpec_KVCache := LLMInferenceServiceSpec_KVCache dst;
     LLMInferenceServiceSpec_Quantization := LLMInferenceServiceSpec_Quantization dst;
     LLMInferenceServiceSpec_Engine := LLMInferenceServiceSpec_Engine dst;
     LLMInferenceServiceSpec_ToolSurface := LLMInferenceServiceSpec_ToolSurface dst;
     LLMInferenceServiceSpec_Observability := LLMInferenceServiceSpec_Observability dst |}.

Definition serviceStatusToV1 (src : LLMInferenceServiceStatus) : ApiV1.LLMInferenceServiceStatus :=
  {| ApiV1.LLMInferenceServiceStatus_StatePlanes := convertStatePlanesToV1 (LLMInferenceServiceStatus_StatePlanes src);
     ApiV1.LLMInferenceServiceStatus_Conditions := LLMInferenceServiceStatus_Conditions src;
     ApiV1.LLMInferenceServiceStatus_URL := LLMInferenceServiceStatus_URL src;
     ApiV1.LLMInferenceServiceStatus_Replicas := LLMInferenceServiceStatus_Replicas src;
     ApiV1.LLMInferenceServiceStatus_ModelReady := LLMInferenceServiceStatus_ModelReady src;
     ApiV1.LLMInferenceServiceStatus_ModelRevision := LLMInferenceServiceStatus_ModelRevision src;
     ApiV1.LLMInferenceServiceStatus_ObservedGeneration := LLMInferenceServiceStatus_ObservedGeneration src;
     ApiV1.LLMInferenceServiceStatus_Optimized := LLMInferenceServiceStatus_Optimized src;
     ApiV1.LLMInferenceServiceStatus_DetectedHardware := LLMInferenceServiceStatus_DetectedHardware src;
     ApiV1.LLMInferenceServiceStatus_AdaptiveMetrics := convertAdaptiveMetricsToV1 (LLMInferenceServiceStatus_AdaptiveMetrics src) |}.

Definition serviceStatusFromV1 (src : ApiV1.LLMInferenceServiceStatus) : LLMInferenceServiceStatus :=
  {| LLMInferenceServiceStatus_StatePlanes := convertStatePlanesFromV1 (ApiV1.LLMInferenceServiceStatus_StatePlanes src);
     LLMInferenceServiceStatus_Conditions := ApiV1.LLMInferenceServiceStatus_Conditions src;
     LLMInferenceServiceStatus_URL := ApiV1.LLMInferenceServiceStatus_URL src;
     LLMInferenceServiceStatus_Replicas := ApiV1.LLMInferenceServiceStatus_Replicas src;
     LLMInferenceServiceStatus_ModelReady := ApiV1.LLMInferenceServiceStatus_ModelReady src;
     LLMInferenceServiceStatus_ModelRevision := ApiV1.LLMInferenceServiceStatus_ModelRevision src;
     LLMInferenceServiceStatus_ObservedGeneration := ApiV1.LLMInferenceServiceStatus_ObservedGeneration src;
     LLMInferenceServiceStatus_Optimized := ApiV1.LLMInferenceServiceStatus_Optimized src;
     LLMInferenceServiceStatus_DetectedHardware := ApiV1.LLMInferenceServiceStatus_DetectedHardware src;
     LLMInferenceServiceStatus_AdaptiveMetrics := convertAdaptiveMetricsFromV1 (ApiV1.LLMInferenceServiceStatus_AdaptiveMetrics src) |}.

Definition LLMInferenceService_ConvertTo (src : LLMInferenceService) (dst : ApiV1.LLMInferenceService) : ApiV1.LLMInferenceService :=
  {| ApiV1.LLMInferenceService_TypeMeta := ApiV1.LLMInferenceService_TypeMeta dst;
     ApiV1.LLMInferenceService_ObjectMeta := LLMInferenceService_ObjectMeta src;
     ApiV1.LLMInferenceService_Spec := serviceSpecToV1 (LLMInferenceService_Spec src) (ApiV1.LLMInferenceService_Spec dst);
     ApiV1.LLMInferenceService_Status := serviceStatusToV1 (LLMInferenceService_Status src) |}.

Definition LLMInferenceService_ConvertFrom (src : ApiV1.LLMInferenceService) (dst : LLMInferenceService) : LLMInferenceService :=
  {| LLMInferenceService_TypeMeta := LLMInferenceService_TypeMeta dst;
     LLMInferenceService_ObjectMeta := ApiV1.LLMInferenceService_ObjectMeta src;
     LLMInferenceService_Spec := serviceSpecFromV1 (ApiV1.LLMInferenceService_Spec src) (LLMInferenceService_Spec dst);
     LLMInferenceService_Status := serviceStatusFromV1 (ApiV1.LLMInferenceService_Status src) |}.

(** ** Agent ([conversion_extra.go]) *)

Definition agentIdentityToV1 (src : AgentIdentity) : ApiV1.AgentIdentity :=
  {| ApiV1.AgentIdentity_Name := AgentIdentity_Name src;
     ApiV1.AgentIdentity_Description := AgentIdentity_Description src;
     ApiV1.AgentIdentity_Version := AgentIdentity_Version src |}.

Definition agentIdentityFromV1 (src : ApiV1.AgentIdentity) : AgentIdentity :=
  {| AgentIdentity_Name := ApiV1.AgentIdentity_Name src;
     AgentIdentity_Description := ApiV1.AgentIdentity_Description src;
     AgentIdentity_Version := ApiV1.AgentIdentity_Version src |}.

Definition skillRefToV1 (src : SkillRef) : ApiV1.SkillRef :=
  {| ApiV1.SkillRef_RegistryRef := SkillRef_RegistryRef src;
     ApiV1.SkillRef_SkillName := SkillRef_SkillName src;
     ApiV1.SkillRef_Version := SkillRef_Version src |}.

Definition skillRefFromV1 (src : ApiV1.SkillRef) : SkillRef :=
  {| SkillRef_RegistryRef := ApiV1.SkillRef_RegistryRef src;
     SkillRef_SkillName := ApiV1.SkillRef_SkillName src;
     SkillRef_Version := ApiV1.SkillRef_Version src |}.

Definition toolDefinitionToV1 (src : ToolDefinition) : ApiV1.ToolDefinition :=
  {| ApiV1.ToolDefinition_Name := ToolDefinition_Name src;
     ApiV1.ToolDefinition_Description := ToolDefinition_Description src;
     ApiV1.ToolDefinition_InputSchema := ToolDefinition_InputSchema src;
     ApiV1.ToolDefinition_Endpoint := ToolDefinition_Endpoint src |}.

Definition toolDefinitionFromV1 (src : ApiV1.ToolDefinition) : ToolDefinition :=
  {| ToolDefinition_Name := ApiV1.ToolDefinition_Name src;
     ToolDefinition_Description := ApiV1.ToolDefinition_Description src;
     ToolDefinition_InputSchema := ApiV1.ToolDefinition_InputSchema src;
     ToolDefinition_Endpoint := ApiV1.ToolDefinition_Endpoint src |}.

Definition agentConfigurationToV1 (src : AgentConfiguration) : ApiV1.AgentConfiguration :=
  {| ApiV1.AgentConfiguration_Identity := agentIdentityToV1 (AgentConfiguration_Identity src);
     ApiV1.AgentConfiguration_ModelRef := AgentConfiguration_ModelRef src;
     ApiV1.AgentConfiguration_Skills := append_slice None (skillRefToV1 <$> range_slice (AgentConfiguration_Skills src));
     ApiV1.AgentConfiguration_Tools := append_slice None (toolDefinitionToV1 <$> range_slice (AgentConfiguration_Tools src));
     ApiV1.AgentConfiguration_MaxTokens := AgentConfiguration_MaxTokens src;
     ApiV1.AgentConfiguration_Template := AgentConfiguration_Template src |}.

Definition agentConfigurationFromV1 (src : ApiV1.AgentConfiguration) : AgentConfiguration :=
  {| AgentConfiguration_Identity := agentIdentityFromV1 (ApiV1.AgentConfiguration_Identity src);
     AgentConfiguration_ModelRef := ApiV1.AgentConfiguration_ModelRef src;
     AgentConfiguration_Skills := append_slice None (skillRefFromV1 <$> range_slice (ApiV1.AgentConfiguration_Skills src));
     AgentConfiguration_Tools := append_slice None (toolDefinitionFromV1 <$> range_slice (ApiV1.AgentConfiguration_Tools src));
     AgentConfiguration_MaxTokens := ApiV1.AgentConfiguration_MaxTokens src;
     AgentConfiguration_Template := ApiV1.AgentConfiguration_Template src |}.

Definition agentStatusToV1 (src : AgentStatus) : ApiV1.AgentStatus :=
  {| ApiV1.AgentStatus_Conditions := AgentStatus_Conditions src;
     ApiV1.AgentStatus_Ready := AgentStatus_Ready src |}.

Definition agentStatusFromV1 (src : ApiV1.AgentStatus) : AgentStatus :=
  {| AgentStatus_Conditions := ApiV1.AgentStatus_Conditions src;
     AgentStatus_Ready := ApiV1.AgentStatus_Ready src |}.

Definition Agent_ConvertTo (src : Agent) (dst : ApiV1.Agent) : ApiV1.Agent :=
  {| ApiV1.Agent_TypeMeta := ApiV1.Agent_TypeMeta dst;
     ApiV1.Agent_ObjectMeta := Agent_ObjectMeta src;
     ApiV1.Agent_Spec := agentConfigurationToV1 (Agent_Spec src);
     ApiV1.Agent_Status := agentStatusToV1 (Agent_Status src) |}.

Definition Agent_ConvertFrom (src : ApiV1.Agent) (dst : Agent) : Agent :=
  {| Agent_TypeMeta := Agent_TypeMeta dst;
     Agent_ObjectMeta := ApiV1.Agent_ObjectMeta src;
     Agent_Spec := agentConfigurationFromV1 (ApiV1.Agent_Spec src);
     Agent_Status := agentStatusFromV1 (ApiV1.Agent_Status src) |}.

(** ** SkillRegistry *)

Definition skillEntryToV1 (src : SkillEntry) : ApiV1.SkillEntry :=
  {| ApiV1.SkillEntry_Name := SkillEntry_Name src;
     ApiV1.SkillEntry_Version := SkillEntry_Version src;
     ApiV1.SkillEntry_Description := SkillEntry_Description src;
     ApiV1.SkillEntry_Endpoint := SkillEntry_Endpoint src;
     ApiV1.SkillEntry_InputSchema := SkillEntry_InputSchema src;
     ApiV1.SkillEntry_Capabilities := copy_slice (SkillEntry_Capabilities src) |}.

Definition skillEntryFromV1 (src : ApiV1.SkillEntry) : SkillEntry :=
  {| SkillEntry_Name := ApiV1.SkillEntry_Name src;
     SkillEntry_Version := ApiV1.SkillEntry_Version src;
     SkillEntry_Description := ApiV1.SkillEntry_Description src;
     SkillEntry_Endpoint := ApiV1.SkillEntry_Endpoint src;
     SkillEntry_InputSchema := ApiV1.SkillEntry_InputSchema src;
     SkillEntry_Capabilities := copy_slice (ApiV1.SkillEntry_Capabilities src) |}.

Definition registrySpecToV1 (src : SkillRegistrySpec) (dst : ApiV1.SkillRegistrySpec) : ApiV1.SkillRegistrySpec :=
  {| ApiV1.SkillRegistrySpec_Entries :=
       append_slice (ApiV1.SkillRegistrySpec_Entries dst) (skillEntryToV1 <$> range_slice (SkillRegistrySpec_Entries src)) |}.

Definition registrySpecFromV1 (src : ApiV1.SkillRegistrySpec) (dst : SkillRegistrySpec) : SkillRegistrySpec :=
  {| SkillRegistrySpec_Entries :=
       append_slice (SkillRegistrySpec_Entries dst) (skillEntryFromV1 <$> range_slice (ApiV1.SkillRegistrySpec_Entries src)) |}.

Definition registryStatusToV1 (src : SkillRegistryStatus) : ApiV1.SkillRegistryStatus :=
  {| ApiV1.SkillRegistryStatus_Conditions := SkillRegistryStatus_Conditions src;
     ApiV1.SkillRegistryStatus_EntryCount := SkillRegistryStatus_EntryCount src |}.

Definition registryStatusFromV1 (src : ApiV1.SkillRegistryStatus) : SkillRegistryStatus :=
  {| SkillRegistryStatus_Conditions := ApiV1.SkillRegistryStatus_Conditions src;
     SkillRegistryStatus_EntryCount := ApiV1.SkillRegistryStatus_EntryCount src |}.

Definition SkillRegistry_ConvertTo (src : SkillRegistry) (dst : ApiV1.SkillRegistry) : ApiV1.SkillRegistry :=
  {| ApiV1.SkillRegistry_TypeMeta := ApiV1.SkillRegistry_TypeMeta dst;
     ApiV1.SkillRegistry_ObjectMeta := SkillRegistry_ObjectMeta src;
     ApiV1.SkillRegistry_Spec := registrySpecToV1 (SkillRegistry_Spec src) (ApiV1.SkillRegistry_Spec dst);
     ApiV1.SkillRegistry_Status := registryStatusToV1 (SkillRegistry_Status src) |}.

Definition SkillRegistry_ConvertFrom (src : ApiV1.SkillRegistry) (dst : SkillRegistry) : SkillRegistry :=
  {| SkillRegistry_TypeMeta := SkillRegistry_TypeMeta dst;
     SkillRegistry_ObjectMeta := ApiV1.SkillRegistry_ObjectMeta src;
     SkillRegistry_Spec := registrySpecFromV1 (ApiV1.SkillRegistry_Spec src) (SkillRegistry_Spec dst);
     SkillRegistry_Status := registryStatusFromV1 (ApiV1.SkillRegistry_Status src) |}.

(** ** ModelOnboarding *)

Definition gateCriteriaToV1 (src : GateCriteria) : ApiV1.GateCriteria :=
  {| ApiV1.GateCriteria_MinSuccessRate := GateCriteria_MinSuccessRate src;
     ApiV1.GateCriteria_MaxLatencyP99 := GateCriteria_MaxLatencyP99 src |}.

Definition gateCriteriaFromV1 (src : ApiV1.GateCriteria) : GateCriteria :=
  {| GateCriteria_MinSuccessRate := ApiV1.GateCriteria_MinSuccessRate src;
     GateCriteria_MaxLatencyP99 := ApiV1.GateCriteria_MaxLatencyP99 src |}.

Definition onboardingStageToV1 (src : OnboardingStage) : ApiV1.OnboardingStage :=
  {| ApiV1.OnboardingStage_Name := OnboardingStage_Name src;
     ApiV1.OnboardingStage_Type := OnboardingStage_Type src;
     ApiV1.OnboardingStage_Gate := gateCriteriaToV1 <$> OnboardingStage_Gate src |}.

Definition onboardingStageFromV1 (src : ApiV1.OnboardingStage) : OnboardingStage :=
  {| OnboardingStage_Name := ApiV1.OnboardingStage_Name src;
     OnboardingStage_Type := ApiV1.OnboardingStage_Type src;
     OnboardingStage_Gate := gateCriteriaFromV1 <$> ApiV1.OnboardingStage_Gate src |}.

Definition onboardingSpecToV1 (src : ModelOnboardingSpec) (dst : ApiV1.ModelOnboardingSpec) : ApiV1.ModelOnboardingSpec :=
  {| ApiV1.ModelOnboardingSpec_ModelRef := ModelOnboardingSpec_ModelRef src;
     ApiV1.ModelOnboardingSpec_Stages := append_slice (ApiV1.ModelOnboardingSpec_Stages dst) (onboardingStageToV1 <$> range_slice (ModelOnboardingSpec_Stages src));
     ApiV1.ModelOnboardingSpec_RollbackOnFailure := ModelOnboardingSpec_RollbackOnFailure src |}.

Definition onboardingSpecFromV1 (src : ApiV1.ModelOnboardingSpec) (dst : ModelOnboardingSpec) : ModelOnboardingSpec :=
  {| ModelOnboardingSpec_ModelRef := ApiV1.ModelOnboardingSpec_ModelRef src;
     ModelOnboardingSpec_Stages := append_slice (ModelOnboardingSpec_Stages dst) (onboardingStageFromV1 <$> range_slice (ApiV1.ModelOnboardingSpec_Stages src));
     ModelOnboardingSpec_RollbackOnFailure := ApiV1.ModelOnboardingSpec_RollbackOnFailure src |}.

Definition onboardingStatusToV1 (src : ModelOnboardingStatus) : ApiV1.ModelOnboardingStatus :=
  {| ApiV1.ModelOnboardingStatus_Conditions := ModelOnboardingStatus_Conditions src;
     ApiV1.ModelOnboardingStatus_CurrentStage := ModelOnboardingStatus_CurrentStage src;
     ApiV1.ModelOnboardingStatus_Phase := ModelOnboardingStatus_Phase src |}.

Definition onboardingStatusFromV1 (src : ApiV1.ModelOnboardingStatus) : ModelOnboardingStatus :=
  {| ModelOnboardingStatus_Conditions := ApiV1.ModelOnboardingStatus_Conditions src;
     ModelOnboardingStatus_CurrentStage := ApiV1.ModelOnboardingStatus_CurrentStage src;
     ModelOnboardingStatus_Phase := ApiV1.ModelOnboardingStatus_Phase src |}.

Definition ModelOnboarding_ConvertTo (src : ModelOnboarding) (dst : ApiV1.ModelOnboarding) : ApiV1.ModelOnboarding :=
  {| ApiV1.ModelOnboarding_TypeMeta := ApiV1.ModelOnboarding_TypeMeta dst;
     ApiV1.ModelOnboarding_ObjectMeta := ModelOnboarding_ObjectMeta src;
     ApiV1.ModelOnboarding_Spec := onboardingSpecToV1 (ModelOnboarding_Spec src) (ApiV1.ModelOnboarding_Spec dst);
     ApiV1.ModelOnboarding_Status := onboardingStatusToV1 (ModelOnboarding_Status src) |}.

Definition ModelOnboarding_ConvertFrom (src : ApiV1.ModelOnboarding) (dst : ModelOnboarding) : ModelOnboarding :=
  {| ModelOnboarding_TypeMeta := ModelOnboarding_TypeMeta dst;
     ModelOnboarding_ObjectMeta := ApiV1.ModelOnboarding_ObjectMeta src;
     ModelOnboarding_Spec := onboardingSpecFromV1 (ApiV1.ModelOnboarding_Spec src) (ModelOnboarding_Spec dst);
     ModelOnboarding_Status := onboardingStatusFromV1 (ApiV1.ModelOnboarding_Status src) |}.

(** ** InferenceSession *)

Definition sessionSpecToV1 (src : InferenceSessionSpec) (dst : ApiV1.InferenceSessionSpec) : ApiV1.InferenceSessionSpec :=
  {| ApiV1.InferenceSessionSpec_ModelRef := InferenceSessionSpec_ModelRef src;
     ApiV1.InferenceSessionSpec_TTL := InferenceSessionSpec_TTL src;
     ApiV1.InferenceSessionSpec_MaxTurns := InferenceSessionSpec_MaxTurns src;
     ApiV1.InferenceSessionSpec_ActorRef := InferenceSessionSpec_ActorRef src;
     ApiV1.InferenceSessionSpec_CoactorGroupRef := InferenceSessionSpec_CoactorGroupRef src;
     ApiV1.InferenceSessionSpec_Metadata := keep (InferenceSessionSpec_Metadata src) (ApiV1.InferenceSessionSpec_Metadata dst) |}.

Definition sessionSpecFromV1 (src : ApiV1.InferenceSessionSpec) (dst : InferenceSessionSpec) : InferenceSessionSpec :=
  {| InferenceSessionSpec_ModelRef := ApiV1.InferenceSessionSpec_ModelRef src;
     InferenceSessionSpec_TTL := ApiV1.InferenceSessionSpec_TTL src;
     InferenceSessionSpec_MaxTurns := ApiV1.InferenceSessionSpec_MaxTurns src;
     InferenceSessionSpec_ActorRef := ApiV1.InferenceSessionSpec_ActorRef src;
     InferenceSessionSpec_CoactorGroupRef := ApiV1.InferenceSessionSpec_CoactorGroupRef src;
     InferenceSessionSpec_Metadata := keep (ApiV1.InferenceSessionSpec_Metadata src) (InferenceSessionSpec_Metadata dst) |}.

Definition sessionStatusToV1 (src : InferenceSessionStatus) : ApiV1.InferenceSessionStatus :=
  {| ApiV1.InferenceSessionStatus_Phase := InferenceSessionStatus_Phase src;
     ApiV1.InferenceSessionStatus_BoundEndpoint := InferenceSessionStatus_BoundEndpoint src;
     ApiV1.InferenceSessionStatus_TurnCount := InferenceSessionStatus_TurnCount src;
     ApiV1.InferenceSessionStatus_LastActivityTime := InferenceSessionStatus_LastActivityTime src;
     ApiV1.InferenceSessionStatus_KVCacheSize := InferenceSessionStatus_KVCacheSize src;
     ApiV1.InferenceSessionStatus_TokenCount := InferenceSessionStatus_TokenCount src;
     ApiV1.InferenceSessionStatus_Conditions := InferenceSessionStatus_Conditions src |}.

Definition sessionStatusFromV1 (src : ApiV1.InferenceSessionStatus) : InferenceSessionStatus :=
  {| InferenceSessionStatus_Phase := ApiV1.InferenceSessionStatus_Phase src;
     InferenceSessionStatus_BoundEndpoint := ApiV1.InferenceSessionStatus_BoundEndpoint src;
     InferenceSessionStatus_TurnCount := ApiV1.InferenceSessionStatus_TurnCount src;
     InferenceSessionStatus_LastActivityTime := ApiV1.InferenceSessionStatus_LastActivityTime src;
     InferenceSessionStatus_KVCacheSize := ApiV1.InferenceSessionStatus_KVCacheSize src;
     InferenceSessionStatus_TokenCount := ApiV1.InferenceSessionStatus_TokenCount src;
     InferenceSessionStatus_Conditions := ApiV1.InferenceSessionStatus_Conditions src |}.

Definition InferenceSession_ConvertTo (src : InferenceSession) (dst : ApiV1.InferenceSession) : ApiV1.InferenceSession :=
  {| ApiV1.InferenceSession_TypeMeta := ApiV1.InferenceSession_TypeMeta dst;
     ApiV1.InferenceSession_ObjectMeta := InferenceSession_ObjectMeta src;
     ApiV1.InferenceSession_Spec := sessionSpecToV1 (InferenceSession_Spec src) (ApiV1.InferenceSession_Spec dst);
     ApiV1.InferenceSession_Status := sessionStatusToV1 (InferenceSession_Status src) |}.

Definition InferenceSession_ConvertFrom (src : ApiV1.InferenceSession) (dst : InferenceSession) : InferenceSession :=
  {| InferenceSession_TypeMeta := InferenceSession_TypeMeta dst;
     InferenceSession_ObjectMeta := ApiV1.InferenceSession_ObjectMeta src;
     InferenceSession_Spec := sessionSpecFromV1 (ApiV1.InferenceSession_Spec src) (InferenceSession_Spec dst);
     InferenceSession_Status := sessionStatusFromV1 (ApiV1.InferenceSession_Status src) |}.

(** ** InferenceActor *)

Definition actorReminderToV1 (src : ActorReminder) : ApiV1.ActorReminder :=
  {| ApiV1.ActorReminder_Name := ActorReminder_Name src;
     ApiV1.ActorReminder_DueTime := ActorReminder_DueTime src;
     ApiV1.ActorReminder_Period := ActorReminder_Period src;
     ApiV1.ActorReminder_Data := ActorReminder_Data src |}.

Definition actorReminderFromV1 (src : ApiV1.ActorReminder) : ActorReminder :=
  {| ActorReminder_Name := ApiV1.ActorReminder_Name src;
     ActorReminder_DueTime := ApiV1.ActorReminder_DueTime src;
     ActorReminder_Period := ApiV1.ActorReminder_Period src;
     ActorReminder_Data := ApiV1.ActorReminder_Data src |}.

Definition actorSpecToV1 (src : InferenceActorSpec) : ApiV1.InferenceActorSpec :=
  {| ApiV1.InferenceActorSpec_ActorType := InferenceActorSpec_ActorType src;
     ApiV1.InferenceActorSpec_ModelRef := InferenceActorSpec_ModelRef src;
     ApiV1.InferenceActorSpec_AgentRef := InferenceActorSpec_AgentRef src;
     ApiV1.InferenceActorSpec_IdleTimeout := InferenceActorSpec_IdleTimeout src;
     ApiV1.InferenceActorSpec_MaxConcurrency := InferenceActorSpec_MaxConcurrency src;
     ApiV1.InferenceActorSpec_Reentrancy := InferenceActorSpec_Reentrancy src;
     ApiV1.InferenceActorSpec_Reminders := append_slice None (actorReminderToV1 <$> range_slice (InferenceActorSpec_Reminders src));
     ApiV1.InferenceActorSpec_StateStore := InferenceActorSpec_StateStore src |}.

Definition actorSpecFromV1 (src : ApiV1.InferenceActorSpec) : InferenceActorSpec :=
  {| InferenceActorSpec_ActorType := ApiV1.InferenceActorSpec_ActorType src;
     InferenceActorSpec_ModelRef := ApiV1.InferenceActorSpec_ModelRef src;
     InferenceActorSpec_AgentRef := ApiV1.InferenceActorSpec_AgentRef src;
     InferenceActorSpec_IdleTimeout := ApiV1.InferenceActorSpec_IdleTimeout src;
     InferenceActorSpec_MaxConcurrency := ApiV1.InferenceActorSpec_MaxConcurrency src;
     InferenceActorSpec_Reentrancy := ApiV1.InferenceActorSpec_Reentrancy src;
     InferenceActorSpec_Reminders := append_slice None (actorReminderFromV1 <$> range_slice (ApiV1.InferenceActorSpec_Reminders src));
     InferenceActorSpec_StateStore := ApiV1.InferenceActorSpec_StateStore src |}.

Definition actorStatusToV1 (src : InferenceActorStatus) : ApiV1.InferenceActorStatus :=
  {| ApiV1.InferenceActorStatus_State := InferenceActorStatus_State src;
     ApiV1.InferenceActorStatus_ActiveSessions := InferenceActorStatus_ActiveSessions src;
     ApiV1.InferenceActorStatus_LastActivationTime := InferenceActorStatus_LastActivationTime src;
     ApiV1.InferenceActorStatus_Conditions := InferenceActorStatus_Conditions src |}.

Definition actorStatusFromV1 (src : ApiV1.InferenceActorStatus) : InferenceActorStatus :=
  {| InferenceActorStatus_State := ApiV1.InferenceActorStatus_State src;
     InferenceActorStatus_ActiveSessions := ApiV1.InferenceActorStatus_ActiveSessions src;
     InferenceActorStatus_LastActivationTime := ApiV1.InferenceActorStatus_LastActivationTime src;
     InferenceActorStatus_Conditions := ApiV1.InferenceActorStatus_Conditions src |}.

Definition InferenceActor_ConvertTo (src : InferenceActor) (dst : ApiV1.InferenceActor) : ApiV1.InferenceActor :=
  {| ApiV1.InferenceActor_TypeMeta := ApiV1.InferenceActor_TypeMeta dst;
     ApiV1.InferenceActor_ObjectMeta := InferenceActor_ObjectMeta src;
     ApiV1.InferenceActor_Spec := actorSpecToV1 (InferenceActor_Spec src);
     ApiV1.InferenceActor_Status := actorStatusToV1 (InferenceActor_Status src) |}.

Definition InferenceActor_ConvertFrom (src : ApiV1.InferenceActor) (dst : InferenceActor) : InferenceActor :=
  {| InferenceActor_TypeMeta := InferenceActor_TypeMeta dst;
     InferenceActor_ObjectMeta := ApiV1.InferenceActor_ObjectMeta src;
     InferenceActor_Spec := actorSpecFromV1 (ApiV1.InferenceActor_Spec src);
     InferenceActor_Status := actorStatusFromV1 (ApiV1.InferenceActor_Status src) |}.

(** ** CoactorGroup *)

Definition coactorMemberToV1 (src : CoactorMember) : ApiV1.CoactorMember :=
  {| ApiV1.CoactorMember_Name := CoactorMember_Name src;
     ApiV1.CoactorMember_Role := CoactorMember_Role src;
     ApiV1.CoactorMember_ActorRef := CoactorMember_ActorRef src;
     ApiV1.CoactorMember_Weight := CoactorMember_Weight src;
     ApiV1.CoactorMember_DependsOn := copy_slice (CoactorMember_DependsOn src) |}.

Definition coactorMemberFromV1 (src : ApiV1.CoactorMember) : CoactorMember :=
  {| CoactorMember_Name := ApiV1.CoactorMember_Name src;
     CoactorMember_Role := ApiV1.CoactorMember_Role src;
     CoactorMember_ActorRef := ApiV1.CoactorMember_ActorRef src;
     CoactorMember_Weight := ApiV1.CoactorMember_Weight src;
     CoactorMember_DependsOn := copy_slice (ApiV1.CoactorMember_DependsOn src) |}.

Definition kvTransferConfigToV1 (src : KVTransferConfig) : ApiV1.KVTransferConfig :=
  {| ApiV1.KVTransferConfig_Method := KVTransferConfig_Method src |}.

Definition kvTransferConfigFromV1 (src : ApiV1.KVTransferConfig) : KVTransferConfig :=
  {| KVTransferConfig_Method := ApiV1.KVTransferConfig_Method src |}.

Definition aggregationConfigToV1 (src : AggregationConfig) : ApiV1.AggregationConfig :=
  {| ApiV1.AggregationConfig_Strategy := AggregationConfig_Strategy src |}.

Definition aggregationConfigFromV1 (src : ApiV1.AggregationConfig) : AggregationConfig :=
  {| AggregationConfig_Strategy := ApiV1.AggregationConfig_Strategy src |}.

Definition coordinationToV1 (src : CoordinationConfig) : ApiV1.CoordinationConfig :=
  {| ApiV1.CoordinationConfig_Method := CoordinationConfig_Method src;
     ApiV1.CoordinationConfig_KVTransfer := kvTransferConfigToV1 <$> CoordinationConfig_KVTransfer src;
     ApiV1.CoordinationConfig_Aggregation := aggregationConfigToV1 <$> CoordinationConfig_Aggregation src |}.

Definition coordinationFromV1 (src : ApiV1.CoordinationConfig) : CoordinationConfig :=
  {| CoordinationConfig_Method := ApiV1.CoordinationConfig_Method src;
     CoordinationConfig_KVTransfer := kvTransferConfigFromV1 <$> ApiV1.CoordinationConfig_KVTransfer src;
     CoordinationConfig_Aggregation := aggregationConfigFromV1 <$> ApiV1.CoordinationConfig_Aggregation src |}.

Definition groupSpecToV1 (src : CoactorGroupSpec) (dst : ApiV1.CoactorGroupSpec) : ApiV1.CoactorGroupSpec :=
  {| ApiV1.CoactorGroupSpec_Pattern := CoactorGroupSpec_Pattern src;
     ApiV1.CoactorGroupSpec_Members := append_slice (ApiV1.CoactorGroupSpec_Members dst) (coactorMemberToV1 <$> range_slice (CoactorGroupSpec_Members src));
     ApiV1.CoactorGroupSpec_Coordination := coordinationToV1 (CoactorGroupSpec_Coordination src);
     ApiV1.CoactorGroupSpec_SessionAffinity := CoactorGroupSpec_SessionAffinity src |}.

Definition groupSpecFromV1 (src : ApiV1.CoactorGroupSpec) (dst : CoactorGroupSpec) : CoactorGroupSpec :=
  {| CoactorGroupSpec_Pattern := ApiV1.CoactorGroupSpec_Pattern src;
     CoactorGroupSpec_Members := append_slice (CoactorGroupSpec_Members dst) (coactorMemberFromV1 <$> range_slice (ApiV1.CoactorGroupSpec_Members src));
     CoactorGroupSpec_Coordination := coordinationFromV1 (ApiV1.CoactorGroupSpec_Coordination src);
     CoactorGroupSpec_SessionAffinity := ApiV1.CoactorGroupSpec_SessionAffinity src |}.

Definition memberStatusToV1 (src : MemberStatus) : ApiV1.MemberStatus :=
  {| ApiV1.MemberStatus_Name := MemberStatus_Name src;
     ApiV1.MemberStatus_Role := MemberStatus_Role src;
     ApiV1.MemberStatus_State := MemberStatus_State src;
     ApiV1.MemberStatus_Ready := MemberStatus_Ready src |}.

Definition memberStatusFromV1 (src : ApiV1.MemberStatus) : MemberStatus :=
  {| MemberStatus_Name := ApiV1.MemberStatus_Name src;
     MemberStatus_Role := ApiV1.MemberStatus_Role src;
     MemberStatus_State := ApiV1.MemberStatus_State src;
     MemberStatus_Ready := ApiV1.MemberStatus_Ready src |}.

Definition groupStatusToV1 (src : CoactorGroupStatus) (dst : ApiV1.CoactorGroupStatus) : ApiV1.CoactorGroupStatus :=
  {| ApiV1.CoactorGroupStatus_Phase := CoactorGroupStatus_Phase src;
     ApiV1.CoactorGroupStatus_ActiveMemberCount := CoactorGroupStatus_ActiveMemberCount src;
     ApiV1.CoactorGroupStatus_MemberStatuses := append_slice (ApiV1.CoactorGroupStatus_MemberStatuses dst) (memberStatusToV1 <$> range_slice (CoactorGroupStatus_MemberStatuses src));
     ApiV1.CoactorGroupStatus_Conditions := CoactorGroupStatus_Conditions src |}.

Definition groupStatusFromV1 (src : ApiV1.CoactorGroupStatus) (dst : CoactorGroupStatus) : CoactorGroupStatus :=
  {| CoactorGroupStatus_Phase := ApiV1.CoactorGroupStatus_Phase src;
     CoactorGroupStatus_ActiveMemberCount := ApiV1.CoactorGroupStatus_ActiveMemberCount src;
     CoactorGroupStatus_MemberStatuses := append_slice (CoactorGroupStatus_MemberStatuses dst) (memberStatusFromV1 <$> range_slice (ApiV1.CoactorGroupStatus_MemberStatuses src));
     CoactorGroupStatus_Conditions := ApiV1.CoactorGroupStatus_Conditions src |}.

Definition CoactorGroup_ConvertTo (src : CoactorGroup) (dst : ApiV1.CoactorGroup) : ApiV1.CoactorGroup :=
  {| ApiV1.CoactorGroup_TypeMeta := ApiV1.CoactorGroup_TypeMeta dst;
     ApiV1.CoactorGroup_ObjectMeta := CoactorGroup_ObjectMeta src;
     ApiV1.CoactorGroup_Spec := groupSpecToV1 (CoactorGroup_Spec src) (ApiV1.CoactorGroup_Spec dst);
     ApiV1.CoactorGroup_Status := groupStatusToV1 (CoactorGroup_Status src) (ApiV1.CoactorGroup_Status dst) |}.

Definition CoactorGroup_ConvertFrom (src : ApiV1.CoactorGroup) (dst : CoactorGroup) : CoactorGroup :=
  {| CoactorGroup_TypeMeta := CoactorGroup_TypeMeta dst;
     CoactorGroup_ObjectMeta := ApiV1.CoactorGroup_ObjectMeta src;
     CoactorGroup_Spec := groupSpecFromV1 (ApiV1.CoactorGroup_Spec src) (CoactorGroup_Spec dst);
     CoactorGroup_Status := groupStatusFromV1 (ApiV1.CoactorGroup_Status src) (CoactorGroup_Status dst) |}.
End conversion.
