(* ===== verification/ConversionRoundTrip.v ===== *)
(** * Round trips between the API versions

    What a conversion to the other version and back preserves: exactly the
    objects described by the [stable] predicates below. *)

From S2P Require Import Prelude GoFloat K8s ApiV1 ApiV1alpha2 Conversion.

(** [from] undoes [to]. *)
Class Retract {A B} (to : A -> B) (from : B -> A) : Prop := retract a : from (to a) = a.

#[local] Instance fmap_retract {A B} (to : A -> B) (from : B -> A) :
  Retract to from -> Retract (fmap (M := option) to) (fmap (M := option) from).
Proof. intros H [a|]; [|done]. simpl. by rewrite (H a). Qed.

#[local] Instance map_slice_retract {A B} (to : A -> B) (from : B -> A) :
  Retract to from -> Retract (map_slice to) (map_slice from).
Proof. intros H s. rewrite map_slice_compose. by apply map_slice_id. Qed.

#[local] Instance deepCopyStringMap_retract : Retract deepCopyStringMap deepCopyStringMap.
Proof. by intros []. Qed.

(** Structs field by field; a pointer to a struct under its [fmap]. *)
Tactic Notation "solve_retract" reference(f) reference(g) :=
  let x := fresh "x" in
  intros x; unfold f, g;
  first
    [ solve [apply retract]
    | lazymatch type of x with
      | option _ => destruct x as [[]|]; [|reflexivity]; simpl; f_equal
      | _ => destruct x; simpl
      end;
      try (f_equal; first [reflexivity | apply retract]) ].

Section laws.
Context {K : K8s} {L : K8sLaws K}.

#[local] Instance reference_retract : Retract LocalObjectReference_DeepCopy LocalObjectReference_DeepCopy.
Proof. intros r. by rewrite !LocalObjectReference_copy. Qed.

#[local] Instance deepCopyEnv_retract : Retract deepCopyEnv deepCopyEnv.
Proof. unfold deepCopyEnv. apply map_slice_retract. intros e. by rewrite !EnvVar_copy. Qed.

(** ** Structs that convert without loss *)

#[local] Instance secretStoreRef_to : Retract secretStoreRefToV1 secretStoreRefFromV1.
Proof. solve_retract secretStoreRefToV1 secretStoreRefFromV1. Qed.
#[local] Instance secretStoreRef_from : Retract secretStoreRefFromV1 secretStoreRefToV1.
Proof. solve_retract secretStoreRefFromV1 secretStoreRefToV1. Qed.
#[local] Instance remoteRef_to : Retract remoteRefToV1 remoteRefFromV1.
Proof. solve_retract remoteRefToV1 remoteRefFromV1. Qed.
#[local] Instance remoteRef_from : Retract remoteRefFromV1 remoteRefToV1.
Proof. solve_retract remoteRefFromV1 remoteRefToV1. Qed.
#[local] Instance externalSecretData_to : Retract externalSecretDataToV1 externalSecretDataFromV1.
Proof. solve_retract externalSecretDataToV1 externalSecretDataFromV1. Qed.
#[local] Instance externalSecretData_from : Retract externalSecretDataFromV1 externalSecretDataToV1.
Proof. solve_retract externalSecretDataFromV1 externalSecretDataToV1. Qed.
#[local] Instance convertExternalSecret_to : Retract convertExternalSecretToV1 convertExternalSecretFromV1.
Proof. solve_retract convertExternalSecretToV1 convertExternalSecretFromV1. Qed.
#[local] Instance convertExternalSecret_from : Retract convertExternalSecretFromV1 convertExternalSecretToV1.
Proof. solve_retract convertExternalSecretFromV1 convertExternalSecretToV1. Qed.
#[local] Instance storage_to : Retract storageToV1 storageFromV1.
Proof. solve_retract storageToV1 storageFromV1. Qed.
#[local] Instance storage_from : Retract storageFromV1 storageToV1.
Proof. solve_retract storageFromV1 storageToV1. Qed.
#[local] Instance convertModelSpec_to : Retract convertModelSpecToV1 convertModelSpecFromV1.
Proof. solve_retract convertModelSpecToV1 convertModelSpecFromV1. Qed.
#[local] Instance convertModelSpec_from : Retract convertModelSpecFromV1 convertModelSpecToV1.
Proof. solve_retract convertModelSpecFromV1 convertModelSpecToV1. Qed.
#[local] Instance wva_to : Retract wvaToV1 wvaFromV1.
Proof. solve_retract wvaToV1 wvaFromV1. Qed.
#[local] Instance wva_from : Retract wvaFromV1 wvaToV1.
Proof. solve_retract wvaFromV1 wvaToV1. Qed.
#[local] Instance kedaFallback_to : Retract kedaFallbackToV1 kedaFallbackFromV1.
Proof. solve_retract kedaFallbackToV1 kedaFallbackFromV1. Qed.
#[local] Instance kedaFallback_from : Retract kedaFallbackFromV1 kedaFallbackToV1.
Proof. solve_retract kedaFallbackFromV1 kedaFallbackToV1. Qed.
#[local] Instance keda_to : Retract kedaToV1 kedaFromV1.
Proof. solve_retract kedaToV1 kedaFromV1. Qed.
#[local] Instance keda_from : Retract kedaFromV1 kedaToV1.
Proof. solve_retract kedaFromV1 kedaToV1. Qed.
#[local] Instance hpa_to : Retract hpaToV1 hpaFromV1.
Proof. solve_retract hpaToV1 hpaFromV1. Qed.
#[local] Instance hpa_from : Retract hpaFromV1 hpaToV1.
Proof. solve_retract hpaFromV1 hpaToV1. Qed.
#[local] Instance convertScaling_to : Retract convertScalingToV1 convertScalingFromV1.
Proof. solve_retract convertScalingToV1 convertScalingFromV1. Qed.
#[local] Instance convertScaling_from : Retract convertScalingFromV1 convertScalingToV1.
Proof. solve_retract convertScalingFromV1 convertScalingToV1. Qed.
#[local] Instance convertResilience_to : Retract convertResilienceToV1 convertResilienceFromV1.
Proof. solve_retract convertResilienceToV1 convertResilienceFromV1. Qed.
#[local] Instance convertResilience_from : Retract convertResilienceFromV1 convertResilienceToV1.
Proof. solve_retract convertResilienceFromV1 convertResilienceToV1. Qed.
#[local] Instance schedulerConfigRef_to : Retract schedulerConfigRefToV1 schedulerConfigRefFromV1.
Proof. solve_retract schedulerConfigRefToV1 schedulerConfigRefFromV1. Qed.
#[local] Instance schedulerConfigRef_from : Retract schedulerConfigRefFromV1 schedulerConfigRefToV1.
Proof. solve_retract schedulerConfigRefFromV1 schedulerConfigRefToV1. Qed.
#[local] Instance inferencePool_to : Retract inferencePoolToV1 inferencePoolFromV1.
Proof. solve_retract inferencePoolToV1 inferencePoolFromV1. Qed.
#[local] Instance inferencePool_from : Retract inferencePoolFromV1 inferencePoolToV1.
Proof. solve_retract inferencePoolFromV1 inferencePoolToV1. Qed.
#[local] Instance managedGateway_to : Retract managedGatewayToV1 managedGatewayFromV1.
Proof. solve_retract managedGatewayToV1 managedGatewayFromV1. Qed.
#[local] Instance managedGateway_from : Retract managedGatewayFromV1 managedGatewayToV1.
Proof. solve_retract managedGatewayFromV1 managedGatewayToV1. Qed.
#[local] Instance gatewayRef_to : Retract gatewayRefToV1 gatewayRefFromV1.
Proof. solve_retract gatewayRefToV1 gatewayRefFromV1. Qed.
#[local] Instance gatewayRef_from : Retract gatewayRefFromV1 gatewayRefToV1.
Proof. solve_retract gatewayRefFromV1 gatewayRefToV1. Qed.
#[local] Instance gateway_to : Retract gatewayToV1 gatewayFromV1.
Proof. solve_retract gatewayToV1 gatewayFromV1. Qed.
#[local] Instance gateway_from : Retract gatewayFromV1 gatewayToV1.
Proof. solve_retract gatewayFromV1 gatewayToV1. Qed.
#[local] Instance configReference_to : Retract configReferenceToV1 configReferenceFromV1.
Proof. solve_retract configReferenceToV1 configReferenceFromV1. Qed.
#[local] Instance configReference_from : Retract configReferenceFromV1 configReferenceToV1.
Proof. solve_retract configReferenceFromV1 configReferenceToV1. Qed.
#[local] Instance convertBaseRefs_to : Retract convertBaseRefsToV1 convertBaseRefsFromV1.
Proof. solve_retract convertBaseRefsToV1 convertBaseRefsFromV1. Qed.
#[local] Instance convertBaseRefs_from : Retract convertBaseRefsFromV1 convertBaseRefsToV1.
Proof. solve_retract convertBaseRefsFromV1 convertBaseRefsToV1. Qed.
#[local] Instance convertSLO_to : Retract convertSLOToV1 convertSLOFromV1.
Proof. solve_retract convertSLOToV1 convertSLOFromV1. Qed.
#[local] Instance convertSLO_from : Retract convertSLOFromV1 convertSLOToV1.
Proof. solve_retract convertSLOFromV1 convertSLOToV1. Qed.
#[local] Instance convertCanary_to : Retract convertCanaryToV1 convertCanaryFromV1.
Proof. solve_retract convertCanaryToV1 convertCanaryFromV1. Qed.
#[local] Instance convertCanary_from : Retract convertCanaryFromV1 convertCanaryToV1.
Proof. solve_retract convertCanaryFromV1 convertCanaryToV1. Qed.
#[local] Instance convertStatePlanes_to : Retract convertStatePlanesToV1 convertStatePlanesFromV1.
Proof. solve_retract convertStatePlanesToV1 convertStatePlanesFromV1. Qed.
#[local] Instance convertStatePlanes_from : Retract convertStatePlanesFromV1 convertStatePlanesToV1.
Proof. solve_retract convertStatePlanesFromV1 convertStatePlanesToV1. Qed.
#[local] Instance convertAdaptiveMetrics_to : Retract convertAdaptiveMetricsToV1 convertAdaptiveMetricsFromV1.
Proof. solve_retract convertAdaptiveMetricsToV1 convertAdaptiveMetricsFromV1. Qed.
#[local] Instance convertAdaptiveMetrics_from : Retract convertAdaptiveMetricsFromV1 convertAdaptiveMetricsToV1.
Proof. solve_retract convertAdaptiveMetricsFromV1 convertAdaptiveMetricsToV1. Qed.
#[local] Instance prefill_to : Retract prefillToV1 prefillFromV1.
Proof. solve_retract prefillToV1 prefillFromV1. Qed.
#[local] Instance prefill_from : Retract prefillFromV1 prefillToV1.
Proof. solve_retract prefillFromV1 prefillToV1. Qed.
#[local] Instance worker_to : Retract workerToV1 workerFromV1.
Proof. solve_retract workerToV1 workerFromV1. Qed.
#[local] Instance worker_from : Retract workerFromV1 workerToV1.
Proof. solve_retract workerFromV1 workerToV1. Qed.
#[local] Instance lmCache_to : Retract lmCacheToV1 lmCacheFromV1.
Proof. solve_retract lmCacheToV1 lmCacheFromV1. Qed.
#[local] Instance lmCache_from : Retract lmCacheFromV1 lmCacheToV1.
Proof. solve_retract lmCacheFromV1 lmCacheToV1. Qed.
#[local] Instance kvTransfer_to : Retract kvTransferToV1 kvTransferFromV1.
Proof. solve_retract kvTransferToV1 kvTransferFromV1. Qed.
#[local] Instance kvTransfer_from : Retract kvTransferFromV1 kvTransferToV1.
Proof. solve_retract kvTransferFromV1 kvTransferToV1. Qed.
#[local] Instance convertKVCache_to : Retract convertKVCacheToV1 convertKVCacheFromV1.
Proof. solve_retract convertKVCacheToV1 convertKVCacheFromV1. Qed.
#[local] Instance convertKVCache_from : Retract convertKVCacheFromV1 convertKVCacheToV1.
Proof. solve_retract convertKVCacheFromV1 convertKVCacheToV1. Qed.
#[local] Instance convertSpeculativeDecoding_to : Retract convertSpeculativeDecodingToV1 convertSpeculativeDecodingFromV1.
Proof. solve_retract convertSpeculativeDecodingToV1 convertSpeculativeDecodingFromV1. Qed.
#[local] Instance convertSpeculativeDecoding_from : Retract convertSpeculativeDecodingFromV1 convertSpeculativeDecodingToV1.
Proof. solve_retract convertSpeculativeDecodingFromV1 convertSpeculativeDecodingToV1. Qed.
#[local] Instance convertQuantization_to : Retract convertQuantizationToV1 convertQuantizationFromV1.
Proof. solve_retract convertQuantizationToV1 convertQuantizationFromV1. Qed.
#[local] Instance convertQuantization_from : Retract convertQuantizationFromV1 convertQuantizationToV1.
Proof. solve_retract convertQuantizationFromV1 convertQuantizationToV1. Qed.
#[local] Instance telemetrySink_to : Retract telemetrySinkToV1 telemetrySinkFromV1.
Proof. solve_retract telemetrySinkToV1 telemetrySinkFromV1. Qed.
#[local] Instance telemetrySink_from : Retract telemetrySinkFromV1 telemetrySinkToV1.
Proof. solve_retract telemetrySinkFromV1 telemetrySinkToV1. Qed.
#[local] Instance convertObservability_to : Retract convertObservabilityToV1 convertObservabilityFromV1.
Proof. solve_retract convertObservabilityToV1 convertObservabilityFromV1. Qed.
#[local] Instance convertObservability_from : Retract convertObservabilityFromV1 convertObservabilityToV1.
Proof. solve_retract convertObservabilityFromV1 convertObservabilityToV1. Qed.
#[local] Instance serviceStatus_to : Retract serviceStatusToV1 serviceStatusFromV1.
Proof. solve_retract serviceStatusToV1 serviceStatusFromV1. Qed.
#[local] Instance serviceStatus_from : Retract serviceStatusFromV1 serviceStatusToV1.
Proof. solve_retract serviceStatusFromV1 serviceStatusToV1. Qed.
#[local] Instance agentIdentity_to : Retract agentIdentityToV1 agentIdentityFromV1.
Proof. solve_retract agentIdentityToV1 agentIdentityFromV1. Qed.
#[local] Instance agentIdentity_from : Retract agentIdentityFromV1 agentIdentityToV1.
Proof. solve_retract agentIdentityFromV1 agentIdentityToV1. Qed.
#[local] Instance skillRef_to : Retract skillRefToV1 skillRefFromV1.
Proof. solve_retract skillRefToV1 skillRefFromV1. Qed.
#[local] Instance skillRef_from : Retract skillRefFromV1 skillRefToV1.
Proof. solve_retract skillRefFromV1 skillRefToV1. Qed.
#[local] Instance toolDefinition_to : Retract toolDefinitionToV1 toolDefinitionFromV1.
Proof. solve_retract toolDefinitionToV1 toolDefinitionFromV1. Qed.
#[local] Instance toolDefinition_from : Retract toolDefinitionFromV1 toolDefinitionToV1.
Proof. solve_retract toolDefinitionFromV1 toolDefinitionToV1. Qed.
#[local] Instance agentStatus_to : Retract agentStatusToV1 agentStatusFromV1.
Proof. solve_retract agentStatusToV1 agentStatusFromV1. Qed.
#[local] Instance agentStatus_from : Retract agentStatusFromV1 agentStatusToV1.
Proof. solve_retract agentStatusFromV1 agentStatusToV1. Qed.
#[local] Instance registryStatus_to : Retract registryStatusToV1 registryStatusFromV1.
Proof. solve_retract registryStatusToV1 registryStatusFromV1. Qed.
#[local] Instance registryStatus_from : Retract registryStatusFromV1 registryStatusToV1.
Proof. solve_retract registryStatusFromV1 registryStatusToV1. Qed.
#[local] Instance gateCriteria_to : Retract gateCriteriaToV1 gateCriteriaFromV1.
Proof. solve_retract gateCriteriaToV1 gateCriteriaFromV1. Qed.
#[local] Instance gateCriteria_from : Retract gateCriteriaFromV1 gateCriteriaToV1.
Proof. solve_retract gateCriteriaFromV1 gateCriteriaToV1. Qed.
#[local] Instance onboardingStage_to : Retract onboardingStageToV1 onboardingStageFromV1.
Proof. solve_retract onboardingStageToV1 onboardingStageFromV1. Qed.
#[local] Instance onboardingStage_from : Retract onboardingStageFromV1 onboardingStageToV1.
Proof. solve_retract onboardingStageFromV1 onboardingStageToV1. Qed.
#[local] Instance onboardingStatus_to : Retract onboardingStatusToV1 onboardingStatusFromV1.
Proof. solve_retract onboardingStatusToV1 onboardingStatusFromV1. Qed.
#[local] Instance onboardingStatus_from : Retract onboardingStatusFromV1 onboardingStatusToV1.
Proof. solve_retract onboardingStatusFromV1 onboardingStatusToV1. Qed.
#[local] Instance sessionStatus_to : Retract sessionStatusToV1 sessionStatusFromV1.
Proof. solve_retract sessionStatusToV1 sessionStatusFromV1. Qed.
#[local] Instance sessionStatus_from : Retract sessionStatusFromV1 sessionStatusToV1.
Proof. solve_retract sessionStatusFromV1 sessionStatusToV1. Qed.
#[local] Instance actorReminder_to : Retract actorReminderToV1 actorReminderFromV1.
Proof. solve_retract actorReminderToV1 actorReminderFromV1. Qed.
#[local] Instance actorReminder_from : Retract actorReminderFromV1 actorReminderToV1.
Proof. solve_retract actorReminderFromV1 actorReminderToV1. Qed.
#[local] Instance actorStatus_to : Retract actorStatusToV1 actorStatusFromV1.
Proof. solve_retract actorStatusToV1 actorStatusFromV1. Qed.
#[local] Instance actorStatus_from : Retract actorStatusFromV1 actorStatusToV1.
Proof. solve_retract actorStatusFromV1 actorStatusToV1. Qed.
#[local] Instance kvTransferConfig_to : Retract kvTransferConfigToV1 kvTransferConfigFromV1.
Proof. solve_retract kvTransferConfigToV1 kvTransferConfigFromV1. Qed.
#[local] Instance kvTransferConfig_from : Retract kvTransferConfigFromV1 kvTransferConfigToV1.
Proof. solve_retract kvTransferConfigFromV1 kvTransferConfigToV1. Qed.
#[local] Instance aggregationConfig_to : Retract aggregationConfigToV1 aggregationConfigFromV1.
Proof. solve_retract aggregationConfigToV1 aggregationConfigFromV1. Qed.
#[local] Instance aggregationConfig_from : Retract aggregationConfigFromV1 aggregationConfigToV1.
Proof. solve_retract aggregationConfigFromV1 aggregationConfigToV1. Qed.
#[local] Instance coordination_to : Retract coordinationToV1 coordinationFromV1.
Proof. solve_retract coordinationToV1 coordinationFromV1. Qed.
#[local] Instance coordination_from : Retract coordinationFromV1 coordinationToV1.
Proof. solve_retract coordinationFromV1 coordinationToV1. Qed.
#[local] Instance memberStatus_to : Retract memberStatusToV1 memberStatusFromV1.
Proof. solve_retract memberStatusToV1 memberStatusFromV1. Qed.
#[local] Instance memberStatus_from : Retract memberStatusFromV1 memberStatusToV1.
Proof. solve_retract memberStatusFromV1 memberStatusToV1. Qed.
(** ** Structs that lose something *)

Lemma deepCopyStrings_twice s : deepCopyStrings (deepCopyStrings s) = s <-> canonical s = true.
Proof. by destruct s as [[|a l]|]. Qed.

Lemma copy_slice_twice {A} (s : slice A) : copy_slice (copy_slice s) = s <-> canonical s = true.
Proof. rewrite copy_slice_idemp. apply copy_slice_id. Qed.

(** Appending all images to a nil slice, twice. *)
Lemma append_twice {A B} (f : A -> B) (g : B -> A) (s : slice A) :
  (forall a, a ∈ range_slice s -> g (f a) = a) ->
  (append_slice None (g <$> range_slice (append_slice None (f <$> range_slice s))) = s <-> canonical s = true).
Proof.
  intros H. destruct s as [[|a l]|]; [done| |done]. simpl. split; [done|]. intros _. f_equal. f_equal.
  - apply H. simpl. set_solver.
  - assert (forall x, x ∈ l -> g (f x) = x) as Hl by (intros x Hx; apply H; simpl; set_solver).
    clear H. induction l as [|x l IH]; simpl; [done|]. rewrite Hl by set_solver. f_equal. apply IH. set_solver.
Qed.

(** Two records agree when their fields do; used with [tauto] on the field
    equations. *)
Ltac by_fields := split; [intros H; injection H; intros; tauto | intros; f_equal; tauto].


Definition parallelism_stable (p : ParallelismSpec) : bool := canonical (ParallelismSpec_GPUDevices p).

Lemma parallelism_round_trip p :
  convertParallelismFromV1 (convertParallelismToV1 p) = p <-> default true (parallelism_stable <$> p) = true.
Proof.
  destruct p as [[]|]; [|done]. unfold parallelism_stable. simpl. rewrite <- copy_slice_twice.
  split; [congruence|]. by intros ->.
Qed.

Definition tools_stable (t : ToolSurface) : bool :=
  canonical (ToolSurface_AllowedAPIs t) && canonical (ToolSurface_AllowedCIDRs t).

Lemma tools_round_trip t :
  convertToolSurfaceFromV1 (convertToolSurfaceToV1 t) = t <-> default true (tools_stable <$> t) = true.
Proof.
  destruct t as [[]|]; [|done]. unfold tools_stable. simpl. rewrite andb_true_iff, <- !copy_slice_twice.
  split; [by intros [= -> ->]|]. by intros [-> ->].
Qed.

Definition http_route_stable (r : HTTPRouteSpec) : bool := canonical (HTTPRouteSpec_Hostnames r).

(** The configuration of the scheduler survives exactly by reference. *)
Definition scheduler_stable (s : SchedulerSpec) : bool :=
  match SchedulerSpec_Config s with
  | None => true
  | Some c => match SchedulerConfigSpec_Inline c, SchedulerConfigSpec_Ref c with None, Some _ => true | _, _ => false end
  end.

Definition router_stable (r : RouterSpec) : bool :=
  default true (http_route_stable <$> RouteSpec_HTTPRoute (RouterSpec_Route r))
  && default true (scheduler_stable <$> RouterSpec_Scheduler r).

Lemma http_route_round_trip r :
  httpRouteFromV1 <$> (httpRouteToV1 <$> r) = r <-> default true (http_route_stable <$> r) = true.
Proof.
  destruct r as [[h re]|]; [|done]. unfold http_route_stable, httpRouteFromV1, httpRouteToV1. simpl.
  rewrite <- deepCopyStrings_twice, (retract (to := convertResilienceToV1) re).
  split; [congruence|]. by intros ->.
Qed.

Lemma scheduler_round_trip s :
  convertSchedulerFromV1 <$> (convertSchedulerToV1 <$> s) = s <-> default true (scheduler_stable <$> s) = true.
Proof.
  destruct s as [[[sel] c rep]|]; [|done]. unfold scheduler_stable, convertSchedulerFromV1, convertSchedulerToV1. simpl.
  destruct c as [[[i|] [[n k]|]]|]; simpl; (split; [first [done | by intros [=]]|done]).
Qed.

Lemma router_round_trip r : convertRouterFromV1 (convertRouterToV1 r) = r <-> router_stable r = true.
Proof.
  destruct r as [g [h] s]. unfold router_stable, convertRouterFromV1, convertRouterToV1, routeFromV1, routeToV1. simpl.
  rewrite andb_true_iff, <- http_route_round_trip, <- scheduler_round_trip, (retract (to := gatewayToV1) g).
  split; [by intros [= -> ->]|]. by intros [-> ->].
Qed.


Definition parallelism_stable_v1 (p : ApiV1.ParallelismSpec) : bool := canonical (ApiV1.ParallelismSpec_GPUDevices p).

Lemma parallelism_round_trip_v1 p :
  convertParallelismToV1 (convertParallelismFromV1 p) = p <-> default true (parallelism_stable_v1 <$> p) = true.
Proof.
  destruct p as [[]|]; [|done]. unfold parallelism_stable_v1. simpl. rewrite <- copy_slice_twice.
  split; [congruence|]. by intros ->.
Qed.

Definition tools_stable_v1 (t : ApiV1.ToolSurface) : bool :=
  canonical (ApiV1.ToolSurface_AllowedAPIs t) && canonical (ApiV1.ToolSurface_AllowedCIDRs t).

Lemma tools_round_trip_v1 t :
  convertToolSurfaceToV1 (convertToolSurfaceFromV1 t) = t <-> default true (tools_stable_v1 <$> t) = true.
Proof.
  destruct t as [[]|]; [|done]. unfold tools_stable_v1. simpl. rewrite andb_true_iff, <- !copy_slice_twice.
  split; [by intros [= -> ->]|]. by intros [-> ->].
Qed.

Definition http_route_stable_v1 (r : ApiV1.HTTPRouteSpec) : bool := canonical (ApiV1.HTTPRouteSpec_Hostnames r).

(** The configuration of the scheduler survives exactly by reference. *)
Definition scheduler_stable_v1 (s : ApiV1.SchedulerSpec) : bool :=
  match ApiV1.SchedulerSpec_Config s with
  | None => true
  | Some c => match ApiV1.SchedulerConfigSpec_Inline c, ApiV1.SchedulerConfigSpec_Ref c with None, Some _ => true | _, _ => false end
  end.

Definition router_stable_v1 (r : ApiV1.RouterSpec) : bool :=
  default true (http_route_stable_v1 <$> ApiV1.RouteSpec_HTTPRoute (ApiV1.RouterSpec_Route r))
  && default true (scheduler_stable_v1 <$> ApiV1.RouterSpec_Scheduler r).

Lemma http_route_round_trip_v1 r :
  httpRouteToV1 <$> (httpRouteFromV1 <$> r) = r <-> default true (http_route_stable_v1 <$> r) = true.
Proof.
  destruct r as [[h re]|]; [|done]. unfold http_route_stable_v1, httpRouteToV1, httpRouteFromV1. simpl.
  rewrite <- deepCopyStrings_twice, (retract (to := convertResilienceFromV1) re).
  split; [congruence|]. by intros ->.
Qed.

Lemma scheduler_round_trip_v1 s :
  convertSchedulerToV1 <$> (convertSchedulerFromV1 <$> s) = s <-> default true (scheduler_stable_v1 <$> s) = true.
Proof.
  destruct s as [[[sel] c rep]|]; [|done]. unfold scheduler_stable_v1, convertSchedulerToV1, convertSchedulerFromV1. simpl.
  destruct c as [[[i|] [[n k]|]]|]; simpl; (split; [first [done | by intros [=]]|done]).
Qed.

Lemma router_round_trip_v1 r : convertRouterToV1 (convertRouterFromV1 r) = r <-> router_stable_v1 r = true.
Proof.
  destruct r as [g [h] s]. unfold router_stable_v1, convertRouterToV1, convertRouterFromV1, routeToV1, routeFromV1. simpl.
  rewrite andb_true_iff, <- http_route_round_trip_v1, <- scheduler_round_trip_v1, (retract (to := gatewayFromV1) g).
  split; [by intros [= -> ->]|]. by intros [-> ->].
Qed.


(** ** LLMInferenceService *)

Definition service_stable (x : LLMInferenceService) : bool :=
  let s := LLMInferenceService_Spec x in
  default true (parallelism_stable <$> LLMInferenceServiceSpec_Parallelism s)
  && router_stable (LLMInferenceServiceSpec_Router s)
  && default true (tools_stable <$> LLMInferenceServiceSpec_ToolSurface s).

(** Projections of the experimental fields only. *)
Ltac experimental_cbn :=
  cbn [convertExperimentalFromV1 LLMInferenceServiceSpec_Prefill LLMInferenceServiceSpec_Worker LLMInferenceServiceSpec_KVCache
    LLMInferenceServiceSpec_SpeculativeDecoding LLMInferenceServiceSpec_Quantization LLMInferenceServiceSpec_Engine
    LLMInferenceServiceSpec_ToolSurface LLMInferenceServiceSpec_Observability
    ApiV1.ExperimentalSpec_Prefill ApiV1.ExperimentalSpec_Worker ApiV1.ExperimentalSpec_KVCache
    ApiV1.ExperimentalSpec_SpeculativeDecoding ApiV1.ExperimentalSpec_Quantization ApiV1.ExperimentalSpec_Engine
    ApiV1.ExperimentalSpec_ToolSurface ApiV1.ExperimentalSpec_Observability].

Lemma keep_None {A} (x : option A) : keep x None = x.
Proof. by destruct x. Qed.

(** Projections of the two objects only. *)
Ltac service_cbn :=
  cbn [LLMInferenceService_Spec LLMInferenceService_TypeMeta LLMInferenceService_ObjectMeta LLMInferenceService_Status
    ApiV1.LLMInferenceService_Spec ApiV1.LLMInferenceService_TypeMeta ApiV1.LLMInferenceService_ObjectMeta ApiV1.LLMInferenceService_Status
    ApiV1.zero_LLMInferenceService zero_LLMInferenceService].

(** The eight experimental fields through the hub. *)
Lemma experimental_round_trip s d :
  LLMInferenceServiceSpec_Prefill d = None -> LLMInferenceServiceSpec_Worker d = None -> LLMInferenceServiceSpec_KVCache d = None ->
  LLMInferenceServiceSpec_SpeculativeDecoding d = None -> LLMInferenceServiceSpec_Quantization d = None ->
  LLMInferenceServiceSpec_Engine d = "" -> LLMInferenceServiceSpec_ToolSurface d = None -> LLMInferenceServiceSpec_Observability d = None ->
  let r := convertExperimentalFromV1 (convertExperimentalToV1 s None) d in
  LLMInferenceServiceSpec_Prefill r = LLMInferenceServiceSpec_Prefill s
  /\ LLMInferenceServiceSpec_Worker r = LLMInferenceServiceSpec_Worker s
  /\ LLMInferenceServiceSpec_KVCache r = LLMInferenceServiceSpec_KVCache s
  /\ LLMInferenceServiceSpec_SpeculativeDecoding r = LLMInferenceServiceSpec_SpeculativeDecoding s
  /\ LLMInferenceServiceSpec_Quantization r = LLMInferenceServiceSpec_Quantization s
  /\ LLMInferenceServiceSpec_Engine r = LLMInferenceServiceSpec_Engine s
  /\ LLMInferenceServiceSpec_ToolSurface r = convertToolSurfaceFromV1 (convertToolSurfaceToV1 (LLMInferenceServiceSpec_ToolSurface s))
  /\ LLMInferenceServiceSpec_Observability r = LLMInferenceServiceSpec_Observability s.
Proof.
  intros Hp Hw Hk Hs Hq He Ht Ho r. subst r. unfold convertExperimentalToV1. destruct (no_experimental s) eqn:En.
  - unfold no_experimental in En. simpl. rewrite Hp, Hw, Hk, Hs, Hq, He, Ht, Ho. repeat case_match; try done.
    apply bool_decide_eq_true in En. by rewrite En.
  - experimental_cbn.
    rewrite Hp, Hw, Hk, !keep_None. split_and!; first [reflexivity | apply retract].
Qed.

Lemma spec_ext (a b : LLMInferenceServiceSpec) :
  LLMInferenceServiceSpec_Model a = LLMInferenceServiceSpec_Model b ->
  LLMInferenceServiceSpec_Replicas a = LLMInferenceServiceSpec_Replicas b ->
  LLMInferenceServiceSpec_Parallelism a = LLMInferenceServiceSpec_Parallelism b ->
  LLMInferenceServiceSpec_Scaling a = LLMInferenceServiceSpec_Scaling b ->
  LLMInferenceServiceSpec_Template a = LLMInferenceServiceSpec_Template b ->
  LLMInferenceServiceSpec_Prefill a = LLMInferenceServiceSpec_Prefill b ->
  LLMInferenceServiceSpec_Worker a = LLMInferenceServiceSpec_Worker b ->
  LLMInferenceServiceSpec_Router a = LLMInferenceServiceSpec_Router b ->
  LLMInferenceServiceSpec_BaseRefs a = LLMInferenceServiceSpec_BaseRefs b ->
  LLMInferenceServiceSpec_AutoOptimize a = LLMInferenceServiceSpec_AutoOptimize b ->
  LLMInferenceServiceSpec_AllowedTenants a = LLMInferenceServiceSpec_AllowedTenants b ->
  LLMInferenceServiceSpec_CostAllocationTags a = LLMInferenceServiceSpec_CostAllocationTags b ->
  LLMInferenceServiceSpec_SLO a = LLMInferenceServiceSpec_SLO b ->
  LLMInferenceServiceSpec_Canary a = LLMInferenceServiceSpec_Canary b ->
  LLMInferenceServiceSpec_SpeculativeDecoding a = LLMInferenceServiceSpec_SpeculativeDecoding b ->
  LLMInferenceServiceSpec_KVCache a = LLMInferenceServiceSpec_KVCache b ->
  LLMInferenceServiceSpec_Quantization a = LLMInferenceServiceSpec_Quantization b ->
  LLMInferenceServiceSpec_Engine a = LLMInferenceServiceSpec_Engine b ->
  LLMInferenceServiceSpec_ToolSurface a = LLMInferenceServiceSpec_ToolSurface b ->
  LLMInferenceServiceSpec_Observability a = LLMInferenceServiceSpec_Observability b ->
  a = b.
Proof. destruct a, b. simpl. intros. by subst. Qed.

(** The experimental fields are the only ones [convertExperimentalFromV1]
    changes. *)
Lemma experimental_frame e d :
  let r := convertExperimentalFromV1 e d in
  LLMInferenceServiceSpec_Model r = LLMInferenceServiceSpec_Model d
  /\ LLMInferenceServiceSpec_Replicas r = LLMInferenceServiceSpec_Replicas d
  /\ LLMInferenceServiceSpec_Parallelism r = LLMInferenceServiceSpec_Parallelism d
  /\ LLMInferenceServiceSpec_Scaling r = LLMInferenceServiceSpec_Scaling d
  /\ LLMInferenceServiceSpec_Template r = LLMInferenceServiceSpec_Template d
  /\ LLMInferenceServiceSpec_Router r = LLMInferenceServiceSpec_Router d
  /\ LLMInferenceServiceSpec_BaseRefs r = LLMInferenceServiceSpec_BaseRefs d
  /\ LLMInferenceServiceSpec_AutoOptimize r = LLMInferenceServiceSpec_AutoOptimize d
  /\ LLMInferenceServiceSpec_AllowedTenants r = LLMInferenceServiceSpec_AllowedTenants d
  /\ LLMInferenceServiceSpec_CostAllocationTags r = LLMInferenceServiceSpec_CostAllocationTags d
  /\ LLMInferenceServiceSpec_SLO r = LLMInferenceServiceSpec_SLO d
  /\ LLMInferenceServiceSpec_Canary r = LLMInferenceServiceSpec_Canary d.
Proof. by destruct e. Qed.

(** What comes back of a specification: three fields may differ. *)
Lemma spec_through_hub s :
  serviceSpecFromV1 (serviceSpecToV1 s ApiV1.zero_LLMInferenceServiceSpec) zero_LLMInferenceServiceSpec =
  {| LLMInferenceServiceSpec_Model := LLMInferenceServiceSpec_Model s;
     LLMInferenceServiceSpec_Replicas := LLMInferenceServiceSpec_Replicas s;
     LLMInferenceServiceSpec_Parallelism := convertParallelismFromV1 (convertParallelismToV1 (LLMInferenceServiceSpec_Parallelism s));
     LLMInferenceServiceSpec_Scaling := LLMInferenceServiceSpec_Scaling s;
     LLMInferenceServiceSpec_Template := LLMInferenceServiceSpec_Template s;
     LLMInferenceServiceSpec_Prefill := LLMInferenceServiceSpec_Prefill s;
     LLMInferenceServiceSpec_Worker := LLMInferenceServiceSpec_Worker s;
     LLMInferenceServiceSpec_Router := convertRouterFromV1 (convertRouterToV1 (LLMInferenceServiceSpec_Router s));
     LLMInferenceServiceSpec_BaseRefs := LLMInferenceServiceSpec_BaseRefs s;
     LLMInferenceServiceSpec_AutoOptimize := LLMInferenceServiceSpec_AutoOptimize s;
     LLMInferenceServiceSpec_AllowedTenants := LLMInferenceServiceSpec_AllowedTenants s;
     LLMInferenceServiceSpec_CostAllocationTags := LLMInferenceServiceSpec_CostAllocationTags s;
     LLMInferenceServiceSpec_SLO := LLMInferenceServiceSpec_SLO s;
     LLMInferenceServiceSpec_Canary := LLMInferenceServiceSpec_Canary s;
     LLMInferenceServiceSpec_SpeculativeDecoding := LLMInferenceServiceSpec_SpeculativeDecoding s;
     LLMInferenceServiceSpec_KVCache := LLMInferenceServiceSpec_KVCache s;
     LLMInferenceServiceSpec_Quantization := LLMInferenceServiceSpec_Quantization s;
     LLMInferenceServiceSpec_Engine := LLMInferenceServiceSpec_Engine s;
     LLMInferenceServiceSpec_ToolSurface := convertToolSurfaceFromV1 (convertToolSurfaceToV1 (LLMInferenceServiceSpec_ToolSurface s));
     LLMInferenceServiceSpec_Observability := LLMInferenceServiceSpec_Observability s |}.
Proof.
  unfold serviceSpecFromV1.
  match goal with |- convertExperimentalFromV1 ?e ?d = _ =>
    destruct (experimental_round_trip s d) as (E1 & E2 & E3 & E4 & E5 & E6 & E7 & E8); try reflexivity;
    destruct (experimental_frame e d) as (F1 & F2 & F3 & F4 & F5 & F6 & F7 & F8 & F9 & F10 & F11 & F12)
  end.
  apply spec_ext;
    [etrans; [exact F1|exact (retract (to := convertModelSpecToV1) (LLMInferenceServiceSpec_Model s))]|
     exact F2|exact F3|
     etrans; [exact F4|exact (retract (to := convertScalingToV1) (LLMInferenceServiceSpec_Scaling s))]|
     exact F5|exact E1|exact E2|exact F6|
     etrans; [exact F7|exact (retract (to := convertBaseRefsToV1) (LLMInferenceServiceSpec_BaseRefs s))]|
     exact F8|exact F9|exact F10|
     etrans; [exact F11|exact (retract (to := convertSLOToV1) (LLMInferenceServiceSpec_SLO s))]|
     
     etrans; [exact F12|exact (retract (to := convertCanaryToV1) (LLMInferenceServiceSpec_Canary s))]|
     exact E4|exact E3|exact E5|exact E6|exact E7|exact E8].
Qed.

(** C28. A service converted to v1 and back to v1alpha2, the type metadata being
    set by the caller, is the one submitted exactly when its scheduler, if it
    has a configuration, has one by reference and none inline, and none of the
    lists of GPU devices, route host names, allowed APIs and allowed CIDRs is
    there but empty.  An inline configuration is dropped, and so is a
    configuration with neither an inline part nor a reference. *)
Theorem service_round_trip x :
  LLMInferenceService_ConvertFrom (LLMInferenceService_ConvertTo x ApiV1.zero_LLMInferenceService)
    (mkLLMInferenceService (LLMInferenceService_TypeMeta x) zero_ObjectMeta zero_LLMInferenceServiceSpec zero_LLMInferenceServiceStatus) = x
  <-> service_stable x = true.
Proof.
  destruct x as [tm om s st]. unfold service_stable, LLMInferenceService_ConvertFrom, LLMInferenceService_ConvertTo.
  service_cbn.
  rewrite (retract (to := serviceStatusToV1) st), spec_through_hub.
  rewrite !andb_true_iff, <- parallelism_round_trip, <- router_round_trip, <- tools_round_trip. destruct s. simpl.
  split; [intros H; injection H; auto|]. by intros [[-> ->] ->].
Qed.


(** ** The other way round *)

Definition experimental_empty (e : ApiV1.ExperimentalSpec) : bool :=
  match ApiV1.ExperimentalSpec_Prefill e, ApiV1.ExperimentalSpec_Worker e, ApiV1.ExperimentalSpec_KVCache e,
        ApiV1.ExperimentalSpec_SpeculativeDecoding e, ApiV1.ExperimentalSpec_Quantization e,
        ApiV1.ExperimentalSpec_ToolSurface e, ApiV1.ExperimentalSpec_Observability e with
  | None, None, None, None, None, None, None => ApiV1.ExperimentalSpec_Engine e ==? ""
  | _, _, _, _, _, _, _ => false
  end.

Definition experimental_stable (e : ApiV1.ExperimentalSpec) : bool :=
  negb (experimental_empty e) && default true (tools_stable_v1 <$> ApiV1.ExperimentalSpec_ToolSurface e).

Definition hub_stable (x : ApiV1.LLMInferenceService) : bool :=
  let s := ApiV1.LLMInferenceService_Spec x in
  default true (parallelism_stable_v1 <$> ApiV1.LLMInferenceServiceSpec_Parallelism s)
  && router_stable_v1 (ApiV1.LLMInferenceServiceSpec_Router s)
  && default true (experimental_stable <$> ApiV1.LLMInferenceServiceSpec_Experimental s).

(** An experimental section without content is not restored. *)
Lemma experimental_through_spoke e d :
  no_experimental d = true ->
  convertExperimentalToV1 (convertExperimentalFromV1 e d) None = e <-> default true (experimental_stable <$> e) = true.
Proof.
  intros Hd. destruct e as [e|]; [|unfold convertExperimentalToV1; simpl; by rewrite Hd].
  unfold no_experimental in Hd. repeat case_match; try done.
  change (default true (experimental_stable <$> Some e)) with (experimental_stable e).
  destruct e as [pf wk kv sd qu en ts ob].
  set (r := convertExperimentalFromV1 _ d). unfold experimental_stable, experimental_empty. experimental_cbn.
  assert (no_experimental r = match pf, wk, kv, sd, qu, ts, ob with
    | None, None, None, None, None, None, None => en ==? "" | _, _, _, _, _, _, _ => false end) as Hr.
  { subst r. unfold no_experimental, convertExperimentalFromV1. simpl.
    rewrite H, H0, H1, !keep_None. by destruct pf, wk, kv, sd, qu, ts, ob. }
  unfold convertExperimentalToV1. rewrite Hr.
  match goal with |- context [negb ?b] => destruct b eqn:Eb end; [by split|]. cbn [negb andb].
  rewrite <- tools_round_trip_v1. subst r. experimental_cbn. rewrite H, H0, H1, !keep_None.
  rewrite (retract (to := fmap prefillFromV1) pf), (retract (to := fmap workerFromV1) wk).
  pose proof (retract (to := convertKVCacheFromV1) (from := convertKVCacheToV1) kv) as Hk.
  pose proof (retract (to := convertSpeculativeDecodingFromV1) (from := convertSpeculativeDecodingToV1) sd) as Hs.
  pose proof (retract (to := convertQuantizationFromV1) (from := convertQuantizationToV1) qu) as Hq.
  pose proof (retract (to := convertObservabilityFromV1) (from := convertObservabilityToV1) ob) as Ho.
  rewrite Hk, Hs, Hq, Ho. split; [intros [= Ht]; exact Ht|]. intros Ht. by rewrite Ht.
Qed.

(** Projections of the v1 specification, and of the two objects. *)
Ltac hub_spec_cbn :=
  cbn [ApiV1.LLMInferenceServiceSpec_Model ApiV1.LLMInferenceServiceSpec_Replicas ApiV1.LLMInferenceServiceSpec_Parallelism
    ApiV1.LLMInferenceServiceSpec_Scaling ApiV1.LLMInferenceServiceSpec_Template ApiV1.LLMInferenceServiceSpec_Router
    ApiV1.LLMInferenceServiceSpec_BaseRefs ApiV1.LLMInferenceServiceSpec_AutoOptimize ApiV1.LLMInferenceServiceSpec_AllowedTenants
    ApiV1.LLMInferenceServiceSpec_CostAllocationTags ApiV1.LLMInferenceServiceSpec_SLO ApiV1.LLMInferenceServiceSpec_Canary
    ApiV1.LLMInferenceServiceSpec_Experimental
    LLMInferenceServiceSpec_Model LLMInferenceServiceSpec_Replicas LLMInferenceServiceSpec_Parallelism
    LLMInferenceServiceSpec_Scaling LLMInferenceServiceSpec_Template LLMInferenceServiceSpec_Router
    LLMInferenceServiceSpec_BaseRefs LLMInferenceServiceSpec_AutoOptimize LLMInferenceServiceSpec_AllowedTenants
    LLMInferenceServiceSpec_CostAllocationTags LLMInferenceServiceSpec_SLO LLMInferenceServiceSpec_Canary].

(** What comes back of a v1 specification. *)
Lemma spec_through_spoke s :
  serviceSpecToV1 (serviceSpecFromV1 s zero_LLMInferenceServiceSpec) ApiV1.zero_LLMInferenceServiceSpec = s
  <-> default true (parallelism_stable_v1 <$> ApiV1.LLMInferenceServiceSpec_Parallelism s) = true
      /\ router_stable_v1 (ApiV1.LLMInferenceServiceSpec_Router s) = true
      /\ default true (experimental_stable <$> ApiV1.LLMInferenceServiceSpec_Experimental s) = true.
Proof.
  rewrite <- parallelism_round_trip_v1, <- router_round_trip_v1. unfold serviceSpecFromV1.
  match goal with |- context [convertExperimentalFromV1 ?e ?d] =>
    pose proof (experimental_through_spoke e d eq_refl) as He;
    destruct (experimental_frame e d) as (F1 & F2 & F3 & F4 & F5 & F6 & F7 & F8 & F9 & F10 & F11 & F12);
    set (r := convertExperimentalFromV1 e d) in *
  end.
  rewrite <- He. clearbody r. clear He. unfold serviceSpecToV1. rewrite F1, F2, F3, F4, F5, F6, F7, F8, F9, F10, F11, F12. clear F1 F2 F3 F4 F5 F6 F7 F8 F9 F10 F11 F12.
  change (ApiV1.LLMInferenceServiceSpec_Experimental ApiV1.zero_LLMInferenceServiceSpec) with (@None ApiV1.ExperimentalSpec).
  generalize (convertExperimentalToV1 r None). intros ex'.
  destruct s as [mo re pa sc te ro ba au al co sl ca ex]. hub_spec_cbn.
  pose proof (retract (to := convertModelSpecFromV1) (from := convertModelSpecToV1) mo) as Hm.
  pose proof (retract (to := convertScalingFromV1) (from := convertScalingToV1) sc) as Hs.
  pose proof (retract (to := convertBaseRefsFromV1) (from := convertBaseRefsToV1) ba) as Hb.
  pose proof (retract (to := convertSLOFromV1) (from := convertSLOToV1) sl) as Ho.
  pose proof (retract (to := convertCanaryFromV1) (from := convertCanaryToV1) ca) as Hc.
  rewrite Hm, Hs, Hb, Ho, Hc. split; [intros H; injection H; auto|]. by intros (-> & -> & ->).
Qed.

(** A service read as v1alpha2 and written back as v1 is the stored one
    exactly when it is stable, which asks in addition that the experimental
    section is absent or holds something. *)
Theorem hub_round_trip x :
  LLMInferenceService_ConvertTo (LLMInferenceService_ConvertFrom x zero_LLMInferenceService)
    (ApiV1.mkLLMInferenceService (ApiV1.LLMInferenceService_TypeMeta x) zero_ObjectMeta
       ApiV1.zero_LLMInferenceServiceSpec ApiV1.zero_LLMInferenceServiceStatus) = x
  <-> hub_stable x = true.
Proof.
  destruct x as [tm om s st]. unfold hub_stable, LLMInferenceService_ConvertFrom, LLMInferenceService_ConvertTo.
  service_cbn. rewrite !andb_true_iff. pose proof (spec_through_spoke s) as Hs.
  pose proof (retract (to := serviceStatusFromV1) (from := serviceStatusToV1) st) as Ht. rewrite Ht.
  split; [intros [= E]; apply Hs in E; tauto|]. intros [[H1 H2] H3]. by rewrite (proj2 Hs) by done.
Qed.

(** ** The other kinds *)

(** [append_twice] for elements that may change. *)
Lemma append_twice_iff {A B} (f : A -> B) (g : B -> A) (ok : A -> bool) (s : slice A) :
  (forall a, g (f a) = a <-> ok a = true) ->
  append_slice None (g <$> range_slice (append_slice None (f <$> range_slice s))) = s
  <-> canonical s && forallb ok (range_slice s) = true.
Proof.
  intros H. destruct s as [[|a l]|]; [done| |done]. simpl.
  assert (g <$> (f <$> l) = l <-> forallb ok l = true) as Hl.
  { induction l as [|x l IH]; [done|]. simpl. rewrite andb_true_iff, <- H, <- IH. split; [intros [= E1 E2]; by split|]. intros [E1 E2]. rewrite E1. f_equal. exact E2. }
  rewrite andb_true_iff, <- H, <- Hl. split; [intros [= E1 E2]; by split|]. intros [E1 E2]. rewrite E1. do 2 f_equal. exact E2.
Qed.

(** The lists that are rebuilt entry by entry come back unless they are empty
    without being nil. *)
#[local] Arguments append_slice : simpl never.
#[local] Arguments copy_slice : simpl never.
#[local] Arguments range_slice : simpl never.

Definition agent_stable (x : Agent) : bool :=
  let s := Agent_Spec x in canonical (AgentConfiguration_Skills s) && canonical (AgentConfiguration_Tools s).

Lemma agent_round_trip x :
  Agent_ConvertFrom (Agent_ConvertTo x ApiV1.zero_Agent)
    (mkAgent (Agent_TypeMeta x) zero_ObjectMeta zero_AgentConfiguration zero_AgentStatus) = x
  <-> agent_stable x = true.
Proof.
  destruct x as [tm om [[] mr sk tl mt te] []]. unfold agent_stable, Agent_ConvertFrom, Agent_ConvertTo.
  cbn [Agent_Spec AgentConfiguration_Skills AgentConfiguration_Tools]. rewrite andb_true_iff.
  rewrite <- (append_twice skillRefToV1 skillRefFromV1 sk), <- (append_twice toolDefinitionToV1 toolDefinitionFromV1 tl)
    by (intros; apply retract).
  unfold agentConfigurationFromV1, agentConfigurationToV1. simpl. split; [intros [= E1 E2]; by split|]. by intros [-> ->].
Qed.

Definition registry_stable (x : SkillRegistry) : bool :=
  let s := SkillRegistry_Spec x in
  canonical (SkillRegistrySpec_Entries s)
  && forallb (fun e => canonical (SkillEntry_Capabilities e)) (range_slice (SkillRegistrySpec_Entries s)).

Lemma entry_round_trip e : skillEntryFromV1 (skillEntryToV1 e) = e <-> canonical (SkillEntry_Capabilities e) = true.
Proof.
  destruct e. unfold skillEntryFromV1, skillEntryToV1. simpl. rewrite <- copy_slice_twice. split; [congruence|]. by intros ->.
Qed.

Lemma registry_round_trip x :
  SkillRegistry_ConvertFrom (SkillRegistry_ConvertTo x ApiV1.zero_SkillRegistry)
    (mkSkillRegistry (SkillRegistry_TypeMeta x) zero_ObjectMeta zero_SkillRegistrySpec zero_SkillRegistryStatus) = x
  <-> registry_stable x = true.
Proof.
  destruct x as [tm om [es] []]. unfold registry_stable, SkillRegistry_ConvertFrom, SkillRegistry_ConvertTo.
  cbn [SkillRegistry_Spec SkillRegistrySpec_Entries].
  rewrite <- (append_twice_iff skillEntryToV1 skillEntryFromV1) by apply entry_round_trip.
  unfold registrySpecFromV1, registrySpecToV1. simpl. split; [congruence|]. by intros ->.
Qed.

Definition onboarding_stable (x : ModelOnboarding) : bool := canonical (ModelOnboardingSpec_Stages (ModelOnboarding_Spec x)).

Lemma onboarding_round_trip x :
  ModelOnboarding_ConvertFrom (ModelOnboarding_ConvertTo x ApiV1.zero_ModelOnboarding)
    (mkModelOnboarding (ModelOnboarding_TypeMeta x) zero_ObjectMeta zero_ModelOnboardingSpec zero_ModelOnboardingStatus) = x
  <-> onboarding_stable x = true.
Proof.
  destruct x as [tm om [mr st rb] []]. unfold onboarding_stable, ModelOnboarding_ConvertFrom, ModelOnboarding_ConvertTo.
  cbn [ModelOnboarding_Spec ModelOnboardingSpec_Stages].
  rewrite <- (append_twice onboardingStageToV1 onboardingStageFromV1 st) by (intros; apply retract).
  unfold onboardingSpecFromV1, onboardingSpecToV1. simpl. split; [congruence|]. by intros ->.
Qed.

Lemma session_round_trip x :
  InferenceSession_ConvertFrom (InferenceSession_ConvertTo x ApiV1.zero_InferenceSession)
    (mkInferenceSession (InferenceSession_TypeMeta x) zero_ObjectMeta zero_InferenceSessionSpec zero_InferenceSessionStatus) = x.
Proof. by destruct x as [tm om [mr ttl mt ar cr [m|]] []]. Qed.

Definition actor_stable (x : InferenceActor) : bool := canonical (InferenceActorSpec_Reminders (InferenceActor_Spec x)).

Lemma actor_round_trip x :
  InferenceActor_ConvertFrom (InferenceActor_ConvertTo x ApiV1.zero_InferenceActor)
    (mkInferenceActor (InferenceActor_TypeMeta x) zero_ObjectMeta zero_InferenceActorSpec zero_InferenceActorStatus) = x
  <-> actor_stable x = true.
Proof.
  destruct x as [tm om [ty mr ar it mc re rm ss] []]. unfold actor_stable, InferenceActor_ConvertFrom, InferenceActor_ConvertTo.
  cbn [InferenceActor_Spec InferenceActorSpec_Reminders].
  rewrite <- (append_twice actorReminderToV1 actorReminderFromV1 rm) by (intros; apply retract).
  unfold actorSpecFromV1, actorSpecToV1. simpl. split; [congruence|]. by intros ->.
Qed.

Definition group_stable (x : CoactorGroup) : bool :=
  let ms := CoactorGroupSpec_Members (CoactorGroup_Spec x) in
  canonical ms && forallb (fun m => canonical (CoactorMember_DependsOn m)) (range_slice ms)
  && canonical (CoactorGroupStatus_MemberStatuses (CoactorGroup_Status x)).

Lemma member_round_trip m : coactorMemberFromV1 (coactorMemberToV1 m) = m <-> canonical (CoactorMember_DependsOn m) = true.
Proof.
  destruct m. unfold coactorMemberFromV1, coactorMemberToV1. simpl. rewrite <- copy_slice_twice. split; [congruence|]. by intros ->.
Qed.

Lemma group_round_trip x :
  CoactorGroup_ConvertFrom (CoactorGroup_ConvertTo x ApiV1.zero_CoactorGroup)
    (mkCoactorGroup (CoactorGroup_TypeMeta x) zero_ObjectMeta zero_CoactorGroupSpec zero_CoactorGroupStatus) = x
  <-> group_stable x = true.
Proof.
  destruct x as [tm om [pt ms co sa] [ph ac mst cs]]. unfold group_stable, CoactorGroup_ConvertFrom, CoactorGroup_ConvertTo.
  cbn [CoactorGroup_Spec CoactorGroupSpec_Members CoactorGroup_Status CoactorGroupStatus_MemberStatuses].
  rewrite andb_true_iff, <- (append_twice_iff coactorMemberToV1 coactorMemberFromV1) by apply member_round_trip.
  rewrite <- (append_twice memberStatusToV1 memberStatusFromV1 mst) by (intros; apply retract).
  pose proof (retract (to := coordinationToV1) (from := coordinationFromV1) co) as Hc.
  unfold groupSpecFromV1, groupSpecToV1, groupStatusFromV1, groupStatusToV1. simpl. rewrite Hc.
  split; [intros [= E1 E2]; by split|]. by intros [-> ->].
Qed.

(** Every kind that converts: stored as v1 and read back as v1alpha2, an
    object is unchanged exactly when it is stable; a session always is. *)
Theorem kinds_round_trip :
  (forall x, Agent_ConvertFrom (Agent_ConvertTo x ApiV1.zero_Agent)
     (mkAgent (Agent_TypeMeta x) zero_ObjectMeta zero_AgentConfiguration zero_AgentStatus) = x <-> agent_stable x = true)
  /\ (forall x, SkillRegistry_ConvertFrom (SkillRegistry_ConvertTo x ApiV1.zero_SkillRegistry)
     (mkSkillRegistry (SkillRegistry_TypeMeta x) zero_ObjectMeta zero_SkillRegistrySpec zero_SkillRegistryStatus) = x
     <-> registry_stable x = true)
  /\ (forall x, ModelOnboarding_ConvertFrom (ModelOnboarding_ConvertTo x ApiV1.zero_ModelOnboarding)
     (mkModelOnboarding (ModelOnboarding_TypeMeta x) zero_ObjectMeta zero_ModelOnboardingSpec zero_ModelOnboardingStatus) = x
     <-> onboarding_stable x = true)
  /\ (forall x, InferenceSession_ConvertFrom (InferenceSession_ConvertTo x ApiV1.zero_InferenceSession)
     (mkInferenceSession (InferenceSession_TypeMeta x) zero_ObjectMeta zero_InferenceSessionSpec zero_InferenceSessionStatus) = x)
  /\ (forall x, InferenceActor_ConvertFrom (InferenceActor_ConvertTo x ApiV1.zero_InferenceActor)
     (mkInferenceActor (InferenceActor_TypeMeta x) zero_ObjectMeta zero_InferenceActorSpec zero_InferenceActorStatus) = x
     <-> actor_stable x = true)
  /\ (forall x, CoactorGroup_ConvertFrom (CoactorGroup_ConvertTo x ApiV1.zero_CoactorGroup)
     (mkCoactorGroup (CoactorGroup_TypeMeta x) zero_ObjectMeta zero_CoactorGroupSpec zero_CoactorGroupStatus) = x
     <-> group_stable x = true).
Proof.
  split_and!; auto using agent_round_trip, registry_round_trip, onboarding_round_trip, session_round_trip, actor_round_trip, group_round_trip.
Qed.

(** An inline scheduler configuration does not reach the hub. *)
Lemma inline_config_dropped x dst s c i :
  RouterSpec_Scheduler (LLMInferenceServiceSpec_Router (LLMInferenceService_Spec x)) = Some s ->
  SchedulerSpec_Config s = Some c -> SchedulerConfigSpec_Inline c = Some i ->
  exists s', ApiV1.RouterSpec_Scheduler (ApiV1.LLMInferenceServiceSpec_Router (ApiV1.LLMInferenceService_Spec
      (LLMInferenceService_ConvertTo x dst))) = Some s'
    /\ forall c', ApiV1.SchedulerSpec_Config s' = Some c' -> ApiV1.SchedulerConfigSpec_Inline c' = None.
Proof.
  intros Hs Hc _. simpl. rewrite Hs. eexists. split; [reflexivity|]. simpl. rewrite Hc. simpl. unfold schedulerConfigToV1.
  destruct (SchedulerConfigSpec_Ref c) as [ref|]; [by intros c' [= <-]|done].
Qed.

End laws.

(** ** Witnesses *)

(** The interface with strings for every library type. *)
#[local] Instance w_k8s : K8s := {|
  TypeMeta := string; zero_TypeMeta := ""; ObjectMeta := string; zero_ObjectMeta := "";
  PodTemplateSpec := string; zero_PodTemplateSpec := ""; Condition := string; MetaTime := Z;
  EnvVar := string * string; EnvVar_DeepCopyInto e := (e.1, e.2);
  LocalObjectReference := string; LocalObjectReference_DeepCopy r := r
|}.

#[local] Instance w_laws : K8sLaws w_k8s.
Proof. split; [by intros []|done]. Qed.

Definition w_service (config : option SchedulerConfigSpec) : LLMInferenceService :=
  mkLLMInferenceService (K := w_k8s) "meta" "name"
    {| LLMInferenceServiceSpec_Model := mkModelSpec "hf://m" "main" "m" None true;
       LLMInferenceServiceSpec_Replicas := Some 2;
       LLMInferenceServiceSpec_Parallelism := Some (mkParallelismSpec (Some 2) None None (Some ["0"; "1"]) false None false);
       LLMInferenceServiceSpec_Scaling := None;
       LLMInferenceServiceSpec_Template := "pod";
       LLMInferenceServiceSpec_Prefill := None;
       LLMInferenceServiceSpec_Worker := Some (mkWorkerSpec (K := w_k8s) "worker");
       LLMInferenceServiceSpec_Router :=
         mkRouterSpec (mkGatewaySpec None None) (mkRouteSpec None)
           (Some (mkSchedulerSpec (mkInferencePoolSpec None) config None));
       LLMInferenceServiceSpec_BaseRefs := Some [mkConfigReference "base"];
       LLMInferenceServiceSpec_AutoOptimize := None;
       LLMInferenceServiceSpec_AllowedTenants := None;
       LLMInferenceServiceSpec_CostAllocationTags := None;
       LLMInferenceServiceSpec_SLO := None;
       LLMInferenceServiceSpec_Canary := None;
       LLMInferenceServiceSpec_SpeculativeDecoding := None;
       LLMInferenceServiceSpec_KVCache := None;
       LLMInferenceServiceSpec_Quantization := None;
       LLMInferenceServiceSpec_Engine := "vllm";
       LLMInferenceServiceSpec_ToolSurface := None;
       LLMInferenceServiceSpec_Observability := None |}
    zero_LLMInferenceServiceStatus.

(** A scheduler configured by reference comes back, one configured inline does
    not. *)
Lemma service_round_trip_witness :
  (let x := w_service (Some (mkSchedulerConfigSpec None (Some (mkSchedulerConfigRef "cm" "key")))) in
   LLMInferenceService_ConvertFrom (LLMInferenceService_ConvertTo x ApiV1.zero_LLMInferenceService)
     (mkLLMInferenceService (K := w_k8s) "meta" "" zero_LLMInferenceServiceSpec zero_LLMInferenceServiceStatus) = x)
  /\ service_stable (w_service (Some (mkSchedulerConfigSpec (Some (mkEndpointPickerConfigSpec None None)) None))) = false.
Proof.
  split; [|reflexivity].
  apply (service_round_trip (L := w_laws) (w_service (Some (mkSchedulerConfigSpec None (Some (mkSchedulerConfigRef "cm" "key")))))).
  reflexivity.
Defined.

Lemma hub_round_trip_witness :
  let x := LLMInferenceService_ConvertTo (w_service None) ApiV1.zero_LLMInferenceService in
  LLMInferenceService_ConvertTo (LLMInferenceService_ConvertFrom x zero_LLMInferenceService)
    (ApiV1.mkLLMInferenceService (ApiV1.LLMInferenceService_TypeMeta x) (zero_ObjectMeta : ObjectMeta)
       ApiV1.zero_LLMInferenceServiceSpec ApiV1.zero_LLMInferenceServiceStatus) = x.
Proof. intros x. apply (hub_round_trip (L := w_laws) x). reflexivity. Defined.

Lemma kinds_round_trip_witness :
  let x := mkAgent (K := w_k8s) "meta" "name"
    (mkAgentConfiguration (mkAgentIdentity "a" "" "") "m" (Some [mkSkillRef "r" "s" "1"]) None 10 None) (mkAgentStatus None true) in
  Agent_ConvertFrom (Agent_ConvertTo x ApiV1.zero_Agent) (mkAgent (K := w_k8s) "meta" "" zero_AgentConfiguration zero_AgentStatus) = x.
Proof. intros x. apply (proj1 (kinds_round_trip (L := w_laws)) x). reflexivity. Defined.
