(* ===== verification/GoRegexp.v ===== *)
(** * regexp

    The regular expressions the components use, with Go's leftmost-first
    matching: alternatives in order, repetitions greedy, and [\b] an ASCII
    word boundary.  [MatchString] and [ReplaceAllString] scan from left to
    right; none of the expressions matches the empty string.  Text is a
    sequence of bytes: every class is a class of ASCII characters, which are
    single bytes and never part of a longer UTF-8 sequence, and the two other
    characters a case-insensitive class has, U+017F for s and U+212A for k,
    are written as their bytes. *)

From S2P Require Import Prelude.
From Stdlib Require Import Ascii.

Inductive regex :=
| Eps
| Class (p : ascii -> bool)
| Boundary
| Seq (r1 r2 : regex)
| Alt (r1 r2 : regex)
| Star (r : regex).

Definition in_range (lo hi : Z) (c : ascii) : bool := (lo <=? code c) && (code c <=? hi).
Definition lower (c : ascii) : bool := in_range 97 122 c.
Definition upper (c : ascii) : bool := in_range 65 90 c.
Definition alnum (c : ascii) : bool := lower c || upper c || is_digit c.
Fixpoint one_of (s : string) (c : ascii) : bool :=
  match s with EmptyString => false | String d s => (d ==? c) || one_of s c end.
Definition word_char (c : ascii) : bool := alnum c || (code c ==? 95).
(** [\s]: tab, line feed, form feed, carriage return and space. *)
Definition space_char (c : ascii) : bool := (code c ==? 9) || (code c ==? 10) || (code c ==? 12) || (code c ==? 13) || (code c ==? 32).

Definition digit : regex := Class is_digit.
Fixpoint lit (s : string) : regex :=
  match s with EmptyString => Eps | String c s => Seq (Class (fun d => d ==? c)) (lit s) end.
Definition opt (r : regex) : regex := Alt r Eps.
Definition plus (r : regex) : regex := Seq r (Star r).
(** [r{n}], [r{0,n}], [r{lo,hi}] and [r{n,}]. *)
Fixpoint times (n : nat) (r : regex) : regex := match n with O => Eps | S n => Seq r (times n r) end.
Fixpoint upto (n : nat) (r : regex) : regex := match n with O => Eps | S n => opt (Seq r (upto n r)) end.
Definition rep (lo hi : nat) (r : regex) : regex := Seq (times lo r) (upto (hi - lo) r).
Definition at_least (n : nat) (r : regex) : regex := Seq (times n r) (Star r).

Definition at_boundary (prev : option ascii) (s : string) : bool :=
  let before := match prev with Some c => word_char c | None => false end in
  let after := match s with String c _ => word_char c | EmptyString => false end in
  xorb before after.

(** Where a match of [r] that the continuation accepts ends: the byte before
    the end and the rest of the text. *)
Definition cont := option ascii -> string -> option (option ascii * string).

Fixpoint match_at (r : regex) (k : cont) (prev : option ascii) (s : string) {struct r} : option (option ascii * string) :=
  match r with
  | Eps => k prev s
  | Class p => match s with String c s' => if p c then k (Some c) s' else None | EmptyString => None end
  | Boundary => if at_boundary prev s then k prev s else None
  | Seq r1 r2 => match_at r1 (match_at r2 k) prev s
  | Alt r1 r2 => match match_at r1 k prev s with Some res => Some res | None => match_at r2 k prev s end
  | Star r =>
      (fix loop (fuel : nat) (prev : option ascii) (s : string) :=
         match fuel with
         | O => k prev s
         | S fuel => match match_at r (loop fuel) prev s with Some res => Some res | None => k prev s end
         end) (String.length s) prev s
  end.

Definition match_here (r : regex) : cont := match_at r (fun prev s => Some (prev, s)).

Fixpoint match_from (r : regex) (prev : option ascii) (s : string) : bool :=
  match match_here r prev s with
  | Some _ => true
  | None => match s with EmptyString => false | String c s => match_from r (Some c) s end
  end.

Definition MatchString (r : regex) (s : string) : bool := match_from r None s.

Fixpoint replace_from (fuel : nat) (r : regex) (mask : string) (prev : option ascii) (s : string) : string :=
  match fuel, s with
  | S fuel, String c s' =>
      match match_here r prev s with
      | Some (prev', rest) => mask +:+ replace_from fuel r mask prev' rest
      | None => String c (replace_from fuel r mask (Some c) s')
      end
  | _, _ => ""
  end.

(** Each step consumes a byte, so the length is enough fuel. *)
Definition ReplaceAllString (r : regex) (s mask : string) : string := replace_from (String.length s) r mask None s.

(** ** What a match consumes *)

Fixpoint last_of (prev : option ascii) (u : string) : option ascii :=
  match u with EmptyString => prev | String c u => last_of (Some c) u end.

Lemma last_of_app prev u v : last_of prev (u +:+ v) = last_of (last_of prev u) v.
Proof. revert prev. induction u; intros prev; simpl; auto. Qed.

(** Regular expressions that consume at least one byte. *)
Fixpoint nonempty (r : regex) : bool :=
  match r with
  | Eps | Boundary | Star _ => false
  | Class _ => true
  | Seq r1 r2 => nonempty r1 || nonempty r2
  | Alt r1 r2 => nonempty r1 && nonempty r2
  end.

(** A match consumes a prefix of the text. *)
Definition consumes (strict : bool) (k : cont) (prev : option ascii) (s : string) (res : option ascii * string) : Prop :=
  exists u s', s = u +:+ s' /\ k (last_of prev u) s' = Some res /\ (strict = true -> u <> "").

Lemma consumes_here k prev s res : k prev s = Some res -> consumes false k prev s res.
Proof. intros H. by exists "", s. Qed.

Lemma consumes_trans b1 b2 k1 k2 prev s res :
  consumes b1 k1 prev s res -> (forall prev s, k1 prev s = Some res -> consumes b2 k2 prev s res) ->
  consumes (b1 || b2) k2 prev s res.
Proof.
  intros (u1 & s1 & -> & H & Hu1) Hk. destruct (Hk _ _ H) as (u2 & s2 & -> & H2 & Hu2).
  exists (u1 +:+ u2), s2. rewrite last_of_app. split_and!; [by rewrite string_app_assoc|done|].
  intros [->| ->]%orb_true_iff E; destruct u1; simplify_eq; naive_solver.
Qed.

Lemma match_at_consumes r k prev s res : match_at r k prev s = Some res -> consumes (nonempty r) k prev s res.
Proof.
  revert k prev s res. induction r as [|p| |r1 IH1 r2 IH2|r1 IH1 r2 IH2|r IH]; intros k prev s res H; simpl in *.
  - by apply consumes_here.
  - destruct s as [|c s]; [done|]. destruct (p c); [|done]. by exists (String c ""), s.
  - destruct (at_boundary prev s); [|done]. by apply consumes_here.
  - eapply consumes_trans; eauto.
  - destruct (match_at r1 k prev s) as [res'|] eqn:E; simplify_eq; [apply IH1 in E as (u & s' & ? & ? & ?)|apply IH2 in H as (u & s' & ? & ? & ?)];
      exists u, s'; split_and!; auto; intros [??]%andb_true_iff; auto.
  - revert H. generalize (String.length s). intros fuel. revert prev s. induction fuel as [|fuel IHf]; intros prev s H; simpl in H.
    + by apply consumes_here.
    + destruct (match_at r _ prev s) as [res'|] eqn:E; simplify_eq; [|by apply consumes_here].
      apply IH in E. destruct (consumes_trans _ false _ k _ _ _ E IHf) as (u & s' & ? & ? & _). by exists u, s'.
Qed.

Lemma match_here_consumes r prev s prev' s' :
  nonempty r = true -> match_here r prev s = Some (prev', s') ->
  exists u, s = u +:+ s' /\ prev' = last_of prev u /\ u <> "".
Proof. intros Hr (u & s1 & -> & [= <- ->] & Hu)%match_at_consumes. eauto. Qed.

(** ** Languages

    The texts an expression without boundaries and repetitions accepts. *)

Fixpoint simple (r : regex) : bool :=
  match r with
  | Eps | Class _ => true
  | Boundary | Star _ => false
  | Seq r1 r2 | Alt r1 r2 => simple r1 && simple r2
  end.

Fixpoint lang (r : regex) (u : string) : Prop :=
  match r with
  | Eps => u = ""
  | Class p => exists c, u = String c "" /\ p c = true
  | Boundary | Star _ => False
  | Seq r1 r2 => exists u1 u2, u = u1 +:+ u2 /\ lang r1 u1 /\ lang r2 u2
  | Alt r1 r2 => lang r1 u \/ lang r2 u
  end.

Lemma match_at_sound r k prev s res :
  simple r = true -> match_at r k prev s = Some res ->
  exists u s', s = u +:+ s' /\ lang r u /\ k (last_of prev u) s' = Some res.
Proof.
  revert k prev s res. induction r as [|p| |r1 IH1 r2 IH2|r1 IH1 r2 IH2|r IH]; intros k prev s res Hs H; simpl in *; try done.
  - by exists "", s.
  - destruct s as [|c s]; [done|]. destruct (p c) eqn:Hp; [|done]. exists (String c ""), s. split_and!; eauto.
  - apply andb_true_iff in Hs as [Hs1 Hs2]. apply IH1 in H as (u1 & s1 & -> & ? & H); [|done].
    apply IH2 in H as (u2 & s2 & -> & ? & H); [|done]. exists (u1 +:+ u2), s2. rewrite last_of_app.
    split_and!; [by rewrite string_app_assoc|eauto|done].
  - apply andb_true_iff in Hs as [Hs1 Hs2]. destruct (match_at r1 k prev s) eqn:E; simplify_eq.
    + apply IH1 in E as (u & s' & ? & ? & ?); [|done]. eauto 8.
    + apply IH2 in H as (u & s' & ? & ? & ?); [|done]. eauto 8.
Qed.

Lemma match_at_complete r k prev u s :
  simple r = true -> lang r u -> k (last_of prev u) s <> None -> match_at r k prev (u +:+ s) <> None.
Proof.
  revert k prev u s. induction r as [|p| |r1 IH1 r2 IH2|r1 IH1 r2 IH2|r IH]; intros k prev u s Hs Hu Hk; simpl in *; try done.
  - by subst.
  - destruct Hu as (c & -> & Hp). simpl. by rewrite Hp.
  - apply andb_true_iff in Hs as [Hs1 Hs2]. destruct Hu as (u1 & u2 & -> & ? & ?). rewrite <- string_app_assoc.
    apply IH1; [done..|]. apply IH2; [done..|]. by rewrite <- last_of_app.
  - apply andb_true_iff in Hs as [Hs1 Hs2]. destruct (match_at r1 k prev (u +:+ s)) eqn:E; [done|].
    destruct Hu as [Hu|Hu]; [by destruct (IH1 k prev u s Hs1 Hu Hk)|by apply IH2].
Qed.

(** ** Redaction with a mask of word characters

    For an expression that stands between word boundaries and whose texts
    start and end with a word character and have no underscore: once a pass
    has replaced its matches with a mask that starts and ends with an
    underscore, the text has no match left, and no later pass with such a
    mask makes a new one. *)

Definition bounded (body : regex) : regex := Seq Boundary (Seq body Boundary).

Definition is_word (o : option ascii) : bool := match o with Some c => word_char c | None => false end.
Definition head_of (s : string) : option ascii := match s with String c _ => Some c | EmptyString => None end.
Definition underscore : ascii := byte_of 95.

Record guarded (body : regex) : Prop := mkGuarded {
  g_simple : simple body = true;
  g_first u : lang body u -> is_word (head_of u) = true;
  g_last u prev : lang body u -> is_word (last_of prev u) = true;
  g_chars u : lang body u -> str_forall (fun c => c !=? underscore) u = true
}.

Section Masking.

Context (body : regex) (Hg : guarded body).

Lemma boundary_words prev s : at_boundary prev s = xorb (is_word prev) (is_word (head_of s)).
Proof. by destruct prev, s. Qed.

Lemma head_app u s : is_word (head_of u) = true -> is_word (head_of (u +:+ s)) = true.
Proof. by destruct u. Qed.

Lemma bounded_match prev s :
  match_here (bounded body) prev s <> None <->
  exists u s', s = u +:+ s' /\ lang body u /\ is_word prev = false /\ is_word (head_of s') = false.
Proof.
  unfold match_here, bounded. cbn [match_at]. split.
  - destruct (at_boundary prev s) eqn:Hb; [|done]. intros H. destruct (match_at body _ prev s) as [res|] eqn:E; [|done].
    apply match_at_sound in E as (u & s' & -> & Hu & E); [|apply Hg]. cbn [match_at] in E.
    destruct (at_boundary _ s') eqn:Hb'; [|done]. rewrite boundary_words in Hb, Hb'.
    rewrite (head_app _ _ (g_first _ Hg u Hu)) in Hb. rewrite (g_last _ Hg u prev Hu) in Hb'.
    exists u, s'. split_and!; [done..|by destruct (is_word prev)|by destruct (is_word (head_of s'))].
  - intros (u & s' & -> & Hu & Hp & Hs). rewrite boundary_words, Hp, (head_app _ _ (g_first _ Hg u Hu)). simpl.
    apply match_at_complete; [apply Hg|done|]. cbn [match_at]. by rewrite boundary_words, (g_last _ Hg u prev Hu), Hs.
Qed.

Context (tail : string) (Hmask : str_forall word_char tail = true) (Hlast : forall prev, is_word (last_of prev tail) = true).
Let mask : string := String underscore tail.

(** Text without an underscore that a pass leaves was copied. *)
Lemma copied r n prev s u o :
  str_forall (fun c => c !=? underscore) u = true -> (String.length s <= n)%nat ->
  replace_from n r mask prev s = u +:+ o ->
  exists n' s', s = u +:+ s' /\ o = replace_from n' r mask (last_of prev u) s' /\ (String.length s' <= n')%nat.
Proof.
  revert n prev s. induction u as [|c u IH]; intros n prev s Hu Hn H; [by exists n, s|].
  cbn [str_forall] in Hu. apply andb_true_iff in Hu as [Hc Hu]. apply negb_true_iff, bool_decide_eq_false in Hc.
  destruct n as [|n], s as [|d s]; try done. cbn [replace_from] in H.
  destruct (match_here r prev (String d s)) as [[p1 s1]|]; [by injection H as H _; destruct Hc|]. injection H as -> H. simpl in Hn.
  destruct (IH n (Some c) s Hu ltac:(lia) H) as (n' & s' & -> & ? & ?). by exists n', s'.
Qed.

Lemma head_replaced r n prev s :
  (String.length s <= n)%nat -> is_word (head_of (replace_from n r mask prev s)) = false -> is_word (head_of s) = false.
Proof.
  destruct n, s as [|c s]; simpl; try done; [lia|]. intros _.
  by destruct (match_here r prev (String c s)) as [[p1 s1]|].
Qed.

(** A match at the front of the output is one at the front of the input. *)
Lemma front_match r n prev prev' s :
  (String.length s <= n)%nat -> is_word prev' = true \/ prev' = prev ->
  match_here (bounded body) prev' (replace_from n r mask prev s) <> None -> match_here (bounded body) prev s <> None.
Proof.
  intros Hn Hp. rewrite !bounded_match. intros (u & o & Ho & Hu & Hw & He). destruct Hp as [Hp| ->]; [by rewrite Hw in Hp|].
  destruct (copied r n prev s u o (g_chars _ Hg u Hu) Hn Ho) as (n' & s' & -> & -> & Hn').
  exists u, s'. split_and!; [done..|]. by eapply head_replaced.
Qed.

(** No match starts inside the mask. *)
Lemma match_from_words w o prev :
  is_word prev = true -> str_forall word_char w = true ->
  match_from (bounded body) prev (w +:+ o) = match_from (bounded body) (last_of prev w) o.
Proof.
  revert prev. induction w as [|c w IH]; intros prev Hp Hw; [done|]. cbn [str_forall] in Hw. apply andb_true_iff in Hw as [Hc Hw].
  change (String c w +:+ o) with (String c (w +:+ o)). cbn [match_from last_of].
  destruct (match_here _ prev _) eqn:E; [|by apply IH]. exfalso.
  destruct (proj1 (bounded_match prev (String c (w +:+ o)))) as (u & s' & _ & _ & Hf & _); [by rewrite E|]. by rewrite Hp in Hf.
Qed.

Lemma match_from_mask o prev : match_from (bounded body) prev (mask +:+ o) = match_from (bounded body) (last_of (Some underscore) tail) o.
Proof.
  change (mask +:+ o) with (String underscore (tail +:+ o)). cbn [match_from].
  destruct (match_here _ prev _) eqn:E; [exfalso|by apply match_from_words].
  destruct (proj1 (bounded_match prev (String underscore (tail +:+ o)))) as (u & s' & Hs & Hu & _); [by rewrite E|].
  pose proof (g_first _ Hg u Hu). destruct u as [|c u]; [done|]. injection Hs as <- _.
  pose proof (g_chars _ Hg _ Hu) as H'. by vm_compute in H'.
Qed.

Lemma match_from_nil prev : match_from (bounded body) prev "" = false.
Proof.
  cbn [match_from]. destruct (match_here _ prev "") eqn:E; [|done].
  destruct (proj1 (bounded_match prev "")) as ([|c u] & s' & Hs & Hu & _); [by rewrite E| |done].
  by pose proof (g_first _ Hg _ Hu).
Qed.

(** Suffixes of a text without a match have none. *)
Lemma match_from_suffix r prev u s : match_from r prev (u +:+ s) = false -> match_from r (last_of prev u) s = false.
Proof.
  revert prev. induction u as [|c u IH]; intros prev H; [done|]. change (String c u +:+ s) with (String c (u +:+ s)) in H.
  cbn [match_from last_of] in *. destruct (match_here _ prev _); [done|]. by apply IH.
Qed.

Lemma length_suffix u s : u <> "" -> (String.length s < String.length (u +:+ s))%nat.
Proof.
  destruct u as [|c u]; [done|]. intros _. change (String c u +:+ s) with (String c (u +:+ s)).
  cut (String.length s <= String.length (u +:+ s))%nat; [simpl; lia|].
  induction u as [|d u IH]; [done|]. change (String d u +:+ s) with (String d (u +:+ s)). simpl. lia.
Qed.

(** One pass with any expression, or with the expression itself. *)
Lemma pass_clean r n prev prev' s :
  nonempty r = true -> (String.length s <= n)%nat -> is_word prev' = true \/ prev' = prev ->
  match_from (bounded body) prev s = false \/ r = bounded body ->
  match_from (bounded body) prev' (replace_from n r mask prev s) = false.
Proof.
  intros Hr. revert prev prev' s. induction n as [|n IH]; intros prev prev' [|c s] Hn Hp Hm; try apply match_from_nil.
  cbn [replace_from]. destruct (match_here r prev (String c s)) as [[p1 s1]|] eqn:E.
  - destruct (match_here_consumes _ _ _ _ _ Hr E) as (u & Hu & -> & Hne). rewrite match_from_mask. rewrite Hu in Hn.
    pose proof (length_suffix u s1 Hne). apply IH; [lia|left; apply Hlast|].
    destruct Hm as [Hm|Hm]; [left|by right]. rewrite Hu in Hm. by apply match_from_suffix.
  - pose proof (front_match r (S n) prev prev' (String c s) Hn Hp) as Hf. cbn [replace_from] in Hf. rewrite E in Hf.
    cbn [match_from]. destruct (match_here (bounded body) prev' _).
    + exfalso. destruct Hm as [Hm| ->]; [|by apply Hf]. cbn [match_from] in Hm.
      destruct (match_here (bounded body) prev _); [done|by apply Hf].
    + apply IH; [simpl in Hn; lia|by right|]. destruct Hm as [Hm|Hm]; [left|by right].
      cbn [match_from] in Hm. by destruct (match_here (bounded body) prev _).
Qed.

(** A sequence of passes that includes the expression leaves no match of it. *)
Lemma passes_clean rs s :
  Forall (fun r => nonempty r = true) rs -> bounded body ∈ rs ->
  MatchString (bounded body) (foldl (fun s r => ReplaceAllString r s mask) s rs) = false.
Proof.
  intros Hrs Hin. cut (bounded body ∈ rs \/ MatchString (bounded body) s = false); [|by left]. clear Hin. revert s.
  induction Hrs as [|r rs Hr _ IH]; intros s Hin; simpl; [destruct Hin as [Hin|]; [by inversion Hin|done]|].
  apply IH. destruct Hin as [Hin|Hs].
  - apply elem_of_cons in Hin as [<-|Hin]; [right|by left]. apply pass_clean; auto.
  - right. apply pass_clean; auto.
Qed.

End Masking.

(** ** Characters of a language *)

(** Every class of the expression is within [p]. *)
Fixpoint within (p : ascii -> Prop) (r : regex) : Prop :=
  match r with
  | Class q => forall c, q c = true -> p c
  | Seq r1 r2 | Alt r1 r2 => within p r1 /\ within p r2
  | Star r => within p r
  | Eps | Boundary => True
  end.

Lemma lang_within p r u : within (fun c => p c = true) r -> lang r u -> str_forall p u = true.
Proof.
  revert u. induction r as [|q| |r1 IH1 r2 IH2|r1 IH1 r2 IH2|r IH]; intros u Hr Hu; simpl in *; try done.
  - by subst.
  - destruct Hu as (c & -> & Hc). simpl. by rewrite Hr.
  - destruct Hr, Hu as (u1 & u2 & -> & ? & ?). rewrite str_forall_app. by rewrite IH1, IH2.
  - destruct Hr, Hu; auto.
Qed.

Lemma head_seq r1 r2 u : (forall u, lang r1 u -> is_word (head_of u) = true) -> lang (Seq r1 r2) u -> is_word (head_of u) = true.
Proof. intros H (u1 & u2 & -> & Hu & _). by apply head_app, H. Qed.

Lemma last_seq r1 r2 u prev :
  (forall u prev, lang r2 u -> is_word (last_of prev u) = true) -> lang (Seq r1 r2) u -> is_word (last_of prev u) = true.
Proof. intros H (u1 & u2 & -> & _ & Hu). rewrite last_of_app. by apply H. Qed.

Lemma digit_word c : is_digit c = true -> word_char c = true.
Proof. intros H. unfold word_char, alnum. rewrite H. by rewrite !orb_true_r. Qed.

Lemma digit_not_underscore c : is_digit c = true -> c !=? underscore = true.
Proof. intros H. apply negb_true_iff, bool_decide_eq_false. by intros ->. Qed.

(** One or more digits. *)
Lemma head_digits r u : lang (Seq digit r) u -> is_word (head_of u) = true.
Proof. apply head_seq. intros v (c & -> & Hc). by apply digit_word. Qed.

Lemma last_digits r u prev : within (fun c => is_digit c = true) r -> lang (Seq digit r) u -> is_word (last_of prev u) = true.
Proof.
  intros Hr (u1 & v & -> & (c & -> & Hc) & Hv). apply (lang_within is_digit _ _ Hr) in Hv. simpl.
  apply digit_word in Hc. clear Hr. revert c Hc. induction v as [|d v IH]; intros c Hc; [done|].
  simpl in Hv. apply andb_true_iff in Hv as [Hd Hv]. simpl. by apply IH, digit_word.
Qed.
