(* ===== verification/GoBase64.v ===== *)
(** * encoding/base64

    [base64.StdEncoding]: [EncodeToString] and [DecodeString] on byte strings.
    The decoder skips line breaks, wants full groups with their padding at the
    end, and ignores the unused bits of the last group. *)

From S2P Require Import Prelude.
From Stdlib Require Import Ascii.

#[local] Ltac Zify.zify_post_hook ::= Z.to_euclidean_division_equations.

Definition b64_digit (i : Z) : ascii :=
  byte_of (if i <? 26 then 65 + i else if i <? 52 then 71 + i else if i <? 62 then i - 4 else if i <? 63 then 43 else 47).

Definition b64_value (c : ascii) : option Z :=
  let x := code c in
  if (65 <=? x) && (x <=? 90) then Some (x - 65)
  else if (97 <=? x) && (x <=? 122) then Some (x - 71)
  else if (48 <=? x) && (x <=? 57) then Some (x + 4)
  else if x ==? 43 then Some 62
  else if x ==? 47 then Some 63
  else None.

Definition b64_pad : ascii := byte_of 61.

Definition group3 (a b c : Z) (rest : string) : string :=
  String (b64_digit (a / 4)) (String (b64_digit (a mod 4 * 16 + b / 16))
    (String (b64_digit (b mod 16 * 4 + c / 64)) (String (b64_digit (c mod 64)) rest))).

Fixpoint EncodeToString (s : string) : string :=
  match s with
  | EmptyString => EmptyString
  | String a EmptyString =>
      String (b64_digit (code a / 4)) (String (b64_digit (code a mod 4 * 16)) (String b64_pad (String b64_pad "")))
  | String a (String b EmptyString) =>
      String (b64_digit (code a / 4)) (String (b64_digit (code a mod 4 * 16 + code b / 16))
        (String (b64_digit (code b mod 16 * 4)) (String b64_pad "")))
  | String a (String b (String c s)) => group3 (code a) (code b) (code c) (EncodeToString s)
  end.

(** Line breaks are skipped. *)
Fixpoint strip_newlines (s : string) : string :=
  match s with
  | EmptyString => EmptyString
  | String c s => if (code c ==? 10) || (code c ==? 13) then strip_newlines s else String c (strip_newlines s)
  end.

Fixpoint decode_groups (s : string) : option string :=
  match s with
  | EmptyString => Some ""
  | String c1 (String c2 (String c3 (String c4 rest))) =>
      x ← b64_value c1; y ← b64_value c2;
      if c3 ==? b64_pad then
        if (c4 ==? b64_pad) && (rest ==? "") then Some (String (byte_of (x * 4 + y / 16)) "") else None
      else
        z ← b64_value c3;
        let first r := String (byte_of (x * 4 + y / 16)) (String (byte_of (y mod 16 * 16 + z / 4)) r) in
        if c4 ==? b64_pad then if rest ==? "" then Some (first "") else None
        else
          w ← b64_value c4; r ← decode_groups rest;
          Some (first (String (byte_of (z mod 4 * 64 + w)) r))
  | _ => None
  end.

Definition DecodeString (s : string) : option string := decode_groups (strip_newlines s).

(** The 64 digits. *)
Lemma b64_digits :
  Forall (fun i => b64_value (b64_digit i) = Some i /\ b64_digit i <> b64_pad
    /\ code (b64_digit i) <> 10 /\ code (b64_digit i) <> 13) (Z.of_nat <$> seq 0 64).
Proof. by_computation. Qed.

Lemma b64_digit_ok i :
  0 <= i < 64 -> b64_value (b64_digit i) = Some i /\ b64_digit i <> b64_pad
    /\ code (b64_digit i) <> 10 /\ code (b64_digit i) <> 13.
Proof.
  intros Hi. pose proof b64_digits as H. rewrite Forall_forall in H. apply H.
  apply list_elem_of_fmap. exists (Z.to_nat i). split; [lia|]. apply elem_of_seq. lia.
Qed.

Lemma byte_of_code c : byte_of (code c) = c.
Proof. unfold byte_of, code. rewrite N2Z.id. apply ascii_N_embedding. Qed.

Lemma code_range c : 0 <= code c < 256.
Proof. unfold code. pose proof (N_ascii_bounded c). lia. Qed.

Lemma strip_digit i s : 0 <= i < 64 -> strip_newlines (String (b64_digit i) s) = String (b64_digit i) (strip_newlines s).
Proof.
  intros Hi. destruct (b64_digit_ok i Hi) as (_ & _ & H10 & H13). cbn [strip_newlines].
  by rewrite !bool_decide_false by done.
Qed.

Lemma decode_full x y z w r r' :
  0 <= x < 64 -> 0 <= y < 64 -> 0 <= z < 64 -> 0 <= w < 64 -> decode_groups r = Some r' ->
  decode_groups (String (b64_digit x) (String (b64_digit y) (String (b64_digit z) (String (b64_digit w) r)))) =
  Some (String (byte_of (x * 4 + y / 16)) (String (byte_of (y mod 16 * 16 + z / 4)) (String (byte_of (z mod 4 * 64 + w)) r'))).
Proof.
  intros Hx Hy Hz Hw Hr. cbn [decode_groups].
  destruct (b64_digit_ok x Hx) as [-> _], (b64_digit_ok y Hy) as [-> _]. simpl.
  destruct (b64_digit_ok z Hz) as (-> & Hzp & _), (b64_digit_ok w Hw) as (-> & Hwp & _).
  rewrite (bool_decide_false (b64_digit z = b64_pad)), (bool_decide_false (b64_digit w = b64_pad)) by done. simpl. by rewrite Hr.
Qed.

(** Strings by groups of three bytes. *)
Lemma string_ind3 (P : string -> Prop) :
  P "" -> (forall a, P (String a "")) -> (forall a b, P (String a (String b ""))) ->
  (forall a b c s, P s -> P (String a (String b (String c s)))) -> forall s, P s.
Proof.
  intros H0 H1 H2 H3. fix IH 1. intros [|a [|b [|c s]]]; [exact H0|apply H1|apply H2|]. apply H3, IH.
Qed.

Lemma base64_round_trip s : DecodeString (EncodeToString s) = Some s.
Proof.
  unfold DecodeString. induction s as [|a|a b|a b c s IH] using string_ind3; [done|..];
    pose proof (code_range a); try pose proof (code_range b); try pose proof (code_range c); cbn [EncodeToString]; unfold group3.
  - rewrite 2!strip_digit by lia. change (strip_newlines (String b64_pad (String b64_pad ""))) with (String b64_pad (String b64_pad "")).
    cbn [decode_groups]. rewrite (proj1 (b64_digit_ok (code a / 4) ltac:(lia))), (proj1 (b64_digit_ok (code a mod 4 * 16) ltac:(lia))).
    simpl. do 2 f_equal. rewrite <- (byte_of_code a) at 3. f_equal. lia.
  - rewrite 3!strip_digit by lia. change (strip_newlines (String b64_pad "")) with (String b64_pad "").
    cbn [decode_groups].
    destruct (b64_digit_ok (code a / 4) ltac:(lia)) as [-> _], (b64_digit_ok (code a mod 4 * 16 + code b / 16) ltac:(lia)) as [-> _],
      (b64_digit_ok (code b mod 16 * 4) ltac:(lia)) as (-> & Hp & _).
    cbn [mbind option_bind]. rewrite (bool_decide_false (_ = b64_pad)) by done. rewrite !bool_decide_true by done.
    do 2 f_equal; [|f_equal]; rewrite <- byte_of_code; f_equal; lia.
  - rewrite 4!strip_digit by lia. rewrite (decode_full _ _ _ _ _ s) by (done || lia).
    do 2 f_equal; [|f_equal; [|f_equal]]; rewrite <- byte_of_code; f_equal; lia.
Qed.

Example base64_vectors :
  EncodeToString "" = "" /\ EncodeToString "f" = "Zg==" /\ EncodeToString "fo" = "Zm8=" /\ EncodeToString "foo" = "Zm9v"
  /\ EncodeToString "foobar" = "Zm9vYmFy" /\ DecodeString "Zg=" = None /\ DecodeString "Zg==Zg==" = None
  /\ DecodeString "Z===" = None /\ DecodeString "Zm9v" = Some "foo".
Proof. vm_compute. done. Qed.
