(* ===== verification/GoJson.v ===== *)
(** * encoding/json

    [json.Marshal] for the values the components encode: objects whose fields
    are written in order, maps whose keys are sorted, and strings.  A string
    is escaped as the default encoder does: quotes, backslashes and control
    characters, the HTML characters [<], [>] and [&], the line separators
    U+2028 and U+2029, and every byte that is not part of a valid UTF-8
    sequence becomes U+FFFD. *)

From S2P Require Import Prelude GoFloat Sha256 GoTime.
From Stdlib Require Import Ascii.

Definition between (lo hi : Z) (c : ascii) : bool := (lo <=? code c) && (code c <=? hi).
Definition continuation : ascii -> bool := between 128 191.

(** The valid UTF-8 sequences of two, three and four bytes. *)
Definition utf8_two (a b : ascii) : bool := between 194 223 a && continuation b.
Definition utf8_three (a b c : ascii) : bool :=
  ((code a ==? 224) && between 160 191 b
   || (between 225 236 a || between 238 239 a) && continuation b
   || (code a ==? 237) && between 128 159 b) && continuation c.
Definition utf8_four (a b c d : ascii) : bool :=
  ((code a ==? 240) && between 144 191 b || between 241 243 a && continuation b
   || (code a ==? 244) && between 128 143 b) && continuation c && continuation d.

Definition json_escape (c : ascii) : string :=
  let x := code c in
  if x ==? 34 then String (byte_of 92) (String c "")
  else if x ==? 92 then "\\"
  else if x ==? 8 then "\b"
  else if x ==? 12 then "\f"
  else if x ==? 10 then "\n"
  else if x ==? 13 then "\r"
  else if x ==? 9 then "\t"
  else if (x <? 32) || (x ==? 60) || (x ==? 62) || (x ==? 38) then "\u00" +:+ hex_encode [x]
  else String c "".

Fixpoint json_chars (s : string) : string :=
  match s with
  | EmptyString => EmptyString
  | String a s1 =>
      if code a <? 128 then json_escape a +:+ json_chars s1
      else match s1 with
      | EmptyString => "\ufffd"
      | String b s2 =>
          if utf8_two a b then String a (String b (json_chars s2))
          else match s2 with
          | EmptyString => "\ufffd" +:+ json_chars s1
          | String c s3 =>
              if utf8_three a b c then
                (if (code a ==? 226) && (code b ==? 128) && between 168 169 c then "\u20" +:+ hex_encode [code c - 128]
                 else String a (String b (String c ""))) +:+ json_chars s3
              else match s3 with
              | EmptyString => "\ufffd" +:+ json_chars s1
              | String d s4 =>
                  if utf8_four a b c d then String a (String b (String c (String d (json_chars s4))))
                  else "\ufffd" +:+ json_chars s1
              end
          end
      end
  end.

Definition quote : string := String (byte_of 34) "".
Definition json_string (s : string) : string := quote +:+ json_chars s +:+ quote.

Definition json_object (fields : list (string * string)) : string :=
  "{" +:+ String.concat "," ((fun '(k, v) => json_string k +:+ ":" +:+ v) <$> fields) +:+ "}".

Definition json_array (items : list string) : string := "[" +:+ String.concat "," items +:+ "]".

(** A map with string keys, sorted. *)
Definition json_map (m : gmap string string) : string :=
  json_object ((fun k => (k, json_string (default "" (m !! k)))) <$> sort_strings (elements (dom m))).

Definition json_bool (b : bool) : string := if b then "true" else "false".

(** ** Numbers

    A [float64] is written with the fewest decimal digits that read back as
    the same number, in positional notation unless it is below 1e-6 or at
    least 1e21.  The number of digits tried goes up to 17, which is always
    enough; NaN and the infinities are errors. *)

(** The fraction [a / b] rounded to a [float64]. *)
Definition f_of_ratio (a b : positive) : float64 :=
  let '(mz, ez, lz) := SFdiv_core_binary f_prec f_emax (Zpos a) 0 (Zpos b) 0 in
  binary_round_aux f_prec f_emax false mz ez lz.

(** [d * 10^k] as a [float64]. *)
Definition f_of_decimal (d : Z) (k : Z) : float64 :=
  if k >=? 0 then f_of_ratio (Z.to_pos (d * 10 ^ k)) 1 else f_of_ratio (Z.to_pos d) (Z.to_pos (10 ^ (- k))).

(** The decimal exponent of [n / d]: [10^k <= n / d < 10^(k+1)]. *)
Fixpoint exponent_below (fuel : nat) (n d : Z) (k : Z) : Z :=
  match fuel with
  | O => k
  | S fuel => if n >=? d then k else exponent_below fuel (10 * n) d (k - 1)
  end.

Definition decimal_exponent (n d : Z) : Z :=
  if n >=? d then Z.of_nat (String.length (float_digits (n / d))) - 1 else exponent_below 330 n d 0.

(** The first of [digits], [digits+1], ... that reads back as [x] = [n / d]. *)
Fixpoint shortest (fuel : nat) (digits : Z) (x : float64) (n d k : Z) : Z * Z :=
  let shift := digits - 1 - k in
  let v := if shift >=? 0 then div_half_even (n * 10 ^ shift) d else div_half_even n (d * 10 ^ (- shift)) in
  let '(v, k') := if v ==? 10 ^ digits then (10 ^ (digits - 1), k + 1) else (v, k) in
  match fuel with
  | O => (v, k')
  | S fuel => if f_eq (f_of_decimal v (k' - digits + 1)) x then (v, k') else shortest fuel (digits + 1) x n d k
  end.

Fixpoint zeros (n : nat) : string := match n with O => "" | S n => String (byte_of 48) (zeros n) end.

(** [ds] are the digits and [k] the exponent of the first. *)
Definition positional (ds : string) (k : Z) : string :=
  let n := Z.of_nat (String.length ds) in
  if k <? 0 then "0." +:+ zeros (Z.to_nat (- k - 1)) +:+ ds
  else if k >=? n - 1 then ds +:+ zeros (Z.to_nat (k - n + 1))
  else String.substring 0 (Z.to_nat (k + 1)) ds +:+ "." +:+ String.substring (Z.to_nat (k + 1)) (String.length ds) ds.

Definition scientific (ds : string) (k : Z) : string :=
  match ds with
  | EmptyString => ""
  | String c rest =>
      String c (if rest ==? "" then "" else "." +:+ rest) +:+ "e" +:+ (if k <? 0 then "-" else "+") +:+ Itoa (Z.abs k)
  end.

Definition json_float (x : float64) : option string :=
  match x with
  | S754_zero neg => Some (if neg then "-0" else "0")
  | S754_infinity _ | S754_nan => None
  | S754_finite neg m e =>
      let n := if e >=? 0 then Zpos m * 2 ^ e else Zpos m in
      let d := if e >=? 0 then 1 else 2 ^ (- e) in
      let '(v, k) := shortest 16 1 (S754_finite false m e) n d (decimal_exponent n d) in
      let ds := trim_zeros (float_digits v) in
      Some ((if neg then "-" else "") +:+ (if (k <? -6) || (k >=? 21) then scientific ds k else positional ds k))
  end.

Example json_floats :
  json_float (f_lit 1 10) = Some "0.1" /\ json_float (f_of_Z 100) = Some "100" /\ json_float (f_lit 15 4) = Some "3.75"
  /\ json_float (f_add (f_lit 1 10) (f_lit 2 10)) = Some "0.30000000000000004" /\ json_float (f_of_Z (10 ^ 21)) = Some "1e+21"
  /\ json_float (f_lit 1 10000000) = Some "1e-7" /\ json_float (f_lit 1 1000000) = Some "0.000001"
  /\ json_float (f_lit (-25) 10) = Some "-2.5" /\ json_float (f_div f_one f_zero) = None
  /\ json_float (f_of_Z 123456789) = Some "123456789" /\ json_float (f_lit 1 3) = Some "0.3333333333333333".
Proof. vm_compute. done. Qed.

(** [time.Time] in UTC: an error for years that do not have four digits. *)
Definition json_time (t : Time) : option string :=
  let '(y, _, _) := civil t in if (0 <=? y) && (y <=? 9999) then Some (json_string (RFC3339Nano t)) else None.

Example json_examples :
  json_string "a<b" = quote +:+ "a\u003cb" +:+ quote
  /\ json_map (<["b" := "2"]> (<["a" := "1"]> ∅)) =
     "{" +:+ json_string "a" +:+ ":" +:+ json_string "1" +:+ "," +:+ json_string "b" +:+ ":" +:+ json_string "2" +:+ "}"
  /\ json_chars (String (byte_of 255) "x") = "\ufffdx"
  /\ json_chars (String (byte_of 226) (String (byte_of 128) (String (byte_of 168) ""))) = "\u2028"
  /\ json_chars (String (byte_of 195) (String (byte_of 169) "")) = String (byte_of 195) (String (byte_of 169) "").
Proof. vm_compute. done. Qed.

(** ** Encoded strings can be read back

    [json_read] reads an encoded string up to its closing quote.  It gives back
    every string of valid UTF-8; invalid bytes are lost in the encoding. *)

Fixpoint valid_utf8 (s : string) : bool :=
  match s with
  | EmptyString => true
  | String a s1 =>
      if code a <? 128 then valid_utf8 s1
      else match s1 with
      | EmptyString => false
      | String b s2 =>
          if utf8_two a b then valid_utf8 s2
          else match s2 with
          | EmptyString => false
          | String c s3 =>
              if utf8_three a b c then valid_utf8 s3
              else match s3 with
              | EmptyString => false
              | String d s4 => utf8_four a b c d && valid_utf8 s4
              end
          end
      end
  end.

Definition is_ascii (s : string) : bool := str_forall (fun c => code c <? 128) s.

Lemma ascii_valid_utf8 s : is_ascii s = true -> valid_utf8 s = true.
Proof. induction s as [|c s IH]; [done|]. cbn. intros [-> H]%andb_true_iff. by apply IH. Qed.

Definition hex_value (c : ascii) : Z := if code c <? 58 then code c - 48 else code c - 87.

Definition prepend (u : string) (r : option (string * string)) : option (string * string) :=
  '(v, t) ← r; Some (u +:+ v, t).

Fixpoint json_read (s : string) : option (string * string) :=
  match s with
  | EmptyString => None
  | String c s1 =>
      if code c ==? 34 then Some ("", s1)
      else if code c ==? 92 then
        match s1 with
        | EmptyString => None
        | String d s2 =>
            if code d ==? 117 then
              match s2 with
              | String g (String _ (String h (String l s3))) =>
                  let x := 16 * hex_value h + hex_value l in
                  prepend (if code g ==? 50 then String (byte_of 226) (String (byte_of 128) (String (byte_of (x + 128)) ""))
                           else String (byte_of x) "") (json_read s3)
              | _ => None
              end
            else prepend (String (byte_of (if code d ==? 98 then 8 else if code d ==? 102 then 12 else if code d ==? 110 then 10
                                else if code d ==? 114 then 13 else if code d ==? 116 then 9 else code d)) "") (json_read s2)
        end
      else prepend (String c "") (json_read s1)
  end.

Lemma read_escape c t : code c < 128 -> json_read (json_escape c +:+ t) = prepend (String c "") (json_read t).
Proof. intros H. destruct c as [[] [] [] [] [] [] [] []]; try reflexivity; by vm_compute in H. Qed.

Lemma read_raw c t : 128 <= code c -> json_read (String c t) = prepend (String c "") (json_read t).
Proof. intros H. cbn [json_read]. by rewrite !bool_decide_false by lia. Qed.

Lemma read_separator a b c t :
  (code a ==? 226) && (code b ==? 128) && between 168 169 c = true ->
  json_read ("\u20" +:+ hex_encode [code c - 128] +:+ t) = prepend (String a (String b (String c ""))) (json_read t).
Proof.
  rewrite !andb_true_iff, !bool_decide_eq_true. intros [[Ha Hb] Hc].
  assert (a = byte_of 226 /\ b = byte_of 128) as [-> ->].
  { split; [destruct a as [[] [] [] [] [] [] [] []]|destruct b as [[] [] [] [] [] [] [] []]]; try reflexivity; by vm_compute in Ha, Hb. }
  destruct c as [[] [] [] [] [] [] [] []]; try reflexivity; by vm_compute in Hc.
Qed.

Lemma prepend_some u s t : prepend u (Some (s, t)) = Some (u +:+ s, t).
Proof. done. Qed.

Lemma between_ge lo hi c : between lo hi c = true -> lo <= code c.
Proof. unfold between. rewrite andb_true_iff, !bool_decide_eq_true. tauto. Qed.

Ltac utf8_bytes H :=
  unfold utf8_two, utf8_three, utf8_four, continuation, between in H;
  repeat (progress rewrite ?andb_true_iff, ?orb_true_iff, ?bool_decide_eq_true in H).

(** The encoder's output for a valid string reads back as that string. *)
Lemma json_read_chars s t : valid_utf8 s = true -> json_read (json_chars s +:+ quote +:+ t) = Some (s, t).
Proof.
  induction s as [s IH] using (induction_ltof1 _ String.length). unfold ltof in IH. destruct s as [|a s1]; intros Hv; [done|].
  cbn [valid_utf8 json_chars] in *. case_bool_decide as Ha.
  { by rewrite <- string_app_assoc, read_escape, (IH s1), prepend_some by (simpl; done || lia). }
  destruct s1 as [|b s2]; [done|]. destruct (utf8_two a b) eqn:H2.
  { utf8_bytes H2. change (json_read (String a (String b (json_chars s2 +:+ quote +:+ t))) = Some (String a (String b s2), t)).
    by rewrite !read_raw, (IH s2), !prepend_some by (simpl; done || lia). }
  destruct s2 as [|c s3]; [done|]. destruct (utf8_three a b c) eqn:H3.
  { rewrite <- string_app_assoc. destruct (_ && between 168 169 c) eqn:Hs.
    - by rewrite <- string_app_assoc, (read_separator a b c), (IH s3), prepend_some by (simpl; done || lia).
    - assert (128 <= code b /\ 128 <= code c) as [Hb Hc] by (utf8_bytes H3; lia).
      change (json_read (String a (String b (String c (json_chars s3 +:+ quote +:+ t)))) = Some (String a (String b (String c s3)), t)).
      by rewrite !read_raw, (IH s3), !prepend_some by (simpl; done || lia). }
  destruct s3 as [|d s4]; [done|]. apply andb_true_iff in Hv as [H4 Hv]. rewrite H4.
  assert (128 <= code b /\ 128 <= code c /\ 128 <= code d) as (Hb & Hc & Hd) by (utf8_bytes H4; lia).
  change (json_read (String a (String b (String c (String d (json_chars s4 +:+ quote +:+ t))))) = Some (String a (String b (String c (String d s4))), t)).
  by rewrite !read_raw, (IH s4), !prepend_some by (simpl; done || lia).
Qed.

Lemma json_string_inj_utf8 s1 s2 t1 t2 :
  valid_utf8 s1 = true -> valid_utf8 s2 = true -> json_string s1 +:+ t1 = json_string s2 +:+ t2 -> s1 = s2 /\ t1 = t2.
Proof.
  intros H1 H2 E. unfold json_string in E. rewrite <- !string_app_assoc in E.
  assert (forall a b, quote +:+ a = quote +:+ b -> a = b) as Hq by (intros a b Eq; by injection Eq).
  apply Hq, (f_equal json_read) in E. rewrite !json_read_chars in E by done. by injection E.
Qed.

Lemma json_string_inj s1 s2 t1 t2 :
  is_ascii s1 = true -> is_ascii s2 = true -> json_string s1 +:+ t1 = json_string s2 +:+ t2 -> s1 = s2 /\ t1 = t2.
Proof. intros. apply json_string_inj_utf8; auto using ascii_valid_utf8. Qed.

(** Numbers are read up to the comma behind them. *)
Lemma digits_comma_inj u v t1 t2 :
  str_forall is_digit u = true -> str_forall is_digit v = true -> u +:+ "," +:+ t1 = v +:+ "," +:+ t2 -> u = v /\ t1 = t2.
Proof.
  revert v. induction u as [|c u IH]; intros [|d v] Hu Hv E; cbn [str_forall] in *.
  - by injection E.
  - injection E as <- _. done.
  - injection E as -> _. done.
  - apply andb_true_iff in Hu as [_ Hu]. apply andb_true_iff in Hv as [_ Hv]. injection E as -> E.
    by destruct (IH v Hu Hv E) as [-> ->].
Qed.

Lemma Itoa_comma_inj a b t1 t2 :
  u64_range a -> u64_range b -> Itoa a +:+ "," +:+ t1 = Itoa b +:+ "," +:+ t2 -> a = b /\ t1 = t2.
Proof.
  intros Ha Hb E. assert (forall z, u64_range z -> str_forall is_digit (Itoa z) = true) as Hd.
  { intros z Hz. unfold Itoa, itoa_pos. rewrite bool_decide_false by (unfold u64_range in Hz; lia). by apply digits_fuel_digits. }
  destruct (digits_comma_inj _ _ _ _ (Hd a Ha) (Hd b Hb) E) as [E1 ->]. split; [|done]. by apply Itoa_inj_u64.
Qed.
