(* ===== verification/Redaction.v ===== *)
(** * Redaction of personal data

    The redactor of audit details ([internal/observability/pii.go]) and the
    patterns it shares with the sanitizer of the flight recorder
    ([internal/evidence/channels/truth_channels.go]). *)

From S2P Require Import Prelude Sha256 GoJson GoRegexp.
From Stdlib Require Import Ascii.

Definition RedactedPlaceholder := "__REDACTED__".

(** ** The patterns *)

(** [\b\d{3}-\d{2}-\d{4}\b] *)
Definition ssn_body : regex :=
  Seq (times 3 digit) (Seq (lit "-") (Seq (times 2 digit) (Seq (lit "-") (times 4 digit)))).
Definition ssn : regex := bounded ssn_body.

(** [\b(?:\d[ -]?){13,19}\b] *)
Definition credit_card : regex := bounded (rep 13 19 (Seq digit (opt (Class (one_of " -"))))).

(** [\b[A-Za-z0-9._%+\-]+@[A-Za-z0-9.\-]+\.[A-Za-z]{2,}\b] *)
Definition email : regex :=
  bounded (Seq (plus (Class (fun c => alnum c || one_of "._%+-" c)))
    (Seq (lit "@") (Seq (plus (Class (fun c => alnum c || one_of ".-" c)))
      (Seq (lit ".") (at_least 2 (Class (fun c => lower c || upper c))))))).

(** [(?:\+1[-.\s]?)?\(?\d{3}\)?[-.\s]\d{3}[-.\s]\d{4}\b] *)
Definition phone_sep : regex := Class (fun c => one_of "-." c || space_char c).
Definition phone_us : regex :=
  Seq (opt (Seq (lit "+1") (opt phone_sep)))
    (Seq (opt (lit "(")) (Seq (times 3 digit) (Seq (opt (lit ")"))
      (Seq phone_sep (Seq (times 3 digit) (Seq phone_sep (Seq (times 4 digit) Boundary))))))).

(** [\b(?:\d{1,3}\.){3}\d{1,3}\b] *)
Definition ipv4_body : regex := Seq (times 3 (Seq (rep 1 3 digit) (lit "."))) (rep 1 3 digit).
Definition ipv4 : regex := bounded ipv4_body.

(** Case-insensitive letters and classes: k also is the Kelvin sign, s the long s. *)
Definition kelvin : regex := lit (String (byte_of 226) (String (byte_of 132) (String (byte_of 170) ""))).
Definition long_s : regex := lit (String (byte_of 197) (String (byte_of 191) "")).
Definition ci (lo up : ascii) : regex := Class (fun c => (c ==? lo) || (c ==? up)).
Definition ci_class (p : ascii -> bool) : regex := Alt (Class p) (Alt kelvin long_s).

(** [(?i)bearer\s+[A-Za-z0-9\-._~+/]+=*] *)
Definition bearer_token : regex :=
  Seq (ci "b" "B") (Seq (ci "e" "E") (Seq (ci "a" "A") (Seq (ci "r" "R") (Seq (ci "e" "E") (Seq (ci "r" "R")
    (Seq (plus (Class space_char)) (Seq (plus (ci_class (fun c => alnum c || one_of "-._~+/" c))) (Star (lit "=")))))))))%char.

Definition piiPatterns : list (string * regex) :=
  [("ssn", ssn); ("credit_card", credit_card); ("email", email); ("phone_us", phone_us); ("ipv4", ipv4); ("bearer_token", bearer_token)].

(** ** The redactor *)

Record Redactor := mkRedactor { enabled : bool; patterns : list (string * regex) }.

Definition NewRedactor (on : bool) : Redactor := mkRedactor on piiPatterns.

Definition redactString (r : Redactor) (s : string) : string :=
  if s ==? "" then s
  else foldl (fun result p => ReplaceAllString p.2 result RedactedPlaceholder) s (patterns r).

Definition RedactString (r : Redactor) (s : string) : string := if negb (enabled r) then s else redactString r s.

Definition RedactDetails (r : Redactor) (details : gmap string string) : gmap string string :=
  if negb (enabled r) || (details ==? ∅) then details else redactString r <$> details.

Definition ContainsPII (s : string) : bool := existsb (fun p => MatchString p.2 s) piiPatterns.

(** [strings.Map]: line breaks and tabs become underscores, and a byte that is
    not part of a valid UTF-8 sequence becomes U+FFFD. *)
Definition replacement_char : string := String (byte_of 239) (String (byte_of 191) (String (byte_of 189) "")).
Definition key_char (c : ascii) : ascii := if (code c ==? 10) || (code c ==? 13) || (code c ==? 9) then underscore else c.

Fixpoint SanitizeKey (s : string) : string :=
  match s with
  | EmptyString => EmptyString
  | String a s1 =>
      if code a <? 128 then String (key_char a) (SanitizeKey s1)
      else match s1 with
      | EmptyString => replacement_char
      | String b s2 =>
          if utf8_two a b then String a (String b (SanitizeKey s2))
          else match s2 with
          | EmptyString => replacement_char +:+ SanitizeKey s1
          | String c s3 =>
              if utf8_three a b c then String a (String b (String c (SanitizeKey s3)))
              else match s3 with
              | EmptyString => replacement_char +:+ SanitizeKey s1
              | String d s4 =>
                  if utf8_four a b c d then String a (String b (String c (String d (SanitizeKey s4))))
                  else replacement_char +:+ SanitizeKey s1
              end
          end
      end
  end.

Example redaction_examples :
  RedactString (NewRedactor true) "ssn 123-45-6789 ok" = "ssn __REDACTED__ ok"
  /\ RedactString (NewRedactor true) "card 4111 1111 1111 1111." = "card __REDACTED__."
  /\ RedactString (NewRedactor true) "mail a.b@example.com now" = "mail __REDACTED__ now"
  /\ RedactString (NewRedactor true) "call +1 (555) 123-4567" = "call __REDACTED__"
  /\ RedactString (NewRedactor true) "from 10.0.0.1:80" = "from __REDACTED__:80"
  /\ RedactString (NewRedactor true) "Bearer abc.def==" = "__REDACTED__"
  /\ RedactString (NewRedactor true) "model llama-3 ready" = "model llama-3 ready"
  /\ RedactString (NewRedactor false) "123-45-6789" = "123-45-6789".
Proof. vm_compute. done. Qed.

(** ** What the redactor guarantees *)

Ltac solve_within := repeat split; intros c; simpl; try (apply digit_not_underscore); try (intros ->%bool_decide_eq_true; reflexivity).

Lemma ssn_guarded : guarded ssn_body.
Proof.
  split; [done| | |].
  - intros u. unfold ssn_body. apply head_seq. intros v. apply head_digits.
  - intros u prev. unfold ssn_body. do 4 (apply last_seq; clear u prev; intros u prev). apply last_digits. simpl. auto.
  - intros u. apply lang_within. solve_within.
Qed.

Lemma ipv4_guarded : guarded ipv4_body.
Proof.
  split; [done| | |].
  - intros u. unfold ipv4_body. do 4 (apply head_seq; clear u; intros u). apply head_digits.
  - intros u prev. unfold ipv4_body. apply last_seq. clear u prev. intros u prev (u1 & u2 & -> & (d & e & -> & Hd & ->) & Hu).
    rewrite <- string_app_assoc. apply (last_digits (upto 2 digit)); [simpl; auto|]. exists d, u2. done.
  - intros u. apply lang_within. solve_within.
Qed.

Lemma mask_tail : str_forall word_char "_REDACTED__" = true /\ forall prev, is_word (last_of prev "_REDACTED__") = true.
Proof. done. Qed.

Lemma foldl_patterns (l : list (string * regex)) s :
  foldl (fun result p => ReplaceAllString p.2 result RedactedPlaceholder) s l =
  foldl (fun s r => ReplaceAllString r s RedactedPlaceholder) s (l.*2).
Proof. revert s. induction l; intros s; simpl; auto. Qed.

(** Any sequence of passes with the placeholder that includes a guarded
    pattern leaves no match of it. *)
Lemma placeholder_clean body rs s :
  guarded body -> Forall (fun r => nonempty r = true) rs -> bounded body ∈ rs ->
  MatchString (bounded body) (foldl (fun s r => ReplaceAllString r s RedactedPlaceholder) s rs) = false.
Proof. intros Hb. destruct mask_tail as [Ht Hl]. by apply (passes_clean body Hb "_REDACTED__" Ht Hl). Qed.

(** No social security number and no IPv4 address between word boundaries
    survives redaction, whatever the text and whatever the other patterns do
    to it. *)
Theorem redaction_complete s :
  MatchString ssn (RedactString (NewRedactor true) s) = false /\ MatchString ipv4 (RedactString (NewRedactor true) s) = false.
Proof.
  unfold RedactString, redactString. cbn [enabled NewRedactor negb patterns]. case_bool_decide; [by subst; vm_compute|].
  rewrite foldl_patterns.
  split; (apply placeholder_clean; [apply ssn_guarded || apply ipv4_guarded|by repeat constructor|repeat (left || right)]).
Qed.

(** A pass that finds no match leaves the text as it is. *)
Lemma replace_no_match r mask n prev s :
  (String.length s <= n)%nat -> match_from r prev s = false -> replace_from n r mask prev s = s.
Proof.
  revert prev s. induction n as [|n IH]; intros prev [|c s] Hn Hm; try done || (simpl in Hn; lia).
  cbn [match_from replace_from] in *. destruct (match_here r prev (String c s)); [done|]. f_equal. apply IH; [simpl in Hn; lia|done].
Qed.

Lemma passes_no_match (l : list (string * regex)) s :
  existsb (fun p => MatchString p.2 s) l = false ->
  foldl (fun result p => ReplaceAllString p.2 result RedactedPlaceholder) s l = s.
Proof.
  induction l as [|p l IH]; [done|]. cbn [existsb foldl]. intros [Hp Hl]%orb_false_iff.
  replace (ReplaceAllString p.2 s RedactedPlaceholder) with s by (symmetry; by apply replace_no_match). by apply IH.
Qed.

(** Text in which no pattern matches is left alone. *)
Lemma clean_text_unchanged r s : patterns r = piiPatterns -> ContainsPII s = false -> RedactString r s = s.
Proof.
  intros Hr Hs. unfold RedactString, redactString. rewrite Hr. destruct (negb _); [done|]. case_bool_decide; [done|].
  by apply passes_no_match.
Qed.

(** Redaction is not idempotent: the placeholder can become part of an address. *)
Example redaction_not_idempotent :
  RedactString (NewRedactor true) "bearer +@x.com" = "__REDACTED__@x.com"
  /\ RedactString (NewRedactor true) "__REDACTED__@x.com" = "__REDACTED__".
Proof. vm_compute. done. Qed.

(** An underscore is a word character: a number right after one is not found. *)
Example redaction_after_underscore : RedactString (NewRedactor true) "ssn_123-45-6789" = "ssn_123-45-6789".
Proof. vm_compute. done. Qed.

(** The separators of a phone number are not optional. *)
Example redaction_phone_without_separators : RedactString (NewRedactor true) "call +15551234567" = "call +15551234567".
Proof. vm_compute. done. Qed.
