(* ===== verification/Admission.v ===== *)
(** * The four-stage admission engine

    [internal/validation/admission]: the Data, Model, Deployment and Request
    stages, each resolving the states of its dimensions into a disposition,
    attaching obligations and issuing a receipt; the pipeline that runs them
    in order and stops at the first stage that denies or quarantines; the
    verification of receipts.

    Ed25519 is an argument: [sign] and [verify] with the law that a signature
    made with a private key verifies with its public key.  The clock and the
    cancellation of the context are read once per use: [Env] holds what a
    stage reads.  Errors keep their sentinel and drop the text they wrap. *)

From S2P Require Import Prelude GoStrings GoTime GoBase64 Sha256 GoJson.
From Stdlib Require Import Ascii.

(** ** types.go *)

Definition DispositionAdmit := "ADMIT".
Definition DispositionAdmitWithObligations := "ADMIT_WITH_OBLIGATIONS".
Definition DispositionDeny := "DENY".
Definition DispositionEscalate := "ESCALATE".
Definition DispositionSafeHold := "SAFE_HOLD".
Definition DispositionQuarantine := "QUARANTINE".

Definition StageData := "Data".
Definition StageModel := "Model".
Definition StageDeployment := "Deployment".
Definition StageRequest := "Request".

Definition StateVerified := "VERIFIED".
Definition StateCompliant := "COMPLIANT".
Definition StateConditional := "CONDITIONAL".
Definition StateUnknown := "UNKNOWN".
Definition StatePending := "PENDING".
Definition StateExhausted := "EXHAUSTED".
Definition StateDegraded := "DEGRADED".
Definition StateIncompatible := "INCOMPATIBLE".
Definition StateFlagged := "FLAGGED".
Definition StateViolated := "VIOLATED".
Definition StateQuarantined := "QUARANTINED".

Inductive AdmissionErr :=
| ErrInvalidInput (what : string)
| ErrContextCanceled (cause : string)
| ErrReceiptSignature (what : string)
| ErrReceiptVerification (what : string).

#[export] Instance AdmissionErr_eq_dec : EqDecision AdmissionErr.
Proof. solve_decision. Defined.

Record Obligation := mkObligation {
  ID : string; Type_ : string; Description : string; Parameters : gmap string string
}.

Record ProducerBinding := mkProducer { SPIFFEID : string; KeyDigest : string }.

Record AuditReceipt := mkReceipt {
  ReceiptID : string;
  RStage : string;
  RDisposition : string;
  RSubjectDigest : string;
  Producer : ProducerBinding;
  ProducedAt : string;
  Digest : string;
  Signature : string
}.

Record Decision := mkDecision {
  Stage : string;
  Disposition : string;
  Reason : string;
  VectorStates : gmap string string;
  Obligations : list Obligation;
  Receipt : AuditReceipt
}.

Record PipelineDecision := mkPipeline {
  OverallDisposition : string;
  StageDecisions : list Decision;
  PObligations : list Obligation;
  AuditReceipts : list AuditReceipt
}.

Record DataAdmissionInput := mkData {
  DSubjectID : string; DSubjectDigest : string;
  ProvenanceState : string; LicensingState : string; PrivacyState : string; IntegrityState : string;
  DMetadata : gmap string string
}.

Record ModelAdmissionInput := mkModel {
  MSubjectID : string; MSubjectDigest : string;
  ArtifactIntegrityState : string; SBOMState : string; SignatureState : string;
  AttestationState : string; LicenseState : string;
  MMetadata : gmap string string
}.

Record DeploymentAdmissionInput := mkDeployment {
  YSubjectID : string; YSubjectDigest : string;
  RuntimeCompatibilityState : string; AcceleratorTopologyState : string; CapacityState : string;
  PolicyState : string; AirGapProfileState : string;
  YMetadata : gmap string string
}.

Record RequestAdmissionInput := mkRequest {
  QSubjectID : string; QSubjectDigest : string;
  IdentityTenantState : string; CapabilityLeaseState : string; QuotaBudgetState : string; RiskState : string;
  QMetadata : gmap string string
}.

(** ** Validation of the inputs *)

Definition subjectRequired := ErrInvalidInput "subject ID required".
Definition statesRequired := ErrInvalidInput "all vector states must be populated".

Definition validateDataInput (i : DataAdmissionInput) : option AdmissionErr :=
  if DSubjectID i ==? "" then Some subjectRequired
  else if (IntegrityState i ==? "") || (ProvenanceState i ==? "") || (LicensingState i ==? "") || (PrivacyState i ==? "")
  then Some statesRequired else None.

Definition validateModelInput (i : ModelAdmissionInput) : option AdmissionErr :=
  if MSubjectID i ==? "" then Some subjectRequired
  else if (ArtifactIntegrityState i ==? "") || (SBOMState i ==? "") || (SignatureState i ==? "")
    || (AttestationState i ==? "") || (LicenseState i ==? "")
  then Some statesRequired else None.

Definition validateDeploymentInput (i : DeploymentAdmissionInput) : option AdmissionErr :=
  if YSubjectID i ==? "" then Some subjectRequired
  else if (RuntimeCompatibilityState i ==? "") || (AcceleratorTopologyState i ==? "") || (CapacityState i ==? "")
    || (PolicyState i ==? "") || (AirGapProfileState i ==? "")
  then Some statesRequired else None.

Definition validateRequestInput (i : RequestAdmissionInput) : option AdmissionErr :=
  if QSubjectID i ==? "" then Some subjectRequired
  else if (IdentityTenantState i ==? "") || (CapabilityLeaseState i ==? "") || (QuotaBudgetState i ==? "") || (RiskState i ==? "")
  then Some statesRequired else None.

(** ** Obligations *)

Definition obligation (id type description : string) : Obligation := mkObligation id type description ∅.

Definition when (b : bool) (o : Obligation) : list Obligation := if b then [o] else [].

Definition dataObligations (i : DataAdmissionInput) : list Obligation :=
  when (LicensingState i ==? StateConditional)
    (obligation "obl-data-attribution" "data.licensing.attribution"
       "Dataset attribution notice must be preserved and surfaced") ++
  when (PrivacyState i ==? StateConditional)
    (obligation "obl-data-privacy-masking" "data.privacy.masking"
       "Differential privacy and runtime redaction filters must remain active").

Definition modelObligations (i : ModelAdmissionInput) : list Obligation :=
  when (LicenseState i ==? StateConditional)
    (obligation "obl-model-openrail-restrictions" "model.license.openrail"
       "Downstream use restrictions and risk disclosures must be distributed with model artifacts") ++
  when (SBOMState i ==? StateConditional)
    (obligation "obl-model-sbom-remediation" "model.sbom.remediation"
       "Non-critical SBOM component advisories must be remediated on schedule").

Definition deploymentObligations (i : DeploymentAdmissionInput) : list Obligation :=
  when (AirGapProfileState i ==? StateConditional)
    (obligation "obl-deploy-airgap-monitoring" "deployment.airgap.egress_audit"
       "Log and audit all gateway-mediated egress through air-gap boundary proxy") ++
  when (CapacityState i ==? StateConditional)
    (obligation "obl-deploy-capacity-lease" "deployment.capacity.off_peak"
       "Workload admitted under off-peak preemption lease agreement") ++
  when (PolicyState i ==? StateConditional)
    (obligation "obl-deploy-security-telemetry" "deployment.policy.telemetry"
       "Security telemetry export must be enabled and bound to tenant stream").

Definition requestObligations (i : RequestAdmissionInput) : list Obligation :=
  when (RiskState i ==? StateConditional)
    (obligation "obl-req-watermarking" "request.governance.watermarking"
       "Apply cryptographic watermarking and prompt logging to inference stream") ++
  when (CapabilityLeaseState i ==? StateConditional)
    (obligation "obl-req-lease-limit" "request.lease.concurrency_bound"
       "Bound request concurrency to conditional capability lease terms") ++
  when (QuotaBudgetState i ==? StateConditional)
    (obligation "obl-req-budget-audit" "request.quota.burst_audit"
       "Audit and reconcile token burst against monthly allocation").

(** ** Resolution of the states *)

(** [states[k]], the zero value for a missing key. *)
Definition state_of (states : gmap string string) (k : string) : string := default "" (states !! k).

(** One pass over the ordered keys. *)
Definition pass (p : string -> bool) (states : gmap string string) (keys : list string) : option string :=
  find (fun k => p (state_of states k)) keys.

Definition quarantined (s : string) : bool := s ==? StateQuarantined.
Definition violated (s : string) : bool := (s ==? StateViolated) || (s ==? StateIncompatible).
Definition unclear (s : string) : bool := (s ==? StateUnknown) || (s ==? StateFlagged).
Definition held (s : string) : bool := (s ==? StatePending) || (s ==? StateExhausted).
Definition conditional (s : string) : bool := (s ==? StateConditional) || (s ==? StateDegraded).

Definition resolveVectorStates (keys : list string) (states : gmap string string) : string * string :=
  match pass quarantined states keys with
  | Some k => (DispositionQuarantine, k +:+ " dimension is quarantined")
  | None => match pass violated states keys with
  | Some k => (DispositionDeny, k +:+ " dimension violated admission policy")
  | None => match pass unclear states keys with
  | Some k => (DispositionEscalate, k +:+ " dimension requires escalation")
  | None => match pass held states keys with
  | Some k => (DispositionSafeHold, k +:+ " dimension placed on safe-hold")
  | None => match pass conditional states keys with
  | Some k => (DispositionAdmitWithObligations, k +:+ " dimension admitted with obligations")
  | None => (DispositionAdmit, "all stage dimensions verified and compliant")
  end end end end end.

Definition precedence : gmap string Z :=
  list_to_map [(DispositionQuarantine, 6); (DispositionDeny, 5); (DispositionEscalate, 4);
    (DispositionSafeHold, 3); (DispositionAdmitWithObligations, 2); (DispositionAdmit, 1)].

Definition rank (d : string) : Z := default 0 (precedence !! d).

Definition calculateOverallDisposition (decisions : list Decision) : string :=
  match decisions with
  | [] => DispositionDeny
  | _ => foldl (fun highest d => if rank (Disposition d) >? rank highest then Disposition d else highest)
           DispositionAdmit decisions
  end.

(** ** The engine *)

(** What a stage reads: [ctx.Err()], and the clock twice for its receipt. *)
Record Env := mkEnv { ctxErr : option string; now1 : Time; now2 : Time }.

Definition PrivateKeySize : Z := 64.
Definition PublicKeySize : Z := 32.

Definition zeroDigest := "sha256:0000000000000000000000000000000000000000000000000000000000000000".

Record Engine := mkEngine { producer : ProducerBinding; privateKey : string }.

Definition WithPrivateKey (key : string) (e : Engine) : Engine := mkEngine (producer e) key.

Definition NewEngine (p : ProducerBinding) (opts : list (Engine -> Engine)) : Engine :=
  foldl (fun e opt => opt e) (mkEngine p "") opts.

Definition json_producer (p : ProducerBinding) : string :=
  json_object [("spiffeId", json_string (SPIFFEID p)); ("keyDigest", json_string (KeyDigest p))].

Definition claims (id stage disp subject : string) (p : ProducerBinding) (at_ : string) (states : gmap string string) : string :=
  json_object
    [("receiptId", json_string id); ("stage", json_string stage); ("disposition", json_string disp);
     ("subjectDigest", json_string subject); ("producer", json_producer p);
     ("producedAt", json_string at_); ("vectorStates", json_map states)].

Section Ed25519.

Context (sign : string -> string -> string) (verify : string -> string -> string -> bool).

Definition createReceipt (e : Engine) (env : Env) (stage disp subjectDigest : string) (states : gmap string string) : AuditReceipt :=
  let now := RFC3339Nano (now1 env) in
  let subject := if subjectDigest ==? "" then zeroDigest else subjectDigest in
  let receiptID := "rcpt-" +:+ ToLower stage +:+ "-" +:+ Itoa (UnixNano (now2 env)) in
  let payload := claims receiptID stage disp subject (producer e) now states in
  let digest := "sha256:" +:+ sha256_hex payload in
  let signature :=
    if Z.of_nat (String.length (privateKey e)) ==? PrivateKeySize
    then EncodeToString (sign (privateKey e) digest) else "" in
  mkReceipt receiptID stage disp subject (producer e) now digest signature.

Definition VerifyReceipt (r : AuditReceipt) (publicKey : string) : option AdmissionErr :=
  if (ReceiptID r ==? "") || (RStage r ==? "") || (Digest r ==? "")
  then Some (ErrReceiptVerification "missing required receipt fields")
  else if Z.of_nat (String.length publicKey) !=? PublicKeySize
  then Some (ErrReceiptVerification "invalid public key length")
  else if Signature r ==? "" then Some (ErrReceiptVerification "receipt has no signature")
  else match DecodeString (Signature r) with
  | None => Some (ErrReceiptSignature "decode signature")
  | Some sig =>
      if negb (verify publicKey (Digest r) sig) then Some (ErrReceiptSignature "signature verification mismatch")
      else None
  end.

Definition buildDecision (e : Engine) (env : Env) (stage disp reason subjectDigest : string)
    (states : gmap string string) (obls : list Obligation) : Decision :=
  mkDecision stage disp reason states obls (createReceipt e env stage disp subjectDigest states).

(** The body the four stages share. *)
Definition admit_stage (e : Engine) (env : Env) (stage : string) (invalid : option AdmissionErr)
    (keys : list string) (states : gmap string string) (subjectDigest : string) (obligations : list Obligation)
    : AdmissionErr + Decision :=
  match ctxErr env with
  | Some err => inl (ErrContextCanceled err)
  | None =>
      match invalid with
      | Some err => inl err
      | None =>
          let '(disp, reason) := resolveVectorStates keys states in
          let obls := if disp ==? DispositionAdmitWithObligations then obligations else [] in
          inr (buildDecision e env stage disp reason subjectDigest states obls)
      end
  end.

Definition dataKeys := ["integrity"; "provenance"; "licensing"; "privacy"].
Definition dataStates (i : DataAdmissionInput) : gmap string string :=
  list_to_map [("integrity", IntegrityState i); ("provenance", ProvenanceState i);
    ("licensing", LicensingState i); ("privacy", PrivacyState i)].
Definition AdmitData (e : Engine) (env : Env) (i : DataAdmissionInput) : AdmissionErr + Decision :=
  admit_stage e env StageData (validateDataInput i) dataKeys (dataStates i) (DSubjectDigest i) (dataObligations i).

Definition modelKeys := ["artifactIntegrity"; "signature"; "attestation"; "sbom"; "license"].
Definition modelStates (i : ModelAdmissionInput) : gmap string string :=
  list_to_map [("artifactIntegrity", ArtifactIntegrityState i); ("signature", SignatureState i);
    ("attestation", AttestationState i); ("sbom", SBOMState i); ("license", LicenseState i)].
Definition AdmitModel (e : Engine) (env : Env) (i : ModelAdmissionInput) : AdmissionErr + Decision :=
  admit_stage e env StageModel (validateModelInput i) modelKeys (modelStates i) (MSubjectDigest i) (modelObligations i).

Definition deploymentKeys := ["policy"; "runtimeCompatibility"; "acceleratorTopology"; "airGapProfile"; "capacity"].
Definition deploymentStates (i : DeploymentAdmissionInput) : gmap string string :=
  list_to_map [("policy", PolicyState i); ("runtimeCompatibility", RuntimeCompatibilityState i);
    ("acceleratorTopology", AcceleratorTopologyState i); ("airGapProfile", AirGapProfileState i);
    ("capacity", CapacityState i)].
Definition AdmitDeployment (e : Engine) (env : Env) (i : DeploymentAdmissionInput) : AdmissionErr + Decision :=
  admit_stage e env StageDeployment (validateDeploymentInput i) deploymentKeys (deploymentStates i)
    (YSubjectDigest i) (deploymentObligations i).

Definition requestKeys := ["risk"; "identityTenant"; "capabilityLease"; "quotaBudget"].
Definition requestStates (i : RequestAdmissionInput) : gmap string string :=
  list_to_map [("risk", RiskState i); ("identityTenant", IdentityTenantState i);
    ("capabilityLease", CapabilityLeaseState i); ("quotaBudget", QuotaBudgetState i)].
Definition AdmitRequest (e : Engine) (env : Env) (i : RequestAdmissionInput) : AdmissionErr + Decision :=
  admit_stage e env StageRequest (validateRequestInput i) requestKeys (requestStates i) (QSubjectDigest i) (requestObligations i).

(** The loop of the pipeline over the results of the stages, which it asks for
    one at a time. *)
Definition halts (d : Decision) : bool :=
  (Disposition d ==? DispositionQuarantine) || (Disposition d ==? DispositionDeny).

Fixpoint run_stages (stages : list (unit -> AdmissionErr + Decision)) (decisions : list Decision)
    (obls : list Obligation) (receipts : list AuditReceipt) : AdmissionErr + PipelineDecision :=
  let result := mkPipeline (calculateOverallDisposition decisions) decisions obls receipts in
  match stages with
  | [] => inr result
  | sf :: stages =>
      match sf tt with
      | inl err => inl err
      | inr dec =>
          let decisions := decisions ++ [dec] in
          let obls := obls ++ Obligations dec in
          let receipts := receipts ++ [Receipt dec] in
          if halts dec then inr (mkPipeline (calculateOverallDisposition decisions) decisions obls receipts)
          else run_stages stages decisions obls receipts
      end
  end.

Definition stageFuncs (e : Engine) (envs : nat -> Env) (d : DataAdmissionInput) (m : ModelAdmissionInput)
    (y : DeploymentAdmissionInput) (q : RequestAdmissionInput) : list (unit -> AdmissionErr + Decision) :=
  [fun _ => AdmitData e (envs 0%nat) d; fun _ => AdmitModel e (envs 1%nat) m;
   fun _ => AdmitDeployment e (envs 2%nat) y; fun _ => AdmitRequest e (envs 3%nat) q].

Definition EvaluatePipeline (e : Engine) (entry : option string) (envs : nat -> Env) (d : DataAdmissionInput)
    (m : ModelAdmissionInput) (y : DeploymentAdmissionInput) (q : RequestAdmissionInput) : AdmissionErr + PipelineDecision :=
  match entry with
  | Some err => inl (ErrContextCanceled err)
  | None => run_stages (stageFuncs e envs d m y q) [] [] []
  end.

End Ed25519.

(** ** Severity

    The reference reading of the states: one class per disposition. *)

Definition severity (s : string) : Z :=
  if quarantined s then 6 else if violated s then 5 else if unclear s then 4
  else if held s then 3 else if conditional s then 2 else 1.

Definition worst (l : list string) : Z := foldr (fun s m => severity s `max` m) 1 l.

Lemma severity_range s : 1 <= severity s <= 6.
Proof. unfold severity. go_cases; lia. Qed.

Lemma worst_ge l : 1 <= worst l.
Proof. induction l; simpl; lia. Qed.

Lemma worst_app l1 l2 : worst (l1 ++ l2) = worst l1 `max` worst l2.
Proof. induction l1 as [|s l IH]; simpl; [pose proof (worst_ge l2)|rewrite IH]; lia. Qed.

Lemma worst_elem s l : s ∈ l -> severity s <= worst l.
Proof. induction 1; simpl; lia. Qed.

Lemma worst_le l n : 1 <= n -> (forall s, s ∈ l -> severity s <= n) -> worst l <= n.
Proof. intros Hn Hle. induction l as [|s l IH]; simpl; [lia|]. set_unfold. apply Z.max_lub; auto. Qed.

Definition disposition_of (n : Z) : string :=
  if n ==? 6 then DispositionQuarantine else if n ==? 5 then DispositionDeny else if n ==? 4 then DispositionEscalate
  else if n ==? 3 then DispositionSafeHold else if n ==? 2 then DispositionAdmitWithObligations else DispositionAdmit.

Definition reason_of (n : Z) (k : string) : string :=
  if n ==? 6 then k +:+ " dimension is quarantined" else if n ==? 5 then k +:+ " dimension violated admission policy"
  else if n ==? 4 then k +:+ " dimension requires escalation" else if n ==? 3 then k +:+ " dimension placed on safe-hold"
  else k +:+ " dimension admitted with obligations".

(** The most severe class among the dimensions, and the first dimension in it. *)
Definition resolve_spec (keys : list string) (states : gmap string string) : string * string :=
  let n := worst (state_of states <$> keys) in
  (disposition_of n,
   if n ==? 1 then "all stage dimensions verified and compliant"
   else reason_of n (default "" (pass (fun s => severity s ==? n) states keys))).

Lemma pass_ext p q states keys :
  (forall k, k ∈ keys -> p (state_of states k) = q (state_of states k)) -> pass p states keys = pass q states keys.
Proof.
  unfold pass. induction keys as [|k keys IH]; intros H; [done|]. simpl.
  rewrite (H k) by left. destruct (q _); [done|]. apply IH. intros; apply H; by right.
Qed.

Lemma pass_none p states keys k : pass p states keys = None -> k ∈ keys -> p (state_of states k) = false.
Proof. intros H Hk. by eapply (find_none _ _ H), list_elem_of_In. Qed.

Lemma pass_some p states keys k : pass p states keys = Some k -> k ∈ keys /\ p (state_of states k) = true.
Proof. intros H. apply find_some in H as [H ?]. by rewrite <- list_elem_of_In in H. Qed.

(** A class is the worst when some dimension is in it and the passes before it
    found nothing. *)
Lemma worst_pass n p states keys k :
  pass p states keys = Some k -> 1 <= n ->
  (forall s, s ∈ state_of states <$> keys -> severity s <= n /\ (severity s = n <-> p s = true)) ->
  worst (state_of states <$> keys) = n /\ pass (fun s => severity s ==? n) states keys = Some k.
Proof.
  intros Hp Hn H. destruct (pass_some _ _ _ _ Hp) as [Hk Hpk]. 
  assert (state_of states k ∈ state_of states <$> keys) as Hin by (apply list_elem_of_fmap; eauto).
  split.
  - apply Z.le_antisymm; [apply worst_le; [done|]; intros; by apply H|].
    destruct (H _ Hin) as [_ E]. rewrite <- (proj2 E Hpk). by apply worst_elem.
  - rewrite <- Hp. apply pass_ext. intros k' Hk'.
    assert (state_of states k' ∈ state_of states <$> keys) as Hin' by (apply list_elem_of_fmap; eauto).
    destruct (H _ Hin') as [_ E]. destruct (p (state_of states k')) eqn:Ep; case_bool_decide; naive_solver.
Qed.

Ltac worst_case n p Hp :=
  destruct (worst_pass n p _ _ _ Hp ltac:(lia)) as [-> ->];
  [intros s (k' & -> & Hk')%list_elem_of_fmap; unfold severity;
   repeat match goal with H : pass _ _ _ = None |- _ => rewrite (pass_none _ _ _ _ H Hk'); clear H end;
   clear Hp; go_cases; split; (lia || naive_solver)
  |done].

Lemma resolve_equiv keys states : resolveVectorStates keys states = resolve_spec keys states.
Proof.
  unfold resolveVectorStates, resolve_spec.
  destruct (pass quarantined _ _) as [k|] eqn:H6; [worst_case 6 quarantined H6|].
  destruct (pass violated _ _) as [k|] eqn:H5; [worst_case 5 violated H5|].
  destruct (pass unclear _ _) as [k|] eqn:H4; [worst_case 4 unclear H4|].
  destruct (pass held _ _) as [k|] eqn:H3; [worst_case 3 held H3|].
  destruct (pass conditional _ _) as [k|] eqn:H2; [worst_case 2 conditional H2|].
  assert (worst (state_of states <$> keys) = 1) as ->; [|done].
  apply Z.le_antisymm; [|apply worst_ge]. apply worst_le; [done|]. intros s (k & -> & Hk)%list_elem_of_fmap.
  unfold severity. rewrite (pass_none _ _ _ _ H6 Hk), (pass_none _ _ _ _ H5 Hk), (pass_none _ _ _ _ H4 Hk),
    (pass_none _ _ _ _ H3 Hk), (pass_none _ _ _ _ H2 Hk). lia.
Qed.

Lemma worst_range l : 1 <= worst l <= 6.
Proof. split; [apply worst_ge|]. apply worst_le; [done|]. intros s _. apply severity_range. Qed.

Lemma rank_disposition n : 1 <= n <= 6 -> rank (disposition_of n) = n.
Proof.
  intros Hn. by destruct (decide (n = 1)), (decide (n = 2)), (decide (n = 3)), (decide (n = 4)), (decide (n = 5)),
    (decide (n = 6)); subst; try lia.
Qed.

Lemma disposition_of_inj n m : 1 <= n <= 6 -> 1 <= m <= 6 -> disposition_of n = disposition_of m -> n = m.
Proof. intros Hn Hm E. by rewrite <- (rank_disposition n Hn), E, rank_disposition. Qed.

Lemma overall_fold ws ds h :
  1 <= h <= 6 -> Forall2 (fun d l => Disposition d = disposition_of (worst l)) ds ws ->
  foldl (fun highest d => if rank (Disposition d) >? rank highest then Disposition d else highest) (disposition_of h) ds
  = disposition_of (h `max` worst (concat ws)).
Proof.
  intros Hh H. revert h Hh. induction H as [|d l ds ws Hd _ IH]; intros h Hh; simpl; [f_equal; lia|].
  pose proof (worst_range l). rewrite Hd, !rank_disposition, worst_app by lia. case_bool_decide; rewrite IH by lia; f_equal; lia.
Qed.

Lemma overall_is_worst ws ds :
  ds <> [] -> Forall2 (fun d l => Disposition d = disposition_of (worst l)) ds ws ->
  calculateOverallDisposition ds = disposition_of (worst (concat ws)).
Proof.
  intros Hne H. destruct ds as [|d ds]; [done|]. unfold calculateOverallDisposition.
  change DispositionAdmit with (disposition_of 1). rewrite (overall_fold ws _ 1) by (done || lia).
  f_equal. pose proof (worst_ge (concat ws)). lia.
Qed.

(** ** The pipeline *)

(** The states of the four stages, in the order the code looks at them. *)
Definition stage_states (d : DataAdmissionInput) (m : ModelAdmissionInput) (y : DeploymentAdmissionInput)
    (q : RequestAdmissionInput) : list (list string) :=
  [[IntegrityState d; ProvenanceState d; LicensingState d; PrivacyState d];
   [ArtifactIntegrityState m; SignatureState m; AttestationState m; SBOMState m; LicenseState m];
   [PolicyState y; RuntimeCompatibilityState y; AcceleratorTopologyState y; AirGapProfileState y; CapacityState y];
   [RiskState q; IdentityTenantState q; CapabilityLeaseState q; QuotaBudgetState q]].

(** The stages up to and including the first that denies or quarantines. *)
Fixpoint executed (ls : list (list string)) : list (list string) :=
  match ls with
  | [] => []
  | l :: ls => if worst l >=? 5 then [l] else l :: executed ls
  end.

(** What the loop returns, given the results of the stages. *)
Fixpoint collect (rs : list (AdmissionErr + Decision)) : AdmissionErr + list Decision :=
  match rs with
  | [] => inr []
  | inl err :: _ => inl err
  | inr d :: rs =>
      if halts d then inr [d]
      else match collect rs with inl err => inl err | inr ds => inr (d :: ds) end
  end.

Definition summary (ds : list Decision) : PipelineDecision :=
  mkPipeline (calculateOverallDisposition ds) ds (concat (Obligations <$> ds)) (Receipt <$> ds).

Section Pipeline.

Context (sign : string -> string -> string).
Implicit Types (e : Engine) (env : Env).

Lemma run_stages_collect stages ds :
  run_stages stages ds (concat (Obligations <$> ds)) (Receipt <$> ds) =
  match collect ((fun sf => sf tt) <$> stages) with inl err => inl err | inr l => inr (summary (ds ++ l)) end.
Proof.
  revert ds. induction stages as [|sf stages IH]; intros ds; simpl; [by rewrite app_nil_r|].
  destruct (sf tt) as [err|d]; [done|].
  assert (concat (Obligations <$> ds) ++ Obligations d = concat (Obligations <$> ds ++ [d])) as ->
    by (by rewrite fmap_app, concat_app; simpl; rewrite app_nil_r).
  assert ((Receipt <$> ds) ++ [Receipt d] = Receipt <$> ds ++ [d]) as -> by (by rewrite fmap_app).
  destruct (halts d); [done|]. rewrite IH. destruct (collect _); [done|]. by rewrite <- app_assoc.
Qed.

Lemma pipeline_collect e envs d m y q :
  EvaluatePipeline sign e None envs d m y q =
  match collect ((fun sf => sf tt) <$> stageFuncs sign e envs d m y q) with inl err => inl err | inr l => inr (summary l) end.
Proof. exact (run_stages_collect _ []). Qed.

Lemma admit_stage_disposition e env stage invalid keys states digest obls d :
  admit_stage sign e env stage invalid keys states digest obls = inr d ->
  Disposition d = disposition_of (worst (state_of states <$> keys)).
Proof. unfold admit_stage. rewrite resolve_equiv. unfold resolve_spec.
  destruct (ctxErr env); [done|]. destruct invalid; [done|]. by intros [= <-]. Qed.

(** Each stage decides by the worst of its states. *)
Definition decides (r : AdmissionErr + Decision) (l : list string) : Prop :=
  forall d, r = inr d -> Disposition d = disposition_of (worst l).

Lemma stages_decide e envs d m y q :
  Forall2 decides ((fun sf => sf tt) <$> stageFuncs sign e envs d m y q) (stage_states d m y q).
Proof.
  repeat constructor; intros dec H%admit_stage_disposition; exact H.
Qed.

Lemma halts_worst d l : Disposition d = disposition_of (worst l) -> halts d = (worst l >=? 5).
Proof.
  intros H. unfold halts. rewrite H. pose proof (worst_range l) as Hr. clear H. generalize dependent (worst l). clear l. intros n Hn.
  by destruct (decide (n = 1)), (decide (n = 2)), (decide (n = 3)), (decide (n = 4)), (decide (n = 5)),
    (decide (n = 6)); subst; try lia.
Qed.

Lemma collect_executed rs ls ds :
  Forall2 decides rs ls -> collect rs = inr ds ->
  Forall2 (fun d l => Disposition d = disposition_of (worst l)) ds (executed ls).
Proof.
  intros H. revert ds. induction H as [|r l rs ls Hr _ IH]; intros ds Hds; simpl in *; [by simplify_eq; constructor|].
  destruct r as [|d]; [done|]. specialize (Hr d eq_refl). rewrite (halts_worst d l Hr) in Hds.
  case_bool_decide; [simplify_eq; repeat constructor; done|].
  destruct (collect rs) as [|ds']; simplify_eq. constructor; [done|]. by apply IH.
Qed.

(** Why a stage, or the pipeline itself, gives up: the context first, then the input. *)
Definition fault (ctx : option string) (invalid : option AdmissionErr) : option AdmissionErr :=
  match ctx with Some c => Some (ErrContextCanceled c) | None => invalid end.

(** A stage needs a subject and every one of its states. *)
Definition missing (subject : string) (states : list string) : option AdmissionErr :=
  if decide (subject = "") then Some (ErrInvalidInput "subject ID required")
  else if decide ("" ∈ states) then Some (ErrInvalidInput "all vector states must be populated")
  else None.

Definition stage_faults (envs : nat -> Env) (d : DataAdmissionInput) (m : ModelAdmissionInput)
    (y : DeploymentAdmissionInput) (q : RequestAdmissionInput) : list (option AdmissionErr) :=
  [fault (ctxErr (envs 0%nat))
     (missing (DSubjectID d) [ProvenanceState d; LicensingState d; PrivacyState d; IntegrityState d]);
   fault (ctxErr (envs 1%nat))
     (missing (MSubjectID m)
        [ArtifactIntegrityState m; SBOMState m; SignatureState m; AttestationState m; LicenseState m]);
   fault (ctxErr (envs 2%nat))
     (missing (YSubjectID y)
        [RuntimeCompatibilityState y; AcceleratorTopologyState y; CapacityState y; PolicyState y; AirGapProfileState y]);
   fault (ctxErr (envs 3%nat))
     (missing (QSubjectID q) [IdentityTenantState q; CapabilityLeaseState q; QuotaBudgetState q; RiskState q])].

(** The validators look for exactly that. *)
Lemma missing_valid subject (states : list string) (b : bool) :
  (b = true <-> "" ∈ states) ->
  (if subject ==? "" then Some subjectRequired else if b then Some statesRequired else None) = missing subject states.
Proof.
  intros Hb. unfold missing. case_bool_decide as Hs; [by rewrite decide_True|]. rewrite decide_False by done.
  destruct b; [rewrite decide_True by (by apply Hb)|rewrite decide_False by (by intros ?%Hb)]; done.
Qed.

Ltac solve_missing :=
  apply missing_valid; rewrite !orb_true_iff, !bool_decide_eq_true, !elem_of_cons, elem_of_nil; naive_solver.

Lemma validateData_missing d :
  validateDataInput d = missing (DSubjectID d) [ProvenanceState d; LicensingState d; PrivacyState d; IntegrityState d].
Proof. solve_missing. Qed.

Lemma validateModel_missing m :
  validateModelInput m = missing (MSubjectID m)
    [ArtifactIntegrityState m; SBOMState m; SignatureState m; AttestationState m; LicenseState m].
Proof. solve_missing. Qed.

Lemma validateDeployment_missing y :
  validateDeploymentInput y = missing (YSubjectID y)
    [RuntimeCompatibilityState y; AcceleratorTopologyState y; CapacityState y; PolicyState y; AirGapProfileState y].
Proof. solve_missing. Qed.

Lemma validateRequest_missing q :
  validateRequestInput q = missing (QSubjectID q) [IdentityTenantState q; CapabilityLeaseState q; QuotaBudgetState q; RiskState q].
Proof. solve_missing. Qed.

(** The faults met: at the entrance, then in the stages that are reached. *)
Definition pipeline_fault (entry : option string) (envs : nat -> Env) (d : DataAdmissionInput) (m : ModelAdmissionInput)
    (y : DeploymentAdmissionInput) (q : RequestAdmissionInput) : option AdmissionErr :=
  head (omap id (fault entry None :: take (length (executed (stage_states d m y q))) (stage_faults envs d m y q))).

Definition fails_with (f : option AdmissionErr) (r : AdmissionErr + Decision) : Prop :=
  match f with Some err => r = inl err | None => exists d, r = inr d end.

Lemma admit_stage_fault e env stage invalid keys states digest obls :
  fails_with (fault (ctxErr env) invalid) (admit_stage sign e env stage invalid keys states digest obls).
Proof.
  unfold fails_with, fault, admit_stage. destruct (ctxErr env); [done|]. destruct invalid; [done|].
  rewrite resolve_equiv. unfold resolve_spec. eauto.
Qed.

Lemma stages_fault e envs d m y q :
  Forall2 fails_with (stage_faults envs d m y q) ((fun sf => sf tt) <$> stageFuncs sign e envs d m y q).
Proof.
  unfold stage_faults. rewrite <- validateData_missing, <- validateModel_missing, <- validateDeployment_missing, <- validateRequest_missing.
  repeat constructor; apply admit_stage_fault.
Qed.

Lemma collect_fault fs rs ls :
  Forall2 fails_with fs rs -> Forall2 decides rs ls ->
  match head (omap id (take (length (executed ls)) fs)) with
  | Some err => collect rs = inl err
  | None => exists ds, collect rs = inr ds
  end.
Proof.
  intros Hf. revert ls. induction Hf as [|f r fs rs Hfr _ IH]; intros ls Hd; inversion_clear Hd as [|? l ? ls' Hr Hd']; simpl; [eauto|].
  destruct f as [err|]; simpl in Hfr; [subst; by case_bool_decide|]. destruct Hfr as [d ->].
  rewrite (halts_worst d l (Hr d eq_refl)). case_bool_decide; simpl; [eauto|].
  specialize (IH ls' Hd'). destruct (head _); [by rewrite IH|]. destruct IH as [ds ->]. eauto.
Qed.

Lemma pipeline_outcome e entry envs d m y q :
  match pipeline_fault entry envs d m y q with
  | Some err => EvaluatePipeline sign e entry envs d m y q = inl err
  | None => exists ds, EvaluatePipeline sign e entry envs d m y q = inr (summary ds)
      /\ Forall2 (fun dec l => Disposition dec = disposition_of (worst l)) ds (executed (stage_states d m y q))
  end.
Proof.
  unfold pipeline_fault. destruct entry as [c|]; [done|]. rewrite pipeline_collect. cbn [omap list_omap fault id].
  pose proof (collect_fault _ _ _ (stages_fault e envs d m y q) (stages_decide e envs d m y q)) as H.
  destruct (head _); [by rewrite H|]. destruct H as [ds H]. rewrite H. exists ds. split; [done|].
  by eapply collect_executed, H; apply stages_decide.
Qed.

End Pipeline.

(** C30. Which pipelines fail, and how: the errors are a context that ended, at
    the entrance or when a stage starts, an empty subject ID and an empty
    state of a stage.  The pipeline fails exactly when it meets one of them, with the
    first it meets, in that order within a stage; a fault of a stage behind a
    denial or a quarantine is never seen. *)
Theorem pipeline_errors sign e entry envs d m y q err :
  EvaluatePipeline sign e entry envs d m y q = inl err <-> pipeline_fault entry envs d m y q = Some err.
Proof.
  pose proof (pipeline_outcome sign e entry envs d m y q) as H. destruct (pipeline_fault _ _ _ _ _ _).
  - rewrite H. naive_solver.
  - destruct H as (ds & -> & _). done.
Qed.

(** C29. Without a fault the pipeline decides: the stages executed are those up to
    the first that denies or quarantines, each decides by its most severe
    state, the overall disposition is that of the most severe state among
    them, and the obligations and receipts are those of the stages executed. *)
Theorem pipeline_decides sign e entry envs d m y q :
  pipeline_fault entry envs d m y q = None ->
  let reached := executed (stage_states d m y q) in
  exists p, EvaluatePipeline sign e entry envs d m y q = inr p
    /\ OverallDisposition p = disposition_of (worst (concat reached))
    /\ Disposition <$> StageDecisions p = disposition_of ∘ worst <$> reached
    /\ PObligations p = concat (Obligations <$> StageDecisions p)
    /\ AuditReceipts p = Receipt <$> StageDecisions p.
Proof.
  intros Hf reached. pose proof (pipeline_outcome sign e entry envs d m y q) as H. rewrite Hf in H.
  destruct H as (ds & -> & H). exists (summary ds). split; [done|]. split_and!; [|simpl|done|done].
  - apply overall_is_worst; [|done]. unfold executed, stage_states in H. destruct ds; [|done]. inversion H as [Hx|]. by case_bool_decide.
  - clear Hf. subst reached. induction H as [|dec l ds ls Hd _ IH]; [done|]. by rewrite !fmap_cons, Hd, IH.
Qed.

Lemma executed_admits ls : worst (concat (executed ls)) = 1 <-> worst (concat ls) = 1.
Proof.
  induction ls as [|l ls IH]; [done|]. simpl. pose proof (worst_ge (concat ls)). pose proof (worst_ge (concat (executed ls))).
  case_bool_decide; simpl; rewrite ?app_nil_r, ?worst_app; lia.
Qed.

Lemma worst_benign l : worst l = 1 <-> Forall (fun s => severity s = 1) l.
Proof.
  induction l as [|s l IH]; simpl; [done|]. rewrite Forall_cons, <- IH.
  pose proof (severity_range s). pose proof (worst_ge l). lia.
Qed.

(** A workload is admitted without conditions exactly when none of the states
    of its four stages is in one of the five classes of concern. *)
Theorem pipeline_admits_iff sign e entry envs d m y q p :
  EvaluatePipeline sign e entry envs d m y q = inr p ->
  OverallDisposition p = DispositionAdmit <-> Forall (fun s => severity s = 1) (concat (stage_states d m y q)).
Proof.
  intros H. pose proof (pipeline_outcome sign e entry envs d m y q) as Ho. rewrite H in Ho.
  destruct (pipeline_fault _ _ _ _ _ _); [done|]. destruct Ho as (ds & [= ->] & Hd). cbn [OverallDisposition summary].
  rewrite (overall_is_worst (executed (stage_states d m y q))) by (done || (intros ->; inversion Hd as [Hx|]; simpl in Hx; by case_bool_decide)).
  rewrite <- worst_benign, <- executed_admits. change DispositionAdmit with (disposition_of 1).
  split; [|by intros ->]. apply disposition_of_inj; [apply worst_range|lia].
Qed.

(** ** Receipts *)

Section Receipts.

Context (sign : string -> string -> string) (verify : string -> string -> string -> bool) (public : string -> string).

(** Ed25519: a public key has 32 bytes, a signature 64, and a signature made
    with a private key of 64 bytes verifies with its public key. *)
Context (public_size : forall k, Z.of_nat (String.length (public k)) = PublicKeySize)
  (signature_size : forall k msg, String.length (sign k msg) = 64%nat)
  (sign_verify : forall k msg, Z.of_nat (String.length k) = PrivateKeySize -> verify (public k) msg (sign k msg) = true).

Lemma encode_nonempty s : s <> "" -> EncodeToString s <> "".
Proof. by destruct s as [|a [|b [|c s]]]. Qed.

Lemma receipt_verifies e env stage disp subject states :
  stage <> "" -> Z.of_nat (String.length (privateKey e)) = PrivateKeySize ->
  VerifyReceipt verify (createReceipt sign e env stage disp subject states) (public (privateKey e)) = None.
Proof.
  intros Hs Hk. unfold VerifyReceipt, createReceipt. cbn [ReceiptID RStage Digest Signature].
  set (digest := "sha256:" +:+ sha256_hex _). assert (digest <> "") by done. clearbody digest.
  rewrite (bool_decide_true (_ = PrivateKeySize)) by done.
  rewrite (bool_decide_false (stage = "")), (bool_decide_true (_ = PublicKeySize)) by done.
  assert (EncodeToString (sign (privateKey e) digest) <> "").
  { apply encode_nonempty. intros E. pose proof (signature_size (privateKey e) digest) as Hl. by rewrite E in Hl. }
  rewrite !(bool_decide_false (_ = "")) by done. simpl.
  by rewrite base64_round_trip, sign_verify.
Qed.

Lemma admit_stage_receipt e env stage invalid keys states digest obls d :
  stage <> "" -> Z.of_nat (String.length (privateKey e)) = PrivateKeySize ->
  admit_stage sign e env stage invalid keys states digest obls = inr d ->
  VerifyReceipt verify (Receipt d) (public (privateKey e)) = None.
Proof.
  intros Hs Hk. unfold admit_stage. rewrite resolve_equiv. unfold resolve_spec.
  destruct (ctxErr env); [done|]. destruct invalid; [done|]. intros [= <-]. by apply receipt_verifies.
Qed.

Lemma collect_elem rs ds d : collect rs = inr ds -> d ∈ ds -> inr d ∈ rs.
Proof.
  revert ds. induction rs as [|[err|d'] rs IH]; intros ds H Hd; simpl in *; [by simplify_eq; set_solver|done|].
  destruct (halts d'); [simplify_eq; set_solver|]. destruct (collect rs) as [|ds']; simplify_eq.
  apply elem_of_cons in Hd as [->|Hd]; [left|]. right. by eapply IH.
Qed.

(** C31. Every receipt of a pipeline run by an engine with a private key verifies
    with the key's public half: encoding, signing, decoding and verifying fit
    together. *)
Theorem issued_receipts_verify e entry envs d m y q p :
  Z.of_nat (String.length (privateKey e)) = PrivateKeySize ->
  EvaluatePipeline sign e entry envs d m y q = inr p ->
  Forall (fun r => VerifyReceipt verify r (public (privateKey e)) = None) (AuditReceipts p).
Proof.
  intros Hk. destruct entry as [c|]; [done|]. rewrite pipeline_collect.
  destruct (collect _) as [|ds] eqn:Hc; [done|]. intros [= <-]. apply Forall_fmap, Forall_forall. intros dec Hdec.
  pose proof (collect_elem _ _ _ Hc Hdec) as H. cbn in H. rewrite !elem_of_cons in H.
  destruct H as [H|[H|[H|[H|H]]]]; [..|by inversion H]; by eapply admit_stage_receipt; [..|exact (eq_sym H)].
Qed.

End Receipts.

(** Only the digest is under the signature, and the verification does not
    recompute it: a receipt whose disposition, subject, producer and time are
    replaced verifies as before. *)
Lemma receipt_fields_unprotected verify r pk id stage disp subject p at_ :
  ReceiptID r <> "" -> RStage r <> "" -> id <> "" -> stage <> "" ->
  VerifyReceipt verify (mkReceipt id stage disp subject p at_ (Digest r) (Signature r)) pk = VerifyReceipt verify r pk.
Proof. intros. unfold VerifyReceipt. simpl.
  by rewrite (bool_decide_false (id = "")), (bool_decide_false (stage = "")), (bool_decide_false (ReceiptID r = "")),
    (bool_decide_false (RStage r = "")) by done. Qed.

(** A state outside the eleven constants is no concern. *)
Lemma unrecognised_state_admits : severity "REVOKED" = 1 /\ severity "violated" = 1 /\ severity StateVerified = 1.
Proof. vm_compute. done. Qed.

(** A degraded dimension admits with obligations, but no obligation is attached. *)
Lemma obligations_missing e env d :
  ctxErr env = None -> d = mkData "id" "" StateVerified StateVerified StateVerified StateDegraded ∅ ->
  exists dec, AdmitData (fun _ _ => "") e env d = inr dec
    /\ Disposition dec = DispositionAdmitWithObligations /\ Obligations dec = [].
Proof. intros Hc ->. unfold AdmitData, admit_stage. rewrite Hc. simpl. eexists. split; [reflexivity|]. done. Qed.

(** ** Witnesses *)

Definition sampleEngine : Engine := NewEngine (mkProducer "spiffe://x" "k") [WithPrivateKey (String.concat "" (replicate 64 "k"))].
Definition sampleEnvs (i : nat) : Env := mkEnv None unix_epoch unix_epoch.
Definition sampleData := mkData "id" "" StateVerified StateConditional StateVerified StateVerified ∅.
Definition sampleModel := mkModel "id" "" StateVerified StateVerified StateVerified StateVerified StateVerified ∅.
Definition sampleDeployment := mkDeployment "id" "" StateVerified StateVerified StatePending StateVerified StateVerified ∅.
Definition sampleRequest := mkRequest "id" "" StateVerified StateVerified StateVerified StateVerified ∅.

(** A toy signature scheme with the sizes of Ed25519: the message is not read. *)
Definition toy_sign (k msg : string) : string := String.concat "" (replicate 64 "s").
Definition toy_public (k : string) : string := String.concat "" (replicate 32 "p").
Definition toy_verify (pk msg sig : string) : bool := (pk ==? toy_public "") && (sig ==? toy_sign "" "").

Lemma pipeline_decides_witness :
  exists p, EvaluatePipeline toy_sign sampleEngine None sampleEnvs sampleData sampleModel sampleDeployment sampleRequest = inr p
    /\ OverallDisposition p = DispositionSafeHold.
Proof.
  destruct (pipeline_decides toy_sign sampleEngine None sampleEnvs sampleData sampleModel sampleDeployment sampleRequest)
    as (p & Hp & Ho & _); [reflexivity|]. exists p. split; [exact Hp|]. rewrite Ho. reflexivity.
Defined.

Definition sampleHeld : PipelineDecision :=
  match EvaluatePipeline toy_sign sampleEngine None sampleEnvs sampleData sampleModel sampleDeployment sampleRequest with
  | inr p => p
  | inl _ => mkPipeline "" [] [] []
  end.

Lemma sample_runs :
  EvaluatePipeline toy_sign sampleEngine None sampleEnvs sampleData sampleModel sampleDeployment sampleRequest = inr sampleHeld.
Proof.
  pose proof (pipeline_outcome toy_sign sampleEngine None sampleEnvs sampleData sampleModel sampleDeployment sampleRequest) as H.
  change (pipeline_fault _ _ _ _ _ _) with (@None AdmissionErr) in H. destruct H as (ds & H & _). unfold sampleHeld. by rewrite H.
Qed.

Lemma pipeline_admits_iff_witness : ~ OverallDisposition sampleHeld = DispositionAdmit.
Proof.
  rewrite (pipeline_admits_iff toy_sign sampleEngine None sampleEnvs sampleData sampleModel sampleDeployment sampleRequest sampleHeld sample_runs).
  rewrite <- worst_benign. vm_compute. discriminate.
Defined.

Lemma toy_ed25519 :
  (forall k, Z.of_nat (String.length (toy_public k)) = PublicKeySize) /\ (forall k msg, String.length (toy_sign k msg) = 64%nat)
  /\ (forall k msg, Z.of_nat (String.length k) = PrivateKeySize -> toy_verify (toy_public k) msg (toy_sign k msg) = true).
Proof. repeat split. Qed.

Lemma issued_receipts_verify_witness :
  Forall (fun r => VerifyReceipt toy_verify r (toy_public (privateKey sampleEngine)) = None) (AuditReceipts sampleHeld).
Proof.
  destruct toy_ed25519 as (Hp & Hs & Hv).
  apply (issued_receipts_verify toy_sign toy_verify toy_public Hp Hs Hv sampleEngine None sampleEnvs sampleData sampleModel
    sampleDeployment sampleRequest sampleHeld); [reflexivity|apply sample_runs].
Defined.
