(* ===== verification/FlightRecorder.v ===== *)
(** * The four truth channels and the flight recorder

    [internal/evidence/channels/truth_channels.go]: records of telemetry,
    execution, decision and evidence, kept per correlation in a bounded
    recorder that evicts the oldest correlation; the invariants across the
    channels; the sealing of a correlation.  Timestamps are instants in UTC;
    the lock is not modelled, each method being one atomic step.  Errors keep
    their sentinel and drop the text they wrap. *)

From S2P Require Import Prelude GoStrings GoFloat GoTime Sha256 GoRegexp GoJson Redaction.
From Stdlib Require Import Ascii.

(** ** Vector states *)

Definition ChannelTelemetry := "telemetry".
Definition ChannelExecution := "execution".
Definition ChannelDecision := "decision".
Definition ChannelEvidence := "evidence".
Definition TelemetryStateNominal := "nominal".
Definition TelemetryStateDegraded := "degraded".
Definition TelemetryStateAnomalous := "anomalous".
Definition TelemetryStateCritical := "critical".
Definition ExecutionStatePending := "pending".
Definition ExecutionStateRunning := "running".
Definition ExecutionStateCompleted := "completed".
Definition ExecutionStateFailed := "failed".
Definition ExecutionStateHalted := "halted".
Definition DispositionPass := "PASS".
Definition DispositionDegrade := "DEGRADE".
Definition DispositionDeny := "DENY".
Definition DispositionQuarantine := "QUARANTINE".
Definition DispositionEscalate := "ESCALATE".
Definition EvidenceStateCommitted := "committed".
Definition EvidenceStateVerified := "verified".
Definition EvidenceStateRejected := "rejected".
Definition EvidenceStateQuarantine := "quarantine".
Definition InvariantStateSatisfied := "satisfied".
Definition InvariantStateViolated := "violated".
Definition InvariantStateIndeterminate := "indeterminate".
Definition RecorderStateOperational := "operational".
Definition RecorderStateDegraded := "degraded".
Definition RecorderStateSealed := "sealed".

Inductive ChannelErr :=
| ErrEmptyCorrelation
| ErrZeroSequence
| ErrInvalidDigestFormat
| ErrRecorderCapacity
| ErrRecorderSealed
| ErrCorrelationNotFound
| ErrMarshal.

#[export] Instance ChannelErr_eq_dec : EqDecision ChannelErr.
Proof. solve_decision. Defined.

(** ** Sanitizing *)

Definition RedactedMask := "__REDACTED__".

(** [-----BEGIN [A-Z ]*PRIVATE KEY-----] *)
Definition secretKeyBlock : regex :=
  Seq (lit "-----BEGIN ") (Seq (Star (Class (fun c => upper c || one_of " " c))) (lit "PRIVATE KEY-----")).

(** [(?i)(?:api_key|sk-[a-zA-Z0-9]{20,})] *)
Definition ci_k : regex := Alt (ci "k" "K")%char kelvin.
Definition ci_s : regex := Alt (ci "s" "S")%char long_s.
Definition secretAPIKey : regex :=
  Alt (Seq (ci "a" "A") (Seq (ci "p" "P") (Seq (ci "i" "I") (Seq (lit "_") (Seq ci_k (Seq (ci "e" "E") (ci "y" "Y")))))))%char
    (Seq ci_s (Seq ci_k (Seq (lit "-") (at_least 20 (ci_class alnum))))).

Definition sanitizers : list regex := [ssn; credit_card; email; ipv4; bearer_token; secretKeyBlock; secretAPIKey].

Definition SanitizeText (s : string) : string :=
  if s ==? "" then s else foldl (fun out r => ReplaceAllString r out RedactedMask) s sanitizers.

Definition SanitizeLabels (labels : option (gmap string string)) : option (gmap string string) :=
  (fun m : gmap string string => SanitizeText <$> m) <$> labels.

Definition ValidateSHA256 (v : string) : option ChannelErr :=
  if negb (HasPrefix v "sha256:") || (Z.of_nat (String.length v) !=? 7 + 32 * 2) then Some ErrInvalidDigestFormat
  else
    let raw := TrimPrefix v "sha256:" in
    if ToLower raw !=? raw then Some ErrInvalidDigestFormat
    else if negb (hex_decodes raw) then Some ErrInvalidDigestFormat
    else None.

(** ** Records *)

Record CorrelationContext := mkCtx {
  CorrelationID : string; WorkloadID : string; TenantID : string; Timestamp : Time; Sequence : Z
}.

Definition validateContext (c : CorrelationContext) : option ChannelErr :=
  if TrimSpace (CorrelationID c) ==? "" then Some ErrEmptyCorrelation
  else if Sequence c ==? 0 then Some ErrZeroSequence
  else None.

Record TelemetryRecord := mkTelemetry {
  tCtx : CorrelationContext; MetricName : string; MetricValue : float64; Unit_ : string; tState : string;
  Labels : option (gmap string string)
}.

Record ExecutionRecord := mkExecution {
  xCtx : CorrelationContext; Component : string; Action : string; FromState : string; ToState : string;
  ResourceRef : string; xState : string
}.

Record DecisionRecord := mkDecision {
  dCtx : CorrelationContext; PolicyID : string; RuleID : string; Disposition : string; EvaluatorAppraisal : string;
  FactsDigest : string; EvaluationLatencyMs : Z; ReasonCode : string
}.

Record EvidenceRecord := mkEvidence {
  eCtx : CorrelationContext; ReceiptID : string; SubjectDigest : string; ProducerSPIFFE : string;
  ProducerKeyDigest : string; eState : string; PreviousDigest : string; SignatureRef : string
}.

Record SealedFlightRecord := mkSealed {
  SCorrelationID : string; RootDigest : string; RecordCount : Z; SState : string; SealedAt : Time; ProducerID : string
}.

Record CorrelatedFlightTraces := mkTraces {
  CCorrelationID : string;
  Telemetry : list TelemetryRecord;
  Execution : list ExecutionRecord;
  Decision : list DecisionRecord;
  Evidence : list EvidenceRecord;
  CState : string;
  Violations : list string
}.

(** ** The recorder *)

Record FlightRecorder := mkRecorder {
  capacity : Z;
  producerID : string;
  state : string;
  order : list string;
  seen : gset string;
  telemetry : gmap string (list TelemetryRecord);
  execution : gmap string (list ExecutionRecord);
  decision : gmap string (list DecisionRecord);
  evidence : gmap string (list EvidenceRecord);
  sealed : gmap string SealedFlightRecord
}.

Definition NewFlightRecorder (cap : Z) (producer : string) : FlightRecorder + ChannelErr :=
  if cap <=? 0 then inr ErrRecorderCapacity
  else inl (mkRecorder cap producer RecorderStateOperational [] ∅ ∅ ∅ ∅ ∅ ∅).

Definition evict_oldest (fr : FlightRecorder) : FlightRecorder :=
  if Z.of_nat (length (order fr)) >=? capacity fr then
    match order fr with
    | [] => fr
    | evicted :: rest =>
        mkRecorder (capacity fr) (producerID fr) (state fr) rest (seen fr ∖ {[evicted]})
          (delete evicted (telemetry fr)) (delete evicted (execution fr)) (delete evicted (decision fr))
          (delete evicted (evidence fr)) (delete evicted (sealed fr))
    end
  else fr.

Definition touchCorrelationLocked (fr : FlightRecorder) (cid : string) : FlightRecorder :=
  if bool_decide (cid ∈ seen fr) then fr
  else
    let fr := evict_oldest fr in
    mkRecorder (capacity fr) (producerID fr) (state fr) (order fr ++ [cid]) (seen fr ∪ {[cid]})
      (telemetry fr) (execution fr) (decision fr) (evidence fr) (sealed fr).

Definition is_sealed (fr : FlightRecorder) (cid : string) : bool := bool_decide (is_Some (sealed fr !! cid)).

(** [fr.channel[cid] = append(fr.channel[cid], r)]. *)
Definition append_to {A} (m : gmap string (list A)) (cid : string) (r : A) : gmap string (list A) :=
  <[cid := default [] (m !! cid) ++ [r]]> m.

Definition add_telemetry (fr : FlightRecorder) (cid : string) (r : TelemetryRecord) : FlightRecorder :=
  mkRecorder (capacity fr) (producerID fr) (state fr) (order fr) (seen fr)
    (append_to (telemetry fr) cid r) (execution fr) (decision fr) (evidence fr) (sealed fr).
Definition add_execution (fr : FlightRecorder) (cid : string) (r : ExecutionRecord) : FlightRecorder :=
  mkRecorder (capacity fr) (producerID fr) (state fr) (order fr) (seen fr)
    (telemetry fr) (append_to (execution fr) cid r) (decision fr) (evidence fr) (sealed fr).
Definition add_decision (fr : FlightRecorder) (cid : string) (r : DecisionRecord) : FlightRecorder :=
  mkRecorder (capacity fr) (producerID fr) (state fr) (order fr) (seen fr)
    (telemetry fr) (execution fr) (append_to (decision fr) cid r) (evidence fr) (sealed fr).
Definition add_evidence (fr : FlightRecorder) (cid : string) (r : EvidenceRecord) : FlightRecorder :=
  mkRecorder (capacity fr) (producerID fr) (state fr) (order fr) (seen fr)
    (telemetry fr) (execution fr) (decision fr) (append_to (evidence fr) cid r) (sealed fr).

(** The part the four methods share, under the lock. *)
Definition record_locked {A} (add : FlightRecorder -> string -> A -> FlightRecorder) (fr : FlightRecorder)
    (cid : string) (r : A) : FlightRecorder * option ChannelErr :=
  if is_sealed fr cid then (fr, Some ErrRecorderSealed)
  else (add (touchCorrelationLocked fr cid) cid r, None).

Definition RecordTelemetry (fr : FlightRecorder) (r : TelemetryRecord) : FlightRecorder * option ChannelErr :=
  match validateContext (tCtx r) with
  | Some err => (fr, Some err)
  | None =>
      let r := mkTelemetry (tCtx r) (SanitizeText (MetricName r)) (MetricValue r) (Unit_ r) (tState r) (SanitizeLabels (Labels r)) in
      record_locked add_telemetry fr (CorrelationID (tCtx r)) r
  end.

Definition RecordExecution (fr : FlightRecorder) (r : ExecutionRecord) : FlightRecorder * option ChannelErr :=
  match validateContext (xCtx r) with
  | Some err => (fr, Some err)
  | None =>
      let r := mkExecution (xCtx r) (Component r) (SanitizeText (Action r)) (FromState r) (ToState r)
                 (SanitizeText (ResourceRef r)) (xState r) in
      record_locked add_execution fr (CorrelationID (xCtx r)) r
  end.

Definition RecordDecision (fr : FlightRecorder) (r : DecisionRecord) : FlightRecorder * option ChannelErr :=
  match validateContext (dCtx r) with
  | Some err => (fr, Some err)
  | None =>
      match ValidateSHA256 (FactsDigest r) with
      | Some err => (fr, Some err)
      | None =>
          let r := mkDecision (dCtx r) (PolicyID r) (RuleID r) (Disposition r) (SanitizeText (EvaluatorAppraisal r))
                     (FactsDigest r) (EvaluationLatencyMs r) (SanitizeText (ReasonCode r)) in
          record_locked add_decision fr (CorrelationID (dCtx r)) r
      end
  end.

Definition RecordEvidence (fr : FlightRecorder) (r : EvidenceRecord) : FlightRecorder * option ChannelErr :=
  match validateContext (eCtx r) with
  | Some err => (fr, Some err)
  | None => match ValidateSHA256 (SubjectDigest r) with
  | Some err => (fr, Some err)
  | None => match ValidateSHA256 (ProducerKeyDigest r) with
  | Some err => (fr, Some err)
  | None => match (if PreviousDigest r !=? "" then ValidateSHA256 (PreviousDigest r) else None) with
  | Some err => (fr, Some err)
  | None => record_locked add_evidence fr (CorrelationID (eCtx r)) r
  end end end end.

(** ** The invariants across the channels *)

Definition denies (d : DecisionRecord) : bool := (Disposition d ==? DispositionDeny) || (Disposition d ==? DispositionQuarantine).
Definition active (e : ExecutionRecord) : bool := (xState e ==? ExecutionStateRunning) || (xState e ==? ExecutionStateCompleted).
Definition untrusted (ev : EvidenceRecord) : bool := (eState ev ==? EvidenceStateRejected) || (eState ev ==? EvidenceStateQuarantine).

(** [e.Timestamp.After(d.Timestamp) || e.Timestamp.Equal(d.Timestamp)]. *)
Definition not_before (e : ExecutionRecord) (d : DecisionRecord) : bool :=
  After (Timestamp (xCtx e)) (Timestamp (dCtx d)) || (Timestamp (xCtx e) ==? Timestamp (dCtx d)).

Definition checkAntiExecute (decs : list DecisionRecord) (execs : list ExecutionRecord) : list string :=
  d ← decs;
  if denies d then
    e ← execs;
    if not_before e d && active e
    then ["anti_execute: " +:+ Component e +:+ " reached " +:+ xState e +:+ " after " +:+ Disposition d] else []
  else [].

Definition checkActiveUntrusted (execs : list ExecutionRecord) (evs : list EvidenceRecord) : list string :=
  ev ← evs;
  if untrusted ev then
    e ← execs;
    if active e then ["active_untrusted: active " +:+ Component e +:+ " with untrusted evidence " +:+ ReceiptID ev] else []
  else [].

Definition checkDecisionPrecedence (decs : list DecisionRecord) (execs : list ExecutionRecord) : list string :=
  e ← execs;
  if (xState e ==? ExecutionStateCompleted) && (Z.of_nat (length decs) ==? 0)
  then ["decision_missing: " +:+ Component e +:+ " completed without decision"] else [].

(** [before] is the record at the index before, if there is one. *)
Fixpoint chain_from (before : option EvidenceRecord) (evs : list EvidenceRecord) : list string :=
  match evs with
  | [] => []
  | ev :: evs =>
      (match before with
       | None =>
           if PreviousDigest ev !=? "" then ["chain_break: root " +:+ ReceiptID ev +:+ " specifies previousDigest"] else []
       | Some b =>
           if PreviousDigest ev !=? SubjectDigest b then ["chain_break: " +:+ ReceiptID ev +:+ " previousDigest mismatch"] else []
       end) ++ chain_from (Some ev) evs
  end.

Definition checkEvidenceChaining (evs : list EvidenceRecord) : list string := chain_from None evs.

Definition recs {A} (m : gmap string (list A)) (cid : string) : list A := default [] (m !! cid).

Definition verifyInvariantsLocked (fr : FlightRecorder) (cid : string) : string * list string :=
  let violations :=
    checkAntiExecute (recs (decision fr) cid) (recs (execution fr) cid) ++
    checkActiveUntrusted (recs (execution fr) cid) (recs (evidence fr) cid) ++
    checkDecisionPrecedence (recs (decision fr) cid) (recs (execution fr) cid) ++
    checkEvidenceChaining (recs (evidence fr) cid) in
  if Z.of_nat (length violations) >? 0 then (InvariantStateViolated, violations) else (InvariantStateSatisfied, []).

Definition VerifyInvariants (fr : FlightRecorder) (cid : string) : string * list string * option ChannelErr :=
  if bool_decide (cid ∈ seen fr) then (verifyInvariantsLocked fr cid, None)
  else (InvariantStateIndeterminate, [], Some ErrCorrelationNotFound).

Definition Correlate (fr : FlightRecorder) (cid : string) : CorrelatedFlightTraces + ChannelErr :=
  if bool_decide (cid ∈ seen fr) then
    let '(invState, violations) := verifyInvariantsLocked fr cid in
    inl (mkTraces cid (recs (telemetry fr) cid) (recs (execution fr) cid) (recs (decision fr) cid) (recs (evidence fr) cid)
           invState violations)
  else inr ErrCorrelationNotFound.

(** ** JSON of the records *)

Definition omit_empty (k v : string) : list (string * string) := if v ==? "" then [] else [(k, json_string v)].

Definition json_context (c : CorrelationContext) : option (list (string * string)) :=
  ts ← json_time (Timestamp c);
  Some ([("correlationId", json_string (CorrelationID c)); ("workloadId", json_string (WorkloadID c))]
    ++ omit_empty "tenantId" (TenantID c) ++ [("timestamp", ts); ("sequence", Itoa (Sequence c))]).

Definition json_telemetry (r : TelemetryRecord) : option string :=
  ctx ← json_context (tCtx r); v ← json_float (MetricValue r);
  Some (json_object (ctx ++ [("metricName", json_string (MetricName r)); ("metricValue", v); ("unit", json_string (Unit_ r));
    ("state", json_string (tState r))] ++
    match Labels r with Some m => if m ==? ∅ then [] else [("labels", json_map m)] | None => [] end)).

Definition json_execution (r : ExecutionRecord) : option string :=
  ctx ← json_context (xCtx r);
  Some (json_object (ctx ++ [("component", json_string (Component r)); ("action", json_string (Action r));
    ("fromState", json_string (FromState r)); ("toState", json_string (ToState r));
    ("resourceRef", json_string (ResourceRef r)); ("state", json_string (xState r))])).

Definition json_decision (r : DecisionRecord) : option string :=
  ctx ← json_context (dCtx r);
  Some (json_object (ctx ++ [("policyId", json_string (PolicyID r)); ("ruleId", json_string (RuleID r));
    ("disposition", json_string (Disposition r)); ("evaluatorAppraisal", json_string (EvaluatorAppraisal r));
    ("factsDigest", json_string (FactsDigest r)); ("evaluationLatencyMs", Itoa (EvaluationLatencyMs r));
    ("reasonCode", json_string (ReasonCode r))])).

Definition json_evidence (r : EvidenceRecord) : option string :=
  ctx ← json_context (eCtx r);
  Some (json_object (ctx ++ [("receiptId", json_string (ReceiptID r)); ("subjectDigest", json_string (SubjectDigest r));
    ("producerSpiffe", json_string (ProducerSPIFFE r)); ("producerKeyDigest", json_string (ProducerKeyDigest r));
    ("state", json_string (eState r))] ++ omit_empty "previousDigest" (PreviousDigest r) ++
    [("signatureRef", json_string (SignatureRef r))])).

(** A slice of records: a missing one is [null]. *)
Definition marshal {A} (f : A -> option string) (l : list A) : option string :=
  match l with [] => Some "null" | _ => json_array <$> mapM f l end.

Definition computeRootDigestLocked (fr : FlightRecorder) (cid : string) : option (string * Z) :=
  t ← marshal json_telemetry (recs (telemetry fr) cid);
  x ← marshal json_execution (recs (execution fr) cid);
  d ← marshal json_decision (recs (decision fr) cid);
  e ← marshal json_evidence (recs (evidence fr) cid);
  Some ("sha256:" +:+ sha256_hex (t +:+ x +:+ d +:+ e),
        Z.of_nat (length (recs (telemetry fr) cid)) + Z.of_nat (length (recs (execution fr) cid))
        + Z.of_nat (length (recs (decision fr) cid)) + Z.of_nat (length (recs (evidence fr) cid))).

Definition Seal (now : Time) (fr : FlightRecorder) (cid : string) : FlightRecorder * (SealedFlightRecord + ChannelErr) :=
  match sealed fr !! cid with
  | Some s => (fr, inl s)
  | None =>
      if bool_decide (cid ∈ seen fr) then
        match computeRootDigestLocked fr cid with
        | None => (fr, inr ErrMarshal)
        | Some (digest, count) =>
            let s := mkSealed cid digest count (verifyInvariantsLocked fr cid).1 now (producerID fr) in
            (mkRecorder (capacity fr) (producerID fr) (state fr) (order fr) (seen fr) (telemetry fr) (execution fr)
               (decision fr) (evidence fr) (<[cid := s]> (sealed fr)), inl s)
        end
      else (fr, inr ErrCorrelationNotFound)
  end.

Definition State (fr : FlightRecorder) : string := state fr.

(** ** Operations as steps *)

Inductive op :=
| OpTelemetry (r : TelemetryRecord)
| OpExecution (r : ExecutionRecord)
| OpDecision (r : DecisionRecord)
| OpEvidence (r : EvidenceRecord)
| OpSeal (now : Time) (cid : string).

Definition step (fr : FlightRecorder) (o : op) : FlightRecorder :=
  match o with
  | OpTelemetry r => (RecordTelemetry fr r).1
  | OpExecution r => (RecordExecution fr r).1
  | OpDecision r => (RecordDecision fr r).1
  | OpEvidence r => (RecordEvidence fr r).1
  | OpSeal now cid => (Seal now fr cid).1
  end.

Definition run (fr : FlightRecorder) (ops : list op) : FlightRecorder := foldl step fr ops.

(** The records of a correlation. *)
Definition traces (fr : FlightRecorder) (cid : string) :=
  (recs (telemetry fr) cid, recs (execution fr) cid, recs (decision fr) cid, recs (evidence fr) cid).

Lemma traces_digest fr fr' cid : traces fr cid = traces fr' cid ->
  computeRootDigestLocked fr cid = computeRootDigestLocked fr' cid /\ verifyInvariantsLocked fr cid = verifyInvariantsLocked fr' cid.
Proof. unfold traces, computeRootDigestLocked, verifyInvariantsLocked. intros [= -> -> -> ->]. done. Qed.

Lemma recs_delete {A} (m : gmap string (list A)) k cid : k <> cid -> recs (delete k m) cid = recs m cid.
Proof. intros H. unfold recs. by rewrite lookup_delete_ne. Qed.

Lemma recs_append_ne {A} (m : gmap string (list A)) k cid r : k <> cid -> recs (append_to m k r) cid = recs m cid.
Proof. intros H. unfold recs, append_to. by rewrite lookup_insert_ne. Qed.

Lemma recs_append_eq {A} (m : gmap string (list A)) cid r : recs (append_to m cid r) cid = recs m cid ++ [r].
Proof. unfold recs, append_to. by rewrite lookup_insert_eq. Qed.

(** A sealed record commits to the records as they are. *)
Definition commits (fr : FlightRecorder) (cid : string) (s : SealedFlightRecord) : Prop :=
  SCorrelationID s = cid /\ computeRootDigestLocked fr cid = Some (RootDigest s, RecordCount s)
  /\ SState s = (verifyInvariantsLocked fr cid).1 /\ ProducerID s = producerID fr.

Record recorder_wf (fr : FlightRecorder) : Prop := mkWf {
  wf_capacity : 0 < capacity fr;
  wf_order : NoDup (order fr);
  wf_length : Z.of_nat (length (order fr)) <= capacity fr;
  wf_seen : seen fr = list_to_set (order fr);
  wf_telemetry : dom (telemetry fr) ⊆ seen fr;
  wf_execution : dom (execution fr) ⊆ seen fr;
  wf_decision : dom (decision fr) ⊆ seen fr;
  wf_evidence : dom (evidence fr) ⊆ seen fr;
  wf_sealed_seen : dom (sealed fr) ⊆ seen fr;
  wf_sealed cid s : sealed fr !! cid = Some s -> commits fr cid s
}.

Lemma commits_traces fr fr' cid s :
  traces fr' cid = traces fr cid -> producerID fr' = producerID fr -> commits fr cid s -> commits fr' cid s.
Proof. intros H Hp (? & ? & ? & ?). destruct (traces_digest _ _ _ H) as [Hd Hv]. unfold commits. by rewrite Hd, Hv, Hp. Qed.

Lemma new_recorder_wf cap p fr : NewFlightRecorder cap p = inl fr -> recorder_wf fr.
Proof.
  unfold NewFlightRecorder. case_bool_decide; [done|]. intros [= <-]. split; simpl; try set_solver || lia.
  constructor.
Qed.

Lemma evict_oldest_wf fr : recorder_wf fr -> recorder_wf (evict_oldest fr) /\ Z.of_nat (length (order (evict_oldest fr))) < capacity fr.
Proof.
  intros [Hc Ho Hl Hs Ht Hx Hd He Hss Hk]. unfold evict_oldest. case_bool_decide as Hlen; [|split; [by split|lia]].
  destruct (order fr) as [|ev rest] eqn:E; [simpl in *; lia|]. apply NoDup_cons in Ho as [Hnin Ho].
  split; [|simpl in *; lia]. split; simpl in *; try done; try lia; try (rewrite dom_delete_L; set_solver).
  - rewrite Hs. set_solver.
  - intros cid s [Hne Hcid]%lookup_delete_Some. apply (commits_traces fr); [|done|by apply Hk].
    unfold traces. simpl. by rewrite !recs_delete.
Qed.

Lemma touch_wf fr cid : recorder_wf fr -> recorder_wf (touchCorrelationLocked fr cid).
Proof.
  intros Hwf. unfold touchCorrelationLocked. case_bool_decide as Hin; [done|].
  destruct (evict_oldest_wf fr Hwf) as [[Hc Ho Hl Hs Ht Hx Hd He Hss Hk] Hlt].
  assert (capacity (evict_oldest fr) = capacity fr) as Hcap by (unfold evict_oldest; go_goal; [destruct (order fr)|]; done).
  assert (cid ∉ seen (evict_oldest fr)) as Hnot.
  { unfold evict_oldest. case_bool_decide; [|done]. destruct (order fr); [done|]. simpl. set_solver. }
  split; simpl; [done| | | |by etrans; [|apply union_subseteq_l]..|exact Hk].
  - rewrite Hs in Hnot. apply NoDup_app. split_and!; [done|set_solver|apply NoDup_singleton].
  - rewrite length_app. simpl. lia.
  - rewrite Hs, list_to_set_app_L. set_solver.
Qed.

(** What touching a correlation does to the others. *)
Lemma touch_others fr cid cid' :
  cid' ∈ seen (touchCorrelationLocked fr cid) -> cid' <> cid -> recorder_wf fr ->
  traces (touchCorrelationLocked fr cid) cid' = traces fr cid'
  /\ sealed (touchCorrelationLocked fr cid) !! cid' = sealed fr !! cid'.
Proof.
  intros Hin Hne Hwf. unfold touchCorrelationLocked in *. case_bool_decide; [done|]. simpl in *.
  unfold evict_oldest in *. case_bool_decide; [|done]. destruct (order fr) as [|ev rest]; [done|]. simpl in *.
  assert (ev <> cid') by set_solver. rewrite lookup_delete_ne by done. unfold traces. simpl. by rewrite !recs_delete.
Qed.

(** One record is added to the channels of [cid]. *)
Definition adds_only (fr fr' : FlightRecorder) (cid : string) : Prop :=
  (capacity fr', producerID fr', state fr', order fr', seen fr', sealed fr') =
    (capacity fr, producerID fr, state fr, order fr, seen fr, sealed fr)
  /\ (forall cid', cid' <> cid -> traces fr' cid' = traces fr cid')
  /\ dom (telemetry fr') ⊆ dom (telemetry fr) ∪ {[cid]} /\ dom (execution fr') ⊆ dom (execution fr) ∪ {[cid]}
  /\ dom (decision fr') ⊆ dom (decision fr) ∪ {[cid]} /\ dom (evidence fr') ⊆ dom (evidence fr) ∪ {[cid]}.

Lemma dom_append {A} (m : gmap string (list A)) cid r : dom (append_to m cid r) ⊆ dom m ∪ {[cid]}.
Proof. unfold append_to. rewrite dom_insert_L. set_solver. Qed.

Ltac solve_adds :=
  intros; unfold adds_only; split; [done|]; split;
  [intros cid' Hne; unfold traces; simpl; by rewrite recs_append_ne by done
  |simpl; split_and!; first [apply dom_append | apply union_subseteq_l]].

Lemma add_telemetry_only fr cid r : adds_only fr (add_telemetry fr cid r) cid.
Proof. solve_adds. Qed.
Lemma add_execution_only fr cid r : adds_only fr (add_execution fr cid r) cid.
Proof. solve_adds. Qed.
Lemma add_decision_only fr cid r : adds_only fr (add_decision fr cid r) cid.
Proof. solve_adds. Qed.
Lemma add_evidence_only fr cid r : adds_only fr (add_evidence fr cid r) cid.
Proof. solve_adds. Qed.

Lemma touch_seen fr cid : cid ∈ seen (touchCorrelationLocked fr cid).
Proof. unfold touchCorrelationLocked. case_bool_decide; simpl; set_solver. Qed.

Lemma touch_unsealed fr cid : sealed fr !! cid = None -> sealed (touchCorrelationLocked fr cid) !! cid = None.
Proof.
  intros H. unfold touchCorrelationLocked. case_bool_decide; [done|]. simpl. unfold evict_oldest. case_bool_decide; [|done].
  destruct (order fr) as [|ev rest]; [done|]. simpl. destruct (decide (ev = cid)) as [->|]; [apply lookup_delete_eq|].
  by rewrite lookup_delete_ne.
Qed.

Lemma adds_wf fr fr' cid :
  recorder_wf fr -> cid ∈ seen fr -> sealed fr !! cid = None -> adds_only fr fr' cid -> recorder_wf fr'.
Proof.
  intros [Hc Ho Hl Hs Ht Hx Hd He Hss Hk] Hin Hns ([= Ec Ep Est Eo Es Esl] & Hother & Dt & Dx & Dd & De).
  assert (forall D D' : gset string, D' ⊆ D ∪ {[cid]} -> D ⊆ seen fr -> D' ⊆ seen fr) as Hsub by (clear -Hin; set_solver).
  split; rewrite ?Ec, ?Eo, ?Es, ?Esl; eauto. intros cid' s Hcid'.
  apply (commits_traces fr); [|done|by apply Hk]. apply Hother. by intros ->; rewrite Hns in Hcid'.
Qed.

(** What a step does: nothing, one record more for an unsealed correlation, or a seal. *)
Inductive step_effect (fr : FlightRecorder) : FlightRecorder -> Prop :=
| EffectNone : step_effect fr fr
| EffectRecord cid fr' :
    sealed fr !! cid = None -> adds_only (touchCorrelationLocked fr cid) fr' cid -> step_effect fr fr'
| EffectSeal cid s :
    sealed fr !! cid = None -> cid ∈ seen fr -> commits fr cid s ->
    step_effect fr (mkRecorder (capacity fr) (producerID fr) (state fr) (order fr) (seen fr) (telemetry fr) (execution fr)
      (decision fr) (evidence fr) (<[cid := s]> (sealed fr))).

Lemma record_locked_effect {A} (add : FlightRecorder -> string -> A -> FlightRecorder) fr cid r :
  (forall fr cid r, adds_only fr (add fr cid r) cid) -> step_effect fr (record_locked add fr cid r).1.
Proof.
  intros Hadd. unfold record_locked, is_sealed. case_bool_decide as Hs; [constructor|].
  apply (EffectRecord fr cid); [by apply eq_None_not_Some|apply Hadd].
Qed.

Lemma step_effects fr o : step_effect fr (step fr o).
Proof.
  destruct o as [r|r|r|r|now cid]; simpl.
  - unfold RecordTelemetry. destruct (validateContext _); [constructor|]. apply record_locked_effect, add_telemetry_only.
  - unfold RecordExecution. destruct (validateContext _); [constructor|]. apply record_locked_effect, add_execution_only.
  - unfold RecordDecision. destruct (validateContext _); [constructor|]. destruct (ValidateSHA256 _); [constructor|].
    apply record_locked_effect, add_decision_only.
  - unfold RecordEvidence. destruct (validateContext _); [constructor|]. do 2 (destruct (ValidateSHA256 _); [constructor|]).
    destruct (if PreviousDigest r !=? "" then _ else _); [constructor|]. apply record_locked_effect, add_evidence_only.
  - unfold Seal. destruct (sealed fr !! cid) eqn:Hs; [constructor|]. case_bool_decide; [|constructor].
    destruct (computeRootDigestLocked fr cid) as [[d n]|] eqn:Hd; [|constructor]. by apply EffectSeal.
Qed.

Lemma effect_wf fr fr' : recorder_wf fr -> step_effect fr fr' -> recorder_wf fr'.
Proof.
  intros Hwf [|cid fr1 Hns Hadd|cid s Hns Hin Hcom]; [done| |].
  - eapply adds_wf; [by apply touch_wf|apply touch_seen|by apply touch_unsealed|done].
  - destruct Hwf as [Hc Ho Hl Hs Ht Hx Hd He Hss Hk]. split; simpl; try done.
    + rewrite dom_insert_L. apply union_subseteq. split; [by apply singleton_subseteq_l|done].
    + intros cid' s' [[-> ->]|[Hne Hs']]%lookup_insert_Some; [exact Hcom|exact (Hk _ _ Hs')].
Qed.

Lemma recorder_run_wf ops fr : recorder_wf fr -> recorder_wf (run fr ops).
Proof. revert fr. induction ops as [|o ops IH]; intros fr Hwf; [done|]. apply IH, (effect_wf fr), step_effects. done. Qed.

(** ** The recorder's guarantees *)

(** Every recorder reached from a new one is well formed: at most [capacity]
    correlations, no channel knows a correlation that is not in the order, and
    every sealed record commits to the records the recorder still holds. *)
Theorem recorder_invariant cap p fr ops : NewFlightRecorder cap p = inl fr -> recorder_wf (run fr ops).
Proof. intros H. by eapply recorder_run_wf, new_recorder_wf. Qed.

Lemma effect_sealed fr fr' cid s :
  recorder_wf fr -> step_effect fr fr' -> sealed fr !! cid = Some s -> cid ∈ seen fr' ->
  sealed fr' !! cid = Some s /\ traces fr' cid = traces fr cid.
Proof.
  intros Hwf [|cid' fr1 Hns ([= _ _ _ _ Es Esl] & Hother & _)|cid' s' Hns Hin Hcom] Hs Hin'; [done| |].
  - assert (cid <> cid') as Hne by (by intros ->; rewrite Hs in Hns). rewrite Esl, (Hother cid Hne). rewrite Es in Hin'.
    destruct (touch_others fr cid' cid Hin' Hne Hwf) as [-> ->]. done.
  - simpl. rewrite lookup_insert_ne by (by intros ->; rewrite Hs in Hns). done.
Qed.

(** C32. A sealed correlation is frozen: whatever is recorded or sealed after, it
    keeps its seal and its records until it has been evicted. *)
Theorem sealed_frozen fr cid s ops :
  recorder_wf fr -> sealed fr !! cid = Some s ->
  (sealed (run fr ops) !! cid = Some s /\ traces (run fr ops) cid = traces fr cid)
  \/ exists before after, ops = before ++ after /\ cid ∉ seen (run fr before).
Proof.
  revert fr. induction ops as [|o ops IH]; intros fr Hwf Hs; [by left|]. simpl.
  destruct (decide (cid ∈ seen (step fr o))) as [Hin|Hout]; [|right; by exists [o], ops].
  destruct (effect_sealed fr _ cid s Hwf (step_effects fr o) Hs Hin) as [Hs' Ht].
  destruct (IH (step fr o) (effect_wf _ _ Hwf (step_effects fr o)) Hs') as [[? ?]|(b & a & -> & ?)].
  - left. split; [done|]. by rewrite <- Ht.
  - right. by exists (o :: b), a.
Qed.

(** Order after a step: at most the first correlation is gone and one is added. *)
Lemma effect_order fr fr' cid l1 l2 :
  step_effect fr fr' -> order fr = l1 ++ cid :: l2 -> Z.of_nat (length l2) + 1 < capacity fr ->
  capacity fr' = capacity fr /\ exists l1' l2', order fr' = l1' ++ cid :: l2' /\ (length l2' <= S (length l2))%nat.
Proof.
  intros [|cid' fr1 Hns ([= Ec _ _ Eo _ _] & _)|] Ho Hl; [eauto 10| |simpl; eauto 10].
  rewrite Ec, Eo. clear Ec Eo Hns. unfold touchCorrelationLocked. case_bool_decide; [eauto 10|]. simpl.
  unfold evict_oldest. rewrite Ho. case_bool_decide as Hfull; simpl; rewrite ?Ho.
  - destruct l1 as [|x l1]; simpl in *; [lia|]. split; [done|]. exists l1, (l2 ++ [cid']). rewrite length_app. simpl.
    split; [by rewrite <- app_assoc|lia].
  - split; [done|]. exists l1, (l2 ++ [cid']). rewrite length_app. simpl. split; [by rewrite <- app_assoc|lia].
Qed.

(** C33. Retention: a correlation with [k] newer ones is still there after fewer
    than [capacity - k] operations, whatever they are. *)
Theorem correlation_retained fr cid l1 l2 ops :
  recorder_wf fr -> order fr = l1 ++ cid :: l2 -> Z.of_nat (length l2) + Z.of_nat (length ops) < capacity fr ->
  cid ∈ seen (run fr ops).
Proof.
  revert fr l1 l2. induction ops as [|o ops IH]; intros fr l1 l2 Hwf Ho Hl.
  - simpl. rewrite (wf_seen _ Hwf), Ho. set_solver.
  - simpl in Hl. destruct (effect_order _ _ cid l1 l2 (step_effects fr o) Ho ltac:(lia)) as (Hc & l1' & l2' & Ho' & Hl').
    simpl. apply (IH _ l1' l2'); [by eapply effect_wf, step_effects|done|lia].
Qed.

(** ** The invariants *)

Definition never_after_denial (decs : list DecisionRecord) (execs : list ExecutionRecord) : Prop :=
  forall d e, d ∈ decs -> e ∈ execs -> denies d = true -> active e = true -> Timestamp (xCtx e) < Timestamp (dCtx d).

Definition trusted_when_active (execs : list ExecutionRecord) (evs : list EvidenceRecord) : Prop :=
  forall e ev, e ∈ execs -> ev ∈ evs -> active e = true -> untrusted ev = false.

Definition decided_before_completion (decs : list DecisionRecord) (execs : list ExecutionRecord) : Prop :=
  forall e, e ∈ execs -> xState e = ExecutionStateCompleted -> decs <> [].

(** The first record has no predecessor and each names the one before it. *)
Definition chained (evs : list EvidenceRecord) : Prop :=
  (forall ev, evs !! 0%nat = Some ev -> PreviousDigest ev = "")
  /\ forall i b ev, evs !! i = Some b -> evs !! S i = Some ev -> PreviousDigest ev = SubjectDigest b.

Lemma bind_nil {A B} (f : A -> list B) l : (l ≫= f) = [] <-> forall x, x ∈ l -> f x = [].
Proof.
  induction l as [|x l IH]; simpl; [set_solver|]. rewrite app_nil, IH.
  split; [intros [? ?] y [->|?]%elem_of_cons; auto|]. intros H. split; intros; apply H; [left|by right].
Qed.

Lemma if_nil {B} (b : bool) (x : B) : (if b then [x] else []) = [] <-> b = false.
Proof. by destruct b. Qed.

Lemma not_before_false e d : not_before e d = false <-> Timestamp (xCtx e) < Timestamp (dCtx d).
Proof. unfold not_before, After. rewrite orb_false_iff, !bool_decide_eq_false. lia. Qed.

Lemma checkAntiExecute_nil decs execs : checkAntiExecute decs execs = [] <-> never_after_denial decs execs.
Proof.
  unfold checkAntiExecute, never_after_denial. rewrite bind_nil. split.
  - intros H d e Hd He Hden Hact. specialize (H d Hd). rewrite Hden, bind_nil in H. specialize (H e He).
    rewrite if_nil, Hact, andb_true_r in H. by apply not_before_false.
  - intros H d Hd. destruct (denies d) eqn:Hden; [|done]. rewrite bind_nil. intros e He. rewrite if_nil.
    destruct (active e) eqn:Hact; [|by rewrite andb_false_r]. rewrite andb_true_r. apply not_before_false. by apply H.
Qed.

Lemma checkActiveUntrusted_nil execs evs : checkActiveUntrusted execs evs = [] <-> trusted_when_active execs evs.
Proof.
  unfold checkActiveUntrusted, trusted_when_active. rewrite bind_nil. split.
  - intros H e ev He Hev Hact. specialize (H ev Hev). destruct (untrusted ev); [|done].
    rewrite bind_nil in H. specialize (H e He). by rewrite Hact in H.
  - intros H ev Hev. destruct (untrusted ev) eqn:Hu; [|done]. rewrite bind_nil. intros e He. rewrite if_nil.
    destruct (active e) eqn:Hact; [|done]. by rewrite (H e ev He Hev Hact) in Hu.
Qed.

Lemma checkDecisionPrecedence_nil decs execs : checkDecisionPrecedence decs execs = [] <-> decided_before_completion decs execs.
Proof.
  unfold checkDecisionPrecedence, decided_before_completion. rewrite bind_nil. split; intros H e He; specialize (H e He).
  - rewrite if_nil in H. intros Hc ->. rewrite Hc in H. done.
  - rewrite if_nil. apply andb_false_iff. rewrite !bool_decide_eq_false.
    destruct (decide (xState e = ExecutionStateCompleted)) as [Hc|]; [right|by left]. destruct decs; [by destruct (H Hc)|simpl; lia].
Qed.

Lemma chain_from_nil evs before :
  chain_from before evs = [] <->
  (forall ev, evs !! 0%nat = Some ev -> PreviousDigest ev = match before with Some b => SubjectDigest b | None => "" end)
  /\ forall i b ev, evs !! i = Some b -> evs !! S i = Some ev -> PreviousDigest ev = SubjectDigest b.
Proof.
  revert before. induction evs as [|ev evs IH]; intros before; simpl; [naive_solver|]. rewrite app_nil, IH.
  assert ((match before with
       | None => if PreviousDigest ev !=? "" then ["chain_break: root " +:+ ReceiptID ev +:+ " specifies previousDigest"] else []
       | Some b => if PreviousDigest ev !=? SubjectDigest b then ["chain_break: " +:+ ReceiptID ev +:+ " previousDigest mismatch"] else []
       end) = [] <-> PreviousDigest ev = match before with Some b => SubjectDigest b | None => "" end) as ->.
  { destruct before; rewrite if_nil, negb_false_iff, bool_decide_eq_true; done. }
  split.
  - intros (H0 & H1 & H2). split; [by intros ? [= <-]|]. intros [|i] b e Hb He; simpl in *; [simplify_eq; auto|eauto].
  - intros (H0 & H1). split_and!; [by apply H0|intros e He; by apply (H1 0%nat)|intros i b e Hb He; by apply (H1 (S i) b e)].
Qed.

(** C34. The invariants of a correlation hold exactly when nothing ran at or after
    a denial, nothing is active with untrusted evidence, nothing completed
    without a decision, and the evidence is chained. *)
Theorem invariants_satisfied_iff fr cid :
  (verifyInvariantsLocked fr cid).1 = InvariantStateSatisfied <->
  never_after_denial (recs (decision fr) cid) (recs (execution fr) cid)
  /\ trusted_when_active (recs (execution fr) cid) (recs (evidence fr) cid)
  /\ decided_before_completion (recs (decision fr) cid) (recs (execution fr) cid)
  /\ chained (recs (evidence fr) cid).
Proof.
  rewrite <- checkAntiExecute_nil, <- checkActiveUntrusted_nil, <- checkDecisionPrecedence_nil.
  unfold chained. rewrite <- (chain_from_nil _ None). fold (checkEvidenceChaining (recs (evidence fr) cid)).
  unfold verifyInvariantsLocked. rewrite <- !app_nil. destruct (_ ++ _); [done|]. split; [|done]. by case_bool_decide; [|simpl in *; lia].
Qed.

(** ** Sanitized text *)

Definition no_identifier (s : string) : Prop := MatchString ssn s = false /\ MatchString ipv4 s = false.

Lemma sanitized_text s : no_identifier (SanitizeText s).
Proof.
  unfold no_identifier, SanitizeText. case_bool_decide; [by subst; vm_compute|].
  split; (apply placeholder_clean; [apply ssn_guarded || apply ipv4_guarded|by repeat constructor|repeat (left || right)]).
Qed.

Definition all_recs {A} (P : A -> Prop) (m : gmap string (list A)) : Prop := map_Forall (fun _ l => Forall P l) m.

Lemma all_recs_append {A} (P : A -> Prop) m cid r : all_recs P m -> P r -> all_recs P (append_to m cid r).
Proof.
  intros Hm Hr. apply map_Forall_insert_2; [|done]. apply Forall_app. split; [|by constructor].
  destruct (m !! cid) eqn:E; simpl; [by apply (Hm cid)|constructor].
Qed.

Lemma all_recs_delete {A} (P : A -> Prop) m cid : all_recs P m -> all_recs P (delete cid m).
Proof. apply map_Forall_delete. Qed.

Definition clean_telemetry (r : TelemetryRecord) : Prop :=
  no_identifier (MetricName r) /\ forall m, Labels r = Some m -> map_Forall (fun _ v => no_identifier v) m.
Definition clean_execution (r : ExecutionRecord) : Prop := no_identifier (Action r) /\ no_identifier (ResourceRef r).
Definition clean_decision (r : DecisionRecord) : Prop := no_identifier (EvaluatorAppraisal r) /\ no_identifier (ReasonCode r).

Definition text_clean (fr : FlightRecorder) : Prop :=
  all_recs clean_telemetry (telemetry fr) /\ all_recs clean_execution (execution fr) /\ all_recs clean_decision (decision fr).

Lemma touch_clean fr cid : text_clean fr -> text_clean (touchCorrelationLocked fr cid).
Proof.
  intros (Ht & Hx & Hd). unfold touchCorrelationLocked, evict_oldest. case_bool_decide; [done|].
  case_bool_decide; [|done]. destruct (order fr); [done|]. split_and!; by apply all_recs_delete.
Qed.

Lemma record_locked_clean {A} (add : FlightRecorder -> string -> A -> FlightRecorder) fr cid r :
  (forall fr, text_clean fr -> text_clean (add fr cid r)) -> text_clean fr -> text_clean (record_locked add fr cid r).1.
Proof. intros Hadd Hfr. unfold record_locked. destruct (is_sealed _ _); [done|]. by apply Hadd, touch_clean. Qed.

Lemma step_clean fr o : text_clean fr -> text_clean (step fr o).
Proof.
  intros Hfr. destruct o as [r|r|r|r|now cid]; simpl.
  - unfold RecordTelemetry. destruct (validateContext _); [done|]. apply record_locked_clean; [|done].
    intros fr' (Ht & Hx & Hd). split_and!; [|done..]. apply all_recs_append; [done|]. split; [apply sanitized_text|].
    simpl. intros m (m0 & _ & ->)%fmap_Some. apply map_Forall_fmap. intros k v _. apply sanitized_text.
  - unfold RecordExecution. destruct (validateContext _); [done|]. apply record_locked_clean; [|done].
    intros fr' (Ht & Hx & Hd). split_and!; [done| |done]. apply all_recs_append; [done|]. split; apply sanitized_text.
  - unfold RecordDecision. destruct (validateContext _); [done|]. destruct (ValidateSHA256 _); [done|].
    apply record_locked_clean; [|done]. intros fr' (Ht & Hx & Hd). split_and!; [done..|].
    apply all_recs_append; [done|]. split; apply sanitized_text.
  - unfold RecordEvidence. destruct (validateContext _); [done|]. do 2 (destruct (ValidateSHA256 _); [done|]).
    destruct (if PreviousDigest r !=? "" then _ else _); [done|]. by apply record_locked_clean.
  - unfold Seal. go_goal; [done|]. case_bool_decide; [|done]. destruct (computeRootDigestLocked fr cid) as [[??]|]; done.
Qed.

(** Whatever is submitted, no social security number and no IPv4 address
    between word boundaries is stored in the free-text fields of telemetry,
    execution and decision records. *)
Theorem recorded_text_clean cap p fr ops : NewFlightRecorder cap p = inl fr -> text_clean (run fr ops).
Proof.
  unfold NewFlightRecorder. case_bool_decide; [done|]. intros [= <-].
  set (fr := mkRecorder _ _ _ _ _ _ _ _ _ _). assert (text_clean fr) as Hfr by (split_and!; apply map_Forall_empty).
  clearbody fr. revert fr Hfr. induction ops as [|o ops IH]; intros fr Hfr; [done|]. by apply IH, step_clean.
Qed.

(** ** Witnesses and examples *)

Definition sampleCtx (cid : string) : CorrelationContext := mkCtx cid "w" "" unix_epoch 1.
Definition sampleExecution (cid : string) : ExecutionRecord := mkExecution (sampleCtx cid) "scheduler" "bind 10.0.0.1" "" "" "pod/a" ExecutionStateRunning.
Definition sampleRecorder (cap : Z) : FlightRecorder := mkRecorder cap "producer" RecorderStateOperational [] ∅ ∅ ∅ ∅ ∅ ∅.
Definition sampleOps : list op := [OpExecution (sampleExecution "a"); OpSeal unix_epoch "a"].

Lemma recorder_invariant_witness : recorder_wf (run (sampleRecorder 2) sampleOps).
Proof. apply (recorder_invariant 2 "producer"). reflexivity. Defined.

Lemma sampleSealed : exists s, sealed (run (sampleRecorder 2) sampleOps) !! "a" = Some s /\ SState s = InvariantStateSatisfied.
Proof. eexists. split; vm_compute; reflexivity. Qed.

Lemma sealed_frozen_witness :
  exists s, sealed (run (sampleRecorder 2) sampleOps) !! "a" = Some s /\
  ((sealed (run (run (sampleRecorder 2) sampleOps) sampleOps) !! "a" = Some s
    /\ traces (run (run (sampleRecorder 2) sampleOps) sampleOps) "a" = traces (run (sampleRecorder 2) sampleOps) "a")
   \/ exists before after, sampleOps = before ++ after /\ "a" ∉ seen (run (run (sampleRecorder 2) sampleOps) before)).
Proof.
  destruct sampleSealed as (s & Hs & _). exists s. split; [exact Hs|].
  apply (sealed_frozen (run (sampleRecorder 2) sampleOps) "a" s sampleOps); [|exact Hs].
  apply recorder_run_wf, (new_recorder_wf 2 "producer"). reflexivity.
Defined.

Lemma correlation_retained_witness : "a" ∈ seen (run (run (sampleRecorder 3) sampleOps) [OpExecution (sampleExecution "b")]).
Proof.
  apply (correlation_retained (run (sampleRecorder 3) sampleOps) "a" [] [] [OpExecution (sampleExecution "b")]);
    [apply recorder_run_wf, (new_recorder_wf 3 "producer"); reflexivity|vm_compute; reflexivity|vm_compute; reflexivity].
Defined.

Lemma recorded_text_clean_witness : text_clean (run (sampleRecorder 2) sampleOps).
Proof. apply (recorded_text_clean 2 "producer"). reflexivity. Defined.

(** Eviction forgets the seal: with room for one correlation, a sealed
    correlation is recorded again, and sealed again with another digest, after
    a different one was recorded. *)
Example seal_forgotten :
  let fr := run (sampleRecorder 1) sampleOps in
  let fr' := run fr [OpExecution (sampleExecution "b"); OpExecution (sampleExecution "a"); OpExecution (sampleExecution "a")] in
  (RecordExecution fr (sampleExecution "a")).2 = Some ErrRecorderSealed
  /\ sealed fr' !! "a" = None /\ length (recs (execution fr') "a") = 2%nat
  /\ (RootDigest <$> sealed (step fr' (OpSeal unix_epoch "a")) !! "a") <> (RootDigest <$> sealed fr !! "a").
Proof. vm_compute. split_and!; try reflexivity. discriminate. Qed.
