(* ===== verification/Receipts.v ===== *)
(** * Evidence receipts

    [internal/provenance]: signing, parsing and verification of receipts and
    the runtime verification record; [internal/observability/evidence_health.go]:
    the evaluation of a sequence of receipts and the sticky monitor.

    Ed25519, the SPIFFE library and the JSON decoder are arguments.  Errors
    keep their sentinel and drop the text they wrap. *)

From S2P Require Import Prelude GoStrings GoTime GoBase64 Sha256 GoJson.
From Stdlib Require Import Ascii.

(** ** receipt.go *)

Definition EvidenceReceiptSchemaV1 := "ckodex.evidence.receipt/v1".

Inductive ReceiptErr := ErrReceiptShape | ErrReceiptDigest | ErrReceiptProducer | ErrReceiptSignature.

#[export] Instance ReceiptErr_eq_dec : EqDecision ReceiptErr.
Proof. solve_decision. Defined.

Record ProducerBinding := mkProducer { SPIFFEID : string; KeyDigest : string }.

Record EvidenceReceipt := mkReceipt {
  Schema : string; ID : string; SubjectDigest : string; Producer : ProducerBinding; Sequence : Z;
  PreviousDigest : string; ProducedAt : string; Digest : string; Signature : string
}.

Record ReceiptVerifier := mkVerifier { trusted : gmap string string }.

Definition PrivateKeySize : Z := 64.
Definition PublicKeySize : Z := 32.
Definition SignatureSize : Z := 64.

Definition digestBytes (value : string) : string := "sha256:" +:+ sha256_hex value.

Definition validSHA256 (value : string) : bool :=
  if negb (HasPrefix value "sha256:") || (Z.of_nat (String.length value) !=? 7 + 32 * 2) then false
  else
    let raw := TrimPrefix value "sha256:" in
    hex_decodes raw && (Z.of_nat (String.length raw) ==? 32 * 2) && (ToLower value ==? value).

(** The claims as JSON: the previous digest is left out when it is empty. *)
Definition json_claims (r : EvidenceReceipt) : string :=
  json_object
    ([("schema", json_string (Schema r)); ("id", json_string (ID r)); ("subjectDigest", json_string (SubjectDigest r));
      ("producer", json_object [("spiffeId", json_string (SPIFFEID (Producer r))); ("keyDigest", json_string (KeyDigest (Producer r)))]);
      ("sequence", Itoa (Sequence r))]
     ++ (if PreviousDigest r ==? "" then [] else [("previousDigest", json_string (PreviousDigest r))])
     ++ [("producedAt", json_string (ProducedAt r))]).

Definition receiptClaimsDigest (r : EvidenceReceipt) : string := digestBytes (json_claims r).

Section Environment.

Context (valid_spiffe : string -> bool).
Context (sign : string -> string -> string) (verify : string -> string -> string -> bool) (public : string -> string).

(** Every pair of the map is checked; whichever fails first, the sentinel is the same. *)
Definition NewReceiptVerifier (keys : gmap string string) : ReceiptVerifier + ReceiptErr :=
  if bool_decide (map_Forall (fun producerID publicKey =>
       valid_spiffe producerID = true /\ Z.of_nat (String.length publicKey) = PublicKeySize) keys)
  then inl (mkVerifier keys) else inr ErrReceiptProducer.

Definition SignEvidenceReceipt (r : EvidenceReceipt) (privateKey : string) : EvidenceReceipt + ReceiptErr :=
  if Z.of_nat (String.length privateKey) !=? PrivateKeySize then inr ErrReceiptProducer
  else
    let r := mkReceipt EvidenceReceiptSchemaV1 (ID r) (SubjectDigest r)
               (mkProducer (SPIFFEID (Producer r)) (digestBytes (public privateKey))) (Sequence r) (PreviousDigest r)
               (ProducedAt r) (Digest r) (Signature r) in
    let digest := receiptClaimsDigest r in
    inl (mkReceipt (Schema r) (ID r) (SubjectDigest r) (Producer r) (Sequence r) (PreviousDigest r) (ProducedAt r)
           digest (EncodeToString (sign privateKey digest))).

Definition validateReceiptShape (r : EvidenceReceipt) : option ReceiptErr :=
  if (Schema r !=? EvidenceReceiptSchemaV1) || (ID r ==? "") || (Sequence r ==? 0) then Some ErrReceiptShape
  else if negb (valid_spiffe (SPIFFEID (Producer r))) then Some ErrReceiptProducer
  else if negb (validSHA256 (SubjectDigest r)) || negb (validSHA256 (KeyDigest (Producer r))) || negb (validSHA256 (Digest r))
  then Some ErrReceiptDigest
  else if (Sequence r ==? 1) && (PreviousDigest r !=? "") then Some ErrReceiptShape
  else if (Sequence r >? 1) && negb (validSHA256 (PreviousDigest r)) then Some ErrReceiptDigest
  else if negb (rfc3339_utc (ProducedAt r)) then Some ErrReceiptShape
  else if Signature r ==? "" then Some ErrReceiptSignature
  else None.

Definition Verify (v : option ReceiptVerifier) (r : EvidenceReceipt) : option ReceiptErr :=
  match validateReceiptShape r with
  | Some err => Some err
  | None =>
      match v with
      | None => Some ErrReceiptProducer
      | Some v =>
          match trusted v !! SPIFFEID (Producer r) with
          | None => Some ErrReceiptProducer
          | Some publicKey =>
              if KeyDigest (Producer r) !=? digestBytes publicKey then Some ErrReceiptProducer
              else if Digest r !=? receiptClaimsDigest r then Some ErrReceiptDigest
              else match DecodeString (Signature r) with
              | None => Some ErrReceiptSignature
              | Some signature =>
                  if Z.of_nat (String.length signature) !=? SignatureSize then Some ErrReceiptSignature
                  else if negb (verify publicKey (Digest r) signature) then Some ErrReceiptSignature
                  else None
              end
          end
      end
  end.

(** [decode raw] is the first JSON value of the input with unknown fields
    refused, and whether the decoder then met the end of the input. *)
Definition ParseEvidenceReceipt (decode : string -> option (EvidenceReceipt * bool)) (raw : string) : EvidenceReceipt + ReceiptErr :=
  match decode raw with
  | None => inr ErrReceiptShape
  | Some (r, at_end) =>
      if negb at_end then inr ErrReceiptShape
      else match validateReceiptShape r with Some err => inr err | None => inl r end
  end.

(** ** evidence_health.go *)

Record EvidenceHealthResult := mkResult {
  Healthy : bool; Valid : bool; ExpectedReceipts : list string; ObservedReceipts : list string;
  MissingReceipts : list string; UnexpectedReceipts : list string; DuplicateReceipts : list string;
  SignatureFailures : list string; ProducerBindingFailures : list string; IntegrityFailures : list string;
  SequenceGaps : list string
}.

Record EvidenceHealthTracker := mkTracker {
  expected : list string; observed : list EvidenceReceipt; verifier : option ReceiptVerifier
}.

Definition NewEvidenceHealthTracker (exp : list string) (v : option ReceiptVerifier) : EvidenceHealthTracker := mkTracker exp [] v.

Definition RecordReceipt (t : EvidenceHealthTracker) (r : EvidenceReceipt) : EvidenceHealthTracker :=
  mkTracker (expected t) (observed t ++ [r]) (verifier t).

Definition contains (values : list string) (target : string) : bool := existsb (fun v => v ==? target) values.

Definition appendUnique (values : list string) (target : string) : list string :=
  if contains values target then values else values ++ [target].

Definition classifyReceiptVerification (res : EvidenceHealthResult) (id : string) (v : option ReceiptVerifier) (r : EvidenceReceipt)
    : EvidenceHealthResult :=
  let 'mkResult h va e o m u d sf pf inf g := res in
  match Verify v r with
  | None => res
  | Some ErrReceiptSignature => mkResult h va e o m u d (appendUnique sf id) pf inf g
  | Some ErrReceiptProducer => mkResult h va e o m u d sf (appendUnique pf id) inf g
  | Some _ => mkResult h va e o m u d sf pf (appendUnique inf id) g
  end.

Definition failureCount (r : EvidenceHealthResult) : Z :=
  Z.of_nat (length (MissingReceipts r)) + Z.of_nat (length (UnexpectedReceipts r)) + Z.of_nat (length (DuplicateReceipts r))
  + Z.of_nat (length (SignatureFailures r)) + Z.of_nat (length (ProducerBindingFailures r))
  + Z.of_nat (length (IntegrityFailures r)) + Z.of_nat (length (SequenceGaps r)).

(** The body of the loop over the observed receipts, with the counts [seen]. *)
Definition observe_one (t : EvidenceHealthTracker) (st : EvidenceHealthResult * gmap string Z) (r : EvidenceReceipt)
    : EvidenceHealthResult * gmap string Z :=
  let '(mkResult h va e o m u d sf pf inf g, seen) := st in
  let seen := <[ID r := default 0 (seen !! ID r) + 1]> seen in
  let res := classifyReceiptVerification (mkResult h va e (o ++ [ID r]) m u d sf pf inf g) (ID r) (verifier t) r in
  let 'mkResult h va e o m u d sf pf inf g := res in
  let u := if negb (contains (expected t) (ID r)) && (ID r !=? "") then appendUnique u (ID r) else u in
  let d := if (default 0 (seen !! ID r) >? 1) && (ID r !=? "") then appendUnique d (ID r) else d in
  (mkResult h va e o m u d sf pf inf g, seen).

(** [previous] is the receipt observed before, [exp] what is expected from this
    index on. *)
Fixpoint gaps_from (index : Z) (previous : option EvidenceReceipt) (exp : list string) (obs : list EvidenceReceipt) (gaps : list string)
    : list string :=
  match obs with
  | [] => foldl appendUnique gaps exp
  | r :: obs =>
      let misplaced := match exp with [] => true | e :: _ => (ID r !=? e) || (Sequence r !=? u64_wrap (index + 1)) end in
      let gaps := if misplaced then appendUnique gaps (ID r) else gaps in
      let unchained := match previous with None => PreviousDigest r !=? "" | Some p => PreviousDigest r !=? Digest p end in
      let gaps := if unchained then appendUnique gaps (ID r) else gaps in
      gaps_from (index + 1) (Some r) (tail exp) obs gaps
  end.

Definition findReceiptSequenceGaps (exp : list string) (obs : list EvidenceReceipt) : list string := gaps_from 0 None exp obs [].

Definition zeroResult : EvidenceHealthResult := mkResult false false [] [] [] [] [] [] [] [] [].

Definition Evaluate (t : option EvidenceHealthTracker) : EvidenceHealthResult :=
  match t with
  | None => zeroResult
  | Some t =>
      let init := mkResult false false (expected t) [] [] [] [] [] [] [] [] in
      let '(mkResult _ _ e o _ u d sf pf inf _, seen) := foldl (observe_one t) (init, ∅) (observed t) in
      let missing := filter (fun id => default 0 (seen !! id) = 0) (expected t) in
      let gaps := findReceiptSequenceGaps (expected t) (observed t) in
      let res := mkResult false false e o missing u d sf pf inf gaps in
      let valid := (Z.of_nat (length (expected t)) >? 0) && bool_decide (is_Some (verifier t)) && (failureCount res ==? 0) in
      mkResult valid valid e o missing u d sf pf inf gaps
  end.

End Environment.

(** The monitor keeps its first failure, here the number of failures it reports. *)
Record EvidenceHealthMonitor := mkMonitor { failure : option Z }.

Definition RecordFailure (m : EvidenceHealthMonitor) (err : option Z) : EvidenceHealthMonitor :=
  match err, failure m with
  | None, _ => m
  | Some e, None => mkMonitor (Some e)
  | Some _, Some _ => m
  end.

Definition Observe (m : EvidenceHealthMonitor) (res : EvidenceHealthResult) : EvidenceHealthMonitor :=
  if Healthy res then m
  else
    let failures := failureCount res in
    RecordFailure m (Some (if failures ==? 0 then 1 else failures)).

Inductive CheckErr := MonitorUnavailable | VerificationFailed (failures : Z).

Definition Check (m : option EvidenceHealthMonitor) : option CheckErr :=
  match m with
  | None => Some MonitorUnavailable
  | Some m => VerificationFailed <$> failure m
  end.

(** ** record.go *)

Record RuntimeVerificationRecord := mkRuntimeRecord {
  Subject : string; Scheme_ : string; SignatureVerified : bool; AttestationVerified : bool; SBOMVerified : bool;
  SignatureDigest : string; AttestationURI : string; SBOMDigest : string; ContentDigest : string;
  ContentIntegrityVerified : bool; KeyRef : string; CertificateIdentity : string; CertificateIssuer : string;
  VerifiedAt : string; Error : string
}.

Definition Verified (r : RuntimeVerificationRecord) : bool :=
  (Error r ==? "") && SignatureVerified r && AttestationVerified r && SBOMVerified r
  && (SignatureDigest r !=? "") && (AttestationURI r !=? "") && (SBOMDigest r !=? "").

(** ** Digests are valid references *)

Definition plain (c : ascii) : bool := (code c <? 128) && negb ((65 <=? code c) && (code c <=? 90)).

Lemma ToLower_plain s : str_forall plain s = true -> ToLower s = s.
Proof.
  intros H. assert (forall c, plain c = true -> lower_ascii c = c) as Hc.
  { intros c [_ Hc%negb_true_iff]%andb_true_iff. unfold lower_ascii. by rewrite Hc. }
  assert (forall c, plain c = true -> code c < 128) as Hlt by (intros c [Hc' _]%andb_true_iff; by apply bool_decide_eq_true in Hc').
  induction s as [|a s IH]; [done|]. cbn [str_forall] in H. apply andb_true_iff in H as [Ha Hs]. specialize (IH Hs).
  destruct s as [|b s]; [simpl; by rewrite Hc|]. specialize (Hlt a Ha).
  change (ToLower (String a (String b s))) with
    (if (code a ==? 196) && (code b ==? 176) then String (byte_of 105) (ToLower s)
     else match s with
          | String c s3 => if (code a ==? 226) && (code b ==? 132) && (code c ==? 170) then String (byte_of 107) (ToLower s3)
                           else String (lower_ascii a) (ToLower (String b s))
          | EmptyString => String (lower_ascii a) (ToLower (String b s))
          end).
  rewrite !(bool_decide_false (code a = _)) by lia. rewrite IH, Hc by done. by destruct s.
Qed.

Lemma str_forall_mono (p q : ascii -> bool) s : (forall c, p c = true -> q c = true) -> str_forall p s = true -> str_forall q s = true.
Proof.
  intros Hpq. induction s as [|c s IH]; [done|]. cbn [str_forall]. intros [? ?]%andb_true_iff. by rewrite Hpq, IH.
Qed.

Lemma lower_hex_plain c : lower_hex c = true -> plain c = true /\ is_hex c = true.
Proof.
  unfold lower_hex, plain, is_hex. intros H. rewrite orb_true_iff, !andb_true_iff, !bool_decide_eq_true in H. split.
  - apply andb_true_iff. split; [apply bool_decide_eq_true; lia|]. apply negb_true_iff, andb_false_iff.
    rewrite !bool_decide_eq_false. lia.
  - apply orb_true_iff. left. apply orb_true_iff. rewrite !andb_true_iff, !bool_decide_eq_true. lia.
Qed.

Lemma all_hex_forall s : all_hex s = str_forall is_hex s.
Proof. by induction s; simpl; f_equal. Qed.

Lemma digest_valid s : validSHA256 (digestBytes s) = true.
Proof.
  unfold validSHA256, digestBytes. pose proof (sha256_hex_length s) as Hl. pose proof (sha256_hex_lower s) as Hh.
  revert Hl Hh. generalize (sha256_hex s). intros h Hl Hh.
  assert (HasPrefix ("sha256:" +:+ h) "sha256:" = true) as Hp by apply HasPrefix_app.
  assert (TrimPrefix ("sha256:" +:+ h) "sha256:" = h) as -> by (unfold TrimPrefix; rewrite Hp; done).
  rewrite Hp. change (String.length ("sha256:" +:+ h)) with (7 + String.length h)%nat. rewrite Hl. simpl negb. cbv iota.
  rewrite !bool_decide_true; try done.
  - unfold hex_decodes. rewrite all_hex_forall, Hl.
    by rewrite (str_forall_mono lower_hex is_hex h (fun c H => proj2 (lower_hex_plain c H)) Hh).
  - apply ToLower_plain. rewrite str_forall_app. apply andb_true_iff. split; [done|].
    by apply (str_forall_mono lower_hex plain h (fun c H => proj1 (lower_hex_plain c H))).
Qed.

(** ** Signing and verifying *)

Section Signing.

Context (valid_spiffe : string -> bool).
Context (sign : string -> string -> string) (verify : string -> string -> string -> bool) (public : string -> string).

(** Ed25519: signatures have 64 bytes, and one made with a private key of 64
    bytes verifies with its public key. *)
Context (signature_size : forall k msg, String.length (sign k msg) = 64%nat)
  (sign_verify : forall k msg, Z.of_nat (String.length k) = PrivateKeySize -> verify (public k) msg (sign k msg) = true).

(** What the producer has to supply. *)
Definition signable (r : EvidenceReceipt) : Prop :=
  ID r <> "" /\ 1 <= Sequence r /\ valid_spiffe (SPIFFEID (Producer r)) = true /\ validSHA256 (SubjectDigest r) = true
  /\ (if decide (Sequence r = 1) then PreviousDigest r = "" else validSHA256 (PreviousDigest r) = true)
  /\ rfc3339_utc (ProducedAt r) = true.

(** The shape of a receipt whose schema, digests and signature are in order. *)
Lemma shape_signable r :
  Schema r = EvidenceReceiptSchemaV1 -> validSHA256 (KeyDigest (Producer r)) = true -> validSHA256 (Digest r) = true ->
  Signature r <> "" -> 0 <= Sequence r -> validateReceiptShape valid_spiffe r = None <-> signable r.
Proof.
  intros Hsc Hkd Hd Hsig Hseq. unfold validateReceiptShape, signable. rewrite Hsc, Hkd, Hd.
  rewrite (bool_decide_true (EvidenceReceiptSchemaV1 = _)), (bool_decide_false (Signature r = "")) by done. cbn [negb orb].
  destruct (bool_decide_reflect (ID r = "")); [naive_solver|]. cbn [orb].
  destruct (bool_decide_reflect (Sequence r = 0)); [naive_solver lia|].
  destruct (valid_spiffe _); [|naive_solver]. destruct (validSHA256 (SubjectDigest r)); [|naive_solver]. cbn [negb orb].
  destruct (decide (Sequence r = 1)) as [E|E].
  - rewrite E. destruct (bool_decide_reflect (PreviousDigest r = "")); [|naive_solver]. cbn. destruct (rfc3339_utc _); naive_solver lia.
  - rewrite (bool_decide_false (Sequence r = 1)), (bool_decide_true (1 < Sequence r)) by lia. cbn.
    destruct (validSHA256 (PreviousDigest r)); [|naive_solver]. cbn. destruct (rfc3339_utc _); naive_solver lia.
Qed.

Lemma signed_verifies r k v :
  Z.of_nat (String.length k) = PrivateKeySize -> 0 <= Sequence r -> trusted v !! SPIFFEID (Producer r) = Some (public k) ->
  exists signed, SignEvidenceReceipt sign public r k = inl signed
    /\ (Verify valid_spiffe verify (Some v) signed = None <-> signable r).
Proof.
  intros Hk Hseq Htr. unfold SignEvidenceReceipt.
  rewrite (bool_decide_true (_ = PrivateKeySize)) by done. cbn [negb]. eexists. split; [reflexivity|].
  set (d := receiptClaimsDigest _).
  assert (validSHA256 d = true) as Hd by apply digest_valid. assert (EncodeToString (sign k d) <> "") as Hs.
  { pose proof (signature_size k d) as Hl. by destruct (sign k d) as [|? [|? [|? ?]]]. }
  match goal with |- context [Verify _ _ _ ?s] => set (signed := s) end.
  pose proof (shape_signable signed eq_refl (digest_valid (public k)) Hd Hs Hseq) as Hshape. unfold Verify.
  destruct (validateReceiptShape valid_spiffe signed); [naive_solver|].
  cbn [signed SPIFFEID Producer KeyDigest Digest Signature]. rewrite Htr.
  rewrite (bool_decide_true (digestBytes (public k) = _)) by done. cbn [negb].
  rewrite (bool_decide_true (d = _)) by done. cbn [negb]. rewrite base64_round_trip, signature_size, sign_verify by done.
  split; [intros _; by apply Hshape|done].
Qed.

(** C36. With a private key of 64 bytes any receipt can be signed.  The result
    verifies, with a verifier that trusts the key of its producer, exactly
    when the receipt had an ID, a positive number, a SPIFFE ID the parser
    accepts, a well-formed subject digest, no predecessor if it is the first
    and a well-formed predecessor digest otherwise, and a time in UTC; the
    signer checks none of it. *)
Theorem signed_receipt_verifies r k v :
  Z.of_nat (String.length k) = PrivateKeySize -> 0 <= Sequence r -> trusted v !! SPIFFEID (Producer r) = Some (public k) ->
  exists signed, SignEvidenceReceipt sign public r k = inl signed
    /\ (Verify valid_spiffe verify (Some v) signed = None <->
          ID r <> "" /\ 1 <= Sequence r /\ valid_spiffe (SPIFFEID (Producer r)) = true /\ validSHA256 (SubjectDigest r) = true
          /\ (if decide (Sequence r = 1) then PreviousDigest r = "" else validSHA256 (PreviousDigest r) = true)
          /\ rfc3339_utc (ProducedAt r) = true).
Proof. apply signed_verifies. Qed.

End Signing.

(** ** Verified receipts cannot be altered *)

Definition claims_text (r : EvidenceReceipt) : Prop :=
  valid_utf8 (Schema r) = true /\ valid_utf8 (ID r) = true /\ valid_utf8 (SubjectDigest r) = true
  /\ valid_utf8 (SPIFFEID (Producer r)) = true /\ valid_utf8 (KeyDigest (Producer r)) = true
  /\ valid_utf8 (PreviousDigest r) = true /\ valid_utf8 (ProducedAt r) = true /\ u64_range (Sequence r).

Definition same_claims (r1 r2 : EvidenceReceipt) : Prop :=
  Schema r1 = Schema r2 /\ ID r1 = ID r2 /\ SubjectDigest r1 = SubjectDigest r2 /\ Producer r1 = Producer r2
  /\ Sequence r1 = Sequence r2 /\ PreviousDigest r1 = PreviousDigest r2 /\ ProducedAt r1 = ProducedAt r2.

(** The text of the claims, from the previous digest on. *)
Definition claims_tail (r : EvidenceReceipt) : string :=
  let last := json_string "producedAt" +:+ ":" +:+ json_string (ProducedAt r) +:+ "}" in
  if PreviousDigest r ==? "" then last
  else json_string "previousDigest" +:+ ":" +:+ json_string (PreviousDigest r) +:+ "," +:+ last.

Lemma json_claims_text r :
  json_claims r =
  "{" +:+ json_string "schema" +:+ ":" +:+ json_string (Schema r) +:+ "," +:+ json_string "id" +:+ ":" +:+ json_string (ID r)
  +:+ "," +:+ json_string "subjectDigest" +:+ ":" +:+ json_string (SubjectDigest r)
  +:+ "," +:+ json_string "producer" +:+ ":" +:+ "{" +:+ json_string "spiffeId" +:+ ":" +:+ json_string (SPIFFEID (Producer r))
  +:+ "," +:+ json_string "keyDigest" +:+ ":" +:+ json_string (KeyDigest (Producer r)) +:+ "}" +:+ ","
  +:+ json_string "sequence" +:+ ":" +:+ Itoa (Sequence r) +:+ "," +:+ claims_tail r.
Proof.
  unfold json_claims, claims_tail. case_bool_decide; unfold json_object; cbn [fmap list_fmap app String.concat].
  - rewrite <- !string_app_assoc. reflexivity.
  - rewrite <- !string_app_assoc. reflexivity.
Qed.

Lemma app_inj_l (u v w : string) : u +:+ v = u +:+ w -> v = w.
Proof. induction u as [|c u IH]; [done|]. intros H. injection H. exact IH. Qed.

Lemma claims_tail_inj r1 r2 : claims_text r1 -> claims_text r2 -> claims_tail r1 = claims_tail r2 ->
  PreviousDigest r1 = PreviousDigest r2 /\ ProducedAt r1 = ProducedAt r2.
Proof.
  intros (_ & _ & _ & _ & _ & Hp1 & Ha1 & _) (_ & _ & _ & _ & _ & Hp2 & Ha2 & _). unfold claims_tail.
  cbv zeta. do 2 case_bool_decide; intros E.
  - do 2 apply app_inj_l in E. apply json_string_inj_utf8 in E as [-> _]; [|done..]. split; congruence.
  - apply json_string_inj_utf8 in E as [E _]; done.
  - apply json_string_inj_utf8 in E as [E _]; done.
  - do 2 apply app_inj_l in E. apply json_string_inj_utf8 in E as [-> E]; [|done..]. do 3 apply app_inj_l in E.
    apply json_string_inj_utf8 in E as [-> _]; done.
Qed.

Lemma json_claims_inj r1 r2 : claims_text r1 -> claims_text r2 -> json_claims r1 = json_claims r2 -> same_claims r1 r2.
Proof.
  intros H1 H2. pose proof H1 as (Hs1 & Hi1 & Hd1 & Hx1 & Hk1 & _ & _ & Hn1). pose proof H2 as (Hs2 & Hi2 & Hd2 & Hx2 & Hk2 & _ & _ & Hn2).
  rewrite !json_claims_text. intros E.
  do 3 apply app_inj_l in E. apply json_string_inj_utf8 in E as [E1 E]; [|done..].
  do 3 apply app_inj_l in E. apply json_string_inj_utf8 in E as [E2 E]; [|done..].
  do 3 apply app_inj_l in E. apply json_string_inj_utf8 in E as [E3 E]; [|done..].
  do 6 apply app_inj_l in E. apply json_string_inj_utf8 in E as [E4 E]; [|done..].
  do 3 apply app_inj_l in E. apply json_string_inj_utf8 in E as [E5 E]; [|done..].
  do 4 apply app_inj_l in E. apply Itoa_comma_inj in E as [E6 E]; [|done..].
  destruct (claims_tail_inj _ _ H1 H2 E) as [E7 E8]. unfold same_claims. split_and!; try done.
  destruct (Producer r1), (Producer r2). simpl in *. congruence.
Qed.

(** Digests and times are ASCII. *)
Lemma ascii_of (p : ascii -> bool) s : (forall c, p c = true -> code c < 128) -> str_forall p s = true -> is_ascii s = true.
Proof. intros Hp. apply str_forall_mono. intros c Hc%Hp. by apply bool_decide_eq_true. Qed.

Lemma is_hex_ascii c : is_hex c = true -> code c < 128.
Proof. unfold is_hex. repeat (progress rewrite ?orb_true_iff, ?andb_true_iff, ?bool_decide_eq_true). lia. Qed.

Lemma validSHA256_ascii s : validSHA256 s = true -> is_ascii s = true.
Proof.
  unfold validSHA256. destruct (HasPrefix s "sha256:") eqn:Hp; [|done]. simpl negb. cbn [orb].
  destruct (negb _); [done|]. intros [[[Hh _]%andb_true_iff _]%andb_true_iff _]%andb_true_iff.
  apply prefix_app in Hp as [t ->]. assert (TrimPrefix ("sha256:" +:+ t) "sha256:" = t) as E.
  { unfold TrimPrefix. by rewrite HasPrefix_app. }
  rewrite E, all_hex_forall in Hh. unfold is_ascii. rewrite str_forall_app. apply andb_true_iff. split; [done|].
  by apply (ascii_of is_hex); [apply is_hex_ascii|].
Qed.

Lemma take_digits_ascii n v s z t : take_digits n v s = Some (z, t) -> is_ascii t = true -> is_ascii s = true.
Proof.
  revert v s. induction n as [|n IH]; intros v s; [by intros [= _ ->]|]. destruct s as [|c s]; [done|]. simpl.
  destruct (digit c) as [d|] eqn:Hd; [|done]. simpl. intros H Ht. apply andb_true_iff. split; [|by eapply IH].
  unfold digit in Hd. apply bool_decide_eq_true. destruct (is_digit c) eqn:Hc; [|done].
  unfold is_digit in Hc. rewrite andb_true_iff, !bool_decide_eq_true in Hc. lia.
Qed.

Lemma take_char_ascii z s t : z < 128 -> take_char z s = Some t -> is_ascii t = true -> is_ascii s = true.
Proof.
  intros Hz. destruct s as [|c s]; [done|]. simpl. case_bool_decide as Hc; [|done]. intros [= ->] Ht.
  unfold is_ascii in *. cbn [str_forall]. rewrite Ht, andb_true_r. apply bool_decide_eq_true. lia.
Qed.

Lemma take_hour_ascii s z t : take_hour s = Some (z, t) -> is_ascii t = true -> is_ascii s = true.
Proof.
  unfold take_hour. destruct (take_digits 2 0 s) as [[z2 t2]|] eqn:H2; [intros [= -> ->]|]; eauto using take_digits_ascii.
Qed.

Lemma skip_digits_ascii s : is_ascii (skip_digits s) = true -> is_ascii s = true.
Proof.
  induction s as [|c s IH]; [done|]. cbn [skip_digits]. destruct (is_digit c) eqn:Hc; [|done]. intros H%IH.
  unfold is_ascii in *. cbn [str_forall]. rewrite H, andb_true_r. unfold is_digit in Hc.
  rewrite andb_true_iff, !bool_decide_eq_true in Hc. apply bool_decide_eq_true. lia.
Qed.

Lemma skip_fraction_ascii s : is_ascii (skip_fraction s) = true -> is_ascii s = true.
Proof.
  destruct s as [|c [|d s]]; [done..|]. cbn [skip_fraction]. destruct (_ && is_digit d) eqn:Hc; [|done]. intros H%skip_digits_ascii.
  apply andb_true_iff in Hc as [Hc Hd]. unfold is_ascii, is_digit in *. cbn [str_forall]. rewrite H, andb_true_r.
  repeat (progress rewrite ?orb_true_iff, ?andb_true_iff, ?bool_decide_eq_true in *). lia.
Qed.

Lemma rfc3339_ascii s : rfc3339_utc s = true -> is_ascii s = true.
Proof.
  unfold rfc3339_utc.
  match goal with |- match ?m with Some _ => _ | None => _ end = true -> _ => destruct m as [b|] eqn:Hm; [|done] end. intros ->.
  apply bind_Some in Hm as ([y s1] & H1 & Hm). apply bind_Some in Hm as (s2 & H2 & Hm).
  apply bind_Some in Hm as ([m s3] & H3 & Hm). apply bind_Some in Hm as (s4 & H4 & Hm).
  apply bind_Some in Hm as ([d s5] & H5 & Hm). apply bind_Some in Hm as (s6 & H6 & Hm).
  apply bind_Some in Hm as ([h s7] & H7 & Hm). apply bind_Some in Hm as (s8 & H8 & Hm).
  apply bind_Some in Hm as ([mi s9] & H9 & Hm). apply bind_Some in Hm as (s10 & H10 & Hm).
  apply bind_Some in Hm as ([se s11] & H11 & Hm). injection Hm as Hm. apply andb_true_iff in Hm as [_ Hz%bool_decide_eq_true].
  assert (is_ascii s11 = true) as Ha by (apply skip_fraction_ascii; by rewrite Hz).
  eapply take_digits_ascii, take_char_ascii, take_digits_ascii, take_char_ascii, take_digits_ascii, take_char_ascii,
    take_hour_ascii, take_char_ascii, take_digits_ascii, take_char_ascii, take_digits_ascii; eauto; lia.
Qed.

(** All claims of a well-formed receipt but its ID are ASCII. *)
Lemma shape_text valid_spiffe r :
  (forall id, valid_spiffe id = true -> is_ascii id = true) -> valid_utf8 (ID r) = true -> u64_range (Sequence r) ->
  validateReceiptShape valid_spiffe r = None -> claims_text r.
Proof.
  intros Hsp Hid Hseq H. unfold validateReceiptShape in H.
  destruct (bool_decide_reflect (Schema r = EvidenceReceiptSchemaV1)) as [Hsc|]; [|done].
  destruct (bool_decide_reflect (ID r = "")); [done|]. destruct (bool_decide_reflect (Sequence r = 0)) as [|H0]; [done|]. cbn [negb orb] in H.
  destruct (valid_spiffe _) eqn:Hv; [|done]. destruct (validSHA256 (SubjectDigest r)) eqn:Hd; [|done].
  destruct (validSHA256 (KeyDigest _)) eqn:Hk; [|done]. destruct (validSHA256 (Digest r)); [|done]. cbn [negb orb] in H.
  assert (valid_utf8 (PreviousDigest r) = true /\ rfc3339_utc (ProducedAt r) = true) as [Hp Ht].
  { destruct (_ && (PreviousDigest r !=? "")) eqn:H1; [done|]. destruct (_ && negb (validSHA256 _)) eqn:H2; [done|].
    destruct (rfc3339_utc _); [|done]. split; [|done]. destruct (decide (Sequence r = 1)) as [E|E].
    - rewrite (bool_decide_true (Sequence r = 1)) in H1 by done. apply negb_false_iff, bool_decide_eq_true in H1. by rewrite H1.
    - rewrite (bool_decide_true (1 < Sequence r)) in H2 by (unfold u64_range in Hseq; lia). apply negb_false_iff in H2.
      by apply ascii_valid_utf8, validSHA256_ascii. }
  unfold claims_text. rewrite Hsc. split_and!; try done; auto using ascii_valid_utf8, validSHA256_ascii, rfc3339_ascii.
Qed.

(** What a verified receipt has. *)
Lemma verified_inv valid_spiffe verify v r :
  Verify valid_spiffe verify v r = None ->
  validateReceiptShape valid_spiffe r = None /\ exists w pk sig, v = Some w /\ trusted w !! SPIFFEID (Producer r) = Some pk
    /\ KeyDigest (Producer r) = digestBytes pk /\ Digest r = receiptClaimsDigest r
    /\ DecodeString (Signature r) = Some sig /\ verify pk (Digest r) sig = true.
Proof.
  unfold Verify. destruct (validateReceiptShape _ r); [done|]. destruct v as [w|]; [|done].
  destruct (trusted w !! _) as [pk|] eqn:Ht; [|done]. destruct (bool_decide_reflect (KeyDigest (Producer r) = digestBytes pk)); [|done].
  destruct (bool_decide_reflect (Digest r = receiptClaimsDigest r)); [|done]. simpl.
  destruct (DecodeString (Signature r)) as [sig|] eqn:Hs; [|done]. destruct (negb _); [done|].
  destruct (verify pk (Digest r) sig) eqn:Hv; [|done]. intros _. split; [done|]. by exists w, pk, sig.
Qed.

(** C35. Verified receipts are tamper-evident: two that verify with the same digest
    and whose IDs are valid UTF-8 have the same claims, or their encodings are
    a collision of SHA-256; SPIFFE IDs are ASCII and sequence numbers 64 bits. *)
Theorem receipt_tamper_evident valid_spiffe verify v r1 r2 :
  (forall id, valid_spiffe id = true -> is_ascii id = true) ->
  Verify valid_spiffe verify v r1 = None -> Verify valid_spiffe verify v r2 = None -> Digest r1 = Digest r2 ->
  valid_utf8 (ID r1) = true -> valid_utf8 (ID r2) = true -> u64_range (Sequence r1) -> u64_range (Sequence r2) ->
  (Schema r1 = Schema r2 /\ ID r1 = ID r2 /\ SubjectDigest r1 = SubjectDigest r2 /\ Producer r1 = Producer r2
   /\ Sequence r1 = Sequence r2 /\ PreviousDigest r1 = PreviousDigest r2 /\ ProducedAt r1 = ProducedAt r2)
  \/ json_claims r1 <> json_claims r2 /\ sha256_hex (json_claims r1) = sha256_hex (json_claims r2).
Proof.
  intros Hsp (S1 & w1 & pk1 & s1 & _ & _ & _ & H1 & _)%verified_inv (S2 & w2 & pk2 & s2 & _ & _ & _ & H2 & _)%verified_inv E I1 I2 N1 N2.
  destruct (decide (json_claims r1 = json_claims r2)) as [Ej|Ne].
  - left. apply json_claims_inj; [by eapply shape_text..|done].
  - right. split; [done|]. rewrite H1, H2 in E. by apply app_inj_l in E.
Qed.

(** ** The health of a sequence *)

Section Health.

Context (valid_spiffe : string -> bool) (verify : string -> string -> string -> bool).
Implicit Types (r : EvidenceReceipt) (obs : list EvidenceReceipt).
Local Abbreviation Verify := (Verify valid_spiffe verify).

Lemma contains_true l x : contains l x = true <-> x ∈ l.
Proof.
  unfold contains. rewrite existsb_exists. split.
  - intros (y & Hy & ->%bool_decide_eq_true). by apply list_elem_of_In.
  - intros H. exists x. split; [by apply list_elem_of_In|]. by apply bool_decide_eq_true.
Qed.

Lemma appendUnique_nil l x : appendUnique l x <> [].
Proof. unfold appendUnique. destruct (contains l x) eqn:H; [by intros ->|by destruct l]. Qed.

Lemma appendUnique_all_nil l xs : foldl appendUnique l xs = [] <-> l = [] /\ xs = [].
Proof.
  revert l. induction xs as [|x xs IH]; intros l; simpl; [naive_solver|]. rewrite IH.
  pose proof (appendUnique_nil l x). naive_solver.
Qed.

(** The observed receipts are the expected ones in order, numbered from
    [index], each naming the digest of the one before. *)
Fixpoint aligned (index : Z) (previous : option EvidenceReceipt) (exp : list string) obs : Prop :=
  match obs, exp with
  | [], [] => True
  | r :: obs, e :: exp =>
      ID r = e /\ Sequence r = u64_wrap (index + 1)
      /\ PreviousDigest r = match previous with None => "" | Some p => Digest p end
      /\ aligned (index + 1) (Some r) exp obs
  | _, _ => False
  end.

Lemma if_append_nil (b : bool) l x : (if b then appendUnique l x else l) = [] <-> b = false /\ l = [].
Proof. pose proof (appendUnique_nil l x). destruct b; naive_solver. Qed.

Lemma gaps_nil index previous exp obs gaps :
  gaps_from index previous exp obs gaps = [] <-> gaps = [] /\ aligned index previous exp obs.
Proof.
  revert index previous exp gaps. induction obs as [|r obs IH]; intros index previous exp gaps; simpl.
  - rewrite appendUnique_all_nil. destruct exp; naive_solver.
  - rewrite IH, !if_append_nil. destruct exp as [|e exp]; simpl; [naive_solver|].
    rewrite orb_false_iff, !negb_false_iff, !bool_decide_eq_true.
    destruct previous; rewrite negb_false_iff, bool_decide_eq_true; naive_solver.
Qed.

(** The failures found while observing. *)
Definition clean (res : EvidenceHealthResult) : Prop :=
  UnexpectedReceipts res = [] /\ DuplicateReceipts res = [] /\ SignatureFailures res = []
  /\ ProducerBindingFailures res = [] /\ IntegrityFailures res = [].

Definition count_of (seen : gmap string Z) (id : string) : Z := default 0 (seen !! id).
Definition counts_ok (seen : gmap string Z) : Prop := forall id, 0 <= count_of seen id.

Lemma verified_id v r : Verify v r = None -> ID r <> "".
Proof.
  intros [H _]%verified_inv E. unfold validateReceiptShape in H.
  by rewrite E, (bool_decide_true ("" = "")), orb_true_r in H.
Qed.

Lemma observe_one_clean t res seen r :
  counts_ok seen ->
  clean (observe_one valid_spiffe verify t (res, seen) r).1 <->
  clean res /\ Verify (verifier t) r = None /\ ID r ∈ expected t /\ count_of seen (ID r) = 0.
Proof.
  intros Hc. specialize (Hc (ID r)). destruct res as [h va e o m u d sf pf inf g]. unfold observe_one, classifyReceiptVerification, clean.
  unfold count_of in *. rewrite lookup_insert_eq. cbn [default].
  destruct (Verify (verifier t) r) as [err|] eqn:Hv.
  - destruct err; cbn -[appendUnique]; pose proof (appendUnique_nil inf (ID r)); pose proof (appendUnique_nil sf (ID r));
      pose proof (appendUnique_nil pf (ID r)); naive_solver.
  - cbn -[appendUnique contains]. rewrite !if_append_nil. apply verified_id in Hv.
    rewrite (bool_decide_false (ID r = "")), !andb_true_r, negb_false_iff, contains_true, bool_decide_eq_false by done.
    simpl in *. naive_solver lia.
Qed.

Lemma observe_one_seen t st r :
  (observe_one valid_spiffe verify t st r).2 = <[ID r := count_of st.2 (ID r) + 1]> st.2.
Proof.
  destruct st as [[h va e o m u d sf pf inf g] seen]. unfold observe_one, classifyReceiptVerification.
  destruct (Verify (verifier t) r) as [[]|]; done.
Qed.

Lemma count_insert seen id id' : count_of (<[id := count_of seen id + 1]> seen) id' = count_of seen id' + (if decide (id = id') then 1 else 0).
Proof.
  unfold count_of. destruct (decide (id = id')) as [->|]; [by rewrite lookup_insert_eq|]. rewrite lookup_insert_ne by done. lia.
Qed.

Lemma observe_all_clean t obs res seen :
  counts_ok seen ->
  clean (foldl (observe_one valid_spiffe verify t) (res, seen) obs).1 <->
  clean res /\ Forall (fun r => Verify (verifier t) r = None /\ ID r ∈ expected t /\ count_of seen (ID r) = 0) obs
  /\ NoDup (ID <$> obs).
Proof.
  revert res seen. induction obs as [|r obs IH]; intros res seen Hc; cbn [foldl fmap list_fmap].
  - split; [|by intros [? _]]. intros ?. split_and!; [done|constructor..].
  - pose proof (observe_one_clean t res seen r Hc) as H1. pose proof (observe_one_seen t (res, seen) r) as H2.
    destruct (observe_one valid_spiffe verify t (res, seen) r) as [res' seen']. simpl in H1, H2. subst seen'.
    rewrite IH; [rewrite H1, Forall_cons, NoDup_cons|intros id; rewrite count_insert; specialize (Hc id); case_decide; lia].
    assert (Forall (fun r0 => Verify (verifier t) r0 = None /\ ID r0 ∈ expected t /\ count_of (<[ID r:=count_of seen (ID r) + 1]> seen) (ID r0) = 0) obs
      <-> Forall (fun r0 => Verify (verifier t) r0 = None /\ ID r0 ∈ expected t /\ count_of seen (ID r0) = 0) obs /\ ID r ∉ ID <$> obs) as ->.
    { rewrite !Forall_forall, list_elem_of_fmap. split.
      - intros H. split.
        + intros x Hx. destruct (H x Hx) as (? & ? & Hz). rewrite count_insert in Hz. pose proof (Hc (ID x)). case_decide; naive_solver lia.
        + intros (x & Ex & Hx). destruct (H x Hx) as (_ & _ & Hz). rewrite count_insert in Hz. pose proof (Hc (ID x)).
          rewrite decide_True in Hz by done. lia.
      - intros [H Hn] x Hx. destruct (H x Hx) as (? & ? & Hz). split_and!; [done..|]. rewrite count_insert, decide_False; [lia|].
        intros Ex. apply Hn. by exists x. }
    naive_solver.
Qed.

Lemma observe_all_seen t obs st id :
  count_of (foldl (observe_one valid_spiffe verify t) st obs).2 id = count_of st.2 id + Z.of_nat (length (filter (fun r => ID r = id) obs)).
Proof.
  revert st. induction obs as [|r obs IH]; intros st; cbn [foldl]; [simpl; lia|].
  rewrite IH, observe_one_seen, count_insert, filter_cons. case_decide; simpl; lia.
Qed.

Lemma aligned_ids index previous exp obs : aligned index previous exp obs -> ID <$> obs = exp.
Proof.
  revert index previous exp. induction obs as [|r obs IH]; intros index previous [|e exp]; simpl; try done.
  intros (-> & _ & _ & H). f_equal. by eapply IH.
Qed.

(** [aligned] by index. *)
Definition chained_from (index : Z) (previous : option EvidenceReceipt) obs : Prop :=
  forall i r, obs !! i = Some r -> Sequence r = u64_wrap (index + Z.of_nat i + 1)
    /\ PreviousDigest r = match (match i with O => previous | S j => obs !! j end) with None => "" | Some p => Digest p end.

Lemma aligned_iff index previous exp obs : aligned index previous exp obs <-> ID <$> obs = exp /\ chained_from index previous obs.
Proof.
  split.
  - intros H. split; [by eapply aligned_ids|]. revert index previous exp H.
    induction obs as [|r obs IH]; intros index previous [|e exp]; cbn [aligned]; try done.
    intros (_ & Hs & Hp & H) [|i] x; [intros [= <-]; split; [by rewrite Z.add_0_r|done]|]. intros Hx.
    destruct (IH _ _ _ H i x Hx) as [Hs' Hp']. split; [rewrite Hs'; f_equal; lia|]. rewrite Hp'. by destruct i.
  - revert index previous exp. induction obs as [|r obs IH]; intros index previous exp [<- H]; [done|]. cbn [fmap list_fmap aligned].
    destruct (H 0%nat r eq_refl) as [Hs Hp]. rewrite Z.add_0_r in Hs. split_and!; [done..|]. apply IH. split; [done|].
    intros i x Hx. destruct (H (S i) x Hx) as [Hs' Hp']. split; [rewrite Hs'; f_equal; lia|]. rewrite Hp'. by destruct i.
Qed.

End Health.

Lemma failure_free res :
  failureCount res = 0 <-> MissingReceipts res = [] /\ clean res /\ SequenceGaps res = [].
Proof.
  unfold failureCount, clean. rewrite <- !length_zero_iff_nil. split; [intros; split_and!; lia|]. intros; destruct_and!. lia.
Qed.

Lemma evaluate_healthy valid_spiffe verify t :
  Healthy (Evaluate valid_spiffe verify (Some t)) = true <->
  expected t <> [] /\ is_Some (verifier t) /\ NoDup (expected t) /\ ID <$> observed t = expected t
  /\ Forall (fun r => Verify valid_spiffe verify (verifier t) r = None) (observed t)
  /\ chained_from 0 None (observed t).
Proof.
  unfold Evaluate. set (init := mkResult _ _ _ _ _ _ _ _ _ _ _).
  pose proof (observe_all_clean valid_spiffe verify t (observed t) init ∅) as Hclean.
  pose proof (observe_all_seen valid_spiffe verify t (observed t) (init, ∅)) as Hseen.
  destruct (foldl _ _ _) as [[h va e o m u d sf pf inf g] seen]. cbn [Healthy]. simpl in Hclean, Hseen.
  rewrite !andb_true_iff, !bool_decide_eq_true, failure_free. cbn [MissingReceipts SequenceGaps].
  change (clean (mkResult false false e o (filter (fun id => default 0 (seen !! id) = 0) (expected t)) u d sf pf inf
    (findReceiptSequenceGaps (expected t) (observed t)))) with (clean (mkResult h va e o m u d sf pf inf g)).
  rewrite Hclean by done. unfold findReceiptSequenceGaps. rewrite (gaps_nil valid_spiffe verify), aligned_iff.
  assert (0 < Z.of_nat (length (expected t)) <-> expected t <> []) as -> by (destruct (expected t); simpl; naive_solver lia).
  split.
  - intros ([? ?] & _ & (_ & Hall & Hdup) & _ & Hids & Hch). rewrite Hids in Hdup. split_and!; try done.
    eapply Forall_impl; [exact Hall|]. by intros r [? _].
  - intros (? & ? & Hdup & Hids & Hall & Hch). split_and!; try done; [| |by rewrite Hids].
    + destruct (filter _ (expected t)) as [|id l] eqn:Ef; [done|exfalso].
      assert (id ∈ filter (fun id => default 0 (seen !! id) = 0) (expected t)) as [Hz Hid]%list_elem_of_filter by (rewrite Ef; left).
      specialize (Hseen id). unfold count_of in Hseen. rewrite Hz, lookup_empty in Hseen. simpl in Hseen.
      rewrite <- Hids in Hid. apply list_elem_of_fmap in Hid as (r & -> & Hr).
      assert (r ∈ filter (fun r0 => ID r0 = ID r) (observed t)) as Hf by (by apply list_elem_of_filter).
      destruct (filter _ (observed t)); [by inversion Hf|simpl in Hseen; lia].
    + rewrite Forall_forall in *. intros r Hr. split_and!; [by apply Hall| |done]. rewrite <- Hids. apply list_elem_of_fmap. eauto.
Qed.

(** A sequence of receipts is healthy exactly when something is expected, there
    is a verifier, the receipts observed are those expected, in order and
    without repetition, every one verifies, they are numbered from one, and
    each names the digest of the one before it. *)
Theorem evidence_healthy_iff valid_spiffe verify t :
  Healthy (Evaluate valid_spiffe verify (Some t)) = true <->
  expected t <> [] /\ is_Some (verifier t) /\ NoDup (expected t) /\ ID <$> observed t = expected t
  /\ Forall (fun r => Verify valid_spiffe verify (verifier t) r = None) (observed t)
  /\ chained_from 0 None (observed t).
Proof. apply evaluate_healthy. Qed.

(** Once a sequence was unhealthy, the monitor fails its check for good. *)
Lemma monitor_sticky m rs res :
  Healthy res = false -> Check (Some (foldl Observe (Observe m res) rs)) <> None.
Proof.
  intros H. assert (failure (Observe m res) <> None) as Hf.
  { unfold Observe, RecordFailure. rewrite H. by destruct m as [[f|]]. }
  generalize dependent (Observe m res). clear m res H. induction rs as [|r rs IH]; intros m Hm; simpl.
  - by destruct (failure m).
  - apply IH. destruct m as [[f|]]; [|done]. unfold Observe, RecordFailure. by destruct (Healthy r).
Qed.

(** ** Witnesses *)

Definition toy_spiffe (id : string) : bool := HasPrefix id "spiffe://" && is_ascii id.
Definition toy_sign (k msg : string) : string := String.concat "" (replicate 64 "s").
Definition toy_public (k : string) : string := String.concat "" (replicate 32 "p").
Definition toy_verify (pk msg sig : string) : bool := (pk ==? toy_public "") && (Z.of_nat (String.length sig) ==? 64).
Definition toy_key : string := String.concat "" (replicate 64 "k").

Definition sampleReceipt : EvidenceReceipt :=
  mkReceipt "" "r1" (digestBytes "subject") (mkProducer "spiffe://x/y" "") 1 "" "2026-01-02T03:04:05Z" "" "".
Definition with_id (id : string) (r : EvidenceReceipt) : EvidenceReceipt :=
  mkReceipt (Schema r) id (SubjectDigest r) (Producer r) (Sequence r) (PreviousDigest r) (ProducedAt r) (Digest r) (Signature r).
Definition sampleVerifier : ReceiptVerifier := mkVerifier {["spiffe://x/y" := toy_public ""]}.

Lemma signed_receipt_verifies_witness :
  (exists signed, SignEvidenceReceipt toy_sign toy_public sampleReceipt toy_key = inl signed
     /\ Verify toy_spiffe toy_verify (Some sampleVerifier) signed = None)
  /\ exists signed, SignEvidenceReceipt toy_sign toy_public (with_id "" sampleReceipt) toy_key = inl signed
     /\ Verify toy_spiffe toy_verify (Some sampleVerifier) signed <> None.
Proof.
  pose proof (fun r => signed_receipt_verifies toy_spiffe toy_sign toy_verify toy_public (fun k msg => eq_refl) (fun k msg _ => eq_refl)
    r toy_key sampleVerifier eq_refl) as H. split.
  - destruct (H sampleReceipt ltac:(done) eq_refl) as (signed & Hs & Hv). exists signed. split; [exact Hs|]. apply Hv.
    split_and!; [discriminate|reflexivity..].
  - destruct (H (with_id "" sampleReceipt) ltac:(done) eq_refl) as (signed & Hs & Hv). exists signed. split; [exact Hs|].
    intros E. apply Hv in E as [E _]. by apply E.
Defined.

(** Another signature scheme over the same digests. *)
Definition toy_sign' (k msg : string) : string := String.concat "" (replicate 64 "t").

Definition signed_of (sign : string -> string -> string) (r : EvidenceReceipt) : EvidenceReceipt :=
  match SignEvidenceReceipt sign toy_public r toy_key with inl r => r | inr _ => r end.
Definition sampleSigned : EvidenceReceipt := signed_of toy_sign sampleReceipt.
Definition sampleResigned : EvidenceReceipt := signed_of toy_sign' sampleReceipt.

Lemma signed_of_verifies sign :
  (forall k msg, String.length (sign k msg) = 64%nat) ->
  (forall k msg, Z.of_nat (String.length k) = PrivateKeySize -> toy_verify (toy_public k) msg (sign k msg) = true) ->
  Verify toy_spiffe toy_verify (Some sampleVerifier) (signed_of sign sampleReceipt) = None.
Proof.
  intros Hl Hv. unfold signed_of.
  destruct (signed_verifies toy_spiffe sign toy_verify toy_public Hl Hv sampleReceipt toy_key sampleVerifier eq_refl ltac:(done) eq_refl)
    as (signed & -> & H). apply H. split_and!; [discriminate|reflexivity..].
Qed.

(** Two receipts with the same claims and different signatures. *)
Lemma receipt_tamper_evident_witness :
  Signature sampleSigned <> Signature sampleResigned /\ Digest sampleSigned = Digest sampleResigned
  /\ (ID sampleSigned = ID sampleResigned
      \/ json_claims sampleSigned <> json_claims sampleResigned
         /\ sha256_hex (json_claims sampleSigned) = sha256_hex (json_claims sampleResigned)).
Proof.
  split_and!; [intros E; vm_compute in E; discriminate E|reflexivity|].
  destruct (receipt_tamper_evident toy_spiffe toy_verify (Some sampleVerifier) sampleSigned sampleResigned) as [H|H];
    [by intros id [_ ?]%andb_true_iff|by apply signed_of_verifies|by apply signed_of_verifies|reflexivity..| | |left; apply H|right; exact H];
    split; vm_compute; first [reflexivity | discriminate].
Defined.

(** Without valid UTF-8 the claims are not bound: the IDs [\xff] and [\xfe] have
    one encoding, so that the digest and signature for one are those of the other. *)
Example invalid_utf8_ids :
  let a := with_id (String (byte_of 255) "") sampleReceipt in
  let b := with_id (String (byte_of 254) "") sampleReceipt in
  ID a <> ID b /\ json_claims a = json_claims b /\ receiptClaimsDigest a = receiptClaimsDigest b.
Proof.
  intros a b. assert (json_claims a = json_claims b) as E by (vm_compute; reflexivity).
  split_and!; [done|done|]. unfold receiptClaimsDigest. by rewrite E.
Qed.

(** The chain of one receipt, and the same chain with its number wrong. *)
Example healthy_chain :
  Healthy (Evaluate toy_spiffe toy_verify (Some (RecordReceipt (NewEvidenceHealthTracker ["r1"] (Some sampleVerifier)) sampleSigned))) = true
  /\ Healthy (Evaluate toy_spiffe toy_verify (Some (NewEvidenceHealthTracker ["r1"] (Some sampleVerifier)))) = false.
Proof. vm_compute. done. Qed.
