(* ===== verification/AuditEvents.v ===== *)
(** * Audit events

    [internal/observability]: the events of [audit.go] and
    [audit_receipts.go], how [emit] completes and redacts them
    ([audit_emit_helpers.go]) and what the file and the Kubernetes sink write
    ([audit_sinks.go]), with the identifiers of [ois_v01.go].  An [Emission]
    is what one call reads: the clock and a fresh UUID.  The sinks themselves
    (slog, OpenTelemetry, the file system, the API server) are not modelled:
    [emit] gives the event all of them receive. *)

From S2P Require Import Prelude GoStrings GoTime Sha256 GoRegexp GoJson Redaction GoBase64 Receipts.
From Stdlib Require Import Ascii.

(** ** Constants *)

Definition AuditCreate := "Create".
Definition AuditUpdate := "Update".
Definition AuditDelete := "Delete".
Definition AuditScale := "Scale".
Definition AuditPolicyViolation := "PolicyViolation".
Definition AuditGatewaySync := "GatewaySync".
Definition AuditModelAccess := "ModelAccess".
Definition AuditModelAccessDenied := "ModelAccessDenied".
Definition AuditTokenConsumed := "TokenConsumed".
Definition AuditTokenBudgetExceeded := "TokenBudgetExceeded".
Definition AuditCredentialAccess := "CredentialAccess".
Definition AuditLoraSwap := "LoraSwap".
Definition AuditModelPromotion := "ModelPromotion".
Definition AuditSuccess := "Success".
Definition AuditFailure := "Failure".
Definition AuditDenied := "Denied".

Definition OISURNPrefix := "urn:ois:".
Definition OISAuthority := "ckodex".
Definition ExecKindInference := "inference".
Definition ExecKindGuardrail := "guardrail".
Definition ExecKindMaterialization := "materialization".
Definition ExecKindAgentStep := "agent_step".
Definition ReproExplanatory := "explanatory".
Definition ReproBounded := "bounded".
Definition SignalReceipt := "receipt".

Definition URN (kind id : string) : string :=
  if HasPrefix id OISURNPrefix then id
  else OISURNPrefix +:+ kind +:+ ":" +:+ OISAuthority +:+ ":" +:+ id.

(** ** Events *)

Record AuditEvent := mkEvent {
  Action : string; Resource : string; Actor : string; Outcome : string; Timestamp : Time;
  Details : option (gmap string string); Reason : string; ExecID : string; ExecKind : string; ReproducibilityClass : string
}.

(** An event of an operation: only the fields every method sets. *)
Definition event (action resource actor outcome : string) (now : Time) (details : option (gmap string string)) (reason : string) : AuditEvent :=
  mkEvent action resource actor outcome now details reason "" "" "".

Definition details_of (l : list (string * string)) : option (gmap string string) := Some (list_to_map l).

Record Emission := mkEmission { now : Time; uuid : string }.

Record AuditLogger := mkLogger { redactor : option Redactor; evidenceHealth : EvidenceHealthMonitor }.

Definition mapToExecKind (action : string) : string :=
  if (action ==? AuditModelAccess) || (action ==? AuditModelAccessDenied) || (action ==? AuditTokenConsumed) then ExecKindInference
  else if action ==? AuditPolicyViolation then ExecKindGuardrail
  else if action ==? AuditGatewaySync then ExecKindMaterialization
  else if action ==? AuditLoraSwap then ExecKindAgentStep
  else ExecKindInference.

Definition prepareAuditEvent (em : Emission) (e : AuditEvent) : AuditEvent :=
  mkEvent (Action e) (Resource e) (Actor e) (Outcome e) (Timestamp e) (Details e) (Reason e)
    (if ExecID e ==? "" then URN "exec" (uuid em) else ExecID e)
    (if ExecKind e ==? "" then mapToExecKind (Action e) else ExecKind e)
    (if ReproducibilityClass e ==? "" then ReproExplanatory else ReproducibilityClass e).

Definition redactAuditEvent (a : AuditLogger) (e : AuditEvent) : AuditEvent :=
  match redactor a with
  | None => e
  | Some r =>
      mkEvent (Action e) (Resource e) (Actor e) (Outcome e) (Timestamp e) (RedactDetails r <$> Details e)
        (RedactString r (Reason e)) (ExecID e) (ExecKind e) (ReproducibilityClass e)
  end.

(** The event every sink receives. *)
Definition emit (a : AuditLogger) (em : Emission) (e : AuditEvent) : AuditEvent := redactAuditEvent a (prepareAuditEvent em e).

Definition LogCreate (a : AuditLogger) (em : Emission) (resource actor : string) (details : option (gmap string string)) : AuditEvent :=
  emit a em (event AuditCreate resource actor AuditSuccess (now em) details "").

Definition LogUpdate (a : AuditLogger) (em : Emission) (resource actor : string) (details : option (gmap string string)) : AuditEvent :=
  emit a em (event AuditUpdate resource actor AuditSuccess (now em) details "").

Definition LogDelete (a : AuditLogger) (em : Emission) (resource actor : string) : AuditEvent :=
  emit a em (event AuditDelete resource actor AuditSuccess (now em) None "").

Definition LogScaleEvent (a : AuditLogger) (em : Emission) (resource : string) (fromReplicas toReplicas : Z) (reason : string) : AuditEvent :=
  emit a em (event AuditScale resource "autoscaler" AuditSuccess (now em)
    (details_of [("from_replicas", Itoa fromReplicas); ("to_replicas", Itoa toReplicas)]) reason).

Definition LogPolicyViolation (a : AuditLogger) (em : Emission) (resource violation policy : string) : AuditEvent :=
  emit a em (event AuditPolicyViolation resource "opa-gatekeeper" AuditDenied (now em)
    (details_of [("violation", violation); ("policy", policy)]) "").

Definition LogFailure (a : AuditLogger) (em : Emission) (action resource actor reason : string) : AuditEvent :=
  emit a em (event action resource actor AuditFailure (now em) None reason).

Definition LogModelAccess (a : AuditLogger) (em : Emission) (tenantID modelName subject : string) (tokensUsed : Z) : AuditEvent :=
  emit a em (event AuditModelAccess modelName subject AuditSuccess (now em)
    (details_of [("tenant_id", tenantID); ("model", modelName); ("tokens_used", Itoa tokensUsed)]) "").

Definition LogModelAccessDenied (a : AuditLogger) (em : Emission) (tenantID modelName subject reason : string) : AuditEvent :=
  emit a em (event AuditModelAccessDenied modelName subject AuditDenied (now em)
    (details_of [("tenant_id", tenantID); ("model", modelName)]) reason).

Definition LogTokenConsumed (a : AuditLogger) (em : Emission) (tenantID modelName subject : string) (promptTokens completionTokens : Z) : AuditEvent :=
  emit a em (event AuditTokenConsumed modelName subject AuditSuccess (now em)
    (details_of [("tenant_id", tenantID); ("model", modelName); ("prompt_tokens", Itoa promptTokens);
       ("completion_tokens", Itoa completionTokens); ("total_tokens", Itoa (i64_wrap (promptTokens + completionTokens)))]) "").

Definition LogTokenBudgetExceeded (a : AuditLogger) (em : Emission) (tenantID modelName subject : string) (remaining : Z) : AuditEvent :=
  emit a em (event AuditTokenBudgetExceeded modelName subject AuditDenied (now em)
    (details_of [("tenant_id", tenantID); ("model", modelName); ("remaining_budget", Itoa remaining)]) "token budget exhausted").

Definition LogCredentialAccess (a : AuditLogger) (em : Emission) (subject credentialType : string) (success : bool) : AuditEvent :=
  emit a em (event AuditCredentialAccess "auth" subject (if negb success then AuditFailure else AuditSuccess) (now em)
    (details_of [("credential_type", credentialType)]) "").

Definition LogLoraSwap (a : AuditLogger) (em : Emission) (serviceName namespace fromAdapter toAdapter actor : string) : AuditEvent :=
  emit a em (event AuditLoraSwap ("LLMInferenceService/" +:+ namespace +:+ "/" +:+ serviceName) actor AuditSuccess (now em)
    (details_of [("from_adapter", fromAdapter); ("to_adapter", toAdapter)]) "").

Definition LogModelPromotion (a : AuditLogger) (em : Emission) (modelName fromEnv toEnv actor : string) : AuditEvent :=
  emit a em (event AuditModelPromotion modelName actor AuditSuccess (now em)
    (details_of [("from_environment", fromEnv); ("to_environment", toEnv)]) "").

(** The fields of the model assembly and of the metrics that are read.  The
    caller's map of details is written in place: the second result is what the
    caller's map holds afterwards ([None] for a nil map, which is replaced). *)
Definition LogRichInferenceSignal (a : AuditLogger) (em : Emission) (execID actor baseID : string) (quantizationID : option string)
    (latencyMS firstTokenMS : Z) (outcome : string) (details : option (gmap string string))
    : AuditEvent * option (gmap string string) :=
  let d := default ∅ details in
  let d := <["perf.latency.ms" := Itoa latencyMS]> d in
  let d := if firstTokenMS >? 0 then <["perf.first_token.ms" := Itoa firstTokenMS]> d else d in
  let d := <["model.base.id" := baseID]> d in
  let d := match quantizationID with Some q => <["model.quantization.id" := q]> d | None => d end in
  (emit a em (mkEvent AuditModelAccess baseID actor outcome (now em) (Some d) "" execID ExecKindInference ReproExplanatory),
   match details with Some _ => Some d | None => None end).

(** ** Receipts *)

Definition json_details (d : option (gmap string string)) : string := match d with Some d => json_map d | None => "null" end.

Definition receiptInputCommitment (execID status summary : string) (details : option (gmap string string)) : string :=
  "sha256:" +:+ sha256_hex (json_object [("execId", json_string execID); ("status", json_string status);
    ("summary", json_string summary); ("details", json_details details)]).

Definition LogReceipt (a : AuditLogger) (em : Emission) (execID status summary : string) (details : option (gmap string string)) : AuditEvent :=
  let commitment := receiptInputCommitment execID status summary details in
  emit a em (mkEvent "ReceiptCommitment" commitment "ckodex-operator" AuditSuccess (now em)
    (details_of [("evidence.commitment", commitment); ("evidence.integrity", "unverified");
       ("evidence.producer_binding", "unverified"); ("evidence.signature", "absent")])
    "cryptographic receipt unavailable" execID SignalReceipt ReproBounded).

Definition emitReceiptVerificationFailure (a : AuditLogger) (em : Emission) (res : EvidenceHealthResult) : AuditEvent :=
  emit a em (mkEvent "ReceiptVerification" "evidence/receipt-sequence" "ckodex-operator" AuditFailure (now em)
    (details_of [("evidence.failure_count", Itoa (failureCount res)); ("evidence.integrity", "invalid")])
    "evidence receipt verification failed" "" SignalReceipt ReproBounded).

Definition emitVerifiedReceipt (a : AuditLogger) (em : Emission) (r : EvidenceReceipt) : AuditEvent :=
  emit a em (mkEvent "Receipt" (SubjectDigest r) (SPIFFEID (Producer r)) AuditSuccess (now em)
    (details_of [("evidence.digest", Digest r); ("evidence.key_digest", KeyDigest (Producer r));
       ("evidence.sequence", Itoa (Sequence r)); ("evidence.signature", "verified"); ("evidence.transparency", "unverified")])
    "" (ID r) SignalReceipt ReproBounded).

Section Verifying.

Context (valid_spiffe : string -> bool) (verify : string -> string -> string -> bool).

(** [ems i] is what the i-th emission reads.  The result is the logger with its
    monitor, the events emitted, and the number of failures of the error. *)
Definition LogVerifiedReceiptSequence (a : AuditLogger) (ems : nat -> Emission) (exp : list string) (receipts : list EvidenceReceipt)
    (v : option ReceiptVerifier) : AuditLogger * list AuditEvent * option Z :=
  let tracker := foldl RecordReceipt (NewEvidenceHealthTracker exp v) receipts in
  let result := Evaluate valid_spiffe verify (Some tracker) in
  let a := mkLogger (redactor a) (Observe (evidenceHealth a) result) in
  if negb (Healthy result) then (a, [emitReceiptVerificationFailure a (ems 0%nat) result], Some (failureCount result))
  else (a, imap (fun i r => emitVerifiedReceipt a (ems i) r) receipts, None).

Definition EvidenceHealthCheck (a : option AuditLogger) : option CheckErr :=
  match a with None => Some MonitorUnavailable | Some a => Check (Some (evidenceHealth a)) end.

End Verifying.

(** ** Sinks *)

Definition omit (k v : string) : list (string * string) := if v ==? "" then [] else [(k, json_string v)].

(** The JSON line of the file sink; nothing is written for a time that does not marshal. *)
Definition json_event (e : AuditEvent) : option string :=
  ts ← json_time (Timestamp e);
  Some (json_object ([("action", json_string (Action e)); ("resource", json_string (Resource e)); ("actor", json_string (Actor e));
    ("outcome", json_string (Outcome e)); ("timestamp", ts)]
    ++ (if default ∅ (Details e) ==? ∅ then [] else [("details", json_details (Details e))])
    ++ omit "reason" (Reason e) ++ omit "exec.id" (ExecID e) ++ omit "exec.kind" (ExecKind e)
    ++ omit "exec.reproducibility_class" (ReproducibilityClass e))).

Record ObjectReference := mkRef { APIVersion : string; RKind : string; RNamespace : string; RName : string }.

Definition auditObjectReference (resource : string) : string * ObjectReference :=
  match Split resource "/" with
  | [kind; namespace; name] =>
      if (kind ==? "") || (namespace ==? "") || (name ==? "") then ("default", mkRef "" "" "" "")
      else (namespace, mkRef "serving.ckodex.com/v1alpha2" kind namespace name)
  | _ => ("default", mkRef "" "" "" "")
  end.

(** The fields of the Kubernetes event that depend on the audit event. *)
Record K8sEvent := mkK8sEvent {
  KNamespace : string; KLabels : gmap string string; InvolvedObject : ObjectReference; KReason : string; Message : string;
  KType : string; KAction : string
}.

Definition emitK8sEvent (e : AuditEvent) : K8sEvent :=
  let '(namespace, object) := auditObjectReference (Resource e) in
  mkK8sEvent namespace
    (list_to_map [("app.kubernetes.io/managed-by", "ckodex-kserve-llm-operator"); ("ckodex.com/audit-action", Action e)])
    object (Action e) (Reason e +:+ " | " +:+ json_details (Details e))
    (if (Outcome e ==? AuditFailure) || (Outcome e ==? AuditDenied) then "Warning" else "Normal") (Action e).

(** ** What is emitted *)

Definition no_identifier (s : string) : Prop := MatchString ssn s = false /\ MatchString ipv4 s = false.

Lemma redactString_clean s : no_identifier (redactString (NewRedactor true) s).
Proof.
  unfold no_identifier, redactString. cbn [patterns NewRedactor]. case_bool_decide; [by subst; vm_compute|]. rewrite foldl_patterns.
  split; (apply placeholder_clean; [apply ssn_guarded || apply ipv4_guarded|by repeat constructor|repeat (left || right)]).
Qed.

(** Whatever event is logged, with redaction on the sinks receive one whose
    reason and details hold no social security number and no IPv4 address
    between word boundaries, with its execution identity filled in, and
    otherwise the event that was logged. *)
Theorem emitted_event a em e :
  redactor a = Some (NewRedactor true) ->
  let e' := emit a em e in
  no_identifier (Reason e') /\ (forall d, Details e' = Some d -> map_Forall (fun _ v => no_identifier v) d)
  /\ ExecID e' <> "" /\ ExecKind e' <> "" /\ ReproducibilityClass e' <> ""
  /\ (Action e', Resource e', Actor e', Outcome e', Timestamp e') = (Action e, Resource e, Actor e, Outcome e, Timestamp e)
  /\ (dom <$> Details e') = (dom <$> Details e).
Proof.
  intros Ha. unfold emit, redactAuditEvent. rewrite Ha. cbn [Reason Details ExecID ExecKind ReproducibilityClass prepareAuditEvent].
  split_and!.
  - unfold RedactString. cbn [enabled NewRedactor negb]. apply redactString_clean.
  - intros d (d0 & _ & ->)%fmap_Some. unfold RedactDetails. cbn [enabled NewRedactor negb orb]. case_bool_decide as Hd.
    + subst. apply map_Forall_empty.
    + apply map_Forall_fmap. intros k v _. apply redactString_clean.
  - case_bool_decide; [|done]. unfold URN. destruct (HasPrefix (uuid em) OISURNPrefix) eqn:Hp; [|done]. by intros Hu; rewrite Hu in Hp.
  - case_bool_decide; [|done]. unfold mapToExecKind. by repeat case_match.
  - by case_bool_decide.
  - done.
  - destruct (Details e) as [d|]; [|done]. simpl. f_equal. unfold RedactDetails. case_match; [done|]. apply dom_fmap_L.
Qed.

(** A sequence of receipts is announced as verified, one event per receipt,
    only when it is healthy; otherwise one failure is announced and the
    readiness check fails from then on. *)
Theorem receipts_announced valid_spiffe verify a ems exp receipts v :
  let '(a', events, err) := LogVerifiedReceiptSequence valid_spiffe verify a ems exp receipts v in
  let healthy := exp <> [] /\ is_Some v /\ NoDup exp /\ ID <$> receipts = exp
    /\ Forall (fun r => Verify valid_spiffe verify v r = None) receipts /\ chained_from 0 None receipts in
  (err = None <-> healthy)
  /\ (err = None -> evidenceHealth a' = evidenceHealth a /\ length events = length receipts
        /\ (ExecID <$> events) = (ID <$> receipts) /\ Forall (fun e => Action e = "Receipt") events)
  /\ (err <> None -> EvidenceHealthCheck (Some a') <> None /\ (Action <$> events) = ["ReceiptVerification"]).
Proof.
  unfold LogVerifiedReceiptSequence.
  assert (foldl RecordReceipt (NewEvidenceHealthTracker exp v) receipts = mkTracker exp receipts v) as ->.
  { unfold NewEvidenceHealthTracker. change receipts with ([] ++ receipts) at 2. generalize (@nil EvidenceReceipt).
    induction receipts as [|r rs IH]; intros l; simpl; [by rewrite app_nil_r|]. unfold RecordReceipt at 2. simpl. rewrite IH. by rewrite <- app_assoc. }
  pose proof (evaluate_healthy valid_spiffe verify (mkTracker exp receipts v)) as Hh. cbn [expected observed verifier] in Hh.
  destruct (Healthy _) eqn:E; cbn [negb].
  - destruct (proj1 Hh eq_refl) as (He & Hv & Hd & Hi & Ha & Hc). split_and!; [done| |done]. intros _. split_and!.
    + unfold Observe. by rewrite E.
    + apply length_imap.
    + apply list_eq. intros i. rewrite list_lookup_fmap, list_lookup_imap, list_lookup_fmap. destruct (receipts !! i) as [r|] eqn:Hr; [|done].
      simpl. f_equal. pose proof (Forall_lookup_1 _ _ _ _ Ha Hr) as Hvr. apply verified_id in Hvr.
      unfold emitVerifiedReceipt, emit, redactAuditEvent. destruct (redactor a); simpl; by rewrite bool_decide_false.
    + apply Forall_lookup. intros i e. rewrite list_lookup_imap. intros (r & _ & ->)%fmap_Some.
      unfold emitVerifiedReceipt, emit, redactAuditEvent. by destruct (redactor a).
  - split_and!; [split; [done|intros H; by apply Hh in H]|done|]. intros _. split.
    + simpl. apply (monitor_sticky _ [] _ E).
    + unfold emitReceiptVerificationFailure, emit, redactAuditEvent. by destruct (redactor a).
Qed.

Definition sampleLogger : AuditLogger := mkLogger (Some (NewRedactor true)) (mkMonitor None).
Definition sampleEvent : AuditEvent := event AuditFailure "r" "a" AuditFailure unix_epoch (details_of [("ip", "10.0.0.1")]) "by 123-45-6789".

Lemma emitted_event_witness :
  let e' := emit sampleLogger (mkEmission unix_epoch "u") sampleEvent in
  no_identifier (Reason e') /\ Reason e' = "by __REDACTED__".
Proof.
  split; [|vm_compute; reflexivity].
  apply (emitted_event sampleLogger (mkEmission unix_epoch "u") sampleEvent). reflexivity.
Defined.
