(* ===== verification/K8sPods.v ===== *)
(** * Pod templates as the operator reads and writes them

    The fields of the Kubernetes pod template, container and quantity types
    that admission and the runtime adapters use, as accessors of [K8s]'s
    opaque types; [PodsLaws] says that a field written is the field read and
    leaves the others alone.  [field.ErrorList] is a list of [FieldErr]: the
    kind, the path and the value of an error, without its text. *)

From S2P Require Import Prelude K8s.

Record ContainerPort := mkPort { PortName : string; ContainerPortNumber : Z; Protocol : string }.

Class Pods `{K : K8s} := {
  Container : Type;
  Containers : PodTemplateSpec -> list Container;
  with_Containers : PodTemplateSpec -> list Container -> PodTemplateSpec;
  ObjectMeta_Annotations : ObjectMeta -> StringMap;
  PodTemplateSpec_Annotations : PodTemplateSpec -> StringMap;
  LocalObjectReference_Name : LocalObjectReference -> string;
  Args : Container -> list string;
  Quantity : Type;
  zero_Quantity : Quantity;
  IsZero : Quantity -> bool;
  Cmp : Quantity -> Quantity -> Z;
  Value : Quantity -> Z;
  Requests : Container -> gmap string Quantity;
  Limits : Container -> gmap string Quantity;
  (** The security context: absent, or the two fields that are defaulted. *)
  HasSecurityContext : Container -> bool;
  RunAsNonRoot : Container -> option bool;
  AllowPrivilegeEscalation : Container -> option bool;
  with_RunAsNonRoot : Container -> bool -> Container;
  with_AllowPrivilegeEscalation : Container -> bool -> Container;
  Ports : Container -> list ContainerPort;
  with_Ports : Container -> list ContainerPort -> Container
}.

Class PodsLaws `{P : Pods} : Prop := {
  containers_set t l : Containers (with_Containers t l) = l;
  containers_same t : with_Containers t (Containers t) = t;
  containers_twice t l l' : with_Containers (with_Containers t l) l' = with_Containers t l';
  template_annotations_set t l : PodTemplateSpec_Annotations (with_Containers t l) = PodTemplateSpec_Annotations t;
  nonroot_set c b : RunAsNonRoot (with_RunAsNonRoot c b) = Some b;
  nonroot_escalation c b : RunAsNonRoot (with_AllowPrivilegeEscalation c b) = RunAsNonRoot c;
  escalation_set c b : AllowPrivilegeEscalation (with_AllowPrivilegeEscalation c b) = Some b;
  escalation_nonroot c b : AllowPrivilegeEscalation (with_RunAsNonRoot c b) = AllowPrivilegeEscalation c;
  nonroot_ports c l : RunAsNonRoot (with_Ports c l) = RunAsNonRoot c;
  escalation_ports c l : AllowPrivilegeEscalation (with_Ports c l) = AllowPrivilegeEscalation c;
  ports_set c l : Ports (with_Ports c l) = l;
  ports_nonroot c b : Ports (with_RunAsNonRoot c b) = Ports c;
  ports_escalation c b : Ports (with_AllowPrivilegeEscalation c b) = Ports c;
  resources_nonroot c b : Requests (with_RunAsNonRoot c b) = Requests c /\ Limits (with_RunAsNonRoot c b) = Limits c;
  resources_escalation c b : Requests (with_AllowPrivilegeEscalation c b) = Requests c /\ Limits (with_AllowPrivilegeEscalation c b) = Limits c;
  resources_ports c l : Requests (with_Ports c l) = Requests c /\ Limits (with_Ports c l) = Limits c
}.

(** [limits["nvidia.com/gpu"]]: the zero quantity when it is not there. *)
Definition resource_of `{P : Pods} (m : gmap string Quantity) (k : string) : Quantity := default zero_Quantity (m !! k).

(** ** Field errors *)

Inductive FieldErr :=
| Required (path : list string)
| NotSupported (path : list string) (value : string)
| Forbidden (path : list string).

(** [if b { errs = append(errs, e) }]. *)
Definition err_if {A} (b : bool) (e : A) : list A := if b then [e] else [].

(** ** A concrete instance

    Pods with the fields above and nothing else, and quantities that are
    integers: the laws hold together. *)

Record demo_container := mkDemo {
  dc_args : list string; dc_requests : gmap string Z; dc_limits : gmap string Z; dc_nonroot : option bool; dc_escalation : option bool;
  dc_ports : list ContainerPort
}.

#[local] Instance demo_k8s : K8s := {|
  TypeMeta := unit; zero_TypeMeta := tt; ObjectMeta := unit; zero_ObjectMeta := tt;
  PodTemplateSpec := list demo_container; zero_PodTemplateSpec := []; Condition := unit; MetaTime := unit;
  EnvVar := unit; EnvVar_DeepCopyInto := id; LocalObjectReference := string; LocalObjectReference_DeepCopy := id |}.

#[local] Instance demo_pods : Pods := {|
  Container := demo_container;
  Containers := (fun t => t) : @PodTemplateSpec demo_k8s -> list demo_container;
  with_Containers := (fun _ l => l) : @PodTemplateSpec demo_k8s -> list demo_container -> @PodTemplateSpec demo_k8s;
  ObjectMeta_Annotations := fun _ => None;
  PodTemplateSpec_Annotations := fun _ => None;
  LocalObjectReference_Name := (fun s => s) : @LocalObjectReference demo_k8s -> string;
  Args := dc_args;
  Quantity := Z; zero_Quantity := 0; IsZero := fun q => q ==? 0;
  Cmp := fun p q => if p <? q then -1 else if p >? q then 1 else 0;
  Value := fun q => q;
  Requests := dc_requests; Limits := dc_limits;
  HasSecurityContext := fun _ => true;
  RunAsNonRoot := dc_nonroot; AllowPrivilegeEscalation := dc_escalation;
  with_RunAsNonRoot := fun c b => mkDemo (dc_args c) (dc_requests c) (dc_limits c) (Some b) (dc_escalation c) (dc_ports c);
  with_AllowPrivilegeEscalation := fun c b => mkDemo (dc_args c) (dc_requests c) (dc_limits c) (dc_nonroot c) (Some b) (dc_ports c);
  Ports := dc_ports;
  with_Ports := fun c l => mkDemo (dc_args c) (dc_requests c) (dc_limits c) (dc_nonroot c) (dc_escalation c) l |}.

#[local] Instance demo_laws : PodsLaws (P := demo_pods).
Proof. by split. Qed.
