(* ===== verification/RuntimeContract.v ===== *)
(** * The contract of a runtime adapter

    [internal/runtime/contracts.go]: what an adapter declares and does, a
    value of [Adapter], and the argument helpers that the adapters share.
    [AdapterLaws] is what the operator relies on; each adapter file proves it
    of its adapter. *)

From S2P Require Import Prelude GoStrings K8s K8sPods ApiV1alpha2.

(** ** contracts.go *)

Inductive CapabilitySupport := CapabilitySupported | CapabilityUnsupported | CapabilityEmulated.

Definition ConformanceTierServed : Z := 1.

Record CapabilityMatrix := mkCapabilities {
  TensorParallel : CapabilitySupport; DataParallel : CapabilitySupport; LocalDataParallel : CapabilitySupport;
  PipelineParallel : CapabilitySupport; ExpertParallel : CapabilitySupport; ExpertLoadBalancing : CapabilitySupport;
  KVCacheDtype : CapabilitySupport; CPUOffload : CapabilitySupport; KVTransfer : CapabilitySupport;
  SpeculativeDecoding : CapabilitySupport; Quantization : CapabilitySupport; LoRAHotSwap : CapabilitySupport
}.

Record ImageContract := mkImage { Repository : string; Tag : string; Digest : string }.

Definition Reference (c : ImageContract) : string := Repository c +:+ ":" +:+ Tag c +:+ "@" +:+ Digest c.

Definition Valid (c : ImageContract) : bool :=
  if (Repository c ==? "") || (Tag c ==? "") || negb (HasPrefix (Digest c) "sha256:") then false
  else
    let raw := TrimPrefix (Digest c) "sha256:" in
    hex_decodes raw && (Z.of_nat (String.length raw) ==? 2 * 32).

Record MetricsContract := mkMetrics { MetricsPath : string; EnableArgs : list string }.

Section Adapters.

Context {K : K8s} {P : Pods}.

Record RenderRequest := mkRender {
  Service : option LLMInferenceService;
  ExistingArgs : list string;
  ModelPath : string;
  Host : string;
  Port : Z
}.

Record Adapter := mkAdapter {
  aName : string;
  aTier : Z;
  aImage : ImageContract;
  aHealthPath : string;
  aMetrics : MetricsContract;
  aCapabilities : CapabilityMatrix;
  aRender : RenderRequest -> list string;
  aValidate : option LLMInferenceService -> list FieldErr
}.

End Adapters.

(** ** The argument helpers, the same in each adapter *)

Definition hasArgument (args : list string) (target : string) : bool :=
  existsb (fun a => (a ==? target) || HasPrefix a (target +:+ "=")) args.

Definition appendPair (args : list string) (flag value : string) : list string :=
  if hasArgument args flag then args else args ++ [flag; value].

Definition prependPair (args : list string) (flag value : string) : list string :=
  if hasArgument args flag then args else [flag; value] ++ args.

Definition appendSwitch (args : list string) (flag : string) : list string :=
  if hasArgument args flag then args else args ++ [flag].

Definition appendPositiveSize (args : list string) (flag : string) (value : option Z) : list string :=
  match value with
  | None => args
  | Some v => if v <=? 0 then args else appendPair args flag (Itoa v)
  end.

Definition defaultString (value fallback : string) : string := if value ==? "" then fallback else value.
Definition defaultPort (port : Z) : Z := if port <=? 0 then 8000 else port.

(** Arguments of vLLM that the other engines do not know: [--device] and
    [--max-model-len] with the argument after them. *)
Fixpoint stripVLLMHardwareArgs (args : list string) : list string :=
  match args with
  | [] => []
  | a :: rest =>
      if (a ==? "--device") || (a ==? "--max-model-len") then match rest with [] => [] | _ :: rest => stripVLLMHardwareArgs rest end
      else if HasPrefix a "--device=" || HasPrefix a "--max-model-len=" then stripVLLMHardwareArgs rest
      else a :: stripVLLMHardwareArgs rest
  end.

(** ** What the operator relies on *)

(** How many arguments set a flag. *)
Definition sets (flag a : string) : bool := (a ==? flag) || HasPrefix a (flag +:+ "=").
Definition mentions (flag : string) (args : list string) : nat := length (filter (fun a => sets flag a = true) args).

(** A value that cannot be taken for a flag. *)
Definition plain_value (v : string) : bool := negb (HasPrefix v "--").

Section Laws.

Context {K : K8s} {P : Pods}.

(** The strings of a request that become arguments. *)
Definition request_values (r : RenderRequest) : list string :=
  [ModelPath r; Host r] ++
  match Service r with
  | None => []
  | Some s =>
      let spec := LLMInferenceService_Spec s in
      [ModelSpec_Name (LLMInferenceServiceSpec_Model spec)]
      ++ match LLMInferenceServiceSpec_KVCache spec with Some c => [KVCacheSpec_Dtype c] | None => [] end
      ++ match LLMInferenceServiceSpec_SpeculativeDecoding spec with
         | Some d => [SpeculativeDecodingSpec_Method d; SpeculativeDecodingSpec_DraftModel d] | None => [] end
      ++ match LLMInferenceServiceSpec_Quantization spec with Some q => [QuantizationSpec_Method q] | None => [] end
  end.

Definition plain_request (r : RenderRequest) : Prop := Forall (fun v => plain_value v = true) (request_values r).

(** [kept] is [args] less some groups of consecutive arguments that [unwanted]
    allows to drop in front of what follows them. *)
Inductive removes (unwanted : list string -> list string -> Prop) : list string -> list string -> Prop :=
  | removes_nil : removes unwanted [] []
  | removes_keep a args kept : removes unwanted args kept -> removes unwanted (a :: args) (a :: kept)
  | removes_group g args kept : unwanted g args -> removes unwanted args kept -> removes unwanted (g ++ args) kept.

(** What is unwanted: vLLM no longer has the slow tokenizer; the other engines
    have neither [--device] nor [--max-model-len], with or without a value. *)
Definition slow_tokenizer_args (g rest : list string) : Prop := g = ["--tokenizer-mode=slow"] \/ g = ["--tokenizer-mode"; "slow"].

Definition hardware_args (g rest : list string) : Prop :=
  exists flag, flag ∈ ["--device"; "--max-model-len"]
    /\ ((g = [flag] /\ rest = []) \/ (exists v, g = [flag; v]) \/ (exists v, g = [flag +:+ "=" +:+ v])).

(** What an adapter promises.  Flags are counted for requests whose own strings
    cannot be taken for flags. *)
Class AdapterLaws (a : Adapter) (unwanted : list string -> list string -> Prop) (forbidden : list string) : Prop := {
  image_pinned : exists repository tag hex,
    Reference (aImage a) = repository +:+ ":" +:+ tag +:+ "@sha256:" +:+ hex
    /\ repository <> "" /\ tag <> "" /\ String.length hex = 64%nat /\ str_forall is_hex hex = true;
  user_args_kept r : exists kept, removes unwanted (ExistingArgs r) kept /\ kept `sublist_of` aRender a r;
  forbidden_gone r f : plain_request r -> f ∈ forbidden -> mentions f (aRender a r) = 0%nat;
  serves_host_port r : (1 <= mentions "--host" (aRender a r) /\ 1 <= mentions "--port" (aRender a r))%nat;
  metrics_enabled r f : f ∈ EnableArgs (aMetrics a) -> (1 <= mentions f (aRender a r))%nat;
  flags_once r f :
    plain_request r -> HasPrefix f "--" = true ->
    (mentions f (aRender a r) <= Nat.max 1 (mentions f (ExistingArgs r)))%nat;
  nil_service_refused : aValidate a None <> []
}.

End Laws.

(** ** The helpers *)

Lemma hasArgument_app args args' f : hasArgument (args ++ args') f = hasArgument args f || hasArgument args' f.
Proof. apply existsb_app. Qed.

Lemma hasArgument_sets args f : hasArgument args f = true <-> exists a, a ∈ args /\ sets f a = true.
Proof.
  unfold hasArgument. rewrite existsb_exists. split; intros (a & Ha & Hs); exists a; [by rewrite list_elem_of_In|by rewrite <- list_elem_of_In].
Qed.

(** What every helper does to the arguments: it only adds, and adds [flag]. *)
Lemma appendPair_sublist args flag v : args `sublist_of` appendPair args flag v.
Proof. unfold appendPair. destruct (hasArgument _ _); [done|]. by apply sublist_inserts_r. Qed.
Lemma prependPair_sublist args flag v : args `sublist_of` prependPair args flag v.
Proof. unfold prependPair. destruct (hasArgument _ _); [done|]. by apply sublist_inserts_l. Qed.
Lemma appendSwitch_sublist args flag : args `sublist_of` appendSwitch args flag.
Proof. unfold appendSwitch. destruct (hasArgument _ _); [done|]. by apply sublist_inserts_r. Qed.
Lemma appendPositiveSize_sublist args flag v : args `sublist_of` appendPositiveSize args flag v.
Proof. unfold appendPositiveSize. destruct v as [v|]; [|done]. case_bool_decide; [done|]. apply appendPair_sublist. Qed.

Lemma sets_self f : sets f f = true.
Proof. unfold sets. by rewrite bool_decide_true. Qed.

Lemma appendPair_has args flag v : hasArgument (appendPair args flag v) flag = true.
Proof.
  unfold appendPair. destruct (hasArgument args flag) eqn:E; [done|]. apply hasArgument_sets. exists flag. split; [set_solver|apply sets_self].
Qed.
Lemma appendSwitch_has args flag : hasArgument (appendSwitch args flag) flag = true.
Proof.
  unfold appendSwitch. destruct (hasArgument args flag) eqn:E; [done|]. apply hasArgument_sets. exists flag. split; [set_solver|apply sets_self].
Qed.

Lemma hasArgument_sublist args args' f : args `sublist_of` args' -> hasArgument args f = true -> hasArgument args' f = true.
Proof. rewrite !hasArgument_sets. intros H (a & Ha & Hs). exists a. split; [|done]. by eapply elem_of_sublist. Qed.

(** ** How often a flag is set *)

Definition no_equals (s : string) : bool := str_forall (fun c => code c !=? 61) s.

Lemma prefix_chars p s q : str_forall q s = true -> HasPrefix s p = true -> str_forall q p = true.
Proof.
  intros Hs Hp. destruct (prefix_app p s Hp) as [r ->]. rewrite str_forall_app in Hs. by apply andb_true_iff in Hs as [? _].
Qed.

Lemma sets_flag f flag : no_equals flag = true -> sets f flag = true -> f = flag.
Proof.
  unfold sets. intros Hn. destruct (bool_decide_reflect (flag = f)) as [->|]; [done|]. simpl. intros Hp.
  apply (prefix_chars _ _ _ Hn) in Hp. rewrite str_forall_app in Hp. by rewrite andb_false_r in Hp.
Qed.

Lemma plain_sets f v : HasPrefix f "--" = true -> plain_value v = true -> sets f v = false.
Proof.
  unfold sets, plain_value. intros Hf Hv%negb_true_iff. destruct (bool_decide_reflect (v = f)) as [->|]; [congruence|]. simpl.
  destruct (HasPrefix v (f +:+ "=")) eqn:E; [|done].
  assert (HasPrefix v f = true) as H by (eapply prefix_trans, E; apply HasPrefix_app). by rewrite (prefix_trans _ _ _ Hf H) in Hv.
Qed.

Lemma mentions_app f l1 l2 : mentions f (l1 ++ l2) = (mentions f l1 + mentions f l2)%nat.
Proof. unfold mentions. by rewrite filter_app, length_app. Qed.

Lemma mentions_none f l : hasArgument l f = false -> mentions f l = 0%nat.
Proof.
  intros H. unfold mentions. destruct (filter _ l) as [|a l'] eqn:E; [done|].
  assert (a ∈ filter (fun a => sets f a = true) l) as [Hs Ha]%list_elem_of_filter by (rewrite E; left).
  assert (hasArgument l f = true) as H' by (apply hasArgument_sets; eauto). congruence.
Qed.

Lemma mentions_plain f l : HasPrefix f "--" = true -> Forall (fun v => plain_value v = true) l -> mentions f l = 0%nat.
Proof.
  intros Hf Hl. apply mentions_none. destruct (hasArgument l f) eqn:E; [|done]. apply hasArgument_sets in E as (a & Ha & Hs).
  rewrite Forall_forall in Hl. by rewrite (plain_sets f a Hf (Hl a Ha)) in Hs.
Qed.

Lemma digits_plain n z : plain_value (digits_fuel n z "") = true.
Proof.
  pose proof (digits_fuel_digits n z "" eq_refl) as H. unfold plain_value. destruct (HasPrefix (digits_fuel n z "") "--") eqn:E; [|done].
  apply (prefix_chars _ _ _ H) in E. by vm_compute in E.
Qed.

Lemma itoa_plain z : 0 <= z -> plain_value (Itoa z) = true.
Proof. intros Hz. unfold Itoa. rewrite bool_decide_false by lia. apply digits_plain. Qed.

Lemma defaults_plain host port : plain_value host = true ->
  plain_value (defaultString host "0.0.0.0") = true /\ plain_value (Itoa (defaultPort port)) = true.
Proof.
  intros Hh. split; [unfold defaultString; by case_bool_decide|]. apply itoa_plain. unfold defaultPort. case_bool_decide; lia.
Qed.

Section Once.

Context (f : string) (N : nat) (Hf : HasPrefix f "--" = true).

(** A flag that may be added: once is allowed, or it is another one. *)
Definition may_add (flag : string) : Prop := (1 <= N)%nat \/ sets f flag = false.

Definition at_most (args : list string) : Prop := (mentions f args <= N)%nat.

(** A flag added when it is missing, with plain values. *)
Lemma flag_once flag vs args :
  may_add flag -> no_equals flag = true -> Forall (fun v => plain_value v = true) vs -> at_most args -> hasArgument args flag = false ->
  (mentions f args + mentions f (flag :: vs) <= N)%nat.
Proof.
  unfold at_most. intros HN Hn Hv Ha Hm. change (flag :: vs) with ([flag] ++ vs). rewrite mentions_app, (mentions_plain f vs Hf Hv).
  unfold mentions at 2. rewrite filter_cons, filter_nil. case_decide as Hs; simpl; [|lia].
  destruct HN as [HN|HN]; [|congruence]. apply sets_flag in Hs as ->; [|done]. rewrite mentions_none by done. lia.
Qed.

Lemma appendPair_once flag v args : may_add flag -> no_equals flag = true -> plain_value v = true -> at_most args -> at_most (appendPair args flag v).
Proof.
  intros HN Hn Hv Ha. unfold appendPair. destruct (hasArgument args flag) eqn:E; [done|]. unfold at_most. rewrite mentions_app.
  apply flag_once; [done|done| |done..]. by repeat constructor.
Qed.

Lemma prependPair_once flag v args : may_add flag -> no_equals flag = true -> plain_value v = true -> at_most args -> at_most (prependPair args flag v).
Proof.
  intros HN Hn Hv Ha. unfold prependPair. destruct (hasArgument args flag) eqn:E; [done|]. unfold at_most. rewrite mentions_app, Nat.add_comm.
  apply flag_once; [done|done| |done..]. by repeat constructor.
Qed.

Lemma appendSwitch_once flag args : may_add flag -> no_equals flag = true -> at_most args -> at_most (appendSwitch args flag).
Proof.
  intros HN Hn Ha. unfold appendSwitch. destruct (hasArgument args flag) eqn:E; [done|]. unfold at_most. rewrite mentions_app.
  apply flag_once; [done|done|constructor|done..].
Qed.

Lemma appendPositiveSize_once flag v args : may_add flag -> no_equals flag = true -> at_most args -> at_most (appendPositiveSize args flag v).
Proof.
  intros HN Hn Ha. unfold appendPositiveSize. destruct v as [v|]; [|done]. case_bool_decide; [done|]. apply appendPair_once; [done|done| |done].
  apply itoa_plain. lia.
Qed.

End Once.

(** Walking through the steps of a rendering, for a property [Q] of the
    arguments that every step keeps. *)
Lemma let_keeps {A} (Q : A -> Prop) e (b : A -> A) : Q e -> (forall a, Q a -> Q (b a)) -> Q (let a := e in b a).
Proof. intros He Hb. apply Hb, He. Qed.

(** A flag of the rendering is not a forbidden one. *)
Ltac flag_ok :=
  match goal with
  | H : (1 <= ?N)%nat \/ ?f ∈ _ |- may_add ?f ?N _ =>
      let H' := fresh in
      destruct H as [H'|H']; [left; exact H'|right; rewrite ?elem_of_cons, elem_of_nil in H'; destruct_or? H'; first [done | subst; reflexivity]]
  end.

Ltac render_step :=
  match goal with
  | |- ?Q (let a := ?e in @?b a) => apply (let_keeps Q e b); [|let a := fresh "a" in let H := fresh "H" in intros a H; cbv beta]
  | |- _ `sublist_of` appendPair _ _ _ => etrans; [|apply appendPair_sublist]
  | |- _ `sublist_of` prependPair _ _ _ => etrans; [|apply prependPair_sublist]
  | |- _ `sublist_of` appendSwitch _ _ => etrans; [|apply appendSwitch_sublist]
  | |- _ `sublist_of` appendPositiveSize _ _ _ => etrans; [|apply appendPositiveSize_sublist]
  | |- at_most _ _ (appendPair _ _ _) => apply appendPair_once; [assumption|flag_ok|reflexivity|..]
  | |- at_most _ _ (prependPair _ _ _) => apply prependPair_once; [assumption|flag_ok|reflexivity|..]
  | |- at_most _ _ (appendSwitch _ _) => apply appendSwitch_once; [assumption|flag_ok|reflexivity|..]
  | |- at_most _ _ (appendPositiveSize _ _ _) => apply appendPositiveSize_once; [assumption|flag_ok|reflexivity|..]
  | |- ?Q (match ?x with Some _ => _ | None => _ end) => destruct x eqn:?
  | |- ?Q (if ?b then _ else _) => destruct b eqn:?
  end.
Ltac render_steps := repeat render_step; try assumption; try reflexivity.

(** The arguments the other engines do not take. *)
Lemma stripVLLM_sublist args : stripVLLMHardwareArgs args `sublist_of` args.
Proof.
  induction args as [args IH] using (induction_ltof1 _ (@length string)). unfold ltof in IH. destruct args as [|a rest]; [done|].
  simpl. destruct (_ || _); [destruct rest as [|b rest]; [apply sublist_nil_l|]; do 2 apply sublist_cons; apply IH; simpl; lia|].
  destruct (_ || _); [apply sublist_cons|apply sublist_skip]; apply IH; simpl; lia.
Qed.

Lemma stripVLLM_removes args : removes hardware_args args (stripVLLMHardwareArgs args).
Proof.
  induction args as [args IH] using (induction_ltof1 _ (@length string)). unfold ltof in IH. destruct args as [|a rest]; [constructor|].
  simpl. destruct ((a ==? "--device") || (a ==? "--max-model-len")) eqn:E1.
  - assert (a ∈ ["--device"; "--max-model-len"]) as Ha.
    { apply orb_true_iff in E1. rewrite !bool_decide_eq_true in E1. set_solver. }
    destruct rest as [|b rest].
    + apply (removes_group _ [a] []); [|constructor]. exists a. split; [done|]. by left.
    + apply (removes_group _ [a; b] rest); [|apply IH; simpl; lia]. exists a. split; [done|]. right. left. by exists b.
  - destruct (HasPrefix a "--device=" || HasPrefix a "--max-model-len=") eqn:E2; [|apply removes_keep, IH; simpl; lia].
    apply (removes_group _ [a] rest); [|apply IH; simpl; lia].
    apply orb_true_iff in E2 as [[v ->]%prefix_app|[v ->]%prefix_app].
    + exists "--device". split; [by left|]. right. right. by exists v.
    + exists "--max-model-len". split; [by right; left|]. right. right. by exists v.
Qed.

Lemma mentions_sublist f l l' : l `sublist_of` l' -> (mentions f l <= mentions f l')%nat.
Proof. induction 1 as [|a l l' _ IH|a l l' _ IH]; unfold mentions in *; rewrite ?filter_cons; [done|case_decide; simpl; lia..]. Qed.

Lemma hasArgument_mentions l f : hasArgument l f = true -> (1 <= mentions f l)%nat.
Proof.
  intros (a & Ha & Hs)%hasArgument_sets. unfold mentions. assert (a ∈ filter (fun a => sets f a = true) l) as Hin by (by apply list_elem_of_filter).
  destruct (filter _ l); [by apply not_elem_of_nil in Hin|simpl; lia].
Qed.

Lemma stripVLLM_clean args a :
  a ∈ stripVLLMHardwareArgs args -> sets "--device" a = false /\ sets "--max-model-len" a = false.
Proof.
  induction args as [args IH] using (induction_ltof1 _ (@length string)). unfold ltof in IH. destruct args as [|b rest]; [by intros ?%elem_of_nil|].
  simpl. destruct ((b ==? "--device") || (b ==? "--max-model-len")) eqn:E1.
  - destruct rest as [|c rest]; [by intros ?%elem_of_nil|]. apply IH. simpl. lia.
  - destruct (HasPrefix b "--device=" || HasPrefix b "--max-model-len=") eqn:E2; [apply IH; simpl; lia|].
    intros [->|Ha]%elem_of_cons; [|revert Ha; apply IH; simpl; lia].
    apply orb_false_iff in E1 as [H1 H2]. apply orb_false_iff in E2 as [H3 H4]. unfold sets.
    rewrite H1, H2. done.
Qed.

Lemma stripVLLM_none args f : f ∈ ["--device"; "--max-model-len"] -> mentions f (stripVLLMHardwareArgs args) = 0%nat.
Proof.
  intros Hf. apply mentions_none. destruct (hasArgument _ f) eqn:E; [|done]. apply hasArgument_sets in E as (a & [H1 H2]%stripVLLM_clean & Hs).
  rewrite !elem_of_cons, elem_of_nil in Hf. destruct Hf as [->|[->|[]]]; congruence.
Qed.
