(* ===== verification/VllmAdapter.v ===== *)
(** * The vLLM adapter

    [internal/runtime/vllm/adapter.go]: validation of a service and rendering
    of the command line of vLLM 0.31. *)

From S2P Require Import Prelude GoStrings K8s K8sPods ApiV1alpha2 RuntimeContract.

Section Vllm.

Context {K : K8s} {P : Pods}.

Definition Image : ImageContract :=
  mkImage "vllm/vllm-openai" "v0.31.0" "sha256:c1c9f6fd5c109ba7f0546a59f5b2f15fb87f64c77782e90a27b648b42a8e67c3".

Definition Capabilities : CapabilityMatrix :=
  mkCapabilities CapabilitySupported CapabilitySupported CapabilitySupported CapabilitySupported CapabilitySupported
    CapabilitySupported CapabilitySupported CapabilitySupported CapabilityEmulated CapabilitySupported CapabilitySupported
    CapabilityEmulated.

Definition dtypes := ["auto"; "fp8"; "fp16"; "bf16"; "nvfp4"].

(** The arguments of a container that ask for the slow tokenizer, by position. *)
Fixpoint slow_tokenizer (args : list string) : list bool :=
  match args with
  | [] => []
  | a :: rest =>
      ((a ==? "--tokenizer-mode=slow") || ((a ==? "--tokenizer-mode") && match rest with b :: _ => b ==? "slow" | [] => false end))
      :: slow_tokenizer rest
  end.

Definition Validate (service : option LLMInferenceService) : list FieldErr :=
  match service with
  | None => [Required ["spec"]]
  | Some s =>
      let spec := LLMInferenceService_Spec s in
      err_if ((LLMInferenceServiceSpec_Engine spec !=? "") && (LLMInferenceServiceSpec_Engine spec !=? "vllm"))
        (NotSupported ["spec"; "engine"] (LLMInferenceServiceSpec_Engine spec))
      ++ match LLMInferenceServiceSpec_Quantization spec with
         | Some q => err_if (QuantizationSpec_CheckpointPath q !=? "") (Forbidden ["spec"; "quantization"; "checkpointPath"])
                     ++ err_if (QuantizationSpec_Method q ==? "gguf") (NotSupported ["spec"; "quantization"; "method"] (QuantizationSpec_Method q))
         | None => []
         end
      ++ match LLMInferenceServiceSpec_KVCache spec with
         | Some c => err_if ((KVCacheSpec_Dtype c !=? "") && negb (bool_decide (KVCacheSpec_Dtype c ∈ dtypes)))
                       (NotSupported ["spec"; "kvCache"; "dtype"] (KVCacheSpec_Dtype c))
         | None => []
         end
      ++ concat (imap (fun i c => slow ← slow_tokenizer (Args c);
           err_if slow (Forbidden ["spec"; "template"; "spec"; "containers"; Itoa (Z.of_nat i); "args"]))
           (Containers (LLMInferenceServiceSpec_Template spec)))
  end.

Fixpoint stripRemovedArgs (args : list string) : list string :=
  match args with
  | [] => []
  | a :: rest =>
      if a ==? "--tokenizer-mode=slow" then stripRemovedArgs rest
      else match rest with
      | b :: rest' =>
          if (a ==? "--tokenizer-mode") && (b ==? "slow") then stripRemovedArgs rest' else a :: stripRemovedArgs rest
      | [] => [a]
      end
  end.

Definition renderParallelism (args : list string) (spec : option ParallelismSpec) : list string :=
  match spec with
  | None => args
  | Some spec =>
      let args := appendPositiveSize args "--tensor-parallel-size" (ParallelismSpec_Tensor spec) in
      let args := appendPositiveSize args "--data-parallel-size" (ParallelismSpec_Data spec) in
      let args := appendPositiveSize args "--data-parallel-size-local" (ParallelismSpec_DataLocal spec) in
      let args := appendPositiveSize args "--pipeline-parallel-size" (ParallelismSpec_Pipeline spec) in
      let args := if ParallelismSpec_Expert spec then appendSwitch args "--enable-expert-parallel" else args in
      if ParallelismSpec_EPLBEnabled spec then appendSwitch args "--enable-eplb" else args
  end.

Definition renderCache (args : list string) (spec : option KVCacheSpec) : list string :=
  match spec with
  | None => args
  | Some spec =>
      let args := if (KVCacheSpec_Dtype spec !=? "") && (KVCacheSpec_Dtype spec !=? "auto")
                  then appendPair args "--kv-cache-dtype" (KVCacheSpec_Dtype spec) else args in
      appendPositiveSize args "--cpu-offload-gb" (KVCacheSpec_SwapSpaceGB spec)
  end.

Definition renderSpeculative (args : list string) (spec : option SpeculativeDecodingSpec) : list string :=
  match spec with
  | None => args
  | Some spec =>
      let args := if SpeculativeDecodingSpec_Method spec !=? ""
                  then appendPair args "--spec-method" (SpeculativeDecodingSpec_Method spec) else args in
      let args := appendPositiveSize args "--spec-tokens" (SpeculativeDecodingSpec_NumTokens spec) in
      if SpeculativeDecodingSpec_DraftModel spec !=? ""
      then appendPair args "--spec-model" (SpeculativeDecodingSpec_DraftModel spec) else args
  end.

Definition renderQuantization (args : list string) (spec : option QuantizationSpec) : list string :=
  match spec with
  | None => args
  | Some spec =>
      if (QuantizationSpec_Method spec ==? "") || (QuantizationSpec_Method spec ==? "gguf") then args
      else appendPair args "--quantization" (QuantizationSpec_Method spec)
  end.

(** [annotations != nil && annotations[key] != ""]. *)
Definition annotation (m : StringMap) (key : string) : string := default "" (default ∅ m !! key).

Definition getAnnotation (service : option LLMInferenceService) (key : string) : string :=
  match service with
  | None => ""
  | Some s =>
      let own := annotation (ObjectMeta_Annotations (LLMInferenceService_ObjectMeta s)) key in
      let inherited := annotation (PodTemplateSpec_Annotations (LLMInferenceServiceSpec_Template (LLMInferenceService_Spec s))) key in
      if own !=? "" then own else if inherited !=? "" then inherited else ""
  end.

Definition renderModernFeatures (args : list string) (service : option LLMInferenceService) : list string :=
  match service with
  | None => args
  | Some _ =>
      let on key := getAnnotation service key ==? "true" in
      let args := if on "serving.ckodex.com/fast-restart" || on "serving.ckodex.com/preload-weight-cache"
                  then appendSwitch (appendPair args "--load-format" "ipc_cache") "--enable-fast-restart" else args in
      let args := if on "serving.ckodex.com/flashmla" || on "serving.ckodex.com/enable-flashmla"
                  then appendSwitch args "--enable-flashmla" else args in
      let args := if on "serving.ckodex.com/mega-gate" || on "serving.ckodex.com/moe-mega-gate"
                  then appendSwitch args "--enable-mega-gate" else args in
      if on "serving.ckodex.com/trust-request-mm-kwargs" then appendSwitch args "--trust-request-mm-kwargs" else args
  end.

Definition Render (r : RenderRequest) : list string :=
  let args := stripRemovedArgs (ExistingArgs r) in
  let args := prependPair args "--model" (ModelPath r) in
  let args := match Service r with
              | Some s => let name := ModelSpec_Name (LLMInferenceServiceSpec_Model (LLMInferenceService_Spec s)) in
                          if name !=? "" then appendPair args "--served-model-name" name else args
              | None => args
              end in
  let args := appendPair args "--host" (defaultString (Host r) "0.0.0.0") in
  let args := appendPair args "--port" (Itoa (defaultPort (Port r))) in
  match Service r with
  | None => args
  | Some s =>
      let spec := LLMInferenceService_Spec s in
      let args := renderParallelism args (LLMInferenceServiceSpec_Parallelism spec) in
      let args := renderCache args (LLMInferenceServiceSpec_KVCache spec) in
      let args := renderSpeculative args (LLMInferenceServiceSpec_SpeculativeDecoding spec) in
      let args := renderQuantization args (LLMInferenceServiceSpec_Quantization spec) in
      renderModernFeatures args (Some s)
  end.

Definition adapter : Adapter :=
  mkAdapter "vllm" ConformanceTierServed Image "/health" (mkMetrics "/metrics" []) Capabilities Render Validate.

(** ** The contract *)

Lemma stripRemoved_sublist args : stripRemovedArgs args `sublist_of` args.
Proof.
  induction args as [args IH] using (induction_ltof1 _ (@length string)). unfold ltof in IH. destruct args as [|a rest]; [done|].
  cbn [stripRemovedArgs]. case_bool_decide; [apply sublist_cons, IH; simpl; lia|]. destruct rest as [|b rest]; [done|].
  destruct (_ && _); [do 2 apply sublist_cons; apply IH; simpl; lia|]. apply sublist_skip, IH. simpl. lia.
Qed.

Lemma stripRemoved_removes args : removes slow_tokenizer_args args (stripRemovedArgs args).
Proof.
  induction args as [args IH] using (induction_ltof1 _ (@length string)). unfold ltof in IH. destruct args as [|a rest]; [constructor|].
  cbn [stripRemovedArgs]. case_bool_decide as Ha.
  { subst a. apply (removes_group _ ["--tokenizer-mode=slow"] rest); [by left|]. apply IH. simpl. lia. }
  destruct rest as [|b rest]; [repeat constructor|]. destruct (_ && _) eqn:E; [|apply removes_keep, IH; simpl; lia].
  apply andb_true_iff in E as [->%bool_decide_eq_true ->%bool_decide_eq_true].
  apply (removes_group _ ["--tokenizer-mode"; "slow"] rest); [by right|]. apply IH. simpl. lia.
Qed.

(** Each part of the rendering keeps a property that the helpers keep. *)
Lemma vllm_parallelism_keeps l args spec : l `sublist_of` args -> l `sublist_of` renderParallelism args spec.
Proof. intros H. unfold renderParallelism. render_steps. Qed.
Lemma cache_keeps l args spec : l `sublist_of` args -> l `sublist_of` renderCache args spec.
Proof. intros H. unfold renderCache. render_steps. Qed.
Lemma vllm_speculative_keeps l args spec : l `sublist_of` args -> l `sublist_of` renderSpeculative args spec.
Proof. intros H. unfold renderSpeculative. render_steps. Qed.
Lemma quantization_keeps l args spec : l `sublist_of` args -> l `sublist_of` renderQuantization args spec.
Proof. intros H. unfold renderQuantization. render_steps. Qed.
Lemma modern_keeps l args s : l `sublist_of` args -> l `sublist_of` renderModernFeatures args s.
Proof. intros H. unfold renderModernFeatures. destruct s; [|done]. cbv zeta. render_steps. Qed.

(** The engine-neutral part, and what the service adds. *)
Definition base_args (r : RenderRequest) : list string :=
  let args := prependPair (stripRemovedArgs (ExistingArgs r)) "--model" (ModelPath r) in
  match Service r with
  | Some s => let name := ModelSpec_Name (LLMInferenceServiceSpec_Model (LLMInferenceService_Spec s)) in
              if name !=? "" then appendPair args "--served-model-name" name else args
  | None => args
  end.

Definition with_endpoint (r : RenderRequest) (args : list string) : list string :=
  appendPair (appendPair args "--host" (defaultString (Host r) "0.0.0.0")) "--port" (Itoa (defaultPort (Port r))).

Definition service_args (args : list string) (s : LLMInferenceService) : list string :=
  let spec := LLMInferenceService_Spec s in
  renderModernFeatures (renderQuantization (renderSpeculative (renderCache (renderParallelism args
    (LLMInferenceServiceSpec_Parallelism spec)) (LLMInferenceServiceSpec_KVCache spec))
    (LLMInferenceServiceSpec_SpeculativeDecoding spec)) (LLMInferenceServiceSpec_Quantization spec)) (Some s).

Lemma vllm_render_parts r :
  Render r = match Service r with
             | None => with_endpoint r (base_args r)
             | Some s => service_args (with_endpoint r (base_args r)) s
             end.
Proof. unfold Render, base_args. by destruct (Service r). Qed.

Lemma vllm_base_keeps r : stripRemovedArgs (ExistingArgs r) `sublist_of` base_args r.
Proof. unfold base_args. cbv zeta. render_steps. Qed.

Lemma endpoint_keeps l r args : l `sublist_of` args -> l `sublist_of` with_endpoint r args.
Proof. intros H. unfold with_endpoint. render_steps. Qed.

Lemma service_keeps l args s : l `sublist_of` args -> l `sublist_of` service_args args s.
Proof. intros H. by apply modern_keeps, quantization_keeps, vllm_speculative_keeps, cache_keeps, vllm_parallelism_keeps. Qed.

Lemma vllm_render_endpoint r : with_endpoint r (base_args r) `sublist_of` Render r.
Proof. rewrite vllm_render_parts. destruct (Service r); [by apply service_keeps|done]. Qed.

(** The same parts, for how often a flag is set. *)
Section Flags.

Context (f : string) (N : nat) (Hf : HasPrefix f "--" = true) (HN : (1 <= N)%nat \/ f ∈ ([] : list string)).

Lemma base_once r : plain_request r -> at_most f N (stripRemovedArgs (ExistingArgs r)) -> at_most f N (base_args r).
Proof.
  unfold plain_request, request_values, base_args. intros Hr H. cbv zeta.
  destruct (Service r) as [s|]; cbn [app] in Hr; rewrite !Forall_cons in Hr; destruct_and! Hr; render_steps.
Qed.

Lemma endpoint_once r args : plain_request r -> at_most f N args -> at_most f N (with_endpoint r args).
Proof.
  unfold plain_request, request_values, with_endpoint. intros Hr H. cbn [app] in Hr. rewrite !Forall_cons in Hr. destruct_and! Hr.
  destruct (defaults_plain (Host r) (Port r)); [done|]. render_steps.
Qed.

Lemma service_once r s args : plain_request r -> Service r = Some s -> at_most f N args -> at_most f N (service_args args s).
Proof.
  unfold plain_request, request_values. intros Hr E H. rewrite E in Hr. rewrite !Forall_app in Hr. destruct Hr as (_ & _ & Hc & Hs & Hq).
  unfold service_args. cbv zeta.
  assert (at_most f N (renderParallelism args (LLMInferenceServiceSpec_Parallelism (LLMInferenceService_Spec s)))) as H1
    by (unfold renderParallelism; render_steps).
  generalize dependent (renderParallelism args (LLMInferenceServiceSpec_Parallelism (LLMInferenceService_Spec s))). intros args1 H1.
  assert (at_most f N (renderCache args1 (LLMInferenceServiceSpec_KVCache (LLMInferenceService_Spec s)))) as H2.
  { unfold renderCache. destruct (LLMInferenceServiceSpec_KVCache _); [|done]. rewrite Forall_singleton in Hc. render_steps. }
  generalize dependent (renderCache args1 (LLMInferenceServiceSpec_KVCache (LLMInferenceService_Spec s))). intros args2 H2.
  assert (at_most f N (renderSpeculative args2 (LLMInferenceServiceSpec_SpeculativeDecoding (LLMInferenceService_Spec s)))) as H3.
  { unfold renderSpeculative. destruct (LLMInferenceServiceSpec_SpeculativeDecoding _); [|done].
    rewrite Forall_cons, Forall_singleton in Hs. destruct Hs. render_steps. }
  generalize dependent (renderSpeculative args2 (LLMInferenceServiceSpec_SpeculativeDecoding (LLMInferenceService_Spec s))). intros args3 H3.
  assert (at_most f N (renderQuantization args3 (LLMInferenceServiceSpec_Quantization (LLMInferenceService_Spec s)))) as H4.
  { unfold renderQuantization. destruct (LLMInferenceServiceSpec_Quantization _); [|done]. rewrite Forall_singleton in Hq. render_steps. }
  unfold renderModernFeatures. cbv zeta. render_steps.
Qed.

End Flags.

(** vLLM has the contract. *)
#[export] Instance vllm_laws : AdapterLaws adapter slow_tokenizer_args [].
Proof.
  split; cbn [adapter aImage aRender aMetrics aValidate EnableArgs].
  - eexists _, _, _. split; [reflexivity|]. by split_and!.
  - intros r. exists (stripRemovedArgs (ExistingArgs r)). split; [apply stripRemoved_removes|].
    etrans; [apply vllm_base_keeps|]. etrans; [|apply vllm_render_endpoint]. by apply endpoint_keeps.
  - intros r f _ Hf. by apply elem_of_nil in Hf.
  - intros r. split; apply hasArgument_mentions; (eapply hasArgument_sublist; [apply vllm_render_endpoint|]; unfold with_endpoint).
    + eapply hasArgument_sublist; [apply appendPair_sublist|apply appendPair_has].
    + apply appendPair_has.
  - intros r f Hf. by apply elem_of_nil in Hf.
  - intros r f Hr Hf. set (N := Nat.max _ _). change (at_most f N (Render r)). rewrite vllm_render_parts.
    assert ((1 <= N)%nat \/ f ∈ ([] : list string)) as HN by (left; lia).
    assert (at_most f N (with_endpoint r (base_args r))) as H.
    { apply endpoint_once; [done|done|done|]. apply base_once; [done|done|done|]. unfold at_most.
      pose proof (mentions_sublist f _ _ (stripRemoved_sublist (ExistingArgs r))). lia. }
    destruct (Service r) as [s|] eqn:E; [|done]. by apply (service_once f N Hf HN r).
  - done.
Qed.

End Vllm.

(** The arguments that are removed can leave behind what they removed: a flag
    and its value that were apart come together. *)
Example strip_leaves_slow :
  stripRemovedArgs ["--tokenizer-mode"; "--tokenizer-mode=slow"; "slow"] = ["--tokenizer-mode"; "slow"].
Proof. reflexivity. Qed.
