(* ===== verification/SglangAdapter.v ===== *)
(** * The SGLang adapter

    [internal/runtime/sglang/adapter.go]. *)

From S2P Require Import Prelude GoStrings K8s K8sPods ApiV1alpha2 RuntimeContract.

Section Sglang.

Context {K : K8s} {P : Pods}.

Definition engineName := "sglang".

Definition Image : ImageContract :=
  mkImage "lmsysorg/sglang" "v0.5.18" "sha256:9e148f5ac788e856a06166bd6347a831831eb9fcfab4d1770874823a7c29a1a1".

Definition Capabilities : CapabilityMatrix :=
  mkCapabilities CapabilitySupported CapabilitySupported CapabilityUnsupported CapabilitySupported CapabilityUnsupported
    CapabilityUnsupported CapabilityUnsupported CapabilityUnsupported CapabilityUnsupported CapabilityUnsupported
    CapabilityUnsupported CapabilityUnsupported.

Definition Validate (service : option LLMInferenceService) : list FieldErr :=
  match service with
  | None => [Required ["spec"]]
  | Some s =>
      let spec := LLMInferenceService_Spec s in
      err_if (LLMInferenceServiceSpec_Engine spec !=? engineName) (NotSupported ["spec"; "engine"] (LLMInferenceServiceSpec_Engine spec))
      ++ match LLMInferenceServiceSpec_Parallelism spec with
         | Some p =>
             err_if (bool_decide (is_Some (ParallelismSpec_DataLocal p))) (Forbidden ["spec"; "parallelism"; "dataLocal"])
             ++ err_if (ParallelismSpec_Expert p) (Forbidden ["spec"; "parallelism"; "expert"])
             ++ err_if (ParallelismSpec_EPLBEnabled p) (Forbidden ["spec"; "parallelism"; "eplbEnabled"])
         | None => []
         end
      ++ err_if (bool_decide (is_Some (LLMInferenceServiceSpec_KVCache spec))) (Forbidden ["spec"; "kvCache"])
      ++ err_if (bool_decide (is_Some (LLMInferenceServiceSpec_SpeculativeDecoding spec))) (Forbidden ["spec"; "speculativeDecoding"])
      ++ err_if (bool_decide (is_Some (LLMInferenceServiceSpec_Quantization spec))) (Forbidden ["spec"; "quantization"])
      ++ err_if (bool_decide (is_Some (LLMInferenceServiceSpec_Prefill spec))) (Forbidden ["spec"; "prefill"])
      ++ err_if (bool_decide (is_Some (LLMInferenceServiceSpec_Worker spec))) (Forbidden ["spec"; "worker"])
  end.

Definition launchPrefix := ["python3"; "-m"; "sglang.launch_server"].

Definition ensureLaunchPrefix (args : list string) : list string :=
  if bool_decide (take 3 args = launchPrefix) then args else launchPrefix ++ args.

Definition renderParallelism (args : list string) (spec : option ParallelismSpec) : list string :=
  match spec with
  | None => args
  | Some spec =>
      let args := appendPositiveSize args "--tensor-parallel-size" (ParallelismSpec_Tensor spec) in
      let args := appendPositiveSize args "--data-parallel-size" (ParallelismSpec_Data spec) in
      appendPositiveSize args "--pipeline-parallel-size" (ParallelismSpec_Pipeline spec)
  end.

Definition Render (r : RenderRequest) : list string :=
  let args := stripVLLMHardwareArgs (ExistingArgs r) in
  let args := ensureLaunchPrefix args in
  let args := appendPair args "--model-path" (ModelPath r) in
  let args := match Service r with
              | Some s => let name := ModelSpec_Name (LLMInferenceServiceSpec_Model (LLMInferenceService_Spec s)) in
                          if name !=? "" then appendPair args "--served-model-name" name else args
              | None => args
              end in
  let args := appendPair args "--host" (defaultString (Host r) "0.0.0.0") in
  let args := appendPair args "--port" (Itoa (defaultPort (Port r))) in
  let args := appendSwitch args "--enable-metrics" in
  match Service r with
  | Some s => renderParallelism args (LLMInferenceServiceSpec_Parallelism (LLMInferenceService_Spec s))
  | None => args
  end.

Definition adapter : Adapter :=
  mkAdapter engineName ConformanceTierServed Image "/health" (mkMetrics "/metrics" ["--enable-metrics"]) Capabilities Render Validate.

(** ** The contract *)

Lemma sglang_launch_keeps args : args `sublist_of` ensureLaunchPrefix args.
Proof. unfold ensureLaunchPrefix. case_bool_decide; [done|]. by apply sublist_inserts_l. Qed.

Lemma sglang_parallelism_keeps l args spec : l `sublist_of` args -> l `sublist_of` renderParallelism args spec.
Proof. intros H. unfold renderParallelism. render_steps. Qed.

(** The arguments up to the metrics switch. *)
Definition named_args (r : RenderRequest) : list string :=
  let args := appendPair (ensureLaunchPrefix (stripVLLMHardwareArgs (ExistingArgs r))) "--model-path" (ModelPath r) in
  match Service r with
  | Some s => let name := ModelSpec_Name (LLMInferenceServiceSpec_Model (LLMInferenceService_Spec s)) in
              if name !=? "" then appendPair args "--served-model-name" name else args
  | None => args
  end.

Definition with_endpoint (r : RenderRequest) (args : list string) : list string :=
  appendSwitch (appendPair (appendPair args "--host" (defaultString (Host r) "0.0.0.0")) "--port" (Itoa (defaultPort (Port r))))
    "--enable-metrics".

Lemma sglang_render_parts r :
  Render r = match Service r with
             | None => with_endpoint r (named_args r)
             | Some s => renderParallelism (with_endpoint r (named_args r)) (LLMInferenceServiceSpec_Parallelism (LLMInferenceService_Spec s))
             end.
Proof. unfold Render, named_args. by destruct (Service r). Qed.

Lemma sglang_named_keeps r : stripVLLMHardwareArgs (ExistingArgs r) `sublist_of` named_args r.
Proof. unfold named_args. cbv zeta. render_steps; apply sglang_launch_keeps. Qed.

Lemma sglang_render_endpoint r : with_endpoint r (named_args r) `sublist_of` Render r.
Proof. rewrite sglang_render_parts. destruct (Service r); [by apply sglang_parallelism_keeps|done]. Qed.

(** How often a flag is set: as often as by the user, or once; flags of other
    engines never. *)
Lemma sglang_at_most f N r :
  HasPrefix f "--" = true -> (1 <= N)%nat \/ f ∈ ["--device"; "--max-model-len"] -> plain_request r ->
  at_most f N (stripVLLMHardwareArgs (ExistingArgs r)) -> at_most f N (Render r).
Proof.
  intros Hf HN Hr Hat. rewrite sglang_render_parts.
  assert (at_most f N (ensureLaunchPrefix (stripVLLMHardwareArgs (ExistingArgs r)))) as H0.
  { unfold ensureLaunchPrefix, at_most in *. case_bool_decide; [lia|]. rewrite mentions_app, (mentions_plain f launchPrefix Hf) by (by repeat constructor). lia. }
  unfold plain_request, request_values in Hr.
  assert (at_most f N (with_endpoint r (named_args r))) as H.
  { rewrite Forall_app in Hr. destruct Hr as [Hp Hs]. rewrite !Forall_cons in Hp. destruct_and! Hp.
    destruct (defaults_plain (Host r) (Port r)); [done|]. unfold with_endpoint, named_args. cbv zeta.
    destruct (Service r); [rewrite Forall_app, Forall_singleton in Hs; destruct_and! Hs|]; render_steps. }
  destruct (Service r) as [s|]; [|done]. unfold renderParallelism. render_steps.
Qed.

#[export] Instance sglang_laws : AdapterLaws adapter hardware_args ["--device"; "--max-model-len"].
Proof.
  split; cbn [adapter aImage aRender aMetrics aValidate EnableArgs].
  - eexists _, _, _. split; [reflexivity|]. by split_and!.
  - intros r. exists (stripVLLMHardwareArgs (ExistingArgs r)). split; [apply stripVLLM_removes|].
    etrans; [apply sglang_named_keeps|]. etrans; [|apply sglang_render_endpoint]. unfold with_endpoint. render_steps.
  - intros r f Hr Hf. apply Nat.le_0_r. change (at_most f 0 (Render r)). apply sglang_at_most; [|by right|done|].
    + rewrite !elem_of_cons, elem_of_nil in Hf. by destruct Hf as [->|[->|[]]].
    + unfold at_most. by rewrite (stripVLLM_none _ f Hf).
  - intros r. split; apply hasArgument_mentions; (eapply hasArgument_sublist; [apply sglang_render_endpoint|]; unfold with_endpoint);
      (eapply hasArgument_sublist; [apply appendSwitch_sublist|]); [|apply appendPair_has].
    eapply hasArgument_sublist; [apply appendPair_sublist|apply appendPair_has].
  - intros r f ->%list_elem_of_singleton. apply hasArgument_mentions.
    eapply hasArgument_sublist; [apply sglang_render_endpoint|]. apply appendSwitch_has.
  - intros r f Hr Hf. apply sglang_at_most; [done|left; lia|done|]. unfold at_most.
    pose proof (mentions_sublist f _ _ (stripVLLM_sublist (ExistingArgs r))). lia.
  - done.
Qed.

End Sglang.
