(* ===== verification/TensorfoldAdapter.v ===== *)
(** * The TensorFold adapter

    [internal/runtime/tensorfold/adapter.go]. *)

From S2P Require Import Prelude GoStrings K8s K8sPods ApiV1alpha2 RuntimeContract.

Section Tensorfold.

Context {K : K8s} {P : Pods}.

Definition engineName := "tensorfold".

Definition Image : ImageContract :=
  mkImage "tensorfold/tensorfold" "v1.0.0" "sha256:d8e5f2a1b3c4d5e6f7a8b9c0d1e2f3a4b5c6d7e8f9a0b1c2d3e4f5a6b7c8d9e0".

Definition Capabilities : CapabilityMatrix :=
  mkCapabilities CapabilityUnsupported CapabilitySupported CapabilityUnsupported CapabilityUnsupported CapabilityUnsupported
    CapabilityUnsupported CapabilityUnsupported CapabilityUnsupported CapabilityUnsupported CapabilitySupported
    CapabilityUnsupported CapabilityUnsupported.

Definition Validate (service : option LLMInferenceService) : list FieldErr :=
  match service with
  | None => [Required ["spec"]]
  | Some s =>
      let spec := LLMInferenceService_Spec s in
      err_if (LLMInferenceServiceSpec_Engine spec !=? engineName) (NotSupported ["spec"; "engine"] (LLMInferenceServiceSpec_Engine spec))
      ++ match LLMInferenceServiceSpec_Parallelism spec with
         | Some p =>
             err_if (bool_decide (is_Some (ParallelismSpec_Tensor p))) (Forbidden ["spec"; "parallelism"; "tensor"])
             ++ err_if (bool_decide (is_Some (ParallelismSpec_DataLocal p))) (Forbidden ["spec"; "parallelism"; "dataLocal"])
             ++ err_if (bool_decide (is_Some (ParallelismSpec_Pipeline p))) (Forbidden ["spec"; "parallelism"; "pipeline"])
             ++ err_if (ParallelismSpec_Expert p) (Forbidden ["spec"; "parallelism"; "expert"])
             ++ err_if (ParallelismSpec_EPLBEnabled p) (Forbidden ["spec"; "parallelism"; "eplbEnabled"])
         | None => []
         end
      ++ err_if (bool_decide (is_Some (LLMInferenceServiceSpec_KVCache spec))) (Forbidden ["spec"; "kvCache"])
      ++ err_if (bool_decide (is_Some (LLMInferenceServiceSpec_Quantization spec))) (Forbidden ["spec"; "quantization"])
      ++ err_if (bool_decide (is_Some (LLMInferenceServiceSpec_Prefill spec))) (Forbidden ["spec"; "prefill"])
      ++ err_if (bool_decide (is_Some (LLMInferenceServiceSpec_Worker spec))) (Forbidden ["spec"; "worker"])
      ++ match LLMInferenceServiceSpec_SpeculativeDecoding spec with
         | Some d =>
             let m := SpeculativeDecodingSpec_Method d in
             err_if ((m !=? "") && (m !=? "mtp") && (m !=? "draft")) (NotSupported ["spec"; "speculativeDecoding"; "method"] m)
         | None => []
         end
  end.

Definition ensureLaunchPrefix (args : list string) (modelPath : string) : list string :=
  match args with
  | a :: b :: rest =>
      if ((a ==? "tensorfold") || (a ==? "tensorfold-native")) && (b ==? "serve") then
        match rest with
        | c :: _ => if negb (HasPrefix c "-") then args else if modelPath !=? "" then a :: b :: modelPath :: rest else args
        | [] => if modelPath !=? "" then a :: b :: modelPath :: rest else args
        end
      else ["tensorfold"; "serve"] ++ err_if (modelPath !=? "") modelPath ++ args
  | _ => ["tensorfold"; "serve"] ++ err_if (modelPath !=? "") modelPath ++ args
  end.

Definition renderParallelism (args : list string) (spec : option ParallelismSpec) : list string :=
  match spec with
  | None => args
  | Some spec => appendPositiveSize args "--parallel" (ParallelismSpec_Data spec)
  end.

Definition renderSpeculative (args : list string) (spec : option SpeculativeDecodingSpec) : list string :=
  match spec with
  | None => args
  | Some spec =>
      let args := if SpeculativeDecodingSpec_Method spec !=? ""
                  then appendPair args "--spec-method" (SpeculativeDecodingSpec_Method spec) else args in
      let args := appendPositiveSize args "--spec-tokens" (SpeculativeDecodingSpec_NumTokens spec) in
      if SpeculativeDecodingSpec_DraftModel spec !=? ""
      then appendPair args "--draft-model" (SpeculativeDecodingSpec_DraftModel spec) else args
  end.

Definition Render (r : RenderRequest) : list string :=
  let args := stripVLLMHardwareArgs (ExistingArgs r) in
  let args := ensureLaunchPrefix args (ModelPath r) in
  let args := match Service r with
              | Some s => let name := ModelSpec_Name (LLMInferenceServiceSpec_Model (LLMInferenceService_Spec s)) in
                          if name !=? "" then appendPair args "--name" name else args
              | None => args
              end in
  let args := appendPair args "--host" (defaultString (Host r) "0.0.0.0") in
  let args := appendPair args "--port" (Itoa (defaultPort (Port r))) in
  let args := appendSwitch args "--metrics-open" in
  match Service r with
  | None => args
  | Some s =>
      let spec := LLMInferenceService_Spec s in
      let args := renderParallelism args (LLMInferenceServiceSpec_Parallelism spec) in
      renderSpeculative args (LLMInferenceServiceSpec_SpeculativeDecoding spec)
  end.

Definition adapter : Adapter :=
  mkAdapter engineName ConformanceTierServed Image "/health" (mkMetrics "/metrics" ["--metrics-open"]) Capabilities Render Validate.

(** ** The contract *)

(** The prefix adds only plain arguments. *)
Lemma launch_adds args modelPath :
  exists pre post mid, args = pre ++ post /\ ensureLaunchPrefix args modelPath = pre ++ mid ++ post
    /\ (plain_value modelPath = true -> Forall (fun v => plain_value v = true) mid).
Proof.
  assert (forall args, exists pre post mid, args = pre ++ post /\
    ["tensorfold"; "serve"] ++ err_if (modelPath !=? "") modelPath ++ args = pre ++ mid ++ post
    /\ (plain_value modelPath = true -> Forall (fun v => plain_value v = true) mid)) as Hnew.
  { intros l. exists [], l, (["tensorfold"; "serve"] ++ err_if (modelPath !=? "") modelPath). split; [done|]. split; [done|].
    intros Hp. unfold err_if. destruct (modelPath !=? ""); by repeat constructor. }
  assert (forall a b rest, exists pre post mid, a :: b :: rest = pre ++ post /\ a :: b :: modelPath :: rest = pre ++ mid ++ post
    /\ (plain_value modelPath = true -> Forall (fun v => plain_value v = true) mid)) as Hins.
  { intros a b rest. exists [a; b], rest, [modelPath]. split_and!; [done..|]. by repeat constructor. }
  assert (forall l, exists pre post mid : list string, l = pre ++ post /\ l = pre ++ mid ++ post
    /\ (plain_value modelPath = true -> Forall (fun v => plain_value v = true) mid)) as Hid.
  { intros l. exists [], l, []. by repeat constructor. }
  unfold ensureLaunchPrefix. destruct args as [|a [|b rest]]; [apply Hnew..|]. destruct (_ && _); [|apply Hnew].
  destruct rest as [|c rest]; [destruct (modelPath !=? ""); [apply Hins|apply Hid]|].
  destruct (negb (HasPrefix c "-")); [apply Hid|]. destruct (modelPath !=? ""); [apply Hins|apply Hid].
Qed.

Lemma tensorfold_launch_keeps args modelPath : args `sublist_of` ensureLaunchPrefix args modelPath.
Proof.
  destruct (launch_adds args modelPath) as (pre & post & mid & E & -> & _). rewrite E at 1.
  apply sublist_app; [done|]. by apply sublist_inserts_l.
Qed.

Lemma tensorfold_parallelism_keeps l args spec : l `sublist_of` args -> l `sublist_of` renderParallelism args spec.
Proof. intros H. unfold renderParallelism. render_steps. Qed.
Lemma tensorfold_speculative_keeps l args spec : l `sublist_of` args -> l `sublist_of` renderSpeculative args spec.
Proof. intros H. unfold renderSpeculative. render_steps. Qed.

(** The arguments up to the metrics switch. *)
Definition named_args (r : RenderRequest) : list string :=
  let args := ensureLaunchPrefix (stripVLLMHardwareArgs (ExistingArgs r)) (ModelPath r) in
  match Service r with
  | Some s => let name := ModelSpec_Name (LLMInferenceServiceSpec_Model (LLMInferenceService_Spec s)) in
              if name !=? "" then appendPair args "--name" name else args
  | None => args
  end.

Definition with_endpoint (r : RenderRequest) (args : list string) : list string :=
  appendSwitch (appendPair (appendPair args "--host" (defaultString (Host r) "0.0.0.0")) "--port" (Itoa (defaultPort (Port r))))
    "--metrics-open".

Lemma tensorfold_render_parts r :
  Render r = match Service r with
             | None => with_endpoint r (named_args r)
             | Some s => renderSpeculative (renderParallelism (with_endpoint r (named_args r))
                           (LLMInferenceServiceSpec_Parallelism (LLMInferenceService_Spec s)))
                           (LLMInferenceServiceSpec_SpeculativeDecoding (LLMInferenceService_Spec s))
             end.
Proof. unfold Render, named_args. by destruct (Service r). Qed.

Lemma tensorfold_named_keeps r : stripVLLMHardwareArgs (ExistingArgs r) `sublist_of` named_args r.
Proof. unfold named_args. cbv zeta. render_steps; apply tensorfold_launch_keeps. Qed.

Lemma tensorfold_render_endpoint r : with_endpoint r (named_args r) `sublist_of` Render r.
Proof. rewrite tensorfold_render_parts. destruct (Service r); [by apply tensorfold_speculative_keeps, tensorfold_parallelism_keeps|done]. Qed.

(** How often a flag is set: as often as by the user, or once; flags of other
    engines never. *)
Lemma tensorfold_at_most f N r :
  HasPrefix f "--" = true -> (1 <= N)%nat \/ f ∈ ["--device"; "--max-model-len"] -> plain_request r ->
  at_most f N (stripVLLMHardwareArgs (ExistingArgs r)) -> at_most f N (Render r).
Proof.
  intros Hf HN Hr Hat. rewrite tensorfold_render_parts. unfold plain_request, request_values in Hr. rewrite Forall_app in Hr. destruct Hr as [Hp Hs].
  rewrite !Forall_cons in Hp. destruct_and! Hp.
  assert (at_most f N (ensureLaunchPrefix (stripVLLMHardwareArgs (ExistingArgs r)) (ModelPath r))) as H0.
  { destruct (launch_adds (stripVLLMHardwareArgs (ExistingArgs r)) (ModelPath r)) as (pre & post & mid & E & -> & Hm).
    unfold at_most in *. rewrite !mentions_app, (mentions_plain f mid Hf) by auto. rewrite E, mentions_app in Hat. lia. }
  destruct (defaults_plain (Host r) (Port r)); [done|].
  assert (at_most f N (with_endpoint r (named_args r))) as H'.
  { unfold with_endpoint, named_args. cbv zeta.
    destruct (Service r); [rewrite !Forall_app, Forall_singleton in Hs; destruct_and! Hs|]; render_steps. }
  destruct (Service r) as [s|]; [|done]. rewrite !Forall_app in Hs. destruct Hs as (_ & _ & Hs & _).
  assert (at_most f N (renderParallelism (with_endpoint r (named_args r)) (LLMInferenceServiceSpec_Parallelism (LLMInferenceService_Spec s)))) as Hpar
    by (unfold renderParallelism; render_steps).
  unfold renderSpeculative. destruct (LLMInferenceServiceSpec_SpeculativeDecoding _); [|done].
  rewrite Forall_cons, Forall_singleton in Hs. destruct_and! Hs. render_steps.
Qed.

#[export] Instance tensorfold_laws : AdapterLaws adapter hardware_args ["--device"; "--max-model-len"].
Proof.
  split; cbn [adapter aImage aRender aMetrics aValidate EnableArgs].
  - eexists _, _, _. split; [reflexivity|]. by split_and!.
  - intros r. exists (stripVLLMHardwareArgs (ExistingArgs r)). split; [apply stripVLLM_removes|].
    etrans; [apply tensorfold_named_keeps|]. etrans; [|apply tensorfold_render_endpoint]. unfold with_endpoint. render_steps.
  - intros r f Hr Hf. apply Nat.le_0_r. change (at_most f 0 (Render r)). apply tensorfold_at_most; [|by right|done|].
    + rewrite !elem_of_cons, elem_of_nil in Hf. by destruct Hf as [->|[->|[]]].
    + unfold at_most. by rewrite (stripVLLM_none _ f Hf).
  - intros r. split; apply hasArgument_mentions; (eapply hasArgument_sublist; [apply tensorfold_render_endpoint|]; unfold with_endpoint);
      (eapply hasArgument_sublist; [apply appendSwitch_sublist|]); [|apply appendPair_has].
    eapply hasArgument_sublist; [apply appendPair_sublist|apply appendPair_has].
  - intros r f ->%list_elem_of_singleton. apply hasArgument_mentions.
    eapply hasArgument_sublist; [apply tensorfold_render_endpoint|]. apply appendSwitch_has.
  - intros r f Hr Hf. apply tensorfold_at_most; [done|left; lia|done|]. unfold at_most.
    pose proof (mentions_sublist f _ _ (stripVLLM_sublist (ExistingArgs r))). lia.
  - done.
Qed.

End Tensorfold.
