(* ===== verification/RuntimeRegistry.v ===== *)
(** * The registry of admitted engines

    [internal/runtime/registry/registry.go] and
    [internal/validation/inference_engine.go]. *)

From S2P Require Import Prelude GoStrings K8s K8sPods ApiV1alpha2 RuntimeContract VllmAdapter SglangAdapter TensorfoldAdapter.

Definition DefaultEngine := "vllm".
Definition SGLangEngine := "sglang".
Definition TensorFoldEngine := "tensorfold".

Section Registry.

Context {K : K8s} {P : Pods}.

Definition adapters : gmap string Adapter :=
  list_to_map [(DefaultEngine, VllmAdapter.adapter); (SGLangEngine, SglangAdapter.adapter); (TensorFoldEngine, TensorfoldAdapter.adapter)].

Definition Resolve (name : string) : option Adapter := adapters !! (if name ==? "" then DefaultEngine else name).

Definition Names : list string := sort_strings (elements (dom adapters)).

Definition ValidateInferenceEngine (engine : string) : bool := bool_decide (is_Some (Resolve engine)).

Lemma adapters_lookup n :
  adapters !! n = if decide (n = DefaultEngine) then Some VllmAdapter.adapter else if decide (n = SGLangEngine) then Some SglangAdapter.adapter
                  else if decide (n = TensorFoldEngine) then Some TensorfoldAdapter.adapter else None.
Proof.
  change adapters with (<[DefaultEngine := VllmAdapter.adapter]> (<[SGLangEngine := SglangAdapter.adapter]>
    (<[TensorFoldEngine := TensorfoldAdapter.adapter]> (∅ : gmap string Adapter)))).
  repeat case_decide; subst; repeat first [rewrite lookup_insert_eq; reflexivity | rewrite lookup_insert_ne by congruence]. done.
Qed.

Lemma resolve_cases name a :
  Resolve name = Some a <->
  ((name = "" \/ name = DefaultEngine) /\ a = VllmAdapter.adapter) \/ (name = SGLangEngine /\ a = SglangAdapter.adapter)
  \/ (name = TensorFoldEngine /\ a = TensorfoldAdapter.adapter).
Proof.
  unfold Resolve. rewrite adapters_lookup. case_bool_decide; subst; [simpl; split; [|intros [[_ ->]|[[? _]|[? _]]]]; [intros [= <-]; auto|done..]|].
  repeat case_decide; subst; split; try done; try (intros [= <-]; tauto); intros [[[?|?] ->]|[[? ->]|[? ->]]]; unfold DefaultEngine, SGLangEngine, TensorFoldEngine in *; congruence.
Qed.

(** The arguments of the user an engine may drop, and those it must not get. *)
Definition engine_unwanted (name : string) : list string -> list string -> Prop :=
  if decide (name = "" \/ name = "vllm") then slow_tokenizer_args else hardware_args.
Definition engine_forbidden (name : string) : list string :=
  if decide (name = "" \/ name = "vllm") then [] else ["--device"; "--max-model-len"].

(** C37. Every engine the registry admits is an adapter that meets the contract,
    under the name it is asked for by (vLLM for no name): its image is pinned
    by a SHA-256 digest; the arguments of the user are rendered in order but
    for the slow tokenizer with vLLM and [--device] and [--max-model-len] with
    the others; [--host], [--port] and the metrics are set; a missing service is
    refused.  If no string of the request starts with two dashes, no flag is
    set more than once unless the user sets it more often, and SGLang and
    TensorFold get neither [--device] nor [--max-model-len]. *)
Theorem registry_lawful name a :
  Resolve name = Some a ->
  aName a = (if name ==? "" then "vllm" else name) /\ AdapterLaws a (engine_unwanted name) (engine_forbidden name).
Proof.
  intros H. apply resolve_cases in H as [[[-> | ->] ->]|[[-> ->]|[-> ->]]]; (split; [reflexivity|]).
  - apply vllm_laws.
  - apply vllm_laws.
  - apply sglang_laws.
  - apply tensorfold_laws.
Qed.

(** The admitted names, in order. *)
Lemma engine_admitted name : ValidateInferenceEngine name = true <-> name ∈ ["" ; DefaultEngine; SGLangEngine; TensorFoldEngine].
Proof.
  unfold ValidateInferenceEngine. rewrite bool_decide_eq_true. unfold is_Some. setoid_rewrite resolve_cases. set_solver.
Qed.

Lemma admitted_names : Names = [SGLangEngine; TensorFoldEngine; DefaultEngine].
Proof. reflexivity. Qed.

End Registry.

(** A user's arguments through the rendering of SGLang. *)
Definition w_render : RenderRequest :=
  mkRender (K := demo_k8s) None ["--seed"; "7"; "--device"; "cuda"; "--port=9"] "/models" "" 0.

Lemma registry_lawful_witness :
  exists a, Resolve (K := demo_k8s) (P := demo_pods) "sglang" = Some a /\ aName a = "sglang"
    /\ mentions "--device" (aRender a w_render) = 0%nat /\ (mentions "--port" (aRender a w_render) <= 1)%nat
    /\ exists kept, removes hardware_args (ExistingArgs w_render) kept /\ kept `sublist_of` aRender a w_render.
Proof.
  exists (SglangAdapter.adapter (K := demo_k8s)). split; [reflexivity|].
  destruct (registry_lawful (K := demo_k8s) (P := demo_pods) "sglang" (SglangAdapter.adapter (K := demo_k8s)) eq_refl) as [Hn Hl].
  assert (plain_request w_render) as Hp by (repeat constructor). split_and!.
  - exact Hn.
  - apply (forbidden_gone (AdapterLaws := Hl) w_render "--device" Hp). left.
  - exact (flags_once (AdapterLaws := Hl) w_render "--port" Hp eq_refl).
  - exact (user_args_kept (AdapterLaws := Hl) w_render).
Defined.
