(* ===== verification/Webhook.v ===== *)
(** * The admission webhooks of LLMInferenceService

    [internal/webhook]: the validating webhook
    ([llminferenceservice_validation.go]), the mutating webhook
    ([llminferenceservice_defaults.go]), their adapters to the storage version
    ([llminferenceservice_v1.go]), and the refused part of the API surface
    ([internal/validation/surface.go]).  Errors and warnings are constructors,
    one per message. *)

From S2P Require Import Prelude GoStrings K8s K8sPods ApiV1 ApiV1alpha2 Conversion ConversionRoundTrip RuntimeContract RuntimeRegistry.
From Stdlib Require Import Ascii.

Inductive WebhookErr :=
| SurfaceErrors (errs : list FieldErr)
| UnsupportedEngine (engine : string)
| ModelURIRequired
| HFForbiddenInFedRAMP
| EmbeddedCredentials
| UnsafeFormat
| UnknownScheme
| RevisionNeedsHF
| RevisionTwice
| ModelNameRequired
| ContainersRequired
| MinAboveMax
| CPUMismatch
| MemoryMismatch
| GPUMismatch
| TensorNotPowerOfTwo (tp : Z)
| DevicesNeedContainer
| DevicesVsTensor (devices tp : Z)
| EmptyDevice
| DuplicateDevice (device : string)
| TensorExceedsGPUs (tp gpus : Z)
| PrefillContainersRequired
| PrefillNeedsConnector
| LMCacheNeedsConnector
| EngineRefOnlyMultiprocess
| EngineRefRequired
| SchedulerWithCanary
| SchedulerWithWorker
| InlineConfigInStable.

Inductive Warning := TensorWithoutGPU (tp : Z).

(** ** Helpers of webhook.go *)

Definition isHuggingFaceURI (uri : string) : bool :=
  HasPrefix uri "hf://" || HasPrefix uri "hf-mount://" || HasPrefix uri "hf-mirror://".

(** The part after the first [sep], if there is one. *)
Fixpoint after_first (sep s : string) : option string :=
  if HasPrefix s sep then Some (str_drop (String.length sep) s)
  else match s with EmptyString => None | String _ s => after_first sep s end.

Definition uriHasRevision (uri : string) : bool :=
  match after_first "://" uri with Some rest => Contains rest "@" | None => false end.

Definition validSchemes : list string :=
  ["hf://"; "hf-mount://"; "hf-mirror://"; "s3://"; "swfs://"; "gs://"; "pvc://"; "oci://"; "ocis://"; "modelpack://";
   "seaweedfs://"; "http://"; "https://"].

Section Webhook.

Context {K : K8s} {P : Pods}.
Implicit Types (svc : LLMInferenceService).

Local Abbreviation spec svc := (LLMInferenceService_Spec svc).
Local Abbreviation pods svc := (Containers (LLMInferenceServiceSpec_Template (LLMInferenceService_Spec svc))).
Local Abbreviation uri_of svc := (ModelSpec_URI (LLMInferenceServiceSpec_Model (LLMInferenceService_Spec svc))).

(** ** surface.go *)

Definition ValidateLLMInferenceServiceSurface (service : option LLMInferenceService) : list FieldErr :=
  match service with
  | None => [Required ["spec"]]
  | Some svc =>
      err_if (Z.of_nat (length (range_slice (LLMInferenceServiceSpec_BaseRefs (spec svc)))) >? 0) (Forbidden ["spec"; "baseRefs"])
      ++ err_if (bool_decide (is_Some (LLMInferenceServiceSpec_AutoOptimize (spec svc)))) (Forbidden ["spec"; "autoOptimize"])
      ++ err_if (Z.of_nat (length (range_slice (LLMInferenceServiceSpec_AllowedTenants (spec svc)))) >? 0) (Forbidden ["spec"; "allowedTenants"])
      ++ err_if (bool_decide (is_Some (LLMInferenceServiceSpec_SLO (spec svc)))) (Forbidden ["spec"; "slo"])
      ++ match LLMInferenceServiceSpec_Quantization (spec svc) with
         | Some q => err_if (QuantizationSpec_CheckpointPath q !=? "") (Forbidden ["spec"; "quantization"; "checkpointPath"])
         | None => []
         end
  end.

(** ** llminferenceservice_validation.go *)

Definition validateSurface svc : list WebhookErr :=
  match ValidateLLMInferenceServiceSurface (Some svc) with [] => [] | errs => [SurfaceErrors errs] end.

Definition validateEngine svc : list WebhookErr :=
  err_if (negb (ValidateInferenceEngine (LLMInferenceServiceSpec_Engine (spec svc)))) (UnsupportedEngine (LLMInferenceServiceSpec_Engine (spec svc))).

Definition validateModelSecurity (uri : string) : list WebhookErr :=
  let uriLower := ToLower uri in
  err_if (Contains uri "@" && (HasPrefix uriLower "http://" || HasPrefix uriLower "https://")) EmbeddedCredentials
  ++ err_if (HasSuffix uriLower ".pkl" || HasSuffix uriLower ".bin" || HasSuffix uriLower ".pt") UnsafeFormat.

Definition validateModelScheme (uri : string) : list WebhookErr :=
  err_if (negb (existsb (fun scheme => HasPrefix uri scheme) validSchemes)) UnknownScheme.

Definition validateModelRevision svc : list WebhookErr :=
  if ModelSpec_Revision (LLMInferenceServiceSpec_Model (spec svc)) ==? "" then []
  else err_if (negb (isHuggingFaceURI (ToLower (uri_of svc)))) RevisionNeedsHF ++ err_if (uriHasRevision (uri_of svc)) RevisionTwice.

Definition validateModel (fedramp : bool) svc : list WebhookErr :=
  let uri := uri_of svc in
  if uri ==? "" then [ModelURIRequired]
  else err_if (fedramp && HasPrefix uri "hf://") HFForbiddenInFedRAMP
    ++ validateModelSecurity uri ++ validateModelScheme uri ++ validateModelRevision svc.

Definition validateModelName svc : list WebhookErr :=
  err_if (ModelSpec_Name (LLMInferenceServiceSpec_Model (spec svc)) ==? "") ModelNameRequired.

Definition validateContainers svc : list WebhookErr := err_if (Z.of_nat (length (pods svc)) ==? 0) ContainersRequired.

Definition gpu := "nvidia.com/gpu".

Definition tensor_of (p : ParallelismSpec) : Z := default 1 (ParallelismSpec_Tensor p).

Definition validateParallelismWarning svc : list Warning :=
  match LLMInferenceServiceSpec_Parallelism (spec svc), pods svc with
  | Some p, c :: _ => err_if ((tensor_of p >? 1) && IsZero (resource_of (Limits c) gpu)) (TensorWithoutGPU (tensor_of p))
  | _, _ => []
  end.

Definition validateScaling svc : list WebhookErr :=
  match LLMInferenceServiceSpec_Scaling (spec svc) with
  | Some s =>
      match ScalingSpec_MinReplicas s, ScalingSpec_MaxReplicas s with
      | Some lo, Some hi => err_if (lo >? hi) MinAboveMax
      | _, _ => []
      end
  | None => []
  end.

(** Both set and different. *)
Definition mismatch (req lim : Quantity) : bool := negb (IsZero req) && negb (IsZero lim) && (Cmp req lim !=? 0).

Definition validateMatchingResources (c : Container) (gpuReq gpuLimit : Quantity) : option WebhookErr :=
  if mismatch (resource_of (Requests c) "cpu") (resource_of (Limits c) "cpu") then Some CPUMismatch
  else if mismatch (resource_of (Requests c) "memory") (resource_of (Limits c) "memory") then Some MemoryMismatch
  else if mismatch gpuReq gpuLimit then Some GPUMismatch
  else None.

Definition validateResources svc : option WebhookErr :=
  match pods svc with
  | [] => None
  | c :: _ =>
      let gpuReq := resource_of (Requests c) gpu in
      let gpuLimit := resource_of (Limits c) gpu in
      if IsZero gpuReq && IsZero gpuLimit then None else validateMatchingResources c gpuReq gpuLimit
  end.

Fixpoint check_devices (seen : gset string) (devices : list string) : option WebhookErr :=
  match devices with
  | [] => None
  | d :: devices =>
      let d := TrimSpace d in
      if d ==? "" then Some EmptyDevice
      else if bool_decide (d ∈ seen) then Some (DuplicateDevice d)
      else check_devices (seen ∪ {[d]}) devices
  end.

Definition validateGPUDevices (devices : list string) : option WebhookErr := check_devices ∅ devices.

Definition validateParallelismGPU svc (tp : Z) : option WebhookErr :=
  match pods svc with
  | [] => None
  | c :: _ =>
      let gpus := i32_wrap (Value (resource_of (Limits c) gpu)) in
      if (tp >? gpus) && (gpus >? 0) then Some (TensorExceedsGPUs tp gpus) else None
  end.

Definition validateParallelism svc : option WebhookErr :=
  match LLMInferenceServiceSpec_Parallelism (spec svc) with
  | None => None
  | Some p =>
      let tp := tensor_of p in
      let devices := range_slice (ParallelismSpec_GPUDevices p) in
      let n := Z.of_nat (length devices) in
      if (tp >? 0) && (Z.land tp (tp - 1) !=? 0) then Some (TensorNotPowerOfTwo tp)
      else
        match
          (if n >? 0 then
             if Z.of_nat (length (pods svc)) ==? 0 then Some DevicesNeedContainer
             else if tp !=? i32_wrap n then Some (DevicesVsTensor n tp)
             else validateGPUDevices devices
           else None)
        with
        | Some err => Some err
        | None => validateParallelismGPU svc tp
        end
  end.

Definition to_list {A} (o : option A) : list A := match o with Some x => [x] | None => [] end.

Definition validateAdvanced svc : list WebhookErr := to_list (validateResources svc) ++ to_list (validateParallelism svc).

Definition transfer_of svc : option KVTransferSpec := c ← LLMInferenceServiceSpec_KVCache (spec svc); KVCacheSpec_Transfer c.

Definition validatePrefill svc : list WebhookErr :=
  match LLMInferenceServiceSpec_Prefill (spec svc) with
  | None => []
  | Some p =>
      err_if (Z.of_nat (length (Containers (PrefillSpec_Template p))) ==? 0) PrefillContainersRequired
      ++ err_if (match transfer_of svc with None => true | Some t => KVTransferSpec_Connector t ==? "" end) PrefillNeedsConnector
  end.

Definition LMCacheModeInProcess := "inProcess".
Definition LMCacheModeMultiprocess := "multiprocess".

Definition validateLMCacheMode (c : LMCacheSpec) (mode : string) : list WebhookErr :=
  if mode ==? LMCacheModeInProcess then err_if (bool_decide (is_Some (LMCacheSpec_EngineRef c))) EngineRefOnlyMultiprocess
  else if mode ==? LMCacheModeMultiprocess then
    err_if (match LMCacheSpec_EngineRef c with None => true | Some r => LocalObjectReference_Name r ==? "" end) EngineRefRequired
  else [].

Definition lmcache_mode (c : LMCacheSpec) : string := if LMCacheSpec_Mode c ==? "" then LMCacheModeInProcess else LMCacheSpec_Mode c.

Definition validateKVCache svc : list WebhookErr :=
  match transfer_of svc with
  | None => []
  | Some t =>
      match KVTransferSpec_LMCache t with
      | None => []
      | Some c => err_if (KVTransferSpec_Connector t !=? "lmcache") LMCacheNeedsConnector ++ validateLMCacheMode c (lmcache_mode c)
      end
  end.

Definition validateRouterConstraints svc : list WebhookErr :=
  let scheduler := bool_decide (is_Some (RouterSpec_Scheduler (LLMInferenceServiceSpec_Router (spec svc)))) in
  err_if (scheduler && bool_decide (is_Some (LLMInferenceServiceSpec_Canary (spec svc)))) SchedulerWithCanary
  ++ err_if (scheduler && bool_decide (is_Some (LLMInferenceServiceSpec_Worker (spec svc)))) SchedulerWithWorker.

(** The warnings, and the errors: the object is rejected when there is one. *)
Definition validate (fedramp : bool) svc : list Warning * list WebhookErr :=
  (validateParallelismWarning svc,
   validateSurface svc ++ validateEngine svc ++ validateModel fedramp svc ++ validateModelName svc ++ validateContainers svc
   ++ validateScaling svc ++ validateAdvanced svc ++ validatePrefill svc ++ validateKVCache svc ++ validateRouterConstraints svc).

Definition ValidateCreate (fedramp : bool) svc := validate fedramp svc.
Definition ValidateUpdate (fedramp : bool) (old new : LLMInferenceService) := validate fedramp new.
Definition ValidateDelete svc : list Warning * list WebhookErr := ([], []).

(** ** llminferenceservice_defaults.go *)

(** The object with one part of its specification replaced. *)
Definition with_spec svc (f : LLMInferenceServiceSpec -> LLMInferenceServiceSpec) : LLMInferenceService :=
  mkLLMInferenceService (LLMInferenceService_TypeMeta svc) (LLMInferenceService_ObjectMeta svc) (f (spec svc)) (LLMInferenceService_Status svc).

Definition set_parts (model : ModelSpec) (replicas : option Z) (template : PodTemplateSpec) (router : RouterSpec)
    (kv : option KVCacheSpec) (s : LLMInferenceServiceSpec) : LLMInferenceServiceSpec :=
  {| LLMInferenceServiceSpec_Model := model;
     LLMInferenceServiceSpec_Replicas := replicas;
     LLMInferenceServiceSpec_Parallelism := LLMInferenceServiceSpec_Parallelism s;
     LLMInferenceServiceSpec_Scaling := LLMInferenceServiceSpec_Scaling s;
     LLMInferenceServiceSpec_Template := template;
     LLMInferenceServiceSpec_Prefill := LLMInferenceServiceSpec_Prefill s;
     LLMInferenceServiceSpec_Worker := LLMInferenceServiceSpec_Worker s;
     LLMInferenceServiceSpec_Router := router;
     LLMInferenceServiceSpec_BaseRefs := LLMInferenceServiceSpec_BaseRefs s;
     LLMInferenceServiceSpec_AutoOptimize := LLMInferenceServiceSpec_AutoOptimize s;
     LLMInferenceServiceSpec_AllowedTenants := LLMInferenceServiceSpec_AllowedTenants s;
     LLMInferenceServiceSpec_CostAllocationTags := LLMInferenceServiceSpec_CostAllocationTags s;
     LLMInferenceServiceSpec_SLO := LLMInferenceServiceSpec_SLO s;
     LLMInferenceServiceSpec_Canary := LLMInferenceServiceSpec_Canary s;
     LLMInferenceServiceSpec_SpeculativeDecoding := LLMInferenceServiceSpec_SpeculativeDecoding s;
     LLMInferenceServiceSpec_KVCache := kv;
     LLMInferenceServiceSpec_Quantization := LLMInferenceServiceSpec_Quantization s;
     LLMInferenceServiceSpec_Engine := LLMInferenceServiceSpec_Engine s;
     LLMInferenceServiceSpec_ToolSurface := LLMInferenceServiceSpec_ToolSurface s;
     LLMInferenceServiceSpec_Observability := LLMInferenceServiceSpec_Observability s |}.

Definition defaultModelURI (mirror : string) (m : ModelSpec) : ModelSpec :=
  if (mirror !=? "") && HasPrefix (ModelSpec_URI m) "hf://" then
    mkModelSpec ("hf-mirror://" +:+ TrimPrefix (ModelSpec_URI m) "hf://") (ModelSpec_Revision m) (ModelSpec_Name m) (ModelSpec_Storage m)
      (ModelSpec_HardwareAware m)
  else m.

Definition defaultReplicas (r : option Z) : option Z := match r with None => Some 1 | Some _ => r end.

(** A missing security context becomes an empty one, whose two fields are absent too. *)
Definition defaultSecurityContext (c : Container) : Container :=
  let c := match RunAsNonRoot c with None => with_RunAsNonRoot c true | Some _ => c end in
  match AllowPrivilegeEscalation c with None => with_AllowPrivilegeEscalation c false | Some _ => c end.

Definition defaultPorts : list ContainerPort := [mkPort "http" 8000 "TCP"; mkPort "grpc" 8001 "TCP"].

Definition defaultContainerPorts (c : Container) : Container :=
  match Ports c with [] => with_Ports c defaultPorts | _ => c end.

Definition defaultContainer (t : PodTemplateSpec) : PodTemplateSpec :=
  match Containers t with
  | [] => t
  | c :: rest => with_Containers t (defaultContainerPorts (defaultSecurityContext c) :: rest)
  end.

Definition defaultSchedulerReplicas (r : RouterSpec) : RouterSpec :=
  match RouterSpec_Scheduler r with
  | Some sch =>
      mkRouterSpec (RouterSpec_Gateway r) (RouterSpec_Route r)
        (Some (mkSchedulerSpec (SchedulerSpec_Pool sch) (SchedulerSpec_Config sch) (defaultReplicas (SchedulerSpec_Replicas sch))))
  | None => r
  end.

Definition or_default {A} (x : option A) (d : A) : option A := match x with None => Some d | Some _ => x end.

Definition defaultLMCacheResources (c : LMCacheSpec) : LMCacheSpec :=
  mkLMCacheSpec (LMCacheSpec_Mode c) (or_default (LMCacheSpec_ChunkSize c) 256) (or_default (LMCacheSpec_LocalCPU c) true)
    (or_default (LMCacheSpec_LocalCPUSizeGiB c) 20) (LMCacheSpec_EngineRef c).

Definition default_lmcache_spec (c : LMCacheSpec) : LMCacheSpec :=
  let c := mkLMCacheSpec (lmcache_mode c) (LMCacheSpec_ChunkSize c) (LMCacheSpec_LocalCPU c) (LMCacheSpec_LocalCPUSizeGiB c) (LMCacheSpec_EngineRef c) in
  if LMCacheSpec_Mode c ==? LMCacheModeInProcess then defaultLMCacheResources c else c.

Definition default_transfer (t : KVTransferSpec) : KVTransferSpec :=
  mkKVTransferSpec (KVTransferSpec_Connector t) (KVTransferSpec_Role t) (KVTransferSpec_ExtraConfig t) (KVTransferSpec_Env t)
    (default_lmcache_spec <$> KVTransferSpec_LMCache t).

Definition defaultLMCache (kv : option KVCacheSpec) : option KVCacheSpec :=
  (fun c => mkKVCacheSpec (KVCacheSpec_Dtype c) (KVCacheSpec_SwapSpaceGB c) (default_transfer <$> KVCacheSpec_Transfer c)) <$> kv.

Definition Default (mirror : string) svc : LLMInferenceService :=
  with_spec svc (fun s => set_parts (defaultModelURI mirror (LLMInferenceServiceSpec_Model s)) (defaultReplicas (LLMInferenceServiceSpec_Replicas s))
    (defaultContainer (LLMInferenceServiceSpec_Template s)) (defaultSchedulerReplicas (LLMInferenceServiceSpec_Router s))
    (defaultLMCache (LLMInferenceServiceSpec_KVCache s)) s).

(** ** llminferenceservice_v1.go *)

Definition convertStableToAlpha (src : ApiV1.LLMInferenceService) : LLMInferenceService + WebhookErr :=
  let inline :=
    sch ← ApiV1.RouterSpec_Scheduler (ApiV1.LLMInferenceServiceSpec_Router (ApiV1.LLMInferenceService_Spec src));
    c ← ApiV1.SchedulerSpec_Config sch; ApiV1.SchedulerConfigSpec_Inline c in
  match inline with
  | Some _ => inr InlineConfigInStable
  | None => inl (LLMInferenceService_ConvertFrom src zero_LLMInferenceService)
  end.

Definition StableValidate (fedramp : bool) (src : ApiV1.LLMInferenceService) : list Warning * list WebhookErr :=
  match convertStableToAlpha src with
  | inr err => ([], [err])
  | inl alpha => validate fedramp alpha
  end.

Definition StableValidateDelete (src : ApiV1.LLMInferenceService) : list Warning * list WebhookErr :=
  match convertStableToAlpha src with
  | inr err => ([], [err])
  | inl _ => ([], [])
  end.

Definition StableDefault (mirror : string) (src : ApiV1.LLMInferenceService) : ApiV1.LLMInferenceService + WebhookErr :=
  match convertStableToAlpha src with
  | inr err => inr err
  | inl alpha => inl (LLMInferenceService_ConvertTo (Default mirror alpha) src)
  end.

End Webhook.
