(* ===== verification/SurfaceInventory.v ===== *)
(** * The inventory of the API surface

    [internal/validation/surface.go]: how every field of the service reaches
    an executable path, and that the fields recorded as refused are the ones
    [ValidateLLMInferenceServiceSurface] refuses. *)

From S2P Require Import Prelude K8s K8sPods ApiV1alpha2 GoStrings Webhook.

Inductive SurfaceDisposition := SurfaceRendered | SurfaceObserved | SurfaceRefused.

#[export] Instance SurfaceDisposition_eq_dec : EqDecision SurfaceDisposition.
Proof. solve_decision. Defined.

Record SurfaceContract := mkSurface { Version : string; Path : string; Disposition : SurfaceDisposition; Owner : string }.

Definition llmInferenceServiceSurface : list SurfaceContract :=
  [mkSurface "v1alpha2" "model" SurfaceObserved "deployment storage and model identity";
   mkSurface "v1alpha2" "replicas" SurfaceObserved "deployment replica reconciliation";
   mkSurface "v1alpha2" "parallelism" SurfaceRendered "registered runtime adapter and KServe worker path";
   mkSurface "v1alpha2" "scaling" SurfaceObserved "autoscaler reconciliation";
   mkSurface "v1alpha2" "template" SurfaceObserved "deployment pod template";
   mkSurface "v1alpha2" "prefill" SurfaceObserved "prefill deployment";
   mkSurface "v1alpha2" "worker" SurfaceObserved "KServe worker overrides";
   mkSurface "v1alpha2" "router" SurfaceObserved "gateway and scheduler reconciliation";
   mkSurface "v1alpha2" "baseRefs" SurfaceRefused "ValidateLLMInferenceServiceSurface";
   mkSurface "v1alpha2" "autoOptimize" SurfaceRefused "ValidateLLMInferenceServiceSurface";
   mkSurface "v1alpha2" "allowedTenants" SurfaceRefused "ValidateLLMInferenceServiceSurface";
   mkSurface "v1alpha2" "costAllocationTags" SurfaceObserved "deployment labels and telemetry attributes";
   mkSurface "v1alpha2" "slo" SurfaceRefused "ValidateLLMInferenceServiceSurface";
   mkSurface "v1alpha2" "canary" SurfaceObserved "HTTPRoute traffic split";
   mkSurface "v1alpha2" "speculativeDecoding" SurfaceRendered "registered runtime adapter";
   mkSurface "v1alpha2" "kvCache" SurfaceRendered "vllm runtime and KV transfer configuration";
   mkSurface "v1alpha2" "quantization" SurfaceRendered "vllm engine selection";
   mkSurface "v1alpha2" "engine" SurfaceObserved "engine selection and admission";
   mkSurface "v1alpha2" "toolSurface" SurfaceObserved "network policy and tool isolation";
   mkSurface "v1alpha2" "observability" SurfaceObserved "Vector configuration reconciliation";
   mkSurface "v1" "model" SurfaceObserved "v1 to v1alpha2 conversion";
   mkSurface "v1" "replicas" SurfaceObserved "v1 to v1alpha2 conversion";
   mkSurface "v1" "parallelism" SurfaceObserved "v1 to v1alpha2 conversion";
   mkSurface "v1" "scaling" SurfaceObserved "v1 to v1alpha2 conversion";
   mkSurface "v1" "template" SurfaceObserved "v1 to v1alpha2 conversion";
   mkSurface "v1" "router" SurfaceObserved "v1 to v1alpha2 conversion";
   mkSurface "v1" "baseRefs" SurfaceObserved "v1 to v1alpha2 conversion";
   mkSurface "v1" "autoOptimize" SurfaceObserved "v1 to v1alpha2 conversion";
   mkSurface "v1" "allowedTenants" SurfaceObserved "v1 to v1alpha2 conversion";
   mkSurface "v1" "costAllocationTags" SurfaceObserved "v1 to v1alpha2 conversion";
   mkSurface "v1" "slo" SurfaceObserved "v1 to v1alpha2 conversion";
   mkSurface "v1" "canary" SurfaceObserved "v1 to v1alpha2 conversion";
   mkSurface "v1" "experimental" SurfaceObserved "v1 to v1alpha2 conversion"].

Definition add_paths (version : string) (d : SurfaceDisposition) (owner : string) (paths : list string) : list SurfaceContract :=
  (fun path => mkSurface version path d owner) <$> paths.

Definition nestedSurfaceContracts : list SurfaceContract :=
  add_paths "v1alpha2" SurfaceObserved "model and storage conversion"
    ["model.uri"; "model.revision"; "model.name"; "model.storage.secretRef"; "model.storage.serviceAccountName";
     "model.storage.storageContainerRef"; "model.storage.vaultRef"; "model.storage.vaultAddr";
     "model.storage.externalSecret.secretStoreRef.name"; "model.storage.externalSecret.secretStoreRef.kind";
     "model.storage.externalSecret.refreshInterval"; "model.storage.externalSecret.data.secretKey";
     "model.storage.externalSecret.data.remoteRef.key"; "model.storage.externalSecret.data.remoteRef.property";
     "model.hardwareAware"]
  ++ add_paths "v1alpha2" SurfaceRendered "vllm runtime adapter"
    ["parallelism.tensor"; "parallelism.data"; "parallelism.dataLocal"; "parallelism.expert"; "parallelism.gpuDevices";
     "parallelism.pipeline"; "parallelism.eplbEnabled"; "speculativeDecoding.method"; "speculativeDecoding.numTokens";
     "speculativeDecoding.draftModel"; "kvCache.dtype"; "kvCache.swapSpaceGB"; "kvCache.transfer.connector";
     "kvCache.transfer.role"; "kvCache.transfer.extraConfig"; "kvCache.transfer.lmcache.mode";
     "kvCache.transfer.lmcache.chunkSize"; "kvCache.transfer.lmcache.localCPU"; "kvCache.transfer.lmcache.localCPUSizeGiB";
     "quantization.method"]
  ++ add_paths "v1alpha2" SurfaceRefused "ValidateLLMInferenceServiceSurface"
    ["quantization.checkpointPath"]
  ++ add_paths "v1alpha2" SurfaceObserved "owner-level controller reconciliation"
    ["scaling.minReplicas"; "scaling.maxReplicas"; "scaling.wva.variantCost"; "scaling.keda.pollingInterval";
     "scaling.keda.cooldownPeriod"; "scaling.keda.initialCooldownPeriod"; "scaling.keda.idleReplicaCount";
     "scaling.keda.fallback.failureThreshold"; "scaling.keda.fallback.replicas"; "scaling.hpa.targetCPUUtilizationPercentage";
     "prefill.replicas"; "prefill.template"; "worker.template"; "router.gateway.managed.gatewayClassName";
     "router.gateway.existingRef.name"; "router.gateway.existingRef.namespace"; "router.route.httpRoute.hostnames";
     "router.route.httpRoute.resilience.timeout"; "router.route.httpRoute.resilience.maxRetries";
     "router.route.httpRoute.resilience.retryOn"; "router.scheduler.pool.selector"; "router.scheduler.config.inline";
     "router.scheduler.config.ref.name"; "router.scheduler.config.ref.key"; "router.scheduler.replicas"; "canary.weight";
     "canary.baseModel"; "kvCache.transfer.env"; "kvCache.transfer.lmcache.engineRef"; "toolSurface.allowedApis";
     "toolSurface.allowedCidrs"; "observability.sink.type"; "observability.sink.endpoint"]
  ++ add_paths "v1" SurfaceObserved "v1 to v1alpha2 conversion"
    ["model.uri"; "model.revision"; "model.name"; "model.storage.secretRef"; "model.storage.serviceAccountName";
     "model.storage.storageContainerRef"; "model.storage.vaultRef"; "model.storage.vaultAddr";
     "model.storage.externalSecret.secretStoreRef.name"; "model.storage.externalSecret.secretStoreRef.kind";
     "model.storage.externalSecret.refreshInterval"; "model.storage.externalSecret.data.secretKey";
     "model.storage.externalSecret.data.remoteRef.key"; "model.storage.externalSecret.data.remoteRef.property";
     "model.hardwareAware"; "parallelism.tensor"; "parallelism.data"; "parallelism.dataLocal"; "parallelism.expert";
     "parallelism.gpuDevices"; "parallelism.pipeline"; "parallelism.eplbEnabled"; "scaling.minReplicas"; "scaling.maxReplicas";
     "scaling.wva.variantCost"; "scaling.keda.pollingInterval"; "scaling.keda.cooldownPeriod";
     "scaling.keda.initialCooldownPeriod"; "scaling.keda.idleReplicaCount"; "scaling.keda.fallback.failureThreshold";
     "scaling.keda.fallback.replicas"; "scaling.hpa.targetCPUUtilizationPercentage"; "baseRefs.name"; "slo.targetP99LatencyMs";
     "slo.targetAvailability"; "slo.errorBudgetDays"; "canary.weight"; "canary.baseModel"; "experimental.prefill.template";
     "experimental.worker.template"; "experimental.kvCache.transfer.env"; "experimental.kvCache.transfer.lmcache.engineRef"]
  ++ add_paths "v1" SurfaceRefused "convertStableToAlpha"
    ["router.scheduler.config.inline"]
  ++ add_paths "v1" SurfaceObserved "v1 to v1alpha2 conversion"
    ["router.gateway.managed.gatewayClassName"; "router.gateway.existingRef.name"; "router.gateway.existingRef.namespace";
     "router.route.httpRoute.hostnames"; "router.route.httpRoute.resilience.timeout";
     "router.route.httpRoute.resilience.maxRetries"; "router.route.httpRoute.resilience.retryOn";
     "router.scheduler.pool.selector"; "router.scheduler.config.ref.name"; "router.scheduler.config.ref.key";
     "router.scheduler.replicas"]
  ++ add_paths "v1" SurfaceObserved "v1 to v1alpha2 conversion"
    ["experimental.prefill.replicas"; "experimental.kvCache.dtype"; "experimental.kvCache.swapSpaceGB";
     "experimental.kvCache.transfer.connector"; "experimental.kvCache.transfer.role"; "experimental.kvCache.transfer.extraConfig";
     "experimental.kvCache.transfer.lmcache.mode"; "experimental.kvCache.transfer.lmcache.chunkSize";
     "experimental.kvCache.transfer.lmcache.localCPU"; "experimental.kvCache.transfer.lmcache.localCPUSizeGiB";
     "experimental.speculativeDecoding.method"; "experimental.speculativeDecoding.numTokens";
     "experimental.speculativeDecoding.draftModel"; "experimental.quantization.method"; "experimental.engine";
     "experimental.toolSurface.allowedApis"; "experimental.toolSurface.allowedCidrs"; "experimental.observability.sink.type";
     "experimental.observability.sink.endpoint"]
  ++ add_paths "v1" SurfaceRefused "ValidateLLMInferenceServiceSurface"
    ["experimental.quantization.checkpointPath"].

Definition LLMInferenceServiceSurfaceContracts : list SurfaceContract := llmInferenceServiceSurface ++ nestedSurfaceContracts.

(** The paths the inventory records as refused for a version. *)
Definition refused_paths (version : string) : list string :=
  Path <$> filter (fun c => Version c = version /\ Disposition c = SurfaceRefused) LLMInferenceServiceSurfaceContracts.

Definition error_path (e : FieldErr) : list string :=
  match e with Required p => p | NotSupported p _ => p | Forbidden p => p end.

(** The path of an error as the inventory writes it: without [spec]. *)
Definition surface_path (e : FieldErr) : string := Join "." (tail (error_path e)).

(** No field is recorded twice for a version. *)
Lemma surface_recorded_once : NoDup ((fun c => (Version c, Path c)) <$> LLMInferenceServiceSurfaceContracts).
Proof. by_computation. Qed.

(** Every refusal names a field that is recorded as refused. *)
Lemma surface_errors_refused `{P : Pods} svc e :
  e ∈ ValidateLLMInferenceServiceSurface (Some svc) -> e = Forbidden (error_path e) /\ surface_path e ∈ refused_paths "v1alpha2".
Proof.
  unfold ValidateLLMInferenceServiceSurface, err_if. rewrite !elem_of_app.
  assert (forall p, p ∈ ["baseRefs"; "autoOptimize"; "allowedTenants"; "slo"; "quantization.checkpointPath"] -> p ∈ refused_paths "v1alpha2") as Hin
    by (intros p Hp; by replace (refused_paths "v1alpha2") with ["baseRefs"; "autoOptimize"; "allowedTenants"; "slo"; "quantization.checkpointPath"]
          by (vm_compute; reflexivity)).
  intros H. repeat match type of H with _ \/ _ => destruct H as [H|H] end;
    repeat case_match; rewrite ?elem_of_nil, ?list_elem_of_singleton in H; try done; subst e;
    (split; [done|]; apply Hin; by_computation).
Qed.
