(* ===== verification/WebhookAdmission.v ===== *)
(** * What the admission webhooks guarantee

    The objects the validating webhook accepts, the effect of the mutating
    webhook on them, and that the storage version is judged as the served one. *)

From S2P Require Import Prelude GoStrings K8s K8sPods ApiV1 ApiV1alpha2 Conversion ConversionRoundTrip RuntimeContract RuntimeRegistry Webhook.
From Stdlib Require Import Ascii.

(** ** Lists of errors *)

Lemma err_if_nil {A} b (e : A) : err_if b e = [] <-> b = false.
Proof. by destruct b. Qed.

Lemma to_list_nil {A} (o : option A) : to_list o = [] <-> o = None.
Proof. by destruct o. Qed.

Lemma app_nil_iff {A} (l k : list A) : l ++ k = [] <-> l = [] /\ k = [].
Proof. split; [apply app_eq_nil|]. by intros [-> ->]. Qed.

(** ** [tp & (tp - 1) == 0] *)

Lemma land_pred_zero tp : 0 < tp -> (Z.land tp (tp - 1) = 0 <-> exists k, 0 <= k /\ tp = 2 ^ k).
Proof.
  intros Htp. split.
  - intros H. destruct (Z.log2_spec tp Htp) as [Hlo Hhi]. exists (Z.log2 tp). split; [apply Z.log2_nonneg|].
    destruct (decide (tp = 2 ^ Z.log2 tp)) as [|Hne]; [done|].
    assert (Z.log2 (tp - 1) = Z.log2 tp) as Hlog by (apply Z.log2_unique; [apply Z.log2_nonneg|lia]).
    assert (0 < 2 ^ Z.log2 tp) as Hp by (apply Z.pow_pos_nonneg; [lia|apply Z.log2_nonneg]).
    pose proof (f_equal (fun z => Z.testbit z (Z.log2 tp)) H) as Hb. simpl in Hb.
    rewrite Z.land_spec, Z.bit_log2, <- Hlog, Z.bit_log2, Z.testbit_0_l in Hb by lia. discriminate.
  - intros (k & Hk & ->). rewrite Z.sub_1_r, <- Z.ones_equiv, Z.land_ones by lia. apply Z.mod_same. lia.
Qed.

(** ** GPU devices *)

Lemma check_devices_None seen l :
  check_devices seen l = None <->
  Forall (fun d => TrimSpace d <> "" /\ TrimSpace d ∉ seen) l /\ NoDup (TrimSpace <$> l).
Proof.
  revert seen. induction l as [|d l IH]; intros seen; cbn [check_devices].
  { split; [intros _; split; constructor|done]. }
  rewrite fmap_cons, Forall_cons, NoDup_cons.
  case_bool_decide as He; [rewrite He; naive_solver|]. case_bool_decide as Hs; [naive_solver|].
  rewrite IH, !Forall_forall. setoid_rewrite not_elem_of_union. setoid_rewrite not_elem_of_singleton. rewrite list_elem_of_fmap.
  split.
  - intros [H Hn]. split_and!; [done..|naive_solver| |done]. intros (x & E & Hx). by apply (H x Hx).
  - intros [[_ H] [Hd Hn]]. split; [|done]. intros x Hx. split_and!; [by apply H..|]. intros E. apply Hd. eauto.
Qed.

(** ** The accepted objects *)

Section Accepted.

Context {K : K8s} {P : Pods}.
Implicit Types (svc : LLMInferenceService).

Local Abbreviation spec svc := (LLMInferenceService_Spec svc).
Local Abbreviation pods svc := (Containers (LLMInferenceServiceSpec_Template (LLMInferenceService_Spec svc))).
Local Abbreviation model svc := (LLMInferenceServiceSpec_Model (LLMInferenceService_Spec svc)).

(** The fields that no controller honours are absent. *)
Definition surface_ok svc : Prop :=
  range_slice (LLMInferenceServiceSpec_BaseRefs (spec svc)) = []
  /\ LLMInferenceServiceSpec_AutoOptimize (spec svc) = None
  /\ range_slice (LLMInferenceServiceSpec_AllowedTenants (spec svc)) = []
  /\ LLMInferenceServiceSpec_SLO (spec svc) = None
  /\ forall q, LLMInferenceServiceSpec_Quantization (spec svc) = Some q -> QuantizationSpec_CheckpointPath q = "".

(** The model comes from a known scheme, without credentials in the address or
    a format that executes code, and its revision is given once. *)
Definition uri_ok (fedramp : bool) (uri revision : string) : Prop :=
  uri <> "" /\ (fedramp = true -> HasPrefix uri "hf://" = false)
  /\ (Contains uri "@" = true -> HasPrefix (ToLower uri) "http://" = false /\ HasPrefix (ToLower uri) "https://" = false)
  /\ (forall ext, ext ∈ [".pkl"; ".bin"; ".pt"] -> HasSuffix (ToLower uri) ext = false)
  /\ (exists scheme, scheme ∈ ["hf://"; "hf-mount://"; "hf-mirror://"; "s3://"; "swfs://"; "gs://"; "pvc://"; "oci://"; "ocis://";
        "modelpack://"; "seaweedfs://"; "http://"; "https://"] /\ HasPrefix uri scheme = true)
  /\ (revision <> "" ->
      (HasPrefix (ToLower uri) "hf://" || HasPrefix (ToLower uri) "hf-mount://" || HasPrefix (ToLower uri) "hf-mirror://") = true
      /\ match after_first "://" uri with Some rest => Contains rest "@" | None => false end = false).

Definition scaling_ok (s : ScalingSpec) : Prop :=
  forall lo hi, ScalingSpec_MinReplicas s = Some lo -> ScalingSpec_MaxReplicas s = Some hi -> lo <= hi.

(** A container that requests GPUs or is limited in them has equal requests and
    limits of CPU, memory and GPUs where both are given. *)
Definition resources_ok (c : Container) : Prop :=
  (IsZero (resource_of (Requests c) "nvidia.com/gpu") = false \/ IsZero (resource_of (Limits c) "nvidia.com/gpu") = false) ->
  forall r, r ∈ ["cpu"; "memory"; "nvidia.com/gpu"] ->
  IsZero (resource_of (Requests c) r) = false -> IsZero (resource_of (Limits c) r) = false ->
  Cmp (resource_of (Requests c) r) (resource_of (Limits c) r) = 0.

(** The tensor degree is a power of two (or not positive), the named devices
    are as many, distinct and not blank, and the container has enough GPUs. *)
Definition parallelism_ok (p : ParallelismSpec) (c : Container) : Prop :=
  (0 < default 1 (ParallelismSpec_Tensor p) -> exists k, 0 <= k /\ default 1 (ParallelismSpec_Tensor p) = 2 ^ k)
  /\ (range_slice (ParallelismSpec_GPUDevices p) <> [] ->
      default 1 (ParallelismSpec_Tensor p) = i32_wrap (Z.of_nat (length (range_slice (ParallelismSpec_GPUDevices p))))
      /\ Forall (fun d => TrimSpace d <> "") (range_slice (ParallelismSpec_GPUDevices p))
      /\ NoDup (TrimSpace <$> range_slice (ParallelismSpec_GPUDevices p)))
  /\ (0 < i32_wrap (Value (resource_of (Limits c) "nvidia.com/gpu")) -> default 1 (ParallelismSpec_Tensor p) <= i32_wrap (Value (resource_of (Limits c) "nvidia.com/gpu"))).

Definition prefill_ok svc : Prop :=
  forall p, LLMInferenceServiceSpec_Prefill (spec svc) = Some p ->
  Containers (PrefillSpec_Template p) <> [] /\ exists t, transfer_of svc = Some t /\ KVTransferSpec_Connector t <> "".

(** An LMCache engine is named exactly when the cache runs beside the server. *)
Definition lmcache_ok svc : Prop :=
  forall t c, transfer_of svc = Some t -> KVTransferSpec_LMCache t = Some c ->
  KVTransferSpec_Connector t = "lmcache"
  /\ (LMCacheSpec_Mode c = "" \/ LMCacheSpec_Mode c = "inProcess" -> LMCacheSpec_EngineRef c = None)
  /\ (LMCacheSpec_Mode c = "multiprocess" -> exists r, LMCacheSpec_EngineRef c = Some r /\ LocalObjectReference_Name r <> "").

Definition router_ok svc : Prop :=
  is_Some (RouterSpec_Scheduler (LLMInferenceServiceSpec_Router (spec svc))) ->
  LLMInferenceServiceSpec_Canary (spec svc) = None /\ LLMInferenceServiceSpec_Worker (spec svc) = None.

Definition accepted_service (fedramp : bool) svc : Prop :=
  surface_ok svc
  /\ LLMInferenceServiceSpec_Engine (spec svc) ∈ [""; "vllm"; "sglang"; "tensorfold"]
  /\ uri_ok fedramp (ModelSpec_URI (model svc)) (ModelSpec_Revision (model svc))
  /\ ModelSpec_Name (model svc) <> ""
  /\ (forall s, LLMInferenceServiceSpec_Scaling (spec svc) = Some s -> scaling_ok s)
  /\ (exists c rest, pods svc = c :: rest /\ resources_ok c
      /\ forall p, LLMInferenceServiceSpec_Parallelism (spec svc) = Some p -> parallelism_ok p c)
  /\ prefill_ok svc /\ lmcache_ok svc /\ router_ok svc.

Lemma length_zero {A} (l : list A) : (Z.of_nat (length l) >? 0) = false <-> l = [].
Proof. rewrite bool_decide_eq_false. destruct l; simpl; [split; [done|lia]|split; [lia|done]]. Qed.

Lemma present_false {A} (o : option A) : bool_decide (is_Some o) = false <-> o = None.
Proof. rewrite bool_decide_eq_false. symmetry. apply eq_None_not_Some. Qed.

Lemma surface_iff svc : validateSurface svc = [] <-> surface_ok svc.
Proof.
  unfold validateSurface, surface_ok.
  transitivity (ValidateLLMInferenceServiceSurface (Some svc) = []); [by destruct (ValidateLLMInferenceServiceSurface _)|].
  unfold ValidateLLMInferenceServiceSurface. rewrite !app_nil_iff, !err_if_nil, !length_zero, !present_false.
  repeat apply and_iff_compat_l. destruct (LLMInferenceServiceSpec_Quantization _) as [q|]; [|naive_solver].
  rewrite err_if_nil, negb_false_iff, bool_decide_eq_true. naive_solver.
Qed.

Lemma model_iff fedramp svc :
  validateModel fedramp svc = [] <-> uri_ok fedramp (ModelSpec_URI (model svc)) (ModelSpec_Revision (model svc)).
Proof.
  unfold validateModel, uri_ok. case_bool_decide as E; [naive_solver|].
  unfold validateModelSecurity, validateModelScheme, validateModelRevision.
  rewrite !app_nil_iff, !err_if_nil, andb_false_iff, andb_false_iff, !orb_false_iff, negb_false_iff, existsb_exists.
  setoid_rewrite <- base.list_elem_of_In.
  split.
  - intros (Hf & (Hc & (H1 & H2) & H3) & Hs & Hr). split_and!; [done|intros ->; by destruct Hf|intros Hat; destruct Hc as [Hc|Hc]; [congruence|exact Hc]| |by destruct Hs as (? & ? & ?); eauto|].
    + intros ext. rewrite !elem_of_cons, elem_of_nil. naive_solver.
    + intros Hn. case_bool_decide; [done|]. rewrite app_nil_iff, !err_if_nil, negb_false_iff in Hr. done.
  - intros (_ & Hf & Hc & Hx & Hs & Hr). split_and!.
    + destruct fedramp; [right; by apply Hf|by left].
    + destruct (Contains _ _); [right; by apply Hc|by left].
    + apply Hx; set_solver.
    + apply Hx; set_solver.
    + apply Hx; set_solver.
    + destruct Hs as (? & ? & ?); eauto.
    + case_bool_decide; [done|]. rewrite app_nil_iff, !err_if_nil, negb_false_iff. by apply Hr.
Qed.

Lemma scaling_iff svc :
  validateScaling svc = [] <-> forall s, LLMInferenceServiceSpec_Scaling (spec svc) = Some s -> scaling_ok s.
Proof.
  unfold validateScaling, scaling_ok. destruct (LLMInferenceServiceSpec_Scaling _) as [s|]; [|naive_solver].
  destruct (ScalingSpec_MinReplicas s) as [lo|] eqn:El, (ScalingSpec_MaxReplicas s) as [hi|] eqn:Eh;
    rewrite ?err_if_nil, ?bool_decide_eq_false; try (split; [intros _ ? [= <-]; congruence|done]).
  split.
  - intros H s' [= <-] lo' hi' Hl Hh. rewrite El in Hl. rewrite Eh in Hh. simplify_eq. lia.
  - intros H. specialize (H _ eq_refl _ _ El Eh). lia.
Qed.

Lemma mismatch_iff req lim : mismatch req lim = false <-> (IsZero req = false -> IsZero lim = false -> Cmp req lim = 0).
Proof.
  unfold mismatch. destruct (IsZero req), (IsZero lim); try naive_solver. simpl. rewrite negb_false_iff, bool_decide_eq_true. naive_solver.
Qed.

Lemma resources_iff svc c rest : pods svc = c :: rest -> (validateResources svc = None <-> resources_ok c).
Proof.
  intros E. unfold validateResources, resources_ok. rewrite E.
  assert (forall (f : string -> bool), (forall r, r ∈ ["cpu"; "memory"; gpu] -> f r = false)
    <-> f "cpu" = false /\ f "memory" = false /\ f gpu = false) as Hall by (intros f; set_solver).
  setoid_rewrite <- mismatch_iff. fold gpu.
  rewrite (Hall (fun r => mismatch (resource_of (Requests c) r) (resource_of (Limits c) r))). cbv beta.
  destruct (IsZero (resource_of (Requests c) gpu)), (IsZero (resource_of (Limits c) gpu)); cbn [andb];
    [split; [intros _ [?|?]; done|done]|..]; unfold validateMatchingResources; repeat case_match; naive_solver.
Qed.

Lemma devices_iff p :
  (if Z.of_nat (length (range_slice (ParallelismSpec_GPUDevices p))) >? 0 then
     if tensor_of p !=? i32_wrap (Z.of_nat (length (range_slice (ParallelismSpec_GPUDevices p)))) then
       Some (DevicesVsTensor (Z.of_nat (length (range_slice (ParallelismSpec_GPUDevices p)))) (tensor_of p))
     else validateGPUDevices (range_slice (ParallelismSpec_GPUDevices p))
   else None) = None <->
  (range_slice (ParallelismSpec_GPUDevices p) <> [] ->
      tensor_of p = i32_wrap (Z.of_nat (length (range_slice (ParallelismSpec_GPUDevices p))))
      /\ Forall (fun d => TrimSpace d <> "") (range_slice (ParallelismSpec_GPUDevices p))
      /\ NoDup (TrimSpace <$> range_slice (ParallelismSpec_GPUDevices p))).
Proof.
  generalize (range_slice (ParallelismSpec_GPUDevices p)) as l. intros l. case_bool_decide as En; [|destruct l; simpl in *; [done|lia]].
  assert (l <> []) as Hne by (by destruct l).
  unfold validateGPUDevices. case_bool_decide as Et; cbn [negb].
  - rewrite check_devices_None, !Forall_forall. set_solver.
  - split; [done|]. intros H. by destruct (H Hne).
Qed.

Lemma parallelism_iff svc c rest :
  pods svc = c :: rest ->
  (validateParallelism svc = None <-> forall p, LLMInferenceServiceSpec_Parallelism (spec svc) = Some p -> parallelism_ok p c).
Proof.
  intros E. unfold validateParallelism. destruct (LLMInferenceServiceSpec_Parallelism _) as [p|]; [|naive_solver].
  trans (parallelism_ok p c); [|naive_solver].
  unfold parallelism_ok, validateParallelismGPU. fold (tensor_of p) gpu. rewrite E. simpl length. rewrite (bool_decide_eq_false_2 (Z.of_nat (S _) = 0)) by lia.
  rewrite <- devices_iff. cbv zeta.
  destruct ((tensor_of p >? 0) && (Z.land (tensor_of p) (tensor_of p - 1) !=? 0)) eqn:Ep.
  - apply andb_true_iff in Ep as [Hp Hl]. rewrite bool_decide_eq_true in Hp. rewrite negb_true_iff, bool_decide_eq_false, land_pred_zero in Hl by done.
    naive_solver.
  - assert (0 < tensor_of p -> exists k, 0 <= k /\ tensor_of p = 2 ^ k) as Hpow.
    { intros Hp. apply land_pred_zero; [done|]. rewrite bool_decide_eq_true_2 in Ep by done. simpl in Ep.
      by rewrite negb_false_iff, bool_decide_eq_true in Ep. }
    destruct (if _ >? 0 then _ else None) as [err|] eqn:Ed; [naive_solver|].
    destruct ((_ >? _) && (_ >? 0)) eqn:Eg; [|].
    + rewrite andb_true_iff, !bool_decide_eq_true in Eg. split; [done|]. intros (_ & _ & H). lia.
    + rewrite andb_false_iff, !bool_decide_eq_false in Eg. split; [|done]. intros _. split_and!; [done..|]. lia.
Qed.

Lemma prefill_iff svc : validatePrefill svc = [] <-> prefill_ok svc.
Proof.
  unfold validatePrefill, prefill_ok. destruct (LLMInferenceServiceSpec_Prefill _) as [p|]; [|naive_solver].
  rewrite app_nil_iff, !err_if_nil, bool_decide_eq_false.
  assert (~ Z.of_nat (length (Containers (PrefillSpec_Template p))) = 0 <-> Containers (PrefillSpec_Template p) <> []) as ->
    by (destruct (Containers _); simpl; split; (done || lia)).
  destruct (transfer_of svc) as [t|]; [rewrite bool_decide_eq_false|]; split.
  - intros [H1 H2] p' [= <-]. eauto.
  - intros H. destruct (H p eq_refl) as (H1 & t' & [= <-] & H2). done.
  - by intros [_ H].
  - intros H. by destruct (H p eq_refl) as (_ & t' & [=] & _).
Qed.

Lemma lmcache_mode_iff c :
  validateLMCacheMode c (lmcache_mode c) = [] <->
  (lmcache_mode c = LMCacheModeInProcess -> LMCacheSpec_EngineRef c = None)
  /\ (lmcache_mode c = LMCacheModeMultiprocess -> exists r, LMCacheSpec_EngineRef c = Some r /\ LocalObjectReference_Name r <> "").
Proof.
  unfold validateLMCacheMode. case_bool_decide as E1; [rewrite err_if_nil, present_false, E1; naive_solver|].
  case_bool_decide as E2; [|naive_solver]. rewrite err_if_nil.
  destruct (LMCacheSpec_EngineRef c) as [r|]; [rewrite bool_decide_eq_false|]; naive_solver.
Qed.

Lemma lmcache_modes c :
  (lmcache_mode c = LMCacheModeInProcess <-> LMCacheSpec_Mode c = "" \/ LMCacheSpec_Mode c = "inProcess")
  /\ (lmcache_mode c = LMCacheModeMultiprocess <-> LMCacheSpec_Mode c = "multiprocess").
Proof.
  unfold lmcache_mode, LMCacheModeInProcess, LMCacheModeMultiprocess. case_bool_decide as E; [rewrite E|]; naive_solver.
Qed.

Lemma lmcache_iff svc : validateKVCache svc = [] <-> lmcache_ok svc.
Proof.
  unfold validateKVCache, lmcache_ok. destruct (transfer_of svc) as [t|]; [|naive_solver].
  destruct (KVTransferSpec_LMCache t) as [c|] eqn:E; [|naive_solver].
  rewrite app_nil_iff, err_if_nil, negb_false_iff, bool_decide_eq_true, lmcache_mode_iff.
  destruct (lmcache_modes c) as [-> ->]. naive_solver.
Qed.

Lemma router_iff svc : validateRouterConstraints svc = [] <-> router_ok svc.
Proof.
  unfold validateRouterConstraints, router_ok. cbv zeta. rewrite app_nil_iff, !err_if_nil.
  destruct (RouterSpec_Scheduler _); simpl; rewrite ?present_false; [naive_solver|].
  split; [intros _ [? [=]]|done].
Qed.

Lemma accepts_iff fedramp svc : (validate fedramp svc).2 = [] <-> accepted_service fedramp svc.
Proof.
  unfold validate, accepted_service, validateEngine, validateModelName, validateContainers, validateAdvanced. simpl.
  rewrite !app_nil_iff, !err_if_nil, negb_false_iff, engine_admitted, surface_iff, model_iff, scaling_iff, prefill_iff, lmcache_iff, router_iff,
    !to_list_nil, !bool_decide_eq_false.
  destruct (pods svc) as [|c rest] eqn:Ep; [naive_solver|].
  rewrite (resources_iff svc c rest Ep), (parallelism_iff svc c rest Ep). simpl.
  split; [|intros (? & ? & ? & ? & ? & (c' & rest' & [= <- <-] & ? & ?) & ? & ? & ?); split_and!; done || lia].
  intros (? & ? & ? & ? & _ & ? & (? & ?) & ? & ? & ?). split_and!; eauto.
Qed.

(** C38. The validating webhook accepts a service exactly when: the fields no
    controller honours are absent (base references, auto-optimisation, allowed
    tenants, SLO, the checkpoint path of the quantization); the engine is none,
    vLLM, SGLang or TensorFold; the model has a name and an address of one of
    thirteen schemes, without [@] in an HTTP address, not ending in .pkl, .bin
    or .pt, in FedRAMP mode not of the scheme hf, and with a revision only for
    a Hugging Face address that has none; the least number of replicas does not
    exceed the greatest when both are given; there is a container, and if the
    first one requests GPUs or is limited in them, its requests and limits of
    CPU, memory and GPUs agree where both are given; the tensor degree (1 if
    absent) is a power of two or not positive, equals the number of named GPU
    devices if there are any, which are distinct and not blank, and does not
    exceed a positive GPU limit; a prefill section has containers and a
    transfer connector; an LMCache section goes with the connector lmcache and
    has an engine reference in multiprocess mode and none in process; a
    scheduler goes with neither a canary nor a worker section. *)
Theorem webhook_accepts_iff fedramp svc : (validate fedramp svc).2 = [] <-> accepted_service fedramp svc.
Proof. apply accepts_iff. Qed.

(** ** The mutating webhook *)

Lemma lower_plain a s : code a < 128 -> ToLower (String a s) = String (lower_ascii a) (ToLower s).
Proof.
  intros H. cbn [ToLower]. destruct s as [|b s]; [done|]. rewrite (bool_decide_eq_false_2 (code a = 196)) by lia. simpl.
  destruct s as [|c s]; [done|]. by rewrite (bool_decide_eq_false_2 (code a = 226)) by lia.
Qed.

Lemma lower_hf r : ToLower ("hf://" +:+ r) = "hf://" +:+ ToLower r.
Proof. do 5 (etrans; [by apply lower_plain|]; apply (f_equal (String _))). done. Qed.

Lemma lower_mirror r : ToLower ("hf-mirror://" +:+ r) = "hf-mirror://" +:+ ToLower r.
Proof. do 12 (etrans; [by apply lower_plain|]; apply (f_equal (String _))). done. Qed.

(** A suffix without a slash lies after the last slash. *)
Lemma suffix_iff s suf : HasSuffix s suf = true <-> exists t, s = t +:+ suf.
Proof.
  unfold HasSuffix. cbv zeta. rewrite andb_true_iff, Nat.leb_le, bool_decide_eq_true. split.
  - intros [Hl Hd]. exists (str_take (String.length s - String.length suf) s). rewrite <- Hd at 2.
    generalize (String.length s - String.length suf)%nat. clear. intros n. revert s.
    induction n as [|n IH]; intros [|c s]; try done. simpl. exact (f_equal (String c) (IH s)).
  - intros [t ->]. rewrite str_length_app. split; [lia|].
    replace (String.length t + String.length suf - String.length suf)%nat with (String.length t) by lia. apply str_drop_app.
Qed.

Lemma suffix_after_slash p r suf :
  str_forall (fun c => negb (bool_decide (c = "/"%char))) suf = true -> HasSuffix (p +:+ String "/" r) suf = HasSuffix r suf.
Proof.
  intros Hs. apply eq_true_iff_eq. rewrite !suffix_iff. split.
  - intros [t H]. revert t H. induction p as [|c p IH]; intros [|d t] H.
    + change (String "/" r = suf) in H. subst suf. discriminate Hs.
    + injection H as <- ->. by exists t.
    + exfalso. change (String c (p +:+ String "/" r) = suf) in H. subst suf.
      cbn [str_forall] in Hs. rewrite str_forall_app in Hs. apply andb_true_iff in Hs as [_ [_ Hs]%andb_true_iff]. discriminate Hs.
    + injection H as <- H. by apply (IH t).
  - intros [t ->]. exists (p +:+ String "/" t). by rewrite <- string_app_assoc.
Qed.

Lemma mirror_uri r revision fedramp : uri_ok fedramp ("hf://" +:+ r) revision -> uri_ok fedramp ("hf-mirror://" +:+ r) revision.
Proof.
  intros (_ & _ & _ & Hx & _ & Hr). unfold uri_ok. rewrite lower_mirror. rewrite lower_hf in Hx, Hr.
  split; [done|]. split; [done|]. split; [by intros _; split|]. split_and!.
  - intros ext He. etrans; [|exact (Hx ext He)].
    change ("hf-mirror://" +:+ ToLower r) with ("hf-mirror:/" +:+ String "/" (ToLower r)).
    change ("hf://" +:+ ToLower r) with ("hf:/" +:+ String "/" (ToLower r)).
    rewrite !elem_of_cons, elem_of_nil in He. destruct He as [->|[->|[->|[]]]]; rewrite !suffix_after_slash by reflexivity; reflexivity.
  - exists "hf-mirror://". split; [set_solver|]. apply HasPrefix_app.
  - intros Hn. split; [unfold isHuggingFaceURI; by rewrite (HasPrefix_app "hf-mirror://"), orb_true_r|]. exact (proj2 (Hr Hn)).
Qed.

Lemma default_uri mirror fedramp m :
  uri_ok fedramp (ModelSpec_URI m) (ModelSpec_Revision m) ->
  uri_ok fedramp (ModelSpec_URI (defaultModelURI mirror m)) (ModelSpec_Revision (defaultModelURI mirror m)).
Proof.
  unfold defaultModelURI. destruct ((mirror !=? "") && _) eqn:E; [|done]. apply andb_true_iff in E as [_ E].
  destruct m as [uri rev name sto hw]. simpl in *. apply prefix_app in E as [r ->].
  unfold TrimPrefix. rewrite HasPrefix_app, str_drop_app. apply mirror_uri.
Qed.

Context {L : PodsLaws (P := P)}.

(** What the defaults do to a container. *)
Lemma security_keeps c :
  Requests (defaultSecurityContext c) = Requests c /\ Limits (defaultSecurityContext c) = Limits c
  /\ Ports (defaultSecurityContext c) = Ports c
  /\ is_Some (RunAsNonRoot (defaultSecurityContext c)) /\ is_Some (AllowPrivilegeEscalation (defaultSecurityContext c)).
Proof.
  unfold defaultSecurityContext. destruct (RunAsNonRoot c) as [b|] eqn:E1; cbv zeta.
  - destruct (AllowPrivilegeEscalation c) as [b'|] eqn:E2; [by rewrite E1, E2|].
    destruct (resources_escalation c false) as [-> ->]. by rewrite ports_escalation, nonroot_escalation, E1, escalation_set.
  - rewrite escalation_nonroot. destruct (resources_nonroot c true) as [R1 R2].
    destruct (AllowPrivilegeEscalation c) as [b'|] eqn:E2; [by rewrite R1, R2, ports_nonroot, nonroot_set, escalation_nonroot, E2|].
    destruct (resources_escalation (with_RunAsNonRoot c true) false) as [-> ->].
    by rewrite R1, R2, ports_escalation, ports_nonroot, nonroot_escalation, nonroot_set, escalation_set.
Qed.

Definition default_first (c : Container) : Container := defaultContainerPorts (defaultSecurityContext c).

Lemma default_first_keeps c :
  Requests (default_first c) = Requests c /\ Limits (default_first c) = Limits c
  /\ is_Some (RunAsNonRoot (default_first c)) /\ is_Some (AllowPrivilegeEscalation (default_first c)) /\ Ports (default_first c) <> [].
Proof.
  unfold default_first, defaultContainerPorts. destruct (security_keeps c) as (H1 & H2 & H3 & H4 & H5). rewrite H3.
  destruct (Ports c) eqn:E; [|by rewrite H3].
  destruct (resources_ports (defaultSecurityContext c) defaultPorts) as [-> ->]. by rewrite nonroot_ports, escalation_ports, ports_set.
Qed.

Lemma default_first_twice c : default_first (default_first c) = default_first c.
Proof.
  destruct (default_first_keeps c) as (_ & _ & [b Hb] & [b' Hb'] & Hp). unfold default_first at 1, defaultSecurityContext.
  rewrite Hb, Hb'. unfold defaultContainerPorts. by destruct (Ports (default_first c)).
Qed.

Lemma default_containers t :
  Containers (defaultContainer t) = match Containers t with [] => [] | c :: rest => default_first c :: rest end.
Proof. unfold defaultContainer. destruct (Containers t) eqn:E; [done|]. apply containers_set. Qed.

Lemma default_container_twice t : defaultContainer (defaultContainer t) = defaultContainer t.
Proof.
  unfold defaultContainer at 1. rewrite default_containers. destruct (Containers t) as [|c rest] eqn:E; [unfold defaultContainer; by rewrite E|].
  fold (default_first (default_first c)). rewrite default_first_twice. unfold defaultContainer. rewrite E. by rewrite containers_twice.
Qed.

Lemma default_lmcache_twice c : default_lmcache_spec (default_lmcache_spec c) = default_lmcache_spec c.
Proof.
  destruct c as [mode ch cpu gib ref]. unfold default_lmcache_spec, lmcache_mode, defaultLMCacheResources. simpl.
  destruct (decide (mode = "")) as [->|Hm]; [by destruct ch, cpu, gib|]. rewrite !(bool_decide_eq_false_2 (mode = "")) by done.
  destruct (mode ==? LMCacheModeInProcess) eqn:E; simpl; rewrite (bool_decide_eq_false_2 (mode = "")) by done; rewrite E; [|done].
  by destruct ch, cpu, gib.
Qed.

Lemma default_kv_twice kv : defaultLMCache (defaultLMCache kv) = defaultLMCache kv.
Proof.
  destruct kv as [[d s [[co ro ex env [c|]]|]]|]; try done. unfold defaultLMCache, default_transfer. simpl. by rewrite default_lmcache_twice.
Qed.

Lemma default_uri_twice mirror m : defaultModelURI mirror (defaultModelURI mirror m) = defaultModelURI mirror m.
Proof.
  unfold defaultModelURI at 2 3. destruct ((mirror !=? "") && _) eqn:E; unfold defaultModelURI; [|by rewrite E]. simpl. by rewrite andb_false_r.
Qed.

Lemma default_scheduler_twice r : defaultSchedulerReplicas (defaultSchedulerReplicas r) = defaultSchedulerReplicas r.
Proof. destruct r as [g ro [[pool cfg [n|]]|]]; done. Qed.

Lemma default_twice mirror svc : Default mirror (Default mirror svc) = Default mirror svc.
Proof.
  destruct svc as [tm om s st]. unfold Default, with_spec. simpl. f_equal. unfold set_parts. simpl.
  rewrite default_uri_twice, default_container_twice, default_scheduler_twice, default_kv_twice. f_equal.
  by destruct (LLMInferenceServiceSpec_Replicas s).
Qed.

Lemma default_transfer_of mirror svc : transfer_of (Default mirror svc) = default_transfer <$> transfer_of svc.
Proof. unfold transfer_of. simpl. by destruct (LLMInferenceServiceSpec_KVCache (spec svc)) as [[? ? [t|]]|]. Qed.

Lemma default_mode c : lmcache_mode (default_lmcache_spec c) = lmcache_mode c /\ LMCacheSpec_EngineRef (default_lmcache_spec c) = LMCacheSpec_EngineRef c.
Proof.
  destruct c as [mode ch cpu gib ref]. unfold default_lmcache_spec, lmcache_mode. simpl.
  destruct (decide (mode = "")) as [->|Hm]; [done|]. rewrite !(bool_decide_eq_false_2 (mode = "")) by done.
  destruct (mode ==? LMCacheModeInProcess); simpl; by rewrite (bool_decide_eq_false_2 (mode = "")).
Qed.

Lemma default_kv_admitted mirror svc : prefill_ok svc -> lmcache_ok svc -> prefill_ok (Default mirror svc) /\ lmcache_ok (Default mirror svc).
Proof.
  intros Hp Hl. unfold prefill_ok, lmcache_ok. setoid_rewrite default_transfer_of. split.
  - intros p E. destruct (Hp p E) as (H1 & t & -> & H2). split; [done|]. by exists (default_transfer t).
  - intros t c Ht Hc. destruct (transfer_of svc) as [t0|] eqn:E; [|done]. injection Ht as <-.
    cbn [KVTransferSpec_LMCache default_transfer] in Hc. destruct (KVTransferSpec_LMCache t0) as [c0|] eqn:Ec; [|done].
    injection Hc as <-. pose proof (Hl t0 c0 E Ec) as H. destruct (default_mode c0) as [Dm De].
    destruct (lmcache_modes c0) as [M1 M2], (lmcache_modes (default_lmcache_spec c0)) as [N1 N2].
    rewrite <- N1, <- N2, Dm, De, M1, M2. exact H.
Qed.

Lemma default_router_ok mirror svc : router_ok svc -> router_ok (Default mirror svc).
Proof.
  unfold router_ok. simpl. intros H Hs. apply H. unfold defaultSchedulerReplicas in Hs.
  destruct (RouterSpec_Scheduler (LLMInferenceServiceSpec_Router (spec svc))) eqn:E; [done|]. by rewrite E in Hs.
Qed.

Lemma default_admitted mirror fedramp svc : accepted_service fedramp svc -> accepted_service fedramp (Default mirror svc).
Proof.
  intros (H1 & H2 & H3 & H4 & H5 & (c & rest & Hc & Hr & Hp) & H7 & H8 & H9).
  destruct (default_kv_admitted mirror svc H7 H8) as [K7 K8]. destruct (default_first_keeps c) as (R1 & R2 & _).
  split; [exact H1|]. split; [exact H2|]. split; [by apply default_uri|]. split; [|split; [exact H5|]].
  - simpl. unfold defaultModelURI. by destruct (_ && _).
  - split; [|by auto using default_router_ok]. exists (default_first c), rest. split; [simpl; by rewrite default_containers, Hc|].
    unfold resources_ok, parallelism_ok in *. rewrite R1, R2. split; [exact Hr|exact Hp].
Qed.

(** What defaulting does to the first container. *)
Lemma default_first_fields c :
  RunAsNonRoot (default_first c) = Some (default true (RunAsNonRoot c))
  /\ AllowPrivilegeEscalation (default_first c) = Some (default false (AllowPrivilegeEscalation c))
  /\ Ports (default_first c) = match Ports c with [] => [mkPort "http" 8000 "TCP"; mkPort "grpc" 8001 "TCP"] | l => l end.
Proof.
  unfold default_first, defaultContainerPorts, defaultSecurityContext.
  destruct (RunAsNonRoot c) eqn:En, (AllowPrivilegeEscalation c) eqn:Ea;
    rewrite ?escalation_nonroot, ?Ea, ?ports_escalation, ?ports_nonroot; destruct (Ports c) eqn:Ep;
    rewrite ?nonroot_ports, ?escalation_ports, ?ports_set, ?nonroot_escalation, ?escalation_set, ?escalation_nonroot, ?nonroot_set,
      ?ports_escalation, ?ports_nonroot, ?En, ?Ea, ?Ep; done.
Qed.

(** C39. The mutating webhook is idempotent and never turns an accepted service
    into a rejected one.  A missing number of replicas becomes one; in the
    first container, and only there, a missing [runAsNonRoot] becomes true, a
    missing [allowPrivilegeEscalation] false and missing ports the HTTP and
    gRPC ones, with requests and limits unchanged; with a mirror configured a
    model address of the scheme hf becomes the same one of the scheme
    hf-mirror, and any other address stays, those of the schemes hf-mount and
    https included. *)
Theorem default_preserves_admission mirror svc :
  Default mirror (Default mirror svc) = Default mirror svc
  /\ (forall fedramp, (validate fedramp svc).2 = [] -> (validate fedramp (Default mirror svc)).2 = [])
  /\ LLMInferenceServiceSpec_Replicas (spec (Default mirror svc)) = Some (default 1 (LLMInferenceServiceSpec_Replicas (spec svc)))
  /\ (pods svc = [] -> pods (Default mirror svc) = [])
  /\ (forall c rest, pods svc = c :: rest -> exists c', pods (Default mirror svc) = c' :: rest
        /\ RunAsNonRoot c' = Some (default true (RunAsNonRoot c))
        /\ AllowPrivilegeEscalation c' = Some (default false (AllowPrivilegeEscalation c))
        /\ Ports c' = match Ports c with [] => [mkPort "http" 8000 "TCP"; mkPort "grpc" 8001 "TCP"] | l => l end
        /\ Requests c' = Requests c /\ Limits c' = Limits c)
  /\ (forall r, mirror <> "" -> ModelSpec_URI (model svc) = "hf://" +:+ r ->
        ModelSpec_URI (model (Default mirror svc)) = "hf-mirror://" +:+ r)
  /\ (mirror = "" \/ HasPrefix (ModelSpec_URI (model svc)) "hf://" = false -> model (Default mirror svc) = model svc).
Proof.
  split; [apply default_twice|]. split; [intros fedramp; rewrite !accepts_iff; apply default_admitted|].
  split; [simpl; by destruct (LLMInferenceServiceSpec_Replicas _)|].
  split; [intros E; simpl; by rewrite default_containers, E|]. split; [|split].
  - intros c rest E. exists (default_first c). simpl. rewrite default_containers, E. split; [done|].
    destruct (default_first_fields c) as (H1 & H2 & H3). destruct (default_first_keeps c) as (H4 & H5 & _). done.
  - intros r Hm Hu. simpl. unfold defaultModelURI. rewrite (bool_decide_eq_false_2 (mirror = "")) by done. rewrite Hu, HasPrefix_app. simpl.
    unfold TrimPrefix. by rewrite HasPrefix_app.
  - intros H. simpl. unfold defaultModelURI. destruct H as [->| ->]; [done|]. by rewrite andb_false_r.
Qed.

(** ** The storage version *)

Context {KL : K8sLaws K}.

Lemma parallelism_through_hub p :
  convertParallelismFromV1 (convertParallelismToV1 p) =
  (fun p => mkParallelismSpec (ParallelismSpec_Tensor p) (ParallelismSpec_Data p) (ParallelismSpec_DataLocal p)
     (copy_slice (copy_slice (ParallelismSpec_GPUDevices p))) (ParallelismSpec_Expert p) (ParallelismSpec_Pipeline p)
     (ParallelismSpec_EPLBEnabled p)) <$> p.
Proof. by destruct p as [[]|]. Qed.

Lemma range_copy {A} (s : slice A) : range_slice (copy_slice s) = range_slice s.
Proof. by destruct s as [[]|]. Qed.

Lemma scheduler_through_hub r :
  is_Some (RouterSpec_Scheduler (convertRouterFromV1 (convertRouterToV1 r))) <-> is_Some (RouterSpec_Scheduler r).
Proof. destruct r as [g ro [s|]]; simpl; split; intros [? E]; try discriminate E; by eexists. Qed.

Lemma hub_no_inline svc dst :
  convertStableToAlpha (LLMInferenceService_ConvertTo svc dst) =
  inl (LLMInferenceService_ConvertFrom (LLMInferenceService_ConvertTo svc dst) zero_LLMInferenceService).
Proof.
  unfold convertStableToAlpha. simpl.
  destruct (RouterSpec_Scheduler _) as [[pool [[inl_ [ref|]]|] n]|]; simpl; try done.
Qed.

(** The two objects [validate] sees differ in the copies of the devices and
    in the configuration of the scheduler only. *)
Lemma validate_hub fedramp tm om tm' om' st st' s s' :
  (is_Some (RouterSpec_Scheduler (LLMInferenceServiceSpec_Router s')) <-> is_Some (RouterSpec_Scheduler (LLMInferenceServiceSpec_Router s))) ->
  tensor_of <$> LLMInferenceServiceSpec_Parallelism s' = tensor_of <$> LLMInferenceServiceSpec_Parallelism s ->
  (fun p => range_slice (ParallelismSpec_GPUDevices p)) <$> LLMInferenceServiceSpec_Parallelism s'
    = (fun p => range_slice (ParallelismSpec_GPUDevices p)) <$> LLMInferenceServiceSpec_Parallelism s ->
  set_parts (LLMInferenceServiceSpec_Model s) (LLMInferenceServiceSpec_Replicas s) (LLMInferenceServiceSpec_Template s)
    (LLMInferenceServiceSpec_Router s') (LLMInferenceServiceSpec_KVCache s) s' = s' ->
  LLMInferenceServiceSpec_Scaling s' = LLMInferenceServiceSpec_Scaling s ->
  LLMInferenceServiceSpec_Prefill s' = LLMInferenceServiceSpec_Prefill s ->
  LLMInferenceServiceSpec_Worker s' = LLMInferenceServiceSpec_Worker s ->
  LLMInferenceServiceSpec_BaseRefs s' = LLMInferenceServiceSpec_BaseRefs s ->
  LLMInferenceServiceSpec_AutoOptimize s' = LLMInferenceServiceSpec_AutoOptimize s ->
  LLMInferenceServiceSpec_AllowedTenants s' = LLMInferenceServiceSpec_AllowedTenants s ->
  LLMInferenceServiceSpec_SLO s' = LLMInferenceServiceSpec_SLO s ->
  LLMInferenceServiceSpec_Canary s' = LLMInferenceServiceSpec_Canary s ->
  LLMInferenceServiceSpec_Quantization s' = LLMInferenceServiceSpec_Quantization s ->
  LLMInferenceServiceSpec_Engine s' = LLMInferenceServiceSpec_Engine s ->
  validate fedramp (mkLLMInferenceService tm om s' st) = validate fedramp (mkLLMInferenceService tm' om' s st').
Proof.
  intros Hr Ht Hd Es. destruct s', s. simpl in *. injection Es. intros; subst. unfold validate. simpl.
  unfold validateParallelismWarning, validateAdvanced, validateParallelism, validateRouterConstraints. simpl.
  rewrite (bool_decide_ext _ _ Hr).
  match goal with _ : tensor_of <$> ?a = tensor_of <$> ?b |- _ => destruct a, b end; try discriminate; [|done].
  injection Ht as ->. injection Hd as ->. done.
Qed.

(** C40. The webhooks of the storage version judge a service exactly as those of
    the version it was written in: converted for storage it gets the same
    warnings and the same errors, and its conversion is never refused. *)
Theorem stable_validation_agrees fedramp svc :
  StableValidate fedramp (LLMInferenceService_ConvertTo svc ApiV1.zero_LLMInferenceService) = validate fedramp svc
  /\ StableValidateDelete (LLMInferenceService_ConvertTo svc ApiV1.zero_LLMInferenceService) = ValidateDelete svc.
Proof.
  unfold StableValidate, StableValidateDelete. rewrite hub_no_inline. split; [|done].
  destruct svc as [tm om s st]. unfold LLMInferenceService_ConvertFrom, LLMInferenceService_ConvertTo.
  cbn [LLMInferenceService_Spec ApiV1.LLMInferenceService_Spec ApiV1.zero_LLMInferenceService zero_LLMInferenceService].
  rewrite spec_through_hub. apply validate_hub; try reflexivity; cbn [LLMInferenceServiceSpec_Router LLMInferenceServiceSpec_Parallelism].
  - apply scheduler_through_hub.
  - rewrite parallelism_through_hub. by destruct (LLMInferenceServiceSpec_Parallelism s).
  - rewrite parallelism_through_hub. destruct (LLMInferenceServiceSpec_Parallelism s); simpl; by rewrite ?range_copy.
Qed.

End Accepted.

(** ** Witnesses *)

Definition w_container : demo_container :=
  mkDemo [] (<["nvidia.com/gpu" := 2]> ∅) (<["nvidia.com/gpu" := 2]> ∅) None None [].

Definition w_spec (uri : string) : LLMInferenceServiceSpec (K := demo_k8s) :=
  {| LLMInferenceServiceSpec_Model := mkModelSpec uri "main" "m" None true;
     LLMInferenceServiceSpec_Replicas := None;
     LLMInferenceServiceSpec_Parallelism := Some (mkParallelismSpec (Some 2) None None (Some ["0"; "1"]) false None false);
     LLMInferenceServiceSpec_Scaling := None;
     LLMInferenceServiceSpec_Template := ([w_container] : list demo_container) : @PodTemplateSpec demo_k8s;
     LLMInferenceServiceSpec_Prefill := None;
     LLMInferenceServiceSpec_Worker := None;
     LLMInferenceServiceSpec_Router := mkRouterSpec (mkGatewaySpec None None) (mkRouteSpec None) None;
     LLMInferenceServiceSpec_BaseRefs := None;
     LLMInferenceServiceSpec_AutoOptimize := None;
     LLMInferenceServiceSpec_AllowedTenants := None;
     LLMInferenceServiceSpec_CostAllocationTags := None;
     LLMInferenceServiceSpec_SLO := None;
     LLMInferenceServiceSpec_Canary := None;
     LLMInferenceServiceSpec_SpeculativeDecoding := None;
     LLMInferenceServiceSpec_KVCache := None;
     LLMInferenceServiceSpec_Quantization := None;
     LLMInferenceServiceSpec_Engine := "vllm";
     LLMInferenceServiceSpec_ToolSurface := None;
     LLMInferenceServiceSpec_Observability := None |}.

Definition w_svc (uri : string) : LLMInferenceService (K := demo_k8s) :=
  mkLLMInferenceService (K := demo_k8s) tt tt (w_spec uri) zero_LLMInferenceServiceStatus.

Example w_verdicts :
  validate (P := demo_pods) true (w_svc "hf://m") = ([], [HFForbiddenInFedRAMP])
  /\ validate (P := demo_pods) true (w_svc "https://u@h/m.PKL") = ([], [EmbeddedCredentials; UnsafeFormat; RevisionNeedsHF; RevisionTwice]).
Proof. split; vm_compute; reflexivity. Qed.

(** The default makes the service acceptable in FedRAMP mode. *)
Lemma default_preserves_admission_witness :
  (validate (P := demo_pods) false (Default (P := demo_pods) "mirror" (w_svc "hf://m"))).2 = []
  /\ (validate (P := demo_pods) true (Default (P := demo_pods) "mirror" (w_svc "hf://m"))).2 = [].
Proof.
  split; [|vm_compute; reflexivity].
  destruct (default_preserves_admission (L := demo_laws) "mirror" (w_svc "hf://m")) as (_ & H & _). apply H. vm_compute. reflexivity.
Defined.

#[local] Instance demo_k8s_laws : K8sLaws demo_k8s.
Proof. by split. Qed.

Lemma stable_validation_agrees_witness :
  StableValidate (P := demo_pods) true (LLMInferenceService_ConvertTo (w_svc "hf://m") ApiV1.zero_LLMInferenceService)
  = ([], [HFForbiddenInFedRAMP]).
Proof. rewrite (proj1 (stable_validation_agrees (P := demo_pods) (KL := demo_k8s_laws) true (w_svc "hf://m"))). vm_compute. reflexivity. Defined.
