(* ===== verification/AIPackWebhook.v ===== *)
(** * The admission webhook of AIPack

    [internal/webhook/aipack_webhook.go] over the validators of [AIPack].  The
    specification keeps the fields the webhook reads; an error is the
    validator's error or a constructor per message. *)

From S2P Require Import Prelude GoStrings K8sPods AIPack WebhookAdmission.

Record AIPackSpec := mkAIPackSpec {
  Kind : ArtifactKind;
  Family : option ArtifactFamily;
  Source_Ref : string;
  Composition : option AIPackComposition;
  LoRA : option LoRASpec;
  FineTune : option FineTuneSpec;
  RetrievalIndex : option RetrievalIndexSpec;
  Eval : option EvalSpec
}.

Inductive AIPackWebhookErr :=
| Invalid (e : error)
| FamilyMismatch (declared expected : ArtifactFamily)
| SourceRequired
| CompositionNotAgent
| CompositionMissing
| LoRABaseRequired
| FineTuneBaseRequired
| EmbeddingRequired
| HarnessRequired.

Definition validateKind (pack : AIPackSpec) : list AIPackWebhookErr :=
  match ValidateKind (Kind pack) with
  | Some err => [Invalid err]
  | None =>
      match Family pack, FamilyForKind (Kind pack) with
      | Some family, Some expected => err_if (family !=? expected) (FamilyMismatch family expected)
      | _, _ => []
      end
  end.

Definition validateSource (pack : AIPackSpec) : list AIPackWebhookErr :=
  if Source_Ref pack ==? "" then err_if (Kind pack !=? KindAgent) SourceRequired
  else match ValidateRef (Source_Ref pack) with Some err => [Invalid err] | None => [] end.

Definition validateComposition (pack : AIPackSpec) : list AIPackWebhookErr :=
  if Kind pack !=? KindAgent then match Composition pack with Some _ => [CompositionNotAgent] | None => [] end
  else match Composition pack with
       | None => [CompositionMissing]
       | Some c => match ValidateComposition (Some c) with Some err => [Invalid err] | None => [] end
       end.

(** A pointer that is nil, or to an empty string. *)
Definition missing {A} (f : A -> string) (o : option A) : bool := match o with None => true | Some a => f a ==? "" end.

Definition validateKindSpecificFields (pack : AIPackSpec) : list AIPackWebhookErr :=
  if Kind pack ==? KindLoRA then err_if (missing LoRABaseRef (LoRA pack)) LoRABaseRequired
  else if Kind pack ==? KindFineTune then err_if (missing FineTuneBaseRef (FineTune pack)) FineTuneBaseRequired
  else if Kind pack ==? KindRetrievalIndex then err_if (missing EmbeddingModel (RetrievalIndex pack)) EmbeddingRequired
  else if Kind pack ==? KindEval then err_if (missing HarnessRef (Eval pack)) HarnessRequired
  else [].

Definition validate_pack (pack : AIPackSpec) : list AIPackWebhookErr :=
  validateKind pack ++ validateSource pack ++ validateComposition pack ++ validateKindSpecificFields pack.

(** ** What is accepted *)

(** The reference a kind cannot do without. *)
Definition kind_reference (pack : AIPackSpec) : option (option string) :=
  if Kind pack ==? KindLoRA then Some (LoRABaseRef <$> LoRA pack)
  else if Kind pack ==? KindFineTune then Some (FineTuneBaseRef <$> FineTune pack)
  else if Kind pack ==? KindRetrievalIndex then Some (EmbeddingModel <$> RetrievalIndex pack)
  else if Kind pack ==? KindEval then Some (HarnessRef <$> Eval pack)
  else None.

Record pack_ok (pack : AIPackSpec) : Prop := {
  ok_kind : Kind pack ∈ kinds;
  ok_family : forall f, Family pack = Some f -> KindFamilyMap !! Kind pack = Some f;
  ok_source : (Source_Ref pack = "" /\ Kind pack = KindAgent) \/ ValidateRef (Source_Ref pack) = None;
  ok_composition : is_Some (Composition pack) <-> Kind pack = KindAgent;
  ok_slots : forall c, Composition pack = Some c -> ValidateComposition (Some c) = None;
  ok_reference : forall o, kind_reference pack = Some o -> exists r, o = Some r /\ r <> ""
}.

Lemma missing_false {A} (f : A -> string) o : missing f o = false <-> exists r, f <$> o = Some r /\ r <> "".
Proof. destruct o as [a|]; simpl; [rewrite bool_decide_eq_false|]; naive_solver. Qed.

Lemma kind_specific_iff pack :
  validateKindSpecificFields pack = [] <-> forall o, kind_reference pack = Some o -> exists r, o = Some r /\ r <> "".
Proof.
  unfold validateKindSpecificFields, kind_reference.
  repeat (case_bool_decide; [rewrite err_if_nil, missing_false; naive_solver|]). naive_solver.
Qed.

Lemma kind_family_iff pack :
  validateKind pack = [] <-> Kind pack ∈ kinds /\ forall f, Family pack = Some f -> KindFamilyMap !! Kind pack = Some f.
Proof.
  unfold validateKind, FamilyForKind. rewrite <- kind_known_iff.
  unfold ValidateKind. destruct (KindFamilyMap !! Kind pack) as [f|]; [|naive_solver].
  destruct (Family pack) as [g|]; [|naive_solver]. rewrite err_if_nil, negb_false_iff, bool_decide_eq_true. naive_solver.
Qed.

Lemma source_iff pack :
  validateSource pack = [] <-> (Source_Ref pack = "" /\ Kind pack = KindAgent) \/ ValidateRef (Source_Ref pack) = None.
Proof.
  unfold validateSource. case_bool_decide as E.
  - rewrite err_if_nil, negb_false_iff, bool_decide_eq_true, E. split; [auto|]. intros [[_ ?]|[=]]. done.
  - destruct (ValidateRef (Source_Ref pack)); [split; [done|]; intros [[? _]|?]; done|split; auto].
Qed.

Lemma composition_iff pack :
  validateComposition pack = [] <->
  (is_Some (Composition pack) <-> Kind pack = KindAgent)
  /\ forall c, Composition pack = Some c -> ValidateComposition (Some c) = None.
Proof.
  unfold validateComposition. case_bool_decide as E; cbn [negb]; destruct (Composition pack) as [c|]; rewrite <- ?not_eq_None_Some.
  - destruct (ValidateComposition (Some c)) eqn:Ec; split; try done; [intros [_ H]; by rewrite (H c eq_refl) in Ec|].
    intros _. split; [done|]. by intros ? [= <-].
  - split; [done|]. intros [H _]. destruct (proj2 H E). done.
  - split; [done|]. intros [H _]. destruct E. by apply H.
  - split; [|done]. intros _. split; [|done]. split; [|done]. by intros [].
Qed.

(** The AIPack webhook accepts a pack exactly when its kind is one of the
    fifteen with the canonical family, its source is pinned by digest (an agent
    may have none), it is composed exactly when it is an agent, with every
    checked slot valid, and the reference its kind needs is there. *)
Theorem pack_admitted_iff pack : validate_pack pack = [] <-> pack_ok pack.
Proof.
  unfold validate_pack. rewrite !app_nil_iff, kind_family_iff, source_iff, composition_iff, kind_specific_iff.
  split; [intros ([? ?] & ? & [? ?] & ?); by split|]. by intros [].
Qed.

Example pack_verdicts :
  validate_pack (mkAIPackSpec KindLoRA (Some "capability") "registry/a:1" None None None None None)
  = [FamilyMismatch "capability" "model"; Invalid (newErr ErrTagOnlyRef
      "OCI reference must include sha256 digest (tag-only refs rejected per AIPACK-COMP-001)" "registry/a:1"); LoRABaseRequired]
  /\ validate_pack (mkAIPackSpec KindAgent None "" (Some (mkComposition None [] [] [] [] None [] [] None None None "")) None None None None) = [].
Proof. split; vm_compute; reflexivity. Qed.
