(* ===== verification/Topology.v ===== *)
(** * Accelerator topologies

    [internal/runtime/accelerator/topology.go] and the accelerator types of
    [api/v1alpha2/accelerator_types.go]: the fleet of hardware profiles, the
    topology a specification asks for, and the verdict on a workload.  Reasons
    are constructors, one per message. *)

From S2P Require Import Prelude GoStrings GoFloat.

(** ** accelerator_types.go *)

Definition AcceleratorTypeNVIDIA := "nvidia".
Definition AcceleratorTypeROCm := "rocm".
Definition AcceleratorTypeAppleMLX := "apple-mlx".
Definition AcceleratorTypeCPU := "cpu".
Definition AcceleratorTypeNPU := "npu".

Definition AcceleratorModelRTXPRO6000 := "rtx-pro-6000".
Definition AcceleratorModelDGXSpark := "dgx-spark".
Definition AcceleratorModelSM100 := "sm100".
Definition AcceleratorModelSM103 := "sm103".

Record AcceleratorSpec := mkAccelerator { Type_ : string; Model_ : string; Count : option Z }.

Definition type_Vendor (t : string) : string :=
  match Index t "/" with
  | Some slash => ToLower (str_take slash t)
  | None =>
      match Index t "-" with
      | Some dash =>
          let prefix := ToLower (str_take dash t) in
          if (prefix ==? AcceleratorTypeNVIDIA) || (prefix ==? AcceleratorTypeROCm) || (prefix ==? AcceleratorTypeCPU)
             || (prefix ==? AcceleratorTypeNPU)
          then prefix else t
      | None => t
      end
  end.

Definition type_Model (t : string) : string :=
  match Index t "/" with
  | Some slash => ToLower (str_drop (slash + 1) t)
  | None =>
      match Index t "-" with
      | Some dash =>
          let prefix := ToLower (str_take dash t) in
          if (prefix ==? AcceleratorTypeNVIDIA) || (prefix ==? AcceleratorTypeROCm) then ToLower (str_drop (dash + 1) t) else ""
      | None => ""
      end
  end.

Definition spec_Vendor (s : option AcceleratorSpec) : string := match s with None => "" | Some s => type_Vendor (Type_ s) end.

Definition ResolvedModel (s : option AcceleratorSpec) : string :=
  match s with
  | None => ""
  | Some s => if Model_ s !=? "" then Model_ s else type_Model (Type_ s)
  end.

(** ** Profiles *)

Record HardwareProfile := mkProfile {
  Vendor : string;
  Model : string;
  Architecture : string;
  ComputeCapability : string;
  VRAMPerDeviceBytes : Z;
  SupportsTensorParallel : bool;
  SupportsExpertParallel : bool;
  Interconnect : string;
  SupportedQuantizations : list string
}.

Definition gibibyte : Z := 1024 * 1024 * 1024.

Definition ProfileRTXPRO6000 := mkProfile AcceleratorTypeNVIDIA AcceleratorModelRTXPRO6000 "Ada Lovelace" "sm_89" (48 * gibibyte) true true
  "PCIe-5.0" ["exl3"; "exl2"; "fp8"; "awq"; "gptq"; "bitsandbytes"; "bf16"; "fp16"].
Definition ProfileDGXSpark := mkProfile AcceleratorTypeNVIDIA AcceleratorModelDGXSpark "Blackwell Spark" "sm_100" (144 * gibibyte) true true
  "NVLink-5" ["exl3"; "nvfp4"; "fp4"; "mxfp8"; "fp8"; "awq"; "gptq"; "bitsandbytes"; "bf16"; "fp16"].
Definition ProfileSM100 := mkProfile AcceleratorTypeNVIDIA AcceleratorModelSM100 "Blackwell" "sm_100" (192 * gibibyte) true true
  "NVLink-5" ["exl3"; "nvfp4"; "fp4"; "mxfp8"; "fp8"; "awq"; "gptq"; "bitsandbytes"; "bf16"; "fp16"].
Definition ProfileSM103 := mkProfile AcceleratorTypeNVIDIA AcceleratorModelSM103 "Blackwell Ultra" "sm_103" (288 * gibibyte) true true
  "NVLink-5" ["exl3"; "nvfp4"; "fp4"; "mxfp8"; "fp8"; "awq"; "gptq"; "bitsandbytes"; "bf16"; "fp16"].
Definition ProfileROCmMI300X := mkProfile AcceleratorTypeROCm "mi300x" "CDNA3" "gfx942" (192 * gibibyte) true true
  "Infinity-Fabric" ["fp8"; "awq"; "gptq"; "bitsandbytes"; "bf16"; "fp16"].
Definition ProfileAppleMLX := mkProfile AcceleratorTypeAppleMLX "m-series-ultra" "Apple Silicon" "metal-3" (128 * gibibyte) false false
  "Unified-Memory" ["mlx"; "bf16"; "fp16"].
Definition ProfileHostCPU := mkProfile AcceleratorTypeCPU "host-cpu" "x86_64" "avx512" (64 * gibibyte) false false
  "QPI/UPI" ["gguf"; "bf16"; "fp32"].
Definition ProfileGenericNPU := mkProfile AcceleratorTypeNPU "generic-npu" "NPU" "npu-v1" (32 * gibibyte) false false
  "PCIe-4.0" ["int8"; "fp16"].

Definition defaultFleetProfiles : list HardwareProfile :=
  [ProfileRTXPRO6000; ProfileDGXSpark; ProfileSM100; ProfileSM103; ProfileROCmMI300X; ProfileAppleMLX; ProfileHostCPU; ProfileGenericNPU].

(** The test of one profile in the loop of [LookupProfile]. *)
Definition profile_matches (normVendor normModel : string) (p : HardwareProfile) : bool :=
  let pVendor := ToLower (Vendor p) in
  let pModel := ToLower (Model p) in
  if normModel !=? "" then (pModel ==? normModel) && ((normVendor ==? "") || (pVendor ==? normVendor))
  else pVendor ==? normVendor.

Definition LookupProfile (vendor model : string) : option HardwareProfile :=
  List.find (profile_matches (ToLower (type_Vendor vendor)) (ToLower model)) defaultFleetProfiles.

(** ** Topologies *)

Record HardwareTopology := mkTopology { Profile : HardwareProfile; DeviceCount : Z; TotalVRAM : Z }.

Inductive TopologyErr := CountNotPositive | NoProfile (vendor model : string) | SpecIsNil.

Definition NewHardwareTopology (vendor model : string) (count : Z) : HardwareTopology + TopologyErr :=
  if count <=? 0 then inr CountNotPositive
  else match LookupProfile vendor model with
       | None => inr (NoProfile vendor model)
       | Some profile => inl (mkTopology profile count (i64_wrap (count * VRAMPerDeviceBytes profile)))
       end.

Definition NewHardwareTopologyFromSpec (spec : option AcceleratorSpec) : HardwareTopology + TopologyErr :=
  match spec with
  | None => inr SpecIsNil
  | Some s => NewHardwareTopology (spec_Vendor spec) (ResolvedModel spec) (default 1 (Count s))
  end.

Definition TotalVRAMGiB (h : HardwareTopology) : float64 := f_div (f_of_Z (TotalVRAM h)) (f_of_Z gibibyte).

Record ModelWorkload := mkWorkload {
  WName : string; ParameterCount : Z; Quantization : string; RequiredVRAMBytes : Z; TensorParallelDegree : Z; RequiresExpert : bool
}.

Definition RequiredVRAMGiB (m : ModelWorkload) : float64 := f_div (f_of_Z (RequiredVRAMBytes m)) (f_of_Z gibibyte).

Definition GLM53EXL3Workload : ModelWorkload := mkWorkload "GLM-5.3-753B-MoE-EXL3" 753000000000 "exl3" (176 * gibibyte) 4 true.

(** ** Validation *)

Inductive VRAMState := VRAMStateSufficient | VRAMStateDegraded | VRAMStateInsufficient.
Inductive ParallelismState := ParallelismStateOptimal | ParallelismStateCompatible | ParallelismStateMisaligned | ParallelismStateUnsupported.
Inductive VendorCompatibilityState := VendorCompatibilityNative | VendorCompatibilityEmulated | VendorCompatibilityIncompatible.
Inductive TopologyPhase := TopologyPhaseCompliant | TopologyPhaseNonCompliant | TopologyPhaseDegraded.

Inductive TopologyReason :=
| QuantizationUnsupported (model quantization : string)
| NoTensorParallel (vendor : string)
| CountMisaligned (devices tp : Z)
| VRAMBelow (available required : Z)
| HeadroomConstrained (ratio : float64).

Record TopologyVectorState := mkVector { VRAM : VRAMState; Parallelism : ParallelismState; VendorCompatibility : VendorCompatibilityState }.

Record TopologyValidationResult := mkValidation {
  Phase : TopologyPhase; Vector : TopologyVectorState; TotalAvailableVRAM : Z; RequiredVRAM : Z; HeadroomBytes : Z; HeadroomRatio : float64;
  Reasons : list TopologyReason
}.

#[export] Instance VRAMState_eq_dec : EqDecision VRAMState.
Proof. solve_decision. Defined.
#[export] Instance ParallelismState_eq_dec : EqDecision ParallelismState.
Proof. solve_decision. Defined.
#[export] Instance VendorCompatibilityState_eq_dec : EqDecision VendorCompatibilityState.
Proof. solve_decision. Defined.
#[export] Instance TopologyPhase_eq_dec : EqDecision TopologyPhase.
Proof. solve_decision. Defined.

Definition IsCompliant (r : TopologyValidationResult) : bool := (Phase r ==? TopologyPhaseCompliant) || (Phase r ==? TopologyPhaseDegraded).

Definition evaluateVendorCompatibility (p : HardwareProfile) (w : ModelWorkload) : VendorCompatibilityState :=
  if Quantization w ==? "" then VendorCompatibilityNative
  else if existsb (fun supported => ToLower supported ==? ToLower (Quantization w)) (SupportedQuantizations p) then VendorCompatibilityNative
  else VendorCompatibilityIncompatible.

Definition evaluateParallelism (topo : HardwareTopology) (w : ModelWorkload) : ParallelismState :=
  let tp := TensorParallelDegree w in
  if tp <=? 1 then ParallelismStateOptimal
  else if negb (SupportsTensorParallel (Profile topo)) then ParallelismStateUnsupported
  else if (DeviceCount topo <? tp) || (Z.rem (DeviceCount topo) tp !=? 0) then ParallelismStateMisaligned
  else if DeviceCount topo ==? tp then ParallelismStateOptimal
  else ParallelismStateCompatible.

Definition evaluateVRAM (headroomBytes : Z) (headroomRatio : float64) : VRAMState :=
  if headroomBytes <? 0 then VRAMStateInsufficient
  else if f_lt headroomRatio (f_lit 5 100) then VRAMStateDegraded
  else VRAMStateSufficient.

Definition reason_if (b : bool) (r : TopologyReason) : list TopologyReason := if b then [r] else [].

Definition finalizeResult (v : TopologyVectorState) (total required headroom : Z) (ratio : float64) (topo : HardwareTopology) (w : ModelWorkload)
    : TopologyValidationResult :=
  let reasons :=
    reason_if (VendorCompatibility v ==? VendorCompatibilityIncompatible) (QuantizationUnsupported (Model (Profile topo)) (Quantization w))
    ++ reason_if (Parallelism v ==? ParallelismStateUnsupported) (NoTensorParallel (Vendor (Profile topo)))
    ++ reason_if (Parallelism v ==? ParallelismStateMisaligned) (CountMisaligned (DeviceCount topo) (TensorParallelDegree w))
    ++ reason_if (VRAM v ==? VRAMStateInsufficient) (VRAMBelow total required)
    ++ reason_if (VRAM v ==? VRAMStateDegraded) (HeadroomConstrained ratio) in
  let phase :=
    if (VendorCompatibility v ==? VendorCompatibilityIncompatible) || (Parallelism v ==? ParallelismStateUnsupported)
       || (Parallelism v ==? ParallelismStateMisaligned) || (VRAM v ==? VRAMStateInsufficient)
    then TopologyPhaseNonCompliant
    else if VRAM v ==? VRAMStateDegraded then TopologyPhaseDegraded
    else TopologyPhaseCompliant in
  mkValidation phase v total required headroom ratio reasons.

Definition ValidateTopology (topo : HardwareTopology) (w : ModelWorkload) : TopologyValidationResult :=
  let headroom := i64_wrap (TotalVRAM topo - RequiredVRAMBytes w) in
  let ratio := if TotalVRAM topo >? 0 then f_div (f_of_Z headroom) (f_of_Z (TotalVRAM topo)) else f_zero in
  let v := mkVector (evaluateVRAM headroom ratio) (evaluateParallelism topo w) (evaluateVendorCompatibility (Profile topo) w) in
  finalizeResult v (TotalVRAM topo) (RequiredVRAMBytes w) headroom ratio topo w.

(** ** Lookup *)

(** A profile that is found is of the fleet and is the one asked for. *)
Lemma lookup_profile_sound vendor model p :
  LookupProfile vendor model = Some p ->
  p ∈ defaultFleetProfiles /\ profile_matches (ToLower (type_Vendor vendor)) (ToLower model) p = true.
Proof. intros H. apply find_some in H as [Hin H]. by rewrite base.list_elem_of_In. Qed.

(** Every profile of the fleet is found by its vendor and model, and the
    models are distinct. *)
Lemma fleet_profiles_found p : p ∈ defaultFleetProfiles -> LookupProfile (Vendor p) (Model p) = Some p.
Proof.
  intros H. unfold defaultFleetProfiles in H. rewrite !elem_of_cons, elem_of_nil in H.
  destruct H as [->|[->|[->|[->|[->|[->|[->|[->|[]]]]]]]]]; vm_compute; reflexivity.
Qed.

(** The memory of every profile is positive and at most 288 GiB. *)
Lemma fleet_memory p : p ∈ defaultFleetProfiles -> 0 < VRAMPerDeviceBytes p <= 288 * gibibyte.
Proof.
  intros H. unfold defaultFleetProfiles in H. rewrite !elem_of_cons, elem_of_nil in H.
  destruct H as [->|[->|[->|[->|[->|[->|[->|[->|[]]]]]]]]]; vm_compute; split; congruence.
Qed.

(** Up to 29826161 devices the total does not overflow (with the largest
    profile 29826162 devices do, below). *)
Lemma topology_memory_exact vendor model count h :
  NewHardwareTopology vendor model count = inl h -> count <= 29826161 ->
  TotalVRAM h = count * VRAMPerDeviceBytes (Profile h) /\ 0 < TotalVRAM h /\ DeviceCount h = count /\ 0 < count.
Proof.
  unfold NewHardwareTopology. case_bool_decide as Hc; [done|]. destruct (LookupProfile vendor model) as [p|] eqn:E; [|done].
  intros [= <-] Hle. simpl. apply lookup_profile_sound in E as [Hp _]. apply fleet_memory in Hp. unfold gibibyte in Hp.
  rewrite i64_wrap_small by (unfold i64_range; nia). repeat split; nia.
Qed.

Example topology_overflow :
  exists h, NewHardwareTopology "nvidia" "sm103" 29826162 = inl h /\ TotalVRAM h < 0.
Proof. eexists. split; [vm_compute; reflexivity|]. reflexivity. Qed.

(** ** The verdict *)

Lemma vendor_ok_iff p w :
  evaluateVendorCompatibility p w <> VendorCompatibilityIncompatible <->
  Quantization w = "" \/ exists q, q ∈ SupportedQuantizations p /\ ToLower q = ToLower (Quantization w).
Proof.
  unfold evaluateVendorCompatibility. case_bool_decide as E; [naive_solver|].
  destruct (existsb _ _) eqn:Ex.
  - apply existsb_exists in Ex as (q & Hq & H%bool_decide_eq_true). split; [|done]. intros _. right. exists q. by rewrite base.list_elem_of_In.
  - split; [done|]. intros [?|(q & Hq & H)]; [done|]. rewrite <- not_true_iff_false, existsb_exists in Ex. destruct Ex. exists q.
    by rewrite <- base.list_elem_of_In, bool_decide_eq_true.
Qed.

Lemma parallelism_fits_iff topo w :
  (evaluateParallelism topo w <> ParallelismStateUnsupported /\ evaluateParallelism topo w <> ParallelismStateMisaligned) <->
  (1 < TensorParallelDegree w ->
   SupportsTensorParallel (Profile topo) = true /\ TensorParallelDegree w <= DeviceCount topo /\ (TensorParallelDegree w | DeviceCount topo)).
Proof.
  unfold evaluateParallelism. cbv zeta. case_bool_decide as Ht; [split; [lia|done]|].
  destruct (SupportsTensorParallel (Profile topo)); cbn [negb]; [|split; [by intros []|intros H; destruct H; [lia|done]]].
  rewrite <- (Z.rem_divide (DeviceCount topo) (TensorParallelDegree w)) by lia.
  destruct (_ || _) eqn:E; rewrite ?orb_true_iff, ?orb_false_iff, ?bool_decide_eq_true, ?bool_decide_eq_false, ?negb_true_iff, ?negb_false_iff,
    ?bool_decide_eq_true, ?bool_decide_eq_false in E.
  - split; [by intros []|]. intros H. destruct H as (_ & H1 & H2); [lia|]. destruct E; [lia|done].
  - split; [|by intros _; case_bool_decide]. intros _ _. repeat split; [lia|apply E].
Qed.

Lemma compliant_iff_vector v total required headroom ratio topo w :
  IsCompliant (finalizeResult v total required headroom ratio topo w) = true <->
  VendorCompatibility v <> VendorCompatibilityIncompatible
  /\ (Parallelism v <> ParallelismStateUnsupported /\ Parallelism v <> ParallelismStateMisaligned) /\ VRAM v <> VRAMStateInsufficient.
Proof. destruct v as [[] [] []]; vm_compute; naive_solver. Qed.

Lemma vram_ok_iff headroom ratio : evaluateVRAM headroom ratio <> VRAMStateInsufficient <-> 0 <= headroom.
Proof. unfold evaluateVRAM. case_bool_decide; [split; [done|lia]|]. destruct (f_lt _ _); split; done || lia. Qed.

Lemma reasons_explain v total required headroom ratio topo w :
  Reasons (finalizeResult v total required headroom ratio topo w) = [] <->
  Phase (finalizeResult v total required headroom ratio topo w) = TopologyPhaseCompliant.
Proof. destruct v as [[] [] []]; done. Qed.

(** A topology built from the fleet is accepted for a workload (compliant or
    degraded) exactly when the quantization is supported (ignoring case), a
    tensor-parallel workload has an interconnect and a positive multiple of its
    degree in devices, and the memory of all devices covers the requirement;
    without overflow up to 29826161 devices.  It is fully compliant exactly
    when no reason is given. *)
Theorem topology_verdict vendor model count h w :
  NewHardwareTopology vendor model count = inl h -> count <= 29826161 -> 0 <= RequiredVRAMBytes w < 2 ^ 63 ->
  (IsCompliant (ValidateTopology h w) = true <->
    (Quantization w = "" \/ exists q, q ∈ SupportedQuantizations (Profile h) /\ ToLower q = ToLower (Quantization w))
    /\ (1 < TensorParallelDegree w ->
        SupportsTensorParallel (Profile h) = true /\ TensorParallelDegree w <= count /\ (TensorParallelDegree w | count))
    /\ RequiredVRAMBytes w <= count * VRAMPerDeviceBytes (Profile h))
  /\ (Reasons (ValidateTopology h w) = [] <-> Phase (ValidateTopology h w) = TopologyPhaseCompliant).
Proof.
  intros Hh Hc Hw. destruct (topology_memory_exact _ _ _ _ Hh Hc) as (Ht & Hpos & Hd & Hcp).
  split; [|apply reasons_explain]. unfold ValidateTopology. cbv zeta. rewrite compliant_iff_vector. cbn [VendorCompatibility Parallelism VRAM].
  rewrite vendor_ok_iff, parallelism_fits_iff, vram_ok_iff, Hd.
  assert (TotalVRAM h < 2 ^ 63) as Hlt.
  { unfold NewHardwareTopology in Hh. case_bool_decide; [done|]. destruct (LookupProfile _ _) as [p|]; [|done]. injection Hh as <-. simpl.
    pose proof (i64_wrap_range (count * VRAMPerDeviceBytes p)) as Hr. unfold i64_range in Hr. lia. }
  rewrite i64_wrap_small by (unfold i64_range; lia). rewrite Ht. repeat apply and_iff_compat_l. lia.
Qed.

(** Four RTX PRO 6000 carry GLM-5.3 with 16 GiB to spare. *)
Lemma topology_verdict_witness :
  exists h, NewHardwareTopology "nvidia" "rtx-pro-6000" 4 = inl h
  /\ IsCompliant (ValidateTopology h GLM53EXL3Workload) = true
  /\ Phase (ValidateTopology h GLM53EXL3Workload) = TopologyPhaseCompliant
  /\ HeadroomBytes (ValidateTopology h GLM53EXL3Workload) = 16 * gibibyte.
Proof.
  exists (mkTopology ProfileRTXPRO6000 4 (192 * gibibyte)). split; [vm_compute; reflexivity|]. split; [|split; vm_compute; reflexivity].
  apply (topology_verdict "nvidia" "rtx-pro-6000" 4); [vm_compute; reflexivity|lia|vm_compute; split; congruence|].
  split; [right; exists "exl3"; split; [by left|reflexivity]|]. split; [|vm_compute; congruence].
  intros _. split; [reflexivity|]. split; [cbn; lia|]. by exists 1.
Defined.

(** The requirement of expert parallelism is not looked at. *)
Lemma expert_requirement_ignored topo n p q r t b b' :
  ValidateTopology topo (mkWorkload n p q r t b) = ValidateTopology topo (mkWorkload n p q r t b').
Proof. reflexivity. Qed.

(** A specification names its profile by vendor and model in one string too. *)
Example spec_forms :
  NewHardwareTopologyFromSpec (Some (mkAccelerator "NVIDIA/SM100" "" (Some 2))) = NewHardwareTopology "nvidia" "sm100" 2
  /\ NewHardwareTopologyFromSpec (Some (mkAccelerator "nvidia-rtx-pro-6000" "" None)) = NewHardwareTopology "nvidia" "rtx-pro-6000" 1
  /\ NewHardwareTopologyFromSpec (Some (mkAccelerator "apple-mlx" "" None)) = NewHardwareTopology "apple-mlx" "" 1
  /\ NewHardwareTopologyFromSpec None = inr SpecIsNil.
Proof. vm_compute. done. Qed.
