(* ===== verification/GoFilepath.v ===== *)
(** * path/filepath

    [filepath.Clean], [Join], [Base] and [Dir] on slash-separated paths, and
    that joining a path without ".." elements stays below its directory. *)

From S2P Require Import Prelude GoStrings.
From Stdlib Require Import Ascii.

(** One element of a path; the elements kept so far, the last one first. *)
Definition clean_step (rooted : bool) (kept : list string) (c : string) : list string :=
  if (c ==? "") || (c ==? ".") then kept
  else if c ==? ".." then
    match kept with
    | [] => if rooted then [] else [".."]
    | x :: rest => if x ==? ".." then ".." :: kept else rest
    end
  else c :: kept.

Definition clean_elements (rooted : bool) (path : string) : list string :=
  reverse (foldl (clean_step rooted) [] (Split path "/")).

Definition Clean (path : string) : string :=
  if path ==? "" then "."
  else if HasPrefix path "/" then "/" +:+ Join "/" (clean_elements true path)
  else match clean_elements false path with [] => "." | l => Join "/" l end.

(** [filepath.Join(a, b)]: empty elements are ignored. *)
Definition path_Join (a b : string) : string :=
  if a ==? "" then (if b ==? "" then "" else Clean b)
  else if b ==? "" then Clean a else Clean (a +:+ "/" +:+ b).

(** [strings.TrimRight(s, "/")]. *)
Fixpoint trim_slashes (s : string) : string :=
  match s with
  | EmptyString => ""
  | String c s => let t := trim_slashes s in if (t ==? "") && (code c ==? 47) then "" else String c t
  end.

Definition Base (path : string) : string :=
  if path ==? "" then "."
  else match last (Split (trim_slashes path) "/") with
       | Some e => if e ==? "" then "/" else e
       | None => "/"
       end.

(** The path up to and with its last slash. *)
Fixpoint up_to_slash (s : string) : string :=
  match s with
  | EmptyString => ""
  | String c s => let t := up_to_slash s in if (t ==? "") && negb (code c ==? 47) then "" else String c t
  end.

Definition Dir (path : string) : string := Clean (up_to_slash path).

Example path_examples :
  Clean "/a//b/./../c/" = "/a/c" /\ Clean "/../x" = "/x" /\ Clean "a/../.." = ".." /\ Clean "./" = "." /\ Clean "//" = "/"
  /\ path_Join "/d" "/x" = "/d/x" /\ path_Join "/d" "../e" = "/e" /\ path_Join "/d" "" = "/d"
  /\ Base "/a/b//" = "b" /\ Base "///" = "/" /\ Base "m" = "m" /\ Dir "/a/b" = "/a" /\ Dir "b" = "." /\ Dir "/b" = "/".
Proof. vm_compute. done. Qed.

(** ** Joining *)

(** The path is the directory or lies in it. *)
Definition under (dir path : string) : bool := (path ==? dir) || HasPrefix path (dir +:+ "/").

(** Elements that [Clean] keeps as they are. *)
Definition plain (c : string) : bool := negb ((c ==? "") || (c ==? ".") || (c ==? "..")).

(** A directory in its clean form, below the root. *)
Definition clean_dir (dir : string) (l : list string) : Prop :=
  dir = "/" +:+ Join "/" l /\ l <> [] /\ Forall (fun c => plain c = true /\ free_of "/"%char c = true) l.

(** No element of the path is "..". *)
Definition no_parent (rel : string) : Prop := ".." ∉ Split rel "/".

Lemma foldl_clean_plain rooted kept l :
  ".." ∉ l -> foldl (clean_step rooted) kept l = reverse (filter (fun c => plain c = true) l) ++ kept.
Proof.
  revert kept. induction l as [|c l IH]; intros kept Hl; cbn [foldl]; [done|].
  apply not_elem_of_cons in Hl as [Hc Hl]. unfold clean_step at 2. rewrite filter_cons.
  destruct ((c ==? "") || (c ==? ".")) eqn:E.
  - rewrite decide_False by (unfold plain; by rewrite E). by apply IH.
  - rewrite (bool_decide_false (c = "..")) by done.
    rewrite decide_True by (unfold plain; rewrite E; cbn; by rewrite bool_decide_false).
    rewrite IH, reverse_cons, <- app_assoc by done. done.
Qed.

Lemma foldl_clean_kept rooted kept l :
  Forall (fun c => plain c = true) l -> foldl (clean_step rooted) kept l = reverse l ++ kept.
Proof.
  revert kept. induction l as [|c l IH]; intros kept Hl; [done|]. cbn [foldl]. apply Forall_cons in Hl as [Hc Hl].
  unfold plain in Hc. apply negb_true_iff in Hc. apply orb_false_iff in Hc as [Hc Hd].
  unfold clean_step at 2. rewrite Hc, Hd, IH by done. rewrite reverse_cons, <- app_assoc. done.
Qed.

Lemma Join_app sep l m : l <> [] -> m <> [] -> Join sep (l ++ m) = Join sep l +:+ sep +:+ Join sep m.
Proof.
  intros Hl Hm. induction l as [|s l IH]; [done|]. destruct l as [|t l].
  - cbn [app]. by rewrite Join_cons.
  - rewrite <- app_comm_cons, !Join_cons by done. rewrite IH by done. by rewrite !string_app_assoc.
Qed.

Lemma split_fuel_enough sep n m s : sep <> "" -> (String.length s <= n)%nat -> (String.length s <= m)%nat ->
  split_fuel n s sep = split_fuel m s sep.
Proof.
  intros Hs. revert m s. induction n as [|n IH]; intros m s Hn Hm.
  - destruct s; [|simpl in Hn; lia]. destruct m; [done|]. cbn [split_fuel Index]. by destruct sep.
  - destruct m as [|m].
    + destruct s; [|simpl in Hm; lia]. cbn [split_fuel Index]. by destruct sep.
    + cbn [split_fuel]. destruct (Index s sep) as [i|] eqn:E; [|done]. f_equal. apply Index_split in E as Es.
      assert (0 < String.length sep)%nat by (destruct sep; [done|simpl; lia]).
      apply (f_equal String.length) in Es. rewrite !str_length_app in Es. apply IH; lia.
Qed.

(** An element, a slash and the rest. *)
Lemma Split_slash a r : free_of "/"%char a = true -> Split (a +:+ "/" +:+ r) "/" = a :: Split r "/".
Proof.
  intros Ha. unfold Split. rewrite !str_length_app.
  replace (String.length a + (String.length "/" + String.length r))%nat with (S (String.length a + String.length r)) by (simpl; lia).
  cbn [split_fuel]. change ("/" +:+ r) with (String "/"%char r). rewrite (Index_first "/"%char) by done.
  rewrite str_take_app. f_equal.
  replace (a +:+ String "/" r) with ((a +:+ "/") +:+ r) by (by rewrite <- string_app_assoc).
  replace (String.length a + String.length "/")%nat with (String.length (a +:+ "/")) by by rewrite str_length_app.
  rewrite str_drop_app. apply split_fuel_enough; [done|lia|lia].
Qed.

Lemma Split_root r : Split ("/" +:+ r) "/" = "" :: Split r "/".
Proof. exact (Split_slash "" r eq_refl). Qed.

Lemma Split_path l r : Forall (fun c => free_of "/"%char c = true) l -> l <> [] ->
  Split ("/" +:+ Join "/" l +:+ "/" +:+ r) "/" = [""] ++ l ++ Split r "/".
Proof.
  intros Hl Hn. rewrite Split_root. cbn [app]. f_equal.
  induction Hl as [|c l Hc Hl IH]; [done|]. destruct l as [|d l].
  - cbn [Join String.concat]. by rewrite Split_slash.
  - rewrite Join_cons by done. rewrite <- !string_app_assoc, Split_slash by done. cbn [app]. f_equal. by apply IH.
Qed.

(** A clean directory joined with a path without ".." elements: the elements
    of the path that are kept come after it. *)
Lemma join_elements dir l rel : clean_dir dir l -> no_parent rel ->
  path_Join dir rel = "/" +:+ Join "/" (l ++ filter (fun c => plain c = true) (Split rel "/")).
Proof.
  intros (-> & Hn & Hl) Hr.
  assert (Forall (fun c => free_of "/"%char c = true) l) as Hf by (eapply Forall_impl; [exact Hl|]; by intros c []).
  assert (Forall (fun c => plain c = true) l) as Hp by (eapply Forall_impl; [exact Hl|]; by intros c []).
  unfold path_Join. rewrite (bool_decide_false ("/" +:+ _ = "")) by done.
  assert (clean_step true [] "" = []) as H0 by done.
  case_bool_decide as E; unfold Clean; (rewrite bool_decide_false by (intros H; discriminate H));
    [|rewrite <- string_app_assoc]; rewrite HasPrefix_app; unfold clean_elements.
  - subst rel. rewrite Split_root, (Split_Join "/"%char) by done. cbn [foldl]. rewrite H0.
    rewrite foldl_clean_kept, app_nil_r, reverse_involutive by done. by rewrite app_nil_r.
  - rewrite Split_path, !foldl_app by done. cbn [foldl]. rewrite H0, (foldl_clean_kept true [] l), app_nil_r by done.
    rewrite foldl_clean_plain by done. by rewrite reverse_app, !reverse_involutive.
Qed.

(** A path of a file: some element is a name, none is "..". *)
Definition names_file (rel : string) : Prop := no_parent rel /\ exists c, c ∈ Split rel "/" /\ plain c = true.

(** Joining a path without ".." elements to a clean directory stays below it. *)
Lemma join_under dir l rel : clean_dir dir l -> no_parent rel -> under dir (path_Join dir rel) = true.
Proof.
  intros Hd Hr. rewrite (join_elements dir l rel) by done. destruct Hd as (-> & Hn & _). unfold under. apply orb_true_iff.
  destruct (filter _ (Split rel "/")) as [|x m]; [left; rewrite app_nil_r; by apply bool_decide_eq_true|right].
  rewrite Join_app by done. rewrite !string_app_assoc. apply HasPrefix_app.
Qed.

(** A file joined to a clean directory lies in it. *)
Lemma join_inside dir l rel : clean_dir dir l -> names_file rel -> exists r, path_Join dir rel = dir +:+ "/" +:+ r.
Proof.
  intros Hd [Hr (c & Hc & Hp)]. rewrite (join_elements dir l rel) by done. destruct Hd as (-> & Hn & _).
  destruct (filter _ (Split rel "/")) as [|x m] eqn:E.
  - assert (c ∈ filter (fun c => plain c = true) (Split rel "/")) as Hin by (by apply list_elem_of_filter).
    rewrite E in Hin. by apply not_elem_of_nil in Hin.
  - exists (Join "/" (x :: m)). rewrite Join_app by done. by rewrite !string_app_assoc.
Qed.
