(* ===== verification/ParallelDownload.v ===== *)
(** * Chunked downloads with resume

    [internal/storage/parallel_download.go] and the checks of
    [internal/storage/checksum.go].  Files are a map from clean paths to their
    bytes, directories are implicit, and the local file system does not fail;
    the HTTP server is an argument that may answer anything.  Each request of a
    download is sent once, so an answer per range is all a run sees of the
    server; the workers write to distinct files, so their order does not
    matter ([download_order] below).  Progress reports are left out. *)

From S2P Require Import Prelude GoStrings GoFilepath Sha256 AIPack.
From Stdlib Require Import Ascii.

(** ** The environment *)

Notation Files := (gmap string string).

Definition Rename (fs : Files) (a b : string) : Files := match fs !! a with Some x => <[b := x]> (delete a fs) | None => fs end.

Definition RemoveAll (fs : Files) (dir : string) : Files := filter (fun kv => under dir kv.1 = false) fs.

(** An answer: the body as far as it could be read, and whether reading it
    ended with an error. *)
Record Response := mkResponse { StatusCode : Z; ContentLength : Z; AcceptRanges : string; Body : string; BodyErr : bool }.

Record Server := mkServer {
  Head : option Response;
  Get : option Response;
  GetRange : Z -> Z -> option Response
}.

Definition StatusOK : Z := 200.
Definition StatusPartialContent : Z := 206.

(** [strconv.ParseInt(s, 10, 64)]. *)
Fixpoint parse_digits (acc : Z) (s : string) : option Z :=
  match s with
  | EmptyString => Some acc
  | String c s => if is_digit c then parse_digits (10 * acc + (code c - 48)) s else None
  end.

Definition ParseInt (s : string) : option Z :=
  let read s := match s with EmptyString => None | _ => parse_digits 0 s end in
  v ← match s with
      | String "-" s => Z.opp <$> read s
      | String "+" s => read s
      | _ => read s
      end;
  if (- 2 ^ 63 <=? v) && (v <? 2 ^ 63) then Some v else None.

(** ** parallel_download.go *)

Definition DefaultChunkSize : Z := 64 * 1024 * 1024.
Definition DefaultDownloadWorkers : Z := 4.
Definition LargeFileThreshold : Z := 1 * 1024 * 1024 * 1024.

Record ParallelDownloader := mkDownloader { Workers : Z; ChunkSize : Z }.

(** The two variables of the environment ([""] when they are not set). *)
Definition NewParallelDownloader (workersVar chunkVar : string) : ParallelDownloader :=
  let workers :=
    match ParseInt workersVar with Some n => if (n >? 0) && (n <=? 32) then n else DefaultDownloadWorkers | None => DefaultDownloadWorkers end in
  let chunkSize :=
    match ParseInt chunkVar with Some n => if n >? 0 then i64_wrap (i64_wrap (n * 1024) * 1024) else DefaultChunkSize | None => DefaultChunkSize end in
  mkDownloader workers chunkSize.

Record chunkDescriptor := mkChunk { CIndex : Z; Start : Z; End_ : Z; Path : string }.

#[export] Instance chunkDescriptor_eq_dec : EqDecision chunkDescriptor.
Proof. solve_decision. Defined.

Inductive DownloadErr :=
| ProbeFailed
| ChunksFailed (failed : list Z)
| ChunkMissing (i : Z)
| DownloadFailed
| ChecksumMismatch
| CannotOpen
| Diverges.

(** [fmt.Sprintf("chunk_%05d", i)]. *)
Definition chunk_name (i : Z) : string :=
  let ds := Itoa i in
  "chunk_" +:+ str_take (5 - String.length ds) "00000" +:+ ds.

Definition probeFile (srv : Server) : (Z * bool) + DownloadErr :=
  match Head srv with
  | None => inr ProbeFailed
  | Some resp =>
      if StatusCode resp !=? StatusOK then inr ProbeFailed
      else inl (ContentLength resp, (ToLower (AcceptRanges resp) ==? "bytes") && (ContentLength resp >? 0))
  end.

(** The loop that builds the chunks; [None] when the fuel runs out. *)
Fixpoint build_chunks (fuel : nat) (chunkSize fileSize : Z) (chunksDir : string) (i offset : Z) : option (list chunkDescriptor) :=
  if offset <? fileSize then
    match fuel with
    | O => None
    | S fuel =>
        let last := i64_wrap (offset + chunkSize - 1) in
        let last := if last >=? fileSize then fileSize - 1 else last in
        rest ← build_chunks fuel chunkSize fileSize chunksDir (i + 1) (i64_wrap (offset + chunkSize));
        Some (mkChunk i offset last (chunksDir +:+ "/" +:+ chunk_name i) :: rest)
    end
  else Some [].

(** With a positive chunk size a file has one chunk per [chunkSize] bytes. *)
Definition chunk_fuel (chunkSize fileSize : Z) : nat := S (Z.to_nat (fileSize / chunkSize)).

Definition expectedSize (c : chunkDescriptor) : Z := End_ c - Start c + 1.

Definition complete (fs : Files) (c : chunkDescriptor) : bool :=
  match fs !! Path c with Some x => Z.of_nat (String.length x) ==? expectedSize c | None => false end.

Definition toDownload (fs : Files) (chunks : list chunkDescriptor) : list chunkDescriptor := filter (fun c => complete fs c = false) chunks.

(** The files after the download of a chunk, and whether it succeeded. *)
Definition downloadChunk (srv : Server) (fs : Files) (c : chunkDescriptor) : Files * bool :=
  match GetRange srv (Start c) (End_ c) with
  | None => (fs, false)
  | Some resp =>
      if (StatusCode resp !=? StatusPartialContent) && (StatusCode resp !=? StatusOK) then (fs, false)
      else
        let tmpPath := Path c +:+ ".partial" in
        let fs := <[tmpPath := Body resp]> fs in
        if BodyErr resp then (delete tmpPath fs, false)
        else if Z.of_nat (String.length (Body resp)) !=? expectedSize c then (delete tmpPath fs, false)
        else (Rename fs tmpPath (Path c), true)
  end.

(** The workers, and the chunks that failed. *)
Fixpoint download_all (srv : Server) (fs : Files) (cs : list chunkDescriptor) : Files * list Z :=
  match cs with
  | [] => (fs, [])
  | c :: cs =>
      let (fs, ok) := downloadChunk srv fs c in
      let (fs, failed) := download_all srv fs cs in
      (fs, if ok then failed else CIndex c :: failed)
  end.

(** [io.Copy] of every chunk in order; a missing chunk stops it. *)
Fixpoint assemble (fs : Files) (cs : list chunkDescriptor) : string + Z :=
  match cs with
  | [] => inl ""
  | c :: cs =>
      match fs !! Path c with
      | None => inr (CIndex c)
      | Some x => match assemble fs cs with inl rest => inl (x +:+ rest) | inr i => inr i end
      end
  end.

Definition downloadChunked (d : ParallelDownloader) (srv : Server) (fs : Files) (destFile : string) (fileSize : Z) : Files * option DownloadErr :=
  let chunksDir := destFile +:+ ".chunks" in
  match build_chunks (chunk_fuel (ChunkSize d) fileSize) (ChunkSize d) fileSize chunksDir 0 0 with
  | None => (fs, Some Diverges)
  | Some chunks =>
      let (fs, failed) := download_all srv fs (toDownload fs chunks) in
      match failed with
      | _ :: _ => (fs, Some (ChunksFailed failed))
      | [] =>
          let tmpFile := destFile +:+ ".tmp" in
          match assemble fs chunks with
          | inr i => (delete tmpFile fs, Some (ChunkMissing i))
          | inl content => (RemoveAll (Rename (<[tmpFile := content]> fs) tmpFile destFile) chunksDir, None)
          end
      end
  end.

Definition downloadSimple (srv : Server) (fs : Files) (destFile : string) : Files * option DownloadErr :=
  match Get srv with
  | None => (fs, Some DownloadFailed)
  | Some resp =>
      if StatusCode resp !=? StatusOK then (fs, Some DownloadFailed)
      else
        let tmpFile := destFile +:+ ".tmp" in
        let fs := <[tmpFile := Body resp]> fs in
        if BodyErr resp then (delete tmpFile fs, Some DownloadFailed)
        else (Rename fs tmpFile destFile, None)
  end.

(** ** checksum.go *)

Definition VerifyFile (fs : Files) (filePath expectedSHA256 : string) : option DownloadErr :=
  match fs !! filePath with
  | None => Some CannotOpen
  | Some x => if sha256_hex x !=? ToLower expectedSHA256 then Some ChecksumMismatch else None
  end.

Definition ComputeSHA256 (fs : Files) (filePath : string) : option string := sha256_hex <$> fs !! filePath.

Record HFLFSInfo := mkLFS { SHA256 : string; LFSSize : Z; PointerSize : Z }.
Record HFFileInfo := mkHFFile { Filename : string; LFS : option HFLFSInfo; OID : string; HFSize : Z }.
Record HFModelInfo := mkHFModel { Siblings : list HFFileInfo }.

(** The checksums of a decoded answer: later entries of a name win. *)
Definition checksums_of (info : HFModelInfo) : gmap string string :=
  foldl (fun m sibling =>
    match LFS sibling with
    | Some lfs => if SHA256 lfs !=? "" then <[Filename sibling := ToLower (SHA256 lfs)]> m else m
    | None => m
    end) ∅ (Siblings info).

(** The answer of the API: failed, of another status, not decodable, or decoded. *)
Definition FetchFileChecksums (answer : option (Z * option HFModelInfo)) : option (gmap string string) :=
  '(status, decoded) ← answer;
  if status !=? StatusOK then None else checksums_of <$> decoded.

(** The files that fail, in the order of the traversal of the map. *)
Definition verify_each (fs : Files) (destDir : string) (checksums : list (string * string)) : list string :=
  omap (fun kv : string * string =>
    let absPath := path_Join destDir kv.1 in
    match fs !! absPath with
    | None => None
    | Some _ => match VerifyFile fs absPath kv.2 with Some _ => Some kv.1 | None => None end
    end) checksums.

Definition VerifyDirectory (fs : Files) (destDir : string) (checksums : gmap string string) : list string :=
  verify_each fs destDir (map_to_list checksums).

Definition DownloadFile (d : ParallelDownloader) (srv : Server) (fs : Files) (destFile expectedSHA256 : string) : Files * option DownloadErr :=
  match probeFile srv with
  | inr err => (fs, Some err)
  | inl (fileSize, supportsRange) =>
      let (fs, err) :=
        if (fileSize >=? LargeFileThreshold) && supportsRange then downloadChunked d srv fs destFile fileSize
        else downloadSimple srv fs destFile in
      match err with
      | Some err => (fs, Some err)
      | None =>
          if expectedSHA256 !=? "" then
            match VerifyFile fs destFile expectedSHA256 with
            | Some err => (delete destFile fs, Some err)
            | None => (fs, None)
            end
          else (fs, None)
      end
  end.

Example parse_examples :
  ParseInt "16" = Some 16 /\ ParseInt "-3" = Some (-3) /\ ParseInt "+3" = Some 3 /\ ParseInt "" = None /\ ParseInt "-" = None
  /\ ParseInt "1_0" = None /\ ParseInt "9223372036854775808" = None /\ chunk_name 7 = "chunk_00007" /\ chunk_name 123456 = "chunk_123456".
Proof. vm_compute. done. Qed.

(** ** The chunks *)

Lemma str_take_all n s : (String.length s <= n)%nat -> str_take n s = s.
Proof. revert s. induction n as [|n IH]; intros [|c s] H; simpl in *; [done|lia|done|]. f_equal. apply IH. lia. Qed.

Lemma str_take_length n s : String.length (str_take n s) = Nat.min n (String.length s).
Proof. revert s. induction n as [|n IH]; intros [|c s]; simpl; [done..|]. by rewrite IH. Qed.

Lemma str_drop_drop a b s : str_drop a (str_drop b s) = str_drop (b + a) s.
Proof. revert s. induction b as [|b IH]; intros s; [done|]. destruct s as [|c s]; [by destruct a|]. simpl. apply IH. Qed.

(** The number of chunks, and the chunk of an index. *)
Definition chunk_count (cs size : Z) : Z := (size + cs - 1) / cs.

Definition chunk_at (cs size : Z) (dir : string) (k : Z) : chunkDescriptor :=
  mkChunk k (k * cs) (Z.min ((k + 1) * cs - 1) (size - 1)) (dir +:+ "/" +:+ chunk_name k).

(** The loop builds them in order. *)
Lemma build_chunks_closed fuel cs size dir i :
  0 < cs -> 0 <= i -> 0 <= size -> size + cs <= 2 ^ 63 -> chunk_count cs size - i <= Z.of_nat fuel -> (i - 1) * cs < size ->
  build_chunks fuel cs size dir i (i * cs) = Some (chunk_at cs size dir <$> seqZ i (chunk_count cs size - i)).
Proof.
  revert i. induction fuel as [|fuel IH]; intros i Hcs Hi Hs Hb Hf Hn; cbn [build_chunks].
  - assert (size <= i * cs) as H.
    { unfold chunk_count in Hf. pose proof (Z.div_mod (size + cs - 1) cs ltac:(lia)). pose proof (Z.mod_pos_bound (size + cs - 1) cs Hcs). nia. }
    rewrite bool_decide_eq_false_2 by lia. rewrite seqZ_nil by lia. done.
  - case_bool_decide as Ho.
    + rewrite !i64_wrap_small by (unfold i64_range; nia).
      replace (i * cs + cs) with ((i + 1) * cs) by lia. rewrite IH by nia. cbn [mbind option_bind].
      assert (i < chunk_count cs size) as Hlt by (unfold chunk_count; apply Z.lt_le_trans with (i + 1); [lia|]; apply Z.div_le_lower_bound; lia).
      rewrite (seqZ_cons i) by lia. cbn [fmap list_fmap]. do 3 f_equal; [|f_equal; lia].
      unfold chunk_at. f_equal. case_bool_decide; nia.
    + assert (chunk_count cs size <= i) as H by (unfold chunk_count; apply Z.lt_succ_r, Z.div_lt_upper_bound; nia).
      by rewrite seqZ_nil by lia.
Qed.

Definition chunks_of (cs size : Z) (dir : string) : list chunkDescriptor := chunk_at cs size dir <$> seqZ 0 (chunk_count cs size).

Lemma chunk_loop_ends cs size dir :
  0 < cs -> 0 <= size -> size + cs <= 2 ^ 63 -> build_chunks (chunk_fuel cs size) cs size dir 0 0 = Some (chunks_of cs size dir).
Proof.
  intros Hcs Hs Hb. change 0 with (0 * cs) at 2. rewrite build_chunks_closed; [by rewrite Z.sub_0_r|try lia..].
  unfold chunk_fuel, chunk_count. assert (0 <= size / cs) by (apply Z.div_pos; lia).
  assert ((size + cs - 1) / cs <= size / cs + 1); [|lia]. rewrite <- (Z.div_add size 1 cs) by lia. apply Z.div_le_mono; lia.
Qed.

(** A chunk size of zero never ends, and the environment can ask for it. *)
Lemma zero_chunk_diverges fuel size dir i : 0 < size -> build_chunks fuel 0 size dir i 0 = None.
Proof.
  intros H. revert i. induction fuel as [|fuel IH]; intros i; cbn [build_chunks]; rewrite bool_decide_eq_true_2 by done; [done|].
  change (i64_wrap (0 + 0)) with 0. by rewrite IH.
Qed.

Example zero_chunk_configured : ChunkSize (NewParallelDownloader "" "17592186044416") = 0.
Proof. reflexivity. Qed.

(** ** Paths *)

Lemma pad_zeros_value n ds : digits_value 0 (str_take n "00000" +:+ ds) = digits_value 0 ds.
Proof. do 5 (destruct n as [|n]; [done|]; cbn [str_take]; change (String ?c ?s +:+ ?t) with (String c (s +:+ t)); cbn [digits_value]). by destruct n. Qed.

Lemma string_app_inj (p a b : string) : p +:+ a = p +:+ b -> a = b.
Proof. induction p as [|c p IH]; [done|]. intros [= H]. by apply IH. Qed.

Lemma chunk_name_inj i j : 0 <= i < 2 ^ 63 -> 0 <= j < 2 ^ 63 -> chunk_name i = chunk_name j -> i = j.
Proof.
  intros Hi Hj H. apply string_app_inj in H. apply (f_equal (digits_value 0)) in H. rewrite !pad_zeros_value in H.
  assert (forall z, 0 <= z < 2 ^ 63 -> digits_value 0 (Itoa z) = z) as E; [|by rewrite !E in H].
  intros z Hz. unfold Itoa, itoa_pos. rewrite bool_decide_false by lia. rewrite digits_fuel_value; [done|]. simpl. lia.
Qed.

Definition no_dot (s : string) : bool := str_forall (fun c => negb (bool_decide (c = "."%char))) s.

Lemma chunk_name_no_dot i : 0 <= i -> no_dot (chunk_name i) = true.
Proof.
  intros Hi. unfold chunk_name, no_dot. cbv zeta. rewrite !str_forall_app. apply andb_true_iff. split; [done|]. apply andb_true_iff. split.
  - generalize (5 - String.length (Itoa i))%nat. intros n. do 6 (destruct n as [|n]; [done|]). done.
  - eapply str_forall_impl; [|by apply Itoa_digits]. intros c Hc. apply negb_true_iff, bool_decide_eq_false. by intros ->.
Qed.

Lemma partial_not_chunk dir i j : 0 <= i -> 0 <= j -> (dir +:+ "/" +:+ chunk_name i) +:+ ".partial" <> dir +:+ "/" +:+ chunk_name j.
Proof.
  intros Hi Hj. rewrite <- string_app_assoc. intros H%string_app_inj.
  rewrite <- string_app_assoc in H. apply string_app_inj in H. pose proof (chunk_name_no_dot j Hj) as Hd. rewrite <- H in Hd.
  unfold no_dot in Hd. rewrite str_forall_app, andb_true_iff in Hd. by destruct Hd.
Qed.

(** ** A download of the content [F] *)

Section Download.

Context (F : string) (d : ParallelDownloader) (destFile : string).

Definition size : Z := Z.of_nat (String.length F).
Definition chunksDir : string := destFile +:+ ".chunks".
Definition tmpFile : string := destFile +:+ ".tmp".
Definition chunks : list chunkDescriptor := chunks_of (ChunkSize d) size chunksDir.

Definition piece (s e : Z) : string := str_take (Z.to_nat (e - s + 1)) (str_drop (Z.to_nat s) F).

(** The server sends the content of the ranges it serves completely. *)
Definition honest (srv : Server) : Prop :=
  forall s e resp, 0 <= s <= e -> e < size -> GetRange srv s e = Some resp ->
  StatusCode resp = StatusPartialContent \/ StatusCode resp = StatusOK -> BodyErr resp = false ->
  Z.of_nat (String.length (Body resp)) = e - s + 1 -> Body resp = piece s e.

(** The complete chunks on disk are pieces of the content. *)
Definition resumable (fs : Files) : Prop := forall c, c ∈ chunks -> complete fs c = true -> fs !! Path c = Some (piece (Start c) (End_ c)).

Hypothesis chunk_positive : 0 < ChunkSize d.
Hypothesis size_small : size + ChunkSize d <= 2 ^ 63.

Lemma count_bounds : 0 <= chunk_count (ChunkSize d) size < 2 ^ 63 + 1 /\ chunk_count (ChunkSize d) size <= size.
Proof.
  unfold chunk_count, size in *. set (n := Z.of_nat (String.length F)) in *. assert (0 <= n) by lia.
  assert (0 <= (n + ChunkSize d - 1) / ChunkSize d) by (apply Z.div_pos; lia).
  assert ((n + ChunkSize d - 1) / ChunkSize d <= n); [|lia].
  destruct (decide (n = 0)) as [->|]; [rewrite Z.div_small; lia|]. apply Z.div_le_upper_bound; [lia|]. nia.
Qed.

Lemma chunk_in c :
  c ∈ chunks ->
  exists k, c = chunk_at (ChunkSize d) size chunksDir k /\ 0 <= k < 2 ^ 63 /\ 0 <= Start c <= End_ c /\ End_ c < size.
Proof.
  unfold chunks, chunks_of. rewrite list_elem_of_fmap. intros (k & -> & Hk%elem_of_seqZ). exists k. pose proof count_bounds as [_ Hc].
  split; [done|]. split; [lia|]. simpl. assert (k * ChunkSize d < size); [|nia].
  rewrite Z.add_0_l in Hk. destruct Hk as [H0 Hk]. unfold chunk_count in Hk.
  pose proof (Z.mul_div_le (size + ChunkSize d - 1) (ChunkSize d) chunk_positive). nia.
Qed.

Lemma chunk_paths_distinct c c' : c ∈ chunks -> c' ∈ chunks -> Path c = Path c' -> c = c'.
Proof.
  intros (k & -> & Hk & _)%chunk_in (k' & -> & Hk' & _)%chunk_in H. simpl in H.
  do 2 apply string_app_inj in H. by rewrite (chunk_name_inj k k' Hk Hk' H).
Qed.

Lemma chunk_partial_distinct c c' : c ∈ chunks -> c' ∈ chunks -> Path c +:+ ".partial" <> Path c'.
Proof. intros (k & -> & Hk & _)%chunk_in (k' & -> & Hk' & _)%chunk_in. apply partial_not_chunk; lia. Qed.

(** *** One chunk *)

(** The outcome does not depend on the files. *)
Lemma download_chunk_cases srv c :
  (exists body, (forall fs, downloadChunk srv fs c = (<[Path c := body]> (delete (Path c +:+ ".partial") fs), true))
     /\ Z.of_nat (String.length body) = expectedSize c
     /\ exists resp, GetRange srv (Start c) (End_ c) = Some resp /\ Body resp = body /\ BodyErr resp = false
        /\ (StatusCode resp = StatusPartialContent \/ StatusCode resp = StatusOK))
  \/ (forall fs, downloadChunk srv fs c = (fs, false))
  \/ (forall fs, downloadChunk srv fs c = (delete (Path c +:+ ".partial") fs, false)).
Proof.
  unfold downloadChunk. destruct (GetRange srv (Start c) (End_ c)) as [resp|]; [|auto].
  destruct ((StatusCode resp !=? _) && _) eqn:Es; [auto|]. cbv zeta.
  destruct (BodyErr resp) eqn:Eb; [right; right; intros fs; by rewrite delete_insert_eq|].
  destruct (_ !=? expectedSize c) eqn:El; [right; right; intros fs; by rewrite delete_insert_eq|].
  rewrite negb_false_iff, bool_decide_eq_true in El. left. exists (Body resp). split.
  - intros fs. unfold Rename. by rewrite lookup_insert_eq, delete_insert_eq.
  - split; [done|]. exists resp. split_and!; try done.
    rewrite andb_false_iff, !negb_false_iff, !bool_decide_eq_true in Es. done.
Qed.

Lemma downloadChunk_frame srv fs c p :
  p <> Path c -> p <> Path c +:+ ".partial" -> (downloadChunk srv fs c).1 !! p = fs !! p.
Proof.
  intros H1 H2. destruct (download_chunk_cases srv c) as [(body & E & _)|[E|E]]; rewrite E; cbn [fst];
    rewrite ?lookup_insert_ne, ?lookup_delete_ne by done; done.
Qed.

(** A chunk that fails leaves its file as it was; one that succeeds is
    complete, and right when the server is honest. *)
Lemma downloadChunk_own srv fs c :
  c ∈ chunks ->
  if (downloadChunk srv fs c).2
  then complete (downloadChunk srv fs c).1 c = true
       /\ (honest srv -> (downloadChunk srv fs c).1 !! Path c = Some (piece (Start c) (End_ c)))
  else (downloadChunk srv fs c).1 !! Path c = fs !! Path c.
Proof.
  intros Hc. pose proof (chunk_partial_distinct c c Hc Hc) as Hp.
  destruct (download_chunk_cases srv c) as [(body & E & Hlen & resp & Hr & <- & Hb & Hst)|[E|E]]; rewrite E; cbn [fst snd];
    [|done|by rewrite lookup_delete_ne].
  unfold complete. rewrite lookup_insert_eq. split; [by apply bool_decide_eq_true|]. intros Hh.
  destruct (chunk_in c Hc) as (k & _ & _ & H1 & H2). f_equal. by apply (Hh (Start c) (End_ c) resp).
Qed.

Lemma downloadChunk_keeps srv fs c c' :
  c ∈ chunks -> c' ∈ chunks -> complete fs c' = true -> complete (downloadChunk srv fs c).1 c' = true.
Proof.
  intros Hc Hc' H. destruct (decide (c' = c)) as [->|Hne].
  - pose proof (downloadChunk_own srv fs c Hc) as Ho. destruct (downloadChunk srv fs c) as [fs' [|]]; simpl in *; [by destruct Ho|].
    unfold complete in *. by rewrite Ho.
  - unfold complete in *. rewrite downloadChunk_frame; [done| |].
    + intros E. by apply Hne, chunk_paths_distinct.
    + intros E. by destruct (chunk_partial_distinct c c' Hc Hc').
Qed.

Lemma downloadChunk_resumable srv fs c : honest srv -> c ∈ chunks -> resumable fs -> resumable (downloadChunk srv fs c).1.
Proof.
  intros Hh Hc Hr c' Hc' Hcomp. destruct (decide (c' = c)) as [->|Hne].
  - pose proof (downloadChunk_own srv fs c Hc) as Ho. destruct (downloadChunk srv fs c) as [fs' [|]]; simpl in *; [by apply Ho|].
    rewrite Ho. apply Hr; [done|]. unfold complete in *. by rewrite <- Ho.
  - assert ((downloadChunk srv fs c).1 !! Path c' = fs !! Path c') as E.
    { apply downloadChunk_frame; [intros E; by apply Hne, chunk_paths_distinct|]. intros E. by destruct (chunk_partial_distinct c c' Hc Hc'). }
    rewrite E. apply Hr; [done|]. unfold complete in *. by rewrite <- E.
Qed.

(** *** All chunks *)

Lemma download_all_spec srv fs cs :
  (forall c, c ∈ cs -> c ∈ chunks) ->
  let r := download_all srv fs cs in
  (forall c, c ∈ chunks -> complete fs c = true -> complete r.1 c = true)
  /\ (honest srv -> resumable fs -> resumable r.1)
  /\ (r.2 = [] -> forall c, c ∈ cs -> complete r.1 c = true)
  /\ (forall p, (forall c, c ∈ cs -> p <> Path c /\ p <> Path c +:+ ".partial") -> r.1 !! p = fs !! p).
Proof.
  revert fs. induction cs as [|c cs IH]; intros fs Hin; cbn [download_all].
  { split_and!; try done. intros _ c Hc. by apply not_elem_of_nil in Hc. }
  assert (c ∈ chunks) as Hc by (apply Hin; by left).
  pose proof (downloadChunk_own srv fs c Hc) as Ho. pose proof (downloadChunk_keeps srv fs c) as Hk.
  pose proof (downloadChunk_resumable srv fs c) as Hr. pose proof (downloadChunk_frame srv fs c) as Hf.
  destruct (downloadChunk srv fs c) as [fs1 ok]. cbn [fst snd] in *.
  specialize (IH fs1 ltac:(intros; apply Hin; by right)). destruct (download_all srv fs1 cs) as [fs2 failed]. cbn [fst snd] in *.
  destruct IH as (I1 & I2 & I3 & I4). split_and!.
  - intros c' Hc' H. by apply I1, Hk.
  - intros Hh Hv. by apply I2, Hr.
  - destruct ok; [|done]. intros -> c' [->|Hc']%elem_of_cons; [by apply I1, Ho|by apply I3].
  - intros p Hp. rewrite I4 by (intros; apply Hp; by right). destruct (Hp c) as [? ?]; [by left|]. by apply Hf.
Qed.

(** *** Assembling *)

Lemma piece_app s e : 0 <= s <= e -> piece s e +:+ str_drop (Z.to_nat (e + 1)) F = str_drop (Z.to_nat s) F.
Proof.
  intros H. unfold piece. rewrite <- (str_take_drop (Z.to_nat (e - s + 1)) (str_drop (Z.to_nat s) F)) at 2. f_equal.
  rewrite str_drop_drop. f_equal. lia.
Qed.

Lemma piece_length s e : 0 <= s <= e -> e < size -> Z.of_nat (String.length (piece s e)) = e - s + 1.
Proof. unfold size, piece. intros. rewrite str_take_length, str_drop_length. lia. Qed.

Lemma str_drop_all n s : (String.length s <= n)%nat -> str_drop n s = "".
Proof. revert s. induction n as [|n IH]; intros [|c s] H; simpl in *; [done|lia|done|]. apply IH. lia. Qed.

(** The pieces of the chunks from [k] on are the rest of the content. *)
Lemma assemble_from fs n k :
  (forall c, c ∈ chunks -> complete fs c = true) -> resumable fs -> 0 <= k -> n = Z.to_nat (chunk_count (ChunkSize d) size - k) ->
  assemble fs (chunk_at (ChunkSize d) size chunksDir <$> seqZ k (chunk_count (ChunkSize d) size - k)) = inl (str_drop (Z.to_nat (k * ChunkSize d)) F).
Proof.
  intros Hall Hr. revert k. induction n as [|n IH]; intros k Hk Hn.
  - rewrite seqZ_nil by lia. cbn. f_equal. symmetry. apply str_drop_all.
    unfold chunk_count in Hn. pose proof (Z.div_mod (size + ChunkSize d - 1) (ChunkSize d) ltac:(lia)).
    pose proof (Z.mod_pos_bound (size + ChunkSize d - 1) (ChunkSize d) chunk_positive). unfold size in *. nia.
  - assert (chunk_at (ChunkSize d) size chunksDir k ∈ chunks) as Hin.
    { unfold chunks, chunks_of. apply list_elem_of_fmap_2, elem_of_seqZ. lia. }
    rewrite (seqZ_cons k) by lia. cbn [fmap list_fmap assemble]. rewrite (Hr _ Hin (Hall _ Hin)).
    replace (Z.pred (chunk_count (ChunkSize d) size - k)) with (chunk_count (ChunkSize d) size - Z.succ k) by lia.
    rewrite IH by lia. f_equal. destruct (chunk_in _ Hin) as (_ & _ & _ & H1 & H2).
    rewrite <- (piece_app (k * ChunkSize d) (End_ (chunk_at (ChunkSize d) size chunksDir k))) by done.
    apply (f_equal (String.append _)). cbn [End_ chunk_at]. destruct (Z.min_spec ((k + 1) * ChunkSize d - 1) (size - 1)) as [[Hm ->]|[Hm ->]]; [f_equal; nia|].
    rewrite !str_drop_all; [done|unfold size in *; nia..].
Qed.

Lemma assemble_all fs : (forall c, c ∈ chunks -> complete fs c = true) -> resumable fs -> assemble fs chunks = inl F.
Proof. intros H1 H2. pose proof (assemble_from fs _ 0 H1 H2 ltac:(lia) eq_refl) as E. by rewrite Z.sub_0_r in E. Qed.

(** *** Paths of the result *)

Lemma app_longer (a b : string) : b <> "" -> a +:+ b <> a.
Proof. intros Hb H. apply (f_equal String.length) in H. rewrite str_length_app in H. destruct b; [done|simpl in H; lia]. Qed.

Lemma dest_not_under : under chunksDir destFile = false.
Proof.
  unfold under, chunksDir. apply orb_false_iff. split.
  - apply bool_decide_eq_false. intros H. symmetry in H. by apply app_longer in H.
  - destruct (HasPrefix _ _) eqn:E; [|done]. apply prefix_app in E as [r E]. apply (f_equal String.length) in E.
    rewrite !str_length_app in E. simpl in E. lia.
Qed.

Lemma chunk_under c : c ∈ chunks -> under chunksDir (Path c) = true /\ under chunksDir (Path c +:+ ".partial") = true.
Proof.
  intros (k & -> & _)%chunk_in. unfold under. cbn [Path chunk_at]. rewrite <- !string_app_assoc, !(string_app_assoc chunksDir "/"), !HasPrefix_app.
  by rewrite !orb_true_r.
Qed.

Lemma tmp_not_under : under chunksDir tmpFile = false.
Proof.
  unfold under, chunksDir, tmpFile. apply orb_false_iff. split; [apply bool_decide_eq_false; intros H%string_app_inj; done|].
  destruct (HasPrefix _ _) eqn:E; [|done]. apply prefix_app in E as [r E]. rewrite <- !string_app_assoc in E. by apply string_app_inj in E.
Qed.

Lemma removed_lookup (fs : Files) p : RemoveAll fs chunksDir !! p = if under chunksDir p then None else fs !! p.
Proof.
  unfold RemoveAll. destruct (under chunksDir p) eqn:E.
  - apply map_lookup_filter_None. right. intros x _. simpl. by rewrite E.
  - destruct (fs !! p) as [x|] eqn:Ef; [by apply map_lookup_filter_Some|]. apply map_lookup_filter_None. by left.
Qed.

(** *** The whole download *)

Lemma to_download_in fs c : c ∈ toDownload fs chunks -> c ∈ chunks.
Proof. unfold toDownload. by intros [_ ?]%list_elem_of_filter. Qed.

(** The chunked download of a file of this size. *)
Definition attempt (srv : Server) (fs : Files) : Files * option DownloadErr := downloadChunked d srv fs destFile size.

Lemma attempt_unfold srv fs :
  attempt srv fs =
  let r := download_all srv fs (toDownload fs chunks) in
  match r.2 with
  | _ :: _ => (r.1, Some (ChunksFailed r.2))
  | [] =>
      match assemble r.1 chunks with
      | inr i => (delete tmpFile r.1, Some (ChunkMissing i))
      | inl content => (RemoveAll (Rename (<[tmpFile := content]> r.1) tmpFile destFile) chunksDir, None)
      end
  end.
Proof.
  unfold attempt, downloadChunked. fold chunksDir tmpFile. rewrite chunk_loop_ends by (done || unfold size; lia). fold chunks. cbv zeta.
  by destruct (download_all srv fs (toDownload fs chunks)) as [fs' [|]].
Qed.

Lemma all_complete srv fs :
  (download_all srv fs (toDownload fs chunks)).2 = [] ->
  forall c, c ∈ chunks -> complete (download_all srv fs (toDownload fs chunks)).1 c = true.
Proof.
  intros H c Hc. destruct (download_all_spec srv fs (toDownload fs chunks) (to_download_in fs)) as (I1 & _ & I3 & _).
  destruct (complete fs c) eqn:E; [by apply I1|]. apply I3; [done|]. unfold toDownload. apply list_elem_of_filter. done.
Qed.

Lemma attempt_spec srv fs :
  honest srv -> resumable fs ->
  resumable (attempt srv fs).1
  /\ (attempt srv fs).1 !! destFile = match (attempt srv fs).2 with None => Some F | Some _ => fs !! destFile end.
Proof.
  intros Hh Hr. rewrite attempt_unfold. cbv zeta.
  destruct (download_all_spec srv fs (toDownload fs chunks) (to_download_in fs)) as (_ & I2 & _ & I4).
  pose proof (all_complete srv fs) as Hall. specialize (I2 Hh Hr).
  assert ((download_all srv fs (toDownload fs chunks)).1 !! destFile = fs !! destFile) as Hdest.
  { apply I4. intros c Hc%to_download_in. destruct (chunk_under c Hc) as [U1 U2]. pose proof dest_not_under. split; intros E; congruence. }
  destruct (download_all srv fs (toDownload fs chunks)) as [fs1 failed]. cbn [fst snd] in *.
  destruct failed as [|i failed]; [|done]. rewrite assemble_all by auto. cbn [fst snd]. split.
  - intros c Hc Hcomp. destruct (chunk_under c Hc) as [U _]. unfold complete in Hcomp. by rewrite removed_lookup, U in Hcomp.
  - rewrite removed_lookup, dest_not_under. unfold Rename. by rewrite lookup_insert_eq, lookup_insert_eq.
Qed.

(** A server that serves every range. *)
Definition serving (srv : Server) : Prop :=
  forall s e, 0 <= s <= e -> e < size ->
  exists resp, GetRange srv s e = Some resp /\ StatusCode resp = StatusPartialContent /\ BodyErr resp = false /\ Body resp = piece s e.

Lemma serving_honest srv : serving srv -> honest srv.
Proof. intros Hs s e resp H1 H2 Hr _ _ _. destruct (Hs s e H1 H2) as (resp' & E & _ & _ & Hb). congruence. Qed.

Lemma serving_succeeds srv fs cs : serving srv -> (forall c, c ∈ cs -> c ∈ chunks) -> (download_all srv fs cs).2 = [].
Proof.
  intros Hs. revert fs. induction cs as [|c cs IH]; intros fs Hin; [done|]. cbn [download_all].
  assert (c ∈ chunks) as Hc by (apply Hin; by left). destruct (chunk_in c Hc) as (_ & _ & _ & H1 & H2).
  destruct (Hs _ _ H1 H2) as (resp & E & Hst & Hb & Hp).
  assert ((downloadChunk srv fs c).2 = true) as Hok.
  { unfold downloadChunk. rewrite E, Hst, Hb, Hp. change (StatusPartialContent !=? StatusPartialContent) with false. cbn [andb].
    rewrite piece_length by done. unfold expectedSize. by rewrite (bool_decide_eq_true_2 (_ = _)). }
  destruct (downloadChunk srv fs c) as [fs1 ok]. simpl in Hok. subst ok.
  specialize (IH fs1 ltac:(intros; apply Hin; by right)). by destruct (download_all srv fs1 cs).
Qed.

Lemma serving_attempt srv fs : serving srv -> resumable fs -> (attempt srv fs).2 = None.
Proof.
  intros Hs Hr. rewrite attempt_unfold. cbv zeta. pose proof (serving_succeeds srv fs _ Hs (to_download_in fs)) as E. rewrite E.
  destruct (download_all_spec srv fs (toDownload fs chunks) (to_download_in fs)) as (_ & I2 & _).
  by rewrite assemble_all by auto using all_complete, serving_honest.
Qed.

(** The files after a history of attempts. *)
Definition attempts (history : list Server) (fs : Files) : Files := foldl (fun fs srv => (attempt srv fs).1) fs history.

Lemma attempts_resumable history fs : Forall honest history -> resumable fs -> resumable (attempts history fs).
Proof.
  intros H. revert fs. induction H as [|srv history Hh _ IH]; intros fs Hr; [done|]. apply IH. by apply attempt_spec.
Qed.

(** Whatever attempts went before, interrupted anywhere and resumed, against
    servers that send the content of the ranges they serve completely: an
    attempt that reports success has the whole content at the destination, an
    attempt that fails leaves the destination as it was, and an attempt against
    a server that serves every range succeeds. *)
Theorem resume_sound history fs srv :
  resumable fs -> Forall honest history ->
  (honest srv -> (attempt srv (attempts history fs)).1 !! destFile
     = match (attempt srv (attempts history fs)).2 with None => Some F | Some _ => attempts history fs !! destFile end)
  /\ (serving srv -> (attempt srv (attempts history fs)).2 = None).
Proof.
  intros Hr Hh. pose proof (attempts_resumable history fs Hh Hr) as Hr'. split; intros Hs.
  - by apply attempt_spec.
  - by apply serving_attempt.
Qed.

(** *** The order of the workers does not matter *)

Lemma downloadChunk_comm srv fs c c' :
  c ∈ chunks -> c' ∈ chunks -> c <> c' ->
  (downloadChunk srv (downloadChunk srv fs c).1 c').1 = (downloadChunk srv (downloadChunk srv fs c').1 c).1.
Proof.
  intros Hc Hc' Hne.
  assert (Path c <> Path c') as H1 by (intros E; by apply Hne, chunk_paths_distinct).
  assert (Path c +:+ ".partial" <> Path c') as H2 by by apply chunk_partial_distinct.
  assert (Path c' +:+ ".partial" <> Path c) as H3 by by apply chunk_partial_distinct.
  destruct (download_chunk_cases srv c) as [(b & E & _)|[E|E]], (download_chunk_cases srv c') as [(b' & E' & _)|[E'|E']];
    rewrite ?E, ?E'; cbn [fst]; rewrite ?E, ?E'; cbn [fst]; try done.
  - rewrite !delete_insert_ne by done. rewrite insert_insert_ne by done. by rewrite delete_delete.
  - rewrite delete_insert_ne by done. by rewrite delete_delete.
  - rewrite delete_insert_ne by done. by rewrite delete_delete.
  - by rewrite delete_delete.
Qed.

Lemma download_all_files srv fs cs : (download_all srv fs cs).1 = foldl (fun fs c => (downloadChunk srv fs c).1) fs cs.
Proof.
  revert fs. induction cs as [|c cs IH]; intros fs; [done|]. cbn [download_all foldl]. destruct (downloadChunk srv fs c) as [fs1 ok]. cbn [fst].
  rewrite <- IH. by destruct (download_all srv fs1 cs).
Qed.

Lemma download_order srv fs cs cs' :
  (forall c, c ∈ cs -> c ∈ chunks) -> NoDup cs -> cs ≡ₚ cs' -> (download_all srv fs cs).1 = (download_all srv fs cs').1.
Proof.
  intros Hin Hnd Hp. rewrite !download_all_files. revert fs Hin Hnd.
  induction Hp as [|c cs cs' _ IH|c c' cs|cs cs1 cs' Hp1 IH1 Hp2 IH2]; intros fs Hin Hnd; cbn [foldl]; [done| | |].
  - apply NoDup_cons in Hnd as [_ Hnd]. apply IH; [intros; apply Hin; by right|done].
  - apply NoDup_cons in Hnd as [Hn _]. f_equal. apply downloadChunk_comm; [apply Hin; set_solver..|set_solver].
  - rewrite IH1 by done. apply IH2; [intros c Hc; apply Hin; by rewrite Hp1|by rewrite <- Hp1].
Qed.

End Download.

(** ** Checksums *)

(** With an expected checksum a download that reports success left a file
    with that SHA-256 at the destination, whatever the server sent, and a file
    with another checksum does not stay there. *)
Theorem verified_download d srv fs destFile expected :
  expected <> "" ->
  ((DownloadFile d srv fs destFile expected).2 = None ->
   exists x, (DownloadFile d srv fs destFile expected).1 !! destFile = Some x /\ sha256_hex x = ToLower expected)
  /\ ((DownloadFile d srv fs destFile expected).2 = Some ChecksumMismatch -> (DownloadFile d srv fs destFile expected).1 !! destFile = None).
Proof.
  intros He. unfold DownloadFile. destruct (probeFile srv) as [[n r]|err] eqn:Ep; [|split; [done|]; unfold probeFile in Ep; by repeat case_match; simplify_eq].
  match goal with |- context [let (_, _) := ?x in _] => assert (x.2 <> Some ChecksumMismatch) as Hx; [|destruct x as [fs1 [err|]]; [split; [done|]; cbn [fst snd] in *; congruence|]] end.
  { destruct (_ && _).
    - unfold downloadChunked. repeat case_match; done.
    - unfold downloadSimple. repeat case_match; done. }
  rewrite (bool_decide_eq_false_2 (expected = "")) by done. cbn [negb]. unfold VerifyFile.
  destruct (fs1 !! destFile) as [x|] eqn:E; cbn [fst snd]; [|done].
  case_bool_decide as Hs; cbn [negb fst snd]; [split; [|done]; eauto|]. split; [done|]. intros _. apply lookup_delete_eq.
Qed.

Lemma verify_directory_iff fs destDir checksums :
  VerifyDirectory fs destDir checksums = [] <->
  forall name sum x, checksums !! name = Some sum -> fs !! path_Join destDir name = Some x -> sha256_hex x = ToLower sum.
Proof.
  unfold VerifyDirectory, verify_each. split.
  - intros H name sum x Hs Hx. apply elem_of_map_to_list in Hs. destruct (decide (sha256_hex x = ToLower sum)) as [|Hne]; [done|exfalso].
    assert (name ∈ ([] : list string)) as Hn; [|by apply not_elem_of_nil in Hn]. rewrite <- H. apply list_elem_of_omap. exists (name, sum).
    split; [done|]. cbn [fst snd]. rewrite Hx. unfold VerifyFile. rewrite Hx. by rewrite bool_decide_eq_false_2.
  - intros H. apply elem_of_nil_inv. intros name Hn. apply list_elem_of_omap in Hn as ([k sum] & Hin & Hv). cbn [fst snd] in Hv.
    apply elem_of_map_to_list in Hin. destruct (fs !! path_Join destDir k) as [x|] eqn:E; [|done].
    unfold VerifyFile in Hv. rewrite E in Hv. by rewrite bool_decide_eq_true_2 in Hv by (by eapply H).
Qed.

(** ** Witnesses *)

Definition w_loader := mkDownloader 2 4.

(** Serves the pieces of [F] up to the offset [n], and fails after. *)
Definition w_server (F : string) (n : Z) : Server :=
  mkServer None None (fun s e => if e <? n then Some (mkResponse 206 0 "" (piece F s e) false) else None).

Lemma w_honest F n : honest F (w_server F n).
Proof. intros s e resp _ _. simpl. case_bool_decide; [|done]. by intros [= <-]. Qed.

(** Interrupted after the first chunk, then resumed. *)
Lemma resume_sound_witness :
  let fs := attempts "abcdef" w_loader "/m" [w_server "abcdef" 5] ∅ in
  fs = <["/m.chunks/chunk_00000" := "abcd"]> ∅
  /\ (attempt "abcdef" w_loader "/m" (w_server "abcdef" 6) fs).2 = None
  /\ (attempt "abcdef" w_loader "/m" (w_server "abcdef" 6) fs).1 !! "/m" = Some "abcdef".
Proof.
  intros fs. split; [vm_compute; reflexivity|].
  destruct (resume_sound "abcdef" w_loader "/m" ltac:(done) ltac:(vm_compute; congruence) [w_server "abcdef" 5] ∅ (w_server "abcdef" 6)) as [H1 H2].
  - intros c _ H. discriminate H.
  - constructor; [apply w_honest|constructor].
  - fold fs in H1, H2. assert (serving "abcdef" (w_server "abcdef" 6)) as Hs.
    { intros s e _ He. exists (mkResponse 206 0 "" (piece "abcdef" s e) false). split; [|repeat split]. cbn [GetRange w_server].
      rewrite bool_decide_eq_true_2; [reflexivity|exact He]. }
    specialize (H2 Hs). split; [exact H2|]. rewrite (H1 (w_honest _ _)), H2. reflexivity.
Defined.

Lemma verified_download_witness :
  let srv := mkServer (Some (mkResponse 200 3 "none" "" false)) (Some (mkResponse 200 3 "" "abc" false)) (fun _ _ => None) in
  exists x, (DownloadFile w_loader srv ∅ "/m" "BA7816BF8F01CFEA414140DE5DAE2223B00361A396177A9CB410FF61F20015AD").1 !! "/m" = Some x
  /\ sha256_hex x = "ba7816bf8f01cfea414140de5dae2223b00361a396177a9cb410ff61f20015ad".
Proof.
  intros srv. apply (verified_download w_loader srv ∅ "/m" "BA7816BF8F01CFEA414140DE5DAE2223B00361A396177A9CB410FF61F20015AD"); [done|].
  vm_compute. reflexivity.
Defined.

(** Without a checksum a chunk left over from another version of the file is
    taken over by its size. *)
Example stale_chunk_assembled :
  attempt "abcdef" w_loader "/m" (w_server "abcdef" 6) (<["/m.chunks/chunk_00000" := "WXYZ"]> ∅)
  = (<["/m" := "WXYZef"]> ∅, None).
Proof. vm_compute. reflexivity. Qed.
