(* ===== verification/OCIReference.v ===== *)
(** * References to OCI artifacts

    [internal/storage/oci_client.go] and [modelpack_client.go]: how URIs are
    taken apart, how they are rewritten in an air-gapped cluster, and which
    credentials and transport a registry gets.  The process environment, the
    file system and the JSON decoder are arguments; the transfers themselves
    are calls of the ORAS and modctl libraries. *)

From S2P Require Import Prelude GoStrings GoFilepath.
From Stdlib Require Import Ascii.

(** [strings.Index(s, sep)] and the parts around it. *)
Definition cut (s sep : string) : option (string * string) :=
  i ← Index s sep; Some (str_take i s, str_drop (i + String.length sep) s).

(** The parts around the last occurrence of a byte ([strings.LastIndex]). *)
Fixpoint cut_last (c : ascii) (s : string) : option (string * string) :=
  match s with
  | EmptyString => None
  | String d s =>
      match cut_last c s with
      | Some (a, b) => Some (String d a, b)
      | None => if d ==? c then Some ("", s) else None
      end
  end.

Definition HasOCIScheme (uri : string) : bool := HasPrefix uri "oci://" || HasPrefix uri "ocis://".

Definition TrimOCIScheme (uri : string) : string :=
  if HasPrefix uri "ocis://" then TrimPrefix uri "ocis://" else TrimPrefix uri "oci://".

Record ModelArtifact := mkArtifact { RawURI : string; Registry : string; Repository : string; Reference : string; Digest : string }.

(** The part of [ParseOCIURI] and [ParseModelpackURI] after the scheme. *)
Definition parse_reference (uri ref : string) : option ModelArtifact :=
  '(registry, repoRef) ← cut ref "/";
  Some match cut repoRef "@" with
       | Some (repo, digest) => mkArtifact uri registry repo digest digest
       | None =>
           match cut_last ":"%char repoRef with
           | Some (repo, tag) => mkArtifact uri registry repo tag ""
           | None => mkArtifact uri registry repoRef "latest" ""
           end
       end.

Definition ParseOCIURI (uri : string) : option ModelArtifact :=
  if HasOCIScheme uri then parse_reference uri (TrimOCIScheme uri) else None.

Definition ParseModelpackURI (uri : string) : option ModelArtifact :=
  if HasPrefix uri "modelpack://" then parse_reference uri (TrimPrefix uri "modelpack://") else None.

(** The target [pullInternal] of the modelpack client asks for, when the
    artifact has a reference. *)
Definition modelpack_target (a : ModelArtifact) : option string :=
  if Reference a ==? "" then None
  else if Digest a !=? "" then Some (Registry a +:+ "/" +:+ Repository a +:+ "@" +:+ Digest a)
  else Some (Registry a +:+ "/" +:+ Repository a +:+ ":" +:+ Reference a).

Definition ResolveAirGappedURI (uri localRegistry : string) : string :=
  if localRegistry ==? "" then uri
  else if HasPrefix uri "hf://" then "oci://" +:+ localRegistry +:+ "/hf/" +:+ TrimPrefix uri "hf://"
  else if HasOCIScheme uri then
    let ref := TrimOCIScheme uri in
    let scheme := if HasPrefix uri "ocis://" then "ocis://" else "oci://" in
    if negb (HasPrefix ref localRegistry) then scheme +:+ localRegistry +:+ "/" +:+ ref else uri
  else uri.

(** ** Credentials *)

Record RegistryAuthConfig := mkRegistryAuth { SecretRef : string; raUsername : string; raPassword : string }.
Record DockerAuthEntry := mkDockerAuth { daUsername : string; daPassword : string; daAuth : string }.
Definition DockerConfig : Type := gmap string DockerAuthEntry.

Inductive Credential := Anonymous | Login (username password : string).

Section Credentials.

(** The variables of the environment ([""] when not set), the home directory,
    the files and the decoder of the Docker configuration. *)
Context (getenv : string -> string) (home : string) (read_file : string -> option string) (decode : string -> option DockerConfig).

Definition loadDockerCredential (configPath registryHost : string) : option Credential :=
  data ← read_file configPath;
  cfg ← decode data;
  entry ← match cfg !! registryHost with Some e => Some e | None => cfg !! ("https://" +:+ registryHost) end;
  if daUsername entry !=? "" then Some (Login (daUsername entry) (daPassword entry)) else None.

Definition docker_config_path : string :=
  if getenv "DOCKER_CONFIG" ==? "" then (if home !=? "" then path_Join (path_Join home ".docker") "config.json" else "")
  else path_Join (getenv "DOCKER_CONFIG") "config.json".

Definition resolveCredentials (registryAuth : gmap string RegistryAuthConfig) (registryHost : string) : Credential :=
  let explicit := cfg ← registryAuth !! registryHost;
                  if raUsername cfg !=? "" then Some (Login (raUsername cfg) (raPassword cfg)) else None in
  match explicit with
  | Some c => c
  | None =>
      let user := getenv "OCI_REGISTRY_USERNAME" in
      if user !=? "" then Login user (getenv "OCI_REGISTRY_PASSWORD")
      else if docker_config_path !=? "" then default Anonymous (loadDockerCredential docker_config_path registryHost)
      else Anonymous
  end.

Definition isInsecureRegistry (host : string) : bool :=
  HasPrefix host "localhost" || HasPrefix host "127.0.0.1"
  || (getenv "OCI_INSECURE" ==? "1") || (getenv "OCI_INSECURE" ==? "true").

End Credentials.

(** ** Taking references apart *)

Lemma cut_first c a r : free_of c a = true -> cut (a +:+ String c "" +:+ r) (String c "") = Some (a, r).
Proof.
  intros Ha. change (String c "" +:+ r) with (String c r). unfold cut. rewrite Index_first by done. cbn [mbind option_bind String.length]. rewrite str_take_app.
  replace (a +:+ String c r) with ((a +:+ String c "") +:+ r) by (by rewrite <- string_app_assoc).
  replace (String.length a + 1)%nat with (String.length (a +:+ String c "")) by by rewrite str_length_app.
  by rewrite str_drop_app.
Qed.

Lemma cut_absent c s : free_of c s = true -> cut s (String c "") = None.
Proof. intros Hs. unfold cut. by rewrite Index_absent. Qed.

Lemma cut_last_absent c s : free_of c s = true -> cut_last c s = None.
Proof.
  induction s as [|d s IH]; [done|]. unfold free_of. cbn [str_forall]. intros [Hd Hs]%andb_true_iff. cbn [cut_last].
  rewrite IH by done. apply negb_true_iff in Hd. by rewrite Hd.
Qed.

Lemma cut_last_app c a r : free_of c r = true -> cut_last c (a +:+ String c "" +:+ r) = Some (a, r).
Proof.
  intros Hr. change (String c "" +:+ r) with (String c r). induction a as [|d a IH].
  - change ("" +:+ String c r) with (String c r). cbn [cut_last]. rewrite cut_last_absent by done. by rewrite bool_decide_true.
  - change (String d a +:+ String c r) with (String d (a +:+ String c r)). cbn [cut_last]. by rewrite IH.
Qed.

Lemma TrimOCI_oci ref : HasOCIScheme ("oci://" +:+ ref) = true /\ TrimOCIScheme ("oci://" +:+ ref) = ref.
Proof. unfold HasOCIScheme, TrimOCIScheme, TrimPrefix. rewrite HasPrefix_app. split; [done|]. apply (str_drop_app "oci://"). Qed.

Lemma TrimOCI_ocis ref : HasOCIScheme ("ocis://" +:+ ref) = true /\ TrimOCIScheme ("ocis://" +:+ ref) = ref.
Proof.
  unfold HasOCIScheme, TrimOCIScheme, TrimPrefix. rewrite !HasPrefix_app, orb_true_r. split; [done|]. apply (str_drop_app "ocis://").
Qed.

(** The registry of a reference is what stands before its first slash. *)
Lemma parse_registry uri ref a : parse_reference uri ref = Some a -> exists rest, cut ref "/" = Some (Registry a, rest).
Proof.
  unfold parse_reference. destruct (cut ref "/") as [[registry rest]|]; [|discriminate]. cbn [mbind option_bind].
  intros [= <-]. exists rest. destruct (cut rest "@") as [[]|]; [done|]. by destruct (cut_last _ rest) as [[]|].
Qed.

(** How an artifact is written: with its tag, or with its digest. *)
Definition tagged (registry repo tag : string) : string := registry +:+ "/" +:+ repo +:+ ":" +:+ tag.
Definition pinned (registry repo digest : string) : string := registry +:+ "/" +:+ repo +:+ "@" +:+ digest.

(** Printing a tagged or pinned artifact and parsing it again gives its parts
    back: the registry may have a port, the repository slashes, and the
    digest colons. *)
Lemma reference_roundtrip registry repo ref :
  free_of "/"%char registry = true -> free_of "@"%char repo = true ->
  (forall uri, parse_reference uri (pinned registry repo ref) = Some (mkArtifact uri registry repo ref ref))
  /\ (free_of "@"%char ref = true -> free_of ":"%char ref = true ->
      forall uri, parse_reference uri (tagged registry repo ref) = Some (mkArtifact uri registry repo ref "")).
Proof.
  intros Hg Hr. split; [intros uri|intros Ht Hc uri]; unfold parse_reference, pinned, tagged.
  - rewrite (cut_first "/"%char) by done. cbn [mbind option_bind]. by rewrite (cut_first "@"%char).
  - rewrite (cut_first "/"%char) by done. cbn [mbind option_bind]. rewrite (cut_absent "@"%char).
    + by rewrite (cut_last_app ":"%char).
    + unfold free_of in *. by rewrite str_forall_app, Hr.
Qed.

(** ** Air-gapped clusters *)

Lemma Index_none c s : Index s (String c "") = None -> free_of c s = true.
Proof.
  unfold free_of. induction s as [|d s IH]; [done|]. cbn [Index str_forall]. unfold HasPrefix. cbn [String.prefix].
  destruct (ascii_dec c d) as [<-|Hne]; [by destruct s|]. rewrite bool_decide_false by congruence. cbn.
  destruct (Index s (String c "")); [discriminate|]. done.
Qed.

Lemma Index_take_free c b i : Index b (String c "") = Some i -> free_of c (str_take i b) = true.
Proof.
  revert i. induction b as [|d b IH]; intros i; cbn [Index]; [by destruct i|].
  unfold HasPrefix. cbn [String.prefix]. destruct (ascii_dec c d) as [->|Hne]; [destruct b; intros [= <-]; done|].
  destruct (Index b (String c "")) as [j|]; [|discriminate]. intros [= <-]. cbn [str_take]. unfold free_of. cbn [str_forall].
  apply andb_true_iff. split; [|by apply (IH j)]. by rewrite bool_decide_false by congruence.
Qed.

(** What stands before the first occurrence, after a part without one. *)
Lemma cut_app c a b x y : free_of c a = true -> cut (a +:+ b) (String c "") = Some (x, y) -> exists suffix, x = a +:+ suffix.
Proof.
  intros Ha. destruct (Index b (String c "")) as [i|] eqn:Ei.
  - apply Index_split in Ei as Hb. cbn [String.length] in Hb. rewrite Hb.
    rewrite string_app_assoc, cut_first by (unfold free_of; rewrite str_forall_app; apply andb_true_iff; split; [done|by apply Index_take_free]).
    intros [= <- _]. eauto.
  - apply Index_none in Ei. rewrite cut_absent; [discriminate|]. unfold free_of in *. by rewrite str_forall_app, Ha.
Qed.

(** In an air-gapped cluster a Hugging Face or OCI reference is resolved
    to the local registry: the resolved URI parses, keeps the scheme of an OCI
    reference, and its registry is the local one, unless the registry it
    already had merely begins with the name of the local one. *)
Theorem airgap_resolves_locally uri localRegistry a :
  localRegistry <> "" -> free_of "/"%char localRegistry = true ->
  HasPrefix uri "hf://" = true \/ HasOCIScheme uri = true ->
  ParseOCIURI (ResolveAirGappedURI uri localRegistry) = Some a ->
  (Registry a = localRegistry \/ exists x suffix, ParseOCIURI uri = Some x /\ a = x /\ Registry x = localRegistry +:+ suffix)
  /\ HasPrefix (RawURI a) "ocis://" = HasPrefix uri "ocis://".
Proof.
  intros Hl Hs Hu. unfold ResolveAirGappedURI. rewrite bool_decide_false by done.
  destruct (HasPrefix uri "hf://") eqn:Eh.
  - unfold ParseOCIURI. set (ref := TrimPrefix uri "hf://").
    destruct (TrimOCI_oci (localRegistry +:+ "/hf/" +:+ ref)) as [-> ->]. unfold parse_reference.
    change ("/hf/" +:+ ref) with ("/" +:+ "hf/" +:+ ref). rewrite (cut_first "/"%char) by done. cbn [mbind option_bind].
    apply prefix_app in Eh as [r ->]. intros [= <-]. split; [left; by repeat case_match|by repeat case_match].
  - destruct Hu as [|Hu]; [done|]. rewrite Hu. set (ref := TrimOCIScheme uri).
    destruct (HasPrefix ref localRegistry) eqn:Ep; cbn [negb].
    + intros Ha. unfold ParseOCIURI in Ha. rewrite Hu in Ha. fold ref in Ha. split.
      * right. exists a. apply prefix_app in Ep as [r Er]. destruct (parse_registry _ _ _ Ha) as [rest Hc].
        rewrite Er in Hc. destruct (cut_app "/"%char _ _ _ _ Hs Hc) as [suffix Hx].
        exists suffix. split; [unfold ParseOCIURI; by rewrite Hu|]. by split.
      * unfold parse_reference in Ha. destruct (cut ref "/") as [[]|]; [|discriminate]. cbn in Ha. injection Ha as <-. by repeat case_match.
    + destruct (HasPrefix uri "ocis://") eqn:Es; unfold ParseOCIURI;
        [destruct (TrimOCI_ocis (localRegistry +:+ "/" +:+ ref)) as [-> ->]|destruct (TrimOCI_oci (localRegistry +:+ "/" +:+ ref)) as [-> ->]];
        unfold parse_reference; rewrite (cut_first "/"%char) by done; cbn [mbind option_bind]; intros [= <-];
        (split; [left; by repeat case_match|repeat case_match; first [done | apply HasPrefix_app]]).
Qed.

Lemma airgap_resolves_locally_witness :
  (Registry (mkArtifact "oci://reg.local/hf/google/gemma" "reg.local" "hf/google/gemma" "latest" "") = "reg.local"
   \/ exists x suffix, ParseOCIURI "hf://google/gemma" = Some x
        /\ mkArtifact "oci://reg.local/hf/google/gemma" "reg.local" "hf/google/gemma" "latest" "" = x /\ Registry x = "reg.local" +:+ suffix)
  /\ HasPrefix "oci://reg.local/hf/google/gemma" "ocis://" = HasPrefix "hf://google/gemma" "ocis://".
Proof.
  apply (airgap_resolves_locally "hf://google/gemma" "reg.local" (mkArtifact "oci://reg.local/hf/google/gemma" "reg.local" "hf/google/gemma" "latest" ""));
    [done|by vm_compute|by left; vm_compute|by vm_compute].
Defined.

(** A registry whose name begins with the local one is used as it is, and
    other schemes are never rewritten; a registry named [localhost.example]
    is spoken to in plain HTTP, [ocis] or not, and gets the credentials of the
    environment like every other. *)
Example oci_oddities :
  ResolveAirGappedURI "oci://reg.local.evil.example/m:1" "reg.local" = "oci://reg.local.evil.example/m:1"
  /\ ResolveAirGappedURI "s3://bucket/m" "reg.local" = "s3://bucket/m"
  /\ ResolveAirGappedURI "huggingface://org/m" "reg.local" = "huggingface://org/m"
  /\ isInsecureRegistry (fun _ => "") "localhost.example.com" = true
  /\ (let env k := if k ==? "OCI_REGISTRY_USERNAME" then "robot" else "secret" in
      resolveCredentials env "" (fun _ => None) (fun _ => None) ∅ "anywhere.example" = Login "robot" "secret")
  /\ (let docker := {["r" := mkDockerAuth "" "" "cm9ib3Q6c2VjcmV0"]} in
      resolveCredentials (fun _ => "") "/home/u" (fun _ => Some "") (fun _ => Some docker) ∅ "r" = Anonymous)
  /\ ParseOCIURI "oci://r/m:" = Some (mkArtifact "oci://r/m:" "r" "m" "" "")
  /\ ParseOCIURI "oci://r" = None /\ ParseOCIURI "hf://r/m" = None.
Proof. vm_compute. done. Qed.
