(* ===== verification/StagingTransaction.v ===== *)
(** * The storage initializer

    [cmd/storage-initializer]: the staging transaction ([transaction.go]) and
    the run around it ([main.go]).  A run is the list of the changes it makes
    to the destination, in order, and its result; the states a crash can leave
    are those after a prefix of the list.  A file is written in two changes (it
    is truncated, then filled), a directory is removed entry by entry.

    The model source, cosign, the JSON decoders and the order in which
    directory entries are removed are arguments.  Directory listings are sorted
    by name, as [os.ReadDir] sorts them; calls of the file system fail only for
    the reasons written out.  Fetching secrets from Vault, the messages and
    the termination log are left out. *)

From S2P Require Import Prelude GoStrings OCIReference Sha256 GoJson Receipts.
From Stdlib Require Import Ascii.

(** ** Files *)

(** What a name stands for; the entries of a directory are sorted by name. *)
Inductive node := File (data : string) | Symlink | Special | Dir (entries : list (string * node)).

Notation Entries := (gmap string node).

Definition sorted_names (m : Entries) : list string := sort_strings (elements (dom m)).

Definition sorted_entries (m : Entries) : list (string * node) := omap (fun k => pair k <$> m !! k) (sorted_names m).

Definition stagingDirectory := ".ckodex-staging".
Definition stagingStateFile := ".ckodex-staging-state.json".
Definition verificationStateDir := ".ckodex".
Definition verificationStateFile := "runtime-verification.json".

(** The destination: the staging directory, if that name is taken, and the
    other entries. *)
Inductive StagingEntry := NoStaging | StagingDir (m : Entries) | StagingOther (n : node).

Record Dest := mkDest { Payload : Entries; Staging : StagingEntry }.

(** [os.ReadDir(destPath)]. *)
Definition entry_names (d : Dest) : list string :=
  sort_strings (elements (dom (Payload d)) ++ match Staging d with NoStaging => [] | _ => [stagingDirectory] end).

Definition dest_entries (d : Dest) : list (string * node) :=
  sorted_entries (match Staging d with
    | NoStaging => Payload d
    | StagingDir m => <[stagingDirectory := Dir (sorted_entries m)]> (Payload d)
    | StagingOther n => <[stagingDirectory := n]> (Payload d)
    end).

(** ** The staging state *)

Record stagingState := mkState { SSubject : string; SPhase : string; SFiles : list string }.

Definition encode_state (st : stagingState) : string :=
  json_object ([("subject", json_string (SSubject st)); ("phase", json_string (SPhase st))]
    ++ match SFiles st with [] => [] | files => [("files", json_array (json_string <$> files))] end) +:+ String (byte_of 10) "".

(** ** Changes *)

Inductive change :=
| MkdirStaging
| TruncState
| FillState (st : stagingState)
| Pulled (m : Entries)
| Recorded (m : Entries)
| RemoveEntry (name : string)
| RemoveStaged (name : string)
| RmdirStaging
| Move (name : string).

Definition on_staging (f : Entries -> Entries) (d : Dest) : Dest :=
  match Staging d with StagingDir m => mkDest (Payload d) (StagingDir (f m)) | _ => d end.

Definition apply (d : Dest) (c : change) : Dest :=
  match c with
  | MkdirStaging => mkDest (Payload d) (StagingDir ∅)
  | TruncState => on_staging (<[stagingStateFile := File ""]>) d
  | FillState st => on_staging (<[stagingStateFile := File (encode_state st)]>) d
  | Pulled m => on_staging (fun _ => m) d
  | Recorded m => on_staging (fun _ => m) d
  | RemoveEntry name => mkDest (delete name (Payload d)) (Staging d)
  | RemoveStaged name => on_staging (delete name) d
  | RmdirStaging => mkDest (Payload d) NoStaging
  | Move name =>
      match Staging d with
      | StagingDir m =>
          match m !! name with
          | Some n => mkDest (<[name := n]> (Payload d)) (StagingDir (delete name m))
          | None => d
          end
      | _ => d
      end
  end.

Definition after (d : Dest) (cs : list change) : Dest := foldl apply d cs.

Inductive RunErr :=
| InvalidURI
| NoClient (scheme : string)
| UnrecognizedTransaction
| InvalidPhase
| FilesBesideTransaction
| UnexpectedFile (name : string)
| UnverifiedContent
| PullFailed
| ProvenanceFailed
| RecordFailed
| CommitFailed.

Section Initializer.

(** The order in which [os.RemoveAll] meets the entries of a directory. *)
Context (listing : Entries -> list string).
Context (decode_state : string -> option stagingState) (decode_record : string -> option RuntimeVerificationRecord).

(** ** transaction.go *)

Definition loadStagingState (m : Entries) : option stagingState :=
  match m !! stagingStateFile with Some (File data) => decode_state data | _ => None end.

Definition writeStagingState (st : stagingState) : list change := [TruncState; FillState st].

(** [os.RemoveAll(stagingPath)]. *)
Definition remove_staging (m : Entries) : list change := (RemoveStaged <$> listing m) ++ [RmdirStaging].

(** The entries beside the staging directory. *)
Fixpoint recover_entries (phase : string) (allowed : list string) (entries : list string) : list change * option RunErr :=
  match entries with
  | [] => ([], None)
  | name :: entries =>
      if name ==? stagingDirectory then recover_entries phase allowed entries
      else if phase !=? "committing" then ([], Some FilesBesideTransaction)
      else if negb (existsb (fun a => name ==? a) allowed) then ([], Some (UnexpectedFile name))
      else let (cs, err) := recover_entries phase allowed entries in (RemoveEntry name :: cs, err)
  end.

Definition recoverStagingTransaction (uri : string) (d : Dest) : list change * option RunErr :=
  match Staging d with
  | StagingDir m =>
      match loadStagingState m with
      | None => ([], Some UnrecognizedTransaction)
      | Some st =>
          if SSubject st !=? uri then ([], Some UnrecognizedTransaction)
          else if (SPhase st !=? "downloading") && (SPhase st !=? "committing") then ([], Some InvalidPhase)
          else
            let (cs, err) := recover_entries (SPhase st) (SFiles st) (entry_names d) in
            match err with
            | Some err => (cs, Some err)
            | None => (cs ++ remove_staging m, None)
            end
      end
  | _ => ([], None)
  end.

Definition create_staging (uri : string) : list change := MkdirStaging :: writeStagingState (mkState uri "downloading" []).

Definition prepareStagingDirectory (uri : string) (d : Dest) : list change * option RunErr :=
  match entry_names d with
  | [] => (create_staging uri, None)
  | _ =>
      let (cs, err) := recoverStagingTransaction uri d in
      match err with
      | Some err => (cs, Some err)
      | None =>
          match entry_names (after d cs) with
          | [] => (cs ++ create_staging uri, None)
          | _ => (cs, Some UnverifiedContent)
          end
      end
  end.

(** Whether [os.Rename] replaces an existing target: a file by anything but a
    directory, an empty directory by a directory. *)
Definition rename_ok (source : node) (target : option node) : bool :=
  match source, target with
  | _, None => true
  | Dir _, Some (Dir []) => true
  | Dir _, Some _ => false
  | _, Some (Dir _) => false
  | _, Some _ => true
  end.

Fixpoint move_files (payload staged : Entries) (files : list string) : list change * option RunErr :=
  match files with
  | [] => ([], None)
  | name :: files =>
      match staged !! name with
      | None => ([], Some CommitFailed)
      | Some n =>
          if name ==? stagingDirectory then ([], Some CommitFailed)
          else if negb (rename_ok n (payload !! name)) then ([], Some CommitFailed)
          else let (cs, err) := move_files (<[name := n]> payload) staged files in (Move name :: cs, err)
      end
  end.

(** The state is written into a regular file or a new one. *)
Definition state_writable (m : Entries) : bool := match m !! stagingStateFile with None | Some (File _) => true | _ => false end.

Definition commitStagingDirectory (uri : string) (d : Dest) (m : Entries) : list change * option RunErr :=
  let files := filter (fun name => name <> stagingStateFile) (sorted_names m) in
  if negb (state_writable m) then ([], Some CommitFailed)
  else let (cs, err) := move_files (Payload d) m files in (writeStagingState (mkState uri "committing" files) ++ cs, err).

(** *** directoryDigest *)

Definition nul : string := String (byte_of 0) "".

(** What the walk hashes of an entry at the relative path [rel]; [None] for a
    symbolic link. *)
Fixpoint walk (rel name : string) (n : node) : option string :=
  match n with
  | Dir es =>
      if name ==? verificationStateDir then Some ""
      else (fix children es := match es with
            | [] => Some ""
            | (k, n) :: es => a ← walk (rel +:+ "/" +:+ k) k n; b ← children es; Some (a +:+ b)
            end) es
  | File data => if name ==? stagingStateFile then Some "" else Some (rel +:+ nul +:+ data +:+ nul)
  | Symlink => if name ==? stagingStateFile then Some "" else None
  | Special => Some ""
  end.

Fixpoint walk_entries (es : list (string * node)) : option string :=
  match es with
  | [] => Some ""
  | (k, n) :: es => a ← walk k k n; b ← walk_entries es; Some (a +:+ b)
  end.

Definition directoryDigest (es : list (string * node)) : option string := (fun s => "sha256:" +:+ sha256_hex s) <$> walk_entries es.

(** ** main.go *)

Record verifierConfig := mkVerifier { LocalKeyPath : string; LocalKeyPEM : string; VCertificateIdentity : string; VCertificateIssuer : string }.

(** What is outside: the clients by scheme (the staged entries they leave, and
    whether they succeeded), cosign (the output for its arguments), whether a
    file exists, the path of the temporary key, the digest in the output of
    cosign, and the time. *)
Record Environment := mkEnv {
  client : string -> option (string -> Entries -> Entries * bool);
  cosign : list string -> option string;
  exists_file : string -> bool;
  temp_key : string;
  manifest_digest : string -> option string;
  time_now : string
}.

Context (env : Environment).

Definition sha256Hex (payload : string) : string := "sha256:" +:+ sha256_hex payload.

Definition extractSignatureDigest (output : string) : string :=
  match manifest_digest env output with
  | Some digest => if digest !=? "" then digest else sha256Hex output
  | None => sha256Hex output
  end.

Definition materializeVerifierConfig (cfg : verifierConfig) : option verifierConfig :=
  if (LocalKeyPath cfg !=? "") && exists_file env (LocalKeyPath cfg) then Some cfg
  else if (LocalKeyPath cfg !=? "") && (LocalKeyPEM cfg ==? "") then None
  else if LocalKeyPEM cfg ==? "" then Some cfg
  else Some (mkVerifier (temp_key env) (LocalKeyPEM cfg) (VCertificateIdentity cfg) (VCertificateIssuer cfg)).

Definition runCosign (ref : string) (v : verifierConfig) (verb : string) (extraArgs : list string) : option string :=
  cosign env ([verb] ++ (if LocalKeyPath v !=? "" then ["--key"; LocalKeyPath v]
                         else ["--certificate-identity"; VCertificateIdentity v; "--certificate-oidc-issuer"; VCertificateIssuer v])
              ++ extraArgs ++ [ref]).

Definition verifyOCIProvenance (uri : string) (v : verifierConfig) : option RuntimeVerificationRecord :=
  if (LocalKeyPath v ==? "") && ((VCertificateIdentity v ==? "") || (VCertificateIssuer v ==? "")) then None
  else
    let ref := TrimOCIScheme uri in
    signatureOutput ← runCosign ref v "verify" [];
    provenanceOutput ← runCosign ref v "verify-attestation" ["--type"; "slsaprovenance1"];
    sbomOutput ← runCosign ref v "verify-attestation" ["--type"; "cyclonedx"];
    let signatureDigest := extractSignatureDigest signatureOutput in
    Some (mkRuntimeRecord uri (if HasPrefix uri "ocis://" then "ocis" else "oci") true true true
            (if signatureDigest ==? "" then sha256Hex provenanceOutput else signatureDigest)
            (uri +:+ "#attestation:slsaprovenance1") (sha256Hex sbomOutput) "" false
            (LocalKeyPath v) (VCertificateIdentity v) (VCertificateIssuer v) (time_now env) "").

Definition with_content (r : RuntimeVerificationRecord) (digest : string) : RuntimeVerificationRecord :=
  mkRuntimeRecord (Subject r) (Scheme_ r) (SignatureVerified r) (AttestationVerified r) (SBOMVerified r) (SignatureDigest r)
    (AttestationURI r) (SBOMDigest r) digest true (KeyRef r) (CertificateIdentity r) (CertificateIssuer r) (VerifiedAt r) (Error r).

Definition assessProvenance (uri scheme : string) (staged : Entries) (cfg : verifierConfig) : option RuntimeVerificationRecord :=
  v ← materializeVerifierConfig cfg;
  record ←
    (if (scheme ==? "oci") || (scheme ==? "ocis") then verifyOCIProvenance uri v
     else Some (mkRuntimeRecord uri scheme false false false "" "" "" "" false (LocalKeyPath v) (VCertificateIdentity v) (VCertificateIssuer v) "" ""));
  digest ← directoryDigest (sorted_entries staged);
  Some (with_content record digest).

(** [json.MarshalIndent(record, "", "  ")] with its line feed; the fields are
    all [omitempty]. *)
Definition newline : string := String (byte_of 10) "".

Definition record_fields (r : RuntimeVerificationRecord) : list (string * string) :=
  let str k v := if v ==? "" then [] else [(k, json_string v)] in
  let flag (k : string) (b : bool) := if b then [(k, "true")] else [] in
  str "subject" (Subject r) ++ str "scheme" (Scheme_ r) ++ flag "signatureVerified" (SignatureVerified r)
  ++ flag "attestationVerified" (AttestationVerified r) ++ flag "sbomVerified" (SBOMVerified r)
  ++ str "signatureDigest" (SignatureDigest r) ++ str "attestationUri" (AttestationURI r) ++ str "sbomDigest" (SBOMDigest r)
  ++ str "contentDigest" (ContentDigest r) ++ flag "contentIntegrityVerified" (ContentIntegrityVerified r)
  ++ str "keyRef" (KeyRef r) ++ str "certificateIdentity" (CertificateIdentity r) ++ str "certificateIssuer" (CertificateIssuer r)
  ++ str "verifiedAt" (VerifiedAt r) ++ str "error" (Error r).

Definition encode_record (r : RuntimeVerificationRecord) : string :=
  match record_fields r with
  | [] => "{}" +:+ newline
  | fields =>
      "{" +:+ newline
      +:+ String.concat ("," +:+ newline) ((fun '(k, v) => "  " +:+ json_string k +:+ ": " +:+ v) <$> fields)
      +:+ newline +:+ "}" +:+ newline
  end.

(** A file in a listing, replaced or added. *)
Fixpoint set_entry (k : string) (n : node) (es : list (string * node)) : list (string * node) :=
  match es with
  | [] => [(k, n)]
  | (k', n') :: es => if k' ==? k then (k, n) :: es else (k', n') :: set_entry k n es
  end.

Definition find_entry (k : string) (es : list (string * node)) : option node := snd <$> List.find (fun e => fst e ==? k) es.

(** [None] when the directory or the file cannot be created: the name of the
    directory or of the file is taken by something else. *)
Definition writeCacheRuntimeVerificationRecord (m : Entries) (r : RuntimeVerificationRecord) : option Entries :=
  let data := File (encode_record r) in
  match m !! verificationStateDir with
  | None => Some (<[verificationStateDir := Dir [(verificationStateFile, data)]]> m)
  | Some (Dir es) =>
      match find_entry verificationStateFile es with
      | None | Some (File _) => Some (<[verificationStateDir := Dir (set_entry verificationStateFile data es)]> m)
      | _ => None
      end
  | Some _ => None
  end.

Definition loadCachedRuntimeVerificationRecord (d : Dest) : option RuntimeVerificationRecord :=
  match Payload d !! verificationStateDir with
  | Some (Dir es) => match find_entry verificationStateFile es with Some (File data) => decode_record data | _ => None end
  | _ => None
  end.

Definition empty_record (uri scheme : string) : RuntimeVerificationRecord :=
  mkRuntimeRecord uri scheme false false false "" "" "" "" false "" "" "" "" "".

(** The record of a cache hit. *)
Definition cache_hit (skipChecksum : bool) (uri scheme : string) (d : Dest) : option RuntimeVerificationRecord :=
  match entry_names d with
  | [] => None
  | _ =>
      if skipChecksum then Some (empty_record uri scheme)
      else
        r ← loadCachedRuntimeVerificationRecord d;
        if Subject r !=? uri then None
        else if Verified r then Some r
        else if ContentIntegrityVerified r && bool_decide (directoryDigest (dest_entries d) = Some (ContentDigest r)) then Some r
        else None
  end.

(** The staged entries, if the directory is there. *)
Definition staged (d : Dest) : Entries := match Staging d with StagingDir m => m | _ => ∅ end.

(** What happens between the creation of the staging directory and its
    removal: the changes, the record and the error. *)
Definition transaction (skipChecksum : bool) (cfg : verifierConfig) (uri scheme : string) (pull : string -> Entries -> Entries * bool) (d : Dest)
    : list change * (RuntimeVerificationRecord * option RunErr) :=
  let (m, ok) := pull uri (staged d) in
  let d := apply d (Pulled m) in
  if negb ok then ([Pulled m], (empty_record uri scheme, Some PullFailed))
  else if skipChecksum then
    let (cs, err) := commitStagingDirectory uri d m in (Pulled m :: cs, (empty_record uri scheme, err))
  else
    match assessProvenance uri scheme m cfg with
    | None => ([Pulled m], (empty_record uri scheme, Some ProvenanceFailed))
    | Some record =>
        match writeCacheRuntimeVerificationRecord m record with
        | None => ([Pulled m], (record, Some RecordFailed))
        | Some m' =>
            let d := apply d (Recorded m') in
            let (cs, err) := commitStagingDirectory uri d m' in
            ([Pulled m; Recorded m'] ++ cs, (record, err))
        end
    end.

Definition run (skipChecksum : bool) (cfg : verifierConfig) (uri : string) (d : Dest) : list change * (RuntimeVerificationRecord * option RunErr) :=
  match Index uri "://" with
  | None => ([], (empty_record uri "", Some InvalidURI))
  | Some i =>
      let scheme := str_take i uri in
      match client env scheme with
      | None => ([], (empty_record uri scheme, Some (NoClient scheme)))
      | Some pull =>
          match cache_hit skipChecksum uri scheme d with
          | Some record => ([], (record, None))
          | None =>
              let (cs, err) := prepareStagingDirectory uri d in
              match err with
              | Some err => (cs, (empty_record uri scheme, Some err))
              | None =>
                  let d := after d cs in
                  let (ts, result) := transaction skipChecksum cfg uri scheme pull d in
                  (cs ++ ts ++ remove_staging (staged (after d ts)), result)
              end
          end
      end
  end.

End Initializer.
