(* ===== verification/GoRFC3339.v ===== *)
(** * Timestamps in RFC 3339

    [t.UTC().Format(time.RFC3339)] and [time.Parse(time.RFC3339, s)], and that
    the second reads what the first writes, to the second. *)

From S2P Require Import Prelude GoTime.
From Stdlib Require Import Ascii.

(** ** Writing and reading *)

Definition RFC3339 (t : Time) : string :=
  let '(y, m, d) := civil t in
  let s := t mod Day in
  zero_pad 4 (Itoa y) +:+ "-" +:+ zero_pad 2 (Itoa m) +:+ "-" +:+ zero_pad 2 (Itoa d) +:+ "T"
  +:+ zero_pad 2 (Itoa (s / Hour)) +:+ ":" +:+ zero_pad 2 (Itoa (s / Minute mod 60)) +:+ ":"
  +:+ zero_pad 2 (Itoa (s / Second mod 60)) +:+ "Z".

(** The nanoseconds of a fraction: its first nine digits, [w] being the weight
    of the next one. *)
Fixpoint fraction_digits (w v : Z) (s : string) : Z :=
  match s with
  | String c s' => match digit c with Some d => fraction_digits (w / 10) (v + w * d) s' | None => v end
  | EmptyString => v
  end.

Definition take_fraction (s : string) : Z * string :=
  match s with
  | String sep (String d rest) =>
      if ((code sep ==? 46) || (code sep ==? 44)) && is_digit d
      then (fraction_digits 100000000 0 (String d rest), skip_digits rest)
      else (0, s)
  | _ => (0, s)
  end.

(** The offset from UTC in seconds: [Z], or a sign, hours up to 24 and minutes
    up to 60. *)
Definition take_zone (s : string) : option (Z * string) :=
  match s with
  | String c rest =>
      if code c ==? 90 then Some (0, rest)
      else
        '(h, r) ← take_digits 2 0 rest; r ← take_char 58 r; '(m, r) ← take_digits 2 0 r;
        if (h <=? 24) && (m <=? 60) then
          if code c ==? 43 then Some (60 * (60 * h + m), r)
          else if code c ==? 45 then Some (- (60 * (60 * h + m)), r) else None
        else None
  | EmptyString => None
  end.

Definition ParseRFC3339 (s : string) : option Time :=
  '(y, s) ← take_digits 4 0 s; s ← take_char 45 s; '(m, s) ← take_digits 2 0 s; s ← take_char 45 s;
  '(d, s) ← take_digits 2 0 s; s ← take_char 84 s; '(h, s) ← take_hour s; s ← take_char 58 s;
  '(mi, s) ← take_digits 2 0 s; s ← take_char 58 s; '(se, s) ← take_digits 2 0 s;
  let '(ns, s) := take_fraction s in
  '(off, s) ← take_zone s;
  if (1 <=? m) && (m <=? 12) && (1 <=? d) && (d <=? days_in y m) && (h <? 24) && (mi <? 60) && (se <? 60)
     && (s ==? "")
  then Some (date y m d + h * Hour + mi * Minute + (se - off) * Second + ns) else None.

Example rfc3339_examples :
  RFC3339 (date 2026 2 28 + 5 * Hour + 4 * Minute + 3 * Second + 999) = "2026-02-28T05:04:03Z"
  /\ ParseRFC3339 "2026-02-28T05:04:03Z" = Some (date 2026 2 28 + 5 * Hour + 4 * Minute + 3 * Second)
  /\ ParseRFC3339 "2026-02-28T05:04:03.25+02:00" = Some (date 2026 2 28 + 3 * Hour + 4 * Minute + 3250 * Millisecond)
  /\ ParseRFC3339 "2026-03-01T00:30:00-00:45" = Some (date 2026 3 1 + 75 * Minute)
  /\ ParseRFC3339 "2026-02-29T05:04:03Z" = None /\ ParseRFC3339 "2026-02-28T05:04:03" = None
  /\ ParseRFC3339 "2026-02-28" = None /\ ParseRFC3339 "never" = None.
Proof. vm_compute. done. Qed.

(** ** The civil calendar

    The date of a day number is read off the position in its 400-year cycle:
    the year in the cycle, the day of a year that starts in March, the month. *)

Lemma year_of_cycle doe : 0 <= doe < 146097 ->
  let yoe := (doe - doe / 1460 + doe / 36524 - doe / 146096) / 365 in
  let doy := doe - (365 * yoe + yoe / 4 - yoe / 100) in
  0 <= yoe <= 399 /\ 0 <= doy <= 365
  /\ (doy = 365 -> (yoe + 1) mod 4 = 0 /\ ((yoe + 1) mod 100 <> 0 \/ (yoe + 1) mod 400 = 0)).
Proof.
  intros H yoe doy. subst doy.
  set (a := doe / 146096) in *. set (b := doe / 1460) in *. set (c := doe / 36524) in *.
  assert (146096 * a <= doe < 146096 * a + 146096) by (subst a; Z.div_mod_to_equations; lia).
  assert (1460 * b <= doe < 1460 * b + 1460) by (subst b; Z.div_mod_to_equations; lia).
  assert (36524 * c <= doe < 36524 * c + 36524) by (subst c; Z.div_mod_to_equations; lia).
  assert (365 * yoe <= doe - b + c - a < 365 * yoe + 365) by (subst yoe; Z.div_mod_to_equations; lia).
  clearbody yoe a b c. Z.div_mod_to_equations; lia.
Qed.

Lemma month_of_year doy : 0 <= doy <= 365 ->
  let mp := (5 * doy + 2) / 153 in
  0 <= mp <= 11 /\ (153 * mp + 2) / 5 <= doy < (153 * (mp + 1) + 2) / 5.
Proof. intros H mp. subst mp. Z.div_mod_to_equations; lia. Qed.

(** Tests of numerals, decided by [lia]. *)
Ltac decide_tests :=
  repeat match goal with
  | |- context [bool_decide ?P] => first [rewrite (bool_decide_true P) by lia | rewrite (bool_decide_false P) by lia]
  end; cbn [orb andb negb].

(** Sums without variables, by evaluation. *)
Ltac eval_sums :=
  repeat match goal with
  | |- context [zsum ?f ?l] => let v := eval vm_compute in (zsum f l) in change (zsum f l) with v
  end.

(** The day number of the first of a month, counted from March. *)
Lemma month_start y mp : 0 <= mp <= 11 ->
  let m := if mp <? 10 then mp + 3 else mp - 9 in
  let y' := y + (if m <=? 2 then 1 else 0) in
  days_before_year y' + days_before_month y' m = days_before_year (y + 1) - 306 + (153 * mp + 2) / 5
  /\ 1 <= m <= 12
  /\ days_in y' m = if mp ==? 11 then (if is_leap (y + 1) then 29 else 28) else (153 * (mp + 1) + 2) / 5 - (153 * mp + 2) / 5.
Proof.
  intros H m y'.
  assert (days_before_year (y + 1) = days_before_year y + (if is_leap y then 366 else 365)) as E.
  { unfold days_before_year, is_leap. replace (y + 1 - 1) with y by lia.
    repeat case_bool_decide; simpl; Z.div_mod_to_equations; lia. }
  assert (mp = 0 \/ mp = 1 \/ mp = 2 \/ mp = 3 \/ mp = 4 \/ mp = 5 \/ mp = 6 \/ mp = 7 \/ mp = 8 \/ mp = 9
          \/ mp = 10 \/ mp = 11) as Hmp by lia.
  subst m y'. unfold days_before_month, days_in.
  repeat destruct Hmp as [->|Hmp]; subst; decide_tests; rewrite ?Z.add_0_r, ?E;
    destruct (is_leap y), (is_leap (y + 1)); decide_tests; eval_sums; repeat split; Z.div_mod_to_equations; lia.
Qed.

(** The civil date of an instant is the date whose day it falls in. *)
Lemma civil_correct t :
  exists y m d, civil t = (y, m, d) /\ date y m d = Day * (t / Day) /\ 1 <= m <= 12 /\ 1 <= d <= days_in y m.
Proof.
  unfold civil. set (z := t / Day + 306). pose proof (Z.mod_pos_bound z 146097 ltac:(lia)) as Hb.
  pose proof (Z.div_mod z 146097 ltac:(lia)) as Hz.
  pose proof (year_of_cycle _ Hb) as (Hy & Hd & Hl). cbv zeta.
  set (doe := z mod 146097) in *. set (era := z / 146097) in *.
  set (yoe := (doe - doe / 1460 + doe / 36524 - doe / 146096) / 365) in *.
  set (doy := doe - (365 * yoe + yoe / 4 - yoe / 100)) in *.
  pose proof (month_of_year doy Hd) as (Hm & Hmd).
  pose proof (month_start (yoe + 400 * era) ((5 * doy + 2) / 153) Hm) as (Hs & Hr & Hi).
  set (mp := (5 * doy + 2) / 153) in *. cbv zeta in *.
  eexists _, _, _. split; [reflexivity|]. split; [|split; [done|]].
  - unfold date. rewrite Hs. f_equal. subst doy. subst z. unfold days_before_year. clearbody yoe mp doe era.
    clear Hs Hi Hr Hl. replace (yoe + 400 * era + 1 - 1) with (yoe + 400 * era) by lia.
    replace ((yoe + 400 * era) / 4) with (yoe / 4 + 100 * era) by (Z.div_mod_to_equations; lia).
    replace ((yoe + 400 * era) / 100) with (yoe / 100 + 4 * era) by (Z.div_mod_to_equations; lia).
    replace ((yoe + 400 * era) / 400) with era by (Z.div_mod_to_equations; lia). lia.
  - rewrite Hi. split; [lia|]. destruct (bool_decide_reflect (mp = 11)) as [E11|E11]; [|lia].
    assert (doy = 365 -> is_leap (yoe + 400 * era + 1) = true) as Hleap.
    { intros E. destruct (Hl E) as [H4 H1]. unfold is_leap.
      replace ((yoe + 400 * era + 1) mod 4) with ((yoe + 1) mod 4) by (Z.div_mod_to_equations; lia).
      replace ((yoe + 400 * era + 1) mod 100) with ((yoe + 1) mod 100) by (Z.div_mod_to_equations; lia).
      replace ((yoe + 400 * era + 1) mod 400) with ((yoe + 1) mod 400) by (Z.div_mod_to_equations; lia).
      rewrite bool_decide_true by done. destruct H1 as [H1|H1]; [by rewrite bool_decide_false|].
      rewrite (bool_decide_true ((yoe + 1) mod 400 = 0)) by done. by rewrite orb_true_r. }
    rewrite E11. destruct (is_leap (yoe + 400 * era + 1)) eqn:El; [change ((153 * 11 + 2) / 5) with 337; lia|].
    assert (doy <> 365) by (intros E; specialize (Hleap E); congruence).
    change ((153 * 11 + 2) / 5) with 337. lia.
Qed.

(** ** Reading what was written *)

Lemma take_digits_app n v u s :
  str_forall is_digit u = true -> String.length u = n -> take_digits n v (u +:+ s) = Some (digits_value v u, s).
Proof.
  revert v u. induction n as [|n IH]; intros v [|c u] Hd Hl; [done|discriminate Hl..|].
  simpl in Hd. apply andb_true_iff in Hd as [Hc Hu]. injection Hl as Hl.
  change (String c u +:+ s) with (String c (u +:+ s)). cbn [take_digits digits_value].
  unfold digit. rewrite Hc. cbn. by rewrite IH.
Qed.

Lemma digits_fuel_length n k z acc :
  0 <= z < 10 ^ Z.of_nat (S n) ->
  (String.length (digits_fuel k z acc) <= S n + String.length acc)%nat.
Proof.
  revert n z acc. induction k as [|k IH]; intros n z acc Hz; [simpl; lia|].
  cbn [digits_fuel]. case_bool_decide; [simpl; lia|].
  destruct n as [|n]; [lia|].
  etransitivity; [apply (IH n)|simpl; lia].
  rewrite (Nat2Z.inj_succ (S n)), Z.pow_succ_r in Hz by lia.
  split; [apply Z.div_pos; lia|apply Z.div_lt_upper_bound; lia].
Qed.

Lemma zero_pad_spec n s :
  str_forall is_digit s = true -> (String.length s <= n)%nat ->
  str_forall is_digit (zero_pad n s) = true /\ String.length (zero_pad n s) = n
  /\ digits_value 0 (zero_pad n s) = digits_value 0 s.
Proof.
  intros Hd. revert s Hd. induction n as [|n IH]; intros s Hd Hl; [cbn [zero_pad]; repeat split; done || lia|].
  cbn [zero_pad]. case_bool_decide; [|repeat split; done || lia].
  destruct (IH s Hd) as (H1 & H2 & H3); [lia|].
  cbn [str_forall String.length digits_value]. rewrite H1, H2. repeat split; exact H3 || done.
Qed.

Lemma take_padded n v s :
  0 <= v < 10 ^ Z.of_nat (S n) -> (S n <= 20)%nat ->
  take_digits (S n) 0 (zero_pad (S n) (Itoa v) +:+ s) = Some (v, s).
Proof.
  intros Hv Hn. destruct (zero_pad_spec (S n) (Itoa v)) as (H1 & H2 & H3).
  { apply Itoa_digits. lia. }
  { unfold Itoa, itoa_pos. rewrite bool_decide_false by lia.
    etransitivity; [apply (digits_fuel_length n); lia|simpl; lia]. }
  rewrite take_digits_app by done. rewrite H3. unfold Itoa, itoa_pos. rewrite bool_decide_false by lia.
  rewrite digits_fuel_value; [done|]. split; [lia|].
  eapply Z.lt_le_trans; [apply Hv|]. apply Z.pow_le_mono_r; lia.
Qed.

Lemma take_padded2 v s : 0 <= v < 100 -> take_digits 2 0 (zero_pad 2 (Itoa v) +:+ s) = Some (v, s).
Proof. intros H. apply (take_padded 1); [exact H|lia]. Qed.

Lemma take_dash s : take_char 45 ("-" +:+ s) = Some s. Proof. done. Qed.
Lemma take_colon s : take_char 58 (":" +:+ s) = Some s. Proof. done. Qed.
Lemma take_T s : take_char 84 ("T" +:+ s) = Some s. Proof. done. Qed.

Lemma clock_of_day s : s = s / Hour * Hour + s / Minute mod 60 * Minute + s / Second mod 60 * Second + s mod Second.
Proof.
  pose proof (Z.div_mod s Second ltac:(done)) as H.
  assert (s / Minute = s / Second / 60) as -> by (rewrite Z.div_div by done; done).
  assert (s / Hour = s / Second / 3600) as -> by (rewrite Z.div_div by done; done).
  revert H. generalize (s / Second) (s mod Second). intros x r ->.
  unfold Hour, Minute. generalize Second. intros u.
  assert (x = 3600 * (x / 3600) + 60 * (x / 60 mod 60) + x mod 60) as E by (Z.div_mod_to_equations; lia).
  rewrite E at 1. lia.
Qed.

(** Parsing gives the instant back, without its fraction of a second. *)
Lemma ParseRFC3339_RFC3339 t :
  0 <= (civil t).1.1 <= 9999 -> ParseRFC3339 (RFC3339 t) = Some (t - t mod Second).
Proof.
  intros Hy. unfold RFC3339. destruct (civil_correct t) as (y & m & d & E & Ht & Hm & Hd).
  rewrite E in *. cbn [fst] in Hy.
  pose proof (Z.mod_pos_bound t Day ltac:(done)) as Hb.
  assert (days_in y m <= 31) by (unfold days_in; repeat case_match; lia).
  set (s := t mod Day) in *. set (h := s / Hour). set (mi := s / Minute mod 60). set (se := s / Second mod 60).
  assert (0 <= h < 24 /\ 0 <= mi < 60 /\ 0 <= se < 60) as (Hh & Hmi & Hse).
  { subst h mi se. unfold Day, Hour, Minute, Second, Millisecond in *. Z.div_mod_to_equations; lia. }
  unfold ParseRFC3339.
  rewrite (take_padded 3) by (simpl; lia). unfold take_hour.
  repeat first [rewrite take_padded2 by lia | rewrite take_dash | rewrite take_colon | rewrite take_T
               | progress cbn [mbind option_bind]].
  change (take_fraction "Z") with (0, "Z"). cbn beta iota. change (take_zone "Z") with (Some (0, "")).
  cbn [mbind option_bind].
  rewrite !bool_decide_true by (done || lia). cbn [andb]. f_equal. rewrite Ht.
  pose proof (Z.div_mod t Day ltac:(done)) as Htd. fold s in Htd.
  assert (t mod Second = s mod Second) as ->.
  { subst s. symmetry. apply Z.mod_mod_divide. by exists 86400. }
  pose proof (clock_of_day s) as Hc. fold h mi se in Hc.  lia.
Qed.
