(* ===== verification/StagingRecovery.v ===== *)
(** * Crashes, recovery and reuse of the storage initializer

    What a destination can look like after a crash of the initializer at any
    point, what the next run makes of it, and that a finished download is
    reused. *)

From S2P Require Import Prelude GoStrings Sha256 GoJson Receipts StagingTransaction.
From Stdlib Require Import Ascii.

(** ** Changes *)

Lemma after_app d cs cs' : after d (cs ++ cs') = after (after d cs) cs'.
Proof. apply foldl_app. Qed.

Lemma after_removals d names : after d (RemoveEntry <$> names) = mkDest (foldl (fun p n => delete n p) (Payload d) names) (Staging d).
Proof. revert d. induction names as [|n names IH]; intros d; [by destruct d|]. exact (IH _). Qed.

Lemma foldl_delete_lookup {A} (m : gmap string A) names k :
  foldl (fun p n => delete n p) m names !! k = if decide (k ∈ names) then None else m !! k.
Proof.
  revert m. induction names as [|n names IH]; intros m; cbn [foldl]; [by rewrite decide_False by apply not_elem_of_nil|].
  rewrite IH. destruct (decide (k ∈ names)) as [H|H]; [by rewrite decide_True by (by right)|].
  destruct (decide (k = n)) as [->|Hne]; [rewrite decide_True by (by left); apply lookup_delete_eq|].
  rewrite lookup_delete_ne, decide_False by set_solver. done.
Qed.

Lemma foldl_delete_subset {A} (m : gmap string A) names : dom (foldl (fun p n => delete n p) m names) ⊆ dom m.
Proof.
  intros k. rewrite !elem_of_dom, foldl_delete_lookup. destruct (decide _); [by intros []|done].
Qed.

Lemma foldl_delete_all {A} (m : gmap string A) names : (forall k, k ∈ dom m -> k ∈ names) -> foldl (fun p n => delete n p) m names = ∅.
Proof.
  intros H. apply map_empty. intros k. rewrite foldl_delete_lookup. destruct (decide (k ∈ names)) as [|Hn]; [done|].
  apply not_elem_of_dom. by intros Hk%H.
Qed.

Lemma after_unstage p m names :
  after (mkDest p (StagingDir m)) (RemoveStaged <$> names) = mkDest p (StagingDir (foldl (fun p n => delete n p) m names)).
Proof. revert m. induction names as [|n names IH]; intros m; [done|]. exact (IH _). Qed.

(** Moves take entries from the staging directory to the destination. *)
Definition moved (m p : Entries) (names : list string) : Entries :=
  foldl (fun p n => match m !! n with Some x => <[n := x]> p | None => p end) p names.

Lemma moved_lookup m p names k : moved m p names !! k = if decide (k ∈ names) then m !! k ∪ p !! k else p !! k.
Proof.
  unfold moved. revert p. induction names as [|n names IH]; intros p; cbn [foldl]; [by rewrite decide_False by apply not_elem_of_nil|].
  rewrite IH. destruct (decide (k = n)) as [->|Hne].
  - rewrite (decide_True (P := n ∈ n :: names)) by (by left). destruct (m !! n) as [x|]; [rewrite lookup_insert_eq|]; destruct (decide _), (p !! n); done.
  - assert (match m !! n with Some x => <[n := x]> p | None => p end !! k = p !! k) as ->
      by (destruct (m !! n); [by rewrite lookup_insert_ne|done]).
    destruct (decide (k ∈ names)), (decide (k ∈ n :: names)); try done; set_solver.
Qed.

Lemma after_moves p m names :
  (forall n, n ∈ names -> is_Some (m !! n)) -> NoDup names ->
  after (mkDest p (StagingDir m)) (Move <$> names) =
  mkDest (moved m p names) (StagingDir (foldl (fun p n => delete n p) m names)).
Proof.
  revert p m. induction names as [|n names IH]; intros p m Hin Hnd; [done|]. apply NoDup_cons in Hnd as [Hn Hnd].
  destruct (Hin n) as [x Hx]; [by left|]. cbn [fmap list_fmap after foldl]. cbn [apply Staging]. rewrite Hx. cbn [Payload].
  change (foldl apply ?d ?l) with (after d l). rewrite IH; [|intros k Hk; rewrite lookup_delete_ne by set_solver; apply Hin; by right|done].
  f_equal. unfold moved. cbn [foldl]. rewrite Hx. clear -Hn. generalize (<[n := x]> p) as q. induction names as [|k names IH]; intros q; [done|]. cbn [foldl].
  rewrite lookup_delete_ne by set_solver. apply IH. set_solver.
Qed.

Lemma entry_names_in d k : k ∈ entry_names d <-> k ∈ dom (Payload d) \/ (k = stagingDirectory /\ Staging d <> NoStaging).
Proof.
  unfold entry_names. rewrite sort_strings_perm, elem_of_app, elem_of_elements.
  destruct (Staging d); rewrite ?list_elem_of_singleton, ?elem_of_nil; naive_solver.
Qed.

Lemma entry_names_nil d : entry_names d = [] <-> Payload d = ∅ /\ Staging d = NoStaging.
Proof.
  split.
  - intros H. assert (forall k, k ∉ entry_names d) as Hn by (rewrite H; apply not_elem_of_nil). split.
    + apply dom_empty_iff_L, set_eq. intros k. split; [|by intros ?%elem_of_empty]. intros Hk. destruct (Hn k). apply entry_names_in. by left.
    + destruct (Staging d) eqn:E; [done|..]; destruct (Hn stagingDirectory); apply entry_names_in; right; by rewrite E.
  - intros [H1 H2]. unfold entry_names. rewrite H1, H2, dom_empty_L, elements_empty. done.
Qed.

Section Recovery.

Context (listing : Entries -> list string).
Context (decode_state : string -> option stagingState).

Definition ascii_state (st : stagingState) : bool := is_ascii (SSubject st) && is_ascii (SPhase st) && forallb is_ascii (SFiles st).

(** The decoder reads what the encoder wrote, and rejects an empty file. *)
Context (decode_encoded : forall st, ascii_state st = true -> decode_state (encode_state st) = Some st).
Context (decode_empty : decode_state "" = None).

Context (uri : string) (uri_ascii : is_ascii uri = true).

Local Abbreviation load := (loadStagingState decode_state).
Local Abbreviation prepare := (prepareStagingDirectory listing decode_state uri).

(** A destination a transaction for [uri] left behind, or an empty one. *)
Definition recoverable (d : Dest) : Prop :=
  (Payload d = ∅ /\ Staging d = NoStaging)
  \/ exists m st, Staging d = StagingDir m /\ load m = Some st /\ SSubject st = uri
     /\ ((SPhase st = "downloading" /\ Payload d = ∅)
         \/ (SPhase st = "committing" /\ stagingDirectory ∉ dom (Payload d) /\ forall k, k ∈ dom (Payload d) -> k ∈ SFiles st)).

(** A staging directory whose state cannot be read. *)
Definition torn (d : Dest) : Prop := exists m, Staging d = StagingDir m /\ load m = None.

(** Staging has just begun. *)
Definition begun : Entries := {[stagingStateFile := File (encode_state (mkState uri "downloading" []))]}.
Definition fresh : Dest := mkDest ∅ (StagingDir begun).

Lemma recover_entries_ok phase allowed entries :
  (forall n, n ∈ entries -> n = stagingDirectory \/ (phase = "committing" /\ n ∈ allowed)) ->
  recover_entries phase allowed entries = (RemoveEntry <$> filter (fun n => n <> stagingDirectory) entries, None).
Proof.
  induction entries as [|n entries IH]; intros H; [done|]. cbn [recover_entries]. specialize (IH ltac:(intros; apply H; by right)).
  rewrite filter_cons. case_bool_decide as E; [by rewrite decide_False by auto|]. rewrite decide_True by done.
  destruct (H n) as [?|[-> Ha]]; [by left|done|]. rewrite bool_decide_eq_true_2 by done. cbn [negb].
  apply existsb_eq_in in Ha. rewrite Ha, IH. done.
Qed.

Lemma after_remove_staging p m : after (mkDest p (StagingDir m)) (remove_staging listing m) = mkDest p NoStaging.
Proof. unfold remove_staging. rewrite after_app, after_unstage. done. Qed.

Lemma after_create : after (mkDest ∅ NoStaging) (create_staging uri) = fresh.
Proof. unfold create_staging, fresh. cbn. by rewrite insert_insert_eq. Qed.

(** The removals recovery makes. *)
Definition removals (d : Dest) : list change := RemoveEntry <$> filter (fun n => n <> stagingDirectory) (entry_names d).

Lemma after_removals_empty d : stagingDirectory ∉ dom (Payload d) -> after d (removals d) = mkDest ∅ (Staging d).
Proof.
  intros Hs. unfold removals. rewrite after_removals. f_equal. apply foldl_delete_all. intros k Hk. apply list_elem_of_filter.
  split; [set_solver|]. apply entry_names_in. by left.
Qed.

(** The changes of a successful preparation. *)
Lemma prepare_recovers d :
  recoverable d ->
  exists m, (Staging d = NoStaging /\ prepare d = (create_staging uri, None) \/
     Staging d = StagingDir m /\ prepare d = ((removals d ++ remove_staging listing m) ++ create_staging uri, None))
  /\ after d (prepare d).1 = fresh.
Proof.
  intros [[Hp Hn]|(m & st & Es & El & Eu & Hph)].
  - exists ∅. assert (prepare d = (create_staging uri, None)) as E.
    { unfold prepareStagingDirectory. by rewrite (proj2 (entry_names_nil d)). }
    split; [by left|]. rewrite E. destruct d as [p s]. simpl in *. subst. apply after_create.
  - exists m. assert (stagingDirectory ∉ dom (Payload d)) as Hs by (destruct Hph as [[_ ->]|(_ & ? & _)]; [set_solver|done]).
    assert (recoverStagingTransaction listing decode_state uri d = (removals d ++ remove_staging listing m, None)) as Er.
    { unfold recoverStagingTransaction. rewrite Es, El, Eu, bool_decide_eq_true_2 by done. cbn [negb].
      assert ((SPhase st !=? "downloading") && (SPhase st !=? "committing") = false) as -> by (by destruct Hph as [[-> _]|[-> _]]).
      rewrite recover_entries_ok; [done|]. intros n [Hn|[-> _]]%entry_names_in; [right|by left].
      destruct Hph as [[_ E0]|(? & _ & H)]; [by rewrite E0, dom_empty_L in Hn; apply elem_of_empty in Hn|auto]. }
    assert (after d (removals d ++ remove_staging listing m) = mkDest ∅ NoStaging) as Ea.
    { rewrite after_app, after_removals_empty, Es by done. apply after_remove_staging. }
    assert (prepare d = ((removals d ++ remove_staging listing m) ++ create_staging uri, None)) as E.
    { unfold prepareStagingDirectory. destruct (entry_names d) eqn:En; [apply entry_names_nil in En as [_ En]; congruence|].
      rewrite Er, Ea. by rewrite (proj2 (entry_names_nil (mkDest ∅ NoStaging))). }
    split; [by right|]. rewrite E. cbn [fst]. rewrite after_app, Ea. apply after_create.
Qed.

(** A torn transaction is refused, and nothing is touched. *)
Lemma prepare_torn d : torn d -> prepare d = ([], Some UnrecognizedTransaction).
Proof.
  intros (m & Es & El). unfold prepareStagingDirectory. destruct (entry_names d) eqn:En; [apply entry_names_nil in En as [_ En]; congruence|].
  unfold recoverStagingTransaction. by rewrite Es, El.
Qed.

(** ** Crashes

    A property of every state a prefix of the changes leads to. *)

Definition always (P : Dest -> Prop) (d : Dest) (cs : list change) : Prop := forall p, p `prefix_of` cs -> P (after d p).

Lemma always_nil (P : Dest -> Prop) d : P d -> always P d [].
Proof. by intros H p ->%prefix_nil_inv. Qed.

Lemma always_cons (P : Dest -> Prop) d c cs : P d -> always P (apply d c) cs -> always P d (c :: cs).
Proof.
  intros H Hs [|c' p] Hp; [done|]. pose proof (prefix_cons_inv_1 _ _ _ _ Hp) as ->. apply prefix_cons_inv_2 in Hp. exact (Hs p Hp).
Qed.

Lemma always_app (P : Dest -> Prop) d cs cs' : always P d cs -> always P (after d cs) cs' -> always P d (cs ++ cs').
Proof.
  revert d. induction cs as [|c cs IH]; intros d H1 H2; [exact H2|]. apply always_cons; [apply (H1 []), prefix_nil|].
  apply IH; [|exact H2]. intros p Hp. apply (H1 (c :: p)), prefix_cons, Hp.
Qed.

Lemma always_impl (P Q : Dest -> Prop) d cs : (forall d, P d -> Q d) -> always P d cs -> always Q d cs.
Proof. intros H Ha p Hp. by apply H, Ha. Qed.

Definition safe (d : Dest) : Prop := recoverable d \/ torn d.

Lemma fmap_prefix {A B} (f : A -> B) (l : list A) p : p `prefix_of` (f <$> l) -> exists l', p = f <$> l' /\ l' `prefix_of` l.
Proof.
  revert p. induction l as [|a l IH]; intros [|b p] H; [by exists []|by apply prefix_nil_not in H| |].
  - exists []. split; [done|apply prefix_nil].
  - pose proof (prefix_cons_inv_1 _ _ _ _ H) as ->. apply prefix_cons_inv_2 in H. destruct (IH p H) as (l' & -> & Hl).
    exists (a :: l'). split; [done|]. by apply prefix_cons.
Qed.

Lemma removals_safe d m st names :
  Staging d = StagingDir m -> load m = Some st -> SSubject st = uri ->
  ((SPhase st = "downloading" /\ Payload d = ∅)
   \/ (SPhase st = "committing" /\ stagingDirectory ∉ dom (Payload d) /\ forall k, k ∈ dom (Payload d) -> k ∈ SFiles st)) ->
  always recoverable d (RemoveEntry <$> names).
Proof.
  intros Es El Eu Hph p (l & -> & _)%fmap_prefix. rewrite after_removals. right. exists m, st. cbn [Staging Payload]. split_and!; try done.
  destruct Hph as [[Hd Hp]|(Hc & Hs & Ha)]; [left|right].
  - split; [done|]. rewrite Hp. apply foldl_delete_all. set_solver.
  - pose proof (foldl_delete_subset (Payload d) l). set_solver.
Qed.

Lemma unstage_safe d m names : Staging d = StagingDir m -> recoverable d -> always safe d (RemoveStaged <$> names).
Proof.
  intros Es Hr p (l & -> & _)%fmap_prefix. destruct d as [pl s]. simpl in Es. subst s. rewrite after_unstage.
  destruct (decide (stagingStateFile ∈ l)) as [Hin|Hn].
  - right. eexists. split; [reflexivity|]. unfold loadStagingState. by rewrite foldl_delete_lookup, decide_True.
  - left. destruct Hr as [[_ H]|(m' & st & [= <-] & El & Hrest)]; [done|]. right. eexists _, st. split; [reflexivity|]. split; [|exact Hrest].
    unfold loadStagingState in *. by rewrite foldl_delete_lookup, decide_False.
Qed.

Lemma create_safe : always safe (mkDest ∅ NoStaging) (create_staging uri).
Proof.
  apply always_cons; [left; by left|]. apply always_cons; [right; by exists ∅|].
  apply always_cons; [right; eexists; split; [reflexivity|]; unfold loadStagingState; by rewrite lookup_insert_eq|].
  apply always_nil. left. right. cbn. eexists _, (mkState uri "downloading" []). split; [reflexivity|]. split; [|by auto].
  unfold loadStagingState. rewrite lookup_insert_eq. apply decode_encoded. unfold ascii_state. simpl. by rewrite uri_ascii.
Qed.

(** Every state of a preparation. *)
Lemma prepare_safe d : recoverable d -> always safe d (prepare d).1.
Proof.
  intros Hr. destruct (prepare_recovers d Hr) as (m & [[Hn E]|[Es E]] & _); rewrite E; cbn [fst].
  - destruct Hr as [[Hp _]|(m' & st & Es & _)]; [|congruence]. destruct d as [p s]. simpl in *. subst. apply create_safe.
  - destruct Hr as [[_ H]|(m' & st & Es' & El & Eu & Hph)]; [congruence|]. rewrite Es in Es'. injection Es' as <-.
    assert (stagingDirectory ∉ dom (Payload d)) as Hs by (destruct Hph as [[_ ->]|(_ & ? & _)]; [set_solver|done]).
    assert (after d (removals d) = mkDest ∅ (StagingDir m)) as E1 by (rewrite after_removals_empty, Es; done).
    assert (recoverable (mkDest ∅ (StagingDir m))) as Hr1.
    { right. exists m, st. split_and!; try done. cbn [Payload]. destruct Hph as [[? _]|[? _]]; [by left|right]. set_solver. }
    apply always_app; [apply always_app|].
    + eapply always_impl; [|by eapply removals_safe]. by left.
    + rewrite E1. apply always_app; [by eapply unstage_safe|]. rewrite after_unstage.
      apply always_cons; [|apply always_nil; left; by left].
      pose proof (unstage_safe (mkDest ∅ (StagingDir m)) m (listing m) eq_refl Hr1 _ (reflexivity _)) as H. by rewrite after_unstage in H.
    + rewrite after_app, E1, after_remove_staging. apply create_safe.
Qed.

(** ** The transaction *)

(** The entries a staging directory holds beside the state, in order. *)
Definition payload_names (m : Entries) : list string := filter (fun name => name <> stagingStateFile) (sorted_names m).

Lemma payload_names_in m k : k ∈ payload_names m <-> k <> stagingStateFile /\ is_Some (m !! k).
Proof. unfold payload_names, sorted_names. by rewrite list_elem_of_filter, sort_strings_perm, elem_of_elements, elem_of_dom. Qed.

Lemma payload_names_nodup m : NoDup (payload_names m).
Proof. unfold payload_names, sorted_names. apply NoDup_filter. rewrite sort_strings_perm. apply NoDup_elements. Qed.

Lemma move_files_prefix p m files :
  exists l, (move_files p m files).1 = Move <$> l /\ l `prefix_of` files /\ stagingDirectory ∉ l /\ (forall n, n ∈ l -> is_Some (m !! n))
    /\ ((move_files p m files).2 = None -> l = files).
Proof.
  revert p. induction files as [|n files IH]; intros p; cbn [move_files]; [exists []; split_and!; try done; set_solver|].
  destruct (m !! n) as [x|] eqn:En; [|exists []; split_and!; try done; [apply prefix_nil|set_solver..]].
  case_bool_decide as Es; [exists []; split_and!; try done; [apply prefix_nil|set_solver..]|].
  destruct (negb _); [exists []; split_and!; try done; [apply prefix_nil|set_solver..]|].
  destruct (IH (<[n := x]> p)) as (l & H1 & H2 & H3 & H4 & H5). destruct (move_files (<[n := x]> p) m files) as [cs err]. cbn [fst snd] in *.
  exists (n :: l). split_and!; [by rewrite H1|by apply prefix_cons|set_solver| |by intros ->%H5].
  intros k [->|Hk]%elem_of_cons; [by rewrite En|by apply H4].
Qed.

(** The states of the moves: what was moved is in the record of the
    transaction. *)
Lemma moves_recoverable m st l :
  load m = Some st -> SSubject st = uri -> SPhase st = "committing" -> NoDup l -> stagingDirectory ∉ l -> stagingStateFile ∉ l ->
  (forall n, n ∈ l -> n ∈ SFiles st /\ is_Some (m !! n)) ->
  always recoverable (mkDest ∅ (StagingDir m)) (Move <$> l).
Proof.
  intros El Eu Ep Hnd Hs Hf Hin p (l' & -> & [r ->])%fmap_prefix. apply NoDup_app in Hnd as (Hnd & _ & _).
  assert (forall n, n ∈ l' -> n ∈ SFiles st /\ is_Some (m !! n)) as Hin' by (intros n Hn; apply Hin, elem_of_app; by left).
  rewrite after_moves by naive_solver. right. eexists _, st. split; [reflexivity|]. split_and!; try done.
  - unfold loadStagingState in *. rewrite foldl_delete_lookup, decide_False by set_solver. done.
  - right. split; [done|]. cbn [Payload].
    assert (forall k, k ∈ dom (moved m ∅ l') -> k ∈ l') as Hd.
    { intros k. rewrite elem_of_dom, moved_lookup. destruct (decide (k ∈ l')); [done|]. rewrite lookup_empty. by intros []. }
    split; [intros Hk%Hd; set_solver|]. intros k Hk%Hd. by apply Hin'.
Qed.

(** Staging is under way: the state is that of a download of [uri]. *)
Definition downloading (m : Entries) : Prop := exists data, m !! stagingStateFile = Some (File data) /\ decode_state data = Some (mkState uri "downloading" []).

Lemma downloading_recoverable m : downloading m -> recoverable (mkDest ∅ (StagingDir m)).
Proof.
  intros (data & Hm & Hd). right. exists m, (mkState uri "downloading" []). split_and!; try done; [|by left].
  unfold loadStagingState. by rewrite Hm.
Qed.

Definition commit_state (m : Entries) : stagingState := mkState uri "committing" (payload_names m).

Lemma commit_safe m :
  downloading m -> (forall k, k ∈ dom m -> is_ascii k = true) ->
  let r := commitStagingDirectory uri (mkDest ∅ (StagingDir m)) m in
  always safe (mkDest ∅ (StagingDir m)) r.1
  /\ exists p m', after (mkDest ∅ (StagingDir m)) r.1 = mkDest p (StagingDir m') /\ recoverable (mkDest p (StagingDir m')).
Proof.
  intros Hm Hascii. unfold commitStagingDirectory. fold (payload_names m). change (mkState uri "committing" (payload_names m)) with (commit_state m). destruct Hm as (data & Hs & Hd) eqn:Hm'. clear Hm'.
  unfold state_writable. rewrite Hs. cbn [negb Payload].
  destruct (move_files_prefix ∅ m (payload_names m)) as (l & H1 & H2 & H3 & H4 & _).
  destruct (move_files ∅ m (payload_names m)) as [cs err]. cbn [fst snd] in *. subst cs.
  set (m2 := <[stagingStateFile := File (encode_state (commit_state m))]> m).
  assert (after (mkDest ∅ (StagingDir m)) (writeStagingState (commit_state m)) = mkDest ∅ (StagingDir m2)) as Ew
    by (cbn; by rewrite insert_insert_eq).
  assert (load m2 = Some (commit_state m)) as El.
  { unfold loadStagingState, m2. rewrite lookup_insert_eq. apply decode_encoded. unfold ascii_state, commit_state. simpl. rewrite uri_ascii. simpl.
    apply forallb_forall. intros k Hk%base.list_elem_of_In. apply payload_names_in in Hk as [_ Hk]. apply Hascii, elem_of_dom, Hk. }
  assert (stagingStateFile ∉ l) as Hsl.
  { intros Hin. destruct H2 as [r E]. assert (stagingStateFile ∈ payload_names m) as Hp by (rewrite E; apply elem_of_app; by left).
    by apply payload_names_in in Hp as [? _]. }
  assert (NoDup l) as Hnd.
  { destruct H2 as [r E]. pose proof (payload_names_nodup m) as Hnd. rewrite E in Hnd. by apply NoDup_app in Hnd as [? _]. }
  assert (forall n, n ∈ l -> is_Some (m2 !! n)) as Hin.
  { intros n Hn. unfold m2. rewrite lookup_insert_ne by set_solver. by apply H4. }
  assert (always recoverable (mkDest ∅ (StagingDir m2)) (Move <$> l)) as Hmv.
  { eapply moves_recoverable; try done. intros n Hn. split; [|by apply Hin]. destruct H2 as [r E]. unfold commit_state. cbn [SFiles].
    rewrite E. apply elem_of_app. by left. }
  split.
  - apply always_app; [|rewrite Ew; eapply always_impl; [|exact Hmv]; by left].
    apply always_cons; [left; apply downloading_recoverable; by exists data|].
    apply always_cons; [right; eexists; split; [reflexivity|]; unfold loadStagingState; by rewrite lookup_insert_eq|].
    apply always_nil. left. pose proof (Hmv [] (prefix_nil _)) as H. simpl in H. cbn. by rewrite insert_insert_eq.
  - rewrite after_app, Ew. pose proof (Hmv _ (reflexivity _)) as Hr.
    rewrite after_moves in Hr by done. rewrite after_moves by done. eauto.
Qed.

(** ** The run *)

Context (decode_record : string -> option RuntimeVerificationRecord) (env : Environment).

(** A client fills the staging directory without touching the state, with
    names in ASCII. *)
Definition polite : Prop :=
  forall scheme pull, client env scheme = Some pull ->
  (pull uri begun).1 !! stagingStateFile = begun !! stagingStateFile /\ forall k, k ∈ dom (pull uri begun).1 -> is_ascii k = true.

Lemma write_record_keeps m r m' :
  writeCacheRuntimeVerificationRecord m r = Some m' ->
  exists es, m' = <[verificationStateDir := Dir es]> m /\ find_entry verificationStateFile es = Some (File (encode_record r))
    /\ match m !! verificationStateDir with None | Some (Dir _) => True | _ => False end.
Proof.
  unfold writeCacheRuntimeVerificationRecord.
  assert (forall n es, find_entry verificationStateFile (set_entry verificationStateFile n es) = Some n) as Hset.
  { intros n es. induction es as [|[k x] es IH]; cbn [set_entry]; [done|]. case_bool_decide as E; unfold find_entry in *; cbn [List.find fst].
    - by rewrite bool_decide_eq_true_2.
    - by rewrite bool_decide_eq_false_2. }
  destruct (m !! verificationStateDir) as [[| | |es]|]; try done; [|intros [= <-]; eauto].
  destruct (find_entry verificationStateFile es) as [[| | |]|]; try done; intros [= <-]; eexists; split_and!; eauto.
Qed.

Lemma begun_downloading : downloading begun.
Proof.
  eexists. unfold begun. rewrite lookup_singleton_eq. split; [reflexivity|]. apply decode_encoded. unfold ascii_state. simpl. by rewrite uri_ascii.
Qed.

Lemma transaction_safe skip cfg scheme pull :
  polite -> client env scheme = Some pull ->
  let r := transaction env skip cfg uri scheme pull fresh in
  always safe fresh r.1 /\ exists p m', after fresh r.1 = mkDest p (StagingDir m') /\ recoverable (mkDest p (StagingDir m')).
Proof.
  intros Hpol Hc. destruct (Hpol scheme pull Hc) as [Hkeep Hascii]. pose proof begun_downloading as Hm0. unfold fresh.
  revert Hkeep Hascii Hm0. generalize begun as m0. intros m0 Hkeep Hascii Hm0. unfold transaction. cbn [staged Staging].
  destruct (pull uri m0) as [m ok]. cbn [fst] in *.
  assert (downloading m) as Hm by (destruct Hm0 as (data & H1 & H2); exists data; by rewrite Hkeep).
  pose proof (downloading_recoverable m0 Hm0) as Hr0. pose proof (downloading_recoverable m Hm) as Hr.
  assert (always safe (mkDest ∅ (StagingDir m0)) [Pulled m]) as H1
    by (apply always_cons; [by left|]; apply always_nil; by left).
  destruct ok; cbn [negb]; [|split; [done|]; by eexists ∅, m].
  change (apply (mkDest ∅ (StagingDir m0)) (Pulled m)) with (mkDest ∅ (StagingDir m)).
  destruct skip.
  { destruct (commit_safe m Hm Hascii) as [C1 C2]. destruct (commitStagingDirectory uri _ m) as [cs err]. cbn [fst] in *.
    split; [|exact C2]. by apply always_cons; [left|]. }
  destruct (assessProvenance env uri scheme m cfg) as [record|]; [|split; [done|]; by eexists ∅, m].
  destruct (writeCacheRuntimeVerificationRecord m record) as [m'|] eqn:Ew; [|split; [done|]; by eexists ∅, m].
  destruct (write_record_keeps _ _ _ Ew) as (es & -> & _ & _).
  assert (downloading (<[verificationStateDir := Dir es]> m)) as Hm'.
  { destruct Hm as (data & E1 & E2). exists data. by rewrite lookup_insert_ne. }
  assert (forall k, k ∈ dom (<[verificationStateDir := Dir es]> m) -> is_ascii k = true) as Hascii'.
  { intros k. rewrite dom_insert. intros [->%elem_of_singleton|Hk]%elem_of_union; [reflexivity|by apply Hascii]. }
  change (apply (mkDest ∅ (StagingDir m)) (Recorded ?m)) with (mkDest ∅ (StagingDir m)).
  destruct (commit_safe _ Hm' Hascii') as [C1 C2]. destruct (commitStagingDirectory uri _ _) as [cs err]. cbn [fst] in *.
  split; [|exact C2]. apply always_cons; [by left|]. by apply always_cons; [left|].
Qed.

(** A proper prefix of changes that end with the removal of the staging
    directory. *)
Lemma prefix_snoc {A} (p l : list A) x : p `prefix_of` l ++ [x] -> p = l ++ [x] \/ p `prefix_of` l.
Proof.
  intros [k E]. destruct (decide (k = [])) as [->|Hk]; [left; by rewrite app_nil_r in E|right].
  destruct (exists_last Hk) as (k' & y & ->). rewrite app_assoc in E. apply app_inj_tail in E as [-> _]. by exists k'.
Qed.

Lemma run_safe skip cfg d p :
  polite -> recoverable d -> p `prefix_of` (run listing decode_state decode_record env skip cfg uri d).1 ->
  p = (run listing decode_state decode_record env skip cfg uri d).1 \/ safe (after d p).
Proof.
  intros Hpol Hr. unfold run. destruct (Index uri "://") as [i|]; [|intros ->%prefix_nil_inv; by left].
  destruct (client env _) as [pull|] eqn:Ec; [|intros ->%prefix_nil_inv; by left].
  destruct (cache_hit _ _ _ _ d) as [r|]; [intros ->%prefix_nil_inv; by left|].
  pose proof (prepare_safe d Hr) as Hps. destruct (prepare_recovers d Hr) as (m & Hprep & Hfresh).
  destruct (prepare d) as [cs err]. cbn [fst] in *. assert (err = None) as -> by (destruct Hprep as [[_ [= _ ->]]|[_ [= _ ->]]]; done).
  rewrite Hfresh.
  destruct (transaction_safe skip cfg (str_take i uri) pull Hpol Ec) as (Ht & q & m' & Ea & Hr').
  destruct (transaction env skip cfg uri (str_take i uri) pull fresh) as [ts [record err]]. cbn [fst] in *. rewrite Ea. cbn [staged Staging].
  unfold remove_staging. rewrite !app_assoc. intros [->|Hp]%prefix_snoc; [by left|right]. revert p Hp.
  change (always safe d ((cs ++ ts) ++ (RemoveStaged <$> listing m'))).
  apply always_app; [apply always_app; [done|by rewrite Hfresh]|]. rewrite after_app, Hfresh, Ea. by eapply unstage_safe.
Qed.

(** C20. Crash safety of the storage initializer, for an ASCII model address, a
    source that leaves the state file of the transaction alone and stores files
    under ASCII names, and a destination that is empty or was left by an
    interrupted run for the same address.  Wherever the initializer is stopped
    before its last change, the next preparation for that address either
    starts over with an empty destination and a new staging directory, nothing
    of the interrupted attempt left, or (when the state of the transaction
    cannot be read) refuses without touching anything. *)
Theorem crash_recovery skip cfg d p :
  polite -> recoverable d -> p `prefix_of` (run listing decode_state decode_record env skip cfg uri d).1 ->
  p <> (run listing decode_state decode_record env skip cfg uri d).1 ->
  ((prepareStagingDirectory listing decode_state uri (after d p)).2 = None
   /\ after (after d p) (prepareStagingDirectory listing decode_state uri (after d p)).1
      = mkDest ∅ (StagingDir {[stagingStateFile := File (encode_state (mkState uri "downloading" []))]}))
  \/ (exists m, Staging (after d p) = StagingDir m /\ loadStagingState decode_state m = None)
     /\ prepareStagingDirectory listing decode_state uri (after d p) = ([], Some UnrecognizedTransaction).
Proof.
  intros Hpol Hr Hp Hne. destruct (run_safe skip cfg d p Hpol Hr Hp) as [?|[H|H]]; [done|left|right].
  - destruct (prepare_recovers _ H) as (m & [[_ E]|[_ E]] & Hf); split; try exact Hf; by rewrite E.
  - split; [exact H|by apply prepare_torn].
Qed.

(** ** Files of others *)

Lemma recover_entries_removes phase allowed entries n :
  RemoveEntry n ∈ (recover_entries phase allowed entries).1 -> phase = "committing" /\ n ∈ allowed.
Proof.
  induction entries as [|k entries IH]; cbn [recover_entries]; [by intros ?%not_elem_of_nil|].
  case_bool_decide; [done|]. case_bool_decide as Hp; cbn [negb]; [|by intros ?%not_elem_of_nil].
  destruct (existsb _ _) eqn:E; cbn [negb]; [|by intros ?%not_elem_of_nil]. apply existsb_eq_in in E.
  destruct (recover_entries phase allowed entries) as [cs err]. cbn [fst] in *. rewrite elem_of_cons. intros [[= ->]|Hin]; [done|by apply IH].
Qed.

(** Changes that remove no entry but those of a set, and move nothing. *)
Definition removes_only (S : string -> Prop) (c : change) : Prop :=
  match c with RemoveEntry n => S n | Move _ => False | _ => True end.

Lemma frame_removes (S : string -> Prop) d cs k : Forall (removes_only S) cs -> ~ S k -> Payload (after d cs) !! k = Payload d !! k.
Proof.
  intros H Hk. revert d. induction H as [|c cs Hc _ IH]; intros d; [done|]. cbn [after foldl]. change (foldl apply ?d ?l) with (after d l). rewrite IH.
  destruct c, d as [p []]; simpl in *; try done; rewrite lookup_delete_ne; congruence.
Qed.

(** The entries the recorded transaction may remove. *)
Definition recorded (d : Dest) (n : string) : Prop :=
  exists m st, Staging d = StagingDir m /\ load m = Some st /\ SSubject st = uri /\ SPhase st = "committing" /\ n ∈ SFiles st.

Lemma prepare_removes d : Forall (removes_only (recorded d)) (prepare d).1.
Proof.
  assert (Forall (removes_only (recorded d)) (create_staging uri)) as Hc by (by repeat constructor).
  assert (Forall (removes_only (recorded d)) (recoverStagingTransaction listing decode_state uri d).1) as Hr.
  { unfold recoverStagingTransaction. destruct (Staging d) as [|m|] eqn:Es; [constructor| |constructor].
    destruct (load m) as [st|] eqn:El; [|constructor]. case_bool_decide as Eu; cbn [negb]; [|constructor].
    destruct (_ && _); [constructor|]. pose proof (recover_entries_removes (SPhase st) (SFiles st) (entry_names d)) as H.
    assert (Forall (removes_only (recorded d)) (recover_entries (SPhase st) (SFiles st) (entry_names d)).1) as Hf.
    { apply Forall_forall. intros c Hc'. assert (exists n, c = RemoveEntry n) as [n ->].
      { clear -Hc'. revert Hc'. generalize (entry_names d) as es. induction es as [|k es IH]; cbn [recover_entries]; [by intros ?%not_elem_of_nil|].
        case_bool_decide; [done|]. destruct (negb _); [by intros ?%not_elem_of_nil|]. destruct (negb _); [by intros ?%not_elem_of_nil|].
        destruct (recover_entries _ _ es) as [cs err]. cbn [fst] in *. rewrite elem_of_cons. intros [->|?]; [by eexists|auto]. }
      destruct (H n Hc') as [E1 E2]. exists m, st. done. }
    destruct (recover_entries _ _ _) as [cs [err|]]; [done|]. apply Forall_app. split; [done|]. unfold remove_staging.
    apply Forall_app. split; [|by repeat constructor]. apply Forall_forall. by intros c (? & -> & _)%list_elem_of_fmap. }
  unfold prepareStagingDirectory. destruct (entry_names d); [done|].
  destruct (recoverStagingTransaction _ _ _ d) as [cs [err|]]; [done|]. destruct (entry_names (after d cs)); [|done]. by apply Forall_app.
Qed.

(** Preparing a destination never removes or changes an entry that the
    transaction recorded there for the same address does not list, whatever the
    destination holds and wherever the preparation is stopped. *)
Theorem foreign_files_kept d p k :
  p `prefix_of` (prepareStagingDirectory listing decode_state uri d).1 ->
  ~ (exists m st, Staging d = StagingDir m /\ loadStagingState decode_state m = Some st /\ SSubject st = uri /\ SPhase st = "committing"
       /\ k ∈ SFiles st) ->
  Payload (after d p) !! k = Payload d !! k.
Proof.
  intros [q E] Hk. apply (frame_removes (recorded d)); [|exact Hk]. pose proof (prepare_removes d) as H. rewrite E in H. by apply Forall_app in H as [? _].
Qed.

(** ** The digest of a listing *)

Definition contribution (m : Entries) (k : string) : option string := match m !! k with Some n => walk k k n | None => Some "" end.

Fixpoint walk_names (f : string -> option string) (l : list string) : option string :=
  match l with
  | [] => Some ""
  | k :: l => a ← f k; b ← walk_names f l; Some (a +:+ b)
  end.

Lemma walk_sorted m : walk_entries (sorted_entries m) = walk_names (contribution m) (sorted_names m).
Proof.
  unfold sorted_entries. assert (forall k, k ∈ sorted_names m -> is_Some (m !! k)) as H.
  { intros k. unfold sorted_names. by rewrite sort_strings_perm, elem_of_elements, elem_of_dom. }
  induction (sorted_names m) as [|k l IH]; [done|]. destruct (H k) as [n Hn]; [by left|]. simpl. rewrite Hn. simpl.
  assert (contribution m k = walk k k n) as -> by (unfold contribution; by rewrite Hn). rewrite <- IH by (intros; apply H; by right). done.
Qed.

Lemma walk_names_ext f g l : (forall k, k ∈ l -> f k = g k) -> walk_names f l = walk_names g l.
Proof. intros H. induction l as [|k l IH]; [done|]. cbn [walk_names]. rewrite (H k) by (by left). rewrite IH; [done|]. intros; apply H; by right. Qed.

(** Entries that contribute nothing can be left out. *)
Lemma walk_names_filter f l (skip : string -> Prop) `{forall k, Decision (skip k)} :
  (forall k, skip k -> f k = Some "") -> walk_names f l = walk_names f (filter (fun k => ~ skip k) l).
Proof.
  intros Hs. induction l as [|k l IH]; [done|]. rewrite filter_cons. cbn [walk_names]. destruct (decide (~ skip k)) as [Hk|Hk]; cbn [walk_names].
  - by rewrite IH.
  - assert (f k = Some "") as -> by (apply Hs; destruct (H k) as [Hy|Hn]; [exact Hy|exact (False_ind _ (Hk Hn))]). rewrite <- IH. destruct (walk_names f l); reflexivity.
Qed.

Lemma sorted_filter (P : string -> Prop) `{forall k, Decision (P k)} (l : list string) :
  StronglySorted str_le l -> StronglySorted str_le (filter P l).
Proof.
  induction 1 as [|k l Hs IH Hf]; [constructor|]. rewrite filter_cons. destruct (decide (P k)); [|done]. constructor; [done|].
  rewrite Forall_forall in *. intros x Hx. apply Hf. by apply list_elem_of_filter in Hx as [_ Hx].
Qed.

(** Two directories that differ only in entries that contribute nothing. *)
Lemma same_digest m m' (skip : string -> Prop) `{forall k, Decision (skip k)} :
  (forall k, skip k -> contribution m k = Some "" /\ contribution m' k = Some "") -> (forall k, ~ skip k -> m !! k = m' !! k) ->
  directoryDigest (sorted_entries m) = directoryDigest (sorted_entries m').
Proof.
  intros Hs Heq. unfold directoryDigest. f_equal. rewrite !walk_sorted.
  rewrite (walk_names_filter _ (sorted_names m) skip) by naive_solver. rewrite (walk_names_filter _ (sorted_names m') skip) by naive_solver.
  assert (filter (fun k => ~ skip k) (sorted_names m) = filter (fun k => ~ skip k) (sorted_names m')) as <-.
  { unfold sorted_names. apply (StronglySorted_unique str_le); [apply sorted_filter, sort_strings_sorted..|].
    rewrite !sort_strings_perm. apply NoDup_Permutation; [apply NoDup_filter, NoDup_elements..|].
    intros k. rewrite !list_elem_of_filter, !elem_of_elements, !elem_of_dom. split; intros [Hk Hi]; (split; [done|]);
      [rewrite <- Heq by done|rewrite Heq by done]; done. }
  apply walk_names_ext. intros k [Hk _]%list_elem_of_filter. unfold contribution. by rewrite Heq.
Qed.

(** ** Reuse *)

Definition ascii_record (r : RuntimeVerificationRecord) : bool :=
  forallb is_ascii [Subject r; Scheme_ r; SignatureDigest r; AttestationURI r; SBOMDigest r; ContentDigest r; KeyRef r; CertificateIdentity r;
    CertificateIssuer r; VerifiedAt r; Error r].

Context (decode_record_encoded : forall r, ascii_record r = true -> decode_record (encode_record r) = Some r).

Local Abbreviation run_ := (run listing decode_state decode_record env false).

Lemma assess_record scheme m cfg r :
  assessProvenance env uri scheme m cfg = Some r ->
  Subject r = uri /\ ContentIntegrityVerified r = true /\ directoryDigest (sorted_entries m) = Some (ContentDigest r).
Proof.
  unfold assessProvenance. destruct (materializeVerifierConfig env cfg) as [v|]; [|done]. cbn [mbind option_bind].
  set (rec := if _ || _ then _ else _). assert (forall r0, rec = Some r0 -> Subject r0 = uri) as Hrec.
  { intros r0. subst rec. destruct (_ || _); [|by intros [= <-]]. unfold verifyOCIProvenance. destruct (_ && _); [done|].
    intros Hv. do 3 apply bind_Some in Hv as (? & _ & Hv). by injection Hv as <-. }
  clearbody rec. destruct rec as [r0|]; [|done]. cbn [mbind option_bind]. destruct (directoryDigest _) as [dg|]; [|done]. intros [= <-].
  simpl. auto.
Qed.

(** What a finished commit leaves: the staged entries but the state. *)
Lemma committed m :
  downloading m -> (commitStagingDirectory uri (mkDest ∅ (StagingDir m)) m).2 = None ->
  exists m', after (mkDest ∅ (StagingDir m)) (commitStagingDirectory uri (mkDest ∅ (StagingDir m)) m).1
    = mkDest (delete stagingStateFile m) (StagingDir m').
Proof.
  intros (data & Hs & _). unfold commitStagingDirectory. fold (payload_names m). unfold state_writable. rewrite Hs. cbn [negb Payload].
  destruct (move_files_prefix ∅ m (payload_names m)) as (l & H1 & _ & _ & _ & H5).
  destruct (move_files ∅ m (payload_names m)) as [cs err]. cbn [fst snd] in *. intros ->. rewrite (H5 eq_refl) in H1. subst cs.
  change (writeStagingState ?st ++ ?cs) with (writeStagingState st ++ cs). rewrite after_app.
  set (m2 := <[stagingStateFile := File (encode_state (mkState uri "committing" (payload_names m)))]> m).
  assert (after (mkDest ∅ (StagingDir m)) (writeStagingState (mkState uri "committing" (payload_names m))) = mkDest ∅ (StagingDir m2)) as ->
    by (cbn; by rewrite insert_insert_eq).
  assert (forall n, n ∈ payload_names m -> m2 !! n = m !! n /\ is_Some (m !! n)) as Hin.
  { intros n [Hn Hm]%payload_names_in. unfold m2. by rewrite lookup_insert_ne. }
  rewrite after_moves; [|intros n Hn; destruct (Hin n Hn) as [-> ?]; done|apply payload_names_nodup].
  eexists. f_equal. apply map_eq. intros k. rewrite moved_lookup, lookup_empty. destruct (decide (k ∈ payload_names m)) as [Hk|Hk].
  - destruct (Hin k Hk) as [-> [x Hx]]. apply payload_names_in in Hk as [Hk _]. rewrite lookup_delete_ne by done. by rewrite Hx.
  - destruct (decide (k = stagingStateFile)) as [->|Hne]; [by rewrite lookup_delete_eq|]. rewrite lookup_delete_ne by done.
    destruct (m !! k) eqn:E; [|done]. destruct Hk. apply payload_names_in. by rewrite E.
Qed.

(** A destination with the payload and the record of a run is a cache hit. *)
Lemma published_hit m es r scheme :
  directoryDigest (sorted_entries m) = Some (ContentDigest r) -> Subject r = uri -> ContentIntegrityVerified r = true -> ascii_record r = true ->
  downloading m -> find_entry verificationStateFile es = Some (File (encode_record r)) ->
  match m !! verificationStateDir with None | Some (Dir _) => True | _ => False end ->
  cache_hit decode_record false uri scheme (mkDest (delete stagingStateFile (<[verificationStateDir := Dir es]> m)) NoStaging) = Some r.
Proof.
  intros Hd Hs Hc Ha (data & Hst & _) Hf Hdir. unfold cache_hit, loadCachedRuntimeVerificationRecord. cbn [Payload].
  destruct (entry_names _) as [|e l] eqn:En.
  { apply entry_names_nil in En as [En _]. cbn [Payload] in En. apply (f_equal (fun m => m !! verificationStateDir)) in En.
    rewrite lookup_delete_ne, lookup_insert_eq in En by done. done. }
  rewrite lookup_delete_ne, lookup_insert_eq by done. rewrite Hf, decode_record_encoded by done. cbn [mbind option_bind].
  rewrite Hs, bool_decide_eq_true_2 by done. cbn [negb]. destruct (Verified r); [done|]. rewrite Hc. cbn [andb].
  rewrite bool_decide_eq_true_2; [done|]. unfold dest_entries. cbn [Staging Payload]. rewrite <- Hd.
  apply (same_digest _ _ (fun k => k = verificationStateDir \/ k = stagingStateFile)).
  - intros k [->| ->]; unfold contribution.
    + rewrite lookup_delete_ne, lookup_insert_eq by done. split; [done|]. by destruct (m !! verificationStateDir) as [[]|].
    + rewrite lookup_delete_eq, Hst. done.
  - intros k Hk. rewrite lookup_delete_ne, lookup_insert_ne by naive_solver. done.
Qed.

(** A run that succeeded is reused: run again on the destination it left,
    the initializer changes nothing and returns the same record. *)
Theorem finished_run_reused cfg d cs r :
  polite -> recoverable d -> ascii_record r = true ->
  run listing decode_state decode_record env false cfg uri d = (cs, (r, None)) ->
  run listing decode_state decode_record env false cfg uri (after d cs) = ([], (r, None)).
Proof.
  intros Hpol Hr Ha Hrun. pose proof Hrun as Hrun0. unfold run in Hrun. destruct (Index uri "://") as [i|] eqn:Ei; [|done].
  destruct (client env (str_take i uri)) as [pull|] eqn:Ec; [|done].
  destruct (cache_hit decode_record false uri (str_take i uri) d) as [r0|] eqn:Eh; [injection Hrun as <- <-; exact Hrun0|].
  destruct (prepare_recovers d Hr) as (m0 & Hprep & Hfresh). destruct (prepare d) as [ps err]. cbn [fst] in *.
  assert (err = None) as -> by (destruct Hprep as [[_ [= _ ->]]|[_ [= _ ->]]]; done). rewrite Hfresh in Hrun.
  unfold transaction, fresh in Hrun. cbn [staged Staging] in Hrun.
  destruct (Hpol _ _ Ec) as [Hkeep _].
  destruct (pull uri _) as [m ok] eqn:Epull. cbn [fst] in Hkeep.
  assert (downloading m) as Hm by (destruct begun_downloading as (data & H1 & H2); exists data; by rewrite Hkeep).
  destruct ok; [|done]. cbn [negb] in Hrun. destruct (assessProvenance env uri (str_take i uri) m cfg) as [rec|] eqn:Eas; [|done].
  destruct (writeCacheRuntimeVerificationRecord m rec) as [m'|] eqn:Ew; [|done].
  destruct (write_record_keeps _ _ _ Ew) as (es & -> & Hf & Hdir). destruct (assess_record _ _ _ _ Eas) as (Hs & Hc & Hd).
  assert (downloading (<[verificationStateDir := Dir es]> m)) as Hm'.
  { destruct Hm as (data & E1 & E2). exists data. by rewrite lookup_insert_ne. }
  change (apply (apply ?d (Pulled ?m)) (Recorded ?m')) with (mkDest ∅ (StagingDir m')) in Hrun.
  pose proof (committed _ Hm') as Hcommit. destruct (commitStagingDirectory uri _ _) as [ms merr] eqn:Ecm.
  apply pair_eq in Hrun as [Hcs Hres]. injection Hres as <- ->.
  destruct (Hcommit eq_refl) as (m2 & Efin). cbn [fst] in Efin.
  assert (after (mkDest ∅ (StagingDir begun))
    ([Pulled m; Recorded (<[verificationStateDir := Dir es]> m)] ++ ms)
    = mkDest (delete stagingStateFile (<[verificationStateDir := Dir es]> m)) (StagingDir m2)) as Et by (rewrite after_app; exact Efin).
  assert (after d cs = mkDest (delete stagingStateFile (<[verificationStateDir := Dir es]> m)) NoStaging) as Ecs.
  { rewrite <- Hcs, (after_app d), Hfresh, (after_app fresh). unfold fresh. rewrite Et. apply after_remove_staging. }
  unfold run. rewrite Ei, Ec, Ecs. by rewrite (published_hit m es rec).
Qed.

End Recovery.
