(* ===== verification/StagingWitness.v ===== *)
(** * The storage initializer on concrete inputs

    Readers for the two JSON documents the initializer writes, as instances of
    the decoders, and runs of the initializer with them: the hypotheses of
    [StagingRecovery] hold together, and two crashes end badly. *)

From S2P Require Import Prelude GoStrings Sha256 GoJson Receipts StagingTransaction StagingRecovery.
From Stdlib Require Import Ascii.

(** ** Readers *)

Definition expect (p s : string) : option string := if HasPrefix s p then Some (str_drop (String.length p) s) else None.

Lemma expect_app p t : expect p (p +:+ t) = Some t.
Proof. unfold expect. by rewrite HasPrefix_app, str_drop_app. Qed.

Lemma expect_app3 a b c t : expect (a +:+ b +:+ c) (a +:+ b +:+ c +:+ t) = Some t.
Proof. rewrite (string_app_assoc b c t), (string_app_assoc a (b +:+ c) t). apply expect_app. Qed.

Definition read_string (s : string) : option (string * string) := t ← expect quote s; json_read t.

Lemma read_string_ok s t : is_ascii s = true -> read_string (json_string s +:+ t) = Some (s, t).
Proof.
  intros Ha. unfold read_string, json_string. rewrite <- !string_app_assoc, expect_app. by apply json_read_chars, ascii_valid_utf8.
Qed.

Fixpoint read_list (fuel : nat) (s : string) : option (list string * string) :=
  match fuel with
  | O => None
  | S fuel =>
      '(x, t) ← read_string s;
      match expect "," t with
      | Some t => '(xs, t) ← read_list fuel t; Some (x :: xs, t)
      | None => t ← expect "]" t; Some ([x], t)
      end
  end.

Lemma concat_cons2 sep (a b : string) l : String.concat sep (a :: b :: l) = a +:+ sep +:+ String.concat sep (b :: l).
Proof. reflexivity. Qed.

Lemma read_list_ok fuel x xs t :
  forallb is_ascii (x :: xs) = true -> (length xs < fuel)%nat ->
  read_list fuel (String.concat "," (json_string <$> x :: xs) +:+ "]" +:+ t) = Some (x :: xs, t).
Proof.
  revert x xs. induction fuel as [|fuel IH]; intros x xs Ha Hf; [lia|]. cbn [forallb] in Ha. apply andb_true_iff in Ha as [Hx Ha].
  cbn [read_list]. destruct xs as [|y xs].
  - change (String.concat "," (json_string <$> [x])) with (json_string x). rewrite read_string_ok by done. cbn [mbind option_bind].
    change (expect "," ("]" +:+ t)) with (@None string). by rewrite expect_app.
  - rewrite !fmap_cons, concat_cons2, <- !string_app_assoc, read_string_ok by done. cbn [mbind option_bind]. rewrite expect_app.
    rewrite <- fmap_cons, IH by (done || simpl in Hf; lia). done.
Qed.

(** The staging state. *)
Definition read_state (s : string) : option stagingState :=
  t ← expect ("{" +:+ json_string "subject" +:+ ":") s;
  '(subject, t) ← read_string t;
  t ← expect ("," +:+ json_string "phase" +:+ ":") t;
  '(phase, t) ← read_string t;
  match expect ("," +:+ json_string "files" +:+ ":[") t with
  | Some t => '(files, t) ← read_list (String.length t) t; Some (mkState subject phase files)
  | None => Some (mkState subject phase [])
  end.

Lemma concat_length x xs : (length xs < String.length (String.concat "," (json_string <$> x :: xs)))%nat.
Proof.
  revert x. induction xs as [|y xs IH]; intros x; [unfold json_string; simpl; lia|]. rewrite !fmap_cons, concat_cons2, !str_length_app.
  specialize (IH y). rewrite fmap_cons in IH. cbn [length String.length]. lia.
Qed.

Lemma read_state_encoded st : ascii_state st = true -> read_state (encode_state st) = Some st.
Proof.
  destruct st as [subject phase files]. unfold ascii_state, encode_state, json_object, read_state. cbn [SSubject SPhase SFiles].
  intros [[Hs Hp]%andb_true_iff Hf]%andb_true_iff. destruct files as [|f files]; cbn [app fmap list_fmap].
  - rewrite concat_cons2. change (String.concat "," [?x]) with x. rewrite <- !string_app_assoc.
    rewrite expect_app3. cbn [mbind option_bind].
    rewrite read_string_ok by done. cbn [mbind option_bind].
    rewrite expect_app3. cbn [mbind option_bind].
    rewrite read_string_ok by done. done.
  - rewrite !concat_cons2. change (String.concat "," [?x]) with x. rewrite <- !string_app_assoc.
    rewrite expect_app3. cbn [mbind option_bind].
    rewrite read_string_ok by done. cbn [mbind option_bind].
    rewrite expect_app3. cbn [mbind option_bind].
    rewrite read_string_ok by done. cbn [mbind option_bind]. unfold json_array. rewrite <- !string_app_assoc.
    change (":" +:+ "[" +:+ ?x) with (":[" +:+ x). rewrite expect_app3. rewrite <- !fmap_cons.
    rewrite read_list_ok; [done..|]. rewrite str_length_app. pose proof (concat_length f files). lia.
Qed.

(** ** The verification record *)

(** A field: a string, or a flag that is set. *)
Notation field := (string * option string)%type.

Definition render_field (f : field) : string * string := (f.1, match f.2 with Some v => json_string v | None => "true" end).

Definition str_field (k v : string) : list field := if v ==? "" then [] else [(k, Some v)].
Definition flag_field (k : string) (b : bool) : list field := if b then [(k, None)] else [].

Definition typed_fields (r : RuntimeVerificationRecord) : list field :=
  str_field "subject" (Subject r) ++ str_field "scheme" (Scheme_ r) ++ flag_field "signatureVerified" (SignatureVerified r)
  ++ flag_field "attestationVerified" (AttestationVerified r) ++ flag_field "sbomVerified" (SBOMVerified r)
  ++ str_field "signatureDigest" (SignatureDigest r) ++ str_field "attestationUri" (AttestationURI r) ++ str_field "sbomDigest" (SBOMDigest r)
  ++ str_field "contentDigest" (ContentDigest r) ++ flag_field "contentIntegrityVerified" (ContentIntegrityVerified r)
  ++ str_field "keyRef" (KeyRef r) ++ str_field "certificateIdentity" (CertificateIdentity r)
  ++ str_field "certificateIssuer" (CertificateIssuer r) ++ str_field "verifiedAt" (VerifiedAt r) ++ str_field "error" (Error r).

Lemma record_fields_typed r : record_fields r = render_field <$> typed_fields r.
Proof.
  unfold record_fields, typed_fields. rewrite !fmap_app.
  assert (forall k v, (if v ==? "" then [] else [(k, json_string v)]) = render_field <$> str_field k v) as Es
    by (intros; unfold str_field; by case_bool_decide).
  assert (forall (k : string) (b : bool), (if b then [(k, "true")] else []) = render_field <$> flag_field k b) as Ef by (intros ? []; done).
  cbv zeta. by rewrite !Es, !Ef.
Qed.

Definition read_field (s : string) : option (field * string) :=
  t ← expect "  " s;
  '(k, t) ← read_string t;
  t ← expect ": " t;
  match expect "true" t with
  | Some t => Some ((k, None), t)
  | None => '(v, t) ← read_string t; Some ((k, Some v), t)
  end.

Fixpoint read_fields (fuel : nat) (s : string) : option (list field) :=
  match fuel with
  | O => None
  | S fuel =>
      '(f, t) ← read_field s;
      match expect ("," +:+ newline) t with
      | Some t => fs ← read_fields fuel t; Some (f :: fs)
      | None => Some [f]
      end
  end.

Definition get_str (fs : list field) (k : string) : string := match List.find (fun f => fst f ==? k) fs with Some (_, Some v) => v | _ => "" end.
Definition get_flag (fs : list field) (k : string) : bool := match List.find (fun f => fst f ==? k) fs with Some (_, None) => true | _ => false end.

Definition record_of (fs : list field) : RuntimeVerificationRecord :=
  mkRuntimeRecord (get_str fs "subject") (get_str fs "scheme") (get_flag fs "signatureVerified") (get_flag fs "attestationVerified")
    (get_flag fs "sbomVerified") (get_str fs "signatureDigest") (get_str fs "attestationUri") (get_str fs "sbomDigest")
    (get_str fs "contentDigest") (get_flag fs "contentIntegrityVerified") (get_str fs "keyRef") (get_str fs "certificateIdentity")
    (get_str fs "certificateIssuer") (get_str fs "verifiedAt") (get_str fs "error").

Definition read_record (s : string) : option RuntimeVerificationRecord :=
  match expect ("{" +:+ newline) s with
  | Some t => record_of <$> read_fields (String.length t) t
  | None => Some (record_of [])
  end.

Definition ascii_field (f : field) : bool := is_ascii f.1 && match f.2 with Some v => is_ascii v | None => true end.

Definition field_text (f : field) : string := "  " +:+ json_string f.1 +:+ ": " +:+ (render_field f).2.

Lemma read_field_ok f t : ascii_field f = true -> read_field (field_text f +:+ t) = Some (f, t).
Proof.
  destruct f as [k v]. unfold ascii_field, field_text, read_field. cbn [fst snd render_field]. intros [Hk Hv]%andb_true_iff.
  rewrite <- !string_app_assoc, expect_app. cbn [mbind option_bind]. rewrite read_string_ok by done. cbn [mbind option_bind].
  rewrite expect_app. cbn [mbind option_bind]. destruct v as [v|].
  - unfold json_string. change (expect "true" ((quote +:+ ?x) +:+ t)) with (@None string). fold (json_string v). by rewrite read_string_ok.
  - by rewrite expect_app.
Qed.

Lemma read_fields_ok fuel f fs t :
  forallb ascii_field (f :: fs) = true -> (length fs < fuel)%nat -> expect ("," +:+ newline) t = None ->
  read_fields fuel (String.concat ("," +:+ newline) (field_text <$> f :: fs) +:+ t) = Some (f :: fs).
Proof.
  revert f fs. induction fuel as [|fuel IH]; intros f fs Ha Hf Ht; [lia|]. cbn [forallb] in Ha. apply andb_true_iff in Ha as [Hx Ha].
  cbn [read_fields]. destruct fs as [|g fs].
  - change (String.concat _ (field_text <$> [f])) with (field_text f). rewrite read_field_ok by done. cbn [mbind option_bind]. by rewrite Ht.
  - rewrite !fmap_cons, concat_cons2, <- !string_app_assoc, read_field_ok by done. cbn [mbind option_bind].
    rewrite (string_app_assoc "," newline), expect_app, <- fmap_cons, IH by (done || simpl in Hf; lia). done.
Qed.

(** Fields of another name are passed over. *)
Lemma find_str_other k k' v (fs : list field) :
  (k' ==? k) = false -> List.find (fun f => fst f ==? k) (str_field k' v ++ fs) = List.find (fun f => fst f ==? k) fs.
Proof. intros H. unfold str_field. destruct (v ==? ""); [done|]. cbn [app List.find fst]. by rewrite H. Qed.

Lemma find_flag_other k k' b (fs : list field) :
  (k' ==? k) = false -> List.find (fun f => fst f ==? k) (flag_field k' b ++ fs) = List.find (fun f => fst f ==? k) fs.
Proof. intros H. destruct b; [|done]. cbn [flag_field app List.find fst]. by rewrite H. Qed.

Ltac pass := repeat first [rewrite find_str_other by reflexivity | rewrite find_flag_other by reflexivity].

Lemma find_str_same k v (fs : list field) :
  List.find (fun f => fst f ==? k) fs = None ->
  match List.find (fun f => fst f ==? k) (str_field k v ++ fs) with Some (_, Some v) => v | _ => "" end = v.
Proof. intros H. unfold str_field. case_bool_decide as E; simpl; [by rewrite H|]. by rewrite bool_decide_true. Qed.

Lemma find_flag_same k b (fs : list field) :
  List.find (fun f => fst f ==? k) fs = None ->
  match List.find (fun f => fst f ==? k) (flag_field k b ++ fs) with Some (_, None) => true | _ => false end = b.
Proof. intros H. destruct b; simpl; [by rewrite bool_decide_true|by rewrite H]. Qed.

Lemma record_of_typed r : record_of (typed_fields r) = r.
Proof.
  unfold record_of. rewrite <- (app_nil_r (typed_fields r)). unfold typed_fields. rewrite <- !app_assoc.
  transitivity (mkRuntimeRecord (Subject r) (Scheme_ r) (SignatureVerified r) (AttestationVerified r) (SBOMVerified r) (SignatureDigest r)
    (AttestationURI r) (SBOMDigest r) (ContentDigest r) (ContentIntegrityVerified r) (KeyRef r) (CertificateIdentity r) (CertificateIssuer r)
    (VerifiedAt r) (Error r)); [|by destruct r].
  f_equal; unfold get_str, get_flag; pass; first [apply find_str_same | apply find_flag_same]; pass; reflexivity.
Qed.

Lemma typed_fields_ascii r : ascii_record r = true -> forallb ascii_field (typed_fields r) = true.
Proof.
  unfold ascii_record, typed_fields. cbn [forallb]. rewrite !andb_true_iff. intros H. rewrite !forallb_app, !andb_true_iff.
  assert (forall k v, is_ascii k = true -> is_ascii v = true -> forallb ascii_field (str_field k v) = true) as Es.
  { intros k v Hk Hv. unfold str_field. case_bool_decide; [done|]. unfold ascii_field. simpl. by rewrite Hk, Hv. }
  assert (forall k b, is_ascii k = true -> forallb ascii_field (flag_field k b) = true) as Ef.
  { intros k [] Hk; [|done]. unfold ascii_field. simpl. by rewrite Hk. }
  split_and!; first [apply Es; [reflexivity|tauto] | apply Ef; reflexivity].
Qed.

Lemma read_record_encoded r : ascii_record r = true -> read_record (encode_record r) = Some r.
Proof.
  intros Ha. unfold encode_record, read_record. rewrite record_fields_typed. pose proof (typed_fields_ascii r Ha) as Hf.
  pose proof (record_of_typed r) as Hr. destruct (typed_fields r) as [|f fs]; [by rewrite <- Hr|].
  rewrite fmap_cons. cbv iota beta. rewrite <- fmap_cons, <- list_fmap_compose.
  assert (((fun '(k, v) => "  " +:+ json_string k +:+ ": " +:+ v) ∘ render_field <$> f :: fs) = (field_text <$> f :: fs)) as ->
    by (apply list_fmap_ext; by intros ? [? ?]).
  rewrite (string_app_assoc "{" newline), expect_app. rewrite read_fields_ok; [by rewrite <- Hr|done| |reflexivity].
  assert (forall g gs, (length gs < String.length (String.concat ("," +:+ newline) (field_text <$> g :: gs)))%nat) as Hl.
  { intros g gs. revert g. induction gs as [|h gs IH]; intros g; [unfold field_text; simpl; lia|].
    rewrite !fmap_cons, concat_cons2, !str_length_app. specialize (IH h). rewrite fmap_cons in IH. cbn [length String.length]. lia. }
  rewrite str_length_app. specialize (Hl f fs). lia.
Qed.

(** ** Runs *)

Definition w_listing (m : Entries) : list string := elements (dom m).

Definition w_uri := "hf://org/m".
Definition w_oci := "oci://registry/m:1".

(** Adds the payload; cosign accepts everything. *)
Definition w_pull (extra : list (string * node)) (_ : string) (m : Entries) : Entries * bool :=
  (foldl (fun m e => <[e.1 := e.2]> m) (<["model.bin" := File "weights"]> m) extra, true).

Definition w_env (extra : list (string * node)) : Environment :=
  mkEnv (fun scheme => if (scheme ==? "hf") || (scheme ==? "oci") then Some (w_pull extra) else None)
    (fun _ => Some "[]") (fun _ => false) "/tmp/key" (fun _ => None) "2026-01-01T00:00:00Z".

Definition w_cfg : verifierConfig := mkVerifier "" "PEM" "" "".

Definition w_run (extra : list (string * node)) (uri : string) (d : Dest) := run w_listing read_state read_record (w_env extra) false w_cfg uri d.

Definition w_empty : Dest := mkDest ∅ NoStaging.

Lemma w_polite uri : polite uri (w_env []).
Proof.
  intros scheme pull. simpl. destruct (_ || _); [|done]. intros [= <-]. cbn [w_pull foldl fst]. split.
  - by rewrite lookup_insert_ne.
  - intros k. unfold begun. rewrite dom_insert, dom_singleton. rewrite elem_of_union, !elem_of_singleton. by intros [->| ->].
Qed.

(** Stopped after the third change of the commit, then prepared again. *)
Lemma crash_recovery_witness :
  let cs := (w_run [] w_uri w_empty).1 in
  let p := take 8 cs in
  Payload (after w_empty p) = {[".ckodex" := default Special (Payload (after w_empty p) !! ".ckodex")]}
  /\ after (after w_empty p) (prepareStagingDirectory w_listing read_state w_uri (after w_empty p)).1 = fresh w_uri.
Proof.
  intros cs p. split; [vm_compute; reflexivity|].
  destruct (crash_recovery w_listing read_state read_state_encoded eq_refl w_uri eq_refl read_record (w_env []) false w_cfg w_empty p)
    as [[_ H]|[_ H]]; [..|exact H|vm_compute in H; discriminate H].
  - apply w_polite.
  - by left.
  - apply prefix_take.
  - intros E. apply (f_equal length) in E. vm_compute in E. discriminate E.
Defined.

(** A file of someone else beside an interrupted commit stays. *)
Lemma foreign_files_kept_witness :
  let d := after w_empty (take 8 (w_run [] w_uri w_empty).1) in
  let d := mkDest (<["notes.txt" := File "mine"]> (Payload d)) (Staging d) in
  Payload (after d (prepareStagingDirectory w_listing read_state w_uri d).1) !! "notes.txt" = Some (File "mine").
Proof.
  intros d0 d.
  rewrite (foreign_files_kept w_listing read_state w_uri d (prepareStagingDirectory w_listing read_state w_uri d).1 "notes.txt"); [reflexivity|done|].
  intros (m & st & Es & El & _ & _ & Hk). vm_compute in Es. injection Es as <-. vm_compute in El. injection El as <-.
  revert Hk. apply (bool_decide_unpack _). vm_compute. exact Logic.I.
Defined.

Lemma finished_run_reused_witness :
  let r := w_run [] w_uri w_empty in
  r.2.2 = None /\ ContentIntegrityVerified r.2.1 = true /\ w_run [] w_uri (after w_empty r.1) = ([], (r.2.1, None)).
Proof.
  intros r. split; [vm_compute; reflexivity|]. split; [vm_compute; reflexivity|].
  apply (finished_run_reused w_listing read_state read_state_encoded eq_refl w_uri eq_refl read_record (w_env []) read_record_encoded w_cfg w_empty r.1 r.2.1).
  - apply w_polite.
  - by left.
  - vm_compute. reflexivity.
  - vm_compute. reflexivity.
Defined.

(** ** What goes wrong *)

(** Stopped after the first move of a signed image (the record is moved
    first), the next run reports the verified image without its payload. *)
Example verified_without_payload :
  let d := after w_empty (take 8 (w_run [] w_oci w_empty).1) in
  Payload d !! "model.bin" = None /\ (w_run [] w_oci d).1 = [] /\ Verified (w_run [] w_oci d).2.1 = true /\ (w_run [] w_oci d).2.2 = None.
Proof. vm_compute. done. Qed.

(** The same without a crash, for a payload with an entry called like the
    staging directory: the commit fails behind the record, and the next run
    succeeds. *)
Example verified_after_failed_commit :
  let w d := w_run [(".ckodex-staging", Dir [])] w_oci d in
  let d := after w_empty (w w_empty).1 in
  (w w_empty).2.2 = Some CommitFailed /\ Payload d !! "model.bin" = None /\ Staging d = NoStaging
  /\ Verified (w d).2.1 = true /\ (w d).2.2 = None.
Proof. vm_compute. done. Qed.

(** Stopped between the creation of the staging directory and the first write
    of its state, no later run gets through. *)
Example torn_forever :
  let d := after w_empty (take 1 (w_run [] w_uri w_empty).1) in
  w_run [] w_uri d = ([], (empty_record w_uri "hf", Some UnrecognizedTransaction)).
Proof. vm_compute. done. Qed.

(** With verification switched off the record in the payload is committed as
    it is, and trusted by the next run with verification. *)
Example planted_record_trusted :
  let r := mkRuntimeRecord w_uri "hf" true true true "s" "a" "b" "" false "" "" "" "" "" in
  let env := w_env [(".ckodex", Dir [("runtime-verification.json", File (encode_record r))])] in
  let d := after w_empty (run w_listing read_state read_record env true w_cfg w_uri w_empty).1 in
  run w_listing read_state read_record env false w_cfg w_uri d = ([], (r, None)).
Proof. vm_compute. done. Qed.
