(* ===== verification/Auth.v ===== *)
(** * Authentication and authorization of inference requests

    [internal/auth]: the OIDC middleware with its token verifier and JWKS cache
    ([oidc_middleware.go]), the budget and model-access middlewares
    ([enforcement.go]) and the API keys kept as Secrets ([apikey.go]); the
    configuration the manager builds ([cmd/manager/reconciler_setup.go]).

    A handler maps a request and the state of the middlewares to a refusal or
    the answer of the handler behind them.  The JWT library, the JWKS server,
    bcrypt, the random source and the API server are arguments, with what the
    code relies on as laws; clock readings are arguments.  Critical sections of
    the budget run in any order; a verification is one step.  Spans, counters
    and the texts of refusals are left out. *)

From S2P Require Import Prelude GoStrings GoTime GoRFC3339 Sha256.
From Stdlib Require Import Ascii.

(** ** Claims and configuration *)

(** [Subject] is the field of the embedded registered claims that is read. *)
Record InferenceClaims := {
  Subject : string; Scope : string; ModelAccess : list string; TokenBudget : Z; TenantID : string }.

Definition no_claims : InferenceClaims :=
  {| Subject := ""; Scope := ""; ModelAccess := []; TokenBudget := 0; TenantID := "" |}.

Record OIDCConfig := {
  IssuerURL : string; ClientID : string; Audience : string; JWKSEndpoint : string;
  RequiredScopes : list string; SkipPaths : list string; CacheTTL : Duration }.

Definition DefaultOIDCConfig : OIDCConfig :=
  {| IssuerURL := ""; ClientID := ""; Audience := ""; JWKSEndpoint := "";
     RequiredScopes := ["inference"];
     SkipPaths := ["/v2/health/live"; "/v2/health/ready"; "/healthz"; "/readyz"; "/metrics"];
     CacheTTL := 1 * Hour |}.

(** The fields the manager sets from its own configuration. *)
Definition configureAuth (issuer audience : string) (scopes : list string) (ttl : Duration) : option OIDCConfig :=
  if issuer ==? "" then None
  else Some {| IssuerURL := issuer; ClientID := ""; Audience := audience; JWKSEndpoint := "";
               RequiredScopes := scopes; SkipPaths := []; CacheTTL := ttl |}.

Definition HasScope (c : InferenceClaims) (scope : string) : bool :=
  existsb (fun s => s ==? scope) (Fields (Scope c)).

Definition CanAccessModel (c : InferenceClaims) (model : string) : bool :=
  match ModelAccess c with
  | [] => true
  | l => existsb (fun m => (m ==? model) || (m ==? "*")) l
  end.

(** Tokens remaining, by subject. *)
Notation Budgets := (gmap string Z).

(** ** The token verifier *)

Inductive SigningMethod := MethodRSA | MethodHMAC | MethodOther.

(** The header of a token: its method and its [kid], empty unless a string. *)
Record TokenHeader := { Method : SigningMethod; kid : string }.

Section verifier.
Context {PublicKey : Type}.

Inductive SigningKey := KeyRSA (k : PublicKey) | KeyHMAC (secret : string).

Record TokenVerifier := { publicKeys : gmap string PublicKey; lastFetch : Time }.

Definition NewTokenVerifier : TokenVerifier := {| publicKeys := ∅; lastFetch := zeroTime |}.

(** What the key set of a response holds: identifiers, and the key if it is
    an RSA one. *)
Record JSONWebKey := { KeyID : string; RSAKey : option PublicKey }.

Inductive JWKSResponse :=
  | RequestFailed
  | Response (status : Z) (body : option (list JSONWebKey)).

Inductive KeyErr := JWKSRequestErr | JWKSStatus (status : Z) | JWKSParseErr | KeyNotFound (k : string) | UnexpectedMethod.

(** What one verification reads: the clock for the age of the cache, the
    clock when keys are stored, the clock of the claims validation, and the
    server's answer to a request. *)
Record VerifyEnv := { now_cache : Time; now_fetch : Time; now_claims : Time; jwks : string -> JWKSResponse }.

Definition TrimSuffix (s p : string) : string :=
  if bool_decide (String.length p <= String.length s)%nat then
    let n := (String.length s - String.length p)%nat in
    if str_drop n s ==? p then str_take n s else s
  else s.

Definition jwks_endpoint (cfg : OIDCConfig) : string :=
  if JWKSEndpoint cfg ==? "" then TrimSuffix (IssuerURL cfg) "/" +:+ "/.well-known/jwks.json" else JWKSEndpoint cfg.

Definition rsa_keys (keys : list JSONWebKey) : gmap string PublicKey :=
  foldl (fun m k => match RSAKey k with Some rsa => <[KeyID k := rsa]> m | None => m end) ∅ keys.

Definition refreshJWKS (cfg : OIDCConfig) (env : VerifyEnv) (v : TokenVerifier) : option KeyErr * TokenVerifier :=
  match jwks env (jwks_endpoint cfg) with
  | RequestFailed => (Some JWKSRequestErr, v)
  | Response status body =>
      if status !=? 200 then (Some (JWKSStatus status), v)
      else match body with
           | None => (Some JWKSParseErr, v)
           | Some keys => (None, {| publicKeys := rsa_keys keys; lastFetch := now_fetch env |})
           end
  end.

Definition getPublicKey (cfg : OIDCConfig) (env : VerifyEnv) (k : string) (v : TokenVerifier)
    : (PublicKey + KeyErr) * TokenVerifier :=
  let refetch :=
    match refreshJWKS cfg env v with
    | (Some e, v) => (inr e, v)
    | (None, v) => match publicKeys v !! k with Some key => (inl key, v) | None => (inr (KeyNotFound k), v) end
    end in
  match publicKeys v !! k with
  | Some key => if TimeSub (now_cache env) (lastFetch v) <? CacheTTL cfg then (inl key, v) else refetch
  | None => refetch
  end.

(** The callback [Verify] hands to the JWT library. *)
Definition keyfunc (cfg : OIDCConfig) (env : VerifyEnv) (t : TokenHeader) (v : TokenVerifier)
    : (SigningKey + KeyErr) * TokenVerifier :=
  match Method t with
  | MethodRSA =>
      match getPublicKey cfg env (kid t) v with
      | (inl key, v) => (inl (KeyRSA key), v)
      | (inr e, v) => (inr e, v)
      end
  | MethodHMAC => (inl (KeyHMAC (ClientID cfg)), v)
  | MethodOther => (inr UnexpectedMethod, v)
  end.

(** [jwt.ParseWithClaims] with the options issuer, audience and leeway, at a
    time; the verifier's state is what the callback reads and writes.  The
    result is the claims and the [Valid] flag of the token. *)
Class JWT := {
  ParseWithClaims : string -> (TokenHeader -> TokenVerifier -> (SigningKey + KeyErr) * TokenVerifier) ->
                    string -> string -> Duration -> Time -> TokenVerifier ->
                    option (InferenceClaims * bool) * TokenVerifier;
  token_header : string -> option TokenHeader;
  token_claims : string -> InferenceClaims;
  signed_with : string -> SigningKey -> bool;
  claims_valid : string -> string -> string -> Duration -> Time -> bool }.

(** What the library documents: a token is accepted when it is well formed,
    the callback has a key for its header, the signature is the key's and the
    registered claims are valid under the options; and only then. *)
Class JWTLaws `{JWT} := {
  parse_accepts s kf iss aud lee now v h key v' :
    token_header s = Some h -> kf h v = (inl key, v') -> signed_with s key = true ->
    claims_valid s iss aud lee now = true ->
    ParseWithClaims s kf iss aud lee now v = (Some (token_claims s, true), v');
  parse_sound s kf iss aud lee now v c valid v' :
    ParseWithClaims s kf iss aud lee now v = (Some (c, valid), v') ->
    exists h key, token_header s = Some h /\ kf h v = (inl key, v') /\ signed_with s key = true
    /\ claims_valid s iss aud lee now = true /\ c = token_claims s;
  parse_state s kf iss aud lee now v v' :
    ParseWithClaims s kf iss aud lee now v = (None, v') -> v' = v \/ exists h, v' = (kf h v).2 }.

Context `{JWT}.

Definition Verify (cfg : OIDCConfig) (env : VerifyEnv) (token : string) (v : TokenVerifier)
    : option InferenceClaims * TokenVerifier :=
  match ParseWithClaims token (keyfunc cfg env) (IssuerURL cfg) (Audience cfg) (30 * Second) (now_claims env) v with
  | (None, v) => (None, v)
  | (Some (claims, valid), v) => if valid then (Some claims, v) else (None, v)
  end.

(** ** The middlewares *)

(** A request: its path, its Authorization header and the claims in its
    context. *)
Record Request := { Path : string; Authorization : string; ctx_claims : option InferenceClaims }.

Definition ContextWithClaims (r : Request) (c : InferenceClaims) : Request :=
  {| Path := Path r; Authorization := Authorization r; ctx_claims := Some c |}.

(** The state of the middlewares. *)
Record Server := { verifier : TokenVerifier; budgets : Budgets }.

Definition with_verifier (w : Server) (v : TokenVerifier) : Server := {| verifier := v; budgets := budgets w |}.
Definition with_budgets (w : Server) (b : Budgets) : Server := {| verifier := verifier w; budgets := b |}.

Inductive Refusal := NoToken | InvalidToken | MissingScope (scope : string) | BudgetExhausted | ModelDenied (model : string).

Definition http_status (r : Refusal) : Z :=
  match r with
  | NoToken | InvalidToken => 401
  | MissingScope _ | ModelDenied _ => 403
  | BudgetExhausted => 429
  end.

Section handlers.
Context {Answer : Type}.

Definition Handler := VerifyEnv -> Request -> Server -> (Refusal + Answer) * Server.

(** [strings.EqualFold(s, "bearer")]: no letter of the word has a case variant
    outside ASCII. *)
Fixpoint lower_bytes (s : string) : string :=
  match s with String c s => String (lower_ascii c) (lower_bytes s) | EmptyString => EmptyString end.

Definition extractBearerToken (auth : string) : option string :=
  if auth ==? "" then None
  else match Index auth " " with
       | None => None
       | Some i => if lower_bytes (str_take i auth) ==? "bearer" then Some (str_drop (i + 1) auth) else None
       end.

Fixpoint missing_scope (c : InferenceClaims) (scopes : list string) : option string :=
  match scopes with
  | [] => None
  | s :: l => if HasScope c s then missing_scope c l else Some s
  end.

Definition Authenticate (cfg : OIDCConfig) (next : Handler) : Handler := fun env r w =>
  if existsb (fun p => p ==? Path r) (SkipPaths cfg) then next env r w
  else match extractBearerToken (Authorization r) with
       | None => (inl NoToken, w)
       | Some token =>
           match Verify cfg env token (verifier w) with
           | (None, v) => (inl InvalidToken, with_verifier w v)
           | (Some claims, v) =>
               match missing_scope claims (RequiredScopes cfg) with
               | Some s => (inl (MissingScope s), with_verifier w v)
               | None => next env (ContextWithClaims r claims) (with_verifier w v)
               end
           end
       end.

Definition EnforceModelAccess (modelExtractor : Request -> string) (next : Handler) : Handler := fun env r w =>
  match ctx_claims r with
  | None => next env r w
  | Some c =>
      let model := modelExtractor r in
      if model ==? "" then next env r w
      else if CanAccessModel c model then next env r w else (inl (ModelDenied model), w)
  end.

(** The critical section of the budget gate: the budget is set on the first
    request of a subject, and what remains is read. *)
Definition budget_gate (c : InferenceClaims) (b : Budgets) : Z * Budgets :=
  match b !! Subject c with
  | Some r => (r, b)
  | None => (TokenBudget c, <[Subject c := TokenBudget c]> b)
  end.

Definition EnforceBudget (next : Handler) : Handler := fun env r w =>
  match ctx_claims r with
  | None => next env r w
  | Some c =>
      if TokenBudget c ==? 0 then next env r w
      else if Subject c ==? "" then next env r w
      else let '(remaining, b) := budget_gate c (budgets w) in
           if remaining <=? 0 then (inl BudgetExhausted, with_budgets w b) else next env r (with_budgets w b)
  end.

End handlers.

(** The methods of the enforcer on its table. *)
Definition RestoreFromAnnotation (s : string) (remaining : Z) (b : Budgets) : Budgets := <[s := remaining]> b.

Definition Remaining (s : string) (b : Budgets) : Z := match b !! s with Some v => v | None => -1 end.

Definition Consume (s : string) (n : Z) (b : Budgets) : bool * Budgets :=
  match b !! s with
  | None => (true, b)
  | Some remaining => if remaining <? n then (false, b) else (true, <[s := i64_wrap (remaining - n)]> b)
  end.

Definition RecordConsumption (r : Request) (tokensUsed : Z) (b : Budgets) : Budgets :=
  match ctx_claims r with
  | None => b
  | Some c => if (TokenBudget c ==? 0) || (Subject c ==? "") then b else (Consume (Subject c) tokensUsed b).2
  end.

End verifier.

Arguments SigningKey : clear implicits.
Arguments TokenVerifier : clear implicits.
Arguments VerifyEnv : clear implicits.
Arguments JWT : clear implicits.
Arguments JWTLaws PublicKey {_}.
Arguments Server : clear implicits.
Arguments Handler : clear implicits.

(** ** API keys *)

Definition SecretType : string := "ckodex.com/api-key".
Definition AnnotationTenantID : string := "ckodex.com/tenant-id".
Definition AnnotationModelAccess : string := "ckodex.com/model-access".
Definition AnnotationTokenBudget : string := "ckodex.com/token-budget".
Definition AnnotationRotateAfter : string := "ckodex.com/rotate-after".
Definition AnnotationScopes : string := "ckodex.com/scopes".
Definition SecretKeyHash : string := "hash".
Definition keyPrefix : string := "ckx_".
Definition rawKeyBytes : Z := 32.

(** The fields of a Secret the store reads and writes. *)
Record Secret := {
  sec_Name : string; sec_Namespace : string; sec_Type : string;
  Annotations : gmap string string; Data : gmap string string }.

Record APIKeyOptions := {
  opt_TenantID : string; opt_ModelAccess : list string; opt_Scopes : string; RotateAfter : Time }.

Inductive APIKeyErr := ErrInvalidKey | ErrKeyExpired | ListErr | RandomErr | HashErr | AlreadyExists | CreateErr.

Definition claimsFromSecret (sec : Secret) : InferenceClaims :=
  {| Subject := "";
     Scope := match Annotations sec !! AnnotationScopes with Some s => s | None => "" end;
     ModelAccess := match Annotations sec !! AnnotationModelAccess with
                    | Some ma => if ma !=? "" then Split ma "," else []
                    | None => []
                    end;
     TokenBudget := 0;
     TenantID := match Annotations sec !! AnnotationTenantID with Some t => t | None => "" end |}.

Definition generateRawKey (random : option (list Z)) : option string :=
  b ← random; Some (keyPrefix +:+ hex_encode b).

Definition key_annotations (opts : APIKeyOptions) : gmap string string :=
  let a : gmap string string := ∅ in
  let a := if opt_TenantID opts !=? "" then <[AnnotationTenantID := opt_TenantID opts]> a else a in
  let a := match opt_ModelAccess opts with
           | [] => a
           | l => <[AnnotationModelAccess := Join "," l]> a
           end in
  let a := if negb (IsZero (RotateAfter opts)) then <[AnnotationRotateAfter := RFC3339 (RotateAfter opts)]> a else a in
  if opt_Scopes opts !=? "" then <[AnnotationScopes := opt_Scopes opts]> a else a.

(** Whether the rotation deadline of a Secret has passed. *)
Definition rotation_due (now : Time) (sec : Secret) : bool :=
  match Annotations sec !! AnnotationRotateAfter with
  | Some ra =>
      if ra !=? "" then match ParseRFC3339 ra with Some deadline => After now deadline | None => false end else false
  | None => false
  end.

Section apikeys.

(** bcrypt, with the salt of a hash, and the API server's Secrets. *)
Class KeyBackend := {
  Cluster : Type;
  Salt : Type;
  GenerateFromPassword : Salt -> string -> option string;
  CompareHashAndPassword : string -> string -> bool;
  ListSecrets : string -> string -> Cluster -> option (list Secret);
  CreateSecret : Secret -> Cluster -> Cluster + APIKeyErr;
  secrets_of : Cluster -> list Secret }.

Class KeyBackendLaws `{KeyBackend} := {
  bcrypt_hashes salt pw : GenerateFromPassword salt pw = None <-> (72 < String.length pw)%nat;
  bcrypt_matches salt pw h : GenerateFromPassword salt pw = Some h -> CompareHashAndPassword h pw = true;
  list_secrets ns ty c l : ListSecrets ns ty c = Some l ->
    forall s, s ∈ l <-> s ∈ secrets_of c /\ sec_Namespace s = ns /\ sec_Type s = ty;
  create_secret s c c' : CreateSecret s c = inl c' -> forall x, x ∈ secrets_of c' <-> x = s \/ x ∈ secrets_of c }.

Context `{KeyBackend}.

Fixpoint find_key (now : Time) (rawKey : string) (secrets : list Secret) : InferenceClaims + APIKeyErr :=
  match secrets with
  | [] => inr ErrInvalidKey
  | sec :: l =>
      if sec_Type sec !=? SecretType then find_key now rawKey l
      else match Data sec !! SecretKeyHash with
           | None => find_key now rawKey l
           | Some hash =>
               if negb (CompareHashAndPassword hash rawKey) then find_key now rawKey l
               else if rotation_due now sec then inr ErrKeyExpired else inl (claimsFromSecret sec)
           end
  end.

Definition Validate (namespace : string) (now : Time) (rawKey : string) (c : Cluster) : InferenceClaims + APIKeyErr :=
  if negb (HasPrefix rawKey keyPrefix) then inr ErrInvalidKey
  else match ListSecrets namespace SecretType c with
       | None => inr ListErr
       | Some secrets => find_key now rawKey secrets
       end.

(** The raw key and the name of the Secret. *)
Definition GenerateKey (namespace : string) (random : option (list Z)) (salt : Salt) (name : string)
    (opts : APIKeyOptions) (c : Cluster) : (string * string + APIKeyErr) * Cluster :=
  match generateRawKey random with
  | None => (inr RandomErr, c)
  | Some raw =>
      match GenerateFromPassword salt raw with
      | None => (inr HashErr, c)
      | Some hash =>
          let sec := {| sec_Name := name; sec_Namespace := namespace; sec_Type := SecretType;
                        Annotations := key_annotations opts; Data := {[ SecretKeyHash := hash ]} |} in
          match CreateSecret sec c with
          | inr AlreadyExists => (inr AlreadyExists, c)
          | inr _ => (inr CreateErr, c)
          | inl c => (inl (raw, name), c)
          end
      end
  end.

End apikeys.

(** ** Tokens and the key cache *)

Section verifier_theorems.
Context {PublicKey : Type} `{JWTLaws PublicKey}.
Implicit Types (v : TokenVerifier PublicKey) (env : VerifyEnv PublicKey).

(** A key comes from a cache younger than its lifetime, or from the answer to
    a request made now; a failed request leaves the cache as it was. *)
Lemma getPublicKey_inv cfg env k v r v' :
  getPublicKey cfg env k v = (r, v') ->
  (v' = v /\ (forall key, r = inl key -> publicKeys v !! k = Some key /\ TimeSub (now_cache env) (lastFetch v) < CacheTTL cfg))
  \/ exists keys, jwks env (jwks_endpoint cfg) = Response 200 (Some keys)
     /\ v' = {| publicKeys := rsa_keys keys; lastFetch := now_fetch env |}
     /\ (forall key, r = inl key -> rsa_keys keys !! k = Some key).
Proof.
  unfold getPublicKey, refreshJWKS. intros E.
  assert (forall o, match o with
    | (Some e, v0) => (inr e, v0)
    | (None, v0) => match publicKeys v0 !! k with Some key => (inl key, v0) | None => (inr (KeyNotFound k), v0) end
    end = (r, v') -> o = refreshJWKS cfg env v ->
    (v' = v /\ forall key : PublicKey, r = inl key -> False) \/ exists keys, jwks env (jwks_endpoint cfg) = Response 200 (Some keys)
     /\ v' = {| publicKeys := rsa_keys keys; lastFetch := now_fetch env |}
     /\ (forall key, r = inl key -> rsa_keys keys !! k = Some key)) as Hr.
  { intros o Ho ->. unfold refreshJWKS in Ho.
    destruct (jwks env (jwks_endpoint cfg)) as [|st [keys|]]; [left; by simplify_eq|..];
      destruct (bool_decide_reflect (st = 200)); simpl in Ho; [|left; by simplify_eq..].
    right. exists keys. subst st. destruct (rsa_keys keys !! k) eqn:Ek; simplify_eq; repeat split; intros; congruence. }
  destruct (publicKeys v !! k) as [key|] eqn:Ek; [case_bool_decide|].
  - injection E as <- <-. left. split; [done|]. intros ? [= <-]. done.
  - destruct (Hr _ E eq_refl) as [[-> Hn]|?]; [left|by right]. split; [done|]. intros key' ->. by destruct (Hn key').
  - destruct (Hr _ E eq_refl) as [[-> Hn]|?]; [left|by right]. split; [done|]. intros key' ->. by destruct (Hn key').
Qed.

(** What an accepted token was verified with: the client identifier as an HMAC
    secret, or the RSA key of its [kid] in the cache that results, which is
    younger than its lifetime or was fetched for this token. *)
Definition key_of_token cfg env (token : string) v v' : Prop :=
  exists h, token_header token = Some h
  /\ match Method h with
     | MethodHMAC => v' = v /\ signed_with token (KeyHMAC (ClientID cfg)) = true
     | MethodRSA =>
         exists key, publicKeys v' !! kid h = Some key /\ signed_with token (KeyRSA key) = true
         /\ (v' = v /\ TimeSub (now_cache env) (lastFetch v) < CacheTTL cfg
             \/ exists keys, jwks env (jwks_endpoint cfg) = Response 200 (Some keys)
                /\ v' = {| publicKeys := rsa_keys keys; lastFetch := now_fetch env |})
     | MethodOther => False
     end.

Lemma Verify_sound cfg env token v c v' :
  Verify cfg env token v = (Some c, v') ->
  c = token_claims token /\ claims_valid token (IssuerURL cfg) (Audience cfg) (30 * Second) (now_claims env) = true
  /\ key_of_token cfg env token v v'.
Proof.
  unfold Verify. destruct (ParseWithClaims _ _ _ _ _ _ v) as [[[c0 valid]|] v0] eqn:E; [|discriminate].
  destruct valid; [|discriminate]. intros [= <- <-].
  apply parse_sound in E as (h & key & Hh & Hk & Hs & Hc & ->). split; [done|]. split; [done|].
  exists h. split; [done|]. unfold keyfunc in Hk. destruct (Method h); [|by simplify_eq|discriminate Hk].
  destruct (getPublicKey cfg env (kid h) v) as [[k|] v1] eqn:Eg; [|discriminate Hk]. injection Hk as <- <-.
  exists k. destruct (getPublicKey_inv _ _ _ _ _ _ Eg) as [[-> Hv]|(keys & Hj & -> & Hk)].
  - destruct (Hv k eq_refl). split; [done|]. split; [done|]. by left.
  - split; [by apply Hk|]. split; [done|]. right. by exists keys.
Qed.

(** A key in a fresh cache verifies tokens without a request, and whatever the
    server answers. *)
Lemma Verify_cached cfg env token v h key :
  token_header token = Some h -> Method h = MethodRSA -> publicKeys v !! kid h = Some key ->
  TimeSub (now_cache env) (lastFetch v) < CacheTTL cfg -> signed_with token (KeyRSA key) = true ->
  claims_valid token (IssuerURL cfg) (Audience cfg) (30 * Second) (now_claims env) = true ->
  Verify cfg env token v = (Some (token_claims token), v).
Proof.
  intros Hh Hm Hk Ht Hs Hc. unfold Verify.
  rewrite (parse_accepts token _ _ _ _ _ v h (KeyRSA key) v); [done|done| |done|done].
  unfold keyfunc, getPublicKey. rewrite Hm, Hk, bool_decide_true; done.
Qed.

(** The configuration of the manager leaves the client identifier empty, so a
    token signed by anybody with the empty HMAC secret is accepted. *)
Lemma forged_token_accepted issuer audience scopes ttl cfg env token v h :
  configureAuth issuer audience scopes ttl = Some cfg ->
  token_header token = Some h -> Method h = MethodHMAC -> signed_with token (KeyHMAC "") = true ->
  claims_valid token issuer audience (30 * Second) (now_claims env) = true ->
  Verify cfg env token v = (Some (token_claims token), v).
Proof.
  unfold configureAuth. case_bool_decide; [done|]. intros [= <-] Hh Hm Hs Hc. unfold Verify.
  rewrite (parse_accepts token _ _ _ _ _ v h (KeyHMAC "") v); [done|done| |done|done].
  unfold keyfunc. by rewrite Hm.
Qed.

End verifier_theorems.

(** ** Which requests reach the model *)

Section chain_theorems.
Context {PublicKey : Type} `{JWT PublicKey}.

(** The handler behind the middlewares, as an observer of what reaches it. *)
Definition observer : Handler PublicKey (Request * Server PublicKey) := fun _ r w => (inr (r, w), w).

(** The middlewares in the order their documentation asks for. *)
Definition protected (cfg : OIDCConfig) (ex : Request -> string) : Handler PublicKey (Request * Server PublicKey) :=
  Authenticate cfg (EnforceModelAccess ex (EnforceBudget observer)).

Lemma missing_scope_none c scopes : missing_scope c scopes = None <-> Forall (fun s => HasScope c s = true) scopes.
Proof.
  induction scopes as [|s l IH]; simpl; [split; done|]. rewrite Forall_cons. destruct (HasScope c s); [|naive_solver].
  rewrite IH. naive_solver.
Qed.

Lemma HasScope_iff c s : HasScope c s = true <-> s ∈ Fields (Scope c).
Proof.
  unfold HasScope. rewrite existsb_exists. setoid_rewrite bool_decide_eq_true. setoid_rewrite <- list_elem_of_In.
  naive_solver.
Qed.

Lemma CanAccessModel_iff c m :
  CanAccessModel c m = true <-> ModelAccess c = [] \/ m ∈ ModelAccess c \/ "*" ∈ ModelAccess c.
Proof.
  unfold CanAccessModel. destruct (ModelAccess c) as [|x l]; [naive_solver|].
  rewrite existsb_exists. setoid_rewrite orb_true_iff. setoid_rewrite bool_decide_eq_true.
  setoid_rewrite <- list_elem_of_In. naive_solver.
Qed.

(** What remains of the budget that applies to a request of these claims. *)
Definition within_budget (c : InferenceClaims) (b : Budgets) : Prop :=
  TokenBudget c = 0 \/ Subject c = "" \/ 0 < (budget_gate c b).1.

Lemma EnforceBudget_observer env r w c :
  ctx_claims r = Some c ->
  (exists w1 w2, EnforceBudget observer env r w = (inr (r, w1), w2)) <-> within_budget c (budgets w).
Proof.
  intros Hc. unfold EnforceBudget, within_budget, observer. rewrite Hc.
  destruct (bool_decide_reflect (TokenBudget c = 0)); [naive_solver|].
  destruct (bool_decide_reflect (Subject c = "")); [naive_solver|].
  destruct (budget_gate c (budgets w)) as [rem b] eqn:Eb. simpl.
  destruct (bool_decide_reflect (rem <= 0)); [|naive_solver lia].
  split; [intros (? & ? & ?); discriminate|]. intros [?|[?|?]]; [done..|lia].
Qed.

Lemma EnforceBudget_passes_request env r w r' w1 w2 :
  EnforceBudget observer env r w = (inr (r', w1), w2) -> r' = r.
Proof. unfold EnforceBudget, observer. intros. repeat case_match; simplify_eq; done. Qed.

(** A branch that refuses the request. *)
Ltac refused :=
  split; [intros (? & ? & ?); discriminate
         |intros [[? _]|(_ & ? & ? & ? & ? & ? & _)]; [done|congruence]].

(** A request without claims of its own reaches the model behind the
    middlewares exactly when its path is exempt, or its bearer token is
    verified, the claims of the token have every required scope, allow the
    model of the request (unless none can be determined) and have budget left;
    the model then sees the verified claims and no others. *)
Theorem request_reaches_model_iff cfg ex env r w r' :
  ctx_claims r = None ->
  (exists w1 w2, protected cfg ex env r w = (inr (r', w1), w2))
  <-> (Path r ∈ SkipPaths cfg /\ r' = r)
      \/ (Path r ∉ SkipPaths cfg /\ exists token c v,
            extractBearerToken (Authorization r) = Some token
            /\ Verify cfg env token (verifier w) = (Some c, v)
            /\ Forall (fun s => s ∈ Fields (Scope c)) (RequiredScopes cfg)
            /\ r' = ContextWithClaims r c
            /\ (ex r' = "" \/ ModelAccess c = [] \/ ex r' ∈ ModelAccess c \/ "*" ∈ ModelAccess c)
            /\ within_budget c (budgets w)).
Proof.
  intros Hr. unfold protected, Authenticate.
  assert (existsb (fun p => p ==? Path r) (SkipPaths cfg) = true <-> Path r ∈ SkipPaths cfg) as Hp.
  { rewrite existsb_exists. setoid_rewrite bool_decide_eq_true. setoid_rewrite <- list_elem_of_In. naive_solver. }
  destruct (existsb _ _).
  { unfold EnforceModelAccess, EnforceBudget, observer. rewrite Hr. naive_solver. }
  assert (Path r ∉ SkipPaths cfg) as Hskip by (intros Hin; apply Hp in Hin; discriminate Hin). clear Hp.
  destruct (extractBearerToken (Authorization r)) as [token|] eqn:Et; [|refused].
  destruct (Verify cfg env token (verifier w)) as [[c|] v] eqn:Ev; [|refused].
  destruct (missing_scope c (RequiredScopes cfg)) as [s|] eqn:Es.
  { split; [intros (? & ? & ?); discriminate|].
    intros [[? _]|(_ & token' & c' & v' & [= <-] & Ev' & Hs & _)]; [done|].
    rewrite Ev in Ev'. injection Ev' as <- <-.
    assert (missing_scope c (RequiredScopes cfg) = None) as E; [|congruence].
    apply missing_scope_none. by setoid_rewrite HasScope_iff. }
  assert (Forall (fun s => s ∈ Fields (Scope c)) (RequiredScopes cfg)) as Hs.
  { apply missing_scope_none in Es. by setoid_rewrite HasScope_iff in Es. }
  set (r1 := ContextWithClaims r c). set (w1 := with_verifier w v).
  assert (forall r', (exists a b, EnforceBudget observer env r1 w1 = (inr (r', a), b))
            <-> r' = r1 /\ within_budget c (budgets w)) as Hb.
  { intros r0. change (budgets w) with (budgets w1). rewrite <- (EnforceBudget_observer env r1 w1 c) by done. split.
    - intros (a & b & E). pose proof (EnforceBudget_passes_request _ _ _ _ _ _ E) as ->. eauto.
    - intros [-> ?]. done. }
  unfold EnforceModelAccess. change (ctx_claims r1) with (Some c). cbv iota.
  destruct (bool_decide_reflect (ex r1 = "")) as [He|He].
  { rewrite Hb. split; [intros [-> ?]; right; eauto 12|].
    intros [[? _]|(_ & token' & c' & v' & [= <-] & Ev' & _ & -> & _ & ?)]; [done|].
    rewrite Ev in Ev'. by injection Ev' as <- <-. }
  pose proof (CanAccessModel_iff c (ex r1)) as Ha. destruct (CanAccessModel c (ex r1)).
  { rewrite Hb. apply proj1 in Ha. specialize (Ha eq_refl).
    split; [intros [-> ?]; right; eauto 12|].
    intros [[? _]|(_ & token' & c' & v' & [= <-] & Ev' & _ & -> & _ & ?)]; [done|].
    rewrite Ev in Ev'. by injection Ev' as <- <-. }
  split; [intros (? & ? & ?); discriminate|].
  intros [[? _]|(_ & token' & c' & v' & [= <-] & Ev' & _ & -> & Hm & _)]; [done|].
  rewrite Ev in Ev'. injection Ev' as <- <-. fold r1 in Hm.
  destruct Hm as [?|Hm]; [done|]. apply Ha in Hm. discriminate Hm.
Qed.

End chain_theorems.

(** ** Budgets

    The critical sections of all requests and callers, in the order in which
    they take the lock. *)

Inductive BudgetOp :=
  | OpGate (c : InferenceClaims)
  | OpConsume (s : string) (n : Z)
  | OpRestore (s : string) (n : Z).

Definition budget_step (b : Budgets) (op : BudgetOp) : Budgets :=
  match op with
  | OpGate c => (budget_gate c b).2
  | OpConsume s n => (Consume s n b).2
  | OpRestore s n => RestoreFromAnnotation s n b
  end.

(** The tokens taken from the budget of [s] by one operation. *)
Definition taken (s : string) (b : Budgets) (op : BudgetOp) : Z :=
  match op with
  | OpConsume s' n => if (s' ==? s) && (Consume s' n b).1 then n else 0
  | _ => 0
  end.

Fixpoint total_taken (s : string) (b : Budgets) (ops : list BudgetOp) : Z :=
  match ops with
  | [] => 0
  | op :: l => taken s b op + total_taken s (budget_step b op) l
  end.

(** Usage is never negative, and the budget of [s] is not set anew. *)
Definition usage_of (s : string) (op : BudgetOp) : Prop :=
  match op with
  | OpGate _ => True
  | OpConsume _ n => 0 <= n < 2 ^ 63
  | OpRestore s' _ => s' <> s
  end.

Lemma budget_step_conserves s b r op :
  b !! s = Some r -> 0 <= r < 2 ^ 63 -> usage_of s op ->
  budget_step b op !! s = Some (r - taken s b op) /\ 0 <= r - taken s b op < 2 ^ 63.
Proof.
  intros Hb Hr Hu. destruct op as [c|s' n|s' n]; simpl in *.
  - unfold budget_gate. destruct (b !! Subject c) eqn:E; simpl; rewrite ?Z.sub_0_r; [done|].
    rewrite lookup_insert_ne by congruence. done.
  - unfold Consume. destruct (bool_decide_reflect (s' = s)) as [->|Hs].
    + rewrite Hb. destruct (bool_decide_reflect (r < n)); simpl; rewrite ?Z.sub_0_r; [done|].
      rewrite lookup_insert, decide_True by done. rewrite i64_wrap_small by (unfold i64_range; lia). split; [done|lia].
    + simpl. rewrite Z.sub_0_r. destruct (b !! s') as [r'|]; [|done].
      destruct (r' <? n); simpl; [done|]. by rewrite lookup_insert_ne.
  - unfold RestoreFromAnnotation. rewrite lookup_insert_ne, Z.sub_0_r by done. done.
Qed.

Lemma budget_conserved s r ops b :
  b !! s = Some r -> 0 <= r < 2 ^ 63 -> Forall (usage_of s) ops ->
  foldl budget_step b ops !! s = Some (r - total_taken s b ops) /\ 0 <= r - total_taken s b ops < 2 ^ 63.
Proof.
  intros Hb Hr Hu. revert b r Hb Hr. induction Hu as [|op l Hop _ IH]; intros b r Hb Hr; simpl.
  - by rewrite Z.sub_0_r.
  - destruct (budget_step_conserves s b r op Hb Hr Hop) as [H1 H2].
    destruct (IH _ _ H1 H2) as [H3 H4]. by rewrite Z.sub_add_distr.
Qed.

Lemma total_taken_nonneg s b ops : Forall (usage_of s) ops -> 0 <= total_taken s b ops.
Proof.
  intros Hu. revert b. induction Hu as [|op l Hop _ IH]; intros b; simpl; [lia|].
  specialize (IH (budget_step b op)). enough (0 <= taken s b op) by lia.
  destruct op; simpl in *; [lia| |lia]. destruct (_ && _); lia.
Qed.

(** However the gates, the consumptions and the restorations of all
    subjects interleave after the first request of a subject, what remains of
    its budget and what was taken from it add up to the budget its first token
    declared, neither is negative, and the gate refuses its requests exactly
    when the whole budget was taken. *)
Theorem budget_accounting b c ops :
  b !! Subject c = None -> 0 <= TokenBudget c < 2 ^ 63 -> Forall (usage_of (Subject c)) ops ->
  let b1 := (budget_gate c b).2 in
  let b2 := foldl budget_step b1 ops in
  let spent := total_taken (Subject c) b1 ops in
  Remaining (Subject c) b2 + spent = TokenBudget c /\ 0 <= Remaining (Subject c) b2 /\ 0 <= spent
  /\ ((budget_gate c b2).1 <= 0 <-> spent = TokenBudget c).
Proof.
  intros Hb Hr Hu b1 b2 spent.
  assert (b1 !! Subject c = Some (TokenBudget c)) as H1.
  { subst b1. unfold budget_gate. rewrite Hb. simpl. by rewrite lookup_insert, decide_True. }
  destruct (budget_conserved _ _ ops _ H1 Hr Hu) as [H2 H3]. fold b2 spent in H2, H3.
  assert (0 <= spent) as Hs.
  { by apply total_taken_nonneg. }
  unfold Remaining, budget_gate. rewrite H2. simpl. lia.
Qed.

Lemma budget_accounting_witness :
  let c := {| Subject := "alice"; Scope := "inference"; ModelAccess := []; TokenBudget := 10; TenantID := "" |} in
  let ops := [OpConsume "alice" 4; OpGate c; OpRestore "bob" 7; OpConsume "alice" 9; OpConsume "alice" 6] in
  let b1 := (budget_gate c ∅).2 in
  Remaining "alice" (foldl budget_step b1 ops) + total_taken "alice" b1 ops = 10.
Proof.
  intros c ops b1. refine (proj1 (budget_accounting ∅ c ops _ _ _)); [done|simpl; lia|].
  repeat constructor; simpl; try lia; done.
Defined.

(** Usage beyond what remains is not recorded at all: a subject whose requests
    each use more than the budget keeps the budget and stays admitted. *)
Lemma overspending_stays_admitted s r uses b :
  b !! s = Some r -> Forall (fun n => r < n) uses -> foldl (fun b n => (Consume s n b).2) b uses = b.
Proof.
  intros Hb Hu. induction Hu as [|n l Hn _ IH]; simpl; [done|].
  replace (Consume s n b).2 with b; [done|]. unfold Consume. by rewrite Hb, bool_decide_true.
Qed.

(** ** Keys that were issued *)

(** The claims the options of a key stand for. *)
Definition claims_of_options (opts : APIKeyOptions) : InferenceClaims :=
  {| Subject := ""; Scope := opt_Scopes opts; ModelAccess := opt_ModelAccess opts; TokenBudget := 0;
     TenantID := opt_TenantID opts |}.

Definition issued_secret (ns name hash : string) (opts : APIKeyOptions) : Secret :=
  {| sec_Name := name; sec_Namespace := ns; sec_Type := SecretType;
     Annotations := key_annotations opts; Data := {[ SecretKeyHash := hash ]} |}.

(** The deadline as it is stored: to the second. *)
Definition deadline (opts : APIKeyOptions) : Time := RotateAfter opts - RotateAfter opts mod Second.

Ltac look_up := repeat (rewrite lookup_insert_ne by discriminate); rewrite ?lookup_insert, ?lookup_empty, ?decide_True by done.

Lemma annotations_read opts :
  key_annotations opts !! AnnotationTenantID = (if opt_TenantID opts !=? "" then Some (opt_TenantID opts) else None)
  /\ key_annotations opts !! AnnotationModelAccess
     = match opt_ModelAccess opts with [] => None | l => Some (Join "," l) end
  /\ key_annotations opts !! AnnotationRotateAfter
     = (if negb (IsZero (RotateAfter opts)) then Some (RFC3339 (RotateAfter opts)) else None)
  /\ key_annotations opts !! AnnotationScopes = (if opt_Scopes opts !=? "" then Some (opt_Scopes opts) else None).
Proof.
  unfold key_annotations.
  destruct (opt_TenantID opts !=? ""), (opt_ModelAccess opts), (negb (IsZero (RotateAfter opts))), (opt_Scopes opts !=? "");
    repeat split; look_up; done.
Qed.

Lemma Join_comma_empty l : Join "," l = "" -> l = [] \/ l = [""].
Proof.
  destruct l as [|s [|s' l]]; [by left|simpl; intros ->; by right|].
  rewrite Join_cons by done. destruct s; discriminate.
Qed.

Lemma issued_claims ns name hash opts :
  Forall (fun m => free_of "," m = true) (opt_ModelAccess opts) -> opt_ModelAccess opts <> [""] ->
  claimsFromSecret (issued_secret ns name hash opts) = claims_of_options opts.
Proof.
  intros Hm Hne. destruct (annotations_read opts) as (Ht & Ha & _ & Hs).
  unfold claimsFromSecret, claims_of_options. cbn [Annotations issued_secret]. rewrite Ht, Ha, Hs. f_equal.
  - destruct (bool_decide_reflect (opt_Scopes opts = "")); [done|]. done.
  - destruct (opt_ModelAccess opts) as [|m l] eqn:E; [done|].
    destruct (bool_decide_reflect (Join "," (m :: l) = "")) as [Ej|_].
    + by destruct (Join_comma_empty _ Ej).
    + simpl negb. cbv iota. by apply Split_Join.
  - destruct (bool_decide_reflect (opt_TenantID opts = "")); done.
Qed.

Lemma RFC3339_nonempty t : RFC3339 t <> "".
Proof.
  unfold RFC3339. destruct (civil t) as [[y m] d]. intros H. apply (f_equal String.length) in H.
  rewrite !str_length_app in H. simpl in H. lia.
Qed.

Lemma issued_due ns name hash opts now :
  0 <= (civil (RotateAfter opts)).1.1 <= 9999 ->
  rotation_due now (issued_secret ns name hash opts) = negb (IsZero (RotateAfter opts)) && (deadline opts <? now).
Proof.
  intros Hy. destruct (annotations_read opts) as (_ & _ & Hr & _). unfold rotation_due. cbn [Annotations issued_secret].
  rewrite Hr. destruct (negb (IsZero (RotateAfter opts))); [|done].
  rewrite bool_decide_false by apply RFC3339_nonempty. cbn [negb]. by rewrite ParseRFC3339_RFC3339.
Qed.

Section apikey_theorems.
Context `{KeyBackendLaws}.

Definition matches (sec : Secret) (raw : string) : bool :=
  (sec_Type sec ==? SecretType)
  && match Data sec !! SecretKeyHash with Some h => CompareHashAndPassword h raw | None => false end.

Definition verdict (now : Time) (sec : Secret) : InferenceClaims + APIKeyErr :=
  if rotation_due now sec then inr ErrKeyExpired else inl (claimsFromSecret sec).

Lemma find_key_step now raw sec l :
  find_key now raw (sec :: l) = if matches sec raw then verdict now sec else find_key now raw l.
Proof.
  unfold matches, verdict. simpl. destruct (bool_decide_reflect (sec_Type sec = SecretType)); [|done].
  destruct (Data sec !! SecretKeyHash) as [h|]; [|done]. by destruct (CompareHashAndPassword h raw).
Qed.

Lemma find_key_unique now raw sec l :
  sec ∈ l -> matches sec raw = true -> (forall s, s ∈ l -> s = sec \/ matches s raw = false) ->
  find_key now raw l = verdict now sec.
Proof.
  induction l as [|s l IH]; intros Hin Hm Hu; [by apply not_elem_of_nil in Hin|].
  rewrite find_key_step. destruct (Hu s) as [->|E]; [left|by rewrite Hm|]. rewrite E. apply elem_of_cons in Hin as [->|Hin].
  - congruence.
  - apply IH; [done|done|]. intros. apply Hu. by right.
Qed.

(** A key that is accepted has the prefix, and a Secret of the namespace holds
    its hash and carries the claims; its deadline has not passed. *)
Lemma validated_key_backed ns now raw c claims :
  Validate ns now raw c = inl claims ->
  HasPrefix raw keyPrefix = true
  /\ exists sec, sec ∈ secrets_of c /\ sec_Namespace sec = ns /\ matches sec raw = true
     /\ rotation_due now sec = false /\ claims = claimsFromSecret sec.
Proof.
  unfold Validate. destruct (HasPrefix raw keyPrefix); [|discriminate]. simpl.
  destruct (ListSecrets ns SecretType c) as [l|] eqn:El; [|discriminate]. intros Hf. split; [done|].
  pose proof (list_secrets _ _ _ _ El) as Hl.
  assert (exists sec, sec ∈ l /\ matches sec raw = true /\ verdict now sec = inl claims) as (sec & Hin & Hm & Hv).
  { clear -Hf. induction l as [|s l IH]; [discriminate|]. rewrite find_key_step in Hf.
    destruct (matches s raw) eqn:E; [exists s; split; [left|done]|].
    destruct (IH Hf) as (sec & ? & ?). exists sec. split; [by right|done]. }
  exists sec. apply Hl in Hin as (? & ? & ?). unfold verdict in Hv. destruct (rotation_due now sec); [discriminate|].
  by injection Hv as <-.
Qed.

(** A key that was issued is accepted until the deadline it was issued
    with, to the second, and refused after it; the claims are those of its
    options, whatever other keys the namespace holds that do not match it.
    The names of the models must be free of commas, and a list of one empty
    name is the exception that grants every model. *)
Theorem issued_key_validates ns bytes salt name opts now c raw n c' :
  GenerateKey ns (Some bytes) salt name opts c = (inl (raw, n), c') ->
  ListSecrets ns SecretType c' <> None ->
  (forall s, s ∈ secrets_of c -> matches s raw = false) ->
  Forall (fun m => free_of "," m = true) (opt_ModelAccess opts) -> opt_ModelAccess opts <> [""] ->
  0 <= (civil (RotateAfter opts)).1.1 <= 9999 ->
  Validate ns now raw c'
  = if negb (IsZero (RotateAfter opts)) && (deadline opts <? now) then inr ErrKeyExpired
    else inl (claims_of_options opts).
Proof.
  unfold GenerateKey. cbn [generateRawKey mbind option_bind]. intros Hg Hl Hu Hm Hne Hy.
  destruct (GenerateFromPassword salt (keyPrefix +:+ hex_encode bytes)) as [hash|] eqn:Eh; [|discriminate].
  fold (issued_secret ns name hash opts) in Hg.
  destruct (CreateSecret (issued_secret ns name hash opts) c) as [c1|e] eqn:Ec; [|destruct e; discriminate].
  injection Hg as <- <- <-. unfold Validate. rewrite HasPrefix_app. cbn [negb].
  destruct (ListSecrets ns SecretType c1) as [l|] eqn:El; [|done].
  rewrite (find_key_unique _ _ (issued_secret ns name hash opts)).
  - unfold verdict. by rewrite issued_due, issued_claims.
  - apply (list_secrets _ _ _ _ El). split; [|done]. by apply (create_secret _ _ _ Ec); left.
  - unfold matches. cbn [sec_Type Data issued_secret]. rewrite bool_decide_true by done.
    rewrite lookup_singleton, decide_True by done. by apply (bcrypt_matches salt).
  - intros s Hs. apply (list_secrets _ _ _ _ El) in Hs as [Hs _]. apply (create_secret _ _ _ Ec) in Hs as [->|Hs]; [by left|].
    right. by apply Hu.
Qed.

(** The raw key is short enough for bcrypt. *)
Lemma raw_key_hashed bytes salt : length bytes = Z.to_nat rawKeyBytes ->
  GenerateFromPassword salt (keyPrefix +:+ hex_encode bytes) <> None.
Proof.
  intros Hl E. apply bcrypt_hashes in E.
  assert (forall l, String.length (hex_encode l) = 2 * length l)%nat as Hh.
  { induction l as [|b l IH]; [done|]. simpl. rewrite IH. lia. }
  rewrite str_length_app, Hh, Hl in E. simpl in E. lia.
Qed.

(** Claims of API keys have no subject and no budget, so the budget gate never
    applies to them, whatever the annotation of the token budget says. *)
Lemma api_key_unbudgeted {PublicKey : Type} ns now raw c claims env r w (next : Handler PublicKey unit) :
  Validate ns now raw c = inl claims ->
  EnforceBudget next env (ContextWithClaims r claims) w = next env (ContextWithClaims r claims) w.
Proof. intros Hv. apply validated_key_backed in Hv as (_ & sec & _ & _ & _ & _ & ->). done. Qed.

End apikey_theorems.

(** ** The assumptions hold together

    A JWT library whose tokens are the secret they are signed with, behind
    [HS:] or [RS:]; a bcrypt that stores the password; a list of Secrets. *)

Definition toy_claims : InferenceClaims :=
  {| Subject := "alice"; Scope := "openid inference"; ModelAccess := ["llama3"]; TokenBudget := 100; TenantID := "acme" |}.

Definition toy_header (s : string) : option TokenHeader :=
  if HasPrefix s "HS:" then Some {| Method := MethodHMAC; kid := "" |}
  else if HasPrefix s "RS:" then Some {| Method := MethodRSA; kid := "k1" |} else None.

Definition toy_signed (s : string) (k : SigningKey string) : bool :=
  match k with KeyHMAC secret => s ==? "HS:" +:+ secret | KeyRSA key => s ==? "RS:" +:+ key end.

#[local] Instance toy_jwt : JWT string := {
  ParseWithClaims s kf iss aud lee now v :=
    match toy_header s with
    | None => (None, v)
    | Some h => match kf h v with
                | (inl key, v') => (if toy_signed s key then Some (toy_claims, true) else None, v')
                | (inr _, v') => (None, v')
                end
    end;
  token_header := toy_header; token_claims _ := toy_claims; signed_with := toy_signed;
  claims_valid _ _ _ _ _ := true }.

#[local] Instance toy_jwt_laws : JWTLaws string.
Proof.
  split.
  - intros s kf iss aud lee now v h key v' Hh Hk Hs _. simpl in *. by rewrite Hh, Hk, Hs.
  - intros s kf iss aud lee now v c valid v' E. simpl in *. destruct (toy_header s) as [h|] eqn:Hh; [|done].
    destruct (kf h v) as [[key|] v1] eqn:Hk; [|done]. destruct (toy_signed s key) eqn:Hs; [|done].
    injection E as <- _ <-. by exists h, key.
  - intros s kf iss aud lee now v v' E. simpl in *. destruct (toy_header s) as [h|]; [right; exists h|left; by simplify_eq].
    destruct (kf h v) as [[key|] v1]; [destruct (toy_signed s key)|]; by simplify_eq.
Qed.

Definition toy_env : VerifyEnv string :=
  {| now_cache := 10; now_fetch := 11; now_claims := 12;
     jwks := fun e => if e ==? "https://idp/.well-known/jwks.json"
                      then Response 200 (Some [{| KeyID := "ec"; RSAKey := None |}; {| KeyID := "k1"; RSAKey := Some "pub" |}])
                      else RequestFailed |}.

Definition toy_config : OIDCConfig :=
  {| IssuerURL := "https://idp/"; ClientID := "console"; Audience := ""; JWKSEndpoint := ""; RequiredScopes := ["inference"];
     SkipPaths := SkipPaths DefaultOIDCConfig; CacheTTL := 1 * Hour |}.

Definition toy_request : Request :=
  {| Path := "/v2/models/llama3/infer"; Authorization := "BEARER RS:pub"; ctx_claims := None |}.

Definition toy_server : Server string := {| verifier := NewTokenVerifier; budgets := ∅ |}.

Lemma request_reaches_model_iff_witness :
  exists w1 w2, protected toy_config (fun _ => "llama3") toy_env toy_request toy_server
                = (inr (ContextWithClaims toy_request toy_claims, w1), w2).
Proof.
  apply (proj2 (request_reaches_model_iff toy_config (fun _ => "llama3") toy_env toy_request toy_server
                  (ContextWithClaims toy_request toy_claims) eq_refl)).
  right. split; [by_computation|].
  exists "RS:pub", toy_claims, {| publicKeys := {[ "k1" := "pub" ]}; lastFetch := 11 |}.
  split; [by vm_compute|]. split; [by vm_compute|]. split; [by_computation|]. split; [done|].
  split; [right; right; left; by_computation|]. right. right. vm_compute. done.
Defined.

(** Refusals and their codes, and a forged token under the configuration of
    the manager. *)
Example refusals :
  let go cfg path auth := (protected cfg (fun _ => "llama3") toy_env
      {| Path := path; Authorization := auth; ctx_claims := None |} toy_server).1 in
  let code (x : Refusal + Request * Server string) := match x with inl r => http_status r | inr _ => 200 end in
  code (go toy_config "/healthz" "") = 200 /\ code (go toy_config "/v2" "") = 401
  /\ code (go toy_config "/v2" "Basic abc") = 401 /\ code (go toy_config "/v2" "Bearer RS:other") = 401
  /\ code (go toy_config "/v2" "Bearer HS:guess") = 401 /\ code (go toy_config "/v2" "Bearer RS:pub") = 200
  /\ option_map (fun cfg => code (go cfg "/v2" "Bearer HS:")) (configureAuth "https://idp/" "" ["inference"] Hour) = Some 200
  /\ option_map (fun cfg => code (go cfg "/healthz" "")) (configureAuth "https://idp/" "" ["inference"] Hour) = Some 401.
Proof. vm_compute. done. Qed.

#[local] Instance toy_backend : KeyBackend := {
  Cluster := list Secret; Salt := unit;
  GenerateFromPassword _ pw := if bool_decide (72 < String.length pw)%nat then None else Some ("$" +:+ pw);
  CompareHashAndPassword h pw := h ==? "$" +:+ pw;
  ListSecrets ns ty c := Some (filter (fun s => sec_Namespace s = ns /\ sec_Type s = ty) c);
  CreateSecret s c :=
    if existsb (fun x => (sec_Namespace x ==? sec_Namespace s) && (sec_Name x ==? sec_Name s)) c
    then inr AlreadyExists else inl (s :: c);
  secrets_of c := c }.

#[local] Instance toy_backend_laws : KeyBackendLaws.
Proof.
  split.
  - intros [] pw. simpl. case_bool_decide; naive_solver lia.
  - intros [] pw h. simpl. case_bool_decide; [done|]. intros [= <-]. by rewrite bool_decide_true.
  - intros ns ty c l [= <-] s. rewrite list_elem_of_filter. naive_solver.
  - intros s c c'. simpl. destruct (existsb _ _); [done|]. intros [= <-] x. by rewrite elem_of_cons.
Qed.

Definition toy_options : APIKeyOptions :=
  {| opt_TenantID := "acme"; opt_ModelAccess := ["llama3"; "mistral"]; opt_Scopes := "inference";
     RotateAfter := date 2026 5 1 + 12 * Hour + 7 |}.

Definition toy_key (opts : APIKeyOptions) (c : list Secret) : (string * string + APIKeyErr) * list Secret :=
  GenerateKey "team" (Some (repeat 171 32)) tt "mykey" opts c.

Lemma issued_key_validates_witness :
  let raw := keyPrefix +:+ hex_encode (repeat 171 32) in
  let c := (toy_key toy_options []).2 in
  Validate "team" (date 2026 5 1 + 12 * Hour) raw c = inl (claims_of_options toy_options)
  /\ Validate "team" (date 2026 5 1 + 12 * Hour + 1) raw c = inr ErrKeyExpired.
Proof.
  intros raw c. split.
  - etransitivity.
    { apply (@issued_key_validates toy_backend toy_backend_laws "team" (repeat 171 32) tt "mykey" toy_options
               (date 2026 5 1 + 12 * Hour) [] raw "mykey" c);
        [by vm_compute|done|intros s Hs; by apply not_elem_of_nil in Hs|by_computation|by_computation|by_computation]. }
    by vm_compute.
  - etransitivity.
    { apply (@issued_key_validates toy_backend toy_backend_laws "team" (repeat 171 32) tt "mykey" toy_options
               (date 2026 5 1 + 12 * Hour + 1) [] raw "mykey" c);
        [by vm_compute|done|intros s Hs; by apply not_elem_of_nil in Hs|by_computation|by_computation|by_computation]. }
    by vm_compute.
Defined.

(** A key for the empty model name is a key for every model, one name with a
    comma is two, a second key of the name is refused, and a deadline that
    does not parse never passes. *)
Definition toy_issue (models : list string) : option (InferenceClaims + APIKeyErr) :=
  match toy_key {| opt_TenantID := ""; opt_ModelAccess := models; opt_Scopes := ""; RotateAfter := zeroTime |} [] with
  | (inl (raw, _), c) => Some (Validate "team" 0 raw c)
  | _ => None
  end.

Example issued_model_access :
  (exists c, toy_issue [""] = Some (inl c) /\ CanAccessModel c "llama3" = true)
  /\ (exists c, toy_issue ["a,b"] = Some (inl c) /\ CanAccessModel c "b" = true /\ CanAccessModel c "a,b" = false)
  /\ fst (toy_key toy_options (snd (toy_key toy_options []))) = inr AlreadyExists.
Proof.
  split; [|split]; [eexists; split; [by vm_compute|by vm_compute]| |by vm_compute].
  eexists. split; [by vm_compute|]. split; by vm_compute.
Qed.

Example unparsable_deadline_ignored :
  rotation_due (date 9999 12 31)
    {| sec_Name := "k"; sec_Namespace := "team"; sec_Type := SecretType;
       Annotations := {[ AnnotationRotateAfter := "2020-01-01" ]}; Data := ∅ |} = false.
Proof. by vm_compute. Qed.
