(* ===== verification/Onboarding.v ===== *)
(** * The model onboarding pipeline

    [internal/controller/modelonboarding_*.go]: a ModelOnboarding object moves
    through its stages, one stage per reconciliation; a stage checks the
    readiness of an LLMInferenceService ([Residency.Project]) and, for a gate,
    metrics ([metrics_client.go]).

    An object is the fields the controller reads and writes; conditions are an
    interface with laws.  What one reconciliation gets from the API server and
    from the metrics backend is [ReconcileEnv]: whether updates and patches
    succeed and the service that is read.  Reads are up to date and only this
    controller writes the status.  Error and condition texts and log lines are
    left out; conditions keep their type, status, reason and generation. *)

From S2P Require Import Prelude GoFloat GoFloatBounds K8s ApiV1alpha2 Residency.

Definition phasePending : string := "Pending".
Definition phaseInProgress : string := "InProgress".
Definition phaseCompleted : string := "Completed".
Definition phaseFailed : string := "Failed".
Definition phaseRolledBack : string := "RolledBack".
Definition stageTypeValidation : string := "validation".
Definition stageTypeCanary : string := "canary".
Definition stageTypePromotion : string := "promotion".
Definition stageTypeGate : string := "gate".
Definition requeueAfterStageTransition : Duration := 2 * Second.

Definition ConditionModelLoaded : string := "ModelLoaded".
Definition ConditionGatewayReady : string := "GatewayReady".
Definition ConditionPrefillReady : string := "PrefillReady".

(** [ConditionUnknown] and any other text count as not true. *)
Inductive ConditionStatus := ConditionTrue | ConditionFalse | ConditionUnknown.

#[export] Instance ConditionStatus_eq_dec : EqDecision ConditionStatus.
Proof. solve_decision. Defined.

Record Cond := {
  cond_Type : string; cond_Status : ConditionStatus; cond_Reason : string; cond_ObservedGeneration : Z }.

(** The condition lists of [k8s.io/apimachinery/pkg/api/meta]. *)
Class ConditionSet := {
  Conds : Type;
  Conds_eq_dec :: EqDecision Conds;
  SetStatusCondition : Cond -> Conds -> Conds;
  FindStatusCondition : string -> Conds -> option Cond }.

Class ConditionSetLaws `{ConditionSet} := {
  find_set c l : FindStatusCondition (cond_Type c) (SetStatusCondition c l) = Some c;
  find_set_other c l t : t <> cond_Type c -> FindStatusCondition t (SetStatusCondition c l) = FindStatusCondition t l }.

Section onboarding.
Context `{ConditionSet}.

(** The fields of an LLMInferenceService that are read. *)
Record Service := {
  svc_Namespace : string; svc_Generation : Z; svc_ModelName : string; svc_Prefill : bool;
  svc_Replicas : Z; svc_ModelReady : bool; svc_Conditions : Conds }.

Record OnboardingStatus := { Phase : string; CurrentStage : string; Conditions : Conds }.

Record Onboarding := {
  Generation : Z; Deleted : bool; HasFinalizer : bool; OtherFinalizers : bool;
  Spec : ModelOnboardingSpec; Status_ : OnboardingStatus }.

Definition with_status (ob : Onboarding) (s : OnboardingStatus) : Onboarding :=
  {| Generation := Generation ob; Deleted := Deleted ob; HasFinalizer := HasFinalizer ob;
     OtherFinalizers := OtherFinalizers ob; Spec := Spec ob; Status_ := s |}.
Definition with_finalizer (ob : Onboarding) (b : bool) : Onboarding :=
  {| Generation := Generation ob; Deleted := Deleted ob; HasFinalizer := b;
     OtherFinalizers := OtherFinalizers ob; Spec := Spec ob; Status_ := Status_ ob |}.

Definition stages_of (ob : Onboarding) : list OnboardingStage := range_slice (ModelOnboardingSpec_Stages (Spec ob)).

(** ** Metrics *)

(** A [MetricsQuerier]; [None] is an error of the query. *)
Record MetricsQuerier := {
  QuerySuccessRate : string -> string -> option float64;
  QueryP99LatencyMS : string -> string -> option Z }.

(** The dev-only fallback. *)
Definition insecurePassMetricsQuerier : MetricsQuerier :=
  {| QuerySuccessRate := fun _ _ => Some (f_of_Z 100); QueryP99LatencyMS := fun _ _ => Some 0 |}.

(** An answer of the Prometheus query endpoint: the second entry of a sample's
    value is a string, or is refused. *)
Inductive PrometheusValue := StringValue (raw : string) | OtherValue.

Record prometheusQueryResponse := { prom_Status : string; prom_Result : list PrometheusValue }.

Inductive PrometheusAnswer := QueryFailed | Answered (code : Z) (body : option prometheusQueryResponse).

(** [ParseFloat] and the conversion to [int64] are arguments; the texts of the
    two queries are represented by the answers to them. *)
Definition queryScalar (ParseFloat : string -> option float64) (a : PrometheusAnswer) : option float64 :=
  match a with
  | QueryFailed => None
  | Answered code body =>
      if code !=? 200 then None
      else match body with
           | None => None
           | Some result =>
               if prom_Status result !=? "success" then None
               else match prom_Result result with
                    | [] => Some f_zero
                    | StringValue raw :: _ => ParseFloat raw
                    | OtherValue :: _ => None
                    end
           end
  end.

Definition PrometheusMetricsQuerier (ParseFloat : string -> option float64) (to_int64 : float64 -> Z)
    (rate p99 : string -> string -> PrometheusAnswer) : MetricsQuerier :=
  {| QuerySuccessRate := fun m ns => queryScalar ParseFloat (rate m ns);
     QueryP99LatencyMS := fun m ns => to_int64 <$> queryScalar ParseFloat (p99 m ns) |}.

Record ReconcileEnv := {
  update_ok : bool;          (* whether Update succeeds *)
  patch1_ok : bool;          (* whether the first status patch succeeds *)
  patch2_ok : bool;          (* whether the second one does *)
  get_service : string -> option (option Service);  (* an error, not found, or the service *)
  metrics : option MetricsQuerier;
  to_int32 : float64 -> Z    (* int32(x), left open by the language out of range *) }.

(** ** Readiness *)

Definition conditionTrue (svc : Service) (t : string) : bool :=
  match FindStatusCondition t (svc_Conditions svc) with
  | Some c => (cond_Status c ==? ConditionTrue) && (cond_ObservedGeneration c ==? svc_Generation svc)
  | None => false
  end.

Definition onboardingResidencyReadiness (svc : Service) : Status * Policy * option Err :=
  let requirePrefill := svc_Prefill svc in
  let loaded := conditionTrue svc ConditionModelLoaded || svc_ModelReady svc in
  let attached := conditionTrue svc ConditionGatewayReady in
  let observation :=
    {| ArtifactCached := loaded; RuntimeLoaded := loaded; RuntimeReady := svc_ModelReady svc;
       PrefillReady := negb requirePrefill || conditionTrue svc ConditionPrefillReady;
       RouteAttached := attached; AcceptingRequests := attached && svc_ModelReady svc;
       ActiveRequests := 0; Failure := "" |} in
  Project StateReady observation requirePrefill.

Inductive StageErr :=
  | ResidencyErr (e : Err) | NotResident (reason : string) | NoReplicas | GateNoReplicas | GateModelNotReady
  | NoMetricsBackend | MetricsUnavailable | SuccessRateTooLow | LatencyUnavailable | LatencyTooHigh
  | UnsupportedStage (type : string).

Definition ensureOnboardingResidencyReady (svc : Service) : option StageErr :=
  match onboardingResidencyReadiness svc with
  | (_, _, Some e) => Some (ResidencyErr e)
  | (status, policy, None) =>
      if negb (Ready status) || negb (AllowRoute policy) then Some (NotResident (status_Reason status)) else None
  end.

(** ** Gates *)

Definition validateGateReadiness (svc : Service) : option StageErr :=
  if svc_Replicas svc <? 1 then Some GateNoReplicas
  else if negb (svc_ModelReady svc) then Some GateModelNotReady else None.

Definition checkGateSuccessRate (env : ReconcileEnv) (q : MetricsQuerier) (svc : Service) (gate : GateCriteria) : option StageErr :=
  match QuerySuccessRate q (svc_ModelName svc) (svc_Namespace svc) with
  | None => Some MetricsUnavailable
  | Some rate => if to_int32 env rate <? GateCriteria_MinSuccessRate gate then Some SuccessRateTooLow else None
  end.

Definition checkGateLatency (q : MetricsQuerier) (svc : Service) (gate : GateCriteria) : option StageErr :=
  match GateCriteria_MaxLatencyP99 gate with
  | None => None
  | Some max =>
      if max <=? 0 then None
      else match QueryP99LatencyMS q (svc_ModelName svc) (svc_Namespace svc) with
           | None => Some LatencyUnavailable
           | Some p99 => if p99 >? max then Some LatencyTooHigh else None
           end
  end.

Definition checkGateCriteria (env : ReconcileEnv) (svc : Service) (gate : GateCriteria) : option StageErr :=
  match validateGateReadiness svc with
  | Some e => Some e
  | None =>
      match metrics env with
      | None => Some NoMetricsBackend
      | Some q =>
          match checkGateSuccessRate env q svc gate with
          | Some e => Some e
          | None => checkGateLatency q svc gate
          end
      end
  end.

(** ** Stages *)

Definition executeValidationStage (svc : Service) : option StageErr := ensureOnboardingResidencyReady svc.

Definition executeCanaryStage (svc : Service) : option StageErr :=
  if svc_Replicas svc <? 1 then Some NoReplicas else ensureOnboardingResidencyReady svc.

Definition executeGateStage (env : ReconcileEnv) (svc : Service) (stage : OnboardingStage) : option StageErr :=
  match OnboardingStage_Gate stage with None => None | Some gate => checkGateCriteria env svc gate end.

Definition executePromotionStage (svc : Service) : option StageErr := ensureOnboardingResidencyReady svc.

Definition executeStage (env : ReconcileEnv) (svc : Service) (stage : OnboardingStage) : option StageErr :=
  let t := OnboardingStage_Type stage in
  if t ==? stageTypeValidation then executeValidationStage svc
  else if t ==? stageTypeCanary then executeCanaryStage svc
  else if t ==? stageTypeGate then executeGateStage env svc stage
  else if t ==? stageTypePromotion then executePromotionStage svc
  else Some (UnsupportedStage t).

(** ** Status *)

Definition progressingConditionStatus (phase : string) : ConditionStatus :=
  if (phase ==? phaseInProgress) || (phase ==? phasePending) then ConditionTrue else ConditionFalse.

Definition boolToConditionStatus (b : bool) : ConditionStatus := if b then ConditionTrue else ConditionFalse.

Definition isTerminalStatusPhase (phase : string) : bool :=
  (phase ==? phaseCompleted) || (phase ==? phaseRolledBack) || (phase ==? phaseFailed).

Definition setProgressingCondition (gen : Z) (phase reason : string) (l : Conds) : Conds :=
  SetStatusCondition {| cond_Type := "Progressing"; cond_Status := progressingConditionStatus phase;
                        cond_Reason := reason; cond_ObservedGeneration := gen |} l.

Definition setReadyCondition (gen : Z) (phase reason : string) (l : Conds) : Conds :=
  SetStatusCondition {| cond_Type := "Ready"; cond_Status := boolToConditionStatus (phase ==? phaseCompleted);
                        cond_Reason := reason; cond_ObservedGeneration := gen |} l.

(** What [transition] writes into the object in memory. *)
Definition transition_status (gen : Z) (s : OnboardingStatus) (phase stage reason : string) : OnboardingStatus :=
  let l := setProgressingCondition gen phase reason (Conditions s) in
  {| Phase := phase;
     CurrentStage := if stage !=? "" then stage else CurrentStage s;
     Conditions := if isTerminalStatusPhase phase then setReadyCondition gen phase reason l else l |}.

(** A merge patch sends the fields in which the new object differs from the
    base; the server changes these and no others. *)
Definition merge_patch (base new stored : OnboardingStatus) : OnboardingStatus :=
  {| Phase := if Phase new ==? Phase base then Phase stored else Phase new;
     CurrentStage := if CurrentStage new ==? CurrentStage base then CurrentStage stored else CurrentStage new;
     Conditions := if Conditions new ==? Conditions base then Conditions stored else Conditions new |}.

(** The object in memory and the status at the server.  A patch that fails
    leaves the new status in memory; one that succeeds loads the server's. *)
Record Pair := { memory : Onboarding; server : OnboardingStatus }.

Definition transition (ok : bool) (p : Pair) (phase stage reason : string) : bool * Pair :=
  let base := Status_ (memory p) in
  let new := transition_status (Generation (memory p)) base phase stage reason in
  if ok then
    let s := merge_patch base new (server p) in
    (true, {| memory := with_status (memory p) s; server := s |})
  else (false, {| memory := with_status (memory p) new; server := server p |}).

(** ** The pipeline *)

Fixpoint stage_after (name : string) (i : nat) (stages : list OnboardingStage) : nat :=
  match stages with
  | [] => O
  | s :: l => if OnboardingStage_Name s ==? name then S i else stage_after name (S i) l
  end.

Definition nextStageIndex (ob : Onboarding) : nat :=
  if (CurrentStage (Status_ ob) ==? "") || (Phase (Status_ ob) ==? phasePending) then O
  else stage_after (CurrentStage (Status_ ob)) O (stages_of ob).

(** The result of a handler: a delay after which it runs again, or an error. *)
Inductive PipelineErr := StageFailed (e : StageErr) | PatchFailed | UpdateFailed | GetFailed.

Definition Outcome : Type := option Duration + PipelineErr.

Definition advancePipeline (env : ReconcileEnv) (svc : Service) (p : Pair) : Outcome * Pair :=
  let stages := stages_of (memory p) in
  let complete (name reason : string) :=
    match transition (patch1_ok env) p phaseCompleted name reason with
    | (true, p) => (inl None, p)
    | (false, p) => (inr PatchFailed, p)
    end in
  match stages !! (length stages - 1)%nat with
  | None => complete "" "NoStages"
  | Some last =>
      match stages !! nextStageIndex (memory p) with
      | None => complete (OnboardingStage_Name last) "AllStagesPassed"
      | Some stage =>
          match executeStage env svc stage with
          | Some e => (inr (StageFailed e), p)
          | None =>
              match transition (patch1_ok env) p phaseInProgress (OnboardingStage_Name stage) "StageComplete" with
              | (true, p) => (inl (Some requeueAfterStageTransition), p)
              | (false, p) => (inr PatchFailed, p)
              end
          end
      end
  end.

(** The error is recorded in the status and not returned; so is the error of
    recording it. *)
Definition handlePipelineFailure (ok : bool) (p : Pair) : Outcome * Pair :=
  let '(phase, reason) := if ModelOnboardingSpec_RollbackOnFailure (Spec (memory p))
                          then (phaseRolledBack, "RollbackTriggered") else (phaseFailed, "StageFailed") in
  (inl None, (transition ok p phase (CurrentStage (Status_ (memory p))) reason).2).

Definition reconcileOnboardingPipeline (env : ReconcileEnv) (p : Pair) : Outcome * Pair :=
  match get_service env (ModelOnboardingSpec_ModelRef (Spec (memory p))) with
  | None => (inr GetFailed, p)
  | Some None =>
      match transition (patch1_ok env) p phaseFailed "" "ModelNotFound" with
      | (true, p) => (inl None, p)
      | (false, p) => (inr PatchFailed, p)
      end
  | Some (Some svc) =>
      match advancePipeline env svc p with
      | (inl r, p) => (inl r, p)
      | (inr e, p) =>
          (* a stage that failed made no patch: its failure is the first one *)
          handlePipelineFailure (match e with StageFailed _ => patch1_ok env | _ => patch2_ok env end) p
      end
  end.

Definition isTerminalOnboardingPhase (phase : string) : bool := (phase ==? phaseCompleted) || (phase ==? phaseRolledBack).

(** One reconciliation of the object at the server; [None] when it is gone. *)
Definition Reconcile (env : ReconcileEnv) (ob : option Onboarding) : Outcome * option Onboarding :=
  match ob with
  | None => (inl None, None)
  | Some ob =>
      if Deleted ob then
        if HasFinalizer ob then
          (* the server removes a deleted object without finalizers *)
          if update_ok env
          then (inl None, if OtherFinalizers ob then Some (with_finalizer ob false) else None)
          else (inr UpdateFailed, Some ob)
        else (inl None, Some ob)
      else if negb (HasFinalizer ob) && negb (update_ok env) then (inr UpdateFailed, Some ob)
      else
        let ob := with_finalizer ob true in
        let p := {| memory := ob; server := Status_ ob |} in
        if isTerminalOnboardingPhase (Phase (Status_ ob)) then (inl None, Some ob)
        else
          let '(r, p) :=
            if Phase (Status_ ob) ==? "" then
              match transition (patch1_ok env) p phasePending "" "Initialised" with
              | (true, p) => (inl None, p)
              | (false, p) => (inr PatchFailed, p)
              end
            else reconcileOnboardingPipeline env p in
          (r, Some (with_status ob (server p)))
  end.

End onboarding.

(** ** Readiness and gates *)

Section onboarding_theorems.
Context `{ConditionSetLaws}.

(** The residency projection asks for a ready model and, with prefill, for a
    prefill condition of the current generation; a route attached to a model
    that is not ready is an error, not a pass. *)
Lemma residency_ready_iff svc :
  ensureOnboardingResidencyReady svc = None
  <-> svc_ModelReady svc = true /\ (svc_Prefill svc = true -> conditionTrue svc ConditionPrefillReady = true).
Proof.
  unfold ensureOnboardingResidencyReady, onboardingResidencyReadiness, Project, validateObservation, statusFor, policyFor.
  simpl. destruct (svc_ModelReady svc), (svc_Prefill svc), (conditionTrue svc ConditionPrefillReady),
    (conditionTrue svc ConditionGatewayReady); simpl; intuition discriminate.
Qed.

(** What a gate asks for: a replica, a ready model, a metrics backend, and the
    two objectives, the latency only if it is positive. *)
Definition gate_met (env : ReconcileEnv) (svc : Service) (gate : GateCriteria) : Prop :=
  1 <= svc_Replicas svc /\ svc_ModelReady svc = true
  /\ exists q rate, metrics env = Some q
     /\ QuerySuccessRate q (svc_ModelName svc) (svc_Namespace svc) = Some rate
     /\ GateCriteria_MinSuccessRate gate <= to_int32 env rate
     /\ forall max, GateCriteria_MaxLatencyP99 gate = Some max -> 0 < max ->
        exists p99, QueryP99LatencyMS q (svc_ModelName svc) (svc_Namespace svc) = Some p99 /\ p99 <= max.

Lemma latency_passes_iff q svc gate :
  checkGateLatency q svc gate = None
  <-> forall max, GateCriteria_MaxLatencyP99 gate = Some max -> 0 < max ->
      exists p99, QueryP99LatencyMS q (svc_ModelName svc) (svc_Namespace svc) = Some p99 /\ p99 <= max.
Proof.
  unfold checkGateLatency. destruct (GateCriteria_MaxLatencyP99 gate) as [max|]; [|naive_solver].
  destruct (bool_decide_reflect (max <= 0)); [split; [intros _ ? [= <-]; lia|done]|].
  destruct (QueryP99LatencyMS q (svc_ModelName svc) (svc_Namespace svc)) as [p99|].
  - case_bool_decide; split; [discriminate| |intros _ ? [= <-] _; exists p99; split; [done|lia]|done].
    intros E. destruct (E max eq_refl) as (? & [= <-] & ?); lia.
  - split; [discriminate|]. intros E. destruct (E max eq_refl) as (? & ? & _); [lia|discriminate].
Qed.

Lemma gate_passes_iff env svc gate : checkGateCriteria env svc gate = None <-> gate_met env svc gate.
Proof.
  unfold checkGateCriteria, gate_met, validateGateReadiness, checkGateSuccessRate.
  destruct (bool_decide_reflect (svc_Replicas svc < 1)); [split; [discriminate|lia]|].
  destruct (svc_ModelReady svc); [|split; [discriminate|by intros (_ & ? & _)]]. simpl.
  destruct (metrics env) as [q|]; [|split; [discriminate|by intros (_ & _ & ? & ? & ? & _)]].
  destruct (QuerySuccessRate q _ _) as [rate|] eqn:E;
    [|split; [discriminate|intros (_ & _ & q' & rate & [= <-] & ? & _); congruence]].
  destruct (bool_decide_reflect (to_int32 env rate < GateCriteria_MinSuccessRate gate)).
  - split; [discriminate|]. intros (_ & _ & q' & rate' & [= <-] & Er & Hm & _). rewrite E in Er. injection Er as <-. lia.
  - rewrite latency_passes_iff. split.
    + intros Hl. split; [lia|]. split; [done|]. exists q, rate. split; [done|]. split; [done|]. split; [lia|done].
    + intros (_ & _ & q' & rate' & [= <-] & _ & _ & Hl). done.
Qed.

(** When a stage passes, by its type; no other type passes. *)
Lemma stage_passes_iff env svc stage :
  executeStage env svc stage = None
  <-> (OnboardingStage_Type stage = stageTypeValidation \/ OnboardingStage_Type stage = stageTypePromotion)
      /\ ensureOnboardingResidencyReady svc = None
      \/ OnboardingStage_Type stage = stageTypeCanary /\ 1 <= svc_Replicas svc /\ ensureOnboardingResidencyReady svc = None
      \/ OnboardingStage_Type stage = stageTypeGate
         /\ forall gate, OnboardingStage_Gate stage = Some gate -> gate_met env svc gate.
Proof.
  unfold executeStage, executeValidationStage, executePromotionStage, executeCanaryStage, executeGateStage.
  destruct (bool_decide_reflect (OnboardingStage_Type stage = stageTypeValidation)) as [->|H1]; [split; [naive_solver|]|].
  { intros [[_ ?]|[[? _]|[? _]]]; [done|discriminate..]. }
  destruct (bool_decide_reflect (OnboardingStage_Type stage = stageTypeCanary)) as [->|H2].
  { case_bool_decide; split; intros E; [discriminate| |right; left; split; [done|split; [lia|done]]|];
      destruct E as [[[|] _]|[(_ & ? & ?)|[? _]]]; done || lia. }
  destruct (bool_decide_reflect (OnboardingStage_Type stage = stageTypeGate)) as [->|H3].
  2: { destruct (bool_decide_reflect (OnboardingStage_Type stage = stageTypePromotion)) as [->|H4];
       [split; [naive_solver|intros [[_ ?]|[[? _]|[? _]]]; done]|].
       split; [discriminate|]. intros [[[|] _]|[[? _]|[? _]]]; done. }
  destruct (OnboardingStage_Gate stage) as [gate|].
  - rewrite gate_passes_iff. split; [intros; right; right; split; [done|by intros ? [= <-]]|].
    intros [[[|] _]|[[? _]|[_ Hg]]]; [done..|]. by apply Hg.
  - split; [intros _; right; right; by split|done].
Qed.

(** ** Transitions *)

Lemma merge_patch_fresh base new : merge_patch base new base = new.
Proof. unfold merge_patch. destruct new. simpl. f_equal; case_bool_decide; congruence. Qed.

Lemma transition_fresh ok ob phase stage reason :
  transition ok {| memory := ob; server := Status_ ob |} phase stage reason
  = let new := transition_status (Generation ob) (Status_ ob) phase stage reason in
    (ok, {| memory := with_status ob new; server := if ok then new else Status_ ob |}).
Proof. unfold transition. destruct ok; simpl; [|done]. by rewrite merge_patch_fresh. Qed.

(** The failure of a patch is followed by a second one, computed against the
    status the first one did not deliver: only the phase and the conditions
    reach the server. *)
Definition failure_phase (ob : Onboarding) : string :=
  if ModelOnboardingSpec_RollbackOnFailure (Spec ob) then phaseRolledBack else phaseFailed.

Definition is_ready (s : OnboardingStatus) : bool :=
  match FindStatusCondition "Ready" (Conditions s) with Some c => cond_Status c ==? ConditionTrue | None => false end.

Lemma transition_ready gen s phase stage reason :
  is_ready (transition_status gen s phase stage reason)
  = if isTerminalStatusPhase phase then phase ==? phaseCompleted else is_ready s.
Proof.
  unfold is_ready, transition_status. simpl. destruct (isTerminalStatusPhase phase).
  - unfold setReadyCondition. pose proof (find_set {| cond_Type := "Ready"; cond_Status := boolToConditionStatus (phase ==? phaseCompleted);
      cond_Reason := reason; cond_ObservedGeneration := gen |}) as E. simpl in E. rewrite E. simpl.
    by destruct (phase ==? phaseCompleted).
  - unfold setProgressingCondition. by rewrite find_set_other.
Qed.

(** What one reconciliation does to the status at the server. *)
Inductive effect (env : ReconcileEnv) (ob : Onboarding) : OnboardingStatus -> Prop :=
  | eff_none : effect env ob (Status_ ob)
  | eff_init : Phase (Status_ ob) = "" ->
      effect env ob (transition_status (Generation ob) (Status_ ob) phasePending "" "Initialised")
  | eff_missing : get_service env (ModelOnboardingSpec_ModelRef (Spec ob)) = Some None ->
      effect env ob (transition_status (Generation ob) (Status_ ob) phaseFailed "" "ModelNotFound")
  | eff_complete name reason :
      stages_of ob !! nextStageIndex ob = None ->
      (name = "" \/ exists st, st ∈ stages_of ob /\ name = OnboardingStage_Name st /\ last (stages_of ob) = Some st) ->
      effect env ob (transition_status (Generation ob) (Status_ ob) phaseCompleted name reason)
  | eff_stage svc stage :
      get_service env (ModelOnboardingSpec_ModelRef (Spec ob)) = Some (Some svc) ->
      stages_of ob !! nextStageIndex ob = Some stage -> executeStage env svc stage = None ->
      effect env ob (transition_status (Generation ob) (Status_ ob) phaseInProgress (OnboardingStage_Name stage) "StageComplete")
  | eff_failure s' :
      Phase s' = failure_phase ob -> CurrentStage s' = CurrentStage (Status_ ob) ->
      (is_ready s' = true -> is_ready (Status_ ob) = true) -> effect env ob s'.

Lemma merge_ready base new stored :
  is_ready (merge_patch base new stored) = if Conditions new ==? Conditions base then is_ready stored else is_ready new.
Proof. unfold merge_patch, is_ready. simpl. by case_bool_decide. Qed.

Lemma failure_of ob m ok :
  Spec m = Spec ob -> m = ob \/ Phase (Status_ m) <> failure_phase ob ->
  let p' := (handlePipelineFailure ok {| memory := m; server := Status_ ob |}).2 in
  server p' = Status_ ob \/
  (Phase (server p') = failure_phase ob /\ CurrentStage (server p') = CurrentStage (Status_ ob)
   /\ (is_ready (server p') = true -> is_ready (Status_ ob) = true)).
Proof.
  intros Hs Hph. unfold handlePipelineFailure. simpl. rewrite Hs.
  assert (exists reason, (if ModelOnboardingSpec_RollbackOnFailure (Spec ob) then (phaseRolledBack, "RollbackTriggered")
            else (phaseFailed, "StageFailed")) = (failure_phase ob, reason)) as [reason ->]
    by (unfold failure_phase; destruct (ModelOnboardingSpec_RollbackOnFailure (Spec ob)); eauto).
  simpl. unfold transition. destruct ok; [|by left]. right. simpl.
  set (new := transition_status (Generation m) (Status_ m) (failure_phase ob) (CurrentStage (Status_ m)) reason).
  assert (is_ready new = false) as Hn.
  { subst new. rewrite transition_ready. unfold failure_phase. by destruct (ModelOnboardingSpec_RollbackOnFailure _). }
  unfold merge_patch. simpl. split; [|split].
  - destruct Hph as [->|Hph]; [|by rewrite bool_decide_false by (subst new; simpl; congruence)].
    case_bool_decide as E; [|done]. by rewrite <- E.
  - rewrite bool_decide_true; [done|]. subst new. simpl. by case_bool_decide.
  - change (is_ready (merge_patch (Status_ m) new (Status_ ob)) = true -> is_ready (Status_ ob) = true).
    rewrite merge_ready, Hn. by case_bool_decide.
Qed.

Lemma last_lookup_1 {A} (l : list A) x : l !! (length l - 1)%nat = Some x -> x ∈ l /\ last l = Some x.
Proof.
  intros E. split; [by eapply list_elem_of_lookup_2|]. rewrite last_lookup.
  replace (Init.Nat.pred (length l)) with (length l - 1)%nat by lia. done.
Qed.

Lemma advance_effect env svc ob :
  get_service env (ModelOnboardingSpec_ModelRef (Spec ob)) = Some (Some svc) ->
  let '(r, p) := advancePipeline env svc {| memory := ob; server := Status_ ob |} in
  match r with
  | inl _ => effect env ob (server p)
  | inr (StageFailed _) => p = {| memory := ob; server := Status_ ob |}
  | inr _ => server p = Status_ ob /\ Spec (memory p) = Spec ob
             /\ (Phase (Status_ (memory p)) = phaseCompleted \/ Phase (Status_ (memory p)) = phaseInProgress)
  end.
Proof.
  intros Hg. unfold advancePipeline. simpl memory.
  destruct (stages_of ob !! (length (stages_of ob) - 1)%nat) as [lst|] eqn:El.
  2: { rewrite transition_fresh. destruct (patch1_ok env); simpl; [|by eauto].
       apply eff_complete; [|by left]. apply lookup_ge_None in El. apply lookup_ge_None. lia. }
  apply last_lookup_1 in El as [Hin El].
  destruct (stages_of ob !! nextStageIndex ob) as [stage|] eqn:En.
  2: { rewrite transition_fresh. destruct (patch1_ok env); simpl; [|by eauto]. apply eff_complete; [done|]. right. eauto. }
  destruct (executeStage env svc stage) as [e|] eqn:Ee; [done|].
  rewrite transition_fresh. destruct (patch1_ok env); simpl; [|by eauto]. by apply (eff_stage _ _ svc).
Qed.

Lemma pipeline_effect env ob :
  effect env ob (server (reconcileOnboardingPipeline env {| memory := ob; server := Status_ ob |}).2).
Proof.
  unfold reconcileOnboardingPipeline. simpl memory.
  destruct (get_service env _) as [[svc|]|] eqn:Hg; [| |apply eff_none].
  - pose proof (advance_effect env svc ob Hg) as Ha.
    destruct (advancePipeline env svc {| memory := ob; server := Status_ ob |}) as [[r|e] p]; [done|].
    assert (forall ok, server (handlePipelineFailure ok p).2 = Status_ ob
              \/ (Phase (server (handlePipelineFailure ok p).2) = failure_phase ob
                  /\ CurrentStage (server (handlePipelineFailure ok p).2) = CurrentStage (Status_ ob)
                  /\ (is_ready (server (handlePipelineFailure ok p).2) = true -> is_ready (Status_ ob) = true))) as Hf.
    { intros ok. destruct p as [m sv].
      assert (sv = Status_ ob /\ Spec m = Spec ob /\ (m = ob \/ Phase (Status_ m) <> failure_phase ob)) as (-> & Hs & Hm).
      { unfold failure_phase. destruct e; [injection Ha as -> ->; by auto|..]; destruct Ha as (? & ? & [E|E]); simpl in *;
          rewrite E; (split; [done|split; [done|right; by destruct (ModelOnboardingSpec_RollbackOnFailure _)]]). }
      by apply failure_of. }
    cbv zeta. destruct (Hf (match e with StageFailed _ => patch1_ok env | _ => patch2_ok env end)) as [E|(E1 & E2 & E3)].
    + rewrite E. apply eff_none.
    + by apply eff_failure.
  - rewrite transition_fresh. destruct (patch1_ok env); simpl; [by apply eff_missing|apply eff_none].
Qed.

Lemma effect_finalizer env ob b s : effect env (with_finalizer ob b) s -> effect env ob s.
Proof.
  intros E. destruct E as [|E|E|name reason E1 E2|svc stage E1 E2 E3|s' E1 E2 E3].
  - exact (eff_none env ob).
  - exact (eff_init env ob E).
  - exact (eff_missing env ob E).
  - exact (eff_complete env ob name reason E1 E2).
  - exact (eff_stage env ob svc stage E1 E2 E3).
  - exact (eff_failure env ob s' E1 E2 E3).
Qed.

Lemma Reconcile_effect env ob ob' :
  (Reconcile env (Some ob)).2 = Some ob' ->
  Spec ob' = Spec ob /\ effect env ob (Status_ ob')
  /\ (isTerminalOnboardingPhase (Phase (Status_ ob)) = true -> Status_ ob' = Status_ ob).
Proof.
  assert (forall b o, o = with_finalizer ob b ->
    Spec o = Spec ob /\ effect env ob (Status_ o) /\ (isTerminalOnboardingPhase (Phase (Status_ ob)) = true -> Status_ o = Status_ ob))
    as Hsame by (intros b o ->; repeat split; exact (eff_none env ob)).
  unfold Reconcile. destruct (Deleted ob); [|destruct (negb (HasFinalizer ob) && negb (update_ok env))].
  - assert (Hself := Hsame (HasFinalizer ob) ob ltac:(by destruct ob)).
    destruct (HasFinalizer ob), (update_ok env), (OtherFinalizers ob); simpl; intros [= <-]; auto.
  - intros [= <-]. by apply (Hsame (HasFinalizer ob)); destruct ob.
  - change (Phase (Status_ (with_finalizer ob true))) with (Phase (Status_ ob)).
    destruct (isTerminalOnboardingPhase (Phase (Status_ ob))) eqn:Et; [intros [= <-]; by apply (Hsame true)|].
    assert (effect env (with_finalizer ob true) (Status_ ob')  -> effect env ob (Status_ ob')) as Hw
      by (apply effect_finalizer).
    destruct (bool_decide_reflect (Phase (Status_ ob) = "")) as [E|E].
    + rewrite transition_fresh. destruct (patch1_ok env); simpl; intros [= <-]; (split; [done|]); (split; [|discriminate]);
        [by apply eff_init|exact (eff_none env ob)].
    + pose proof (pipeline_effect env (with_finalizer ob true)) as Hp.
      destruct (reconcileOnboardingPipeline env _) as [r p]. intros [= <-]. split; [done|]. split; [|discriminate].
      by apply Hw.
Qed.

(** ** Completion means that every stage passed *)

(** Stages with distinct names, none empty. *)
Definition well_named (ob : Onboarding) : Prop :=
  NoDup (OnboardingStage_Name <$> stages_of ob) /\ "" ∉ (OnboardingStage_Name <$> stages_of ob).

Lemma stage_after_spec name k stages i st :
  NoDup (OnboardingStage_Name <$> stages) -> stages !! i = Some st -> OnboardingStage_Name st = name ->
  stage_after name k stages = (k + S i)%nat.
Proof.
  revert k i. induction stages as [|x l IH]; intros k i Hd Hi Hn; [done|]. simpl.
  apply NoDup_cons in Hd as [Hx Hd]. destruct i as [|i]; simpl in Hi.
  - injection Hi as ->. rewrite bool_decide_true by done. lia.
  - rewrite bool_decide_false; [rewrite (IH (S k) i); [lia|done..]|].
    intros E. apply Hx. rewrite E, <- Hn. apply list_elem_of_fmap. exists st. split; [done|]. by eapply list_elem_of_lookup_2.
Qed.

(** A stage passed in one of the reconciliations of a history. *)
Definition passed (h : list ReconcileEnv) (ob : Onboarding) (st : OnboardingStage) : Prop :=
  exists env svc, env ∈ h /\ get_service env (ModelOnboardingSpec_ModelRef (Spec ob)) = Some (Some svc)
  /\ executeStage env svc st = None.

Definition done_upto (h : list ReconcileEnv) (ob : Onboarding) (n : nat) : Prop :=
  forall j st, (j < n)%nat -> stages_of ob !! j = Some st -> passed h ob st.

Definition pipeline_inv (h : list ReconcileEnv) (ob : Onboarding) : Prop :=
  (CurrentStage (Status_ ob) = ""
   \/ exists i st, stages_of ob !! i = Some st /\ OnboardingStage_Name st = CurrentStage (Status_ ob) /\ done_upto h ob (S i))
  /\ (Phase (Status_ ob) = phaseCompleted -> Forall (passed h ob) (stages_of ob))
  /\ (is_ready (Status_ ob) = true <-> Phase (Status_ ob) = phaseCompleted).

(** The reconciliations of an object, latest first, from a status without
    phase, stage and Ready condition; somebody may delete the object. *)
Inductive reachable (ob0 : Onboarding) : list ReconcileEnv -> Onboarding -> Prop :=
  | reach_new : Phase (Status_ ob0) = "" -> CurrentStage (Status_ ob0) = "" -> is_ready (Status_ ob0) = false ->
      reachable ob0 [] ob0
  | reach_reconcile h ob env ob' : reachable ob0 h ob -> (Reconcile env (Some ob)).2 = Some ob' ->
      reachable ob0 (env :: h) ob'
  | reach_delete h ob : reachable ob0 h ob ->
      reachable ob0 h {| Generation := Generation ob; Deleted := true; HasFinalizer := HasFinalizer ob;
                         OtherFinalizers := OtherFinalizers ob; Spec := Spec ob; Status_ := Status_ ob |}.

Lemma passed_mono h env ob ob' st : Spec ob' = Spec ob -> passed h ob st -> passed (env :: h) ob' st.
Proof. intros Hs (e & svc & He & Hg & Hx). exists e, svc. rewrite Hs. split; [by right|done]. Qed.

Lemma done_next h ob : well_named ob -> pipeline_inv h ob -> done_upto h ob (nextStageIndex ob).
Proof.
  intros [Hd _] [Hc _]. unfold nextStageIndex.
  destruct (bool_decide_reflect (CurrentStage (Status_ ob) = "")); simpl; [intros ???; lia|].
  destruct (Phase (Status_ ob) ==? phasePending); [intros ???; lia|].
  destruct Hc as [?|(i & st & Hi & Hn & Hu)]; [done|]. by rewrite (stage_after_spec _ _ _ i st).
Qed.

Lemma inv_step h env ob ob' :
  well_named ob -> pipeline_inv h ob -> (Reconcile env (Some ob)).2 = Some ob' -> pipeline_inv (env :: h) ob'.
Proof.
  intros Hw Hi Hr. pose proof (done_next h ob Hw Hi) as Hnext. destruct Hi as (Hc & Hp & Hrd).
  apply Reconcile_effect in Hr as (Hs & He & Hterm).
  assert (stages_of ob' = stages_of ob) as Hst by (unfold stages_of; by rewrite Hs).
  assert (CurrentStage (Status_ ob') = CurrentStage (Status_ ob) ->
    (CurrentStage (Status_ ob') = "" \/ exists i st, stages_of ob' !! i = Some st
       /\ OnboardingStage_Name st = CurrentStage (Status_ ob') /\ done_upto (env :: h) ob' (S i))) as Hsame.
  { intros ->. destruct Hc as [Hc|(i & st & Hi & Hn & Hu)]; [by left|right]. exists i, st. rewrite Hst.
    split; [done|]. split; [done|]. intros j x Hj Hx. rewrite Hst in Hx. eapply passed_mono; [done|]. by apply (Hu j). }
  assert (Forall (passed h ob) (stages_of ob) -> Forall (passed (env :: h) ob') (stages_of ob')) as Hall.
  { rewrite Hst. intros Ha. eapply Forall_impl; [exact Ha|]. intros. by eapply passed_mono. }
  assert (Phase (Status_ ob) = phaseCompleted -> Status_ ob' = Status_ ob) as Hfix
    by (intros E; apply Hterm; unfold isTerminalOnboardingPhase; by rewrite bool_decide_true).
  unfold pipeline_inv. inversion He as [E|E E'|E E'|name reason E1 E2 E'|svc stage E1 E2 E3 E'|s' E1 E2 E3 E']; clear He.
  - rewrite <- E in *. split; [by apply Hsame|]. split; [auto|done].
  - rewrite <- E' in *. split; [by apply Hsame|]. split; [done|]. rewrite transition_ready. simpl. rewrite Hrd, E. done.
  - rewrite <- E' in *. split; [by apply Hsame|]. split; [done|]. rewrite transition_ready. done.
  - rewrite <- E' in *. split; [|split; [|by rewrite transition_ready]].
    + simpl. destruct (bool_decide_reflect (name = "")) as [->|Hn]; simpl; [by apply Hsame|]. right.
      destruct E2 as [?|(st & Hin & -> & _)]; [done|]. apply list_elem_of_lookup_1 in Hin as [i Hi].
      exists i, st. rewrite Hst. split; [done|]. split; [done|]. intros j x Hj Hx. rewrite Hst in Hx.
      eapply passed_mono; [done|]. apply (Hnext j); [|done]. apply lookup_ge_None in E1. apply lookup_lt_Some in Hx. lia.
    + intros _. apply Hall. apply Forall_lookup. intros j x Hx. apply (Hnext j); [|done].
      apply lookup_ge_None in E1. apply lookup_lt_Some in Hx. lia.
  - rewrite <- E' in *. assert (OnboardingStage_Name stage <> "") as Hne.
    { intros E. apply (proj2 Hw). rewrite <- E. apply list_elem_of_fmap. exists stage. split; [done|]. by eapply list_elem_of_lookup_2. }
    split; [|split; [done|]].
    + right. exists (nextStageIndex ob), stage. rewrite Hst. split; [done|]. split; [simpl; by rewrite bool_decide_false|].
      intros j x Hj Hx. rewrite Hst in Hx. destruct (decide (j = nextStageIndex ob)) as [->|].
      * rewrite E2 in Hx. injection Hx as <-. exists env, svc. rewrite Hs. split; [left|done].
      * eapply passed_mono; [done|]. apply (Hnext j); [lia|done].
    + rewrite transition_ready. simpl. rewrite Hrd. split; [|done]. intros E. specialize (Hfix E).
      apply (f_equal Phase) in Hfix. simpl in Hfix. congruence.
  - assert (Phase (Status_ ob') <> phaseCompleted) as Hne.
    { rewrite E1. unfold failure_phase. by destruct (ModelOnboardingSpec_RollbackOnFailure _). }
    split; [by apply Hsame|]. split; [done|]. split; [|done]. intros Hr. apply E3, Hrd in Hr.
    rewrite (Hfix Hr) in Hne. done.
Qed.

(** Whatever the API server, the metrics backend and the service answer,
    an onboarding with distinct stage names is completed, and its Ready
    condition true, only after every one of its stages passed in some
    reconciliation, on the service and the metrics read in that one. *)
Theorem completed_means_passed ob0 h ob :
  well_named ob0 -> reachable ob0 h ob ->
  (Phase (Status_ ob) = phaseCompleted \/ is_ready (Status_ ob) = true) ->
  Forall (passed h ob0) (stages_of ob0).
Proof.
  intros Hw Hr.
  assert (Spec ob = Spec ob0 /\ pipeline_inv h ob) as [Hs (_ & Hp & Hrd)].
  { induction Hr as [E1 E2 E3|h ob env ob' _ [Hs IH] E|h ob _ [Hs IH]].
    - split; [done|]. split; [by left|]. rewrite E1, E3. done.
    - destruct (Reconcile_effect env ob ob' E) as (Hs' & _ & _). split; [congruence|].
      eapply inv_step; [|exact IH|exact E]. unfold well_named, stages_of. by rewrite Hs.
    - split; [done|]. exact IH. }
  intros E. assert (Forall (passed h ob) (stages_of ob)) as Ha by (apply Hp; destruct E as [E|E]; [done|by apply Hrd]).
  unfold stages_of in *. rewrite Hs in Ha. eapply Forall_impl; [exact Ha|].
  intros st (e & svc & ? & Hg & ?). exists e, svc. by rewrite Hs in Hg.
Qed.

(** ** A pipeline whose stages pass completes *)

Definition good_env (ob : Onboarding) (env : ReconcileEnv) : Prop :=
  update_ok env = true /\ patch1_ok env = true
  /\ exists svc, get_service env (ModelOnboardingSpec_ModelRef (Spec ob)) = Some (Some svc)
     /\ Forall (fun st => executeStage env svc st = None) (stages_of ob).

Definition run (ob : Onboarding) (envs : list ReconcileEnv) : option Onboarding :=
  foldl (fun o env => (Reconcile env o).2) (Some ob) envs.

(** The status after [k] stages: pending, then the name of the last one. *)
Definition at_stage (ob : Onboarding) (k : nat) : Prop :=
  Deleted ob = false
  /\ match k with
     | O => Phase (Status_ ob) = phasePending
     | S i => Phase (Status_ ob) = phaseInProgress
              /\ exists st, stages_of ob !! i = Some st /\ CurrentStage (Status_ ob) = OnboardingStage_Name st
     end.

Lemma next_at_stage ob k : well_named ob -> at_stage ob k -> nextStageIndex ob = k.
Proof.
  intros [Hd Hne] [_ Hk]. unfold nextStageIndex. destruct k as [|i]; [rewrite Hk; by destruct (bool_decide (CurrentStage _ = _))|].
  destruct Hk as (Hp & st & Hi & Hn). rewrite Hp, Hn.
  rewrite bool_decide_false; [by apply (stage_after_spec _ O _ i st)|].
  intros E. apply Hne. rewrite <- E. apply list_elem_of_fmap. exists st. split; [done|]. by eapply list_elem_of_lookup_2.
Qed.

Lemma good_step ob env k :
  well_named ob -> good_env ob env -> at_stage ob k ->
  exists ob', (Reconcile env (Some ob)).2 = Some ob' /\ Spec ob' = Spec ob
  /\ ((k < length (stages_of ob))%nat -> at_stage ob' (S k))
  /\ ((length (stages_of ob) <= k)%nat -> Phase (Status_ ob') = phaseCompleted).
Proof.
  intros Hw (Hu & Hp & svc & Hg & Hx) Hk. pose proof (next_at_stage ob k Hw Hk) as Hn. destruct Hk as [Hd Hk].
  unfold Reconcile. rewrite Hd, Hu. simpl negb. rewrite andb_false_r.
  set (ob1 := with_finalizer ob true). change (Status_ ob1) with (Status_ ob).
  assert (exists st, (match k with O => st = phasePending | S _ => st = phaseInProgress end) /\ Phase (Status_ ob) = st) as (ph & Hph & Eph)
    by (destruct k; [eauto|destruct Hk as [? _]; eauto]).
  assert (isTerminalOnboardingPhase (Phase (Status_ ob)) = false /\ Phase (Status_ ob) <> "") as [-> Hne]
    by (rewrite Eph; destruct k; by subst).
  rewrite bool_decide_false by done.
  unfold reconcileOnboardingPipeline. cbn [memory]. change (Spec ob1) with (Spec ob). rewrite Hg.
  unfold advancePipeline. cbn [memory]. change (stages_of ob1) with (stages_of ob).
  change (nextStageIndex ob1) with (nextStageIndex ob). rewrite Hn. change (Status_ ob) with (Status_ ob1).
  destruct (stages_of ob !! (length (stages_of ob) - 1)%nat) as [lst|] eqn:El.
  - destruct (stages_of ob !! k) as [stage|] eqn:Ek.
    + rewrite (proj1 (Forall_lookup _ _) Hx k stage Ek). rewrite transition_fresh, Hp. eexists. split; [reflexivity|].
      split; [done|]. apply lookup_lt_Some in Ek as Hlt. split; [|lia]. intros _. split; [done|].
      split; [done|]. exists stage. split; [done|]. simpl. rewrite bool_decide_false; [done|].
      intros E. apply (proj2 Hw). rewrite <- E. apply list_elem_of_fmap. exists stage. split; [done|]. by eapply list_elem_of_lookup_2.
    + rewrite transition_fresh, Hp. eexists. split; [reflexivity|]. split; [done|]. apply lookup_ge_None in Ek.
      split; [lia|done].
  - rewrite transition_fresh, Hp. eexists. split; [reflexivity|]. split; [done|]. apply lookup_ge_None in El.
    split; [lia|done].
Qed.

Lemma good_env_spec ob ob' env : Spec ob' = Spec ob -> good_env ob env -> good_env ob' env.
Proof. unfold good_env, stages_of. by intros ->. Qed.

(** An onboarding with distinct stage names completes: a reconciliation
    that initializes it, one for every stage and a last one bring a new object
    to the phase Completed, when the service exists, the stages pass and the
    API server accepts the patches in each of them. *)
Theorem onboarding_completes ob envs :
  well_named ob -> Deleted ob = false -> Phase (Status_ ob) = "" ->
  Forall (good_env ob) envs -> length envs = (length (stages_of ob) + 2)%nat ->
  exists ob', run ob envs = Some ob' /\ Phase (Status_ ob') = phaseCompleted.
Proof.
  intros Hw Hd Hp Hall Hlen.
  assert (forall envs o k, well_named o -> at_stage o k -> Forall (good_env o) envs ->
    (k + length envs = length (stages_of o) + 1)%nat -> (k <= length (stages_of o))%nat ->
    exists ob', run o envs = Some ob' /\ Phase (Status_ ob') = phaseCompleted) as Hloop.
  { clear. induction envs as [|env envs IH]; intros o k Hw Hk Hg Hlen Hle; [simpl in Hlen; lia|].
    apply Forall_cons in Hg as [He Hg]. destruct (good_step o env k Hw He Hk) as (o' & Er & Hs & H1 & H2).
    unfold run. cbn [foldl]. rewrite Er. assert (stages_of o' = stages_of o) as Hst by (unfold stages_of; by rewrite Hs).
    destruct (decide (k < length (stages_of o))%nat) as [Hlt|Hge].
    - apply (IH o' (S k)); [unfold well_named; by rewrite Hst|by apply H1| |rewrite Hst; simpl in Hlen; lia|rewrite Hst; lia].
      eapply Forall_impl; [exact Hg|]. intros. by eapply good_env_spec.
    - destruct envs as [|]; [|simpl in Hlen; lia]. exists o'. split; [done|]. apply H2. lia. }
  destruct envs as [|env envs]; [simpl in Hlen; lia|]. apply Forall_cons in Hall as [(Hu & Hpo & _) Hg].
  assert (exists o, (Reconcile env (Some ob)).2 = Some o /\ Spec o = Spec ob /\ at_stage o O) as (o & Eo & Hs & Hk).
  { unfold Reconcile. rewrite Hd, Hu. simpl negb. rewrite andb_false_r.
    change (Status_ (with_finalizer ob true)) with (Status_ ob). rewrite Hp. simpl bool_decide. cbv iota.
    change (Status_ ob) with (Status_ (with_finalizer ob true)). rewrite transition_fresh, Hpo.
    eexists. split; [reflexivity|]. by repeat split. }
  unfold run. cbn [foldl]. rewrite Eo.
  assert (stages_of o = stages_of ob) as Hst by (unfold stages_of; by rewrite Hs).
  apply (Hloop envs o O); [unfold well_named; by rewrite Hst|done| |rewrite Hst; simpl in Hlen; lia|lia].
  eapply Forall_impl; [exact Hg|]. intros. by eapply good_env_spec.
Qed.

Lemma reachable_run ob envs ob' :
  Phase (Status_ ob) = "" -> CurrentStage (Status_ ob) = "" -> is_ready (Status_ ob) = false ->
  run ob envs = Some ob' -> reachable ob (rev envs) ob'.
Proof.
  intros Hp Hc Hr. revert ob'. induction envs as [|env envs IH] using rev_ind; intros ob' E.
  - injection E as <-. by apply reach_new.
  - unfold run in *. rewrite foldl_app in E. simpl in E. rewrite rev_app_distr. simpl.
    destruct (foldl _ (Some ob) envs) as [o|]; [|discriminate E]. by apply (reach_reconcile _ _ o), E; apply IH.
Qed.

End onboarding_theorems.

(** ** Concrete pipelines *)

#[local] Instance toy_conditions : ConditionSet := {
  Conds := gmap string (ConditionStatus * string * Z);
  SetStatusCondition c l := <[cond_Type c := (cond_Status c, cond_Reason c, cond_ObservedGeneration c)]> l;
  FindStatusCondition t l :=
    (fun x : ConditionStatus * string * Z =>
       {| cond_Type := t; cond_Status := x.1.1; cond_Reason := x.1.2; cond_ObservedGeneration := x.2 |}) <$> (l !! t) }.

#[local] Instance toy_conditions_laws : ConditionSetLaws.
Proof.
  split.
  - intros [] l. simpl. by rewrite lookup_insert, decide_True.
  - intros c l t Hne. simpl. by rewrite lookup_insert_ne.
Qed.

Definition toy_service : Service :=
  {| svc_Namespace := "prod"; svc_Generation := 3; svc_ModelName := "llama"; svc_Prefill := true; svc_Replicas := 2;
     svc_ModelReady := true; svc_Conditions := {[ ConditionPrefillReady := (ConditionTrue, "Ready", 3) ]} |}.

Definition toy_metrics (p99 : Z) : MetricsQuerier :=
  {| QuerySuccessRate := fun _ _ => Some (f_lit 995 10); QueryP99LatencyMS := fun _ _ => Some p99 |}.

Definition toy_reconcile_env (svc : Service) (p99 : Z) (patch_ok : bool) : ReconcileEnv :=
  {| update_ok := true; patch1_ok := patch_ok; patch2_ok := true; get_service := fun _ => Some (Some svc);
     metrics := Some (toy_metrics p99); to_int32 := f_trunc |}.

Definition toy_stages : list OnboardingStage :=
  [ mkOnboardingStage "check" stageTypeValidation None; mkOnboardingStage "canary" stageTypeCanary None;
    mkOnboardingStage "slo" stageTypeGate (Some (mkGateCriteria 99 (Some 500)));
    mkOnboardingStage "promote" stageTypePromotion None ].

Definition toy_onboarding (stages : list OnboardingStage) (rollback : bool) : Onboarding :=
  {| Generation := 1; Deleted := false; HasFinalizer := false; OtherFinalizers := false;
     Spec := mkModelOnboardingSpec "llama" (Some stages) rollback;
     Status_ := {| Phase := ""; CurrentStage := ""; Conditions := ∅ |} |}.

Definition toy_run : list ReconcileEnv := repeat (toy_reconcile_env toy_service 120 true) 6.

Lemma Some_default {A} (d : A) x : is_Some x -> x = Some (default d x).
Proof. by intros [a ->]. Qed.

Lemma completed_means_passed_witness : Forall (passed (rev toy_run) (toy_onboarding toy_stages true)) toy_stages.
Proof.
  apply (completed_means_passed (toy_onboarding toy_stages true) (rev toy_run)
           (default (toy_onboarding [] true) (run (toy_onboarding toy_stages true) toy_run))).
  - split; by_computation.
  - apply reachable_run; [done|done|done|]. apply Some_default. by_computation.
  - left. by vm_compute.
Defined.

Lemma onboarding_completes_witness :
  exists ob', run (toy_onboarding toy_stages true) toy_run = Some ob' /\ Phase (Status_ ob') = phaseCompleted.
Proof.
  apply (onboarding_completes (toy_onboarding toy_stages true) toy_run); [split; by_computation|done|done| |done].
  apply Forall_forall. intros env Hin. apply list_elem_of_In, repeat_spec in Hin as ->.
  split; [done|]. split; [done|]. exists toy_service. split; [done|]. repeat constructor; by vm_compute.
Defined.

Definition phase_after (ob : Onboarding) (envs : list ReconcileEnv) : option (string * string) :=
  (fun o => (Phase (Status_ o), CurrentStage (Status_ o))) <$> run ob envs.

(** Two stages of one name send the pipeline back: it never completes, and a
    stage without a name is run over and over. *)
Example duplicate_names_loop :
  let st n := mkOnboardingStage n stageTypeValidation None in
  let envs n := repeat (toy_reconcile_env toy_service 120 true) n in
  let twice := toy_onboarding [st "a"; st "b"; st "a"] true in
  phase_after twice (envs 4%nat) = Some (phaseInProgress, "a") /\ phase_after twice (envs 5%nat) = Some (phaseInProgress, "b")
  /\ phase_after twice (envs 50%nat) = Some (phaseInProgress, "a")
  /\ phase_after (toy_onboarding [st ""; st "b"] true) (envs 50%nat) = Some (phaseInProgress, "").
Proof. vm_compute. done. Qed.

(** The status update that reports a passed stage fails once: the pipeline is
    rolled back for good. *)
Example patch_error_rolls_back :
  let good := toy_reconcile_env toy_service 120 true in
  let flaky := toy_reconcile_env toy_service 120 false in
  phase_after (toy_onboarding toy_stages true) [good; good; flaky] = Some (phaseRolledBack, "check")
  /\ phase_after (toy_onboarding toy_stages true) [good; good; flaky; good; good; good] = Some (phaseRolledBack, "check").
Proof. vm_compute. done. Qed.

(** Without rollback a failure is reported as final, but the next
    reconciliation goes on. *)
Example failed_resumes :
  let good := toy_reconcile_env toy_service 120 true in
  let slow := toy_reconcile_env toy_service 900 true in
  let ob := toy_onboarding toy_stages false in
  phase_after ob [good; good; good; slow] = Some (phaseFailed, "canary") /\ isTerminalStatusPhase phaseFailed = true
  /\ phase_after ob [good; good; good; slow; good; good; good] = Some (phaseCompleted, "promote").
Proof. vm_compute. done. Qed.

(** A model without traffic fails on its success rate, but an empty latency
    histogram is a latency of 0, which meets every objective. *)
Example no_traffic_meets_latency :
  let empty := Answered 200 (Some {| prom_Status := "success"; prom_Result := [] |}) in
  let full := Answered 200 (Some {| prom_Status := "success"; prom_Result := [StringValue "100"] |}) in
  let parse s := if s ==? "100" then Some (f_of_Z 100) else None in
  let env rate p99 :=
    {| update_ok := true; patch1_ok := true; patch2_ok := true; get_service := fun _ => None;
       metrics := Some (PrometheusMetricsQuerier parse f_trunc (fun _ _ => rate) (fun _ _ => p99)); to_int32 := f_trunc |} in
  checkGateCriteria (env empty empty) toy_service (mkGateCriteria 1 (Some 1)) = Some SuccessRateTooLow
  /\ checkGateCriteria (env full empty) toy_service (mkGateCriteria 99 (Some 1)) = None.
Proof. vm_compute. done. Qed.
