(* ===== verification/LocalModelCache.v ===== *)
(** * Node-local model caches

    [internal/controller/localmodelcache_*.go] and the spec of
    [api/v1alpha2/localmodelcache_types.go]: which nodes get a cache, what is
    created on a node and what its Job says, the statuses that are kept, the
    eviction of the least recently used caches, and the reconciliation that
    composes them.

    [CacheEnv] is what one reconciliation reads: the clock, the answers of the
    API server and the LoRA adapter that owns a cache.  The objects it creates
    and deletes are the list of its [CacheAction]s.  A Kubernetes quantity is
    a number of nano-units, the precision quantities are rounded up to; parsing
    and printing them are arguments, as is [sort.Slice], which orders ties in
    any way.  The pod template of the warm-up Job, events, log lines and
    metrics are left out. *)

From S2P Require Import Prelude Sha256.

Definition labelLocalCache : string := "serving.ckodex.com/local-cache".
Definition defaultCacheNamespace : string := "default".
Definition cacheWorkloadNamespaceAnnotation : string := "serving.ckodex.com/cache-namespace".
Definition warmupJobPrefix : string := "lmc-warmup".
Definition localModelCacheRequeueInterval : Duration := 30 * Second.
Definition loraCacheManagedByLabel : string := "serving.ckodex.com/managed-by".
Definition loraCacheOwnerNamespace : string := "serving.ckodex.com/owner-namespace".
Definition loraCacheOwnerName : string := "serving.ckodex.com/owner-name".
Definition loraCacheOwnerUID : string := "serving.ckodex.com/owner-uid".
Definition loraCacheManagedByAdapter : string := "llmloraadapter".

(** ** Data *)

Notation Quantity := Z (only parsing).
Definition NewQuantity (n : Z) : Quantity := n * 1000000000.

Record LocalModelStorageSpec := { SecretName : string; ServiceAccountName : string }.

Record NodeCacheStatus := {
  NodeName : string; Phase : string; PVCName : string; LastTransitionTime : option Time;
  SizeBytes : Z; LastUsed : option Time; st_ModelURIHash : string }.

Record CachedModelStatus := {
  ModelURI : string; NodeNames : list string; cm_SizeBytes : Z; cm_LastUsed : option Time; cm_PVCName : string }.

(** [NodeGroup] is nil, a group without a selector, or one with a selector. *)
Inductive NodeGroupSpec := NoGroup | GroupAll | GroupSelector (labelSelector : string).

Record LocalModelCacheStatus := {
  NodeStatuses : list NodeCacheStatus; CachedNodes : Z; CachedModels : list CachedModelStatus;
  TotalCacheSize : string; AvailableSpace : string }.

Record LocalModelCache := {
  lmc_Name : string; Labels : gmap string string; Annotations : gmap string string;
  SourceModelURI : string; ModelSize : string; MaxCacheSize : string;
  NodeGroup : NodeGroupSpec; WarmNodes : list string; Storage : option LocalModelStorageSpec;
  AllowedNamespaces : list string; Status : LocalModelCacheStatus }.

Record LoraOwner := { own_Namespace : string; own_Name : string; own_UID : string; own_ModelURI : string }.

(** The fields of a Job that are read. *)
Inductive JobConditionType := JobComplete | JobFailed | JobOther.

#[export] Instance JobConditionType_eq_dec : EqDecision JobConditionType.
Proof. solve_decision. Defined.

Record JobCondition := { jc_Type : JobConditionType; jc_True : bool; jc_LastTransitionTime : Time }.
Record Job := { Deleting : bool; JobConditions : list JobCondition; Active : Z }.

(** ** What a reconciliation reads and does *)

Inductive Got (A : Type) := Found (a : A) | NotFound | GetFailed.
Arguments Found {A} a.
Arguments NotFound {A}.
Arguments GetFailed {A}.

(** The three places that delete: a node's cache, a stale node, an eviction. *)
Inductive Site := AtNode | AtStale | AtEvict.

Record CacheEnv := {
  now : Time;                                     (* metav1.Now() *)
  now_heal : Time;                                (* the clock of time.Since *)
  owner : string -> string -> option LoraOwner;   (* the LLMLoraAdapter, or an error *)
  select_nodes : string -> option (list string);  (* nodes of a label selector, or an error *)
  get_node : string -> Got unit;
  list_nodes : option (list (string * bool));     (* all nodes, and whether they are unschedulable *)
  get_pvc : Site -> string -> string -> Got unit;
  get_job : Site -> string -> string -> Got Job;
  delete_ok : Site -> string -> bool;             (* Delete succeeds or finds nothing *)
  create_ok : string -> bool;
  status_update_ok : bool }.

Inductive CacheAction :=
  | CreatePVC (ns name : string) | CreateJob (ns name : string)
  | DeletePVC (ns name : string) | DeleteJob (ns name : string).

(** ** Names *)

Definition IsNamespaceAllowed (lmc : LocalModelCache) (namespace : string) : bool :=
  match AllowedNamespaces lmc with
  | [] => true
  | l => existsb (fun a => (a ==? namespace) || (a ==? "*")) l
  end.

Definition ModelURIHash (uri : string) : string := hex_encode (take 8 (Sum256 uri)).

Definition node_hash (nodeName : string) : string := String.substring 0 8 (sha256_hex nodeName).

Definition PVCNameForNode (modelHash nodeName : string) : string := "lmc-" +:+ modelHash +:+ "-" +:+ node_hash nodeName.

Definition warmupJobName (modelHash nodeName : string) : string :=
  warmupJobPrefix +:+ "-" +:+ modelHash +:+ "-" +:+ node_hash nodeName.

Definition lookup_or_empty (m : gmap string string) (k : string) : string := default "" (m !! k).

Definition validateWarmupStorageReferences (lmc : LocalModelCache) : bool :=
  match Storage lmc with
  | None => true
  | Some s => negb (Contains (ServiceAccountName s) "/" || Contains (SecretName s) "/")
  end.

Definition validateLoraCacheOwner (lmc : LocalModelCache) (o : LoraOwner) : bool :=
  (lookup_or_empty (Labels lmc) loraCacheManagedByLabel ==? loraCacheManagedByAdapter)
  && (lookup_or_empty (Annotations lmc) loraCacheOwnerNamespace ==? own_Namespace o)
  && (lookup_or_empty (Annotations lmc) loraCacheOwnerName ==? own_Name o)
  && (lookup_or_empty (Annotations lmc) loraCacheOwnerUID ==? own_UID o)
  && (SourceModelURI lmc ==? own_ModelURI o).

(** [None] is an error. *)
Definition resolveCacheWorkloadNamespace (env : CacheEnv) (lmc : LocalModelCache) : option string :=
  let requested := lookup_or_empty (Annotations lmc) cacheWorkloadNamespaceAnnotation in
  if requested ==? "" then
    if validateWarmupStorageReferences lmc then Some defaultCacheNamespace else None
  else if lookup_or_empty (Labels lmc) loraCacheManagedByLabel !=? loraCacheManagedByAdapter then None
  else
    let ownerNamespace := lookup_or_empty (Annotations lmc) loraCacheOwnerNamespace in
    let ownerName := lookup_or_empty (Annotations lmc) loraCacheOwnerName in
    if (ownerNamespace ==? "") || (ownerName ==? "") || (requested !=? ownerNamespace) then None
    else
      o ← owner env ownerNamespace ownerName;
      if negb (validateLoraCacheOwner lmc o) then None
      else if negb (validateWarmupStorageReferences lmc) then None
      else Some (own_Namespace o).

(** ** Target nodes *)

Definition appendUniqueNode (nodes : list string) (name : string) : list string :=
  if bool_decide (name ∈ nodes) then nodes else nodes ++ [name].

Definition appendSelectorNodes (env : CacheEnv) (lmc : LocalModelCache) : option (list string) :=
  match NodeGroup lmc with
  | GroupSelector sel => l ← select_nodes env sel; Some (foldl appendUniqueNode [] l)
  | _ => Some []
  end.

Fixpoint appendWarmNodes (env : CacheEnv) (warm : list string) (nodes : list string) : option (list string) :=
  match warm with
  | [] => Some nodes
  | name :: l =>
      if bool_decide (name ∈ nodes) then appendWarmNodes env l nodes
      else match get_node env name with
           | Found _ => appendWarmNodes env l (appendUniqueNode nodes name)
           | NotFound => appendWarmNodes env l nodes
           | GetFailed => None
           end
  end.

Definition appendSchedulableNodes (env : CacheEnv) (nodes : list string) : option (list string) :=
  l ← list_nodes env;
  Some (foldl (fun acc (n : string * bool) => if n.2 then acc else appendUniqueNode acc n.1) nodes l).

Definition resolveTargetNodes (env : CacheEnv) (lmc : LocalModelCache) : option (list string) :=
  nodes ← appendSelectorNodes env lmc;
  nodes ← appendWarmNodes env (WarmNodes lmc) nodes;
  match NodeGroup lmc, WarmNodes lmc with
  | NoGroup, [] => appendSchedulableNodes env nodes
  | _, _ => Some nodes
  end.

(** ** The cache of one node *)

Definition pendingNodeCacheStatus (nodeName pvcName modelHash : string) : NodeCacheStatus :=
  {| NodeName := nodeName; Phase := "Pending"; PVCName := pvcName; LastTransitionTime := None; SizeBytes := 0;
     LastUsed := None; st_ModelURIHash := modelHash |}.

Definition with_phase (s : NodeCacheStatus) (phase : string) : NodeCacheStatus :=
  {| NodeName := NodeName s; Phase := phase; PVCName := PVCName s; LastTransitionTime := LastTransitionTime s;
     SizeBytes := SizeBytes s; LastUsed := LastUsed s; st_ModelURIHash := st_ModelURIHash s |}.
Definition with_transition (s : NodeCacheStatus) (t : Time) : NodeCacheStatus :=
  {| NodeName := NodeName s; Phase := Phase s; PVCName := PVCName s; LastTransitionTime := Some t;
     SizeBytes := SizeBytes s; LastUsed := LastUsed s; st_ModelURIHash := st_ModelURIHash s |}.
Definition with_use (s : NodeCacheStatus) (size : Z) (used : Time) : NodeCacheStatus :=
  {| NodeName := NodeName s; Phase := Phase s; PVCName := PVCName s; LastTransitionTime := LastTransitionTime s;
     SizeBytes := size; LastUsed := Some used; st_ModelURIHash := st_ModelURIHash s |}.

Fixpoint jobPhase_conditions (l : list JobCondition) : option string :=
  match l with
  | [] => None
  | c :: l =>
      if (jc_Type c ==? JobComplete) && jc_True c then Some "Ready"
      else if (jc_Type c ==? JobFailed) && jc_True c then Some "Failed"
      else jobPhase_conditions l
  end.

Definition jobPhase (job : Job) : string :=
  match jobPhase_conditions (JobConditions job) with
  | Some p => p
  | None => if Active job >? 0 then "Downloading" else "Pending"
  end.

Definition failedJobTime (job : Job) : option Time :=
  jc_LastTransitionTime <$> List.find (fun c => (jc_Type c ==? JobFailed) && jc_True c) (JobConditions job).

Fixpoint previousReadyUse (nodeName : string) (t : Time) (l : list NodeCacheStatus) : Time :=
  match l with
  | [] => t
  | p :: l =>
      match LastUsed p with
      | Some u => if (NodeName p ==? nodeName) && (Phase p ==? "Ready") then u else previousReadyUse nodeName t l
      | None => previousReadyUse nodeName t l
      end
  end.

Section reconcile.
Context (ParseQuantity : string -> option Quantity) (QuantityValue : Quantity -> Z) (QuantityString : Quantity -> string).

Definition ModelSizeQuantity (lmc : LocalModelCache) : option Quantity :=
  if ModelSize lmc ==? "" then Some (NewQuantity (20 * 2 ^ 30))
  else q ← ParseQuantity (ModelSize lmc); if q <=? 0 then None else Some q.

(** An error, no limit, or the limit. *)
Definition MaxCacheSizeQuantity (lmc : LocalModelCache) : option (option Quantity) :=
  if MaxCacheSize lmc ==? "" then Some None
  else q ← ParseQuantity (MaxCacheSize lmc); if q <=? 0 then None else Some (Some q).

Definition validateLocalModelCacheQuantities (lmc : LocalModelCache) : bool :=
  match ModelSizeQuantity lmc, MaxCacheSizeQuantity lmc with Some _, Some _ => true | _, _ => false end.

(** The size of a quantity is read only after it was validated. *)
Definition markNodeCacheReady (env : CacheEnv) (lmc : LocalModelCache) (s : NodeCacheStatus) (nodeName : string)
    : NodeCacheStatus :=
  let used := previousReadyUse nodeName (now env) (NodeStatuses (Status lmc)) in
  match ModelSizeQuantity lmc with
  | None => with_phase (with_use s (SizeBytes s) used) "Failed"
  | Some q => with_use s (QuantityValue q) used
  end.

Definition selfHealFailedJob (env : CacheEnv) (ns : string) (s : NodeCacheStatus) (job : Job) (jobName : string)
    : NodeCacheStatus * list CacheAction :=
  match failedJobTime job with
  | None => (s, [])
  | Some t =>
      if TimeSub (now_heal env) t <=? 5 * Minute then (s, [])
      else (with_phase s "Pending", if delete_ok env AtNode jobName then [DeleteJob ns jobName] else [])
  end.

Definition updateNodeCacheFromJob (env : CacheEnv) (lmc : LocalModelCache) (ns : string) (s : NodeCacheStatus) (job : Job)
    (nodeName jobName : string) : NodeCacheStatus * list CacheAction :=
  let s := with_phase s (jobPhase job) in
  let s := if Phase s ==? "Ready" then markNodeCacheReady env lmc s nodeName else s in
  let '(s, acts) := if Phase s ==? "Failed" then selfHealFailedJob env ns s job jobName else (s, []) in
  (with_transition s (now env), acts).

(** The status and whether a claim was created; [None] is an error. *)
Definition ensureCachePVC (env : CacheEnv) (lmc : LocalModelCache) (s : NodeCacheStatus) (pvcName ns jobName : string)
    : option (NodeCacheStatus * bool) * list CacheAction :=
  match get_pvc env AtNode ns pvcName with
  | Found _ => (Some (s, false), [])
  | GetFailed => (None, [])
  | NotFound =>
      let acts := if delete_ok env AtNode jobName then [DeleteJob ns jobName] else [] in
      match ModelSizeQuantity lmc with
      | None => (None, acts)
      | Some _ =>
          if create_ok env pvcName then (Some (with_transition s (now env), true), acts ++ [CreatePVC ns pvcName])
          else (None, acts)
      end
  end.

(** The status and the Job to read, if any. *)
Definition ensureWarmupJob (env : CacheEnv) (s : NodeCacheStatus) (jobName ns : string)
    : option (NodeCacheStatus * option Job) * list CacheAction :=
  match get_job env AtNode ns jobName with
  | Found job => (Some (s, if Deleting job then None else Some job), [])
  | GetFailed => (None, [])
  | NotFound =>
      if create_ok env jobName
      then (Some (with_transition (with_phase s "Downloading") (now env), None), [CreateJob ns jobName])
      else (None, [])
  end.

Definition reconcileNodeCache (env : CacheEnv) (lmc : LocalModelCache) (nodeName modelHash : string)
    : option NodeCacheStatus * list CacheAction :=
  let pvcName := PVCNameForNode modelHash nodeName in
  let s := pendingNodeCacheStatus nodeName pvcName modelHash in
  match resolveCacheWorkloadNamespace env lmc with
  | None => (None, [])
  | Some ns =>
      let jobName := warmupJobName modelHash nodeName in
      match ensureCachePVC env lmc s pvcName ns jobName with
      | (None, acts) => (None, acts)
      | (Some (s, true), acts) => (Some s, acts)
      | (Some (s, false), acts) =>
          match ensureWarmupJob env s jobName ns with
          | (None, acts') => (None, acts ++ acts')
          | (Some (s, None), acts') => (Some s, acts ++ acts')
          | (Some (s, Some job), acts') =>
              let '(s, acts'') := updateNodeCacheFromJob env lmc ns s job nodeName jobName in
              (Some s, acts ++ acts' ++ acts'')
          end
      end
  end.

Fixpoint reconcileTargetCaches (env : CacheEnv) (lmc : LocalModelCache) (nodes : list string) (modelHash : string)
    : list NodeCacheStatus * Z * list CacheAction :=
  match nodes with
  | [] => ([], 0, [])
  | node :: l =>
      let '(r, acts) := reconcileNodeCache env lmc node modelHash in
      let '(statuses, ready, acts') := reconcileTargetCaches env lmc l modelHash in
      match r with
      | None => (statuses, ready, acts ++ acts')
      | Some s => (s :: statuses, if Phase s ==? "Ready" then i32_wrap (ready + 1) else ready, acts ++ acts')
      end
  end.

(** ** Deleting caches *)

Definition deleteCachePVC (env : CacheEnv) (site : Site) (ns name : string) : bool * list CacheAction :=
  match get_pvc env site ns name with
  | Found _ => if delete_ok env site name then (true, [DeletePVC ns name]) else (false, [])
  | NotFound => (true, [])
  | GetFailed => (false, [])
  end.

Definition deleteCacheJob (env : CacheEnv) (site : Site) (ns name : string) : bool * list CacheAction :=
  match get_job env site ns name with
  | Found _ => if delete_ok env site name then (true, [DeleteJob ns name]) else (false, [])
  | NotFound => (true, [])
  | GetFailed => (false, [])
  end.

(** The claim, then the Job of the model the status was made for. *)
Definition delete_cache (env : CacheEnv) (site : Site) (ns : string) (s : NodeCacheStatus) : bool * list CacheAction :=
  match deleteCachePVC env site ns (PVCName s) with
  | (false, acts) => (false, acts)
  | (true, acts) =>
      let '(ok, acts') := deleteCacheJob env site ns (warmupJobName (st_ModelURIHash s) (NodeName s)) in
      (ok, acts ++ acts')
  end.

Fixpoint cleanup_statuses (env : CacheEnv) (ns : string) (targets : list string) (l : list NodeCacheStatus)
    : option (list NodeCacheStatus) * list CacheAction :=
  match l with
  | [] => (Some [], [])
  | s :: l =>
      if bool_decide (NodeName s ∈ targets) then
        let '(r, acts) := cleanup_statuses env ns targets l in ((fun rest => s :: rest) <$> r, acts)
      else match delete_cache env AtStale ns s with
           | (false, acts) => (None, acts)
           | (true, acts) => let '(r, acts') := cleanup_statuses env ns targets l in (r, acts ++ acts')
           end
  end.

Definition cleanupStaleNodeCaches (env : CacheEnv) (lmc : LocalModelCache) (targets : list string)
    : option (list NodeCacheStatus) * list CacheAction :=
  match resolveCacheWorkloadNamespace env lmc with
  | None => (None, [])
  | Some ns => cleanup_statuses env ns targets (NodeStatuses (Status lmc))
  end.

(** ** The statuses that are kept *)

Definition findNodeCacheStatus (statuses : list NodeCacheStatus) (nodeName : string) : option NodeCacheStatus :=
  List.find (fun s => NodeName s ==? nodeName) statuses.

Definition mergeNodeCacheStatuses (previous current : list NodeCacheStatus) (targets : list string) : list NodeCacheStatus :=
  let merged := foldl (fun acc prev =>
    if negb (bool_decide (NodeName prev ∈ targets)) then acc
    else acc ++ [default prev (findNodeCacheStatus current (NodeName prev))]) [] previous in
  foldl (fun acc s => match findNodeCacheStatus acc (NodeName s) with Some _ => acc | None => acc ++ [s] end) merged current.

(** ** Eviction *)

Record localModelCacheEntry := { index : nat; last : Time; size : Z }.

Definition cache_entry (i : nat) (s : NodeCacheStatus) : list localModelCacheEntry :=
  if Phase s !=? "Ready" then []
  else [{| index := i; last := default zeroTime (LastUsed s); size := SizeBytes s |}].

Context (sort : list localModelCacheEntry -> list localModelCacheEntry).

Definition cacheEntries (statuses : list NodeCacheStatus) : list localModelCacheEntry :=
  sort (concat (imap cache_entry statuses)).

Definition cacheEntriesSize (entries : list localModelCacheEntry) : Quantity :=
  foldl (fun total e => total + NewQuantity (size e)) 0 entries.

Definition evictCacheEntry (env : CacheEnv) (lmc : LocalModelCache) (statuses : list NodeCacheStatus) (e : localModelCacheEntry)
    : option (list NodeCacheStatus) * list CacheAction :=
  match statuses !! index e with
  | None => (None, [])
  | Some s =>
      match resolveCacheWorkloadNamespace env lmc with
      | None => (None, [])
      | Some ns =>
          match delete_cache env AtEvict ns s with
          | (false, acts) => (None, acts)
          | (true, acts) => (Some (<[index e := with_phase s "Pending"]> statuses), acts)
          end
      end
  end.

(** The statuses after the loop and whether it ended without an error: an
    error leaves the entries evicted before it as they are. *)
Fixpoint evict_loop (env : CacheEnv) (lmc : LocalModelCache) (max total : Quantity) (entries : list localModelCacheEntry)
    (statuses : list NodeCacheStatus) : list NodeCacheStatus * bool * list CacheAction :=
  match entries with
  | [] => (statuses, true, [])
  | e :: l =>
      if total <=? max then (statuses, true, [])
      else match evictCacheEntry env lmc statuses e with
           | (None, acts) => (statuses, false, acts)
           | (Some statuses, acts) =>
               let '(statuses, ok, acts') := evict_loop env lmc max (total - NewQuantity (size e)) l statuses in
               (statuses, ok, acts ++ acts')
           end
  end.

Definition evictLRU (env : CacheEnv) (lmc : LocalModelCache) (statuses : list NodeCacheStatus)
    : list NodeCacheStatus * bool * list CacheAction :=
  match MaxCacheSizeQuantity lmc with
  | None => (statuses, false, [])
  | Some None => (statuses, true, [])
  | Some (Some max) =>
      let entries := cacheEntries statuses in
      evict_loop env lmc max (cacheEntriesSize entries) entries statuses
  end.

(** ** Status and reconciliation *)

Definition latest_use (a : option Time) (b : option Time) : option Time :=
  match b with
  | None => a
  | Some u => match a with None => Some u | Some t => if After u t then Some u else a end
  end.

Definition is_ready (s : NodeCacheStatus) : bool := Phase s ==? "Ready".

Definition buildCachedModelsStatus (lmc : LocalModelCache) (statuses : list NodeCacheStatus)
    : list CachedModelStatus * Quantity :=
  let ready := List.filter is_ready statuses in
  let nodeNames := NodeName <$> ready in
  let totalBytes := foldl (fun t s => i64_wrap (t + SizeBytes s)) 0 ready in
  let total := foldl (fun t s => t + NewQuantity (SizeBytes s)) 0 ready in
  let latest := foldl (fun t s => latest_use t (LastUsed s)) None ready in
  (match nodeNames with
   | [] => []
   | n :: _ => [{| ModelURI := SourceModelURI lmc; NodeNames := nodeNames; cm_SizeBytes := totalBytes; cm_LastUsed := latest;
                   cm_PVCName := PVCNameForNode (ModelURIHash (SourceModelURI lmc)) n |}]
   end, total).

Definition availableCacheSpace (lmc : LocalModelCache) (total : Quantity) : string :=
  match MaxCacheSizeQuantity lmc with
  | Some (Some max) => QuantityString (if max - total <? 0 then 0 else max - total)
  | _ => ""
  end.

Inductive CacheErr := NamespaceErr | QuantityErr | TargetErr | CleanupErr | StatusErr.

(** The status that is written and the actions; an error writes none. *)
Definition Reconcile (env : CacheEnv) (lmc : LocalModelCache) : (LocalModelCacheStatus + CacheErr) * list CacheAction :=
  match resolveCacheWorkloadNamespace env lmc with
  | None => (inr NamespaceErr, [])
  | Some _ =>
      if negb (validateLocalModelCacheQuantities lmc) then (inr QuantityErr, [])
      else
        let modelHash := ModelURIHash (SourceModelURI lmc) in
        match resolveTargetNodes env lmc with
        | None => (inr TargetErr, [])
        | Some targets =>
            let '(current, readyCount, acts) := reconcileTargetCaches env lmc targets modelHash in
            match cleanupStaleNodeCaches env lmc targets with
            | (None, acts') => (inr CleanupErr, acts ++ acts')
            | (Some previous, acts') =>
                let final := mergeNodeCacheStatuses previous current targets in
                let '(final, _, acts'') := evictLRU env lmc final in
                let '(models, total) := buildCachedModelsStatus lmc final in
                ((if status_update_ok env
                  then inl {| NodeStatuses := final; CachedNodes := readyCount; CachedModels := models;
                              TotalCacheSize := QuantityString total; AvailableSpace := availableCacheSpace lmc total |}
                  else inr StatusErr), acts ++ acts' ++ acts'')
            end
        end
  end.

End reconcile.

(** ** Eviction is least recently used first *)

(** The bytes of the caches that are ready. *)
Definition ready_bytes (statuses : list NodeCacheStatus) : Z :=
  zsum (fun s => if is_ready s then SizeBytes s else 0) statuses.

Definition older (a b : localModelCacheEntry) : Prop := last a <= last b.

(** What [sort.Slice] does with the comparison of [cacheEntries]. *)
Definition sorts (sort : list localModelCacheEntry -> list localModelCacheEntry) : Prop :=
  forall l, sort l ≡ₚ l /\ StronglySorted older (sort l).

Definition evict_at (statuses : list NodeCacheStatus) (e : localModelCacheEntry) : list NodeCacheStatus :=
  alter (fun s => with_phase s "Pending") (index e) statuses.

(** Deleting the cache of any status succeeds. *)
Definition can_delete (env : CacheEnv) (lmc : LocalModelCache) : Prop :=
  exists ns, resolveCacheWorkloadNamespace env lmc = Some ns /\ forall s, (delete_cache env AtEvict ns s).1 = true.

(** An entry describes a ready status. *)
Definition describes (statuses : list NodeCacheStatus) (e : localModelCacheEntry) : Prop :=
  exists s, statuses !! index e = Some s /\ is_ready s = true /\ size e = SizeBytes s /\ last e = default zeroTime (LastUsed s).

Lemma raw_entries_at k statuses e :
  e ∈ concat (imap (fun i => cache_entry (k + i)) statuses) ->
  exists j s, index e = (k + j)%nat /\ statuses !! j = Some s /\ is_ready s = true /\ size e = SizeBytes s
  /\ last e = default zeroTime (LastUsed s).
Proof.
  revert k. induction statuses as [|s l IH]; intros k; [by intros ?%not_elem_of_nil|].
  rewrite imap_cons. cbn [concat]. rewrite elem_of_app. intros [H|H].
  - exists O, s. unfold cache_entry in H. unfold is_ready.
    destruct (bool_decide_reflect (Phase s = "Ready")); simpl in H; [|by apply not_elem_of_nil in H].
    apply list_elem_of_singleton in H as ->. simpl. repeat split; done || lia.
  - destruct (IH (S k)) as (j & s' & Hi & Hs & Hr).
    { erewrite imap_ext; [exact H|]. intros i x _. simpl. f_equal. lia. }
    exists (S j), s'. split; [lia|done].
Qed.

Lemma raw_entries_nodup k statuses :
  NoDup (index <$> concat (imap (fun i => cache_entry (k + i)) statuses)).
Proof.
  revert k. induction statuses as [|s l IH]; intros k; [constructor|].
  rewrite imap_cons. cbn [concat]. rewrite fmap_app, NoDup_app.
  assert (imap ((fun i => cache_entry (k + i)) ∘ S) l = imap (fun i => cache_entry (S k + i)) l) as ->
    by (apply imap_ext; intros i x _; simpl; f_equal; lia).
  split; [|split; [|apply IH]].
  - unfold cache_entry. destruct (Phase s !=? "Ready"); [constructor|]. apply NoDup_singleton.
  - intros i H1 H2. apply list_elem_of_fmap in H2 as (e & -> & He). apply raw_entries_at in He as (j & ? & Hj & _).
    unfold cache_entry in H1. destruct (Phase s !=? "Ready"); [by apply not_elem_of_nil in H1|].
    apply list_elem_of_singleton in H1. simpl in H1. lia.
Qed.

Lemma raw_entries_size k statuses :
  zsum size (concat (imap (fun i => cache_entry (k + i)) statuses)) = ready_bytes statuses.
Proof.
  revert k. induction statuses as [|s l IH]; intros k; [done|].
  rewrite imap_cons. cbn [concat]. rewrite zsum_app.
  assert (imap ((fun i => cache_entry (k + i)) ∘ S) l = imap (fun i => cache_entry (S k + i)) l) as ->
    by (apply imap_ext; intros i x _; simpl; f_equal; lia).
  rewrite IH. unfold ready_bytes. simpl. unfold cache_entry, is_ready.
  by destruct (bool_decide_reflect (Phase s = "Ready")); simpl; lia.
Qed.

Lemma cacheEntries_spec sort statuses :
  sorts sort ->
  let es := cacheEntries sort statuses in
  StronglySorted older es /\ NoDup (index <$> es) /\ Forall (describes statuses) es /\ zsum size es = ready_bytes statuses.
Proof.
  intros Hs es. destruct (Hs (concat (imap cache_entry statuses))) as [Hp Hsort].
  split; [exact Hsort|]. subst es. unfold cacheEntries. rewrite Hp.
  split; [exact (raw_entries_nodup 0 statuses)|]. split; [|exact (raw_entries_size 0 statuses)].
  apply Forall_forall. intros e He. apply (raw_entries_at 0) in He as (j & s & Hj & Hx). simpl in Hj. subst j. by exists s.
Qed.

Lemma evict_at_ready statuses e :
  describes statuses e -> ready_bytes (evict_at statuses e) = ready_bytes statuses - size e.
Proof.
  intros (s & Hs & Hr & Hz & _). unfold evict_at, ready_bytes. destruct e as [i t z]. simpl in *. subst z. clear t.
  revert i Hs. induction statuses as [|x l IH]; intros [|i] Hs; simpl in *; [done..| |].
  - injection Hs as ->. rewrite Hr. unfold is_ready. simpl. lia.
  - specialize (IH i Hs). unfold alter in *. lia.
Qed.

Lemma alter_insert {A} (f : A -> A) (i : nat) (l : list A) x : l !! i = Some x -> alter f i l = <[i := f x]> l.
Proof.
  revert i. induction l as [|y l IH]; intros [|i] H; simpl in *; [done..|by injection H as ->|].
  f_equal. by apply IH.
Qed.

Lemma evict_at_describes statuses e e' :
  index e' <> index e -> describes statuses e' -> describes (evict_at statuses e) e'.
Proof. intros Hne (s & Hs & H). exists s. split; [|done]. unfold evict_at. by rewrite list_lookup_alter_ne. Qed.

Lemma evict_entry_ok env lmc statuses e :
  can_delete env lmc -> describes statuses e ->
  exists acts, evictCacheEntry env lmc statuses e = (Some (evict_at statuses e), acts).
Proof.
  intros (ns & Hns & Hd) (s & Hs & _). unfold evictCacheEntry. rewrite Hs, Hns. specialize (Hd s).
  destruct (delete_cache env AtEvict ns s) as [ok acts]. simpl in Hd. subst ok. exists acts. f_equal. f_equal.
  unfold evict_at. symmetry. by apply (alter_insert (fun s => with_phase s "Pending")).
Qed.

Lemma evict_loop_spec env lmc max es : can_delete env lmc ->
  forall total statuses, NoDup (index <$> es) -> Forall (describes statuses) es ->
  exists k acts, (k <= length es)%nat
  /\ evict_loop env lmc max total es statuses = (foldl evict_at statuses (take k es), true, acts)
  /\ (total - NewQuantity (zsum size (take k es)) <= max \/ k = length es)
  /\ (forall j, (j < k)%nat -> max < total - NewQuantity (zsum size (take j es)))
  /\ ready_bytes (foldl evict_at statuses (take k es)) = ready_bytes statuses - zsum size (take k es).
Proof.
  intros Hd. induction es as [|e l IH]; intros total statuses Hn Hf; cbn [evict_loop].
  { exists O, []. unfold NewQuantity. simpl. repeat split; [lia|by right|lia|lia]. }
  destruct (bool_decide_reflect (total <= max)) as [Hle|Hgt].
  { exists O, []. unfold NewQuantity. simpl. repeat split; [lia|left; lia|lia|lia]. }
  apply Forall_cons in Hf as [He Hf]. apply NoDup_cons in Hn as [Hne Hn].
  destruct (evict_entry_ok env lmc statuses e Hd He) as [acts ->].
  destruct (IH (total - NewQuantity (size e)) (evict_at statuses e) Hn) as (k & acts' & Hk & -> & Hend & Hmin & Hb).
  { apply Forall_forall. intros e' He'. apply evict_at_describes; [|by eapply Forall_forall in Hf].
    intros E. apply Hne. rewrite <- E. apply list_elem_of_fmap. by exists e'. }
  exists (S k), (acts ++ acts'). cbn [take foldl zsum foldr]. fold (zsum size (take k l)). unfold NewQuantity in *.
  split; [simpl; lia|]. split; [done|]. split; [simpl; destruct Hend; [left; lia|right; lia]|].
  split; [|rewrite Hb, evict_at_ready by done; lia].
  intros [|j] Hj; cbn [take zsum foldr]; [lia|]. fold (zsum size (take j l)). specialize (Hmin j). lia.
Qed.

(** An eviction that can delete ends within the limit, or with no cache
    left: it sets to pending the caches at the front of the order of last use,
    every one of them used no later than every cache that stays, and stops at
    the first prefix whose removal brings the total within the limit. *)
Theorem lru_eviction ParseQuantity sort env lmc max statuses :
  sorts sort -> can_delete env lmc -> MaxCacheSizeQuantity ParseQuantity lmc = Some (Some max) ->
  let es := cacheEntries sort statuses in
  exists k acts, evictLRU ParseQuantity sort env lmc statuses = (foldl evict_at statuses (take k es), true, acts)
  /\ (forall e e', e ∈ take k es -> e' ∈ drop k es -> last e <= last e')
  /\ NewQuantity (ready_bytes statuses) - NewQuantity (zsum size (take k es))
     = NewQuantity (ready_bytes (foldl evict_at statuses (take k es)))
  /\ (NewQuantity (ready_bytes (foldl evict_at statuses (take k es))) <= max
      \/ ready_bytes (foldl evict_at statuses (take k es)) = 0 /\ take k es = es)
  /\ (forall j, (j < k)%nat -> max < NewQuantity (ready_bytes statuses) - NewQuantity (zsum size (take j es))).
Proof.
  intros Hsort Hd Hmax es. destruct (cacheEntries_spec sort statuses Hsort) as (Hs & Hn & Hf & Hz). fold es in Hs, Hn, Hf, Hz.
  unfold evictLRU. rewrite Hmax. fold es.
  assert (cacheEntriesSize es = NewQuantity (zsum size es)) as ->.
  { unfold cacheEntriesSize, NewQuantity. enough (forall a, foldl (fun t e => t + size e * 1000000000) a es = a + zsum size es * 1000000000) as E
      by (rewrite E; lia). clear. induction es as [|e l IH]; intros a; simpl; [lia|]. rewrite IH. lia. }
  destruct (evict_loop_spec env lmc max es Hd (NewQuantity (zsum size es)) statuses Hn Hf) as (k & acts & Hk & E & Hend & Hmin & Hb).
  exists k, acts. split; [exact E|]. rewrite Hz in *. unfold NewQuantity in *. split; [|split; [|split]].
  - intros e e' H1 H2. apply (StronglySorted_app_1_elem_of older (take k es) (drop k es)); [by rewrite take_drop|done..].
  - lia.
  - destruct Hend as [Hend| ->]; [left; lia|]. right. rewrite take_ge in * by lia. split; [lia|done].
  - exact Hmin.
Qed.

(** ** Target nodes *)

Lemma appendUnique_nodup nodes n : NoDup nodes -> NoDup (appendUniqueNode nodes n).
Proof.
  intros H. unfold appendUniqueNode. case_bool_decide; [done|]. apply NoDup_app. split; [done|].
  split; [|apply NoDup_singleton]. intros x Hx ->%list_elem_of_singleton. done.
Qed.

Lemma appendUnique_elem nodes n x : x ∈ appendUniqueNode nodes n <-> x ∈ nodes \/ x = n.
Proof. unfold appendUniqueNode. case_bool_decide; set_solver. Qed.

Lemma fold_unique_nodup {A} (f : A -> option string) l nodes :
  NoDup nodes ->
  NoDup (foldl (fun acc a => match f a with Some n => appendUniqueNode acc n | None => acc end) nodes l).
Proof.
  revert nodes. induction l as [|a l IH]; intros nodes H; simpl; [done|]. apply IH.
  destruct (f a); [by apply appendUnique_nodup|done].
Qed.

Lemma appendWarmNodes_nodup env warm nodes nodes' :
  appendWarmNodes env warm nodes = Some nodes' -> NoDup nodes -> NoDup nodes'.
Proof.
  revert nodes. induction warm as [|n l IH]; intros nodes E Hn; simpl in E; [by injection E as <-|].
  case_bool_decide; [by eapply IH|]. destruct (get_node env n); [|by eapply IH|discriminate].
  eapply IH; [exact E|]. by apply appendUnique_nodup.
Qed.

Lemma resolveTargetNodes_nodup env lmc nodes : resolveTargetNodes env lmc = Some nodes -> NoDup nodes.
Proof.
  unfold resolveTargetNodes, appendSelectorNodes, appendSchedulableNodes. intros E.
  assert (forall l, NoDup (foldl appendUniqueNode [] l)) as Hsel
    by (intros l; apply (fold_unique_nodup Some); constructor).
  assert (forall l (acc : list string), NoDup acc ->
    NoDup (foldl (fun acc (n : string * bool) => if n.2 then acc else appendUniqueNode acc n.1) acc l)) as Hall.
  { intros l acc Ha. revert acc Ha. induction l as [|[n b] l IH]; intros acc Ha; simpl; [done|]. apply IH.
    destruct b; [done|by apply appendUnique_nodup]. }
  destruct (NodeGroup lmc) as [| |sel]; simpl in E.
  - destruct (appendWarmNodes env (WarmNodes lmc) []) as [w|] eqn:Ew; [|discriminate]. simpl in E.
    apply appendWarmNodes_nodup in Ew; [|constructor]. destruct (WarmNodes lmc); [|by injection E as <-].
    destruct (list_nodes env); [|discriminate]. injection E as <-. by apply Hall.
  - destruct (appendWarmNodes env (WarmNodes lmc) []) as [w|] eqn:Ew; [|discriminate]. injection E as <-.
    by apply appendWarmNodes_nodup in Ew; [|constructor].
  - destruct (select_nodes env sel) as [l|]; [|discriminate]. simpl in E.
    destruct (appendWarmNodes env (WarmNodes lmc) _) as [w|] eqn:Ew; [|discriminate]. injection E as <-.
    by apply appendWarmNodes_nodup in Ew.
Qed.

(** ** The statuses after a reconciliation *)

Lemma find_app {A} (f : A -> bool) (l1 l2 : list A) :
  List.find f (l1 ++ l2) = match List.find f l1 with Some a => Some a | None => List.find f l2 end.
Proof. induction l1 as [|a l IH]; simpl; [done|]. by destruct (f a). Qed.

Lemma findNodeCacheStatus_name statuses n s : findNodeCacheStatus statuses n = Some s -> NodeName s = n /\ s ∈ statuses.
Proof.
  intros E. apply List.find_some in E as [Hin E]. apply bool_decide_eq_true in E. split; [done|by apply list_elem_of_In].
Qed.

Lemma findNodeCacheStatus_none statuses n : findNodeCacheStatus statuses n = None <-> n ∉ (NodeName <$> statuses).
Proof.
  unfold findNodeCacheStatus. induction statuses as [|s l IH]; [split; [intros _ H; by apply not_elem_of_nil in H|done]|].
  simpl. rewrite not_elem_of_cons, <- IH. case_bool_decide; naive_solver.
Qed.

(** The second loop of the merge: statuses of nodes not seen yet. *)
Definition add_missing (acc : list NodeCacheStatus) (s : NodeCacheStatus) : list NodeCacheStatus :=
  match findNodeCacheStatus acc (NodeName s) with Some _ => acc | None => acc ++ [s] end.

Lemma add_missing_find current acc n :
  findNodeCacheStatus (foldl add_missing acc current) n
  = match findNodeCacheStatus acc n with Some s => Some s | None => findNodeCacheStatus current n end.
Proof.
  revert acc. induction current as [|s l IH]; intros acc; simpl; [by destruct (findNodeCacheStatus acc n)|].
  rewrite IH. unfold add_missing. destruct (findNodeCacheStatus acc (NodeName s)) as [x|] eqn:E.
  - destruct (findNodeCacheStatus acc n) eqn:En; [done|]. case_bool_decide; [congruence|done].
  - unfold findNodeCacheStatus at 1. rewrite find_app. fold (findNodeCacheStatus acc n).
    destruct (findNodeCacheStatus acc n); [done|]. simpl. by case_bool_decide.
Qed.

Lemma add_missing_nodup current acc : NoDup (NodeName <$> acc) -> NoDup (NodeName <$> foldl add_missing acc current).
Proof.
  revert acc. induction current as [|s l IH]; intros acc H; simpl; [done|]. apply IH. unfold add_missing.
  destruct (findNodeCacheStatus acc (NodeName s)) eqn:E; [done|]. rewrite fmap_app, NoDup_app.
  split; [done|]. split; [|apply NoDup_singleton]. intros x Hx ->%list_elem_of_singleton. by apply findNodeCacheStatus_none in E.
Qed.

(** The first loop: the statuses of target nodes, renewed. *)
Definition renewed (current : list NodeCacheStatus) (targets : list string) (previous : list NodeCacheStatus) : list NodeCacheStatus :=
  (fun p => default p (findNodeCacheStatus current (NodeName p))) <$> filter (fun p => NodeName p ∈ targets) previous.

Lemma merge_unfold previous current targets :
  mergeNodeCacheStatuses previous current targets = foldl add_missing (renewed current targets previous) current.
Proof.
  unfold mergeNodeCacheStatuses. fold add_missing. f_equal.
  enough (forall acc, foldl (fun acc prev => if negb (bool_decide (NodeName prev ∈ targets)) then acc
      else acc ++ [default prev (findNodeCacheStatus current (NodeName prev))]) acc previous
      = acc ++ renewed current targets previous) as -> by done.
  unfold renewed. induction previous as [|p l IH]; intros acc; simpl; [by rewrite app_nil_r|].
  rewrite IH, filter_cons. case_bool_decide; simpl; [rewrite decide_True by done|by rewrite decide_False].
  by rewrite <- app_assoc.
Qed.

Lemma renewed_names current targets previous :
  NodeName <$> renewed current targets previous = NodeName <$> filter (fun p => NodeName p ∈ targets) previous.
Proof.
  unfold renewed. rewrite <- list_fmap_compose. apply list_fmap_ext. intros i p _. simpl.
  destruct (findNodeCacheStatus current (NodeName p)) as [s|] eqn:E; [|done]. by apply findNodeCacheStatus_name in E as [? _].
Qed.

Lemma renewed_find current targets previous n :
  findNodeCacheStatus (renewed current targets previous) n
  = if bool_decide (n ∈ targets)
    then match findNodeCacheStatus previous n with
         | Some p => Some (default p (findNodeCacheStatus current n))
         | None => None
         end
    else None.
Proof.
  unfold renewed. induction previous as [|p l IH]; simpl; [by case_bool_decide|].
  rewrite filter_cons. destruct (decide (NodeName p ∈ targets)) as [Ht|Ht]; simpl.
  - set (x := default p (findNodeCacheStatus current (NodeName p))).
    assert (NodeName x = NodeName p) as ->.
    { subst x. destruct (findNodeCacheStatus current (NodeName p)) as [s|] eqn:E; [|done].
      by apply findNodeCacheStatus_name in E as [? _]. }
    destruct (bool_decide_reflect (NodeName p = n)) as [<-|]; [by rewrite bool_decide_true|exact IH].
  - rewrite IH. destruct (bool_decide_reflect (NodeName p = n)) as [<-|]; [|done]. by rewrite !bool_decide_false.
Qed.

(** A node has its current status, or the one of the last reconciliation if it
    still is a target. *)
Lemma merge_find previous current targets n :
  findNodeCacheStatus (mergeNodeCacheStatuses previous current targets) n
  = match findNodeCacheStatus current n with
    | Some s => Some s
    | None => if bool_decide (n ∈ targets) then findNodeCacheStatus previous n else None
    end.
Proof.
  rewrite merge_unfold, add_missing_find, renewed_find. case_bool_decide; [|by destruct (findNodeCacheStatus current n)].
  destruct (findNodeCacheStatus previous n) as [p|]; by destruct (findNodeCacheStatus current n).
Qed.

Lemma merge_nodup previous current targets :
  NoDup (NodeName <$> previous) -> NoDup (NodeName <$> mergeNodeCacheStatuses previous current targets).
Proof.
  intros H. rewrite merge_unfold. apply add_missing_nodup. rewrite renewed_names.
  eapply sublist_NoDup; [exact H|]. apply fmap_sublist, sublist_filter.
Qed.

(** The nodes of the merged statuses, when the current ones are of targets. *)
Lemma merge_elem previous current targets n :
  (forall s, s ∈ current -> NodeName s ∈ targets) ->
  n ∈ (NodeName <$> mergeNodeCacheStatuses (filter (fun s => NodeName s ∈ targets) previous) current targets)
  <-> n ∈ targets /\ (n ∈ (NodeName <$> current) \/ n ∈ (NodeName <$> previous)).
Proof.
  intros Hc.
  assert (forall l n, n ∈ (NodeName <$> l) <-> is_Some (findNodeCacheStatus l n)) as Hf.
  { intros l m. pose proof (findNodeCacheStatus_none l m) as Hn. destruct (findNodeCacheStatus l m).
    - split; [by eexists|]. intros _. destruct (decide (m ∈ (NodeName <$> l))) as [|E]; [done|]. apply Hn in E. discriminate.
    - split; [|by intros [? ?]]. intros E. by apply (proj1 Hn eq_refl) in E. }
  rewrite Hf, merge_find.
  assert (is_Some (findNodeCacheStatus current n) -> n ∈ targets) as Hct.
  { intros [s Es]. apply findNodeCacheStatus_name in Es as [<- Hs]. by apply Hc. }
  assert (n ∈ targets -> n ∈ (NodeName <$> filter (fun s => NodeName s ∈ targets) previous) <-> n ∈ (NodeName <$> previous)) as Hp.
  { intros Ht. rewrite !list_elem_of_fmap. setoid_rewrite list_elem_of_filter. naive_solver. }
  rewrite Hf in Hp. rewrite (Hf current n). destruct (findNodeCacheStatus current n) as [s|].
  - split; [intros _; split; [apply Hct; by eexists|left; by eexists]|by eexists].
  - case_bool_decide as Ht; [rewrite Hp by done|]; split.
    + auto.
    + intros [_ [[? ?]|?]]; done.
    + by intros [? ?].
    + by intros [? _].
Qed.

Lemma evict_at_names statuses e : NodeName <$> evict_at statuses e = NodeName <$> statuses.
Proof.
  unfold evict_at. destruct e as [i t z]. simpl. revert i. induction statuses as [|s l IH]; intros [|i]; simpl; try done.
  f_equal. apply IH.
Qed.

(** An eviction, complete or cut short by an error, only changes phases. *)
Lemma evict_names ParseQuantity sort env lmc statuses :
  NodeName <$> (evictLRU ParseQuantity sort env lmc statuses).1.1 = NodeName <$> statuses.
Proof.
  unfold evictLRU. destruct (MaxCacheSizeQuantity ParseQuantity lmc) as [[max|]|]; [|done..].
  generalize (cacheEntries sort statuses) (cacheEntriesSize (cacheEntries sort statuses)). intros es.
  revert statuses. induction es as [|e l IH]; intros statuses total; cbn [evict_loop]; [done|].
  destruct (total <=? max); [done|]. destruct (evictCacheEntry env lmc statuses e) as [[st|] acts] eqn:E; [|done].
  specialize (IH st (total - NewQuantity (size e))).
  destruct (evict_loop env lmc max (total - NewQuantity (size e)) l st) as [[st' ok] acts']. simpl in *. rewrite IH.
  unfold evictCacheEntry in E. destruct (statuses !! index e) as [s|] eqn:Es; [|done].
  destruct (resolveCacheWorkloadNamespace env lmc); [|done]. destruct (delete_cache env AtEvict _ s) as [[] ?]; [|done].
  injection E as <- _. rewrite <- (alter_insert (fun s => with_phase s "Pending")) by done.
  exact (evict_at_names statuses e).
Qed.

Section reconcile_theorems.
Context (ParseQuantity : string -> option Quantity) (QuantityValue : Quantity -> Z) (QuantityString : Quantity -> string)
        (sort : list localModelCacheEntry -> list localModelCacheEntry).

Lemma reconcileNodeCache_name env lmc node hash s acts :
  reconcileNodeCache ParseQuantity QuantityValue env lmc node hash = (Some s, acts) -> NodeName s = node.
Proof.
  unfold reconcileNodeCache, ensureCachePVC, ensureWarmupJob, updateNodeCacheFromJob, markNodeCacheReady, selfHealFailedJob.
  intros E. repeat (case_match; simplify_eq/=; try done).
Qed.

Lemma reconcileTargetCaches_names env lmc nodes hash s :
  s ∈ (reconcileTargetCaches ParseQuantity QuantityValue env lmc nodes hash).1.1 -> NodeName s ∈ nodes.
Proof.
  induction nodes as [|n l IH]; simpl; [by intros ?%not_elem_of_nil|].
  destruct (reconcileNodeCache _ _ env lmc n hash) as [[st|] acts] eqn:E.
  - destruct (reconcileTargetCaches _ _ env lmc l hash) as [[sts ready] acts']. simpl in *.
    rewrite !elem_of_cons. intros [->|H]; [left; by eapply reconcileNodeCache_name|right; by apply IH].
  - destruct (reconcileTargetCaches _ _ env lmc l hash) as [[sts ready] acts']. simpl in *. intros H. right. by apply IH.
Qed.

(** Stale statuses are dropped, after their claim was deleted or was gone. *)
Lemma cleanup_spec env ns targets l kept acts :
  cleanup_statuses env ns targets l = (Some kept, acts) ->
  kept = filter (fun s => NodeName s ∈ targets) l
  /\ forall s, s ∈ l -> NodeName s ∉ targets ->
     DeletePVC ns (PVCName s) ∈ acts \/ get_pvc env AtStale ns (PVCName s) = NotFound.
Proof.
  revert kept acts. induction l as [|s l IH]; intros kept acts; cbn [cleanup_statuses].
  { intros [= <- <-]. split; [done|]. intros ? H. by apply not_elem_of_nil in H. }
  rewrite filter_cons. case_bool_decide as Ht.
  - rewrite decide_True by done. destruct (cleanup_statuses env ns targets l) as [[r|] acts0]; [|discriminate].
    intros [= <- <-]. destruct (IH r acts0 eq_refl) as [-> Hd]. split; [done|].
    intros x Hx. apply elem_of_cons in Hx as [->|Hx]; [done|by apply Hd].
  - rewrite decide_False by done. destruct (delete_cache env AtStale ns s) as [[] acts1] eqn:Ed; [|discriminate].
    destruct (cleanup_statuses env ns targets l) as [r acts2]. intros [= -> <-].
    destruct (IH kept acts2 eq_refl) as [-> Hd]. split; [done|].
    intros x Hx Hxt. apply elem_of_cons in Hx as [->|Hx].
    + unfold delete_cache, deleteCachePVC in Ed. destruct (get_pvc env AtStale ns (PVCName s)) eqn:Eg; [|by right|discriminate].
      left. destruct (delete_ok env AtStale (PVCName s)); [|discriminate].
      destruct (deleteCacheJob _ _ _ _) as [ok acts3]. injection Ed as _ <-. set_solver.
    + destruct (Hd x Hx Hxt); [left; set_solver|by right].
Qed.

(** A reconciliation that writes a status reports every target node at
    most once and no other node; a node it could not reconcile keeps its last
    status; and the claims of nodes that are no longer targets were deleted.
    With a limit, and if eviction can delete, the caches reported as ready fit
    the limit, or none is left. *)
Theorem reconciled_statuses env lmc st acts :
  Reconcile ParseQuantity QuantityValue QuantityString sort env lmc = (inl st, acts) ->
  NoDup (NodeName <$> NodeStatuses (Status lmc)) ->
  exists targets ns, resolveTargetNodes env lmc = Some targets /\ resolveCacheWorkloadNamespace env lmc = Some ns
  /\ NoDup targets /\ NoDup (NodeName <$> NodeStatuses st)
  /\ (forall s, s ∈ NodeStatuses st -> NodeName s ∈ targets)
  /\ (forall s, s ∈ NodeStatuses (Status lmc) -> NodeName s ∈ targets -> NodeName s ∈ (NodeName <$> NodeStatuses st))
  /\ (forall s, s ∈ NodeStatuses (Status lmc) -> NodeName s ∉ targets ->
        DeletePVC ns (PVCName s) ∈ acts \/ get_pvc env AtStale ns (PVCName s) = NotFound)
  /\ (sorts sort -> can_delete env lmc -> forall max, MaxCacheSizeQuantity ParseQuantity lmc = Some (Some max) ->
        NewQuantity (ready_bytes (NodeStatuses st)) <= max \/ ready_bytes (NodeStatuses st) = 0).
Proof.
  unfold Reconcile. destruct (resolveCacheWorkloadNamespace env lmc) as [ns|] eqn:Ens; [|discriminate].
  destruct (negb _); [discriminate|]. destruct (resolveTargetNodes env lmc) as [targets|] eqn:Et; [|discriminate].
  destruct (reconcileTargetCaches _ _ env lmc targets _) as [[current ready] acts1] eqn:Ec.
  unfold cleanupStaleNodeCaches. rewrite Ens.
  destruct (cleanup_statuses env ns targets _) as [[previous|] acts2] eqn:Ecl; [|discriminate].
  set (merged := mergeNodeCacheStatuses previous current targets).
  destruct (evictLRU ParseQuantity sort env lmc merged) as [[final ok] acts3] eqn:Ee.
  destruct (buildCachedModelsStatus lmc final) as [models total]. destruct (status_update_ok env); [|discriminate].
  intros [= <- <-] Hnd. exists targets, ns. apply cleanup_spec in Ecl as [-> Hdel]. cbn [NodeStatuses].
  assert (NodeName <$> final = NodeName <$> merged) as Hnames.
  { pose proof (evict_names ParseQuantity sort env lmc merged) as H. by rewrite Ee in H. }
  assert (forall n, n ∈ (NodeName <$> merged) <-> n ∈ targets /\ (n ∈ (NodeName <$> current) \/ n ∈ (NodeName <$> NodeStatuses (Status lmc)))) as Hin.
  { intros n. apply merge_elem. intros s Hs. eapply (reconcileTargetCaches_names env lmc targets). by rewrite Ec. }
  split; [done|]. split; [done|]. split; [by eapply resolveTargetNodes_nodup|].
  split; [rewrite Hnames; apply merge_nodup; eapply sublist_NoDup; [exact Hnd|apply fmap_sublist, sublist_filter]|].
  split; [|split; [|split]].
  - intros s Hs. apply (Hin (NodeName s)). rewrite <- Hnames. apply list_elem_of_fmap. by exists s.
  - intros s Hs Hst. rewrite Hnames. apply Hin. split; [done|]. right. apply list_elem_of_fmap. by exists s.
  - intros s Hs Hst. destruct (Hdel s Hs Hst); [left; set_solver|by right].
  - intros Hsort Hd max Hmax. destruct (lru_eviction ParseQuantity sort env lmc max merged Hsort Hd Hmax) as (k & a & E & _ & _ & Hb & _).
    rewrite Ee in E. injection E as -> _ _. destruct Hb as [?|[? _]]; [by left|by right].
Qed.

End reconcile_theorems.

(** ** Concrete caches *)

#[local] Instance older_dec a b : Decision (older a b).
Proof. unfold older. apply _. Defined.

Lemma merge_sort_sorts : sorts (merge_sort older).
Proof.
  intros l. split; [apply merge_sort_Permutation|]. apply StronglySorted_merge_sort.
  - intros a b c. unfold older. lia.
  - intros a b. unfold older. lia.
Qed.

(** Two gibibytes and three gibibytes, in nano-units. *)
Definition toy_parse (s : string) : option Quantity :=
  if s ==? "2Gi" then Some (NewQuantity (2 * 2 ^ 30)) else if s ==? "3Gi" then Some (NewQuantity (3 * 2 ^ 30)) else None.
Definition toy_value (q : Quantity) : Z := q / 1000000000.
Definition toy_string (q : Quantity) : string := Itoa (toy_value q).

Definition toy_cache (uri : string) (nodes : list string) (statuses : list NodeCacheStatus) : LocalModelCache :=
  {| lmc_Name := "llama"; Labels := ∅; Annotations := ∅; SourceModelURI := uri; ModelSize := "2Gi"; MaxCacheSize := "3Gi";
     NodeGroup := NoGroup; WarmNodes := nodes; Storage := None; AllowedNamespaces := ["team-a"];
     Status := {| NodeStatuses := statuses; CachedNodes := 0; CachedModels := []; TotalCacheSize := ""; AvailableSpace := "" |} |}.

(** A cluster in which every claim exists and every Job is complete. *)
Definition toy_env (t : Time) (claim : bool) : CacheEnv :=
  {| now := t; now_heal := t; owner := fun _ _ => None; select_nodes := fun _ => None; get_node := fun _ => Found ();
     list_nodes := Some []; get_pvc := fun site _ _ => match site with AtNode => if claim then Found () else NotFound | _ => Found () end;
     get_job := fun _ _ _ => Found {| Deleting := false; Active := 0;
       JobConditions := [{| jc_Type := JobComplete; jc_True := true; jc_LastTransitionTime := 5 |}] |};
     delete_ok := fun _ _ => true; create_ok := fun _ => true; status_update_ok := true |}.

Definition toy_reconcile (env : CacheEnv) (lmc : LocalModelCache) : (LocalModelCacheStatus + CacheErr) * list CacheAction :=
  Reconcile toy_parse toy_value toy_string (merge_sort older) env lmc.

Lemma toy_can_delete t b uri nodes statuses : can_delete (toy_env t b) (toy_cache uri nodes statuses).
Proof. by exists defaultCacheNamespace. Qed.

Definition toy_ready (node : string) (used : Time) : NodeCacheStatus :=
  {| NodeName := node; Phase := "Ready"; PVCName := PVCNameForNode (ModelURIHash "hf://llama") node; LastTransitionTime := None;
     SizeBytes := 2 * 2 ^ 30; LastUsed := Some used; st_ModelURIHash := ModelURIHash "hf://llama" |}.

Definition phases (r : (LocalModelCacheStatus + CacheErr) * list CacheAction) : list (string * string) :=
  match r.1 with inl st => (fun s => (NodeName s, Phase s)) <$> NodeStatuses st | inr _ => [] end.

Lemma lru_eviction_witness :
  exists k acts, evictLRU toy_parse (merge_sort older) (toy_env 9 true) (toy_cache "hf://llama" [] []) [toy_ready "a" 7; toy_ready "b" 4]
  = (foldl evict_at [toy_ready "a" 7; toy_ready "b" 4] (take k (cacheEntries (merge_sort older) [toy_ready "a" 7; toy_ready "b" 4])), true, acts).
Proof.
  destruct (lru_eviction toy_parse (merge_sort older) (toy_env 9 true) (toy_cache "hf://llama" [] []) (NewQuantity (3 * 2 ^ 30))
              [toy_ready "a" 7; toy_ready "b" 4] merge_sort_sorts (toy_can_delete _ _ _ _ _) eq_refl) as (k & acts & E & _).
  exists k, acts. exact E.
Defined.

Lemma reconciled_statuses_witness :
  let lmc := toy_cache "hf://llama" ["a"; "b"] [toy_ready "b" 4; toy_ready "old" 1] in
  match toy_reconcile (toy_env 9 true) lmc with
  | (inl st, acts) => NoDup (NodeName <$> NodeStatuses st)
  | _ => False
  end.
Proof.
  intros lmc. destruct (toy_reconcile (toy_env 9 true) lmc) as [[st|e] acts] eqn:E; [|vm_compute in E; discriminate E].
  destruct (reconciled_statuses toy_parse toy_value toy_string (merge_sort older) (toy_env 9 true) lmc st acts E
              ltac:(by_computation)) as (targets & ns & _ & _ & _ & H & _).
  exact H.
Defined.

(** The node whose cache was ready first loses it, and the two nodes go on
    evicting each other's cache: the time of last use is the time a cache
    became ready, which no use renews.  The number of cached nodes counts a
    cache that the same reconciliation evicted. *)
Example eviction_rotates :
  let lmc st := toy_cache "hf://llama" ["a"; "b"] st in
  let next t st := match (toy_reconcile (toy_env t true) (lmc st)).1 with inl s => NodeStatuses s | inr _ => [] end in
  let s1 := next 9 [toy_ready "a" 7; toy_ready "b" 4] in
  let s2 := next 10 s1 in
  let s3 := next 11 s2 in
  let show l := (fun s => (NodeName s, Phase s)) <$> l in
  show s1 = [("a", "Ready"); ("b", "Pending")] /\ show s2 = [("a", "Pending"); ("b", "Ready")]
  /\ show s3 = [("a", "Ready"); ("b", "Pending")]
  /\ match (toy_reconcile (toy_env 9 true) (lmc [toy_ready "a" 7; toy_ready "b" 4])).1 with
     | inl st => CachedNodes st = 2 /\ ready_bytes (NodeStatuses st) = 2 * 2 ^ 30
     | inr _ => False
     end.
Proof. vm_compute. done. Qed.

(** When the model of a cache changes, the claim of the old model on a node
    that stays a target is neither deleted nor remembered. *)
Example changed_model_leaks_claim :
  let lmc := toy_cache "hf://other" ["a"] [toy_ready "a" 7] in
  match toy_reconcile (toy_env 9 false) lmc with
  | (inl st, acts) =>
      (PVCName <$> NodeStatuses st) = [PVCNameForNode (ModelURIHash "hf://other") "a"]
      /\ Forall (fun a => match a with DeletePVC _ _ => False | _ => True end) acts
      /\ PVCNameForNode (ModelURIHash "hf://other") "a" <> PVCNameForNode (ModelURIHash "hf://llama") "a"
  | _ => False
  end.
Proof. vm_compute. split; [done|]. split; [repeat constructor|discriminate]. Qed.
