(* ===== verification/SessionControllers.v ===== *)
(** * Sessions, actors and co-actor groups in the cluster

    [internal/controller/session_controller.go] and
    [internal/scheduler/session_router.go]: the controllers of the
    InferenceSession, InferenceActor and CoactorGroup objects, and the router
    that reads and touches sessions.  An object is the fields that are read and
    written.  What the API server answers is an argument ([SessionEnv]); a
    status update is one step that succeeds with the object read before, or
    fails and changes nothing.  Log lines are left out. *)

From S2P Require Import Prelude GoStrings.
From Stdlib Require Import Ascii.

Definition SessionPhaseActive : string := "Active".
Definition SessionPhaseIdle : string := "Idle".
Definition SessionPhaseEvicted : string := "Evicted".
Definition SessionPhaseCompleted : string := "Completed".

Definition ActorStateInactive : string := "Inactive".
Definition ActorStateActive : string := "Active".
Definition ActorStateDeactivating : string := "Deactivating".

Definition CoactorGroupForming : string := "Forming".
Definition CoactorGroupReady : string := "Ready".
Definition CoactorGroupDegraded : string := "Degraded".
Definition CoactorGroupDissolved : string := "Dissolved".

(** ** Sessions *)

Record SessionStatus := {
  Phase : string; BoundEndpoint : string;
  TurnCount : Z;     (* int32 *)
  TokenCount : Z;    (* int64 *)
  KVCacheSize : Z;   (* int64 *)
  LastActivityTime : option Time }.

Record InferenceSession := {
  Namespace : string; ModelRef : string; TTL : option Duration; MaxTurns : Z (* int32 *); Status : SessionStatus }.

Definition with_status (s : InferenceSession) (st : SessionStatus) : InferenceSession :=
  {| Namespace := Namespace s; ModelRef := ModelRef s; TTL := TTL s; MaxTurns := MaxTurns s; Status := st |}.

(** An endpoint of a slice: its readiness, which may be unknown, and its
    addresses. *)
Record Endpoint := { Ready : option bool; Addresses : list string }.

Record SessionEnv := {
  clock : Time;
  model_exists : bool;
  slices : option (list (list Endpoint));     (* the EndpointSlices of the model, or an error *)
  sessions : list SessionStatus;              (* the listed sessions of the model, none after an error *)
  status_ok : bool                            (* whether the status update succeeds *) }.

Definition terminateSession (st : SessionStatus) (phase : string) : SessionStatus :=
  {| Phase := phase; BoundEndpoint := ""; TurnCount := TurnCount st; TokenCount := TokenCount st; KVCacheSize := 0;
     LastActivityTime := LastActivityTime st |}.

Definition bind (st : SessionStatus) (endpoint phase : string) : SessionStatus :=
  {| Phase := phase; BoundEndpoint := endpoint; TurnCount := TurnCount st; TokenCount := TokenCount st;
     KVCacheSize := KVCacheSize st; LastActivityTime := LastActivityTime st |}.

Definition isTerminalSessionPhase (phase : string) : bool :=
  (phase ==? SessionPhaseEvicted) || (phase ==? SessionPhaseCompleted).

Definition isExpired (env : SessionEnv) (s : InferenceSession) : bool :=
  match TTL s, LastActivityTime (Status s) with
  | Some ttl, Some t => TimeSub (clock env) t >? ttl
  | _, _ => false
  end.

(** [strings.LastIndex(s, ":")]. *)
Fixpoint LastIndexColon (s : string) : option nat :=
  match s with
  | EmptyString => None
  | String c s =>
      match LastIndexColon s with
      | Some i => Some (S i)
      | None => if code c ==? 58 then Some O else None
      end
  end.

Definition host_of (endpoint : string) : string :=
  match LastIndexColon endpoint with
  | Some (S i) => str_take (S i) endpoint
  | _ => endpoint
  end.

Definition is_ready (ep : Endpoint) : bool := match Ready ep with Some false => false | _ => true end.

Definition ready_addresses (l : list (list Endpoint)) : list string :=
  concat (Addresses <$> List.filter is_ready (concat l)).

(** [true] when the bound endpoint is among the ready ones. *)
Definition validateEndpoint (env : SessionEnv) (s : InferenceSession) : bool :=
  if BoundEndpoint (Status s) ==? "" then false
  else
    let host := host_of (BoundEndpoint (Status s)) in
    match slices env with
    | None => false
    | Some [] => false
    | Some l => existsb (fun addr => (addr ==? host)
                  || (ModelRef s +:+ "." +:+ Namespace s +:+ ".svc.cluster.local" ==? host)) (ready_addresses l)
    end.

Definition loadMap (l : list SessionStatus) : gmap string Z :=
  foldl (fun m st => if (Phase st ==? SessionPhaseActive) && (BoundEndpoint st !=? "")
                     then <[BoundEndpoint st := default 0 (m !! BoundEndpoint st) + 1]> m else m) ∅ l.

Definition endpoint_of (addr : string) : string := addr +:+ ":8000".

Definition max_int : Z := 2 ^ 63 - 1.

(** The loop over the ready addresses: the best endpoint so far and its load. *)
Definition best_endpoint (load : gmap string Z) (addrs : list string) : string * Z :=
  foldl (fun best addr =>
    let l := default 0 (load !! endpoint_of addr) in
    if l <? best.2 then (endpoint_of addr, l) else best) ("", max_int) addrs.

Definition selectEndpoint (env : SessionEnv) : option string :=
  if negb (model_exists env) then None
  else match slices env with
       | None => None
       | Some [] => None
       | Some l =>
           let '(best, _) := best_endpoint (loadMap (sessions env)) (ready_addresses l) in
           if best ==? "" then None else Some best
       end.

(** The delay to the next reconciliation, or an error. *)
Definition Outcome : Type := option Duration + unit.

(** The status update: it writes the status in memory, or fails. *)
Definition update (env : SessionEnv) (s : InferenceSession) (st : SessionStatus) (r : option Duration) : Outcome * InferenceSession :=
  if status_ok env then (inl r, with_status s st) else (inr (), s).

Definition Reconcile (env : SessionEnv) (s : InferenceSession) : Outcome * InferenceSession :=
  if (Phase (Status s) ==? SessionPhaseIdle) && isExpired env s
  then update env s (terminateSession (Status s) SessionPhaseEvicted) None
  else if (MaxTurns s >? 0) && (TurnCount (Status s) >=? MaxTurns s)
  then update env s (terminateSession (Status s) SessionPhaseCompleted) None
  else
    let st := if (BoundEndpoint (Status s) !=? "") && negb (isTerminalSessionPhase (Phase (Status s)))
                 && negb (validateEndpoint env s)
              then bind (Status s) "" SessionPhaseActive else Status s in
    let requeue := match TTL s with Some ttl => Z.quot ttl 2 | None => 30 * Second end in
    if (BoundEndpoint st ==? "") && negb (isTerminalSessionPhase (Phase st)) then
      match selectEndpoint env with
      | None => update env s st (Some (5 * Second))
      | Some endpoint => update env s (bind st endpoint SessionPhaseActive) (Some requeue)
      end
    else update env s st (Some requeue).

(** ** The router *)

Record RouteDecision := { rd_Endpoint : string; rd_SessionID : string; rd_Reason : string; CacheHit : bool }.

(** The session is absent when it cannot be read. *)
Definition routeBySession (session : option InferenceSession) (sessionID : string) : option RouteDecision :=
  match session with
  | None => None
  | Some s =>
      if (Phase (Status s) !=? SessionPhaseActive) || (BoundEndpoint (Status s) ==? "") then None
      else Some {| rd_Endpoint := BoundEndpoint (Status s); rd_SessionID := sessionID;
                   rd_Reason := "session-affinity-kv-cache-hit"; CacheHit := true |}
  end.

Definition Route (session : option InferenceSession) (sessionID : string) : RouteDecision :=
  let epp := {| rd_Endpoint := ""; rd_SessionID := ""; rd_Reason := "no-session-affinity-epp-routing"; CacheHit := false |} in
  if sessionID !=? "" then default epp (routeBySession session sessionID) else epp.

Definition RecordActivity (now : Time) (ok : bool) (tokenCount : Z) (s : InferenceSession) : InferenceSession :=
  if ok then
    with_status s {| Phase := SessionPhaseActive; BoundEndpoint := BoundEndpoint (Status s);
                     TurnCount := i32_wrap (TurnCount (Status s) + 1);
                     TokenCount := i64_wrap (TokenCount (Status s) + tokenCount);
                     KVCacheSize := KVCacheSize (Status s); LastActivityTime := Some now |}
  else s.

(** ** Actors *)

Record InferenceActor := {
  IdleTimeout : option Duration; State : string; ActiveSessions : Z (* int32 *); LastActivationTime : option Time }.

Definition with_state (a : InferenceActor) (state : string) (t : option Time) : InferenceActor :=
  {| IdleTimeout := IdleTimeout a; State := state; ActiveSessions := ActiveSessions a; LastActivationTime := t |}.

(** The clock for the idle time and for the activation, and the two updates. *)
Record ActorEnv := { now_idle : Time; now_activate : Time; update1_ok : bool; update2_ok : bool }.

Definition ActorReconcile (env : ActorEnv) (a : InferenceActor) : Outcome * InferenceActor :=
  let idle :=
    match IdleTimeout a, LastActivationTime a with
    | Some timeout, Some t =>
        (State a ==? ActorStateActive) && (ActiveSessions a ==? 0) && (TimeSub (now_idle env) t >? timeout)
    | _, _ => false
    end in
  if idle then
    if negb (update1_ok env) then (inr (), a)
    else if negb (update2_ok env) then (inr (), with_state a ActorStateDeactivating (LastActivationTime a))
    else (inl None, with_state a ActorStateInactive (LastActivationTime a))
  else
    let a' := if (State a ==? ActorStateInactive) && (ActiveSessions a >? 0)
              then with_state a ActorStateActive (Some (now_activate env)) else a in
    if update1_ok env then (inl (Some (30 * Second)), a') else (inr (), a).

(** ** Groups *)

Record CoactorMember := { mem_Name : string; mem_Role : string; ActorRef : string }.
Record MemberStatus := { ms_Name : string; ms_Role : string; ms_State : string; ms_Ready : bool }.
Record CoactorGroup := {
  Members : list CoactorMember; grp_Phase : string; ActiveMemberCount : Z; MemberStatuses : list MemberStatus }.

(** The actor of a member, absent when it cannot be read. *)
Definition member_status (get : string -> option InferenceActor) (m : CoactorMember) : MemberStatus :=
  match get (ActorRef m) with
  | None => {| ms_Name := mem_Name m; ms_Role := mem_Role m; ms_State := ActorStateInactive; ms_Ready := false |}
  | Some a => {| ms_Name := mem_Name m; ms_Role := mem_Role m; ms_State := State a;
                 ms_Ready := State a ==? ActorStateActive |}
  end.

Definition GroupReconcile (get : string -> option InferenceActor) (ok : bool) (g : CoactorGroup) : Outcome * CoactorGroup :=
  let statuses := member_status get <$> Members g in
  let activeCount := i32_wrap (Z.of_nat (length (List.filter ms_Ready statuses))) in
  let totalMembers := i32_wrap (Z.of_nat (length (Members g))) in
  let phase :=
    if activeCount ==? totalMembers then CoactorGroupReady
    else if activeCount >? 0 then CoactorGroupDegraded
    else if (activeCount ==? 0) && (grp_Phase g ==? CoactorGroupReady) then CoactorGroupDissolved
    else CoactorGroupForming in
  if ok then (inl (Some (15 * Second)),
              {| Members := Members g; grp_Phase := phase; ActiveMemberCount := activeCount; MemberStatuses := statuses |})
  else (inr (), g).

(** ** The least loaded endpoint *)

(** The active sessions bound to an endpoint. *)
Definition bound_to (e : string) (l : list SessionStatus) : Z :=
  Z.of_nat (length (List.filter (fun st => (Phase st ==? SessionPhaseActive) && (BoundEndpoint st ==? e)) l)).

Lemma loadMap_spec l e : e <> "" -> default 0 (loadMap l !! e) = bound_to e l.
Proof.
  intros He. unfold loadMap, bound_to.
  enough (forall m : gmap string Z, default 0 (foldl (fun m st => if (Phase st ==? SessionPhaseActive) && (BoundEndpoint st !=? "")
            then <[BoundEndpoint st := default 0 (m !! BoundEndpoint st) + 1]> m else m) m l !! e)
          = default 0 (m !! e) + Z.of_nat (length (List.filter (fun st => (Phase st ==? SessionPhaseActive) && (BoundEndpoint st ==? e)) l)))
    as -> by (rewrite lookup_empty; done).
  induction l as [|st l IH]; intros m; simpl; [lia|]. rewrite IH.
  destruct (bool_decide_reflect (Phase st = SessionPhaseActive)); simpl; [|done].
  destruct (bool_decide_reflect (BoundEndpoint st = "")) as [E|E]; simpl.
  - rewrite bool_decide_false by congruence. done.
  - destruct (bool_decide_reflect (BoundEndpoint st = e)) as [->|Hne].
    + rewrite lookup_insert, decide_True by done. simpl. lia.
    + by rewrite lookup_insert_ne.
Qed.

Lemma endpoint_nonempty addr : endpoint_of addr <> "".
Proof. unfold endpoint_of. by destruct addr. Qed.

(** The result of the loop, from a best so far. *)
Lemma best_endpoint_loop (load : gmap string Z) addrs best :
  let r := foldl (fun best addr => let l := default 0 (load !! endpoint_of addr) in
                    if l <? best.2 then (endpoint_of addr, l) else best) best addrs in
  (r = best \/ exists addr, addr ∈ addrs /\ r = (endpoint_of addr, default 0 (load !! endpoint_of addr)))
  /\ r.2 <= best.2 /\ forall addr, addr ∈ addrs -> r.2 <= default 0 (load !! endpoint_of addr).
Proof.
  revert best. induction addrs as [|a l IH]; intros best; cbn [foldl].
  { split; [by left|]. split; [lia|]. intros addr H. by apply not_elem_of_nil in H. }
  destruct (IH (if default 0 (load !! endpoint_of a) <? best.2 then (endpoint_of a, default 0 (load !! endpoint_of a)) else best))
    as (H1 & H2 & H3). cbv zeta in *. set (r := foldl _ _ l) in *.
  destruct (bool_decide_reflect (default 0 (load !! endpoint_of a) < best.2)) as [Hlt|Hge]; simpl in H2.
  - split; [right|split; [lia|]].
    + destruct H1 as [->|(x & Hx & ->)]; [exists a; split; [left|done]|exists x; split; [by right|done]].
    + intros x Hx. apply elem_of_cons in Hx as [->|Hx]; [lia|by apply H3].
  - split; [|split; [lia|]].
    + destruct H1 as [->|(x & Hx & ->)]; [by left|right; exists x; split; [by right|done]].
    + intros x Hx. apply elem_of_cons in Hx as [->|Hx]; [lia|by apply H3].
Qed.

(** A session is bound to a ready endpoint with the fewest active sessions
    among those listed, and to none only when no endpoint is ready. *)
Lemma selectEndpoint_least env l :
  model_exists env = true -> slices env = Some l -> Z.of_nat (length (sessions env)) < max_int ->
  match selectEndpoint env with
  | Some e => exists addr, addr ∈ ready_addresses l /\ e = endpoint_of addr
              /\ forall x, x ∈ ready_addresses l -> bound_to e (sessions env) <= bound_to (endpoint_of x) (sessions env)
  | None => ready_addresses l = []
  end.
Proof.
  intros Hm Hl Hs. unfold selectEndpoint. rewrite Hm, Hl. simpl. destruct l as [|l0 l1]; [done|].
  set (l := l0 :: l1) in *. unfold best_endpoint.
  destruct (best_endpoint_loop (loadMap (sessions env)) (ready_addresses l) ("", max_int)) as (H1 & H2 & H3).
  cbv zeta in *. destruct (foldl _ ("", max_int) (ready_addresses l)) as [best load]. simpl in *.
  destruct H1 as [[= -> ->]|(addr & Hin & [= -> ->])].
  - simpl. destruct (ready_addresses l) as [|x r]; [done|]. exfalso.
    specialize (H3 x (list_elem_of_here x r)). rewrite loadMap_spec in H3 by apply endpoint_nonempty.
    unfold bound_to in H3. pose proof (filter_length_le
      (fun st => (Phase st ==? SessionPhaseActive) && (BoundEndpoint st ==? endpoint_of x)) (sessions env)). lia.
  - rewrite bool_decide_false by apply endpoint_nonempty. exists addr. split; [done|]. split; [done|].
    intros x Hx. specialize (H3 x Hx). by rewrite !loadMap_spec in H3 by apply endpoint_nonempty.
Qed.

(** ** Routing *)

Lemma LastIndexColon_app a : LastIndexColon (a +:+ ":8000") = Some (String.length a).
Proof.
  induction a as [|c a IH]; [done|]. change (String c a +:+ ":8000") with (String c (a +:+ ":8000")).
  cbn [LastIndexColon]. by rewrite IH.
Qed.

Lemma host_of_endpoint addr : addr <> "" -> host_of (endpoint_of addr) = addr.
Proof.
  intros Ha. unfold host_of, endpoint_of. rewrite LastIndexColon_app. destruct addr as [|c a]; [done|].
  cbn [String.length]. apply (str_take_app (String c a)).
Qed.

Definition service_name (s : InferenceSession) : string := ModelRef s +:+ "." +:+ Namespace s +:+ ".svc.cluster.local".

(** An endpoint that is backed: an address of it is ready, or it is the name
    of the service and some address is ready. *)
Definition backed (env : SessionEnv) (s : InferenceSession) (e : string) : Prop :=
  exists l, slices env = Some l
  /\ ((exists addr, addr ∈ ready_addresses l /\ (host_of e = addr \/ e = endpoint_of addr))
      \/ host_of e = service_name s /\ ready_addresses l <> []).

Lemma validateEndpoint_backed env s : validateEndpoint env s = true -> backed env s (BoundEndpoint (Status s)).
Proof.
  unfold validateEndpoint. destruct (bool_decide_reflect (BoundEndpoint (Status s) = "")); [discriminate|].
  destruct (slices env) as [[|l0 l1]|] eqn:El; [discriminate| |discriminate]. intros E.
  apply existsb_exists in E as (addr & Hin & E). apply list_elem_of_In in Hin.
  exists (l0 :: l1). split; [done|].
  apply orb_true_iff in E as [E|E]; apply bool_decide_eq_true in E.
  - left. exists addr. split; [done|]. by left.
  - right. split; [done|]. intros Hn. rewrite Hn in Hin. by apply not_elem_of_nil in Hin.
Qed.

Lemma selectEndpoint_backed env s e : selectEndpoint env = Some e -> backed env s e.
Proof.
  unfold selectEndpoint. destruct (model_exists env); [|discriminate]. simpl.
  destruct (slices env) as [[|l0 l1]|] eqn:El; [discriminate| |discriminate].
  destruct (best_endpoint_loop (loadMap (sessions env)) (ready_addresses (l0 :: l1)) ("", max_int)) as (H1 & _).
  cbv zeta in H1. unfold best_endpoint. destruct (foldl _ ("", max_int) (ready_addresses (l0 :: l1))) as [best load].
  destruct (bool_decide_reflect (best = "")) as [|Hb]; [discriminate|]. intros [= <-].
  destruct H1 as [[= -> _]|(addr & Hin & [= -> _])]; [done|].
  exists (l0 :: l1). split; [done|]. left. exists addr. split; [done|]. by right.
Qed.

(** What a successful reconciliation leaves, by the outcome it decides. *)
Lemma reconciled_session env s r s' :
  Reconcile env s = (inl r, s') ->
  Namespace s' = Namespace s /\ ModelRef s' = ModelRef s
  /\ (isTerminalSessionPhase (Phase (Status s')) = true /\ (Phase (Status s') = Phase (Status s) \/ BoundEndpoint (Status s') = "")
      \/ BoundEndpoint (Status s') = ""
      \/ backed env s (BoundEndpoint (Status s'))).
Proof.
  unfold Reconcile, update. destruct (status_ok env); [|intros; repeat case_match; discriminate].
  destruct (_ && isExpired env s); [intros [= <- <-]; repeat split; left; split; [done|by right]|].
  destruct (_ && (TurnCount (Status s) >=? MaxTurns s)); [intros [= <- <-]; repeat split; left; split; [done|by right]|].
  destruct (isTerminalSessionPhase (Phase (Status s))) eqn:Et.
  - cbn [negb]. rewrite andb_false_r. cbn [andb]. rewrite Et, andb_false_r. cbn [negb].
    intros [= <- <-]. repeat split. left. split; [exact Et|by left].
  - cbn [negb]. rewrite andb_true_r. destruct (validateEndpoint env s) eqn:Ev; cbn [negb].
    + rewrite andb_false_r, Et. apply validateEndpoint_backed in Ev as Hb.
      unfold validateEndpoint in Ev. destruct (bool_decide_reflect (BoundEndpoint (Status s) = "")); [discriminate|].
      cbn [andb]. intros [= <- <-]. repeat split. right. by right.
    + rewrite andb_true_r. destruct (bool_decide_reflect (BoundEndpoint (Status s) = "")) as [E|E]; cbn [negb].
      * rewrite E, Et. cbn [negb andb]. rewrite bool_decide_true by done.
        destruct (selectEndpoint env) as [e|] eqn:Es; intros [= <- <-]; repeat split; right; [right|left; done].
        by apply selectEndpoint_backed.
      * cbn [bind BoundEndpoint Phase negb andb]. 
        destruct (selectEndpoint env) as [e|] eqn:Es; intros [= <- <-]; repeat split; right; [right|left; done].
        by apply selectEndpoint_backed.
Qed.

(** ** Histories of a session

    The controller and the router work on a session in turns. *)

Inductive SessionStep :=
  | StepReconcile (env : SessionEnv)
  | StepActivity (now : Time) (ok : bool) (tokens : Z).

Definition session_step (s : InferenceSession) (x : SessionStep) : InferenceSession :=
  match x with
  | StepReconcile env => (Reconcile env s).2
  | StepActivity now ok tokens => RecordActivity now ok tokens s
  end.

(** A session as it is created. *)
Definition new_session (ns model : string) (ttl : option Duration) (turns : Z) : InferenceSession :=
  {| Namespace := ns; ModelRef := model; TTL := ttl; MaxTurns := turns;
     Status := {| Phase := ""; BoundEndpoint := ""; TurnCount := 0; TokenCount := 0; KVCacheSize := 0; LastActivityTime := None |} |}.

Definition session_inv (s : InferenceSession) : Prop :=
  Phase (Status s) = "" /\ BoundEndpoint (Status s) = ""
  \/ Phase (Status s) = SessionPhaseActive
  \/ Phase (Status s) = SessionPhaseCompleted /\ BoundEndpoint (Status s) = "" /\ KVCacheSize (Status s) = 0
     /\ 0 < MaxTurns s <= TurnCount (Status s).

Lemma session_inv_reconcile env s : session_inv s -> session_inv (Reconcile env s).2.
Proof.
  intros Hi. unfold Reconcile, update. destruct (status_ok env); [|by repeat case_match].
  assert (Phase (Status s) ==? SessionPhaseIdle = false) as ->
    by (apply bool_decide_eq_false; destruct Hi as [[-> _]|[->|[-> _]]]; discriminate). cbn [andb].
  destruct (bool_decide_reflect (0 < MaxTurns s)), (bool_decide_reflect (MaxTurns s <= TurnCount (Status s))); cbn [andb];
    try (right; right; cbn; by repeat split).
  all: unfold session_inv in *; repeat case_match; simpl in *; try done; right; left; done || naive_solver.
Qed.

Lemma session_inv_history s steps : session_inv s -> session_inv (foldl session_step s steps).
Proof.
  revert s. induction steps as [|x l IH]; intros s0 H0; [done|]. simpl. apply IH.
  destruct x as [e|now ok tokens]; [by apply session_inv_reconcile|]. simpl. unfold RecordActivity.
  destruct ok; [by right; left|done].
Qed.

(** Whatever the controller and the router do to a session in whatever
    order, a session that has completed has used up its turns, holds no
    endpoint and no cache, and the router sends no request to it; and a
    request that is routed by a session the controller has just reconciled
    goes to an endpoint that was ready in the slices it read. *)
Theorem session_routing_sound ns model ttl turns steps env s r s' id :
  s = foldl session_step (new_session ns model ttl turns) steps ->
  Reconcile env s = (inl r, s') ->
  (Phase (Status s) = SessionPhaseCompleted ->
     0 < MaxTurns s <= TurnCount (Status s) /\ BoundEndpoint (Status s) = "" /\ KVCacheSize (Status s) = 0
     /\ CacheHit (Route (Some s) id) = false)
  /\ (CacheHit (Route (Some s') id) = true -> backed env s (rd_Endpoint (Route (Some s') id))).
Proof.
  intros -> Hr. set (s := foldl session_step _ steps) in *.
  assert (session_inv s) as Hi.
  { apply session_inv_history. by left. }
  split.
  - intros E. destruct Hi as [[E0 _]|[E0|(_ & H1 & H2 & H3)]]; [rewrite E0 in E; discriminate..|].
    split; [done|]. split; [done|]. split; [done|]. unfold Route, routeBySession. rewrite E. by destruct (id !=? "").
  - unfold Route. destruct (id !=? ""); [|done]. unfold routeBySession.
    destruct (bool_decide_reflect (Phase (Status s') = SessionPhaseActive)) as [Ha|]; [|done]. cbn [negb orb].
    destruct (bool_decide_reflect (BoundEndpoint (Status s') = "")) as [|Hb]; [done|]. intros _. simpl.
    destruct (reconciled_session env s r s' Hr) as (_ & _ & [[Ht _]|[?|?]]); [|done|done].
    rewrite Ha in Ht. discriminate.
Qed.

(** Nothing ever makes a session idle, and only idle sessions expire: no
    history evicts a session, whatever its TTL and the clock. *)
Lemma session_never_evicted ns model ttl turns steps :
  Phase (Status (foldl session_step (new_session ns model ttl turns) steps)) <> SessionPhaseEvicted.
Proof.
  destruct (session_inv_history (new_session ns model ttl turns) steps) as [[-> _]|[->|[-> _]]]; [by left|done..].
Qed.

(** ** Actors and groups *)

(** An actor is created without a state, and no reconciliation gives it one:
    it is never activated. *)
Lemma new_actor_inert timeout sessions t envs :
  State (foldl (fun a env => (ActorReconcile env a).2)
           {| IdleTimeout := timeout; State := ""; ActiveSessions := sessions; LastActivationTime := t |} envs) = "".
Proof.
  induction envs as [|env l IH] using rev_ind; [done|]. rewrite foldl_app. simpl.
  set (a := foldl _ _ l) in *. unfold ActorReconcile. rewrite IH. simpl.
  destruct (IdleTimeout a), (LastActivationTime a); simpl; by destruct (update1_ok env).
Qed.

(** A group is ready exactly when the actors of all its members are active. *)
Lemma group_ready_iff get g :
  Z.of_nat (length (Members g)) < 2 ^ 31 ->
  grp_Phase (GroupReconcile get true g).2 = CoactorGroupReady
  <-> forall m, m ∈ Members g -> exists a, get (ActorRef m) = Some a /\ State a = ActorStateActive.
Proof.
  intros Hl. unfold GroupReconcile. cbn [snd grp_Phase].
  set (ready := length (List.filter ms_Ready (member_status get <$> Members g))).
  pose proof (filter_length_le ms_Ready (member_status get <$> Members g)) as Hle. rewrite length_fmap in Hle. fold ready in Hle.
  rewrite !i32_wrap_small by (unfold i32_range; lia).
  assert (ready = length (Members g) <-> forall m, m ∈ Members g -> ms_Ready (member_status get m) = true) as Hr.
  { subst ready. clear. induction (Members g) as [|m l IH]; [split; [intros _ m H; by apply not_elem_of_nil in H|done]|].
    cbn [fmap list_fmap]. simpl. pose proof (filter_length_le ms_Ready (member_status get <$> l)) as Hle. rewrite length_fmap in Hle.
    destruct (ms_Ready (member_status get m)) eqn:E; simpl; unfold fmap in *.
    - split.
      + intros Hn x Hx. apply elem_of_cons in Hx as [->|Hx]; [done|]. apply IH; [lia|done].
      + intros Ha. f_equal. apply IH. intros x Hx. apply Ha. by right.
    - split; [lia|]. intros Ha. specialize (Ha m (list_elem_of_here m l)). congruence. }
  assert (forall m, ms_Ready (member_status get m) = true <-> exists a, get (ActorRef m) = Some a /\ State a = ActorStateActive) as Hm.
  { intros m. unfold member_status. destruct (get (ActorRef m)) as [a|]; simpl; [rewrite bool_decide_eq_true; naive_solver|naive_solver]. }
  setoid_rewrite <- Hm. rewrite <- Hr.
  destruct (bool_decide_reflect (Z.of_nat ready = Z.of_nat (length (Members g)))); [split; [lia|done]|].
  split; [|lia]. repeat case_match; discriminate.
Qed.

(** ** Concrete sessions *)

Definition toy_env (l : list (list Endpoint)) (all : list SessionStatus) : SessionEnv :=
  {| clock := 100 * Minute; model_exists := true; slices := Some l; sessions := all; status_ok := true |}.

Definition up (addr : string) : Endpoint := {| Ready := None; Addresses := [addr] |}.
Definition down (addr : string) : Endpoint := {| Ready := Some false; Addresses := [addr] |}.

Definition toy_session : InferenceSession := new_session "prod" "llama" (Some (30 * Minute)) 2.

Definition toy_active (e : string) : SessionStatus :=
  {| Phase := SessionPhaseActive; BoundEndpoint := e; TurnCount := 0; TokenCount := 0; KVCacheSize := 0; LastActivityTime := None |}.

Lemma session_routing_sound_witness :
  let env := toy_env [[up "10.0.0.1"; down "10.0.0.9"]; [up "10.0.0.2"]] [toy_active "10.0.0.1:8000"] in
  let s := foldl session_step toy_session [StepActivity 5 true 10] in
  backed env s (rd_Endpoint (Route (Some (Reconcile env s).2) "s1")) /\ rd_Endpoint (Route (Some (Reconcile env s).2) "s1") = "10.0.0.2:8000".
Proof.
  intros env s. split; [|by vm_compute].
  apply (proj2 (session_routing_sound "prod" "llama" (Some (30 * Minute)) 2 [StepActivity 5 true 10] env s
                  (Some (15 * Minute)) (Reconcile env s).2 "s1" eq_refl ltac:(by vm_compute))). by vm_compute.
Defined.

(** An activity recorded after the last turn makes a completed session active
    again; without the list of sessions every session gets the first endpoint;
    an empty group is ready. *)
Example session_oddities :
  let env all := toy_env [[up "10.0.0.1"]; [up "10.0.0.2"]] all in
  let turns := [StepReconcile (env []); StepActivity 1 true 1; StepActivity 2 true 1; StepReconcile (env [])] in
  let s := foldl session_step toy_session turns in
  Phase (Status s) = SessionPhaseCompleted /\ Phase (Status (session_step s (StepActivity 3 true 1))) = SessionPhaseActive
  /\ selectEndpoint (env [toy_active "10.0.0.1:8000"; toy_active "10.0.0.1:8000"]) = Some "10.0.0.2:8000"
  /\ selectEndpoint (env []) = Some "10.0.0.1:8000"
  /\ grp_Phase (GroupReconcile (fun _ => None) true
       {| Members := []; grp_Phase := ""; ActiveMemberCount := 0; MemberStatuses := [] |}).2 = CoactorGroupReady.
Proof. vm_compute. done. Qed.
