(* ===== verification/StorageSources.v ===== *)
(** * Sources of model artifacts

    [internal/storage/interface.go] and the clients that place the files of a
    listing below a destination: [huggingface_client.go], [s3_client.go],
    [gs_client.go], [github_client.go], [gitlab_client.go] and
    [seaweedfs_client.go].  Files are as in [ParallelDownload]: a map from clean
    paths; creating a file fails when its path is a directory or runs through
    a file.  What a server answers is an argument.  Tokens, messages and the
    tuning of the transfer libraries are left out. *)

From S2P Require Import Prelude GoStrings GoFilepath Sha256 ParallelDownload OCIReference.
From Stdlib Require Import Ascii.

(** ** interface.go *)

Inductive StorageClient :=
  | HuggingFaceClient (baseURL : string)
  | S3Client | GSClient | GitHubClient | GitLabClient
  | SeaweedFSClient (filerURL basePath : string) (connected : bool)   (* whether the HTTP client is set *)
  | ArtifactoryClient | OCIClient | ModelpackClient.

Definition Schemes (c : StorageClient) : list string :=
  match c with
  | HuggingFaceClient _ => ["hf"; "huggingface"]
  | S3Client => ["s3"]
  | GSClient => ["gs"]
  | GitHubClient => ["github"]
  | GitLabClient => ["gitlab"]
  | SeaweedFSClient _ _ _ => ["seaweedfs"; "swfs"]
  | ArtifactoryClient => ["artifactory"]
  | OCIClient => ["oci"; "ocis"]
  | ModelpackClient => ["modelpack"]
  end.

Definition RegisterClient (registry : gmap string StorageClient) (c : StorageClient) : gmap string StorageClient :=
  foldl (fun m s => <[s := c]> m) registry (Schemes c).

Definition GetClient (registry : gmap string StorageClient) (scheme : string) : option StorageClient := registry !! scheme.

Definition defaultHFBaseURL := "https://huggingface.co".

(** The clients the [init] functions register. *)
Definition init_clients : list StorageClient :=
  [ArtifactoryClient; GitHubClient; GitLabClient; GSClient; HuggingFaceClient defaultHFBaseURL; ModelpackClient; OCIClient; S3Client;
   SeaweedFSClient "" "" false].

Definition registry : gmap string StorageClient := foldl RegisterClient ∅ init_clients.

(** ** Writing files *)

Inductive PullErr := InvalidURI | ListFailed | NoFiles | CannotCreate | FetchFailed | FileFailed (e : DownloadErr) | Unverified (names : list string).

(** [os.MkdirAll] and [os.Create] of a path below the destination directory. *)
Definition is_directory (fs : Files) (dest p : string) : bool :=
  (p ==? dest) || existsb (fun q => HasPrefix q (p +:+ "/")) (map_to_list fs).*1.
Definition through_file (fs : Files) (p : string) : bool := existsb (fun q => HasPrefix p (q +:+ "/")) (map_to_list fs).*1.
Definition can_create (fs : Files) (dest p : string) : bool := negb (is_directory fs dest p) && negb (through_file fs p).

(** The body of an object, and whether reading it ended with an error. *)
Definition Object : Type := option (string * bool).

(** ** Hugging Face *)

Record HFTreeEntry := mkTreeEntry { TType : string; TPath : string }.

Record HFEnv := {
  tree : option (Z * option (list HFTreeEntry));        (* the answer of the tree endpoint *)
  model_info : option (Z * option HFModelInfo);         (* the answer of the model endpoint *)
  skip_checksum : string;
  server : string -> Server                             (* by URL *) }.

Definition hf_reference (uri : string) : string * string :=
  let ref := TrimPrefix (TrimPrefix uri "hf://") "huggingface://" in
  default (ref, "main") (cut ref "@").

Definition listRepoFiles (answer : option (Z * option (list HFTreeEntry))) : option (list string) :=
  '(status, decoded) ← answer;
  if status !=? StatusOK then None
  else (fun l => TPath <$> List.filter (fun e => TType e ==? "file") l) <$> decoded.

Fixpoint hf_download (d : ParallelDownloader) (env : HFEnv) (url destPath : string) (checksums : gmap string string)
    (fs : Files) (files : list string) : Files * option PullErr :=
  match files with
  | [] => (fs, None)
  | file :: files =>
      let (fs, err) := DownloadFile d (server env (url +:+ file)) fs (path_Join destPath file) (default "" (checksums !! file)) in
      match err with
      | Some e => (fs, Some (FileFailed e))
      | None => hf_download d env url destPath checksums fs files
      end
  end.

Definition HFPull (d : ParallelDownloader) (env : HFEnv) (baseURL uri destPath : string) (fs : Files) : Files * option PullErr :=
  let '(repo, revision) := hf_reference uri in
  let skipChecksum := (skip_checksum env ==? "1") || (skip_checksum env ==? "true") in
  match listRepoFiles (tree env) with
  | None => (fs, Some ListFailed)
  | Some [] => (fs, Some NoFiles)
  | Some files =>
      let checksums := if skipChecksum then None else FetchFileChecksums (model_info env) in
      let url := baseURL +:+ "/" +:+ repo +:+ "/resolve/" +:+ revision +:+ "/" in
      let (fs, err) := hf_download d env url destPath (default ∅ checksums) fs files in
      match err, checksums with
      | Some e, _ => (fs, Some e)
      | None, None => (fs, None)
      | None, Some sums =>
          match VerifyDirectory fs destPath sums with
          | [] => (fs, None)
          | bad => (fs, Some (Unverified bad))
          end
      end
  end.

(** ** Buckets *)

(** The file an object of a bucket goes to. *)
Definition relative_path (prefix key : string) : string :=
  let relPath := TrimPrefix key prefix in
  if (relPath ==? "") && negb (HasSuffix prefix "/") then Base prefix else relPath.

(** [os.Create] comes before the request: a failed download leaves an empty
    file. *)
Definition s3_object (get : string -> Object) (prefix destPath : string) (fs : Files) (key : string) : Files * option PullErr :=
  let destFile := path_Join destPath (relative_path prefix key) in
  if negb (can_create fs destPath destFile) then (fs, Some CannotCreate)
  else
    match get key with
    | None => (<[destFile := ""]> fs, Some FetchFailed)
    | Some (body, err) => (<[destFile := body]> fs, if err then Some FetchFailed else None)
    end.

Definition gs_object (get : string -> Object) (prefix destPath : string) (fs : Files) (name : string) : Files * option PullErr :=
  let destFile := path_Join destPath (relative_path prefix name) in
  if HasSuffix name "/" then
    (fs, if through_file fs destFile || bool_decide (is_Some (fs !! destFile)) then Some CannotCreate else None)
  else
    match get name with
    | None => (fs, if through_file fs destFile then Some CannotCreate else Some FetchFailed)
    | Some (body, err) =>
        if negb (can_create fs destPath destFile) then (fs, Some CannotCreate)
        else (<[destFile := body]> fs, if err then Some FetchFailed else None)
    end.

(** The objects in the order of the listing until one fails; a page that
    cannot be read ends the listing with an error. *)
Fixpoint each_object (step : Files -> string -> Files * option PullErr) (fs : Files) (listing : list (option string)) : Files * option PullErr :=
  match listing with
  | [] => (fs, None)
  | None :: _ => (fs, Some ListFailed)
  | Some key :: rest =>
      match step fs key with
      | (fs, Some e) => (fs, Some e)
      | (fs, None) => each_object step fs rest
      end
  end.

Definition BucketPull (object : (string -> Object) -> string -> string -> Files -> string -> Files * option PullErr)
    (scheme : string) (listing : string -> string -> list (option string)) (get : string -> Object) (uri destPath : string) (fs : Files)
    : Files * option PullErr :=
  match cut (TrimPrefix uri scheme) "/" with
  | None => (fs, Some InvalidURI)
  | Some (bucket, prefix) => each_object (object get prefix destPath) fs (listing bucket prefix)
  end.

Definition S3Pull := BucketPull s3_object "s3://".
Definition GSPull := BucketPull gs_object "gs://".

(** ** Git hosts *)

Inductive Contents := FileContents (url : string) | DirContents (items : list (string * string * string)).  (* type, path, URL *)

Definition split_revision (ref : string) : string * string :=
  match cut ref "@" with Some (ref, revision) => (ref, revision) | None => (ref, "main") end.

(** A file that is fetched: the status and the body of the answer. *)
Definition download_to (get : string -> option (Z * string * bool)) (destPath rel : string) (fs : Files) (url : string) : Files * option PullErr :=
  match get url with
  | None => (fs, Some FetchFailed)
  | Some (status, body, err) =>
      if status !=? StatusOK then (fs, Some FetchFailed)
      else
        let destFile := path_Join destPath rel in
        if negb (can_create fs destPath destFile) then (fs, Some CannotCreate)
        else (<[destFile := body]> fs, if err then Some FetchFailed else None)
  end.

(** The items of a directory until one fails. *)
Fixpoint each_item (step : Files -> string * string * string -> option (Files * option PullErr)) (fs : Files)
    (items : list (string * string * string)) : option (Files * option PullErr) :=
  match items with
  | [] => Some (fs, None)
  | item :: items =>
      r ← step fs item;
      match r with
      | (fs, Some e) => Some (fs, Some e)
      | (fs, None) => each_item step fs items
      end
  end.

(** [pullRecursive]: the API may list a directory in itself, so the recursion
    has fuel; [None] when it is used up. *)
Fixpoint github_recursive (fuel : nat) (contents : string -> option Contents) (get : string -> option (Z * string * bool))
    (destPath : string) (fs : Files) (path : string) : option (Files * option PullErr) :=
  match fuel with
  | O => None
  | S fuel =>
      match contents path with
      | None => Some (fs, Some ListFailed)
      | Some (FileContents url) => Some (download_to get destPath (Base path) fs url)
      | Some (DirContents items) =>
          each_item (fun fs '(ty, p, url) =>
            if ty ==? "dir" then github_recursive fuel contents get destPath fs p
            else if ty ==? "file" then Some (download_to get destPath p fs url) else Some (fs, None)) fs items
      end
  end.

Definition GitHubPull (fuel : nat) (contents : string -> string -> string -> string -> option Contents)
    (get : string -> option (Z * string * bool)) (uri destPath : string) (fs : Files) : option (Files * option PullErr) :=
  let '(ref, revision) := split_revision (TrimPrefix uri "github://") in
  match cut ref "/" with
  | None => Some (fs, Some InvalidURI)
  | Some (owner, rest) =>
      match cut rest "/" with
      | None => Some (fs, Some InvalidURI)
      | Some (repo, path) => github_recursive fuel (contents owner repo revision) get destPath fs path
      end
  end.

(** What GitLab answers for a path: a file, nothing (404) or an error; then the
    first page of the tree. *)
Inductive GitLabFile := GLFile | GLNotFound | GLError.

Definition gitlab_pull (file : GitLabFile) (tree : option (list (string * string))) (raw : string -> option string)
    (path destPath : string) (fs : Files) : Files * option PullErr :=
  let put fs rel p :=
    match raw p with
    | None => (fs, Some FetchFailed)
    | Some data =>
        let destFile := path_Join destPath rel in
        if negb (can_create fs destPath destFile) then (fs, Some CannotCreate) else (<[destFile := data]> fs, None)
    end in
  match file with
  | GLFile => put fs (Base path) path
  | GLError => (fs, Some ListFailed)
  | GLNotFound =>
      match tree with
      | None => (fs, Some ListFailed)
      | Some nodes => each_object (fun fs p => put fs p p) fs ((fun n => Some n.2) <$> List.filter (fun n => n.1 ==? "blob") nodes)
      end
  end.

Definition GitLabPull (file : string -> string -> string -> GitLabFile) (tree : string -> string -> string -> option (list (string * string)))
    (raw : string -> string -> string -> option string) (uri destPath : string) (fs : Files) : Files * option PullErr :=
  let '(ref, revision) := split_revision (TrimPrefix uri "gitlab://") in
  match cut ref "/" with
  | None => (fs, Some InvalidURI)
  | Some (project, path) => gitlab_pull (file project path revision) (tree project path revision) (raw project revision) path destPath fs
  end.

(** ** SeaweedFS *)

Record SeaweedFSArtifact := mkSeaweed { swRawURI : string; FilerHost : string; swPath : string }.

Definition ParseSeaweedFSURI (uri : string) : option SeaweedFSArtifact :=
  ref ← (if HasPrefix uri "seaweedfs://" then Some (TrimPrefix uri "seaweedfs://")
         else if HasPrefix uri "swfs://" then Some (TrimPrefix uri "swfs://") else None);
  '(host, path) ← cut ref "/";
  Some (mkSeaweed uri host ("/" +:+ path)).

(** [Pull], with the URL it requests; [None] when the HTTP client is nil and
    the request panics. *)
Definition seaweed_pull (filerURL basePath : string) (connected : bool) (get : string -> option (Z * string * bool))
    (uri destPath : string) (fs : Files) : option (Files * option PullErr) :=
  match ParseSeaweedFSURI uri with
  | None => Some (fs, Some InvalidURI)
  | Some a =>
      if negb connected then None
      else Some match get (filerURL +:+ basePath +:+ swPath a) with
                | None => (fs, Some FetchFailed)
                | Some (status, body, err) =>
                    if status !=? StatusOK then (fs, Some FetchFailed)
                    else if is_directory fs "" destPath || through_file fs destPath then (fs, Some CannotCreate)
                    else (<[destPath := body]> fs, if err then Some FetchFailed else None)
                end
  end.

(** ** Where a pull writes *)

(** Nothing outside the paths that begin with [p] is different. *)
Definition only_below (p : string) (fs fs' : Files) : Prop := forall q, HasPrefix q p = false -> fs' !! q = fs !! q.

Lemma only_below_refl p fs : only_below p fs fs.
Proof. done. Qed.

Lemma only_below_trans p fs1 fs2 fs3 : only_below p fs1 fs2 -> only_below p fs2 fs3 -> only_below p fs1 fs3.
Proof. intros H1 H2 q Hq. by rewrite H2, H1. Qed.

Lemma only_below_insert p fs fs' q x : HasPrefix q p = true -> only_below p fs fs' -> only_below p fs (<[q := x]> fs').
Proof. intros Hq H r Hr. rewrite lookup_insert_ne; [by apply H|]. intros ->. congruence. Qed.

Lemma only_below_delete p fs fs' q : HasPrefix q p = true -> only_below p fs fs' -> only_below p fs (delete q fs').
Proof. intros Hq H r Hr. rewrite lookup_delete_ne; [by apply H|]. intros ->. congruence. Qed.

Lemma only_below_rename p fs fs' a b : HasPrefix a p = true -> HasPrefix b p = true -> only_below p fs fs' -> only_below p fs (Rename fs' a b).
Proof. intros Ha Hb H. unfold Rename. destruct (fs' !! a); [|done]. by apply only_below_insert, only_below_delete. Qed.

Lemma only_below_removeall p fs fs' dir : HasPrefix dir p = true -> only_below p fs fs' -> only_below p fs (RemoveAll fs' dir).
Proof.
  intros Hd H q Hq. rewrite <- (H q Hq). unfold RemoveAll. destruct (fs' !! q) as [x|] eqn:E.
  - apply map_lookup_filter_Some. split; [done|]. simpl. unfold under. apply orb_false_iff. split.
    + apply bool_decide_eq_false. intros ->. congruence.
    + destruct (HasPrefix q (dir +:+ "/")) eqn:Ep; [|done]. exfalso.
      assert (HasPrefix q p = true); [|congruence]. apply (prefix_trans p dir); [done|].
      apply (prefix_trans dir (dir +:+ "/")); [apply HasPrefix_app|done].
  - apply map_lookup_filter_None. by left.
Qed.

#[local] Hint Resolve only_below_refl only_below_insert only_below_delete only_below_rename only_below_removeall HasPrefix_app : storage.

Lemma HasPrefix_refl s : HasPrefix s s = true.
Proof. unfold HasPrefix. induction s as [|c s IH]; [done|]. cbn [String.prefix]. by destruct (ascii_dec c c). Qed.

Lemma downloadChunk_below srv fs c p : HasPrefix (ParallelDownload.Path c) p = true -> only_below p fs (downloadChunk srv fs c).1.
Proof.
  intros Hc. assert (HasPrefix (ParallelDownload.Path c +:+ ".partial") p = true) as Ht
    by (eapply prefix_trans; [exact Hc|apply HasPrefix_app]).
  unfold downloadChunk. repeat case_match; cbn [fst]; eauto with storage.
Qed.

Lemma download_all_below srv cs p fs : Forall (fun c => HasPrefix (ParallelDownload.Path c) p = true) cs ->
  only_below p fs (download_all srv fs cs).1.
Proof.
  intros Hc. revert fs. induction Hc as [|c cs Hc Hcs IH]; intros fs; [done|]. cbn [download_all].
  pose proof (downloadChunk_below srv fs c p Hc) as H1. destruct (downloadChunk srv fs c) as [fs1 ok].
  specialize (IH fs1). destruct (download_all srv fs1 cs) as [fs2 failed]. cbn in *. by eapply only_below_trans.
Qed.

Lemma build_chunks_paths fuel cs size dir i offset l :
  build_chunks fuel cs size dir i offset = Some l -> Forall (fun c => HasPrefix (ParallelDownload.Path c) dir = true) l.
Proof.
  revert i offset l. induction fuel as [|fuel IH]; intros i offset l; cbn [build_chunks]; case_bool_decide; try discriminate;
    try (intros [= <-]; constructor).
  destruct (build_chunks fuel cs size dir _ _) as [rest|] eqn:E; [|discriminate]. intros [= <-].
  constructor; [|by eapply IH]. apply HasPrefix_app.
Qed.

(** A download changes only its file and the files next to it whose names
    begin with its name. *)
Lemma download_below d srv fs destFile sum : only_below destFile fs (DownloadFile d srv fs destFile sum).1.
Proof.
  unfold DownloadFile. destruct (probeFile srv) as [[n ranges]|]; [|done].
  assert (only_below destFile fs (if (n >=? LargeFileThreshold) && ranges then downloadChunked d srv fs destFile n else downloadSimple srv fs destFile).1) as H.
  { destruct (_ && _).
    - unfold downloadChunked. destruct (build_chunks _ _ _ _ _ _) as [chunks|] eqn:E; [|done].
      apply build_chunks_paths in E.
      assert (Forall (fun c => HasPrefix (ParallelDownload.Path c) destFile = true) (toDownload fs chunks)) as Hc.
      { apply Forall_forall. intros c Hc. unfold toDownload in Hc. apply list_elem_of_filter in Hc as [_ Hc].
        eapply Forall_forall in E; [|exact Hc]. eapply prefix_trans; [|exact E]. apply HasPrefix_app. }
      pose proof (download_all_below srv _ _ fs Hc) as Hd. destruct (download_all _ _ _) as [fs1 failed]. cbn in Hd.
      destruct failed; cbn; [|done]. destruct (assemble fs1 chunks); cbn; eauto using HasPrefix_refl with storage.
    - unfold downloadSimple. repeat case_match; cbn; eauto using HasPrefix_refl with storage. }
  destruct (if _ : bool then _ else _) as [fs1 [e|]]; cbn in *; [done|].
  destruct (_ !=? _); [|done]. destruct (VerifyFile _ _ _); cbn; [|done].
  by apply only_below_delete; [apply HasPrefix_refl|].
Qed.

(** The names a source lists for a bucket are files below its prefix. *)
Definition bucket_names (prefix : string) (listing : list (option string)) : Prop :=
  forall key, Some key ∈ listing -> names_file (relative_path prefix key).

Section Contained.

Context (destPath : string) (l : list string) (Hdest : clean_dir destPath l).

#[local] Notation inside := (only_below (destPath +:+ "/")).

Lemma joined_below rel q : names_file rel -> HasPrefix q (path_Join destPath rel) = true -> HasPrefix q (destPath +:+ "/") = true.
Proof.
  intros Hr Hq. destruct (join_inside destPath l rel Hdest Hr) as [r Er]. rewrite Er, string_app_assoc in Hq.
  eapply prefix_trans; [|exact Hq]. apply HasPrefix_app.
Qed.

Lemma only_below_joined rel fs fs' : names_file rel -> only_below (path_Join destPath rel) fs fs' -> inside fs fs'.
Proof.
  intros Hr H q Hq. apply H. destruct (HasPrefix q (path_Join destPath rel)) eqn:E; [|done].
  rewrite (joined_below rel q Hr E) in Hq. discriminate.
Qed.

Lemma inserted_inside rel fs x : names_file rel -> inside fs (<[path_Join destPath rel := x]> fs).
Proof. intros Hr. apply (only_below_joined rel); [done|]. by apply only_below_insert; [apply HasPrefix_refl|]. Qed.

#[local] Hint Resolve inserted_inside : storage.

Lemma hf_download_inside d env url sums files fs :
  (forall f, f ∈ files -> names_file f) -> inside fs (hf_download d env url destPath sums fs files).1.
Proof.
  revert fs. induction files as [|f files IH]; intros fs Hf; [done|]. cbn [hf_download].
  pose proof (download_below d (server env (url +:+ f)) fs (path_Join destPath f) (default "" (sums !! f))) as H1.
  destruct (DownloadFile _ _ _ _ _) as [fs1 err]. cbn in H1.
  apply (only_below_joined f) in H1; [|apply Hf; left]. destruct err; [done|].
  eapply only_below_trans; [exact H1|]. apply IH. intros g Hg. apply Hf. by right.
Qed.

Lemma each_object_inside step fs listing :
  (forall fs key, Some key ∈ listing -> inside fs (step fs key).1) -> inside fs (each_object step fs listing).1.
Proof.
  revert fs. induction listing as [|[key|] listing IH]; intros fs Hs; [done| |done]. cbn [each_object].
  pose proof (Hs fs key ltac:(left)) as H1. destruct (step fs key) as [fs1 [e|]]; cbn in *; [done|].
  eapply only_below_trans; [exact H1|]. apply IH. intros fs2 k Hk. apply Hs. by right.
Qed.

Lemma download_to_inside get rel fs url : names_file rel -> inside fs (download_to get destPath rel fs url).1.
Proof. intros Hr. unfold download_to. repeat case_match; cbn; eauto with storage. Qed.

Lemma each_item_inside step fs items r :
  (forall fs item r, item ∈ items -> step fs item = Some r -> inside fs r.1) -> each_item step fs items = Some r -> inside fs r.1.
Proof.
  revert fs. induction items as [|item items IH]; intros fs Hs; cbn [each_item]; [by intros [= <-]|].
  destruct (step fs item) as [[fs1 e]|] eqn:Es; [|discriminate]. cbn [mbind option_bind].
  pose proof (Hs fs item _ ltac:(left) Es) as H1. cbn in H1. destruct e; [by intros [= <-]|].
  intros Hr. eapply only_below_trans; [exact H1|]. apply IH; [|done]. intros fs2 i r2 Hi. apply Hs. by right.
Qed.

Lemma github_inside fuel contents get path fs r :
  (forall p url, contents p = Some (FileContents url) -> names_file (Base p)) ->
  (forall p items i, contents p = Some (DirContents items) -> i ∈ items -> names_file i.1.2) ->
  github_recursive fuel contents get destPath fs path = Some r -> inside fs r.1.
Proof.
  intros Hf Hd. revert fs path r. induction fuel as [|fuel IH]; intros fs path r; [discriminate|].
  cbn [github_recursive]. destruct (contents path) as [[url|items]|] eqn:Ec; [| |by intros [= <-]].
  - intros [= <-]. apply download_to_inside. by eapply Hf.
  - apply each_item_inside. intros fs1 [[ty p] url] r1 Hi. specialize (Hd path items _ Ec Hi). cbn in Hd.
    destruct (ty ==? "dir"); [by apply IH|]. destruct (ty ==? "file"); intros [= <-]; [by apply download_to_inside|done].
Qed.

(** Every source writes only files below the destination, whatever its
    server answers and however the pull ends, as long as the names it lists
    are names of files without ".." elements. *)
Theorem pulls_stay_inside fs :
  (forall d env baseURL uri,
     (forall files f, listRepoFiles (tree env) = Some files -> f ∈ files -> names_file f) ->
     inside fs (HFPull d env baseURL uri destPath fs).1)
  /\ (forall object scheme listing get uri,
        object = s3_object \/ object = gs_object ->
        (forall bucket prefix, bucket_names prefix (listing bucket prefix)) ->
        inside fs (BucketPull object scheme listing get uri destPath fs).1)
  /\ (forall file tree raw path,
        names_file (Base path) -> (forall nodes n, tree = Some nodes -> n ∈ nodes -> names_file n.2) ->
        inside fs (gitlab_pull file tree raw path destPath fs).1)
  /\ (forall fuel contents get path r,
        (forall p url, contents p = Some (FileContents url) -> names_file (Base p)) ->
        (forall p items i, contents p = Some (DirContents items) -> i ∈ items -> names_file i.1.2) ->
        github_recursive fuel contents get destPath fs path = Some r -> inside fs r.1).
Proof.
  split; [|split; [|split]].
  - intros d env baseURL uri Hn. unfold HFPull. destruct (hf_reference uri) as [repo revision].
    destruct (listRepoFiles (tree env)) as [files|] eqn:E; [|done]. destruct files as [|f files]; [done|].
    match goal with |- context [hf_download ?d ?e ?u ?p ?s ?fs ?l] =>
      pose proof (hf_download_inside d e u s l fs (fun g => Hn _ g eq_refl)) as H; destruct (hf_download d e u p s fs l) as [fs1 [e1|]] end;
      cbn in H |- *; [done|]. by repeat case_match.
  - intros object scheme listing get uri Ho Hn. unfold BucketPull. destruct (cut _ "/") as [[bucket prefix]|]; [|done].
    apply each_object_inside. intros fs1 key Hk. specialize (Hn bucket prefix key Hk).
    destruct Ho as [-> | ->]; [unfold s3_object|unfold gs_object]; repeat case_match; cbn; eauto with storage.
  - intros file tr raw path Hb Hn. unfold gitlab_pull. destruct file; [|destruct tr as [nodes|]; [|done]|done].
    + repeat case_match; cbn; eauto with storage.
    + apply each_object_inside. intros fs1 key Hk. apply list_elem_of_fmap in Hk as (n & [= ->] & Hin).
      apply list_elem_of_In, filter_In in Hin as [Hin _]. apply list_elem_of_In in Hin. specialize (Hn nodes n eq_refl Hin).
      repeat case_match; cbn; eauto with storage.
  - intros fuel contents get path r. apply github_inside.
Qed.

End Contained.

(** A pull from Hugging Face that succeeds with the checksums at hand leaves no
    file with another content than its checksum says. *)
Lemma hf_pull_verified d env baseURL uri destPath fs sums :
  skip_checksum env <> "1" -> skip_checksum env <> "true" -> FetchFileChecksums (model_info env) = Some sums ->
  (HFPull d env baseURL uri destPath fs).2 = None ->
  forall name sum x, sums !! name = Some sum -> (HFPull d env baseURL uri destPath fs).1 !! path_Join destPath name = Some x ->
    sha256_hex x = ToLower sum.
Proof.
  intros H1 H2 Hs. unfold HFPull. destruct (hf_reference uri) as [repo revision].
  destruct (listRepoFiles (tree env)) as [[|f files]|]; [done| |done].
  rewrite !bool_decide_false, Hs by done. cbn [orb].
  destruct (hf_download _ _ _ _ _ _ _) as [fs1 [e|]]; [done|].
  destruct (VerifyDirectory fs1 destPath sums) eqn:Ev; [|done]. intros _. by apply verify_directory_iff.
Qed.

(** Every scheme is served by one client. *)
Lemma registry_schemes s c : GetClient registry s = Some c <-> c ∈ init_clients /\ s ∈ Schemes c.
Proof.
  unfold GetClient. split.
  - intros H. assert (forall k v, (k, v) ∈ map_to_list registry -> v ∈ init_clients /\ k ∈ Schemes v) as Ha.
    { intros k v Hkv. assert (Forall (fun kv => kv.2 ∈ init_clients /\ kv.1 ∈ Schemes kv.2) (map_to_list registry)) as Hf.
      { let l := eval vm_compute in (map_to_list registry) in change (map_to_list registry) with l.
        repeat constructor; cbn; set_solver. }
      by eapply Forall_forall in Hf; [|exact Hkv]. }
    apply Ha. by apply elem_of_map_to_list.
  - intros [Hc Hs]. unfold init_clients in Hc. rewrite !elem_of_cons in Hc.
    repeat destruct Hc as [->|Hc]; [..|by apply not_elem_of_nil in Hc]; cbn in Hs; rewrite ?elem_of_cons in Hs;
      repeat destruct Hs as [->|Hs]; try (by apply not_elem_of_nil in Hs); by vm_compute.
Qed.

(** ** Concrete pulls *)

Lemma demo_dest : clean_dir "/mnt/models" ["mnt"; "models"].
Proof. split; [done|]. split; [done|]. repeat constructor; by vm_compute. Qed.

Lemma plain_name s : no_parent s -> plain s = true -> Split s "/" = [s] -> names_file s.
Proof. intros H1 H2 H3. split; [done|]. exists s. rewrite H3. split; [left|done]. Qed.

Definition demo_listing (bucket prefix : string) : list (option string) :=
  if prefix ==? "m/" then [Some "m/a.bin"; Some "m/b.bin"; None] else [].

Lemma pulls_stay_inside_witness :
  only_below "/mnt/models/" ∅ (S3Pull demo_listing (fun _ => Some ("x", false)) "s3://b/m/" "/mnt/models" ∅).1
  /\ S3Pull demo_listing (fun _ => Some ("x", false)) "s3://b/m/" "/mnt/models" ∅
     = ({["/mnt/models/a.bin" := "x"; "/mnt/models/b.bin" := "x"]}, Some ListFailed).
Proof.
  split; [|by vm_compute].
  apply (proj1 (proj2 (pulls_stay_inside "/mnt/models" ["mnt"; "models"] demo_dest ∅)) s3_object "s3://"); [by left|].
  intros bucket prefix key Hk. unfold demo_listing in Hk. case_bool_decide as E; [|by apply not_elem_of_nil in Hk]. subst prefix.
  rewrite !elem_of_cons in Hk. destruct Hk as [[= ->]|[[= ->]|[Hk|Hk]]]; [..|discriminate|by apply not_elem_of_nil in Hk];
    (split; [intros Hin; vm_compute in Hin; by repeat (apply elem_of_cons in Hin as [Hin|Hin]; [discriminate|]); apply not_elem_of_nil in Hin|]).
  - exists "a.bin". split; [by vm_compute; left|by vm_compute].
  - exists "b.bin". split; [by vm_compute; left|by vm_compute].
Defined.

(** A listed name with ".." elements leaves the destination; a prefix also
    matches its siblings; the marker of a folder makes a pull from S3 fail,
    first as the destination itself, then as a file in the way; the registered
    SeaweedFS client has no HTTP client; and a repository that lists a
    directory in itself is never done. *)
Example storage_oddities :
  let s3 := fun keys => S3Pull (fun _ _ => Some <$> keys) (fun _ => Some ("x", false)) in
  (s3 ["m/../../../etc/cron.d/x"] "s3://b/m" "/mnt/models" ∅).1 = {["/etc/cron.d/x" := "x"]}
  /\ (s3 ["llama2/w"] "s3://b/llama" "/mnt/models" ∅).1 = {["/mnt/models/2/w" := "x"]}
  /\ (s3 ["m/"; "m/w"] "s3://b/m/" "/mnt/models" ∅).2 = Some CannotCreate
  /\ s3 ["m/sub/"; "m/sub/w"] "s3://b/m/" "/mnt/models" ∅ = ({["/mnt/models/sub" := "x"]}, Some CannotCreate)
  /\ match GetClient registry "seaweedfs" with
     | Some (SeaweedFSClient url base conn) => seaweed_pull url base conn (fun _ => None) "seaweedfs://filer:8888/m" "/mnt/models" ∅ = None
     | _ => False
     end
  /\ github_recursive 50 (fun _ => Some (DirContents [("dir", "d", "")])) (fun _ => None) "/mnt/models" ∅ "d" = None
  /\ GetClient registry "hf-mirror" = None.
Proof. vm_compute. done. Qed.
