(* ===== verification/K8sObjects.v ===== *)
(** * Kubernetes objects

    The Kubernetes library types with the fields the deployment builder and the
    controllers of LLMInferenceService read and write.  The rest of an object
    is an [Opaque] value that is carried along.  A slice is a list and a map a
    finite map: nothing here tells a nil one from an empty one.  A quantity is a
    number of nano-units.  [DeepEqual] is [equality.Semantic.DeepEqual], an
    equivalence on every type.  The instances of [K8s] and [Pods] make the API
    types carry these objects. *)

From S2P Require Import Prelude K8s K8sPods.

Notation Q := Z (only parsing).

(** ** Semantic equality *)

Class DeepEqual (A : Type) := deep_equal : A -> A -> bool.
#[global] Hint Mode DeepEqual ! : typeclass_instances.

Class DeepEqualLaws (A : Type) `{DeepEqual A} : Prop :=
  deep_equiv :: Equivalence (fun a b : A => deep_equal a b = true).

Lemma deep_refl `{DeepEqualLaws A} (a : A) : deep_equal a a = true.
Proof. apply (@Equivalence_Reflexive _ _ (deep_equiv (A := A))). Qed.

Lemma deep_sym `{DeepEqualLaws A} (a b : A) : deep_equal a b = true -> deep_equal b a = true.
Proof. apply (@Equivalence_Symmetric _ _ (deep_equiv (A := A)) a b). Qed.

Lemma deep_trans `{DeepEqualLaws A} (a b c : A) : deep_equal a b = true -> deep_equal b c = true -> deep_equal a c = true.
Proof. apply (@Equivalence_Transitive _ _ (deep_equiv (A := A)) a b c). Qed.

(** Values that are compared as they are. *)
Definition deep_eq_dec {A} `{EqDecision A} : DeepEqual A := fun a b => bool_decide (a = b).

Lemma deep_eq_dec_laws {A} `{EqDecision A} : @DeepEqualLaws A deep_eq_dec.
Proof.
  split; unfold deep_equal, deep_eq_dec; [intros a|intros a b|intros a b c]; rewrite !bool_decide_eq_true; congruence.
Qed.

#[global] Instance deep_string : DeepEqual string := deep_eq_dec.
#[global] Instance deep_string_laws : DeepEqualLaws string := deep_eq_dec_laws.
#[global] Instance deep_Z : DeepEqual Z := deep_eq_dec.
#[global] Instance deep_Z_laws : DeepEqualLaws Z := deep_eq_dec_laws.
#[global] Instance deep_bool : DeepEqual bool := deep_eq_dec.
#[global] Instance deep_bool_laws : DeepEqualLaws bool := deep_eq_dec_laws.
#[global] Instance deep_map `{EqDecision A} : DeepEqual (gmap string A) := deep_eq_dec.
#[global] Instance deep_map_laws `{EqDecision A} : DeepEqualLaws (gmap string A) := deep_eq_dec_laws.

(** A pointer: nil, or a value. *)
#[global] Instance deep_option `{DeepEqual A} : DeepEqual (option A) := fun a b =>
  match a, b with
  | Some a, Some b => deep_equal a b
  | None, None => true
  | _, _ => false
  end.

#[global] Instance deep_option_laws `{DeepEqualLaws A} : DeepEqualLaws (option A).
Proof.
  split; [intros [a|]|intros [a|] [b|]|intros [a|] [b|] [c|]]; cbn; try done.
  - apply deep_refl.
  - apply deep_sym.
  - apply deep_trans.
Qed.

(** A slice: element by element. *)
#[global] Instance deep_list `{DeepEqual A} : DeepEqual (list A) := fix go l1 l2 :=
  match l1, l2 with
  | [], [] => true
  | a :: l1, b :: l2 => deep_equal a b && go l1 l2
  | _, _ => false
  end.

#[global] Instance deep_list_laws `{DeepEqualLaws A} : DeepEqualLaws (list A).
Proof.
  split.
  - intros l. induction l as [|a l IH]; [done|]. cbn. by rewrite deep_refl.
  - intros l. induction l as [|a l IH]; intros [|b l2]; cbn; try done. rewrite !andb_true_iff.
    intros [Ha Hl]. split; [by apply deep_sym|by apply IH].
  - intros l. induction l as [|a l IH]; intros [|b l2] [|c l3]; cbn; try done. rewrite !andb_true_iff.
    intros [Ha Hl] [Hb Hl2]. split; [by apply (deep_trans a b)|by apply (IH l2)].
Qed.

#[global] Instance deep_prod `{DeepEqual A} `{DeepEqual B} : DeepEqual (A * B) := fun a b =>
  deep_equal a.1 b.1 && deep_equal a.2 b.2.

#[global] Instance deep_sum `{DeepEqual A} `{DeepEqual B} : DeepEqual (A + B) := fun a b =>
  match a, b with
  | inl a, inl b => deep_equal a b
  | inr a, inr b => deep_equal a b
  | _, _ => false
  end.

#[global] Instance deep_sum_laws `{DeepEqualLaws A} `{DeepEqualLaws B} : DeepEqualLaws (A + B).
Proof.
  split; [intros [a|a]|intros [a|a] [b|b]|intros [a|a] [b|b] [c|c]]; cbn; try done;
    try apply deep_refl; try apply deep_sym; apply deep_trans.
Qed.

(** The fields of a struct, one after the other. *)
Definition deep_on {A B} `{DeepEqual B} (f : A -> B) (a b : A) : bool := deep_equal (f a) (f b).

#[global] Instance deep_on_equiv {A B} `{DeepEqualLaws B} (f : A -> B) : Equivalence (fun a b => deep_on f a b = true).
Proof.
  unfold deep_on. split; [intros a; apply deep_refl|intros a b; apply deep_sym|intros a b c; apply deep_trans].
Qed.

#[global] Instance deep_and_equiv {A} (r s : A -> A -> bool) :
  Equivalence (fun a b => r a b = true) -> Equivalence (fun a b => s a b = true) -> Equivalence (fun a b => r a b && s a b = true).
Proof.
  intros R S. split; [intros a|intros a b|intros a b c]; rewrite !andb_true_iff.
  - split; [apply (@Equivalence_Reflexive _ _ R)|apply (@Equivalence_Reflexive _ _ S)].
  - intros [H1 H2]. split; [by apply (@Equivalence_Symmetric _ _ R)|by apply (@Equivalence_Symmetric _ _ S)].
  - intros [H1 H2] [H3 H4]. split; [by apply (@Equivalence_Transitive _ _ R a b c)|by apply (@Equivalence_Transitive _ _ S a b c)].
Qed.

#[global] Instance deep_prod_laws `{DeepEqualLaws A} `{DeepEqualLaws B} : DeepEqualLaws (A * B) :=
  deep_and_equiv _ _ (deep_on_equiv fst) (deep_on_equiv snd).

(** Object metadata: the fields that are read. *)
Record Meta := mkMeta {
  Meta_Name : string;
  Meta_Namespace : string;
  Meta_Labels : gmap string string;
  Meta_Annotations : gmap string string;
  Meta_Generation : Z;
  Meta_Finalizers : list string;
  Meta_Deleted : bool }.
Definition set_Meta_Finalizers (x : Meta) (v : list string) : Meta := mkMeta (Meta_Name x) (Meta_Namespace x) (Meta_Labels x) (Meta_Annotations x) (Meta_Generation x) v (Meta_Deleted x).

(** [metav1.Condition] without its message. *)
Record Cond := mkCond {
  Condition_Type_ : string;
  Condition_Status : string;
  Condition_Reason : string;
  Condition_ObservedGeneration : Z;
  Condition_LastTransitionTime : option Time }.
Definition set_Condition_LastTransitionTime (x : Cond) (v : option Time) : Cond := mkCond (Condition_Type_ x) (Condition_Status x) (Condition_Reason x) (Condition_ObservedGeneration x) v.

(** ** Pods *)

(** The parts of library objects that are only carried along. *)
Class Carried := {
  Opaque : Type;
  no_Opaque : Opaque;
  deep_Opaque :: DeepEqual Opaque;
  deep_Opaque_laws :: DeepEqualLaws Opaque }.

Section Pods.

Context {CR : Carried}.

Inductive EnvVarSource := ConfigMapKeyRef (name key : string) | OtherEnvSource (o : Opaque).
Inductive EnvFromSource := SecretRefEnv (name : string) | OtherEnvFrom (o : Opaque).

Inductive VolumeSource :=
  | HostPath (path : string)               (* DirectoryOrCreate *)
  | CSI (driver : string) (readOnly : bool) (attributes : gmap string string)
  | PersistentVolumeClaim (claim : string) (* read-only *)
  | EmptyDir (limit : option Q)
  | ConfigMapVolume (name : string)        (* mode 0644 *)
  | OtherVolume (o : Opaque).

Inductive Handler := ExecHandler (command : list string) | OtherHandler (o : Opaque).
Inductive Probe := HTTPProbe (path : string) (port delay period failure success : Z) | OtherProbe (o : Opaque).
Inductive NodeSelector := HostnameIn (nodes : list string) | OtherSelector (o : Opaque).
Inductive PodSecurity := RestrictedPod (fsGroup : Z) (nonRoot : bool) (seccomp : string) | OtherPodSecurity (o : Opaque).
Inductive SpreadConstraint :=
  | ScheduleAnyway (maxSkew : Z) (topologyKey : string) (labels : gmap string string)
  | OtherSpread (o : Opaque).
Inductive Strategy := Recreate | RollingUpdate (maxUnavailable maxSurge : Z).

Record EnvVar_t := mkEnvVar_t {
  EnvVar_Name : string;
  EnvVar_Value : string;
  EnvVar_ValueFrom : option EnvVarSource }.
Definition set_EnvVar_Value (x : EnvVar_t) (v : string) : EnvVar_t := mkEnvVar_t (EnvVar_Name x) v (EnvVar_ValueFrom x).

Record VolumeMount := mkVolumeMount {
  VolumeMount_Name : string;
  VolumeMount_MountPath : string;
  VolumeMount_SubPath : string;
  VolumeMount_ReadOnly : bool;
  VolumeMount_rest : Opaque }.
Definition set_VolumeMount_MountPath (x : VolumeMount) (v : string) : VolumeMount := mkVolumeMount (VolumeMount_Name x) v (VolumeMount_SubPath x) (VolumeMount_ReadOnly x) (VolumeMount_rest x).
Definition set_VolumeMount_SubPath (x : VolumeMount) (v : string) : VolumeMount := mkVolumeMount (VolumeMount_Name x) (VolumeMount_MountPath x) v (VolumeMount_ReadOnly x) (VolumeMount_rest x).
Definition set_VolumeMount_ReadOnly (x : VolumeMount) (v : bool) : VolumeMount := mkVolumeMount (VolumeMount_Name x) (VolumeMount_MountPath x) (VolumeMount_SubPath x) v (VolumeMount_rest x).

Record Volume := mkVolume {
  Volume_Name : string;
  Volume_Source : VolumeSource }.

Record ResourceRequirements := mkResourceRequirements {
  Resources_Requests : gmap string Q;
  Resources_Limits : gmap string Q;
  Resources_rest : Opaque }.
Definition set_Resources_Requests (x : ResourceRequirements) (v : gmap string Q) : ResourceRequirements := mkResourceRequirements v (Resources_Limits x) (Resources_rest x).
Definition set_Resources_Limits (x : ResourceRequirements) (v : gmap string Q) : ResourceRequirements := mkResourceRequirements (Resources_Requests x) v (Resources_rest x).

Record SecurityContext := mkSecurityContext {
  Security_RunAsUser : option Z;
  Security_RunAsGroup : option Z;
  Security_RunAsNonRoot : option bool;
  Security_ReadOnlyRootFilesystem : option bool;
  Security_AllowPrivilegeEscalation : option bool;
  Security_DropCapabilities : option (list string);
  Security_SeccompProfile : option string;
  Security_rest : Opaque }.

Record PodContainer := mkPodContainer {
  Container_Name : string;
  Container_Image : string;
  Container_Command : list string;
  Container_Args : list string;
  Container_Env : list EnvVar_t;
  Container_EnvFrom : list EnvFromSource;
  Container_Ports : list ContainerPort;
  Container_Resources : ResourceRequirements;
  Container_VolumeMounts : list VolumeMount;
  Container_PreStop : option Handler;
  Container_StartupProbe : option Probe;
  Container_ReadinessProbe : option Probe;
  Container_LivenessProbe : option Probe;
  Container_SecurityContext : option SecurityContext;
  Container_rest : Opaque }.
Definition set_Container_Image (x : PodContainer) (v : string) : PodContainer := mkPodContainer (Container_Name x) v (Container_Command x) (Container_Args x) (Container_Env x) (Container_EnvFrom x) (Container_Ports x) (Container_Resources x) (Container_VolumeMounts x) (Container_PreStop x) (Container_StartupProbe x) (Container_ReadinessProbe x) (Container_LivenessProbe x) (Container_SecurityContext x) (Container_rest x).
Definition set_Container_Command (x : PodContainer) (v : list string) : PodContainer := mkPodContainer (Container_Name x) (Container_Image x) v (Container_Args x) (Container_Env x) (Container_EnvFrom x) (Container_Ports x) (Container_Resources x) (Container_VolumeMounts x) (Container_PreStop x) (Container_StartupProbe x) (Container_ReadinessProbe x) (Container_LivenessProbe x) (Container_SecurityContext x) (Container_rest x).
Definition set_Container_Args (x : PodContainer) (v : list string) : PodContainer := mkPodContainer (Container_Name x) (Container_Image x) (Container_Command x) v (Container_Env x) (Container_EnvFrom x) (Container_Ports x) (Container_Resources x) (Container_VolumeMounts x) (Container_PreStop x) (Container_StartupProbe x) (Container_ReadinessProbe x) (Container_LivenessProbe x) (Container_SecurityContext x) (Container_rest x).
Definition set_Container_Env (x : PodContainer) (v : list EnvVar_t) : PodContainer := mkPodContainer (Container_Name x) (Container_Image x) (Container_Command x) (Container_Args x) v (Container_EnvFrom x) (Container_Ports x) (Container_Resources x) (Container_VolumeMounts x) (Container_PreStop x) (Container_StartupProbe x) (Container_ReadinessProbe x) (Container_LivenessProbe x) (Container_SecurityContext x) (Container_rest x).
Definition set_Container_EnvFrom (x : PodContainer) (v : list EnvFromSource) : PodContainer := mkPodContainer (Container_Name x) (Container_Image x) (Container_Command x) (Container_Args x) (Container_Env x) v (Container_Ports x) (Container_Resources x) (Container_VolumeMounts x) (Container_PreStop x) (Container_StartupProbe x) (Container_ReadinessProbe x) (Container_LivenessProbe x) (Container_SecurityContext x) (Container_rest x).
Definition set_Container_Ports (x : PodContainer) (v : list ContainerPort) : PodContainer := mkPodContainer (Container_Name x) (Container_Image x) (Container_Command x) (Container_Args x) (Container_Env x) (Container_EnvFrom x) v (Container_Resources x) (Container_VolumeMounts x) (Container_PreStop x) (Container_StartupProbe x) (Container_ReadinessProbe x) (Container_LivenessProbe x) (Container_SecurityContext x) (Container_rest x).
Definition set_Container_Resources (x : PodContainer) (v : ResourceRequirements) : PodContainer := mkPodContainer (Container_Name x) (Container_Image x) (Container_Command x) (Container_Args x) (Container_Env x) (Container_EnvFrom x) (Container_Ports x) v (Container_VolumeMounts x) (Container_PreStop x) (Container_StartupProbe x) (Container_ReadinessProbe x) (Container_LivenessProbe x) (Container_SecurityContext x) (Container_rest x).
Definition set_Container_VolumeMounts (x : PodContainer) (v : list VolumeMount) : PodContainer := mkPodContainer (Container_Name x) (Container_Image x) (Container_Command x) (Container_Args x) (Container_Env x) (Container_EnvFrom x) (Container_Ports x) (Container_Resources x) v (Container_PreStop x) (Container_StartupProbe x) (Container_ReadinessProbe x) (Container_LivenessProbe x) (Container_SecurityContext x) (Container_rest x).
Definition set_Container_PreStop (x : PodContainer) (v : option Handler) : PodContainer := mkPodContainer (Container_Name x) (Container_Image x) (Container_Command x) (Container_Args x) (Container_Env x) (Container_EnvFrom x) (Container_Ports x) (Container_Resources x) (Container_VolumeMounts x) v (Container_StartupProbe x) (Container_ReadinessProbe x) (Container_LivenessProbe x) (Container_SecurityContext x) (Container_rest x).
Definition set_Container_StartupProbe (x : PodContainer) (v : option Probe) : PodContainer := mkPodContainer (Container_Name x) (Container_Image x) (Container_Command x) (Container_Args x) (Container_Env x) (Container_EnvFrom x) (Container_Ports x) (Container_Resources x) (Container_VolumeMounts x) (Container_PreStop x) v (Container_ReadinessProbe x) (Container_LivenessProbe x) (Container_SecurityContext x) (Container_rest x).
Definition set_Container_ReadinessProbe (x : PodContainer) (v : option Probe) : PodContainer := mkPodContainer (Container_Name x) (Container_Image x) (Container_Command x) (Container_Args x) (Container_Env x) (Container_EnvFrom x) (Container_Ports x) (Container_Resources x) (Container_VolumeMounts x) (Container_PreStop x) (Container_StartupProbe x) v (Container_LivenessProbe x) (Container_SecurityContext x) (Container_rest x).
Definition set_Container_LivenessProbe (x : PodContainer) (v : option Probe) : PodContainer := mkPodContainer (Container_Name x) (Container_Image x) (Container_Command x) (Container_Args x) (Container_Env x) (Container_EnvFrom x) (Container_Ports x) (Container_Resources x) (Container_VolumeMounts x) (Container_PreStop x) (Container_StartupProbe x) (Container_ReadinessProbe x) v (Container_SecurityContext x) (Container_rest x).
Definition set_Container_SecurityContext (x : PodContainer) (v : option SecurityContext) : PodContainer := mkPodContainer (Container_Name x) (Container_Image x) (Container_Command x) (Container_Args x) (Container_Env x) (Container_EnvFrom x) (Container_Ports x) (Container_Resources x) (Container_VolumeMounts x) (Container_PreStop x) (Container_StartupProbe x) (Container_ReadinessProbe x) (Container_LivenessProbe x) v (Container_rest x).

Record AffinityT := mkAffinityT {
  Affinity_RequiredNodes : option NodeSelector;
  Affinity_rest : Opaque }.

Record PodSpec := mkPodSpec {
  PodSpec_Containers : list PodContainer;
  PodSpec_InitContainers : list PodContainer;
  PodSpec_Volumes : list Volume;
  PodSpec_Affinity : option AffinityT;
  PodSpec_Tolerations : list Opaque;
  PodSpec_TerminationGracePeriodSeconds : option Z;
  PodSpec_SecurityContext : option PodSecurity;
  PodSpec_TopologySpreadConstraints : list SpreadConstraint;
  PodSpec_HostIPC : bool;
  PodSpec_rest : Opaque }.
Definition set_PodSpec_Containers (x : PodSpec) (v : list PodContainer) : PodSpec := mkPodSpec v (PodSpec_InitContainers x) (PodSpec_Volumes x) (PodSpec_Affinity x) (PodSpec_Tolerations x) (PodSpec_TerminationGracePeriodSeconds x) (PodSpec_SecurityContext x) (PodSpec_TopologySpreadConstraints x) (PodSpec_HostIPC x) (PodSpec_rest x).
Definition set_PodSpec_InitContainers (x : PodSpec) (v : list PodContainer) : PodSpec := mkPodSpec (PodSpec_Containers x) v (PodSpec_Volumes x) (PodSpec_Affinity x) (PodSpec_Tolerations x) (PodSpec_TerminationGracePeriodSeconds x) (PodSpec_SecurityContext x) (PodSpec_TopologySpreadConstraints x) (PodSpec_HostIPC x) (PodSpec_rest x).
Definition set_PodSpec_Volumes (x : PodSpec) (v : list Volume) : PodSpec := mkPodSpec (PodSpec_Containers x) (PodSpec_InitContainers x) v (PodSpec_Affinity x) (PodSpec_Tolerations x) (PodSpec_TerminationGracePeriodSeconds x) (PodSpec_SecurityContext x) (PodSpec_TopologySpreadConstraints x) (PodSpec_HostIPC x) (PodSpec_rest x).
Definition set_PodSpec_Affinity (x : PodSpec) (v : option AffinityT) : PodSpec := mkPodSpec (PodSpec_Containers x) (PodSpec_InitContainers x) (PodSpec_Volumes x) v (PodSpec_Tolerations x) (PodSpec_TerminationGracePeriodSeconds x) (PodSpec_SecurityContext x) (PodSpec_TopologySpreadConstraints x) (PodSpec_HostIPC x) (PodSpec_rest x).
Definition set_PodSpec_TerminationGracePeriodSeconds (x : PodSpec) (v : option Z) : PodSpec := mkPodSpec (PodSpec_Containers x) (PodSpec_InitContainers x) (PodSpec_Volumes x) (PodSpec_Affinity x) (PodSpec_Tolerations x) v (PodSpec_SecurityContext x) (PodSpec_TopologySpreadConstraints x) (PodSpec_HostIPC x) (PodSpec_rest x).
Definition set_PodSpec_SecurityContext (x : PodSpec) (v : option PodSecurity) : PodSpec := mkPodSpec (PodSpec_Containers x) (PodSpec_InitContainers x) (PodSpec_Volumes x) (PodSpec_Affinity x) (PodSpec_Tolerations x) (PodSpec_TerminationGracePeriodSeconds x) v (PodSpec_TopologySpreadConstraints x) (PodSpec_HostIPC x) (PodSpec_rest x).
Definition set_PodSpec_TopologySpreadConstraints (x : PodSpec) (v : list SpreadConstraint) : PodSpec := mkPodSpec (PodSpec_Containers x) (PodSpec_InitContainers x) (PodSpec_Volumes x) (PodSpec_Affinity x) (PodSpec_Tolerations x) (PodSpec_TerminationGracePeriodSeconds x) (PodSpec_SecurityContext x) v (PodSpec_HostIPC x) (PodSpec_rest x).
Definition set_PodSpec_HostIPC (x : PodSpec) (v : bool) : PodSpec := mkPodSpec (PodSpec_Containers x) (PodSpec_InitContainers x) (PodSpec_Volumes x) (PodSpec_Affinity x) (PodSpec_Tolerations x) (PodSpec_TerminationGracePeriodSeconds x) (PodSpec_SecurityContext x) (PodSpec_TopologySpreadConstraints x) v (PodSpec_rest x).

Record PodTemplate := mkPodTemplate {
  Template_Labels : gmap string string;
  Template_Annotations : gmap string string;
  Template_Spec : PodSpec }.
Definition set_Template_Labels (x : PodTemplate) (v : gmap string string) : PodTemplate := mkPodTemplate v (Template_Annotations x) (Template_Spec x).
Definition set_Template_Annotations (x : PodTemplate) (v : gmap string string) : PodTemplate := mkPodTemplate (Template_Labels x) v (Template_Spec x).
Definition set_Template_Spec (x : PodTemplate) (v : PodSpec) : PodTemplate := mkPodTemplate (Template_Labels x) (Template_Annotations x) v.

Record Deployment := mkDeployment {
  Deployment_Name : string;
  Deployment_Namespace : string;
  Deployment_Labels : gmap string string;
  Deployment_Annotations : gmap string string;
  Deployment_Replicas : option Z;
  Deployment_Selector : gmap string string;
  Deployment_Strategy : Strategy;
  Deployment_Template : PodTemplate }.
Definition set_Deployment_Name (x : Deployment) (v : string) : Deployment := mkDeployment v (Deployment_Namespace x) (Deployment_Labels x) (Deployment_Annotations x) (Deployment_Replicas x) (Deployment_Selector x) (Deployment_Strategy x) (Deployment_Template x).
Definition set_Deployment_Labels (x : Deployment) (v : gmap string string) : Deployment := mkDeployment (Deployment_Name x) (Deployment_Namespace x) v (Deployment_Annotations x) (Deployment_Replicas x) (Deployment_Selector x) (Deployment_Strategy x) (Deployment_Template x).
Definition set_Deployment_Annotations (x : Deployment) (v : gmap string string) : Deployment := mkDeployment (Deployment_Name x) (Deployment_Namespace x) (Deployment_Labels x) v (Deployment_Replicas x) (Deployment_Selector x) (Deployment_Strategy x) (Deployment_Template x).
Definition set_Deployment_Replicas (x : Deployment) (v : option Z) : Deployment := mkDeployment (Deployment_Name x) (Deployment_Namespace x) (Deployment_Labels x) (Deployment_Annotations x) v (Deployment_Selector x) (Deployment_Strategy x) (Deployment_Template x).
Definition set_Deployment_Selector (x : Deployment) (v : gmap string string) : Deployment := mkDeployment (Deployment_Name x) (Deployment_Namespace x) (Deployment_Labels x) (Deployment_Annotations x) (Deployment_Replicas x) v (Deployment_Strategy x) (Deployment_Template x).
Definition set_Deployment_Template (x : Deployment) (v : PodTemplate) : Deployment := mkDeployment (Deployment_Name x) (Deployment_Namespace x) (Deployment_Labels x) (Deployment_Annotations x) (Deployment_Replicas x) (Deployment_Selector x) (Deployment_Strategy x) v.

(** ** Semantic equality of pods *)

(** Unions are compared by their member. *)
Definition EnvVarSource_members (s : EnvVarSource) : string * string + Opaque :=
  match s with ConfigMapKeyRef n k => inl (n, k) | OtherEnvSource o => inr o end.
Definition EnvFromSource_members (s : EnvFromSource) : string + Opaque :=
  match s with SecretRefEnv n => inl n | OtherEnvFrom o => inr o end.
Definition NodeSelector_members (s : NodeSelector) : list string + Opaque :=
  match s with HostnameIn l => inl l | OtherSelector o => inr o end.
Definition VolumeSource_members (s : VolumeSource) :
    string + (string * (bool * gmap string string) + (string + (option Z + (string + Opaque)))) :=
  match s with
  | HostPath p => inl p
  | CSI d r m => inr (inl (d, (r, m)))
  | PersistentVolumeClaim c => inr (inr (inl c))
  | EmptyDir l => inr (inr (inr (inl l)))
  | ConfigMapVolume n => inr (inr (inr (inr (inl n))))
  | OtherVolume o => inr (inr (inr (inr (inr o))))
  end.

#[global] Instance deep_EnvVarSource : DeepEqual EnvVarSource := deep_on EnvVarSource_members.
#[global] Instance deep_EnvFromSource : DeepEqual EnvFromSource := deep_on EnvFromSource_members.
#[global] Instance deep_NodeSelector : DeepEqual NodeSelector := deep_on NodeSelector_members.
#[global] Instance deep_VolumeSource : DeepEqual VolumeSource := deep_on VolumeSource_members.

#[global] Instance deep_EnvVarSource_laws : DeepEqualLaws EnvVarSource := deep_on_equiv _.
#[global] Instance deep_EnvFromSource_laws : DeepEqualLaws EnvFromSource := deep_on_equiv _.
#[global] Instance deep_NodeSelector_laws : DeepEqualLaws NodeSelector := deep_on_equiv _.
#[global] Instance deep_VolumeSource_laws : DeepEqualLaws VolumeSource := deep_on_equiv _.

#[global] Instance deep_EnvVar_t : DeepEqual EnvVar_t := fun a b =>
  deep_on EnvVar_Name a b && (deep_on EnvVar_Value a b && (deep_on EnvVar_ValueFrom a b)).
#[global] Instance deep_EnvVar_t_laws : DeepEqualLaws EnvVar_t.
Proof. unfold DeepEqualLaws, deep_equal, deep_EnvVar_t. apply _. Qed.

#[global] Instance deep_VolumeMount : DeepEqual VolumeMount := fun a b =>
  deep_on VolumeMount_Name a b && (deep_on VolumeMount_MountPath a b && (deep_on VolumeMount_SubPath a b && (deep_on VolumeMount_ReadOnly a b && (deep_on VolumeMount_rest a b)))).
#[global] Instance deep_VolumeMount_laws : DeepEqualLaws VolumeMount.
Proof. unfold DeepEqualLaws, deep_equal, deep_VolumeMount. apply _. Qed.

#[global] Instance deep_Volume : DeepEqual Volume := fun a b =>
  deep_on Volume_Name a b && (deep_on Volume_Source a b).
#[global] Instance deep_Volume_laws : DeepEqualLaws Volume.
Proof. unfold DeepEqualLaws, deep_equal, deep_Volume. apply _. Qed.

#[global] Instance deep_ResourceRequirements : DeepEqual ResourceRequirements := fun a b =>
  deep_on Resources_Requests a b && (deep_on Resources_Limits a b && (deep_on Resources_rest a b)).
#[global] Instance deep_ResourceRequirements_laws : DeepEqualLaws ResourceRequirements.
Proof. unfold DeepEqualLaws, deep_equal, deep_ResourceRequirements. apply _. Qed.

#[global] Instance deep_AffinityT : DeepEqual AffinityT := fun a b =>
  deep_on Affinity_RequiredNodes a b && (deep_on Affinity_rest a b).
#[global] Instance deep_AffinityT_laws : DeepEqualLaws AffinityT.
Proof. unfold DeepEqualLaws, deep_equal, deep_AffinityT. apply _. Qed.

(** ** The API types over these objects *)

Definition zero_Meta : Meta := mkMeta "" "" ∅ ∅ 0 [] false.
Definition zero_PodSpec : PodSpec := mkPodSpec [] [] [] None [] None None [] false no_Opaque.
Definition zero_SecurityContext : SecurityContext := mkSecurityContext None None None None None None None no_Opaque.

#[global] Instance objects_k8s : K8s := {|
  TypeMeta := unit; zero_TypeMeta := tt; ObjectMeta := Meta; zero_ObjectMeta := zero_Meta;
  PodTemplateSpec := PodTemplate; zero_PodTemplateSpec := mkPodTemplate ∅ ∅ zero_PodSpec; Condition := Cond; MetaTime := Time;
  EnvVar := EnvVar_t; EnvVar_DeepCopyInto := id; LocalObjectReference := string; LocalObjectReference_DeepCopy := id |}.

#[global] Instance objects_k8s_laws : K8sLaws objects_k8s.
Proof. by split. Qed.

(** The security context, made when it is absent, with one field written. *)
Definition set_nonroot (c : PodContainer) (b : bool) : PodContainer :=
  let s := default zero_SecurityContext (Container_SecurityContext c) in
  set_Container_SecurityContext c (Some (mkSecurityContext (Security_RunAsUser s) (Security_RunAsGroup s) (Some b)
    (Security_ReadOnlyRootFilesystem s) (Security_AllowPrivilegeEscalation s) (Security_DropCapabilities s)
    (Security_SeccompProfile s) (Security_rest s))).
Definition set_escalation (c : PodContainer) (b : bool) : PodContainer :=
  let s := default zero_SecurityContext (Container_SecurityContext c) in
  set_Container_SecurityContext c (Some (mkSecurityContext (Security_RunAsUser s) (Security_RunAsGroup s) (Security_RunAsNonRoot s)
    (Security_ReadOnlyRootFilesystem s) (Some b) (Security_DropCapabilities s) (Security_SeccompProfile s) (Security_rest s))).

(** [Quantity.Value]: the integer at or above the quantity. *)
Definition whole (q : Z) : Z := - ((- q) / 10 ^ 9).

#[global] Instance objects_pods : Pods := {|
  Container := PodContainer;
  Containers := (fun t => PodSpec_Containers (Template_Spec t)) : @PodTemplateSpec objects_k8s -> list PodContainer;
  with_Containers := (fun t l => set_Template_Spec t (set_PodSpec_Containers (Template_Spec t) l))
    : @PodTemplateSpec objects_k8s -> list PodContainer -> @PodTemplateSpec objects_k8s;
  ObjectMeta_Annotations := (fun m => Some (Meta_Annotations m)) : @ObjectMeta objects_k8s -> StringMap;
  PodTemplateSpec_Annotations := (fun t => Some (Template_Annotations t)) : @PodTemplateSpec objects_k8s -> StringMap;
  LocalObjectReference_Name := (fun s => s) : @LocalObjectReference objects_k8s -> string;
  Args := Container_Args;
  Quantity := Z; zero_Quantity := 0; IsZero := fun q => q ==? 0;
  Cmp := fun p q => if p <? q then -1 else if p >? q then 1 else 0;
  Value := whole;
  Requests := fun c => Resources_Requests (Container_Resources c); Limits := fun c => Resources_Limits (Container_Resources c);
  HasSecurityContext := fun c => bool_decide (is_Some (Container_SecurityContext c));
  RunAsNonRoot := fun c => s ← Container_SecurityContext c; Security_RunAsNonRoot s;
  AllowPrivilegeEscalation := fun c => s ← Container_SecurityContext c; Security_AllowPrivilegeEscalation s;
  with_RunAsNonRoot := set_nonroot;
  with_AllowPrivilegeEscalation := set_escalation;
  Ports := Container_Ports;
  with_Ports := set_Container_Ports |}.

#[global] Instance objects_pods_laws : PodsLaws (P := objects_pods).
Proof.
  split; try done.
  - intros [l a []]. done.
  - intros []. cbn. by destruct Container_SecurityContext0 as [[]|].
  - intros []. cbn. by destruct Container_SecurityContext0 as [[]|].
Qed.

End Pods.
