(* ===== verification/DeploymentSync.v ===== *)
(** * Synchronising a Deployment

    [internal/controller/reconciler/diff.go]: which fields of the desired
    Deployment are written into the existing one, and when that counts as a
    change.  A Go map is traversed in some order; [sync_map_spec] holds for
    every order.  Log lines are left out. *)

From S2P Require Import Prelude GoStrings K8s K8sPods K8sObjects.

Section Maps.

(** The two loops of [syncManagedMap]: managed keys that are no longer desired
    are removed, then managed keys are set. *)
Definition prune_stale (managed : string -> bool) (desired : gmap string string)
    (keys : list string) (r : gmap string string * bool) : gmap string string * bool :=
  foldl (fun '(t, changed) k =>
           if managed k && (desired !! k ==? None) then (delete k t, true) else (t, changed)) r keys.

Definition apply_managed (managed : string -> bool) (entries : list (string * string))
    (r : gmap string string * bool) : gmap string string * bool :=
  foldl (fun '(t, changed) '(k, v) =>
           if negb (managed k) then (t, changed)
           else if t !! k ==? Some v then (t, changed) else (<[k := v]> t, true)) r entries.

Definition syncManagedMap (target desired : gmap string string) (managed : string -> bool) : gmap string string * bool :=
  apply_managed managed (map_to_list desired) (prune_stale managed desired (map_to_list target).*1 (target, false)).

Definition isManagedDeploymentLabel (key : string) : bool :=
  existsb (fun k => key ==? k) ["app.kubernetes.io/name"; "app.kubernetes.io/instance"; "app.kubernetes.io/managed-by";
                                "serving.ckodex.com/model"]
  || HasPrefix key "ckodex.cost/".

Definition isManagedDeploymentAnnotation (key : string) : bool :=
  existsb (fun k => key ==? k) ["ckodex.com/canary-weight"; "sidecar.istio.io/inject"; "sidecar.istio.io/rewriteAppHTTPProbers";
                                "sidecar.istio.io/discoveryNamespaces"].

End Maps.

Section Sync.

Context {CR : Carried}.

(** The map from names to entries: the last entry of a name stays. *)
Definition by_name {A} (name : A -> string) (l : list A) : gmap string A :=
  foldl (fun m e => <[name e := e]> m) ∅ l.

Definition same_entries `{DeepEqual A} (name : A -> string) (a b : list A) : bool :=
  (Z.of_nat (length a) ==? Z.of_nat (length b))
  && forallb (fun e => match by_name name a !! name e with Some ev => deep_equal ev e | None => false end) b.

Definition EnvsEqual (a b : list EnvVar_t) : bool := same_entries EnvVar_Name a b.
Definition VolumesEqual (a b : list Volume) : bool := same_entries Volume_Name a b.

Definition container_equal (a b : PodContainer) : bool :=
  (Container_Name a ==? Container_Name b) && (Container_Image a ==? Container_Image b)
  && deep_equal (Container_Args a) (Container_Args b)
  && EnvsEqual (Container_Env a) (Container_Env b)
  && deep_equal (Container_EnvFrom a) (Container_EnvFrom b)
  && deep_equal (Container_Resources a) (Container_Resources b)
  && deep_equal (Container_VolumeMounts a) (Container_VolumeMounts b).

Fixpoint ContainersEqual (a b : list PodContainer) : bool :=
  match a, b with
  | [], [] => true
  | x :: a, y :: b => container_equal x y && ContainersEqual a b
  | _, _ => false
  end.

(** One [if !equal(existing.F, desired.F) { existing.F = desired.F; changed = true }]. *)
Definition sync_field {A} (same : A -> A -> bool) (get : Deployment -> A) (set : Deployment -> A -> Deployment)
    (desired : Deployment) (r : Deployment * bool) : Deployment * bool :=
  if same (get r.1) (get desired) then r else (set r.1 (get desired), true).

Definition pod_field {A} (get : PodSpec -> A) (d : Deployment) : A := get (Template_Spec (Deployment_Template d)).
Definition set_pod_field {A} (set : PodSpec -> A -> PodSpec) (d : Deployment) (v : A) : Deployment :=
  let t := Deployment_Template d in set_Deployment_Template d (set_Template_Spec t (set (Template_Spec t) v)).

Definition set_PodSpec_Tolerations (s : PodSpec) (v : list Opaque) : PodSpec :=
  mkPodSpec (PodSpec_Containers s) (PodSpec_InitContainers s) (PodSpec_Volumes s) (PodSpec_Affinity s) v
    (PodSpec_TerminationGracePeriodSeconds s) (PodSpec_SecurityContext s) (PodSpec_TopologySpreadConstraints s)
    (PodSpec_HostIPC s) (PodSpec_rest s).

Definition SyncDeployment (existing desired : Deployment) (replicas : Z) (scalingManaged : bool) : Deployment * bool :=
  let r := if negb scalingManaged && (Deployment_Replicas existing !=? Some replicas)
           then (set_Deployment_Replicas existing (Some replicas), true) else (existing, false) in
  let '(labels, changed) := syncManagedMap (Deployment_Labels r.1) (Deployment_Labels desired) isManagedDeploymentLabel in
  let r := (set_Deployment_Labels r.1 labels, r.2 || changed) in
  let '(annotations, changed) :=
    syncManagedMap (Deployment_Annotations r.1) (Deployment_Annotations desired) isManagedDeploymentAnnotation in
  let r := (set_Deployment_Annotations r.1 annotations, r.2 || changed) in
  let r := sync_field deep_equal (fun d => Template_Labels (Deployment_Template d))
             (fun d v => set_Deployment_Template d (set_Template_Labels (Deployment_Template d) v)) desired r in
  let r := sync_field deep_equal (fun d => Template_Annotations (Deployment_Template d))
             (fun d v => set_Deployment_Template d (set_Template_Annotations (Deployment_Template d) v)) desired r in
  let r := sync_field ContainersEqual (pod_field PodSpec_Containers) (set_pod_field set_PodSpec_Containers) desired r in
  let r := sync_field ContainersEqual (pod_field PodSpec_InitContainers) (set_pod_field set_PodSpec_InitContainers) desired r in
  let r := sync_field VolumesEqual (pod_field PodSpec_Volumes) (set_pod_field set_PodSpec_Volumes) desired r in
  let r := sync_field deep_equal (pod_field PodSpec_Affinity) (set_pod_field set_PodSpec_Affinity) desired r in
  sync_field deep_equal (pod_field PodSpec_Tolerations) (set_pod_field set_PodSpec_Tolerations) desired r.

End Sync.

(** ** Managed maps *)

Lemma prune_stale_spec managed desired keys t c :
  let r := prune_stale managed desired keys (t, c) in
  (forall k, r.1 !! k = if bool_decide (k ∈ keys) && managed k && (desired !! k ==? None) then None else t !! k)
  /\ r.2 = c || existsb (fun k => managed k && (desired !! k ==? None)) keys.
Proof.
  cbv zeta. revert t c. induction keys as [|x keys IH]; intros t c.
  { cbn. split; [|by destruct c]. intros k. by rewrite bool_decide_false by apply not_elem_of_nil. }
  unfold prune_stale in *. cbn [foldl]. destruct (managed x && (desired !! x ==? None)) eqn:E.
  - destruct (IH (delete x t) true) as [H1 H2]. split.
    + intros k. rewrite H1. destruct (decide (k = x)) as [->|Hne].
      * apply andb_true_iff in E as [-> ->]. rewrite (bool_decide_true (x ∈ x :: keys)) by left.
        rewrite lookup_delete_eq. by destruct (_ && _).
      * rewrite lookup_delete_ne by done. rewrite (bool_decide_ext (k ∈ x :: keys) (k ∈ keys)); [done|].
        rewrite elem_of_cons. tauto.
    + rewrite H2. cbn. by rewrite E, orb_true_r.
  - destruct (IH t c) as [H1 H2]. split.
    + intros k. rewrite H1. destruct (decide (k = x)) as [->|Hne].
      * rewrite <- !andb_assoc, E, !andb_false_r. done.
      * rewrite (bool_decide_ext (k ∈ x :: keys) (k ∈ keys)); [done|]. rewrite elem_of_cons. tauto.
    + rewrite H2. cbn. by rewrite E.
Qed.

Lemma apply_managed_spec managed (desired : gmap string string) entries t c :
  (forall k v, (k, v) ∈ entries -> desired !! k = Some v) ->
  let r := apply_managed managed entries (t, c) in
  (forall k, r.1 !! k = if bool_decide (k ∈ entries.*1) && managed k then desired !! k else t !! k)
  /\ r.2 = c || existsb (fun '(k, v) => managed k && negb (t !! k ==? Some v)) entries.
Proof.
  cbv zeta. revert t c. induction entries as [|[x v] entries IH]; intros t c Hd.
  { cbn. split; [|by destruct c]. intros k. by rewrite bool_decide_false by apply not_elem_of_nil. }
  assert (forall k v, (k, v) ∈ entries -> desired !! k = Some v) as Hd' by (intros; apply Hd; by right).
  assert (desired !! x = Some v) as Hx by (apply Hd; left).
  unfold apply_managed in *. cbn [foldl fmap list_fmap fst existsb].
  assert (forall k, k <> x -> bool_decide (k ∈ x :: entries.*1) = bool_decide (k ∈ entries.*1)) as Hk.
  { intros k Hne. apply bool_decide_ext. rewrite elem_of_cons. tauto. }
  destruct (managed x) eqn:Em; cbn [negb].
  - destruct (bool_decide_reflect (t !! x = Some v)) as [Ht|Ht].
    + destruct (IH t c Hd') as [H1 H2]. split.
      * intros k. rewrite H1. destruct (decide (k = x)) as [->|Hne]; [|by rewrite Hk].
        rewrite Em, (bool_decide_true (x ∈ x :: _)), !andb_true_r by left. destruct (bool_decide _); congruence.
      * by rewrite H2.
    + destruct (IH (<[x := v]> t) true Hd') as [H1 H2]. split.
      * intros k. rewrite H1. destruct (decide (k = x)) as [->|Hne].
        -- rewrite Em, (bool_decide_true (x ∈ x :: _)), lookup_insert_eq, !andb_true_r by left. destruct (bool_decide _); congruence.
        -- rewrite Hk, lookup_insert_ne; done.
      * rewrite H2. cbn. by rewrite orb_true_r.
  - destruct (IH t c Hd') as [H1 H2]. split; [|by rewrite H2].
    intros k. rewrite H1. destruct (decide (k = x)) as [->|Hne]; [|by rewrite Hk].
    by rewrite Em, !andb_false_r.
Qed.

(** What [syncManagedMap] makes of a map, whatever the order of its loops:
    managed keys are as desired, others as they were, and it reports a change
    exactly when some managed key was not as desired. *)
Lemma sync_map_spec managed target desired keys entries :
  (forall k, k ∈ keys <-> is_Some (target !! k)) -> (forall k v, (k, v) ∈ entries <-> desired !! k = Some v) ->
  let r := apply_managed managed entries (prune_stale managed desired keys (target, false)) in
  (forall k, r.1 !! k = if managed k then desired !! k else target !! k)
  /\ (r.2 = false <-> forall k, managed k = true -> target !! k = desired !! k).
Proof.
  intros Hkeys Hentries. cbv zeta.
  destruct (prune_stale_spec managed desired keys target false) as [P1 P2].
  destruct (prune_stale _ _ _ _) as [t c]. cbn in P1, P2. subst c.
  destruct (apply_managed_spec managed desired entries t
    (existsb (fun k => managed k && (desired !! k ==? None)) keys)) as [A1 A2]; [by intros k v; apply Hentries|].
  assert (forall k, bool_decide (k ∈ entries.*1) = bool_decide (is_Some (desired !! k))) as Hin.
  { intros k. apply bool_decide_ext. rewrite list_elem_of_fmap. split.
    - intros ([k' v] & -> & H). exists v. by apply Hentries.
    - intros [v H]. exists (k, v). split; [done|]. by apply Hentries. }
  split.
  - intros k. rewrite A1, Hin, P1. destruct (managed k); [|by rewrite !andb_false_r].
    rewrite !andb_true_r. destruct (desired !! k) as [v|]; [by rewrite bool_decide_true by eauto|].
    rewrite bool_decide_false by (intros []; discriminate). rewrite (bool_decide_true (None = None)), andb_true_r by done.
    destruct (bool_decide_reflect (k ∈ keys)) as [|Hn]; [done|]. rewrite Hkeys in Hn. by apply eq_None_not_Some.
  - rewrite A2, orb_false_iff, !existsb_false_iff. split.
    + intros [H1 H2] k Hm. destruct (desired !! k) as [v|] eqn:Ed.
      * specialize (H2 (k, v) (proj2 (Hentries k v) Ed)). cbn in H2. rewrite Hm in H2. cbn in H2.
        apply negb_false_iff, bool_decide_eq_true in H2. by rewrite P1, Ed, (bool_decide_false (Some v = None)), andb_false_r in H2 by done.
      * destruct (target !! k) eqn:Et; [|done]. specialize (H1 k (proj2 (Hkeys k) (ex_intro _ _ Et))).
        rewrite Hm, Ed in H1. discriminate.
    + intros H. split.
      * intros k Hk. destruct (managed k) eqn:Hm; [|done]. cbn. apply bool_decide_eq_false. apply Hkeys in Hk as [v Hv].
        rewrite <- (H k Hm), Hv. done.
      * intros [k v] Hkv. destruct (managed k) eqn:Hm; [|done]. cbn. apply negb_false_iff, bool_decide_eq_true.
        apply Hentries in Hkv. rewrite P1, Hkv, (bool_decide_false (Some v = None)), andb_false_r by done. by rewrite H.
Qed.

Lemma syncManagedMap_spec managed target desired :
  let r := syncManagedMap target desired managed in
  (forall k, r.1 !! k = if managed k then desired !! k else target !! k)
  /\ (r.2 = false <-> forall k, managed k = true -> target !! k = desired !! k).
Proof.
  apply sync_map_spec.
  - intros k. rewrite list_elem_of_fmap. split.
    + intros ([k' v] & -> & H). apply elem_of_map_to_list in H. eauto.
    + intros [v H]. exists (k, v). split; [done|]. by apply elem_of_map_to_list.
  - intros k v. apply elem_of_map_to_list.
Qed.

(** ** Named entries *)

Section Entries.

Context {A : Type} `{DeepEqualLaws A} (name : A -> string).

(** Entries with the same name are equal. *)
Definition consistent (l : list A) : Prop := forall a b, a ∈ l -> b ∈ l -> name a = name b -> deep_equal a b = true.

Lemma by_name_elem l n a : by_name name l !! n = Some a -> a ∈ l /\ name a = n.
Proof.
  unfold by_name. induction l as [|x l IH] using rev_ind; cbn; [by rewrite lookup_empty|].
  rewrite foldl_app. cbn. destruct (decide (name x = n)) as [<-|Hne].
  - rewrite lookup_insert_eq. intros [= <-]. split; [set_solver|done].
  - rewrite lookup_insert_ne by done. intros Hl. destruct (IH Hl). split; [set_solver|done].
Qed.

Lemma by_name_found l a : a ∈ l -> is_Some (by_name name l !! name a).
Proof.
  unfold by_name. induction l as [|x l IH] using rev_ind; [by intros ?%not_elem_of_nil|].
  rewrite foldl_app. cbn. intros Ha. destruct (decide (name x = name a)) as [->|Hne]; [by rewrite lookup_insert_eq|].
  rewrite lookup_insert_ne by done. apply IH. set_solver.
Qed.

Lemma same_entries_spec a b :
  same_entries name a b = true <->
  length a = length b /\ forall e, e ∈ b -> exists ev, by_name name a !! name e = Some ev /\ deep_equal ev e = true.
Proof.
  unfold same_entries. rewrite andb_true_iff, bool_decide_eq_true, forallb_forall, Nat2Z.inj_iff.
  setoid_rewrite <- list_elem_of_In. split; intros [Hl Hf]; split; try done; intros e He; specialize (Hf e He).
  - destruct (by_name name a !! name e); [eauto|done].
  - by destruct Hf as (ev & -> & ?).
Qed.

Lemma same_entries_refl l : same_entries name l l = true <-> consistent l.
Proof.
  rewrite same_entries_spec. split.
  - intros [_ Hl] a b Ha Hb Hn. destruct (Hl a Ha) as (ea & Ea & Da), (Hl b Hb) as (eb & Eb & Db).
    rewrite Hn, Eb in Ea. injection Ea as ->. by apply (deep_trans a ea b); [apply deep_sym|].
  - intros Hc. split; [done|]. intros e He. destruct (by_name_found l e He) as [ev Hev]. exists ev. split; [done|].
    destruct (by_name_elem _ _ _ Hev). by apply Hc.
Qed.

Lemma same_entries_consistent a b : same_entries name a b = true -> consistent b.
Proof.
  rewrite same_entries_spec. intros [_ Hl] x y Hx Hy Hn.
  destruct (Hl x Hx) as (ex & Ex & Dx), (Hl y Hy) as (ey & Ey & Dy).
  rewrite Hn, Ey in Ex. injection Ex as ->. by apply (deep_trans x ex y); [apply deep_sym|].
Qed.

(** Distinct names: the order of the entries does not matter. *)
Lemma same_entries_perm a b : NoDup (name <$> b) -> a ≡ₚ b -> same_entries name a b = true.
Proof.
  intros Hn Hp. apply same_entries_spec. split; [by rewrite Hp|].
  intros e He. destruct (by_name_found a e) as [ev Hev]; [by rewrite Hp|]. exists ev. split; [done|].
  destruct (by_name_elem _ _ _ Hev) as [Hin Hname]. rewrite Hp in Hin.
  apply list_elem_of_lookup in He as [i Hi]. apply list_elem_of_lookup in Hin as [j Hj].
  assert (i = j) as -> by (apply (NoDup_lookup (name <$> b) i j (name e)); [done|by rewrite list_lookup_fmap, Hi
    |by rewrite list_lookup_fmap, Hj; cbn; rewrite Hname]).
  rewrite Hi in Hj. injection Hj as ->. apply deep_refl.
Qed.

End Entries.

(** ** What a synchronisation does *)

Section Settled.

Context {CR : Carried}.

(** The entries of the desired Deployment that have the same name are equal. *)
Definition pods_consistent (d : Deployment) : Prop :=
  let s := Template_Spec (Deployment_Template d) in
  (forall c, c ∈ PodSpec_Containers s ++ PodSpec_InitContainers s -> consistent EnvVar_Name (Container_Env c))
  /\ consistent Volume_Name (PodSpec_Volumes s).

Lemma container_equal_refl c : container_equal c c = true <-> consistent EnvVar_Name (Container_Env c).
Proof.
  unfold container_equal, EnvsEqual. rewrite !andb_true_iff, !bool_decide_eq_true, same_entries_refl.
  split; [tauto|]. intros. repeat split; try done; apply deep_refl.
Qed.

Lemma containers_equal_refl l : ContainersEqual l l = true <-> forall c, c ∈ l -> consistent EnvVar_Name (Container_Env c).
Proof.
  induction l as [|c l IH]; cbn [ContainersEqual].
  { split; [|done]. intros _ c Hc. by apply not_elem_of_nil in Hc. }
  rewrite andb_true_iff, IH, container_equal_refl. split.
  - intros [H1 H2] x Hx. apply elem_of_cons in Hx as [->|Hx]; auto.
  - intros Hl. split; [apply Hl; left|intros x Hx; apply Hl; by right].
Qed.

Lemma containers_equal_consistent a b : ContainersEqual a b = true -> ContainersEqual b b = true.
Proof.
  revert b. induction a as [|x a IH]; intros [|y b]; cbn [ContainersEqual]; try done.
  rewrite !andb_true_iff. intros [H1 H2]. split; [|by apply IH]. apply container_equal_refl.
  unfold container_equal in H1. rewrite !andb_true_iff in H1. by eapply same_entries_consistent; apply H1.
Qed.

(** The value of a field after it was synchronised. *)
Definition choose {A} (same : A -> A -> bool) (a b : A) : A := if same a b then a else b.

Lemma sync_field_choose {A} (same : A -> A -> bool) get set desired e c :
  (forall d, set d (get d) = d) ->
  sync_field same get set desired (e, c) = (set e (choose same (get e) (get desired)), c || negb (same (get e) (get desired))).
Proof.
  intros Hs. unfold sync_field, choose. cbn. destruct (same _ _); cbn; [by rewrite Hs, orb_false_r|by rewrite orb_true_r].
Qed.

Lemma choose_same {A} (same : A -> A -> bool) a b : (same a b = true -> same b b = true) ->
  same (choose same a b) b = same b b.
Proof. intros Hr. unfold choose. destruct (same a b) eqn:E; [by rewrite E, Hr|done]. Qed.

(** The synchronised Deployment, field by field. *)
Definition synced (e d : Deployment) (n : Z) (scaling : bool) : Deployment :=
  let s := Template_Spec (Deployment_Template e) in
  let s' := Template_Spec (Deployment_Template d) in
  mkDeployment (Deployment_Name e) (Deployment_Namespace e)
    (syncManagedMap (Deployment_Labels e) (Deployment_Labels d) isManagedDeploymentLabel).1
    (syncManagedMap (Deployment_Annotations e) (Deployment_Annotations d) isManagedDeploymentAnnotation).1
    (if scaling then Deployment_Replicas e else Some n) (Deployment_Selector e) (Deployment_Strategy e)
    (mkPodTemplate (choose deep_equal (Template_Labels (Deployment_Template e)) (Template_Labels (Deployment_Template d)))
       (choose deep_equal (Template_Annotations (Deployment_Template e)) (Template_Annotations (Deployment_Template d)))
       (mkPodSpec (choose ContainersEqual (PodSpec_Containers s) (PodSpec_Containers s'))
          (choose ContainersEqual (PodSpec_InitContainers s) (PodSpec_InitContainers s'))
          (choose VolumesEqual (PodSpec_Volumes s) (PodSpec_Volumes s'))
          (choose deep_equal (PodSpec_Affinity s) (PodSpec_Affinity s'))
          (choose deep_equal (PodSpec_Tolerations s) (PodSpec_Tolerations s'))
          (PodSpec_TerminationGracePeriodSeconds s) (PodSpec_SecurityContext s) (PodSpec_TopologySpreadConstraints s)
          (PodSpec_HostIPC s) (PodSpec_rest s))).

(** The tests a synchronisation makes, all of them passed. *)
Definition in_sync (e d : Deployment) (n : Z) (scaling : bool) : bool :=
  let s := Template_Spec (Deployment_Template e) in
  let s' := Template_Spec (Deployment_Template d) in
  (scaling || (Deployment_Replicas e ==? Some n))
  && negb (syncManagedMap (Deployment_Labels e) (Deployment_Labels d) isManagedDeploymentLabel).2
  && negb (syncManagedMap (Deployment_Annotations e) (Deployment_Annotations d) isManagedDeploymentAnnotation).2
  && deep_equal (Template_Labels (Deployment_Template e)) (Template_Labels (Deployment_Template d))
  && deep_equal (Template_Annotations (Deployment_Template e)) (Template_Annotations (Deployment_Template d))
  && ContainersEqual (PodSpec_Containers s) (PodSpec_Containers s')
  && ContainersEqual (PodSpec_InitContainers s) (PodSpec_InitContainers s')
  && VolumesEqual (PodSpec_Volumes s) (PodSpec_Volumes s')
  && deep_equal (PodSpec_Affinity s) (PodSpec_Affinity s')
  && deep_equal (PodSpec_Tolerations s) (PodSpec_Tolerations s').

Lemma SyncDeployment_synced e d n scaling : SyncDeployment e d n scaling = (synced e d n scaling, negb (in_sync e d n scaling)).
Proof.
  unfold SyncDeployment.
  assert ((if negb scaling && (Deployment_Replicas e !=? Some n) then (set_Deployment_Replicas e (Some n), true) else (e, false))
    = (set_Deployment_Replicas e (if scaling then Deployment_Replicas e else Some n), negb (scaling || (Deployment_Replicas e ==? Some n)))) as ->.
  { destruct scaling; cbn; [by destruct e|]. case_bool_decide as E; cbn; [|done]. rewrite <- E. by destruct e. }
  cbn [fst snd Deployment_Labels set_Deployment_Replicas].
  destruct (syncManagedMap (Deployment_Labels e) _ _) as [labels c1] eqn:E1.
  cbn [fst snd Deployment_Annotations set_Deployment_Labels set_Deployment_Replicas].
  destruct (syncManagedMap (Deployment_Annotations e) _ _) as [annotations c2] eqn:E2.
  rewrite !sync_field_choose by (intros [? ? ? ? ? ? ? [? ? []]]; reflexivity).
  unfold synced, in_sync. rewrite E1, E2. cbn. f_equal. rewrite !negb_andb, !negb_involutive. done.
Qed.

Lemma managed_settled managed target desired :
  (syncManagedMap (syncManagedMap target desired managed).1 desired managed).2 = false
  /\ (syncManagedMap (syncManagedMap target desired managed).1 desired managed).1 = (syncManagedMap target desired managed).1.
Proof.
  pose proof (syncManagedMap_spec managed target desired) as [H1 _].
  set (t := (syncManagedMap target desired managed).1) in *.
  pose proof (syncManagedMap_spec managed t desired) as [H2 H3]. split.
  - apply H3. intros k Hk. rewrite H1. by rewrite Hk.
  - apply map_eq. intros k. rewrite H2, H1. by destruct (managed k).
Qed.

Lemma choose_idemp {A} (same : A -> A -> bool) a b : choose same (choose same a b) b = choose same a b.
Proof. unfold choose. destruct (same a b) eqn:E; rewrite ?E; [done|]. by destruct (same b b). Qed.

Lemma synced_idemp e d n scaling : synced (synced e d n scaling) d n scaling = synced e d n scaling.
Proof.
  unfold synced at 1. cbn.
  rewrite (proj2 (managed_settled _ _ _)), (proj2 (managed_settled isManagedDeploymentAnnotation _ _)), !choose_idemp.
  unfold synced. cbn. by destruct scaling.
Qed.

Lemma synced_in_sync e d n scaling : in_sync (synced e d n scaling) d n scaling = true <-> pods_consistent d.
Proof.
  unfold in_sync, synced. cbn. rewrite !andb_true_iff, !negb_true_iff.
  rewrite (proj1 (managed_settled _ _ _)), (proj1 (managed_settled isManagedDeploymentAnnotation _ _)).
  rewrite !choose_same by (intros; first [apply deep_refl | by eapply containers_equal_consistent
    | apply same_entries_refl; by eapply same_entries_consistent]).
  unfold VolumesEqual. rewrite !containers_equal_refl, same_entries_refl. rewrite !deep_refl.
  unfold pods_consistent. setoid_rewrite elem_of_app. destruct scaling; cbn; rewrite ?bool_decide_eq_true; naive_solver.
Qed.

(** The entries a synchronisation leaves alone: without a change it is the
    existing Deployment. *)
Lemma in_sync_synced e d n scaling : in_sync e d n scaling = true -> synced e d n scaling = e.
Proof.
  unfold in_sync. rewrite !andb_true_iff, !negb_true_iff. intros (((((((((Hr & Hl) & Ha) & E1) & E2) & E3) & E4) & E5) & E6) & E7).
  assert (forall managed t d', (syncManagedMap t d' managed).2 = false -> (syncManagedMap t d' managed).1 = t) as Hm.
  { intros managed t d' Hf. destruct (syncManagedMap_spec managed t d') as [H1 H2]. apply map_eq. intros k. rewrite H1.
    destruct (managed k) eqn:Ek; [|done]. symmetry. by apply (proj1 H2 Hf). }
  unfold synced, choose. rewrite E1, E2, E3, E4, E5, E6, E7, !Hm by done.
  destruct e as [? ? ? ? r ? ? [? ? []]]. cbn in *. destruct scaling; cbn in Hr; [done|].
  apply bool_decide_eq_true in Hr. by rewrite Hr.
Qed.

(** Synchronising a Deployment reports no change exactly when it makes
    none.  It sets the managed labels and annotations as desired and no
    others, and keeps the replicas of a Deployment an autoscaler manages; and
    the next synchronisation with the same desired Deployment finds nothing to
    do, exactly when no two environment variables of a container and no two
    volumes have the same name and different values. *)
Theorem sync_settles existing desired n scaling :
  let '(d, changed) := SyncDeployment existing desired n scaling in
  (changed = false -> d = existing)
  /\ (forall k, Deployment_Labels d !! k = if isManagedDeploymentLabel k then Deployment_Labels desired !! k else Deployment_Labels existing !! k)
  /\ (forall k, Deployment_Annotations d !! k
        = if isManagedDeploymentAnnotation k then Deployment_Annotations desired !! k else Deployment_Annotations existing !! k)
  /\ Deployment_Replicas d = (if scaling then Deployment_Replicas existing else Some n)
  /\ (SyncDeployment d desired n scaling = (d, false) <-> pods_consistent desired)
  /\ (~ pods_consistent desired -> changed = true).
Proof.
  rewrite SyncDeployment_synced. split; [|split; [|split; [|split; [|split]]]].
  - intros Hc. apply in_sync_synced. by apply negb_false_iff.
  - apply syncManagedMap_spec.
  - apply syncManagedMap_spec.
  - done.
  - rewrite SyncDeployment_synced, synced_idemp. rewrite <- (synced_in_sync existing desired n scaling).
    destruct (in_sync (synced _ _ _ _) _ _ _); cbn; naive_solver.
  - intros Hn. destruct (in_sync existing desired n scaling) eqn:E; [|done]. destruct Hn.
    apply (synced_in_sync existing desired n scaling). by rewrite (in_sync_synced _ _ _ _ E).
Qed.

End Settled.

(** ** Concrete Deployments *)

#[local] Instance demo_carried : Carried := {| Opaque := string; no_Opaque := "" |}.

Definition demo_env (name value : string) : EnvVar_t := mkEnvVar_t name value None.
Definition demo_container (image : string) (command : list string) (env : list EnvVar_t) (liveness : option Probe) : PodContainer :=
  mkPodContainer "vllm" image command [] env [] [] (mkResourceRequirements ∅ ∅ "") [] None None None liveness None "".
Definition demo_deployment (annotations : gmap string string) (replicas : Z) (s : Strategy) (c : PodContainer) : Deployment :=
  mkDeployment "m" "prod" ∅ annotations (Some replicas) ∅ s (mkPodTemplate ∅ ∅ (set_PodSpec_Containers zero_PodSpec [c])).

(** A change of the command, of a probe, of the update strategy or of an
    annotation that is not managed does not reach the Deployment; a variable
    that gives way to a second entry of another one is not noticed; and a
    variable with two values is never settled. *)
Example sync_oddities :
  let base := demo_deployment {["serving.ckodex.com/runtime-image" := "v1"]} 2 Recreate in
  let e := base (demo_container "img" ["old"] [demo_env "A" "1"; demo_env "B" "2"] None) in
  let d := demo_deployment {["serving.ckodex.com/runtime-image" := "v2"]} 2 (RollingUpdate 0 1)
             (demo_container "img" ["new"] [demo_env "A" "1"; demo_env "A" "1"] (Some (HTTPProbe "/health" 8000 120 15 0 0))) in
  let twice := base (demo_container "img" [] [demo_env "A" "1"; demo_env "A" "2"] None) in
  SyncDeployment e d 2 false = (e, false)
  /\ (SyncDeployment twice twice 2 false).2 = true.
Proof. vm_compute. done. Qed.
