(* ===== verification/DeploymentBuilder.v ===== *)
(** * The Deployment of a service

    [internal/controller/deployment]: the pods an LLMInferenceService runs in.
    [BuildWithRole] copies the pod template of the service, selects images and
    arguments for the hardware and the engine, adds storage, probes, security
    contexts and sidecars, and [BuildPrefill] does so for the prefill side.
    The sidecars are those of [internal/security/spire_reconciler.go] and
    [internal/observability/vector.go].

    Go maps that are ranged over are lists of entries in the order [shuffle]
    puts them; the theorems hold for every order.  The JSON decoder,
    [strconv.ParseFloat], the parser of quantities and [Quantity.AsInt64] are
    arguments; [None] is a panic ([resource.MustParse]). *)

From S2P Require Import Prelude GoStrings GoFilepath GoFloat GoJson OCIReference ParallelDownload AuditEvents LocalModelCache.
From S2P Require Import K8s K8sPods K8sObjects ApiV1alpha2 RuntimeContract RuntimeRegistry DeploymentSync.
From Stdlib Require Import Ascii.

(** ** hardware.go *)

Definition HardwareAppleSilicon := "AppleSilicon".
Definition HardwareAppleSiliconMPS := "AppleSiliconMPS".
Definition HardwareNVIDIA := "NVIDIA".
Definition HardwareAMD := "AMD".
Definition HardwareGenericX86 := "GenericX86".
Definition HardwareUnknown := "Unknown".

Definition VLLMGenericImage := "vllm/vllm-openai-cpu:v0.28.0".
Definition VLLMMPSImage := "vllm/vllm-openai:v0.28.0-aarch64".
Definition VLLMROCmImage := "".

Record Node := mkNode { Node_Capacity : gmap string Z; Node_Labels : gmap string string; Node_Architecture : string }.

(** [qty, ok := node.Status.Capacity[name]; ok && !qty.IsZero()]. *)
Definition has_capacity (n : Node) (name : string) : bool := match Node_Capacity n !! name with Some q => q !=? 0 | None => false end.
Definition labelled (n : Node) (key : string) : bool := default "" (Node_Labels n !! key) ==? "true".

Definition detect_node (n : Node) : string :=
  if has_capacity n "nvidia.com/gpu" then HardwareNVIDIA
  else if labelled n "nvidia.com/gpu.present" then HardwareNVIDIA
  else if has_capacity n "amd.com/gpu" then HardwareAMD
  else if Node_Architecture n ==? "arm64" then
    if has_capacity n "apple.com/gpu" then HardwareAppleSiliconMPS
    else if labelled n "apple.com/gpu.present" then HardwareAppleSiliconMPS
    else HardwareAppleSilicon
  else if Node_Architecture n ==? "amd64" then HardwareGenericX86
  else "".

Definition hardware_priority (h : string) : Z :=
  default 0 ((list_to_map [(HardwareUnknown, 0); (HardwareGenericX86, 1); (HardwareAppleSilicon, 2); (HardwareAppleSiliconMPS, 3);
                           (HardwareAMD, 4); (HardwareNVIDIA, 5)] : gmap string Z) !! h).

Definition DetectHardware (nodes : list Node) : string :=
  foldl (fun best n => let detected := detect_node n in
           if hardware_priority detected >? hardware_priority best then detected else best) HardwareUnknown nodes.

Section Capacity.
Context (AsInt64 : Z -> Z).

Definition GetClusterGPUCapacity (nodes : list Node) : Z :=
  foldl (fun total n => match Node_Capacity n !! "nvidia.com/gpu" with Some q => i64_wrap (total + AsInt64 q) | None => total end) 0 nodes.
End Capacity.

(** ** cache.go *)

Definition hardwareCacheTTL : Duration := 5 * Minute.

Record HardwareCache := mkHardwareCache { hc_hardware : string; hc_cacheTime : Time }.

(** The clock at the two tests and when the nodes have been listed, and the
    nodes, unless listing them fails. *)
Definition HardwareCache_Get (h : HardwareCache) (now1 now2 now3 : Time) (nodes : option (list Node)) : string * HardwareCache :=
  if TimeSub now1 (hc_cacheTime h) <? hardwareCacheTTL then (hc_hardware h, h)
  else if TimeSub now2 (hc_cacheTime h) <? hardwareCacheTTL then (hc_hardware h, h)
  else match nodes with
       | None => (hc_hardware h, h)
       | Some l => let hw := DetectHardware l in (hw, mkHardwareCache hw now3)
       end.

(** ** The builder *)

Definition VLLMImage := "vllm/vllm-openai:v0.28.0".
Definition HuggingFaceInitializerImage := "ghcr.io/ckodex-labs/ckodex-kserve-llm-huggingface-initializer:v0.19.0".
Definition CKodexStorageInitializerImage := "ckodex/storage-initializer:v0.1.0".
Definition ModelVolumeName := "model-store".
Definition ModelMountPath := "/mnt/models".
Definition DefaultTerminationGracePeriod : Z := 60.
Definition DefaultVLLMCPURequest := "2".
Definition DefaultVLLMMemoryRequest := "4Gi".

Record DefaultsConfig := mkDefaults {
  VLLMCPURequest : string; VLLMMemoryRequest : string; TerminationGracePeriodSeconds : Z; CustomStorageInitializerImage : string }.

Record Builder := mkBuilder {
  b_SPIRE : bool;                      (* whether a SPIRE injector is set *)
  EnableHardwareSelection : bool; OTEL_Endpoint : string; AirGappedMode : bool; LocalRegistry : string;
  LocalCosignKeyPath : string; RuntimeImage : string; HFInitializerImage : string; HFMirrorURL : string;
  Defaults : DefaultsConfig }.

Section Build.

Context {CR : Carried}.
Context (ParseQuantity : string -> option Z) (AsInt64 : Z -> Z).
Context (ParseFloat : string -> option float64).
(** The text a decoded object or array is encoded to again. *)
Context (json_structured : string -> option string).

#[local] Notation Svc := (LLMInferenceService (K := objects_k8s)).
#[local] Notation Spec s := (LLMInferenceService_Spec s).
#[local] Notation Tmpl s := (LLMInferenceServiceSpec_Template (Spec s)).
#[local] Notation Model s := (LLMInferenceServiceSpec_Model (Spec s)).

Definition svc_Name (s : Svc) : string := Meta_Name (LLMInferenceService_ObjectMeta s).
Definition svc_Namespace (s : Svc) : string := Meta_Namespace (LLMInferenceService_ObjectMeta s).

Definition CheckGPURequirements (s : Svc) (totalGpus : Z) : bool :=
  let reqGpus := match PodSpec_Containers (Template_Spec (Tmpl s)) with
                 | c :: _ => match Resources_Requests (Container_Resources c) !! "nvidia.com/gpu" with
                             | Some g => AsInt64 g | None => 0 end
                 | [] => 0
                 end in
  negb (reqGpus >? totalGpus).

(** The first container changed in place, when there is one. *)
Definition on_first (f : PodContainer -> PodContainer) (p : PodSpec) : PodSpec :=
  match PodSpec_Containers p with [] => p | c :: rest => set_PodSpec_Containers p (f c :: rest) end.

(** *** builder_helpers.go *)

Definition env_value (name value : string) : EnvVar_t := mkEnvVar_t name value None.

Definition hasEnv (env : list EnvVar_t) (name : string) : bool := existsb (fun e => EnvVar_Name e ==? name) env.

Definition add_env (c : PodContainer) (e : EnvVar_t) : PodContainer := set_Container_Env c (Container_Env c ++ [e]).

Definition setEnvDefault (c : PodContainer) (name value : string) : PodContainer :=
  if hasEnv (Container_Env c) name then c else add_env c (env_value name value).

Definition LMCacheModeMultiprocess := "multiprocess".

Definition transfer_of (s : Svc) : option (KVTransferSpec (K := objects_k8s)) :=
  kv ← LLMInferenceServiceSpec_KVCache (Spec s); KVCacheSpec_Transfer kv.

Definition isMultiprocessLMCache (s : Svc) : bool :=
  match (t ← transfer_of s; KVTransferSpec_LMCache t) with
  | Some c => (LMCacheSpec_Mode c ==? LMCacheModeMultiprocess) && bool_decide (is_Some (LMCacheSpec_EngineRef c))
  | None => false
  end.

(** [strconv.ParseBool]. *)
Definition ParseBool (s : string) : option bool :=
  if existsb (fun x => s ==? x) ["1"; "t"; "T"; "true"; "TRUE"; "True"] then Some true
  else if existsb (fun x => s ==? x) ["0"; "f"; "F"; "false"; "FALSE"; "False"] then Some false
  else None.

(** The value of an extra option, as [json.Marshal] writes it; [None] for a
    number it refuses. *)
Definition parseKVValue (value : string) : option string :=
  match ParseBool value with
  | Some b => Some (json_bool b)
  | None =>
      match ParseInt value with
      | Some n => Some (Itoa n)
      | None =>
          match ParseFloat value with
          | Some x => json_float x
          | None => Some (default (json_string value) (json_structured value))
          end
      end
  end.

Definition parseKVExtraConfig (src : gmap string string) : gmap string (option string) := parseKVValue <$> src.

Definition hasArg (args : list string) (target : string) : bool :=
  existsb (fun a => (a ==? target) || HasPrefix a (target +:+ "=")) args.

Definition deploymentStrategyForReplicas (replicas : Z) : Strategy := if replicas <=? 1 then Recreate else RollingUpdate 0 1.

Definition replicaCount (replicas : option Z) : Z := default 1 replicas.

(** *** hardware.go: the optimizations of a pod *)

Definition default_image (image : string) : bool :=
  (image ==? "") || (image ==? "vllm/vllm-openai:latest") || Contains image "cuda".

Definition hardware_settings (hw image : string) : string * list (string * string) * list (string * string) :=
  if hw ==? HardwareAppleSiliconMPS then
    (if default_image image then VLLMMPSImage else image,
     [("VLLM_TARGET_DEVICE", "mps"); ("PYTORCH_MPS_HIGH_WATERMARK_RATIO", "0.0")],
     [("--device", "mps"); ("--host", "0.0.0.0"); ("--port", "8000")])
  else if hw ==? HardwareAppleSilicon then
    (if default_image image then VLLMGenericImage else image,
     [("VLLM_TARGET_DEVICE", "cpu"); ("VLLM_CPU_OMP_THREADS_BIND", "nobind"); ("VLLM_CPU_KVCACHE_SPACE", "4")],
     [("--host", "0.0.0.0"); ("--port", "8000"); ("--max-model-len", "4096")])
  else if hw ==? HardwareGenericX86 then
    (if default_image image then VLLMGenericImage else image,
     [("VLLM_CPU_KVCACHE_SPACE", "10"); ("VLLM_CPU_OMP_THREADS_BIND", "auto"); ("NVIDIA_VISIBLE_DEVICES", ""); ("TORCHINDUCTOR_FREEZING", "1")],
     [("--host", "0.0.0.0"); ("--port", "8000"); ("--max-model-len", "4096")])
  else if hw ==? HardwareNVIDIA then (image, [("VLLM_TARGET_DEVICE", "cuda"); ("GPU_MEMORY_UTILIZATION", "0.9")], [])
  else if hw ==? HardwareAMD then
    (if (VLLMROCmImage !=? "") && ((image ==? "") || negb (Contains image "-rocm")) then VLLMROCmImage else image,
     [("VLLM_TARGET_DEVICE", "rocm"); ("VLLM_ATTENTION_BACKEND", "ROCM_FLASH_ATTN")], [])
  else (image, [], []).

(** The first variable of the name, when it is empty or [auto]; else a new one. *)
Fixpoint fill_env (env : list EnvVar_t) (k v : string) : list EnvVar_t :=
  match env with
  | [] => [env_value k v]
  | e :: env =>
      if EnvVar_Name e ==? k then
        (if (EnvVar_Value e ==? "") || (EnvVar_Value e ==? "auto") then set_EnvVar_Value e v else e) :: env
      else e :: fill_env env k v
  end.

Definition fill_arg (args : list string) (flag value : string) : list string :=
  if existsb (fun a => a ==? flag) args then args else args ++ [flag; value].

Definition hardware_container (shuffle : list (string * string) -> list (string * string)) (hw : string) (c : PodContainer) : PodContainer :=
  let '(image, envVars, args) := hardware_settings hw (Container_Image c) in
  let c := set_Container_Image c image in
  let c := set_Container_Env c (foldl (fun env kv => fill_env env kv.1 kv.2) (Container_Env c) (shuffle envVars)) in
  set_Container_Args c (foldl (fun a fv => fill_arg a fv.1 fv.2) (Container_Args c) args).

Definition ApplyHardwareOptimizations (shuffle : list (string * string) -> list (string * string)) (hw : string) (p : PodSpec) : PodSpec :=
  if hw ==? HardwareUnknown then p else on_first (hardware_container shuffle hw) p.

(** *** pod_policy.go *)

(** [if _, ok := m[k]; !ok { m[k] = v }]. *)
Definition set_missing (k : string) (v : Z) (m : gmap string Z) : gmap string Z := match m !! k with Some _ => m | None => <[k := v]> m end.

Definition or_default (value fallback : string) : string := if value ==? "" then fallback else value.

(** The default of a request is only parsed when it is used. *)
Definition set_request (k value : string) (m : gmap string Z) : option (gmap string Z) :=
  match m !! k with Some _ => Some m | None => q ← ParseQuantity value; Some (<[k := q]> m) end.

Definition ensureResources (d : DefaultsConfig) (c : PodContainer) : option PodContainer :=
  let r := Container_Resources c in
  requests ← set_request "cpu" (or_default (VLLMCPURequest d) DefaultVLLMCPURequest) (Resources_Requests r);
  requests ← set_request "memory" (or_default (VLLMMemoryRequest d) DefaultVLLMMemoryRequest) requests;
  let limits := set_missing "cpu" (default 0 (requests !! "cpu")) (Resources_Limits r) in
  let limits := set_missing "memory" (default 0 (requests !! "memory")) limits in
  Some (set_Container_Resources c (mkResourceRequirements requests limits (Resources_rest r))).

Definition preStopCommand : list string :=
  ["/bin/sh"; "-c"; "kill -TERM 1 2>/dev/null || true; sleep 10; kill -KILL 1 2>/dev/null || true; sleep 5"].

Definition injectPreStop (c : PodContainer) : PodContainer :=
  match Container_PreStop c with Some _ => c | None => set_Container_PreStop c (Some (ExecHandler preStopCommand)) end.

Definition healthProbe (delay period failure success : Z) : Probe := HTTPProbe "/health" 8000 delay period failure success.

Definition ensureHealthProbes : PodSpec -> PodSpec := on_first (fun c =>
  let c := match Container_StartupProbe c with None => set_Container_StartupProbe c (Some (healthProbe 30 15 60 0)) | Some _ => c end in
  let c := match Container_ReadinessProbe c with None => set_Container_ReadinessProbe c (Some (healthProbe 30 10 0 3)) | Some _ => c end in
  match Container_LivenessProbe c with None => set_Container_LivenessProbe c (Some (healthProbe 120 15 0 0)) | Some _ => c end).

Definition applyRestrictedSecurityContext (c : PodContainer) : PodContainer :=
  let rest := match Container_SecurityContext c with Some s => Security_rest s | None => no_Opaque end in
  set_Container_SecurityContext c (Some (mkSecurityContext (Some 65532) (Some 65532) (Some true) (Some true) (Some false)
    (Some ["ALL"]) (Some "RuntimeDefault") rest)).

Definition ensureSecurityContext (p : PodSpec) : PodSpec :=
  match PodSpec_Containers p with
  | [] => p
  | _ =>
      let p := set_PodSpec_Containers p (applyRestrictedSecurityContext <$> PodSpec_Containers p) in
      let p := set_PodSpec_InitContainers p (applyRestrictedSecurityContext <$> PodSpec_InitContainers p) in
      match PodSpec_SecurityContext p with
      | None => set_PodSpec_SecurityContext p (Some (RestrictedPod 65532 true "RuntimeDefault"))
      | Some _ => p
      end
  end.

Definition spread_constraints (labels : gmap string string) : list SpreadConstraint :=
  [ScheduleAnyway 1 "topology.kubernetes.io/zone" labels; ScheduleAnyway 1 "kubernetes.io/hostname" labels].

Definition ensureTopologySpreadConstraints (p : PodSpec) (labels : gmap string string) : PodSpec :=
  match PodSpec_TopologySpreadConstraints p with
  | [] => set_PodSpec_TopologySpreadConstraints p (spread_constraints labels)
  | _ => p
  end.

(** *** storage_volume.go *)

Definition localCacheReady (c : LocalModelCache) : bool := existsb (fun st => Phase st ==? "Ready") (NodeStatuses (Status c)).

Definition readyCacheNodes (c : LocalModelCache) : list string :=
  NodeName <$> List.filter (fun st => Phase st ==? "Ready") (NodeStatuses (Status c)).

(** The caches in the order they are listed; none when listing them fails. *)
Definition getReadyLMC (caches : option (list LocalModelCache)) (modelURI : string) : option LocalModelCache :=
  l ← caches; head (List.filter (fun c => (SourceModelURI c ==? modelURI) && localCacheReady c) l).

Definition cacheHostVolume (name : string) : Volume := mkVolume ModelVolumeName (HostPath ("/tmp/ckodex/models/" +:+ name)).

Definition with_required_nodes (a : option AffinityT) (nodes : list string) : AffinityT :=
  mkAffinityT (Some (HostnameIn nodes)) (match a with Some a => Affinity_rest a | None => no_Opaque end).

Definition applyLocalModelCache (caches : option (list LocalModelCache)) (s : Svc) (p : PodSpec) : bool * PodSpec :=
  match getReadyLMC caches (ModelSpec_URI (Model s)) with
  | None => (false, p)
  | Some active =>
      match readyCacheNodes active with
      | [] => (false, p)
      | nodes =>
          let p := set_PodSpec_Affinity p (Some (with_required_nodes (PodSpec_Affinity p) nodes)) in
          (true, set_PodSpec_Volumes p (PodSpec_Volumes p ++ [cacheHostVolume (lmc_Name active)]))
      end
  end.

Definition hardwareModelSuffix (hw : string) : string :=
  if hw ==? HardwareNVIDIA then "-nvidia" else if hw ==? HardwareAppleSiliconMPS then "-mps" else if hw ==? HardwareAMD then "-rocm" else "-cpu".

Definition transformModelURI (uri hw : string) : string :=
  if negb (HasPrefix uri "oci://") || Contains uri "@sha256:" then uri
  else if Contains uri ":" then uri +:+ hardwareModelSuffix hw
  else uri +:+ ":latest" +:+ hardwareModelSuffix hw.

Definition isHuggingFaceScheme (scheme : string) : bool := (scheme ==? "hf") || (scheme ==? "hf-mirror").

(** [strings.Trim(s, "/")]. *)
Fixpoint trim_left_slashes (s : string) : string :=
  match s with
  | String c s' => if code c ==? 47 then trim_left_slashes s' else s
  | EmptyString => ""
  end.
Definition trim_both_slashes (s : string) : string := trim_slashes (trim_left_slashes s).

Definition parsePVCURI (uri : string) : string * string :=
  match cut (TrimPrefix uri "pvc://") "/" with
  | Some (claim, sub) => (claim, trim_both_slashes sub)
  | None => (TrimPrefix uri "pvc://", "")
  end.

Definition hasVolume (l : list Volume) (name : string) : bool := existsb (fun v => Volume_Name v ==? name) l.

Definition pvcVolume (claim : string) : Volume := mkVolume ModelVolumeName (PersistentVolumeClaim claim).

Definition hfMountVolume (s : Svc) : Volume :=
  pvcVolume (str_take 253 ("hf-model-" +:+ svc_Namespace s +:+ "-" +:+ svc_Name s)).

Definition modelVolume (s : Svc) : Volume :=
  let uri := ModelSpec_URI (Model s) in
  if HasPrefix uri "modelpack://" then
    mkVolume ModelVolumeName (CSI "model.csi.modelpack.org" false {["modelRef" := TrimPrefix uri "modelpack://"]})
  else if HasPrefix uri "hf-mount://" then hfMountVolume s
  else if HasPrefix uri "pvc://" then pvcVolume (parsePVCURI uri).1
  else mkVolume ModelVolumeName (EmptyDir None).

(** 4Gi in nano-units. *)
Definition scratchVolume : Volume := mkVolume "tmp-scratch" (EmptyDir (Some (4 * 2 ^ 30 * 10 ^ 9))).

Definition ensureModelVolume (s : Svc) (p : PodSpec) : PodSpec :=
  let p := if hasVolume (PodSpec_Volumes p) ModelVolumeName then p else set_PodSpec_Volumes p (PodSpec_Volumes p ++ [modelVolume s]) in
  if hasVolume (PodSpec_Volumes p) "tmp-scratch" then p else set_PodSpec_Volumes p (PodSpec_Volumes p ++ [scratchVolume]).

Definition new_mount (name path : string) (readOnly : bool) : VolumeMount := mkVolumeMount name path "" readOnly no_Opaque.

Definition configureModelMount (m : VolumeMount) (args : list string) (s : Svc) : VolumeMount :=
  let m := if hasArg args "--model" then m else set_VolumeMount_ReadOnly (set_VolumeMount_MountPath m ModelMountPath) true in
  if HasPrefix (ModelSpec_URI (Model s)) "pvc://" then
    let sub := (parsePVCURI (ModelSpec_URI (Model s))).2 in if sub !=? "" then set_VolumeMount_SubPath m sub else m
  else m.

(** The first mount of the model volume configured; else a new one. *)
Fixpoint mount_model (args : list string) (s : Svc) (l : list VolumeMount) : list VolumeMount :=
  match l with
  | [] =>
      let m := new_mount ModelVolumeName ModelMountPath true in
      [if HasPrefix (ModelSpec_URI (Model s)) "pvc://" then set_VolumeMount_SubPath m (parsePVCURI (ModelSpec_URI (Model s))).2 else m]
  | m :: l => if VolumeMount_Name m ==? ModelVolumeName then configureModelMount m args s :: l else m :: mount_model args s l
  end.

Definition mountModelVolume (s : Svc) (c : PodContainer) : PodContainer :=
  set_Container_VolumeMounts c (mount_model (Container_Args c) s (Container_VolumeMounts c)).

Definition hasMountPath (l : list VolumeMount) (path : string) : bool := existsb (fun m => VolumeMount_MountPath m ==? path) l.

Definition ensureModelVolumeMount (s : Svc) : PodSpec -> PodSpec := on_first (fun c =>
  let c := mountModelVolume s c in
  if hasMountPath (Container_VolumeMounts c) "/tmp" then c
  else set_Container_VolumeMounts c (Container_VolumeMounts c ++ [new_mount "tmp-scratch" "/tmp" false])).

(** *** storage_initializer.go *)

Definition effectiveModelURI (m : ModelSpec (K := objects_k8s)) : string :=
  if ModelSpec_Revision m ==? "" then ModelSpec_URI m else ModelSpec_URI m +:+ "@" +:+ ModelSpec_Revision m.

Definition storageInitializerSkipped (uri : string) : bool :=
  (uri ==? "") || HasPrefix uri "modelpack://" || HasPrefix uri "hf-mount://" || HasPrefix uri "pvc://".

Definition isLocalModelCacheReady (caches : option (list LocalModelCache)) (uri : string) : bool :=
  bool_decide (is_Some (getReadyLMC caches uri)).

Definition storageCacheReady (caches : option (list LocalModelCache)) (uri : string) (active : option LocalModelCache) : bool :=
  match active with Some c => localCacheReady c | None => isLocalModelCacheReady caches uri end.

Definition rewriteImage (b : Builder) (image : string) : string :=
  if LocalRegistry b ==? "" then image else LocalRegistry b +:+ "/" +:+ Join "/" (Split image "/").

Definition air_gapped (b : Builder) : bool := AirGappedMode b && (LocalRegistry b !=? "").

Definition prepareInitializerURI (b : Builder) (uri : string) (s : Svc) (hw : string) : string :=
  let uri := if EnableHardwareSelection b && ModelSpec_HardwareAware (Model s) then transformModelURI uri hw else uri in
  if air_gapped b then ResolveAirGappedURI uri (LocalRegistry b) else uri.

Definition modelScheme (uri : string) : string := match cut uri "://" with Some (scheme, _) => scheme | None => "" end.

Definition no_resources : ResourceRequirements := mkResourceRequirements ∅ ∅ no_Opaque.

(** A container with the fields that are given and no others. *)
Definition bare_container (name image : string) (args : list string) (env : list EnvVar_t) (mounts : list VolumeMount) : PodContainer :=
  mkPodContainer name image [] args env [] [] no_resources mounts None None None None None no_Opaque.

Definition newInitializerContainer (b : Builder) (uri scheme hw : string) : PodContainer :=
  let image := if HFInitializerImage b !=? "" then HFInitializerImage b else HuggingFaceInitializerImage in
  let image := if negb (isHuggingFaceScheme scheme) || (hw ==? HardwareAppleSilicon)
               then or_default (CustomStorageInitializerImage (Defaults b)) CKodexStorageInitializerImage else image in
  let image := if air_gapped b then rewriteImage b image else image in
  bare_container "storage-initializer" image [uri; ModelMountPath] []
    [new_mount ModelVolumeName ModelMountPath false; new_mount "tmp-scratch" "/tmp" false].

Definition add_envs (c : PodContainer) (l : list EnvVar_t) : PodContainer := set_Container_Env c (Container_Env c ++ l).
Definition add_secret (c : PodContainer) (name : string) : PodContainer :=
  set_Container_EnvFrom c (Container_EnvFrom c ++ [SecretRefEnv name]).

Definition configureInitializerEnvironment (b : Builder) (c : PodContainer) (s : Svc) (scheme : string) : PodContainer :=
  let c := if isHuggingFaceScheme scheme then
             let c := add_envs c [env_value "HOME" "/tmp"; env_value "HF_HOME" "/tmp/huggingface"; env_value "HF_HUB_DISABLE_UPDATE_CHECK" "1"] in
             if (scheme ==? "hf-mirror") && (HFMirrorURL b !=? "") then add_env c (env_value "HF_ENDPOINT" (HFMirrorURL b)) else c
           else c in
  match ModelSpec_Storage (Model s) with
  | None => c
  | Some storage =>
      let c := if StorageSpec_VaultRef storage !=? "" then add_env c (env_value "VAULT_PATH" (StorageSpec_VaultRef storage)) else c in
      let c := if StorageSpec_VaultAddr storage !=? "" then add_env c (env_value "VAULT_ADDR" (StorageSpec_VaultAddr storage)) else c in
      let c := match StorageSpec_SecretRef storage with Some name => add_secret c name | None => c end in
      match StorageSpec_ExternalSecret storage with Some _ => add_secret c (svc_Name s +:+ "-external-secret") | None => c end
  end.

Definition matchingMount (targetDir filePath mountPath : string) : bool :=
  let mountPath := Clean mountPath in
  (mountPath ==? targetDir) || (mountPath ==? Clean filePath) || HasPrefix targetDir (mountPath +:+ "/").

Definition hasVolumeMount (mounts : list VolumeMount) (x : VolumeMount) : bool :=
  existsb (fun m => (VolumeMount_Name m ==? VolumeMount_Name x) && (VolumeMount_MountPath m ==? VolumeMount_MountPath x)
                    && (VolumeMount_SubPath m ==? VolumeMount_SubPath x) && (bool_decide (VolumeMount_ReadOnly m = VolumeMount_ReadOnly x))) mounts.

Definition copyMatchingVolumeMounts (c : PodContainer) (p : PodSpec) (filePath : string) : PodContainer :=
  let targetDir := Clean (Dir filePath) in
  foldl (fun c m => if matchingMount targetDir filePath (VolumeMount_MountPath m) && negb (hasVolumeMount (Container_VolumeMounts c) m)
                    then set_Container_VolumeMounts c (Container_VolumeMounts c ++ [m]) else c)
    c (concat (Container_VolumeMounts <$> PodSpec_Containers p)).

Definition configureCosignMount (b : Builder) (c : PodContainer) (p : PodSpec) : PodContainer :=
  copyMatchingVolumeMounts (add_env c (env_value "CKODEX_LOCAL_COSIGN_KEY_PATH" (LocalCosignKeyPath b))) p (LocalCosignKeyPath b).

Definition BuildStorageInitializer (b : Builder) (caches : option (list LocalModelCache)) (s : Svc) (hw : string)
    (active : option LocalModelCache) : option PodContainer :=
  let uri := effectiveModelURI (Model s) in
  if storageInitializerSkipped uri || storageCacheReady caches uri active then None
  else
    let uri := prepareInitializerURI b uri s hw in
    let scheme := modelScheme uri in
    let c := configureInitializerEnvironment b (newInitializerContainer b uri scheme hw) s scheme in
    let c := if LocalCosignKeyPath b !=? "" then configureCosignMount b c (Template_Spec (Tmpl s)) else c in
    Some (applyRestrictedSecurityContext c).

(** *** engine_selection.go *)

Definition addLoraMount (lora : string) (p : PodSpec) : PodSpec :=
  let name := "lora-" +:+ lora in
  let p := set_PodSpec_Volumes p (PodSpec_Volumes p ++ [mkVolume name (HostPath ("/tmp/ckodex/models/" +:+ name))]) in
  on_first (fun c => set_Container_VolumeMounts c (Container_VolumeMounts c ++ [new_mount name (ModelMountPath +:+ "/lora-" +:+ lora) true])) p.

(** The adapters by their names. *)
Definition applyLoraAdapters (loras : list string) (p : PodSpec) : PodSpec :=
  match PodSpec_Containers p with
  | [] => p
  | _ =>
      let p := on_first (fun c => if hasArg (Container_Args c) "--enable-lora" then c
                                  else set_Container_Args c (Container_Args c ++ ["--enable-lora"])) p in
      foldl (fun p lora => addLoraMount lora p) p loras
  end.

Definition engine_container (b : Builder) (s : Svc) (c : PodContainer) : PodContainer :=
  match Resolve (K := objects_k8s) (LLMInferenceServiceSpec_Engine (Spec s)) with
  | None => set_Container_Args (set_Container_Command (set_Container_Image c "") []) []
  | Some adapter =>
      if bool_decide (aValidate adapter (Some s) = []) && Valid (aImage adapter) then
        let c := if aName adapter !=? DefaultEngine then set_Container_Image c (RuntimeContract.Reference (aImage adapter))
                 else if Container_Image c ==? "" then set_Container_Image c (or_default (RuntimeImage b) VLLMImage) else c in
        let c := if air_gapped b then set_Container_Image c (rewriteImage b (Container_Image c)) else c in
        set_Container_Args c (aRender adapter {| Service := Some s; ExistingArgs := Container_Args c; ModelPath := ModelMountPath; Host := ""; Port := 0 |})
      else set_Container_Args (set_Container_Command (set_Container_Image c "") []) []
  end.

Definition applyEngineSelection (b : Builder) (s : Svc) : PodSpec -> PodSpec := on_first (engine_container b s).

(** *** kv_transfer.go *)

Definition transferRole (configured requested : string) : string :=
  if requested !=? "" then requested else if configured !=? "" then configured else "kv_both".

Definition set_extra (k : string) (v : option string) (m : gmap string (option string)) : gmap string (option string) :=
  match v with
  | None => m
  | Some v => match m !! k with Some _ => m | None => <[k := Some v]> m end
  end.

Definition addLMCacheExtra (extra : gmap string (option string)) (cache : option (LMCacheSpec (K := objects_k8s))) : gmap string (option string) :=
  match cache with
  | None => extra
  | Some c =>
      if LMCacheSpec_Mode c ==? LMCacheModeMultiprocess then extra
      else
        let extra := set_extra "chunk_size" (Itoa <$> LMCacheSpec_ChunkSize c) extra in
        let extra := set_extra "local_cpu" (json_bool <$> LMCacheSpec_LocalCPU c) extra in
        set_extra "max_local_cpu_size" (Itoa <$> LMCacheSpec_LocalCPUSizeGiB c) extra
  end.

(** [json.Marshal] of the options: keys in order, an error when a value has no
    encoding. *)
Definition marshal_extra (extra : gmap string (option string)) : option string :=
  fields ← mapM (fun k => v ← extra !! k; v' ← v; Some (k, v')) (sort_strings (elements (dom extra)));
  Some (json_object fields).

Definition transfer_config (connector role : string) (extra : gmap string (option string)) : option string :=
  e ← marshal_extra extra;
  Some (json_object [("kv_connector", json_string connector); ("kv_connector_extra_config", e); ("kv_role", json_string role)]).

Definition add_pair (c : PodContainer) (flag value : string) : PodContainer :=
  if hasArg (Container_Args c) flag then c else set_Container_Args c (Container_Args c ++ [flag; value]).

Definition configureMultiprocessCache (engine : string) (c : PodContainer) : PodContainer :=
  let configEnv := "CKODEX_LMCACHE_KV_TRANSFER_CONFIG" in
  let c := if hasEnv (Container_Env c) configEnv then c
           else add_env c (mkEnvVar_t configEnv "" (Some (ConfigMapKeyRef (engine +:+ "-connection") "kv-transfer-config"))) in
  let c := add_pair c "--kv-transfer-config" ("$(" +:+ configEnv +:+ ")") in
  setEnvDefault c "PYTHONHASHSEED" "0".

Definition default_env (name : string) (value : option string) (c : PodContainer) : PodContainer :=
  match value with Some v => setEnvDefault c name v | None => c end.

Definition configureLMCacheEnv (cache : option (LMCacheSpec (K := objects_k8s))) (c : PodContainer) : PodContainer :=
  let c := setEnvDefault c "LMCACHE_USE_EXPERIMENTAL" "True" in
  match cache with
  | None => c
  | Some l =>
      let c := setEnvDefault c "PYTHONHASHSEED" "0" in
      let c := default_env "LMCACHE_CHUNK_SIZE" (Itoa <$> LMCacheSpec_ChunkSize l) c in
      let c := default_env "LMCACHE_LOCAL_CPU" (json_bool <$> LMCacheSpec_LocalCPU l) c in
      default_env "LMCACHE_MAX_LOCAL_CPU_SIZE" (Itoa <$> LMCacheSpec_LocalCPUSizeGiB l) c
  end.

(** [strings.EqualFold] of a connector that is one of the three names. *)
Definition configureInlineTransfer (t : KVTransferSpec (K := objects_k8s)) (connector role : string) (extra : gmap string (option string))
    (c : PodContainer) : PodContainer :=
  match transfer_config connector role extra with
  | None => c
  | Some cfg =>
      let c := add_pair c "--kv-transfer-config" cfg in
      let c := foldl (fun c e => if hasEnv (Container_Env c) (EnvVar_Name e) then c else add_env c e) c (range_slice (KVTransferSpec_Env t)) in
      if KVTransferSpec_Connector t ==? "lmcache" then configureLMCacheEnv (KVTransferSpec_LMCache t) c else c
  end.

Definition connector_name (c : string) : string :=
  if c ==? "nixl" then "NixlConnector" else if c ==? "lmcache" then "LMCacheConnectorV1" else if c ==? "mooncake" then "MooncakeConnector" else "".

Definition multiprocess_engine (cache : option (LMCacheSpec (K := objects_k8s))) : option string :=
  c ← cache; if LMCacheSpec_Mode c ==? LMCacheModeMultiprocess then LMCacheSpec_EngineRef c else None.

Definition applyKVTransfer (s : Svc) (role : string) (p : PodSpec) : PodSpec :=
  match PodSpec_Containers p, transfer_of s with
  | _ :: _, Some t =>
      let role := transferRole (KVTransferSpec_Role t) role in
      let connector := connector_name (KVTransferSpec_Connector t) in
      if connector ==? "" then p
      else
        let extra := addLMCacheExtra (parseKVExtraConfig (default ∅ (KVTransferSpec_ExtraConfig t))) (KVTransferSpec_LMCache t) in
        match multiprocess_engine (KVTransferSpec_LMCache t) with
        | Some engine => set_PodSpec_HostIPC (on_first (configureMultiprocessCache engine) p) true
        | None => on_first (configureInlineTransfer t connector role extra) p
        end
  | _, _ => p
  end.

(** *** runtime_configuration.go *)

(** [strings.ReplaceAll] of one byte by another. *)
Fixpoint replace_byte (a b : Ascii.ascii) (s : string) : string :=
  match s with EmptyString => "" | String c s => String (if c ==? a then b else c) (replace_byte a b s) end.

Definition vllm_env (s : Svc) : list (string * string) :=
  let modelID := if ModelSpec_Name (Model s) ==? "" then replace_byte "/"%char "."%char (ModelSpec_URI (Model s)) else ModelSpec_Name (Model s) in
  let engine := or_default (LLMInferenceServiceSpec_Engine (Spec s)) "vllm" in
  [("HOME", "/tmp"); ("VLLM_TARGET_DEVICE", "cpu"); ("USER", "nonroot"); ("LOGNAME", "nonroot"); ("TORCHINDUCTOR_CACHE_DIR", "/tmp");
   ("VLLM_LOGGING_LEVEL", "INFO"); ("OIS_MODEL_ID", modelID); ("OIS_MODEL_URN", URN "model" modelID); ("OIS_ENGINE_URN", URN "engine" engine);
   ("OIS_ACTOR_URN", URN "actor" (svc_Namespace s))].

Definition ensureVLLMEnv (shuffle : list (string * string) -> list (string * string)) (s : Svc) : PodSpec -> PodSpec :=
  on_first (fun c => foldl (fun c kv => setEnvDefault c kv.1 kv.2) c (shuffle (vllm_env s))).

Definition applyGPUDeviceSelection (s : Svc) (p : PodSpec) : PodSpec :=
  match LLMInferenceServiceSpec_Parallelism (Spec s) with
  | Some par =>
      match range_slice (ParallelismSpec_GPUDevices par) with
      | [] => p
      | devices => on_first (fun c => setEnvDefault c "NVIDIA_VISIBLE_DEVICES" (Join "," devices)) p
      end
  | None => p
  end.

(** *** The sidecars *)

Definition SPIFFEWorkloadAPIPath := "/run/spiffe/workload".
Definition SPIFFEHelperImage := "ghcr.io/spiffe/spiffe-helper:0.11.0".
Definition SPIFFETrustDomain := "ckodex.com".

Definition SPIFFEIDForService (namespace serviceAccount modelName : string) : string :=
  "spiffe://" +:+ SPIFFETrustDomain +:+ "/ns/" +:+ namespace +:+ "/sa/" +:+ serviceAccount +:+ "/model/" +:+ modelName.

(** Milli-units and mebibytes in nano-units. *)
Definition milli (n : Z) : Z := n * 10 ^ 6.
Definition mebi (n : Z) : Z := n * 2 ^ 20 * 10 ^ 9.
Definition cpu_memory (cpu memory : Z) : gmap string Z := {["cpu" := cpu; "memory" := memory]}.

Definition spiffe_socket : EnvVar_t := env_value "SPIFFE_ENDPOINT_SOCKET" ("unix://" +:+ SPIFFEWorkloadAPIPath +:+ "/spiffe.sock").

Definition spiffe_sidecar (s : Svc) (mount : VolumeMount) : PodContainer :=
  let c := bare_container "spiffe-sidecar" SPIFFEHelperImage ["-config"; "/etc/spiffe-helper/helper.conf"]
             [spiffe_socket; env_value "CKODEX_SPIFFE_ID" (SPIFFEIDForService (svc_Namespace s) (svc_Name s) (svc_Name s))] [mount] in
  let c := set_Container_Resources c (mkResourceRequirements (cpu_memory (milli 10) (mebi 32)) (cpu_memory (milli 50) (mebi 64)) no_Opaque) in
  set_Container_SecurityContext c (Some (mkSecurityContext None None (Some true) (Some false) (Some false) None None no_Opaque)).

Definition InjectSidecar (s : Svc) (p : PodSpec) : PodSpec :=
  let p := set_PodSpec_Volumes p (PodSpec_Volumes p ++ [mkVolume "spiffe-workload-api" (CSI "spiffe.csi.spiffe.io" true ∅)]) in
  let mount := new_mount "spiffe-workload-api" SPIFFEWorkloadAPIPath true in
  let p := on_first (fun c => add_env (set_Container_VolumeMounts c (Container_VolumeMounts c ++ [mount])) spiffe_socket) p in
  set_PodSpec_Containers p (PodSpec_Containers p ++ [spiffe_sidecar s mount]).

Definition VectorImage := "timberio/vector:0.58.0-distroless-static".
Definition VectorLogVolumeName := "shared-logs".
Definition VectorDataVolumeName := "vector-data".
Definition VectorLogMountPath := "/var/log/ckodex".
Definition VectorDataMountPath := "/var/lib/vector".

Definition ensureVectorVolumes (configMapName : string) (p : PodSpec) : PodSpec :=
  if hasVolume (PodSpec_Volumes p) VectorLogVolumeName then p
  else set_PodSpec_Volumes p (PodSpec_Volumes p ++ [mkVolume VectorLogVolumeName (EmptyDir None); mkVolume VectorDataVolumeName (EmptyDir None);
                                                    mkVolume "vector-config" (ConfigMapVolume configMapName)]).

Definition ensureVectorAppMount : PodSpec -> PodSpec := on_first (fun c =>
  if existsb (fun m => VolumeMount_Name m ==? VectorLogVolumeName) (Container_VolumeMounts c) then c
  else set_Container_VolumeMounts c (Container_VolumeMounts c ++ [new_mount VectorLogVolumeName VectorLogMountPath false])).

Definition vectorSidecar : PodContainer :=
  let c := bare_container "vector" VectorImage ["--config-dir"; "/etc/vector"] []
             [new_mount VectorLogVolumeName VectorLogMountPath true; new_mount VectorDataVolumeName VectorDataMountPath false;
              new_mount "vector-config" "/etc/vector" true] in
  let c := set_Container_Resources c (mkResourceRequirements (cpu_memory (milli 50) (mebi 64)) (cpu_memory (milli 200) (mebi 128)) no_Opaque) in
  set_Container_SecurityContext c (Some (mkSecurityContext (Some 65532) (Some 65532) (Some true) (Some true) (Some false) None None no_Opaque)).

Definition ensureVectorContainer (p : PodSpec) : PodSpec :=
  if existsb (fun c => Container_Name c ==? "vector") (PodSpec_Containers p) then p
  else set_PodSpec_Containers p (PodSpec_Containers p ++ [vectorSidecar]).

Definition InjectVectorSidecar (configMapName : string) (p : PodSpec) : PodSpec :=
  ensureVectorContainer (ensureVectorAppMount (ensureVectorVolumes configMapName p)).

Definition injectVector (b : Builder) (s : Svc) (p : PodSpec) : PodSpec :=
  let sink := if OTEL_Endpoint b !=? "" then "otlp" else "stdout" in
  let sink := match (o ← LLMInferenceServiceSpec_Observability (Spec s); ObservabilitySpec_Sink o) with
              | Some k => TelemetrySink_Type k | None => sink end in
  if (sink !=? "stdout") || (OTEL_Endpoint b !=? "") then InjectVectorSidecar (svc_Name s +:+ "-vector-config") p else p.

(** *** builder.go *)

Definition toolSurfaceEnabled (s : Svc) : bool :=
  match LLMInferenceServiceSpec_ToolSurface (Spec s) with
  | Some t => negb (bool_decide (range_slice (ToolSurface_AllowedAPIs t) = [])) || negb (bool_decide (range_slice (ToolSurface_AllowedCIDRs t) = []))
  | None => false
  end.

Definition addKVAnnotations (t : KVTransferSpec (K := objects_k8s)) (role : string) (ann : gmap string string) : gmap string string :=
  <["serving.ckodex.com/kv-role" := transferRole (KVTransferSpec_Role t) role]>
  (<["serving.ckodex.com/kv-connector" := KVTransferSpec_Connector t]> ann).

Definition buildAnnotations (s : Svc) (p : PodSpec) (kvRole : string) : gmap string string :=
  let ann := match PodSpec_Containers p with c :: _ => {["serving.ckodex.com/runtime-image" := Container_Image c]} | [] => ∅ end in
  let ann := match transfer_of s with Some t => addKVAnnotations t kvRole ann | None => ann end in
  let ann := match LLMInferenceServiceSpec_Prefill (Spec s) with Some _ => <["serving.ckodex.com/pd-disaggregation" := "true"]> ann | None => ann end in
  let ann := match LLMInferenceServiceSpec_Canary (Spec s) with
             | Some c => <["ckodex.com/canary-weight" := Itoa (CanarySpec_Weight c)]> ann | None => ann end in
  if toolSurfaceEnabled s then
    <["sidecar.istio.io/discoveryNamespaces" := svc_Namespace s]>
    (<["sidecar.istio.io/rewriteAppHTTPProbers" := "true"]> (<["sidecar.istio.io/inject" := "true"]> ann))
  else ann.

Definition deploymentSelectorLabels (s : Svc) : gmap string string :=
  {["app.kubernetes.io/name" := "llminferenceservice"; "app.kubernetes.io/instance" := svc_Name s;
    "app.kubernetes.io/managed-by" := "ckodex-kserve-llm-operator"]}.

Definition cost_label (key : string) : string := "ckodex.cost/" +:+ replace_byte "."%char "-"%char key.

Definition deploymentLabels (shuffle : list (string * string) -> list (string * string)) (s : Svc) (selectors : gmap string string)
    : gmap string string :=
  let labels := <["serving.ckodex.com/model" := replace_byte "/"%char "."%char (ModelSpec_Name (Model s))]> (Template_Labels (Tmpl s)) in
  let labels := selectors ∪ labels in
  let labels := foldl (fun m kv => <[cost_label kv.1 := kv.2]> m) labels
                  (shuffle (map_to_list (default ∅ (LLMInferenceServiceSpec_CostAllocationTags (Spec s))))) in
  if isMultiprocessLMCache s then <["serving.ckodex.com/lmcache-mode" := "multiprocess"]> labels else labels.

Definition seed_image (image : string) : PodContainer -> PodContainer := fun c =>
  if Container_Image c ==? "" then set_Container_Image c image else c.

Definition preparePod (b : Builder) (shuffle : list (string * string) -> list (string * string)) (s : Svc) (hw : string) : option PodSpec :=
  let p := Template_Spec (Tmpl s) in
  let p := if (RuntimeImage b !=? "") && (RuntimeImage b !=? VLLMImage) then on_first (seed_image (RuntimeImage b)) p else p in
  let p := ApplyHardwareOptimizations shuffle hw p in
  let p := if RuntimeImage b !=? "" then on_first (seed_image (RuntimeImage b)) p else p in
  let p := match PodSpec_TerminationGracePeriodSeconds p with
           | Some _ => p
           | None =>
               let grace := TerminationGracePeriodSeconds (Defaults b) in
               set_PodSpec_TerminationGracePeriodSeconds p (Some (if grace ==? 0 then DefaultTerminationGracePeriod else grace))
           end in
  match PodSpec_Containers p with
  | [] => Some p
  | c :: rest => c' ← ensureResources (Defaults b) c; Some (set_PodSpec_Containers p (injectPreStop c' :: rest))
  end.

Definition applyStorage (b : Builder) (caches : option (list LocalModelCache)) (s : Svc) (hw : string) (p : PodSpec) : PodSpec :=
  let '(cached, p) := applyLocalModelCache caches s p in
  let p := if cached then p
           else match BuildStorageInitializer b caches s hw None with
                | Some init => set_PodSpec_InitContainers p (init :: PodSpec_InitContainers p)
                | None => p
                end in
  ensureModelVolumeMount s (ensureModelVolume s p).

Definition applyPodPolicies (p : PodSpec) (selectors : gmap string string) : PodSpec :=
  ensureTopologySpreadConstraints (ensureSecurityContext (ensureHealthProbes p)) selectors.

Definition applyRuntime (b : Builder) (shuffle : list (string * string) -> list (string * string)) (s : Svc) (loras : list string)
    (kvRole : string) (p : PodSpec) : PodSpec :=
  let p := match loras with [] => p | _ => applyLoraAdapters loras p end in
  let p := applyEngineSelection b s p in
  let p := applyKVTransfer s kvRole p in
  let p := ensureVLLMEnv shuffle s p in
  let p := applyGPUDeviceSelection s p in
  let p := if b_SPIRE b then InjectSidecar s p else p in
  injectVector b s p.

Definition podAnnotations (s : Svc) : gmap string string :=
  let ann := <["prometheus.io/port" := "8000"]> (<["prometheus.io/scrape" := "true"]> (Template_Annotations (Tmpl s))) in
  match multiprocess_engine (t ← transfer_of s; KVTransferSpec_LMCache t) with
  | Some engine => <["serving.ckodex.com/lmcache-engine" := engine]> ann
  | None => ann
  end.

Definition BuildWithRole (b : Builder) (shuffle : list (string * string) -> list (string * string)) (caches : option (list LocalModelCache))
    (s : Svc) (replicas : Z) (hw : string) (loras : list string) (kvRole : string) : option Deployment :=
  let selectors := deploymentSelectorLabels s in
  let labels := deploymentLabels shuffle s selectors in
  p ← preparePod b shuffle s hw;
  let p := applyRuntime b shuffle s loras kvRole (applyPodPolicies (applyStorage b caches s hw p) selectors) in
  Some (mkDeployment (svc_Name s) (svc_Namespace s) labels (buildAnnotations s p kvRole) (Some replicas) selectors
          (deploymentStrategyForReplicas replicas) (mkPodTemplate labels (podAnnotations s) p)).

(** The clone of the service the prefill side is built from. *)
Definition prefill_clone (s : Svc) (pf : PrefillSpec (K := objects_k8s)) : Svc :=
  let sp := Spec s in
  mkLLMInferenceService (LLMInferenceService_TypeMeta s) (LLMInferenceService_ObjectMeta s)
    (mkLLMInferenceServiceSpec (LLMInferenceServiceSpec_Model sp) (PrefillSpec_Replicas pf) (LLMInferenceServiceSpec_Parallelism sp)
       (LLMInferenceServiceSpec_Scaling sp) (PrefillSpec_Template pf) None (LLMInferenceServiceSpec_Worker sp) (LLMInferenceServiceSpec_Router sp)
       (LLMInferenceServiceSpec_BaseRefs sp) (LLMInferenceServiceSpec_AutoOptimize sp) (LLMInferenceServiceSpec_AllowedTenants sp)
       (LLMInferenceServiceSpec_CostAllocationTags sp) (LLMInferenceServiceSpec_SLO sp) (LLMInferenceServiceSpec_Canary sp)
       (LLMInferenceServiceSpec_SpeculativeDecoding sp) (LLMInferenceServiceSpec_KVCache sp) (LLMInferenceServiceSpec_Quantization sp)
       (LLMInferenceServiceSpec_Engine sp) (LLMInferenceServiceSpec_ToolSurface sp) (LLMInferenceServiceSpec_Observability sp))
    (LLMInferenceService_Status s).

(** The Deployment and its pod template share the map of their labels, and the
    selector and the spread constraints the builder adds share theirs: the role
    that is written through one of them appears in both. *)
Definition BuildPrefill (b : Builder) (shuffle : list (string * string) -> list (string * string)) (caches : option (list LocalModelCache))
    (s : Svc) (hw : string) : option (option Deployment) :=
  match LLMInferenceServiceSpec_Prefill (Spec s) with
  | None => Some None
  | Some pf =>
      d ← BuildWithRole b shuffle caches (prefill_clone s pf) (replicaCount (PrefillSpec_Replicas pf)) hw [] "kv_producer";
      let d := set_Deployment_Name d (svc_Name s +:+ "-prefill") in
      let d := set_Deployment_Annotations d (<["serving.ckodex.com/pd-disaggregation" := "true"]> (Deployment_Annotations d)) in
      let selectors := <["serving.ckodex.com/role" := "prefill"]> (Deployment_Selector d) in
      let labels := <["serving.ckodex.com/role" := "prefill"]> (Deployment_Labels d) in
      let t := set_Template_Labels (Deployment_Template d) labels in
      let t := match PodSpec_TopologySpreadConstraints (Template_Spec (PrefillSpec_Template pf)) with
               | [] => set_Template_Spec t (set_PodSpec_TopologySpreadConstraints (Template_Spec t) (spread_constraints selectors))
               | _ => t
               end in
      Some (Some (set_Deployment_Template (set_Deployment_Labels (set_Deployment_Selector d selectors) labels) t))
  end.

End Build.
