(* ===== verification/DeploymentProperties.v ===== *)
(** * What the deployment builder guarantees

    Every container of a built pod is hardened, a refused engine runs nothing,
    and building the same service again, whatever the order of Go's maps,
    gives a Deployment that is in sync with the one before. *)

From S2P Require Import Prelude GoStrings GoFilepath GoFloat GoJson OCIReference ParallelDownload AuditEvents LocalModelCache.
From S2P Require Import K8s K8sPods K8sObjects ApiV1alpha2 RuntimeContract RuntimeRegistry DeploymentSync DeploymentBuilder.
From Stdlib Require Import Ascii.

(** ** Loops over maps *)

(** A loop whose steps for different keys commute, over the same entries in
    another order. *)
Lemma foldl_shuffle {S A : Type} (R : S -> S -> Prop) (f : S -> A -> S) (key : A -> string) l1 l2 s1 s2 :
  Symmetric R -> Transitive R ->
  (forall s s' a, R s s' -> R (f s a) (f s' a)) ->
  (forall s a b, R s s -> key a <> key b -> R (f (f s a) b) (f (f s b) a)) ->
  NoDup (key <$> l1) -> l1 ≡ₚ l2 -> R s1 s2 -> R (foldl f s1 l1) (foldl f s2 l2).
Proof.
  intros Hsym Htr Hcong Hcomm Hnd Hp. revert s1 s2.
  assert (forall l s s', R s s' -> R (foldl f s l) (foldl f s' l)) as Hfold.
  { induction l as [|a l IH]; intros s s' Hs; [done|]. cbn. by apply IH, Hcong. }
  induction Hp as [|a l1 l2 Hp IH|a b l|l1 l2 l3 Hp1 IH1 Hp2 IH2]; intros s1 s2 Hs.
  - done.
  - cbn in *. apply NoDup_cons in Hnd as [_ Hnd]. apply IH; [done|]. by apply Hcong.
  - cbn in *. apply Hfold. apply NoDup_cons in Hnd as [Hb _].
    etrans; [apply Hcomm; [by etrans; [|symmetry]|set_solver]|]. by apply Hcong, Hcong.
  - etrans; [apply IH1; [done|exact Hs]|]. apply IH2; [|by etrans; [symmetry|]]. by rewrite <- Hp1.
Qed.

Section Environment.

Context {CR : Carried}.

(** The same variables in another order, with distinct names. *)
Definition same_vars (e1 e2 : list EnvVar_t) : Prop := e1 ≡ₚ e2 /\ NoDup (EnvVar_Name <$> e1).

#[export] Instance same_vars_sym : Symmetric same_vars.
Proof. intros a b [H1 H2]. split; [done|]. by rewrite <- H1. Qed.

#[export] Instance same_vars_trans : Transitive same_vars.
Proof. intros a b c [H1 H2] [H3 _]. split; [by etrans|done]. Qed.

Lemma hasEnv_elem env k : hasEnv env k = true <-> k ∈ EnvVar_Name <$> env.
Proof.
  unfold hasEnv. rewrite existsb_exists, list_elem_of_fmap. setoid_rewrite <- list_elem_of_In. split.
  - intros (e & He & E). apply bool_decide_eq_true in E. eauto.
  - intros (e & -> & He). exists e. split; [done|]. by apply bool_decide_eq_true.
Qed.

Lemma hasEnv_perm e1 e2 k : e1 ≡ₚ e2 -> hasEnv e1 k = hasEnv e2 k.
Proof. intros Hp. apply eq_iff_eq_true. by rewrite !hasEnv_elem, Hp. Qed.

(** Adding a variable unless its name is there. *)
Definition default_into (env : list EnvVar_t) (e : EnvVar_t) : list EnvVar_t := if hasEnv env (EnvVar_Name e) then env else env ++ [e].

Lemma default_into_same e1 e2 x : same_vars e1 e2 -> same_vars (default_into e1 x) (default_into e2 x).
Proof.
  intros [Hp Hn]. unfold default_into. rewrite <- (hasEnv_perm e1 e2) by done. destruct (hasEnv e1 _) eqn:E; [done|].
  split; [by rewrite Hp|]. rewrite fmap_app. apply NoDup_app. split; [done|]. split; [|by apply NoDup_singleton].
  intros k Hk Hk'. apply list_elem_of_singleton in Hk' as ->. apply hasEnv_elem in Hk. congruence.
Qed.

Lemma hasEnv_app env x k : hasEnv (env ++ [x]) k = hasEnv env k || (EnvVar_Name x ==? k).
Proof. unfold hasEnv. rewrite existsb_app. cbn. by rewrite orb_false_r. Qed.

Lemma default_into_comm env x y : same_vars env env -> EnvVar_Name x <> EnvVar_Name y ->
  same_vars (default_into (default_into env x) y) (default_into (default_into env y) x).
Proof.
  intros Hs Hn. assert (forall a b, same_vars a a -> a ≡ₚ b -> same_vars a b) as Hr by (intros a b [_ ?] ?; by split).
  apply Hr; [by apply default_into_same, default_into_same|]. unfold default_into.
  destruct (hasEnv env (EnvVar_Name x)) eqn:Ex, (hasEnv env (EnvVar_Name y)) eqn:Ey; rewrite ?hasEnv_app, ?Ex, ?Ey; cbn; try done.
  rewrite !bool_decide_false by congruence. rewrite <- !app_assoc. cbn. by rewrite (Permutation_swap x y).
Qed.

(** *** Filling variables *)

Lemma fill_env_absent env k v : hasEnv env k = false -> fill_env env k v = env ++ [env_value k v].
Proof.
  unfold hasEnv. induction env as [|e env IH]; [done|]. cbn. destruct (EnvVar_Name e ==? k); [discriminate|]. cbn. intros H. by rewrite IH.
Qed.

(** The variable as it is filled. *)
Definition filled (k v : string) (e : EnvVar_t) : EnvVar_t :=
  if EnvVar_Name e ==? k then (if (EnvVar_Value e ==? "") || (EnvVar_Value e ==? "auto") then set_EnvVar_Value e v else e) else e.

Lemma filled_name k v e : EnvVar_Name (filled k v e) = EnvVar_Name e.
Proof. unfold filled. by repeat case_match. Qed.

Lemma fill_env_present env k v : NoDup (EnvVar_Name <$> env) -> hasEnv env k = true -> fill_env env k v = filled k v <$> env.
Proof.
  unfold hasEnv. induction env as [|e env IH]; [done|]. cbn. intros Hn Hk. apply NoDup_cons in Hn as [He Hn].
  unfold filled at 1. case_bool_decide as E; cbn in *.
  - f_equal. rewrite <- (list_fmap_id env) at 1. apply list_fmap_ext. intros i x Hx. unfold filled.
    rewrite bool_decide_false; [done|]. intros Hxk. apply He. rewrite E, <- Hxk. apply list_elem_of_fmap.
    exists x. split; [done|]. by eapply list_elem_of_lookup_2.
  - f_equal. by apply IH.
Qed.

Lemma filled_other k v e : EnvVar_Name e <> k -> filled k v e = e.
Proof. intros H. unfold filled. by rewrite bool_decide_false. Qed.

Lemma filled_comm k1 v1 k2 v2 e : k1 <> k2 -> filled k1 v1 (filled k2 v2 e) = filled k2 v2 (filled k1 v1 e).
Proof.
  intros Hk. destruct (decide (EnvVar_Name e = k1)) as [E|E].
  - rewrite (filled_other k2 v2 e), (filled_other k2 v2 (filled _ _ _)) by (rewrite ?filled_name; congruence). done.
  - rewrite (filled_other k1 v1 e), (filled_other k1 v1 (filled _ _ _)) by (rewrite ?filled_name; congruence). done.
Qed.

Lemma fill_env_filled env k v : NoDup (EnvVar_Name <$> env) ->
  fill_env env k v = if hasEnv env k then filled k v <$> env else env ++ [env_value k v].
Proof. intros Hn. destruct (hasEnv env k) eqn:E; [by apply fill_env_present|by apply fill_env_absent]. Qed.

Lemma filled_names k v (env : list EnvVar_t) : EnvVar_Name <$> (filled k v <$> env) = EnvVar_Name <$> env.
Proof. rewrite <- list_fmap_compose. apply list_fmap_ext. intros. apply filled_name. Qed.

Lemma hasEnv_filled k v (env : list EnvVar_t) k' : hasEnv (filled k v <$> env) k' = hasEnv env k'.
Proof. apply eq_iff_eq_true. by rewrite !hasEnv_elem, filled_names. Qed.

Lemma fill_env_same e1 e2 k v : same_vars e1 e2 -> same_vars (fill_env e1 k v) (fill_env e2 k v).
Proof.
  intros [Hp Hn]. assert (NoDup (EnvVar_Name <$> e2)) as Hn2 by by rewrite <- Hp.
  rewrite !fill_env_filled, <- (hasEnv_perm e1 e2) by done. destruct (hasEnv e1 k) eqn:E.
  - split; [by rewrite Hp|]. by rewrite filled_names.
  - pose proof (default_into_same e1 e2 (env_value k v) (conj Hp Hn)) as H. unfold default_into in H. cbn [EnvVar_Name env_value] in H.
    by rewrite <- (hasEnv_perm e1 e2), E in H by done.
Qed.

Lemma fill_env_comm env k1 v1 k2 v2 : same_vars env env -> k1 <> k2 ->
  same_vars (fill_env (fill_env env k1 v1) k2 v2) (fill_env (fill_env env k2 v2) k1 v1).
Proof.
  intros Hs Hk. pose proof (fill_env_same _ _ k1 v1 Hs) as Hs1. pose proof (fill_env_same _ _ k2 v2 Hs) as Hs2.
  pose proof (fill_env_same _ _ k2 v2 Hs1) as Hs12. split; [|apply Hs12].
  destruct Hs as [_ Hn], Hs1 as [_ Hn1], Hs2 as [_ Hn2]. rewrite !(fill_env_filled (fill_env _ _ _)) by done.
  rewrite !fill_env_filled by done.
  destruct (hasEnv env k1) eqn:E1, (hasEnv env k2) eqn:E2; rewrite ?hasEnv_filled, ?hasEnv_app, ?E1, ?E2; cbn [orb EnvVar_Name env_value];
    rewrite ?bool_decide_false by congruence; rewrite ?fmap_app; cbn; rewrite ?filled_other by (cbn; congruence); try done.
  - rewrite <- !list_fmap_compose. rewrite (list_fmap_ext _ (filled k1 v1 ∘ filled k2 v2)); [done|]. intros i e _. by apply filled_comm.
  - rewrite <- !app_assoc. cbn. by rewrite (Permutation_swap (env_value k1 v1)).
Qed.

End Environment.

(** ** Pods that differ in the order of the variables *)

Section Alike.

Context {CR : Carried}.

Implicit Types (E : list EnvVar_t -> list EnvVar_t -> Prop) (c : PodContainer) (p : PodSpec).

(** Two containers with environments that are related, equal but for that. *)
Definition like E c1 c2 : Prop := c2 = set_Container_Env c1 (Container_Env c2) /\ E (Container_Env c1) (Container_Env c2).

(** Two pods with first containers that are alike, equal but for that. *)
Definition like_pod E p1 p2 : Prop := exists c1 c2 r,
  PodSpec_Containers p1 = c1 :: r /\ p2 = set_PodSpec_Containers p1 (c2 :: r) /\ like E c1 c2.

(** A change of a container that does not look at its environment. *)
Definition env_free (f : PodContainer -> PodContainer) : Prop := forall c e, f (set_Container_Env c e) = set_Container_Env (f c) e.

Lemma set_env_twice c e e' : set_Container_Env (set_Container_Env c e) e' = set_Container_Env c e'.
Proof. reflexivity. Qed.

Lemma set_env_same c : set_Container_Env c (Container_Env c) = c.
Proof. by destruct c. Qed.

Lemma env_free_kept f c : env_free f -> Container_Env (f c) = Container_Env c.
Proof. intros Hf. rewrite <- (set_env_same c) at 1. by rewrite Hf. Qed.

Lemma env_free_like E f c1 c2 : env_free f -> like E c1 c2 -> like E (f c1) (f c2).
Proof.
  intros Hf [Hc He]. unfold like. rewrite !env_free_kept by done. split; [|done]. by rewrite <- Hf, <- Hc.
Qed.

Lemma env_only_like E E' (h1 h2 : list EnvVar_t -> list EnvVar_t) c1 c2 : (forall e1 e2, E e1 e2 -> E' (h1 e1) (h2 e2)) ->
  like E c1 c2 -> like E' (set_Container_Env c1 (h1 (Container_Env c1))) (set_Container_Env c2 (h2 (Container_Env c2))).
Proof. intros Hh [Hc He]. split; [|by apply Hh]. rewrite Hc at 1. reflexivity. Qed.

Lemma on_first_like E E' f1 f2 p1 p2 : (forall c1 c2, like E c1 c2 -> like E' (f1 c1) (f2 c2)) ->
  like_pod E p1 p2 -> like_pod E' (on_first f1 p1) (on_first f2 p2).
Proof.
  intros Hf (c1 & c2 & r & E1 & -> & Hl). exists (f1 c1), (f2 c2), r. unfold on_first. rewrite E1. cbn. auto.
Qed.

Lemma on_first_free E f p1 p2 : env_free f -> like_pod E p1 p2 -> like_pod E (on_first f p1) (on_first f p2).
Proof. intros Hf. apply on_first_like. intros c1 c2. by apply env_free_like. Qed.

(** A change of a pod that keeps its first container but for fields other than
    the environment. *)
Definition pod_free (g : PodSpec -> PodSpec) : Prop := forall p c r, PodSpec_Containers p = c :: r ->
  exists f r', env_free f /\ forall e, g (set_PodSpec_Containers p (set_Container_Env c e :: r))
    = set_PodSpec_Containers (g p) (f (set_Container_Env c e) :: r').

Lemma pod_free_like E g p1 p2 : pod_free g -> like_pod E p1 p2 -> like_pod E (g p1) (g p2).
Proof.
  intros Hg (c1 & c2 & r & E1 & -> & Hl). destruct (Hg p1 c1 r E1) as (f & r' & Hf & Hp).
  exists (f c1), (f c2), r'. split; [|split].
  - pose proof (Hp (Container_Env c1)) as H. rewrite set_env_same in H.
    replace (set_PodSpec_Containers p1 (c1 :: r)) with p1 in H by (rewrite <- E1; by destruct p1). by rewrite H.
  - rewrite (proj1 Hl) at 1. rewrite Hp. by rewrite <- (proj1 Hl).
  - by apply env_free_like.
Qed.

End Alike.

(** Free changes, by computation. *)
Ltac solve_env_free := intros ?c ?e; cbn - [hasArg hasMountPath]; repeat case_match; reflexivity.
Ltac solve_pod_free := intros ?p ?c ?r ?Hp; cbv beta zeta; destruct p; cbn in Hp; subst; cbn.

(** ** The steps of a build *)

Section Rebuild.

Context {CR : Carried}.
Context (ParseQuantity : string -> option Z) (ParseFloat : string -> option float64) (json_structured : string -> option string).

#[local] Notation Svc := (LLMInferenceService (K := objects_k8s)).
#[local] Notation order := (list (string * string) -> list (string * string)).

Implicit Types (p : PodSpec) (c : PodContainer).

Lemma seed_image_free image : env_free (seed_image image).
Proof. unfold seed_image. solve_env_free. Qed.

Lemma health_probes_like R p1 p2 : like_pod R p1 p2 -> like_pod R (ensureHealthProbes p1) (ensureHealthProbes p2).
Proof. apply on_first_free. intros [? ? ? ? ? ? ? ? ? ? [] [] [] ? ?] e; reflexivity. Qed.

Lemma restricted_free : env_free applyRestrictedSecurityContext.
Proof. solve_env_free. Qed.

Lemma security_like R p1 p2 : like_pod R p1 p2 -> like_pod R (ensureSecurityContext p1) (ensureSecurityContext p2).
Proof.
  apply pod_free_like. solve_pod_free. exists applyRestrictedSecurityContext, (applyRestrictedSecurityContext <$> r).
  split; [apply restricted_free|]. intros e. unfold ensureSecurityContext. cbn. by case_match.
Qed.

Lemma policies_like R p1 p2 selectors : like_pod R p1 p2 -> like_pod R (applyPodPolicies p1 selectors) (applyPodPolicies p2 selectors).
Proof.
  intros H%health_probes_like%security_like. unfold applyPodPolicies. revert H. generalize (ensureSecurityContext (ensureHealthProbes p1)).
  generalize (ensureSecurityContext (ensureHealthProbes p2)). intros q2 q1. apply (pod_free_like _ (fun p => ensureTopologySpreadConstraints p selectors)).
  solve_pod_free. exists id, r. split; [done|]. intros e. unfold ensureTopologySpreadConstraints. cbn. by case_match.
Qed.

Lemma model_mount_free (s : Svc) : env_free (fun c => let c := mountModelVolume s c in
  if hasMountPath (Container_VolumeMounts c) "/tmp" then c
  else set_Container_VolumeMounts c (Container_VolumeMounts c ++ [new_mount "tmp-scratch" "/tmp" false])).
Proof. unfold mountModelVolume. solve_env_free. Qed.

Lemma storage_like R b caches (s : Svc) hw p1 p2 :
  like_pod R p1 p2 -> like_pod R (applyStorage b caches s hw p1) (applyStorage b caches s hw p2).
Proof.
  intros H. unfold applyStorage.
  assert (exists cached g, pod_free g /\ forall p, applyLocalModelCache caches s p = (cached, g p)) as (cached & g & Hg & Ha).
  { unfold applyLocalModelCache. destruct (getReadyLMC _ _) as [active|]; [destruct (readyCacheNodes active)|].
    2: eexists true, _; split; [|reflexivity]; solve_pod_free; by exists id, r.
    all: exists false, id; split; [|done]; solve_pod_free; by exists id, r. }
  rewrite !Ha. apply (pod_free_like _ _ _ _ Hg) in H. apply on_first_free; [apply model_mount_free|].
  apply pod_free_like. { solve_pod_free. exists id, r. split; [done|]. intros e. unfold ensureModelVolume. cbn - [hasVolume].
    destruct (hasVolume _ ModelVolumeName); cbn - [hasVolume]; by destruct (hasVolume _ _). }
  destruct cached; [done|]. destruct (BuildStorageInitializer _ _ _ _ _) as [init|]; [|done].
  revert H. apply (pod_free_like _ (fun p => set_PodSpec_InitContainers p (init :: PodSpec_InitContainers p))).
  solve_pod_free. by exists id, r.
Qed.

Lemma add_volumes_like R vs p1 p2 : like_pod R p1 p2 ->
  like_pod R (set_PodSpec_Volumes p1 (PodSpec_Volumes p1 ++ vs)) (set_PodSpec_Volumes p2 (PodSpec_Volumes p2 ++ vs)).
Proof. apply (pod_free_like _ (fun p => set_PodSpec_Volumes p (PodSpec_Volumes p ++ vs))). solve_pod_free. by exists id, r. Qed.

Lemma lora_mount_like R x p1 p2 : like_pod R p1 p2 -> like_pod R (addLoraMount x p1) (addLoraMount x p2).
Proof.
  intros H. unfold addLoraMount. apply on_first_free; [solve_env_free|by apply add_volumes_like].
Qed.

Lemma lora_like R loras p1 p2 : like_pod R p1 p2 -> like_pod R (applyLoraAdapters loras p1) (applyLoraAdapters loras p2).
Proof.
  intros H. pose proof H as (c1 & c2 & r & E1 & E2 & _). unfold applyLoraAdapters.
  rewrite E1. assert (PodSpec_Containers p2 = c2 :: r) as -> by by rewrite E2.
  assert (forall q1 q2, like_pod R q1 q2 -> like_pod R (foldl (fun p l => addLoraMount l p) q1 loras) (foldl (fun p l => addLoraMount l p) q2 loras)) as Hf.
  { clear. induction loras as [|x loras IH]; intros q1 q2 Hq; [done|]. cbn. by apply IH, lora_mount_like. }
  apply Hf, on_first_free; [solve_env_free|done].
Qed.

Lemma engine_like R b (s : Svc) p1 p2 : like_pod R p1 p2 -> like_pod R (applyEngineSelection b s p1) (applyEngineSelection b s p2).
Proof.
  apply on_first_free. intros c e. unfold engine_container. destruct (Resolve _) as [adapter|]; [|done]. case_match; [|done].
  change (Container_Image (set_Container_Env c e)) with (Container_Image c).
  destruct (aName adapter !=? DefaultEngine); [|destruct (Container_Image c ==? "")]; by destruct (air_gapped b).
Qed.

(** *** The environment *)

Lemma setEnvDefault_env c k v : setEnvDefault c k v = set_Container_Env c (default_into (Container_Env c) (env_value k v)).
Proof. unfold setEnvDefault, default_into. cbn [EnvVar_Name env_value]. case_match; [by rewrite set_env_same|done]. Qed.

Lemma default_like k v c1 c2 : like same_vars c1 c2 -> like same_vars (setEnvDefault c1 k v) (setEnvDefault c2 k v).
Proof. rewrite !setEnvDefault_env. apply (env_only_like _ _ (fun e => default_into e _) (fun e => default_into e _)). intros. by apply default_into_same. Qed.

Lemma default_env_like k v c1 c2 : like same_vars c1 c2 -> like same_vars (default_env k v c1) (default_env k v c2).
Proof. destruct v; [apply default_like|done]. Qed.

Lemma add_pair_free flag v : env_free (fun c => add_pair c flag v).
Proof. unfold add_pair. solve_env_free. Qed.

Lemma into_like x c1 c2 : like same_vars c1 c2 ->
  like same_vars (if hasEnv (Container_Env c1) (EnvVar_Name x) then c1 else add_env c1 x)
                 (if hasEnv (Container_Env c2) (EnvVar_Name x) then c2 else add_env c2 x).
Proof.
  intros H. assert (forall c, (if hasEnv (Container_Env c) (EnvVar_Name x) then c else add_env c x)
    = set_Container_Env c (default_into (Container_Env c) x)) as Hx.
  { intros c. unfold default_into. case_match; [by rewrite set_env_same|done]. }
  rewrite !Hx. revert H. apply (env_only_like _ _ (fun e => default_into e _) (fun e => default_into e _)). intros. by apply default_into_same.
Qed.

Lemma inline_like t connector role extra c1 c2 : like same_vars c1 c2 ->
  like same_vars (configureInlineTransfer t connector role extra c1) (configureInlineTransfer t connector role extra c2).
Proof.
  intros H. unfold configureInlineTransfer. destruct (transfer_config _ _ _) as [cfg|]; [|done].
  apply (env_free_like _ _ _ _ (add_pair_free "--kv-transfer-config" cfg)) in H. revert H.
  generalize (add_pair c1 "--kv-transfer-config" cfg) (add_pair c2 "--kv-transfer-config" cfg). clear c1 c2. intros c1 c2 H.
  assert (forall l c1 c2, like same_vars c1 c2 ->
    like same_vars (foldl (fun c e => if hasEnv (Container_Env c) (EnvVar_Name e) then c else add_env c e) c1 l)
                   (foldl (fun c e => if hasEnv (Container_Env c) (EnvVar_Name e) then c else add_env c e) c2 l)) as Hl.
  { clear. induction l as [|x l IH]; intros c1 c2 H; [done|]. cbn [foldl]. by apply IH, into_like. }
  apply (Hl (range_slice (KVTransferSpec_Env t))) in H. case_match; [|done]. unfold configureLMCacheEnv.
  apply (default_like "LMCACHE_USE_EXPERIMENTAL" "True") in H. case_match; [|done].
  by apply default_env_like, default_env_like, default_env_like, default_like.
Qed.

Lemma multiprocess_like engine c1 c2 : like same_vars c1 c2 ->
  like same_vars (configureMultiprocessCache engine c1) (configureMultiprocessCache engine c2).
Proof.
  intros H. unfold configureMultiprocessCache. apply default_like, (env_free_like _ (fun c => add_pair c _ _)); [apply add_pair_free|].
  by apply (into_like (mkEnvVar_t _ _ _)).
Qed.

Lemma transfer_like (s : Svc) role p1 p2 : like_pod same_vars p1 p2 ->
  like_pod same_vars (applyKVTransfer ParseFloat json_structured s role p1) (applyKVTransfer ParseFloat json_structured s role p2).
Proof.
  intros H. pose proof H as (c1 & c2 & r & E1 & E2 & _). unfold applyKVTransfer.
  rewrite E1. assert (PodSpec_Containers p2 = c2 :: r) as -> by by rewrite E2. destruct (transfer_of s) as [t|]; [|done].
  case_match; [done|]. destruct (multiprocess_engine _) as [engine|].
  - apply (pod_free_like _ (fun p => set_PodSpec_HostIPC p true)); [solve_pod_free; by exists id, r0|].
    apply on_first_like with same_vars; [|done]. apply multiprocess_like.
  - apply on_first_like with same_vars; [|done]. apply inline_like.
Qed.

(** *** Loops over the maps of the builder *)

Section Orders.

Context (sh1 sh2 : order) (Hsh1 : forall l, sh1 l ≡ₚ l) (Hsh2 : forall l, sh2 l ≡ₚ l).

(** A loop over the entries of a map with distinct keys, in the two orders. *)
Lemma orders_agree {S : Type} (R : S -> S -> Prop) (f : S -> string * string -> S) (key : string * string -> string) l s1 s2 :
  Symmetric R -> Transitive R -> (forall s s' a, R s s' -> R (f s a) (f s' a)) ->
  (forall s a b, R s s -> key a <> key b -> R (f (f s a) b) (f (f s b) a)) ->
  NoDup (key <$> l) -> R s1 s2 -> R (foldl f s1 (sh1 l)) (foldl f s2 (sh2 l)).
Proof.
  intros Hsym Htr Hcong Hcomm Hnd. apply (foldl_shuffle R f key); try done; [by rewrite Hsh1|by rewrite Hsh1, Hsh2].
Qed.

Lemma hardware_settings_keys hw image : NoDup ((hardware_settings hw image).1.2).*1.
Proof. unfold hardware_settings. repeat case_match; cbn; apply (bool_decide_unpack _); vm_compute; exact I. Qed.

Lemma hardware_like hw p1 p2 : like_pod same_vars p1 p2 ->
  like_pod same_vars (ApplyHardwareOptimizations sh1 hw p1) (ApplyHardwareOptimizations sh2 hw p2).
Proof.
  unfold ApplyHardwareOptimizations. case_match; [done|]. apply on_first_like. intros c1 c2 [Hc Hs].
  unfold hardware_container. rewrite Hc. cbn [Container_Image set_Container_Env].
  pose proof (hardware_settings_keys hw (Container_Image c1)) as Hk.
  destruct (hardware_settings hw (Container_Image c1)) as [[image envVars] args]. cbn in Hk. split; [reflexivity|]. cbn.
  apply (orders_agree _ _ fst); try done; try apply _.
  - intros. by apply fill_env_same.
  - intros. by apply fill_env_comm.
Qed.

Lemma setEnvDefaults_env l c : foldl (fun c kv => setEnvDefault c kv.1 kv.2) c l
  = set_Container_Env c (foldl (fun env kv => default_into env (env_value kv.1 kv.2)) (Container_Env c) l).
Proof.
  revert c. induction l as [|kv l IH]; intros c; cbn [foldl]; [by rewrite set_env_same|]. by rewrite setEnvDefault_env, IH.
Qed.

Lemma vllm_env_like (s : Svc) p1 p2 : like_pod same_vars p1 p2 -> like_pod same_vars (ensureVLLMEnv sh1 s p1) (ensureVLLMEnv sh2 s p2).
Proof.
  apply on_first_like. intros c1 c2. rewrite !setEnvDefaults_env.
  apply (env_only_like _ _ (fun e => foldl _ e _) (fun e => foldl _ e _)). intros e1 e2.
  apply (orders_agree _ _ fst); try apply _.
  - intros. by apply default_into_same.
  - intros. by apply default_into_comm.
  - apply (bool_decide_unpack _). vm_compute. exact I.
Qed.

Lemma labels_agree (s : Svc) selectors :
  (forall k1 k2, is_Some (default ∅ (LLMInferenceServiceSpec_CostAllocationTags (LLMInferenceService_Spec s)) !! k1) ->
     is_Some (default ∅ (LLMInferenceServiceSpec_CostAllocationTags (LLMInferenceService_Spec s)) !! k2) ->
     cost_label k1 = cost_label k2 -> k1 = k2) ->
  deploymentLabels sh1 s selectors = deploymentLabels sh2 s selectors.
Proof.
  intros Hd. unfold deploymentLabels. set (tags := default ∅ _) in *.
  match goal with |- context [foldl ?f ?s (sh1 ?l)] => assert (foldl f s (sh1 l) = foldl f s (sh2 l)) as ->; [|done] end.
  apply (orders_agree eq _ (fun kv => cost_label kv.1)); try done; try apply _.
  - by intros ? ? ? ->.
  - intros m a b _ Hab. by apply insert_insert_ne.
  - assert (forall l : list (string * string), NoDup l.*1 -> (forall k, k ∈ l.*1 -> is_Some (tags !! k)) -> NoDup ((fun kv => cost_label kv.1) <$> l)) as Hl.
    { induction l as [|[k v] l IH]; intros Hn Hk; [constructor|]. cbn in *. apply NoDup_cons in Hn as [Hnk Hn]. constructor.
      - intros ([k' v'] & Ek & Hin)%list_elem_of_fmap. cbn in Ek. apply Hnk. apply Hd in Ek as ->;
          [by apply (list_elem_of_fmap_2' fst _ (k', v'))|apply Hk; left|apply Hk; right].
        by apply (list_elem_of_fmap_2' fst _ (k', v')).
      - apply IH; [done|]. intros k' Hk'. apply Hk. by right. }
    apply Hl; [apply NoDup_fst_map_to_list|]. intros k ([k' v] & -> & Hin)%list_elem_of_fmap.
    apply elem_of_map_to_list in Hin. eauto.
Qed.

End Orders.

(** *** The sidecars *)

Lemma like_pod_weaken (R R' : list EnvVar_t -> list EnvVar_t -> Prop) p1 p2 :
  (forall e1 e2, R e1 e2 -> R' e1 e2) -> like_pod R p1 p2 -> like_pod R' p1 p2.
Proof. intros H (c1 & c2 & r & E1 & E2 & [Hc He]). exists c1, c2, r. unfold like. eauto 6. Qed.

Lemma spire_like (s : Svc) p1 p2 : like_pod Permutation p1 p2 -> like_pod Permutation (InjectSidecar s p1) (InjectSidecar s p2).
Proof.
  intros H. unfold InjectSidecar.
  apply (pod_free_like _ (fun p => set_PodSpec_Containers p (PodSpec_Containers p ++ [_]))).
  { solve_pod_free. exists id. eexists. split; [done|]. reflexivity. }
  apply on_first_like with Permutation; [|by apply add_volumes_like].
  intros c1 c2 Hl. pose proof (env_free_like _ (fun c => set_Container_VolumeMounts c (Container_VolumeMounts c ++
    [new_mount "spiffe-workload-api" SPIFFEWorkloadAPIPath true])) _ _ ltac:(solve_env_free) Hl) as Hm. revert Hm.
  apply (env_only_like _ _ (fun e => e ++ _) (fun e => e ++ _)). by intros ? ? ->.
Qed.

Lemma vector_like b (s : Svc) p1 p2 : like_pod Permutation p1 p2 -> like_pod Permutation (injectVector b s p1) (injectVector b s p2).
Proof.
  intros H. unfold injectVector. case_match; [|done]. unfold InjectVectorSidecar. apply (pod_free_like _ ensureVectorContainer).
  { solve_pod_free. unfold ensureVectorContainer. cbn. exists id.
    destruct ((Container_Name c ==? "vector") || existsb _ r) eqn:Ev; eexists; (split; [done|]); intros e; cbn; rewrite ?Ev; reflexivity. }
  unfold ensureVectorAppMount. apply on_first_free.
  { intros c e. cbn. by destruct (existsb _ _). }
  revert H. apply pod_free_like. solve_pod_free. exists id, r. split; [done|]. intros e. unfold ensureVectorVolumes. cbn. by destruct (existsb _ _).
Qed.

(** *** Whole builds *)

Section Builds.

Context (sh1 sh2 : order) (Hsh1 : forall l, sh1 l ≡ₚ l) (Hsh2 : forall l, sh2 l ≡ₚ l) (b : Builder) (s : Svc) (hw : string).

(** The pod template has a first container, and no variable of it has two
    entries. *)
Definition template_ok : Prop := exists c r,
  PodSpec_Containers (Template_Spec (LLMInferenceServiceSpec_Template (LLMInferenceService_Spec s))) = c :: r /\ NoDup (EnvVar_Name <$> Container_Env c).

Lemma template_like : template_ok ->
  let p := Template_Spec (LLMInferenceServiceSpec_Template (LLMInferenceService_Spec s)) in like_pod same_vars p p.
Proof.
  intros (c & r & E & Hn). exists c, c, r. split; [done|]. split; [rewrite <- E; by destruct (Template_Spec _)|].
  split; [by rewrite set_env_same|by split].
Qed.

Lemma resources_like R d c1 c2 : like R c1 c2 ->
  match ensureResources ParseQuantity d c1, ensureResources ParseQuantity d c2 with
  | Some c1', Some c2' => like R c1' c2'
  | None, None => True
  | _, _ => False
  end.
Proof.
  intros [Hc He]. unfold ensureResources. rewrite Hc. cbn [Container_Resources set_Container_Env].
  destruct (set_request _ "cpu" _ _) as [m|]; cbn; [|done]. destruct (set_request _ "memory" _ _); cbn; [|done].
  by split.
Qed.

Lemma prepare_like : template_ok ->
  match preparePod ParseQuantity b sh1 s hw, preparePod ParseQuantity b sh2 s hw with
  | Some p1, Some p2 => like_pod same_vars p1 p2
  | None, None => True
  | _, _ => False
  end.
Proof.
  intros Ht%template_like. unfold preparePod. cbv zeta in Ht. set (p := Template_Spec _) in *. clearbody p.
  assert (forall (t : bool) q1 q2, like_pod same_vars q1 q2 -> like_pod same_vars
    (if t then on_first (seed_image (RuntimeImage b)) q1 else q1) (if t then on_first (seed_image (RuntimeImage b)) q2 else q2)) as Hseed.
  { intros [] q1 q2 Hq; [|done]. by apply on_first_free; [apply seed_image_free|]. }
  apply (Hseed ((RuntimeImage b !=? "") && (RuntimeImage b !=? VLLMImage))), (hardware_like sh1 sh2 Hsh1 Hsh2 hw), (Hseed (RuntimeImage b !=? "")) in Ht.
  cbv zeta. revert Ht. set (q1 := if RuntimeImage b !=? "" then on_first _ (ApplyHardwareOptimizations sh1 _ _) else _).
  set (q2 := if RuntimeImage b !=? "" then on_first _ (ApplyHardwareOptimizations sh2 _ _) else _). clearbody q1 q2. intros Ht.
  set (g := fun q => match PodSpec_TerminationGracePeriodSeconds q with Some _ => q | None => set_PodSpec_TerminationGracePeriodSeconds q
    (Some (if TerminationGracePeriodSeconds (Defaults b) ==? 0 then DefaultTerminationGracePeriod else TerminationGracePeriodSeconds (Defaults b))) end).
  assert (pod_free g) as Hg. { solve_pod_free. exists id, r. split; [done|]. intros e. unfold g. cbn. by case_match. }
  apply (pod_free_like _ g) in Ht; [|done]. fold (g q1) (g q2). destruct Ht as (c1 & c2 & r & E1 & E2 & Hl).
  rewrite E1, E2. cbn [PodSpec_Containers set_PodSpec_Containers]. pose proof (resources_like _ (Defaults b) c1 c2 Hl) as Hr.
  destruct (ensureResources _ _ c1) as [c1'|], (ensureResources _ _ c2) as [c2'|]; cbn; try done.
  exists (injectPreStop c1'), (injectPreStop c2'), r. split; [done|]. split; [done|]. apply env_free_like; [|done].
  intros c e. unfold injectPreStop. cbn. by case_match.
Qed.

Lemma runtime_like loras role p1 p2 : like_pod same_vars p1 p2 ->
  like_pod Permutation (applyRuntime ParseFloat json_structured b sh1 s loras role p1) (applyRuntime ParseFloat json_structured b sh2 s loras role p2).
Proof.
  intros H. unfold applyRuntime.
  assert (like_pod same_vars (match loras with [] => p1 | _ => applyLoraAdapters loras p1 end) (match loras with [] => p2 | _ => applyLoraAdapters loras p2 end)) as Hl.
  { destruct loras; [done|by apply lora_like]. }
  apply (engine_like _ b s), (transfer_like s role), (vllm_env_like sh1 sh2 Hsh1 Hsh2 s) in Hl. cbv zeta. apply vector_like.
  assert (forall q1 q2, like_pod same_vars q1 q2 -> like_pod same_vars (applyGPUDeviceSelection s q1) (applyGPUDeviceSelection s q2)) as Hg.
  { clear. intros q1 q2 H. unfold applyGPUDeviceSelection. repeat case_match; try done. eapply on_first_like; [|done]. apply default_like. }
  apply Hg, (like_pod_weaken _ Permutation) in Hl; [|by intros ? ? []]. destruct (b_SPIRE b); [by apply spire_like|done].
Qed.

(** Two Deployments with pods that are alike, equal but for that. *)
Definition like_deployment (d1 d2 : Deployment) : Prop :=
  let t := Deployment_Template d1 in
  d2 = set_Deployment_Template d1 (set_Template_Spec t (Template_Spec (Deployment_Template d2)))
  /\ like_pod Permutation (Template_Spec t) (Template_Spec (Deployment_Template d2)).

(** Different tags give different labels. *)
Definition tags_ok : Prop :=
  let tags := default ∅ (LLMInferenceServiceSpec_CostAllocationTags (LLMInferenceService_Spec s)) in
  forall k1 k2, is_Some (tags !! k1) -> is_Some (tags !! k2) -> cost_label k1 = cost_label k2 -> k1 = k2.

Lemma build_like caches n loras role d1 : template_ok -> tags_ok ->
  BuildWithRole ParseQuantity ParseFloat json_structured b sh1 caches s n hw loras role = Some d1 ->
  exists d2, BuildWithRole ParseQuantity ParseFloat json_structured b sh2 caches s n hw loras role = Some d2 /\ like_deployment d1 d2.
Proof.
  intros Ht Hl. unfold BuildWithRole. pose proof (prepare_like Ht) as Hp.
  destruct (preparePod _ _ sh1 _ _) as [p1|], (preparePod _ _ sh2 _ _) as [p2|]; cbn; try done. intros [= <-]. eexists. split; [done|].
  apply (storage_like _ b caches s hw), (policies_like _ _ _ (deploymentSelectorLabels s)), (runtime_like loras role) in Hp.
  rewrite (labels_agree sh1 sh2 Hsh1 Hsh2 s _ Hl). unfold like_deployment. cbn. split; [|done].
  f_equal. unfold buildAnnotations. destruct Hp as (c1 & c2 & r & -> & -> & [-> _]). reflexivity.
Qed.

End Builds.

(** *** Rebuilding *)

Lemma envs_equal_perm (a : list EnvVar_t) b1 b2 : b1 ≡ₚ b2 -> EnvsEqual a b1 = EnvsEqual a b2.
Proof. intros Hp. apply eq_iff_eq_true. unfold EnvsEqual. rewrite !same_entries_spec. setoid_rewrite Hp. done. Qed.

Lemma containers_equal_like a c1 c2 r : like Permutation c1 c2 -> ContainersEqual a (c1 :: r) = ContainersEqual a (c2 :: r).
Proof.
  intros [Hc He]. destruct a as [|x a]; [done|]. cbn [ContainersEqual]. f_equal. unfold container_equal.
  rewrite (envs_equal_perm _ _ _ He). by rewrite Hc.
Qed.

Lemma in_sync_like e d1 d2 n scaling : like_deployment d1 d2 -> in_sync e d1 n scaling = in_sync e d2 n scaling.
Proof.
  intros [Hd (c1 & c2 & r & E1 & E2 & Hl)]. unfold in_sync. rewrite Hd. rewrite E2.
  cbn -[syncManagedMap ContainersEqual VolumesEqual]. rewrite E1. by rewrite (containers_equal_like _ _ _ _ Hl).
Qed.

(** Building the Deployment of a service again gives the same one but for
    the order of the environment variables of its first container, however Go
    orders its maps, and synchronising with it leaves the Deployment as it is,
    exactly when no two variables or volumes of a pod disagree: a reconciled
    service is not updated for ever. *)
Theorem rebuild_settles (sh1 sh2 : order) b caches (s : Svc) replicas hw loras role d1 existing n scaling :
  (forall l, sh1 l ≡ₚ l) -> (forall l, sh2 l ≡ₚ l) -> template_ok s -> tags_ok s ->
  BuildWithRole ParseQuantity ParseFloat json_structured b sh1 caches s replicas hw loras role = Some d1 ->
  exists d2, BuildWithRole ParseQuantity ParseFloat json_structured b sh2 caches s replicas hw loras role = Some d2
  /\ like_deployment d1 d2
  /\ let d := (SyncDeployment existing d1 n scaling).1 in
     (SyncDeployment d d2 n scaling = (d, false) <-> pods_consistent d1).
Proof.
  intros H1 H2 Ht Hl Hb. destruct (build_like sh1 sh2 H1 H2 _ _ _ _ _ _ _ _ Ht Hl Hb) as (d2 & Hb2 & Hlike).
  exists d2. split; [done|]. split; [done|]. cbv zeta. rewrite !SyncDeployment_synced. cbn [fst].
  rewrite <- (synced_in_sync existing d1 n scaling), (in_sync_like _ _ _ _ _ Hlike).
  destruct (in_sync (synced existing d1 n scaling) d2 n scaling) eqn:E; cbn; [|naive_solver].
  by rewrite (in_sync_synced _ _ _ _ E).
Qed.

(** ** Hardened pods *)

(** What [applyRestrictedSecurityContext] leaves. *)
Definition restricted c : Prop := exists rest, Container_SecurityContext c
  = Some (mkSecurityContext (Some 65532) (Some 65532) (Some true) (Some true) (Some false) (Some ["ALL"]) (Some "RuntimeDefault") rest).

(** The parts of the first container the later steps leave alone. *)
Definition core c : string * list string * option SecurityContext := (Container_Image c, Container_Command c, Container_SecurityContext c).
Definition keeps (f : PodContainer -> PodContainer) : Prop := forall c, core (f c) = core c.

(** A pod with restricted containers followed by [side], and a first container
    of which [P] holds. *)
Definition hardened (P : string * list string -> Prop) (side : list PodContainer) p : Prop :=
  exists c r, PodSpec_Containers p = c :: r ++ side /\ P (Container_Image c, Container_Command c)
  /\ Forall restricted (c :: r) /\ Forall restricted (PodSpec_InitContainers p).

Lemma on_first_hardened P P' side f p :
  (forall c, restricted c -> P (Container_Image c, Container_Command c) ->
     restricted (f c) /\ P' (Container_Image (f c), Container_Command (f c))) ->
  hardened P side p -> hardened P' side (on_first f p).
Proof.
  intros Hf (c & r & E & Hp & Hc & Hi). exists (f c), r. unfold on_first. rewrite E. cbn.
  apply Forall_cons in Hc as [Hc Hr]. destruct (Hf c Hc Hp). eauto.
Qed.

Lemma on_first_keeps P side f p : keeps f -> hardened P side p -> hardened P side (on_first f p).
Proof.
  intros Hf. apply on_first_hardened. intros c [rest Hr] HP. pose proof (Hf c) as E. unfold core in E. simplify_eq.
  split; [exists rest; congruence|congruence].
Qed.

Lemma keeps_foldl {A} (f : PodContainer -> A -> PodContainer) l : (forall a, keeps (fun c => f c a)) -> keeps (fun c => foldl f c l).
Proof. intros Hf. induction l as [|a l IH]; intros c; [done|]. cbn. by rewrite IH, Hf. Qed.

Lemma keeps_default k v : keeps (fun c => setEnvDefault c k v).
Proof. intros c. unfold setEnvDefault. by case_match. Qed.

Lemma keeps_default_env k v : keeps (default_env k v).
Proof. destruct v; [apply keeps_default|done]. Qed.

Lemma keeps_pair flag v : keeps (fun c => add_pair c flag v).
Proof. intros c. unfold add_pair. by case_match. Qed.

Lemma keeps_into x : keeps (fun c => if hasEnv (Container_Env c) (EnvVar_Name x) then c else add_env c x).
Proof. intros c. by case_match. Qed.

Lemma keeps_multiprocess engine : keeps (configureMultiprocessCache engine).
Proof. intros c. unfold configureMultiprocessCache. cbv zeta. rewrite keeps_default, keeps_pair. apply (keeps_into (mkEnvVar_t _ _ _)). Qed.

Lemma keeps_lmcache cache : keeps (configureLMCacheEnv cache).
Proof.
  intros c. unfold configureLMCacheEnv. destruct cache as [l|]; rewrite ?keeps_default_env; by rewrite ?keeps_default.
Qed.

Lemma keeps_inline t connector role extra : keeps (configureInlineTransfer t connector role extra).
Proof.
  intros c. unfold configureInlineTransfer. destruct (transfer_config _ _ _) as [cfg|]; [|done]. cbv zeta.
  assert (forall c, core (foldl (fun c e => if hasEnv (Container_Env c) (EnvVar_Name e) then c else add_env c e) c (range_slice (KVTransferSpec_Env t))) = core c) as Hl.
  { apply (keeps_foldl (fun c e => if hasEnv (Container_Env c) (EnvVar_Name e) then c else add_env c e)). apply keeps_into. }
  case_match; rewrite ?keeps_lmcache, Hl; apply keeps_pair.
Qed.

Lemma transfer_hardened P side (s : Svc) role p :
  hardened P side p -> hardened P side (applyKVTransfer ParseFloat json_structured s role p).
Proof.
  intros H. unfold applyKVTransfer. destruct (PodSpec_Containers p); [done|]. destruct (transfer_of s) as [t|]; [|done].
  cbv zeta. destruct (connector_name _ ==? ""); [done|]. destruct (multiprocess_engine _) as [engine|].
  - by apply (on_first_keeps P side _ p (keeps_multiprocess engine)).
  - by apply (on_first_keeps P side _ p (keeps_inline _ _ _ _)).
Qed.

Lemma vllm_env_hardened P side sh (s : Svc) p : hardened P side p -> hardened P side (ensureVLLMEnv sh s p).
Proof. apply on_first_keeps, (keeps_foldl (fun c kv => setEnvDefault c kv.1 kv.2)). intros [k v]. apply keeps_default. Qed.

Lemma gpu_hardened P side (s : Svc) p : hardened P side p -> hardened P side (applyGPUDeviceSelection s p).
Proof. intros H. unfold applyGPUDeviceSelection. repeat case_match; try done. apply on_first_keeps; [apply keeps_default|done]. Qed.

Lemma spire_hardened P (s : Svc) p : hardened P [] p ->
  hardened P [spiffe_sidecar s (new_mount "spiffe-workload-api" SPIFFEWorkloadAPIPath true)] (InjectSidecar s p).
Proof.
  intros H. unfold InjectSidecar. cbv zeta.
  match goal with |- context [on_first ?f ?q] => assert (hardened P [] (on_first f q)) as (c & r & E & HP & Hr & Hi) end.
  { by apply on_first_keeps. }
  exists c, r. cbn. rewrite E, app_nil_r. eauto.
Qed.

Lemma vector_hardened P side b (s : Svc) p : hardened P side p ->
  exists side', side' ⊆ side ++ [vectorSidecar] /\ hardened P side' (injectVector b s p).
Proof.
  intros H. unfold injectVector. case_match; [|exists side; split; [set_solver|done]]. unfold InjectVectorSidecar.
  assert (hardened P side (ensureVectorAppMount (ensureVectorVolumes (svc_Name s +:+ "-vector-config") p))) as Hm.
  { apply on_first_keeps; [intros c; cbn; by destruct (existsb _ _)|]. unfold ensureVectorVolumes. by destruct (hasVolume _ _). }
  revert Hm. generalize (ensureVectorAppMount (ensureVectorVolumes (svc_Name s +:+ "-vector-config") p)). intros q Hq.
  unfold ensureVectorContainer. destruct (existsb _ _); [exists side; split; [set_solver|done]|].
  exists (side ++ [vectorSidecar]). split; [done|]. destruct Hq as (c & r & E & HP & Hr & Hi). exists c, r. cbn. rewrite E. cbn.
  rewrite <- app_assoc. eauto.
Qed.

Lemma policies_hardened selectors p : PodSpec_Containers p <> [] -> hardened (fun _ => True) [] (applyPodPolicies p selectors).
Proof.
  intros Hp. assert (PodSpec_Containers (ensureHealthProbes p) <> []) as Hq by (unfold ensureHealthProbes, on_first; by destruct (PodSpec_Containers p)).
  assert (forall l : list PodContainer, Forall restricted (applyRestrictedSecurityContext <$> l)) as Hr.
  { intros l. apply Forall_fmap, Forall_true. intros c. by eexists. }
  assert (hardened (fun _ => True) [] (ensureSecurityContext (ensureHealthProbes p))) as (c & r & E & _ & Hc & Hi).
  { destruct (PodSpec_Containers (ensureHealthProbes p)) as [|c r] eqn:E; [done|]. unfold ensureSecurityContext. rewrite E. cbn.
    exists (applyRestrictedSecurityContext c), (applyRestrictedSecurityContext <$> r). rewrite app_nil_r.
    split; [by case_match|]. split; [done|]. split; [apply (Hr (c :: r))|]. case_match; apply Hr. }
  exists c, r. unfold applyPodPolicies, ensureTopologySpreadConstraints. by case_match.
Qed.

Lemma lora_hardened loras p : hardened (fun _ => True) [] p -> hardened (fun _ => True) [] (applyLoraAdapters loras p).
Proof.
  intros H. unfold applyLoraAdapters. destruct (PodSpec_Containers p); [done|]. cbv zeta.
  assert (hardened (fun _ => True) [] (on_first (fun c => if hasArg (Container_Args c) "--enable-lora" then c
    else set_Container_Args c (Container_Args c ++ ["--enable-lora"])) p)) as Hf by (apply on_first_keeps; [intros c; by case_match|done]).
  revert Hf. generalize (on_first (fun c => if hasArg (Container_Args c) "--enable-lora" then c
    else set_Container_Args c (Container_Args c ++ ["--enable-lora"])) p). clear.
  induction loras as [|x loras IH]; intros p H; [done|]. cbn. apply IH. by apply on_first_keeps.
Qed.

(** The engine of the service is unknown, does not accept it, or has no usable
    image. *)
Definition engine_refused (s : Svc) : bool :=
  match Resolve (K := objects_k8s) (LLMInferenceServiceSpec_Engine (LLMInferenceService_Spec s)) with
  | None => true
  | Some adapter => negb (bool_decide (aValidate adapter (Some s) = []) && Valid (aImage adapter))
  end.

Lemma engine_hardened b (s : Svc) p : hardened (fun _ => True) [] p ->
  hardened (fun x => engine_refused s = true -> x = ("", [])) [] (applyEngineSelection b s p).
Proof.
  apply on_first_hardened. intros c Hc _. unfold engine_container, engine_refused. destruct (Resolve _) as [adapter|]; [|done].
  destruct (_ && Valid _); [|done]. cbn. split; [|done]. destruct Hc as [rest Hr]. exists rest. by repeat case_match.
Qed.

Lemma runtime_hardened b sh (s : Svc) loras role p : hardened (fun _ => True) [] p ->
  exists side, side ⊆ [spiffe_sidecar s (new_mount "spiffe-workload-api" SPIFFEWorkloadAPIPath true); vectorSidecar]
  /\ hardened (fun x => engine_refused s = true -> x = ("", [])) side (applyRuntime ParseFloat json_structured b sh s loras role p).
Proof.
  intros H. unfold applyRuntime. cbv zeta.
  assert (hardened (fun _ => True) [] (match loras with [] => p | _ => applyLoraAdapters loras p end)) as Hl
    by (destruct loras; [done|by apply lora_hardened]).
  apply (engine_hardened b s), (transfer_hardened _ _ s role), (vllm_env_hardened _ _ sh s), (gpu_hardened _ _ s) in Hl.
  destruct (b_SPIRE b); [apply (spire_hardened _ s) in Hl|]; apply (vector_hardened _ _ b s) in Hl as (side & Hs & Hl); exists side; (split; [set_solver|done]).
Qed.

Lemma prepare_containers b sh (s : Svc) hw p : template_ok s -> preparePod ParseQuantity b sh s hw = Some p -> PodSpec_Containers p <> [].
Proof.
  intros (c & r & E & _). unfold preparePod. cbv zeta. intros Hp.
  assert (forall f q, PodSpec_Containers q <> [] -> PodSpec_Containers (on_first f q) <> []) as Hf.
  { intros f q Hq. unfold on_first. by destruct (PodSpec_Containers q). }
  set (q := Template_Spec _) in *. assert (PodSpec_Containers q <> []) as Hq by by rewrite E. clearbody q.
  destruct (PodSpec_Containers _) as [|c' r'] eqn:E' in Hp.
  - exfalso. revert E'. case_match; cbn; repeat first [case_match | apply Hf | done | unfold ApplyHardwareOptimizations].
  - destruct (ensureResources _ _ _); cbn in Hp; [|done]. by injection Hp as <-.
Qed.

Lemma storage_containers b caches (s : Svc) hw p : PodSpec_Containers p <> [] -> PodSpec_Containers (applyStorage b caches s hw p) <> [].
Proof.
  intros Hp. unfold applyStorage. assert (PodSpec_Containers (applyLocalModelCache caches s p).2 = PodSpec_Containers p) as E
    by (unfold applyLocalModelCache; by repeat case_match).
  destruct (applyLocalModelCache caches s p) as [cached q]. cbn in E.
  assert (forall q, PodSpec_Containers (ensureModelVolume s q) = PodSpec_Containers q) as Hm
    by (intros q'; unfold ensureModelVolume; destruct (hasVolume _ ModelVolumeName); by case_match).
  unfold ensureModelVolumeMount, on_first. rewrite Hm.
  assert (PodSpec_Containers (if cached then q else match BuildStorageInitializer b caches s hw None with
    | Some init => set_PodSpec_InitContainers q (init :: PodSpec_InitContainers q) | None => q end) = PodSpec_Containers p) as ->
    by (rewrite <- E; by repeat case_match).
  destruct (PodSpec_Containers p) eqn:E3; [done|]. done.
Qed.

(** C9. Every container and init container of a Deployment that is built is
    hardened, when the pod template has a first container and none of its
    variables has two entries: it must not be root and cannot gain privileges,
    and but for the SPIFFE and Vector sidecars it runs as user and group 65532,
    drops all capabilities, and has the default seccomp profile and a read-only
    root filesystem, whatever the template says.  For a service whose engine is
    unknown, rejects it or has no valid image the first container has no image
    and no command. *)
Theorem built_pods_hardened b sh caches (s : Svc) replicas hw loras role d :
  template_ok s -> BuildWithRole ParseQuantity ParseFloat json_structured b sh caches s replicas hw loras role = Some d ->
  let p := Template_Spec (Deployment_Template d) in
  (forall c, c ∈ PodSpec_Containers p ++ PodSpec_InitContainers p ->
     (exists sc, Container_SecurityContext c = Some sc /\ Security_RunAsNonRoot sc = Some true /\ Security_AllowPrivilegeEscalation sc = Some false)
     /\ (restricted c \/ c = spiffe_sidecar s (new_mount "spiffe-workload-api" SPIFFEWorkloadAPIPath true) \/ c = vectorSidecar))
  /\ (engine_refused s = true -> exists c r, PodSpec_Containers p = c :: r /\ Container_Image c = "" /\ Container_Command c = []).
Proof.
  intros Ht Hb. unfold BuildWithRole in Hb. destruct (preparePod _ _ _ _ _) as [q|] eqn:Eq; cbn in Hb; [|done].
  injection Hb as <-. cbn. apply (prepare_containers _ _ _ _ _ Ht), (storage_containers b caches s hw) in Eq.
  apply (policies_hardened (deploymentSelectorLabels s)), (runtime_hardened b sh s loras role) in Eq as (side & Hside & c0 & r & E & HP & Hr & Hi).
  rewrite E. split.
  - intros c Hc. assert (restricted c \/ c = spiffe_sidecar s (new_mount "spiffe-workload-api" SPIFFEWorkloadAPIPath true) \/ c = vectorSidecar) as Hx.
    { rewrite app_comm_cons, !elem_of_app in Hc. rewrite !Forall_forall in Hr, Hi. destruct Hc as [[Hc|Hc]|Hc]; [auto| |auto].
      apply Hside in Hc. rewrite !elem_of_cons, elem_of_nil in Hc. tauto. }
    split; [|done]. destruct Hx as [[rest ->]|[->| ->]]; eexists; (split; [reflexivity|]); done.
  - intros Hx. specialize (HP Hx). injection HP as ? ?. eauto.
Qed.

(** ** Cached models *)

(** A service whose model a ready LocalModelCache holds gets a host directory
    named after the cache as its model volume, and no initializer. *)
Lemma cached_model_from_host b caches (s : Svc) hw p active :
  getReadyLMC caches (ModelSpec_URI (LLMInferenceServiceSpec_Model (LLMInferenceService_Spec s))) = Some active ->
  let q := applyStorage b caches s hw p in
  mkVolume ModelVolumeName (HostPath ("/tmp/ckodex/models/" +:+ lmc_Name active)) ∈ PodSpec_Volumes q
  /\ PodSpec_InitContainers q = PodSpec_InitContainers p.
Proof.
  intros Ha. cbv zeta. unfold applyStorage, applyLocalModelCache. rewrite Ha.
  assert (readyCacheNodes active <> []) as Hn.
  { unfold getReadyLMC in Ha. destruct caches as [l|]; cbn in Ha; [|done]. apply head_Some_elem_of, list_elem_of_In, filter_In in Ha as [_ Ha].
    apply andb_true_iff in Ha as [_ Ha]. unfold localCacheReady in Ha. apply existsb_exists in Ha as (st & Hin & Hst).
    unfold readyCacheNodes. intros [=E%fmap_nil_inv]. assert (st ∈ List.filter (fun st => Phase st ==? "Ready") (NodeStatuses (Status active))) as Hf
      by (apply list_elem_of_In, filter_In; done). rewrite E in Hf. by apply not_elem_of_nil in Hf. }
  destruct (readyCacheNodes active); [done|]. unfold ensureModelVolumeMount.
  assert (forall f q, PodSpec_Volumes (on_first f q) = PodSpec_Volumes q /\ PodSpec_InitContainers (on_first f q) = PodSpec_InitContainers q) as Hf.
  { intros f q. unfold on_first. by case_match. }
  cbv zeta. rewrite (proj1 (Hf _ _)), (proj2 (Hf _ _)).
  unfold ensureModelVolume. cbn - [hasVolume]. destruct (hasVolume _ ModelVolumeName); cbn - [hasVolume]; destruct (hasVolume _ _); cbn;
    (split; [unfold cacheHostVolume; set_solver|done]).
Qed.

End Rebuild.

(** ** A concrete service *)

#[local] Existing Instance demo_carried.

Definition demo_pod_container : PodContainer := set_Container_Env (demo_container "" [] [] None)
  [mkEnvVar_t "VLLM_CPU_KVCACHE_SPACE" "" (Some (ConfigMapKeyRef "cfg" "space")); demo_env "HOME" "/data"].

Definition demo_service (engine uri : string) (tags : gmap string string) (c : PodContainer) : LLMInferenceService (K := objects_k8s) :=
  let z := zero_LLMInferenceServiceSpec in
  mkLLMInferenceService (tt : TypeMeta) (mkMeta "m" "prod" ∅ ∅ 0 [] false)
    (mkLLMInferenceServiceSpec (mkModelSpec uri "" "org/m" None false) None None None (mkPodTemplate ∅ ∅ (set_PodSpec_Containers zero_PodSpec [c]))
       None None (LLMInferenceServiceSpec_Router z) None None None (Some tags) None None None None None engine None None)
    (LLMInferenceService_Status zero_LLMInferenceService).

Definition demo_builder (spire : bool) : Builder :=
  mkBuilder spire true "" false "" "" "" "" "" (mkDefaults "" "" 0 "").
Definition demo_quantity (s : string) : option Z := if s ==? "2" then Some (2 * 10 ^ 9) else if s ==? "4Gi" then Some (4 * 2 ^ 30 * 10 ^ 9) else None.
Definition demo_built (engine : string) (sh : list (string * string) -> list (string * string)) : option Deployment :=
  BuildWithRole demo_quantity (fun _ => None) (fun _ => None) (demo_builder true) sh (Some [])
    (demo_service engine "hf://org/m" {["team" := "a"; "env" := "b"]} demo_pod_container) 2 HardwareGenericX86 [] "".

Definition demo_env_order (o : option Deployment) : list string :=
  match o with
  | Some d => match PodSpec_Containers (Template_Spec (Deployment_Template d)) with c :: _ => EnvVar_Name <$> Container_Env c | [] => [] end
  | None => []
  end.

Lemma demo_template_ok engine tags uri : template_ok (demo_service engine uri tags demo_pod_container).
Proof. exists demo_pod_container, []. split; [done|]. apply (bool_decide_unpack _). vm_compute. exact I. Qed.

(** The Deployment built with the maps in one order and in the reverse. *)
Lemma rebuild_settles_witness :
  demo_env_order (demo_built "vllm" id) <> demo_env_order (demo_built "vllm" reverse)
  /\ exists d1 d2, demo_built "vllm" id = Some d1 /\ demo_built "vllm" reverse = Some d2 /\ like_deployment d1 d2.
Proof.
  split; [by vm_compute|]. destruct (demo_built "vllm" id) as [d1|] eqn:E; [|by vm_compute in E]. exists d1.
  destruct (rebuild_settles demo_quantity (fun _ => None) (fun _ => None) id reverse (demo_builder true) (Some [])
    (demo_service "vllm" "hf://org/m" {["team" := "a"; "env" := "b"]} demo_pod_container) 2 HardwareGenericX86 [] "" d1 d1 2 false) as (d2 & H2 & Hl & _).
  - done.
  - intros l. apply reverse_Permutation.
  - apply demo_template_ok.
  - intros k1 k2 [v1 H1] [v2 H2]. cbn in H1, H2.
    apply lookup_insert_Some in H1 as [[<- _]|[_ [<- _]%lookup_singleton_Some]];
    apply lookup_insert_Some in H2 as [[<- _]|[_ [<- _]%lookup_singleton_Some]]; done.
  - exact E.
  - exists d2. auto.
Defined.

Lemma built_pods_hardened_witness : exists d, demo_built "none" id = Some d
  /\ exists c r, PodSpec_Containers (Template_Spec (Deployment_Template d)) = c :: r /\ Container_Image c = "" /\ Container_Command c = [].
Proof.
  destruct (demo_built "none" id) as [d|] eqn:E; [|by vm_compute in E]. exists d. split; [done|].
  apply (built_pods_hardened demo_quantity (fun _ => None) (fun _ => None) (demo_builder true) id (Some [])
    (demo_service "none" "hf://org/m" {["team" := "a"; "env" := "b"]} demo_pod_container) 2 HardwareGenericX86 [] "" d).
  - apply demo_template_ok.
  - exact E.
  - by vm_compute.
Defined.

(** An oci:// reference without a tag gets no [latest] before the hardware
    suffix; options that look like truth values are written as such; a request
    that is filled in can exceed the limit that is set; a variable that has a
    source also gets a value; two cost tags can have the same label, which then
    depends on the order of the map; and an image that is already in the local
    registry is prefixed again. *)
Example deployment_oddities :
  transformModelURI "oci://reg/m" HardwareNVIDIA = "oci://reg/m-nvidia"
  /\ parseKVValue (fun _ => None) (fun _ => None) "1" = Some "true"
  /\ (let small := set_Container_Resources demo_pod_container (mkResourceRequirements ∅ {["memory" := 10 ^ 9]} "") in
      match ensureResources demo_quantity (mkDefaults "" "" 0 "") small with
      | Some c => (Resources_Requests (Container_Resources c) !! "memory", Resources_Limits (Container_Resources c) !! "memory")
      | None => (None, None)
      end = (Some (4 * 2 ^ 30 * 10 ^ 9), Some (10 ^ 9)))
  /\ fill_env (Container_Env demo_pod_container) "VLLM_CPU_KVCACHE_SPACE" "10"
     = [mkEnvVar_t "VLLM_CPU_KVCACHE_SPACE" "10" (Some (ConfigMapKeyRef "cfg" "space")); demo_env "HOME" "/data"]
  /\ (let s := demo_service "vllm" "" {["a.b" := "1"; "a-b" := "2"]} demo_pod_container in
      negb (bool_decide (deploymentLabels id s ∅ = deploymentLabels reverse s ∅)) = true)
  /\ rewriteImage (mkBuilder false true "" true "reg.local" "" "" "" "" (mkDefaults "" "" 0 "")) "reg.local/vllm:1" = "reg.local/reg.local/vllm:1".
Proof. vm_compute. repeat split; reflexivity. Qed.
