(* ===== verification/WellKnown.v ===== *)
(** * Presets of well-known models

    [internal/controller/wellknown.go] and [wellknown_merge.go]: which preset
    a model URI selects, and how a preset is merged into the spec of a
    service.  [accelerator.go] sets the GPU resources of a container. *)

From S2P Require Import Prelude GoStrings K8s K8sPods K8sObjects ApiV1alpha2 DeploymentSync DeploymentBuilder.
From Stdlib Require Import Ascii.

(** ** wellknown_merge.go: tokens *)

Definition isAlnum (b : ascii) : bool :=
  let x := code b in (x >=? 48) && (x <=? 57) || (x >=? 97) && (x <=? 122) || (x >=? 65) && (x <=? 90).

(** A position outside the string is an edge. *)
Definition edge (o : option ascii) : bool := match o with Some b => negb (isAlnum b) | None => true end.

(** The loop from position [i]; [at] is the next occurrence.  Every round
    advances, so a round per byte and one more are enough. *)
Fixpoint token_loop (fuel : nat) (lower needle : string) (i : nat) : bool :=
  match fuel with
  | O => false
  | S fuel =>
      if (i + String.length needle <=? String.length lower)%nat then
        match Index (str_drop i lower) needle with
        | None => false
        | Some off =>
            let at_ := (i + off)%nat in
            let before := (at_ =? 0)%nat || edge (String.get (at_ - 1) lower) in
            let after := edge (String.get (at_ + String.length needle) lower) in
            if before && after then true else token_loop fuel lower needle (S at_)
        end
      else false
  end.

Definition containsToken (s token : string) : bool :=
  let lower := ToLower s in token_loop (S (S (String.length lower))) lower (ToLower token) 0.

(** ** wellknown_merge.go: arguments *)

Definition hasArgName (args : list string) (flag : string) : bool :=
  existsb (fun a => (a ==? flag) || HasPrefix a (flag +:+ "=")) args.

(** The flag of an argument: the part before an equals sign. *)
Definition flag_of (arg : string) : string := match Index arg "=" with Some i => str_take i arg | None => arg end.

Definition is_flag (arg : string) : bool := HasPrefix arg "-".

(** Whether a flag of the preset is left out. *)
Definition flag_taken (merged : list string) (flag : string) : bool :=
  hasArgName merged flag || ((flag ==? "--enable-turboquant") && hasArgName merged "--disable-turboquant").

Fixpoint merge_args (merged preset : list string) : list string :=
  match preset with
  | [] => merged
  | arg :: rest =>
      if negb (is_flag arg) then merge_args merged rest
      else if flag_taken merged (flag_of arg) then merge_args merged rest
      else if Contains arg "=" then merge_args (merged ++ [arg]) rest
      else match rest with
           | value :: rest' =>
               if negb (is_flag value) then merge_args (merged ++ [arg; value]) rest' else merge_args (merged ++ [arg]) rest
           | [] => merge_args (merged ++ [arg]) rest
           end
  end.

Definition mergePresetArgs (existing preset : list string) : list string := merge_args existing preset.

Section Presets.

Context {CR : Carried}.

#[local] Notation Spec := (LLMInferenceServiceSpec (K := objects_k8s)).

(** ** Configurations *)

Record VLLMDefaultsSpec := mkVLLMDefaults {
  Image : string; Args : list string; Resources : option ResourceRequirements; EnableTurboQuant : bool; TurboQuantMetadataPath : string }.

Record LLMInferenceServiceConfigSpec := mkConfig {
  Template : option PodTemplate; Router : option RouterSpec; Scaling : option ScalingSpec; Parallelism : option ParallelismSpec;
  Worker : option (WorkerSpec (K := objects_k8s)); VLLMDefaults : option VLLMDefaultsSpec }.

(** Whole units and gibibytes in nano-units. *)
Definition units (n : Z) : Z := n * 10 ^ 9.
Definition gibi (n : Z) : Z := n * 2 ^ 30 * 10 ^ 9.
Definition gpu_list (cpu memory gpus : Z) : gmap string Z := {["cpu" := units cpu; "memory" := gibi memory; "nvidia.com/gpu" := units gpus]}.
Definition requests_only (cpu memory gpus : Z) : ResourceRequirements := mkResourceRequirements (gpu_list cpu memory gpus) ∅ no_Opaque.
Definition with_limits (cpu memory gpus : Z) : ResourceRequirements :=
  mkResourceRequirements (gpu_list cpu memory gpus) (gpu_list cpu memory gpus) no_Opaque.

Definition preset (p : option ParallelismSpec) (args : list string) (r : option ResourceRequirements) : LLMInferenceServiceConfigSpec :=
  mkConfig None None None p None (Some (mkVLLMDefaults "" args r false "")).

Definition tensor (n : Z) (expert eplb : bool) : option ParallelismSpec := Some (mkParallelismSpec (Some n) None None None expert None eplb).

Definition toolArgs (parser : string) : list string := ["--enable-auto-tool-choice"; "--tool-call-parser"; parser].

Definition qwen3ToolArgs (modelURI : string) : list string :=
  let norm := ToLower modelURI in
  let parser := if Contains norm "coder" then "qwen3_coder" else "hermes" in
  toolArgs parser ++ (if Contains norm "coder" || Contains norm "thinking" || Contains norm "reasoning" then ["--reasoning-parser"; "qwen3"] else []).

Definition GetWellKnownConfig (modelURI : string) : option LLMInferenceServiceConfigSpec :=
  let isGemma4 variant := containsToken modelURI "gemma-4" && containsToken modelURI variant in
  let isDeepSeek variant := containsToken modelURI "deepseek" && containsToken modelURI variant in
  let isQwen3 size := containsToken modelURI "qwen3" && containsToken modelURI size in
  if isGemma4 "E2B" then
    Some (preset None (["--max-model-len"; "131072"; "--trust-remote-code"; "--enforce-eager"; "--gpu-memory-utilization"; "0.95"; "--max-num-seqs"; "256"]
                         ++ toolArgs "hermes") (Some (with_limits 8 32 1)))
  else if isGemma4 "E4B" then
    Some (preset None (["--max-model-len"; "131072"; "--trust-remote-code"; "--enforce-eager"; "--gpu-memory-utilization"; "0.95"; "--max-num-seqs"; "128"]
                         ++ toolArgs "hermes") (Some (with_limits 16 64 1)))
  else if isGemma4 "26B-A4B" then
    Some (preset (Some (mkParallelismSpec None None None None true None false))
            (["--max-model-len"; "65536"; "--trust-remote-code"; "--enforce-eager"] ++ toolArgs "hermes") (Some (with_limits 32 128 1)))
  else if isGemma4 "31B" then
    Some (preset (tensor 2 false false)
            (["--max-model-len"; "65536"; "--trust-remote-code"; "--enforce-eager"] ++ toolArgs "hermes") (Some (with_limits 32 256 2)))
  else if Contains modelURI "meta-llama/Llama-3.1-8B-it" then
    Some (preset None ["--max-model-len"; "32768"; "--trust-remote-code"] (Some (requests_only 8 32 1)))
  else if Contains (ToLower modelURI) "llama-4" then
    Some (preset None (["--max-model-len"; "32768"; "--trust-remote-code"] ++ toolArgs "llama4_json") (Some (requests_only 16 64 1)))
  else if Contains modelURI "meta-llama/Llama-3.1-70B-it" then
    Some (preset (tensor 4 false false) ["--max-model-len"; "16384"; "--trust-remote-code"] (Some (requests_only 32 256 4)))
  else if Contains modelURI "mistralai/Mistral-7B-v0.3" then
    Some (preset None ["--max-model-len"; "32768"; "--tokenizer-mode"; "mistral"] (Some (requests_only 8 32 1)))
  else if isDeepSeek "V4" || isDeepSeek "V3.2" then
    Some (preset (tensor 8 true true)
            ["--max-model-len"; "8192"; "--trust-remote-code"; "--enable-chunked-prefill"; "--kv-cache-dtype"; "fp8"; "--gpu-memory-utilization"; "0.90"]
            (Some (with_limits 64 512 8)))
  else if isQwen3 "72B" then
    Some (preset (tensor 4 false false)
            (["--max-model-len"; "32768"; "--trust-remote-code"; "--gpu-memory-utilization"; "0.90"] ++ qwen3ToolArgs modelURI) (Some (requests_only 32 256 4)))
  else if isQwen3 "8B" || isQwen3 "7B" then
    Some (preset None
            (["--max-model-len"; "32768"; "--trust-remote-code"; "--gpu-memory-utilization"; "0.90"] ++ qwen3ToolArgs modelURI) (Some (requests_only 8 32 1)))
  else if containsToken modelURI "qwen3" then Some (preset None (qwen3ToolArgs modelURI) None)
  else None.

(** ** Merging *)

(** Entries the base does not have. *)
Definition mergeResources (base def : ResourceRequirements) : ResourceRequirements :=
  mkResourceRequirements (Resources_Requests base ∪ Resources_Requests def) (Resources_Limits base ∪ Resources_Limits def) (Resources_rest base).

Definition mergePodSpec (base override : PodSpec) : PodSpec :=
  match PodSpec_Containers override with
  | [] => base
  | over :: _ =>
      on_first (fun c =>
        let c := if Container_Image over !=? "" then set_Container_Image c (Container_Image over) else c in
        let c := set_Container_Env c (Container_Env c ++ Container_Env over) in
        set_Container_Resources c (mergeResources (Container_Resources c) (Container_Resources over))) base
  end.

Definition merge_parallelism (spec cfg : option ParallelismSpec) : option ParallelismSpec :=
  match cfg, spec with
  | None, _ => spec
  | Some c, None => Some c
  | Some c, Some s =>
      Some (mkParallelismSpec (match ParallelismSpec_Tensor s with Some t => Some t | None => ParallelismSpec_Tensor c end)
              (match ParallelismSpec_Data s with Some d => Some d | None => ParallelismSpec_Data c end)
              (ParallelismSpec_DataLocal s) (ParallelismSpec_GPUDevices s) (ParallelismSpec_Expert s) (ParallelismSpec_Pipeline s)
              (ParallelismSpec_EPLBEnabled s))
  end.

Definition apply_defaults (d : VLLMDefaultsSpec) (c : PodContainer) : PodContainer :=
  let c := if (Image d !=? "") && (Container_Image c ==? "") then set_Container_Image c (Image d) else c in
  let c := set_Container_Args c (mergePresetArgs (Container_Args c) (Args d)) in
  let c := match Resources d with Some r => set_Container_Resources c (mergeResources (Container_Resources c) r) | None => c end in
  let c := if EnableTurboQuant d then setEnvDefault c "VLLM_TURBOQUANT" "true" else c in
  if hasArgName (Container_Args c) "--enable-request-id-headers" then c
  else set_Container_Args c (Container_Args c ++ ["--enable-request-id-headers"]).

Definition ApplyConfigToSpec (cfg : LLMInferenceServiceConfigSpec) (spec : Spec) : Spec :=
  let t := LLMInferenceServiceSpec_Template spec in
  let p := Template_Spec t in
  let p := match Template cfg with Some o => mergePodSpec p (Template_Spec o) | None => p end in
  let p := match VLLMDefaults cfg with Some d => on_first (apply_defaults d) p | None => p end in
  mkLLMInferenceServiceSpec (LLMInferenceServiceSpec_Model spec) (LLMInferenceServiceSpec_Replicas spec)
    (merge_parallelism (LLMInferenceServiceSpec_Parallelism spec) (Parallelism cfg))
    (match LLMInferenceServiceSpec_Scaling spec with Some s => Some s | None => Scaling cfg end)
    (set_Template_Spec t p) (LLMInferenceServiceSpec_Prefill spec) (LLMInferenceServiceSpec_Worker spec) (LLMInferenceServiceSpec_Router spec)
    (LLMInferenceServiceSpec_BaseRefs spec) (LLMInferenceServiceSpec_AutoOptimize spec) (LLMInferenceServiceSpec_AllowedTenants spec)
    (LLMInferenceServiceSpec_CostAllocationTags spec) (LLMInferenceServiceSpec_SLO spec) (LLMInferenceServiceSpec_Canary spec)
    (LLMInferenceServiceSpec_SpeculativeDecoding spec) (LLMInferenceServiceSpec_KVCache spec) (LLMInferenceServiceSpec_Quantization spec)
    (LLMInferenceServiceSpec_Engine spec) (LLMInferenceServiceSpec_ToolSurface spec) (LLMInferenceServiceSpec_Observability spec).

Definition merge_defaults (base override : VLLMDefaultsSpec) : VLLMDefaultsSpec :=
  mkVLLMDefaults (if Image override !=? "" then Image override else Image base) (Args base ++ Args override)
    (match Resources override with
     | None => Resources base
     | Some o => Some (match Resources base with Some b => mergeResources b o | None => o end)
     end)
    (EnableTurboQuant override || EnableTurboQuant base)
    (if TurboQuantMetadataPath override !=? "" then TurboQuantMetadataPath override else TurboQuantMetadataPath base).

Definition MergeConfigs (base override : LLMInferenceServiceConfigSpec) : LLMInferenceServiceConfigSpec :=
  mkConfig
    (match Template override with
     | None => Template base
     | Some o => Some (match Template base with
                       | Some b => set_Template_Spec b (mergePodSpec (Template_Spec b) (Template_Spec o))
                       | None => o
                       end)
     end)
    (Router base) (Scaling base) (Parallelism base) (Worker base)
    (match VLLMDefaults override with
     | None => VLLMDefaults base
     | Some o => Some (match VLLMDefaults base with Some b => merge_defaults b o | None => o end)
     end).

(** The candidates and the resources of a reranker preset. *)
Definition GetRerankerWellKnownConfig (modelURI : string) : option (Z * ResourceRequirements) :=
  if Contains (ToLower modelURI) "bge-reranker-v2-m3" then Some (100, requests_only 4 8 1) else None.

(** ** accelerator.go *)

Definition AcceleratorTypeNVIDIA := "nvidia".

(** The type and the number of an accelerator. *)
Definition applyAcceleratorResources (accelerator : option (string * option Z)) (c : PodContainer) : PodContainer :=
  match accelerator with
  | Some (ty, n) =>
      if ty ==? AcceleratorTypeNVIDIA then
        let q := units (default 1 n) in
        let r := Container_Resources c in
        set_Container_Resources c (mkResourceRequirements (<["nvidia.com/gpu" := q]> (Resources_Requests r)) (<["nvidia.com/gpu" := q]> (Resources_Limits r)) (Resources_rest r))
      else c
  | None => c
  end.

End Presets.

(** ** Tokens *)

Lemma Index_None s p j : Index s p = None -> HasPrefix (str_drop j s) p = false.
Proof.
  revert j. induction s as [|c s IH]; intros j; cbn [Index].
  - destruct (HasPrefix "" p) eqn:E; [done|]. by destruct j.
  - destruct (HasPrefix (String c s) p) eqn:E; [done|]. destruct (Index s p) eqn:Ei; [done|].
    intros _. destruct j; [done|]. by apply IH.
Qed.

Lemma Index_Some s p k : Index s p = Some k ->
  HasPrefix (str_drop k s) p = true /\ (k <= String.length s)%nat /\ forall j, (j < k)%nat -> HasPrefix (str_drop j s) p = false.
Proof.
  revert k. induction s as [|c s IH]; intros k; cbn [Index].
  - destruct (HasPrefix "" p) eqn:E; [|done]. intros [= <-]. split; [done|]. split; [done|lia].
  - destruct (HasPrefix (String c s) p) eqn:E; [intros [= <-]; split; [done|]; split; [cbn; lia|intros; lia]|].
    destruct (Index s p) as [i|] eqn:Ei; [|done]. intros [= <-]. destruct (IH i eq_refl) as (H1 & H2 & H3).
    split; [done|]. split; [cbn; lia|]. intros [|j] Hj; [done|]. apply H3. lia.
Qed.

Lemma str_drop_plus i j s : str_drop j (str_drop i s) = str_drop (i + j) s.
Proof. revert s. induction i as [|i IH]; intros s; [done|]. destruct s as [|c s]; [by destruct j|]. apply IH. Qed.

(** A token at position [j]. *)
Definition token_at (lower needle : string) (j : nat) : Prop :=
  (j + String.length needle <= String.length lower)%nat /\ HasPrefix (str_drop j lower) needle = true
  /\ ((j =? 0)%nat || edge (String.get (j - 1) lower)) = true /\ edge (String.get (j + String.length needle) lower) = true.

Lemma HasPrefix_length s p : HasPrefix s p = true -> (String.length p <= String.length s)%nat.
Proof. intros [r ->]%prefix_app. rewrite str_length_app. lia. Qed.

Lemma str_length_drop i s : String.length (str_drop i s) = (String.length s - i)%nat.
Proof. revert s. induction i as [|i IH]; intros [|c s]; try done. cbn. apply IH. Qed.

Lemma token_loop_iff fuel lower needle i : (S (String.length lower) < fuel + i)%nat ->
  token_loop fuel lower needle i = true <-> exists j, (i <= j)%nat /\ token_at lower needle j.
Proof.
  revert i. induction fuel as [|fuel IH]; intros i Hf.
  { split; [done|]. intros (j & Hj & H & _). lia. }
  cbn [token_loop]. destruct (Nat.leb_spec (i + String.length needle) (String.length lower)) as [Hl|Hl].
  2: { split; [done|]. intros (j & Hj & H & _). lia. }
  destruct (Index (str_drop i lower) needle) as [off|] eqn:Ei.
  - destruct (Index_Some _ _ _ Ei) as (Hp & _ & Hleast). rewrite str_drop_plus in Hp.
    assert (i + off + String.length needle <= String.length lower)%nat as Hb.
    { pose proof (HasPrefix_length _ _ Hp) as H. rewrite str_length_drop in H.
      destruct (Nat.le_gt_cases (i + off) (String.length lower)); [lia|].
      exfalso. destruct (Index_Some _ _ _ Ei) as (_ & Hk & _). rewrite str_length_drop in Hk. lia. }
    destruct (_ && _) eqn:Eb.
    + split; [|done]. intros _. exists (i + off)%nat. apply andb_true_iff in Eb as [E1 E2]. split; [lia|]. repeat split; try done.
    + rewrite IH by lia. split; [intros (j & Hj & H); exists j; split; [lia|done]|].
      intros (j & Hj & Ht). exists j. split; [|done]. destruct Ht as (_ & Hpj & E1 & E2).
      destruct (Nat.lt_trichotomy j (i + off)) as [Hlt|[->|Hgt]]; [|by rewrite E1, E2 in Eb|lia].
      specialize (Hleast (j - i)%nat ltac:(lia)). rewrite str_drop_plus in Hleast. replace (i + (j - i))%nat with j in Hleast by lia. congruence.
  - split; [done|]. intros (j & Hj & _ & Hp & _). pose proof (Index_None _ _ (j - i) Ei) as H.
    rewrite str_drop_plus in H. replace (i + (j - i))%nat with j in H by lia. congruence.
Qed.

Lemma containsToken_iff s token : containsToken s token = true <-> exists j, token_at (ToLower s) (ToLower token) j.
Proof.
  unfold containsToken. rewrite token_loop_iff by lia. split; intros (j & H); exists j; [apply H|]. split; [lia|done].
Qed.

(** ** Arguments *)

(** An argument on its own, or a flag with its value. *)
Inductive Group := Switch (arg : string) | Valued (arg value : string).

Definition render (g : Group) : list string := match g with Switch a => [a] | Valued a v => [a; v] end.
Definition group_flag (g : Group) : string := match g with Switch a | Valued a _ => flag_of a end.

(** The groups of a preset. *)
Fixpoint groups (preset : list string) : list Group :=
  match preset with
  | [] => []
  | arg :: rest =>
      if negb (is_flag arg) then groups rest
      else if Contains arg "=" then Switch arg :: groups rest
      else match rest with
           | value :: rest' => if negb (is_flag value) then Valued arg value :: groups rest' else Switch arg :: groups rest
           | [] => [Switch arg]
           end
  end.

Definition add_group (merged : list string) (g : Group) : list string :=
  if flag_taken merged (group_flag g) then merged else merged ++ render g.

(** Group by group: a value never loses its flag. *)
Lemma merge_args_groups preset merged : merge_args merged preset = foldl add_group merged (groups preset).
Proof.
  remember (length preset) as n eqn:En. assert (length preset <= n)%nat as Hn by lia. clear En. revert preset merged Hn.
  induction n as [|n IH]; intros [|arg rest] merged Hn; try done; [cbn in Hn; lia|]. cbn in Hn. cbn [merge_args groups].
  destruct (is_flag arg); cbn [negb]; [|apply IH; lia].
  destruct (Contains arg "=") eqn:Ec.
  - cbn [foldl]. unfold add_group at 2. cbn [group_flag render]. destruct (flag_taken _ _); apply IH; lia.
  - destruct rest as [|value rest'].
    + cbn [foldl]. unfold add_group. cbn [group_flag render]. by destruct (flag_taken _ _).
    + destruct (is_flag value) eqn:Ev; cbn [negb foldl]; unfold add_group at 2; cbn [group_flag render].
      * destruct (flag_taken _ _); apply IH; cbn in Hn |- *; lia.
      * destruct (flag_taken _ _); [|apply IH; cbn in Hn; lia]. cbn [merge_args]. rewrite Ev. cbn [negb]. apply IH. cbn in Hn. lia.
Qed.

Lemma hasArgName_app l1 l2 f : hasArgName (l1 ++ l2) f = hasArgName l1 f || hasArgName l2 f.
Proof. apply existsb_app. Qed.

Lemma flag_taken_app l1 l2 f : flag_taken l1 f = true -> flag_taken (l1 ++ l2) f = true.
Proof.
  unfold flag_taken. rewrite !hasArgName_app, !orb_true_iff, !andb_true_iff, !orb_true_iff. tauto.
Qed.

Lemma hasArgName_flag_of a l : hasArgName (a :: l) (flag_of a) = true.
Proof.
  unfold hasArgName, flag_of. cbn [existsb]. destruct (Index a "=") as [i|] eqn:E; [|by rewrite bool_decide_true].
  apply Index_split in E. rewrite !orb_true_iff. left. right. rewrite E at 1. rewrite string_app_assoc. apply HasPrefix_app.
Qed.

Lemma group_named l g : hasArgName (l ++ render g) (group_flag g) = true.
Proof. rewrite hasArgName_app, orb_true_iff. right. destruct g; apply hasArgName_flag_of. Qed.

Lemma foldl_add_taken gs m f : flag_taken m f = true -> flag_taken (foldl add_group m gs) f = true.
Proof.
  revert m. induction gs as [|g gs IH]; intros m Hm; [done|]. cbn. apply IH. unfold add_group.
  destruct (flag_taken m (group_flag g)); [done|by apply flag_taken_app].
Qed.

Lemma foldl_add_all gs m g : g ∈ gs -> flag_taken (foldl add_group m gs) (group_flag g) = true.
Proof.
  revert m. induction gs as [|g' gs IH]; intros m Hg; [by apply not_elem_of_nil in Hg|].
  apply elem_of_cons in Hg as [<-|Hg]; [|by apply IH]. cbn. apply foldl_add_taken. unfold add_group.
  destruct (flag_taken m (group_flag g)) eqn:E; [done|]. unfold flag_taken. by rewrite group_named.
Qed.

Lemma foldl_add_idle gs m : (forall g, g ∈ gs -> flag_taken m (group_flag g) = true) -> foldl add_group m gs = m.
Proof.
  induction gs as [|g gs IH]; intros Hm; [done|]. cbn. unfold add_group at 2. rewrite (Hm g) by left. apply IH.
  intros g' Hg'. apply Hm. by right.
Qed.

Lemma foldl_add_groups gs m : exists added,
  sublist added gs /\ foldl add_group m gs = m ++ concat (render <$> added)
  /\ (forall g, g ∈ added -> flag_taken m (group_flag g) = false) /\ NoDup (group_flag <$> added).
Proof.
  revert m. induction gs as [|g gs IH]; intros m.
  { exists []. cbn. rewrite app_nil_r. repeat split; [constructor| |constructor]. intros g Hg. by apply not_elem_of_nil in Hg. }
  cbn. unfold add_group at 2. destruct (flag_taken m (group_flag g)) eqn:E.
  - destruct (IH m) as (added & H1 & H2 & H3 & H4). exists added. repeat split; try done. by apply sublist_cons.
  - destruct (IH (m ++ render g)) as (added & H1 & H2 & H3 & H4). exists (g :: added).
    split; [by apply sublist_skip|]. split; [by rewrite H2, <- app_assoc|]. split.
    + intros g' [->|Hg']%elem_of_cons; [done|]. specialize (H3 g' Hg').
      destruct (flag_taken m (group_flag g')) eqn:E'; [|done]. by rewrite (flag_taken_app _ _ _ E') in H3.
    + cbn. constructor; [|done]. intros (g' & Eg & Hg')%list_elem_of_fmap. specialize (H3 g' Hg'). unfold flag_taken in H3.
      by rewrite <- Eg, group_named in H3.
Qed.

(** ** Presets and the values of the user *)

Section Respect.

Context {CR : Carried}.

#[local] Notation Spec := (LLMInferenceServiceSpec (K := objects_k8s)).
#[local] Notation containers spec := (PodSpec_Containers (Template_Spec (LLMInferenceServiceSpec_Template spec))).

Definition request_id_group : Group := Switch "--enable-request-id-headers".

(** Every preset sets the parallelism and the arguments and resources of the
    first container, and nothing else. *)
Lemma preset_shape uri cfg : GetWellKnownConfig uri = Some cfg -> exists p a r, cfg = preset p a r.
Proof. unfold GetWellKnownConfig. intros H. repeat (case_match; [injection H as <-; eauto|]). done. Qed.

Lemma apply_defaults_args a r c :
  apply_defaults (mkVLLMDefaults "" a r false "") c
  = set_Container_Resources (set_Container_Args c (foldl add_group (Container_Args c) (groups a ++ [request_id_group])))
      (match r with Some r => mergeResources (Container_Resources c) r | None => Container_Resources c end).
Proof.
  unfold apply_defaults, mergePresetArgs. cbn [Image Args Resources EnableTurboQuant]. rewrite (bool_decide_true ("" = "")) by done. cbn [negb andb].
  rewrite merge_args_groups, foldl_app. cbn [foldl]. set (m := foldl add_group (Container_Args c) (groups a)). unfold add_group, flag_taken.
  change (group_flag request_id_group) with "--enable-request-id-headers". rewrite (bool_decide_false ("--enable-request-id-headers" = _)) by done.
  rewrite andb_false_l, orb_false_r. destruct c, r; cbn - [hasArgName]; by destruct (hasArgName m _).
Qed.

(** What a preset leaves of the first container. *)
Definition keeps_user (c c' : PodContainer) : Prop :=
  c' = set_Container_Resources (set_Container_Args c (Container_Args c')) (Container_Resources c')
  /\ (exists added, Container_Args c' = Container_Args c ++ concat (render <$> added)
        /\ (forall g, g ∈ added -> hasArgName (Container_Args c) (group_flag g) = false) /\ NoDup (group_flag <$> added))
  /\ (forall k q, Resources_Requests (Container_Resources c) !! k = Some q -> Resources_Requests (Container_Resources c') !! k = Some q)
  /\ (forall k q, Resources_Limits (Container_Resources c) !! k = Some q -> Resources_Limits (Container_Resources c') !! k = Some q).

Lemma apply_defaults_keeps a r c : keeps_user c (apply_defaults (mkVLLMDefaults "" a r false "") c).
Proof.
  rewrite apply_defaults_args. destruct (foldl_add_groups (groups a ++ [request_id_group]) (Container_Args c)) as (added & _ & -> & Hf & Hn).
  split; [by destruct c|]. split.
  { exists added. split; [by destruct c|]. split; [|done]. intros g Hg. apply Hf, orb_false_iff in Hg. apply Hg. }
  split; intros k q Hk; destruct c, r as [r|]; cbn in *; try done; by apply lookup_union_Some_l.
Qed.

Lemma union_again (m n : gmap string Z) : m ∪ n ∪ n = m ∪ n.
Proof. by rewrite <- (assoc_L (∪)), (idemp_L (∪)). Qed.

Lemma apply_defaults_idemp a r c :
  let d := mkVLLMDefaults "" a r false "" in apply_defaults d (apply_defaults d c) = apply_defaults d c.
Proof.
  cbv zeta. rewrite !apply_defaults_args. cbn [Container_Args Container_Resources set_Container_Args set_Container_Resources].
  rewrite (foldl_add_idle _ (foldl add_group _ _)) by (intros g Hg; by apply foldl_add_all).
  destruct c, r as [[]|]; cbn; [|done]. unfold mergeResources. cbn. by rewrite !union_again.
Qed.

Lemma merge_parallelism_idemp s c : merge_parallelism (merge_parallelism s c) c = merge_parallelism s c.
Proof. destruct s as [[[] [] ? ? ? ? ?]|], c as [[[] [] ? ? ? ? ?]|]; done. Qed.

(** The preset of a well-known model never overrides the user: of the
    first container it keeps the image, the environment and all else but
    arguments and resources, puts whole groups of arguments behind those that
    are there, for flags the user has not given in either form and each once,
    and adds no resource the user has set; other containers, the scaling and
    the degrees of parallelism the user gave stay; and applying it again
    changes nothing. *)
Theorem preset_respects_user uri cfg (spec : Spec) :
  GetWellKnownConfig uri = Some cfg ->
  let spec' := ApplyConfigToSpec cfg spec in
  match containers spec with
  | [] => containers spec' = []
  | c :: rest => exists c', containers spec' = c' :: rest /\ keeps_user c c'
  end
  /\ LLMInferenceServiceSpec_Scaling spec' = LLMInferenceServiceSpec_Scaling spec
  /\ (forall par, LLMInferenceServiceSpec_Parallelism spec = Some par -> exists par', LLMInferenceServiceSpec_Parallelism spec' = Some par'
        /\ (forall n, ParallelismSpec_Tensor par = Some n -> ParallelismSpec_Tensor par' = Some n)
        /\ (forall n, ParallelismSpec_Data par = Some n -> ParallelismSpec_Data par' = Some n))
  /\ ApplyConfigToSpec cfg spec' = spec'.
Proof.
  intros (p & a & r & ->)%preset_shape. cbv zeta. unfold ApplyConfigToSpec, preset. cbn [Template VLLMDefaults Parallelism Scaling].
  cbn [LLMInferenceServiceSpec_Template LLMInferenceServiceSpec_Scaling LLMInferenceServiceSpec_Parallelism].
  split; [|split; [|split]].
  - cbn. unfold on_first. destruct (PodSpec_Containers _) as [|c rest] eqn:E; [done|]. cbn. eexists. split; [done|]. apply apply_defaults_keeps.
  - by destruct (LLMInferenceServiceSpec_Scaling spec).
  - intros par ->. destruct p as [c|]; cbn; eexists; (split; [done|]); cbn; split; intros n ->; done.
  - cbn. rewrite merge_parallelism_idemp. f_equal; [by destruct (LLMInferenceServiceSpec_Scaling spec)|].
    unfold on_first. destruct (LLMInferenceServiceSpec_Template spec) as [? ? []]. cbn. destruct PodSpec_Containers as [|c rest]; [done|]. cbn.
    by rewrite apply_defaults_idemp.
Qed.

End Respect.

(** ** Concrete presets *)

#[local] Existing Instance demo_carried.

Definition user_container : PodContainer :=
  set_Container_Args (demo_container "user/image" [] [] None) ["--max-model-len=4096"; "--tool-call-parser"; "mine"].

Definition user_spec (p : option ParallelismSpec) : LLMInferenceServiceSpec (K := objects_k8s) :=
  let z := zero_LLMInferenceServiceSpec in
  mkLLMInferenceServiceSpec (LLMInferenceServiceSpec_Model z) None p None (mkPodTemplate ∅ ∅ (set_PodSpec_Containers zero_PodSpec [user_container]))
    None None (LLMInferenceServiceSpec_Router z) None None None None None None None None None "" None None.

Definition first_args (spec : LLMInferenceServiceSpec (K := objects_k8s)) : list string :=
  match PodSpec_Containers (Template_Spec (LLMInferenceServiceSpec_Template spec)) with c :: _ => Container_Args c | [] => [] end.

Lemma preset_respects_user_witness : exists cfg, GetWellKnownConfig "hf://Qwen/Qwen3-8B" = Some cfg
  /\ first_args (ApplyConfigToSpec cfg (user_spec None))
     = ["--max-model-len=4096"; "--tool-call-parser"; "mine"; "--trust-remote-code"; "--gpu-memory-utilization"; "0.90"; "--enable-auto-tool-choice";
        "--enable-request-id-headers"]
  /\ ApplyConfigToSpec cfg (ApplyConfigToSpec cfg (user_spec None)) = ApplyConfigToSpec cfg (user_spec None).
Proof.
  eexists. split; [by vm_compute|]. split; [by vm_compute|].
  apply (preset_respects_user "hf://Qwen/Qwen3-8B" _ (user_spec None)). by vm_compute.
Defined.

(** A storage name that only embeds a family selects no preset, but llama-4 is
    looked for anywhere in the name; a user who sets one degree of parallelism
    loses the expert parallelism of a preset; a template in a configuration
    replaces the image of the user; and an override does not override
    resources. *)
Example preset_oddities :
  GetWellKnownConfig "pvc://qwen38-27b-weights" = None
  /\ bool_decide (is_Some (GetWellKnownConfig "pvc://my-llama-405b")) = true
  /\ (match GetWellKnownConfig "oci://reg/gemma-4-26B-A4B" with
      | Some cfg => ParallelismSpec_Expert <$> LLMInferenceServiceSpec_Parallelism
                      (ApplyConfigToSpec cfg (user_spec (Some (mkParallelismSpec (Some 2) None None None false None false))))
      | None => None
      end = Some false)
  /\ (let cfg := mkConfig (Some (mkPodTemplate ∅ ∅ (set_PodSpec_Containers zero_PodSpec [demo_container "preset/image" [] [] None]))) None None None None None in
      match PodSpec_Containers (Template_Spec (LLMInferenceServiceSpec_Template (ApplyConfigToSpec cfg (user_spec None)))) with
      | c :: _ => Container_Image c | [] => "" end = "preset/image")
  /\ (let base := preset None [] (Some (requests_only 8 32 1)) in
      let override := preset None [] (Some (requests_only 16 64 2)) in
      (d ← VLLMDefaults (MergeConfigs base override); r ← Resources d; Resources_Requests r !! "cpu") = Some (units 8)).
Proof. vm_compute. repeat split; reflexivity. Qed.
