(* ===== verification/ServiceStatus.v ===== *)
(** * Status and finalizers of a service

    [internal/controller/status/reconciler.go] and
    [internal/controller/cleanup/reconciler.go]: the status of an
    LLMInferenceService as it is projected from its Deployments or from the
    KServe InferenceService, and the finalizer.  Messages of conditions are
    left out.  [metav1.Now] is read once per condition that is set. *)

From S2P Require Import Prelude GoStrings K8s K8sPods K8sObjects ApiV1alpha2.

(** ** Calls of a reconciliation

    A computation performs actions on the cluster, each of which succeeds or
    fails, and ends with a result or, when it returns an error, without one. *)

Definition M (Act R : Type) : Type := list (Act * bool) * option R.

#[global] Instance M_ret Act : MRet (M Act) := fun R r => ([], Some r).
#[global] Instance M_bind Act : MBind (M Act) := fun A B f m =>
  match m.2 with
  | Some a => (m.1 ++ (f a).1, (f a).2)
  | None => (m.1, None)
  end.

(** An error, and an action whose failure is one. *)
Definition fail {Act R} : M Act R := ([], None).
Definition perform {Act} (ok : Act -> bool) (a : Act) : M Act unit := ([(a, ok a)], if ok a then Some tt else None).

(** An action whose failure is logged or dropped. *)
Definition attempt {Act} (ok : Act -> bool) (a : Act) : M Act bool := ([(a, ok a)], Some (ok a)).

(** A step that is only taken when its reconciler is configured. *)
Definition when {Act} (b : bool) (m : M Act unit) : M Act unit := if b then m else mret tt.

(** What a lookup answers. *)
Inductive Lookup (A : Type) := Found (a : A) | NotFound | LookupFailed.
Arguments Found {A} a.
Arguments NotFound {A}.
Arguments LookupFailed {A}.

(** ** Conditions *)

Definition ConditionTrue := "True".
Definition ConditionFalse := "False".
Definition ConditionUnknown := "Unknown".

Definition ConditionReady := "Ready".
Definition ConditionDeploymentReady := "DeploymentReady".
Definition ConditionSchedulerReady := "SchedulerReady".
Definition ConditionModelOptimized := "ModelOptimized".
Definition ConditionKVTransferConfigured := "KVTransferConfigured".
Definition ConditionPrefillReady := "PrefillReady".

(** The first condition of a type. *)
Definition cond_of (t : string) (l : list Cond) : option Cond := List.find (fun c => Condition_Type_ c ==? t) l.

(** Two conditions that report the same, whenever they changed. *)
Definition same_report (a b : Cond) : bool :=
  (Condition_Type_ a ==? Condition_Type_ b) && (Condition_Status a ==? Condition_Status b) && (Condition_Reason a ==? Condition_Reason b)
  && (Condition_ObservedGeneration a ==? Condition_ObservedGeneration b).

(** Setting a condition in a list: what [meta.SetStatusCondition] promises.
    The condition reports what was set, others are as before, and nothing
    changes when it reported the same. *)
Class SetsCondition (set : Cond -> list Cond -> list Cond) : Prop := {
  set_found c l : exists c', cond_of (Condition_Type_ c) (set c l) = Some c' /\ same_report c' c = true;
  set_other t c l : t <> Condition_Type_ c -> cond_of t (set c l) = cond_of t l;
  set_same c c' l : cond_of (Condition_Type_ c) l = Some c' -> same_report c' c = true -> set c l = l }.

(** [setCondition] at the time [now]. *)
Fixpoint setCondition (now : Time) (new : Cond) (l : list Cond) : list Cond :=
  match l with
  | [] => [set_Condition_LastTransitionTime new (Some now)]
  | c :: l =>
      if Condition_Type_ c ==? Condition_Type_ new then
        set_Condition_LastTransitionTime new
          (if (Condition_Status c ==? Condition_Status new) && (Condition_Reason c ==? Condition_Reason new)
           then Condition_LastTransitionTime c else Some now) :: l
      else c :: setCondition now new l
  end.

Section Status.

Context {CR : Carried}.

#[local] Notation Svc := (LLMInferenceService (K := objects_k8s)).
#[local] Notation Status := (LLMInferenceServiceStatus (K := objects_k8s)).

Definition meta (s : Svc) : Meta := LLMInferenceService_ObjectMeta s.
Definition status (s : Svc) : Status := LLMInferenceService_Status s.
Definition spec (s : Svc) : LLMInferenceServiceSpec (K := objects_k8s) := LLMInferenceService_Spec s.
Definition conditions (s : Svc) : list Cond := range_slice (LLMInferenceServiceStatus_Conditions (status s)).

Definition set_status (s : Svc) (st : Status) : Svc := mkLLMInferenceService (LLMInferenceService_TypeMeta s) (meta s) (spec s) st.
Definition set_meta (s : Svc) (m : Meta) : Svc := mkLLMInferenceService (LLMInferenceService_TypeMeta s) m (spec s) (status s).
Definition set_spec (s : Svc) (sp : LLMInferenceServiceSpec (K := objects_k8s)) : Svc :=
  mkLLMInferenceService (LLMInferenceService_TypeMeta s) (meta s) sp (status s).

Definition set_conditions (s : Svc) (l : list Cond) : Svc :=
  let st := status s in
  set_status s (mkLLMInferenceServiceStatus (LLMInferenceServiceStatus_StatePlanes st) (Some l) (LLMInferenceServiceStatus_URL st)
    (LLMInferenceServiceStatus_Replicas st) (LLMInferenceServiceStatus_ModelReady st) (LLMInferenceServiceStatus_ModelRevision st)
    (LLMInferenceServiceStatus_ObservedGeneration st) (LLMInferenceServiceStatus_Optimized st) (LLMInferenceServiceStatus_DetectedHardware st)
    (LLMInferenceServiceStatus_AdaptiveMetrics st)).

Definition set_serving (s : Svc) (replicas : Z) (ready : bool) (url : string) : Svc :=
  let st := status s in
  set_status s (mkLLMInferenceServiceStatus (LLMInferenceServiceStatus_StatePlanes st) (LLMInferenceServiceStatus_Conditions st) url
    replicas ready (LLMInferenceServiceStatus_ModelRevision st) (LLMInferenceServiceStatus_ObservedGeneration st)
    (LLMInferenceServiceStatus_Optimized st) (LLMInferenceServiceStatus_DetectedHardware st) (LLMInferenceServiceStatus_AdaptiveMetrics st)).

(** A condition about the generation of the service. *)
Definition report (s : Svc) (type status reason : string) : Cond := mkCond type status reason (Meta_Generation (meta s)) None.

Definition model_ready (s : Svc) : bool := LLMInferenceServiceStatus_ModelReady (status s).

(** *** finishUpdate *)

Definition deployment_report (s : Svc) : Cond :=
  if model_ready s then report s ConditionDeploymentReady ConditionTrue "DeploymentAvailable"
  else report s ConditionDeploymentReady ConditionFalse "DeploymentUnavailable".

Definition ready_report (s : Svc) : Cond :=
  if model_ready s then report s ConditionReady ConditionTrue "Ready" else report s ConditionReady ConditionFalse "NotReady".

Definition optimized_report (s : Svc) (isOptimized : bool) : Cond :=
  if isOptimized then report s ConditionModelOptimized ConditionTrue "Optimized" else report s ConditionModelOptimized ConditionFalse "NotOptimized".

Definition kv_report (s : Svc) : Cond :=
  match (kv ← LLMInferenceServiceSpec_KVCache (spec s); KVCacheSpec_Transfer kv) with
  | Some t => if KVTransferSpec_Connector t !=? "" then report s ConditionKVTransferConfigured ConditionTrue "KVTransferConfigured"
              else report s ConditionKVTransferConfigured ConditionFalse "KVTransferNotConfigured"
  | None => report s ConditionKVTransferConfigured ConditionFalse "KVTransferNotConfigured"
  end.

(** With the ready replicas of the prefill Deployment; [None] when it cannot
    be read. *)
Definition prefill_report (s : Svc) (prefill : Lookup Z) : option Cond :=
  match LLMInferenceServiceSpec_Prefill (spec s) with
  | None => Some (report s ConditionPrefillReady ConditionTrue "PrefillDisabled")
  | Some pf =>
      match prefill with
      | LookupFailed => None
      | NotFound => Some (report s ConditionPrefillReady ConditionFalse "PrefillUnavailable")
      | Found ready =>
          Some (if ready >=? default 1 (PrefillSpec_Replicas pf) then report s ConditionPrefillReady ConditionTrue "PrefillAvailable"
                else report s ConditionPrefillReady ConditionFalse "PrefillUnavailable")
      end
  end.

(** The conditions in the order they are set. *)
Definition status_reports (hardening : bool) (s : Svc) (isOptimized : bool) (prefill : Lookup Z) : option (list Cond) :=
  p ← prefill_report s prefill;
  Some ((if hardening then [deployment_report s] else []) ++ [ready_report s; optimized_report s isOptimized; kv_report s; p]).

Definition set_reports (clock : string -> Time) (cs : list Cond) (l : list Cond) : list Cond :=
  foldl (fun l c => setCondition (clock (Condition_Type_ c)) c l) l cs.

Definition finishUpdate (hardening : bool) (clock : string -> Time) (isOptimized : bool) (metrics : option AdaptiveMetrics) (prefill : Lookup Z)
    (s : Svc) : option Svc :=
  cs ← status_reports hardening s isOptimized prefill;
  let st := status s in
  Some (set_status s (mkLLMInferenceServiceStatus (LLMInferenceServiceStatus_StatePlanes st) (Some (set_reports clock cs (conditions s)))
    (LLMInferenceServiceStatus_URL st) (LLMInferenceServiceStatus_Replicas st) (model_ready s)
    (ModelSpec_Revision (LLMInferenceServiceSpec_Model (spec s))) (Meta_Generation (meta s)) isOptimized
    (LLMInferenceServiceStatus_DetectedHardware st)
    (match metrics with Some m => Some m | None => LLMInferenceServiceStatus_AdaptiveMetrics st end))).

(** *** Update and UpdateFromKServe *)

Definition service_url (s : Svc) : string :=
  "http://" +:+ Meta_Name (meta s) +:+ "." +:+ Meta_Namespace (meta s) +:+ ".svc.cluster.local/v2/models/"
  +:+ ModelSpec_Name (LLMInferenceServiceSpec_Model (spec s)).

(** With the ready replicas of the Deployment. *)
Definition from_deployment (deploy : Lookup Z) (s : Svc) : option Svc :=
  match deploy with
  | LookupFailed => None
  | NotFound => Some (set_serving s 0 false (service_url s))
  | Found ready => Some (set_serving s ready (ready >? 0) (service_url s))
  end.

(** [kserveReady]: the conditions that are objects, by type and status. *)
Definition kserveReady (l : list (string * string)) : bool := existsb (fun c => (c.1 ==? "Ready") && (c.2 ==? "True")) l.

Definition PredictorServiceName (s : Svc) : string := Meta_Name (meta s) +:+ "-predictor".

(** With the conditions and the URL of the InferenceService. *)
Definition from_kserve (isvc : Lookup (list (string * string) * option string)) (s : Svc) : option Svc :=
  let url := LLMInferenceServiceStatus_URL (status s) in
  let named url := if url ==? "" then "http://" +:+ PredictorServiceName s +:+ "." +:+ Meta_Namespace (meta s) +:+ ".svc.cluster.local" else url in
  match isvc with
  | LookupFailed => None
  | NotFound => Some (set_serving s 0 false (named url))
  | Found (conds, u) =>
      let ready := kserveReady conds in Some (set_serving s (if ready then 1 else 0) ready (named (default url u)))
  end.

(** [equality.Semantic.DeepEqual] of two statuses. *)
#[global] Instance cond_eq_dec : EqDecision Cond.
Proof. solve_decision. Defined.
#[global] Instance planes_eq_dec : EqDecision StatePlanes.
Proof. solve_decision. Defined.
#[global] Instance metrics_eq_dec : EqDecision AdaptiveMetrics.
Proof. solve_decision. Defined.

Definition status_fields (st : Status) :=
  (LLMInferenceServiceStatus_StatePlanes st, range_slice (LLMInferenceServiceStatus_Conditions st) : list Cond, LLMInferenceServiceStatus_URL st,
   LLMInferenceServiceStatus_Replicas st, LLMInferenceServiceStatus_ModelReady st, LLMInferenceServiceStatus_ModelRevision st,
   LLMInferenceServiceStatus_ObservedGeneration st, LLMInferenceServiceStatus_Optimized st, LLMInferenceServiceStatus_DetectedHardware st,
   LLMInferenceServiceStatus_AdaptiveMetrics st).
Definition same_status (a b : Status) : bool := bool_decide (status_fields a = status_fields b).

(** *** cleanup/reconciler.go *)

Definition ContainsFinalizer (s : Svc) (f : string) : bool := existsb (fun x => x ==? f) (Meta_Finalizers (meta s)).
Definition with_finalizers (s : Svc) (l : list string) : Svc := set_meta s (set_Meta_Finalizers (meta s) l).

(** [update] writes the object; [cleanup] is [cleanupFunc].  Whether the
    service is deleted, and the object as it is then. *)
Definition HandleFinalizer {Act} (update : Svc -> M Act unit) (cleanup : M Act unit) (finalizer : string) (s : Svc) : M Act (bool * Svc) :=
  if negb (Meta_Deleted (meta s)) then
    if ContainsFinalizer s finalizer then mret (false, s)
    else let s := with_finalizers s (Meta_Finalizers (meta s) ++ [finalizer]) in
         _ ← update s; mret (false, s)
  else if ContainsFinalizer s finalizer then
    _ ← cleanup;
    let s := with_finalizers s (List.filter (fun x => negb (x ==? finalizer)) (Meta_Finalizers (meta s))) in
    _ ← update s; mret (true, s)
  else mret (true, s).

End Status.

(** ** Setting conditions *)

Lemma same_report_iff a b : same_report a b = true <->
  Condition_Type_ a = Condition_Type_ b /\ Condition_Status a = Condition_Status b /\ Condition_Reason a = Condition_Reason b
  /\ Condition_ObservedGeneration a = Condition_ObservedGeneration b.
Proof. unfold same_report. rewrite !andb_true_iff, !bool_decide_eq_true. tauto. Qed.

#[export] Instance setCondition_sets now : SetsCondition (setCondition now).
Proof.
  split.
  - intros c l. assert (forall t, same_report (set_Condition_LastTransitionTime c t) c = true) as Hc by (intros t; by apply same_report_iff).
    induction l as [|x l IH]; cbn.
    + rewrite bool_decide_true by done. eexists. by split.
    + case_bool_decide as E; cbn; [rewrite bool_decide_true by done; eexists; by split|]. by rewrite bool_decide_false.
  - intros t c l Ht. induction l as [|x l IH]; cbn; [by rewrite bool_decide_false by congruence|].
    case_bool_decide as E; cbn; [rewrite !bool_decide_false by congruence; done|]. case_bool_decide; [done|exact IH].
  - intros c c' l. induction l as [|x l IH]; cbn; [done|]. case_bool_decide as E.
    + intros [= <-] (H1 & H2 & H3 & H4)%same_report_iff. rewrite !bool_decide_true by done. destruct x, c; cbn in *. by subst.
    + intros Hc Hs. by rewrite IH.
Qed.

(** When a condition last changed: the time moves exactly when its status or
    its reason does. *)
Lemma setCondition_time now c l old : cond_of (Condition_Type_ c) l = Some old ->
  cond_of (Condition_Type_ c) (setCondition now c l)
  = Some (set_Condition_LastTransitionTime c
      (if (Condition_Status old ==? Condition_Status c) && (Condition_Reason old ==? Condition_Reason c)
       then Condition_LastTransitionTime old else Some now)).
Proof.
  induction l as [|x l IH]; cbn; [done|]. destruct (bool_decide_reflect (Condition_Type_ x = Condition_Type_ c)) as [E|E].
  - intros Ho. injection Ho as <-. cbn. by rewrite bool_decide_true.
  - intros Hl. cbn. rewrite bool_decide_false by done. by apply IH.
Qed.

(** Conditions that are set one after the other. *)
Definition set_all (sets : list ((Cond -> list Cond -> list Cond) * Cond)) (l : list Cond) : list Cond :=
  foldl (fun l x => x.1 x.2 l) l sets.

(** A list in which every condition already reports what is to be set. *)
Definition reported (cs : list Cond) (l : list Cond) : Prop :=
  forall c, c ∈ cs -> exists c', cond_of (Condition_Type_ c) l = Some c' /\ same_report c' c = true.

Lemma set_all_idle sets l : Forall (fun x => SetsCondition x.1) sets -> reported sets.*2 l -> set_all sets l = l.
Proof.
  unfold set_all. induction sets as [|[f c] sets IH]; intros Hs Hr; [done|]. apply Forall_cons in Hs as [Hf Hs]. cbn in *.
  destruct (Hr c) as (c' & Hc & Hsame); [left|]. rewrite (set_same c c' l Hc Hsame). apply IH; [done|].
  intros x Hx. apply Hr. by right.
Qed.

Lemma set_all_other sets l t : Forall (fun x => SetsCondition x.1) sets -> t ∉ Condition_Type_ <$> sets.*2 -> cond_of t (set_all sets l) = cond_of t l.
Proof.
  unfold set_all. revert l. induction sets as [|[f c] sets IH]; intros l Hs Ht; [done|]. apply Forall_cons in Hs as [Hf Hs]. cbn [foldl fst snd]. cbn in Hf, Ht.
  apply not_elem_of_cons in Ht as [Hc Ht]. rewrite IH by done. by apply set_other.
Qed.

Lemma set_all_reported sets l : Forall (fun x => SetsCondition x.1) sets -> NoDup (Condition_Type_ <$> sets.*2) -> reported sets.*2 (set_all sets l).
Proof.
  revert l. induction sets as [|[f c] sets IH]; intros l Hs Hn x Hx; [by apply not_elem_of_nil in Hx|].
  apply Forall_cons in Hs as [Hf Hs]. cbn in Hf, Hn, Hx. apply NoDup_cons in Hn as [Hc Hn]. apply elem_of_cons in Hx as [->|Hx]; [|by apply (IH (f c l))].
  change (set_all ((f, c) :: sets) l) with (set_all sets (f c l)). rewrite set_all_other by done. apply set_found.
Qed.

Lemma set_reports_all clock cs l : set_reports clock cs l = set_all ((fun c => (setCondition (clock (Condition_Type_ c)), c)) <$> cs) l.
Proof. unfold set_reports, set_all. revert l. induction cs as [|c cs IH]; intros l; [done|]. cbn. apply IH. Qed.

Lemma reports_set clock cs : Forall (fun x => SetsCondition x.1) ((fun c => (setCondition (clock (Condition_Type_ c)), c)) <$> cs).
Proof. apply Forall_fmap, Forall_true. intros c. apply setCondition_sets. Qed.

Lemma reports_conds clock cs : ((fun c => (setCondition (clock (Condition_Type_ c)), c)) <$> cs).*2 = cs.
Proof. rewrite <- list_fmap_compose. apply list_fmap_id. Qed.

(** ** The status *)

Section Projection.

Context {CR : Carried}.
#[local] Notation Svc := (LLMInferenceService (K := objects_k8s)).
Implicit Types s : Svc.

Lemma report_type s t st r : Condition_Type_ (report s t st r) = t.
Proof. done. Qed.

Lemma status_reports_types hardening s opt prefill cs : status_reports hardening s opt prefill = Some cs ->
  Condition_Type_ <$> cs = (if hardening then [ConditionDeploymentReady] else [])
                             ++ [ConditionReady; ConditionModelOptimized; ConditionKVTransferConfigured; ConditionPrefillReady].
Proof.
  unfold status_reports. destruct (prefill_report s prefill) as [p|] eqn:E; [|done]. cbn. intros [= <-].
  assert (Condition_Type_ p = ConditionPrefillReady) as Hp.
  { unfold prefill_report in E. repeat (case_match; try discriminate); simplify_eq; done. }
  rewrite fmap_app. cbn. rewrite Hp. unfold ready_report, optimized_report, kv_report, deployment_report.
  destruct hardening, (model_ready s), opt; cbn; repeat case_match; done.
Qed.

(** The condition Ready says whether the model is served. *)
Lemma finishUpdate_ready hardening clock opt metrics prefill s s' : finishUpdate hardening clock opt metrics prefill s = Some s' ->
  (exists c, cond_of ConditionReady (conditions s') = Some c /\ Condition_Status c = (if model_ready s then ConditionTrue else ConditionFalse)
             /\ Condition_ObservedGeneration c = Meta_Generation (meta s))
  /\ model_ready s' = model_ready s.
Proof.
  unfold finishUpdate. destruct (status_reports hardening s opt prefill) as [cs|] eqn:E; [|done]. cbn. intros [= <-]. split; [|done].
  unfold conditions. cbn. rewrite set_reports_all.
  pose proof (set_all_reported _ (conditions s) (reports_set clock cs)) as Hr. rewrite reports_conds in Hr.
  specialize (Hr ltac:(rewrite (status_reports_types _ _ _ _ _ E); destruct hardening; apply (bool_decide_unpack _); vm_compute; exact I) (ready_report s)).
  destruct Hr as (c & Hc & (H1 & H2 & H3 & H4)%same_report_iff).
  { unfold status_reports in E. destruct (prefill_report s prefill); [|done]. cbn in E. injection E as <-. apply elem_of_app. right. left. }
  exists c. split; [|split].
  - rewrite <- Hc. unfold ready_report. by destruct (model_ready s).
  - rewrite H2. unfold ready_report. by destruct (model_ready s).
  - rewrite H4. unfold ready_report. by destruct (model_ready s).
Qed.

End Projection.
