(* ===== verification/GovernanceEvidence.v ===== *)
(** * Compliance conditions of a service

    [internal/controller/evidence]: the conditions SI-7, SR-2 and
    SR-2-AIPack, from the records the initializers of the pods leave, the
    evidence of the LoRA adapters and the attestations of the AIPacks, and the
    adapters that are created for a verified agent pack.  Messages are left
    out.  [meta.SetStatusCondition] and the JSON decoder of the verification
    record are arguments. *)

From S2P Require Import Prelude GoStrings K8s K8sPods K8sObjects ApiV1alpha2 OCIReference AIPack ServiceStatus.
From S2P Require LoraGovernance AIPackGovernance Receipts.
From Stdlib Require Import Ascii.

(** ** Pods *)

(** The conditions of a pod by type and status, and its init containers with
    the messages of those that terminated. *)
Record Pod := mkPod { pod_conditions : list (string * string); init_statuses : list (string * option string) }.

Definition isReadyPod (p : Pod) : bool := existsb (fun c => (c.1 ==? "Ready") && (c.2 ==? "True")) (pod_conditions p).

(** ** Adapters and packs *)

(** An adapter of the namespace with the part governance reads. *)
Record Lora := mkLora { lora_Name : string; TargetService : string; lora_adapter : LoraGovernance.LLMLoraAdapter }.

(** A pack with its labels, and the quantization of its base model. *)
Record Pack := mkPack {
  pack_Name : string; pack_Labels : gmap string string; pack_Spec : AIPackGovernance.AIPackSpec; BaseModelQuantization : option string }.

(** The adapter that is created for an entry of a composition. *)
Record AdapterCR := mkAdapterCR { cr_Name : string; cr_TargetService : string; cr_AdapterName : string; cr_URI : string }.

Section Evidence.

Context {CR : Carried}.
(** [json.Unmarshal] into a verification record. *)
Context (parse_record : string -> option Receipts.RuntimeVerificationRecord).
Context (SetStatusCondition : Cond -> list Cond -> list Cond).

#[local] Notation Svc := (LLMInferenceService (K := objects_k8s)).

Definition uri_of (s : Svc) : string := ModelSpec_URI (LLMInferenceServiceSpec_Model (spec s)).

(** ** reconciler.go *)

Definition runtimeVerifiableModelURI (uri : string) : bool := HasPrefix uri "oci://" || HasPrefix uri "ocis://".

(** [None] is an error, [Some None] no record. *)
Fixpoint init_record (containerName : string) (l : list (string * option string)) : option (option Receipts.RuntimeVerificationRecord) :=
  match l with
  | [] => Some None
  | (name, terminated) :: l =>
      match terminated with
      | Some message =>
          if name !=? containerName then init_record containerName l
          else let message := TrimSpace message in
               if message ==? "" then Some None else r ← parse_record message; Some (Some r)
      | None => init_record containerName l
      end
  end.

Definition readInitContainerVerificationRecord (p : Pod) (containerName : string) : option (option Receipts.RuntimeVerificationRecord) :=
  init_record containerName (init_statuses p).

(** The loop over the pods with the number of ready ones. *)
Fixpoint pods_verified (ready : Z) (pods : list Pod) : option bool :=
  match pods with
  | [] => Some (ready >? 0)
  | p :: pods =>
      if negb (isReadyPod p) then pods_verified ready pods
      else
        record ← readInitContainerVerificationRecord p "storage-initializer";
        match record with
        | Some r => if Receipts.Verified r then pods_verified (ready + 1) pods else Some false
        | None => Some false
        end
  end.

(** The pods of the service, unless they cannot be listed. *)
Definition baseModelVerificationRecorded (pods : option (list Pod)) : option bool := l ← pods; pods_verified 0 l.

(** ** reconciler_conditions.go *)

Definition unavailableEvidenceCondition (now : Time) (control : string) : Cond :=
  mkCond control ConditionUnknown "EvidenceUnavailable" 0 (Some now).

(** The conditions of the service as governance reads them. *)
Definition governance_conditions (s : Svc) : list LoraGovernance.Condition :=
  (fun c => LoraGovernance.mkCondition (Condition_Type_ c) (Condition_Status c)) <$> conditions s.

Definition aggregated (s : Svc) (loras : list Lora) : LoraGovernance.StatePlanes :=
  LoraGovernance.AggregateStatePlanes (governance_conditions s) (lora_adapter <$> loras).

Definition buildSI7Condition (now : Time) (s : Svc) (loras : list Lora) : Cond :=
  let state := aggregated s loras in
  if (LoraGovernance.Trust state ==? "verified") || (LoraGovernance.Trust state ==? "trusted") then
    mkCond "Compliance-SI-7" ConditionTrue "IntegrityVerified" 0 (Some now)
  else if (LoraGovernance.Lifecycle state ==? "quarantined") || (LoraGovernance.Trust state ==? "denied") then
    mkCond "Compliance-SI-7" ConditionFalse "SecurityBreach" 0 (Some now)
  else mkCond "Compliance-SI-7" ConditionFalse "IntegrityUnverified" 0 (Some now).

(** The artifacts and how many of them are verified. *)
Definition countVerifiedArtifacts (pods : option (list Pod)) (s : Svc) (loras : list Lora) : option (Z * Z) :=
  base ← (if runtimeVerifiableModelURI (uri_of s)
          then ok ← baseModelVerificationRecorded pods; Some (1, if (ok : bool) then 1 else 0)
          else Some (0, 0));
  Some (foldl (fun '(total, verified) a => (total + 1, if LoraGovernance.HasVerifiedSupplyChainEvidence (lora_adapter a) then verified + 1 else verified))
          base loras).

Definition setSR2Result (now : Time) (total verified : Z) (airGapped : bool) (keyPath : string) : Cond :=
  let c := mkCond "Compliance-SR-2" in
  if (total >? 0) && (verified ==? total) then c ConditionTrue "ProvenanceVerified" 0 (Some now)
  else c ConditionFalse (if airGapped && (keyPath ==? "") then "OfflineKeyMissing"
                         else if airGapped then "OfflineVerificationPending"
                         else if total ==? 0 then "NoVerifiableArtifacts" else "VerificationPending") 0 (Some now).

Definition buildSR2Condition (now : Time) (airGapped : bool) (keyPath : string) (pods : option (list Pod)) (s : Svc) (loras : list Lora) : option Cond :=
  '(total, verified) ← countVerifiedArtifacts pods s loras;
  Some (setSR2Result now total verified airGapped keyPath).

Definition buildComplianceConditions (now : Time) (airGapped : bool) (keyPath : string) (pods : option (list Pod)) (s : Svc) (loras : list Lora)
    : option (list Cond) :=
  sr2 ← buildSR2Condition now airGapped keyPath pods s loras;
  Some [unavailableEvidenceCondition now "Compliance-AC-4"; unavailableEvidenceCondition now "Compliance-AU-2"; buildSI7Condition now s loras;
        unavailableEvidenceCondition now "Compliance-SI-4"; sr2].

(** [GovernanceReconciler.Reconcile]. *)
Definition ReconcileEvidence (now : Time) (airGapped : bool) (keyPath : string) (pods : option (list Pod)) (loras : list Lora) (s : Svc) : option Svc :=
  cs ← buildComplianceConditions now airGapped keyPath pods s loras;
  Some (set_conditions s (foldl (fun l c => SetStatusCondition c l) (conditions s) cs)).

(** ** aipack_reconciler.go *)

Definition last8 (s : string) : string := str_drop (String.length s - 8) s.

Definition digestSuffix (ref : string) : string :=
  match cut_last ":"%char ref with
  | Some (_, hex) => if (8 <=? String.length hex)%nat then last8 hex else if (8 <=? String.length ref)%nat then last8 ref else ref
  | None => if (8 <=? String.length ref)%nat then last8 ref else ref
  end.

Definition adapter_of (pack : Pack) (s : Svc) (i : nat) (ref : string) : AdapterCR :=
  let adapterName := pack_Name pack +:+ "-" +:+ digestSuffix ref in
  mkAdapterCR (pack_Name pack +:+ "-lora-" +:+ Itoa (Z.of_nat i)) (Meta_Name (meta s)) adapterName ref.

Section Adapters.

Context {Act : Type} (existing : string -> Lookup unit) (create : AdapterCR -> M Act unit).

(** The adapters from entry [i] on that do not exist. *)
Fixpoint create_adapters (pack : Pack) (s : Svc) (i : nat) (refs : list AIPackRef) : M Act unit :=
  match refs with
  | [] => mret tt
  | ref :: refs =>
      let a := adapter_of pack s i (Ref ref) in
      _ ← (match existing (cr_Name a) with
           | NotFound => create a
           | LookupFailed => fail
           | Found _ => mret tt
           end);
      create_adapters pack s (S i) refs
  end.

Definition ReconcileAdapters (hasScheme : bool) (pack : Pack) (s : Svc) : M Act unit :=
  match AIPackGovernance.Composition (pack_Spec pack) with
  | Some c => match Adapters c with
              | [] => mret tt
              | refs => if hasScheme then create_adapters pack s 0 refs else fail
              end
  | None => mret tt
  end.

Definition buildAIPackSR2Condition (now : Time) (total verified : Z) : Cond :=
  let c := mkCond "Compliance-SR-2-AIPack" in
  if total ==? 0 then c ConditionTrue "NoAIPacksAssociated" 0 (Some now)
  else if verified ==? total then c ConditionTrue "AllAIPacksAttested" 0 (Some now)
  else c ConditionFalse "AIPackAttestationIncomplete" 0 (Some now).

(** [governance.VerifyAIPackAttestation] on a pack. *)
Context (verify : Pack -> AIPackGovernance.AIPackVerificationResult + string).

Definition required (pack : Pack) : bool :=
  AIPackGovernance.HasRequiredAIPackAttestations (AIPackGovernance.Kind (pack_Spec pack)) (AIPackGovernance.Attestation (pack_Spec pack)).

(** The loop over the packs; errors of the adapters are logged. *)
Fixpoint verify_packs (hasScheme : bool) (s : Svc) (verified : Z) (packs : list Pack) : M Act Z :=
  match packs with
  | [] => mret verified
  | pack :: packs =>
      if negb (required pack) then verify_packs hasScheme s verified packs
      else match verify pack with
           | inr _ => fail
           | inl result =>
               let ok := AIPackGovernance.Verified result in
               let m := if ok && (AIPackGovernance.Kind (pack_Spec pack) ==? KindAgent) then ReconcileAdapters hasScheme pack s else mret tt in
               let rest := verify_packs hasScheme s (if ok then verified + 1 else verified) packs in
               (m.1 ++ rest.1, rest.2)
           end
  end.

Definition ReconcileAIPacks (now : Time) (hasScheme : bool) (packs : list Pack) (s : Svc) : M Act Svc :=
  verified ← verify_packs hasScheme s 0 packs;
  mret (set_conditions s (SetStatusCondition (buildAIPackSR2Condition now (Z.of_nat (length packs)) verified) (conditions s))).

End Adapters.

End Evidence.

(** ** What the conditions prove *)

Section Sound.

Context {CR : Carried} (parse_record : string -> option Receipts.RuntimeVerificationRecord).
#[local] Notation Svc := (LLMInferenceService (K := objects_k8s)).

(** A ready pod whose initializer recorded a verified model. *)
Definition pod_verified (p : Pod) : Prop := exists r,
  readInitContainerVerificationRecord parse_record p "storage-initializer" = Some (Some r) /\ Receipts.Verified r = true.

Lemma pods_verified_iff n pods : 0 <= n ->
  pods_verified parse_record n pods = Some true <->
  (0 < n \/ exists p, p ∈ pods /\ isReadyPod p = true) /\ forall p, p ∈ pods -> isReadyPod p = true -> pod_verified p.
Proof.
  revert n. induction pods as [|p pods IH]; intros n Hn; cbn [pods_verified].
  { setoid_rewrite elem_of_nil. rewrite (inj_iff Some), bool_decide_eq_true. naive_solver. }
  setoid_rewrite elem_of_cons. destruct (isReadyPod p) eqn:Ep; cbn [negb].
  - unfold pod_verified at 1. destruct (readInitContainerVerificationRecord parse_record p "storage-initializer") as [[r|]|] eqn:Er; cbn.
    + destruct (Receipts.Verified r) eqn:Ev.
      * rewrite IH by lia. split.
        -- intros [_ H]. split; [right; exists p; tauto|]. intros q [->|Hq] Hr; [exists r; done|by apply H].
        -- intros [_ H]. split; [left; lia|]. intros q Hq Hr. apply H; tauto.
      * split; [done|]. intros [_ H]. destruct (H p (or_introl eq_refl) Ep) as (r' & Hr' & Hv). rewrite Er in Hr'. simplify_eq. congruence.
    + split; [done|]. intros [_ H]. destruct (H p (or_introl eq_refl) Ep) as (r' & Hr' & Hv). rewrite Er in Hr'. simplify_eq.
    + split; [done|]. intros [_ H]. destruct (H p (or_introl eq_refl) Ep) as (r' & Hr' & Hv). rewrite Er in Hr'. simplify_eq.
  - rewrite IH by done. split.
    + intros [H1 H2]. split; [destruct H1 as [|(q & Hq & Hr)]; [by left|right; exists q; tauto]|]. intros q [->|Hq] Hr; [congruence|by apply H2].
    + intros [H1 H2]. split; [destruct H1 as [|(q & [->|Hq] & Hr)]; [by left|congruence|right; exists q; tauto]|]. intros q Hq Hr. apply H2; tauto.
Qed.

Lemma count_loras total verified (loras : list Lora) :
  let '(t, v) := foldl (fun '(total, verified) a =>
    (total + 1, if LoraGovernance.HasVerifiedSupplyChainEvidence (lora_adapter a) then verified + 1 else verified)) (total, verified) loras in
  t = total + Z.of_nat (length loras) /\ v - verified <= t - total
  /\ (v - verified = t - total <-> forall a, a ∈ loras -> LoraGovernance.HasVerifiedSupplyChainEvidence (lora_adapter a) = true).
Proof.
  revert total verified. induction loras as [|a loras IH]; intros total verified.
  { cbn. split; [lia|]. split; [lia|]. setoid_rewrite elem_of_nil. split; [done|lia]. }
  cbn [foldl]. set (v1 := if LoraGovernance.HasVerifiedSupplyChainEvidence (lora_adapter a) then verified + 1 else verified).
  specialize (IH (total + 1) v1). destruct (foldl _ (total + 1, v1) loras) as [t v]. destruct IH as (-> & Hle & Hiff).
  cbn [length]. split; [lia|]. setoid_rewrite elem_of_cons. unfold v1 in *.
  destruct (LoraGovernance.HasVerifiedSupplyChainEvidence (lora_adapter a)) eqn:E.
  - split; [lia|]. split.
    + intros Hv x [->|Hx]; [done|]. apply Hiff; [lia|done].
    + intros H. assert (v - (verified + 1) = total + 1 + Z.of_nat (length loras) - (total + 1)); [|lia]. apply Hiff. auto.
  - split; [lia|]. split; [lia|]. intros H. specialize (H a (or_introl eq_refl)). congruence.
Qed.

(** The verdict over [b] base artifacts, of which [v0] are verified, and the
    adapters. *)
Lemma sr2_result_iff now airGapped keyPath (loras : list Lora) b v0 t v :
  foldl (fun '(total, verified) a =>
    (total + 1, if LoraGovernance.HasVerifiedSupplyChainEvidence (lora_adapter a) then verified + 1 else verified)) (b, v0) loras = (t, v) ->
  0 <= v0 <= b ->
  Condition_Status (setSR2Result now t v airGapped keyPath) = ConditionTrue <->
    (0 < b \/ loras <> []) /\ v0 = b /\ forall a, a ∈ loras -> LoraGovernance.HasVerifiedSupplyChainEvidence (lora_adapter a) = true.
Proof.
  intros Hf Hb. pose proof (count_loras b v0 loras) as H. rewrite Hf in H. destruct H as (-> & Hle & Hiff).
  assert (0 < b + Z.of_nat (length loras) <-> 0 < b \/ loras <> []) as Hpos.
  { destruct loras; cbn; [rewrite Z.add_0_r; naive_solver|]. split; [intros _; by right|lia]. }
  unfold setSR2Result. destruct (_ && _) eqn:E; cbn [Condition_Status].
  - apply andb_true_iff in E as [E1 E2]. apply bool_decide_eq_true in E1, E2. split; [intros _|done].
    split; [apply Hpos; lia|]. split; [lia|]. apply Hiff. lia.
  - split; [done|]. intros (H1 & H2 & H3). apply Hiff in H3. apply andb_false_iff in E as [E|E]; apply bool_decide_eq_false in E; [|lia].
    destruct E. by apply Hpos.
Qed.

Lemma aggregate_score_le l e : LoraGovernance.currentTrustScore (fold_left LoraGovernance.aggregate_step l e) <= LoraGovernance.currentTrustScore e.
Proof.
  revert e. induction l as [|a l IH]; intros e; [done|]. cbn. etrans; [apply IH|]. unfold LoraGovernance.aggregate_step. cbn.
  case_bool_decide; lia.
Qed.

Lemma foundation_score_le l : LoraGovernance.foundation_score l <= 1.
Proof.
  induction l as [|c l IH]; cbn; [by vm_compute|]. case_bool_decide; [|done]. case_bool_decide; by vm_compute.
Qed.

(** The trust of a service is at most asserted, so the integrity condition is
    never true. *)
Lemma si7_never_true now (s : Svc) loras : Condition_Status (buildSI7Condition now s loras) = ConditionFalse.
Proof.
  unfold buildSI7Condition, aggregated, LoraGovernance.AggregateStatePlanes.
  set (e := fold_left _ _ _). assert (LoraGovernance.currentTrustScore e <= 1) as Hs.
  { unfold e. etrans; [apply aggregate_score_le|]. apply foundation_score_le. }
  cbn [LoraGovernance.Trust LoraGovernance.Lifecycle]. destruct (bool_decide_reflect (LoraGovernance.eLifecycle e = "quarantined")) as [_|_]; [reflexivity|].
  assert (default "" (LoraGovernance.scoreToTrust !! LoraGovernance.currentTrustScore e) ∉ ["verified"; "trusted"]) as Ht.
  { unfold LoraGovernance.scoreToTrust. cbn [list_to_map foldr fst snd].
    destruct (decide (LoraGovernance.currentTrustScore e = -1)) as [->|H1]; [by vm_compute; set_solver|].
    destruct (decide (LoraGovernance.currentTrustScore e = 0)) as [->|H2]; [by vm_compute; set_solver|].
    destruct (decide (LoraGovernance.currentTrustScore e = 1)) as [->|H3]; [by vm_compute; set_solver|].
    rewrite !lookup_insert_ne by lia. rewrite lookup_empty. cbn. set_solver. }
  rewrite !bool_decide_false by set_solver. cbn. by case_match.
Qed.

(** *** Packs *)

Section Packs.

Context {Act : Type} (existing : string -> Lookup unit) (create : AdapterCR -> M Act unit).
Context (verify : Pack -> AIPackGovernance.AIPackVerificationResult + string).

(** A pack with the attestations its kind requires, all of them verified. *)
Definition attested (p : Pack) : Prop := required p = true /\ exists r, verify p = inl r /\ AIPackGovernance.Verified r = true.

Lemma verify_packs_count hasScheme (s : Svc) n packs v :
  (verify_packs existing create verify hasScheme s n packs).2 = Some v ->
  v - n <= Z.of_nat (length packs) /\ (v - n = Z.of_nat (length packs) <-> forall p, p ∈ packs -> attested p).
Proof.
  revert n v. induction packs as [|p packs IH]; intros n v; cbn [verify_packs].
  { intros [= ->]. cbn. split; [lia|]. setoid_rewrite elem_of_nil. split; [done|lia]. }
  setoid_rewrite elem_of_cons. cbn [length]. destruct (required p) eqn:Er; cbn [negb].
  - destruct (verify p) as [r|] eqn:Ev; [|done]. cbn [snd]. destruct (AIPackGovernance.Verified r) eqn:Evr.
    + intros (Hle & Hiff)%IH. split; [lia|]. split.
      * intros Hv q [->|Hq]; [split; eauto|]. apply Hiff; [lia|done].
      * intros H. assert (v - (n + 1) = Z.of_nat (length packs)); [|lia]. apply Hiff. auto.
    + intros (Hle & _)%IH. split; [lia|]. split; [lia|]. intros H. destruct (H p (or_introl eq_refl)) as (_ & r' & Hr' & Hv).
      rewrite Ev in Hr'. simplify_eq. congruence.
  - intros (Hle & _)%IH. split; [lia|]. split; [lia|]. intros H. destruct (H p (or_introl eq_refl)) as (Hp & _). congruence.
Qed.

(** The provenance conditions say what was verified.  SR-2 is true exactly
    when there is an artifact, a base model from an OCI registry was recorded
    as verified by the initializer of every ready pod and at least one pod is
    ready, and every adapter has verified evidence; the condition for AIPacks
    is true exactly when every pack of the workload has the attestations its
    kind requires and they were verified. *)
Theorem provenance_conditions_sound now airGapped keyPath pods (s : Svc) loras hasScheme packs :
  (forall c, buildSR2Condition parse_record now airGapped keyPath pods s loras = Some c ->
     (Condition_Status c = ConditionTrue <->
        (runtimeVerifiableModelURI (uri_of s) = true \/ loras <> [])
        /\ (runtimeVerifiableModelURI (uri_of s) = true -> exists l, pods = Some l
              /\ (exists p, p ∈ l /\ isReadyPod p = true) /\ forall p, p ∈ l -> isReadyPod p = true -> pod_verified p)
        /\ (forall a, a ∈ loras -> LoraGovernance.HasVerifiedSupplyChainEvidence (lora_adapter a) = true)))
  /\ (forall verified, (verify_packs existing create verify hasScheme s 0 packs).2 = Some verified ->
     (Condition_Status (buildAIPackSR2Condition now (Z.of_nat (length packs)) verified) = ConditionTrue <-> forall p, p ∈ packs -> attested p)).
Proof.
  split.
  - intros c. unfold buildSR2Condition, countVerifiedArtifacts.
    destruct (runtimeVerifiableModelURI (uri_of s)) eqn:Eu.
    + destruct (baseModelVerificationRecorded parse_record pods) as [ok|] eqn:Eb; cbn; [|done].
      destruct (foldl _ _ loras) as [t v] eqn:Ef. intros [= <-]. rewrite (sr2_result_iff _ _ _ _ _ _ _ _ Ef) by (destruct ok; lia).
      unfold baseModelVerificationRecorded in Eb. destruct pods as [l|]; cbn in Eb; [|done].
      destruct ok.
      * apply pods_verified_iff in Eb as [[|Hp] Hv]; [lia| |done]. split; [|naive_solver]. intros (_ & _ & H). split; [by left|]. split; [eauto|done].
      * split; [intros (_ & ? & _); lia|]. intros (_ & H & _). destruct (H eq_refl) as (l' & [= <-] & H1 & H2).
        assert (pods_verified parse_record 0 l = Some true); [|congruence]. apply pods_verified_iff; [done|]. split; [by right|done].
    + cbn. destruct (foldl _ _ loras) as [t v] eqn:Ef. intros [= <-]. rewrite (sr2_result_iff _ _ _ _ _ _ _ _ Ef) by lia. naive_solver lia.
  - intros verified (Hle & Hiff)%verify_packs_count. rewrite <- Hiff, Z.sub_0_r. unfold buildAIPackSR2Condition.
    destruct packs as [|p packs].
    + cbn. split; [|done]. intros _. cbn in Hiff, Hle. apply Z.le_antisymm; [lia|]. 
      assert (verified - 0 = Z.of_nat 0); [|lia]. apply Hiff. intros p Hp. by apply not_elem_of_nil in Hp.
    + rewrite (bool_decide_false (Z.of_nat _ = 0)) by (cbn; lia). case_bool_decide as E; cbn [Condition_Status]; split; done || lia || auto.
Qed.

End Packs.

End Sound.

(** ** A concrete workload *)

#[local] Instance evidence_carried : Carried := {| Opaque := string; no_Opaque := "" |}.

Definition evidence_service (uri : string) : LLMInferenceService (K := objects_k8s) :=
  let z := zero_LLMInferenceServiceSpec in
  mkLLMInferenceService (tt : TypeMeta) (mkMeta "m" "prod" ∅ ∅ 1 [] false)
    (mkLLMInferenceServiceSpec (mkModelSpec uri "" "m" None false) None None None (LLMInferenceServiceSpec_Template z)
       None None (LLMInferenceServiceSpec_Router z) None None None None None None None None None "" None None)
    (LLMInferenceService_Status zero_LLMInferenceService).

Definition evidence_record : Receipts.RuntimeVerificationRecord :=
  Receipts.mkRuntimeRecord "s" "oci" true true true "d" "a" "b" "" false "" "" "" "" "".
Definition evidence_parse (s : string) : option Receipts.RuntimeVerificationRecord := if s ==? "ok" then Some evidence_record else None.
Definition evidence_pod (message : string) : Pod := mkPod [("Ready", "True")] [("storage-initializer", Some message)].
Definition evidence_lora (verified : bool) : Lora :=
  mkLora "a" "m" (LoraGovernance.mkAdapter "a" None None (LoraGovernance.mkPlanes "active" "asserted" "" "" "normal")
    (LoraGovernance.mkBundle "oci://att" "d" "s" (if verified then Some 1 else None))).

Definition evidence_sr2 (uri : string) (pods : list Pod) (loras : list Lora) : option string :=
  Condition_Status <$> buildSR2Condition evidence_parse 0 false "" (Some pods) (evidence_service uri) loras.

Lemma provenance_conditions_sound_witness :
  evidence_sr2 "oci://reg/m:1" [evidence_pod "ok"] [evidence_lora true] = Some ConditionTrue
  /\ evidence_sr2 "oci://reg/m:1" [evidence_pod "ok"] [evidence_lora false] = Some ConditionFalse
  /\ pod_verified evidence_parse (evidence_pod "ok").
Proof.
  split; [by vm_compute|]. split; [by vm_compute|].
  destruct (proj1 (provenance_conditions_sound evidence_parse (fun _ => NotFound) (fun _ => mret tt : M unit unit)
    (fun _ => inr "") 0 false "" (Some [evidence_pod "ok"]) (evidence_service "oci://reg/m:1") [] true []) _ eq_refl) as [H _].
  destruct (proj1 (proj2 (H ltac:(by vm_compute))) ltac:(by vm_compute)) as (l & [= <-] & _ & Hv).
  apply Hv; [left|by vm_compute].
Defined.

(** A base model that cannot be verified does not count: with one verified
    adapter the provenance of the workload is verified; and the name of an
    adapter takes the last characters of the digest. *)
Example evidence_oddities :
  evidence_sr2 "hf://org/m" [] [evidence_lora true] = Some ConditionTrue
  /\ evidence_sr2 "hf://org/m" [] [] = Some ConditionFalse
  /\ digestSuffix "registry/image@sha256:abcdef0123456789" = "23456789".
Proof. by vm_compute. Qed.
