(* ===== verification/ServiceReconcile.v ===== *)
(** * The controller of LLMInferenceService

    [internal/controller/llminferenceservice_*.go] with
    [internal/controller/reconciler/service.go] and [pdb.go]: one
    reconciliation as a computation of the monad [M] of [ServiceStatus], which
    performs actions on the cluster in order.  What the API server answers is
    the record [World]; [ok] tells which actions succeed.  The reconcilers of
    other packages (gateway, scheduler, autoscaler, network policies and the
    like) are actions.  Events, metrics and log lines are left out, and a
    panic ends a reconciliation as an error does. *)

From S2P Require Import Prelude GoStrings K8s K8sPods K8sObjects ApiV1alpha2 AIPack Webhook RuntimeRegistry DeploymentSync DeploymentBuilder WellKnown ServiceStatus GovernanceEvidence.
From S2P Require LocalModelCache LoraGovernance AIPackGovernance Receipts DeploymentProperties.

#[local] Notation spec := ServiceStatus.spec.

Definition FinalizerName := "serving.ckodex.com/finalizer".
Definition AnnotationPauseReconciliation := "ckodex.com/pause-reconciliation".
Definition WorkloadLabel := "serving.ckodex.com/workload".

(** ** Services and disruption budgets *)

Record ServicePort := mkServicePort { port_Name : string; AppProtocol : string; Port : Z; TargetPort : Z }.
Record ServiceSpec := mkServiceSpec { sv_Selector : gmap string string; sv_Ports : list ServicePort; sv_Headless : bool; sv_LocalTraffic : bool }.
Record PDBSpec := mkPDBSpec { MinAvailable : Z; pdb_Selector : gmap string string }.

#[global] Instance service_port_eq_dec : EqDecision ServicePort.
Proof. solve_decision. Defined.
#[global] Instance pdb_spec_eq_dec : EqDecision PDBSpec.
Proof. solve_decision. Defined.

Definition instance_labels (name : string) : gmap string string :=
  list_to_map [("app.kubernetes.io/name", "llminferenceservice"); ("app.kubernetes.io/instance", name);
               ("app.kubernetes.io/managed-by", "ckodex-kserve-llm-operator")].

Definition service_ports (grpc : bool) : list ServicePort :=
  mkServicePort "http-inference" "http" 80 8000 :: (if grpc then [mkServicePort "grpc-inference" "grpc" 8001 8001] else []).

Definition desired_service (grpc : bool) (name : string) : ServiceSpec := mkServiceSpec (instance_labels name) (service_ports grpc) false true.
Definition headless_service (grpc : bool) (name : string) : ServiceSpec := mkServiceSpec (instance_labels name) (service_ports grpc) true false.
Definition desired_pdb (name : string) : PDBSpec := mkPDBSpec 1 (instance_labels name).

(** ** The reconciler and the cluster *)

(** Which parts of the operator are configured. *)
Record Controller := mkController {
  r_Gateway : bool; r_Scheduler : bool; r_Autoscaler : bool; r_OPA : bool; r_NetworkPolicy : bool; r_ExternalSecret : bool; r_Vault : bool;
  r_SPIRE : bool; r_SPIRERegistration : bool; r_Ebpf : bool; r_ToolSurface : bool; r_Governance : bool; r_HFCSI : bool; r_KServeMultiNode : bool;
  r_Audit : bool; r_EnableGRPC : bool; r_EnableHardening : bool; r_Scheme : bool; r_Builder : Builder }.

Section Controller.

Context {CR : Carried}.
#[local] Notation Svc := (LLMInferenceService (K := objects_k8s)).

(** What is read in the course of a reconciliation.  The hardware cache is
    shared with concurrent reconciliations, so that its three readings are
    independent.  A lookup of [w_deploy_ready] is made at the end. *)
Record World := mkWorld {
  w_service : Lookup Svc;
  w_nodes : option (list Node);
  w_early_packs : option (list Pack);
  w_packs : option (list Pack);
  w_loras : option (list Lora);
  w_caches : option (list LocalModelCache.LocalModelCache);
  w_hardware : string; w_prefill_hardware : string; w_status_hardware : string;
  w_deployment : Lookup Deployment;
  w_prefill : Lookup Deployment;
  w_pdb : Lookup PDBSpec;
  w_services : string -> Lookup ServiceSpec;
  w_owner_ok : bool;
  w_scheduler_ready : bool;
  w_pods : option (list Pod);
  w_adapters : string -> Lookup unit;
  w_metrics : option AdaptiveMetrics;
  w_deploy_ready : Lookup Z;
  w_prefill_ready : Lookup Z;
  w_isvc : Lookup (list (string * string) * option string);
  w_now : Time;
  w_clock : string -> Time;
  w_shuffle : list (string * string) -> list (string * string);
  w_prefill_shuffle : list (string * string) -> list (string * string) }.

Inductive Action :=
  | WriteService (s : Svc)
  | PatchStatus (s : Svc)
  | UpdateStatus (s : Svc)
  | DeleteRegistrationEntry
  | RunExternalSecret
  | RunHFCSI
  | RunMultiNode (s : Svc)
  | CreateDeployment (d : Deployment)
  | UpdateDeployment (d : Deployment)
  | DeleteDeployment (d : Deployment)
  | CreatePDB (p : PDBSpec)
  | UpdatePDB (p : PDBSpec)
  | CreateServiceObject (name : string) (s : ServiceSpec)
  | UpdateServiceObject (name : string) (s : ServiceSpec)
  | CleanupScheduler
  | RunScheduler
  | RunGateway (s : Svc)
  | RunVector
  | RunAutoscaler
  | RunNetworkPolicy
  | RunToolSurface (loras : list Lora)
  | CreateAdapter (a : AdapterCR)
  | RunVault
  | RunSPIRE
  | RunRegistrationEntry
  | RunEbpf
  | RunOPA
  | AuditUpdate
  | AuditReceipt.

Context (ParseQuantity : string -> option Z) (ParseFloat : string -> option SpecFloat.spec_float) (json_structured : string -> option string).
Context (AsInt64 : Z -> Z).
Context (parse_record : string -> option Receipts.RuntimeVerificationRecord).
Context (verify : Pack -> AIPackGovernance.AIPackVerificationResult + string).

(** [meta.SetStatusCondition] and [meta.RemoveStatusCondition]. *)
Context (SetStatusCondition : Cond -> list Cond -> list Cond) (RemoveStatusCondition : string -> list Cond -> list Cond).

Context (c : Controller) (w : World) (ok : Action -> bool).

#[local] Notation act := (perform ok).

(** ** llminferenceservice_reconcile_prepare.go *)

Definition SetCondition (type st reason : string) (s : Svc) : M Action Svc :=
  let s := set_conditions s (setCondition (w_clock w type) (report s type st reason) (conditions s)) in
  _ ← act (PatchStatus s); mret s.

Definition reconcileGPUCapacity (s : Svc) (nodes : list Node) : M Action Svc :=
  if CheckGPURequirements AsInt64 s (GetClusterGPUCapacity AsInt64 nodes)
  then SetCondition "GPUCapacity" ConditionTrue "SufficientGPUs" s
  else SetCondition "GPUCapacity" ConditionFalse "InsufficientGPUs" s.

(** A failure to delete the registration entry is logged. *)
Definition cleanupResources : M Action unit :=
  if r_SPIRERegistration c then _ ← attempt ok DeleteRegistrationEntry; mret tt else mret tt.

Definition reconcileResourceSetup (s : Svc) : M Action (bool * Svc) :=
  s ← (match w_nodes w with Some nodes => reconcileGPUCapacity s nodes | None => mret s end);
  HandleFinalizer (fun s => act (WriteService s)) cleanupResources FinalizerName s.

Definition reconcileExternalInputs : M Action unit :=
  _ ← when (r_ExternalSecret c) (act RunExternalSecret);
  when (r_HFCSI c) (act RunHFCSI).

(** ** llminferenceservice_aipack.go *)

Definition matchingAIPacks (workload : string) (packs : list Pack) : list Pack :=
  List.filter (fun p => default "" (pack_Labels p !! WorkloadLabel) ==? workload) packs.

Definition normalizeQuantization (q : string) : string :=
  if existsb (String.eqb q) ["awq"; "int4-awq"; "w4a16"; "int4"] then "awq"
  else if existsb (String.eqb q) ["gptq"; "int4-gptq"] then "gptq"
  else if existsb (String.eqb q) ["gguf"] then "gguf"
  else if existsb (String.eqb q) ["bitsandbytes"; "bnb"; "int8"] then "bitsandbytes"
  else if existsb (String.eqb q) ["fp8"; "w8a8"; "sq"; "smoothquant"] then "fp8"
  else "".

Definition set_quantization (s : Svc) (q : QuantizationSpec) : Svc :=
  let sp := spec s in
  set_spec s (mkLLMInferenceServiceSpec (LLMInferenceServiceSpec_Model sp) (LLMInferenceServiceSpec_Replicas sp) (LLMInferenceServiceSpec_Parallelism sp)
    (LLMInferenceServiceSpec_Scaling sp) (LLMInferenceServiceSpec_Template sp) (LLMInferenceServiceSpec_Prefill sp) (LLMInferenceServiceSpec_Worker sp)
    (LLMInferenceServiceSpec_Router sp) (LLMInferenceServiceSpec_BaseRefs sp) (LLMInferenceServiceSpec_AutoOptimize sp)
    (LLMInferenceServiceSpec_AllowedTenants sp) (LLMInferenceServiceSpec_CostAllocationTags sp) (LLMInferenceServiceSpec_SLO sp)
    (LLMInferenceServiceSpec_Canary sp) (LLMInferenceServiceSpec_SpeculativeDecoding sp) (LLMInferenceServiceSpec_KVCache sp)
    (Some q) (LLMInferenceServiceSpec_Engine sp) (LLMInferenceServiceSpec_ToolSurface sp) (LLMInferenceServiceSpec_Observability sp)).

(** The method of the first base model that names one. *)
Fixpoint pack_quantization (packs : list Pack) : option string :=
  match packs with
  | [] => None
  | p :: packs =>
      match (if AIPackGovernance.Kind (pack_Spec p) !=? KindBaseModel then None else BaseModelQuantization p) with
      | None => pack_quantization packs
      | Some q => let m := normalizeQuantization q in if m !=? "" then Some m else pack_quantization packs
      end
  end.

Definition applyAIPackConfig (s : Svc) (packs : list Pack) : Svc :=
  match LLMInferenceServiceSpec_Quantization (spec s) with
  | Some _ => s
  | None => match pack_quantization packs with Some m => set_quantization s (mkQuantizationSpec m "") | None => s end
  end.

Definition applyEarlyAIPackConfig (s : Svc) : Svc :=
  match w_early_packs w with
  | None => s
  | Some packs => applyAIPackConfig s (matchingAIPacks (Meta_Name (meta s)) packs)
  end.

Definition RequiresMultiNode (s : Svc) : bool :=
  match LLMInferenceServiceSpec_Worker (spec s) with
  | Some _ => true
  | None => match (p ← LLMInferenceServiceSpec_Parallelism (spec s); ParallelismSpec_Pipeline p) with Some n => n >? 1 | None => false end
  end.

Definition listActiveLoras (s : Svc) : list Lora :=
  match w_loras w with
  | None => []
  | Some l => List.filter (fun a => TargetService a ==? Meta_Name (meta s)) l
  end.

(** ** llminferenceservice_deployment.go *)

Definition createDeployment (d : Deployment) : M Action unit := act (CreateDeployment d).

Definition with_preset (s : Svc) : Svc :=
  match GetWellKnownConfig (uri_of s) with Some cfg => set_spec s (ApplyConfigToSpec cfg (spec s)) | None => s end.

(** The Deployment, the replicas, and the service with its preset merged;
    [None] for a panic. *)
Definition buildLLMDeployment (s : Svc) (loras : list Lora) : Svc * option Deployment * Z :=
  let s := with_preset s in
  let replicas := default 1 (LLMInferenceServiceSpec_Replicas (spec s)) in
  let role := match LLMInferenceServiceSpec_Prefill (spec s) with Some _ => "kv_consumer" | None => "" end in
  (s, BuildWithRole ParseQuantity ParseFloat json_structured (r_Builder c) (w_shuffle w) (w_caches w) s replicas (w_hardware w) (lora_Name <$> loras) role,
   replicas).

Definition applyDeployment (s : Svc) (desired : Deployment) (replicas : Z) : M Action unit :=
  match w_deployment w with
  | NotFound => createDeployment desired
  | LookupFailed => fail
  | Found existing =>
      let '(d, changed) := SyncDeployment existing desired replicas (bool_decide (is_Some (LLMInferenceServiceSpec_Scaling (spec s)))) in
      when changed (act (UpdateDeployment d))
  end.

Definition reconcileDeployment (s : Svc) (loras : list Lora) : M Action Svc :=
  let '(s, desired, replicas) := buildLLMDeployment s loras in
  match desired with
  | None => fail
  | Some d => if w_owner_ok w then _ ← applyDeployment s d replicas; mret s else fail
  end.

Definition cleanupPrefillDeployment : M Action unit :=
  match w_prefill w with NotFound => mret tt | LookupFailed => fail | Found d => act (DeleteDeployment d) end.

Definition updatePrefillDeployment (existing desired : Deployment) : M Action unit :=
  let '(d, changed) := SyncDeployment existing desired (default 1 (Deployment_Replicas desired)) false in
  when changed (act (UpdateDeployment d)).

Definition reconcilePrefillDeployment (s : Svc) : M Action unit :=
  match LLMInferenceServiceSpec_Prefill (spec s) with
  | None => cleanupPrefillDeployment
  | Some _ =>
      match BuildPrefill ParseQuantity ParseFloat json_structured (r_Builder c) (w_prefill_shuffle w) (w_caches w) s (w_prefill_hardware w) with
      | Some (Some desired) =>
          if negb (w_owner_ok w) then fail
          else match w_prefill w with
               | NotFound => act (CreateDeployment desired)
               | LookupFailed => fail
               | Found existing => updatePrefillDeployment existing desired
               end
      | _ => fail
      end
  end.

(** ** reconciler/service.go and reconciler/pdb.go *)

Definition reconcileSingleService (name : string) (desired : ServiceSpec) : M Action unit :=
  match w_services w name with
  | NotFound => act (CreateServiceObject name desired)
  | LookupFailed => fail
  | Found e =>
      if (sv_Ports e !=? sv_Ports desired) || (sv_Selector e !=? sv_Selector desired)
      then act (UpdateServiceObject name (mkServiceSpec (sv_Selector desired) (sv_Ports desired) (sv_Headless e) (sv_LocalTraffic e)))
      else mret tt
  end.

Definition ReconcileService (s : Svc) : M Action unit :=
  let name := Meta_Name (meta s) in
  if negb (w_owner_ok w) then fail
  else
    _ ← reconcileSingleService name (desired_service (r_EnableGRPC c) name);
    reconcileSingleService (name +:+ "-headless") (headless_service (r_EnableGRPC c) name).

Definition ReconcilePDB (s : Svc) : M Action unit :=
  let desired := desired_pdb (Meta_Name (meta s)) in
  if negb (w_owner_ok w) then fail
  else match w_pdb w with
       | NotFound => act (CreatePDB desired)
       | LookupFailed => fail
       | Found e => when (e !=? desired) (act (UpdatePDB desired))
       end.

(** ** llminferenceservice_reconcile_workload.go *)

Definition reconcileMultiNodeWorkload (s : Svc) (loras : list Lora) : M Action Svc :=
  if negb (r_KServeMultiNode c) then fail
  else if Z.of_nat (length loras) >? 0 then fail
  else _ ← act (RunMultiNode s); mret s.

Definition reconcileSingleNodeWorkload (s : Svc) (loras : list Lora) : M Action Svc :=
  s ← reconcileDeployment s loras;
  _ ← ReconcilePDB s;
  _ ← ReconcileService s;
  _ ← reconcilePrefillDeployment s;
  mret s.

Definition reconcileWorkload (multiNode : bool) (s : Svc) (loras : list Lora) : M Action Svc :=
  if multiNode then reconcileMultiNodeWorkload s loras else reconcileSingleNodeWorkload s loras.

(** ** llminferenceservice_reconcile_scheduler.go *)

(** A reconciliation that ends here, with the delay of the next one, or the
    service it goes on with. *)
#[local] Notation Step := (Z + Svc)%type.

Definition schedulerCondition (s : Svc) (st reason : string) : Cond := report s ConditionSchedulerReady st reason.

Definition setSchedulerGateReadyCondition (s : Svc) : Svc :=
  set_conditions s (SetStatusCondition (report s ConditionReady ConditionFalse "SchedulerUnavailable") (conditions s)).

(** The service as the gateway and the status see it when the scheduler is
    blocked. *)
Definition blocked_service (s : Svc) (reason : string) : Svc :=
  setSchedulerGateReadyCondition (set_conditions s (SetStatusCondition (schedulerCondition s ConditionFalse reason) (conditions s))).

(** [cause] tells whether the branch is an error by itself. *)
Definition reconcileSchedulerBlocked (s : Svc) (reason : string) (cause : bool) (requeueAfter : Z) : M Action Step :=
  let s := blocked_service s reason in
  routed ← (if r_Gateway c then attempt ok (RunGateway s) else mret true);
  saved ← attempt ok (PatchStatus s);
  if cause || negb routed || negb saved then fail else mret (inl requeueAfter).

Definition schedulerFeatureDisabled (s : Svc) : M Action Step := reconcileSchedulerBlocked s "SchedulerFeatureDisabled" true 0.
Definition schedulerReconcileFailed (s : Svc) : M Action Step := reconcileSchedulerBlocked s "SchedulerReconcileFailed" true 0.
Definition schedulerNotReady (s : Svc) : M Action Step := reconcileSchedulerBlocked s "EndpointPickerUnavailable" false (5 * Second).

Definition reconcileEnabledScheduler (s : Svc) : M Action Step :=
  done ← attempt ok RunScheduler;
  if negb done then schedulerReconcileFailed s
  else if negb (w_scheduler_ready w) then schedulerNotReady s
  else mret (inr (set_conditions s (SetStatusCondition (schedulerCondition s ConditionTrue "EndpointPickerReady") (conditions s)))).

Definition scheduler_requested (s : Svc) : bool := bool_decide (is_Some (RouterSpec_Scheduler (LLMInferenceServiceSpec_Router (spec s)))).

Definition reconcileScheduler (s : Svc) : M Action Step :=
  if negb (scheduler_requested s) then
    let s := set_conditions s (RemoveStatusCondition ConditionSchedulerReady (conditions s)) in
    _ ← when (r_Scheduler c) (act CleanupScheduler); mret (inr s)
  else if negb (r_Scheduler c) then schedulerFeatureDisabled s
  else reconcileEnabledScheduler s.

(** ** Routing, security and identity *)

Definition reconcileRouting (multiNode : bool) (s : Svc) : M Action unit :=
  _ ← when (r_Gateway c) (act (RunGateway s));
  _ ← act RunVector;
  when (r_Autoscaler c && negb multiNode) (act RunAutoscaler).

Definition reconcileSecurityIsolation (loras : list Lora) : M Action unit :=
  _ ← when (r_NetworkPolicy c) (act RunNetworkPolicy);
  when (r_ToolSurface c) (act (RunToolSurface loras)).

Definition reconcileVault : M Action unit := when (r_Vault c) (act RunVault).
Definition reconcileSPIRE : M Action unit :=
  _ ← when (r_SPIRE c) (act RunSPIRE);
  when (r_SPIRERegistration c) (act RunRegistrationEntry).
Definition reconcileEbpf : M Action unit := when (r_Ebpf c) (act RunEbpf).
Definition reconcileOPA : M Action unit := when (r_OPA c) (act RunOPA).

Definition reconcileIdentityAndPolicy : M Action unit :=
  _ ← reconcileVault; _ ← reconcileSPIRE; _ ← reconcileEbpf; reconcileOPA.

(** ** llminferenceservice_reconcile_governance.go *)

Definition listActiveAIPacks (s : Svc) : list Pack :=
  match w_packs w with
  | None => []
  | Some l => List.filter (fun p => default "" (pack_Labels p !! WorkloadLabel) ==? Meta_Name (meta s)) l
  end.

Definition set_planes (s : Svc) (p : LoraGovernance.StatePlanes) : Svc :=
  let st := status s in
  set_status s (mkLLMInferenceServiceStatus
    (mkStatePlanes (LoraGovernance.Lifecycle p) (LoraGovernance.Trust p) (LoraGovernance.Binding p) (LoraGovernance.PComposition p) (LoraGovernance.Risk p))
    (LLMInferenceServiceStatus_Conditions st) (LLMInferenceServiceStatus_URL st) (LLMInferenceServiceStatus_Replicas st)
    (LLMInferenceServiceStatus_ModelReady st) (LLMInferenceServiceStatus_ModelRevision st) (LLMInferenceServiceStatus_ObservedGeneration st)
    (LLMInferenceServiceStatus_Optimized st) (LLMInferenceServiceStatus_DetectedHardware st) (LLMInferenceServiceStatus_AdaptiveMetrics st)).

(** A failure of the AIPacks is logged and leaves the conditions. *)
Definition reconcileGovernance (s : Svc) (loras : list Lora) : M Action Svc :=
  let packs := listActiveAIPacks s in
  let s := set_planes s (aggregated s loras) in
  if negb (r_Governance c) then mret s
  else match ReconcileEvidence parse_record SetStatusCondition (w_now w) (AirGappedMode (r_Builder c)) (LocalCosignKeyPath (r_Builder c)) (w_pods w) loras s with
       | None => fail
       | Some s =>
           let m := ReconcileAIPacks SetStatusCondition (w_adapters w) (fun a => act (CreateAdapter a)) verify (w_now w) (r_Scheme c) packs s in
           (m.1, Some (default s m.2))
       end.

(** ** llminferenceservice_reconcile_status.go *)

Definition set_hardware (s : Svc) (hw : string) : Svc :=
  let st := status s in
  set_status s (mkLLMInferenceServiceStatus (LLMInferenceServiceStatus_StatePlanes st) (LLMInferenceServiceStatus_Conditions st)
    (LLMInferenceServiceStatus_URL st) (LLMInferenceServiceStatus_Replicas st) (LLMInferenceServiceStatus_ModelReady st)
    (LLMInferenceServiceStatus_ModelRevision st) (LLMInferenceServiceStatus_ObservedGeneration st) (LLMInferenceServiceStatus_Optimized st)
    hw (LLMInferenceServiceStatus_AdaptiveMetrics st)).

(** [before] is the copy the reconciliation began with. *)
Definition updateLLMInferenceStatus (before : Svc) (multiNode : bool) (s : Svc) : M Action Svc :=
  let isOptimized := bool_decide (is_Some (GetWellKnownConfig (uri_of s))) in
  let s := set_hardware s (w_status_hardware w) in
  match (s ← (if multiNode then from_kserve (w_isvc w) s else from_deployment (w_deploy_ready w) s);
         finishUpdate (r_EnableHardening c) (w_clock w) isOptimized (w_metrics w) (w_prefill_ready w) s) with
  | None => fail
  | Some s => _ ← when (negb (same_status (status before) (status s))) (act (UpdateStatus s)); mret s
  end.

(** ** llminferenceservice_reconcile_audit.go *)

Definition recordLLMInferenceAudit (s : Svc) : M Action unit :=
  if r_Audit c then
    _ ← attempt ok AuditUpdate;
    if model_ready s then _ ← attempt ok AuditReceipt; mret tt else mret tt
  else mret tt.

Definition finishLLMInferenceReconcile (multiNode : bool) (s : Svc) : M Action Z :=
  mret (if multiNode && negb (model_ready s) then 15 * Second else 0).

(** ** llminferenceservice_reconcile.go *)

Definition reconciliationPaused (s : Svc) : bool := default "" (Meta_Annotations (meta s) !! AnnotationPauseReconciliation) ==? "true".

Definition surface_valid (s : Svc) : bool :=
  ValidateInferenceEngine (K := objects_k8s) (LLMInferenceServiceSpec_Engine (spec s))
  && bool_decide (length (ValidateLLMInferenceServiceSurface (K := objects_k8s) (Some s)) = 0%nat).

(** The steps that end with the first failure, up to the status. *)
Definition secure (multiNode : bool) (loras : list Lora) (s : Svc) : M Action Svc :=
  _ ← reconcileRouting multiNode s;
  _ ← reconcileSecurityIsolation loras;
  s ← reconcileGovernance s loras;
  _ ← reconcileIdentityAndPolicy;
  mret s.

Definition reconcilePostScheduler (before : Svc) (multiNode : bool) (loras : list Lora) (s : Svc) : M Action Z :=
  s ← secure multiNode loras s;
  s ← updateLLMInferenceStatus before multiNode s;
  _ ← recordLLMInferenceAudit s;
  finishLLMInferenceReconcile multiNode s.

(** The service after [prepareWorkloadInputs]. *)
Definition prepared (s : Svc) : Svc := applyEarlyAIPackConfig s.

Definition managed (before : Svc) (s : Svc) : M Action Z :=
  _ ← reconcileExternalInputs;
  let s := prepared s in
  let multiNode := RequiresMultiNode s in
  let loras := listActiveLoras s in
  s ← reconcileWorkload multiNode s loras;
  step ← reconcileScheduler s;
  match step with
  | inl result => mret result
  | inr s => reconcilePostScheduler before multiNode loras s
  end.

(** The delay until the next reconciliation; [None] is an error. *)
Definition Reconcile : M Action Z :=
  match w_service w with
  | LookupFailed => fail
  | NotFound => mret 0
  | Found s =>
      if reconciliationPaused s then mret 0
      else if negb (surface_valid s) then fail
      else
        '(deleted, s') ← reconcileResourceSetup s;
        if (deleted : bool) then mret 0 else managed s s'
  end.

End Controller.

(** ** Laws of the monad *)

Section Laws.

Context {Act : Type}.

(** Every action of a computation satisfies [P]. *)
Definition only {R} (P : Act -> Prop) (m : M Act R) : Prop := forall x, x ∈ m.1 -> P x.1.

Lemma bind_in {A R} (m : M Act A) (f : A -> M Act R) x : x ∈ (m ≫= f).1 <-> x ∈ m.1 \/ exists a, m.2 = Some a /\ x ∈ (f a).1.
Proof.
  unfold mbind, M_bind. destruct m as [t [a|]]; cbn; [rewrite elem_of_app|]; naive_solver.
Qed.

Lemma bind_done {A R} (m : M Act A) (f : A -> M Act R) r : (m ≫= f).2 = Some r <-> exists a, m.2 = Some a /\ (f a).2 = Some r.
Proof. unfold mbind, M_bind. destruct m as [t [a|]]; cbn; naive_solver. Qed.

Lemma bind_trace {A R} (m : M Act A) (f : A -> M Act R) a : m.2 = Some a -> (m ≫= f).1 = m.1 ++ (f a).1.
Proof. unfold mbind, M_bind. by intros ->. Qed.

Lemma bind_result {A R} (m : M Act A) (f : A -> M Act R) a : m.2 = Some a -> (m ≫= f).2 = (f a).2.
Proof. unfold mbind, M_bind. by intros ->. Qed.

Lemma perform_done (ok : Act -> bool) a u : (perform ok a).2 = Some u <-> ok a = true.
Proof. unfold perform. cbn. destruct (ok a), u; naive_solver. Qed.

Lemma when_done (b : bool) (m : M Act unit) u : (when b m).2 = Some u <-> (b = true -> m.2 = Some tt).
Proof. destruct b, u; cbn; naive_solver. Qed.

Lemma only_ret {R} P (r : R) : only P (mret r : M Act R).
Proof. intros x Hx. by apply not_elem_of_nil in Hx. Qed.
Lemma only_fail {R} P : only P (fail : M Act R).
Proof. intros x Hx. by apply not_elem_of_nil in Hx. Qed.
Lemma only_perform P ok (a : Act) : P a -> only P (perform ok a).
Proof. intros Ha x Hx. apply list_elem_of_singleton in Hx as ->. done. Qed.
Lemma only_attempt P ok (a : Act) : P a -> only P (attempt ok a).
Proof. intros Ha x Hx. apply list_elem_of_singleton in Hx as ->. done. Qed.
Lemma only_bind {A R} P (m : M Act A) (f : A -> M Act R) : only P m -> (forall a, only P (f a)) -> only P (m ≫= f).
Proof. intros Hm Hf x [Hx|(a & _ & Hx)]%bind_in; [by apply Hm|by apply (Hf a)]. Qed.
Lemma only_when P b (m : M Act unit) : only P m -> only P (when b m).
Proof. destruct b; [done|]. intros _. apply only_ret. Qed.

(** An action that a first part never performs is one of the second part. *)
Lemma bind_later {A R} P (m : M Act A) (f : A -> M Act R) x : only P m -> ~ P x.1 -> x ∈ (m ≫= f).1 ->
  exists a, m.2 = Some a /\ x ∈ (f a).1 /\ (m ≫= f).1 = m.1 ++ (f a).1.
Proof.
  intros Hm Hx [H|(a & Ha & H)]%bind_in; [by apply Hm in H|]. exists a. split; [done|]. split; [done|]. by apply bind_trace.
Qed.

(** A computation that succeeds has performed [a] successfully. *)
Definition performs {R} (a : Act) (m : M Act R) : Prop := forall r, m.2 = Some r -> (a, true) ∈ m.1.

Lemma performs_perform ok a : performs a (perform ok a).
Proof. intros u H%perform_done. cbn. rewrite H. left. Qed.
Lemma performs_when (b : bool) a (m : M Act unit) : b = true -> performs a m -> performs a (when b m).
Proof. by intros ->. Qed.
Lemma performs_bind_l {A R} a (m : M Act A) (f : A -> M Act R) : performs a m -> performs a (m ≫= f).
Proof. intros H r (x & Hx & _)%bind_done. apply bind_in. left. by apply (H x). Qed.
Lemma performs_bind_r {A R} a (m : M Act A) (f : A -> M Act R) : (forall x, performs a (f x)) -> performs a (m ≫= f).
Proof. intros H r (x & Hx & Hr)%bind_done. apply bind_in. right. exists x. split; [done|]. by apply (H x r). Qed.

End Laws.

Create HintDb actions.
#[export] Hint Resolve only_ret only_fail only_perform only_attempt only_when : actions.

(** Splits a computation into its calls and decides each of them. *)
Ltac actions := intros; repeat first
  [ progress eauto with actions
  | apply only_bind; intros
  | apply only_when
  | apply only_perform
  | apply only_attempt
  | match goal with |- only _ (match ?x with _ => _ end) => destruct x end
  | progress cbn beta iota ].

(** Finds the call that performs an action. *)
Ltac performs := solve
  [ apply performs_perform
  | apply performs_when; [done|performs]
  | apply performs_bind_l; performs
  | apply performs_bind_r; intros; performs ].

Section Reached.

Context {CR : Carried}.
#[local] Notation Svc := (LLMInferenceService (K := objects_k8s)).

Context (ParseQuantity : string -> option Z) (ParseFloat : string -> option SpecFloat.spec_float) (json_structured : string -> option string).
Context (AsInt64 : Z -> Z).
Context (parse_record : string -> option Receipts.RuntimeVerificationRecord).
Context (verify : Pack -> AIPackGovernance.AIPackVerificationResult + string).
Context (SetStatusCondition : Cond -> list Cond -> list Cond) (RemoveStatusCondition : string -> list Cond -> list Cond).
Context (c : Controller) (w : World) (ok : Action -> bool).

(** Neither the final status nor a route. *)
Definition early (a : Action) : Prop := match a with UpdateStatus _ | RunGateway _ => False | _ => True end.
Definition not_final (a : Action) : Prop := match a with UpdateStatus _ => False | _ => True end.

Lemma setup_early (s : Svc) : only early (reconcileResourceSetup AsInt64 c w ok s).
Proof.
  unfold reconcileResourceSetup, HandleFinalizer, cleanupResources, reconcileGPUCapacity, SetCondition. actions; done.
Qed.

Lemma inputs_early : only early (reconcileExternalInputs c ok).
Proof. unfold reconcileExternalInputs. actions; done. Qed.

Lemma workload_early multiNode (s : Svc) loras : only early (reconcileWorkload ParseQuantity ParseFloat json_structured c w ok multiNode s loras).
Proof.
  unfold reconcileWorkload, reconcileMultiNodeWorkload, reconcileSingleNodeWorkload, reconcileDeployment, applyDeployment, createDeployment, ReconcilePDB,
    ReconcileService, reconcileSingleService, reconcilePrefillDeployment, cleanupPrefillDeployment, updatePrefillDeployment. actions; done.
Qed.

Lemma early_not_final a : early a -> not_final a.
Proof. by destruct a. Qed.

Lemma only_weaken {R} (m : M Action R) : only early m -> only not_final m.
Proof. intros H x Hx. by apply early_not_final, H. Qed.

Lemma scheduler_not_final (s : Svc) : only not_final (reconcileScheduler SetStatusCondition RemoveStatusCondition c w ok s).
Proof.
  unfold reconcileScheduler, schedulerFeatureDisabled, reconcileEnabledScheduler, schedulerReconcileFailed, schedulerNotReady, reconcileSchedulerBlocked.
  actions; done.
Qed.

Lemma create_not_final (existing : string -> Lookup unit) pack (s : Svc) i refs :
  only not_final (create_adapters existing (fun a => perform ok (CreateAdapter a)) pack s i refs).
Proof. revert i. induction refs; intros i; cbn [create_adapters]; actions; done. Qed.

Lemma adapters_not_final (existing : string -> Lookup unit) hasScheme pack (s : Svc) :
  only not_final (ReconcileAdapters existing (fun a => perform ok (CreateAdapter a)) hasScheme pack s).
Proof. unfold ReconcileAdapters. actions; done || apply create_not_final. Qed.

Lemma packs_not_final (existing : string -> Lookup unit) hasScheme (s : Svc) n packs :
  only not_final (verify_packs existing (fun a => perform ok (CreateAdapter a)) verify hasScheme s n packs).
Proof.
  revert n. induction packs as [|p packs IH]; intros n; cbn [verify_packs]; [actions|]. actions.
  intros x [Hx|Hx]%elem_of_app; [|by eapply IH]. revert x Hx. case_match; [apply adapters_not_final|apply only_ret].
Qed.

Lemma secure_not_final multiNode loras (s : Svc) : only not_final (secure parse_record verify SetStatusCondition c w ok multiNode loras s).
Proof.
  unfold secure, reconcileRouting, reconcileSecurityIsolation, reconcileGovernance, reconcileIdentityAndPolicy, reconcileVault, reconcileSPIRE, reconcileEbpf,
    reconcileOPA. actions; try done.
  apply packs_not_final.
Qed.

(** *** What a completed reconciliation has done *)

(** The configured protections: those set up before the workload and those
    after the scheduler. *)
Definition input_protections : list Action :=
  (if r_ExternalSecret c then [RunExternalSecret] else []) ++ (if r_HFCSI c then [RunHFCSI] else []).
Definition protections (multiNode : bool) (loras : list Lora) : list Action :=
  [RunVector]
  ++ (if r_Autoscaler c && negb multiNode then [RunAutoscaler] else [])
  ++ (if r_NetworkPolicy c then [RunNetworkPolicy] else []) ++ (if r_ToolSurface c then [RunToolSurface loras] else [])
  ++ (if r_Vault c then [RunVault] else []) ++ (if r_SPIRE c then [RunSPIRE] else [])
  ++ (if r_SPIRERegistration c then [RunRegistrationEntry] else []) ++ (if r_Ebpf c then [RunEbpf] else []) ++ (if r_OPA c then [RunOPA] else []).

Lemma elem_of_if (b : bool) (a x : Action) : a ∈ (if b then [x] else []) -> b = true /\ a = x.
Proof. destruct b; [intros ->%list_elem_of_singleton|intros H%not_elem_of_nil]; done. Qed.

Lemma inputs_performed a : a ∈ input_protections -> performs a (reconcileExternalInputs c ok).
Proof.
  unfold input_protections, reconcileExternalInputs. intros [[Hb ->]%elem_of_if|[Hb ->]%elem_of_if]%elem_of_app; performs.
Qed.

Lemma secure_performed multiNode loras (s : Svc) a : a ∈ protections multiNode loras ->
  performs a (secure parse_record verify SetStatusCondition c w ok multiNode loras s).
Proof.
  unfold protections, secure, reconcileRouting, reconcileSecurityIsolation, reconcileIdentityAndPolicy, reconcileVault, reconcileSPIRE, reconcileEbpf, reconcileOPA.
  rewrite !elem_of_app. intros Ha.
  repeat (destruct Ha as [Ha|Ha]; [first [apply list_elem_of_singleton in Ha as ->|apply elem_of_if in Ha as [Hb ->]]; performs|]).
  apply elem_of_if in Ha as [Hb ->]. performs.
Qed.

(** *** The service in the course of a reconciliation *)

Lemma setup_keeps (s s1 : Svc) : (reconcileResourceSetup AsInt64 c w ok s).2 = Some (false, s1) ->
  spec s1 = spec s /\ Meta_Name (meta s1) = Meta_Name (meta s) /\ Meta_Deleted (meta s) = false.
Proof.
  unfold reconcileResourceSetup. intros (s' & Hs & Hf)%bind_done.
  assert (spec s' = spec s /\ meta s' = meta s) as [<- Hm].
  { destruct (w_nodes w) as [nodes|]; [|by injection Hs as <-]. unfold reconcileGPUCapacity, SetCondition in Hs.
    destruct (CheckGPURequirements _ _ _); apply bind_done in Hs as ([] & _ & Hs); by injection Hs as <-. }
  rewrite <- Hm. unfold HandleFinalizer in Hf. destruct (Meta_Deleted (meta s')); cbn [negb] in Hf.
  - destruct (ContainsFinalizer s' FinalizerName); [|done]. apply bind_done in Hf as (? & _ & Hf). by apply bind_done in Hf as (? & _ & Hf).
  - destruct (ContainsFinalizer s' FinalizerName); [by injection Hf as <-|]. apply bind_done in Hf as (? & _ & Hf). by injection Hf as <-.
Qed.

Lemma prepared_keeps (s : Svc) :
  RequiresMultiNode (prepared w s) = RequiresMultiNode s /\ meta (prepared w s) = meta s
  /\ LLMInferenceServiceSpec_Router (spec (prepared w s)) = LLMInferenceServiceSpec_Router (spec s).
Proof. unfold prepared, applyEarlyAIPackConfig, applyAIPackConfig. repeat case_match; done. Qed.

Lemma preset_keeps (s : Svc) : LLMInferenceServiceSpec_Router (spec (with_preset s)) = LLMInferenceServiceSpec_Router (spec s).
Proof. unfold with_preset. case_match; [|done]. cbn. unfold ApplyConfigToSpec, apply_defaults. repeat case_match; done. Qed.

Lemma workload_keeps multiNode (s s2 : Svc) loras :
  (reconcileWorkload ParseQuantity ParseFloat json_structured c w ok multiNode s loras).2 = Some s2 -> scheduler_requested s2 = scheduler_requested s.
Proof.
  unfold reconcileWorkload, reconcileMultiNodeWorkload, reconcileSingleNodeWorkload, reconcileDeployment, buildLLMDeployment.
  destruct multiNode.
  - destruct (negb _); [done|]. case_bool_decide; [done|]. intros ([] & _ & Hs)%bind_done. by injection Hs as <-.
  - intros (s1 & Hs & H)%bind_done. repeat (apply bind_done in H as ([] & _ & H)). injection H as <-.
    destruct (BuildWithRole _ _ _ _ _ _ _ _ _ _ _); [|done]. destruct (w_owner_ok w); [|done]. apply bind_done in Hs as ([] & _ & Hs). injection Hs as <-.
    unfold scheduler_requested. by rewrite preset_keeps.
Qed.

Lemma scheduler_passed (s s3 : Svc) : (reconcileScheduler SetStatusCondition RemoveStatusCondition c w ok s).2 = Some (inr s3) -> scheduler_requested s = true ->
  r_Scheduler c = true /\ w_scheduler_ready w = true
  /\ (RunScheduler, true) ∈ (reconcileScheduler SetStatusCondition RemoveStatusCondition c w ok s).1.
Proof.
  intros Hs Hr. revert Hs. unfold reconcileScheduler. rewrite Hr. cbn [negb].
  destruct (r_Scheduler c); cbn [negb]; [|unfold schedulerFeatureDisabled, reconcileSchedulerBlocked; intros (? & _ & H)%bind_done;
    apply bind_done in H as (? & _ & H); by repeat case_match].
  unfold reconcileEnabledScheduler. intros (d & Hd & H)%bind_done.
  destruct d; cbn [negb] in H; [|apply bind_done in H as (? & _ & H); apply bind_done in H as (? & _ & H); by repeat case_match].
  destruct (w_scheduler_ready w); cbn [negb] in H; [|apply bind_done in H as (? & _ & H); apply bind_done in H as (? & _ & H); by repeat case_match].
  split; [done|]. split; [done|]. apply bind_in. left. injection Hd as Hd. cbn. rewrite Hd. left.
Qed.

(** Whether the model is served, as the status step finds it. *)
Definition served (multiNode : bool) : Prop :=
  if multiNode then exists conds url, w_isvc w = Found (conds, url) /\ kserveReady conds = true
  else exists n, w_deploy_ready w = Found n /\ 0 < n.

Lemma status_written before multiNode (s : Svc) s' saved :
  (UpdateStatus s', saved) ∈ (updateLLMInferenceStatus c w ok before multiNode s).1 ->
  (updateLLMInferenceStatus c w ok before multiNode s).1 = [(UpdateStatus s', saved)]
  /\ exists cond, cond_of ConditionReady (conditions s') = Some cond /\ (Condition_Status cond = ConditionTrue <-> served multiNode).
Proof.
  unfold updateLLMInferenceStatus. set (sh := set_hardware s _).
  destruct (if multiNode then from_kserve (w_isvc w) sh else from_deployment (w_deploy_ready w) sh) as [s1|] eqn:E1; [|by intros ?%not_elem_of_nil].
  cbn [mbind option_bind]. destruct (finishUpdate _ _ _ _ _ s1) as [s2|] eqn:E2; [|by intros ?%not_elem_of_nil].
  destruct (same_status _ _); [by intros ?%not_elem_of_nil|]. cbn [negb when].
  intros [H|(? & _ & H)]%bind_in; [|by apply not_elem_of_nil in H]. apply list_elem_of_singleton in H. injection H as <- ->. split.
  { unfold perform, mbind, M_bind. cbn. by destruct (ok _). }
  apply finishUpdate_ready in E2 as [(cond & Hc & Hs & _) _]. exists cond. split; [done|]. rewrite Hs.
  assert (model_ready s1 = true <-> served multiNode) as <-.
  { unfold served. destruct multiNode.
    - unfold from_kserve in E1. destruct (w_isvc w) as [[conds u]| |]; [| |done]; injection E1 as <-; cbn; [|naive_solver].
      split; [intros H; by exists conds, u|]. by intros (? & ? & [= <- <-] & H).
    - unfold from_deployment in E1. destruct (w_deploy_ready w) as [n| |]; [| |done]; injection E1 as <-; cbn; [|naive_solver].
      rewrite bool_decide_eq_true. split; [eauto|]. by intros (? & [= <-] & H). }
  destruct (model_ready s1); done.
Qed.

Lemma audit_not_final (s : Svc) multiNode : only not_final (_ ← recordLLMInferenceAudit c ok s; finishLLMInferenceReconcile multiNode s).
Proof. unfold recordLLMInferenceAudit, finishLLMInferenceReconcile. actions; done. Qed.

#[local] Notation run := (Reconcile ParseQuantity ParseFloat json_structured AsInt64 parse_record verify SetStatusCondition RemoveStatusCondition c w ok).

Lemma final_later {A R} (m : M Action A) (f : A -> M Action R) s' saved : only not_final m -> (UpdateStatus s', saved) ∈ (m ≫= f).1 ->
  exists a, m.2 = Some a /\ (UpdateStatus s', saved) ∈ (f a).1 /\ (m ≫= f).1 = m.1 ++ (f a).1.
Proof. intros Hm H. apply (bind_later not_final); [done|by intros []|done]. Qed.

(** A reconciliation in its parts, each of which has gone through. *)
Lemma final_status_reached s' saved : (UpdateStatus s', saved) ∈ run.1 ->
  exists s0 s1 s2 s3 s4 post,
    w_service w = Found s0 /\ reconciliationPaused s0 = false /\ surface_valid s0 = true
    /\ (reconcileResourceSetup AsInt64 c w ok s0).2 = Some (false, s1)
    /\ (reconcileExternalInputs c ok).2 = Some tt
    /\ let multiNode := RequiresMultiNode (prepared w s1) in
       let loras := listActiveLoras w (prepared w s1) in
       let workload := reconcileWorkload ParseQuantity ParseFloat json_structured c w ok multiNode (prepared w s1) loras in
       let scheduler := reconcileScheduler SetStatusCondition RemoveStatusCondition c w ok s2 in
       let isolation := secure parse_record verify SetStatusCondition c w ok multiNode loras s3 in
       workload.2 = Some s2 /\ scheduler.2 = Some (inr s3) /\ isolation.2 = Some s4
       /\ (UpdateStatus s', saved) ∈ (updateLLMInferenceStatus c w ok s0 multiNode s4).1
       /\ run.1 = (reconcileResourceSetup AsInt64 c w ok s0).1 ++ (reconcileExternalInputs c ok).1 ++ workload.1 ++ scheduler.1 ++ isolation.1
                    ++ (updateLLMInferenceStatus c w ok s0 multiNode s4).1 ++ post.
Proof.
  unfold Reconcile. destruct (w_service w) as [s0| |] eqn:E0; [|by intros ?%not_elem_of_nil..].
  destruct (reconciliationPaused s0) eqn:Ep; [by intros ?%not_elem_of_nil|]. destruct (surface_valid s0) eqn:Ev; [|by intros ?%not_elem_of_nil].
  cbn [negb]. intros ([deleted s1] & H1 & H & ->)%(final_later _ _ _ _ (only_weaken _ (setup_early s0))).
  destruct deleted; [by apply not_elem_of_nil in H|]. unfold managed in *.
  apply (final_later _ _ _ _ (only_weaken _ inputs_early)) in H as ([] & H2 & H & ->).
  apply (final_later _ _ _ _ (only_weaken _ (workload_early _ _ _))) in H as (s2 & H3 & H & ->).
  apply (final_later _ _ _ _ (scheduler_not_final s2)) in H as ([|s3] & H4 & H & ->); [by apply not_elem_of_nil in H|].
  unfold reconcilePostScheduler in *.
  apply (final_later _ _ _ _ (secure_not_final _ _ s3)) in H as (s4 & H5 & H & ->).
  assert (exists post, (updateLLMInferenceStatus c w ok s0 (RequiresMultiNode (prepared w s1)) s4
    ≫= fun s => _ ← recordLLMInferenceAudit c ok s; finishLLMInferenceReconcile (RequiresMultiNode (prepared w s1)) s).1
    = (updateLLMInferenceStatus c w ok s0 (RequiresMultiNode (prepared w s1)) s4).1 ++ post) as [post Hpost].
  { destruct (updateLLMInferenceStatus _ _ _ _ _ _) as [t [s5|]]; [by eexists|]. exists []. by rewrite app_nil_r. }
  apply bind_in in H as [H|(s5 & _ & H)]; [|by apply audit_not_final in H].
  exists s0, s1, s2, s3, s4, post. do 5 (split; [done|]). cbn zeta. do 4 (split; [done|]). by rewrite Hpost.
Qed.

(** C8. The final status of a service is written only after everything the
    operator is configured to protect it with.  When a reconciliation writes
    it, the service has no pause annotation, is not being deleted, has a
    registered engine and passes the validation of its surface; external
    secrets, HF CSI, network policies, tool surface, Vault, SPIRE, eBPF and OPA
    steps that are configured, and the autoscaler of a single-node service,
    have all succeeded before, the routes are set up if there is a gateway, a
    scheduler that is asked for is configured, reconciled and ready; and the
    status reports Ready exactly when the Deployment has a ready replica, or
    KServe reports a multi-node service ready. *)
Theorem ready_after_isolation s' saved : (UpdateStatus s', saved) ∈ run.1 ->
  exists s0 pre post,
    w_service w = Found s0 /\ Meta_Annotations (meta s0) !! "ckodex.com/pause-reconciliation" <> Some "true"
    /\ Meta_Deleted (meta s0) = false
    /\ LLMInferenceServiceSpec_Engine (spec s0) ∈ [""; "vllm"; "sglang"; "tensorfold"]
    /\ ValidateLLMInferenceServiceSurface (K := objects_k8s) (Some s0) = []
    /\ run.1 = pre ++ (UpdateStatus s', saved) :: post
    /\ (forall a, a ∈ input_protections ++ protections (RequiresMultiNode s0) (listActiveLoras w s0) -> (a, true) ∈ pre)
    /\ (r_Gateway c = true -> exists s1, (RunGateway s1, true) ∈ pre)
    /\ (is_Some (RouterSpec_Scheduler (LLMInferenceServiceSpec_Router (spec s0))) ->
          r_Scheduler c = true /\ w_scheduler_ready w = true /\ (RunScheduler, true) ∈ pre)
    /\ exists cond, cond_of ConditionReady (conditions s') = Some cond /\ (Condition_Status cond = ConditionTrue <-> served (RequiresMultiNode s0)).
Proof.
  intros (s0 & s1 & s2 & s3 & s4 & post & E0 & Hp & Hv & H1 & H2 & H3 & H4 & H5 & Hw & Ht)%final_status_reached.
  destruct (setup_keeps _ _ H1) as (Hsp & Hn & Hd). destruct (prepared_keeps s1) as (Hm & Hme & Hr).
  assert (RequiresMultiNode s1 = RequiresMultiNode s0) as Hm0 by (unfold RequiresMultiNode; by rewrite Hsp).
  assert (listActiveLoras w (prepared w s1) = listActiveLoras w s0) as Hl by (unfold listActiveLoras; by rewrite Hme, Hn).
  assert (scheduler_requested s2 = scheduler_requested s0) as Hq.
  { rewrite (workload_keeps _ _ _ _ H3). unfold scheduler_requested. by rewrite Hr, Hsp. }
  rewrite Hm, Hm0, Hl in *. destruct (status_written _ _ _ _ _ Hw) as [Hone Hcond]. rewrite Hone in Ht. clear Hw.
  apply andb_true_iff in Hv as [He%engine_admitted Hs%bool_decide_eq_true%nil_length_inv].
  eexists s0, _, post. split_and!; try done.
  - intros Ha. unfold reconciliationPaused, AnnotationPauseReconciliation in Hp. by rewrite Ha in Hp.
  - rewrite Ht, !(assoc_L (++)). cbn. rewrite <- (assoc_L (++)). cbn. reflexivity.
  - intros a [Ha|Ha]%elem_of_app; rewrite !elem_of_app.
    + do 3 left. right. by apply (inputs_performed a Ha tt).
    + right. by apply (secure_performed _ _ _ a Ha s4).
  - intros Hg. exists s3. rewrite !elem_of_app. right. eapply (fun H => H s4 H5). unfold secure, reconcileRouting. performs.
  - intros Hsch. assert (scheduler_requested s2 = true) as Hreq by (rewrite Hq; by apply bool_decide_eq_true_2).
    destruct (scheduler_passed _ _ H4 Hreq) as (Hs1 & Hs2 & Hs3). split_and!; try done. rewrite !elem_of_app. by left; right.
Qed.

(** A service that is paused or does not pass validation is left alone, also
    when it is being deleted: its finalizer is never removed. *)
Lemma paused_never_deleted (s : Svc) : w_service w = Found s -> reconciliationPaused s || negb (surface_valid s) = true -> run.1 = [].
Proof. unfold Reconcile. intros ->. destruct (reconciliationPaused s); [done|]. cbn. by intros ->. Qed.

(** *** A scheduler that is not ready *)

Context {HSC : SetsCondition SetStatusCondition}.

Definition blocked_run (s : Svc) : list (Action * bool) :=
  (if r_Gateway c then [(RunGateway s, ok (RunGateway s))] else []) ++ [(PatchStatus s, ok (PatchStatus s))].

Lemma blocked_outcome (s : Svc) reason cause delay :
  let s3 := blocked_service SetStatusCondition s reason in
  let m := reconcileSchedulerBlocked SetStatusCondition c ok s reason cause delay in
  m.1 = blocked_run s3
  /\ m.2 = if negb cause && (negb (r_Gateway c) || ok (RunGateway s3)) && ok (PatchStatus s3) then Some (inl delay) else None.
Proof.
  cbn zeta. unfold reconcileSchedulerBlocked, blocked_run. set (s3 := blocked_service _ _ _).
  destruct (r_Gateway c), cause; cbn; destruct (ok (RunGateway s3)), (ok (PatchStatus s3)); done.
Qed.

Lemma blocked_conditions (s : Svc) reason : let s3 := blocked_service SetStatusCondition s reason in
  (exists a, cond_of ConditionSchedulerReady (conditions s3) = Some a /\ Condition_Status a = ConditionFalse)
  /\ exists a, cond_of ConditionReady (conditions s3) = Some a /\ Condition_Status a = ConditionFalse.
Proof.
  cbn zeta. set (l := SetStatusCondition (schedulerCondition s ConditionFalse reason) (conditions s)).
  set (r := report s ConditionReady ConditionFalse "SchedulerUnavailable").
  change (conditions (blocked_service SetStatusCondition s reason)) with (SetStatusCondition r l). split.
  - rewrite set_other by done.
    destruct (set_found (schedulerCondition s ConditionFalse reason) (conditions s)) as (a & Ha & (_ & Hs & _)%same_report_iff). by exists a.
  - destruct (set_found r l) as (a & Ha & (_ & Hs & _)%same_report_iff). by exists a.
Qed.

Lemma scheduler_blocked (s : Svc) : scheduler_requested s = true -> r_Scheduler c && ok RunScheduler && w_scheduler_ready w = false ->
  let m := reconcileScheduler SetStatusCondition RemoveStatusCondition c w ok s in
  exists pre reason, let s3 := blocked_service SetStatusCondition s reason in
    m.1 = pre ++ blocked_run s3 /\ (forall x, x ∈ pre -> early x.1)
    /\ m.2 = if r_Scheduler c && ok RunScheduler && (negb (r_Gateway c) || ok (RunGateway s3)) && ok (PatchStatus s3) then Some (inl (5 * Second)) else None.
Proof.
  intros Hq Hb. cbn zeta. unfold reconcileScheduler, reconcileEnabledScheduler, attempt. rewrite Hq. cbn [negb].
  destruct (r_Scheduler c); cbn [negb andb] in *.
  - destruct (ok RunScheduler) eqn:Eo; cbn [andb negb] in *.
    + exists [(RunScheduler, true)], "EndpointPickerUnavailable". destruct (blocked_outcome s "EndpointPickerUnavailable" false (5 * Second)) as [Ht1 Ht2].
      unfold mbind, M_bind. cbn [fst snd negb]. rewrite Hb. cbn [negb].
      split; [exact (f_equal (cons _) Ht1)|]. split; [by intros x ->%list_elem_of_singleton|exact Ht2].
    + exists [(RunScheduler, false)], "SchedulerReconcileFailed". destruct (blocked_outcome s "SchedulerReconcileFailed" true 0) as [Ht1 Ht2].
      split; [exact (f_equal (cons _) Ht1)|]. split; [by intros x ->%list_elem_of_singleton|exact Ht2].
  - exists [], "SchedulerFeatureDisabled". destruct (blocked_outcome s "SchedulerFeatureDisabled" true 0) as [Ht1 Ht2].
    split; [exact Ht1|]. split; [by intros x ?%not_elem_of_nil|exact Ht2].
Qed.

(** A service that asks for a scheduler is held back until it is ready.
    When the scheduler is disabled, fails or is not ready, a reconciliation
    that gets there reports Ready and SchedulerReady as false, sets up the
    routes with this status, saves it and performs nothing after that; no
    route was set up before.  It is repeated after five seconds when the
    scheduler is only not ready and both succeed, and is an error otherwise. *)
Theorem scheduler_holds_back s0 s1 s2 :
  w_service w = Found s0 -> reconciliationPaused s0 = false -> surface_valid s0 = true ->
  (reconcileResourceSetup AsInt64 c w ok s0).2 = Some (false, s1) -> (reconcileExternalInputs c ok).2 = Some tt ->
  (reconcileWorkload ParseQuantity ParseFloat json_structured c w ok (RequiresMultiNode s0) (prepared w s1) (listActiveLoras w s0)).2 = Some s2 ->
  scheduler_requested s0 = true -> r_Scheduler c && ok RunScheduler && w_scheduler_ready w = false ->
  exists pre s3,
    run.1 = pre ++ blocked_run s3 /\ (forall x, x ∈ pre -> early x.1)
    /\ (exists a, cond_of ConditionSchedulerReady (conditions s3) = Some a /\ Condition_Status a = ConditionFalse)
    /\ (exists a, cond_of ConditionReady (conditions s3) = Some a /\ Condition_Status a = ConditionFalse)
    /\ run.2 = if r_Scheduler c && ok RunScheduler && (negb (r_Gateway c) || ok (RunGateway s3)) && ok (PatchStatus s3) then Some (5 * Second) else None.
Proof.
  intros E0 Hp Hv H1 H2 H3 Hq Hb.
  destruct (setup_keeps _ _ H1) as (Hsp & Hn & _). destruct (prepared_keeps s1) as (Hm & Hme & Hr).
  assert (RequiresMultiNode (prepared w s1) = RequiresMultiNode s0) as Hm0 by (rewrite Hm; unfold RequiresMultiNode; by rewrite Hsp).
  assert (listActiveLoras w (prepared w s1) = listActiveLoras w s0) as Hl by (unfold listActiveLoras; by rewrite Hme, Hn).
  assert (scheduler_requested s2 = true) as Hq2.
  { rewrite (workload_keeps _ _ _ _ H3), <- Hq. unfold scheduler_requested. by rewrite Hr, Hsp. }
  destruct (scheduler_blocked s2 Hq2 Hb) as (pre & reason & Ht & He & Hres). destruct (blocked_conditions s2 reason) as [Hc1 Hc2].
  set (work := reconcileWorkload ParseQuantity ParseFloat json_structured c w ok (RequiresMultiNode s0) (prepared w s1) (listActiveLoras w s0)) in *.
  exists ((reconcileResourceSetup AsInt64 c w ok s0).1 ++ (reconcileExternalInputs c ok).1 ++ work.1 ++ pre), (blocked_service SetStatusCondition s2 reason).
  assert (forall k : Z + Svc -> M Action Z, (forall r, k (inl r) = mret r) ->
    (reconcileScheduler SetStatusCondition RemoveStatusCondition c w ok s2 ≫= k).1 = pre ++ blocked_run (blocked_service SetStatusCondition s2 reason)
    /\ (reconcileScheduler SetStatusCondition RemoveStatusCondition c w ok s2 ≫= k).2
       = match (reconcileScheduler SetStatusCondition RemoveStatusCondition c w ok s2).2 with Some (inl r) => Some r | _ => None end) as Hk.
  { intros k Hk. rewrite <- Ht. unfold mbind, M_bind. rewrite Hres. case_match; cbn; rewrite ?Hk, ?app_nil_r; done. }
  unfold Reconcile. rewrite E0, Hp, Hv. cbn [negb]. rewrite (bind_trace _ _ _ H1), (bind_result _ _ _ H1). unfold managed.
  rewrite (bind_trace _ _ _ H2), (bind_result _ _ _ H2), Hm0, Hl, (bind_trace _ _ _ H3), (bind_result _ _ _ H3).
  destruct (Hk (fun step => match step with inl r => mret r | inr s => reconcilePostScheduler parse_record verify SetStatusCondition c w ok s0
    (RequiresMultiNode s0) (listActiveLoras w s0) s end) (fun r => eq_refl)) as [-> ->].
  split; [rewrite <- !app_assoc; reflexivity|]. split; [|split; [exact Hc1|split; [exact Hc2|rewrite Hres; destruct (_ && ok (PatchStatus _)); reflexivity]]].
  intros x. rewrite !elem_of_app. intros [H|[H|[H|H]]]; [by eapply setup_early|by eapply inputs_early|by eapply workload_early|by apply He].
Qed.

End Reached.

(** ** A concrete cluster *)

#[local] Existing Instance DeploymentSync.demo_carried.

Definition demo_scheduled (s : LLMInferenceService (K := objects_k8s)) : LLMInferenceService (K := objects_k8s) :=
  let sp := spec s in
  set_spec s (mkLLMInferenceServiceSpec (LLMInferenceServiceSpec_Model sp) (LLMInferenceServiceSpec_Replicas sp) (LLMInferenceServiceSpec_Parallelism sp)
    (LLMInferenceServiceSpec_Scaling sp) (LLMInferenceServiceSpec_Template sp) (LLMInferenceServiceSpec_Prefill sp) (LLMInferenceServiceSpec_Worker sp)
    (mkRouterSpec zero_GatewaySpec zero_RouteSpec (Some zero_SchedulerSpec)) (LLMInferenceServiceSpec_BaseRefs sp) (LLMInferenceServiceSpec_AutoOptimize sp)
    (LLMInferenceServiceSpec_AllowedTenants sp) (LLMInferenceServiceSpec_CostAllocationTags sp) (LLMInferenceServiceSpec_SLO sp)
    (LLMInferenceServiceSpec_Canary sp) (LLMInferenceServiceSpec_SpeculativeDecoding sp) (LLMInferenceServiceSpec_KVCache sp)
    (LLMInferenceServiceSpec_Quantization sp) (LLMInferenceServiceSpec_Engine sp) (LLMInferenceServiceSpec_ToolSurface sp)
    (LLMInferenceServiceSpec_Observability sp)).

Definition demo_live : LLMInferenceService (K := objects_k8s) :=
  demo_scheduled (DeploymentProperties.demo_service "vllm" "hf://org/m" ∅ DeploymentProperties.demo_pod_container).

Definition demo_operator : Controller :=
  mkController true true true true true true true true true true true true true true true false true true (DeploymentProperties.demo_builder true).

Definition demo_world (s : LLMInferenceService (K := objects_k8s)) (scheduler : bool) (ready : Z) : World :=
  mkWorld (Found s) (Some []) (Some []) (Some []) (Some []) (Some []) HardwareGenericX86 HardwareGenericX86 HardwareGenericX86
    NotFound NotFound NotFound (fun _ => NotFound) true scheduler (Some []) (fun _ => NotFound) None (Found ready) NotFound NotFound 0 (fun _ => 0) id id.

Definition demo_run (s : LLMInferenceService (K := objects_k8s)) (scheduler : bool) (ready : Z) (ok : Action -> bool) : M Action Z :=
  Reconcile DeploymentProperties.demo_quantity (fun _ => None) (fun _ => None) id (fun _ => None) (fun _ => inr "") (setCondition 0)
    (fun t => List.filter (fun x => Condition_Type_ x !=? t)) demo_operator (demo_world s scheduler ready) ok.

(** What the final status of a run says of Ready. *)
Definition demo_ready (m : M Action Z) : list (option string) :=
  omap (fun x => match x.1 with UpdateStatus s => Some (Condition_Status <$> cond_of ConditionReady (conditions s)) | _ => None end) m.1.

Definition not_opa (a : Action) : bool := match a with RunOPA => false | _ => true end.

Lemma ready_after_isolation_witness :
  demo_ready (demo_run demo_live true 1 (fun _ => true)) = [Some ConditionTrue]
  /\ demo_ready (demo_run demo_live true 0 (fun _ => true)) = [Some ConditionFalse]
  /\ demo_ready (demo_run demo_live true 1 not_opa) = []
  /\ exists s' pre post, (demo_run demo_live true 1 (fun _ => true)).1 = pre ++ (UpdateStatus s', true) :: post /\ (RunNetworkPolicy, true) ∈ pre.
Proof.
  split; [by vm_compute|]. split; [by vm_compute|]. split; [by vm_compute|].
  assert (exists s', (UpdateStatus s', true) ∈ (demo_run demo_live true 1 (fun _ => true)).1) as [s' Hs'].
  { destruct (List.find (fun x => match x with (UpdateStatus _, true) => true | _ => false end) (demo_run demo_live true 1 (fun _ => true)).1) as [x|] eqn:E.
    - apply List.find_some in E as [Hx Ht]. destruct x as [[] []]; try done. eexists. apply list_elem_of_In. exact Hx.
    - vm_compute in E. discriminate E. }
  destruct (ready_after_isolation _ _ _ _ _ _ _ _ _ _ _ _ _ Hs') as (s0 & pre & post & [= <-] & _ & _ & _ & _ & Ht & Hp & _).
  exists s', pre, post. split; [exact Ht|]. apply Hp. vm_compute. do 4 right. left.
Defined.

(** The routes and the status of a run that is held back. *)
Lemma scheduler_holds_back_witness :
  (demo_run demo_live false 1 (fun _ => true)).2 = Some (5 * Second)
  /\ demo_ready (demo_run demo_live false 1 (fun _ => true)) = []
  /\ exists pre s3, (demo_run demo_live false 1 (fun _ => true)).1 = pre ++ [(RunGateway s3, true); (PatchStatus s3, true)].
Proof.
  split; [by vm_compute|]. split; [by vm_compute|].
  set (ok := fun _ : Action => true). set (wd := demo_world demo_live false 1).
  destruct ((reconcileResourceSetup id demo_operator wd ok demo_live).2) as [[[] s1]|] eqn:E1; [by vm_compute in E1| |by vm_compute in E1].
  destruct ((reconcileWorkload DeploymentProperties.demo_quantity (fun _ => None) (fun _ => None) demo_operator wd ok false (prepared wd s1) []).2)
    as [s2|] eqn:E2; [|injection E1 as <-; by vm_compute in E2].
  destruct (scheduler_holds_back DeploymentProperties.demo_quantity (fun _ => None) (fun _ => None) id (fun _ => None) (fun _ => inr "") (setCondition 0)
    (fun t => List.filter (fun x => Condition_Type_ x !=? t)) demo_operator wd ok demo_live s1 s2) as (pre & s3 & Ht & _);
    [reflexivity|by vm_compute|by vm_compute|exact E1|by vm_compute|exact E2|by vm_compute|by vm_compute|].
  exists pre, s3. exact Ht.
Defined.

(** The Deployment is created before the network policy and the other
    protections, so that a failure or a scheduler that is not ready leaves
    pods without them; a paused service that is being deleted keeps its
    finalizer; and a base model of an AIPack sets the quantization. *)
Example reconcile_oddities :
  (let kinds := omap (fun x => match x.1 with CreateDeployment _ => Some "deployment" | RunNetworkPolicy => Some "policy" | _ => None end) in
   kinds (demo_run demo_live true 1 (fun _ => true)).1 = ["deployment"; "policy"] /\ kinds (demo_run demo_live false 1 (fun _ => true)).1 = ["deployment"])
  /\ (let s := set_meta demo_live (mkMeta "m" "prod" ∅ {[AnnotationPauseReconciliation := "true"]} 0 [FinalizerName] true) in
      demo_run s true 1 (fun _ => true) = ([], Some 0))
  /\ normalizeQuantization "w4a16" = "awq" /\ normalizeQuantization "bf16" = "".
Proof. by vm_compute. Qed.
