(* ===== verification/GatewayRoutes.v ===== *)
(** * Routes of a service

    [internal/gateway/reconciler.go], [httproute_builder.go] and
    [grpcroute_builder.go]: the Gateway, HTTPRoute and GRPCRoute of a service
    and how they are brought up to date.  [envoy_ai_gateway.go] only logs. *)

From S2P Require Import Prelude GoStrings K8s K8sPods K8sObjects ApiV1alpha2 ServiceStatus ServiceReconcile.
From S2P Require DeploymentSync DeploymentProperties.
From Stdlib Require Import Ascii.

#[local] Notation spec := ServiceStatus.spec.

(** ** Gateway API objects *)

Inductive PathMatch := PathPrefix (p : string) | PathExact (p : string).
Record Match := mkMatch { m_Path : PathMatch; m_Headers : list (string * string) }.

(** A backend without group and kind is a Service. *)
Record BackendRef := mkBackendRef { br_GroupKind : option (string * string); br_Name : string; br_Port : Z; br_Weight : option Z }.
Record HTTPRule := mkHTTPRule { h_Matches : list Match; h_Backends : list BackendRef; h_Timeout : option string }.
Record ParentRef := mkParentRef { pr_Name : string; pr_Namespace : option string }.
Record HTTPRouteT := mkHTTPRoute { hr_Parents : list ParentRef; hr_Hostnames : list string; hr_Rules : list HTTPRule }.
Record GRPCRouteT := mkGRPCRoute { gr_Parents : list ParentRef; gr_Rules : list (string * string * list BackendRef) }.
Record GatewayT := mkGateway { gw_Class : string; gw_Listeners : list (string * Z) }.

#[global] Instance path_eq_dec : EqDecision PathMatch.
Proof. solve_decision. Defined.
#[global] Instance match_eq_dec : EqDecision Match.
Proof. solve_decision. Defined.
#[global] Instance backend_eq_dec : EqDecision BackendRef.
Proof. solve_decision. Defined.
#[global] Instance rule_eq_dec : EqDecision HTTPRule.
Proof. solve_decision. Defined.
#[global] Instance parent_eq_dec : EqDecision ParentRef.
Proof. solve_decision. Defined.
#[global] Instance http_route_eq_dec : EqDecision HTTPRouteT.
Proof. solve_decision. Defined.
#[global] Instance grpc_route_eq_dec : EqDecision GRPCRouteT.
Proof. solve_decision. Defined.
#[global] Instance gateway_eq_dec : EqDecision GatewayT.
Proof. solve_decision. Defined.

(** An object with what the operator writes of its metadata. *)
Record Object (A : Type) := mkObject { o_Labels : gmap string string; o_Annotations : gmap string string; o_Spec : A }.
Arguments mkObject {A} o_Labels o_Annotations o_Spec.
Arguments o_Labels {A} o.
Arguments o_Annotations {A} o.
Arguments o_Spec {A} o.

#[global] Instance object_eq_dec {A} `{EqDecision A} : EqDecision (Object A).
Proof. solve_decision. Defined.

(** The part of an adapter the routes look at: its service and its sandbox. *)
Record RouteAdapter := mkRouteAdapter { ra_Target : string; ra_Sandbox : option (bool * string) }.

Section Routes.

Context {CR : Carried}.
#[local] Notation Svc := (LLMInferenceService (K := objects_k8s)).

Definition router (s : Svc) : RouterSpec := LLMInferenceServiceSpec_Router (spec s).
Definition svc_name (s : Svc) : string := Meta_Name (meta s).

(** [strings.ReplaceAll(s, "/", ".")]. *)
Fixpoint dots (s : string) : string :=
  match s with
  | EmptyString => ""
  | String a s => String (if Ascii.eqb a "/"%char then "."%char else a) (dots s)
  end.

Definition commonLabels (s : Svc) : gmap string string :=
  <["serving.ckodex.com/model" := dots (ModelSpec_Name (LLMInferenceServiceSpec_Model (spec s)))]> (instance_labels (svc_name s)).

Definition parent_of (s : Svc) : ParentRef :=
  match GatewaySpec_ExistingRef (RouterSpec_Gateway (router s)) with
  | Some r => mkParentRef (GatewayRef_Name r) (Some (GatewayRef_Namespace r))
  | None => mkParentRef (svc_name s +:+ "-gateway") None
  end.

(** ** httproute_builder.go *)

(** With [meta.FindStatusCondition], the first condition of its type. *)
Definition schedulerReady (s : Svc) : bool :=
  match cond_of ConditionSchedulerReady (conditions s) with Some a => Condition_Status a ==? ConditionTrue | None => false end.

Definition backend_of (s : Svc) : BackendRef :=
  if scheduler_requested s && schedulerReady s then mkBackendRef (Some ("inference.networking.k8s.io", "InferencePool")) (svc_name s) 8000 None
  else mkBackendRef None (if RequiresMultiNode s then PredictorServiceName s else svc_name s) 80 None.

Definition route_timeout (s : Svc) : option string :=
  h ← RouteSpec_HTTPRoute (RouterSpec_Route (router s)); r ← HTTPRouteSpec_Resilience h; Some (ResilienceSpec_Timeout r).
Definition route_hostnames (s : Svc) : list string :=
  match RouteSpec_HTTPRoute (RouterSpec_Route (router s)) with Some h => range_slice (HTTPRouteSpec_Hostnames h) | None => [] end.

(** A rule per adapter with an enabled sandbox. *)
Definition sandbox_rules (backends : list BackendRef) (timeout : option string) (adapters : list RouteAdapter) : list HTTPRule :=
  omap (fun a => match ra_Sandbox a with
                 | Some (true, value) => Some (mkHTTPRule [mkMatch (PathPrefix "/") [("x-ckodex-adapter", value)]] backends timeout)
                 | _ => None
                 end) adapters.

Definition path_rule (backends : list BackendRef) (timeout : option string) (p : PathMatch) : HTTPRule := mkHTTPRule [mkMatch p []] backends timeout.

(** The paths both kinds of routes have. *)
Definition common_paths : list PathMatch :=
  [PathPrefix "/v2/health/"; PathPrefix "/v2/models/"; PathExact "/v2"; PathExact "/v1/chat/completions"; PathExact "/v1/completions";
   PathExact "/v1/embeddings"; PathExact "/v1/models"].
Definition standard_paths : list PathMatch := common_paths ++ [PathExact "/version"; PathExact "/server_info"; PathPrefix "/v1/responses"].

Definition BuildHTTPRoute (s : Svc) (adapters : list RouteAdapter) : Object HTTPRouteT :=
  let timeout := route_timeout s in
  mkObject (commonLabels s) ∅
    (mkHTTPRoute [parent_of s] (route_hostnames s)
      (sandbox_rules [backend_of s] timeout adapters ++ (path_rule [backend_of s] timeout <$> standard_paths))).

Definition BuildCanaryHTTPRoute (s : Svc) (canary : CanarySpec) (adapters : list RouteAdapter) : Object HTTPRouteT :=
  let weight := CanarySpec_Weight canary in
  let canaryBackend := mkBackendRef None (svc_name s) 80 (Some weight) in
  let stableBackend := mkBackendRef None (CanarySpec_BaseModel canary) 80 (Some (i32_wrap (100 - weight))) in
  let timeout := route_timeout s in
  mkObject
    (<["serving.ckodex.com/base-model" := CanarySpec_BaseModel canary]> (<["serving.ckodex.com/canary-weight" := Itoa weight]>
      (<["serving.ckodex.com/canary" := "true"]> (commonLabels s))))
    {["serving.ckodex.com/canary-weight" := Itoa weight; "serving.ckodex.com/base-model" := CanarySpec_BaseModel canary]}
    (mkHTTPRoute [parent_of s] (route_hostnames s)
      (sandbox_rules [canaryBackend] timeout adapters ++ (path_rule [canaryBackend; stableBackend] timeout <$> common_paths))).

Definition BuildRerankerHTTPRoute (name parentGatewayName : string) : Object HTTPRouteT :=
  let parent := if parentGatewayName ==? "" then name +:+ "-gateway" else parentGatewayName in
  mkObject {["serving.ckodex.com/reranker" := name]} ∅
    (mkHTTPRoute [mkParentRef parent None] []
      (path_rule [mkBackendRef None name 80 None] None <$> [PathExact "/rerank"; PathExact "/v1/rerank"])).

(** ** grpcroute_builder.go *)

Definition BuildGRPCRoute (s : Svc) : Object GRPCRouteT :=
  mkObject (commonLabels s) ∅
    (mkGRPCRoute [parent_of s]
      ((fun method => ("inference.GRPCInferenceService", method, [mkBackendRef None (svc_name s) 8001 None]))
         <$> ["ModelInfer"; "ServerLive"; "ServerReady"; "ModelReady"; "ServerMetadata"; "ModelMetadata"])).

(** ** reconciler.go *)

(** The objects of the namespace the reconciler manages. *)
Record Routes := mkRoutes { rs_Gateway : option (Object GatewayT); rs_HTTP : option (Object HTTPRouteT); rs_GRPC : option (Object GRPCRouteT) }.

Inductive RouteAction :=
  | WriteGateway (o : Object GatewayT)
  | WriteHTTPRoute (o : Object HTTPRouteT)
  | WriteGRPCRoute (o : Object GRPCRouteT).

Definition desired_gateway (grpc : bool) (s : Svc) : Object GatewayT :=
  let class := match GatewaySpec_Managed (RouterSpec_Gateway (router s)) with
               | Some m => if ManagedGatewaySpec_GatewayClassName m !=? "" then ManagedGatewaySpec_GatewayClassName m else "envoy"
               | None => "envoy"
               end in
  mkObject (commonLabels s) ∅ (mkGateway class (("http", 80) :: (if grpc then [("grpc", 8001)] else []))).

Definition desired_http (s : Svc) (adapters : list RouteAdapter) : Object HTTPRouteT :=
  let associated := List.filter (fun a => ra_Target a ==? svc_name s) adapters in
  match LLMInferenceServiceSpec_Canary (spec s) with
  | Some canary => BuildCanaryHTTPRoute s canary associated
  | None => BuildHTTPRoute s associated
  end.

Section Reconcile.

Context (owner_ok : bool) (ok : RouteAction -> bool).

(** Creates [desired], or patches the existing object when [merge] changes it. *)
Definition upsert {A} `{EqDecision A} (write : Object A -> RouteAction) (merge : Object A -> Object A -> Object A)
    (existing : Lookup (Object A)) (desired : Object A) : M RouteAction unit :=
  if negb owner_ok then fail
  else match existing with
       | NotFound => perform ok (write desired)
       | LookupFailed => fail
       | Found e => when (negb (bool_decide (merge e desired = e))) (perform ok (write (merge e desired)))
       end.

Definition merge_gateway (e d : Object GatewayT) : Object GatewayT := mkObject (o_Labels d) (o_Annotations e) (o_Spec d).
Definition merge_http (e d : Object HTTPRouteT) : Object HTTPRouteT := mkObject (o_Labels d) (o_Annotations d) (o_Spec d).
Definition merge_grpc (e d : Object GRPCRouteT) : Object GRPCRouteT := mkObject (o_Labels e) (o_Annotations e) (o_Spec d).

Definition reconcileGateway (grpc : bool) (existing : Lookup (Object GatewayT)) (s : Svc) : M RouteAction unit :=
  upsert WriteGateway merge_gateway existing (desired_gateway grpc s).

Definition reconcileHTTPRoute (adapters : option (list RouteAdapter)) (existing : Lookup (Object HTTPRouteT)) (s : Svc) : M RouteAction unit :=
  match adapters with
  | None => fail
  | Some l => upsert WriteHTTPRoute merge_http existing (desired_http s l)
  end.

Definition reconcileGRPCRoute (existing : Lookup (Object GRPCRouteT)) (s : Svc) : M RouteAction unit :=
  upsert WriteGRPCRoute merge_grpc existing (BuildGRPCRoute s).

Definition lookup_of {A} (o : option A) : Lookup A := match o with Some a => Found a | None => NotFound end.

(** The whole step in a namespace with the routes [rs]. *)
Definition ReconcileRoutes (grpc : bool) (adapters : option (list RouteAdapter)) (rs : Routes) (s : Svc) : M RouteAction unit :=
  _ ← when (bool_decide (is_Some (GatewaySpec_Managed (RouterSpec_Gateway (router s))))) (reconcileGateway grpc (lookup_of (rs_Gateway rs)) s);
  _ ← reconcileHTTPRoute adapters (lookup_of (rs_HTTP rs)) s;
  when (grpc && negb (RequiresMultiNode s)) (reconcileGRPCRoute (lookup_of (rs_GRPC rs)) s).

End Reconcile.

(** The routes after a successful write. *)
Definition apply_write (rs : Routes) (x : RouteAction * bool) : Routes :=
  if x.2 then match x.1 with
              | WriteGateway o => mkRoutes (Some o) (rs_HTTP rs) (rs_GRPC rs)
              | WriteHTTPRoute o => mkRoutes (rs_Gateway rs) (Some o) (rs_GRPC rs)
              | WriteGRPCRoute o => mkRoutes (rs_Gateway rs) (rs_HTTP rs) (Some o)
              end
  else rs.
Definition apply_writes (rs : Routes) (l : list (RouteAction * bool)) : Routes := foldl apply_write rs l.

End Routes.

(** ** Bringing an object up to date *)

(** A merge that settles: merging again changes nothing. *)
Class Settles {A} (merge : Object A -> Object A -> Object A) : Prop :=
  { merge_again e d : merge (merge e d) d = merge e d; merge_new d : merge d d = d }.

#[export] Instance gateway_settles : Settles merge_gateway.
Proof. split; [done|by intros []]. Qed.
#[export] Instance http_settles : Settles merge_http.
Proof. split; [done|by intros []]. Qed.
#[export] Instance grpc_settles : Settles merge_grpc.
Proof. split; [done|by intros []]. Qed.

Section Settled.

Context {CR : Carried}.
#[local] Notation Svc := (LLMInferenceService (K := objects_k8s)).
Context {A : Type} `{EqDecision A} (write : Object A -> RouteAction) (merge : Object A -> Object A -> Object A) `{!Settles merge}.

(** A successful step leaves an object the next one does not change. *)
Lemma upsert_done owner_ok ok o d u : (upsert owner_ok ok write merge (lookup_of o) d).2 = Some u ->
  exists o', merge o' d = o'
    /\ ((upsert owner_ok ok write merge (lookup_of o) d).1 = [] /\ o = Some o'
        \/ (upsert owner_ok ok write merge (lookup_of o) d).1 = [(write o', true)]).
Proof.
  unfold upsert. destruct owner_ok; [|done]. cbn [negb]. destruct o as [e|]; cbn [lookup_of].
  - case_bool_decide as E; cbn [negb when]; [intros _; exists e; auto|]. intros Hw%perform_done. exists (merge e d). split; [apply merge_again|].
    right. cbn. by rewrite Hw.
  - intros Hw%perform_done. exists d. split; [apply merge_new|]. right. cbn. by rewrite Hw.
Qed.

Lemma upsert_idle ok o d : merge o d = o -> upsert true ok write merge (lookup_of (Some o)) d = ([], Some tt).
Proof. intros H. cbn. by rewrite H, bool_decide_true. Qed.

End Settled.

Section Properties.

Context {CR : Carried}.
#[local] Notation Svc := (LLMInferenceService (K := objects_k8s)).
Implicit Types s : Svc.

Lemma sandbox_backends bs t l rule : rule ∈ sandbox_rules bs t l -> h_Backends rule = bs.
Proof.
  unfold sandbox_rules. rewrite list_elem_of_omap. intros (a & _ & Ha). destruct (ra_Sandbox a) as [[[] v]|]; [|done..]. by injection Ha as <-.
Qed.

Lemma path_backends bs t (l : list PathMatch) rule : rule ∈ path_rule bs t <$> l -> h_Backends rule = bs.
Proof. by intros (p & -> & _)%list_elem_of_fmap. Qed.

(** Where the rules of a route without canary lead. *)
Lemma route_backends s adapters rule : LLMInferenceServiceSpec_Canary (spec s) = None ->
  rule ∈ hr_Rules (o_Spec (desired_http s adapters)) -> h_Backends rule = [backend_of s].
Proof.
  unfold desired_http. intros ->. cbn [o_Spec hr_Rules BuildHTTPRoute]. intros [H|H]%elem_of_app; [by eapply sandbox_backends|by eapply path_backends].
Qed.

(** Where the rules of a canary route lead. *)
Lemma canary_backends s canary adapters rule : LLMInferenceServiceSpec_Canary (spec s) = Some canary -> 0 <= CanarySpec_Weight canary <= 100 ->
  rule ∈ hr_Rules (o_Spec (desired_http s adapters)) ->
  let own := mkBackendRef None (svc_name s) 80 (Some (CanarySpec_Weight canary)) in
  h_Backends rule = [own] \/ h_Backends rule = [own; mkBackendRef None (CanarySpec_BaseModel canary) 80 (Some (100 - CanarySpec_Weight canary))].
Proof.
  unfold desired_http. intros -> Hw. cbn zeta. cbn [o_Spec hr_Rules BuildCanaryHTTPRoute]. rewrite i32_wrap_small by (unfold i32_range; lia).
  intros [H|H]%elem_of_app; [left; by eapply sandbox_backends|right; by eapply path_backends].
Qed.

(** The three parts of a step, each of which only writes its own object. *)
Lemma gateway_part s owner_ok ok b grpc g h r : (when b (reconcileGateway owner_ok ok grpc (lookup_of g) s)).2 = Some tt ->
  exists g', apply_writes (mkRoutes g h r) (when b (reconcileGateway owner_ok ok grpc (lookup_of g) s)).1 = mkRoutes g' h r
    /\ forall ok', when b (reconcileGateway true ok' grpc (lookup_of g') s) = ([], Some tt).
Proof.
  destruct b; [|intros _; by exists g]. cbn [when]. unfold reconcileGateway. intros (o & Hm & [[-> ->]| ->])%upsert_done; [| |exact _];
    exists (Some o); (split; [done|intros ok'; by apply upsert_idle]).
Qed.

Lemma http_part s owner_ok ok adapters g h r : (reconcileHTTPRoute owner_ok ok (Some adapters) (lookup_of h) s).2 = Some tt ->
  apply_writes (mkRoutes g h r) (reconcileHTTPRoute owner_ok ok (Some adapters) (lookup_of h) s).1 = mkRoutes g (Some (desired_http s adapters)) r
  /\ forall ok', reconcileHTTPRoute true ok' (Some adapters) (lookup_of (Some (desired_http s adapters))) s = ([], Some tt).
Proof.
  unfold reconcileHTTPRoute. intros (o & Hm & Hw)%upsert_done; [|exact _].
  assert (o = desired_http s adapters) as -> by (rewrite <- Hm; unfold merge_http; by destruct (desired_http s adapters)).
  split; [by destruct Hw as [[-> ->]| ->]|]. intros ok'. by apply upsert_idle.
Qed.

Lemma grpc_part s owner_ok ok b g h r : (when b (reconcileGRPCRoute owner_ok ok (lookup_of r) s)).2 = Some tt ->
  exists r', apply_writes (mkRoutes g h r) (when b (reconcileGRPCRoute owner_ok ok (lookup_of r) s)).1 = mkRoutes g h r'
    /\ forall ok', when b (reconcileGRPCRoute true ok' (lookup_of r') s) = ([], Some tt).
Proof.
  destruct b; [|intros _; by exists r]. cbn [when]. unfold reconcileGRPCRoute. intros (o & Hm & [[-> ->]| ->])%upsert_done; [| |exact _];
    exists (Some o); (split; [done|intros ok'; by apply upsert_idle]).
Qed.

(** Routes are as they should be after one successful step.  The HTTPRoute
    of the service is the one that is built, and the step finds nothing to do
    when it is repeated.  Without a canary every rule leads to one backend,
    the InferencePool exactly when a scheduler is asked for and reported
    ready, otherwise the Service of the model; with a canary of 0 to 100
    percent every rule leads to the service alone or splits 100 percent
    between the two services. *)
Theorem routes_settle s owner_ok ok grpc adapters rs : (ReconcileRoutes owner_ok ok grpc (Some adapters) rs s).2 = Some tt ->
  let rs' := apply_writes rs (ReconcileRoutes owner_ok ok grpc (Some adapters) rs s).1 in
  rs_HTTP rs' = Some (desired_http s adapters)
  /\ (forall ok', ReconcileRoutes true ok' grpc (Some adapters) rs' s = ([], Some tt))
  /\ (forall rule, rule ∈ hr_Rules (o_Spec (desired_http s adapters)) ->
        match LLMInferenceServiceSpec_Canary (spec s) with
        | None => exists b, h_Backends rule = [b]
            /\ (br_GroupKind b = Some ("inference.networking.k8s.io", "InferencePool") <-> scheduler_requested s = true /\ schedulerReady s = true)
            /\ (br_GroupKind b = None -> br_Name b = if RequiresMultiNode s then PredictorServiceName s else svc_name s)
        | Some canary => 0 <= CanarySpec_Weight canary <= 100 ->
            (br_Name <$> h_Backends rule = [svc_name s]
             \/ br_Name <$> h_Backends rule = [svc_name s; CanarySpec_BaseModel canary]
                /\ exists v, br_Weight <$> h_Backends rule = [Some (CanarySpec_Weight canary); Some v] /\ 0 <= v /\ CanarySpec_Weight canary + v = 100)
        end).
Proof.
  intros Hd. cbn zeta.
  assert (rs_HTTP (apply_writes rs (ReconcileRoutes owner_ok ok grpc (Some adapters) rs s).1) = Some (desired_http s adapters)
    /\ forall ok', ReconcileRoutes true ok' grpc (Some adapters) (apply_writes rs (ReconcileRoutes owner_ok ok grpc (Some adapters) rs s).1) s
                   = ([], Some tt)) as [H1 H2].
  { revert Hd. unfold ReconcileRoutes. destruct rs as [g h r]. cbn [rs_Gateway rs_HTTP rs_GRPC]. intros ([] & Hg & ([] & Hh & Hr)%bind_done)%bind_done.
    rewrite (bind_trace _ _ _ Hg), (bind_trace _ _ _ Hh). unfold apply_writes. rewrite !foldl_app.
    destruct (gateway_part _ _ _ _ _ _ h r Hg) as (g' & Eg & Ig). unfold apply_writes in Eg. rewrite Eg.
    destruct (http_part _ _ _ _ g' _ r Hh) as (Eh & Ih). unfold apply_writes in Eh. rewrite Eh.
    destruct (grpc_part _ _ _ _ g' (Some (desired_http s adapters)) _ Hr) as (r' & Er & Ir). unfold apply_writes in Er. rewrite Er.
    split; [done|]. intros ok'. cbn [rs_Gateway rs_HTTP rs_GRPC]. rewrite Ig. unfold mbind, M_bind at 1. cbn [fst snd app].
    rewrite Ih. cbn [fst snd app]. by rewrite Ir. }
  split; [exact H1|]. split; [exact H2|]. intros rule Hrule. destruct (LLMInferenceServiceSpec_Canary (spec s)) as [canary|] eqn:Ec.
  - intros Hw. destruct (canary_backends _ _ _ _ Ec Hw Hrule) as [->| ->]; [by left|]. right. split; [done|]. eexists. split; [done|]. lia.
  - exists (backend_of s). split; [by eapply route_backends|]. unfold backend_of.
    destruct (scheduler_requested s), (schedulerReady s); cbn; split; try done; split; done || by intros [].
Qed.

End Properties.

(** With a scheduler that is not ready the routes lead past it, to the Service
    of the model. *)
Lemma blocked_routes_direct `{CR : Carried} (s : LLMInferenceService (K := objects_k8s)) :
  (exists a, cond_of ConditionSchedulerReady (conditions s) = Some a /\ Condition_Status a = ConditionFalse) -> br_GroupKind (backend_of s) = None.
Proof. intros (a & Ha & Hf). unfold backend_of, schedulerReady. rewrite Ha, Hf. by destruct (scheduler_requested s). Qed.

(** ** Concrete routes *)

#[local] Existing Instance DeploymentSync.demo_carried.

Definition demo_ready_service : LLMInferenceService (K := objects_k8s) :=
  set_conditions demo_live [mkCond ConditionSchedulerReady ConditionTrue "EndpointPickerReady" 0 None].
Definition demo_adapters : list RouteAdapter := [mkRouteAdapter "m" (Some (true, "beta")); mkRouteAdapter "other" (Some (true, "x")); mkRouteAdapter "m" None].

Lemma routes_settle_witness :
  let m := ReconcileRoutes true (fun _ => true) true (Some demo_adapters) (mkRoutes None None None) demo_ready_service in
  length m.1 = 2%nat
  /\ (forall ok, ReconcileRoutes true ok true (Some demo_adapters) (apply_writes (mkRoutes None None None) m.1) demo_ready_service = ([], Some tt))
  /\ length (hr_Rules (o_Spec (desired_http demo_ready_service demo_adapters))) = 11%nat
  /\ br_GroupKind (backend_of demo_ready_service) = Some ("inference.networking.k8s.io", "InferencePool").
Proof.
  cbn zeta. split; [by vm_compute|]. split; [|by vm_compute].
  apply (routes_settle demo_ready_service true (fun _ => true) true demo_adapters (mkRoutes None None None)). by vm_compute.
Defined.

(** A canary route lacks three of the paths and does not use the scheduler or
    the predictor of a multi-node service; annotations of others are removed
    from the HTTPRoute. *)
Example route_oddities :
  (let canary := BuildCanaryHTTPRoute demo_ready_service (mkCanarySpec 10 "base") [] in
   length (hr_Rules (o_Spec canary)) = 7%nat
   /\ (forall rule, rule ∈ hr_Rules (o_Spec canary) -> br_GroupKind <$> h_Backends rule = [None; None]))
  /\ merge_http (mkObject ∅ {["other/owner" := "x"]} (mkHTTPRoute [] [] [])) (mkObject ∅ ∅ (mkHTTPRoute [] [] []))
     = mkObject ∅ ∅ (mkHTTPRoute [] [] []).
Proof.
  split; [|done]. cbn zeta. split; [by vm_compute|]. apply Forall_forall. vm_compute. repeat constructor.
Qed.
