(* ===== verification/LoraController.v ===== *)
(** * The controller of LoRA adapters

    [internal/controller/llmloraadapter_*.go]: an adapter is downloaded into a
    cache of its own, judged by the conformance engine of [LoraGovernance],
    loaded into every running pod of its service, and unloaded when it is
    quarantined or deleted.  One reconciliation is a computation of the monad
    [M] of [ServiceStatus].  The answers of the API server and of the pods are
    the record [LoraWorld]; [ok] tells which writes succeed.  The circuit
    breaker of the library gobreaker either lets a request through or refuses
    it ([lw_allows]).  Events, metrics and log lines are left out. *)

From S2P Require Import Prelude GoStrings Sha256 GoRFC3339 OCIReference LoraGovernance ServiceStatus ServiceReconcile.
From S2P Require LocalModelCache Receipts DeploymentBuilder.

#[local] Notation Cache := LocalModelCache.LocalModelCache.

Definition loraFinalizer := "serving.ckodex.com/lora-finalizer".

(** ** Data *)

(** The fields of an adapter that are read and written; conditions by type and
    status. *)
Record LoraCR := mkLoraCR {
  lc_Name : string; lc_Namespace : string; lc_UID : string; lc_Finalizers : list string; lc_Deleted : bool;
  lc_Target : string; lc_URI : string; lc_Adapter : LLMLoraAdapter; lc_Conditions : list (string * string); lc_ActiveRevision : Z }.

Definition set_adapter (l : LoraCR) (a : LLMLoraAdapter) : LoraCR :=
  mkLoraCR (lc_Name l) (lc_Namespace l) (lc_UID l) (lc_Finalizers l) (lc_Deleted l) (lc_Target l) (lc_URI l) a (lc_Conditions l) (lc_ActiveRevision l).
Definition set_finalizers (l : LoraCR) (f : list string) : LoraCR :=
  mkLoraCR (lc_Name l) (lc_Namespace l) (lc_UID l) f (lc_Deleted l) (lc_Target l) (lc_URI l) (lc_Adapter l) (lc_Conditions l) (lc_ActiveRevision l).
Definition add_condition (l : LoraCR) (type st : string) (revision : Z) : LoraCR :=
  mkLoraCR (lc_Name l) (lc_Namespace l) (lc_UID l) (lc_Finalizers l) (lc_Deleted l) (lc_Target l) (lc_URI l) (lc_Adapter l)
    (lc_Conditions l ++ [(type, st)]) revision.

Definition lifecycle (l : LoraCR) : string := Lifecycle (Planes (lc_Adapter l)).

(** A pod of the target service. *)
Record TargetPod := mkTargetPod { tp_Name : string; tp_Running : bool; tp_IP : string }.

(** What a POST gets: an error, or a status and whether the body was closed. *)
Inductive Answer := PostError | PostStatus (code : Z) (closed : bool).

Inductive LoraAction :=
  | PatchLoraStatus (l : LoraCR)
  | UpdateLoraStatus (l : LoraCR)
  | UpdateLora (l : LoraCR)
  | PatchLora (l : LoraCR)
  | CreateCache (c : Cache)
  | DeleteCache (c : Cache)
  | PostUnload (pod : TargetPod) (lora_name : string)
  | PostLoad (pod : TargetPod) (lora_name lora_path : string) (attempt : nat)
  | PostWarmup (pod : TargetPod) (model : string).

Record LoraWorld := mkLoraWorld {
  lw_lora : Lookup LoraCR;
  lw_cache : Lookup (Cache * list (string * string));
  lw_target : Lookup bool;
  lw_pods : option (list TargetPod);
  lw_job_pods : string -> string -> option (list (list (string * option string)));
  lw_answer : LoraAction -> Answer;
  lw_cancelled : TargetPod -> nat -> bool;
  lw_allows : TargetPod -> bool;
  lw_now : Time }.

(** ** llmloraadapter_cache.go *)

Definition loraCacheName (namespace name : string) : string := "lora-" +:+ hex_encode (take 10 (Sum256 (namespace +:+ "/" +:+ name))).

Definition newLoraCache (l : LoraCR) : Cache :=
  {| LocalModelCache.lmc_Name := loraCacheName (lc_Namespace l) (lc_Name l);
     LocalModelCache.Labels := {[LocalModelCache.loraCacheManagedByLabel := LocalModelCache.loraCacheManagedByAdapter]};
     LocalModelCache.Annotations :=
       list_to_map [(LocalModelCache.loraCacheOwnerNamespace, lc_Namespace l); (LocalModelCache.loraCacheOwnerName, lc_Name l);
                    (LocalModelCache.loraCacheOwnerUID, lc_UID l); (LocalModelCache.cacheWorkloadNamespaceAnnotation, lc_Namespace l)];
     LocalModelCache.SourceModelURI := lc_URI l; LocalModelCache.ModelSize := ""; LocalModelCache.MaxCacheSize := "";
     LocalModelCache.NodeGroup := LocalModelCache.NoGroup; LocalModelCache.WarmNodes := []; LocalModelCache.Storage := None;
     LocalModelCache.AllowedNamespaces := [];
     LocalModelCache.Status := {| LocalModelCache.NodeStatuses := []; LocalModelCache.CachedNodes := 0; LocalModelCache.CachedModels := [];
                                  LocalModelCache.TotalCacheSize := ""; LocalModelCache.AvailableSpace := "" |} |}.

Definition owner_of (l : LoraCR) : LocalModelCache.LoraOwner :=
  {| LocalModelCache.own_Namespace := lc_Namespace l; LocalModelCache.own_Name := lc_Name l; LocalModelCache.own_UID := lc_UID l;
     LocalModelCache.own_ModelURI := lc_URI l |}.

Definition owned (c : Cache) (l : LoraCR) : bool := LocalModelCache.validateLoraCacheOwner c (owner_of l).

(** [cacheWorkloadNamespace]. *)
Definition cacheWorkloadNamespace (c : Cache) : string := LocalModelCache.defaultCacheNamespace.

Section Lora.

Context (parse_record : string -> option Receipts.RuntimeVerificationRecord) (name_printable : string -> bool).
Context (w : LoraWorld) (ok : LoraAction -> bool).
#[local] Notation act := (perform ok).

Definition deleteLoraCache (l : LoraCR) : M LoraAction unit :=
  match lw_cache w with
  | NotFound => mret tt
  | LookupFailed => fail
  | Found (c, _) => if owned c l then act (DeleteCache c) else fail
  end.

(** ** llmloraadapter_lifecycle.go *)

Definition containsString (l : list string) (s : string) : bool := existsb (fun x => x ==? s) l.
Definition removeString (l : list string) (s : string) : list string := List.filter (fun x => x !=? s) l.

Definition reachable (p : TargetPod) : bool := tp_Running p && (tp_IP p !=? "").

(** The loop over the pods; any answer of a pod counts. *)
Fixpoint unload_pods (l : LoraCR) (pods : list TargetPod) : M LoraAction unit :=
  match pods with
  | [] => mret tt
  | p :: pods =>
      if negb (reachable p) then unload_pods l pods
      else if negb (lw_allows w p) then fail
      else
        let a := PostUnload p (AdapterName (lc_Adapter l)) in
        let done := match lw_answer w a with PostStatus _ closed => closed | PostError => false end in
        _ ← ([(a, done)], if done then Some tt else None) : M LoraAction unit;
        unload_pods l pods
  end.

Definition unloadFromTargetService (l : LoraCR) : M LoraAction unit :=
  match lw_target w with
  | NotFound => mret tt
  | LookupFailed => fail
  | Found _ => match lw_pods w with Some pods => unload_pods l pods | None => fail end
  end.

Definition finalizeLora (l : LoraCR) : M LoraAction Z :=
  if negb (containsString (lc_Finalizers l) loraFinalizer) then mret 0
  else
    _ ← unloadFromTargetService l;
    _ ← deleteLoraCache l;
    _ ← act (PatchLora (set_finalizers l (removeString (lc_Finalizers l) loraFinalizer)));
    mret 0.

(** ** llmloraadapter_reconcile.go *)

(** A reconciliation that ends, with the delay of the next one, or goes on. *)
#[local] Notation Step R := (Z + R)%type.

Definition initializeLoraState (l : LoraCR) : M LoraAction LoraCR :=
  if lifecycle l !=? "" then mret l
  else
    let p := Planes (lc_Adapter l) in
    let l := set_adapter l (LoraGovernance.set_planes (lc_Adapter l) (mkPlanes "proposed" "unknown" (Binding p) (PComposition p) "normal")) in
    _ ← act (PatchLoraStatus l); mret l.

Definition ensureLoraFinalizer (l : LoraCR) : M LoraAction LoraCR :=
  if containsString (lc_Finalizers l) loraFinalizer then mret l
  else let l := set_finalizers l (lc_Finalizers l ++ [loraFinalizer]) in _ ← act (UpdateLora l); mret l.

Definition ensureProgressingCondition (l : LoraCR) : M LoraAction LoraCR :=
  if existsb (fun x => (x.1 ==? "Progressing") || (x.1 ==? ConditionReady)) (lc_Conditions l) then mret l
  else let l := add_condition l "Progressing" ConditionTrue (lc_ActiveRevision l) in _ ← act (PatchLoraStatus l); mret l.

(** A quarantined adapter is unloaded; a failure is logged. *)
Definition prepareLora (l : LoraCR) : M LoraAction (Step LoraCR) :=
  l ← initializeLoraState l;
  if lifecycle l ==? "quarantined" then ((unloadFromTargetService l).1, Some (inl 0))
  else
    l ← ensureLoraFinalizer l;
    l ← ensureProgressingCondition l;
    mret (inr l).

Definition loraCacheReady (conds : list (string * string)) : bool := existsb (fun x => (x.1 ==? ConditionReady) && (x.2 ==? "True")) conds.

Definition ensureLoraCache (l : LoraCR) : M LoraAction (Step Cache) :=
  match lw_cache w with
  | NotFound => _ ← act (CreateCache (newLoraCache l)); mret (inl Second)
  | LookupFailed => fail
  | Found (c, conds) =>
      if negb (owned c l) then fail
      else if negb (loraCacheReady conds) then mret (inl (5 * Second))
      else mret (inr c)
  end.

(** ** llmloraadapter_evidence.go *)

(** The message of the first container that left one. *)
Fixpoint warmup_message (statuses : list (string * option string)) : option string :=
  match statuses with
  | [] => None
  | (name, terminated) :: statuses =>
      match terminated with
      | Some m => if (name !=? "warmup") || (TrimSpace m ==? "") then warmup_message statuses else Some m
      | None => warmup_message statuses
      end
  end.

(** [None] is an error, [Some None] no record. *)
Definition readJobVerificationRecord (namespace jobName : string) : option (option Receipts.RuntimeVerificationRecord) :=
  pods ← lw_job_pods w namespace jobName;
  match warmup_message (List.concat pods) with
  | None => Some None
  | Some m => r ← parse_record m; Some (Some r)
  end.

(** The loop over the nodes: the record of the last one, unless a node is not
    ready or not verified. *)
Fixpoint verified_nodes (c : Cache) (latest : option Receipts.RuntimeVerificationRecord) (l : list LocalModelCache.NodeCacheStatus)
    : option (option Receipts.RuntimeVerificationRecord) :=
  match l with
  | [] => Some latest
  | n :: l =>
      if LocalModelCache.Phase n !=? "Ready" then Some None
      else
        record ← readJobVerificationRecord (cacheWorkloadNamespace c)
                   (LocalModelCache.warmupJobName (LocalModelCache.st_ModelURIHash n) (LocalModelCache.NodeName n));
        match record with
        | Some r => if Receipts.Verified r then verified_nodes c (Some r) l else Some None
        | None => Some None
        end
  end.

Definition verified_adapter (a : LLMLoraAdapter) (r : Receipts.RuntimeVerificationRecord) : LLMLoraAdapter :=
  let p := Planes a in
  mkAdapter (AdapterName a) (Behavior a) (Envelope a) (mkPlanes (Lifecycle p) "verified" (Binding p) (PComposition p) (Risk p))
    (mkBundle (Receipts.AttestationURI r) (Receipts.SignatureDigest r) (Receipts.SBOMDigest r)
       (Some (default (lw_now w) (ParseRFC3339 (Receipts.VerifiedAt r))))).

(** [None] is an error; otherwise the adapter when there is new evidence. *)
Definition hydrateVerificationEvidence (l : LoraCR) (c : Cache) : option (option LoraCR) :=
  let nodes := LocalModelCache.NodeStatuses (LocalModelCache.Status c) in
  if negb (HasOCIScheme (lc_URI l)) || (Z.of_nat (length nodes) ==? 0) then Some None
  else latest ← verified_nodes c None nodes; Some (r ← latest; Some (set_adapter l (verified_adapter (lc_Adapter l) r))).

Definition quarantineGovernanceFailure (l : LoraCR) : M LoraAction unit :=
  act (UpdateLoraStatus (set_adapter l (TransitionStates (lc_Adapter l) false (lw_now w)))).

Definition hydrateAndGovernLora (l : LoraCR) (c : Cache) : M LoraAction (Step LoraCR) :=
  l ← (match hydrateVerificationEvidence l c with
       | Some (Some l) => _ ← act (UpdateLoraStatus l); mret l
       | _ => mret l
       end);
  if negb (Check (NewDefaultEngine name_printable) (lc_Adapter l)).1 then _ ← quarantineGovernanceFailure l; mret (inl 0)
  else if lifecycle l !=? "active" then
    let l := set_adapter l (TransitionStates (lc_Adapter l) true (lw_now w)) in
    _ ← act (PatchLoraStatus l); mret (inr l)
  else mret (inr l).

(** ** llmloraadapter_runtime.go *)

Definition ensureTargetReady : M LoraAction (Step unit) :=
  match lw_target w with
  | Found ready => if ready then mret (inr tt) else mret (inl (5 * Second))
  | _ => mret (inl 0)
  end.

Definition accepted (a : Answer) : bool :=
  match a with PostStatus code closed => ((code ==? 200) || (code ==? 202)) && closed | PostError => false end.

(** A success of the server whose body cannot be closed ends the attempts. *)
Definition ends_retry (a : Answer) : bool := match a with PostStatus code closed => ((code ==? 200) || (code ==? 202)) && negb closed | PostError => false end.

(** [fuel] attempts from [attempt] on, three in all. *)
Fixpoint post_attempts (fuel : nat) (p : TargetPod) (name path : string) (attempt : nat) : M LoraAction unit :=
  match fuel with
  | O => fail
  | S fuel =>
      let a := PostLoad p name path attempt in
      if accepted (lw_answer w a) then ([(a, true)], Some tt)
      else if ends_retry (lw_answer w a) then ([(a, false)], None)
      else if (attempt <? 2)%nat && lw_cancelled w p attempt then ([(a, false)], None)
      else let rest := post_attempts fuel p name path (S attempt) in ((a, false) :: rest.1, rest.2)
  end.

Definition postWithRetry (p : TargetPod) (name path : string) : M LoraAction unit := post_attempts 3 p name path 0.

Definition lora_path (l : LoraCR) : string := DeploymentBuilder.ModelMountPath +:+ "/lora-" +:+ lc_Name l.

(** Whether the pod was asked to load the adapter. *)
Definition registerOnPod (l : LoraCR) (p : TargetPod) : M LoraAction bool :=
  if negb (reachable p) then mret false
  else if negb (lw_allows w p) then fail
  else _ ← postWithRetry p (AdapterName (lc_Adapter l)) (lora_path l); mret true.

Definition warmup_key (l : LoraCR) (p : TargetPod) : string :=
  tp_Name p +:+ "/" +:+ lc_Name l +:+ "/" +:+ AdapterName (lc_Adapter l).

(** ** llmloraadapter_warmup.go *)

(** The request of [performWarmup] is sent in the background. *)
Definition scheduleWarmup (done : gset string) (l : LoraCR) (p : TargetPod) : gset string * list (LoraAction * bool) :=
  if bool_decide (warmup_key l p ∈ done) then (done, [])
  else
    let a := PostWarmup p (AdapterName (lc_Adapter l)) in
    ({[warmup_key l p]} ∪ done, [(a, match lw_answer w a with PostError => false | _ => true end)]).

(** The pods that are warmed up, and whether all were registered. *)
Fixpoint register_pods (done : gset string) (l : LoraCR) (pods : list TargetPod) : list (LoraAction * bool) * (gset string * bool) :=
  match pods with
  | [] => ([], (done, true))
  | p :: pods =>
      let m := registerOnPod l p in
      match m.2 with
      | None => (m.1, (done, false))
      | Some false => let rest := register_pods done l pods in (m.1 ++ rest.1, rest.2)
      | Some true =>
          let warm := scheduleWarmup done l p in
          let rest := register_pods warm.1 l pods in (m.1 ++ warm.2 ++ rest.1, rest.2)
      end
  end.

Definition registerWithTargetService (done : gset string) (l : LoraCR) : list (LoraAction * bool) * (gset string * bool) :=
  match lw_pods w with
  | None => ([], (done, false))
  | Some [] => ([], (done, false))
  | Some pods => register_pods done l pods
  end.

Definition markLoraReady (l : LoraCR) : M LoraAction Z :=
  if lc_ActiveRevision l !=? 0 then mret 0
  else _ ← act (UpdateLoraStatus (add_condition l ConditionReady ConditionTrue 1)); mret 0.

Definition registerAndMarkReady (done : gset string) (l : LoraCR) : gset string * M LoraAction Z :=
  let '(t, (done, registered)) := registerWithTargetService done l in
  if (registered : bool) then let m := markLoraReady l in (done, (t ++ m.1, m.2)) else (done, (t, Some (5 * Second))).

(** ** llmloraadapter_controller.go *)

(** The steps before the pods are asked. *)
Definition governed (l : LoraCR) : M LoraAction (Step LoraCR) :=
  step ← prepareLora l;
  match step with
  | inl r => mret (inl r)
  | inr l =>
      cache ← ensureLoraCache l;
      match cache with
      | inl r => mret (inl r)
      | inr c =>
          step ← hydrateAndGovernLora l c;
          match step with
          | inl r => mret (inl r)
          | inr l => target ← ensureTargetReady; mret (match target with inl r => inl r | inr _ => inr l end)
          end
      end
  end.

(** With the pods that are warmed up already; the delay until the next
    reconciliation, [None] an error. *)
Definition ReconcileLora (done : gset string) : gset string * M LoraAction Z :=
  match lw_lora w with
  | NotFound => (done, mret 0)
  | LookupFailed => (done, fail)
  | Found l =>
      if lc_Deleted l then (done, finalizeLora l)
      else
        let m := governed l in
        match m.2 with
        | None => (done, (m.1, None))
        | Some (inl r) => (done, (m.1, Some r))
        | Some (inr l) => let '(done, x) := registerAndMarkReady done l in (done, (m.1 ++ x.1, x.2))
        end
  end.

End Lora.

(** ** What is loaded *)

Section Governed.

Context (parse_record : string -> option Receipts.RuntimeVerificationRecord) (name_printable : string -> bool).
Context (w : LoraWorld) (ok : LoraAction -> bool).

(** The adapter as the conformance engine sees it: with its initial state and
    the evidence the warm-up Jobs of its cache recorded. *)
Definition initialized (l : LoraCR) : LoraCR :=
  if lifecycle l !=? "" then l
  else let p := Planes (lc_Adapter l) in
       set_adapter l (LoraGovernance.set_planes (lc_Adapter l) (mkPlanes "proposed" "unknown" (Binding p) (PComposition p) "normal")).
Definition judged (l : LoraCR) (c : Cache) : LLMLoraAdapter :=
  match hydrateVerificationEvidence parse_record w (initialized l) c with Some (Some l') => lc_Adapter l' | _ => lc_Adapter (initialized l) end.

Lemma initialize_done l l' : (initializeLoraState ok l).2 = Some l' -> l' = initialized l.
Proof.
  unfold initializeLoraState, initialized. destruct (negb _); [by intros [= <-]|]. intros ([] & _ & H)%bind_done. by injection H as <-.
Qed.

(** The adapter that goes on after [prepareLora]. *)
Lemma prepare_done l l' : (prepareLora w ok l).2 = Some (inr l') ->
  lifecycle (initialized l) <> "quarantined" /\ lc_Adapter l' = lc_Adapter (initialized l)
  /\ lc_Name l' = lc_Name l /\ lc_Namespace l' = lc_Namespace l /\ lc_UID l' = lc_UID l /\ lc_URI l' = lc_URI l.
Proof.
  unfold prepareLora. intros (l1 & ->%initialize_done & H)%bind_done. case_bool_decide as E; [done|]. split; [done|].
  apply bind_done in H as (l2 & H2 & H). apply bind_done in H as (l3 & H3 & H). injection H as <-.
  assert (lc_Adapter l2 = lc_Adapter (initialized l) /\ lc_Name l2 = lc_Name l /\ lc_Namespace l2 = lc_Namespace l /\ lc_UID l2 = lc_UID l
          /\ lc_URI l2 = lc_URI l) as Hk.
  { unfold ensureLoraFinalizer in H2. destruct (containsString _ _); [injection H2 as <-|apply bind_done in H2 as ([] & _ & H2); injection H2 as <-];
      unfold initialized; destruct (negb _); done. }
  unfold ensureProgressingCondition in H3. destruct (existsb _ _); [by injection H3 as <-|]. apply bind_done in H3 as ([] & _ & H3). by injection H3 as <-.
Qed.

Lemma hydrate_ext l l' c : lc_URI l = lc_URI l' -> lc_Adapter l = lc_Adapter l' ->
  match hydrateVerificationEvidence parse_record w l c with Some (Some x) => lc_Adapter x | _ => lc_Adapter l end
  = match hydrateVerificationEvidence parse_record w l' c with Some (Some x) => lc_Adapter x | _ => lc_Adapter l' end.
Proof.
  unfold hydrateVerificationEvidence. intros -> ->. destruct (_ || _); [done|]. by destruct (verified_nodes parse_record w c None _) as [[r|]|].
Qed.

Lemma hydrate_keeps l c x : hydrateVerificationEvidence parse_record w l c = Some (Some x) -> lc_Name x = lc_Name l /\ lc_Target x = lc_Target l
  /\ AdapterName (lc_Adapter x) = AdapterName (lc_Adapter l).
Proof.
  unfold hydrateVerificationEvidence. destruct (_ || _); [done|]. destruct (verified_nodes parse_record w c None _) as [[r|]|]; [|done..].
  cbn. by intros [= <-].
Qed.

(** The adapter that goes on after governance was judged fit, and is active. *)
Lemma govern_done l c l' : (hydrateAndGovernLora parse_record name_printable w ok l c).2 = Some (inr l') ->
  (Check (NewDefaultEngine name_printable)
     match hydrateVerificationEvidence parse_record w l c with Some (Some x) => lc_Adapter x | _ => lc_Adapter l end).1 = true
  /\ lifecycle l' = "active" /\ lc_Name l' = lc_Name l /\ AdapterName (lc_Adapter l') = AdapterName (lc_Adapter l)
  /\ (lifecycle l = "active" \/ exists x, lifecycle x = "active"
        /\ (PatchLoraStatus x, true) ∈ (hydrateAndGovernLora parse_record name_printable w ok l c).1).
Proof.
  unfold hydrateAndGovernLora. intros H. apply bind_done in H as (l1 & H1 & H).
  assert (lc_Adapter l1 = match hydrateVerificationEvidence parse_record w l c with Some (Some x) => lc_Adapter x | _ => lc_Adapter l end
          /\ lc_Name l1 = lc_Name l /\ AdapterName (lc_Adapter l1) = AdapterName (lc_Adapter l) /\ lifecycle l1 = lifecycle l) as (E1 & E2 & E3 & E4).
  { destruct (hydrateVerificationEvidence parse_record w l c) as [[x|]|] eqn:Eh; [|by injection H1 as <-..].
    apply bind_done in H1 as ([] & _ & H1). injection H1 as <-. destruct (hydrate_keeps _ _ _ Eh) as (? & _ & ?). split_and!; try done.
    unfold hydrateVerificationEvidence in Eh. destruct (_ || _); [done|]. destruct (verified_nodes parse_record w c None _) as [[r|]|]; [|done..].
    cbn in Eh. by injection Eh as <-. }
  rewrite <- E1. destruct (Check _ (lc_Adapter l1)).1 eqn:Ec; cbn [negb] in H; [|by apply bind_done in H as ([] & _ & H)].
  split; [done|]. rewrite <- E2, <- E3, <- E4. case_bool_decide as Ea; cbn [negb] in H.
  - injection H as <-. auto.
  - apply bind_done in H as ([] & Hp%perform_done & H). injection H as <-.
    assert (lifecycle (set_adapter l1 (TransitionStates (lc_Adapter l1) true (lw_now w))) = "active") as Hl.
    { unfold lifecycle, TransitionStates. cbn. by destruct (_ || _). }
    split; [done|]. split; [done|]. split; [done|]. right. eexists. split; [exact Hl|]. apply bind_in. right. exists l1. split; [done|].
    rewrite Ec. cbn [negb]. rewrite bool_decide_false by done. cbn [negb]. apply bind_in. left. cbn. rewrite Hp. left.
Qed.

(** What has held when the pods are asked. *)
Lemma governed_done l l' : (governed parse_record name_printable w ok l).2 = Some (inr l') ->
  exists c conds, lw_cache w = Found (c, conds) /\ owned c l = true /\ loraCacheReady conds = true /\ lw_target w = Found true
    /\ lifecycle (initialized l) <> "quarantined" /\ (Check (NewDefaultEngine name_printable) (judged l c)).1 = true
    /\ lc_Name l' = lc_Name l /\ AdapterName (lc_Adapter l') = AdapterName (lc_Adapter l) /\ lifecycle l' = "active"
    /\ (lifecycle l = "active" \/ exists x, lifecycle x = "active" /\ (PatchLoraStatus x, true) ∈ (governed parse_record name_printable w ok l).1).
Proof.
  unfold governed. intros H. apply bind_done in H as ([|l1] & H1 & H); [done|]. apply bind_done in H as ([|c] & H2 & H); [done|].
  apply bind_done in H as ([|l2] & H3 & H); [done|]. apply bind_done in H as ([|[]] & H4 & H); [done|]. injection H as <-.
  destruct (prepare_done _ _ H1) as (Hq & Ha & Hn & Hns & Hu & Huri). destruct (govern_done _ _ _ H3) as (Hc & Hact & Hn2 & Han & Hsaved).
  unfold ensureLoraCache in H2. destruct (lw_cache w) as [[c' conds]| |] eqn:Ec; [| |done]; [|by apply bind_done in H2 as ([] & _ & H2)].
  destruct (owned c' l1) eqn:Eo; [|done]. cbn [negb] in H2. destruct (loraCacheReady conds) eqn:Er; [|done]. cbn [negb] in H2. injection H2 as <-.
  assert (AdapterName (lc_Adapter (initialized l)) = AdapterName (lc_Adapter l)) as Hname by (unfold initialized; by destruct (negb _)).
  exists c', conds. split; [done|]. split. { unfold owned, owner_of in *. by rewrite <- Hns, <- Hn, <- Hu, <- Huri. }
  split; [done|]. split. { unfold ensureTargetReady in H4. destruct (lw_target w) as [[]| |]; done. }
  split; [done|]. split.
  { unfold judged. rewrite (hydrate_ext (initialized l) l1); [done| |done]. rewrite Huri. unfold initialized. by destruct (negb _). }
  split; [congruence|]. split; [congruence|]. split; [done|]. destruct Hsaved as [Hs|(x & Hx & Hin)].
  - left. unfold lifecycle in Hs. rewrite Ha in Hs. unfold initialized in Hs. case_bool_decide; [|done]. by cbn in Hs.
  - right. exists x. split; [done|]. apply bind_in. right. exists (inr l1). split; [done|]. apply bind_in. right. exists (inr c'). split; [|apply bind_in; by left].
    unfold ensureLoraCache. rewrite Ec, Eo. cbn. by rewrite Er.
Qed.

(** *** Requests to the pods *)

(** Not a request to load and not the last write of a deletion. *)
Definition quiet (a : LoraAction) : Prop := match a with PostLoad _ _ _ _ | PatchLora _ => False | _ => True end.
Definition unloads (name : string) (a : LoraAction) : Prop := match a with PostUnload _ n => n = name | _ => False end.

Lemma unload_pods_only l pods : only (unloads (AdapterName (lc_Adapter l))) (unload_pods w l pods).
Proof.
  induction pods as [|p pods IH]; cbn [unload_pods]; [apply only_ret|]. destruct (reachable p); cbn [negb]; [|exact IH].
  destruct (lw_allows w p); cbn [negb]; [|apply only_fail]. apply only_bind; [|done]. intros x Hx. cbn in Hx. by apply list_elem_of_singleton in Hx as ->.
Qed.

Lemma unload_only l : only (unloads (AdapterName (lc_Adapter l))) (unloadFromTargetService w l).
Proof.
  unfold unloadFromTargetService. destruct (lw_target w); [|apply only_ret|apply only_fail]. destruct (lw_pods w); [apply unload_pods_only|apply only_fail].
Qed.

Lemma unload_quiet {R} name (m : M LoraAction R) : only (unloads name) m -> only quiet m.
Proof. intros H x Hx. specialize (H x Hx). by destruct x as [[] ?]. Qed.

(** A completed unload has reached every pod it could. *)
Lemma unload_pods_done l pods u : (unload_pods w l pods).2 = Some u ->
  forall p, p ∈ pods -> reachable p = true -> (PostUnload p (AdapterName (lc_Adapter l)), true) ∈ (unload_pods w l pods).1.
Proof.
  revert u. induction pods as [|q pods IH]; intros u; cbn [unload_pods]; [by intros _ p ?%not_elem_of_nil|].
  destruct (reachable q) eqn:Eq; cbn [negb]; [destruct (lw_allows w q); cbn [negb]; [|done]|].
  - intros ([] & Hd & Hr)%bind_done. intros p [->|Hp]%elem_of_cons Hreach; apply bind_in.
    + left. cbn in Hd |- *. destruct (match lw_answer w _ with PostError => false | PostStatus _ closed => closed end); [left|done].
    + right. exists tt. split; [done|]. by eapply IH.
  - intros Hr p [->|Hp]%elem_of_cons Hreach; [congruence|]. by eapply IH.
Qed.

Lemma post_attempts_in fuel p name path k x : x ∈ (post_attempts w fuel p name path k).1 ->
  exists j, x.1 = PostLoad p name path j /\ (k <= j < k + fuel)%nat.
Proof.
  revert k. induction fuel as [|fuel IH]; intros k; cbn [post_attempts]; [by intros ?%not_elem_of_nil|].
  assert (exists j, PostLoad p name path k = PostLoad p name path j /\ (k <= j < k + S fuel)%nat) as Hk by (exists k; split; [done|lia]).
  destruct (accepted _); [by intros ->%list_elem_of_singleton|]. destruct (ends_retry _); [by intros ->%list_elem_of_singleton|].
  destruct (_ && _); [by intros ->%list_elem_of_singleton|]. cbn [fst]. intros [->|H]%elem_of_cons; [done|].
  destruct (IH _ H) as (j & Hj & Hr). exists j. split; [done|lia].
Qed.

Lemma register_on_in l p x : x ∈ (registerOnPod w l p).1 ->
  reachable p = true /\ exists j, x.1 = PostLoad p (AdapterName (lc_Adapter l)) (lora_path l) j /\ (j < 3)%nat.
Proof.
  unfold registerOnPod. destruct (reachable p); cbn [negb]; [|by intros ?%not_elem_of_nil]. destruct (lw_allows w p); [|by intros ?%not_elem_of_nil].
  cbn [negb]. intros [(j & Hj & Hr)%post_attempts_in|(? & _ & H)]%bind_in; [|by apply not_elem_of_nil in H]. split; [done|]. exists j. split; [done|lia].
Qed.

Lemma warmup_in done l p x : x ∈ (scheduleWarmup w done l p).2 -> x.1 = PostWarmup p (AdapterName (lc_Adapter l)).
Proof. unfold scheduleWarmup. case_bool_decide; cbn; [by intros ?%not_elem_of_nil|by intros ->%list_elem_of_singleton]. Qed.

(** Loads go to reachable pods, with the name and path of the adapter and at
    most three attempts. *)
Lemma register_pods_in done l pods x : x ∈ (register_pods w done l pods).1 -> exists p, p ∈ pods /\ reachable p = true
  /\ (x.1 = PostWarmup p (AdapterName (lc_Adapter l)) \/ exists j, x.1 = PostLoad p (AdapterName (lc_Adapter l)) (lora_path l) j /\ (j < 3)%nat).
Proof.
  revert done x. induction pods as [|q pods IH]; intros done x; cbn [register_pods]; [by intros ?%not_elem_of_nil|].
  assert (forall y, y ∈ (registerOnPod w l q).1 -> exists p, p ∈ q :: pods /\ reachable p = true
    /\ (y.1 = PostWarmup p (AdapterName (lc_Adapter l)) \/ exists j, y.1 = PostLoad p (AdapterName (lc_Adapter l)) (lora_path l) j /\ (j < 3)%nat)) as Hq.
  { intros y [Hr Hy]%register_on_in. exists q. split; [left|]. split; [done|by right]. }
  assert (forall d y, y ∈ (register_pods w d l pods).1 -> exists p, p ∈ q :: pods /\ reachable p = true
    /\ (y.1 = PostWarmup p (AdapterName (lc_Adapter l)) \/ exists j, y.1 = PostLoad p (AdapterName (lc_Adapter l)) (lora_path l) j /\ (j < 3)%nat)) as Hrest.
  { intros d y (p & Hp & H)%IH. exists p. split; [by right|done]. }
  destruct (registerOnPod w l q).2 as [[]|] eqn:Em; cbn [fst]; [|by intros [H|H]%elem_of_app; eauto|auto].
  rewrite !elem_of_app. intros [H|[H|H]]; [auto| |eauto]. apply warmup_in in H. exists q. split; [left|]. split; [|by left].
  unfold registerOnPod in Em. by destruct (reachable q).
Qed.

Lemma register_in done l x : x ∈ (registerWithTargetService w done l).1 -> exists pods p, lw_pods w = Some pods /\ p ∈ pods /\ reachable p = true
  /\ (x.1 = PostWarmup p (AdapterName (lc_Adapter l)) \/ exists j, x.1 = PostLoad p (AdapterName (lc_Adapter l)) (lora_path l) j /\ (j < 3)%nat).
Proof.
  unfold registerWithTargetService. destruct (lw_pods w) as [[|q pods]|]; [by intros ?%not_elem_of_nil| |by intros ?%not_elem_of_nil].
  intros (p & Hp)%register_pods_in. by exists (q :: pods), p.
Qed.

Lemma governed_quiet l : only quiet (governed parse_record name_printable w ok l).
Proof.
  unfold governed, prepareLora, initializeLoraState, ensureLoraFinalizer, ensureProgressingCondition, ensureLoraCache, hydrateAndGovernLora,
    quarantineGovernanceFailure, ensureTargetReady.
  assert (forall l, only quiet ((unloadFromTargetService w l).1, Some (inl 0 : Z + LoraCR))) as Hu.
  { intros l' x Hx. by apply (unload_quiet _ _ (unload_only l')). }
  actions; done || apply Hu.
Qed.

(** *** Reconciliations *)

#[local] Notation run done := (ReconcileLora parse_record name_printable w ok done).2.

(** The trace of a reconciliation, by what the adapter asks for. *)
Lemma run_cases done x : x ∈ (run done).1 -> exists l, lw_lora w = Found l
  /\ (lc_Deleted l = true /\ x ∈ (finalizeLora w ok l).1
      \/ lc_Deleted l = false /\ (x ∈ (governed parse_record name_printable w ok l).1
         \/ exists l', (governed parse_record name_printable w ok l).2 = Some (inr l')
              /\ (x ∈ (registerWithTargetService w done l').1 \/ x ∈ (markLoraReady ok l').1))).
Proof.
  unfold ReconcileLora. destruct (lw_lora w) as [l| |]; [|by intros ?%not_elem_of_nil..]. intros H. exists l. split; [done|].
  destruct (lc_Deleted l); [by left|]. right. split; [done|]. destruct (governed _ _ _ _ l).2 as [[r|l']|]; [by left| |by left].
  unfold registerAndMarkReady in H. destruct (registerWithTargetService w done l') as [t [d registered]] eqn:Er.
  destruct registered; cbn in H; rewrite !elem_of_app in H; [destruct H as [H|[H|H]]|destruct H as [H|H]]; auto; right; exists l'; rewrite Er; auto.
Qed.

Lemma mark_quiet l : only quiet (markLoraReady ok l).
Proof. unfold markLoraReady. actions; done. Qed.

Lemma finalize_no_load l x : x ∈ (finalizeLora w ok l).1 -> match x.1 with PostLoad _ _ _ _ => False | _ => True end.
Proof.
  revert x. change (only (fun a => match a with PostLoad _ _ _ _ => False | _ => True end) (finalizeLora w ok l)).
  unfold finalizeLora, deleteLoraCache. actions; try done. intros x Hx. apply unload_only in Hx. by destruct x as [[] ?].
Qed.

(** What runs before the pods are asked is part of the run. *)
Lemma governed_in done l x : lw_lora w = Found l -> lc_Deleted l = false -> x ∈ (governed parse_record name_printable w ok l).1 -> x ∈ (run done).1.
Proof.
  unfold ReconcileLora. intros -> -> H. destruct (governed _ _ _ _ l).2 as [[r|l']|]; [done| |done].
  destruct (registerAndMarkReady w ok done l') as [d m]. cbn. apply elem_of_app. by left.
Qed.

Lemma load_reached done p name path k b : (PostLoad p name path k, b) ∈ (run done).1 -> exists l c conds pods,
  lw_lora w = Found l /\ lc_Deleted l = false /\ lifecycle l <> "quarantined"
  /\ lw_cache w = Found (c, conds) /\ owned c l = true /\ loraCacheReady conds = true /\ lw_target w = Found true
  /\ (Check (NewDefaultEngine name_printable) (judged l c)).1 = true
  /\ (lifecycle l = "active" \/ exists x, lifecycle x = "active" /\ (PatchLoraStatus x, true) ∈ (run done).1)
  /\ lw_pods w = Some pods /\ p ∈ pods /\ reachable p = true
  /\ name = AdapterName (lc_Adapter l) /\ path = lora_path l /\ (k < 3)%nat.
Proof.
  intros (l & Hl & [[_ H%finalize_no_load]|[Hd [H%governed_quiet|(l' & Hg & [H|H%mark_quiet])]]])%run_cases; [done|done| |done].
  destruct (register_in _ _ _ H) as (pods & q & Hp & Hq & Hr & [Hx|(j & Hx & Hj)]); [done|]. injection Hx as <- -> -> ->.
  destruct (governed_done _ _ Hg) as (c & conds & Hc & Ho & Hcr & Ht & Hquar & Hchk & Hn & Han & _ & Hsaved).
  exists l, c, conds, pods. split_and!; try done.
  - intros Hlq. apply Hquar. unfold initialized. by rewrite Hlq.
  - destruct Hsaved as [|(x & Hx & Hin)]; [by left|]. right. exists x. split; [done|]. by eapply governed_in.
  - unfold lora_path. by rewrite Hn.
Qed.

Lemma quarantined_unloads done l : lw_lora w = Found l -> lc_Deleted l = false -> lifecycle l = "quarantined" ->
  (run done).2 = Some 0 /\ forall x, x ∈ (run done).1 -> unloads (AdapterName (lc_Adapter l)) x.1.
Proof.
  unfold ReconcileLora, governed, prepareLora, initializeLoraState. intros -> -> Hq. rewrite Hq. unfold mbind, M_bind. cbn [fst snd negb bool_decide].
  rewrite bool_decide_false by done. cbn [negb mret M_ret fst snd app]. rewrite Hq, bool_decide_true by done. cbn [fst snd].
  split; [done|]. intros x. rewrite app_nil_r. apply unload_only.
Qed.

Lemma removeString_gone l s : s ∉ removeString l s.
Proof. unfold removeString. rewrite list_elem_of_In, List.filter_In, negb_true_iff, bool_decide_eq_false. naive_solver. Qed.

Lemma finalize_reached l l' b : (PatchLora l', b) ∈ (finalizeLora w ok l).1 ->
  loraFinalizer ∉ lc_Finalizers l'
  /\ (lw_target w = NotFound \/ exists pods, lw_pods w = Some pods
        /\ forall p, p ∈ pods -> reachable p = true -> (PostUnload p (AdapterName (lc_Adapter l)), true) ∈ (finalizeLora w ok l).1)
  /\ (lw_cache w = NotFound \/ exists c, owned c l = true /\ (DeleteCache c, true) ∈ (finalizeLora w ok l).1).
Proof.
  unfold finalizeLora. destruct (containsString _ _); cbn [negb]; [|by intros ?%not_elem_of_nil].
  intros [H%unload_only|([] & Hu & H)]%bind_in; [done|]. apply bind_in in H as [H|([] & Hc & H)].
  { unfold deleteLoraCache in H. destruct (lw_cache w) as [[c ?]| |]; [|by apply not_elem_of_nil in H..].
    destruct (owned c l); [by apply list_elem_of_singleton in H|by apply not_elem_of_nil in H]. }
  apply bind_in in H as [H|(? & _ & H)]; [|by apply not_elem_of_nil in H]. apply list_elem_of_singleton in H. injection H as -> ->.
  split; [apply removeString_gone|]. split.
  - unfold unloadFromTargetService in *. destruct (lw_target w); [|by left|done]. destruct (lw_pods w) as [pods|]; [|done]. right. exists pods. split; [done|].
    intros p Hp Hr. apply bind_in. left. by eapply unload_pods_done.
  - unfold deleteLoraCache in *. destruct (lw_cache w) as [[c ?]| |]; [|by left|done]. destruct (owned c l) eqn:Eo; [|done].
    right. exists c. split; [done|]. apply perform_done in Hc. rewrite (bind_trace _ _ _ Hu). apply elem_of_app. right. apply bind_in. left. cbn. rewrite Hc. left.
Qed.

(** An adapter is only loaded when it is governed, and only released when
    it is gone.  A request to load goes to a running pod with the name and the
    directory of the adapter, at most three times per pod, and only when the
    adapter is neither being deleted nor quarantined, its own cache holds its
    model and is ready, the conformance engine accepts it with the evidence of
    its cache, it is recorded as active, and the service is ready.  A
    quarantined adapter is only unloaded.  The finalizer of a deleted adapter
    is removed only after every running pod of its service was asked to unload
    it and its cache is deleted or not there. *)
Theorem adapter_loads_governed done :
  (forall p name path k b, (PostLoad p name path k, b) ∈ (run done).1 -> exists l c conds pods,
     lw_lora w = Found l /\ lc_Deleted l = false /\ lifecycle l <> "quarantined"
     /\ lw_cache w = Found (c, conds) /\ owned c l = true /\ loraCacheReady conds = true /\ lw_target w = Found true
     /\ (Check (NewDefaultEngine name_printable) (judged l c)).1 = true
     /\ (lifecycle l = "active" \/ exists x, lifecycle x = "active" /\ (PatchLoraStatus x, true) ∈ (run done).1)
     /\ lw_pods w = Some pods /\ p ∈ pods /\ reachable p = true
     /\ name = AdapterName (lc_Adapter l) /\ path = lora_path l /\ (k < 3)%nat)
  /\ (forall l, lw_lora w = Found l -> lc_Deleted l = false -> lifecycle l = "quarantined" ->
        (run done).2 = Some 0 /\ forall x, x ∈ (run done).1 -> unloads (AdapterName (lc_Adapter l)) x.1)
  /\ (forall l' b, (PatchLora l', b) ∈ (run done).1 -> exists l,
        lw_lora w = Found l /\ lc_Deleted l = true /\ loraFinalizer ∉ lc_Finalizers l'
        /\ (lw_target w = NotFound \/ exists pods, lw_pods w = Some pods
              /\ forall p, p ∈ pods -> reachable p = true -> (PostUnload p (AdapterName (lc_Adapter l)), true) ∈ (run done).1)
        /\ (lw_cache w = NotFound \/ exists c, owned c l = true /\ (DeleteCache c, true) ∈ (run done).1)).
Proof.
  split; [intros p name path k b; apply load_reached|]. split; [intros l; apply quarantined_unloads|].
  intros l' b (l & Hl & [[Hd H]|[Hd [H%governed_quiet|(l1 & _ & [H|H%mark_quiet])]]])%run_cases; [|done| |done].
  - exists l. destruct (finalize_reached _ _ _ H) as (H1 & H2 & H3). unfold ReconcileLora. rewrite Hl, Hd. done.
  - by destruct (register_in _ _ _ H) as (pods & q & _ & _ & _ & [Hx|(j & Hx & _)]).
Qed.

End Governed.

(** A cache without a condition Ready holds every adapter back; the controller
    of caches writes no conditions. *)
Lemma unready_cache_never_loads parse_record name_printable w ok done c p name path k b : lw_cache w = Found (c, []) ->
  (PostLoad p name path k, b) ∉ (ReconcileLora parse_record name_printable w ok done).2.1.
Proof. intros Hc (l & c' & conds & pods & _ & _ & _ & Hc' & _ & Hr & _)%load_reached. rewrite Hc in Hc'. by injection Hc' as <- <-. Qed.

(** ** A concrete adapter *)

Definition demo_lora (namespace lifecycle : string) (deleted : bool) : LoraCR :=
  mkLoraCR "sql" namespace "u1" [loraFinalizer] deleted "m" "oci://reg/sql:1"
    (mkAdapter "sql-helper" None None (mkPlanes lifecycle "unknown" "" "" "normal") (mkBundle "" "" "" None)) [("Progressing", "True")] 0.

Definition demo_lora_cache (l : LoraCR) : Cache :=
  let c := newLoraCache l in
  {| LocalModelCache.lmc_Name := LocalModelCache.lmc_Name c; LocalModelCache.Labels := LocalModelCache.Labels c;
     LocalModelCache.Annotations := LocalModelCache.Annotations c; LocalModelCache.SourceModelURI := LocalModelCache.SourceModelURI c;
     LocalModelCache.ModelSize := ""; LocalModelCache.MaxCacheSize := ""; LocalModelCache.NodeGroup := LocalModelCache.NoGroup;
     LocalModelCache.WarmNodes := []; LocalModelCache.Storage := None; LocalModelCache.AllowedNamespaces := [];
     LocalModelCache.Status :=
       {| LocalModelCache.NodeStatuses :=
            [{| LocalModelCache.NodeName := "n1"; LocalModelCache.Phase := "Ready"; LocalModelCache.PVCName := ""; LocalModelCache.LastTransitionTime := None;
                LocalModelCache.SizeBytes := 0; LocalModelCache.LastUsed := None; LocalModelCache.st_ModelURIHash := "h" |}];
          LocalModelCache.CachedNodes := 1; LocalModelCache.CachedModels := []; LocalModelCache.TotalCacheSize := "";
          LocalModelCache.AvailableSpace := "" |} |}.

Definition demo_record (m : string) : option Receipts.RuntimeVerificationRecord :=
  if m ==? "ok" then Some (Receipts.mkRuntimeRecord "s" "oci" true true true "d" "oci://att" "b" "" false "" "" "" "2026-01-02T03:04:05Z" "") else None.

(** The warm-up Job runs in the namespace of the adapter. *)
Definition demo_lora_world (l : LoraCR) (conds : list (string * string)) (running : bool) (answer : Answer) : LoraWorld :=
  mkLoraWorld (Found l) (Found (demo_lora_cache l, conds)) (Found true) (Some [mkTargetPod "p1" running "10.0.0.1"])
    (fun ns job => Some (if ns ==? lc_Namespace l then [[("warmup", Some "ok")]] else [])) (fun _ => answer) (fun _ _ => false) (fun _ => true) 0.

Definition demo_lora_run (w : LoraWorld) : M LoraAction Z := (ReconcileLora demo_record (fun _ => true) w (fun _ => true) ∅).2.

Definition is_load (x : LoraAction * bool) : bool := match x.1 with PostLoad _ _ _ _ => true | _ => false end.
Definition planes_written (m : M LoraAction Z) : list (string * string) :=
  omap (fun x => match x.1 with UpdateLoraStatus l | PatchLoraStatus l => Some (lifecycle l, Trust (Planes (lc_Adapter l))) | _ => None end) m.1.
Definition conditions_written (m : M LoraAction Z) : list (list (string * string)) :=
  omap (fun x => match x.1 with UpdateLoraStatus l => Some (lc_Conditions l) | _ => None end) m.1.

Lemma adapter_loads_governed_witness :
  let w := demo_lora_world (demo_lora "default" "proposed" false) [("Ready", "True")] true (PostStatus 200 true) in
  planes_written (demo_lora_run w) = [("proposed", "verified"); ("active", "verified"); ("active", "verified")]
  /\ length (List.filter is_load (demo_lora_run w).1) = 1%nat
  /\ (let d := demo_lora_world (demo_lora "default" "active" true) [("Ready", "True")] true (PostStatus 200 true) in
      exists c, owned c (demo_lora "default" "active" true) = true /\ (DeleteCache c, true) ∈ (demo_lora_run d).1).
Proof.
  cbn zeta. split; [by vm_compute|]. split; [by vm_compute|].
  set (d := demo_lora_world (demo_lora "default" "active" true) [("Ready", "True")] true (PostStatus 200 true)).
  destruct (proj2 (proj2 (adapter_loads_governed demo_record (fun _ => true) d (fun _ => true) ∅))
    (set_finalizers (demo_lora "default" "active" true) []) true) as (l & [= <-] & _ & _ & _ & [H|H]); [|done|exact H].
  vm_compute. do 2 right. left.
Defined.

(** In a namespace other than default the evidence of the warm-up Job is not
    found, and the adapter is quarantined; a cache without conditions is waited
    for; an adapter none of whose pods runs is reported ready; a pod that
    refuses to unload counts as done; and when a quarantined adapter cannot be
    unloaded the reconciliation is not repeated. *)
Example lora_oddities :
  planes_written (demo_lora_run (demo_lora_world (demo_lora "team" "proposed" false) [("Ready", "True")] true (PostStatus 200 true))) = [("quarantined", "denied")]
  /\ (demo_lora_run (demo_lora_world (demo_lora "default" "active" false) [] true (PostStatus 200 true))).2 = Some (5 * Second)
  /\ (let m := demo_lora_run (demo_lora_world (demo_lora "default" "active" false) [("Ready", "True")] false (PostStatus 200 true)) in
      List.filter is_load m.1 = [] /\ last (conditions_written m) = Some [("Progressing", "True"); ("Ready", "True")])
  /\ (demo_lora_run (demo_lora_world (demo_lora "default" "active" true) [] true (PostStatus 500 true))).2 = Some 0
  /\ demo_lora_run (demo_lora_world (demo_lora "default" "quarantined" false) [] true PostError)
     = ([(PostUnload (mkTargetPod "p1" true "10.0.0.1") "sql-helper", false)], Some 0).
Proof. by vm_compute. Qed.
