(* ===== verification/NetworkIsolation.v ===== *)
(** * Network isolation of a service

    [internal/security/network_policy.go] and [tool_surface_reconciler.go]:
    the network policies of a service and the Istio resources of its tools.
    What a set of policies admits is decided by the network plugin of the
    cluster; it is the argument [admits] with the documented meaning of the
    NetworkPolicy API as its law.  [net.ParseCIDR], the membership of an
    address in a block and the order of a Go map are arguments too. *)

From S2P Require Import Prelude GoStrings K8s K8sPods K8sObjects ApiV1alpha2 ServiceStatus ServiceReconcile GatewayRoutes.
From S2P Require DeploymentSync DeploymentProperties.
From Stdlib Require Import Ascii.

#[local] Notation spec := ServiceStatus.spec.

(** ** Network policies *)

Inductive Protocol := TCP | UDP.
#[global] Instance protocol_eq_dec : EqDecision Protocol.
Proof. solve_decision. Defined.

(** A selector by labels; the empty one selects everything. *)
Notation Selector := (gmap string string).

Inductive Peer :=
  | PeerPods (pods : Selector)
  | PeerPodsIn (namespaces pods : Selector)
  | PeerBlock (cidr : string).

(** A rule without ports covers all of them. *)
Record Rule := mkRule { r_Peers : list Peer; r_Ports : list (Z * Protocol) }.

(** A direction a policy does not speak of is [None]. *)
Record NetworkPolicy := mkPolicy {
  np_Name : string; np_Labels : gmap string string; np_Pods : Selector; np_Ingress : option (list Rule); np_Egress : option (list Rule) }.

Definition defaultGatewayDataPlaneNamespace := "envoy-gateway-system".

Section Policies.

Context {CR : Carried}.
#[local] Notation Svc := (LLMInferenceService (K := objects_k8s)).

Definition security_labels (s : Svc) : gmap string string :=
  list_to_map [("app.kubernetes.io/instance", svc_name s); ("app.kubernetes.io/managed-by", "ckodex-kserve-llm-operator");
               ("serving.ckodex.com/model", dots (ModelSpec_Name (LLMInferenceServiceSpec_Model (spec s))))].

Definition gatewayDataPlaneNamespace (configured : string) : string :=
  if configured !=? "" then configured else defaultGatewayDataPlaneNamespace.

Definition gatewayIdentity (s : Svc) : string * string :=
  match GatewaySpec_ExistingRef (RouterSpec_Gateway (router s)) with
  | Some ref => (GatewayRef_Name ref, if GatewayRef_Namespace ref ==? "" then Meta_Namespace (meta s) else GatewayRef_Namespace ref)
  | None => (svc_name s +:+ "-gateway", Meta_Namespace (meta s))
  end.

Definition instance_selector (s : Svc) : Selector := {["app.kubernetes.io/instance" := svc_name s]}.

Definition gateway_ports (s : Svc) : list (Z * Protocol) := if RequiresMultiNode s then [(8080, TCP)] else [(8000, TCP); (8001, TCP)].

Definition scheduler_peer : Peer := PeerPods {["serving.ckodex.com/role" := "scheduler"]}.
Definition proxy_peer (configured : string) (s : Svc) : Peer :=
  let '(gatewayName, gatewayNamespace) := gatewayIdentity s in
  PeerPodsIn {["kubernetes.io/metadata.name" := gatewayDataPlaneNamespace configured]}
    (list_to_map [("app.kubernetes.io/component", "proxy"); ("app.kubernetes.io/managed-by", "envoy-gateway");
                  ("gateway.envoyproxy.io/owning-gateway-name", gatewayName); ("gateway.envoyproxy.io/owning-gateway-namespace", gatewayNamespace)]).

Definition policy (s : Svc) (suffix : string) (ingress egress : option (list Rule)) : NetworkPolicy :=
  mkPolicy (svc_name s +:+ suffix) (security_labels s) (instance_selector s) ingress egress.

Definition denyIngress (s : Svc) : NetworkPolicy := policy s "-deny-all-ingress" (Some []) None.
Definition allowGateway (configured : string) (s : Svc) : NetworkPolicy :=
  policy s "-allow-gateway" (Some [mkRule [scheduler_peer; proxy_peer configured s] (gateway_ports s)]) None.
Definition egressLockdown (s : Svc) : NetworkPolicy :=
  policy s "-egress-lockdown" None
    (Some [mkRule [PeerPodsIn ∅ {["k8s-app" := "kube-dns"]}] [(53, UDP); (53, TCP)];
           mkRule [PeerPods {["app.kubernetes.io/name" := "spire-agent"]}] [(8081, TCP)]]).
Definition allowIntra (s : Svc) : NetworkPolicy :=
  policy s "-allow-lws-intra" (Some [mkRule [PeerPods (instance_selector s)] []]) (Some [mkRule [PeerPods (instance_selector s)] []]).

(** The adapters of the namespace: the service each is for and its blocks. *)
Record ToolAdapter := mkToolAdapter { ta_Target : string; ta_Surface : option ToolSurface }.

Definition surface_cidrs (surface : option ToolSurface) : list string :=
  match surface with Some t => range_slice (ToolSurface_AllowedCIDRs t) | None => [] end.

Context (ParseCIDR : string -> bool).

Definition associated_tools (s : Svc) (adapters : list ToolAdapter) : list (option ToolSurface) :=
  ta_Surface <$> List.filter (fun a => ta_Target a ==? svc_name s) adapters.

Definition tool_blocks (s : Svc) (adapters : list ToolAdapter) : list string :=
  List.filter ParseCIDR (List.concat (surface_cidrs <$> (LLMInferenceServiceSpec_ToolSurface (spec s) :: associated_tools s adapters))).

Definition allowTools (s : Svc) (adapters : list ToolAdapter) : NetworkPolicy :=
  policy s "-allow-tools" None (Some ((fun cidr => mkRule [PeerBlock cidr] []) <$> tool_blocks s adapters)).

Definition service_policies (configured : string) (s : Svc) (adapters : list ToolAdapter) : list NetworkPolicy :=
  [denyIngress s; allowGateway configured s; egressLockdown s; allowIntra s; allowTools s adapters].

(** Creating or replacing a policy. *)
Inductive PolicyAction := CreatePolicy (p : NetworkPolicy) | UpdatePolicy (p : NetworkPolicy).

Section Reconcile.

Context (owner_ok : bool) (existing : string -> Lookup unit) (ok : PolicyAction -> bool).

Definition reconcileSinglePolicy (p : NetworkPolicy) : M PolicyAction unit :=
  if negb owner_ok then fail
  else match existing (np_Name p) with
       | NotFound => perform ok (CreatePolicy p)
       | LookupFailed => fail
       | Found _ => perform ok (UpdatePolicy p)
       end.

Fixpoint reconcile_policies (ps : list NetworkPolicy) : M PolicyAction unit :=
  match ps with
  | [] => mret tt
  | p :: ps => _ ← reconcileSinglePolicy p; reconcile_policies ps
  end.

Definition ReconcileNetworkPolicy (configured : string) (adapters : option (list ToolAdapter)) (s : Svc) : M PolicyAction unit :=
  match adapters with
  | None => fail
  | Some l => reconcile_policies (service_policies configured s l)
  end.

End Reconcile.

(** The policy an action writes. *)
Definition written (a : PolicyAction) : NetworkPolicy := match a with CreatePolicy p | UpdatePolicy p => p end.

(** ** tool_surface_reconciler.go *)

Definition surface_apis (surface : option ToolSurface) : list string :=
  match surface with Some t => range_slice (ToolSurface_AllowedAPIs t) | None => [] end.

(** The keys of the map [apis]. *)
Definition tool_apis (s : Svc) (loras : list (option ToolSurface)) : gset string :=
  list_to_set (List.concat (surface_apis <$> (LLMInferenceServiceSpec_ToolSurface (spec s) :: loras))).

(** [strings.ReplaceAll] of dots and stars. *)
Fixpoint safe_fqdn (f : string) : string :=
  match f with
  | EmptyString => ""
  | String a f => (if Ascii.eqb a "."%char then "-" else if Ascii.eqb a "*"%char then "wildcard" else String a "") +:+ safe_fqdn f
  end.

Definition egress_name (s : Svc) (fqdn : string) : string :=
  let name := svc_name s +:+ "-egress-" +:+ safe_fqdn fqdn in if (63 <? String.length name)%nat then str_take 63 name else name.

Inductive IstioObject :=
  | PeerAuthentication (name : string) (selector : Selector) (mode : string)
  | Sidecar (name : string) (selector : Selector) (hosts : list string)
  | ServiceEntry (name host : string)
  | DestinationRule (name host : string).

Definition sidecar_hosts (fqdns : list string) : list string := ["./*"; "istio-system/*"; "knative-serving/*"] ++ ((fun f => "*/" +:+ f) <$> fqdns).

Section Tools.

Context (applies : IstioObject -> bool) (order1 order2 : gset string -> list string).

(** [available] is the answer of the REST mapper, [None] an error. *)
Definition reconcileIstioEgressResources (s : Svc) (fqdn : string) : M IstioObject unit :=
  _ ← perform applies (ServiceEntry (egress_name s fqdn) fqdn);
  perform applies (DestinationRule (egress_name s fqdn) fqdn).

Fixpoint egress_resources (s : Svc) (fqdns : list string) : M IstioObject unit :=
  match fqdns with
  | [] => mret tt
  | f :: fqdns => _ ← reconcileIstioEgressResources s f; egress_resources s fqdns
  end.

Definition ReconcileToolSurface (available : option bool) (s : Svc) (loras : list (option ToolSurface)) : M IstioObject unit :=
  let apis := tool_apis s loras in
  if bool_decide (apis = ∅) then mret tt
  else match available with
       | None => fail
       | Some false => mret tt
       | Some true =>
           _ ← perform applies (PeerAuthentication (svc_name s) (instance_selector s) "STRICT");
           _ ← perform applies (Sidecar (svc_name s) (instance_selector s) (sidecar_hosts (order1 apis)));
           egress_resources s (order2 apis)
       end.

End Tools.

End Policies.

(** ** What the policies admit *)

(** A pod with the labels of its namespace, and a party to a connection. *)
Record NetPod := mkNetPod { n_Namespace : string; n_NamespaceLabels : gmap string string; n_Labels : gmap string string }.
Record Party := mkParty { party_pod : option NetPod; party_ip : string }.
Record Flow := mkFlow { f_Peer : Party; f_Port : Z; f_Protocol : Protocol }.

Section Meaning.

(** [in_block cidr ip]: the address is in the block. *)
Context (in_block : string -> string -> bool).

Definition peer_matches (p : NetPod) (peer : Peer) (x : Party) : Prop :=
  match peer with
  | PeerPods pods => exists q, party_pod x = Some q /\ n_Namespace q = n_Namespace p /\ pods ⊆ n_Labels q
  | PeerPodsIn namespaces pods => exists q, party_pod x = Some q /\ namespaces ⊆ n_NamespaceLabels q /\ pods ⊆ n_Labels q
  | PeerBlock cidr => in_block cidr (party_ip x) = true
  end.

Definition rule_matches (p : NetPod) (r : Rule) (f : Flow) : Prop :=
  (exists peer, peer ∈ r_Peers r /\ peer_matches p peer (f_Peer f)) /\ (r_Ports r = [] \/ (f_Port f, f_Protocol f) ∈ r_Ports r).

Definition selects (np : NetworkPolicy) (p : NetPod) : Prop := np_Pods np ⊆ n_Labels p.

(** The documented meaning of the policies of a namespace in one direction: a
    pod that no policy selects in that direction is open, and otherwise what
    some rule of a policy that selects it allows. *)
Definition meaning (dir : NetworkPolicy -> option (list Rule)) (ps : list NetworkPolicy) (p : NetPod) (f : Flow) : Prop :=
  (forall np, np ∈ ps -> selects np p -> dir np = None)
  \/ exists np rules r, np ∈ ps /\ selects np p /\ dir np = Some rules /\ r ∈ rules /\ rule_matches p r f.

(** A network plugin that implements the API. *)
Class Plugin (ingress egress : list NetworkPolicy -> NetPod -> Flow -> bool) : Prop := {
  plugin_ingress ps p f : ingress ps p f = true <-> meaning np_Ingress ps p f;
  plugin_egress ps p f : egress ps p f = true <-> meaning np_Egress ps p f }.

Section Isolated.

Context {CR : Carried} (ParseCIDR : string -> bool) (ingress egress : list NetworkPolicy -> NetPod -> Flow -> bool) `{!Plugin ingress egress}.
#[local] Notation Svc := (LLMInferenceService (K := objects_k8s)).

(** A pod of the service. *)
Definition pod_of (s : Svc) (p : NetPod) : Prop :=
  n_Namespace p = Meta_Namespace (meta s) /\ n_Labels p !! "app.kubernetes.io/instance" = Some (svc_name s).

Lemma pod_selected s p : pod_of s p -> instance_selector s ⊆ n_Labels p.
Proof. intros [_ H]. by apply map_singleton_subseteq_l. Qed.

(** A successful run writes all policies. *)
Lemma policies_written owner_ok existing ok ps : (reconcile_policies owner_ok existing ok ps).2 = Some tt ->
  written <$> (reconcile_policies owner_ok existing ok ps).1.*1 = ps.
Proof.
  induction ps as [|p ps IH]; cbn [reconcile_policies]; [done|]. intros ([] & Hp & Hr)%bind_done. rewrite (bind_trace _ _ _ Hp), !fmap_app, (IH Hr).
  unfold reconcileSinglePolicy in *. destruct owner_ok; [|done]. cbn [negb] in *. destruct (existing (np_Name p)); done.
Qed.

(** The policies of a run are there, and no other selects the pod. *)
Definition in_force (ps written : list NetworkPolicy) (p : NetPod) : Prop :=
  forall np, (np ∈ written -> np ∈ ps) /\ (np ∈ ps -> selects np p -> np ∈ written).

Lemma policies_select configured (s : Svc) adapters p np : pod_of s p -> np ∈ service_policies ParseCIDR configured s adapters -> selects np p.
Proof. intros Hp%pod_selected Hn. set_unfold in Hn. unfold selects. by destruct Hn as [->|[->|[->|[->|[->|[]]]]]]. Qed.

Lemma meaning_in_force dir ps ws p f : in_force ps ws p -> (forall np, np ∈ ws -> selects np p) ->
  meaning dir ps p f <-> (forall np, np ∈ ws -> dir np = None) \/ exists np rules r, np ∈ ws /\ dir np = Some rules /\ r ∈ rules /\ rule_matches p r f.
Proof. unfold in_force, meaning. intros H Hs. split; [intros [Hn|(np & rules & r & Hp & Hse & Hx)]|intros [Hn|(np & rules & r & Hp & Hx)]].
  - left. intros np Hnp. apply Hn; [by apply H|by apply Hs].
  - right. exists np, rules, r. split; [|done]. by apply H.
  - left. intros np Hnp Hse. apply Hn. by apply H.
  - right. exists np, rules, r. split; [by apply H|]. split; [by apply Hs|done].
Qed.

(** After a successful run the pods of a service are isolated.  When no
    other policy selects them, a connection reaches them exactly when it comes
    from the scheduler or the proxy of the service's gateway, on the ports of
    the model server, or from another pod of the service; and they reach
    exactly the DNS server, the SPIRE agent of the namespace, each other, and
    the addresses of the well-formed blocks that the service and its adapters
    declare. *)
Theorem service_isolated configured (s : Svc) adapters owner_ok existing ok ps p f :
  pod_of s p -> (ReconcileNetworkPolicy ParseCIDR owner_ok existing ok configured (Some adapters) s).2 = Some tt ->
  in_force ps (written <$> (ReconcileNetworkPolicy ParseCIDR owner_ok existing ok configured (Some adapters) s).1.*1) p ->
  (ingress ps p f = true <->
     ((peer_matches p scheduler_peer (f_Peer f) \/ peer_matches p (proxy_peer configured s) (f_Peer f))
        /\ (f_Port f, f_Protocol f) ∈ gateway_ports s)
     \/ peer_matches p (PeerPods (instance_selector s)) (f_Peer f))
  /\ (egress ps p f = true <->
     (peer_matches p (PeerPodsIn ∅ {["k8s-app" := "kube-dns"]}) (f_Peer f) /\ f_Port f = 53)
     \/ (peer_matches p (PeerPods {["app.kubernetes.io/name" := "spire-agent"]}) (f_Peer f) /\ f_Port f = 8081 /\ f_Protocol f = TCP)
     \/ peer_matches p (PeerPods (instance_selector s)) (f_Peer f)
     \/ exists cidr, cidr ∈ tool_blocks ParseCIDR s adapters /\ in_block cidr (party_ip (f_Peer f)) = true).
Proof.
  intros Hp Hrun Hf. unfold ReconcileNetworkPolicy in *. rewrite policies_written in Hf by done.
  assert (gateway_ports s <> []) as Hports by (unfold gateway_ports; by destruct (RequiresMultiNode s)).
  assert (forall np, np ∈ service_policies ParseCIDR configured s adapters -> selects np p) as Hs by (intros np; by apply policies_select).
  rewrite plugin_ingress, plugin_egress, !(meaning_in_force _ _ _ _ _ Hf Hs). unfold service_policies. split.
  - split.
    + intros [H|(np & rules & r & Hnp & Hd & Hr & Hm)].
      { specialize (H (denyIngress s)). rewrite elem_of_cons in H. by specialize (H (or_introl eq_refl)). }
      set_unfold in Hnp. destruct Hnp as [->|[->|[->|[->|[->|[]]]]]]; cbn in Hd; simplify_eq; set_unfold in Hr; destruct_or?; try done; subst r.
      * destruct Hm as [(peer & Hpeer & Hm) [Hn|Hport]]; cbn in *; [done|]. left. split; [|done]. set_unfold in Hpeer. destruct_or?; subst; tauto.
      * destruct Hm as [(peer & Hpeer & Hm) _]. set_unfold in Hpeer. destruct_or?; subst; tauto.
    + intros [[Hm Hport]|Hm]; right.
      * exists (allowGateway configured s). eexists _, _. split; [set_solver|]. split; [reflexivity|]. split; [left|]. split; [|by right].
        destruct Hm as [Hm|Hm]; eexists; (split; [|exact Hm]); set_solver.
      * exists (allowIntra s). eexists _, _. split; [set_solver|]. split; [reflexivity|]. split; [left|]. split; [|by left]. eexists. split; [left|done].
  - split.
    + intros [H|(np & rules & r & Hnp & Hd & Hr & Hm)].
      { specialize (H (egressLockdown s)). cbn in H. assert (Some _ = None) by (apply H; set_solver). done. }
      set_unfold in Hnp. destruct Hnp as [->|[->|[->|[->|[->|[]]]]]]; cbn in Hd; simplify_eq.
      * set_unfold in Hr. destruct Hm as [(peer & Hpeer & Hm) Hport]. destruct Hr as [->|[->|[]]]; cbn in Hport, Hpeer; set_unfold in Hpeer;
          destruct Hpeer as [->|[]]; set_unfold in Hport; [left|right; left]; naive_solver.
      * set_unfold in Hr. destruct Hr as [->|[]]. destruct Hm as [(peer & Hpeer & Hm) _]. set_unfold in Hpeer. destruct Hpeer as [->|[]]. tauto.
      * apply list_elem_of_fmap in Hr as (cidr & -> & Hc). destruct Hm as [(peer & Hpeer & Hm) _]. set_unfold in Hpeer. destruct Hpeer as [->|[]].
        do 3 right. by exists cidr.
    + intros [[Hm Hport]|[[Hm Hport]|[Hm|(cidr & Hc & Hm)]]]; right.
      * exists (egressLockdown s). eexists _, _. split; [set_solver|]. split; [reflexivity|]. split; [left|]. split.
        -- eexists. split; [left|done].
        -- right. cbn. rewrite Hport. destruct (f_Protocol f); set_solver.
      * exists (egressLockdown s). eexists _, _. split; [set_solver|]. split; [reflexivity|]. split; [right; left|]. split.
        -- eexists. split; [left|done].
        -- right. cbn. destruct Hport as [-> ->]. set_solver.
      * exists (allowIntra s). eexists _, _. split; [set_solver|]. split; [reflexivity|]. split; [left|]. split; [|by left]. eexists. split; [left|done].
      * exists (allowTools ParseCIDR s adapters). eexists _, _. split; [set_solver|]. split; [reflexivity|]. split; [apply list_elem_of_fmap; by exists cidr|].
        split; [|by left]. eexists. split; [left|done].
Qed.

End Isolated.

End Meaning.

(** ** A plugin, and a concrete service *)

Section Reference.

Context (in_block : string -> string -> bool).

Definition selects_b (sel labels : gmap string string) : bool := bool_decide (map_Forall (fun k v => labels !! k = Some v) sel).

Lemma selects_b_iff sel labels : selects_b sel labels = true <-> sel ⊆ labels.
Proof. unfold selects_b. by rewrite bool_decide_eq_true, map_subseteq_spec. Qed.

Definition peer_b (p : NetPod) (peer : Peer) (x : Party) : bool :=
  match peer, party_pod x with
  | PeerPods pods, Some q => (n_Namespace q ==? n_Namespace p) && selects_b pods (n_Labels q)
  | PeerPodsIn namespaces pods, Some q => selects_b namespaces (n_NamespaceLabels q) && selects_b pods (n_Labels q)
  | PeerBlock cidr, _ => in_block cidr (party_ip x)
  | _, None => false
  end.

Definition rule_b (p : NetPod) (f : Flow) (r : Rule) : bool :=
  existsb (fun peer => peer_b p peer (f_Peer f)) (r_Peers r) && ((Z.of_nat (length (r_Ports r)) ==? 0) || bool_decide ((f_Port f, f_Protocol f) ∈ r_Ports r)).

Definition admits_b (dir : NetworkPolicy -> option (list Rule)) (ps : list NetworkPolicy) (p : NetPod) (f : Flow) : bool :=
  forallb (fun np => negb (selects_b (np_Pods np) (n_Labels p)) || match dir np with None => true | Some _ => false end) ps
  || existsb (fun np => selects_b (np_Pods np) (n_Labels p) && match dir np with Some rules => existsb (rule_b p f) rules | None => false end) ps.

Lemma peer_b_iff p peer x : peer_b p peer x = true <-> peer_matches in_block p peer x.
Proof.
  destruct peer, (party_pod x) as [q|] eqn:E; cbn; rewrite ?E; rewrite ?andb_true_iff, ?selects_b_iff, ?bool_decide_eq_true; naive_solver.
Qed.

Lemma rule_b_iff p f r : rule_b p f r = true <-> rule_matches in_block p r f.
Proof.
  unfold rule_b, rule_matches. rewrite andb_true_iff, orb_true_iff, !bool_decide_eq_true, existsb_exists.
  setoid_rewrite peer_b_iff. setoid_rewrite list_elem_of_In. assert (Z.of_nat (length (r_Ports r)) = 0 <-> r_Ports r = []) as ->; [|naive_solver].
  destruct (r_Ports r); cbn; split; done || lia.
Qed.

Lemma admits_b_iff dir ps p f : admits_b dir ps p f = true <-> meaning in_block dir ps p f.
Proof.
  unfold admits_b, meaning, selects. rewrite orb_true_iff, forallb_forall, existsb_exists. setoid_rewrite list_elem_of_In.
  match goal with |- (?A \/ ?B) <-> (?C \/ ?D) => cut ((A <-> C) /\ (B <-> D)); [tauto|split] end.
  - apply forall_proper. intros np. rewrite orb_true_iff, negb_true_iff, <- not_true_iff_false, selects_b_iff.
    destruct (decide (np_Pods np ⊆ n_Labels p)), (dir np); naive_solver.
  - split.
    + intros (np & Hn & [Hs%selects_b_iff Hr]%andb_true_iff). destruct (dir np) as [rules|] eqn:Ed; [|done].
      apply existsb_exists in Hr as (r & Hr & Hm%rule_b_iff). by exists np, rules, r.
    + intros (np & rules & r & Hn & Hs & Hd & Hr & Hm). exists np. split; [done|]. rewrite andb_true_iff, selects_b_iff, Hd, existsb_exists.
      split; [done|]. exists r. split; [done|]. by apply rule_b_iff.
Qed.

#[export] Instance reference_plugin : Plugin in_block (admits_b np_Ingress) (admits_b np_Egress).
Proof. split; apply admits_b_iff. Qed.

End Reference.

#[local] Existing Instance DeploymentSync.demo_carried.

Definition demo_block (cidr ip : string) : bool := (cidr ==? "10.1.0.0/16") && HasPrefix ip "10.1.".
Definition demo_cidr (cidr : string) : bool := cidr ==? "10.1.0.0/16".
Definition demo_tools : list ToolAdapter :=
  [mkToolAdapter "m" (Some (mkToolSurface None (Some ["10.1.0.0/16"; "bad"]))); mkToolAdapter "other" (Some (mkToolSurface None (Some ["0.0.0.0/0"])))].

Definition demo_net_pod (ns : string) (labels : list (string * string)) : NetPod :=
  mkNetPod ns {["kubernetes.io/metadata.name" := ns]} (list_to_map labels).
Definition demo_model_pod : NetPod := demo_net_pod "prod" [("app.kubernetes.io/instance", "m")].
Definition demo_party (ns : string) (labels : list (string * string)) : Party := mkParty (Some (demo_net_pod ns labels)) "10.9.0.1".
Definition demo_proxy : Party :=
  demo_party "envoy-gateway-system"
    [("app.kubernetes.io/component", "proxy"); ("app.kubernetes.io/managed-by", "envoy-gateway"); ("gateway.envoyproxy.io/owning-gateway-name", "m-gateway");
     ("gateway.envoyproxy.io/owning-gateway-namespace", "prod")].

Definition demo_policies : list NetworkPolicy := service_policies demo_cidr "" demo_live demo_tools.
Definition demo_ingress (x : Party) (port : Z) : bool := admits_b demo_block np_Ingress demo_policies demo_model_pod (mkFlow x port TCP).
Definition demo_egress (x : Party) (port : Z) : bool := admits_b demo_block np_Egress demo_policies demo_model_pod (mkFlow x port TCP).

Lemma service_isolated_witness :
  demo_ingress demo_proxy 8000 = true /\ demo_ingress demo_proxy 22 = false
  /\ demo_egress (mkParty None "10.1.2.3") 443 = true /\ demo_egress (mkParty None "8.8.8.8") 443 = false.
Proof.
  assert (pod_of demo_live demo_model_pod) as H1 by by vm_compute.
  assert ((ReconcileNetworkPolicy demo_cidr true (fun _ => NotFound) (fun _ => true) "" (Some demo_tools) demo_live).2 = Some tt) as H2 by by vm_compute.
  assert (in_force demo_policies (written <$> (ReconcileNetworkPolicy demo_cidr true (fun _ => NotFound) (fun _ => true) "" (Some demo_tools) demo_live).1.*1)
    demo_model_pod) as H3 by (intros np; unfold ReconcileNetworkPolicy; rewrite policies_written by done; done).
  pose proof (fun f => service_isolated demo_block demo_cidr (admits_b demo_block np_Ingress) (admits_b demo_block np_Egress) "" demo_live demo_tools true
    (fun _ => NotFound) (fun _ => true) demo_policies demo_model_pod f H1 H2 H3) as H.
  split; [|split; [by vm_compute|split; [|by vm_compute]]].
  - apply (proj2 (proj1 (H (mkFlow demo_proxy 8000 TCP)))). left. split; [|set_solver]. right. eexists. split; [done|]. split; apply selects_b_iff; by vm_compute.
  - apply (proj2 (H (mkFlow (mkParty None "10.1.2.3") 443 TCP))). do 3 right. exists "10.1.0.0/16". split; [|by vm_compute]. vm_compute. left.
Defined.

(** The controller of adapters, which posts to port 8000 of the pods, and a
    metrics collector are kept out; the pods cannot fetch a model, nor reach a
    SPIRE agent in its own namespace; and two hosts can share the names of
    their Istio resources. *)
Example isolation_oddities :
  demo_ingress (demo_party "ckodex-system" [("control-plane", "controller-manager")]) 8000 = false
  /\ demo_ingress (demo_party "monitoring" [("app.kubernetes.io/name", "prometheus")]) 8000 = false
  /\ demo_egress (mkParty None "18.0.0.1") 443 = false
  /\ demo_egress (demo_party "spire" [("app.kubernetes.io/name", "spire-agent")]) 8081 = false
  /\ egress_name demo_live "api.a.com" = egress_name demo_live "api-a.com"
  /\ ReconcileToolSurface (fun _ => true) elements elements (Some true) demo_live [] = ([], Some tt).
Proof. by vm_compute. Qed.
