(* ===== verification/Abi.v ===== *)
(** * The inference contract

    [internal/abi]: the types of the OpenInferenceSpec contract, the
    validation of a specification and the conformance of an engine with a
    tier.  Texts of errors are left out and their sentinels kept; enumerations
    are strings, which callers can fill with anything. *)

From S2P Require Import Prelude GoStrings.
From Stdlib Require SpecFloat.

(** ** types.go *)

Inductive AbiErr :=
  | ErrInvalidModel | ErrInvalidRuntime | ErrInvalidAdapter | ErrInvalidTokenizer | ErrInvalidKVTransfer | ErrInvalidRouting | ErrInvalidEvidence
  | ErrInvalidCapability.

Definition EngineKServe := "kserve".
Definition EngineLLMD := "llm-d".
Definition EngineVLLM := "vllm".
Definition EngineTensorFold := "tensorfold".
Definition EngineSGLang := "sglang".
Definition ConformanceTier0 := 0.
Definition ConformanceTier1 := 1.
Definition ConformanceTier2 := 2.
Definition ConformanceTier3 := 3.
Definition ConformancePass := "pass".
Definition ConformanceFail := "fail".
Definition ConformanceExempt := "exempt".
Definition CapabilitySupported := "supported".
Definition CapabilityUnsupported := "unsupported".
Definition CapabilityEmulated := "emulated".
Definition LifecycleUnspecified := "unspecified".
Definition LifecycleInitializing := "initializing".
Definition LifecycleReady := "ready".
Definition LifecycleActive := "active".
Definition LifecycleDegraded := "degraded".
Definition LifecycleTerminating := "terminating".
Definition LifecycleTerminated := "terminated".
Definition LifecycleFault := "fault".
Definition SyncUnknown := "unknown".
Definition SyncSynchronized := "synchronized".
Definition SyncReconciling := "reconciling".
Definition SyncDrifted := "drifted".
Definition SyncStale := "stale".
Definition HealthUnknown := "unknown".
Definition HealthHealthy := "healthy".
Definition HealthDegraded := "degraded".
Definition HealthUnhealthy := "unhealthy".
Definition HealthQuarantined := "quarantined".
Definition AttestationUnspecified := "unspecified".
Definition AttestationAsserted := "asserted".
Definition AttestationVerified := "verified".
Definition AttestationFailed := "failed".
Definition AttestationRevoked := "revoked".
Record StateVector := mkStateVector {
  StateVector_Lifecycle : string; StateVector_Sync : string; StateVector_Health : string; StateVector_Attestation : string;
  StateVector_ObservedAt : Time }.

Record ModelDescriptor := mkModelDescriptor {
  ModelDescriptor_ModelID : string; ModelDescriptor_Family : string; ModelDescriptor_Architecture : string; ModelDescriptor_ContextLength : Z;
  ModelDescriptor_ParametersCount : Z; ModelDescriptor_Precision : string; ModelDescriptor_Quantization : string;
  ModelDescriptor_ContentDigest : string }.

Record ModelSpec := mkModelSpec {
  ModelSpec_Descriptor : ModelDescriptor; ModelSpec_SourceURI : string; ModelSpec_Revision : string; ModelSpec_Parameters : gmap string string }.

Definition AcceleratorCUDA := "cuda".
Definition AcceleratorROCm := "rocm".
Definition AcceleratorTPU := "tpu".
Definition AcceleratorNeuron := "neuron".
Definition AcceleratorCPU := "cpu".
Record ParallelismSpec := mkParallelismSpec {
  ParallelismSpec_TensorParallel : Z; ParallelismSpec_PipelineParallel : Z; ParallelismSpec_DataParallel : Z; ParallelismSpec_ExpertParallel : Z }.

Record RuntimeDescriptor := mkRuntimeDescriptor {
  RuntimeDescriptor_Engine : string; RuntimeDescriptor_Version : string; RuntimeDescriptor_ImageDigest : string;
  RuntimeDescriptor_ConformanceTier : Z }.

Record RuntimeSpec := mkRuntimeSpec {
  RuntimeSpec_Descriptor : RuntimeDescriptor; RuntimeSpec_Accelerator : string; RuntimeSpec_AcceleratorCount : Z; RuntimeSpec_MemoryBytes : Z;
  RuntimeSpec_Parallelism : ParallelismSpec; RuntimeSpec_ConcurrencyLimit : Z }.

Definition AdapterLoRA := "lora".
Definition AdapterQLoRA := "qlora".
Definition AdapterPromptTuning := "prompt_tuning".
Definition AdapterPrefixTuning := "prefix_tuning".
Definition HotSwapImmediate := "immediate".
Definition HotSwapDrained := "drained".
Definition HotSwapPreloaded := "preloaded".
Record AdapterDescriptor := mkAdapterDescriptor {
  AdapterDescriptor_AdapterID : string; AdapterDescriptor_Type : string; AdapterDescriptor_BaseDigest : string; AdapterDescriptor_Rank : Z;
  AdapterDescriptor_Alpha : SpecFloat.spec_float; AdapterDescriptor_TargetModules : list string; AdapterDescriptor_Digest : string }.

Record AdapterSpec := mkAdapterSpec {
  AdapterSpec_Descriptor : AdapterDescriptor; AdapterSpec_HotSwapPolicy : string; AdapterSpec_WeightsURI : string }.

Definition TokenizerBPE := "bpe".
Definition TokenizerWordPiece := "wordpiece".
Definition TokenizerSentencePiece := "sentencepiece".
Definition TokenizerUnigram := "unigram".
Record SpecialTokens := mkSpecialTokens {
  SpecialTokens_BOS : string; SpecialTokens_EOS : string; SpecialTokens_PAD : string; SpecialTokens_UNK : string;
  SpecialTokens_ChatTemplate : string }.

Record TokenizerDescriptor := mkTokenizerDescriptor {
  TokenizerDescriptor_Kind : string; TokenizerDescriptor_VocabularySize : Z; TokenizerDescriptor_TruncationLength : Z;
  TokenizerDescriptor_SpecialTokens : SpecialTokens }.

Record TokenizerSpec := mkTokenizerSpec {
  TokenizerSpec_Descriptor : TokenizerDescriptor; TokenizerSpec_ConfigURI : string }.

Definition KVProtocolNixl := "nixl".
Definition KVProtocolRDMA := "rdma".
Definition KVProtocolGRPC := "grpc".
Definition KVProtocolSharedMemory := "shm".
Definition KVTransferIdle := "idle".
Definition KVTransferHandshaking := "handshaking".
Definition KVTransferStreaming := "streaming".
Definition KVTransferCompleted := "completed".
Definition KVTransferFailed := "failed".
Definition KVTransferAborted := "aborted".
Definition KVDtypeFP16 := "fp16".
Definition KVDtypeBF16 := "bf16".
Definition KVDtypeFP8 := "fp8".
Definition KVDtypeINT8 := "int8".
Definition KVDtypeINT4 := "int4".
Record KVTransferDescriptor := mkKVTransferDescriptor {
  KVTransferDescriptor_Protocol : string; KVTransferDescriptor_CacheDtype : string; KVTransferDescriptor_BlockSize : Z;
  KVTransferDescriptor_PageSize : Z; KVTransferDescriptor_ChannelCapacityByte : Z }.

Record KVTransferSpec := mkKVTransferSpec {
  KVTransferSpec_Descriptor : KVTransferDescriptor; KVTransferSpec_RemoteEndpoint : string; KVTransferSpec_SessionID : string }.

Definition RoutingPolicyRoundRobin := "round_robin".
Definition RoutingPolicyLeastConnections := "least_connections".
Definition RoutingPolicyPrefixCacheAware := "prefix_cache_aware".
Definition RoutingPolicyKVAware := "kv_aware".
Definition RoutingPolicyLatencyBiased := "latency_biased".
Definition OutcomeAllow := "allow".
Definition OutcomeDeny := "deny".
Definition OutcomeDegrade := "degrade".
Definition OutcomeQuarantine := "quarantine".
Definition OutcomeRedirect := "redirect".
Record EndpointPickerMetrics := mkEndpointPickerMetrics {
  EndpointPickerMetrics_Endpoint : string; EndpointPickerMetrics_QueueDepth : Z; EndpointPickerMetrics_RunningRequests : Z;
  EndpointPickerMetrics_KVCacheUtilizationBasePoint : Z; EndpointPickerMetrics_ActiveAdaptersCount : Z }.

Record RouteTarget := mkRouteTarget {
  RouteTarget_Endpoint : string; RouteTarget_Weight : Z; RouteTarget_Priority : Z; RouteTarget_State : StateVector }.

Record RoutingSpec := mkRoutingSpec {
  RoutingSpec_Policy : string; RoutingSpec_Targets : list RouteTarget; RoutingSpec_FallbackTarget : option RouteTarget;
  RoutingSpec_MaxQueueTimeout : Duration }.

Record CapabilityMatrix := mkCapabilityMatrix {
  CapabilityMatrix_TensorParallel : string; CapabilityMatrix_DataParallel : string; CapabilityMatrix_PipelineParallel : string;
  CapabilityMatrix_ExpertParallel : string; CapabilityMatrix_KVCacheDtype : string; CapabilityMatrix_KVTransfer : string;
  CapabilityMatrix_SpeculativeDecoding : string; CapabilityMatrix_Quantization : string; CapabilityMatrix_LoRAHotSwap : string;
  CapabilityMatrix_StructuredOutput : string; CapabilityMatrix_ChunkedPrefill : string }.

Definition EvidenceDigest := "digest".
Definition EvidenceSignature := "signature".
Definition EvidenceAttestation := "attestation".
Definition EvidenceSBOM := "sbom".
Definition EvidenceAuditReceipt := "audit_receipt".
Record EvidenceClaim := mkEvidenceClaim {
  EvidenceClaim_ClaimID : string; EvidenceClaim_Kind : string; EvidenceClaim_Issuer : string; EvidenceClaim_SubjectURN : string;
  EvidenceClaim_Algorithm : string; EvidenceClaim_Digest : string; EvidenceClaim_AssertedAt : Time; EvidenceClaim_VerifiedAt : option Time }.

Record EvidenceRecord := mkEvidenceRecord {
  EvidenceRecord_Claims : list EvidenceClaim; EvidenceRecord_State : string }.

Record ConformanceEvaluation := mkConformanceEvaluation {
  ConformanceEvaluation_Tier : Z; ConformanceEvaluation_Status : string; ConformanceEvaluation_Violations : list string }.

Definition SignalTrace := "trace".
Definition SignalEvent := "event".
Definition SignalLog := "log".
Definition SignalMetric := "metric".
Definition SignalReceipt := "receipt".
Definition SignalEvidence := "evidence".
Record TelemetryMetrics := mkTelemetryMetrics {
  TelemetryMetrics_TTFTMicroseconds : Z; TelemetryMetrics_ITLMicroseconds : Z; TelemetryMetrics_QueueLatencyMicroseconds : Z;
  TelemetryMetrics_PrefillMicroseconds : Z; TelemetryMetrics_DecodeMicroseconds : Z; TelemetryMetrics_TotalLatencyMicroseconds : Z;
  TelemetryMetrics_TokensPerSecondBP : Z; TelemetryMetrics_InputTokens : Z; TelemetryMetrics_OutputTokens : Z }.

Record TelemetryRecord := mkTelemetryRecord {
  TelemetryRecord_Signal : string; TelemetryRecord_Timestamp : Time; TelemetryRecord_Metrics : TelemetryMetrics;
  TelemetryRecord_TraceID : string; TelemetryRecord_SpanID : string }.

(** ** abi.go *)

Record OpenInferenceSpec := mkOpenInferenceSpec {
  OIS_Version : string; OIS_Model : ModelSpec; OIS_Runtime : RuntimeSpec; OIS_Adapters : list AdapterSpec; OIS_Tokenizer : TokenizerSpec;
  OIS_KVTransfer : option KVTransferSpec; OIS_Routing : RoutingSpec; OIS_Evidence : EvidenceRecord; OIS_State : StateVector }.

Definition blank (s : string) : bool := TrimSpace s ==? "".

(** The error of the first condition that holds. *)
Fixpoint first_error {E} (l : list (bool * E)) : option E :=
  match l with
  | [] => None
  | (b, e) :: l => if b then Some e else first_error l
  end.

Definition ModelSpec_Validate (m : ModelSpec) : option AbiErr :=
  let d := ModelSpec_Descriptor m in
  first_error [(blank (ModelDescriptor_ModelID d), ErrInvalidModel); (ModelDescriptor_ContextLength d <=? 0, ErrInvalidModel);
               (blank (ModelDescriptor_ContentDigest d), ErrInvalidModel); (blank (ModelSpec_SourceURI m), ErrInvalidModel)].

Definition RuntimeSpec_Validate (r : RuntimeSpec) : option AbiErr :=
  let d := RuntimeSpec_Descriptor r in
  let p := RuntimeSpec_Parallelism r in
  first_error [(blank (RuntimeDescriptor_Engine d), ErrInvalidRuntime);
               ((RuntimeDescriptor_ConformanceTier d <? ConformanceTier0) || (RuntimeDescriptor_ConformanceTier d >? ConformanceTier3), ErrInvalidRuntime);
               (RuntimeSpec_AcceleratorCount r <? 0, ErrInvalidRuntime);
               ((ParallelismSpec_TensorParallel p <? 0) || (ParallelismSpec_PipelineParallel p <? 0), ErrInvalidRuntime)].

Definition AdapterSpec_Validate (a : AdapterSpec) : option AbiErr :=
  let d := AdapterSpec_Descriptor a in
  first_error [(blank (AdapterDescriptor_AdapterID d), ErrInvalidAdapter); (AdapterDescriptor_Rank d <=? 0, ErrInvalidAdapter);
               (blank (AdapterSpec_WeightsURI a), ErrInvalidAdapter)].

Definition TokenizerSpec_Validate (t : TokenizerSpec) : option AbiErr :=
  let d := TokenizerSpec_Descriptor t in
  first_error [(blank (TokenizerDescriptor_Kind d), ErrInvalidTokenizer); (TokenizerDescriptor_VocabularySize d <=? 0, ErrInvalidTokenizer)].

Definition KVTransferSpec_Validate (k : KVTransferSpec) : option AbiErr :=
  first_error [(blank (KVTransferDescriptor_Protocol (KVTransferSpec_Descriptor k)), ErrInvalidKVTransfer);
               (blank (KVTransferSpec_RemoteEndpoint k), ErrInvalidKVTransfer)].

Definition RoutingSpec_Validate (r : RoutingSpec) : option AbiErr :=
  first_error [(blank (RoutingSpec_Policy r), ErrInvalidRouting); (Z.of_nat (length (RoutingSpec_Targets r)) ==? 0, ErrInvalidRouting);
               (existsb (fun t => blank (RouteTarget_Endpoint t)) (RoutingSpec_Targets r), ErrInvalidRouting)].

Definition capabilities (c : CapabilityMatrix) : list string :=
  [CapabilityMatrix_TensorParallel c; CapabilityMatrix_DataParallel c; CapabilityMatrix_PipelineParallel c; CapabilityMatrix_ExpertParallel c;
   CapabilityMatrix_KVCacheDtype c; CapabilityMatrix_KVTransfer c; CapabilityMatrix_SpeculativeDecoding c; CapabilityMatrix_Quantization c;
   CapabilityMatrix_LoRAHotSwap c; CapabilityMatrix_StructuredOutput c; CapabilityMatrix_ChunkedPrefill c].

Definition declared (s : string) : bool := (s ==? CapabilitySupported) || (s ==? CapabilityUnsupported) || (s ==? CapabilityEmulated).

Definition CapabilityMatrix_Validate (c : CapabilityMatrix) : option AbiErr :=
  if forallb declared (capabilities c) then None else Some ErrInvalidCapability.

Definition EvidenceRecord_Validate (e : EvidenceRecord) : option AbiErr :=
  first_error [(EvidenceRecord_State e ==? AttestationUnspecified, ErrInvalidEvidence);
               (existsb (fun cl => blank (EvidenceClaim_Digest cl)) (EvidenceRecord_Claims e), ErrInvalidEvidence)].

(** The error of the first adapter that is refused. *)
Fixpoint adapters_error (l : list AdapterSpec) : option AbiErr :=
  match l with
  | [] => None
  | a :: l => match AdapterSpec_Validate a with Some e => Some e | None => adapters_error l end
  end.

(** The outer error and the one it wraps. *)
Inductive SpecErr := MissingVersion | InvalidPart (e : AbiErr).

(** The first part that is refused. *)
Fixpoint first_part (l : list (option AbiErr)) : option SpecErr :=
  match l with
  | [] => None
  | o :: l => match o with Some e => Some (InvalidPart e) | None => first_part l end
  end.

Definition OpenInferenceSpec_Validate (s : OpenInferenceSpec) : option SpecErr :=
  if blank (OIS_Version s) then Some MissingVersion
  else first_part [ModelSpec_Validate (OIS_Model s); RuntimeSpec_Validate (OIS_Runtime s); adapters_error (OIS_Adapters s);
                   TokenizerSpec_Validate (OIS_Tokenizer s); k ← OIS_KVTransfer s; KVTransferSpec_Validate k;
                   RoutingSpec_Validate (OIS_Routing s); EvidenceRecord_Validate (OIS_Evidence s)].

Inductive Violation := NotTotal | NoKVCacheDtype | NoKVTransfer | NoLoRAHotSwap.

Definition EvaluateStandardConformance (c : CapabilityMatrix) (tier : Z) : string * list Violation :=
  match CapabilityMatrix_Validate c with
  | Some _ => (ConformanceFail, [NotTotal])
  | None =>
      let v2 := if (tier >=? ConformanceTier2) && (CapabilityMatrix_KVCacheDtype c ==? CapabilityUnsupported) then [NoKVCacheDtype] else [] in
      let v3 := if tier >=? ConformanceTier3 then
                  (if CapabilityMatrix_KVTransfer c !=? CapabilitySupported then [NoKVTransfer] else [])
                  ++ (if CapabilityMatrix_LoRAHotSwap c ==? CapabilityUnsupported then [NoLoRAHotSwap] else [])
                else [] in
      (match v2 ++ v3 with [] => ConformancePass | _ => ConformanceFail end, v2 ++ v3)
  end.

(** ** Properties *)

Lemma first_error_none {E} (l : list (bool * E)) : first_error l = None <-> Forall (fun x => x.1 = false) l.
Proof.
  induction l as [|[[] e] l IH]; cbn; [by rewrite Forall_nil| |]; rewrite Forall_cons; cbn; [naive_solver|]. rewrite IH. naive_solver.
Qed.

Lemma first_part_none l : first_part l = None <-> Forall (fun o => o = None) l.
Proof. induction l as [|[e|] l IH]; cbn; [by rewrite Forall_nil| |]; rewrite Forall_cons; naive_solver. Qed.

Lemma adapters_none l : adapters_error l = None <-> forall a, a ∈ l -> AdapterSpec_Validate a = None.
Proof.
  induction l as [|a l IH]; cbn [adapters_error]; [setoid_rewrite elem_of_nil; naive_solver|]. setoid_rewrite elem_of_cons. destruct (AdapterSpec_Validate a) as [e|] eqn:E.
  - split; [intros H; discriminate H|]. intros H. rewrite (H a) in E by auto. discriminate E.
  - rewrite IH. split; [intros H x [->|Hx]; auto|auto].
Qed.

(** A specification is accepted exactly when all its parts are. *)
Lemma spec_accepted_iff s : OpenInferenceSpec_Validate s = None <->
  blank (OIS_Version s) = false /\ ModelSpec_Validate (OIS_Model s) = None /\ RuntimeSpec_Validate (OIS_Runtime s) = None
  /\ (forall a, a ∈ OIS_Adapters s -> AdapterSpec_Validate a = None) /\ TokenizerSpec_Validate (OIS_Tokenizer s) = None
  /\ (forall k, OIS_KVTransfer s = Some k -> KVTransferSpec_Validate k = None) /\ RoutingSpec_Validate (OIS_Routing s) = None
  /\ EvidenceRecord_Validate (OIS_Evidence s) = None.
Proof.
  unfold OpenInferenceSpec_Validate. destruct (blank (OIS_Version s)); [naive_solver|]. rewrite first_part_none, <- adapters_none.
  rewrite !Forall_cons, Forall_nil. destruct (OIS_KVTransfer s); cbn; naive_solver.
Qed.

(** An engine passes a tier exactly when every capability is declared and what
    the tier asks for is there; passing a tier is passing those below it. *)
Lemma conformance_ladder c tier :
  ((EvaluateStandardConformance c tier).1 = ConformancePass <->
     (forall x, x ∈ capabilities c -> declared x = true)
     /\ (2 <= tier -> CapabilityMatrix_KVCacheDtype c <> CapabilityUnsupported)
     /\ (3 <= tier -> CapabilityMatrix_KVTransfer c = CapabilitySupported /\ CapabilityMatrix_LoRAHotSwap c <> CapabilityUnsupported))
  /\ forall lower, lower <= tier -> (EvaluateStandardConformance c tier).1 = ConformancePass -> (EvaluateStandardConformance c lower).1 = ConformancePass.
Proof.
  assert (forall tier, (EvaluateStandardConformance c tier).1 = ConformancePass <->
     (forall x, x ∈ capabilities c -> declared x = true)
     /\ (2 <= tier -> CapabilityMatrix_KVCacheDtype c <> CapabilityUnsupported)
     /\ (3 <= tier -> CapabilityMatrix_KVTransfer c = CapabilitySupported /\ CapabilityMatrix_LoRAHotSwap c <> CapabilityUnsupported)) as H.
  { clear tier. intros tier. unfold EvaluateStandardConformance, CapabilityMatrix_Validate.
    assert ((forall x, x ∈ capabilities c -> declared x = true) <-> forallb declared (capabilities c) = true) as ->.
    { rewrite forallb_forall. setoid_rewrite list_elem_of_In. reflexivity. }
    destruct (forallb declared (capabilities c)); [|naive_solver]. cbn [fst]. unfold ConformanceTier2, ConformanceTier3.
    repeat case_bool_decide; cbn; (split; [intros ?; try done; split_and!; intros; try done; try lia|naive_solver lia]). }
  split; [apply H|]. intros lower Hl (H1 & H2 & H3)%H. apply H. naive_solver lia.
Qed.

(** The zero value of the attestation state is accepted, though it must be
    declared; negative degrees of data and expert parallelism are. *)
Example abi_oddities :
  EvidenceRecord_Validate (mkEvidenceRecord [] "") = None
  /\ EvidenceRecord_Validate (mkEvidenceRecord [] AttestationUnspecified) = Some ErrInvalidEvidence
  /\ RuntimeSpec_Validate (mkRuntimeSpec (mkRuntimeDescriptor "x" "" "" 1) "" 0 0 (mkParallelismSpec 1 1 (-1) (-1)) 0) = None.
Proof. by vm_compute. Qed.
